(* ===== verification/_CoqProject ===== *)
-Q . S2P
Prelude.v
Bytes.v
Wire.v
Protocol.v
ProtocolTables.v
WlPolicy.v
Clipboard.v
Endpoint.v
Objects.v
Pools.v
PoolsSafe.v
Session.v
Demo.v
SessionSafe.v
SessionSpec.v
Turn.v
ProxyClaims.v
Control.v
WireClaims.v
Text.v
Names.v
Wifi.v
WifiClaims.v
Dates.v
Update.v
UpdateClaims.v
Consent.v
Zone.v
ZoneSafe.v
ZoneText.v
ZoneClaims.v
Transfer.v
TransferClaims.v
Broker.v
BrokerClaims.v
Exfat.v
ExfatSafe.v
ExfatClaims.v
Netlink.v
NetlinkSafe.v
Netzone.v
NetlinkClaims.v
NetzoneClaims.v
Landlock.v
LandlockClaims.v
Registry.v
RegistrySafe.v
RegistryClaims.v
Password.v
Files.v
Cgroup.v
Tools.v
Volume.v
VolumeClaims.v
Rootfs.v
RootfsClaims.v
Stick.v
StickClaims.v
Suspend.v
SuspendClaims.v
Requests.v
RequestsClaims.v
Serve.v
ServeClaims.v
Syscalls.v
Bpf.v
Caps.v
Seccomp.v
SeccompSpec.v
Policy.v
PolicySafe.v
Images.v
ImagesClaims.v
Confine.v
Relay.v
Handshake.v
Init.v
