(* ===== verification/Prelude.v ===== *)
(** * Kryptik: a verification of its confinement core

    Kryptik runs each zone (a set of programs with one trust) in its own namespaces, under a
    seccomp filter, and shows its windows through a Wayland proxy of its own. This library
    models, in Rocq, the code that decides what a zone may do, and proves what that code
    promises. The sources are Rust, under src/compositor/wlproxy (the proxy) and
    src/compartments/kryptikd (the daemon).

    ** The parts and how they meet

    A zone file (zone.rs) names a zone, its network mode, storage, limits and identity; its policy
    file (policy.rs) adds system calls, socket families, netlink protocols and capabilities to a
    base. The daemon turns the two into a seccomp program (seccomp.rs) and a capability bounding
    set (caps.rs) before it starts the zone. The zone's clients then speak Wayland to the proxy,
    which parses every message (wire.rs, protocol.rs) against its tables (protocol_tables.rs),
    tracks every object, pool and surface (session.rs), applies the zone's policy (wlproxy's
    policy.rs), serves the clipboard itself (clipboard.rs, control.rs) and keeps the zone's
    sessions within one budget (main.rs). Through its broker socket (broker.rs) a zone asks the daemon
    for what crosses: files, with the user's consent (consent.rs), its clipboard, and, from the zone
    that holds the network, updates (update.rs) and the Wi-Fi it joins (wifi.rs).

    ** Files, and the code each models

    - Prelude: machine integers as [Z] with their wrap-around and overflow written out, lists
      indexed by [Z], sums over maps, [result] with [let?] for the [?] operator, and the monad
      [M S E] of methods on [&mut S] that return a [Result] or panic, with its weakest
      preconditions and the tactics that run them.
    - Bytes, Text: what the sources use of Rust's core library on bytes, UTF-8, lines, words and
      integers.
    - Wire, Protocol, ProtocolTables: wire.rs, protocol.rs, protocol_tables.rs, every table entry.
    - WlPolicy, Clipboard, Endpoint, Objects, Pools, Session: policy.rs, clipboard.rs and
      session.rs of the proxy. [Session] is the Rust struct, its shared-memory fields in the
      record [Shm] of Pools; each method is a computation of [M].
    - PoolsSafe, SessionSafe, SessionSpec: the invariant of pools and surfaces, the invariant of
      a session, and what a session forwards.
    - Turn, ProxyClaims: a turn of main.rs's loop ([turn]), its invariant, and the
      proxies reachable from the start by any sequence of turns.
    - Control: control.rs, the socket of the move gesture. WireClaims: the claims on the parts.
    - Zone, ZoneSafe, ZoneText, ZoneClaims: zone.rs. [zone_wf] and [zone_set] are what one file
      and the whole set of files may define.
    - Syscalls, Caps, Bpf, Seccomp, SeccompSpec: the call tables, caps.rs, the BPF machine, the
      assembly of the three programs of seccomp.rs, and the reference decisions.
    - Policy, PolicySafe, Confine: policy.rs, its invariant, and the confinement end to end.
    - Names: the names of zones and files the broker takes. Wifi, WifiClaims: wifi.rs, the saved
      networks and the scans of the net zone. Dates: the calendar of time.rs.
    - Update, UpdateClaims: update.rs, zone 0's side of the update channel; [Machine]
      and [mstep] let its operations interleave with a check that runs unlocked.
    - Consent: consent.rs, the question put to the user through a directory of files, its looks at
      the answer as a list of [Tick]s.
    - Transfer, TransferClaims: the transfer of a file between zones (broker.rs). Broker,
      BrokerClaims: request lines, the clipboards, and a connection from the peer's credentials to
      the reply, on the state of Update and Transfer.
    - Exfat, ExfatSafe, ExfatClaims: the reader of exFAT sticks (src/tools/stick), on a
      [Device] whose every read is answered anew.
    - Netlink, NetlinkSafe, NetlinkClaims: netlink.rs, the messages as bytes and an exchange with a
      kernel that answers as it likes. Netzone, NetzoneClaims: netzone.rs, the cards
      given to the nic zone and the attaching of the others to its bridge.
    - Landlock, LandlockClaims: landlock.rs and the rule sets of proxy.rs and supplicant.rs; a
      [Task] is a stack of layers, and what it may do is what every layer permits.
    - Registry, RegistrySafe, RegistryClaims: registry.rs as programs over its system calls
      ([Prog]), which any number of processes interleave and any call of which may fail.
    - Files: files.rs, with every state of the directory a crash could leave.
      Cgroup: cgroup.rs and spawn.rs's use of it. Password: password.rs.
    - Tools: system calls and commands as a family [Call] indexed by their answers, and traces of
      them. Over it: Volume, VolumeClaims (volume.rs), Images, ImagesClaims
      (images.rs), Stick, StickClaims (stick.rs), Suspend, SuspendClaims (suspend.rs and the
      command of main.rs), Rootfs, RootfsClaims (rootfs.rs), where [after] is the table of mounts a
      trace leaves.
    - Requests, RequestsClaims: how serve.rs reads a request and what it takes from one. Serve,
      ServeClaims: the launch daemon itself, a [Daemon] with its launches, jobs and
      proxies, each verb a method on it, and [turn] a round of its loop.
    - Of spawn.rs: Handshake, the parent, the intermediate and pid 1 as a step
      relation over their pipes and deaths; Init, what pid 1 does until it is the
      zone's command, composed of Rootfs, Landlock, Caps and Seccomp; Relay, the
      output of a zone in the launcher's log, the pid sent over a pipe and a launch's identity.
    - Demo: concrete kernels, sessions and messages the witnesses evaluate.

    ** What the theorems show

    - The proxy: it never panics and every loop of it ends, whatever clients, compositor and
      kernel do ([proxy_never_panics], [pump_total]); only allowlisted interfaces are live; a
      zone's memory, pools and windows stay within its budget; every counter is exact; titles and
      app_ids carry the zone's name; what the proxy serves never reaches the compositor and what
      policy has no opinion on is forwarded byte for byte; queues deliver in order and lose
      nothing.
    - The filters: the assembled programs are equivalent to reference decisions read off the
      rules ([zone_filter_correct], [proxy_filter], [supplicant_filter]); no policy file opens a
      denied call; the bounding set keeps only what may be kept.
    - Zone files: what is accepted is well-formed, any two zones are apart, and the file format
      round trips.
    - Wi-Fi: the file of networks round trips, changes touch one network only, and scans are
      bounded whatever the net zone answers.
    - Updates: statements never go back in time, versions are totally ordered, what is staged
      stays within what was signed, a complete stage is exact, and a verified release arrives.
    - The broker: nothing crosses without the user's yes to it or the launcher's; what is delivered
      is exactly what was checked, under a free name; a connection is a sequence of steps of the
      update machine, and only the network zone's moves it; clipboards give back what was put.
    - Sticks: the reader ends on any device without a panic, reads nothing outside it, writes
      nothing outside the destination and no more than the device holds, and never copies what
      lies past a file's valid data.
    - Networks: messages say what was asked with exact lengths, a port is isolated before it is up,
      addresses of zones are apart, and whatever the kernel answers the plumbing ends.
    - Launching: a name has one running launcher at most, and nobody takes its entry away; a zone's
      processes run under its limits and under Landlock layers that leave it its own places; a file
      written atomically is the old one or the whole new one; wrong passwords slow the next try.
    - Storage: a step of a trace is allowed by what was seen before it ([justified]), whatever the
      tools answer. Volumes are formatted only when blank and erased before they are deleted;
      images are mounted only from the signed list, checked by dm-verity; a stick is given only if
      nothing of the system uses it, and taken back before its record goes; the machine sleeps
      only with the zones still and every key dropped.
    - The launch daemon: reading a request ends in time and within bounds, a launch is taken only
      in its one form, every connection is answered exactly once, no two jobs of a kind collide,
      and nothing is done for a peer the kernel has not named or who may not ask.
    - A launch: its processes come in order and settle, none waiting for ever or outliving its
      parent ([launch_settles]); the root built for a zone holds only what it is granted
      ([zone_root]); and the command runs only once every layer is on ([launched_confined]).

    ** Parameters

    What is not under src/ is a parameter. [Os] answers the proxy's fcntl, fstat and fallocate
    calls; a turn's [Input] holds what poll, recvmsg and sendmsg answered; [Libc] gives the
    numbers of the libc crate, with [LibcLaws] (they are distinct and within the kernel's table)
    discharged for x86-64 by [x86_64_laws]; [Kernel] and [prctl_drop] answer seccomp(2) and
    prctl(2); [say] is how an error reads. [Oracle] and [Host] answer the netlink socket, sysfs and the
    clock, with [kernel_ok] (no error number of a reply is -2^31) where one is negated; Landlock's [Os],
    [CgOs] and the [ok] of Files answer their system calls, the [luck] of Registry makes any call
    fail, and [crypt] is crypt(3). [Tools.Sys]
    answers every call of the storage code, by its place in the trace; Images' [check] is the signature
    check of kryptik-update and Stick's [show_gb] the printing of a size. [Serve.Env] answers what the
    launch daemon asks of the system and of the other parts, by the place in its log; [Words] says how
    an error reads and [quoted] is Rust's quoting of a string. [Rootfs.Sys] answers the calls that
    build a root, and [Init.World] the rest of what pid 1 asks. Error texts are constructors.

    ** Bounds and fuel

    [pump] has as fuel the bytes pending, since every round consumes a header; [apply] the
    surfaces there are; [settle_actions] the sessions and two. [proxy_never_panics] counts running
    out of fuel as a panic, so the fuel is proved enough. The BPF machine recurses on the program,
    whose jumps go forward. The
    loops over a stick's directories have as fuel what the budget and the cluster at hand leave to
    read ([slot_room]), and running out is a panic too, which [stick_total] excludes; so has the wait
    for a stale port, 51 rounds of 100 ms within its five seconds ([plumbing_total]). The retries of
    registry.rs and cgroup.rs are the source's own counts, as are
    the 30 tries of an unmount; the wait for zones to freeze has 501 rounds of 20 ms for its ten
    seconds ([sealed_sleep]), and the launch daemon's wait for an ended launch's status 51 of 10 ms.
    Its count of low readings of the battery is 32 bits wide, so that [daemon_answers] speaks of
    2^32 rounds. [room] bounds by 2^62 the totals a machine could never reach. Counters of messages
    and generations, 64 bits wide and incremented once per message, are unbounded.

    ** Not modelled

    The poll set, the log, option parsing and [--once] of the proxy; the closing of descriptors,
    which Rust does by ownership; the system calls themselves. Of the daemon: what a launch prepares
    before it forks, and the command line, which sequence the parts above; floating-point
    clock discipline and colour distances.
    In the update channel the file system's operations succeed, and kryptik-update's verdicts,
    the clock and the free space are arguments. The broker's clock discipline and the opening of a
    stick are answers of its environment. FAT sticks are read by the fatfs crate. What a mount
    shows is taken from what was asked of the kernel: attributes as they were set, paths as they
    were written. *)
From Stdlib Require Export ZArith Lia Bool.
From stdpp Require Export base decidable option list gmap fin_maps strings pretty.

#[export] Set Default Goal Selector "!".

(** ** Machine integers

    Rust's [u16], [u32], [u64] and [usize] (64 bits: the target is x86-64) are
    [Z]; every operation that can leave its width is written out. *)
Abbreviation U16_MAX := 65535%Z.
Abbreviation U32_MAX := 4294967295%Z.
Abbreviation USIZE_MAX := 18446744073709551615%Z.

(** [usize::checked_add]. *)
Definition checked_add (a b : Z) : option Z :=
  if (a + b <=? USIZE_MAX)%Z then Some (a + b)%Z else None.

(** [usize::saturating_sub]. *)
Definition saturating_sub (a b : Z) : Z := Z.max 0 (a - b).

(** [x as i32] for a [u32]. *)
Definition as_i32 (x : Z) : Z := if (x <? 2147483648)%Z then x else (x - 4294967296)%Z.

(** [x as u16], [x as u32]: the low bits. *)
Definition as_u16 (x : Z) : Z := x mod 65536.
Definition as_u32 (x : Z) : Z := x mod 4294967296.

(** ** Lists indexed by [Z]

    A vector's length and indices are [usize]; [Z] keeps a 32-bit index from
    being unfolded into a unary number before it is compared with the length. *)
Definition zlen {A} (l : list A) : Z := Z.of_nat (length l).

Definition zlookup {A} (l : list A) (i : Z) : option A :=
  if (0 <=? i)%Z && (i <? zlen l)%Z then l !! Z.to_nat i else None.

Definition zinsert {A} (l : list A) (i : Z) (x : A) : list A :=
  if (0 <=? i)%Z && (i <? zlen l)%Z then <[Z.to_nat i := x]> l else l.

(** [&l[from..to]], for bounds the caller checked. *)
Definition slice {A} (l : list A) (from to : Z) : list A :=
  take (Z.to_nat (to - from)) (drop (Z.to_nat from) l).

Lemma zlen_nil {A} : zlen (@nil A) = 0%Z.
Proof. done. Qed.

Lemma zlen_cons {A} (x : A) l : zlen (x :: l) = (1 + zlen l)%Z.
Proof. unfold zlen. simpl. lia. Qed.

Lemma zlen_app {A} (l k : list A) : zlen (l ++ k) = (zlen l + zlen k)%Z.
Proof. unfold zlen. rewrite length_app. lia. Qed.

Lemma zlen_nonneg {A} (l : list A) : (0 <= zlen l)%Z.
Proof. unfold zlen. lia. Qed.

Lemma zlen_take {A} (l : list A) n :
  (0 <= n <= zlen l)%Z -> zlen (take (Z.to_nat n) l) = n.
Proof. unfold zlen. intros. rewrite length_take. lia. Qed.

Lemma zlen_drop {A} (l : list A) n :
  (0 <= n <= zlen l)%Z -> zlen (drop (Z.to_nat n) l) = (zlen l - n)%Z.
Proof. unfold zlen. intros. rewrite length_drop. lia. Qed.

Lemma zlen_slice {A} (l : list A) a b :
  (0 <= a <= b)%Z -> (b <= zlen l)%Z -> zlen (slice l a b) = (b - a)%Z.
Proof. unfold slice, zlen. intros. rewrite length_take, length_drop. lia. Qed.

Lemma zlookup_app_l {A} (l k : list A) i :
  (i < zlen l)%Z -> zlookup (l ++ k) i = zlookup l i.
Proof.
  unfold zlookup. intros Hi. rewrite zlen_app. pose proof (zlen_nonneg k).
  destruct (Z.leb_spec 0 i); simpl; [|done].
  rewrite (proj2 (Z.ltb_lt i (zlen l)) Hi), (proj2 (Z.ltb_lt i (zlen l + zlen k))) by lia.
  apply lookup_app_l. unfold zlen in Hi. lia.
Qed.

Lemma zlookup_Some {A} (l : list A) i x :
  zlookup l i = Some x <-> (0 <= i)%Z /\ l !! Z.to_nat i = Some x.
Proof.
  unfold zlookup. destruct (Z.leb_spec 0 i); simpl; [|naive_solver lia].
  destruct (Z.ltb_spec i (zlen l)); [naive_solver|].
  split; [done|]. intros [_ Hx%lookup_lt_Some]. unfold zlen in *. lia.
Qed.

Lemma zlookup_bound {A} (l : list A) i x :
  zlookup l i = Some x -> (0 <= i < zlen l)%Z.
Proof. intros [? Hx%lookup_lt_Some]%zlookup_Some. unfold zlen. lia. Qed.

Lemma zlookup_None {A} (l : list A) i :
  (0 <= i)%Z -> zlookup l i = None <-> (zlen l <= i)%Z.
Proof.
  intros Hi. unfold zlookup. rewrite (proj2 (Z.leb_le 0 i) Hi). simpl.
  destruct (Z.ltb_spec i (zlen l)); [|naive_solver].
  rewrite lookup_ge_None. unfold zlen in *. lia.
Qed.

Lemma zlookup_snoc {A} (l : list A) x i :
  zlookup (l ++ [x]) i = if (i =? zlen l)%Z then Some x else zlookup l i.
Proof.
  destruct (Z.eqb_spec i (zlen l)) as [->|Hne].
  - apply zlookup_Some. split; [apply zlen_nonneg|].
    unfold zlen. rewrite Nat2Z.id. by apply list_lookup_middle.
  - destruct (Z.ltb_spec i (zlen l)); [by apply zlookup_app_l|].
    unfold zlookup. rewrite zlen_app. change (zlen [x]) with 1%Z. pose proof (zlen_nonneg l).
    replace (i <? zlen l + 1)%Z with false by (symmetry; apply Z.ltb_ge; lia).
    replace (i <? zlen l)%Z with false by (symmetry; apply Z.ltb_ge; lia).
    by destruct (0 <=? i)%Z.
Qed.

Lemma zlen_zinsert {A} (l : list A) i x : zlen (zinsert l i x) = zlen l.
Proof. unfold zinsert, zlen. case_match; [by rewrite length_insert|done]. Qed.

Lemma zlookup_zinsert {A} (l : list A) i j x :
  (0 <= i < zlen l)%Z ->
  zlookup (zinsert l i x) j = if (j =? i)%Z then Some x else zlookup l j.
Proof.
  intros Hi. unfold zlookup. rewrite zlen_zinsert. unfold zinsert.
  replace ((0 <=? i)%Z && (i <? zlen l)%Z) with true by (symmetry; lia).
  destruct (Z.eqb_spec j i) as [->|Hne].
  - replace ((0 <=? i)%Z && (i <? zlen l)%Z) with true by (symmetry; lia).
    apply list_lookup_insert_eq. unfold zlen in *. lia.
  - destruct ((0 <=? j)%Z && (j <? zlen l)%Z) eqn:Hj; [|done].
    apply list_lookup_insert_ne. lia.
Qed.

Lemma zlen_filter {A} (f : A -> bool) (l : list A) : (zlen (List.filter f l) <= zlen l)%Z.
Proof. induction l as [|x l IH]; [done|]. simpl. destruct (f x); rewrite ?zlen_cons; lia. Qed.

Lemma forallb_Forall {A} (f : A -> bool) l :
  forallb f l = true <-> Forall (fun x => f x = true) l.
Proof.
  rewrite List.forallb_forall, Forall_forall. setoid_rewrite list_elem_of_In. done.
Qed.

(** [concat] of a mapped list, one element at a time. *)
Lemma join_fmap_cons {A B} (g : A -> list B) x l :
  mjoin (g <$> x :: l) = g x ++ mjoin (g <$> l).
Proof. done. Qed.

(** Two lists cut at the first occurrence of a separator. *)
Lemma app_sep_inj {A} (x : A) (l1 l2 r1 r2 : list A) :
  x ∉ l1 -> x ∉ l2 -> l1 ++ x :: r1 = l2 ++ x :: r2 -> l1 = l2 /\ r1 = r2.
Proof.
  revert l2. induction l1 as [|a l1 IH]; intros [|b l2] H1 H2 H; simplify_eq/=; try done.
  - set_solver.
  - set_solver.
  - apply not_elem_of_cons in H1 as [_ H1], H2 as [_ H2]. naive_solver.
Qed.

Lemma NoDup_snoc {A} (l : list A) x : NoDup l -> x ∉ l -> NoDup (l ++ [x]).
Proof.
  intros Hl Hx. apply NoDup_app. split; [done|]. split; [|apply NoDup_singleton].
  intros y Hy ->%list_elem_of_singleton. done.
Qed.

(** ** Sums over a map's values *)
Definition msum `{Countable K} {V} (f : V -> Z) (m : gmap K V) : Z :=
  map_fold (fun _ v n => (f v + n)%Z) 0%Z m.

Section msum.
Context `{Countable K} {V : Type} (f : V -> Z).
Open Scope Z_scope.
Implicit Types (m : gmap K V).

Lemma msum_empty : msum f (∅ : gmap K V) = 0.
Proof. apply map_fold_empty. Qed.

Lemma msum_insert_None m k v : m !! k = None -> msum f (<[k:=v]> m) = f v + msum f m.
Proof. intros Hk. unfold msum.
  apply (map_fold_insert_L (fun _ v n => f v + n)); [|done]. intros. lia. Qed.

Lemma msum_delete m k v : m !! k = Some v -> msum f (delete k m) = msum f m - f v.
Proof.
  intros Hk. rewrite <-(insert_delete_id m k v Hk) at 2.
  rewrite msum_insert_None by apply lookup_delete_eq. lia.
Qed.

Lemma msum_insert_Some m k v v' :
  m !! k = Some v -> msum f (<[k:=v']> m) = msum f m - f v + f v'.
Proof.
  intros Hk. rewrite <-insert_delete_eq, msum_insert_None by apply lookup_delete_eq.
  rewrite (msum_delete m k v) by done. lia.
Qed.

Lemma msum_nonneg m : (forall k v, m !! k = Some v -> 0 <= f v) -> 0 <= msum f m.
Proof.
  induction m as [|k v m Hk IH] using map_ind; intros Hm; [by rewrite msum_empty|].
  rewrite msum_insert_None by done. pose proof (Hm k v (lookup_insert_eq _ _ _)).
  assert (0 <= msum f m); [|lia]. apply IH. intros k' v' Hk'.
  apply (Hm k'). rewrite lookup_insert_ne; [done|]. congruence.
Qed.

Lemma msum_le m k v :
  (forall k v, m !! k = Some v -> 0 <= f v) -> m !! k = Some v -> f v <= msum f m.
Proof.
  intros Hm Hk. pose proof (msum_delete m k v Hk).
  assert (0 <= msum f (delete k m)); [|lia]. apply msum_nonneg.
  intros k' v' [_ Hk']%lookup_delete_Some. eauto.
Qed.

Lemma msum_zero m : (forall k v, m !! k = Some v -> f v = 0) -> msum f m = 0.
Proof.
  induction m as [|k v m Hk IH] using map_ind; intros Hm; [apply msum_empty|].
  rewrite msum_insert_None, (Hm k v) by (done || apply lookup_insert_eq).
  rewrite IH; [done|]. intros k' v' Hk'. apply (Hm k'). rewrite lookup_insert_ne; [done|]. congruence.
Qed.
End msum.

(** A bounded sum and how it changes with one entry. *)
Lemma msum_insert `{Countable K} {V} (f : V -> Z) (m : gmap K V) k v' :
  msum f (<[k:=v']> m) = (msum f m - from_option f 0 (m !! k) + f v')%Z.
Proof.
  destruct (m !! k) as [v|] eqn:Hk; simpl.
  - by apply msum_insert_Some.
  - rewrite msum_insert_None by done. lia.
Qed.

(** ** [Result] and the [?] operator *)
Inductive result (A E : Type) : Type :=
| Ok (a : A)
| Err (e : E).
Arguments Ok {A E} a.
Arguments Err {A E} e.

Definition result_bind {A B E} (r : result A E) (f : A -> result B E) : result B E :=
  match r with Ok a => f a | Err e => Err e end.

(** [Option::ok_or]. *)
Definition ok_or {A E} (o : option A) (e : E) : result A E :=
  match o with Some a => Ok a | None => Err e end.

Declare Scope result_scope.
Delimit Scope result_scope with result.
Notation "'let?' x ':=' r 'in' k" := (result_bind r (fun x => k))
  (at level 10, x pattern, r at level 100, k at level 200) : result_scope.

Lemma result_bind_Ok {A B E} (r : result A E) (f : A -> result B E) b :
  result_bind r f = Ok b <-> exists a, r = Ok a /\ f a = Ok b.
Proof. destruct r; naive_solver. Qed.

(** Every [let?] of a computation that gave a value, and every test on its way. *)
Ltac bind_inv :=
  repeat match goal with
  | H : result_bind _ _ = Ok _ |- _ =>
    let a := fresh "a" in let Ha := fresh "E" in apply result_bind_Ok in H as (a & Ha & H)
  | a : unit |- _ => destruct a
  end.

(** ** Stateful code that may fail or panic

    [M S E A] is a method on [&mut S] returning [Result<A, E>]: the state is kept
    when the method fails, as Rust keeps it, and [Panic] is an unwrap of [None],
    an index out of range or an arithmetic overflow (the release profile keeps
    overflow checks on). *)
Inductive outcome (A E : Type) : Type :=
| Done (a : A)
| Fail (e : E)
| Panic.
Arguments Done {A E} a.
Arguments Fail {A E} e.
Arguments Panic {A E}.

Definition M (S E A : Type) : Type := S -> outcome A E * S.

Section monad.
Context {S E : Type}.

#[global] Instance M_ret : MRet (M S E) := fun A a s => (Done a, s).
#[global] Instance M_bind : MBind (M S E) := fun A B f m s =>
  match m s with
  | (Done a, s') => f a s'
  | (Fail e, s') => (Fail e, s')
  | (Panic, s') => (Panic, s')
  end.

Definition fail {A} (e : E) : M S E A := fun s => (Fail e, s).
Definition panic {A} : M S E A := fun s => (Panic, s).
Definition gets {A} (f : S -> A) : M S E A := fun s => (Done (f s), s).
Definition modify (f : S -> S) : M S E unit := fun s => (Done tt, f s).
(** [?] on a [Result] of the same error type. *)
Definition lift {A} (r : result A E) : M S E A := fun s =>
  match r with Ok a => (Done a, s) | Err e => (Fail e, s) end.
(** [.ok_or(e)?]. *)
Definition require {A} (o : option A) (e : E) : M S E A := lift (ok_or o e).
(** [.unwrap()], and indexing. *)
Definition unwrap {A} (o : option A) : M S E A :=
  match o with Some a => mret a | None => panic end.
(** [a - b] on [usize]: an underflow panics. *)
Definition usize_sub (a b : Z) : M S E Z :=
  if (b <=? a)%Z then mret (a - b)%Z else panic.
(** [a + b] on [usize]: an overflow panics. *)
Definition usize_add (a b : Z) : M S E Z :=
  if (a + b <=? USIZE_MAX)%Z then mret (a + b)%Z else panic.
Definition when (b : bool) (m : M S E unit) : M S E unit :=
  if b then m else mret tt.
(** [if b { return Err(e); }]. *)
Definition reject_if (b : bool) (e : E) : M S E unit :=
  if b then fail e else mret tt.

(** [for x in l { f(x)? }]. *)
Fixpoint for_each {A} (l : list A) (f : A -> M S E unit) : M S E unit :=
  match l with
  | [] => mret tt
  | x :: l => f x ≫= fun _ => for_each l f
  end.

(** Weakest precondition: [Q] of a value, [R] of an error, and no panic. *)
Definition wp {A} (m : M S E A) (Q : A -> S -> Prop) (R : E -> S -> Prop) (s : S) : Prop :=
  match m s with
  | (Done a, s') => Q a s'
  | (Fail e, s') => R e s'
  | (Panic, _) => False
  end.

Lemma wp_ret {A} (a : A) (Q : A -> S -> Prop) R s : Q a s -> wp (mret a) Q R s.
Proof. done. Qed.

Lemma wp_bind {A B} (m : M S E A) (f : A -> M S E B) Q R s :
  wp m (fun a => wp (f a) Q R) R s -> wp (m ≫= f) Q R s.
Proof. unfold wp, mbind, M_bind. by destruct (m s) as [[?|?|] ?]. Qed.

Lemma wp_mono {A} (m : M S E A) (Q Q' : A -> S -> Prop) (R R' : E -> S -> Prop) s :
  (forall a s', Q a s' -> Q' a s') -> (forall e s', R e s' -> R' e s') ->
  wp m Q R s -> wp m Q' R' s.
Proof. unfold wp. destruct (m s) as [[?|?|] ?]; naive_solver. Qed.

Lemma wp_conj {A} (m : M S E A) (Q Q' : A -> S -> Prop) (R R' : E -> S -> Prop) s :
  wp m Q R s -> wp m Q' R' s ->
  wp m (fun a s' => Q a s' /\ Q' a s') (fun e s' => R e s' /\ R' e s') s.
Proof. unfold wp. destruct (m s) as [[?|?|] ?]; naive_solver. Qed.

Lemma wp_fail {A} e (Q : A -> S -> Prop) (R : E -> S -> Prop) s : R e s -> wp (fail e) Q R s.
Proof. done. Qed.

Lemma wp_gets {A} (f : S -> A) (Q : A -> S -> Prop) R s : Q (f s) s -> wp (gets f) Q R s.
Proof. done. Qed.

Lemma wp_modify f (Q : unit -> S -> Prop) R s : Q tt (f s) -> wp (modify f) Q R s.
Proof. done. Qed.

Lemma wp_lift {A} (r : result A E) (Q : A -> S -> Prop) (R : E -> S -> Prop) s :
  (forall a, r = Ok a -> Q a s) -> (forall e, r = Err e -> R e s) -> wp (lift r) Q R s.
Proof. destruct r; cbv [wp lift]; auto. Qed.

Lemma wp_require {A} (o : option A) e (Q : A -> S -> Prop) (R : E -> S -> Prop) s :
  (forall a, o = Some a -> Q a s) -> (o = None -> R e s) -> wp (require o e) Q R s.
Proof. destruct o; cbv [wp lift require ok_or]; auto. Qed.

Lemma wp_unwrap {A} (o : option A) (Q : A -> S -> Prop) R s a :
  o = Some a -> Q a s -> wp (unwrap o) Q R s.
Proof. by intros ->. Qed.

Lemma wp_usize_sub a b (Q : Z -> S -> Prop) R s :
  (b <= a)%Z -> Q (a - b)%Z s -> wp (usize_sub a b) Q R s.
Proof. intros H HQ. unfold usize_sub. by rewrite (proj2 (Z.leb_le b a) H). Qed.

Lemma wp_usize_add a b (Q : Z -> S -> Prop) R s :
  (a + b <= USIZE_MAX)%Z -> Q (a + b)%Z s -> wp (usize_add a b) Q R s.
Proof. intros H HQ. unfold usize_add. by rewrite (proj2 (Z.leb_le _ _) H). Qed.

Lemma wp_when b m (Q : unit -> S -> Prop) R s :
  (b = true -> wp m Q R s) -> (b = false -> Q tt s) -> wp (when b m) Q R s.
Proof. destruct b; cbn [when]; [by auto|]. intros _ HQ. apply wp_ret. by apply HQ. Qed.

Lemma wp_reject_if b e (Q : unit -> S -> Prop) (R : E -> S -> Prop) s :
  (b = true -> R e s) -> (b = false -> Q tt s) -> wp (reject_if b e) Q R s.
Proof. destruct b; cbn [reject_if]; intros HR HQ; [by apply wp_fail, HR|by apply wp_ret, HQ]. Qed.

(** A loop keeps an invariant its body keeps. *)
Lemma wp_for_each {A} (I : S -> Prop) (l : list A) f R :
  (forall x s, x ∈ l -> I s -> wp (f x) (fun _ => I) R s) ->
  forall s, I s -> wp (for_each l f) (fun _ => I) R s.
Proof.
  induction l as [|x l IH]; intros Hf s Hs; simpl; [done|].
  apply wp_bind. eapply wp_mono; [..|apply Hf; [constructor|done]]; [|done].
  intros [] s' Hs'. apply IH; [|done]. intros. apply Hf; [by constructor|done].
Qed.

(** *** Runs that succeed, read backwards *)
Lemma bind_Done {A B} (m : M S E A) (f : A -> M S E B) s b s2 :
  (m ≫= f) s = (Done b, s2) <-> exists a s1, m s = (Done a, s1) /\ f a s1 = (Done b, s2).
Proof. unfold mbind, M_bind. destruct (m s) as [[?|?|] ?]; naive_solver. Qed.
Lemma ret_Done {A} (a : A) s b s2 : (mret a : M S E A) s = (Done b, s2) <-> a = b /\ s = s2.
Proof. unfold mret, M_ret. naive_solver. Qed.
Lemma gets_Done {A} (f : S -> A) s b s2 : gets f s = (Done b, s2) <-> f s = b /\ s = s2.
Proof. unfold gets. naive_solver. Qed.
Lemma modify_Done f s u s2 : modify f s = (Done u, s2) <-> f s = s2.
Proof. unfold modify. destruct u. naive_solver. Qed.
Lemma lift_Done {A} (r : result A E) s b s2 : lift r s = (Done b, s2) <-> r = Ok b /\ s = s2.
Proof. unfold lift. destruct r; naive_solver. Qed.
Lemma require_Done {A} (o : option A) e s b s2 : require o e s = (Done b, s2) <-> o = Some b /\ s = s2.
Proof. unfold require. rewrite lift_Done. destruct o; naive_solver. Qed.
Lemma reject_if_Done b e s u s2 : reject_if b e s = (Done u, s2) <-> b = false /\ s = s2.
Proof. unfold reject_if, fail. destruct b, u; [naive_solver|]. rewrite ret_Done. naive_solver. Qed.
Lemma when_Done b m s u s2 :
  when b m s = (Done u, s2) <-> if b then m s = (Done u, s2) else s = s2.
Proof. unfold when. destruct b; [done|]. rewrite ret_Done. destruct u. naive_solver. Qed.
Lemma fail_Done {A} e s (b : A) s2 : fail e s = (Done b, s2) <-> False.
Proof. unfold fail. naive_solver. Qed.
Lemma unwrap_Done {A} (o : option A) s b s2 : unwrap o s = (Done b, s2) <-> o = Some b /\ s = s2.
Proof. unfold unwrap, panic. destruct o; [|naive_solver]. rewrite ret_Done. naive_solver. Qed.
Lemma usize_sub_Done a b s c s2 : usize_sub a b s = (Done c, s2) <-> (b <= a)%Z /\ (c = a - b)%Z /\ s = s2.
Proof.
  unfold usize_sub, panic. destruct (Z.leb_spec b a); [rewrite ret_Done|]; naive_solver lia.
Qed.

(** [m] never panics from [I], and leaves [I] true whether it succeeds or fails. *)
Definition keeps {A} (I : S -> Prop) (m : M S E A) : Prop :=
  forall s, I s -> wp m (fun _ => I) (fun _ => I) s.

Lemma keeps_wp {A} (I : S -> Prop) (m : M S E A) s :
  keeps I m -> I s -> wp m (fun _ => I) (fun _ => I) s.
Proof. auto. Qed.

Lemma keeps_bind {A B} I (m : M S E A) (f : A -> M S E B) :
  keeps I m -> (forall a, keeps I (f a)) -> keeps I (m ≫= f).
Proof.
  intros Hm Hf s Hs. apply wp_bind.
  eapply wp_mono; [..|by apply Hm]; [|done]. intros a s' Hs'. by apply Hf.
Qed.

Lemma keeps_ret {A} I (a : A) : keeps I (mret a).
Proof. by intros s ?. Qed.
Lemma keeps_fail {A} I e : keeps I (@fail A e).
Proof. by intros s ?. Qed.
Lemma keeps_gets {A} I (f : S -> A) : keeps I (gets f).
Proof. by intros s ?. Qed.
Lemma keeps_lift {A} I (r : result A E) : keeps I (lift r).
Proof. intros s ?. by apply wp_lift. Qed.
Lemma keeps_require {A} I (o : option A) e : keeps I (require o e).
Proof. apply keeps_lift. Qed.
Lemma keeps_when I b m : (b = true -> keeps I m) -> keeps I (when b m).
Proof. destruct b; simpl; [auto|]. intros _. apply keeps_ret. Qed.
Lemma keeps_reject_if I b e : keeps I (reject_if b e).
Proof. destruct b; [apply keeps_fail|apply keeps_ret]. Qed.
Lemma keeps_modify (I : S -> Prop) f : (forall s, I s -> I (f s)) -> keeps I (modify f).
Proof. intros Hf s Hs. by apply Hf. Qed.
Lemma keeps_for_each {A} I (l : list A) f :
  (forall x, x ∈ l -> keeps I (f x)) -> keeps I (for_each l f).
Proof. intros Hf s Hs. apply wp_for_each; [|done]. intros x s' Hx. by apply Hf. Qed.
End monad.

(** A [Result] handled where it is returned, as [match f() { Ok(..) => .., Err(..) => .. }] does. *)
Definition tried {S E F A} (m : M S E A) : M S F (result A E) := fun s =>
  match m s with
  | (Done a, s') => (Done (Ok a), s')
  | (Fail e, s') => (Done (Err e), s')
  | (Panic, s') => (Panic, s')
  end.

Lemma wp_tried {S E F A} (m : M S E A) (Q : result A E -> S -> Prop) (R : F -> S -> Prop) s :
  wp m (fun a s' => Q (Ok a) s') (fun e s' => Q (Err e) s') s -> wp (tried m) Q R s.
Proof. unfold wp, tried. by destruct (m s) as [[?|?|] ?]. Qed.

#[global] Opaque M_ret M_bind.

(** The development's hint database: closes the monadic steps that only read. *)
Create HintDb kryptik discriminated.
#[export] Hint Resolve keeps_bind keeps_ret keeps_fail keeps_gets keeps_lift keeps_require
  keeps_when keeps_reject_if keeps_for_each : kryptik.

(** One weakest-precondition step through the monad's operations. *)
Ltac wp_step :=
  lazymatch goal with
  | |- wp (_ ≫= _) _ _ _ => apply wp_bind
  | |- wp (mret _) _ _ _ => apply wp_ret
  | |- wp (fail _) _ _ _ => apply wp_fail
  | |- wp (gets _) _ _ _ => apply wp_gets
  | |- wp (modify _) _ _ _ => apply wp_modify
  | |- wp (lift _) _ _ _ => apply wp_lift; [intros ? ?|intros ? ?]
  | |- wp (require _ _) _ _ _ => apply wp_require; [intros ? ?|intros ?]
  | |- wp (when _ _) _ _ _ => apply wp_when; intros ?
  | |- wp (reject_if _ _) _ _ _ => apply wp_reject_if; intros ?
  end.
Ltac wp_steps := repeat (wp_step; simpl).

(** Reads a successful run [H] backwards, one operation. *)
Ltac run_step H :=
  cbv beta zeta in H;
  lazymatch type of H with
  | (_ ≫= _) _ = _ =>
    let a := fresh "a" in let s := fresh "s" in let H1 := fresh "R" in
    apply bind_Done in H as (a & s & H1 & H); run_step H1
  | mret _ _ = _ => apply ret_Done in H as [? ?]
  | gets _ _ = _ => apply gets_Done in H as [? ?]
  | modify _ _ = _ => apply modify_Done in H
  | lift _ _ = _ => apply lift_Done in H as [? ?]
  | require _ _ _ = _ => apply require_Done in H as [? ?]
  | reject_if _ _ _ = _ => apply reject_if_Done in H as [? ?]
  | fail _ _ = _ => apply fail_Done in H as []
  | unwrap _ _ = _ => apply unwrap_Done in H as [? ?]
  | _ => idtac
  end.

(** One step of a [keeps] proof through the monad's operations and the code's branches. *)
Ltac keeps_step :=
  cbv beta zeta;
  lazymatch goal with
  | |- keeps _ (_ ≫= _) => apply keeps_bind; [|intros ?]
  | |- keeps _ (mret _) => apply keeps_ret
  | |- keeps _ (fail _) => apply keeps_fail
  | |- keeps _ (gets _) => apply keeps_gets
  | |- keeps _ (lift _) => apply keeps_lift
  | |- keeps _ (require _ _) => apply keeps_require
  | |- keeps _ (reject_if _ _) => apply keeps_reject_if
  | |- keeps _ (when _ _) => apply keeps_when; intros ?
  | |- keeps _ (for_each _ _) => apply keeps_for_each; intros ? ?
  | |- keeps _ (if ?b then _ else _) => destruct b eqn:?
  | |- keeps _ (match ?x with _ => _ end) => destruct x eqn:?
  | |- keeps _ _ => solve [eauto with kryptik]
  end.
Ltac keeps_steps := repeat keeps_step.

(** [lia] over [/] and [mod] by constants. *)
Ltac dlia := Z.to_euclidean_division_equations; lia.

(** Destructs an [if] of the goal, keeping its boolean as an equation. *)
Ltac case_bool :=
  match goal with
  | |- context [if ?b then _ else _] => let H := fresh "Hb" in destruct b eqn:H
  end.
