(* ===== verification/Bytes.v ===== *)
(** * Bytes, words in host byte order, and Rust's [str]

    What the sources use of Rust's core library on bytes and text: [from_ne_bytes]
    and [to_ne_bytes] (x86-64 is little-endian), [str::from_utf8], [chars],
    character classes and [String::truncate]'s char boundaries. A [str] is its
    UTF-8 bytes, held in Rocq's [string], whose characters are bytes. *)
From Stdlib Require Export Strings.Byte.
From stdpp Require Import strings.
From S2P Require Import Prelude.
Open Scope Z_scope.

Abbreviation bytes := (list byte).

(** ** Bytes and numbers *)
Definition Z_of_byte (b : byte) : Z := Z.of_N (Byte.to_N b).
Definition byte_of_Z (z : Z) : byte :=
  match Byte.of_N (Z.to_N (z mod 256)) with Some b => b | None => x00 end.

#[export] Instance byte_eq_dec : EqDecision byte := Byte.byte_eq_dec.

Lemma Z_of_byte_range b : 0 <= Z_of_byte b < 256.
Proof. unfold Z_of_byte. pose proof (Byte.to_N_bounded b). lia. Qed.

Lemma byte_of_Z_of_byte b : byte_of_Z (Z_of_byte b) = b.
Proof.
  unfold byte_of_Z. rewrite Z.mod_small by apply Z_of_byte_range.
  unfold Z_of_byte. by rewrite N2Z.id, Byte.of_to_N.
Qed.

Lemma Z_of_byte_of_Z z : Z_of_byte (byte_of_Z z) = z mod 256.
Proof.
  unfold byte_of_Z. pose proof (Z.mod_pos_bound z 256 ltac:(lia)) as Hz.
  destruct (Byte.of_N (Z.to_N (z mod 256))) as [b|] eqn:Hb.
  - apply Byte.to_of_N in Hb. unfold Z_of_byte. lia.
  - apply Byte.of_N_None_iff in Hb. lia.
Qed.

Lemma Z_of_byte_inj a b : Z_of_byte a = Z_of_byte b -> a = b.
Proof. intros H. by rewrite <-(byte_of_Z_of_byte a), H, byte_of_Z_of_byte. Qed.

Lemma byte_of_Z_mod z : byte_of_Z (z mod 256) = byte_of_Z z.
Proof. apply Z_of_byte_inj. rewrite !Z_of_byte_of_Z. by rewrite Z.mod_mod. Qed.

(** [u32::from_ne_bytes] of four bytes, and [u32::to_ne_bytes]. *)
Definition u32_of_bytes (b0 b1 b2 b3 : byte) : Z :=
  Z_of_byte b0 + 256 * Z_of_byte b1 + 65536 * Z_of_byte b2 + 16777216 * Z_of_byte b3.

Definition bytes_of_u32 (v : Z) : bytes :=
  [byte_of_Z v; byte_of_Z (v / 256); byte_of_Z (v / 65536); byte_of_Z (v / 16777216)].

#[global] Arguments bytes_of_u32 : simpl never.
#[global] Arguments u32_of_bytes : simpl never.

Lemma u32_of_bytes_range b0 b1 b2 b3 : 0 <= u32_of_bytes b0 b1 b2 b3 <= U32_MAX.
Proof.
  unfold u32_of_bytes. pose proof (Z_of_byte_range b0). pose proof (Z_of_byte_range b1).
  pose proof (Z_of_byte_range b2). pose proof (Z_of_byte_range b3). lia.
Qed.

(** A word written and read back is itself. *)
Lemma u32_of_bytes_of_u32 v :
  0 <= v <= U32_MAX ->
  u32_of_bytes (byte_of_Z v) (byte_of_Z (v / 256)) (byte_of_Z (v / 65536))
    (byte_of_Z (v / 16777216)) = v.
Proof. intros Hv. unfold u32_of_bytes. rewrite !Z_of_byte_of_Z. dlia. Qed.

Lemma bytes_of_u32_of_bytes b0 b1 b2 b3 :
  bytes_of_u32 (u32_of_bytes b0 b1 b2 b3) = [b0; b1; b2; b3].
Proof.
  pose proof (Z_of_byte_range b0). pose proof (Z_of_byte_range b1).
  pose proof (Z_of_byte_range b2). pose proof (Z_of_byte_range b3).
  unfold bytes_of_u32, u32_of_bytes.
  f_equal; [|f_equal; [|f_equal; [|f_equal]]]; apply Z_of_byte_inj;
    rewrite Z_of_byte_of_Z; dlia.
Qed.

Lemma length_bytes_of_u32 v : length (bytes_of_u32 v) = 4%nat.
Proof. done. Qed.

Lemma zlen_bytes_of_u32 v : zlen (bytes_of_u32 v) = 4.
Proof. done. Qed.

(** ** UTF-8

    [utf8 l] is the scalar values of a valid encoding and [None] for anything
    [str::from_utf8] refuses: overlong forms, surrogates, values past U+10FFFF,
    and truncated sequences (Unicode's table of well-formed byte sequences). *)
Definition cont (b : byte) : bool := (128 <=? Z_of_byte b) && (Z_of_byte b <=? 191).
Definition between (lo hi x : Z) : bool := (lo <=? x) && (x <=? hi).

(** The second byte's range depends on the first. *)
Definition ok2 (b0 : Z) : bool := between 194 223 b0.
Definition ok3 (b0 : Z) (b1 : Z) : bool :=
  ((b0 =? 224) && between 160 191 b1)
  || (between 225 236 b0 && between 128 191 b1)
  || ((b0 =? 237) && between 128 159 b1)
  || (between 238 239 b0 && between 128 191 b1).
Definition ok4 (b0 : Z) (b1 : Z) : bool :=
  ((b0 =? 240) && between 144 191 b1)
  || (between 241 243 b0 && between 128 191 b1)
  || ((b0 =? 244) && between 128 143 b1).

Fixpoint utf8 (l : bytes) : option (list Z) :=
  match l with
  | [] => Some []
  | b0 :: l0 =>
    let c0 := Z_of_byte b0 in
    if c0 <? 128 then cons c0 <$> utf8 l0 else
    match l0 with
    | [] => None
    | b1 :: l1 =>
      let c1 := Z_of_byte b1 in
      if ok2 c0 && cont b1 then cons ((c0 - 192) * 64 + (c1 - 128)) <$> utf8 l1 else
      match l1 with
      | [] => None
      | b2 :: l2 =>
        let c2 := Z_of_byte b2 in
        if ok3 c0 c1 && cont b2
        then cons ((c0 - 224) * 4096 + (c1 - 128) * 64 + (c2 - 128)) <$> utf8 l2 else
        match l2 with
        | [] => None
        | b3 :: l3 =>
          let c3 := Z_of_byte b3 in
          if ok4 c0 c1 && cont b2 && cont b3
          then cons ((c0 - 240) * 262144 + (c1 - 128) * 4096 + (c2 - 128) * 64 + (c3 - 128))
                 <$> utf8 l3
          else None
        end
      end
    end
  end.

(** [char::encode_utf8]. *)
Definition encode_char (c : Z) : bytes :=
  if c <? 128 then [byte_of_Z c]
  else if c <? 2048 then [byte_of_Z (192 + c / 64); byte_of_Z (128 + c mod 64)]
  else if c <? 65536 then
    [byte_of_Z (224 + c / 4096); byte_of_Z (128 + (c / 64) mod 64); byte_of_Z (128 + c mod 64)]
  else
    [byte_of_Z (240 + c / 262144); byte_of_Z (128 + (c / 4096) mod 64);
     byte_of_Z (128 + (c / 64) mod 64); byte_of_Z (128 + c mod 64)].

(** A Unicode scalar value: Rust's [char]. *)
Definition is_char (c : Z) : bool := between 0 55295 c || between 57344 1114111 c.

Definition encode_chars (cs : list Z) : bytes := mjoin (encode_char <$> cs).

Lemma utf8_encode_char c l :
  is_char c = true -> utf8 (encode_char c ++ l) = cons c <$> utf8 l.
Proof.
  unfold is_char, between. intros Hc.
  unfold encode_char. destruct (Z.ltb_spec c 128); [|destruct (Z.ltb_spec c 2048);
    [|destruct (Z.ltb_spec c 65536)]]; simpl; unfold cont, ok2, ok3, ok4, between;
    rewrite !Z_of_byte_of_Z.
  all: repeat match goal with
    | |- context [if ?b then _ else _] =>
        first [replace b with true by (symmetry; dlia) | replace b with false by (symmetry; dlia)]
    end.
  all: f_equal; f_equal; dlia.
Qed.

Lemma utf8_app_chars cs l :
  forallb is_char cs = true -> utf8 (encode_chars cs ++ l) = app cs <$> utf8 l.
Proof.
  unfold encode_chars. revert l. induction cs as [|c cs IH]; intros l Hcs; simpl.
  { destruct (utf8 l); done. }
  simpl in Hcs. apply andb_true_iff in Hcs as [Hc Hcs].
  rewrite <-app_assoc, utf8_encode_char, IH by done. by destruct (utf8 l).
Qed.

(** Encoding and decoding text are inverse. *)
Lemma utf8_encode_chars cs : forallb is_char cs = true -> utf8 (encode_chars cs) = Some cs.
Proof.
  intros Hcs. rewrite <-(app_nil_r (encode_chars cs)), utf8_app_chars by done.
  simpl. by rewrite app_nil_r.
Qed.

Lemma byte_of_Z_eq b z : Z_of_byte b = z -> byte_of_Z z = b.
Proof. intros <-. apply byte_of_Z_of_byte. Qed.

(** Each branch of the decoder reads exactly the encoding of the character it returns. *)
Lemma encode_char_1 b0 :
  (Z_of_byte b0 <? 128) = true ->
  is_char (Z_of_byte b0) = true /\ encode_char (Z_of_byte b0) = [b0].
Proof.
  intros H. pose proof (Z_of_byte_range b0). unfold encode_char, is_char, between. rewrite H.
  split; [lia|]. by rewrite byte_of_Z_of_byte.
Qed.

Ltac encode_branch :=
  repeat match goal with
  | |- context [if ?b then _ else _] =>
      first [replace b with true by (symmetry; dlia) | replace b with false by (symmetry; dlia)]
  end;
  repeat f_equal; apply byte_of_Z_eq; dlia.

Lemma encode_char_2 b0 b1 (c := (Z_of_byte b0 - 192) * 64 + (Z_of_byte b1 - 128)) :
  ok2 (Z_of_byte b0) && cont b1 = true ->
  is_char c = true /\ encode_char c = [b0; b1].
Proof.
  unfold ok2, cont, between. subst c. intros H. unfold is_char, between. split; [lia|].
  unfold encode_char. encode_branch.
Qed.

Lemma encode_char_3 b0 b1 b2
    (c := (Z_of_byte b0 - 224) * 4096 + (Z_of_byte b1 - 128) * 64 + (Z_of_byte b2 - 128)) :
  ok3 (Z_of_byte b0) (Z_of_byte b1) && cont b2 = true ->
  is_char c = true /\ encode_char c = [b0; b1; b2].
Proof.
  unfold ok3, cont, between. subst c. intros H. unfold is_char, between. split; [lia|].
  unfold encode_char. encode_branch.
Qed.

Lemma encode_char_4 b0 b1 b2 b3
    (c := (Z_of_byte b0 - 240) * 262144 + (Z_of_byte b1 - 128) * 4096
          + (Z_of_byte b2 - 128) * 64 + (Z_of_byte b3 - 128)) :
  ok4 (Z_of_byte b0) (Z_of_byte b1) && cont b2 && cont b3 = true ->
  is_char c = true /\ encode_char c = [b0; b1; b2; b3].
Proof.
  unfold ok4, cont, between. subst c. intros H. unfold is_char, between. split; [lia|].
  unfold encode_char. encode_branch.
Qed.

Lemma utf8_sound l cs :
  utf8 l = Some cs -> forallb is_char cs = true /\ l = encode_chars cs.
Proof.
  remember (length l) as n eqn:Hn. revert l cs Hn.
  induction n as [n IH] using lt_wf_ind. intros l cs -> H.
  assert (forall k c pre, length k < length l -> l = pre ++ k ->
    is_char c = true /\ encode_char c = pre -> cons c <$> utf8 k = Some cs ->
    forallb is_char cs = true /\ l = encode_chars cs)%nat as Hstep.
  { intros k c pre Hk -> [Hc <-] Hcs. apply fmap_Some in Hcs as (cs' & Hcs' & ->).
    destruct (IH _ Hk k cs' eq_refl Hcs') as [Hall ->].
    simpl. by rewrite Hc, Hall. }
  destruct l as [|b0 l0]; [by simplify_eq/=|]. cbn [utf8] in H.
  destruct (Z_of_byte b0 <? 128) eqn:E1.
  { by eapply (Hstep l0 _ [b0]); [simpl; lia|done|apply encode_char_1|]. }
  destruct l0 as [|b1 l1]; [done|].
  destruct (ok2 (Z_of_byte b0) && cont b1) eqn:E2.
  { by eapply (Hstep l1 _ [b0; b1]); [simpl; lia|done|apply encode_char_2|]. }
  destruct l1 as [|b2 l2]; [done|].
  destruct (ok3 (Z_of_byte b0) (Z_of_byte b1) && cont b2) eqn:E3.
  { by eapply (Hstep l2 _ [b0; b1; b2]); [simpl; lia|done|apply encode_char_3|]. }
  destruct l2 as [|b3 l3]; [done|].
  destruct (ok4 (Z_of_byte b0) (Z_of_byte b1) && cont b2 && cont b3) eqn:E4; [|done].
  by eapply (Hstep l3 _ [b0; b1; b2; b3]); [simpl; lia|done|apply encode_char_4|].
Qed.

(** ** Rust's [str] *)
Definition as_bytes (s : string) : bytes := String.list_byte_of_string s.
Definition str_of_bytes (l : bytes) : string := String.string_of_list_byte l.
Definition str_len (s : string) : Z := zlen (as_bytes s).

Lemma as_bytes_of_bytes l : as_bytes (str_of_bytes l) = l.
Proof. apply String.list_byte_of_string_of_list_byte. Qed.

Lemma str_of_as_bytes s : str_of_bytes (as_bytes s) = s.
Proof. apply String.string_of_list_byte_of_string. Qed.

Lemma as_bytes_inj s t : as_bytes s = as_bytes t -> s = t.
Proof. intros H. by rewrite <-(str_of_as_bytes s), H, str_of_as_bytes. Qed.

Lemma as_bytes_app s t : as_bytes (s ++ t)%string = as_bytes s ++ as_bytes t.
Proof.
  unfold as_bytes, String.list_byte_of_string. induction s as [|c s IH]; [done|].
  simpl. by rewrite IH.
Qed.

(** [std::str::from_utf8]. *)
Definition from_utf8 (l : bytes) : option string :=
  match utf8 l with Some _ => Some (str_of_bytes l) | None => None end.

(** [s.chars()], and [collect::<String>()] of characters. *)
Definition chars (s : string) : list Z := default [] (utf8 (as_bytes s)).
Definition of_chars (cs : list Z) : string := str_of_bytes (encode_chars cs).

(** A [str] of the language: its bytes are valid UTF-8. *)
Definition is_str (s : string) : Prop := is_Some (utf8 (as_bytes s)).

#[export] Instance is_str_dec s : Decision (is_str s) := _.

Lemma from_utf8_Some l s : from_utf8 l = Some s <-> is_str s /\ as_bytes s = l.
Proof.
  unfold from_utf8, is_str. split.
  - destruct (utf8 l) eqn:H; [|done]. intros [= <-]. by rewrite as_bytes_of_bytes, H.
  - intros [[cs Hcs] <-]. by rewrite Hcs, str_of_as_bytes.
Qed.

Lemma chars_of_chars cs : forallb is_char cs = true -> chars (of_chars cs) = cs.
Proof.
  intros H. unfold chars, of_chars. by rewrite as_bytes_of_bytes, utf8_encode_chars.
Qed.

Lemma is_str_of_chars cs : forallb is_char cs = true -> is_str (of_chars cs).
Proof.
  intros H. unfold is_str, of_chars. rewrite as_bytes_of_bytes, utf8_encode_chars by done. eauto.
Qed.

Lemma is_str_chars s :
  is_str s -> forallb is_char (chars s) = true /\ s = of_chars (chars s).
Proof.
  intros [cs Hcs]. pose proof (utf8_sound _ _ Hcs) as [Hall Heq].
  unfold chars. rewrite Hcs. split; [done|]. simpl. apply as_bytes_inj.
  unfold of_chars. by rewrite as_bytes_of_bytes.
Qed.

Lemma is_str_app s t : is_str s -> is_str t -> is_str (s ++ t)%string.
Proof.
  intros [Hs Es]%is_str_chars [ct Ht]. unfold is_str. rewrite as_bytes_app, Es.
  unfold of_chars. rewrite as_bytes_of_bytes, utf8_app_chars, Ht by done. simpl. eauto.
Qed.

Lemma is_str_bytes s :
  is_str s -> forallb is_char (chars s) = true /\ as_bytes s = encode_chars (chars s).
Proof.
  intros [cs Hcs]. pose proof (utf8_sound _ _ Hcs) as [Hall Heq].
  unfold chars. by rewrite Hcs.
Qed.
