(* ===== verification/Wire.v ===== *)
(** * compositor/wlproxy/src/wire.rs: the Wayland wire format

    The message header, the defensive argument reader and the writer of the
    messages the proxy builds itself. *)
From S2P Require Import Prelude Bytes.
Open Scope Z_scope.

Definition HEADER_LEN : Z := 8.
Definition MAX_MESSAGE_LEN : Z := 4096.
Definition SERVER_ID_BASE : Z := 0xFF000000.

Inductive WireError : Type :=
| Truncated
| BadSize (n : Z)
| ArgOverrun
| SecondNewId
| UnterminatedString
| NullString
| NotUtf8
| InteriorNul.

#[export] Instance WireError_eq_dec : EqDecision WireError.
Proof. solve_decision. Defined.

(** [size.is_multiple_of(4)]. *)
Definition multiple_of_4 (n : Z) : bool := n mod 4 =? 0.

(** ** The header *)
Record Header := mkHeader {
  h_object : Z;
  h_opcode : Z;
  h_size : Z;
}.

(** [Header::parse]. *)
Definition parse_header (buf : bytes) : result Header WireError :=
  match buf with
  | b0 :: b1 :: b2 :: b3 :: b4 :: b5 :: b6 :: b7 :: _ =>
    let object := u32_of_bytes b0 b1 b2 b3 in
    let word1 := u32_of_bytes b4 b5 b6 b7 in
    let opcode := as_u16 (Z.land word1 0xFFFF) in
    let size := as_u16 (Z.shiftr word1 16) in
    if (size <? HEADER_LEN) || negb (multiple_of_4 size) || (size >? MAX_MESSAGE_LEN)
    then Err (BadSize size)
    else Ok (mkHeader object opcode size)
  | _ => Err Truncated
  end.

(** [Header::encode]. *)
Definition encode_header (h : Header) : bytes :=
  let word1 := Z.lor (Z.shiftl (h_size h) 16) (h_opcode h) in
  bytes_of_u32 (h_object h) ++ bytes_of_u32 word1.

#[global] Arguments encode_header : simpl never.

(** ** The argument reader *)
Record ArgReader := mkReader { ar_body : bytes; ar_pos : Z }.

Definition new_reader (body : bytes) : ArgReader := mkReader body 0.
Definition remaining (r : ArgReader) : Z := zlen (ar_body r) - ar_pos r.
Definition reader_is_empty (r : ArgReader) : bool := remaining r =? 0.

(** Every method of the reader returns what it read and the reader moved on. *)
Abbreviation Read A := (result (A * ArgReader) WireError).

Open Scope result_scope.

(** [ArgReader::take]. *)
Definition read_take (n : Z) (r : ArgReader) : Read bytes :=
  let? end_ := ok_or (checked_add (ar_pos r) n) ArgOverrun in
  if end_ >? zlen (ar_body r) then Err ArgOverrun
  else Ok (slice (ar_body r) (ar_pos r) end_, mkReader (ar_body r) end_).

(** [ArgReader::u32]; the slice [take(4)] returns has four bytes. *)
Definition read_u32 (r : ArgReader) : Read Z :=
  let? (w, r) := read_take 4 r in
  match w with
  | [b0; b1; b2; b3] => Ok (u32_of_bytes b0 b1 b2 b3, r)
  | _ => Err ArgOverrun
  end.

(** [pad4]: round up to a multiple of 4. *)
Definition pad4 (n : Z) : option Z :=
  (fun x => Z.land x (Z.lnot 3)) <$> checked_add n 3.

(** [ArgReader::string]. *)
Definition read_string (r : ArgReader) : Read (option string) :=
  let? (declared, r) := read_u32 r in
  if declared =? 0 then Ok (None, r) else
  let? padded := ok_or (pad4 declared) ArgOverrun in
  let? (raw, r) := read_take padded r in
  let body := slice raw 0 declared in
  if negb (bool_decide (last body = Some x00)) then Err UnterminatedString else
  let text := slice body 0 (declared - 1) in
  if bool_decide (x00 ∈ text) then Err InteriorNul else
  let? s := ok_or (from_utf8 text) NotUtf8 in
  Ok (Some s, r).

(** [ArgReader::array]. *)
Definition read_array (r : ArgReader) : Read bytes :=
  let? (len, r) := read_u32 r in
  let? padded := ok_or (pad4 len) ArgOverrun in
  let? (raw, r) := read_take padded r in
  Ok (slice raw 0 len, r).

Close Scope result_scope.

(** ** The message writer *)
Record MessageWriter := mkWriter { mw_object : Z; mw_opcode : Z; mw_body : bytes }.

Definition new_writer (object opcode : Z) : MessageWriter := mkWriter object opcode [].

Definition put_u32 (v : Z) (w : MessageWriter) : MessageWriter :=
  mkWriter (mw_object w) (mw_opcode w) (mw_body w ++ bytes_of_u32 v).

(** [while !body.len().is_multiple_of(4) { body.push(0) }]; three pushes are enough. *)
Fixpoint pad_loop (fuel : nat) (body : bytes) : bytes :=
  if multiple_of_4 (zlen body) then body else
  match fuel with
  | O => body
  | S fuel => pad_loop fuel (body ++ [x00])
  end.

(** [MessageWriter::string]. *)
Definition put_string (s : string) (w : MessageWriter) : MessageWriter :=
  let declared := str_len s + 1 in
  let body := mw_body w ++ bytes_of_u32 (as_u32 declared) ++ as_bytes s ++ [x00] in
  mkWriter (mw_object w) (mw_opcode w) (pad_loop 3 body).

(** [MessageWriter::finish]. *)
Definition finish (w : MessageWriter) : option bytes :=
  let size := HEADER_LEN + zlen (mw_body w) in
  if (size >? MAX_MESSAGE_LEN) || (size >? U16_MAX) then None
  else Some (encode_header (mkHeader (mw_object w) (mw_opcode w) (as_u16 size)) ++ mw_body w).

(** ** Lemmas *)

(** The header's second word: size in the high half, opcode in the low one. *)
Lemma word1_lor size opcode :
  0 <= opcode < 65536 -> Z.lor (Z.shiftl size 16) opcode = size * 65536 + opcode.
Proof.
  intros Ho. rewrite (Z.div_mod (Z.lor _ _) 65536) by lia.
  change 65536 with (2 ^ 16) at 1 2 3.
  rewrite <-Z.shiftr_div_pow2, <-Z.land_ones, Z.shiftr_lor, Z.land_lor_distr_l by lia.
  rewrite Z.shiftr_shiftl_l by lia. change (16 - 16) with 0. rewrite Z.shiftl_0_r.
  rewrite Z.shiftr_div_pow2, !Z.land_ones, Z.shiftl_mul_pow2 by lia.
  rewrite Z.div_small, Z.mod_mul, (Z.mod_small opcode), Z.lor_0_r, Z.lor_0_l by lia. lia.
Qed.

Lemma land_0xFFFF x : Z.land x 0xFFFF = x mod 65536.
Proof. change 0xFFFF with (Z.ones 16). by rewrite Z.land_ones. Qed.

Lemma shiftr_16 x : Z.shiftr x 16 = x / 65536.
Proof. by rewrite Z.shiftr_div_pow2. Qed.

Lemma multiple_of_4_spec n : multiple_of_4 n = true <-> n mod 4 = 0.
Proof. unfold multiple_of_4. lia. Qed.

(** A header the parser can return. *)
Definition valid_header (h : Header) : Prop :=
  0 <= h_object h <= U32_MAX /\ 0 <= h_opcode h <= U16_MAX /\
  HEADER_LEN <= h_size h <= MAX_MESSAGE_LEN /\ h_size h mod 4 = 0.

#[export] Instance valid_header_dec h : Decision (valid_header h) := _.

Lemma encode_header_length h : length (encode_header h) = 8%nat.
Proof. done. Qed.

Lemma parse_encode_header h rest :
  valid_header h -> parse_header (encode_header h ++ rest) = Ok h.
Proof.
  destruct h as [o c n]. intros (Ho & Hc & Hn & Ha). cbn [h_object h_opcode h_size] in *.
  unfold HEADER_LEN, MAX_MESSAGE_LEN in *.
  unfold encode_header, parse_header, bytes_of_u32. cbn [app h_object h_opcode h_size].
  rewrite word1_lor by lia. rewrite !u32_of_bytes_of_u32 by lia.
  rewrite land_0xFFFF, shiftr_16. unfold as_u16.
  replace ((n * 65536 + c) / 65536 mod 65536) with n by dlia.
  replace ((n * 65536 + c) mod 65536 mod 65536) with c by dlia.
  unfold HEADER_LEN, MAX_MESSAGE_LEN.
  rewrite (proj2 (multiple_of_4_spec n)) by done. cbn [negb].
  by replace ((n <? 8) || false || (n >? 4096)) with false by (symmetry; lia).
Qed.

Lemma parse_header_Ok buf h :
  parse_header buf = Ok h -> valid_header h /\ encode_header h = take 8 buf.
Proof.
  unfold parse_header. do 8 (destruct buf as [|? buf]; [done|]).
  case_bool; [done|]. intros [= <-]. unfold valid_header, encode_header. cbn [h_object h_opcode h_size].
  apply orb_false_elim in Hb as [[Hb1 Hb2]%orb_false_elim Hb3].
  apply negb_false_iff, multiple_of_4_spec in Hb2.
  pose proof (u32_of_bytes_range b3 b4 b5 b6) as Hr.
  rewrite land_0xFFFF, shiftr_16 in *. unfold as_u16 in *.
  split; [pose proof (u32_of_bytes_range b b0 b1 b2); unfold HEADER_LEN, MAX_MESSAGE_LEN in *; dlia|].
  rewrite word1_lor by dlia. rewrite bytes_of_u32_of_bytes.
  replace (_ * 65536 + _) with (u32_of_bytes b3 b4 b5 b6) by dlia.
  by rewrite bytes_of_u32_of_bytes.
Qed.

Lemma pad4_spec n : 0 <= n <= U32_MAX -> pad4 n = Some (4 * ((n + 3) / 4)).
Proof.
  intros Hn. unfold pad4, checked_add.
  replace (n + 3 <=? USIZE_MAX) with true by (symmetry; lia). simpl. f_equal.
  rewrite <-Z.ldiff_land. change 3 with (Z.ones 2) at 2.
  rewrite Z.ldiff_ones_r, Z.shiftl_mul_pow2, Z.shiftr_div_pow2 by lia.
  change (2 ^ 2) with 4. lia.
Qed.

(** *** The reader as a cursor: what is left of the body *)
Definition reader_ok (r : ArgReader) : Prop :=
  0 <= ar_pos r <= zlen (ar_body r) /\ zlen (ar_body r) <= USIZE_MAX.
Definition rest (r : ArgReader) : bytes := drop (Z.to_nat (ar_pos r)) (ar_body r).
Definition advance (n : Z) (r : ArgReader) : ArgReader := mkReader (ar_body r) (ar_pos r + n).

Lemma zlen_rest r : reader_ok r -> zlen (rest r) = remaining r.
Proof. intros [? _]. unfold rest. by rewrite zlen_drop. Qed.

Lemma rest_advance n r : reader_ok r -> 0 <= n -> rest (advance n r) = drop (Z.to_nat n) (rest r).
Proof.
  intros [? _] ?. unfold rest, advance. cbn [ar_body ar_pos]. rewrite drop_drop.
  f_equal. lia.
Qed.

Lemma rest_advance_app r w t :
  reader_ok r -> rest r = w ++ t -> rest (advance (zlen w) r) = t.
Proof.
  intros Hr Hw. rewrite rest_advance, Hw by (done || apply zlen_nonneg).
  unfold zlen. by rewrite Nat2Z.id, drop_app_length.
Qed.

Lemma reader_ok_advance n r : reader_ok r -> 0 <= n <= remaining r -> reader_ok (advance n r).
Proof.
  unfold reader_ok, remaining. intros [H1 H2] [H3 H4]. cbn [advance ar_body ar_pos]. lia.
Qed.

Lemma reader_ok_new body : zlen body <= USIZE_MAX -> reader_ok (new_reader body).
Proof. unfold reader_ok. pose proof (zlen_nonneg body). simpl. lia. Qed.

Lemma read_take_spec n r :
  reader_ok r -> 0 <= n ->
  read_take n r = if n <=? remaining r
                  then Ok (take (Z.to_nat n) (rest r), advance n r) else Err ArgOverrun.
Proof.
  intros [Hp Hu] Hn. unfold read_take, checked_add, remaining, slice, rest, advance.
  destruct (Z.leb_spec (ar_pos r + n) USIZE_MAX); cbn [ok_or result_bind].
  - rewrite Z.gtb_ltb. destruct (Z.ltb_spec (zlen (ar_body r)) (ar_pos r + n)).
    + by replace (n <=? _) with false by (symmetry; lia).
    + replace (n <=? _) with true by (symmetry; lia). do 3 f_equal. lia.
  - by replace (n <=? _) with false by (symmetry; lia).
Qed.

Lemma read_take_app r w t :
  reader_ok r -> rest r = w ++ t -> read_take (zlen w) r = Ok (w, advance (zlen w) r).
Proof.
  intros Hr Hw. rewrite read_take_spec by (done || apply zlen_nonneg).
  rewrite <-zlen_rest, Hw, zlen_app by done. pose proof (zlen_nonneg t).
  replace (_ <=? _) with true by (symmetry; lia).
  unfold zlen. by rewrite Nat2Z.id, take_app_length.
Qed.

Lemma read_take_Ok n r w r' :
  reader_ok r -> 0 <= n -> read_take n r = Ok (w, r') ->
  reader_ok r' /\ rest r = w ++ rest r' /\ zlen w = n /\ r' = advance n r.
Proof.
  intros Hr Hn. rewrite read_take_spec by done. case_bool; [|done].
  apply Z.leb_le in Hb. intros [= <- <-].
  split; [by apply reader_ok_advance|]. rewrite rest_advance by done.
  rewrite take_drop. split; [done|]. split; [|done].
  apply zlen_take. by rewrite zlen_rest.
Qed.

Lemma read_u32_app r v t :
  reader_ok r -> 0 <= v <= U32_MAX -> rest r = bytes_of_u32 v ++ t ->
  read_u32 r = Ok (v, advance 4 r).
Proof.
  intros Hr Hv Hw. unfold read_u32.
  change 4 with (zlen (bytes_of_u32 v)). rewrite (read_take_app r _ t) by done.
  unfold bytes_of_u32. cbn [result_bind]. by rewrite u32_of_bytes_of_u32.
Qed.

Lemma read_u32_Ok r v r' :
  reader_ok r -> read_u32 r = Ok (v, r') ->
  reader_ok r' /\ rest r = bytes_of_u32 v ++ rest r' /\ 0 <= v <= U32_MAX /\ r' = advance 4 r.
Proof.
  intros Hr. unfold read_u32. destruct (read_take 4 r) as [[w r1]|] eqn:Ht; [|done].
  apply read_take_Ok in Ht as (Hr1 & Hrest & Hlen & ->); [|done..]. cbn [result_bind].
  do 5 (destruct w as [|? w]; try done). intros [= <- <-].
  split; [done|]. rewrite bytes_of_u32_of_bytes. split; [done|].
  split; [apply u32_of_bytes_range|done].
Qed.

(** *** The padding loop *)
Definition padding (n : Z) : bytes := replicate (Z.to_nat ((- n) mod 4)) x00.

Lemma zlen_padding n : zlen (padding n) = (- n) mod 4.
Proof. unfold zlen, padding. rewrite length_replicate. pose proof (Z.mod_pos_bound (- n) 4). lia. Qed.

Lemma pad_loop_spec body : pad_loop 3 body = body ++ padding (zlen body).
Proof.
  assert (forall n, multiple_of_4 n = true \/ exists k, multiple_of_4 n = false /\
    (1 <= k <= 3) /\ (- n) mod 4 = k) as Hcase.
  { intros n. unfold multiple_of_4. destruct (Z.eqb_spec (n mod 4) 0); [by left|].
    right. exists ((- n) mod 4). split; [done|]. split; [dlia|done]. }
  unfold padding. destruct (Hcase (zlen body)) as [E|(k & E & Hk & Hm)].
  { assert ((- zlen body) mod 4 = 0) as -> by (apply multiple_of_4_spec in E; dlia).
    simpl. by rewrite E, app_nil_r. }
  rewrite Hm. cbn [pad_loop]. rewrite E, !zlen_app. cbn [zlen length].
  unfold multiple_of_4. change (zlen [x00]) with 1.
  assert (k = 1 \/ k = 2 \/ k = 3) as [-> | [-> | ->]] by lia;
    repeat match goal with
    | |- context [if ?b then _ else _] =>
        first [replace b with true by (symmetry; dlia) | replace b with false by (symmetry; dlia)]
    end; by rewrite <-?app_assoc.
Qed.

(** *** Strings on the wire *)

(** A string as the protocol sends it: length with the NUL, text, NUL, padding. *)
Definition enc_string (s : string) : bytes :=
  bytes_of_u32 (str_len s + 1) ++ as_bytes s ++ [x00] ++ padding (str_len s + 1).

(** What the wire can carry: text without a NUL whose length fits its word. *)
Definition wire_str (s : string) : Prop :=
  is_str s /\ (x00 ∉ as_bytes s) /\ str_len s < U32_MAX.

#[export] Instance wire_str_dec s : Decision (wire_str s) := _.

Lemma str_len_nonneg s : 0 <= str_len s.
Proof. apply zlen_nonneg. Qed.

Lemma zlen_enc_string s : zlen (enc_string s) = 4 + 4 * ((str_len s + 4) / 4).
Proof.
  unfold enc_string. rewrite !zlen_app, zlen_bytes_of_u32, zlen_padding.
  change (zlen (as_bytes s)) with (str_len s). change (zlen [x00]) with 1. dlia.
Qed.

Lemma put_string_spec s w :
  str_len s < U32_MAX -> zlen (mw_body w) mod 4 = 0 ->
  put_string s w = mkWriter (mw_object w) (mw_opcode w) (mw_body w ++ enc_string s).
Proof.
  intros Hs Hw. pose proof (str_len_nonneg s). unfold put_string, enc_string, as_u32. f_equal.
  rewrite (Z.mod_small (str_len s + 1)) by lia.
  rewrite pad_loop_spec, !zlen_app, zlen_bytes_of_u32, <-!app_assoc.
  change (zlen (as_bytes s)) with (str_len s). change (zlen [x00]) with 1.
  repeat apply (f_equal (app _)). unfold padding.
  apply (f_equal (fun n => replicate (Z.to_nat n) x00)). dlia.
Qed.

Lemma slice_0_app {A} (l k : list A) : slice (l ++ k) 0 (zlen l) = l.
Proof. unfold slice. simpl. rewrite Z.sub_0_r. unfold zlen. by rewrite Nat2Z.id, drop_0, take_app_length. Qed.

Lemma slice_split {A} (l : list A) n :
  0 <= n <= zlen l -> l = slice l 0 n ++ drop (Z.to_nat n) l.
Proof. intros. unfold slice. by rewrite Z.sub_0_r, drop_0, take_drop. Qed.

(** The bytes of a string argument: a null string is a zero length, and the padding's
    content is the sender's. *)
Definition string_bytes (o : option string) (w : bytes) : Prop :=
  match o with
  | None => w = bytes_of_u32 0
  | Some s => wire_str s /\ exists pad,
      w = bytes_of_u32 (str_len s + 1) ++ as_bytes s ++ [x00] ++ pad /\
      zlen pad = (- (str_len s + 1)) mod 4
  end.

Definition array_bytes (a : bytes) (w : bytes) : Prop :=
  zlen a <= U32_MAX /\ exists pad,
    w = bytes_of_u32 (zlen a) ++ a ++ pad /\ zlen pad = (- zlen a) mod 4.

#[global] Arguments string_bytes : simpl never.
#[global] Arguments array_bytes : simpl never.

Lemma string_bytes_enc s : wire_str s -> string_bytes (Some s) (enc_string s).
Proof. intros Hs. split; [done|]. eexists. split; [done|]. apply zlen_padding. Qed.

Lemma zlen_string_bytes o w : string_bytes o w -> zlen w mod 4 = 0 /\ 4 <= zlen w.
Proof.
  destruct o as [s|]; [|by intros ->]. intros (_ & pad & -> & Hpad).
  rewrite !zlen_app, zlen_bytes_of_u32, Hpad. change (zlen (as_bytes s)) with (str_len s).
  change (zlen [x00]) with 1. pose proof (str_len_nonneg s). dlia.
Qed.

(** The reader accepts exactly the strings the protocol defines, and stops right after. *)
Lemma read_string_app r o w t :
  reader_ok r -> string_bytes o w -> rest r = w ++ t ->
  read_string r = Ok (o, advance (zlen w) r).
Proof.
  intros Hr Ho Hrest. unfold read_string.
  destruct o as [s|]; [|by rewrite Ho in *; rewrite (read_u32_app r 0 t) by done].
  destruct Ho as ((Hs & Hnul & Hlen) & pad & -> & Hpad). pose proof (str_len_nonneg s).
  rewrite <-app_assoc in Hrest.
  rewrite (read_u32_app r (str_len s + 1) _ Hr ltac:(lia) Hrest).
  cbn [result_bind]. replace (str_len s + 1 =? 0) with false by (symmetry; lia).
  rewrite pad4_spec by lia. cbn [ok_or result_bind].
  set (w := as_bytes s ++ [x00] ++ pad) in *.
  assert (rest (advance 4 r) = w ++ t) as Hrest'.
  { change 4 with (zlen (bytes_of_u32 (str_len s + 1))). by apply rest_advance_app. }
  assert (zlen w = 4 * ((str_len s + 1 + 3) / 4)) as Hw.
  { subst w. rewrite !zlen_app, Hpad. change (zlen (as_bytes s)) with (str_len s).
    change (zlen [x00]) with 1. dlia. }
  assert (reader_ok (advance 4 r)) as Hr4.
  { apply reader_ok_advance; [done|]. rewrite <-zlen_rest, Hrest, zlen_app, zlen_bytes_of_u32 by done.
    pose proof (zlen_nonneg (w ++ t)). lia. }
  rewrite <-Hw, (read_take_app _ w t) by done. cbn [result_bind].
  replace (slice w 0 (str_len s + 1)) with (as_bytes s ++ [x00]).
  2:{ subst w. rewrite app_assoc. replace (str_len s + 1) with (zlen (as_bytes s ++ [x00])).
      - by rewrite slice_0_app.
      - by rewrite zlen_app. }
  rewrite last_snoc, bool_decide_eq_true_2 by done. cbn [negb].
  replace (str_len s + 1 - 1) with (zlen (as_bytes s)) by (unfold str_len; lia).
  rewrite slice_0_app, bool_decide_eq_false_2 by done.
  rewrite (proj2 (from_utf8_Some (as_bytes s) s)) by done. cbn [ok_or result_bind].
  do 2 f_equal. unfold advance. cbn [ar_body ar_pos]. f_equal.
  rewrite zlen_app, zlen_bytes_of_u32. lia.
Qed.

Lemma read_string_Ok r o r' :
  reader_ok r -> read_string r = Ok (o, r') ->
  reader_ok r' /\ exists w, string_bytes o w /\ rest r = w ++ rest r' /\ r' = advance (zlen w) r.
Proof.
  intros Hr. unfold read_string.
  destruct (read_u32 r) as [[d r1]|] eqn:Hd; [|done].
  apply read_u32_Ok in Hd as (Hr1 & Hrest & Hdr & ->); [|done]. cbn [result_bind].
  destruct (Z.eqb_spec d 0) as [->|Hd0].
  { intros [= <- <-]. split; [done|]. by exists (bytes_of_u32 0). }
  rewrite pad4_spec by done. cbn [ok_or result_bind].
  destruct (read_take _ _) as [[raw r2]|] eqn:Ht; [|done].
  apply read_take_Ok in Ht as (Hr2 & Hrest1 & Hraw & ->); [|done|dlia]. cbn [result_bind].
  assert (0 <= d <= zlen raw) as Hd' by dlia.
  pose proof (slice_split raw d Hd') as Hsp. set (body := slice raw 0 d) in *.
  assert (zlen body = d) as Hbl by (subst body; rewrite zlen_slice; lia).
  destruct (bool_decide (last body = Some x00)) eqn:Hlast; [|done]. cbn [negb].
  apply bool_decide_eq_true, last_Some in Hlast as [text Htext].
  assert (slice body 0 (d - 1) = text) as ->.
  { rewrite Htext in *. rewrite zlen_app in Hbl. change (zlen [x00]) with 1 in Hbl.
    replace (d - 1) with (zlen text) by lia. apply slice_0_app. }
  destruct (bool_decide (x00 ∈ text)) eqn:Hnul; [done|]. apply bool_decide_eq_false in Hnul.
  destruct (from_utf8 text) as [s|] eqn:Hs; [|done]. cbn [ok_or result_bind].
  apply from_utf8_Some in Hs as [Hs Hst]. intros [= <- <-]. split; [done|].
  assert (d = str_len s + 1) as Hde.
  { rewrite Htext, zlen_app in Hbl. change (zlen [x00]) with 1 in Hbl. unfold str_len.
    rewrite Hst. lia. }
  exists (bytes_of_u32 d ++ raw). rewrite <-app_assoc, <-Hrest1. split_and!; [|done|].
  - split; [unfold wire_str; rewrite Hst; split_and!; [done..|lia]|].
    exists (drop (Z.to_nat d) raw). split.
    + rewrite Hsp at 1. by rewrite Htext, Hst, <-Hde, <-!app_assoc.
    + rewrite zlen_drop, Hraw by done. dlia.
  - unfold advance. cbn [ar_body ar_pos]. f_equal. rewrite zlen_app, zlen_bytes_of_u32, Hraw. lia.
Qed.

Lemma read_array_app r a w t :
  reader_ok r -> array_bytes a w -> rest r = w ++ t ->
  read_array r = Ok (a, advance (zlen w) r).
Proof.
  intros Hr (Ha & pad & -> & Hpad) Hrest. unfold read_array. pose proof (zlen_nonneg a).
  rewrite <-app_assoc in Hrest.
  rewrite (read_u32_app r (zlen a) _ Hr ltac:(lia) Hrest). cbn [result_bind].
  rewrite pad4_spec by lia. cbn [ok_or result_bind].
  assert (zlen (a ++ pad) = 4 * ((zlen a + 3) / 4)) as Hw by (rewrite zlen_app, Hpad; dlia).
  assert (rest (advance 4 r) = (a ++ pad) ++ t) as Hrest'.
  { change 4 with (zlen (bytes_of_u32 (zlen a))). by apply rest_advance_app. }
  assert (reader_ok (advance 4 r)) as Hr4.
  { apply reader_ok_advance; [done|]. rewrite <-zlen_rest, Hrest, zlen_app, zlen_bytes_of_u32 by done.
    pose proof (zlen_nonneg ((a ++ pad) ++ t)). lia. }
  rewrite <-Hw, (read_take_app _ (a ++ pad) t) by done. cbn [result_bind].
  rewrite slice_0_app. do 2 f_equal. unfold advance. cbn [ar_body ar_pos]. f_equal.
  rewrite (zlen_app (bytes_of_u32 _)), zlen_bytes_of_u32. lia.
Qed.

Lemma read_array_Ok r a r' :
  reader_ok r -> read_array r = Ok (a, r') ->
  reader_ok r' /\ exists w, array_bytes a w /\ rest r = w ++ rest r' /\ r' = advance (zlen w) r.
Proof.
  intros Hr. unfold read_array.
  destruct (read_u32 r) as [[d r1]|] eqn:Hd; [|done].
  apply read_u32_Ok in Hd as (Hr1 & Hrest & Hdr & ->); [|done]. cbn [result_bind].
  rewrite pad4_spec by done. cbn [ok_or result_bind].
  destruct (read_take _ _) as [[raw r2]|] eqn:Ht; [|done].
  apply read_take_Ok in Ht as (Hr2 & Hrest1 & Hraw & ->); [|done|dlia]. cbn [result_bind].
  assert (0 <= d <= zlen raw) as Hd' by dlia. intros [= <- <-]. split; [done|].
  assert (zlen (slice raw 0 d) = d) as Hl by (rewrite zlen_slice; lia).
  exists (bytes_of_u32 d ++ raw). rewrite <-app_assoc, <-Hrest1. split_and!; [|done|].
  - split; [lia|]. exists (drop (Z.to_nat d) raw). rewrite Hl. split.
    + by rewrite (slice_split raw d Hd') at 1.
    + rewrite zlen_drop, Hraw by done. dlia.
  - unfold advance. cbn [ar_body ar_pos]. f_equal. rewrite zlen_app, zlen_bytes_of_u32, Hraw. lia.
Qed.

(** *** Finished messages *)
Lemma finish_Some w m :
  finish w = Some m ->
  m = encode_header (mkHeader (mw_object w) (mw_opcode w) (zlen m)) ++ mw_body w /\
  zlen m = 8 + zlen (mw_body w) /\ zlen m <= MAX_MESSAGE_LEN.
Proof.
  unfold finish, HEADER_LEN, MAX_MESSAGE_LEN. case_bool; [done|]. intros Hm; apply (inj Some) in Hm; subst m.
  pose proof (zlen_nonneg (mw_body w)).
  rewrite zlen_app. change (zlen (encode_header _)) with 8. unfold as_u16.
  rewrite Z.mod_small by lia. split; [done|lia].
Qed.

Lemma finish_is_Some w : 8 + zlen (mw_body w) <= MAX_MESSAGE_LEN -> is_Some (finish w).
Proof.
  unfold finish, MAX_MESSAGE_LEN, HEADER_LEN. intros H.
  replace (_ || _) with false by (symmetry; lia). eauto.
Qed.
