(* ===== verification/Protocol.v ===== *)
(** * compositor/wlproxy/src/protocol.rs: message signatures and their decoder

    A body is checked against its message's signature to its exact end; what the
    rest of the proxy needs of it (the object it creates, its strings, the version
    a bind asks for) is returned. *)
From S2P Require Import Prelude Bytes Wire.
Open Scope Z_scope.

(** One argument of a message, as the wire carries it. *)
Inductive Arg : Type :=
| AInt
| AUint
| AFixed
| AString (nullable : bool)
| AObject (nullable : bool)
| ANewId (iface : option string)
| AArray
| AFd.

#[export] Instance Arg_eq_dec : EqDecision Arg.
Proof. solve_decision. Defined.

Record Message := mkMessage {
  m_name : string;
  m_args : list Arg;
  m_fds : Z;
  m_since : Z;
}.

Record Interface := mkInterface {
  i_name : string;
  i_version : Z;
  i_requests : list Message;
  i_events : list Message;
}.

(** [Message::fd_count]. *)
Definition fd_count (m : Message) : Z := m_fds m.

Record Decoded := mkDecoded {
  d_new_object : option (Z * string);
  d_strings : list (Z * string);
  d_bind_version : option Z;
}.

Definition default_decoded : Decoded := mkDecoded None [] None.

(** [Decoded::created]. *)
Definition created (id : Z) (name : string) (d : Decoded) : result Decoded WireError :=
  match d_new_object d with
  | Some _ => Err SecondNewId
  | None => Ok (mkDecoded (Some (id, name)) (d_strings d) (d_bind_version d))
  end.

Open Scope result_scope.

(** One argument: the body of [decode]'s loop. *)
Definition decode_arg (body : bytes) (a : Arg) (rd : ArgReader * Decoded)
    : result (ArgReader * Decoded) WireError :=
  let '(r, d) := rd in
  match a with
  | AInt | AUint | AFixed | AObject _ =>
    let? (_, r) := read_u32 r in Ok (r, d)
  | AString nullable =>
    let at_ := zlen body - remaining r in
    let? (o, r) := read_string r in
    match o with
    | Some s => Ok (r, mkDecoded (d_new_object d) (d_strings d ++ [(at_, s)]) (d_bind_version d))
    | None => if nullable then Ok (r, d) else Err NullString
    end
  | AArray =>
    let? (_, r) := read_array r in Ok (r, d)
  | ANewId (Some name) =>
    let? (id, r) := read_u32 r in
    let? d := created id name d in
    Ok (r, d)
  | ANewId None =>
    let? (o, r) := read_string r in
    let? name := ok_or o NullString in
    let? (version, r) := read_u32 r in
    let? (id, r) := read_u32 r in
    let d := mkDecoded (d_new_object d) (d_strings d) (Some version) in
    let? d := created id name d in
    Ok (r, d)
  | AFd => Ok (r, d)
  end.

Fixpoint decode_args (body : bytes) (args : list Arg) (rd : ArgReader * Decoded)
    : result (ArgReader * Decoded) WireError :=
  match args with
  | [] => Ok rd
  | a :: args => let? rd := decode_arg body a rd in decode_args body args rd
  end.

(** [decode]: a trailing byte is as bad as a missing one. *)
Definition decode (msg : Message) (body : bytes) : result Decoded WireError :=
  let? (r, d) := decode_args body (m_args msg) (new_reader body, default_decoded) in
  if reader_is_empty r then Ok d else Err ArgOverrun.

Close Scope result_scope.

(** ** Specification: the values a signature carries *)
Inductive value : Type :=
| VWord (v : Z)
| VString (o : option string)
| VNew (id : Z)
| VBind (name : string) (version id : Z)
| VArray (a : bytes)
| VFd.

Definition u32 (v : Z) : Prop := 0 <= v <= U32_MAX.

(** [arg_bytes a v w]: the bytes [w] carry the value [v] of an argument [a]. *)
Definition arg_bytes (a : Arg) (v : value) (w : bytes) : Prop :=
  match a, v with
  | (AInt | AUint | AFixed | AObject _), VWord x => u32 x /\ w = bytes_of_u32 x
  | AString nullable, VString o => string_bytes o w /\ (o = None -> nullable = true)
  | AArray, VArray x => array_bytes x w
  | ANewId (Some _), VNew id => u32 id /\ w = bytes_of_u32 id
  | ANewId None, VBind name version id =>
    u32 version /\ u32 id /\ exists ws, string_bytes (Some name) ws /\
      w = ws ++ bytes_of_u32 version ++ bytes_of_u32 id
  | AFd, VFd => w = []
  | _, _ => False
  end.

(** What decoding adds for one value read at byte [at_] of the body. *)
Definition decoded_value (at_ : Z) (a : Arg) (v : value) (d : Decoded) : option Decoded :=
  match a, v with
  | ANewId (Some name), VNew id =>
    if d_new_object d is Some _ then None
    else Some (mkDecoded (Some (id, name)) (d_strings d) (d_bind_version d))
  | ANewId None, VBind name version id =>
    if d_new_object d is Some _ then None
    else Some (mkDecoded (Some (id, name)) (d_strings d) (Some version))
  | AString _, VString (Some s) =>
    Some (mkDecoded (d_new_object d) (d_strings d ++ [(at_, s)]) (d_bind_version d))
  | _, _ => Some d
  end.

(** [carries at_ args vs w d d']: [w], at byte [at_] of the body, carries one value per
    argument, and decoding it takes [d] to [d']. *)
Inductive carries (at_ : Z) : list Arg -> list value -> bytes -> Decoded -> Decoded -> Prop :=
| carries_nil d : carries at_ [] [] [] d d
| carries_cons a v w args vs ws d d1 d' :
    arg_bytes a v w -> decoded_value at_ a v d = Some d1 ->
    carries (at_ + zlen w) args vs ws d1 d' ->
    carries at_ (a :: args) (v :: vs) (w ++ ws) d d'.

Lemma decode_arg_complete body a v w t r d d1 :
  reader_ok r -> ar_body r = body -> arg_bytes a v w -> rest r = w ++ t ->
  decoded_value (ar_pos r) a v d = Some d1 ->
  decode_arg body a (r, d) = Ok (advance (zlen w) r, d1).
Proof.
  intros Hr <- Ha Hrest Hd.
  assert (zlen (ar_body r) - remaining r = ar_pos r) as Hat by (unfold remaining; lia).
  destruct a as [| | |nullable|nullable|[name|]| |], v; cbn [arg_bytes] in Ha; try done;
    cbn [decoded_value] in Hd; unfold decode_arg.
  1-3,5: destruct Ha as [Hv ->]; simplify_eq; by rewrite (read_u32_app r _ _ Hr Hv Hrest).
  - destruct Ha as [Ho Hn]. rewrite (read_string_app r _ _ _ Hr Ho Hrest), Hat. cbn [result_bind].
    destruct o; simplify_eq; [done|]. by rewrite Hn.
  - destruct Ha as [Hv ->]. rewrite (read_u32_app r _ _ Hr Hv Hrest). cbn [result_bind].
    unfold created. by destruct (d_new_object d); simplify_eq.
  - destruct Ha as (Hver & Hid & ws & Hs & ->). rewrite <-app_assoc in Hrest.
    rewrite (read_string_app r _ _ _ Hr Hs Hrest). cbn [result_bind ok_or].
    pose proof (rest_advance_app _ _ _ Hr Hrest) as Hrest1. rewrite <-app_assoc in Hrest1.
    assert (reader_ok (advance (zlen ws) r)) as Hr1.
    { apply reader_ok_advance; [done|]. rewrite <-zlen_rest, Hrest, zlen_app by done.
      split; [apply zlen_nonneg|]. pose proof (zlen_nonneg ((bytes_of_u32 version ++ bytes_of_u32 id) ++ t)). lia. }
    rewrite (read_u32_app _ _ _ Hr1 Hver Hrest1). cbn [result_bind].
    pose proof (rest_advance_app _ _ _ Hr1 Hrest1) as Hrest2. rewrite zlen_bytes_of_u32 in Hrest2.
    assert (reader_ok (advance 4 (advance (zlen ws) r))) as Hr2.
    { apply reader_ok_advance; [done|]. rewrite <-zlen_rest, Hrest1, zlen_app, zlen_bytes_of_u32 by done.
      pose proof (zlen_nonneg (bytes_of_u32 id ++ t)). lia. }
    rewrite (read_u32_app _ _ _ Hr2 Hid Hrest2). cbn [result_bind].
    unfold created. cbn [d_new_object d_strings d_bind_version].
    destruct (d_new_object d); simplify_eq. cbn [result_bind]. do 2 f_equal.
    unfold advance. cbn [ar_body ar_pos]. f_equal. rewrite !zlen_app, !zlen_bytes_of_u32. lia.
  - simplify_eq. by rewrite (read_array_app r _ _ _ Hr Ha Hrest).
  - simplify_eq. cbn. unfold advance. destruct r; cbn. by rewrite Z.add_0_r.
Qed.

Lemma reader_ok_rest_app r w t :
  reader_ok r -> rest r = w ++ t -> reader_ok (advance (zlen w) r).
Proof.
  intros Hr Hw. apply reader_ok_advance; [done|].
  rewrite <-zlen_rest, Hw, zlen_app by done. pose proof (zlen_nonneg w). pose proof (zlen_nonneg t). lia.
Qed.

Lemma decode_args_complete body args vs w t r d d' :
  reader_ok r -> ar_body r = body -> rest r = w ++ t -> carries (ar_pos r) args vs w d d' ->
  decode_args body args (r, d) = Ok (advance (zlen w) r, d').
Proof.
  intros Hr Hbody Hrest Hc. remember (ar_pos r) as p eqn:Hp. revert r t Hr Hbody Hrest Hp.
  induction Hc as [p d|p a v w args vs ws d d1 d' Ha Hd Hc IH]; intros r t Hr Hbody Hrest ->.
  { simpl. unfold advance. destruct r; simpl. by rewrite Z.add_0_r. }
  rewrite <-app_assoc in Hrest. cbn [decode_args].
  rewrite (decode_arg_complete body a v w (ws ++ t) r d d1) by done. cbn [result_bind].
  rewrite (IH _ t).
  - rewrite zlen_app. unfold advance. cbn. do 3 f_equal. lia.
  - by eapply reader_ok_rest_app.
  - done.
  - by apply rest_advance_app.
  - done.
Qed.

Lemma decode_arg_sound body a r d r' d' :
  reader_ok r -> ar_body r = body -> decode_arg body a (r, d) = Ok (r', d') ->
  reader_ok r' /\ exists v w, arg_bytes a v w /\ rest r = w ++ rest r' /\
    r' = advance (zlen w) r /\ decoded_value (ar_pos r) a v d = Some d'.
Proof.
  intros Hr <-.
  assert (zlen (ar_body r) - remaining r = ar_pos r) as Hat by (unfold remaining; lia).
  destruct a as [| | |nullable|nullable|[name|]| |]; unfold decode_arg.
  1-3,5: destruct (read_u32 r) as [[x r1]|] eqn:Hx; [|done]; cbn [result_bind]; intros [= -> ->];
    apply read_u32_Ok in Hx as (Hr1 & Hrest & Hux & Hadv); [|done]; split; [done|];
    exists (VWord x), (bytes_of_u32 x); by split_and!.
  - destruct (read_string r) as [[o r1]|] eqn:Ho; [|done]. cbn [result_bind].
    apply read_string_Ok in Ho as (Hr1 & w & Hw & Hrest & Hadv); [|done].
    rewrite Hat. destruct o as [s|]; [|destruct nullable; [|done]]; intros [= -> <-]; (split; [done|]);
      eexists (VString _), w; by split_and!.
  - destruct (read_u32 r) as [[x r1]|] eqn:Hx; [|done]. cbn [result_bind].
    apply read_u32_Ok in Hx as (Hr1 & Hrest & Hux & Hadv); [|done].
    unfold created. destruct (d_new_object d) eqn:Hn; [done|]. intros [= -> <-]. split; [done|].
    exists (VNew x), (bytes_of_u32 x). cbn [arg_bytes decoded_value]. rewrite Hn. by split_and!.
  - destruct (read_string r) as [[o r1]|] eqn:Ho; [|done]. cbn [result_bind].
    apply read_string_Ok in Ho as (Hr1 & w & Hw & Hrest & Hadv1); [|done].
    destruct o as [s|]; [|done]. cbn [ok_or result_bind].
    destruct (read_u32 r1) as [[ver r2]|] eqn:Hver; [|done]. cbn [result_bind].
    apply read_u32_Ok in Hver as (Hr2 & Hrest1 & Huv & Hadv2); [|done].
    destruct (read_u32 r2) as [[id r3]|] eqn:Hid; [|done]. cbn [result_bind].
    apply read_u32_Ok in Hid as (Hr3 & Hrest2 & Hui & Hadv3); [|done].
    unfold created. cbn [d_new_object d_strings d_bind_version].
    destruct (d_new_object d) eqn:Hn; [done|]. intros [= -> <-]. split; [done|].
    exists (VBind s ver id), (w ++ bytes_of_u32 ver ++ bytes_of_u32 id). cbn [arg_bytes decoded_value]. rewrite Hn.
    split_and!; [done..|by exists w| | |done].
    + by rewrite Hrest, Hrest1, Hrest2, <-!app_assoc.
    + subst. unfold advance. cbn. f_equal. rewrite !zlen_app, !zlen_bytes_of_u32. lia.
  - destruct (read_array r) as [[x r1]|] eqn:Hx; [|done]. cbn [result_bind]. intros [= -> ->].
    apply read_array_Ok in Hx as (Hr1 & w & Hw & Hrest & Hadv); [|done]. split; [done|].
    exists (VArray x), w. by split_and!.
  - intros [= -> ->]. split; [done|]. exists VFd, []. split_and!; [done..| |done].
    unfold advance. destruct r'; cbn. by rewrite Z.add_0_r.
Qed.

Lemma decode_args_sound body args r d r' d' :
  reader_ok r -> ar_body r = body -> decode_args body args (r, d) = Ok (r', d') ->
  reader_ok r' /\ exists vs w, carries (ar_pos r) args vs w d d' /\ rest r = w ++ rest r'.
Proof.
  revert r d. induction args as [|a args IH]; intros r d Hr Hbody; cbn [decode_args].
  { intros [= -> ->]. split; [done|]. exists [], []. split; [constructor|done]. }
  destruct (decode_arg body a (r, d)) as [[r1 d1]|] eqn:Ha; [|done]. cbn [result_bind].
  apply decode_arg_sound in Ha as (Hr1 & v & w & Hw & Hrest & -> & Hd); [|done..].
  intros H. apply IH in H as (Hr' & vs & ws & Hc & Hrest1); [|done..]. split; [done|].
  exists (v :: vs), (w ++ ws). split; [by econstructor|].
  by rewrite Hrest, Hrest1, app_assoc.
Qed.

Lemma rest_new body : rest (new_reader body) = body.
Proof. done. Qed.

(** [decode] accepts a body exactly when the whole of it carries one value per argument
    of the signature, and then returns what those values say. *)
Lemma decode_iff msg body d :
  zlen body <= USIZE_MAX ->
  decode msg body = Ok d <->
  exists vs, carries 0 (m_args msg) vs body default_decoded d.
Proof.
  intros Hlen. pose proof (reader_ok_new _ Hlen) as Hr. unfold decode. split.
  - intros H. destruct (decode_args _ _ _) as [[r' d']|] eqn:Ha; [|done]. cbn [result_bind] in H.
    destruct (reader_is_empty r') eqn:He; [|done]. injection H as ->.
    apply decode_args_sound in Ha as (Hr' & vs & w & Hc & Hrest); [|done..].
    exists vs. unfold reader_is_empty in He. apply Z.eqb_eq in He. rewrite <-zlen_rest in He by done.
    destruct (rest r') eqn:Hr0; [|rewrite zlen_cons in He; pose proof (zlen_nonneg l); lia].
    rewrite rest_new, app_nil_r in Hrest. by subst.
  - intros [vs Hc].
    rewrite (decode_args_complete body _ vs body [] _ _ d Hr eq_refl) by (done || by rewrite app_nil_r).
    cbn [result_bind]. unfold reader_is_empty, remaining, advance. cbn [ar_body ar_pos new_reader].
    by replace (_ =? 0) with true by (symmetry; lia).
Qed.

