(* ===== verification/ProtocolTables.v ===== *)
(** * compositor/wlproxy/src/protocol_tables.rs: the signatures of every message

    One definition per interface, in the table's order, and [protocol::find]. *)
From S2P Require Import Prelude Bytes Wire Protocol.
Open Scope string_scope.
Open Scope list_scope.
Open Scope Z_scope.

Definition iface_wl_display : Interface := mkInterface "wl_display" 1
  [
    mkMessage "sync" [ANewId (Some "wl_callback")] 0 1;
    mkMessage "get_registry" [ANewId (Some "wl_registry")] 0 1
  ]
  [
    mkMessage "error" [AObject false; AUint; AString false] 0 1;
    mkMessage "delete_id" [AUint] 0 1
  ].

Definition iface_wl_registry : Interface := mkInterface "wl_registry" 1
  [
    mkMessage "bind" [AUint; ANewId None] 0 1
  ]
  [
    mkMessage "global" [AUint; AString false; AUint] 0 1;
    mkMessage "global_remove" [AUint] 0 1
  ].

Definition iface_wl_callback : Interface := mkInterface "wl_callback" 1
  []
  [
    mkMessage "done" [AUint] 0 1
  ].

Definition iface_wl_compositor : Interface := mkInterface "wl_compositor" 7
  [
    mkMessage "create_surface" [ANewId (Some "wl_surface")] 0 1;
    mkMessage "create_region" [ANewId (Some "wl_region")] 0 1;
    mkMessage "release" [] 0 7
  ]
  [].

Definition iface_wl_shm_pool : Interface := mkInterface "wl_shm_pool" 3
  [
    mkMessage "create_buffer" [ANewId (Some "wl_buffer"); AInt; AInt; AInt; AInt; AUint] 0 1;
    mkMessage "destroy" [] 0 1;
    mkMessage "resize" [AInt] 0 1
  ]
  [].

Definition iface_wl_shm : Interface := mkInterface "wl_shm" 3
  [
    mkMessage "create_pool" [ANewId (Some "wl_shm_pool"); AFd; AInt] 1 1;
    mkMessage "release" [] 0 2
  ]
  [
    mkMessage "format" [AUint] 0 1
  ].

Definition iface_wl_buffer : Interface := mkInterface "wl_buffer" 1
  [
    mkMessage "destroy" [] 0 1
  ]
  [
    mkMessage "release" [] 0 1
  ].

Definition iface_wl_data_offer : Interface := mkInterface "wl_data_offer" 4
  [
    mkMessage "accept" [AUint; AString true] 0 1;
    mkMessage "receive" [AString false; AFd] 1 1;
    mkMessage "destroy" [] 0 1;
    mkMessage "finish" [] 0 3;
    mkMessage "set_actions" [AUint; AUint] 0 3
  ]
  [
    mkMessage "offer" [AString false] 0 1;
    mkMessage "source_actions" [AUint] 0 3;
    mkMessage "action" [AUint] 0 3
  ].

Definition iface_wl_data_source : Interface := mkInterface "wl_data_source" 4
  [
    mkMessage "offer" [AString false] 0 1;
    mkMessage "destroy" [] 0 1;
    mkMessage "set_actions" [AUint] 0 3
  ]
  [
    mkMessage "target" [AString true] 0 1;
    mkMessage "send" [AString false; AFd] 1 1;
    mkMessage "cancelled" [] 0 1;
    mkMessage "dnd_drop_performed" [] 0 3;
    mkMessage "dnd_finished" [] 0 3;
    mkMessage "action" [AUint] 0 3
  ].

Definition iface_wl_data_device : Interface := mkInterface "wl_data_device" 4
  [
    mkMessage "start_drag" [AObject true; AObject false; AObject true; AUint] 0 1;
    mkMessage "set_selection" [AObject true; AUint] 0 1;
    mkMessage "release" [] 0 2
  ]
  [
    mkMessage "data_offer" [ANewId (Some "wl_data_offer")] 0 1;
    mkMessage "enter" [AUint; AObject false; AFixed; AFixed; AObject true] 0 1;
    mkMessage "leave" [] 0 1;
    mkMessage "motion" [AUint; AFixed; AFixed] 0 1;
    mkMessage "drop" [] 0 1;
    mkMessage "selection" [AObject true] 0 1
  ].

Definition iface_wl_data_device_manager : Interface := mkInterface "wl_data_device_manager" 4
  [
    mkMessage "create_data_source" [ANewId (Some "wl_data_source")] 0 1;
    mkMessage "get_data_device" [ANewId (Some "wl_data_device"); AObject false] 0 1;
    mkMessage "release" [] 0 4
  ]
  [].

Definition iface_wl_shell : Interface := mkInterface "wl_shell" 1
  [
    mkMessage "get_shell_surface" [ANewId (Some "wl_shell_surface"); AObject false] 0 1
  ]
  [].

Definition iface_wl_shell_surface : Interface := mkInterface "wl_shell_surface" 1
  [
    mkMessage "pong" [AUint] 0 1;
    mkMessage "move" [AObject false; AUint] 0 1;
    mkMessage "resize" [AObject false; AUint; AUint] 0 1;
    mkMessage "set_toplevel" [] 0 1;
    mkMessage "set_transient" [AObject false; AInt; AInt; AUint] 0 1;
    mkMessage "set_fullscreen" [AUint; AUint; AObject true] 0 1;
    mkMessage "set_popup" [AObject false; AUint; AObject false; AInt; AInt; AUint] 0 1;
    mkMessage "set_maximized" [AObject true] 0 1;
    mkMessage "set_title" [AString false] 0 1;
    mkMessage "set_class" [AString false] 0 1
  ]
  [
    mkMessage "ping" [AUint] 0 1;
    mkMessage "configure" [AUint; AInt; AInt] 0 1;
    mkMessage "popup_done" [] 0 1
  ].

Definition iface_wl_surface : Interface := mkInterface "wl_surface" 7
  [
    mkMessage "destroy" [] 0 1;
    mkMessage "attach" [AObject true; AInt; AInt] 0 1;
    mkMessage "damage" [AInt; AInt; AInt; AInt] 0 1;
    mkMessage "frame" [ANewId (Some "wl_callback")] 0 1;
    mkMessage "set_opaque_region" [AObject true] 0 1;
    mkMessage "set_input_region" [AObject true] 0 1;
    mkMessage "commit" [] 0 1;
    mkMessage "set_buffer_transform" [AInt] 0 2;
    mkMessage "set_buffer_scale" [AInt] 0 3;
    mkMessage "damage_buffer" [AInt; AInt; AInt; AInt] 0 4;
    mkMessage "offset" [AInt; AInt] 0 5;
    mkMessage "get_release" [ANewId (Some "wl_callback")] 0 7
  ]
  [
    mkMessage "enter" [AObject false] 0 1;
    mkMessage "leave" [AObject false] 0 1;
    mkMessage "preferred_buffer_scale" [AInt] 0 6;
    mkMessage "preferred_buffer_transform" [AUint] 0 6
  ].

Definition iface_wl_seat : Interface := mkInterface "wl_seat" 11
  [
    mkMessage "get_pointer" [ANewId (Some "wl_pointer")] 0 1;
    mkMessage "get_keyboard" [ANewId (Some "wl_keyboard")] 0 1;
    mkMessage "get_touch" [ANewId (Some "wl_touch")] 0 1;
    mkMessage "release" [] 0 5
  ]
  [
    mkMessage "capabilities" [AUint] 0 1;
    mkMessage "name" [AString false] 0 2
  ].

Definition iface_wl_pointer : Interface := mkInterface "wl_pointer" 11
  [
    mkMessage "set_cursor" [AUint; AObject true; AInt; AInt] 0 1;
    mkMessage "release" [] 0 3
  ]
  [
    mkMessage "enter" [AUint; AObject false; AFixed; AFixed] 0 1;
    mkMessage "leave" [AUint; AObject false] 0 1;
    mkMessage "motion" [AUint; AFixed; AFixed] 0 1;
    mkMessage "button" [AUint; AUint; AUint; AUint] 0 1;
    mkMessage "axis" [AUint; AUint; AFixed] 0 1;
    mkMessage "frame" [] 0 5;
    mkMessage "axis_source" [AUint] 0 5;
    mkMessage "axis_stop" [AUint; AUint] 0 5;
    mkMessage "axis_discrete" [AUint; AInt] 0 5;
    mkMessage "axis_value120" [AUint; AInt] 0 8;
    mkMessage "axis_relative_direction" [AUint; AUint] 0 9;
    mkMessage "warp" [AFixed; AFixed] 0 11
  ].

Definition iface_wl_keyboard : Interface := mkInterface "wl_keyboard" 11
  [
    mkMessage "release" [] 0 3
  ]
  [
    mkMessage "keymap" [AUint; AFd; AUint] 1 1;
    mkMessage "enter" [AUint; AObject false; AArray] 0 1;
    mkMessage "leave" [AUint; AObject false] 0 1;
    mkMessage "key" [AUint; AUint; AUint; AUint] 0 1;
    mkMessage "modifiers" [AUint; AUint; AUint; AUint; AUint] 0 1;
    mkMessage "repeat_info" [AInt; AInt] 0 4
  ].

Definition iface_wl_touch : Interface := mkInterface "wl_touch" 11
  [
    mkMessage "release" [] 0 3
  ]
  [
    mkMessage "down" [AUint; AUint; AObject false; AInt; AFixed; AFixed] 0 1;
    mkMessage "up" [AUint; AUint; AInt] 0 1;
    mkMessage "motion" [AUint; AInt; AFixed; AFixed] 0 1;
    mkMessage "frame" [] 0 1;
    mkMessage "cancel" [] 0 1;
    mkMessage "shape" [AInt; AFixed; AFixed] 0 6;
    mkMessage "orientation" [AInt; AFixed] 0 6
  ].

Definition iface_wl_output : Interface := mkInterface "wl_output" 4
  [
    mkMessage "release" [] 0 3
  ]
  [
    mkMessage "geometry" [AInt; AInt; AInt; AInt; AInt; AString false; AString false; AInt] 0 1;
    mkMessage "mode" [AUint; AInt; AInt; AInt] 0 1;
    mkMessage "done" [] 0 2;
    mkMessage "scale" [AInt] 0 2;
    mkMessage "name" [AString false] 0 4;
    mkMessage "description" [AString false] 0 4
  ].

Definition iface_wl_region : Interface := mkInterface "wl_region" 7
  [
    mkMessage "destroy" [] 0 1;
    mkMessage "add" [AInt; AInt; AInt; AInt] 0 1;
    mkMessage "subtract" [AInt; AInt; AInt; AInt] 0 1
  ]
  [].

Definition iface_wl_subcompositor : Interface := mkInterface "wl_subcompositor" 1
  [
    mkMessage "destroy" [] 0 1;
    mkMessage "get_subsurface" [ANewId (Some "wl_subsurface"); AObject false; AObject false] 0 1
  ]
  [].

Definition iface_wl_subsurface : Interface := mkInterface "wl_subsurface" 1
  [
    mkMessage "destroy" [] 0 1;
    mkMessage "set_position" [AInt; AInt] 0 1;
    mkMessage "place_above" [AObject false] 0 1;
    mkMessage "place_below" [AObject false] 0 1;
    mkMessage "set_sync" [] 0 1;
    mkMessage "set_desync" [] 0 1
  ]
  [].

Definition iface_wl_fixes : Interface := mkInterface "wl_fixes" 2
  [
    mkMessage "destroy" [] 0 1;
    mkMessage "destroy_registry" [AObject false] 0 1;
    mkMessage "ack_global_remove" [AObject false; AUint] 0 2
  ]
  [].

Definition iface_xdg_wm_base : Interface := mkInterface "xdg_wm_base" 7
  [
    mkMessage "destroy" [] 0 1;
    mkMessage "create_positioner" [ANewId (Some "xdg_positioner")] 0 1;
    mkMessage "get_xdg_surface" [ANewId (Some "xdg_surface"); AObject false] 0 1;
    mkMessage "pong" [AUint] 0 1
  ]
  [
    mkMessage "ping" [AUint] 0 1
  ].

Definition iface_xdg_positioner : Interface := mkInterface "xdg_positioner" 7
  [
    mkMessage "destroy" [] 0 1;
    mkMessage "set_size" [AInt; AInt] 0 1;
    mkMessage "set_anchor_rect" [AInt; AInt; AInt; AInt] 0 1;
    mkMessage "set_anchor" [AUint] 0 1;
    mkMessage "set_gravity" [AUint] 0 1;
    mkMessage "set_constraint_adjustment" [AUint] 0 1;
    mkMessage "set_offset" [AInt; AInt] 0 1;
    mkMessage "set_reactive" [] 0 3;
    mkMessage "set_parent_size" [AInt; AInt] 0 3;
    mkMessage "set_parent_configure" [AUint] 0 3
  ]
  [].

Definition iface_xdg_surface : Interface := mkInterface "xdg_surface" 7
  [
    mkMessage "destroy" [] 0 1;
    mkMessage "get_toplevel" [ANewId (Some "xdg_toplevel")] 0 1;
    mkMessage "get_popup" [ANewId (Some "xdg_popup"); AObject true; AObject false] 0 1;
    mkMessage "set_window_geometry" [AInt; AInt; AInt; AInt] 0 1;
    mkMessage "ack_configure" [AUint] 0 1
  ]
  [
    mkMessage "configure" [AUint] 0 1
  ].

Definition iface_xdg_toplevel : Interface := mkInterface "xdg_toplevel" 7
  [
    mkMessage "destroy" [] 0 1;
    mkMessage "set_parent" [AObject true] 0 1;
    mkMessage "set_title" [AString false] 0 1;
    mkMessage "set_app_id" [AString false] 0 1;
    mkMessage "show_window_menu" [AObject false; AUint; AInt; AInt] 0 1;
    mkMessage "move" [AObject false; AUint] 0 1;
    mkMessage "resize" [AObject false; AUint; AUint] 0 1;
    mkMessage "set_max_size" [AInt; AInt] 0 1;
    mkMessage "set_min_size" [AInt; AInt] 0 1;
    mkMessage "set_maximized" [] 0 1;
    mkMessage "unset_maximized" [] 0 1;
    mkMessage "set_fullscreen" [AObject true] 0 1;
    mkMessage "unset_fullscreen" [] 0 1;
    mkMessage "set_minimized" [] 0 1
  ]
  [
    mkMessage "configure" [AInt; AInt; AArray] 0 1;
    mkMessage "close" [] 0 1;
    mkMessage "configure_bounds" [AInt; AInt] 0 4;
    mkMessage "wm_capabilities" [AArray] 0 5
  ].

Definition iface_xdg_popup : Interface := mkInterface "xdg_popup" 7
  [
    mkMessage "destroy" [] 0 1;
    mkMessage "grab" [AObject false; AUint] 0 1;
    mkMessage "reposition" [AObject false; AUint] 0 3
  ]
  [
    mkMessage "configure" [AInt; AInt; AInt; AInt] 0 1;
    mkMessage "popup_done" [] 0 1;
    mkMessage "repositioned" [AUint] 0 3
  ].

Definition iface_zxdg_decoration_manager_v1 : Interface := mkInterface "zxdg_decoration_manager_v1" 2
  [
    mkMessage "destroy" [] 0 1;
    mkMessage "get_toplevel_decoration" [ANewId (Some "zxdg_toplevel_decoration_v1"); AObject false] 0 1
  ]
  [].

Definition iface_zxdg_toplevel_decoration_v1 : Interface := mkInterface "zxdg_toplevel_decoration_v1" 2
  [
    mkMessage "destroy" [] 0 1;
    mkMessage "set_mode" [AUint] 0 1;
    mkMessage "unset_mode" [] 0 1
  ]
  [
    mkMessage "configure" [AUint] 0 1
  ].

Definition iface_wp_viewporter : Interface := mkInterface "wp_viewporter" 1
  [
    mkMessage "destroy" [] 0 1;
    mkMessage "get_viewport" [ANewId (Some "wp_viewport"); AObject false] 0 1
  ]
  [].

Definition iface_wp_viewport : Interface := mkInterface "wp_viewport" 1
  [
    mkMessage "destroy" [] 0 1;
    mkMessage "set_source" [AFixed; AFixed; AFixed; AFixed] 0 1;
    mkMessage "set_destination" [AInt; AInt] 0 1
  ]
  [].

Definition iface_wp_cursor_shape_manager_v1 : Interface := mkInterface "wp_cursor_shape_manager_v1" 2
  [
    mkMessage "destroy" [] 0 1;
    mkMessage "get_pointer" [ANewId (Some "wp_cursor_shape_device_v1"); AObject false] 0 1;
    mkMessage "get_tablet_tool_v2" [ANewId (Some "wp_cursor_shape_device_v1"); AObject false] 0 1
  ]
  [].

Definition iface_wp_cursor_shape_device_v1 : Interface := mkInterface "wp_cursor_shape_device_v1" 2
  [
    mkMessage "destroy" [] 0 1;
    mkMessage "set_shape" [AUint; AUint] 0 1
  ]
  [].

Definition iface_wp_fractional_scale_manager_v1 : Interface := mkInterface "wp_fractional_scale_manager_v1" 1
  [
    mkMessage "destroy" [] 0 1;
    mkMessage "get_fractional_scale" [ANewId (Some "wp_fractional_scale_v1"); AObject false] 0 1
  ]
  [].

Definition iface_wp_fractional_scale_v1 : Interface := mkInterface "wp_fractional_scale_v1" 1
  [
    mkMessage "destroy" [] 0 1
  ]
  [
    mkMessage "preferred_scale" [AUint] 0 1
  ].

Definition iface_zwp_idle_inhibit_manager_v1 : Interface := mkInterface "zwp_idle_inhibit_manager_v1" 1
  [
    mkMessage "destroy" [] 0 1;
    mkMessage "create_inhibitor" [ANewId (Some "zwp_idle_inhibitor_v1"); AObject false] 0 1
  ]
  [].

Definition iface_zwp_idle_inhibitor_v1 : Interface := mkInterface "zwp_idle_inhibitor_v1" 1
  [
    mkMessage "destroy" [] 0 1
  ]
  [].

Definition INTERFACES : list Interface :=
  [iface_wl_display;
   iface_wl_registry;
   iface_wl_callback;
   iface_wl_compositor;
   iface_wl_shm_pool;
   iface_wl_shm;
   iface_wl_buffer;
   iface_wl_data_offer;
   iface_wl_data_source;
   iface_wl_data_device;
   iface_wl_data_device_manager;
   iface_wl_shell;
   iface_wl_shell_surface;
   iface_wl_surface;
   iface_wl_seat;
   iface_wl_pointer;
   iface_wl_keyboard;
   iface_wl_touch;
   iface_wl_output;
   iface_wl_region;
   iface_wl_subcompositor;
   iface_wl_subsurface;
   iface_wl_fixes;
   iface_xdg_wm_base;
   iface_xdg_positioner;
   iface_xdg_surface;
   iface_xdg_toplevel;
   iface_xdg_popup;
   iface_zxdg_decoration_manager_v1;
   iface_zxdg_toplevel_decoration_v1;
   iface_wp_viewporter;
   iface_wp_viewport;
   iface_wp_cursor_shape_manager_v1;
   iface_wp_cursor_shape_device_v1;
   iface_wp_fractional_scale_manager_v1;
   iface_wp_fractional_scale_v1;
   iface_zwp_idle_inhibit_manager_v1;
   iface_zwp_idle_inhibitor_v1].

(** [protocol::find]: the tables collected into a map by name, where a later entry
    of a name would replace an earlier one. *)
Definition find (name : string) : option Interface :=
  List.find (fun i => String.eqb (i_name i) name) (rev INTERFACES).

(** ** Facts of the tables *)
Definition is_new_id (a : Arg) : bool := match a with ANewId _ => true | _ => false end.
Definition is_fd (a : Arg) : bool := match a with AFd => true | _ => false end.
Definition is_bind_arg (a : Arg) : bool := match a with ANewId None => true | _ => false end.
Definition count {A} (f : A -> bool) (l : list A) : Z := zlen (List.filter f l).

(** The interface a new_id argument names is in the tables. *)
Definition names_known (m : Message) : bool :=
  forallb (fun a => match a with ANewId (Some n) => bool_decide (is_Some (find n)) | _ => true end)
    (m_args m).

(** A signature's descriptor count is its number of descriptor arguments, it creates at
    most one object, of an interface the tables have. *)
Definition message_ok (m : Message) : bool :=
  (m_fds m =? count is_fd (m_args m)) && (m_fds m <=? 1)
  && (count is_new_id (m_args m) <=? 1) && names_known m.

(** Only [wl_registry.bind] lets the client name the interface. *)
Definition bind_only_in_registry (i : Interface) : bool :=
  String.eqb (i_name i) "wl_registry"
  || forallb (fun m => forallb (fun a => negb (is_bind_arg a)) (m_args m))
       (i_requests i ++ i_events i).

Definition interface_ok (i : Interface) : bool :=
  forallb message_ok (i_requests i ++ i_events i) && bind_only_in_registry i.

Lemma tables_ok : forallb interface_ok INTERFACES = true.
Proof. vm_compute. done. Qed.

Lemma tables_nodup : NoDup (i_name <$> INTERFACES).
Proof. apply (bool_decide_unpack _). vm_compute. done. Qed.

Lemma find_Some name i : find name = Some i -> i ∈ INTERFACES /\ i_name i = name.
Proof.
  unfold find. intros [Hin Heq]%List.find_some. apply String.eqb_eq in Heq.
  split; [|done]. apply list_elem_of_In. by apply in_rev.
Qed.

(** Looking an interface up by its own name returns it: no entry shadows another. *)
Lemma find_name i : i ∈ INTERFACES -> find (i_name i) = Some i.
Proof.
  intros Hi. destruct (find (i_name i)) as [j|] eqn:Hj.
  - apply find_Some in Hj as [Hj Heq]. f_equal.
    apply list_elem_of_lookup in Hi as [a Ha]. apply list_elem_of_lookup in Hj as [b Hb].
    pose proof tables_nodup as Hnd. rewrite NoDup_alt in Hnd.
    assert (a = b) as ->.
    { apply (Hnd a b (i_name i)); rewrite list_lookup_fmap; [by rewrite Ha|rewrite Hb; simpl; congruence]. }
    congruence.
  - unfold find in Hj. apply List.find_none with (x := i) in Hj.
    + by rewrite String.eqb_refl in Hj.
    + rewrite <-in_rev. by apply list_elem_of_In.
Qed.

Lemma interface_message_ok i m :
  i ∈ INTERFACES -> m ∈ i_requests i \/ m ∈ i_events i -> message_ok m = true.
Proof.
  intros Hi Hm. pose proof tables_ok as H. rewrite forallb_forall in H.
  specialize (H i ltac:(by apply list_elem_of_In)). apply andb_true_iff in H as [H _].
  rewrite forallb_forall in H. apply H, in_app_iff. rewrite <-!list_elem_of_In. done.
Qed.

Lemma message_ok_fds m : message_ok m = true -> 0 <= m_fds m <= 1.
Proof.
  unfold message_ok. intros [[[H1 H2]%andb_true_iff H3]%andb_true_iff H4]%andb_true_iff.
  unfold count in H1. pose proof (zlen_nonneg (List.filter is_fd (m_args m))). lia.
Qed.
