(* ===== verification/WlPolicy.v ===== *)
(** * compositor/wlproxy/src/policy.rs: what a zone's client may bind, and its bounds

    The allowlist of interfaces, the rewriting of titles and app_ids that carries the
    zone's name, and the resource bounds of a session. *)
From S2P Require Import Prelude Bytes.
Open Scope string_scope.
Open Scope list_scope.
Open Scope Z_scope.

Definition ALLOWED : list (string * Z) := [
  ("wl_compositor", 6);
  ("wl_subcompositor", 1);
  ("wl_shm", 2);
  ("wl_seat", 9);
  ("wl_output", 4);
  ("xdg_wm_base", 6);
  ("zxdg_decoration_manager_v1", 1);
  ("wp_viewporter", 1);
  ("wp_cursor_shape_manager_v1", 1);
  ("wp_fractional_scale_manager_v1", 1)
].

Definition HOLD_AWAKE : string * Z := ("zwp_idle_inhibit_manager_v1", 1).

Definition allowed_version (interface : string) (hold_awake : bool) : option Z :=
  snd <$> List.find (fun p => String.eqb p.1 interface)
            (ALLOWED ++ (if hold_awake then [HOLD_AWAKE] else [])).

Definition SERVED : list string :=
  ["wl_data_device_manager"; "wl_data_source"; "wl_data_device"; "wl_data_offer"].

Definition served (interface : string) : bool := existsb (String.eqb interface) SERVED.

Definition OWN_GLOBALS : list (string * Z) := [("wl_data_device_manager", 3)].
Definition OWN_GLOBAL_BASE : Z := 0xFFFFFF00.

Definition own_version (interface : string) : option Z :=
  snd <$> List.find (fun p => String.eqb p.1 interface) OWN_GLOBALS.

(** ** Titles and app_ids *)
Definition MAX_TITLE_BYTES : Z := 256.

(** [char::is_control]: the general category Cc. *)
Definition is_control (c : Z) : bool := between 0 31 c || between 127 159 c.

(** The characters a title shows as spaces: controls and bidirectional marks. *)
Definition blanked (c : Z) : bool :=
  is_control c || (c =? 0x061c) || (c =? 0x200e) || (c =? 0x200f)
  || between 0x2028 0x202e c || between 0x2066 0x2069 c.

(** [str::is_char_boundary]. *)
Definition is_char_boundary (s : string) (i : nat) : bool :=
  (i =? 0)%nat || match as_bytes s !! i with
                  | None => (i =? length (as_bytes s))%nat
                  | Some b => negb (cont b)
                  end.

(** [while cut > 0 && !s.is_char_boundary(cut) { cut -= 1 }]. *)
Fixpoint cut_loop (s : string) (cut : nat) : nat :=
  match cut with
  | O => O
  | S n => if is_char_boundary s cut then cut else cut_loop s n
  end.

(** [bound_utf8]: cut to [max] bytes with a ["..."], on a char boundary. *)
Definition bound_utf8 (s : string) (max : Z) : string :=
  if str_len s <=? max then s else
  let cut := cut_loop s (Z.to_nat (saturating_sub max 3)) in
  str_of_bytes (take cut (as_bytes s)) +:+ "...".

Definition title_for (zone title : string) : string :=
  let title := of_chars ((fun c => if blanked c then 32 else c) <$> chars title) in
  bound_utf8 ("[" +:+ zone +:+ "] " +:+ title) MAX_TITLE_BYTES.

(** [char::is_ascii_alphanumeric]. *)
Definition is_ascii_alphanumeric (c : Z) : bool :=
  between 48 57 c || between 65 90 c || between 97 122 c.

(** A character an app_id's claim may keep: [A-Za-z0-9_-]. *)
Definition app_id_char (c : Z) : bool := is_ascii_alphanumeric c || (c =? 45) || (c =? 95).

Definition app_id_for (zone claimed : string) : string :=
  let cleaned := of_chars ((fun c => if app_id_char c then c else 95) <$> take 64 (chars claimed)) in
  "kryptik." +:+ zone +:+ "." +:+ (if String.eqb cleaned "" then "app" else cleaned).

(** ** Bounds per session and per zone *)
Definition MAX_OBJECTS : Z := 4096.
Definition MAX_ID_SLOTS : Z := 2 * MAX_OBJECTS.
Definition MAX_PENDING_BYTES : Z := 1048576.
Definition MAX_PENDING_FDS : Z := 64.
Definition MAX_TOPLEVELS_PER_SESSION : Z := 32.
Definition MAX_TOPLEVELS_PER_ZONE : Z := 64.
Definition MAX_POPUPS_PER_SESSION : Z := 16.
Definition MAX_SHM_POOLS_PER_SESSION : Z := 128.
Definition MAX_SHM_POOLS_PER_ZONE : Z := 256.
Definition MAX_SHM_POOL_BYTES : Z := 134217728.
Definition MAX_SHM_BYTES_PER_SESSION : Z := 1073741824.
Definition MAX_SHM_BYTES_PER_ZONE : Z := 1073741824.
Definition MAX_SUBSURFACES_PER_SESSION : Z := 256.
Definition MAX_HELD_PER_SURFACE : Z := 64.
Definition MOVE_TYPES : list string := [
  "text/plain;charset=utf-8";
  "text/plain";
  "text/html";
  "text/uri-list";
  "image/png";
  "image/jpeg";
  "application/octet-stream"
].
Definition MAX_MOVE_BYTES : Z := 1048576.
Definition MAX_DATA_SOURCES_PER_SESSION : Z := 64.
Definition MAX_MIME_TYPES : Z := 32.
Definition MAX_MIME_BYTES : Z := 256.

(** ** Char boundaries of valid text *)

(** A character's encoding: one lead byte, then continuation bytes only. *)
Lemma encode_char_lead c :
  is_char c = true ->
  exists b bs, encode_char c = b :: bs /\ cont b = false /\ Forall (fun b => cont b = true) bs.
Proof.
  unfold is_char, between. intros Hc. unfold encode_char, cont.
  destruct (Z.ltb_spec c 128); [|destruct (Z.ltb_spec c 2048); [|destruct (Z.ltb_spec c 65536)]];
    (do 2 eexists; split; [done|]; split; [rewrite Z_of_byte_of_Z; dlia|]);
    repeat constructor; rewrite Z_of_byte_of_Z; dlia.
Qed.

(** Cutting valid text at a char boundary leaves whole characters. *)
Lemma boundary_take cs i :
  forallb is_char cs = true ->
  (exists b, encode_chars cs !! i = Some b /\ cont b = false) \/ (length (encode_chars cs) <= i)%nat ->
  exists n, take i (encode_chars cs) = encode_chars (take n cs).
Proof.
  unfold encode_chars. revert i. induction cs as [|c cs IH]; intros i Hcs Hi.
  { exists O. simpl. by rewrite take_nil. }
  simpl in Hcs. apply andb_true_iff in Hcs as [Hc Hcs].
  destruct (encode_char_lead c Hc) as (b & bs & Henc & Hb & Hbs).
  change (mjoin (encode_char <$> c :: cs)) with (encode_char c ++ mjoin (encode_char <$> cs)) in *.
  destruct (decide (i = O)) as [->|Hi0]; [by exists O|].
  destruct (decide (i < length (encode_char c))%nat) as [Hlt|Hge].
  { exfalso. destruct Hi as [(b' & Hb' & Hc')|Hlen]; [|rewrite length_app in Hlen; lia].
    rewrite lookup_app_l, Henc in Hb' by done. destruct i as [|i]; [done|].
    rewrite Forall_lookup in Hbs. simpl in Hb'. apply Hbs in Hb'. congruence. }
  destruct (IH (i - length (encode_char c))%nat Hcs) as [n Hn].
  { destruct Hi as [(b' & Hb' & Hc')|Hlen].
    - left. exists b'. by rewrite lookup_app_r in Hb' by lia.
    - right. rewrite length_app in Hlen. lia. }
  exists (S n). simpl. rewrite take_app_ge by lia. by rewrite Hn.
Qed.

Lemma cut_loop_le s n : (cut_loop s n <= n)%nat.
Proof. induction n as [|n IH]; cbn [cut_loop]; [done|]. case_bool; lia. Qed.

Lemma cut_loop_boundary s n : is_char_boundary s (cut_loop s n) = true.
Proof. induction n as [|n IH]; cbn [cut_loop]; [done|]. by case_bool. Qed.

Lemma cut_loop_max s n b :
  is_char_boundary s b = true -> (b <= n)%nat -> (b <= cut_loop s n)%nat.
Proof.
  intros Hb. induction n as [|n IH]; cbn [cut_loop]; intros Hn; [done|].
  case_bool; [done|]. apply IH. destruct (decide (b = S n)) as [->|]; [congruence|lia].
Qed.

Lemma is_str_take s i :
  is_str s -> is_char_boundary s i = true ->
  exists n, take i (as_bytes s) = encode_chars (take n (chars s)).
Proof.
  intros [Hcs Hs]%is_str_bytes Hi. unfold is_char_boundary in Hi. rewrite Hs in *.
  destruct (decide (i = O)) as [->|Hi0]; [by exists O|].
  apply boundary_take; [done|].
  replace (i =? 0)%nat with false in Hi by (symmetry; by apply Nat.eqb_neq). simpl in Hi.
  destruct (encode_chars (chars s) !! i) as [b|] eqn:Hlook.
  - left. exists b. split; [done|]. by destruct (cont b).
  - right. by apply lookup_ge_None.
Qed.

Lemma chars_app s t : is_str s -> is_str t -> chars (s +:+ t) = chars s ++ chars t.
Proof.
  intros [Hcs Hs]%is_str_bytes [ct Ht]. unfold chars at 1.
  rewrite as_bytes_app, Hs, utf8_app_chars, Ht by done. assert (chars t = ct) as -> by (unfold chars; by rewrite Ht). done.
Qed.

(** The text kept by the cut: a prefix of the characters. *)
Lemma bound_utf8_chars s max :
  is_str s -> is_str (bound_utf8 s max) /\
  (chars (bound_utf8 s max) = chars s \/
   exists n, chars (bound_utf8 s max) = take n (chars s) ++ [46; 46; 46]).
Proof.
  intros Hs. unfold bound_utf8. case_bool; [by eauto|]. cbv zeta.
  destruct (is_str_take s _ Hs (cut_loop_boundary s (Z.to_nat (saturating_sub max 3)))) as [n Hn].
  rewrite Hn. apply is_str_chars in Hs as [Hcs _].
  assert (forallb is_char (take n (chars s)) = true) as Hn'.
  { rewrite forallb_forall in *. intros c Hc. apply Hcs. rewrite <-(take_drop n). apply in_app_iff. by left. }
  change (str_of_bytes (encode_chars ?x)) with (of_chars x).
  assert (is_str "...") as H3 by (by eexists).
  split; [apply is_str_app; [by apply is_str_of_chars|done]|].
  right. exists n. rewrite chars_app, chars_of_chars by (done || by apply is_str_of_chars). done.
Qed.

Lemma str_len_app s t : str_len (s +:+ t) = str_len s + str_len t.
Proof. unfold str_len. by rewrite as_bytes_app, zlen_app. Qed.

Lemma bound_utf8_len s max : 3 <= max -> str_len (bound_utf8 s max) <= max.
Proof.
  intros Hmax. unfold bound_utf8. case_bool; [lia|]. cbv zeta. rewrite str_len_app.
  unfold str_len at 1. rewrite as_bytes_of_bytes. change (str_len "...") with 3.
  pose proof (cut_loop_le s (Z.to_nat (saturating_sub max 3))) as Hle.
  unfold saturating_sub, zlen in *. rewrite length_take. lia.
Qed.

(** A prefix of whole characters that fits before the cut is kept. *)
Lemma bound_utf8_prefix p q max :
  is_str q -> str_len p + 3 <= max -> exists q', bound_utf8 (p +:+ q) max = p +:+ q'.
Proof.
  intros Hq Hlen. unfold bound_utf8. case_bool; [by exists q|]. cbv zeta.
  set (cut := cut_loop _ _). pose proof (zlen_nonneg (as_bytes p)) as Hp0.
  assert (length (as_bytes p) <= cut)%nat as Hcut.
  { apply cut_loop_max; [|unfold saturating_sub, str_len, zlen in *; lia].
    unfold is_char_boundary. rewrite as_bytes_app, lookup_app_r, Nat.sub_diag by lia.
    destruct (as_bytes q) as [|b l] eqn:Hqb.
    - simpl. rewrite app_nil_r, Nat.eqb_refl. by rewrite orb_true_r.
    - apply is_str_bytes in Hq as [Hcs Hq]. rewrite Hq in Hqb. destruct (chars q) as [|c cs]; [done|].
      simpl in Hcs. apply andb_true_iff in Hcs as [Hc _].
      destruct (encode_char_lead c Hc) as (b' & bs & Henc & Hlead & _).
      change (encode_chars (c :: cs)) with (encode_char c ++ encode_chars cs) in Hqb.
      rewrite Henc in Hqb. simplify_eq/=. rewrite Hlead. by rewrite orb_true_r. }
  exists (str_of_bytes (take (cut - length (as_bytes p)) (as_bytes q)) +:+ "...").
  apply as_bytes_inj. rewrite !as_bytes_app, !as_bytes_of_bytes, take_app_ge by done.
  by rewrite <-app_assoc.
Qed.

(** An ASCII byte in text is that ASCII character. *)
Lemma ascii_chars s b :
  is_str s -> Z_of_byte b < 128 -> Z_of_byte b ∉ chars s -> b ∉ as_bytes s.
Proof.
  intros [Hcs ->]%is_str_bytes. revert Hcs. generalize (chars s). intros cs Hcs Hb Hnul.
  pose proof (Z_of_byte_range b).
  induction cs as [|c cs IH]; [set_solver|].
  simpl in Hcs. apply andb_true_iff in Hcs as [Hc Hcs]. rewrite not_elem_of_cons in Hnul.
  change (encode_chars (c :: cs)) with (encode_char c ++ encode_chars cs).
  rewrite elem_of_app. intros [Hin|Hin]; [|by apply IH; tauto]. clear IH.
  assert (Forall (fun b' => Z_of_byte b' <> Z_of_byte b) (encode_char c)) as Hall.
  { unfold is_char, between in Hc. unfold encode_char.
    destruct (Z.ltb_spec c 128); [|destruct (Z.ltb_spec c 2048); [|destruct (Z.ltb_spec c 65536)]];
      repeat constructor; rewrite Z_of_byte_of_Z; dlia. }
  rewrite Forall_forall in Hall. by apply (Hall b).
Qed.

Lemma nul_chars s : is_str s -> 0 ∉ chars s -> x00 ∉ as_bytes s.
Proof. intros Hs H0. by apply ascii_chars. Qed.

(** ** main.rs: the zone names the proxy is started with *)
Definition zone_ok (zone : string) : bool :=
  negb (String.eqb zone "") && (str_len zone <=? 32)
  && forallb app_id_char (chars zone).

Lemma zone_ok_spec zone :
  zone_ok zone = true ->
  1 <= str_len zone <= 32 /\ Forall (fun c => app_id_char c = true) (chars zone).
Proof.
  unfold zone_ok. intros [[H1 H2]%andb_true_iff H3]%andb_true_iff.
  split; [|by apply forallb_Forall]. destruct zone as [|a z]; [done|].
  assert (1 <= str_len (String a z)); [|lia].
  unfold str_len, as_bytes, String.list_byte_of_string, zlen. simpl. lia.
Qed.

(** The characters of a plain identifier are shown as they are. *)
Lemma app_id_char_shown c : app_id_char c = true -> blanked c = false /\ c <> 46 /\ is_char c = true.
Proof.
  unfold app_id_char, is_ascii_alphanumeric, blanked, is_control, is_char, between. lia.
Qed.

Lemma blanked_spaces s :
  is_str s ->
  forallb is_char ((fun c => if blanked c then 32 else c) <$> chars s) = true /\
  Forall (fun c => blanked c = false) ((fun c => if blanked c then 32 else c) <$> chars s).
Proof.
  intros [Hcs _]%is_str_bytes. rewrite forallb_Forall in *.
  split; apply Forall_fmap; (eapply Forall_impl; [exact Hcs|]); intros c Hc; simpl; by case_bool.
Qed.

(** Whatever the client asks for, a title is text that fits its bound, holds no control or
    bidirectional character, and starts with the zone's name in brackets. *)
Lemma title_for_spec zone title :
  is_str zone -> zone_ok zone = true -> is_str title ->
  is_str (title_for zone title) /\ str_len (title_for zone title) <= MAX_TITLE_BYTES /\
  Forall (fun c => blanked c = false) (chars (title_for zone title)) /\
  exists shown, title_for zone title = ("[" +:+ zone +:+ "] ") +:+ shown.
Proof.
  intros Hz Hzok Ht. unfold title_for. apply blanked_spaces in Ht as [Hcs Hb].
  apply zone_ok_spec in Hzok as [Hzlen Hzc].
  set (cs := _ <$> chars title) in *. pose proof (is_str_of_chars cs Hcs) as Hsh.
  assert (is_str "[") as Ho by (by eexists). assert (is_str "] ") as Hc by (by eexists).
  pose proof (is_str_app _ _ Hz Hc) as Hzc'. pose proof (is_str_app _ _ Ho Hzc') as Hp.
  replace ("[" +:+ zone +:+ "] " +:+ of_chars cs) with (("[" +:+ zone +:+ "] ") +:+ of_chars cs)
    by (apply as_bytes_inj; by rewrite !as_bytes_app, <-?app_assoc).
  assert (Forall (fun c => blanked c = false) (chars (("[" +:+ zone +:+ "] ") +:+ of_chars cs))) as Hall.
  { rewrite !chars_app, chars_of_chars, !Forall_app by done.
    split_and!; [by repeat constructor| |by repeat constructor|done].
    eapply Forall_impl; [exact Hzc|]. intros c Hc'. by apply app_id_char_shown in Hc' as [? _]. }
  pose proof (is_str_app _ _ Hp Hsh) as Hstr.
  pose proof (bound_utf8_chars _ MAX_TITLE_BYTES Hstr) as [H1 H2].
  split_and!; [done|by apply bound_utf8_len| |].
  - destruct H2 as [->|[n ->]]; [done|]. apply Forall_app. split; [by apply Forall_take|].
    by repeat constructor.
  - apply bound_utf8_prefix; [done|]. rewrite !str_len_app.
    change (str_len "[") with 1. change (str_len "] ") with 2. unfold MAX_TITLE_BYTES. lia.
Qed.

(** The claim of an app_id keeps 1 to 64 plain characters. *)
Lemma app_id_for_spec zone claimed :
  exists kept, app_id_for zone claimed = ("kryptik." +:+ zone) +:+ "." +:+ kept /\
    is_str kept /\ 1 <= zlen (chars kept) <= 64 /\
    Forall (fun c => app_id_char c = true) (chars kept).
Proof.
  unfold app_id_for. set (cs := _ <$> take 64 (chars claimed)).
  assert (Forall (fun c => app_id_char c = true) cs) as Hcs.
  { apply Forall_fmap, Forall_true. intros c. simpl. by case_bool. }
  assert (forallb is_char cs = true) as His.
  { apply forallb_Forall. eapply Forall_impl; [exact Hcs|]. intros c Hc. by apply app_id_char_shown in Hc as (_ & _ & ?). }
  exists (if String.eqb (of_chars cs) "" then "app" else of_chars cs). split.
  { apply as_bytes_inj. by rewrite !as_bytes_app, <-!app_assoc. }
  destruct (String.eqb_spec (of_chars cs) "") as [He|He].
  { split_and!; [by eexists|done..|]. by repeat constructor. }
  rewrite chars_of_chars by done. split_and!; [by apply is_str_of_chars| | |done].
  - destruct cs; [done|]. rewrite zlen_cons. pose proof (zlen_nonneg cs). lia.
  - subst cs. unfold zlen. rewrite length_fmap, length_take. lia.
Qed.

(** Two zones' app_ids are never equal: the name ends at the first dot. *)
Lemma app_id_for_zone z1 c1 z2 c2 :
  is_str z1 -> zone_ok z1 = true -> is_str z2 -> zone_ok z2 = true ->
  app_id_for z1 c1 = app_id_for z2 c2 -> z1 = z2.
Proof.
  intros Hz1 Hok1 Hz2 Hok2 Heq.
  destruct (app_id_for_spec z1 c1) as (k1 & E1 & _), (app_id_for_spec z2 c2) as (k2 & E2 & _).
  rewrite E1, E2 in Heq. apply (f_equal as_bytes) in Heq. rewrite !as_bytes_app, <-!app_assoc in Heq.
  apply app_inv_head in Heq.
  assert (forall z, is_str z -> zone_ok z = true -> byte_of_Z 46 ∉ as_bytes z) as Hdot.
  { intros z Hz [_ Hc]%zone_ok_spec. apply ascii_chars; [done..|]. intros Hin.
    rewrite Forall_forall in Hc. by apply Hc, app_id_char_shown in Hin as (_ & ? & _). }
  destruct (app_sep_inj (byte_of_Z 46) _ _ _ _ (Hdot _ Hz1 Hok1) (Hdot _ Hz2 Hok2) Heq) as [E _].
  by apply as_bytes_inj.
Qed.
