(* ===== verification/Clipboard.v ===== *)
(** * compositor/wlproxy/src/clipboard.rs: a zone's selection

    The selection the proxy serves among a zone's own clients, the keyboard's place,
    and what one session's messages ask of another. *)
From S2P Require Import Prelude Bytes.
Open Scope Z_scope.

(** The owner of a selection the proxy holds itself: no session's. *)
Definition OWN : Z := 0.

Record Selection := mkSelection {
  sel_owner : Z;
  sel_source : Z;
  sel_mimes : list string;
  sel_data : option bytes;
}.

Inductive Action : Type :=
| Offer (session : Z)
| Cancel (session source : Z)
| Send (session source : Z) (mime : string) (fd : Z).

#[export] Instance Action_eq_dec : EqDecision Action.
Proof. solve_decision. Defined.

Definition action_session (a : Action) : Z :=
  match a with Offer s | Cancel s _ | Send s _ _ _ => s end.

Record Clipboard := mkClipboard {
  focus : option Z;
  selection : option Selection;
  generation : Z;
  actions : list Action;
}.

Definition default_clipboard : Clipboard := mkClipboard None None 0 [].

Definition set_focus (f : option Z) (c : Clipboard) : Clipboard :=
  mkClipboard f (selection c) (generation c) (actions c).
Definition set_selection (s : option Selection) (c : Clipboard) : Clipboard :=
  mkClipboard (focus c) s (generation c) (actions c).
Definition push_action (a : Action) (c : Clipboard) : Clipboard :=
  mkClipboard (focus c) (selection c) (generation c) (actions c ++ [a]).

(** [Clipboard::changed]. *)
Definition changed (c : Clipboard) : Clipboard :=
  let c := mkClipboard (focus c) (selection c) (generation c + 1) (actions c) in
  match focus c with
  | Some f => push_action (Offer f) c
  | None => c
  end.

(** [s.owner == owner && s.source == source]. *)
Definition is_source (owner source : Z) (s : Selection) : bool :=
  (sel_owner s =? owner) && (sel_source s =? source).

(** [Option::is_some_and]. *)
Definition is_some_and {A} (o : option A) (f : A -> bool) : bool :=
  match o with Some a => f a | None => false end.

(** [Clipboard::set]. *)
Definition clip_set (sel : option Selection) (c : Clipboard) : Clipboard :=
  let c' :=
    match selection c with
    | Some old =>
      if negb (sel_owner old =? OWN)
         && negb (is_some_and sel (is_source (sel_owner old) (sel_source old)))
      then push_action (Cancel (sel_owner old) (sel_source old)) c else c
    | None => c
    end in
  changed (set_selection sel c').

(** [Clipboard::source_gone]. *)
Definition source_gone (owner source : Z) (c : Clipboard) : Clipboard :=
  if is_some_and (selection c) (is_source owner source)
  then changed (set_selection None c) else c.

(** [Clipboard::session_gone]. *)
Definition session_gone (id : Z) (c : Clipboard) : Clipboard :=
  let c := mkClipboard (focus c) (selection c) (generation c)
             (filter (fun a => action_session a <> id) (actions c)) in
  let c := if bool_decide (focus c = Some id) then set_focus None c else c in
  if is_some_and (selection c) (fun s => sel_owner s =? id)
  then changed (set_selection None c) else c.

(** ** Lemmas *)

(** A cancelled source was replaced by another one, and the client with the keyboard is
    always offered the new selection. *)
Lemma clip_set_spec sel c :
  let c' := clip_set sel c in
  selection c' = sel /\ focus c' = focus c /\ generation c' = generation c + 1 /\
  exists cancelled, actions c' = actions c ++ cancelled ++ (Offer <$> option_list (focus c)) /\
    (cancelled = [] \/ exists old, selection c = Some old /\ sel_owner old <> OWN /\
       is_some_and sel (is_source (sel_owner old) (sel_source old)) = false /\
       cancelled = [Cancel (sel_owner old) (sel_source old)]).
Proof.
  destruct c as [f s g l]. unfold clip_set, changed, set_selection, push_action. simpl.
  destruct s as [old|]; simpl.
  - destruct (sel_owner old =? OWN) eqn:Ho; simpl; [|destruct (is_some_and sel _) eqn:Hs; simpl].
    + destruct f; simpl; split_and!; try done; exists []; rewrite ?app_nil_r; eauto.
    + destruct f; simpl; split_and!; try done; exists []; rewrite ?app_nil_r; eauto.
    + destruct f; simpl; split_and!; try done;
        (exists [Cancel (sel_owner old) (sel_source old)]; split; [by rewrite <-?app_assoc, ?app_nil_r|]);
        right; exists old; split_and!; try done; lia.
  - destruct f; simpl; split_and!; try done; exists []; rewrite ?app_nil_r; eauto.
Qed.

(** No trace of an ended session: no action names it but the offer of nothing to nobody,
    and neither the keyboard nor the selection is its. *)
Lemma session_gone_spec id c :
  let c' := session_gone id c in
  focus c' <> Some id /\
  (forall s, selection c' = Some s -> sel_owner s <> id) /\
  (forall a, a ∈ actions c' -> action_session a <> id).
Proof.
  destruct c as [f s g l]. unfold session_gone. cbn [focus selection generation actions].
  set (l' := filter _ l).
  assert (forall a, a ∈ l' -> action_session a <> id) as Hl by (intros a Ha; subst l'; by apply list_elem_of_filter in Ha as [? _]).
  assert (forall f', f' <> Some id -> forall a, a ∈ l' ++ (Offer <$> option_list f') ->
    action_session a <> id) as Hl'.
  { intros f' Hf' a. rewrite elem_of_app. intros [Ha|Ha]; [by apply Hl|].
    destruct f' as [f'|]; simpl in Ha; [|set_solver]. apply list_elem_of_singleton in Ha as ->.
    simpl. congruence. }
  assert (exists f', (if bool_decide (f = Some id) then set_focus None (mkClipboard f s g l')
    else mkClipboard f s g l') = mkClipboard f' s g l' /\ f' <> Some id) as (f' & -> & Hf').
  { destruct (bool_decide_reflect (f = Some id)); [by exists None|by exists f]. }
  cbn [selection]. destruct s as [sel|]; simpl; [|by split_and!].
  destruct (Z.eqb_spec (sel_owner sel) id) as [Ho|Ho]; simpl; [|split_and!; naive_solver].
  unfold changed, set_selection, push_action. simpl.
  specialize (Hl' f' Hf'). destruct f'; simpl in *; split_and!; naive_solver.
Qed.
