(* ===== verification/Endpoint.v ===== *)
(** * compositor/wlproxy/src/session.rs: [Endpoint], one socket's queues

    Inbound bytes and descriptors as they arrive, outbound batches of whole messages
    with theirs. What the kernel answers to recvmsg and sendmsg is an argument. *)
From S2P Require Import Prelude Bytes Wire WlPolicy.
Open Scope list_scope.
Open Scope Z_scope.

(** [io::Error]: an errno, or the proxy's own refusal of what it read. *)
Inductive IoError : Type :=
| OsError (errno : Z)
| InvalidData.

#[export] Instance IoError_eq_dec : EqDecision IoError.
Proof. solve_decision. Defined.

Definition BATCH_BYTES : Z := MAX_MESSAGE_LEN.
Definition BATCH_FDS : Z := 28.

Record Endpoint := mkEndpoint {
  ep_fd : Z;
  inbuf : bytes;
  in_pos : Z;
  in_fds : list Z;
  outq : list (bytes * list Z);
  pending_out : Z;
  pending_fds : Z;
  closed : bool;
}.

(** [Endpoint::new]. *)
Definition new_endpoint (fd : Z) : Endpoint := mkEndpoint fd [] 0 [] [] 0 0 false.

Definition set_in (buf : bytes) (pos : Z) (e : Endpoint) : Endpoint :=
  mkEndpoint (ep_fd e) buf pos (in_fds e) (outq e) (pending_out e) (pending_fds e) (closed e).
Definition set_in_fds (fds : list Z) (e : Endpoint) : Endpoint :=
  mkEndpoint (ep_fd e) (inbuf e) (in_pos e) fds (outq e) (pending_out e) (pending_fds e) (closed e).
Definition set_out (q : list (bytes * list Z)) (b f : Z) (e : Endpoint) : Endpoint :=
  mkEndpoint (ep_fd e) (inbuf e) (in_pos e) (in_fds e) q b f (closed e).

(** [Endpoint::pending_in]. *)
Definition pending_in (e : Endpoint) : bytes := drop (Z.to_nat (in_pos e)) (inbuf e).

(** [Endpoint::take]: the next [n] pending bytes; the caller has checked they are there. *)
Definition ep_take (n : Z) (e : Endpoint) : bytes * Endpoint :=
  let out := slice (inbuf e) (in_pos e) (in_pos e + n) in
  let pos := in_pos e + n in
  (out, if pos =? zlen (inbuf e) then set_in [] 0 e else set_in (inbuf e) pos e).

(** recvmsg's answer: an error, nothing yet, or bytes with the descriptors of its control
    messages, in order, and whether the control data was truncated. *)
Inductive RecvResult : Type :=
| RecvErr (errno : Z)
| RecvWouldBlock
| Received (data : bytes) (fds : list Z) (ctrunc : bool).

(** [Endpoint::read]: bytes read, 0 at end of file, [usize::MAX] if it would block. *)
Definition ep_read (k : RecvResult) : M Endpoint IoError Z :=
  match k with
  | RecvErr errno => fail (OsError errno)
  | RecvWouldBlock => mret USIZE_MAX
  | Received data fds ctrunc =>
    (* Queued before any check, so a refused read cannot leak them. *)
    modify (fun e => set_in_fds (in_fds e ++ fds) e) ≫= fun _ =>
    gets id ≫= fun e =>
    reject_if (ctrunc || (zlen (in_fds e) >? MAX_PENDING_FDS)
      || (zlen (pending_in e) + zlen data >? MAX_PENDING_BYTES)) InvalidData ≫= fun _ =>
    if zlen data =? 0 then mret 0 else
    modify (fun e => set_in (pending_in e ++ data) 0 e) ≫= fun _ =>
    mret (zlen data)
  end.

(** [Endpoint::queue]: into the last batch if it fits, else a batch of its own. *)
Definition push_batch (msg : bytes) (fds : list Z) (q : list (bytes * list Z))
    : list (bytes * list Z) :=
  match last q with
  | Some (b, f) =>
    if (zlen b + zlen msg <=? BATCH_BYTES) && (zlen f + zlen fds <=? BATCH_FDS)
    then removelast q ++ [(b ++ msg, f ++ fds)]
    else q ++ [(msg, fds)]
  | None => q ++ [(msg, fds)]
  end.

Definition queue (msg : bytes) (fds : list Z) (e : Endpoint) : Endpoint :=
  set_out (push_batch msg fds (outq e)) (pending_out e + zlen msg) (pending_fds e + zlen fds) e.

(** sendmsg's answer: how many bytes it took (the whole batch when [n] is larger; the
    descriptors go with the first byte), or an error, or that it would block. *)
Inductive SendResult : Type :=
| Sent (n : nat)
| SendWouldBlock
| SendErr (errno : Z).

(** What one sendmsg call handed to the kernel. *)
Abbreviation sent := (list (bytes * list Z)).

(** [CMSG_SPACE] of [n] descriptors: a 16-byte header, the data rounded up to 8. *)
Definition cmsg_space (n : Z) : Z := 16 + 8 * ((4 * n + 7) / 8).

(** [Endpoint::flush], one answer of the kernel per turn of its loop; when no further
    answer is given the socket would block. [true] when something remains. A batch with
    more descriptors than the 256-byte control buffer holds fails the assertion. *)
Fixpoint flush (ks : list SendResult) (e : Endpoint)
    : outcome bool IoError * Endpoint * sent :=
  match outq e with
  | [] => (Done false, e, [])
  | (b, f) :: q =>
    if cmsg_space (zlen f) >? 256 then (Panic, e, []) else
    match ks with
    | [] | SendWouldBlock :: _ => (Done true, e, [])
    | SendErr errno :: _ => (Fail (OsError errno), e, [])
    | Sent n :: ks =>
      let n := Z.min (Z.of_nat n) (zlen b) in
      if (pending_fds e <? zlen f) || (pending_out e <? n) then (Panic, e, []) else
      let q' := if n =? zlen b then q else (drop (Z.to_nat n) b, []) :: q in
      let '(r, e', s) := flush ks (set_out q' (pending_out e - n) (pending_fds e - zlen f) e) in
      (r, e', (take (Z.to_nat n) b, f) :: s)
    end
  end.

(** [Endpoint::close_all]: the descriptors it closes, and the endpoint after. *)
Definition close_all (e : Endpoint) : list Z * Endpoint :=
  ((if closed e then [] else [ep_fd e]) ++ in_fds e ++ mjoin (snd <$> outq e),
   mkEndpoint (ep_fd e) (inbuf e) (in_pos e) [] [] 0 0 true).

(** ** The queue's bookkeeping *)
Definition out_bytes (e : Endpoint) : bytes := mjoin (fst <$> outq e).
Definition out_fds (e : Endpoint) : list Z := mjoin (snd <$> outq e).

Definition batch_ok (p : bytes * list Z) : Prop :=
  0 < zlen p.1 <= BATCH_BYTES /\ zlen p.2 <= BATCH_FDS.

(** The counters say what is queued, and every batch fits one sendmsg. *)
Record ep_ok (e : Endpoint) : Prop := {
  ep_in : 0 <= in_pos e <= zlen (inbuf e);
  ep_out : pending_out e = zlen (out_bytes e);
  ep_fds : pending_fds e = zlen (out_fds e);
  ep_batches : Forall batch_ok (outq e);
}.

Lemma new_endpoint_ok fd : ep_ok (new_endpoint fd).
Proof. by split; [|..|constructor]. Qed.

(** Queueing appends to the stream of bytes and to the stream of descriptors. *)
Lemma push_batch_fst msg fds q : mjoin (fst <$> push_batch msg fds q) = mjoin (fst <$> q) ++ msg.
Proof.
  unfold push_batch. destruct (last q) as [[b f]|] eqn:Hl; [case_bool|];
    rewrite ?fmap_app, ?join_app; simpl; rewrite ?app_nil_r; try done.
  apply last_Some in Hl as [q' ->]. rewrite removelast_last, fmap_app, join_app. simpl.
  by rewrite app_nil_r, app_assoc.
Qed.

Lemma push_batch_snd msg fds q : mjoin (snd <$> push_batch msg fds q) = mjoin (snd <$> q) ++ fds.
Proof.
  unfold push_batch. destruct (last q) as [[b f]|] eqn:Hl; [case_bool|];
    rewrite ?fmap_app, ?join_app; simpl; rewrite ?app_nil_r; try done.
  apply last_Some in Hl as [q' ->]. rewrite removelast_last, fmap_app, join_app. simpl.
  by rewrite app_nil_r, app_assoc.
Qed.

Lemma push_batch_ok msg fds q :
  batch_ok (msg, fds) -> Forall batch_ok q -> Forall batch_ok (push_batch msg fds q).
Proof.
  intros [Hm Hf] Hq. unfold push_batch. destruct (last q) as [[b f]|] eqn:Hl; [case_bool|];
    rewrite ?Forall_app, ?Forall_singleton; try done.
  apply last_Some in Hl as [q' ->]. rewrite removelast_last. apply Forall_app in Hq as [Hq' [Hbf _]%Forall_cons].
  split; [done|]. unfold batch_ok in *. cbn [fst snd] in *. rewrite !zlen_app. lia.
Qed.

Lemma queue_ok msg fds e : batch_ok (msg, fds) -> ep_ok e -> ep_ok (queue msg fds e).
Proof.
  intros Hb [H1 H2 H3 H4]. unfold queue. split; cbn; [done|..].
  - unfold out_bytes. cbn. rewrite push_batch_fst, zlen_app, H2. done.
  - unfold out_fds. cbn. rewrite push_batch_snd, zlen_app, H3. done.
  - by apply push_batch_ok.
Qed.

(** ** Descriptors never trail their message

    [grouped q ms]: the batches [q] are the messages [ms], in order, some of them joined. *)
Inductive grouped : list (bytes * list Z) -> list (bytes * list Z) -> Prop :=
| grouped_nil : grouped [] []
| grouped_cons g q ms :
    grouped q ms ->
    grouped ((mjoin (fst <$> g), mjoin (snd <$> g)) :: q) (g ++ ms).

Lemma grouped_app q1 ms1 q2 ms2 :
  grouped q1 ms1 -> grouped q2 ms2 -> grouped (q1 ++ q2) (ms1 ++ ms2).
Proof.
  induction 1 as [|g q ms H IH]; intros H2; [done|].
  rewrite <-app_assoc. simpl. constructor. by apply IH.
Qed.

Lemma grouped_one m : grouped [m] [m].
Proof.
  destruct m as [b f]. change [(b, f)] with ([(b, f)] ++ []) at 2.
  replace [(b, f)] with [(mjoin (fst <$> [(b, f)]), mjoin (snd <$> [(b, f)]))] at 1
    by (simpl; by rewrite !app_nil_r).
  apply grouped_cons, grouped_nil.
Qed.

Lemma grouped_snoc_inv q b f ms :
  grouped (q ++ [(b, f)]) ms -> exists g ms', ms = ms' ++ g /\ grouped q ms' /\
    b = mjoin (fst <$> g) /\ f = mjoin (snd <$> g).
Proof.
  revert ms. induction q as [|[b' f'] q IH]; intros ms H; inversion H as [|g q' ms' H']; subst.
  - inversion H'; subst. exists g, []. rewrite app_nil_r. split_and!; [done|constructor|done..].
  - apply IH in H' as (g' & ms'' & -> & Hq & -> & ->). exists g', (g ++ ms'').
    rewrite app_assoc. split_and!; [done|by constructor|done..].
Qed.

Lemma grouped_push msg fds q ms :
  grouped q ms -> grouped (push_batch msg fds q) (ms ++ [(msg, fds)]).
Proof.
  intros H. unfold push_batch. destruct (last q) as [[b f]|] eqn:Hl; [case_bool|];
    try by apply grouped_app, grouped_one.
  apply last_Some in Hl as [q' ->]. rewrite removelast_last.
  apply grouped_snoc_inv in H as (g & ms' & -> & Hq & -> & ->).
  rewrite <-app_assoc. apply grouped_app; [done|].
  replace (mjoin (fst <$> g) ++ msg) with (mjoin (fst <$> (g ++ [(msg, fds)])))
    by (rewrite fmap_app, join_app; simpl; by rewrite app_nil_r).
  replace (mjoin (snd <$> g) ++ fds) with (mjoin (snd <$> (g ++ [(msg, fds)])))
    by (rewrite fmap_app, join_app; simpl; by rewrite app_nil_r).
  rewrite <-(app_nil_r (g ++ _)) at 3. apply grouped_cons, grouped_nil.
Qed.

(** Messages queued one after the other. *)
Definition queue_all (ms : list (bytes * list Z)) (e : Endpoint) : Endpoint :=
  foldl (fun e m => queue m.1 m.2 e) e ms.

Lemma queue_all_grouped ms e ms0 :
  grouped (outq e) ms0 -> grouped (outq (queue_all ms e)) (ms0 ++ ms).
Proof.
  revert e ms0. induction ms as [|[b f] ms IH]; intros e ms0 H; simpl; [by rewrite app_nil_r|].
  replace (ms0 ++ (b, f) :: ms) with ((ms0 ++ [(b, f)]) ++ ms) by (by rewrite <-app_assoc).
  apply IH. cbn. by apply grouped_push.
Qed.

Lemma queue_all_ok ms e : Forall batch_ok ms -> ep_ok e -> ep_ok (queue_all ms e).
Proof.
  intros Hms. revert e. induction Hms as [|[b f] ms Hb Hms IH]; intros e He; [done|].
  simpl. apply IH. by apply queue_ok.
Qed.

(** Facts of one turn of the loop: what sendmsg took and what is left. *)
Lemma flush_batch n b f q e (k := Z.min (Z.of_nat n) (zlen b))
    (q' := if k =? zlen b then q else (drop (Z.to_nat k) b, []) :: q) :
  ep_ok e -> outq e = (b, f) :: q ->
  zlen f <= pending_fds e /\ k <= pending_out e /\
  ep_ok (set_out q' (pending_out e - k) (pending_fds e - zlen f) e) /\
  take (Z.to_nat k) b ++ mjoin (fst <$> q') = mjoin (fst <$> outq e) /\
  f ++ mjoin (snd <$> q') = mjoin (snd <$> outq e).
Proof.
  intros [H1 H2 H3 H4] Hq. unfold out_bytes, out_fds in *. rewrite Hq in *.
  rewrite join_fmap_cons, zlen_app in H2. rewrite join_fmap_cons, zlen_app in H3.
  rewrite !join_fmap_cons. cbn [fst snd] in *.
  apply Forall_cons in H4 as [[Hb Hf] Hqs]. cbn [fst snd] in Hb, Hf. pose proof (zlen_nonneg (mjoin (fst <$> q))).
  pose proof (zlen_nonneg (mjoin (snd <$> q))). pose proof (zlen_nonneg f).
  assert (0 <= k <= zlen b) as Hk by (subst k; lia).
  assert (take (Z.to_nat k) b ++ mjoin (fst <$> q') = b ++ mjoin (fst <$> q)) as Htk.
  { subst q'. destruct (Z.eqb_spec k (zlen b)) as [->|Hne]; simpl.
    - unfold zlen. by rewrite Nat2Z.id, firstn_all.
    - by rewrite app_assoc, take_drop. }
  assert (mjoin (snd <$> q') = mjoin (snd <$> q)) as Hsn by (subst q'; by case_bool).
  split_and!; [lia|lia| |done|by rewrite Hsn].
  apply (f_equal zlen) in Htk. rewrite !zlen_app, zlen_take in Htk by done.
  split; cbn [set_out in_pos inbuf pending_out pending_fds outq]; unfold out_bytes, out_fds; cbn [set_out outq];
    rewrite ?Hsn; [done|lia|lia|].
  subst q'. destruct (Z.eqb_spec k (zlen b)) as [?|Hne]; [done|].
  apply Forall_cons. split; [|done]. unfold batch_ok. cbn [fst snd]. rewrite zlen_drop by done.
  unfold BATCH_FDS. change (zlen (@nil Z)) with 0. lia.
Qed.

Lemma cmsg_fits (f : list Z) : zlen f <= BATCH_FDS -> (cmsg_space (zlen f) >? 256) = false.
Proof. unfold BATCH_FDS, cmsg_space. intros. dlia. Qed.

(** Flushing never panics, keeps the counters right, and splits both streams in two: what
    was sent and what is left. *)
Lemma flush_ok ks e r e' s :
  ep_ok e -> flush ks e = (r, e', s) ->
  r <> Panic /\ ep_ok e' /\
  mjoin (fst <$> s) ++ out_bytes e' = out_bytes e /\
  mjoin (snd <$> s) ++ out_fds e' = out_fds e /\
  inbuf e' = inbuf e /\ in_pos e' = in_pos e /\ in_fds e' = in_fds e.
Proof.
  revert e r e' s. induction ks as [|k ks IH]; intros e r e' s He Hf.
  - cbn [flush] in Hf. destruct (outq e) as [|[b f] q] eqn:Hq; [by simplify_eq|].
    pose proof (ep_batches _ He) as Hb. rewrite Hq in Hb. apply Forall_cons in Hb as [[_ Hfd] _].
    rewrite cmsg_fits in Hf by done. by simplify_eq.
  - cbn [flush] in Hf. destruct (outq e) as [|[b f] q] eqn:Hq; [by simplify_eq|].
    pose proof (ep_batches _ He) as Hb. rewrite Hq in Hb. apply Forall_cons in Hb as [[_ Hfd] _].
    rewrite cmsg_fits in Hf by done. destruct k as [n| |?]; [|by simplify_eq..].
    destruct (flush_batch n b f q e He Hq) as (Hp1 & Hp2 & He1 & Hbs & Hfs).
    cbv zeta in Hf.
    replace ((pending_fds e <? zlen f) || _) with false in Hf by (symmetry; lia).
    destruct (flush ks _) as [[r1 e1] s1] eqn:Hrec. simplify_eq.
    destruct (IH _ _ _ _ He1 Hrec) as (Hr & He' & Hb1 & Hf1 & Hin).
    split; [done|]. split; [done|]. split; [|split; [|exact Hin]].
    + rewrite join_fmap_cons, <-app_assoc, Hb1. exact Hbs.
    + rewrite join_fmap_cons, <-app_assoc, Hf1. exact Hfs.
Qed.

Lemma grouped_fds q ms : grouped q ms -> mjoin (snd <$> q) = mjoin (snd <$> ms).
Proof.
  induction 1 as [|g q ms H IH]; [done|]. by rewrite fmap_app, join_app, join_fmap_cons, IH.
Qed.

(** [covered hd ms s left]: of a partly sent batch [hd] and the messages [ms], the
    descriptors sent are those of a prefix of [ms] which covers every byte sent, and those
    of the rest are left. *)
Definition covered (hd : list (bytes * list Z)) (ms : list (bytes * list Z)) (s : sent)
    (left : list Z) : Prop :=
  exists ms1 ms2, ms = ms1 ++ ms2 /\ mjoin (snd <$> s) = mjoin (snd <$> ms1) /\
    mjoin (fst <$> s) `prefix_of` mjoin (fst <$> hd) ++ mjoin (fst <$> ms1) /\
    left = mjoin (snd <$> ms2).

Lemma covered_nothing hd q ms e :
  outq e = hd ++ q -> mjoin (snd <$> hd) = [] -> grouped q ms -> covered hd ms [] (out_fds e).
Proof.
  intros Hq Hhd Hg. exists [], ms. split_and!; [done..|apply prefix_nil|].
  unfold out_fds. rewrite Hq, fmap_app, join_app, Hhd. by apply grouped_fds.
Qed.

(** One more send in front: [k] bytes of a batch holding the messages [g], whose
    descriptors all go with it. *)
Lemma covered_send hd g ms k b s left :
  take k b ++ mjoin (fst <$> hd) = b -> covered hd ms s left ->
  b = mjoin (fst <$> g) -> covered [] (g ++ ms) ((take k b, mjoin (snd <$> g)) :: s) left.
Proof.
  intros Ht (ms1 & ms2 & -> & Hs & Hp & ->) Hb. exists (g ++ ms1), ms2.
  rewrite !fmap_app, !join_app, !join_fmap_cons, <-app_assoc, Hs. split_and!; [done..| |done].
  rewrite <-Hb. change (mjoin (fst <$> []) ++ b ++ mjoin (fst <$> ms1)) with (b ++ mjoin (fst <$> ms1)).
  replace (b ++ _) with ((take k b ++ mjoin (fst <$> hd)) ++ mjoin (fst <$> ms1)) by (by rewrite Ht).
  rewrite <-app_assoc. by apply prefix_app.
Qed.

Lemma covered_resend hd ms k b s left :
  take k b ++ mjoin (fst <$> hd) = b -> covered hd ms s left ->
  covered [(b, [])] ms ((take k b, []) :: s) left.
Proof.
  intros Ht (ms1 & ms2 & -> & Hs & Hp & ->). exists ms1, ms2.
  rewrite !join_fmap_cons, Hs. split_and!; [done..| |done].
  cbn [fst]. change (mjoin (fst <$> @nil (bytes * list Z))) with (@nil byte). rewrite app_nil_r.
  replace (b ++ _) with ((take k b ++ mjoin (fst <$> hd)) ++ mjoin (fst <$> ms1)) by (by rewrite Ht).
  rewrite <-app_assoc. by apply prefix_app.
Qed.

(** When some bytes of a message are out, so are its descriptors, and in order. *)
Lemma flush_grouped ks e r e' s hd q ms :
  ep_ok e -> outq e = hd ++ q -> (hd = [] \/ exists b, hd = [(b, [])]) ->
  grouped q ms -> flush ks e = (r, e', s) -> covered hd ms s (out_fds e').
Proof.
  revert e r e' s hd q ms. induction ks as [|k ks IH]; intros e r e' s hd q ms He Hq Hhd Hg Hf;
    assert (mjoin (snd <$> hd) = []) as Hnil by (by destruct Hhd as [->|[? ->]]);
    pose proof (covered_nothing hd q ms e Hq Hnil Hg) as Hstop;
    cbn [flush] in Hf; destruct (outq e) as [|[b f] q0] eqn:Hq0; try (by simplify_eq);
    pose proof (ep_batches _ He) as Hb; rewrite Hq0 in Hb; apply Forall_cons in Hb as [[_ Hfd] _];
    rewrite cmsg_fits in Hf by done; try (by simplify_eq).
  destruct k as [n| |?]; [|by simplify_eq..].
  destruct (flush_batch n b f q0 e He Hq0) as (Hp1 & Hp2 & He1 & _ & _).
  cbv zeta in Hf. set (k := Z.min _ _) in *.
  replace ((pending_fds e <? zlen f) || _) with false in Hf by (symmetry; lia).
  destruct (flush ks _) as [[r1 e1] s1] eqn:Hrec. simplify_eq.
  set (hd' := if k =? zlen b then [] else [(drop (Z.to_nat k) b, @nil Z)]).
  assert (take (Z.to_nat k) b ++ mjoin (fst <$> hd') = b) as Htake.
  { subst hd'. destruct (Z.eqb_spec k (zlen b)) as [->|].
    - unfold zlen. rewrite Nat2Z.id, firstn_all. apply app_nil_r.
    - rewrite join_fmap_cons. cbn [fst].
      change (mjoin (fst <$> @nil (bytes * list Z))) with (@nil byte).
      by rewrite app_nil_r, take_drop. }
  assert (hd' = [] \/ exists b, hd' = [(b, [])]) as Hhd' by (subst hd'; case_bool; eauto).
  assert (forall q1, outq (set_out (if k =? zlen b then q1 else (drop (Z.to_nat k) b, []) :: q1)
    (pending_out e - k) (pending_fds e - zlen f) e) = hd' ++ q1) as Hout
    by (intros; subst hd'; by case_bool).
  destruct Hhd as [->|[b0 ->]]; simpl in Hq.
  - inversion Hg as [|g q1 ms' Hg']; subst; [done|]. simplify_eq.
    by apply (covered_send hd'); [done|eapply IH; eauto|].
  - simplify_eq. apply (covered_resend hd'); [done|]. by eapply IH; eauto.
Qed.
