(* ===== verification/Objects.v ===== *)
(** * compositor/wlproxy/src/session.rs: errors and [Objects], the live objects

    A vector of slots per id range; libwayland ids are dense, and an id that skips past the
    ones in use is refused. *)
From S2P Require Import Prelude Bytes Wire Protocol ProtocolTables WlPolicy Clipboard Endpoint.
Open Scope string_scope.
Open Scope list_scope.
Open Scope Z_scope.

Inductive Dir : Type := ClientToServer | ServerToClient.

#[export] Instance Dir_eq_dec : EqDecision Dir.
Proof. solve_decision. Defined.

Inductive SessionError : Type :=
| SWire (e : WireError)
| UnknownObject (id : Z)
| DuplicateObject (id : Z)
| UnknownOpcode (interface : string) (opcode : Z)
| HiddenInterface (name : string)
| VersionTooHigh (interface : string) (asked max : Z)
| IdOutOfRange (id : Z) (dir : Dir)
| SparseId (id : Z)
| TooManyObjects
| TooMuchPending (dir : Dir)
| TooManyFds
| Forbidden (why : string)
| ResourceLimit (why : string)
| SIo (e : IoError).

#[export] Instance SessionError_eq_dec : EqDecision SessionError.
Proof. solve_decision. Defined.

(** [?] on a [WireError] inside a session's method. *)
Definition wire {A} (r : result A WireError) : result A SessionError :=
  match r with Ok a => Ok a | Err e => Err (SWire e) end.

(** A live object: its interface from the tables and its negotiated version. *)
Definition Obj : Type := Interface * Z.

Record Objects := mkObjects {
  o_client : list (option Obj);
  o_server : list (option Obj);
  o_live : Z;
}.

(** [Objects::new]: slot 0 is never an object. *)
Definition new_objects (display : Obj) : Objects := mkObjects [None; Some display] [] 1.

(** [Objects::slots], and what writing its vector back does. *)
Definition slots (id : Z) (o : Objects) : list (option Obj) * Z :=
  if id <? SERVER_ID_BASE then (o_client o, id) else (o_server o, id - SERVER_ID_BASE).
Definition set_slots (id : Z) (v : list (option Obj)) (live : Z) (o : Objects) : Objects :=
  if id <? SERVER_ID_BASE then mkObjects v (o_server o) live else mkObjects (o_client o) v live.

(** [Objects::get]. *)
Definition get (id : Z) (o : Objects) : option Obj :=
  let '(v, i) := slots id o in mjoin (zlookup v i).

(** [Objects::insert]: in a free slot, or the next one. *)
Definition insert_obj (id : Z) (ob : Obj) (o : Objects) : result Objects SessionError :=
  let full := o_live o >=? MAX_OBJECTS in
  let '(v, i) := slots id o in
  match zlookup v i with
  | Some (Some _) => Err (DuplicateObject id)
  | slot =>
    if full then Err TooManyObjects else
    match slot with
    | Some _ => Ok (set_slots id (zinsert v i (Some ob)) (o_live o + 1) o)
    | None =>
      if (i =? zlen v) && (zlen v <? MAX_ID_SLOTS)
      then Ok (set_slots id (v ++ [Some ob]) (o_live o + 1) o)
      else Err (SparseId id)
    end
  end.

(** [Objects::remove]; [None] is the counter's underflow. *)
Definition remove_obj (id : Z) (o : Objects) : option Objects :=
  let '(v, i) := slots id o in
  match zlookup v i with
  | Some (Some _) =>
    if o_live o <? 1 then None else Some (set_slots id (zinsert v i None) (o_live o - 1) o)
  | _ => Some o
  end.

(** [v.iter().position(Option::is_none)]. *)
Fixpoint first_none {A} (v : list (option A)) : option Z :=
  match v with
  | [] => None
  | None :: _ => Some 0
  | Some _ :: v => Z.succ <$> first_none v
  end.

(** [Objects::free_server_id]. *)
Definition free_server_id (o : Objects) : option Z :=
  let i := default (zlen (o_server o)) (first_none (o_server o)) in
  if i <? MAX_ID_SLOTS then Some (SERVER_ID_BASE + i) else None.

(** ** Counting live objects *)
Definition weight (f : Obj -> bool) (s : option Obj) : Z := if is_some_and s f then 1 else 0.
Fixpoint count_slots (f : Obj -> bool) (v : list (option Obj)) : Z :=
  match v with [] => 0 | s :: v => weight f s + count_slots f v end.
Definition obj_count (f : Obj -> bool) (o : Objects) : Z :=
  count_slots f (o_client o) + count_slots f (o_server o).
Definition named (name : string) (ob : Obj) : bool := String.eqb (i_name ob.1) name.

(** The counter is right, the vectors are bounded, and every live object is in the tables. *)
Record objs_ok (o : Objects) : Prop := {
  ok_live : o_live o = obj_count (fun _ => true) o;
  ok_max : o_live o <= MAX_OBJECTS;
  ok_client : zlen (o_client o) <= MAX_ID_SLOTS;
  ok_server : zlen (o_server o) <= MAX_ID_SLOTS;
  ok_find : forall id ob, get id o = Some ob -> find (i_name ob.1) = Some ob.1;
}.

Lemma weight_nonneg f s : 0 <= weight f s <= 1.
Proof. unfold weight. by case_bool. Qed.

Lemma count_slots_nonneg f v : 0 <= count_slots f v.
Proof. induction v as [|s v IH]; simpl; [done|]. pose proof (weight_nonneg f s). lia. Qed.

Lemma count_slots_app f v w : count_slots f (v ++ w) = count_slots f v + count_slots f w.
Proof. induction v; simpl; lia. Qed.

Lemma count_slots_insert f v i s s' :
  v !! i = Some s -> count_slots f (<[i:=s']> v) = count_slots f v - weight f s + weight f s'.
Proof.
  revert i. induction v as [|x v IH]; intros [|i] H; simplify_eq/=; [lia|].
  rewrite (IH _ H). lia.
Qed.

Lemma count_slots_zinsert f v i s s' :
  zlookup v i = Some s -> count_slots f (zinsert v i s') = count_slots f v - weight f s + weight f s'.
Proof.
  intros Hs. pose proof (zlookup_bound _ _ _ Hs). apply zlookup_Some in Hs as [_ Hs].
  unfold zinsert. replace ((0 <=? i) && (i <? zlen v)) with true by (symmetry; lia).
  by apply count_slots_insert.
Qed.

Lemma count_set_slots f id v n o :
  obj_count f (set_slots id v n o) =
  obj_count f o - count_slots f (slots id o).1 + count_slots f v.
Proof. unfold obj_count, set_slots, slots. case_bool; simpl; lia. Qed.

Lemma live_set_slots id v n o : o_live (set_slots id v n o) = n.
Proof. unfold set_slots. by case_bool. Qed.

(** One slot written back: that id reads the new value, every other id as before. *)
Lemma get_write id v x n o j :
  (forall k, zlookup v k = if k =? (slots id o).2 then Some x else zlookup (slots id o).1 k) ->
  get j (set_slots id v n o) = if j =? id then x else get j o.
Proof.
  intros Hv. unfold get, set_slots, slots in *.
  destruct (Z.ltb_spec j SERVER_ID_BASE) as [H1|H1], (Z.ltb_spec id SERVER_ID_BASE) as [H2|H2];
    cbn [fst snd o_client o_server] in *; rewrite ?Hv; destruct (Z.eqb_spec j id) as [->|Hne];
    try lia; try done.
  - by rewrite Z.eqb_refl.
  - by rewrite (proj2 (Z.eqb_neq (j - SERVER_ID_BASE) (id - SERVER_ID_BASE))) by lia.
Qed.

Lemma zlen_write id v n o :
  zlen v <= Z.max (zlen (slots id o).1) MAX_ID_SLOTS ->
  zlen (o_client (set_slots id v n o)) <= Z.max (zlen (o_client o)) MAX_ID_SLOTS /\
  zlen (o_server (set_slots id v n o)) <= Z.max (zlen (o_server o)) MAX_ID_SLOTS.
Proof. unfold set_slots, slots. case_bool; simpl; lia. Qed.

Lemma get_nonneg id o ob : get id o = Some ob -> 0 <= id.
Proof.
  unfold get, slots, SERVER_ID_BASE. destruct (Z.ltb_spec id 4278190080); [|lia].
  destruct (zlookup _ _) eqn:Hs; [|done]. apply zlookup_bound in Hs. lia.
Qed.

Lemma get_weight (f : Obj -> bool) id ob o :
  get id o = Some ob -> (if f ob then 1 else 0) <= obj_count f o.
Proof.
  unfold get, obj_count, slots. pose proof (count_slots_nonneg f (o_client o)).
  pose proof (count_slots_nonneg f (o_server o)).
  assert (forall v i, mjoin (zlookup v i) = Some ob -> (if f ob then 1 else 0) <= count_slots f v) as Hv.
  { intros v i Hi. destruct (zlookup v i) as [s|] eqn:Hs; [|done]. simpl in Hi. subst s.
    pose proof (count_slots_zinsert f v i (Some ob) None Hs) as Hc.
    pose proof (count_slots_nonneg f (zinsert v i None)). unfold weight in Hc. simpl in Hc. lia. }
  case_bool; intros Hi%Hv; lia.
Qed.

Lemma new_objects_ok display :
  find (i_name display.1) = Some display.1 -> objs_ok (new_objects display).
Proof.
  intros Hd. split; try done. intros id ob. unfold get, slots, new_objects. simpl.
  case_bool; cbn; [|unfold zlookup; by case_bool].
  destruct (zlookup _ _) eqn:Hs; [|done]. apply zlookup_Some in Hs as [_ Hs].
  destruct (Z.to_nat id) as [|[|?]]; simplify_eq/=; intros; by simplify_eq.
Qed.

(** A successful insertion, read back: the new object is live, no other changed. *)
Lemma insert_obj_Ok id ob o o' :
  insert_obj id ob o = Ok o' ->
  o_live o < MAX_OBJECTS /\ get id o = None /\
  (forall j, get j o' = if j =? id then Some ob else get j o) /\
  (forall f : Obj -> bool, obj_count f o' = obj_count f o + if f ob then 1 else 0) /\
  o_live o' = o_live o + 1 /\
  zlen (o_client o') <= Z.max (zlen (o_client o)) MAX_ID_SLOTS /\
  zlen (o_server o') <= Z.max (zlen (o_server o)) MAX_ID_SLOTS.
Proof.
  unfold insert_obj. pose proof (fun v n => get_write id v (Some ob) n o) as Hread.
  pose proof (fun v n => zlen_write id v n o) as Hlen.
  pose proof (fun f v n => count_set_slots f id v n o) as Hcnt.
  assert (get id o = let '(v, i) := slots id o in mjoin (zlookup v i)) as Hget by done.
  destruct (slots id o) as [v i]. cbn [fst snd] in *. rewrite Hget.
  destruct (zlookup v i) as [[ob'|]|] eqn:Hs; [done|..]; (case_bool; [done|]).
  - intros [= <-]. pose proof (zlookup_bound _ _ _ Hs) as Hbd.
    split_and!; [lia|done|intros; apply Hread; intros; by rewrite zlookup_zinsert| |
      by rewrite live_set_slots|apply Hlen; rewrite zlen_zinsert; lia..].
    intros f. rewrite Hcnt, (count_slots_zinsert f v i None) by done. unfold weight. cbn. lia.
  - case_bool; [|done]. intros [= <-]. apply andb_true_iff in Hb0 as [Hi%Z.eqb_eq Hm].
    split_and!; [lia|done|intros; apply Hread; intros; by rewrite zlookup_snoc, Hi| |
      by rewrite live_set_slots|apply Hlen; rewrite zlen_app; change (zlen [Some ob]) with 1; lia..].
    intros f. rewrite Hcnt, count_slots_app. unfold weight, count_slots. cbn. unfold weight. cbn. lia.
Qed.

Lemma insert_obj_ok id ob o o' :
  find (i_name ob.1) = Some ob.1 -> objs_ok o -> insert_obj id ob o = Ok o' -> objs_ok o'.
Proof.
  intros Hf [H1 H2 H3 H4 H5] Hi.
  destruct (insert_obj_Ok _ _ _ _ Hi) as (Hl & _ & Hg & Hc & Hl' & Hz1 & Hz2).
  split; [rewrite Hl', Hc; lia|lia..|].
  intros j ob' Hj. rewrite Hg in Hj. destruct (j =? id); [by simplify_eq|eauto].
Qed.

(** Removal: total where the counter is right, and the id is free after it. *)
Lemma remove_obj_ok id o :
  objs_ok o -> exists o', remove_obj id o = Some o' /\ objs_ok o' /\
    (forall j, get j o' = if j =? id then None else get j o) /\
    (forall f : Obj -> bool, obj_count f o' = obj_count f o - if is_some_and (get id o) f then 1 else 0).
Proof.
  intros Ho. unfold remove_obj. pose proof (fun v n => get_write id v None n o) as Hread.
  pose proof (fun v n => zlen_write id v n o) as Hlen.
  pose proof (fun f v n => count_set_slots f id v n o) as Hcnt.
  assert (get id o = let '(v, i) := slots id o in mjoin (zlookup v i)) as Hget by done.
  destruct (slots id o) as [v i]. cbn [fst snd] in *.
  destruct (zlookup v i) as [[ob|]|] eqn:Hs; simpl in Hget; cycle 1.
  1-2: exists o; split_and!; [done..|intros j; destruct (Z.eqb_spec j id); by subst
    |intros f; rewrite Hget; simpl; lia].
  pose proof (get_weight (fun _ => true) id ob o Hget) as Hw. cbn [fst] in Hw.
  rewrite <-(ok_live _ Ho) in Hw. rewrite (proj2 (Z.ltb_ge (o_live o) 1)) by lia.
  pose proof (zlookup_bound _ _ _ Hs) as Hbd.
  specialize (Hread (zinsert v i None) (o_live o - 1)).
  assert (forall f : Obj -> bool, obj_count f (set_slots id (zinsert v i None) (o_live o - 1) o) =
    obj_count f o - if f ob then 1 else 0) as Hcount.
  { intros f. rewrite Hcnt, (count_slots_zinsert f v i (Some ob)) by done. unfold weight. simpl. lia. }
  destruct (Hlen (zinsert v i None) (o_live o - 1)) as [Hz1 Hz2]; [rewrite zlen_zinsert; lia|].
  eexists. split; [done|]. split; [|split; [intros; apply Hread; intros; by rewrite zlookup_zinsert|by rewrite Hget]].
  destruct Ho as [H1 H2 H3 H4 H5]. split; rewrite ?live_set_slots, ?Hcount; try lia.
  intros j ob' Hj. rewrite Hread in Hj by (intros; by rewrite zlookup_zinsert).
  destruct (j =? id); [done|eauto].
Qed.
