(* ===== verification/Pools.v ===== *)
(** * compositor/wlproxy/src/session.rs: wl_shm pools and the surfaces that hold them

    A pool is charged to the session until it and its buffers are deleted and no surface
    may still show one; subsurfaces cache commits as wlroots does. This file holds the
    fields of [Session] this bookkeeping uses, and every operation on them. *)
From S2P Require Import Prelude Bytes Wire WlPolicy Clipboard Endpoint Objects.
Open Scope string_scope.
Open Scope list_scope.
Open Scope Z_scope.

(** What the kernel answers, as a function of when it is asked: [fcntl(F_GETFL)],
    [fstatfs]'s f_type, [fcntl(F_GET_SEALS)], [fstat]'s device and inode,
    [fcntl(F_DUPFD_CLOEXEC)] and [fallocate], an [Err] carrying errno; and which of several
    entries a [HashMap]'s iteration meets first. *)
Class Os := {
  os_getfl : nat -> Z -> Z;
  os_fstatfs : nat -> Z -> option Z;
  os_get_seals : nat -> Z -> Z;
  os_fstat : nat -> Z -> result (Z * Z) Z;
  os_dupfd : nat -> Z -> result Z Z;
  os_fallocate : nat -> Z -> Z -> result unit Z;
  os_pick : nat -> nat;
}.

(** The calls that change something outside the process. *)
Inductive OsCall : Type :=
| AddSealSeal (fd : Z)
| PunchHole (fd size : Z).

Record Pool := mkPool {
  p_size : Z;
  p_buffers : Z;
  p_deleted : bool;
  p_held : Z;
  p_fd : Z;
  p_file : Z * Z;
  p_range : Z;
}.

Definition set_size (n r : Z) (p : Pool) : Pool :=
  mkPool n (p_buffers p) (p_deleted p) (p_held p) (p_fd p) (p_file p) r.
Definition set_buffers (n : Z) (p : Pool) : Pool :=
  mkPool (p_size p) n (p_deleted p) (p_held p) (p_fd p) (p_file p) (p_range p).
Definition set_deleted (p : Pool) : Pool :=
  mkPool (p_size p) (p_buffers p) true (p_held p) (p_fd p) (p_file p) (p_range p).
Definition set_held (n : Z) (p : Pool) : Pool :=
  mkPool (p_size p) (p_buffers p) (p_deleted p) n (p_fd p) (p_file p) (p_range p).

Record Surface := mkSurface {
  sf_role : option Z;
  sf_parent : option Z;
  sf_sync : bool;
  sf_cached : bool;
  sf_children : list Z;
  sf_pending : option (option Z);
  sf_held : list (option Z);
}.

Definition default_surface : Surface := mkSurface None None false false [] None [].

Definition set_role (role parent : option Z) (sync : bool) (f : Surface) : Surface :=
  mkSurface role parent sync (sf_cached f) (sf_children f) (sf_pending f) (sf_held f).
Definition set_sync (sync : bool) (f : Surface) : Surface :=
  set_role (sf_role f) (sf_parent f) sync f.
Definition set_cached (c : bool) (f : Surface) : Surface :=
  mkSurface (sf_role f) (sf_parent f) (sf_sync f) c (sf_children f) (sf_pending f) (sf_held f).
Definition set_children (l : list Z) (f : Surface) : Surface :=
  mkSurface (sf_role f) (sf_parent f) (sf_sync f) (sf_cached f) l (sf_pending f) (sf_held f).
Definition set_pending (p : option (option Z)) (f : Surface) : Surface :=
  mkSurface (sf_role f) (sf_parent f) (sf_sync f) (sf_cached f) (sf_children f) p (sf_held f).
Definition set_holds (l : list (option Z)) (f : Surface) : Surface :=
  mkSurface (sf_role f) (sf_parent f) (sf_sync f) (sf_cached f) (sf_children f) (sf_pending f) l.

(** The fields of [Session] that account for pools; [clock] and [calls] are the kernel's
    side: when it is asked next, and what it was asked to do. *)
Record Shm := mkShm {
  pools : gmap Z Pool;
  pool_ids : gmap Z Z;
  buffer_pools : gmap Z Z;
  surfaces : gmap Z Surface;
  subsurfaces : gmap Z Z;
  next_pool : Z;
  shm_pool_bytes : Z;
  shm_pool_count : Z;
  unpunched : option IoError;
  clock : nat;
  calls : list OsCall;
}.

Definition new_shm : Shm := mkShm ∅ ∅ ∅ ∅ ∅ 0 0 0 None 0 [].

Definition with_pools (v : gmap Z Pool) (s : Shm) : Shm :=
  mkShm v (pool_ids s) (buffer_pools s) (surfaces s) (subsurfaces s) (next_pool s)
    (shm_pool_bytes s) (shm_pool_count s) (unpunched s) (clock s) (calls s).
Definition with_pool_ids (v : gmap Z Z) (s : Shm) : Shm :=
  mkShm (pools s) v (buffer_pools s) (surfaces s) (subsurfaces s) (next_pool s)
    (shm_pool_bytes s) (shm_pool_count s) (unpunched s) (clock s) (calls s).
Definition with_buffer_pools (v : gmap Z Z) (s : Shm) : Shm :=
  mkShm (pools s) (pool_ids s) v (surfaces s) (subsurfaces s) (next_pool s)
    (shm_pool_bytes s) (shm_pool_count s) (unpunched s) (clock s) (calls s).
Definition with_surfaces (v : gmap Z Surface) (s : Shm) : Shm :=
  mkShm (pools s) (pool_ids s) (buffer_pools s) v (subsurfaces s) (next_pool s)
    (shm_pool_bytes s) (shm_pool_count s) (unpunched s) (clock s) (calls s).
Definition with_subsurfaces (v : gmap Z Z) (s : Shm) : Shm :=
  mkShm (pools s) (pool_ids s) (buffer_pools s) (surfaces s) v (next_pool s)
    (shm_pool_bytes s) (shm_pool_count s) (unpunched s) (clock s) (calls s).
Definition with_budget (next bytes count : Z) (s : Shm) : Shm :=
  mkShm (pools s) (pool_ids s) (buffer_pools s) (surfaces s) (subsurfaces s) next
    bytes count (unpunched s) (clock s) (calls s).
Definition with_unpunched (v : option IoError) (s : Shm) : Shm :=
  mkShm (pools s) (pool_ids s) (buffer_pools s) (surfaces s) (subsurfaces s) (next_pool s)
    (shm_pool_bytes s) (shm_pool_count s) v (clock s) (calls s).
Definition with_kernel (t : nat) (l : list OsCall) (s : Shm) : Shm :=
  mkShm (pools s) (pool_ids s) (buffer_pools s) (surfaces s) (subsurfaces s) (next_pool s)
    (shm_pool_bytes s) (shm_pool_count s) (unpunched s) t l.

Definition insert_pool (g : Z) (p : Pool) (s : Shm) : Shm := with_pools (<[g:=p]> (pools s)) s.
Definition insert_surface (id : Z) (f : Surface) (s : Shm) : Shm :=
  with_surfaces (<[id:=f]> (surfaces s)) s.
(** [surfaces.entry(id).or_default()]. *)
Definition entry_surface (id : Z) (s : Shm) : Surface := default default_surface (surfaces s !! id).
(** [if let Some(sf) = surfaces.get_mut(&id) { .. }]. *)
Definition alter_surface (f : Surface -> Surface) (id : Z) (s : Shm) : Shm :=
  with_surfaces (alter f id (surfaces s)) s.

Abbreviation ShmM := (M Shm SessionError).

(** [HashMap::values_mut().find(p)]: an entry that satisfies [p], whichever the iteration
    order puts first. *)
Definition find_value {V} (pick : nat) (p : V -> bool) (m : gmap Z V) : option (Z * V) :=
  let l := List.filter (fun kv => p kv.2) (map_to_list m) in
  l !! (pick mod length l)%nat.

Section pools.
Context `{Os}.

(** One call into the kernel: its answer at this moment, and time goes on. *)
Definition sys {A} (f : nat -> A) : ShmM A :=
  t ← gets clock;
  modify (fun s => with_kernel (S t) (calls s) s);;
  mret (f t).
Definition sys_effect {A} (c : OsCall) (f : nat -> A) : ShmM A :=
  modify (fun s => with_kernel (clock s) (calls s ++ [c]) s);;
  sys f.

Definition O_ACCMODE : Z := 3.
Definition O_RDWR : Z := 2.
Definition F_SEAL_WRITE : Z := 8.
Definition F_SEAL_FUTURE_WRITE : Z := 16.
Definition TMPFS_MAGIC : Z := 0x01021994.

(** [pool_fd]: a copy of a pool's descriptor the proxy can punch later, and its file. *)
Definition pool_fd (raw : Z) : ShmM (Z * (Z * Z)) :=
  fl ← sys (fun t => os_getfl t raw);
  reject_if (negb (Z.land fl O_ACCMODE =? O_RDWR))
    (Forbidden "a wl_shm pool not open for reading and writing");;
  fs ← sys (fun t => os_fstatfs t raw);
  reject_if (negb (is_some_and fs (fun f_type => f_type =? TMPFS_MAGIC)))
    (Forbidden "a wl_shm pool that is not shared memory");;
  sys_effect (AddSealSeal raw) (fun _ => tt);;
  seals ← sys (fun t => os_get_seals t raw);
  reject_if ((seals <? 0) || negb (Z.land seals (Z.lor F_SEAL_WRITE F_SEAL_FUTURE_WRITE) =? 0))
    (Forbidden "a wl_shm pool sealed against writes");;
  st ← sys (fun t => os_fstat t raw);
  match st with
  | Err errno => fail (SIo (OsError errno))
  | Ok file =>
    copy ← sys (fun t => os_dupfd t raw);
    match copy with
    | Err errno => fail (SIo (OsError errno))
    | Ok fd => mret (fd, file)
    end
  end.

(** [punch]. *)
Definition punch (fd size : Z) : ShmM (result unit IoError) :=
  r ← sys_effect (PunchHole fd size) (fun t => os_fallocate t fd size);
  mret (match r with Ok tt => Ok tt | Err errno => Err (OsError errno) end).

(** What happens to a gone pool's range: a pool left on the same file takes it and its
    charge, else its pages are freed. *)
Definition hand_over (pool : Pool) : ShmM unit :=
  pick ← sys os_pick;
  ps ← gets pools;
  match find_value pick (fun p => bool_decide (p_file p = p_file pool)) ps with
  | Some (o, other) =>
    when (p_range pool >? p_range other) (
      d ← usize_sub (p_range pool) (p_range other);
      s ← gets (fun s => s);
      b ← usize_add (shm_pool_bytes s) d;
      modify (with_budget (next_pool s) b (shm_pool_count s));;
      modify (insert_pool o (set_size (p_size other) (p_range pool) other)))
  | None =>
    r ← punch (p_fd pool) (p_range pool);
    match r with
    | Ok _ => mret tt
    | Err e => modify (fun s => with_unpunched (Some (default e (unpunched s))) s)
    end
  end.

Definition unused (p : Pool) : bool :=
  p_deleted p && (p_buffers p =? 0) && (p_held p =? 0).

(** [Session::release_pool_if_unused]. *)
Definition release_pool_if_unused (g : Z) : ShmM unit :=
  s ← gets (fun s => s);
  match pools s !! g with
  | Some pool =>
    when (unused pool) (
      modify (with_pools (delete g (pools s)));;
      b ← usize_sub (shm_pool_bytes s) (p_range pool);
      c ← usize_sub (shm_pool_count s) 1;
      modify (with_budget (next_pool s) b c);;
      hand_over pool)
  | None => mret tt
  end.

(** [Session::take_pools]; the vector's order is the map's, which is unspecified. *)
Definition take_pools : ShmM (list (Z * Z)) :=
  s ← gets (fun s => s);
  modify (fun s => with_pools ∅ (with_pool_ids ∅ (with_buffer_pools ∅ (with_budget (next_pool s) 0 0 s))));;
  mret ((fun kp => (p_fd kp.2, p_range kp.2)) <$> map_to_list (pools s)).

(** [Session::unhold]. *)
Definition unhold (g : Z) : ShmM unit :=
  ps ← gets pools;
  match ps !! g with
  | Some p => n ← usize_sub (p_held p) 1; modify (insert_pool g (set_held n p))
  | None => mret tt
  end;;
  release_pool_if_unused g.

(** [Session::up]: at most one more than there are subsurfaces. *)
Fixpoint up_loop (n : nat) (surfs : gmap Z Surface) (id : Z) : list Z :=
  match n with
  | O => []
  | S n =>
    id :: match surfs !! id ≫= sf_parent with
          | Some p => up_loop n surfs p
          | None => []
          end
  end.
Definition up (id : Z) (s : Shm) : list Z := up_loop (S (size (subsurfaces s))) (surfaces s) id.

(** [Session::synced]. *)
Definition synced (id : Z) (s : Shm) : bool :=
  existsb (fun x => is_some_and (surfaces s !! x) sf_sync) (up id s).

(** The pools named in a list of holds: [.flatten()]. *)
Definition flatten (l : list (option Z)) : list Z := omap (fun x => x) l.

(** One turn of [Session::apply]'s loop on a live surface: the holds it lets go of, and
    the surface with its last commit only. *)
Definition settle (f : Surface) : list Z * Surface :=
  (flatten (removelast (sf_held f)),
   set_cached false (set_holds (option_list (last (sf_held f))) f)).
(** The subsurfaces its application applies in turn. *)
Definition cached_kids (surfs : gmap Z Surface) (f : Surface) : list Z :=
  List.filter (fun k => is_some_and (surfs !! k) (fun c => sf_sync c && sf_cached c)) (sf_children f).

(** [Session::apply]'s loop, its stack's top first; [None] when the fuel runs out. *)
Fixpoint apply_loop (fuel : nat) (surfs : gmap Z Surface) (todo freed : list Z)
    : option (gmap Z Surface * list Z) :=
  match fuel with
  | O => None
  | S fuel =>
    match todo with
    | [] => Some (surfs, freed)
    | x :: todo =>
      match surfs !! x with
      | None => apply_loop fuel surfs todo freed
      | Some f =>
        let '(gone, f') := settle f in
        let surfs := <[x:=f']> surfs in
        apply_loop fuel surfs (rev (cached_kids surfs f) ++ todo) (freed ++ gone)
      end
    end
  end.

(** Enough fuel: see [apply_loop_fuel]. *)
Definition cached_count (surfs : gmap Z Surface) : Z :=
  msum (fun f => if sf_cached f then 1 else 0) surfs.
Definition children_count (surfs : gmap Z Surface) : Z :=
  msum (fun f => zlen (sf_children f)) surfs.
Definition apply_fuel (surfs : gmap Z Surface) : nat :=
  Z.to_nat (2 * (children_count surfs + 2) * cached_count surfs + 2).

(** [Session::apply]. *)
Definition apply (id : Z) : ShmM unit :=
  surfs ← gets surfaces;
  r ← unwrap (apply_loop (apply_fuel surfs) surfs [id] []);
  let '(surfs, freed) := r in
  modify (with_surfaces surfs);;
  for_each freed unhold.

(** [children.retain(|&c| c != id)]. *)
Definition without (id : Z) (l : list Z) : list Z := List.filter (fun c => negb (c =? id)) l.

(** [Session::detach]. *)
Definition detach (id : Z) : ShmM unit :=
  surfs ← gets surfaces;
  when (is_some_and (surfs !! id) sf_cached) (apply id);;
  surfs ← gets surfaces;
  match surfs !! id with
  | None => mret tt
  | Some f =>
    modify (insert_surface id (set_role None None false f));;
    match sf_parent f with
    | Some p => modify (alter_surface (fun pf => set_children (without id (sf_children pf)) pf) p)
    | None => mret tt
    end
  end.

(** The first half of [Session::commit]: what the surface holds now. *)
Definition hold_pending (id : Z) : ShmM unit :=
  s ← gets (fun s => s);
  match surfaces s !! id with
  | None => mret tt
  | Some f =>
    match sf_pending f with
    | None => mret tt
    | Some p =>
      modify (insert_surface id (set_pending None f));;
      when (negb (bool_decide (last (sf_held f) = Some p))) (
        reject_if (zlen (sf_held f) >=? MAX_HELD_PER_SURFACE)
          (ResourceLimit "commits cached on one surface");;
        modify (insert_surface id (set_holds (sf_held f ++ [p]) (set_pending None f)));;
        match p ≫= (fun g => (fun pool => (g, pool)) <$> pools s !! g) with
        | Some (g, pool) => modify (insert_pool g (set_held (p_held pool + 1) pool))
        | None => mret tt
        end)
    end
  end.

(** [Session::commit]. *)
Definition commit (id : Z) : ShmM unit :=
  hold_pending id;;
  b ← gets (synced id);
  if (b : bool) then modify (alter_surface (set_cached true) id) else apply id.

(** ** The requests [Session::pump] accounts for, each the body of one of its tests *)

(** A word of the message's body, and the reader after it. *)
Definition read_word (r : ArgReader) : ShmM (Z * ArgReader) := lift (wire (read_u32 r)).

(** [wl_shm.create_pool]. *)
Definition create_pool (body : bytes) (fds : list Z) : ShmM unit :=
  '(id, r) ← read_word (new_reader body);
  '(word, r) ← read_word r;
  let size := as_i32 word in
  reject_if ((size <=? 0) || (size >? MAX_SHM_POOL_BYTES)) (ResourceLimit "wl_shm pool size");;
  s ← gets (fun s => s);
  total ← (if shm_pool_count s >=? MAX_SHM_POOLS_PER_SESSION then mret (shm_pool_bytes s)
           else usize_add (shm_pool_bytes s) size);
  reject_if ((shm_pool_count s >=? MAX_SHM_POOLS_PER_SESSION) || (total >? MAX_SHM_BYTES_PER_SESSION))
    (ResourceLimit "wl_shm pool budget in one session");;
  raw ← require (head fds) (SWire ArgOverrun);
  '(fd, file) ← pool_fd raw;
  let g := next_pool s + 1 in
  modify (with_budget g (shm_pool_bytes s + size) (shm_pool_count s + 1));;
  modify (with_pool_ids (<[id:=g]> (pool_ids s)));;
  modify (insert_pool g (mkPool size 0 false 0 fd file size)).

(** [wl_shm_pool.resize] on the pool object [object]. *)
Definition resize_pool (object : Z) (body : bytes) : ShmM unit :=
  '(word, _) ← read_word (new_reader body);
  let size := as_i32 word in
  s ← gets (fun s => s);
  g ← require (pool_ids s !! object) (ResourceLimit "unknown wl_shm pool");
  p ← unwrap (pools s !! g);
  reject_if ((size <=? 0) || (size >? MAX_SHM_POOL_BYTES) || (size <? p_size p))
    (ResourceLimit "wl_shm pool resize size");;
  let growth := saturating_sub size (p_range p) in
  total ← usize_add (shm_pool_bytes s) growth;
  reject_if (total >? MAX_SHM_BYTES_PER_SESSION) (ResourceLimit "wl_shm pool budget in one session");;
  modify (with_budget (next_pool s) total (shm_pool_count s));;
  r ← usize_add (p_range p) growth;
  modify (insert_pool g (set_size size r p)).

(** [wl_shm_pool.create_buffer]: [created] is the object the message creates. *)
Definition create_buffer (object : Z) (created : option Z) : ShmM unit :=
  id ← require created (SWire ArgOverrun);
  s ← gets (fun s => s);
  g ← require (pool_ids s !! object) (ResourceLimit "unknown wl_shm pool");
  modify (with_buffer_pools (<[id:=g]> (buffer_pools s)));;
  p ← unwrap (pools s !! g);
  modify (insert_pool g (set_buffers (p_buffers p + 1) p)).

(** [wl_surface.attach]. *)
Definition attach (object : Z) (body : bytes) : ShmM unit :=
  '(buffer, _) ← read_word (new_reader body);
  s ← gets (fun s => s);
  modify (insert_surface object (set_pending (Some (buffer_pools s !! buffer)) (entry_surface object s))).

(** [wl_subcompositor.get_subsurface]. *)
Definition get_subsurface (body : bytes) : ShmM unit :=
  s ← gets (fun s => s);
  reject_if (Z.of_nat (size (subsurfaces s)) >=? MAX_SUBSURFACES_PER_SESSION)
    (ResourceLimit "too many subsurfaces in one session");;
  '(id, r) ← read_word (new_reader body);
  '(surface, r) ← read_word r;
  '(parent, r) ← read_word r;
  reject_if (is_some_and (surfaces s !! surface) (fun f => bool_decide (is_Some (sf_role f)))
             || existsb (fun x => x =? surface) (up parent s))
    (Forbidden "get_subsurface on a subsurface or above its parent");;
  modify (insert_surface surface (set_role (Some id) (Some parent) true (entry_surface surface s)));;
  modify (fun s => insert_surface parent
    (set_children (sf_children (entry_surface parent s) ++ [surface]) (entry_surface parent s)) s);;
  modify (fun s => with_subsurfaces (<[id:=surface]> (subsurfaces s)) s).

(** A request on a wl_subsurface: the surface it rules, unless that or its parent is gone. *)
Definition subsurface_live (object : Z) (s : Shm) : option Z :=
  match subsurfaces s !! object with
  | Some x => if is_some_and (surfaces s !! x) (fun f => bool_decide (sf_role f = Some object))
              then Some x else None
  | None => None
  end.

Definition subsurface_set_desync (x : Z) : ShmM unit :=
  surfs ← gets surfaces;
  f ← unwrap (surfs !! x);
  modify (insert_surface x (set_sync false f));;
  b ← gets (synced x);
  when (sf_sync f && sf_cached f && negb b) (apply x).

Definition subsurface_request (object : Z) (request : string) : ShmM unit :=
  live ← gets (subsurface_live object);
  if String.eqb request "set_sync" then
    match live with
    | Some x =>
      surfs ← gets surfaces;
      f ← unwrap (surfs !! x);
      modify (insert_surface x (set_sync true f))
    | None => mret tt
    end
  else if String.eqb request "set_desync" then
    match live with Some x => subsurface_set_desync x | None => mret tt end
  else if String.eqb request "destroy" then
    modify (fun s => with_subsurfaces (delete object (subsurfaces s)) s);;
    match live with Some x => detach x | None => mret tt end
  else mret tt.

(** ** [wl_display.delete_id]: what the id's object was to the pools *)
Definition delete_pool_id (id : Z) : ShmM unit :=
  s ← gets (fun s => s);
  match pool_ids s !! id with
  | Some g =>
    modify (with_pool_ids (delete id (pool_ids s)));;
    p ← unwrap (pools s !! g);
    modify (insert_pool g (set_deleted p));;
    release_pool_if_unused g
  | None => mret tt
  end.

Definition delete_buffer_id (id : Z) : ShmM unit :=
  s ← gets (fun s => s);
  match buffer_pools s !! id with
  | Some g =>
    modify (with_buffer_pools (delete id (buffer_pools s)));;
    p ← unwrap (pools s !! g);
    n ← usize_sub (p_buffers p) 1;
    modify (insert_pool g (set_buffers n p));;
    release_pool_if_unused g
  | None => mret tt
  end.

(** A surface's end ends its subsurfaces' roles too, applying their caches. *)
Definition delete_surface (id : Z) : ShmM unit :=
  s ← gets (fun s => s);
  match surfaces s !! id with
  | Some f =>
    modify (with_surfaces (delete id (surfaces s)));;
    for_each (sf_children f) detach;;
    match sf_parent f with
    | Some p => modify (alter_surface (fun pf => set_children (without id (sf_children pf)) pf) p)
    | None => mret tt
    end;;
    for_each (flatten (sf_held f)) unhold
  | None => mret tt
  end.
End pools.
