(* ===== verification/PoolsSafe.v ===== *)
(** * The accounting of pools is sound

    The invariant of the pools, buffers and surfaces of a session, and that every operation
    keeps it without a panic: no counter underflows, no pool is used after its release. *)
From S2P Require Import Prelude Bytes Wire WlPolicy Clipboard Endpoint Objects Pools.
Open Scope string_scope.
Open Scope list_scope.
Open Scope Z_scope.

(** How often a pool occurs in a list of holds. *)
Fixpoint occ (g : Z) (l : list Z) : Z :=
  match l with [] => 0 | x :: l => (if x =? g then 1 else 0) + occ g l end.

Lemma occ_app g l k : occ g (l ++ k) = occ g l + occ g k.
Proof. induction l; simpl; lia. Qed.

Lemma occ_nonneg g l : 0 <= occ g l.
Proof. induction l as [|x l IH]; simpl; [done|]. case_bool; lia. Qed.

Lemma occ_zero g l : g ∉ l -> occ g l = 0.
Proof.
  induction l as [|x l IH]; [done|]. intros [Hx Hl]%not_elem_of_cons. simpl.
  rewrite IH by done. by rewrite (proj2 (Z.eqb_neq x g)).
Qed.

Lemma flatten_app l k : flatten (l ++ k) = flatten l ++ flatten k.
Proof. unfold flatten. by rewrite omap_app. Qed.

Lemma elem_of_flatten g l : g ∈ flatten l <-> Some g ∈ l.
Proof. unfold flatten. rewrite list_elem_of_omap. naive_solver. Qed.

(** The holds on a pool by all surfaces, and the buffers it backs. *)
Definition held_by (g : Z) (f : Surface) : Z := occ g (flatten (sf_held f)).
Definition holds (g : Z) (surfs : gmap Z Surface) : Z := msum (held_by g) surfs.
Definition backs (g v : Z) : Z := if v =? g then 1 else 0.
Definition backed (g : Z) (bufs : gmap Z Z) : Z := msum (backs g) bufs.

Definition pool_ok (extra : list Z) (s : Shm) (g : Z) (p : Pool) : Prop :=
  g <= next_pool s /\ backed g (buffer_pools s) <= p_buffers p /\
  p_held p = holds g (surfaces s) + occ g extra /\
  0 < p_size p <= p_range p /\ p_range p <= MAX_SHM_POOL_BYTES.

(** A surface holds or is about to hold only pools of generations already given out. *)
Definition surface_ok (next : Z) (f : Surface) : Prop :=
  Forall (fun g => g <= next) (flatten (sf_held f)) /\
  (forall g, sf_pending f = Some (Some g) -> g <= next) /\
  zlen (sf_held f) <= MAX_HELD_PER_SURFACE.

(** [shm_ok extra dirty]: the holds in [extra] are taken from their surfaces and not yet
    given back; the pools in [dirty] may be unused and not yet released. *)
Record shm_ok (extra : list Z) (dirty : Z -> Prop) (s : Shm) : Prop := {
  so_ids : forall i g, pool_ids s !! i = Some g ->
    exists p, pools s !! g = Some p /\ p_deleted p = false;
  so_inj : forall i j g, pool_ids s !! i = Some g -> pool_ids s !! j = Some g -> i = j;
  so_bufs : forall i g, buffer_pools s !! i = Some g -> is_Some (pools s !! g);
  so_pool : forall g p, pools s !! g = Some p -> pool_ok extra s g p;
  so_surf : forall x f, surfaces s !! x = Some f -> surface_ok (next_pool s) f;
  so_used : forall g p, pools s !! g = Some p -> ~ dirty g -> unused p = false;
  so_bytes : shm_pool_bytes s = msum p_range (pools s);
  so_max : shm_pool_bytes s <= MAX_SHM_BYTES_PER_SESSION;
  so_count : shm_pool_count s = Z.of_nat (size (pools s));
  so_count_max : shm_pool_count s <= MAX_SHM_POOLS_PER_SESSION;
  so_subs : Z.of_nat (size (subsurfaces s)) <= MAX_SUBSURFACES_PER_SESSION;
}.

Definition clean (_ : Z) : Prop := False.
Definition Inv : Shm -> Prop := shm_ok [] clean.

Lemma not_clean g : ~ clean g.
Proof. by intros []. Qed.

Lemma new_shm_ok : Inv new_shm.
Proof. split; try done; intros; rewrite lookup_empty in *; done. Qed.

(** The kernel's side of the state is free to change. *)
Lemma shm_ok_kernel extra dirty t l s : shm_ok extra dirty s -> shm_ok extra dirty (with_kernel t l s).
Proof. by intros []; split. Qed.

Lemma shm_ok_unpunched extra dirty e s : shm_ok extra dirty s -> shm_ok extra dirty (with_unpunched e s).
Proof. by intros []; split. Qed.

Lemma find_value_Some {V} pick (q : V -> bool) (m : gmap Z V) k v :
  find_value pick q m = Some (k, v) -> m !! k = Some v /\ q v = true.
Proof.
  unfold find_value. intros Hl. apply list_elem_of_lookup_2 in Hl.
  apply list_elem_of_In, List.filter_In in Hl as [Hin Hq]. split; [|done].
  by apply elem_of_map_to_list, list_elem_of_In.
Qed.

Lemma find_value_None {V} pick (q : V -> bool) (m : gmap Z V) k v :
  find_value pick q m = None -> m !! k = Some v -> q v = false.
Proof.
  unfold find_value. intros Hl Hk. destruct (q v) eqn:Hq; [|done]. exfalso.
  assert (In (k, v) (List.filter (fun kv => q kv.2) (map_to_list m))) as Hin.
  { apply List.filter_In. split; [|done]. by apply list_elem_of_In, elem_of_map_to_list. }
  apply lookup_ge_None in Hl. destruct (List.filter _ _) as [|x l]; [done|].
  pose proof (Nat.mod_upper_bound pick (length (x :: l))) as Hm. simpl in *. lia.
Qed.

Lemma range_nonneg extra dirty s : shm_ok extra dirty s ->
  forall g p, pools s !! g = Some p -> 0 <= p_range p.
Proof. intros Hs g p Hp. destruct (so_pool _ _ _ Hs g p Hp) as (_ & _ & _ & H & _). lia. Qed.

Lemma held_by_nonneg g f : 0 <= held_by g f.
Proof. apply occ_nonneg. Qed.

Lemma backs_nonneg g v : 0 <= backs g v.
Proof. unfold backs. by case_bool. Qed.

Lemma backed_pos i g bufs : bufs !! i = Some g -> 1 <= backed g bufs.
Proof.
  intros Hi. transitivity (backs g g); [unfold backs; by rewrite Z.eqb_refl|].
  apply (msum_le (backs g) bufs i); [intros; apply backs_nonneg|done].
Qed.

Lemma bytes_nonneg extra dirty s : shm_ok extra dirty s -> 0 <= shm_pool_bytes s.
Proof.
  intros Hs. rewrite (so_bytes _ _ _ Hs). apply msum_nonneg. by eapply range_nonneg.
Qed.

Section safe.
Context `{Os}.

Lemma wp_sys {A} (f : nat -> A) (Q : A -> Shm -> Prop) R s :
  Q (f (clock s)) (with_kernel (S (clock s)) (calls s) s) -> wp (sys f) Q R s.
Proof. intros HQ. unfold sys. wp_steps. done. Qed.

(** What a pool that took over a gone pool's range looks like. *)
Lemma shm_ok_widen extra dirty s o other r :
  shm_ok extra dirty s -> pools s !! o = Some other -> p_range other <= r ->
  r <= MAX_SHM_POOL_BYTES ->
  shm_pool_bytes s + r - p_range other <= MAX_SHM_BYTES_PER_SESSION ->
  shm_ok extra dirty (insert_pool o (set_size (p_size other) r other)
    (with_budget (next_pool s) (shm_pool_bytes s + (r - p_range other)) (shm_pool_count s) s)).
Proof.
  intros Hs Ho Hr Hmax Hb. destruct Hs. split; cbn; try done.
  - intros i g Hi. destruct (so_ids0 i g Hi) as (p & Hp & Hd).
    destruct (decide (o = g)) as [->|Hne]; simplify_map_eq; eauto.
  - intros i g Hi. destruct (decide (o = g)) as [->|Hne]; simplify_map_eq; eauto.
  - intros g p Hp. destruct (decide (o = g)) as [->|Hne]; simplify_map_eq; [|by apply so_pool0].
    destruct (so_pool0 _ _ Ho) as (? & ? & ? & ? & ?). unfold pool_ok. cbn. split_and!; (done || lia).
  - intros g p Hp Hd. destruct (decide (o = g)) as [->|Hne]; simplify_map_eq; [|by eapply so_used0].
    by apply (so_used0 _ _ Ho).
  - rewrite (msum_insert_Some _ _ _ other) by done. cbn. lia.
  - lia.
  - rewrite map_size_insert_Some; [done|by exists other].
Qed.

Lemma wp_hand_over extra dirty pool s :
  shm_ok extra dirty s -> p_range pool <= MAX_SHM_POOL_BYTES ->
  shm_pool_bytes s + p_range pool <= MAX_SHM_BYTES_PER_SESSION ->
  wp (hand_over pool) (fun _ => shm_ok extra dirty) (fun _ _ => False) s.
Proof.
  intros Hs Hr Hm. unfold hand_over. wp_step. apply wp_sys. wp_steps.
  destruct (find_value _ _ _) as [[o other]|] eqn:Hf.
  - apply find_value_Some in Hf as [Ho _]. wp_step; [|by apply shm_ok_kernel].
    pose proof (range_nonneg _ _ _ Hs _ _ Ho). pose proof (bytes_nonneg _ _ _ Hs).
    wp_step. apply wp_usize_sub; [lia|]. wp_steps. unfold MAX_SHM_BYTES_PER_SESSION in *.
    apply wp_usize_add; [simpl; lia|]. wp_steps.
    apply shm_ok_kernel with (t := S (clock s)) (l := calls s) in Hs.
    apply (shm_ok_widen extra dirty _ o other (p_range pool) Hs); [done|lia..|unfold MAX_SHM_BYTES_PER_SESSION; simpl; lia].
  - unfold punch, sys_effect. wp_steps. apply wp_sys. wp_steps.
    destruct (os_fallocate _ _ _) as [[]|?]; wp_steps; [|apply shm_ok_unpunched]; by repeat apply shm_ok_kernel.
Qed.

(** An unused pool is in neither map, and can go. *)
Lemma shm_ok_delete extra g p s :
  shm_ok extra (eq g) s -> pools s !! g = Some p -> unused p = true ->
  shm_ok extra clean (with_budget (next_pool s) (shm_pool_bytes s - p_range p) (shm_pool_count s - 1)
    (with_pools (delete g (pools s)) s)).
Proof.
  intros Hs Hp [[Hd Hbuf]%andb_true_iff Hheld]%andb_true_iff.
  pose proof (range_nonneg _ _ _ Hs _ _ Hp). destruct Hs.
  destruct (so_pool0 _ _ Hp) as (_ & Hb & Hh & _).
  split; cbn; try done.
  - intros i g' Hi. destruct (so_ids0 i g' Hi) as (p' & Hp' & Hd'). exists p'. split; [|done].
    apply lookup_delete_Some. split; [|done]. congruence.
  - intros i g' Hi. pose proof (backed_pos _ _ _ Hi). destruct (so_bufs0 i g' Hi) as [p' Hp'].
    exists p'. apply lookup_delete_Some. split; [|done]. intros <-. lia.
  - intros g' p' [_ Hp']%lookup_delete_Some. by apply so_pool0.
  - intros g' p' [Hne Hp']%lookup_delete_Some _. by eapply so_used0.
  - rewrite (msum_delete _ _ _ p) by done. lia.
  - lia.
  - rewrite map_size_delete_Some by (by exists p).
    assert (size (pools s) <> 0%nat); [|lia]. intros Hz%map_size_empty_inv. rewrite Hz in Hp.
    by rewrite lookup_empty in Hp.
  - lia.
Qed.

Lemma wp_release_pool extra g s :
  shm_ok extra (eq g) s ->
  wp (release_pool_if_unused g) (fun _ => shm_ok extra clean) (fun _ _ => False) s.
Proof.
  intros Hs. unfold release_pool_if_unused. wp_steps.
  destruct (pools s !! g) as [pool|] eqn:Hp.
  - apply wp_when; intros Hu.
    + pose proof (shm_ok_delete extra g pool s Hs Hp Hu) as Hdel.
      pose proof (bytes_nonneg _ _ _ Hdel) as Hnn. cbn in Hnn.
      pose proof (so_max _ _ _ Hs). destruct (so_pool _ _ _ Hs _ _ Hp) as (_ & _ & _ & Hr & Hr').
      wp_steps. apply wp_usize_sub; [lia|]. wp_steps. apply wp_usize_sub.
      { rewrite (so_count _ _ _ Hs). assert (size (pools s) <> 0%nat); [|lia].
        intros Hz%map_size_empty_inv. rewrite Hz in Hp. by rewrite lookup_empty in Hp. }
      wp_steps. apply wp_hand_over; [exact Hdel|done|cbn; lia].
    + destruct Hs. split; try done. intros g' p' Hp' _.
      destruct (decide (g = g')) as [<-|]; [congruence|by eapply so_used0].
  - wp_steps. destruct Hs. split; try done. intros g' p' Hp' _.
    destruct (decide (g = g')) as [<-|]; [congruence|by eapply so_used0].
Qed.
(** One pool changed: its range stays, its own facts hold again. *)
Lemma shm_ok_pool extra extra' g p p' s :
  shm_ok extra clean s -> pools s !! g = Some p -> p_range p' = p_range p ->
  pool_ok extra' s g p' ->
  (p_deleted p' = true -> p_deleted p = true \/ forall i, pool_ids s !! i <> Some g) ->
  (forall g', g' <> g -> occ g' extra' = occ g' extra) ->
  shm_ok extra' (eq g) (insert_pool g p' s).
Proof.
  intros Hs Hp Hr Hok Hdel Hocc. destruct Hs. split; cbn; try done.
  - intros i g' Hi. destruct (so_ids0 i g' Hi) as (q & Hq & Hd).
    destruct (decide (g = g')) as [<-|Hne]; simplify_map_eq; [|eauto]. exists p'. split; [done|].
    destruct (p_deleted p') eqn:Hd'; [|done]. destruct (Hdel eq_refl) as [|Hn]; [congruence|].
    by destruct (Hn i).
  - intros i g' Hi. destruct (decide (g = g')) as [<-|Hne]; simplify_map_eq; eauto.
  - intros g' q Hq. destruct (decide (g = g')) as [<-|Hne]; simplify_map_eq; [done|].
    destruct (so_pool0 _ _ Hq) as (? & ? & ? & ? & ?). unfold pool_ok. cbn.
    rewrite Hocc by done. done.
  - intros g' q Hq Hne. rewrite lookup_insert_ne in Hq by done. eapply so_used0, not_clean. done.
  - rewrite (msum_insert_Some _ _ _ p) by done. lia.
  - rewrite map_size_insert_Some; [done|by exists p].
Qed.

(** A pool that turned out to be used after all. *)
Lemma shm_ok_settled extra g s :
  shm_ok extra (eq g) s -> (forall p, pools s !! g = Some p -> unused p = false) ->
  shm_ok extra clean s.
Proof.
  intros [] Hu. split; try done. intros g' p' Hp' _.
  destruct (decide (g = g')) as [<-|]; [by apply Hu|by eapply so_used0].
Qed.

(** The surfaces changed: each is well formed, and each pool's holds balance. *)
Lemma shm_ok_surfaces extra extra' dirty surfs s :
  shm_ok extra dirty s ->
  (forall x f, surfs !! x = Some f -> surface_ok (next_pool s) f) ->
  (forall g, holds g surfs + occ g extra' = holds g (surfaces s) + occ g extra) ->
  shm_ok extra' dirty (with_surfaces surfs s).
Proof.
  intros [] Hf Hh. split; cbn; try done.
  intros g p Hp. destruct (so_pool0 g p Hp) as (? & ? & ? & ? & ?). unfold pool_ok. cbn.
  specialize (Hh g). split_and!; (done || lia).
Qed.

(** One surface written: its holds are unchanged. *)
Lemma shm_ok_surface extra dirty x f s :
  shm_ok extra dirty s -> surface_ok (next_pool s) f ->
  (forall g, held_by g f = from_option (held_by g) 0 (surfaces s !! x)) ->
  shm_ok extra dirty (insert_surface x f s).
Proof.
  intros Hs Hf Hh. eapply shm_ok_surfaces; [done|..].
  - intros y f' Hy. destruct (decide (x = y)) as [<-|]; simplify_map_eq; [done|].
    by eapply so_surf.
  - intros g. unfold holds. rewrite msum_insert, Hh. lia.
Qed.

Lemma default_surface_ok n : surface_ok n default_surface.
Proof. by split_and!; [constructor| |]. Qed.

Lemma entry_surface_ok extra dirty s x :
  shm_ok extra dirty s -> surface_ok (next_pool s) (entry_surface x s).
Proof.
  intros Hs. unfold entry_surface. destruct (surfaces s !! x) eqn:Hx; simpl;
    [by eapply so_surf|apply default_surface_ok].
Qed.

Lemma entry_surface_held s x g :
  held_by g (entry_surface x s) = from_option (held_by g) 0 (surfaces s !! x).
Proof. unfold entry_surface. by destruct (surfaces s !! x). Qed.

Lemma shm_ok_alter extra dirty (h : Surface -> Surface) x s :
  shm_ok extra dirty s ->
  (forall f, surface_ok (next_pool s) f -> surface_ok (next_pool s) (h f)) ->
  (forall f g, held_by g (h f) = held_by g f) ->
  shm_ok extra dirty (alter_surface h x s).
Proof.
  intros Hs Hok Hh. unfold alter_surface. destruct (surfaces s !! x) as [f|] eqn:Hx.
  - replace (alter h x (surfaces s)) with (<[x:=h f]> (surfaces s)).
    + apply shm_ok_surface; [done|by eapply Hok, so_surf|]. intros g. by rewrite Hx, Hh.
    + apply map_eq. intros y. destruct (decide (x = y)) as [<-|]; by simplify_map_eq.
  - replace (alter h x (surfaces s)) with (surfaces s); [by destruct s|].
    apply map_eq. intros y. destruct (decide (x = y)) as [<-|]; [|by simplify_map_eq].
    by rewrite lookup_alter_eq, Hx.
Qed.

(** Giving a hold back. *)
Lemma wp_unhold extra g s :
  shm_ok (g :: extra) clean s -> wp (unhold g) (fun _ => shm_ok extra clean) (fun _ _ => False) s.
Proof.
  intros Hs. unfold unhold. wp_steps. destruct (pools s !! g) as [p|] eqn:Hp.
  - destruct (so_pool _ _ _ Hs _ _ Hp) as (? & ? & Hh & ? & ?). cbn [occ] in Hh.
    rewrite Z.eqb_refl in Hh. pose proof (occ_nonneg g extra).
    assert (0 <= holds g (surfaces s)) by (apply msum_nonneg; intros; apply held_by_nonneg).
    wp_step. apply wp_usize_sub; [lia|]. wp_steps. apply wp_release_pool.
    eapply shm_ok_pool; [done..| |by left|].
    + unfold pool_ok. cbn. split_and!; (done || lia).
    + intros g' Hne. cbn [occ]. rewrite (proj2 (Z.eqb_neq g g')) by done. lia.
  - wp_steps. apply wp_release_pool. destruct Hs. split; try done; [|intros; eapply so_used0, not_clean; done].
    intros g' p' Hp'. destruct (so_pool0 _ _ Hp') as (? & ? & Hh & ? & ?).
    unfold pool_ok. cbn [occ] in Hh. rewrite (proj2 (Z.eqb_neq g g')) in Hh by congruence.
    split_and!; (done || lia).
Qed.

Lemma wp_unhold_all extra l s :
  shm_ok (l ++ extra) clean s ->
  wp (for_each l unhold) (fun _ => shm_ok extra clean) (fun _ _ => False) s.
Proof.
  revert s. induction l as [|g l IH]; intros s Hs; simpl; wp_step; [done|].
  eapply wp_mono; [..|by apply wp_unhold]; [|done]. intros [] s' Hs'. by apply IH.
Qed.

(** ** [apply]: its loop ends, and balances the holds *)
Lemma settle_held g f gone f' :
  settle f = (gone, f') -> occ g gone + held_by g f' = held_by g f.
Proof.
  unfold settle. intros [= <- <-]. unfold held_by. cbn. rewrite <-occ_app, <-flatten_app. do 2 f_equal.
  destruct (last (sf_held f)) as [x|] eqn:Hl.
  - apply last_Some in Hl as [l ->]. by rewrite removelast_last.
  - by apply last_None in Hl as ->.
Qed.

Lemma settle_ok n f gone f' : settle f = (gone, f') -> surface_ok n f -> surface_ok n f'.
Proof.
  unfold settle. intros [= <- <-] (H1 & H2 & H3). split_and!; cbn; [|done|].
  - destruct (last (sf_held f)) as [x|] eqn:Hl; [|constructor].
    apply last_Some in Hl as [l Hl]. rewrite Hl, flatten_app in H1. by apply Forall_app in H1 as [_ ?].
  - destruct (last (sf_held f)); unfold zlen, MAX_HELD_PER_SURFACE; simpl; lia.
Qed.

Lemma apply_loop_spec n fuel surfs todo freed surfs' freed' :
  apply_loop fuel surfs todo freed = Some (surfs', freed') ->
  (forall x f, surfs !! x = Some f -> surface_ok n f) ->
  (forall x f, surfs' !! x = Some f -> surface_ok n f) /\
  (forall g, holds g surfs' + occ g freed' = holds g surfs + occ g freed).
Proof.
  revert surfs todo freed. induction fuel as [|fuel IH]; intros surfs todo freed Hl Hok; [done|].
  cbn [apply_loop] in Hl. destruct todo as [|x todo]; [by simplify_eq|].
  destruct (surfs !! x) as [f|] eqn:Hx; [|by eapply IH].
  destruct (settle f) as [gone f'] eqn:Hset. apply IH in Hl as [Hok' Hbal].
  - split; [done|]. intros g. rewrite Hbal, occ_app. unfold holds.
    rewrite (msum_insert_Some _ _ _ f) by done. pose proof (settle_held g _ _ _ Hset). lia.
  - intros y f0 Hy. destruct (decide (x = y)) as [<-|]; simplify_map_eq; [|eauto].
    eapply settle_ok; eauto.
Qed.

(** The loop's measure: an application of a cached surface uses up a cache, and one of a
    surface that is not cached is followed by that of a cached one. *)
Definition top_cached (surfs : gmap Z Surface) (todo : list Z) : bool :=
  match todo with x :: _ => is_some_and (surfs !! x) sf_cached | [] => false end.
Definition measure (surfs : gmap Z Surface) (todo : list Z) : Z :=
  2 * (children_count surfs + 2) * cached_count surfs
  - (if top_cached surfs todo then children_count surfs + 2 else 0) + zlen todo.


Lemma zlen_rev {A} (l : list A) : zlen (rev l) = zlen l.
Proof. unfold zlen. by rewrite length_rev. Qed.

Lemma top_cached_kids surfs f todo :
  cached_kids surfs f <> [] -> top_cached surfs (rev (cached_kids surfs f) ++ todo) = true.
Proof.
  intros Hne. destruct (rev (cached_kids surfs f)) as [|k ks] eqn:Hr.
  { apply (f_equal (@rev Z)) in Hr. by rewrite rev_involutive in Hr. }
  simpl. assert (In k (cached_kids surfs f)) as Hin by (rewrite in_rev, Hr; by left).
  apply List.filter_In in Hin as [_ Hk]. destruct (surfs !! k); [|done]. simpl in *.
  by apply andb_true_iff in Hk as [_ ?].
Qed.

Lemma cached_count_nonneg surfs : 0 <= cached_count surfs.
Proof. apply msum_nonneg. intros. by case_bool. Qed.
Lemma children_count_nonneg surfs : 0 <= children_count surfs.
Proof. apply msum_nonneg. intros. apply zlen_nonneg. Qed.

(** One turn: what the measure's parts become. *)
Lemma settle_counts surfs x f gone f' :
  surfs !! x = Some f -> settle f = (gone, f') ->
  children_count (<[x:=f']> surfs) = children_count surfs /\
  cached_count (<[x:=f']> surfs) = cached_count surfs - (if sf_cached f then 1 else 0) /\
  zlen (sf_children f) <= children_count surfs /\ (if sf_cached f then 1 else 0) <= cached_count surfs.
Proof.
  intros Hx [= <- <-]. unfold children_count, cached_count.
  rewrite !(msum_insert_Some _ _ _ f) by done. cbn. split_and!; [lia..| |].
  - apply (msum_le (fun f => zlen (sf_children f)) surfs x f); [|done]. intros. apply zlen_nonneg.
  - apply (msum_le (fun f => if sf_cached f then 1 else 0) surfs x f); [|done]. intros. by case_bool.
Qed.

Lemma apply_loop_fuel fuel surfs todo freed :
  measure surfs todo < Z.of_nat fuel -> is_Some (apply_loop fuel surfs todo freed).
Proof.
  revert surfs todo freed. induction fuel as [|fuel IH]; intros surfs todo freed Hm.
  { exfalso. unfold measure in Hm. pose proof (cached_count_nonneg surfs).
    pose proof (children_count_nonneg surfs). pose proof (zlen_nonneg todo).
    destruct (top_cached surfs todo) eqn:Ht; [|nia]. destruct todo as [|x todo]; [done|].
    simpl in Ht. destruct (surfs !! x) as [f|] eqn:Hx; [|done]. simpl in Ht.
    destruct (settle_counts surfs x f _ _ Hx (surjective_pairing _)) as (_ & _ & _ & Hc).
    rewrite Ht in Hc. nia. }
  cbn [apply_loop]. destruct todo as [|x todo]; [by eexists|].
  unfold measure in Hm. rewrite zlen_cons in Hm. cbn [top_cached] in Hm.
  pose proof (children_count_nonneg surfs). pose proof (cached_count_nonneg surfs).
  destruct (surfs !! x) as [f|] eqn:Hx.
  - destruct (settle f) as [gone f'] eqn:Hset. apply IH. cbn [is_some_and] in Hm.
    destruct (settle_counts _ _ _ _ _ Hx Hset) as (Hn & Hc & Hch & Hle).
    set (surfs' := <[x:=f']> surfs) in *. unfold measure. rewrite zlen_app, zlen_rev, Hn, Hc.
    assert (zlen (cached_kids surfs' f) <= zlen (sf_children f)) as Hk by apply zlen_filter.
    pose proof (zlen_nonneg todo).
    destruct (cached_kids surfs' f) as [|k ks] eqn:Hkids.
    + change (zlen (@nil Z)) with 0. destruct (sf_cached f), (top_cached surfs' (rev [] ++ todo)); nia.
    + rewrite <-Hkids, top_cached_kids by (by rewrite Hkids). rewrite Hkids.
      destruct (sf_cached f); nia.
  - apply IH. unfold measure. simpl in Hm. case_bool; lia.
Qed.


(** The steps below never fail: they keep the invariant, with holds still to be given back. *)
Lemma wp_apply extra x s :
  shm_ok extra clean s -> wp (apply x) (fun _ => shm_ok extra clean) (fun _ _ => False) s.
Proof.
  intros Hs. unfold apply. wp_steps.
  destruct (apply_loop_fuel (apply_fuel (surfaces s)) (surfaces s) [x] []) as [[surfs freed] Hl].
  { unfold apply_fuel, measure. pose proof (cached_count_nonneg (surfaces s)).
    pose proof (children_count_nonneg (surfaces s)). change (zlen [x]) with 1.
    case_bool; nia. }
  eapply wp_unwrap; [exact Hl|]. cbn beta iota. wp_steps.
  destruct (apply_loop_spec (next_pool s) _ _ _ _ _ _ Hl) as [Hok Hbal]; [by eapply so_surf|].
  apply wp_unhold_all. eapply shm_ok_surfaces; [done..|]. intros g. rewrite occ_app.
  specialize (Hbal g). simpl in Hbal. lia.
Qed.

Lemma surface_ok_same n f f' :
  sf_held f' = sf_held f -> (sf_pending f' = sf_pending f \/ sf_pending f' = None) ->
  surface_ok n f -> surface_ok n f'.
Proof.
  intros Hh Hp (H1 & H2 & H3). unfold surface_ok. rewrite Hh. split_and!; [done| |done].
  intros g Hg. apply H2. destruct Hp; congruence.
Qed.

Lemma wp_detach extra x s :
  shm_ok extra clean s -> wp (detach x) (fun _ => shm_ok extra clean) (fun _ _ => False) s.
Proof.
  intros Hs. unfold detach. do 3 wp_step.
  eapply (wp_mono _ (fun _ => shm_ok extra clean) _ (fun _ _ => False)); [..|]; [|done|].
  - intros [] s' Hs'. wp_steps. destruct (surfaces s' !! x) as [f|] eqn:Hx; [|by wp_steps].
    assert (shm_ok extra clean (insert_surface x (set_role None None false f) s')) as Hs2.
    { apply shm_ok_surface; [done|apply (surface_ok_same _ f); [done|by left|by eapply so_surf]|].
      intros g. by rewrite Hx. }
    wp_steps. destruct (sf_parent f); wp_steps; [|done].
    apply shm_ok_alter; [done| |done]. intros f' Hf'. by apply (surface_ok_same _ f'); [|left|].
  - apply wp_when; intros; [by apply wp_apply|done].
Qed.

Lemma wp_detach_all extra l s :
  shm_ok extra clean s -> wp (for_each l detach) (fun _ => shm_ok extra clean) (fun _ _ => False) s.
Proof. apply wp_for_each. intros x s' _. apply wp_detach. Qed.

(** *** Requests: each keeps the invariant, accepted or refused *)
Lemma keeps_sys {A} extra dirty (f : nat -> A) : keeps (shm_ok extra dirty) (sys f).
Proof. intros s Hs. apply wp_sys. by apply shm_ok_kernel. Qed.

Lemma keeps_sys_effect {A} extra dirty c (f : nat -> A) : keeps (shm_ok extra dirty) (sys_effect c f).
Proof.
  unfold sys_effect. apply keeps_bind; [|intros _; apply keeps_sys].
  apply keeps_modify. intros s. apply shm_ok_kernel.
Qed.

Lemma keeps_pool_fd raw (I : Shm -> Prop) :
  (forall t l s, I s -> I (with_kernel t l s)) -> keeps I (pool_fd raw).
Proof.
  intros HI. assert (forall A (f : nat -> A), keeps I (sys f)) as Hsys.
  { intros A f s Hs. apply wp_sys. by apply HI. }
  unfold pool_fd, sys_effect.
  repeat (first [apply Hsys | apply keeps_bind; [|intros ?] | apply keeps_reject_if | apply keeps_fail
    | apply keeps_ret | apply keeps_modify; intros; by apply HI | case_match]).
Qed.

Lemma shm_ok_new_pool size fd file id s :
  Inv s -> 0 < size <= MAX_SHM_POOL_BYTES -> shm_pool_count s < MAX_SHM_POOLS_PER_SESSION ->
  shm_pool_bytes s + size <= MAX_SHM_BYTES_PER_SESSION ->
  Inv (insert_pool (next_pool s + 1) (mkPool size 0 false 0 fd file size)
    (with_pool_ids (<[id:=next_pool s + 1]> (pool_ids s))
      (with_budget (next_pool s + 1) (shm_pool_bytes s + size) (shm_pool_count s + 1) s))).
Proof.
  intros Hs Hsz Hc Hb. destruct Hs. set (g := next_pool s + 1).
  assert (pools s !! g = None) as Hfresh.
  { destruct (pools s !! g) as [p|] eqn:Hp; [|done]. destruct (so_pool0 _ _ Hp) as [Hle _]. lia. }
  assert (holds g (surfaces s) = 0) as Hh.
  { apply msum_zero. intros x f Hf. destruct (so_surf0 _ _ Hf) as [Hall _].
    apply occ_zero. intros Hin. rewrite Forall_forall in Hall. specialize (Hall _ Hin). lia. }
  assert (backed g (buffer_pools s) = 0) as Hbk.
  { apply msum_zero. intros i v Hv. unfold backs. destruct (Z.eqb_spec v g) as [->|]; [|done].
    destruct (so_bufs0 _ _ Hv). congruence. }
  split; cbn; try done.
  - intros i g'. destruct (decide (id = i)) as [<-|].
    + intros. simplify_map_eq. eauto.
    + intros Hi. simplify_map_eq. destruct (so_ids0 _ _ Hi) as (p & Hp & Hd).
      exists p. by rewrite lookup_insert_ne by congruence.
  - intros i j g' Hi Hj.
    assert (forall k, pool_ids s !! k = Some g -> False) as Hno.
    { intros k Hk. destruct (so_ids0 _ _ Hk) as (p & Hp & _). congruence. }
    destruct (decide (id = i)) as [<-|], (decide (id = j)) as [<-|]; simplify_map_eq; try done;
      [by destruct (Hno j)|by destruct (Hno i)|eauto].
  - intros i g' Hi. destruct (so_bufs0 _ _ Hi) as [p Hp]. exists p.
    by rewrite lookup_insert_ne by congruence.
  - intros g' p' Hp'. destruct (decide (g = g')) as [<-|]; simplify_map_eq.
    + unfold pool_ok. cbn. rewrite Hh, Hbk. split_and!; (done || lia).
    + destruct (so_pool0 _ _ Hp') as (? & ? & ? & ? & ?). unfold pool_ok. cbn. split_and!; (done || lia).
  - intros x f Hf. destruct (so_surf0 _ _ Hf) as (Hall & Hp & Hl). split_and!; [|intros g' Hg'|done].
    + eapply Forall_impl; [done|]. simpl. lia.
    + specialize (Hp _ Hg'). lia.
  - intros g' p'. destruct (decide (g = g')) as [<-|]; intros; simplify_map_eq; [done|by eapply so_used0].
  - rewrite msum_insert_None by done. cbn. lia.
  - rewrite map_size_insert_None by done. lia.
  - lia.
Qed.

Lemma keeps_create_pool body fds : keeps Inv (create_pool body fds).
Proof.
  intros s Hs. unfold create_pool, read_word.
  wp_step. wp_step; [|done]. destruct a as [id r]. wp_step. wp_step; [|done]. destruct a as [word r'].
  wp_step. wp_step; [done|]. do 2 wp_step. wp_step.
  pose proof (bytes_nonneg _ _ _ Hs). pose proof (so_max _ _ _ Hs).
  unfold MAX_SHM_POOL_BYTES, MAX_SHM_BYTES_PER_SESSION in *.
  apply (wp_mono _ (fun t s' => s' = s /\
    (shm_pool_count s < MAX_SHM_POOLS_PER_SESSION -> t = shm_pool_bytes s + as_i32 word)) _ (fun _ _ => False)); [|done|].
  2: { case_bool; [apply wp_ret; split; [done|lia]|]. apply wp_usize_add; [lia|done]. }
  intros total s' [-> Ht]. wp_step. wp_step; [done|]. wp_step. wp_step; [|done]. wp_step.
  eapply wp_mono; [..|apply (keeps_pool_fd a (fun s' => exists t l, s' = with_kernel t l s))].
  - intros [fd file] s' (t & l & ->). wp_steps.
    apply (shm_ok_kernel _ _ t l) in Hs. apply (shm_ok_new_pool (as_i32 word) fd file id) in Hs;
      [exact Hs|unfold MAX_SHM_POOL_BYTES|cbn|unfold MAX_SHM_BYTES_PER_SESSION; cbn]; lia.
  - intros e s' (t & l & ->). by apply shm_ok_kernel.
  - intros t l s' (t' & l' & ->). by exists t, l.
  - by exists (clock s), (calls s); destruct s.
Qed.

Lemma shm_ok_resize g p size r s :
  Inv s -> pools s !! g = Some p -> p_size p <= size -> size <= r -> r <= MAX_SHM_POOL_BYTES ->
  p_range p <= r -> shm_pool_bytes s + (r - p_range p) <= MAX_SHM_BYTES_PER_SESSION ->
  Inv (insert_pool g (set_size size r p)
    (with_budget (next_pool s) (shm_pool_bytes s + (r - p_range p)) (shm_pool_count s) s)).
Proof.
  intros Hs Hp H1 H2 H3 H4 H5. destruct Hs. destruct (so_pool0 _ _ Hp) as (? & ? & ? & ? & ?).
  split; cbn; try done.
  - intros i g' Hi. destruct (so_ids0 _ _ Hi) as (q & Hq & Hd).
    destruct (decide (g = g')) as [<-|]; simplify_map_eq; eauto.
  - intros i g' Hi. destruct (decide (g = g')) as [<-|]; simplify_map_eq; eauto.
  - intros g' q Hq. destruct (decide (g = g')) as [<-|]; simplify_map_eq; [|by apply so_pool0].
    unfold pool_ok. cbn. split_and!; (done || lia).
  - intros g' q Hq Hd. destruct (decide (g = g')) as [<-|]; simplify_map_eq; [|by eapply so_used0].
    by apply (so_used0 _ _ Hp).
  - rewrite (msum_insert_Some _ _ _ p) by done. cbn. lia.
  - rewrite map_size_insert_Some; [done|by exists p].
Qed.

Lemma keeps_resize_pool object body : keeps Inv (resize_pool object body).
Proof.
  intros s Hs. unfold resize_pool, read_word. wp_step. wp_step; [|done]. destruct a as [word r].
  do 3 wp_step. wp_step; [|done]. wp_step. rename a into g.
  destruct (so_ids _ _ _ Hs object g) as (p & Hp & _); [done|].
  eapply wp_unwrap; [exact Hp|]. wp_step. wp_step; [done|].
  destruct (so_pool _ _ _ Hs _ _ Hp) as (_ & _ & _ & Hsz & Hr).
  pose proof (bytes_nonneg _ _ _ Hs). pose proof (so_max _ _ _ Hs).
  unfold MAX_SHM_POOL_BYTES, MAX_SHM_BYTES_PER_SESSION, saturating_sub in *.
  wp_step. apply wp_usize_add; [lia|]. wp_step. wp_step; [done|]. do 3 wp_step.
  apply wp_usize_add; [lia|]. wp_step.
  replace (Z.max 0 (as_i32 word - p_range p)) with (p_range p + Z.max 0 (as_i32 word - p_range p) - p_range p) at 2 by lia.
  apply shm_ok_resize; unfold MAX_SHM_POOL_BYTES, MAX_SHM_BYTES_PER_SESSION; (done || lia).
Qed.

Lemma backed_insert i g g' bufs :
  backed g' (<[i:=g]> bufs) <= backed g' bufs + (if g =? g' then 1 else 0).
Proof.
  unfold backed. rewrite msum_insert. destruct (bufs !! i) as [v|]; simpl;
    [pose proof (backs_nonneg g' v)|]; change (backs g' g) with (if g =? g' then 1 else 0); lia.
Qed.

Lemma keeps_create_buffer object created : keeps Inv (create_buffer object created).
Proof.
  intros s Hs. unfold create_buffer. wp_step. wp_step; [|done]. rename a into id. do 3 wp_step.
  wp_step; [|done]. rename a into g. do 3 wp_step.
  destruct (so_ids _ _ _ Hs object g) as (p & Hp & Hd); [done|].
  eapply wp_unwrap; [exact Hp|]. wp_step. destruct Hs. split; cbn; try done.
  - intros i g' Hi. destruct (so_ids0 _ _ Hi) as (q & Hq & Hd').
    destruct (decide (g = g')) as [<-|]; simplify_map_eq; eauto.
  - intros i g' Hi. destruct (decide (g = g')) as [<-|]; simplify_map_eq; [eauto|].
    destruct (decide (id = i)) as [<-|]; simplify_map_eq; eauto.
  - intros g' q Hq. pose proof (backed_insert id g g' (buffer_pools s)) as Hle.
    destruct (decide (g = g')) as [<-|]; simplify_map_eq.
    + destruct (so_pool0 _ _ Hp) as (? & ? & ? & ? & ?). rewrite Z.eqb_refl in Hle.
      unfold pool_ok. cbn. split_and!; (done || lia).
    + destruct (so_pool0 _ _ Hq) as (? & ? & ? & ? & ?). rewrite (proj2 (Z.eqb_neq g g')) in Hle by done.
      unfold pool_ok. cbn. split_and!; (done || lia).
  - intros g' q Hq Hc. destruct (decide (g = g')) as [<-|]; simplify_map_eq; [|by eapply so_used0].
    unfold unused. cbn. by rewrite Hd.
  - rewrite (msum_insert_Some _ _ _ p) by done. cbn. lia.
  - rewrite map_size_insert_Some; [done|by exists p].
Qed.

Lemma keeps_attach object body : keeps Inv (attach object body).
Proof.
  intros s Hs. unfold attach, read_word. wp_step. wp_step; [|done]. destruct a as [buffer r].
  wp_steps. apply shm_ok_surface; [done| |intros; by rewrite <-entry_surface_held].
  destruct (entry_surface_ok _ _ s object Hs) as (H1 & H2 & H3). split_and!; [done|cbn|done].
  intros g [= Hg]. destruct (so_bufs _ _ _ Hs _ _ Hg) as [p Hp].
  by destruct (so_pool _ _ _ Hs _ _ Hp).
Qed.

(** A hold about to be taken on a pool, if it is still there. *)
Lemma shm_ok_take g s :
  Inv s -> shm_ok [g] clean
    match pools s !! g with
    | Some pool => insert_pool g (set_held (p_held pool + 1) pool) s
    | None => s
    end.
Proof.
  intros Hs. destruct (pools s !! g) as [pool|] eqn:Hp.
  - destruct (so_pool _ _ _ Hs _ _ Hp) as (? & ? & Hpe & ? & ?). simpl in Hpe.
    assert (0 <= holds g (surfaces s)) by (apply msum_nonneg; intros; apply held_by_nonneg).
    apply (shm_ok_settled _ g); [eapply shm_ok_pool; [done..| |by left|]|].
    + unfold pool_ok. cbn. rewrite Z.eqb_refl. split_and!; (done || lia).
    + intros g' Hne. cbn [occ]. by rewrite (proj2 (Z.eqb_neq g g')).
    + cbn. intros q Hq. rewrite lookup_insert_eq in Hq. simplify_eq. unfold unused. cbn.
      rewrite (proj2 (Z.eqb_neq (p_held pool + 1) 0)) by lia. by rewrite andb_false_r.
  - destruct Hs. split; try done. intros g' p' Hp'. destruct (so_pool0 _ _ Hp') as (? & ? & ? & ? & ?).
    unfold pool_ok. cbn [occ]. rewrite (proj2 (Z.eqb_neq g g')) by congruence. done.
Qed.

Lemma surface_ok_hold n f p :
  surface_ok n f -> sf_pending f = Some p -> zlen (sf_held f) < MAX_HELD_PER_SURFACE ->
  surface_ok n (set_holds (sf_held f ++ [p]) (set_pending None f)).
Proof.
  intros (H1 & H2 & H3) Hp Hl. split_and!; cbn; [|done|].
  - rewrite flatten_app. apply Forall_app. split; [done|]. destruct p as [g|]; [|constructor].
    constructor; [by apply H2|constructor].
  - rewrite zlen_app. change (zlen [p]) with 1. lia.
Qed.

(** The attached pool joins what the surface holds. *)
Lemma shm_ok_hold x f p s :
  Inv s -> surfaces s !! x = Some f -> sf_pending f = Some p ->
  zlen (sf_held f) < MAX_HELD_PER_SURFACE ->
  Inv (insert_surface x (set_holds (sf_held f ++ [p]) (set_pending None f))
    match p ≫= (fun g => (fun pool => (g, pool)) <$> pools s !! g) with
    | Some (g, pool) => insert_pool g (set_held (p_held pool + 1) pool) s
    | None => s
    end).
Proof.
  intros Hs Hx Hp Hl. pose proof (surface_ok_hold _ _ _ (so_surf _ _ _ Hs _ _ Hx) Hp Hl) as Hok.
  set (f' := set_holds _ _) in *.
  assert (forall s', shm_ok (flatten [p]) clean s' -> surfaces s' = surfaces s -> next_pool s' = next_pool s ->
    Inv (insert_surface x f' s')) as Hfin.
  { intros s' Hs' Hsf Hn. eapply shm_ok_surfaces; [done|..].
    - intros y f0. rewrite Hsf, Hn. destruct (decide (x = y)) as [<-|]; intros; simplify_map_eq; [done|].
      by eapply so_surf.
    - intros g. rewrite Hsf. unfold holds. rewrite (msum_insert_Some _ _ _ f) by done.
      unfold held_by at 3. cbn [f' set_holds sf_held]. rewrite flatten_app, occ_app.
      unfold held_by. simpl. lia. }
  destruct p as [g|]; simpl; [|by apply Hfin]. pose proof (shm_ok_take g s Hs) as Ht.
  destruct (pools s !! g); simpl; by apply Hfin.
Qed.

Lemma keeps_hold_pending x : keeps Inv (hold_pending x).
Proof.
  intros s Hs. unfold hold_pending. wp_step. wp_step.
  destruct (surfaces s !! x) as [f|] eqn:Hx; [|by wp_steps].
  destruct (sf_pending f) as [p|] eqn:Hpend; [|by wp_steps].
  assert (Inv (insert_surface x (set_pending None f) s)) as Hs1.
  { apply shm_ok_surface; [done|..].
    - apply (surface_ok_same _ f); [done|by right|by eapply so_surf].
    - intros g. by rewrite Hx. }
  do 2 wp_step. apply wp_when; intros _; [|done]. wp_step. wp_step; [done|]. do 2 wp_step.
  pose proof (shm_ok_hold x f p s Hs Hx Hpend ltac:(lia)) as Hinv. revert Hinv.
  unfold insert_surface at 2 3. cbn [surfaces with_surfaces].
  rewrite (insert_insert_eq (surfaces s)).
  destruct (p ≫= _) as [[g pool]|]; intros Hinv; wp_steps; exact Hinv.
Qed.

Lemma keeps_apply x : keeps Inv (apply x).
Proof. intros s Hs. eapply wp_mono; [..|by apply wp_apply]; done. Qed.

Lemma keeps_commit x : keeps Inv (commit x).
Proof.
  unfold commit. apply keeps_bind; [apply keeps_hold_pending|intros _].
  apply keeps_bind; [apply keeps_gets|intros []]; [|apply keeps_apply].
  apply keeps_modify. intros s Hs. apply shm_ok_alter; [done| |done].
  intros f Hf. by apply (surface_ok_same _ f); [|left|].
Qed.

Lemma shm_ok_subsurfaces extra dirty v s :
  Z.of_nat (size v) <= MAX_SUBSURFACES_PER_SESSION ->
  shm_ok extra dirty s -> shm_ok extra dirty (with_subsurfaces v s).
Proof. by intros Hv []; split. Qed.

Lemma size_insert_le {V} i v (m : gmap Z V) : (size (<[i:=v]> m) <= S (size m))%nat.
Proof.
  destruct (m !! i) as [w|] eqn:Hi.
  - rewrite map_size_insert_Some; [lia|by exists w].
  - by rewrite map_size_insert_None.
Qed.

Lemma size_delete_le {V} i (m : gmap Z V) : (size (delete i m) <= size m)%nat.
Proof.
  destruct (m !! i) as [w|] eqn:Hi.
  - rewrite map_size_delete_Some; [lia|by exists w].
  - by rewrite delete_id.
Qed.

(** Role, parent, children and flags of a surface may change freely. *)
Lemma shm_ok_entry extra dirty x f s :
  shm_ok extra dirty s -> sf_held f = sf_held (entry_surface x s) ->
  sf_pending f = sf_pending (entry_surface x s) -> shm_ok extra dirty (insert_surface x f s).
Proof.
  intros Hs Hh Hp. apply shm_ok_surface; [done|..].
  - apply (surface_ok_same _ (entry_surface x s)); [done|by left|by eapply entry_surface_ok].
  - intros g. rewrite <-entry_surface_held. unfold held_by. by rewrite Hh.
Qed.

Lemma keeps_get_subsurface body : keeps Inv (get_subsurface body).
Proof.
  intros s Hs. unfold get_subsurface, read_word. do 3 wp_step. wp_step; [done|].
  wp_step. wp_step; [|done]. destruct a as [id r]. wp_step. wp_step; [|done]. destruct a as [surface r'].
  wp_step. wp_step; [|done]. destruct a as [parent r'']. wp_step. wp_step; [done|].
  wp_steps. apply shm_ok_subsurfaces.
  - cbn. pose proof (size_insert_le id surface (subsurfaces s)). unfold MAX_SUBSURFACES_PER_SESSION in *. lia.
  - by repeat apply shm_ok_entry.
Qed.

Lemma entry_surface_Some x f s : surfaces s !! x = Some f -> entry_surface x s = f.
Proof. unfold entry_surface. by intros ->. Qed.

Lemma subsurface_live_Some object s x :
  subsurface_live object s = Some x -> exists f, surfaces s !! x = Some f.
Proof.
  unfold subsurface_live. destruct (subsurfaces s !! object) as [y|]; [|done].
  destruct (surfaces s !! y) as [f|] eqn:Hy; simpl; [|done]. case_bool; [|done]. naive_solver.
Qed.

Lemma keeps_set_desync x s :
  Inv s -> is_Some (surfaces s !! x) -> wp (subsurface_set_desync x) (fun _ => Inv) (fun _ => Inv) s.
Proof.
  intros Hs [f Hf]. unfold subsurface_set_desync. do 3 wp_step. eapply wp_unwrap; [exact Hf|].
  do 4 wp_step. apply (keeps_when Inv).
  - intros _. apply keeps_apply.
  - apply shm_ok_entry; by rewrite ?(entry_surface_Some _ _ _ Hf).
Qed.

Lemma keeps_subsurface_request object request : keeps Inv (subsurface_request object request).
Proof.
  intros s Hs. unfold subsurface_request. do 2 wp_step.
  pose proof (subsurface_live_Some object s) as Hlive. destruct (subsurface_live object s) as [x|].
  - destruct (Hlive x eq_refl) as [f Hf]. repeat case_bool.
    + do 3 wp_step. eapply wp_unwrap; [exact Hf|]. wp_step.
      apply shm_ok_entry; by rewrite ?(entry_surface_Some _ _ _ Hf).
    + apply keeps_set_desync; eauto.
    + do 2 wp_step. eapply wp_mono; [..|apply (wp_detach [])]; [done..|]. apply shm_ok_subsurfaces; [|done].
      pose proof (size_delete_le object (subsurfaces s)). pose proof (so_subs _ _ _ Hs). lia.
    + by wp_step.
  - repeat case_bool; wp_steps; try done. apply shm_ok_subsurfaces; [|done].
    pose proof (size_delete_le object (subsurfaces s)). pose proof (so_subs _ _ _ Hs). lia.
Qed.

(** *** delete_id *)
Lemma wp_delete_pool_id id s : Inv s -> wp (delete_pool_id id) (fun _ => Inv) (fun _ _ => False) s.
Proof.
  intros Hs. unfold delete_pool_id. do 2 wp_step.
  destruct (pool_ids s !! id) as [g|] eqn:Hi; [|by wp_steps]. do 3 wp_step.
  destruct (so_ids _ _ _ Hs _ _ Hi) as (p & Hp & Hd).
  eapply wp_unwrap; [exact Hp|]. do 2 wp_step.
  eapply wp_mono; [..|apply (wp_release_pool [])]; [done..|].
  apply (shm_ok_pool [] [] g p); [|done|done| | |done].
  - destruct Hs. split; cbn; try done.
    + intros i g' [_ Hi']%lookup_delete_Some. eauto.
    + intros i j g' [_ ?]%lookup_delete_Some [_ ?]%lookup_delete_Some. eauto.
  - exact (so_pool _ _ _ Hs _ _ Hp).
  - right. cbn. intros i [Hne Hi']%lookup_delete_Some. destruct Hne. by apply (so_inj _ _ _ Hs _ _ g).
Qed.

Lemma wp_delete_buffer_id id s : Inv s -> wp (delete_buffer_id id) (fun _ => Inv) (fun _ _ => False) s.
Proof.
  intros Hs. unfold delete_buffer_id. do 2 wp_step.
  destruct (buffer_pools s !! id) as [g|] eqn:Hi; [|by wp_steps]. do 3 wp_step.
  destruct (so_bufs _ _ _ Hs _ _ Hi) as [p Hp]. eapply wp_unwrap; [exact Hp|]. wp_step.
  destruct (so_pool _ _ _ Hs _ _ Hp) as (? & Hb & ? & ? & ?). pose proof (backed_pos _ _ _ Hi).
  assert (forall g', backed g' (delete id (buffer_pools s)) = backed g' (buffer_pools s) - backs g' g) as Hbd.
  { intros g'. by apply msum_delete. }
  apply wp_usize_sub; [lia|]. do 2 wp_step.
  eapply wp_mono; [..|apply (wp_release_pool [])]; [done..|].
  apply (shm_ok_pool [] [] g p); [|done|done| |by left|done].
  - destruct Hs. split; cbn; try done.
    + intros i g' [_ Hi']%lookup_delete_Some. eauto.
    + intros g' p' Hp'. destruct (so_pool0 _ _ Hp') as (? & ? & ? & ? & ?).
      pose proof (backs_nonneg g' g). specialize (Hbd g'). unfold pool_ok. cbn. split_and!; (done || lia).
  - specialize (Hbd g). unfold backs in Hbd. rewrite Z.eqb_refl in Hbd.
    unfold pool_ok. cbn. split_and!; (done || lia).
Qed.

Lemma wp_delete_surface id s : Inv s -> wp (delete_surface id) (fun _ => Inv) (fun _ _ => False) s.
Proof.
  intros Hs. unfold delete_surface. do 2 wp_step.
  destruct (surfaces s !! id) as [f|] eqn:Hf; [|by wp_steps]. do 3 wp_step.
  eapply wp_mono; [..|apply (wp_detach_all (flatten (sf_held f)))]; [|done|].
  - intros [] s1 Hs1. wp_step. apply (wp_mono _ (fun _ => shm_ok (flatten (sf_held f)) clean) _ (fun _ _ => False)); [|done|].
    + intros [] s2 Hs2. eapply wp_mono; [..|apply (wp_unhold_all [])]; [done..|]. by rewrite app_nil_r.
    + destruct (sf_parent f); wp_steps; [|done]. apply shm_ok_alter; [done| |done].
      intros f' Hf'. by apply (surface_ok_same _ f'); [|left|].
  - eapply shm_ok_surfaces; [done|..].
    + intros x f' [_ ?]%lookup_delete_Some. by eapply so_surf.
    + intros g. unfold holds. rewrite (msum_delete _ _ _ f) by done. unfold held_by at 2. simpl. lia.
Qed.

Lemma keeps_take_pools : keeps Inv take_pools.
Proof.
  intros s Hs. unfold take_pools. wp_steps. destruct Hs.
  split; cbn; try done; intros; rewrite lookup_empty in *; done.
Qed.
End safe.

#[export] Hint Resolve keeps_create_pool keeps_resize_pool keeps_create_buffer keeps_attach keeps_commit
  keeps_get_subsurface keeps_subsurface_request keeps_take_pools : kryptik.
