(* ===== verification/Session.v ===== *)
(** * compositor/wlproxy/src/session.rs: [Session], one proxied connection

    A message the object map or the tables cannot account for, a hidden bind or an exceeded
    bound ends the session. [Session]'s fields for pools and surfaces are the record [Shm]
    of Pools.v; counters of messages and generations, which are 64 bits wide and grow by one
    per message, are unbounded. *)
From S2P Require Import Prelude Bytes Wire Protocol ProtocolTables WlPolicy Clipboard Endpoint.
From S2P Require Import Objects Pools.
Open Scope string_scope.
Open Scope list_scope.
Open Scope Z_scope.

Record Session := mkSession {
  zone : string;
  hold_awake : bool;
  sid : Z;
  client : Endpoint;
  server : Endpoint;
  objects : Objects;
  shm : Shm;
  toplevels : Z;
  popups : Z;
  globals : gmap Z (string * Z);
  outputs : gmap Z Z;
  sources : gmap Z (list string);
  devices : list Z;
  offers : gmap Z Z;
  placeholders : gmap Z Z;
  hidden_count : Z;
  forwarded_c2s : Z;
  forwarded_s2c : Z;
  rewritten : Z;
}.

Definition set_client (v : Endpoint) (s : Session) : Session :=
  mkSession
    (zone s) (hold_awake s) (sid s) v (server s) (objects s) (shm s) (toplevels s)
    (popups s) (globals s) (outputs s) (sources s) (devices s) (offers s) (placeholders s)
    (hidden_count s) (forwarded_c2s s) (forwarded_s2c s) (rewritten s).
Definition set_server (v : Endpoint) (s : Session) : Session :=
  mkSession
    (zone s) (hold_awake s) (sid s) (client s) v (objects s) (shm s) (toplevels s)
    (popups s) (globals s) (outputs s) (sources s) (devices s) (offers s) (placeholders s)
    (hidden_count s) (forwarded_c2s s) (forwarded_s2c s) (rewritten s).
Definition set_objects (v : Objects) (s : Session) : Session :=
  mkSession
    (zone s) (hold_awake s) (sid s) (client s) (server s) v (shm s) (toplevels s) (popups s)
    (globals s) (outputs s) (sources s) (devices s) (offers s) (placeholders s)
    (hidden_count s) (forwarded_c2s s) (forwarded_s2c s) (rewritten s).
Definition set_shm (v : Shm) (s : Session) : Session :=
  mkSession
    (zone s) (hold_awake s) (sid s) (client s) (server s) (objects s) v (toplevels s)
    (popups s) (globals s) (outputs s) (sources s) (devices s) (offers s) (placeholders s)
    (hidden_count s) (forwarded_c2s s) (forwarded_s2c s) (rewritten s).
Definition set_toplevels (v : Z) (s : Session) : Session :=
  mkSession
    (zone s) (hold_awake s) (sid s) (client s) (server s) (objects s) (shm s) v (popups s)
    (globals s) (outputs s) (sources s) (devices s) (offers s) (placeholders s)
    (hidden_count s) (forwarded_c2s s) (forwarded_s2c s) (rewritten s).
Definition set_popups (v : Z) (s : Session) : Session :=
  mkSession
    (zone s) (hold_awake s) (sid s) (client s) (server s) (objects s) (shm s) (toplevels s)
    v (globals s) (outputs s) (sources s) (devices s) (offers s) (placeholders s)
    (hidden_count s) (forwarded_c2s s) (forwarded_s2c s) (rewritten s).
Definition set_globals (v : gmap Z (string * Z)) (s : Session) : Session :=
  mkSession
    (zone s) (hold_awake s) (sid s) (client s) (server s) (objects s) (shm s) (toplevels s)
    (popups s) v (outputs s) (sources s) (devices s) (offers s) (placeholders s)
    (hidden_count s) (forwarded_c2s s) (forwarded_s2c s) (rewritten s).
Definition set_outputs (v : gmap Z Z) (s : Session) : Session :=
  mkSession
    (zone s) (hold_awake s) (sid s) (client s) (server s) (objects s) (shm s) (toplevels s)
    (popups s) (globals s) v (sources s) (devices s) (offers s) (placeholders s)
    (hidden_count s) (forwarded_c2s s) (forwarded_s2c s) (rewritten s).
Definition set_sources (v : gmap Z (list string)) (s : Session) : Session :=
  mkSession
    (zone s) (hold_awake s) (sid s) (client s) (server s) (objects s) (shm s) (toplevels s)
    (popups s) (globals s) (outputs s) v (devices s) (offers s) (placeholders s)
    (hidden_count s) (forwarded_c2s s) (forwarded_s2c s) (rewritten s).
Definition set_devices (v : list Z) (s : Session) : Session :=
  mkSession
    (zone s) (hold_awake s) (sid s) (client s) (server s) (objects s) (shm s) (toplevels s)
    (popups s) (globals s) (outputs s) (sources s) v (offers s) (placeholders s)
    (hidden_count s) (forwarded_c2s s) (forwarded_s2c s) (rewritten s).
Definition set_offers (v : gmap Z Z) (s : Session) : Session :=
  mkSession
    (zone s) (hold_awake s) (sid s) (client s) (server s) (objects s) (shm s) (toplevels s)
    (popups s) (globals s) (outputs s) (sources s) (devices s) v (placeholders s)
    (hidden_count s) (forwarded_c2s s) (forwarded_s2c s) (rewritten s).
Definition set_placeholders (v : gmap Z Z) (s : Session) : Session :=
  mkSession
    (zone s) (hold_awake s) (sid s) (client s) (server s) (objects s) (shm s) (toplevels s)
    (popups s) (globals s) (outputs s) (sources s) (devices s) (offers s) v (hidden_count s)
    (forwarded_c2s s) (forwarded_s2c s) (rewritten s).
Definition set_hidden_count (v : Z) (s : Session) : Session :=
  mkSession
    (zone s) (hold_awake s) (sid s) (client s) (server s) (objects s) (shm s) (toplevels s)
    (popups s) (globals s) (outputs s) (sources s) (devices s) (offers s) (placeholders s) v
    (forwarded_c2s s) (forwarded_s2c s) (rewritten s).
Definition set_forwarded_c2s (v : Z) (s : Session) : Session :=
  mkSession
    (zone s) (hold_awake s) (sid s) (client s) (server s) (objects s) (shm s) (toplevels s)
    (popups s) (globals s) (outputs s) (sources s) (devices s) (offers s) (placeholders s)
    (hidden_count s) v (forwarded_s2c s) (rewritten s).
Definition set_forwarded_s2c (v : Z) (s : Session) : Session :=
  mkSession
    (zone s) (hold_awake s) (sid s) (client s) (server s) (objects s) (shm s) (toplevels s)
    (popups s) (globals s) (outputs s) (sources s) (devices s) (offers s) (placeholders s)
    (hidden_count s) (forwarded_c2s s) v (rewritten s).
Definition set_rewritten (v : Z) (s : Session) : Session :=
  mkSession
    (zone s) (hold_awake s) (sid s) (client s) (server s) (objects s) (shm s) (toplevels s)
    (popups s) (globals s) (outputs s) (sources s) (devices s) (offers s) (placeholders s)
    (hidden_count s) (forwarded_c2s s) (forwarded_s2c s) v.

(** [Session::new]. [Panic] is [expect("wl_display in tables")]. *)
Definition new_session (zone : string) (client_fd server_fd : Z) : option Session :=
  (fun display =>
     mkSession zone false 0 (new_endpoint client_fd) (new_endpoint server_fd)
       (new_objects (display, 1)) new_shm 0 0 ∅ ∅ ∅ [] ∅ ∅ 0 0 0 0) <$> find "wl_display".

(** A session and its zone's clipboard: what [&mut self] and [&mut Clipboard] reach. *)
Record World := mkWorld { ses : Session; clip : Clipboard }.
Abbreviation SM := (M World SessionError).

Definition get_ses : SM Session := gets ses.
Definition mod_ses (f : Session -> Session) : SM unit := modify (fun w => mkWorld (f (ses w)) (clip w)).
Definition mod_clip (f : Clipboard -> Clipboard) : SM unit := modify (fun w => mkWorld (ses w) (f (clip w))).

(** An operation on the pools' part of the session. *)
Definition on_shm {A} (m : ShmM A) : SM A := fun w =>
  let '(r, s) := m (shm (ses w)) in (r, mkWorld (set_shm s (ses w)) (clip w)).

Definition WL_DISPLAY : Z := 1.
Definition WL_DISPLAY_SYNC : Z := 0.
Definition WL_DISPLAY_ERROR : Z := 0.
Definition WL_DISPLAY_DELETE_ID : Z := 1.
Definition WL_DATA_OFFER_OFFER : Z := 0.
Definition WL_DATA_SOURCE_SEND : Z := 1.
Definition WL_DATA_SOURCE_CANCELLED : Z := 2.
Definition WL_DATA_DEVICE_DATA_OFFER : Z := 0.
Definition WL_DATA_DEVICE_SELECTION : Z := 5.
Definition WL_REGISTRY_BIND : Z := 0.
Definition WL_REGISTRY_GLOBAL : Z := 0.
Definition WL_REGISTRY_GLOBAL_REMOVE : Z := 1.

(** [Session::lookup]. *)
Definition lookup_message (id : Z) (dir : Dir) (opcode : Z) (s : Session)
    : result (Interface * Message * Z) SessionError :=
  match get id (objects s) with
  | None => Err (UnknownObject id)
  | Some (iface, version) =>
    let table := match dir with ClientToServer => i_requests iface | ServerToClient => i_events iface end in
    match zlookup table opcode with
    | None => Err (UnknownOpcode (i_name iface) opcode)
    | Some m =>
      if m_since m >? version
      then Err (VersionTooHigh (i_name iface +:+ "." +:+ m_name m) (m_since m) version)
      else Ok (iface, m, version)
    end
  end.

(** [Session::register]. *)
Definition register (id : Z) (iface_name : string) (version : Z) (dir : Dir) : SM unit :=
  let in_client_range := id <? SERVER_ID_BASE in
  let ok := match dir with ClientToServer => in_client_range | ServerToClient => negb in_client_range end in
  reject_if (negb ok || (id =? 0)) (IdOutOfRange id dir);;
  iface ← require (find iface_name) (HiddenInterface iface_name);
  s ← get_ses;
  reject_if (String.eqb (i_name iface) "xdg_toplevel" && (toplevels s >=? MAX_TOPLEVELS_PER_SESSION))
    (ResourceLimit "too many toplevels in one session");;
  reject_if (String.eqb (i_name iface) "xdg_popup" && (popups s >=? MAX_POPUPS_PER_SESSION))
    (ResourceLimit "too many popups in one session");;
  objs ← lift (insert_obj id (iface, version) (objects s));
  mod_ses (set_objects objs);;
  when (String.eqb (i_name iface) "xdg_toplevel") (mod_ses (fun s => set_toplevels (toplevels s + 1) s));;
  when (String.eqb (i_name iface) "xdg_popup") (mod_ses (fun s => set_popups (popups s + 1) s)).

(** [Session::objects.remove]. *)
Definition remove_object (id : Z) : SM unit :=
  s ← get_ses;
  objs ← unwrap (remove_obj id (objects s));
  mod_ses (set_objects objs).

(** [Session::emit]: a message of the proxy's own to the client. *)
Definition emit (msg : option bytes) (fds : list Z) : SM unit :=
  msg ← require msg (ResourceLimit "a message of the proxy's own does not fit");
  s ← get_ses;
  reject_if (pending_out (client s) + zlen msg >? MAX_PENDING_BYTES) (TooMuchPending ServerToClient);;
  reject_if (pending_fds (client s) + zlen fds >? MAX_PENDING_FDS) TooManyFds;;
  mod_ses (fun s => set_client (queue msg fds (client s)) s).

(** [Session::placeholder]. *)
Definition placeholder (id : Z) : SM unit :=
  m ← require (finish (put_u32 id (new_writer WL_DISPLAY WL_DISPLAY_SYNC)))
        (ResourceLimit "a placeholder does not fit");
  s ← get_ses;
  reject_if (pending_out (server s) + zlen m >? MAX_PENDING_BYTES) (TooMuchPending ClientToServer);;
  mod_ses (fun s => set_server (queue m [] (server s)) s);;
  mod_ses (fun s => set_placeholders (<[id := default 0 (placeholders s !! id) + 1]> (placeholders s)) s).

(** [Session::end_placeholder]. *)
Definition end_placeholder (id : Z) : SM bool :=
  s ← get_ses;
  match placeholders s !! id with
  | None => mret false
  | Some n =>
    n ← usize_sub n 1;
    mod_ses (set_placeholders (if n =? 0 then delete id (placeholders s) else <[id:=n]> (placeholders s)));;
    mret true
  end.

(** [Session::served_gone]. *)
Definition served_gone (id : Z) : SM unit :=
  remove_object id;;
  emit (finish (put_u32 id (new_writer WL_DISPLAY WL_DISPLAY_DELETE_ID))) [].

(** [Session::cancel]. *)
Definition cancel (source : Z) : SM unit :=
  emit (finish (new_writer source WL_DATA_SOURCE_CANCELLED)) [].

(** [Session::offer_selection], to one device. *)
Definition offer_to (dev : Z) : SM unit :=
  w ← gets (fun w => w);
  match get dev (objects (ses w)) with
  | None => mret tt
  | Some (_, version) =>
    offer ← match selection (clip w) with
      | None => mret 0
      | Some sel =>
        offer ← require (free_server_id (objects (ses w))) TooManyObjects;
        register offer "wl_data_offer" version ServerToClient;;
        mod_ses (fun s => set_offers (<[offer := generation (clip w)]> (offers s)) s);;
        emit (finish (put_u32 offer (new_writer dev WL_DATA_DEVICE_DATA_OFFER))) [];;
        for_each (sel_mimes sel) (fun t =>
          emit (finish (put_string t (new_writer offer WL_DATA_OFFER_OFFER))) []);;
        mret offer
      end;
    emit (finish (put_u32 offer (new_writer dev WL_DATA_DEVICE_SELECTION))) []
  end.

Definition offer_selection (devs : list Z) : SM unit := for_each devs offer_to.

Definition read_word (r : ArgReader) : SM (Z * ArgReader) := lift (wire (read_u32 r)).
(** [r.string()?.unwrap_or("")]. *)
Definition read_text (r : ArgReader) : SM (string * ArgReader) :=
  '(o, r) ← lift (wire (read_string r));
  mret (default "" o, r).

(** ** [Session::serve], request by request *)
Definition serve_create_source (r : ArgReader) : SM unit :=
  s ← get_ses;
  reject_if (Z.of_nat (size (sources s)) >=? MAX_DATA_SOURCES_PER_SESSION)
    (ResourceLimit "too many data sources in one session");;
  '(id, _) ← read_word r;
  mod_ses (fun s => set_sources (<[id:=[]]> (sources s)) s).

Definition serve_get_device (r : ArgReader) : SM unit :=
  '(id, _) ← read_word r;
  mod_ses (fun s => set_devices (devices s ++ [id]) s).

Definition serve_offer (object : Z) (r : ArgReader) : SM unit :=
  '(mime, _) ← read_text r;
  s ← get_ses;
  types ← require (sources s !! object) (UnknownObject object);
  reject_if ((zlen types >=? MAX_MIME_TYPES) || (str_len mime >? MAX_MIME_BYTES))
    (ResourceLimit "a data source's types");;
  when (negb (existsb (String.eqb mime) types))
    (mod_ses (fun s => set_sources (<[object := types ++ [mime]]> (sources s)) s)).

Definition serve_source_destroy (object : Z) : SM unit :=
  mod_ses (fun s => set_sources (delete object (sources s)) s);;
  s ← get_ses;
  mod_clip (source_gone (sid s) object);;
  served_gone object.

Definition serve_set_selection (r : ArgReader) : SM unit :=
  '(source, _) ← read_word r;
  w ← gets (fun w => w);
  let s := ses w in
  reject_if (negb (source =? 0) && negb (bool_decide (is_Some (sources s !! source))))
    (Forbidden "set_selection names no data source of this client's");;
  if bool_decide (focus (clip w) = Some (sid s)) then
    sel ← (if source =? 0 then mret None
           else mimes ← unwrap (sources s !! source); mret (Some (mkSelection (sid s) source mimes None)));
    mod_clip (clip_set sel)
  else
    when (negb (source =? 0) && negb (is_some_and (selection (clip w)) (is_source (sid s) source)))
      (cancel source).

Definition serve_start_drag (r : ArgReader) : SM unit :=
  '(source, _) ← read_word r;
  s ← get_ses;
  when (bool_decide (is_Some (sources s !! source))) (cancel source).

Definition serve_release (object : Z) : SM unit :=
  mod_ses (fun s => set_devices (List.filter (fun d => negb (d =? object)) (devices s)) s);;
  served_gone object.

(** The descriptors left after the last is popped. *)
Definition serve_receive (object : Z) (r : ArgReader) (fds : list Z) : SM (list Z) :=
  '(mime, _) ← read_text r;
  w ← gets (fun w => w);
  match selection (clip w), last fds with
  | Some sel, Some fd =>
    when (bool_decide (offers (ses w) !! object = Some (generation (clip w)))
          && existsb (String.eqb mime) (sel_mimes sel))
      (mod_clip (push_action (Send (sel_owner sel) (sel_source sel) mime fd)))
  | _, _ => mret tt
  end;;
  mret (removelast fds).

Definition serve_offer_destroy (object : Z) : SM unit :=
  mod_ses (fun s => set_offers (delete object (offers s)) s);;
  remove_object object.

(** [Session::serve]: the descriptors it leaves. *)
Definition serve (iface request : string) (object : Z) (body : bytes) (fds : list Z) : SM (list Z) :=
  let r := new_reader body in
  let req i q := String.eqb iface i && String.eqb request q in
  if req "wl_data_device_manager" "create_data_source" then serve_create_source r;; mret fds
  else if req "wl_data_device_manager" "get_data_device" then serve_get_device r;; mret fds
  else if req "wl_data_source" "offer" then serve_offer object r;; mret fds
  else if req "wl_data_source" "destroy" then serve_source_destroy object;; mret fds
  else if req "wl_data_device" "set_selection" then serve_set_selection r;; mret fds
  else if req "wl_data_device" "start_drag" then serve_start_drag r;; mret fds
  else if req "wl_data_device" "release" then serve_release object;; mret fds
  else if req "wl_data_offer" "receive" then serve_receive object r fds
  else if req "wl_data_offer" "destroy" then serve_offer_destroy object;; mret fds
  else mret fds.

(** [Session::act]. *)
Definition act (a : Action) : SM unit :=
  w ← gets (fun w => w);
  let has source := bool_decide (is_Some (sources (ses w) !! source)) in
  match a with
  | Offer _ => when (bool_decide (focus (clip w) = Some (sid (ses w)))) (offer_selection (devices (ses w)))
  | Cancel _ source => when (has source) (cancel source)
  | Send _ source mime fd =>
    when (has source) (emit (finish (put_string mime (new_writer source WL_DATA_SOURCE_SEND))) [fd])
  end.

(** ** [Session::pump] *)
Section pump.
Context `{Os}.

(** The endpoint a direction reads, and the one it writes. *)
Definition src (dir : Dir) (s : Session) : Endpoint :=
  match dir with ClientToServer => client s | ServerToClient => server s end.
Definition set_src (dir : Dir) (e : Endpoint) (s : Session) : Session :=
  match dir with ClientToServer => set_client e s | ServerToClient => set_server e s end.
Definition flip (dir : Dir) : Dir :=
  match dir with ClientToServer => ServerToClient | ServerToClient => ClientToServer end.

(** What policy makes of a message: whether it goes on, what goes in its place, and what
    goes right behind it. *)
Record Verdict := mkVerdict {
  v_forward : bool;
  v_rewritten : option bytes;
  v_stamp : option bytes;
}.

(** A [wl_registry.bind] is of one advertised global, at most at its version; [false] when
    the proxy serves the interface itself. *)
Definition check_bind (body : bytes) (decoded : Decoded) : SM bool :=
  match d_new_object decoded, d_bind_version decoded with
  | Some (id, name), Some version =>
    s ← get_ses;
    max ← require (match allowed_version name (hold_awake s) with
                   | Some v => Some v
                   | None => own_version name
                   end) (HiddenInterface name);
    '(gname, _) ← read_word (new_reader body);
    g ← require (globals s !! gname)
          (HiddenInterface (name +:+ " (global " +:+ pretty gname +:+ " not advertised)"));
    let '(advertised, cap) := g in
    reject_if (negb (String.eqb advertised name) || (version =? 0))
      (HiddenInterface (name +:+ " v" +:+ pretty version +:+ " (global " +:+ pretty gname
        +:+ " advertises " +:+ advertised +:+ " v" +:+ pretty cap +:+ ")"));;
    let max := Z.min max cap in
    reject_if (version >? max) (VersionTooHigh name version max);;
    when (String.eqb name "wl_output")
      (mod_ses (fun s => set_outputs (<[id:=gname]> (outputs s)) s));;
    mret (negb (served name))
  | _, _ => fail (SWire ArgOverrun)
  end.

(** A toplevel's title or app_id, with the zone's name in it. *)
Definition retitle (h : Header) (m : Message) (decoded : Decoded) : SM (option bytes) :=
  s ← get_ses;
  match d_strings decoded with
  | [] => mret None
  | (_, t) :: _ =>
    let new := if String.eqb (m_name m) "set_title" then title_for (zone s) t
               else app_id_for (zone s) t in
    match finish (put_string new (new_writer (h_object h) (h_opcode h))) with
    | Some rebuilt =>
      mod_ses (fun s => set_rewritten (rewritten s + 1) s);;
      mret (Some rebuilt)
    | None => fail (SWire (BadSize (h_size h)))
    end
  end.

(** The requests that move pools, buffers and surfaces. *)
Definition account (h : Header) (iface : Interface) (m : Message) (body : bytes) (decoded : Decoded)
    (fds : list Z) : ShmM unit :=
  let req i q := String.eqb (i_name iface) i && String.eqb (m_name m) q in
  when (req "wl_shm" "create_pool") (create_pool body fds);;
  when (req "wl_shm_pool" "resize") (resize_pool (h_object h) body);;
  when (req "wl_shm_pool" "create_buffer") (create_buffer (h_object h) (fst <$> d_new_object decoded));;
  when (req "wl_surface" "attach") (attach (h_object h) body);;
  when (req "wl_surface" "commit") (commit (h_object h));;
  when (req "wl_subcompositor" "get_subsurface") (get_subsurface body);;
  when (String.eqb (i_name iface) "wl_subsurface") (subsurface_request (h_object h) (m_name m)).

(** [SET_APP_ID]: the request's opcode, from the tables. *)
Fixpoint position {A} (p : A -> bool) (l : list A) : option Z :=
  match l with
  | [] => None
  | x :: l => if p x then Some 0 else Z.succ <$> position p l
  end.
Definition SET_APP_ID : option Z :=
  i ← find "xdg_toplevel";
  as_u16 <$> position (fun r => String.eqb (m_name r) "set_app_id") (i_requests i).

(** The zone's app_id, stamped right behind a new toplevel. *)
Definition stamp_toplevel (decoded : Decoded) : SM (option bytes) :=
  match d_new_object decoded with
  | None => mret None
  | Some (id, _) =>
    opcode ← require SET_APP_ID (Forbidden "no xdg_toplevel.set_app_id in the tables");
    s ← get_ses;
    app_id ← require (finish (put_string (app_id_for (zone s) "") (new_writer id opcode)))
               (Forbidden "the zone's app_id does not fit a message");
    mret (Some app_id)
  end.

(** A request's policy, and the descriptors it leaves to go on. *)
Definition c2s_policy (h : Header) (iface : Interface) (m : Message) (body : bytes) (decoded : Decoded)
    (fds : list Z) : SM (Verdict * list Z) :=
  forward ← (if String.eqb (i_name iface) "wl_registry" && (h_opcode h =? WL_REGISTRY_BIND)
             then check_bind body decoded else mret true);
  '(forward, fds) ← (if served (i_name iface)
             then fds ← serve (i_name iface) (m_name m) (h_object h) body fds; mret (false, fds)
             else mret (forward, fds));
  rw ← (if String.eqb (i_name iface) "xdg_toplevel"
           && (String.eqb (m_name m) "set_title" || String.eqb (m_name m) "set_app_id")
        then retitle h m decoded else mret None);
  on_shm (account h iface m body decoded fds);;
  stamp ← (if String.eqb (i_name iface) "xdg_surface" && String.eqb (m_name m) "get_toplevel"
           then stamp_toplevel decoded else mret None);
  mret (mkVerdict forward rw stamp, fds).

(** A global of the compositor's: let through at most at the proxy's version, or hidden. *)
Definition hear_global (h : Header) (body : bytes) : SM (bool * option bytes) :=
  '(gname, r) ← read_word (new_reader body);
  '(iname, r) ← read_text r;
  '(version, _) ← read_word r;
  s ← get_ses;
  match allowed_version iname (hold_awake s) with
  | Some allowed =>
    let cap := Z.min allowed version in
    let rw := if negb (cap =? version)
              then finish (put_u32 cap (put_string iname (put_u32 gname (new_writer (h_object h) (h_opcode h)))))
              else None in
    let iface_static := from_option i_name "?" (find iname) in
    mod_ses (fun s => set_globals (<[gname := (iface_static, cap)]> (globals s)) s);;
    mret (true, rw)
  | None =>
    mod_ses (fun s => set_hidden_count (hidden_count s + 1) s);;
    mret (false, None)
  end.

(** A monitor's make, model and name, blanked. *)
Definition blank_output (h : Header) (m : Message) (body : bytes) : SM bytes :=
  let w := new_writer (h_object h) (h_opcode h) in
  w ← (if String.eqb (m_name m) "geometry" then
         '(x, r) ← read_word (new_reader body);
         '(y, r) ← read_word r;
         '(mm_w, r) ← read_word r;
         '(mm_h, r) ← read_word r;
         '(subpixel, r) ← read_word r;
         '(_, r) ← lift (wire (read_string r));
         '(_, r) ← lift (wire (read_string r));
         '(transform, r) ← read_word r;
         mret (put_u32 transform (put_string "" (put_string ""
           (put_u32 subpixel (put_u32 mm_h (put_u32 mm_w (put_u32 y (put_u32 x w))))))))
       else
         s ← get_ses;
         mret (put_string ("output-" +:+ pretty (default 0 (outputs s !! h_object h))) w));
  require (finish w) (SWire (BadSize (h_size h))).

(** An id the compositor freed: what it was is accounted for, and the id is free here. *)
Definition delete_id (body : bytes) : SM unit :=
  '(id, _) ← read_word (new_reader body);
  s ← get_ses;
  match get id (objects s) with
  | Some (i, _) =>
    if String.eqb (i_name i) "xdg_toplevel" then
      n ← usize_sub (toplevels s) 1; mod_ses (set_toplevels n)
    else if String.eqb (i_name i) "xdg_popup" then
      n ← usize_sub (popups s) 1; mod_ses (set_popups n)
    else mret tt
  | None => mret tt
  end;;
  mod_ses (fun s => set_outputs (delete id (outputs s)) s);;
  on_shm (delete_pool_id id);;
  on_shm (delete_buffer_id id);;
  on_shm (delete_surface id);;
  remove_object id.

(** [wl_keyboard.enter] and [leave]: the clipboard follows the keyboard. *)
Definition keyboard (iface : Interface) (m : Message) : SM unit :=
  when (String.eqb (i_name iface) "wl_keyboard" && String.eqb (m_name m) "enter") (
    s ← get_ses;
    mod_clip (set_focus (Some (sid s)));;
    offer_selection (devices s));;
  w ← gets (fun w => w);
  when (String.eqb (i_name iface) "wl_keyboard" && String.eqb (m_name m) "leave"
        && bool_decide (focus (clip w) = Some (sid (ses w))))
    (mod_clip (set_focus None)).

(** An event's policy. *)
Definition s2c_policy (h : Header) (iface : Interface) (m : Message) (body : bytes) : SM Verdict :=
  '(forward, rw) ← (if String.eqb (i_name iface) "wl_registry" && (h_opcode h =? WL_REGISTRY_GLOBAL)
                    then hear_global h body else mret (true, None));
  forward ← (if String.eqb (i_name iface) "wl_registry" && (h_opcode h =? WL_REGISTRY_GLOBAL_REMOVE)
             then '(gname, _) ← read_word (new_reader body);
                  s ← get_ses;
                  mret (bool_decide (is_Some (globals s !! gname)))
             else mret forward);
  rw ← (if String.eqb (i_name iface) "wl_output"
           && (String.eqb (m_name m) "geometry" || String.eqb (m_name m) "name"
               || String.eqb (m_name m) "description")
        then b ← blank_output h m body; mret (Some b) else mret rw);
  keyboard iface m;;
  let is_delete := (h_object h =? WL_DISPLAY) && (h_opcode h =? WL_DISPLAY_DELETE_ID) in
  ended ← (if is_delete then '(id, _) ← read_word (new_reader body); end_placeholder id
           else mret false);
  if (ended : bool) then mret (mkVerdict false rw None)
  else when is_delete (delete_id body);; mret (mkVerdict forward rw None).

(** The object a message creates; a new registry hears of the proxy's own globals, a served
    object reaches the compositor as a placeholder only. *)
Fixpoint own_globals (id : Z) (i : Z) (l : list (string * Z)) : SM unit :=
  match l with
  | [] => mret tt
  | (iface, v) :: l =>
    let gname := OWN_GLOBAL_BASE + i in
    mod_ses (fun s => set_globals (<[gname := (iface, v)]> (globals s)) s);;
    emit (finish (put_u32 v (put_string iface (put_u32 gname (new_writer id WL_REGISTRY_GLOBAL))))) [];;
    own_globals id (i + 1) l
  end.

Definition create_object (dir : Dir) (decoded : Decoded) (version : Z) (forward : bool) : SM unit :=
  match d_new_object decoded with
  | None => mret tt
  | Some (id, name) =>
    register id name (default version (d_bind_version decoded)) dir;;
    when (String.eqb name "wl_registry") (own_globals id 0 OWN_GLOBALS);;
    when (bool_decide (dir = ClientToServer) && negb forward) (
      placeholder id;;
      w ← gets (fun w => w);
      when (String.eqb name "wl_data_device" && bool_decide (focus (clip w) = Some (sid (ses w))))
        (offer_selection [id]))
  end.

(** The message, or what goes in its place, queued on the other side. *)
Definition pass_on (dir : Dir) (v : Verdict) (msg : bytes) (fds : list Z) : SM unit :=
  when (v_forward v) (
    let msg := default msg (v_rewritten v) in
    s ← get_ses;
    let dst := src (flip dir) s in
    let extra := from_option zlen 0 (v_stamp v) in
    reject_if (pending_out dst + zlen msg + extra >? MAX_PENDING_BYTES) (TooMuchPending dir);;
    reject_if (pending_fds dst + zlen fds >? MAX_PENDING_FDS) TooManyFds;;
    mod_ses (set_src (flip dir) (queue msg fds dst));;
    match v_stamp v with
    | Some stamp =>
      mod_ses (fun s => set_src (flip dir) (queue stamp [] (src (flip dir) s)) s);;
      mod_ses (fun s => set_rewritten (rewritten s + 1) s)
    | None => mret tt
    end;;
    mod_ses (fun s =>
      match dir with
      | ClientToServer => set_forwarded_c2s (forwarded_c2s s + 1) s
      | ServerToClient => set_forwarded_s2c (forwarded_s2c s + 1) s
      end)).

(** One message taken off the input: decoded, judged, and passed on. *)
Definition process (dir : Dir) (h : Header) (iface : Interface) (m : Message) (version : Z)
    (msg : bytes) (fds : list Z) : SM unit :=
  let body := drop (Z.to_nat HEADER_LEN) msg in
  decoded ← lift (wire (decode m body));
  '(v, fds) ← match dir with
    | ClientToServer => c2s_policy h iface m body decoded fds
    | ServerToClient => v ← s2c_policy h iface m body; mret (v, fds)
    end;
  create_object dir decoded version (v_forward v);;
  pass_on dir v msg fds.

(** The first [size] pending bytes. *)
Definition take_message (dir : Dir) (size : Z) : SM bytes :=
  s ← get_ses;
  let '(msg, e) := ep_take size (src dir s) in
  mod_ses (set_src dir e);;
  mret msg.

(** One turn of the loop: [false] when more input is needed. *)
Definition pump_one (dir : Dir) : SM bool :=
  s ← get_ses;
  let pending := pending_in (src dir s) in
  if zlen pending <? HEADER_LEN then mret false else
  h ← lift (wire (parse_header pending));
  if zlen pending <? h_size h then mret false else
  if bool_decide (dir = ServerToClient) && bool_decide (is_Some (placeholders s !! h_object h)) then
    take_message dir (h_size h);; mret true
  else
  '(iface, m, version) ← lift (lookup_message (h_object h) dir (h_opcode h) s);
  let needed := fd_count m in
  if zlen (in_fds (src dir s)) <? needed then mret false else
  msg ← take_message dir (h_size h);
  let fds := take (Z.to_nat needed) (in_fds (src dir s)) in
  mod_ses (fun s => set_src dir (set_in_fds (drop (Z.to_nat needed) (in_fds (src dir s))) (src dir s)) s);;
  process dir h iface m version msg fds;;
  mret true.

(** [Session::pump]: its loop, bounded by the bytes there are; running out of fuel would be
    a panic, see [pump_safe]. *)
Fixpoint pump_loop (fuel : nat) (dir : Dir) : SM unit :=
  match fuel with
  | O => panic
  | S fuel => more ← pump_one dir; if (more : bool) then pump_loop fuel dir else mret tt
  end.
Definition pump (dir : Dir) : SM unit :=
  s ← get_ses;
  pump_loop (S (length (pending_in (src dir s)))) dir.

(** [Session::refuse]: one fatal wl_display.error, then both sides closed. The answers of
    the kernel to its sendmsg calls are [ks]. *)
Definition refuse (why : string) (ks : list SendResult) : SM unit :=
  let text := "kryptik-wlproxy: " +:+ why in
  match finish (put_string text (put_u32 3 (put_u32 WL_DISPLAY (new_writer WL_DISPLAY WL_DISPLAY_ERROR)))) with
  | Some m =>
    mod_ses (fun s => set_client (queue m [] (client s)) s);;
    s ← get_ses;
    match flush ks (client s) with
    | (Panic, _, _) => panic
    | (_, e, _) => mod_ses (set_client e)
    end
  | None => mret tt
  end;;
  mod_ses (fun s => set_client (close_all (client s)).2 s);;
  mod_ses (fun s => set_server (close_all (server s)).2 s).
End pump.
