(* ===== verification/Demo.v ===== *)
(** * Concrete inputs

    A kernel that answers as Linux does for a memfd, a session of a zone [work], and messages
    of both sides: what the witnesses of the theorems about sessions evaluate. *)
From S2P Require Import Prelude Bytes Wire Protocol ProtocolTables WlPolicy Clipboard Endpoint.
From S2P Require Import Objects Pools Session.
Open Scope string_scope.
Open Scope list_scope.
Open Scope Z_scope.

Definition demo_os : Os := {|
  os_getfl _ _ := O_RDWR;
  os_fstatfs _ _ := Some TMPFS_MAGIC;
  os_get_seals _ _ := 0;
  os_fstat _ fd := Ok (1, fd);
  os_dupfd _ fd := Ok (fd + 100);
  os_fallocate _ _ _ := Ok tt;
  os_pick t := t;
|}.

(** A session as [accept] leaves it, with one more object as the client's second. *)
Definition demo_session (iface : Interface) : Session :=
  let s := default (mkSession "work" false 0 (new_endpoint 3) (new_endpoint 4)
      (new_objects (iface_wl_display, 1)) new_shm 0 0 ∅ ∅ ∅ [] ∅ ∅ 0 0 0 0) (new_session "work" 3 4) in
  set_objects (mkObjects [None; Some (iface_wl_display, 1); Some (iface, 1)] [] 2)
    (set_globals {[ 7 := ("wl_compositor", 4) ]} (set_outputs {[ 2 := 1 ]} s)).
Definition demo_world (iface : Interface) : World := mkWorld (demo_session iface) default_clipboard.

(** A message to or of the second object. *)
Definition demo_header (opcode : Z) (body : bytes) : Header := mkHeader 2 opcode (8 + zlen body).
Definition demo_message (opcode : Z) (body : bytes) : bytes :=
  encode_header (demo_header opcode body) ++ body.

Definition no_message : Message := mkMessage "" [] 0 1.
Definition request (iface : Interface) (opcode : Z) : Message :=
  default no_message (zlookup (i_requests iface) opcode).
Definition event (iface : Interface) (opcode : Z) : Message :=
  default no_message (zlookup (i_events iface) opcode).

Definition no_decoded : Decoded := default_decoded.
Definition demo_decoded (m : Message) (body : bytes) : Decoded :=
  match decode m body with Ok d => d | Err _ => no_decoded end.

(** What is left after one message of the second object. *)
Definition demo_after (dir : Dir) (iface : Interface) (opcode : Z) (body : bytes) : World :=
  snd (@process demo_os dir (demo_header opcode body) iface
         (match dir with ClientToServer => request iface opcode | ServerToClient => event iface opcode end)
         1 (demo_message opcode body) [] (demo_world iface)).
