(* ===== verification/SessionSafe.v ===== *)
(** * A session's invariant

    The counters of a session say what is live, every bound of policy.rs holds, every live
    object's interface is one a zone's client may reach, and no operation of a session can
    panic: not an index, not an unwrap, not a subtraction. *)
From S2P Require Import Prelude Bytes Wire Protocol ProtocolTables WlPolicy Clipboard Endpoint.
From S2P Require Import Objects Pools PoolsSafe Session.
Open Scope string_scope.
Open Scope list_scope.
Open Scope Z_scope.

(** ** The interfaces a zone's client can reach *)
Definition creates (i : Interface) : list string :=
  omap (fun a => match a with ANewId (Some n) => Some n | _ => None end)
    (mjoin (m_args <$> (i_requests i ++ i_events i))).
Definition mem (n : string) (l : list string) : bool := existsb (String.eqb n) l.
Definition widen (l : list string) : list string :=
  foldl (fun acc n => if mem n acc then acc else acc ++ [n]) l
    (mjoin ((fun n => from_option creates [] (find n)) <$> l)).
(** The display, what may be bound, and what their messages create, three steps down. *)
Definition reachable (hold_awake : bool) : list string :=
  Nat.iter 4 widen ("wl_display" :: (fst <$> ALLOWED) ++ (if hold_awake then [HOLD_AWAKE.1] else [])
    ++ (fst <$> OWN_GLOBALS)).

#[global] Opaque find.
#[global] Arguments reachable : simpl never.
#[global] Arguments creates : simpl never.

Lemma mem_spec n l : mem n l = true <-> n ∈ l.
Proof.
  unfold mem. rewrite existsb_exists. setoid_rewrite String.eqb_eq. setoid_rewrite <-list_elem_of_In.
  naive_solver.
Qed.

(** Four steps are enough: what a reachable interface creates is reachable. *)
Lemma reachable_closed b :
  forallb (fun n => forallb (fun n' => mem n' (reachable b)) (from_option creates [] (find n))) (reachable b) = true.
Proof. destruct b; vm_compute; done. Qed.

Lemma reachable_creates b i n :
  find (i_name i) = Some i -> i_name i ∈ reachable b -> n ∈ creates i -> n ∈ reachable b.
Proof.
  intros Hf Hi Hn. pose proof (reachable_closed b) as Hc. rewrite forallb_forall in Hc.
  specialize (Hc (i_name i) ltac:(by apply list_elem_of_In)). rewrite Hf in Hc. cbn [from_option] in Hc.
  rewrite forallb_forall in Hc. apply mem_spec, Hc. by apply list_elem_of_In.
Qed.

(** Holding the screen awake only adds interfaces. *)
Lemma reachable_mono n : n ∈ reachable false -> n ∈ reachable true.
Proof. revert n. apply Forall_forall. apply (bool_decide_unpack _). vm_compute. done. Qed.

Lemma creates_spec i m n :
  m ∈ i_requests i \/ m ∈ i_events i -> ANewId (Some n) ∈ m_args m -> n ∈ creates i.
Proof.
  intros Hm Ha. unfold creates. apply list_elem_of_omap. exists (ANewId (Some n)). split; [|done].
  apply list_elem_of_join. exists (m_args m). split; [done|]. apply list_elem_of_fmap.
  exists m. split; [done|]. by apply elem_of_app.
Qed.

Lemma bindable_reachable n b :
  is_Some (allowed_version n b) \/ is_Some (own_version n) -> n ∈ reachable b.
Proof.
  intros Hn. assert (n ∈ (fst <$> ALLOWED) ++ (if b then [HOLD_AWAKE.1] else []) ++ (fst <$> OWN_GLOBALS)) as Hin.
  { destruct Hn as [[v Hv]|[v Hv]].
    - unfold allowed_version in Hv. apply fmap_Some in Hv as ([n' v'] & Hf & _).
      apply List.find_some in Hf as [Hf Heq%String.eqb_eq]. simpl in Heq. subst n'.
      apply in_app_iff in Hf as [Hf|Hf]; rewrite !elem_of_app.
      + left. apply list_elem_of_fmap. exists (n, v'). split; [done|by apply list_elem_of_In].
      + right; left. destruct b; [|done]. destruct Hf as [Heq|[]].
        apply list_elem_of_singleton. by rewrite Heq.
    - unfold own_version in Hv. apply fmap_Some in Hv as ([n' v'] & Hf & _).
      apply List.find_some in Hf as [Hf Heq%String.eqb_eq]. simpl in Heq. subst n'.
      rewrite !elem_of_app. right; right. apply list_elem_of_fmap. exists (n, v'). split; [done|by apply list_elem_of_In]. }
  revert Hin. generalize n. clear. apply Forall_forall.
  apply (bool_decide_unpack _). destruct b; vm_compute; done.
Qed.

(** ** What [decode] says of the object a message creates *)
Definition creation (args : list Arg) (d : Decoded) : Prop :=
  match d_new_object d, d_bind_version d with
  | None, None => True
  | Some (_, n), None => ANewId (Some n) ∈ args
  | Some _, Some _ => ANewId None ∈ args
  | None, Some _ => False
  end.

Lemma decode_arg_creation all body a r d r' d' :
  decode_arg body a (r, d) = Ok (r', d') -> a ∈ all -> creation all d -> creation all d'.
Proof.
  intros Hd Ha Hc. destruct a as [| | |n|n|[n|]| |]; cbn [decode_arg] in Hd; try (by simplify_eq);
    apply result_bind_Ok in Hd as ([o r1] & Hr & Hd); try (by simplify_eq).
  - destruct o; [by simplify_eq|]. by destruct n; simplify_eq.
  - apply result_bind_Ok in Hd as (d1 & Hd1 & [= <- <-]). unfold created in Hd1.
    destruct (d_new_object d) as [?|] eqn:Hn; [done|]. simplify_eq.
    unfold creation in *. rewrite Hn in Hc. cbn. by destruct (d_bind_version d).
  - apply result_bind_Ok in Hd as (nm & Hnm & Hd).
    apply result_bind_Ok in Hd as ([v r2] & Hv & Hd).
    apply result_bind_Ok in Hd as ([id r3] & Hid & Hd).
    apply result_bind_Ok in Hd as (d1 & Hd1 & [= <- <-]). unfold created in Hd1. cbn in Hd1.
    destruct (d_new_object d) as [?|] eqn:Hn; [done|]. by simplify_eq.
Qed.

Lemma decode_args_creation all body args r d r' d' :
  decode_args body args (r, d) = Ok (r', d') -> (forall a, a ∈ args -> a ∈ all) ->
  creation all d -> creation all d'.
Proof.
  revert r d. induction args as [|a args IH]; intros r d Hd Hin Hc; cbn [decode_args] in Hd; [by simplify_eq|].
  apply result_bind_Ok in Hd as ([r1 d1] & Hd1 & Hd). eapply IH; [done|by intros; apply Hin; constructor|].
  eapply decode_arg_creation; [done|apply Hin; constructor|done].
Qed.

Lemma decode_creation m body d : decode m body = Ok d -> creation (m_args m) d.
Proof.
  unfold decode. intros Hd. apply result_bind_Ok in Hd as ([r1 d1] & Hd1 & Hd).
  destruct (reader_is_empty r1); simplify_eq. by eapply decode_args_creation.
Qed.

(** ** The invariant *)
Definition ep_fits (e : Endpoint) : Prop :=
  ep_ok e /\ pending_out e <= MAX_PENDING_BYTES /\ pending_fds e <= MAX_PENDING_FDS.

(** What a client may bind: an allowed interface at most at its version, or the proxy's own. *)
Definition global_ok (hold_awake : bool) (g : string * Z) : Prop :=
  (exists a, allowed_version g.1 hold_awake = Some a /\ g.2 <= a) \/ own_version g.1 = Some g.2.

(** What no message changes: the zone, and what the session has still to read. *)
Record Konst := mkKonst {
  k_awake : bool;
  k_zone : string;
  k_id : Z;
  k_client_in : bytes;
  k_server_in : bytes;
}.
Definition konst (s : Session) : Konst :=
  mkKonst (hold_awake s) (zone s) (sid s) (pending_in (client s)) (pending_in (server s)).

Record sess_ok (k : Konst) (s : Session) : Prop := {
  s_konst : konst s = k;
  s_client : ep_fits (client s);
  s_server : ep_fits (server s);
  s_objs : objs_ok (objects s);
  s_shm : Inv (shm s);
  s_top : toplevels s = obj_count (named "xdg_toplevel") (objects s);
  s_top_max : toplevels s <= MAX_TOPLEVELS_PER_SESSION;
  s_pop : popups s = obj_count (named "xdg_popup") (objects s);
  s_pop_max : popups s <= MAX_POPUPS_PER_SESSION;
  s_place : forall id n, placeholders s !! id = Some n -> 1 <= n;
  s_globals : forall id g, globals s !! id = Some g -> global_ok (k_awake k) g;
  s_reach : forall id ob, get id (objects s) = Some ob -> i_name ob.1 ∈ reachable (k_awake k);
}.
Definition WInv (k : Konst) (w : World) : Prop := sess_ok k (ses w).

Lemma new_session_ok zone c v s : new_session zone c v = Some s -> sess_ok (mkKonst false zone 0 [] []) s.
Proof.
  intros Hs. assert (find "wl_display" = Some iface_wl_display) as Hf by (vm_compute; done).
  unfold new_session in Hs. rewrite Hf in Hs. simpl in Hs. injection Hs as <-.
  assert (forall fd, ep_fits (new_endpoint fd)) as He by (intros; split; [apply new_endpoint_ok|done]).
  split; cbn [client server objects shm toplevels popups placeholders globals hold_awake];
    try apply He; try apply new_shm_ok; try done; try (intros ? ?; by rewrite lookup_empty).
  - by apply new_objects_ok.
  - intros id ob Hob. pose proof (get_nonneg _ _ _ Hob). unfold get, slots, new_objects in Hob.
    cbn [o_client o_server] in Hob. revert Hob. case_bool; intros Hob.
    + destruct (zlookup _ _) as [o|] eqn:Hz; [|done]. simpl in Hob. subst o.
      apply zlookup_Some in Hz as [_ Hz]. destruct (Z.to_nat id) as [|[|?]]; simplify_eq/=.
      apply mem_spec. vm_compute. done.
    + destruct (zlookup _ _) as [o|] eqn:Hz; [|done]. apply zlookup_bound in Hz.
      unfold zlen in Hz. simpl in Hz. lia.
Qed.

Lemma ep_fits_queue msg fds e :
  ep_fits e -> 0 < zlen msg <= BATCH_BYTES -> zlen fds <= BATCH_FDS ->
  pending_out e + zlen msg <= MAX_PENDING_BYTES -> pending_fds e + zlen fds <= MAX_PENDING_FDS ->
  ep_fits (queue msg fds e).
Proof. intros (H1 & H2 & H3) Hm Hf Hb Hn. split; [by apply queue_ok|done]. Qed.

Lemma finish_size w m : finish w = Some m -> 0 < zlen m <= BATCH_BYTES.
Proof.
  intros (_ & Hl & Hm)%finish_Some. pose proof (zlen_nonneg (mw_body w)). unfold BATCH_BYTES. lia.
Qed.

(** A changed field the invariant does not mention, or changed within its bounds. *)
Ltac frame := let Hs := fresh in intros Hs; destruct Hs; split; try done.

Section sess_ok.
Context (k : Konst) (s : Session).
Lemma sess_ok_client e :
  ep_fits e -> pending_in e = pending_in (client s) -> sess_ok k s -> sess_ok k (set_client e s).
Proof. intros He Hin. frame. by subst k; unfold konst; cbn; rewrite Hin. Qed.
Lemma sess_ok_server e :
  ep_fits e -> pending_in e = pending_in (server s) -> sess_ok k s -> sess_ok k (set_server e s).
Proof. intros He Hin. frame. by subst k; unfold konst; cbn; rewrite Hin. Qed.
Lemma sess_ok_src dir e :
  ep_fits e -> pending_in e = pending_in (src dir s) -> sess_ok k s -> sess_ok k (set_src dir e s).
Proof. destruct dir; [apply sess_ok_client|apply sess_ok_server]. Qed.
Lemma sess_ok_shm v : Inv v -> sess_ok k s -> sess_ok k (set_shm v s).
Proof. intros Hv. by frame. Qed.
Lemma sess_ok_outputs v : sess_ok k s -> sess_ok k (set_outputs v s).
Proof. by frame. Qed.
Lemma sess_ok_sources v : sess_ok k s -> sess_ok k (set_sources v s).
Proof. by frame. Qed.
Lemma sess_ok_devices v : sess_ok k s -> sess_ok k (set_devices v s).
Proof. by frame. Qed.
Lemma sess_ok_offers v : sess_ok k s -> sess_ok k (set_offers v s).
Proof. by frame. Qed.
Lemma sess_ok_hidden v : sess_ok k s -> sess_ok k (set_hidden_count v s).
Proof. by frame. Qed.
Lemma sess_ok_rewritten v : sess_ok k s -> sess_ok k (set_rewritten v s).
Proof. by frame. Qed.
Lemma sess_ok_c2s v : sess_ok k s -> sess_ok k (set_forwarded_c2s v s).
Proof. by frame. Qed.
Lemma sess_ok_s2c v : sess_ok k s -> sess_ok k (set_forwarded_s2c v s).
Proof. by frame. Qed.
Lemma sess_ok_globals id g :
  global_ok (k_awake k) g -> sess_ok k s -> sess_ok k (set_globals (<[id:=g]> (globals s)) s).
Proof.
  intros Hg. frame. intros id' g'. cbn. destruct (decide (id = id')) as [<-|]; intros; simplify_map_eq; eauto.
Qed.
Lemma sess_ok_src_fits dir : sess_ok k s -> ep_fits (src dir s).
Proof. intros []. by destruct dir. Qed.
End sess_ok.
#[export] Hint Resolve sess_ok_shm sess_ok_outputs sess_ok_sources sess_ok_devices sess_ok_offers
  sess_ok_hidden sess_ok_rewritten sess_ok_c2s sess_ok_s2c : kryptik.

(** An operation on the session alone, and on the clipboard alone. *)
Lemma keeps_mod_ses k f : (forall s, sess_ok k s -> sess_ok k (f s)) -> keeps (WInv k) (mod_ses f).
Proof. intros Hf w Hw. by apply Hf. Qed.
Lemma keeps_mod_clip k f : keeps (WInv k) (mod_clip f).
Proof. by intros w Hw. Qed.
Lemma keeps_get_ses k : keeps (WInv k) get_ses.
Proof. by intros w Hw. Qed.
Lemma wp_on_shm {A} (m : ShmM A) Q R w :
  wp m (fun a sh => Q a (mkWorld (set_shm sh (ses w)) (clip w)))
       (fun e sh => R e (mkWorld (set_shm sh (ses w)) (clip w))) (shm (ses w)) ->
  wp (on_shm m) Q R w.
Proof. unfold wp, on_shm. by destruct (m _) as [[?|?|] ?]. Qed.
Lemma keeps_on_shm {A} k (m : ShmM A) : keeps Inv m -> keeps (WInv k) (on_shm m).
Proof.
  intros Hm w Hw. apply wp_on_shm. eapply wp_mono; [..|eapply Hm, s_shm, Hw];
    intros ? sh Hsh; by apply sess_ok_shm.
Qed.
#[export] Hint Resolve keeps_mod_clip keeps_get_ses keeps_on_shm : kryptik.

(** ** Operations *)
Lemma keeps_emit k msg fds :
  (forall m, msg = Some m -> 0 < zlen m <= BATCH_BYTES) -> zlen fds <= BATCH_FDS ->
  keeps (WInv k) (emit msg fds).
Proof.
  intros Hm Hf w Hw. unfold emit, get_ses, mod_ses. wp_step. wp_step; [|done]. do 3 wp_step.
  wp_step; [done|]. wp_step. wp_step; [done|]. wp_step. specialize (Hm a ltac:(done)).
  apply sess_ok_client; [|done|done]. apply ep_fits_queue; [apply (s_client _ _ Hw)|done..|lia|lia].
Qed.

Lemma keeps_emit_finish k mw fds : zlen fds <= BATCH_FDS -> keeps (WInv k) (emit (finish mw) fds).
Proof. intros Hf. apply keeps_emit; [|done]. intros m. apply finish_size. Qed.

Lemma keeps_emit_only k mw : keeps (WInv k) (emit (finish mw) []).
Proof. by apply keeps_emit_finish. Qed.

Lemma obj_count_named n f (o o' : Objects) ob :
  (forall f : Obj -> bool, obj_count f o' = obj_count f o + if f ob then 1 else 0) ->
  i_name ob.1 = n -> obj_count (named f) o' = obj_count (named f) o + if String.eqb n f then 1 else 0.
Proof. intros Hc <-. by rewrite Hc. Qed.

Lemma keeps_register k id name version dir :
  name ∈ reachable (k_awake k) -> keeps (WInv k) (register id name version dir).
Proof.
  intros Hr w Hw. unfold register, get_ses, mod_ses. wp_step. wp_step; [done|]. wp_step.
  wp_step; [|done]. rename a into iface. destruct (find_Some _ _ H0) as [Hin Hname]. subst name.
  do 3 wp_step. wp_step; [done|]. wp_step. wp_step; [done|]. wp_step. wp_step; [|done].
  destruct (insert_obj_Ok _ _ _ _ H3) as (_ & _ & Hget & Hcnt & _).
  destruct Hw. pose proof (insert_obj_ok id (iface, version) (objects (ses w)) a (find_name iface Hin) s_objs0 H3) as Hok.
  assert (forall id ob, get id a = Some ob -> i_name ob.1 ∈ reachable (k_awake k)) as Hreach.
  { intros j ob. rewrite Hget. case_bool; [by intros [= <-]|eauto]. }
  pose proof (obj_count_named _ "xdg_toplevel" _ _ _ Hcnt eq_refl) as Ht.
  pose proof (obj_count_named _ "xdg_popup" _ _ _ Hcnt eq_refl) as Hp. cbn [fst] in Ht, Hp.
  unfold MAX_TOPLEVELS_PER_SESSION, MAX_POPUPS_PER_SESSION in *.
  do 3 wp_step. clear Hget Hcnt.
  destruct (String.eqb (i_name iface) "xdg_toplevel") eqn:Et,
    (String.eqb (i_name iface) "xdg_popup") eqn:Ep; cbn [andb when] in *; repeat wp_step;
    try (apply String.eqb_eq in Et, Ep; congruence);
    split; cbn; unfold MAX_TOPLEVELS_PER_SESSION, MAX_POPUPS_PER_SESSION; try done; lia.
Qed.

#[export] Hint Resolve keeps_emit_only : kryptik.

(** Objects whose removal no counter notices. *)
Definition plain (id : Z) (o : Objects) : Prop :=
  forall ob, get id o = Some ob -> named "xdg_toplevel" ob = false /\ named "xdg_popup" ob = false.

Lemma wp_remove_object k id w :
  WInv k w -> plain id (objects (ses w)) ->
  wp (remove_object id) (fun _ => WInv k) (fun _ _ => False) w.
Proof.
  intros Hw Hp. unfold remove_object, get_ses, mod_ses. do 3 wp_step.
  destruct (remove_obj_ok id _ (s_objs _ _ Hw)) as (o & Ho & Hok & Hget & Hcnt).
  eapply wp_unwrap; [exact Ho|]. wp_step. destruct Hw.
  assert (is_some_and (get id (objects (ses w))) (named "xdg_toplevel") = false /\
          is_some_and (get id (objects (ses w))) (named "xdg_popup") = false) as [Ht Hpp].
  { unfold plain in Hp. destruct (get id _) as [ob|]; [|done]. simpl. by apply Hp. }
  split; cbn; try done.
  - rewrite Hcnt, Ht. lia.
  - rewrite Hcnt, Hpp. lia.
  - intros j ob. rewrite Hget. case_bool; [done|eauto].
Qed.

Lemma keeps_placeholder k id : keeps (WInv k) (placeholder id).
Proof.
  intros w Hw. unfold placeholder, get_ses, mod_ses. wp_step. wp_step; [|done]. do 3 wp_step.
  wp_step; [done|]. do 3 wp_step. pose proof (finish_size _ _ H) as Hm.
  pose proof (sess_ok_server k (ses w) (queue a [] (server (ses w)))) as Hs.
  destruct Hs; try done.
  { destruct (s_server _ _ Hw) as (? & ? & ?). apply ep_fits_queue; try done; change (zlen (@nil Z)) with 0; lia. }
  split; cbn in *; try done. intros j n. destruct (decide (id = j)) as [<-|]; [|intros; simplify_map_eq; eauto].
  rewrite lookup_insert_eq. intros [= <-].
  destruct (placeholders (ses w) !! id) as [c|] eqn:Hc; simpl; [|done].
  pose proof (s_place _ _ Hw _ _ Hc). lia.
Qed.

Lemma keeps_end_placeholder k id : keeps (WInv k) (end_placeholder id).
Proof.
  intros w Hw. unfold end_placeholder, get_ses, mod_ses. do 2 wp_step.
  destruct (placeholders (ses w) !! id) as [n|] eqn:Hn; [|by wp_steps].
  pose proof (s_place _ _ Hw _ _ Hn). wp_step. apply wp_usize_sub; [lia|]. do 3 wp_step.
  revert Hw. unfold WInv. cbn. frame. cbn. intros j c. case_bool.
  - intros [_ Hc]%lookup_delete_Some. eauto.
  - destruct (decide (id = j)) as [<-|]; intros; simplify_map_eq; [lia|eauto].
Qed.

Lemma keeps_cancel k source : keeps (WInv k) (cancel source).
Proof. apply keeps_emit_only. Qed.
#[export] Hint Resolve keeps_placeholder keeps_end_placeholder keeps_cancel : kryptik.

Lemma data_offer_reachable b : "wl_data_offer" ∈ reachable b.
Proof. apply mem_spec. destruct b; vm_compute; done. Qed.

Lemma keeps_register_offer k id version dir : keeps (WInv k) (register id "wl_data_offer" version dir).
Proof. apply keeps_register, data_offer_reachable. Qed.
#[export] Hint Resolve keeps_register_offer : kryptik.

#[export] Hint Extern 2 (keeps _ (mod_ses _)) => apply keeps_mod_ses; intros ? ?; solve [eauto with kryptik] : kryptik.

Lemma keeps_offer_selection k devs : keeps (WInv k) (offer_selection devs).
Proof. unfold offer_selection, offer_to. keeps_steps. Qed.
#[export] Hint Resolve keeps_offer_selection : kryptik.

(** *** Serving the data device objects *)
Lemma wp_served_gone k id w :
  WInv k w -> plain id (objects (ses w)) -> wp (served_gone id) (fun _ => WInv k) (fun _ => WInv k) w.
Proof.
  intros Hw Hp. unfold served_gone. wp_step.
  eapply wp_mono; [..|by apply wp_remove_object]; [|done]. intros [] w' Hw'. by apply keeps_emit_only.
Qed.

Lemma keeps_serve_simple k object r :
  keeps (WInv k) (serve_create_source r) /\ keeps (WInv k) (serve_get_device r) /\
  keeps (WInv k) (serve_offer object r) /\ keeps (WInv k) (serve_start_drag r).
Proof.
  unfold serve_create_source, serve_get_device, serve_offer, serve_start_drag, read_text, read_word.
  split_and!; keeps_steps.
Qed.

Lemma keeps_serve_set_selection k r : keeps (WInv k) (serve_set_selection r).
Proof.
  unfold serve_set_selection, read_word. apply keeps_bind; [apply keeps_lift|intros [source r']].
  intros w Hw. do 3 wp_step. wp_step; [done|]. case_bool.
  - wp_step. case_bool; [by wp_steps|].
    destruct (sources (ses w) !! source) as [mimes|] eqn:Hs.
    + wp_step. eapply wp_unwrap; [done|]. wp_steps. done.
    + by rewrite bool_decide_eq_false_2 in H by (by intros [? ?]).
  - apply (keeps_when (WInv k)); [|done]. intros _. apply keeps_cancel.
Qed.

Lemma keeps_serve_receive k object r fds w :
  WInv k w ->
  wp (serve_receive object r fds) (fun fds' w' => WInv k w' /\ fds' = removelast fds) (fun _ => WInv k) w.
Proof.
  intros Hw. unfold serve_receive, read_text. wp_step. wp_step. wp_step; [|done]. destruct a as [o r'].
  do 4 wp_step. apply (wp_mono _ (fun _ => WInv k) _ (fun _ => WInv k)); [|done|].
  - intros [] w' Hw'. wp_step. auto.
  - destruct (selection _) as [sel|], (last fds) as [fd|]; wp_steps; done.
Qed.

(** What [serve] is called on is a served object, which no counter counts. *)
Lemma wp_serve k iface request object body fds w :
  WInv k w -> plain object (objects (ses w)) ->
  wp (serve iface request object body fds) (fun fds' w' => WInv k w' /\ (fds' = fds \/ fds' = removelast fds))
    (fun _ => WInv k) w.
Proof.
  intros Hw Hp. unfold serve.
  destruct (keeps_serve_simple k object (new_reader body)) as (H1 & H2 & H3 & H4).
  assert (forall m : SM unit, wp m (fun _ => WInv k) (fun _ => WInv k) w ->
    wp (m;; mret fds) (fun fds' w' => WInv k w' /\ (fds' = fds \/ fds' = removelast fds)) (fun _ => WInv k) w) as Hret.
  { intros m Hm. wp_step. eapply wp_mono; [..|apply Hm]; [|done]. intros [] w' Hw'. wp_step. auto. }
  repeat case_bool; try apply Hret; try by auto.
  - unfold serve_source_destroy, get_ses, mod_ses, mod_clip. do 6 wp_step.
    apply wp_served_gone; [|done]. by apply sess_ok_sources.
  - by apply keeps_serve_set_selection.
  - unfold serve_release, mod_ses. do 2 wp_step. apply wp_served_gone; [|done]. by apply sess_ok_devices.
  - eapply wp_mono; [..|by apply keeps_serve_receive]; [|done]. naive_solver.
  - unfold serve_offer_destroy, mod_ses. do 2 wp_step.
    eapply wp_mono; [..|apply (wp_remove_object k)]; [done..| |done]. by apply sess_ok_offers.
  - wp_step. auto.
Qed.

Lemma keeps_act k a : keeps (WInv k) (act a).
Proof.
  unfold act. apply keeps_bind; [apply keeps_gets|intros w]. destruct a; keeps_steps.
  by apply keeps_emit_finish.
Qed.

(** *** Requests *)

(** Only the first request of [wl_registry] lets the client name an interface. *)
Definition bind_is_first (i : Interface) : bool :=
  let free m := forallb (fun a => negb (is_bind_arg a)) (m_args m) in
  forallb free (i_events i)
  && forallb free (if String.eqb (i_name i) "wl_registry" then drop 1 (i_requests i) else i_requests i).

Lemma tables_bind : forallb bind_is_first INTERFACES = true.
Proof. vm_compute. done. Qed.

Lemma bind_arg_first i m :
  i ∈ INTERFACES -> ANewId None ∈ m_args m ->
  (m ∉ i_events i) /\
  (forall n, zlookup (i_requests i) n = Some m -> i_name i = "wl_registry" /\ n = 0).
Proof.
  intros Hi Ha. pose proof tables_bind as H. rewrite forallb_forall in H.
  specialize (H i ltac:(by apply list_elem_of_In)). apply andb_true_iff in H as [He Hr].
  assert (forall l, forallb (fun m => forallb (fun a => negb (is_bind_arg a)) (m_args m)) l = true -> m ∉ l) as Hno.
  { intros l Hl Hm. rewrite forallb_forall in Hl. specialize (Hl m ltac:(by apply list_elem_of_In)).
    rewrite forallb_forall in Hl. by specialize (Hl _ ltac:(by apply list_elem_of_In)). }
  split; [by apply Hno|]. intros n [Hn Hl]%zlookup_Some. apply Hno in Hr.
  destruct (String.eqb_spec (i_name i) "wl_registry"); [|by destruct Hr; eapply list_elem_of_lookup_2].
  split; [done|]. destruct (Z.to_nat n) as [|j] eqn:Hj; [lia|]. destruct Hr.
  apply list_elem_of_lookup. exists j. by rewrite lookup_drop.
Qed.

(** The object a message creates is of an interface the client may reach. *)
Definition new_ok (b : bool) (d : Decoded) : Prop :=
  forall id n, d_new_object d = Some (id, n) -> n ∈ reachable b.

Lemma new_ok_static b i m d :
  find (i_name i) = Some i -> i_name i ∈ reachable b -> m ∈ i_requests i \/ m ∈ i_events i ->
  creation (m_args m) d -> d_bind_version d = None -> new_ok b d.
Proof.
  intros Hf Hr Hm Hc Hb id n Hn. unfold creation in Hc. rewrite Hn, Hb in Hc.
  eapply reachable_creates; [done..|]. by eapply creates_spec.
Qed.

Lemma wp_check_bind k body d w :
  WInv k w -> wp (check_bind body d)
    (fun _ w' => WInv k w' /\ objects (ses w') = objects (ses w) /\ new_ok (k_awake k) d) (fun _ => WInv k) w.
Proof.
  intros Hw. unfold check_bind, get_ses, mod_ses, read_word.
  destruct (d_new_object d) as [[id name]|] eqn:Hn, (d_bind_version d) as [v|]; try by wp_step.
  do 3 wp_step. wp_step; [|done]. wp_step. wp_step; [|done]. destruct a0 as [gname r]. wp_step. wp_step; [|done].
  destruct a0 as [adv cap]. wp_step. wp_step; [done|]. wp_step. wp_step; [done|].
  assert (new_ok (k_awake k) d) as Hok.
  { intros id' n' Hn'. assert (n' = name) as -> by congruence. apply bindable_reachable.
    rewrite <-(s_konst _ _ Hw). cbn [konst k_awake]. revert H.
    destruct (allowed_version name (hold_awake (ses w))); intros; [left|right]; by eexists. }
  wp_steps; [|done]. split; [by apply sess_ok_outputs|done].
Qed.

Lemma wp_retitle k h m d w :
  WInv k w ->
  wp (retitle h m d) (fun rw w' => WInv k w' /\ forall x, rw = Some x -> 0 < zlen x <= BATCH_BYTES) (fun _ => WInv k) w.
Proof.
  intros Hw. unfold retitle, get_ses, mod_ses. do 2 wp_step. destruct (d_strings d) as [|[? t] ?]; [by wp_step|].
  destruct (finish _) as [x|] eqn:Hf; [|by wp_step]. wp_steps. split; [by apply sess_ok_rewritten|].
  intros y [= <-]. by eapply finish_size.
Qed.

Lemma wp_stamp_toplevel k d w :
  WInv k w ->
  wp (stamp_toplevel d) (fun st w' => WInv k w' /\ forall x, st = Some x -> 0 < zlen x <= BATCH_BYTES) (fun _ => WInv k) w.
Proof.
  intros Hw. unfold stamp_toplevel, get_ses. destruct (d_new_object d) as [[id n]|]; [|by wp_step].
  wp_step. wp_step; [|done]. do 3 wp_step. wp_step; [|done]. wp_step. split; [done|].
  intros y [= <-]. by eapply finish_size.
Qed.

Lemma keeps_account `{Os} h iface m body d fds : keeps Inv (account h iface m body d fds).
Proof. unfold account. keeps_steps. Qed.
#[export] Hint Resolve keeps_account : kryptik.

Definition verdict_ok (v : Verdict) : Prop :=
  (forall x, v_rewritten v = Some x -> 0 < zlen x <= BATCH_BYTES) /\
  (forall x, v_stamp v = Some x -> 0 < zlen x <= BATCH_BYTES).

Lemma served_plain iface version id o :
  get id o = Some (iface, version) -> served (i_name iface) = true -> plain id o.
Proof.
  intros Hg Hs ob Hob. assert (ob = (iface, version)) as -> by congruence.
  unfold served, SERVED in Hs. unfold named. cbn [fst]. apply existsb_exists in Hs as (n & Hin & Hn).
  apply String.eqb_eq in Hn. subst n. repeat (destruct Hin as [<-|Hin]; [done|]). done.
Qed.

(** What [lookup_message] found, and [decode] read. *)
Definition found (dir : Dir) (h : Header) (iface : Interface) (m : Message) (version : Z) (o : Objects) : Prop :=
  get (h_object h) o = Some (iface, version) /\
  zlookup (match dir with ClientToServer => i_requests iface | ServerToClient => i_events iface end)
    (h_opcode h) = Some m.

Lemma found_static k dir h iface m version s d :
  sess_ok k s -> found dir h iface m version (objects s) -> creation (m_args m) d ->
  d_bind_version d = None -> new_ok (k_awake k) d.
Proof.
  intros Hs [Hg Hm] Hc Hb. apply zlookup_Some in Hm as [_ Hm].
  eapply (new_ok_static _ iface m); [by eapply (ok_find _ (s_objs _ _ Hs) _ _ Hg)
    |by eapply (s_reach _ _ Hs _ _ Hg)| |done|done].
  destruct dir; [left|right]; by eapply list_elem_of_lookup_2.
Qed.

Section safe.
Context `{Os}.

(** The registry's bind, and any other request: what policy asks of it first. *)
Lemma wp_c2s_bind k h iface m version body d w :
  WInv k w -> found ClientToServer h iface m version (objects (ses w)) -> creation (m_args m) d ->
  wp (if String.eqb (i_name iface) "wl_registry" && (h_opcode h =? WL_REGISTRY_BIND)
      then check_bind body d else mret true)
    (fun _ w' => WInv k w' /\ objects (ses w') = objects (ses w) /\ new_ok (k_awake k) d) (fun _ => WInv k) w.
Proof.
  intros Hw Hf Hc. case_bool; [by apply wp_check_bind|]. wp_step. do 2 (split; [done|]).
  destruct (d_bind_version d) as [v|] eqn:Hv; [|by eapply found_static].
  exfalso. destruct Hf as [Hg Hm]. unfold creation in Hc. rewrite Hv in Hc.
  destruct (d_new_object d) as [[? ?]|]; [|done].
  assert (iface ∈ INTERFACES) as Hi by (eapply find_Some, (ok_find _ (s_objs _ _ Hw) _ _ Hg)).
  destruct (bind_arg_first iface m Hi Hc) as [_ Hz]. destruct (Hz _ Hm) as [Hn Ho].
  by rewrite Hn, Ho in Hb.
Qed.

Lemma wp_c2s_serve k h iface m version body fds forward w :
  WInv k w -> get (h_object h) (objects (ses w)) = Some (iface, version) -> zlen fds <= BATCH_FDS ->
  wp (if served (i_name iface)
      then fds ← serve (i_name iface) (m_name m) (h_object h) body fds; mret (false, fds)
      else mret (forward, fds))
    (fun r w' => WInv k w' /\ zlen r.2 <= BATCH_FDS) (fun _ => WInv k) w.
Proof.
  intros Hw Hg Hf. case_bool; [|wp_step; done]. wp_step.
  eapply wp_mono; [..|apply wp_serve; [done|by eapply served_plain]]; [|done].
  intros fds' w' [Hw' Hfds]. wp_step. split; [done|]. cbn. destruct Hfds as [->| ->]; [done|].
  transitivity (zlen fds); [|done]. destruct (last fds) as [x|] eqn:Hl.
  - apply last_Some in Hl as [l ->]. rewrite removelast_last, zlen_app. change (zlen [x]) with 1. lia.
  - by apply last_None in Hl as ->.
Qed.

(** A request the proxy accepts leaves a verdict whose messages fit. *)
Lemma wp_c2s_policy k h iface m version body d fds w :
  WInv k w -> found ClientToServer h iface m version (objects (ses w)) -> creation (m_args m) d ->
  zlen fds <= BATCH_FDS ->
  wp (c2s_policy h iface m body d fds)
    (fun r w' => WInv k w' /\ verdict_ok r.1 /\ zlen r.2 <= BATCH_FDS /\ new_ok (k_awake k) d)
    (fun _ => WInv k) w.
Proof.
  intros Hw Hf Hc Hfds. unfold c2s_policy. wp_step.
  eapply wp_mono; [..|by apply (wp_c2s_bind k h iface m version)]; [|done].
  intros forward w1 (Hw1 & Ho & Hnew). wp_step.
  eapply wp_mono; [..|apply (wp_c2s_serve k h iface m version); [done| |done]]; [|done|]; cycle 1.
  { rewrite Ho. apply Hf. }
  intros [fw fds'] w2 [Hw2 Hfds']. wp_step.
  apply (wp_mono _ (fun rw w' => WInv k w' /\ forall x, rw = Some x -> 0 < zlen x <= BATCH_BYTES)
    _ (fun _ => WInv k)); [|done|]; cycle 1.
  { case_bool; [by apply wp_retitle|by wp_step]. }
  intros rw w3 [Hw3 Hrw]. wp_step.
  eapply wp_mono; [..|apply (keeps_on_shm k _ (keeps_account h iface m body d fds')); done]; [|done].
  intros [] w4 Hw4. wp_step.
  apply (wp_mono _ (fun rw w' => WInv k w' /\ forall x, rw = Some x -> 0 < zlen x <= BATCH_BYTES)
    _ (fun _ => WInv k)); [|done|]; cycle 1.
  { case_bool; [by apply wp_stamp_toplevel|by wp_step]. }
  intros stamp w5 [Hw5 Hst]. wp_step. done.
Qed.

(** *** Events *)
Lemma allowed_found : forallb (fun n => match find n with Some i => String.eqb (i_name i) n | None => false end)
  ((fst <$> ALLOWED) ++ [HOLD_AWAKE.1]) = true.
Proof. vm_compute. done. Qed.

Lemma allowed_name n b a : allowed_version n b = Some a -> from_option i_name "?" (find n) = n.
Proof.
  intros Ha. pose proof allowed_found as H1. rewrite forallb_forall in H1.
  unfold allowed_version in Ha. apply fmap_Some in Ha as ([n' v] & Hf & _).
  apply List.find_some in Hf as [Hin Heq%String.eqb_eq]. simpl in Heq. subst n'.
  specialize (H1 n). destruct (find n) as [i|]; simpl.
  - apply String.eqb_eq, H1. apply in_app_iff in Hin as [Hin|Hin]; apply in_app_iff.
    + left. by apply (in_map fst) in Hin.
    + right. destruct b; [|done]. destruct Hin as [->|[]]. by left.
  - discriminate H1. apply in_app_iff in Hin as [Hin|Hin]; apply in_app_iff.
    + left. by apply (in_map fst) in Hin.
    + right. destruct b; [|done]. destruct Hin as [->|[]]. by left.
Qed.

Lemma wp_hear_global k h body w :
  WInv k w ->
  wp (hear_global h body) (fun r w' => WInv k w' /\ forall x, r.2 = Some x -> 0 < zlen x <= BATCH_BYTES)
    (fun _ => WInv k) w.
Proof.
  intros Hw. unfold hear_global, read_word, read_text, get_ses, mod_ses.
  wp_step. wp_step; [|done]. destruct a as [gname r]. wp_step. wp_step. wp_step; [|done]. destruct a as [o r2].
  do 2 wp_step. wp_step; [|done]. destruct a as [version r3]. do 2 wp_step.
  destruct (allowed_version _ _) as [a|] eqn:Ha; wp_steps.
  - split.
    + apply sess_ok_globals; [|done]. left. exists a. cbn [fst snd].
      rewrite (allowed_name _ _ _ Ha). rewrite <-(s_konst _ _ Hw). cbn [konst k_awake]. split; [done|lia].
    + intros x. case_bool; [|done]. apply finish_size.
  - split; [by apply sess_ok_hidden|done].
Qed.

Lemma wp_blank_output k h m body w :
  WInv k w ->
  wp (blank_output h m body) (fun x w' => WInv k w' /\ 0 < zlen x <= BATCH_BYTES) (fun _ => WInv k) w.
Proof.
  intros Hw. unfold blank_output. wp_step.
  apply (wp_mono _ (fun _ => WInv k) _ (fun _ => WInv k)); [|done|]; cycle 1.
  { apply keeps_wp; [|done]. unfold read_word. keeps_steps. }
  intros mw w' Hw'. wp_step; [|done]. split; [done|]. by eapply finish_size.
Qed.

Lemma keeps_keyboard k iface m : keeps (WInv k) (keyboard iface m).
Proof. unfold keyboard. keeps_steps. Qed.

(** The session is well formed once the id's object is removed. *)
Definition leaving (k : Konst) (id : Z) (s : Session) : Prop :=
  exists o, remove_obj id (objects s) = Some o /\ sess_ok k (set_objects o s).

Lemma leaving_counted k id s t p :
  sess_ok k s ->
  t = toplevels s - (if is_some_and (get id (objects s)) (named "xdg_toplevel") then 1 else 0) ->
  p = popups s - (if is_some_and (get id (objects s)) (named "xdg_popup") then 1 else 0) ->
  leaving k id (set_popups p (set_toplevels t s)).
Proof.
  intros Hs Ht Hp. destruct (remove_obj_ok id _ (s_objs _ _ Hs)) as (o & Ho & Hok & Hget & Hcnt).
  exists o. split; [done|]. destruct Hs. split; cbn; try done.
  - rewrite Hcnt. lia.
  - revert Ht. case_bool; lia.
  - rewrite Hcnt. lia.
  - revert Hp. case_bool; lia.
  - intros j ob. rewrite Hget. case_bool; [done|eauto].
Qed.

Lemma counted_pos f id s i v :
  get id (objects s) = Some (i, v) -> String.eqb (i_name i) f = true ->
  1 <= obj_count (named f) (objects s).
Proof.
  intros Hg Hf. pose proof (get_weight (named f) _ _ _ Hg) as Hw.
  change (named f (i, v)) with (String.eqb (i_name i) f) in Hw. by rewrite Hf in Hw.
Qed.

Lemma wp_uncount k id w :
  WInv k w ->
  wp (match get id (objects (ses w)) with
      | Some (i, _) =>
        if String.eqb (i_name i) "xdg_toplevel" then
          n ← usize_sub (toplevels (ses w)) 1; mod_ses (set_toplevels n)
        else if String.eqb (i_name i) "xdg_popup" then
          n ← usize_sub (popups (ses w)) 1; mod_ses (set_popups n)
        else mret tt
      | None => mret tt
      end)
    (fun _ w' => leaving k id (ses w')) (fun _ _ => False) w.
Proof.
  intros Hw. unfold mod_ses. pose proof (fun t p => leaving_counted k id (ses w) t p Hw) as Hl.
  assert (forall s, leaving k id (set_popups (popups s) (set_toplevels (toplevels s) s)) -> leaving k id s) as Heta
    by (by intros []).
  destruct (get id (objects (ses w))) as [[i v]|] eqn:Hg; cbn [is_some_and] in Hl; cycle 1.
  { wp_step. apply Heta, (Hl (toplevels (ses w)) (popups (ses w))); lia. }
  change (named "xdg_toplevel" (i, v)) with (String.eqb (i_name i) "xdg_toplevel") in Hl.
  change (named "xdg_popup" (i, v)) with (String.eqb (i_name i) "xdg_popup") in Hl. revert Hl.
  destruct (String.eqb (i_name i) "xdg_toplevel") eqn:Et, (String.eqb (i_name i) "xdg_popup") eqn:Ep;
    intros Hl.
  - apply String.eqb_eq in Et, Ep. congruence.
  - pose proof (counted_pos _ _ _ _ _ Hg Et) as Hc. rewrite <-(s_top _ _ Hw) in Hc.
    wp_step. apply wp_usize_sub; [done|]. wp_step. apply (Hl (toplevels (ses w) - 1) (popups (ses w))); lia.
  - pose proof (counted_pos _ _ _ _ _ Hg Ep) as Hc. rewrite <-(s_pop _ _ Hw) in Hc.
    wp_step. apply wp_usize_sub; [done|]. wp_step. apply (Hl (toplevels (ses w)) (popups (ses w) - 1)); lia.
  - wp_step. apply Heta, (Hl (toplevels (ses w)) (popups (ses w))); lia.
Qed.

Lemma leaving_shm k id m w :
  (forall s, Inv s -> wp m (fun _ => Inv) (fun _ _ => False) s) -> leaving k id (ses w) ->
  wp (on_shm m) (fun (_ : unit) w' => leaving k id (ses w')) (fun _ _ => False) w.
Proof.
  intros Hm (o & Ho & Hs). apply wp_on_shm. eapply wp_mono; [..|apply Hm, (s_shm _ _ Hs)]; [|done].
  intros [] sh Hsh. exists o. split; [done|]. by apply (sess_ok_shm k (set_objects o (ses w)) sh) in Hs.
Qed.

Lemma keeps_delete_id k body : keeps (WInv k) (delete_id body).
Proof.
  intros w Hw. unfold delete_id, read_word, get_ses. wp_step. wp_step; [|done]. destruct a as [id r].
  do 3 wp_step. eapply wp_mono; [..|by apply wp_uncount]; [|done]. intros [] w1 Hl.
  unfold mod_ses. do 3 wp_step.
  assert (leaving k id (set_outputs (delete id (outputs (ses w1))) (ses w1))) as Hl1.
  { destruct Hl as (o & Ho & Hs). exists o. split; [done|].
    by apply (sess_ok_outputs k (set_objects o (ses w1)) (delete id (outputs (ses w1)))) in Hs. }
  eapply wp_mono; [..|apply leaving_shm; [apply wp_delete_pool_id|exact Hl1]]; [|done]. intros [] w2 Hl2. wp_step.
  eapply wp_mono; [..|apply leaving_shm; [apply wp_delete_buffer_id|exact Hl2]]; [|done]. intros [] w3 Hl3. wp_step.
  eapply wp_mono; [..|apply leaving_shm; [apply wp_delete_surface|exact Hl3]]; [|done].
  intros [] w4 (o & Ho & Hs). unfold remove_object, get_ses, mod_ses. do 3 wp_step.
  eapply wp_unwrap; [exact Ho|]. wp_step. exact Hs.
Qed.
End safe.
#[export] Hint Resolve keeps_keyboard keeps_delete_id : kryptik.

Section pump_safe.
Context `{Os}.

Lemma wp_s2c_policy k h iface m body w :
  WInv k w -> wp (s2c_policy h iface m body) (fun v w' => WInv k w' /\ verdict_ok v) (fun _ => WInv k) w.
Proof.
  intros Hw. unfold s2c_policy. wp_step.
  apply (wp_mono _ (fun r w' => WInv k w' /\ forall x, r.2 = Some x -> 0 < zlen x <= BATCH_BYTES)
    _ (fun _ => WInv k)); [|done|]; cycle 1.
  { case_bool; [by apply wp_hear_global|by wp_step]. }
  intros [forward rw] w1 [Hw1 Hrw]. wp_step.
  apply (wp_mono _ (fun _ => WInv k) _ (fun _ => WInv k)); [|done|]; cycle 1.
  { apply keeps_wp; [|done]. unfold read_word. keeps_steps. }
  intros forward' w2 Hw2. wp_step.
  apply (wp_mono _ (fun rw w' => WInv k w' /\ forall x, rw = Some x -> 0 < zlen x <= BATCH_BYTES)
    _ (fun _ => WInv k)); [|done|]; cycle 1.
  { case_bool; [|by wp_step]. wp_step. eapply wp_mono; [..|by apply wp_blank_output]; [|done].
    intros x w' [Hw' Hx]. wp_step. split; [done|]. by intros y [= <-]. }
  intros rw' w3 [Hw3 Hrw']. wp_step. eapply wp_mono; [..|by apply keeps_keyboard]; [|done].
  intros [] w4 Hw4. cbv zeta. wp_step.
  apply (wp_mono _ (fun _ => WInv k) _ (fun _ => WInv k)); [|done|]; cycle 1.
  { apply keeps_wp; [|done]. unfold read_word. keeps_steps. }
  intros ended w5 Hw5. case_bool; [by wp_step|]. wp_step.
  apply (wp_mono _ (fun _ => WInv k) _ (fun _ => WInv k)); [|done|].
  - intros [] w6 Hw6. by wp_step.
  - apply keeps_wp; [|done]. keeps_steps.
Qed.

Lemma keeps_own_globals k id : keeps (WInv k) (own_globals id 0 OWN_GLOBALS).
Proof.
  unfold OWN_GLOBALS. cbn [own_globals]. keeps_steps. apply keeps_mod_ses. intros s Hs.
  apply sess_ok_globals; [by right|done].
Qed.

Lemma keeps_create_object k dir d version forward :
  new_ok (k_awake k) d -> keeps (WInv k) (create_object dir d version forward).
Proof.
  intros Hd. unfold create_object. destruct (d_new_object d) as [[id n]|] eqn:Hn; [|apply keeps_ret].
  apply keeps_bind; [by eapply keeps_register, Hd|intros _]. pose proof (keeps_own_globals k id). keeps_steps.
Qed.

Lemma keeps_pass_on k dir v msg fds :
  verdict_ok v -> 0 < zlen msg <= BATCH_BYTES -> zlen fds <= BATCH_FDS ->
  keeps (WInv k) (pass_on dir v msg fds).
Proof.
  intros [Hv1 Hv2] Hm Hf w Hw. unfold pass_on. wp_step; [|done]. cbv zeta.
  set (msg' := default msg (v_rewritten v)).
  assert (0 < zlen msg' <= BATCH_BYTES) as Hm' by (subst msg'; destruct (v_rewritten v); simpl; auto).
  pose proof (sess_ok_src_fits k (ses w) (flip dir) Hw) as Hfit. pose proof (zlen_nonneg fds).
  unfold get_ses, mod_ses. do 3 wp_step. wp_step; [done|]. wp_step. wp_step; [done|]. do 3 wp_step.
  assert (0 <= from_option zlen 0 (v_stamp v)) by (destruct (v_stamp v); [apply zlen_nonneg|done]).
  assert (sess_ok k (set_src (flip dir) (queue msg' fds (src (flip dir) (ses w))) (ses w))) as Hs1.
  { apply sess_ok_src; [|done|done]. apply ep_fits_queue; (done || lia). }
  apply (wp_mono _ (fun _ => WInv k) _ (fun _ => WInv k)); [|done|].
  - intros [] w' Hw'. wp_step. destruct dir; [by apply sess_ok_c2s|by apply sess_ok_s2c].
  - destruct (v_stamp v) as [st|] eqn:Hst; [|by wp_step]. do 3 wp_step. apply sess_ok_rewritten.
    specialize (Hv2 _ eq_refl). cbn [from_option] in *.
    pose proof (sess_ok_src_fits k _ (flip dir) Hs1) as Hfit1.
    apply sess_ok_src; [|done|exact Hs1]. apply ep_fits_queue; [done..| |].
    + destruct dir; cbn in *; rewrite ?zlen_app; lia.
    + destruct dir; cbn in *; change (zlen (@nil Z)) with 0; lia.
Qed.

Lemma keeps_process k dir h iface m version msg fds w :
  WInv k w -> found dir h iface m version (objects (ses w)) ->
  0 < zlen msg <= BATCH_BYTES -> zlen fds <= BATCH_FDS ->
  wp (process dir h iface m version msg fds) (fun _ => WInv k) (fun _ => WInv k) w.
Proof.
  intros Hw Hf Hm Hfds. unfold process. cbv zeta. wp_step. wp_step; [|done].
  assert (creation (m_args m) a) as Hc.
  { destruct (decode _ _) as [d|] eqn:Hd; [|done]. simplify_eq/=. by eapply decode_creation. }
  wp_step.
  apply (wp_mono _ (fun r w' => WInv k w' /\ verdict_ok r.1 /\ zlen r.2 <= BATCH_FDS /\ new_ok (k_awake k) a)
    _ (fun _ => WInv k)); [|done|].
  - intros [v fds'] w1 (Hw1 & Hv & Hl & Hn). apply keeps_wp; [|done].
    apply keeps_bind; [by apply keeps_create_object|intros _; by apply keeps_pass_on].
  - destruct dir; [by eapply wp_c2s_policy|]. wp_step.
    eapply wp_mono; [..|by apply wp_s2c_policy]; [|done]. intros v w' [Hw' Hv]. wp_step. split_and!; try done.
    destruct (d_bind_version a) as [?|] eqn:Hb; [|exact (found_static _ _ _ _ _ _ _ _ Hw Hf Hc Hb)].
    exfalso. unfold creation in Hc. rewrite Hb in Hc. destruct (d_new_object a) as [[? ?]|]; [|done].
    destruct Hf as [Hg Hl]. apply zlookup_Some in Hl as [_ Hl%list_elem_of_lookup_2].
    by destruct (bind_arg_first iface m) as [Hno _]; [eapply find_Some, (ok_find _ (s_objs _ _ Hw) _ _ Hg)|done|].
Qed.

(** *** The loop *)
Definition input (dir : Dir) (k : Konst) : bytes :=
  match dir with ClientToServer => k_client_in k | ServerToClient => k_server_in k end.
Definition set_input (dir : Dir) (v : bytes) (k : Konst) : Konst :=
  match dir with
  | ClientToServer => mkKonst (k_awake k) (k_zone k) (k_id k) v (k_server_in k)
  | ServerToClient => mkKonst (k_awake k) (k_zone k) (k_id k) (k_client_in k) v
  end.

Lemma input_pending k dir s : sess_ok k s -> pending_in (src dir s) = input dir k.
Proof. intros []. subst k. by destruct dir. Qed.

(** The session after some of one side's input was taken. *)
Lemma sess_ok_input k dir e s :
  ep_fits e -> sess_ok k s -> sess_ok (set_input dir (pending_in e) k) (set_src dir e s).
Proof. intros He Hs. destruct Hs. subst k. by destruct dir; split. Qed.

Lemma ep_fits_in_fds fds e : ep_fits e -> ep_fits (set_in_fds fds e).
Proof. by intros ([] & ? & ?). Qed.

Lemma ep_take_fits n e :
  ep_fits e -> 0 <= n <= zlen (pending_in e) ->
  ep_fits (ep_take n e).2 /\ (ep_take n e).1 = take (Z.to_nat n) (pending_in e) /\
  pending_in (ep_take n e).2 = drop (Z.to_nat n) (pending_in e).
Proof.
  intros (Hok & Hb & Hf) Hn. pose proof (ep_in _ Hok) as Hin. unfold pending_in in Hn.
  rewrite zlen_drop in Hn by done. unfold ep_take, pending_in, slice.
  split_and!; cbn [fst snd].
  - destruct Hok. case_bool; (split; [split|]); cbn; try done; lia.
  - cbn. do 2 f_equal. lia.
  - rewrite drop_drop. case_bool; cbn; rewrite ?drop_nil.
    + rewrite drop_ge; [done|]. unfold zlen in *. lia.
    + f_equal. lia.
Qed.

Lemma wp_take_message k dir n w :
  WInv k w -> 0 <= n <= zlen (input dir k) ->
  wp (take_message dir n)
    (fun msg w' => WInv (set_input dir (drop (Z.to_nat n) (input dir k)) k) w' /\
       msg = take (Z.to_nat n) (input dir k) /\ objects (ses w') = objects (ses w) /\
       in_fds (src dir (ses w')) = in_fds (src dir (ses w)) /\ clip w' = clip w) (fun _ _ => False) w.
Proof.
  intros Hw Hn. unfold take_message, get_ses, mod_ses. do 2 wp_step.
  pose proof (input_pending k dir _ Hw) as Hp.
  destruct (ep_take_fits n (src dir (ses w))) as (H1 & H2 & H3); [by eapply sess_ok_src_fits|by rewrite Hp|].
  pose proof (sess_ok_input k dir _ _ H1 Hw) as Hs.
  assert (in_fds (ep_take n (src dir (ses w))).2 = in_fds (src dir (ses w))) as Hfd
    by (unfold ep_take; cbn; by case_bool).
  destruct (ep_take n (src dir (ses w))) as [msg e]. cbn [fst snd] in *. do 3 wp_step.
  rewrite H3, Hp in Hs. rewrite <-Hp at 2. split_and!; [exact Hs|by rewrite H2|by destruct dir..].
Qed.

(** A session of the same zone and connection, all in order. *)
Definition steady (k : Konst) (w : World) : Prop :=
  exists k', WInv k' w /\ k_awake k' = k_awake k /\ k_zone k' = k_zone k /\ k_id k' = k_id k.

Lemma steady_input k dir v w : WInv (set_input dir v k) w -> steady k w.
Proof. intros Hw. exists (set_input dir v k). by destruct dir. Qed.

Lemma lookup_found id dir opcode s iface m version h :
  h_object h = id -> h_opcode h = opcode ->
  lookup_message id dir opcode s = Ok (iface, m, version) -> found dir h iface m version (objects s).
Proof.
  intros <- <-. unfold lookup_message, found.
  destruct (get _ _) as [[i v]|]; [|done]. destruct (zlookup _ _) as [m'|] eqn:Hm; [|done].
  case_bool; [done|]. intros [= -> -> ->]. by destruct dir.
Qed.

Lemma found_fds k dir h iface m version s :
  sess_ok k s -> found dir h iface m version (objects s) -> 0 <= fd_count m <= 1.
Proof.
  intros Hs [Hg Hm]. apply message_ok_fds, (interface_message_ok iface).
  - eapply find_Some, (ok_find _ (s_objs _ _ Hs) _ _ Hg).
  - apply zlookup_Some in Hm as [_ Hm%list_elem_of_lookup_2]. destruct dir; auto.
Qed.

(** One turn keeps the session in order, and takes at least a header off the input. *)
Lemma wp_pump_one k dir w :
  WInv k w ->
  wp (pump_one dir)
    (fun more w' => exists v, WInv (set_input dir v k) w' /\
       (more = true -> zlen v + HEADER_LEN <= zlen (input dir k)) /\ (more = false -> v = input dir k))
    (fun _ => steady k) w.
Proof.
  intros Hw. pose proof (input_pending k dir _ Hw) as Hp.
  assert (WInv (set_input dir (input dir k) k) w) as Hw' by (by destruct k, dir).
  unfold pump_one, get_ses. do 2 wp_step. cbv zeta. rewrite Hp.
  case_bool; [wp_step; by exists (input dir k)|]. wp_step. wp_step; [|by eapply steady_input].
  rename a into h. assert (valid_header h) as (_ & _ & Hsz & _).
  { destruct (parse_header _) eqn:Hh; [|done]. simplify_eq/=. by apply parse_header_Ok in Hh as [? _]. }
  case_bool; [wp_step; by exists (input dir k)|].
  assert (0 <= h_size h <= zlen (input dir k)) as Hn by (unfold HEADER_LEN in *; lia).
  assert (zlen (drop (Z.to_nat (h_size h)) (input dir k)) + HEADER_LEN <= zlen (input dir k)) as Hless
    by (rewrite zlen_drop by done; unfold HEADER_LEN in *; lia).
  case_bool.
  { wp_step. eapply wp_mono; [..|by apply (wp_take_message k)]; [|done].
    intros msg w1 (Hw1 & _). wp_step. by eexists. }
  wp_step. wp_step; [|by eapply steady_input]. destruct a as [[iface m] version].
  pose proof (lookup_found _ _ _ _ _ _ _ h eq_refl eq_refl H1) as Hf.
  pose proof (found_fds _ _ _ _ _ _ _ Hw Hf) as Hfd.
  case_bool; [wp_step; by exists (input dir k)|]. wp_step.
  eapply wp_mono; [..|by apply (wp_take_message k)]; [|done]. intros msg w1 (Hw1 & -> & Ho & Hin & _).
  unfold mod_ses. do 3 wp_step.
  set (k1 := set_input dir (drop (Z.to_nat (h_size h)) (input dir k)) k) in *.
  eapply wp_mono; [..|apply (keeps_process k1)].
  - intros [] w2 Hw2. wp_step.
    exists (drop (Z.to_nat (h_size h)) (input dir k)). split_and!; [exact Hw2|by intros _|done].
  - intros e w2. apply steady_input.
  - apply sess_ok_src; [|done|done]. apply ep_fits_in_fds. by eapply sess_ok_src_fits.
  - cbn. replace (objects (set_src dir _ _)) with (objects (ses w1)) by (by destruct dir). by rewrite Ho.
  - rewrite zlen_take by done. unfold HEADER_LEN, BATCH_BYTES in *. lia.
  - unfold zlen. rewrite length_take. unfold BATCH_FDS. lia.
Qed.

Lemma set_input_twice dir v v' k : set_input dir v' (set_input dir v k) = set_input dir v' k.
Proof. by destruct dir. Qed.
Lemma input_set dir v k : input dir (set_input dir v k) = v.
Proof. by destruct dir. Qed.
Lemma steady_set dir v k w : steady (set_input dir v k) w -> steady k w.
Proof. by destruct dir. Qed.

(** The loop ends, with the session in order, whether it succeeds or fails. *)
Lemma wp_pump_loop fuel k dir w :
  WInv k w -> zlen (input dir k) < Z.of_nat fuel ->
  wp (pump_loop fuel dir) (fun _ => steady k) (fun _ => steady k) w.
Proof.
  revert k w. induction fuel as [|fuel IH]; intros k w Hw Hf; [pose proof (zlen_nonneg (input dir k)); lia|].
  cbn [pump_loop]. wp_step. eapply wp_mono; [..|by apply wp_pump_one]; [|done].
  intros more w1 (v & Hw1 & Hless & _). destruct more; [|wp_step; by eapply steady_input].
  specialize (Hless eq_refl). eapply wp_mono; [..|apply (IH _ _ Hw1)].
  - intros ? ?. apply steady_set.
  - intros ? ?. apply steady_set.
  - rewrite input_set. unfold HEADER_LEN in Hless. lia.
Qed.

Lemma wp_pump k dir w : WInv k w -> wp (pump dir) (fun _ => steady k) (fun _ => steady k) w.
Proof.
  intros Hw. unfold pump, get_ses. do 2 wp_step. apply wp_pump_loop; [done|].
  rewrite (input_pending k dir _ Hw). unfold zlen. lia.
Qed.
End pump_safe.
