(* ===== verification/SessionSpec.v ===== *)
(** * What a session lets through

    The messages one side's request or event puts on the other side's queue: titles and
    app_ids carry the zone's name, a new toplevel is stamped at once, what the proxy serves
    never reaches the compositor, a bind is of an advertised interface, monitors are blank. *)
From S2P Require Import Prelude Bytes Wire Protocol ProtocolTables WlPolicy Clipboard Endpoint.
From S2P Require Import Objects Pools PoolsSafe Session SessionSafe Demo.
Open Scope string_scope.
Open Scope list_scope.
Open Scope Z_scope.

(** What is queued to the compositor and to the client. *)
Definition to_server (w : World) : bytes * list Z := (out_bytes (server (ses w)), out_fds (server (ses w))).
Definition to_client (w : World) : bytes * list Z := (out_bytes (client (ses w)), out_fds (client (ses w))).
Definition sent_also (q : bytes * list Z) (msg : bytes) (fds : list Z) : bytes * list Z :=
  (q.1 ++ msg, q.2 ++ fds).

Lemma queue_bytes msg fds e : out_bytes (queue msg fds e) = out_bytes e ++ msg.
Proof. unfold out_bytes. cbn. apply push_batch_fst. Qed.
Lemma queue_fds msg fds e : out_fds (queue msg fds e) = out_fds e ++ fds.
Proof. unfold out_fds. cbn. apply push_batch_snd. Qed.

#[global] Arguments queue : simpl never.
#[global] Arguments out_bytes : simpl never.
#[global] Arguments out_fds : simpl never.

(** ** Operations that leave a queue alone *)
Definition quiet {T A} (q : World -> T) (m : SM A) : Prop :=
  forall w a w', m w = (Done a, w') -> q w' = q w.

Lemma quiet_bind {T A B} (q : World -> T) (m : SM A) (f : A -> SM B) :
  quiet q m -> (forall a, quiet q (f a)) -> quiet q (m ≫= f).
Proof. intros Hm Hf w b w' (a & w1 & H1 & H2)%bind_Done. etransitivity; [by eapply Hf|by eapply Hm]. Qed.
Lemma quiet_ret {T A} (q : World -> T) (a : A) : quiet q (mret a).
Proof. by intros w b w' [_ <-]%ret_Done. Qed.
Lemma quiet_gets {T A} (q : World -> T) (f : World -> A) : quiet q (gets f).
Proof. by intros w b w' [_ <-]%gets_Done. Qed.
Lemma quiet_lift {T A} (q : World -> T) (r : result A SessionError) : quiet q (lift r).
Proof. by intros w b w' [_ <-]%lift_Done. Qed.
Lemma quiet_require {T A} (q : World -> T) (o : option A) e : quiet q (require o e).
Proof. by intros w b w' [_ <-]%require_Done. Qed.
Lemma quiet_unwrap {T A} (q : World -> T) (o : option A) : quiet q (unwrap o).
Proof. by intros w b w' [_ <-]%unwrap_Done. Qed.
Lemma quiet_usize_sub {T} (q : World -> T) a b : quiet q (usize_sub a b).
Proof. by intros w c w' (_ & _ & <-)%usize_sub_Done. Qed.
Lemma quiet_reject_if {T} (q : World -> T) b e : quiet q (reject_if b e).
Proof. by intros w c w' [_ <-]%reject_if_Done. Qed.
Lemma quiet_fail {T A} (q : World -> T) e : quiet q (@fail World SessionError A e).
Proof. by intros w c w' []%fail_Done. Qed.
Lemma quiet_when {T} (q : World -> T) b m : (b = true -> quiet q m) -> quiet q (when b m).
Proof. intros Hm w u w' H%when_Done. destruct b; [by eapply Hm|by subst]. Qed.
Lemma quiet_for_each {T A} (q : World -> T) (l : list A) f : (forall x, quiet q (f x)) -> quiet q (for_each l f).
Proof. intros Hf. induction l; simpl; [apply quiet_ret|]. by apply quiet_bind. Qed.
Lemma quiet_modify {T} (q : World -> T) f : (forall w, q (f w) = q w) -> quiet q (modify f).
Proof. intros Hf w u w' <-%modify_Done. apply Hf. Qed.
Lemma quiet_on_shm {T A} (q : World -> T) (m : ShmM A) :
  (forall w s, q (mkWorld (set_shm s (ses w)) (clip w)) = q w) -> quiet q (on_shm m).
Proof. intros Hq w a w'. unfold on_shm. destruct (m _) as [r s]. intros [= -> <-]. apply Hq. Qed.

Ltac quiet_step :=
  cbv beta zeta;
  lazymatch goal with
  | |- quiet _ (_ ≫= _) => apply quiet_bind; [|intros ?]
  | |- quiet _ (mret _) => apply quiet_ret
  | |- quiet _ (gets _) => apply quiet_gets
  | |- quiet _ get_ses => apply quiet_gets
  | |- quiet _ (lift _) => apply quiet_lift
  | |- quiet _ (require _ _) => apply quiet_require
  | |- quiet _ (unwrap _) => apply quiet_unwrap
  | |- quiet _ (usize_sub _ _) => apply quiet_usize_sub
  | |- quiet _ (reject_if _ _) => apply quiet_reject_if
  | |- quiet _ (fail _) => apply quiet_fail
  | |- quiet _ (when _ _) => apply quiet_when; intros ?
  | |- quiet _ (for_each _ _) => apply quiet_for_each; intros ?
  | |- quiet _ (on_shm _) => by apply quiet_on_shm
  | |- quiet _ (mod_ses _) => by apply quiet_modify
  | |- quiet _ (mod_clip _) => by apply quiet_modify
  | |- quiet _ (if ?b then _ else _) => destruct b eqn:?
  | |- quiet _ (match ?x with _ => _ end) => destruct x eqn:?
  | |- quiet _ _ => solve [eauto with kryptik]
  end.
Ltac quiet_steps := repeat quiet_step.

(** The compositor's queue: only [placeholder] and [pass_on] write to it. *)
Lemma quiet_emit msg fds : quiet to_server (emit msg fds).
Proof. unfold emit. quiet_steps. Qed.
Lemma quiet_register {T} (q : World -> T) id n v dir :
  (forall w f, (forall s, client (f s) = client s /\ server (f s) = server s) ->
    q (mkWorld (f (ses w)) (clip w)) = q w) ->
  quiet q (register id n v dir).
Proof.
  intros Hq. assert (forall f, (forall s, client (f s) = client s /\ server (f s) = server s) -> quiet q (mod_ses f)) as Hm.
  { intros f Hf. apply quiet_modify. intros w. by apply Hq. }
  unfold register. repeat first [by apply Hm|quiet_step].
Qed.
Lemma quiet_register_server id n v dir : quiet to_server (register id n v dir).
Proof. apply quiet_register. intros w f Hf. unfold to_server. cbn. by destruct (Hf (ses w)) as [_ ->]. Qed.
Lemma quiet_register_client id n v dir : quiet to_client (register id n v dir).
Proof. apply quiet_register. intros w f Hf. unfold to_client. cbn. by destruct (Hf (ses w)) as [-> _]. Qed.
#[export] Hint Resolve quiet_emit quiet_register_server quiet_register_client : kryptik.

(** A message of one string, as [MessageWriter] builds it. *)
Definition string_message (object opcode : Z) (s : string) : bytes :=
  encode_header (mkHeader object opcode (HEADER_LEN + zlen (enc_string s))) ++ enc_string s.

Lemma finish_string o c s x : finish (put_string s (new_writer o c)) = Some x -> x = string_message o c s.
Proof.
  intros Hf. assert (str_len s < U32_MAX) as Hs.
  { apply finish_Some in Hf as (_ & Hl & Hm). unfold MAX_MESSAGE_LEN in Hm.
    unfold put_string in Hl. cbn [mw_body new_writer] in Hl. rewrite pad_loop_spec in Hl.
    rewrite !zlen_app, zlen_bytes_of_u32 in Hl. change (zlen (as_bytes s)) with (str_len s) in Hl.
    change (zlen (@nil byte)) with 0 in Hl. change (zlen [x00]) with 1 in Hl.
    match type of Hl with context [zlen (padding ?n)] => pose proof (zlen_nonneg (padding n)) end. lia. }
  rewrite put_string_spec in Hf by done. cbn [mw_body new_writer app] in Hf.
  apply finish_Some in Hf as (Hx & Hl & _). cbn [mw_object mw_opcode mw_body new_writer] in *.
  unfold string_message, HEADER_LEN. by rewrite <-Hl.
Qed.

Section spec.
Context `{Os}.

(** ** One request, from the client's queue to the compositor's *)
Lemma quiet_served_gone id : quiet to_server (served_gone id).
Proof. unfold served_gone, remove_object. quiet_steps. Qed.
Lemma quiet_offer_selection l : quiet to_server (offer_selection l).
Proof. unfold offer_selection, offer_to. quiet_steps. Qed.
Lemma quiet_cancel source : quiet to_server (cancel source).
Proof. apply quiet_emit. Qed.
Hint Resolve quiet_served_gone quiet_offer_selection quiet_cancel : kryptik.

Lemma quiet_serve iface request object body fds : quiet to_server (serve iface request object body fds).
Proof.
  unfold serve, serve_create_source, serve_get_device, serve_offer, serve_source_destroy,
    serve_set_selection, serve_start_drag, serve_release, serve_receive, serve_offer_destroy,
    remove_object, read_text, read_word. quiet_steps.
Qed.
Hint Resolve quiet_serve : kryptik.

Lemma quiet_c2s_policy h iface m body d fds : quiet to_server (c2s_policy h iface m body d fds).
Proof. unfold c2s_policy, check_bind, retitle, stamp_toplevel, read_word. quiet_steps. Qed.

(** What creating an object sends to the compositor: nothing, or the placeholder of an
    object the proxy serves. *)
Definition placeholder_msg (id : Z) : option bytes := finish (put_u32 id (new_writer WL_DISPLAY WL_DISPLAY_SYNC)).

Lemma placeholder_Done id w u w' :
  placeholder id w = (Done u, w') ->
  exists m, placeholder_msg id = Some m /\ to_server w' = sent_also (to_server w) m [].
Proof.
  intros HH. unfold placeholder, get_ses, mod_ses in HH.
  run_step HH. rename a into m. run_step HH. run_step HH. run_step HH. apply modify_Done in HH. subst.
  exists m. split; [done|]. unfold to_server, sent_also. cbn. rewrite queue_bytes, queue_fds. done.
Qed.

Lemma create_object_quiet dir d version forward :
  forward = true \/ dir = ServerToClient \/ d_new_object d = None ->
  quiet to_server (create_object dir d version forward).
Proof.
  intros Hf. unfold create_object. destruct (d_new_object d) as [[id n]|]; [|apply quiet_ret].
  apply quiet_bind; [apply quiet_register_server|intros _].
  apply quiet_bind; [|intros _].
  - apply quiet_when. intros _. unfold OWN_GLOBALS. cbn [own_globals]. quiet_steps.
  - apply quiet_when. intros [Hd Hn]%andb_true_iff. apply bool_decide_eq_true in Hd.
    destruct Hf as [->|[->|]]; done.
Qed.

Lemma create_object_served d version id n w u w' :
  d_new_object d = Some (id, n) -> create_object ClientToServer d version false w = (Done u, w') ->
  exists m, placeholder_msg id = Some m /\ to_server w' = sent_also (to_server w) m [].
Proof.
  intros Hn HH. unfold create_object in HH. rewrite Hn in HH.
  run_step HH. run_step HH. apply when_Done in HH. cbn [andb negb] in HH.
  rewrite bool_decide_eq_true_2 in HH by done. cbn [andb] in HH. run_step HH.
  apply placeholder_Done in R1 as (m & Hm & Hs). exists m. split; [done|].
  apply quiet_register_server in R. 
  assert (quiet to_server (when (String.eqb n "wl_registry") (own_globals id 0 OWN_GLOBALS))) as Hq.
  { apply quiet_when. intros _. unfold OWN_GLOBALS. cbn [own_globals]. quiet_steps. }
  apply Hq in R0. rewrite <-R, <-R0, <-Hs. run_step HH. apply when_Done in HH. subst.
  case_match; [exact (quiet_offer_selection _ _ _ _ HH)|by subst].
Qed.

Lemma pass_on_Done dir v msg fds w u w' :
  pass_on dir v msg fds w = (Done u, w') ->
  let queued q := if v_forward v
    then sent_also q (default msg (v_rewritten v) ++ default [] (v_stamp v)) fds else q in
  to_server w' = match dir with ClientToServer => queued (to_server w) | _ => to_server w end /\
  to_client w' = match dir with ServerToClient => queued (to_client w) | _ => to_client w end.
Proof.
  intros HH. unfold pass_on in HH. apply when_Done in HH. destruct (v_forward v); [|subst; by destruct dir].
  unfold get_ses, mod_ses in HH.
  apply bind_Done in HH as (s & ? & [<- <-]%gets_Done & HH).
  apply bind_Done in HH as ([] & ? & [_ <-]%reject_if_Done & HH).
  apply bind_Done in HH as ([] & ? & [_ <-]%reject_if_Done & HH).
  apply bind_Done in HH as ([] & w1 & <-%modify_Done & HH).
  apply bind_Done in HH as ([] & w2 & R2 & <-%modify_Done).
  destruct (v_stamp v) as [st|].
  - apply bind_Done in R2 as ([] & w3 & <-%modify_Done & <-%modify_Done).
    unfold to_server, to_client, sent_also. destruct dir; cbn;
      rewrite ?queue_bytes, ?queue_fds, ?app_nil_r, ?app_assoc; done.
  - apply ret_Done in R2 as [_ <-].
    unfold to_server, to_client, sent_also. destruct dir; cbn;
      rewrite ?queue_bytes, ?queue_fds, ?app_nil_r; done.
Qed.

(** The stages of an accepted request. *)
Lemma process_c2s h iface m version msg fds w u w' :
  process ClientToServer h iface m version msg fds w = (Done u, w') ->
  exists d v fds' w1 w2, decode m (drop 8 msg) = Ok d /\
    c2s_policy h iface m (drop 8 msg) d fds w = (Done (v, fds'), w1) /\
    create_object ClientToServer d version (v_forward v) w1 = (Done tt, w2) /\
    pass_on ClientToServer v msg fds' w2 = (Done tt, w').
Proof.
  intros HH. unfold process in HH. change (Z.to_nat HEADER_LEN) with 8%nat in HH. cbv zeta in HH.
  apply bind_Done in HH as (d & ? & [Hd <-]%lift_Done & HH).
  apply bind_Done in HH as ([v fds'] & w1 & Hp & HH).
  apply bind_Done in HH as ([] & w2 & Hc & HH). destruct u.
  exists d, v, fds', w1, w2. split; [|done]. destruct (decode _ _); by simplify_eq/=.
Qed.

Lemma c2s_policy_Done h iface m body d fds w v fds' w' :
  c2s_policy h iface m body d fds w = (Done (v, fds'), w') ->
  exists fw w1 fw' w2 rw w3 w4 st,
    (if String.eqb (i_name iface) "wl_registry" && (h_opcode h =? WL_REGISTRY_BIND)
     then check_bind body d else mret true) w = (Done fw, w1) /\
    (if served (i_name iface)
     then fds ← serve (i_name iface) (m_name m) (h_object h) body fds; mret (false, fds)
     else mret (fw, fds)) w1 = (Done (fw', fds'), w2) /\
    (if String.eqb (i_name iface) "xdg_toplevel"
        && (String.eqb (m_name m) "set_title" || String.eqb (m_name m) "set_app_id")
     then retitle h m d else mret None) w2 = (Done rw, w3) /\
    on_shm (account h iface m body d fds') w3 = (Done tt, w4) /\
    (if String.eqb (i_name iface) "xdg_surface" && String.eqb (m_name m) "get_toplevel"
     then stamp_toplevel d else mret None) w4 = (Done st, w') /\
    v = mkVerdict fw' rw st.
Proof.
  intros HH. unfold c2s_policy in HH.
  apply bind_Done in HH as (fw & w1 & H1 & HH). apply bind_Done in HH as ([fw' fds1] & w2 & H2 & HH).
  apply bind_Done in HH as (rw & w3 & H3 & HH). apply bind_Done in HH as ([] & w4 & H4 & HH).
  apply bind_Done in HH as (st & w5 & H5 & [Heq <-]%ret_Done). simplify_eq.
  by exists fw, w1, fw', w2, rw, w3, w4, st.
Qed.

(** A request goes to the compositor as its verdict says. *)
Lemma process_forwards h iface m version msg fds w u w' d v fds' w1 w2 :
  c2s_policy h iface m (drop 8 msg) d fds w = (Done (v, fds'), w1) ->
  create_object ClientToServer d version (v_forward v) w1 = (Done tt, w2) ->
  pass_on ClientToServer v msg fds' w2 = (Done u, w') -> v_forward v = true ->
  to_server w' = sent_also (to_server w) (default msg (v_rewritten v) ++ default [] (v_stamp v)) fds'.
Proof.
  intros Hp Hc Ho Hf. apply pass_on_Done in Ho as [-> _]. rewrite Hf.
  apply create_object_quiet in Hc; [|by left]. apply quiet_c2s_policy in Hp. by rewrite Hc, Hp.
Qed.

(** The requests policy has an opinion on; any other goes through as it is. *)
Definition opinionated (h : Header) (iface : Interface) (m : Message) : bool :=
  (String.eqb (i_name iface) "wl_registry" && (h_opcode h =? WL_REGISTRY_BIND))
  || served (i_name iface)
  || (String.eqb (i_name iface) "xdg_toplevel"
      && (String.eqb (m_name m) "set_title" || String.eqb (m_name m) "set_app_id"))
  || (String.eqb (i_name iface) "xdg_surface" && String.eqb (m_name m) "get_toplevel").

(** A request policy has no opinion on reaches the compositor as the client sent it,
    byte for byte and with its descriptors. *)
Theorem c2s_transparent h iface m version msg fds w w' :
  opinionated h iface m = false ->
  process ClientToServer h iface m version msg fds w = (Done tt, w') ->
  to_server w' = sent_also (to_server w) msg fds.
Proof.
  intros Ho (d & v & fds' & w1 & w2 & _ & Hp & Hc & Hs)%process_c2s.
  pose proof (c2s_policy_Done _ _ _ _ _ _ _ _ _ _ Hp) as (fw & ? & fw' & ? & rw & ? & ? & st & H1 & H2 & H3 & _ & H5 & ->).
  unfold opinionated in Ho. apply orb_false_iff in Ho as [[[O1 O2]%orb_false_iff O3]%orb_false_iff O4].
  rewrite O1 in H1. rewrite O2 in H2. rewrite O3 in H3. rewrite O4 in H5.
  apply ret_Done in H1 as [<- <-], H2 as [H2 <-], H3 as [<- <-], H5 as [<- _]. simplify_eq.
  erewrite process_forwards; [|done..]. cbn. by rewrite app_nil_r.
Qed.

(** The title or app_id of a toplevel, whatever the client sent, carries the
    zone's name. *)
Theorem retitle_forwarded h iface m version msg fds w w' d at_ t rest :
  i_name iface = "xdg_toplevel" -> m_name m = "set_title" \/ m_name m = "set_app_id" ->
  decode m (drop 8 msg) = Ok d -> d_strings d = (at_, t) :: rest ->
  process ClientToServer h iface m version msg fds w = (Done tt, w') ->
  to_server w' = sent_also (to_server w)
    (string_message (h_object h) (h_opcode h)
      (if String.eqb (m_name m) "set_title" then title_for (zone (ses w)) t
       else app_id_for (zone (ses w)) t)) fds.
Proof.
  intros Hi Hm Hd Ht (d' & v & fds' & w1 & w2 & Hd' & Hp & Hc & Hs)%process_c2s.
  assert (d' = d) as -> by congruence.
  pose proof (c2s_policy_Done _ _ _ _ _ _ _ _ _ _ Hp) as (fw & ? & fw' & ? & rw & ? & ? & st & H1 & H2 & H3 & _ & H5 & ->).
  rewrite Hi in H1, H2, H3, H5. cbn [String.eqb Ascii.eqb Bool.eqb andb] in H1, H3, H5.
  change (served "xdg_toplevel") with false in H2.
  apply ret_Done in H1 as [<- <-], H2 as [H2 <-], H5 as [<- _]. simplify_eq.
  replace (String.eqb (m_name m) "set_title" || String.eqb (m_name m) "set_app_id") with true in H3
    by (destruct Hm as [-> | ->]; done).
  unfold retitle, get_ses in H3. apply bind_Done in H3 as (sn & ? & [<- <-]%gets_Done & H3).
  rewrite Ht in H3. destruct (finish _) as [x|] eqn:Hx; [|by apply fail_Done in H3].
  apply bind_Done in H3 as ([] & ? & _ & [<- _]%ret_Done). apply finish_string in Hx as ->.
  erewrite process_forwards; [|done..]. cbn [v_rewritten v_stamp default]. by rewrite app_nil_r.
Qed.

(** A new toplevel is followed at once, in the same queue, by the zone's
    app_id. *)
Theorem toplevel_stamped h iface m version msg fds w w' d id n :
  i_name iface = "xdg_surface" -> m_name m = "get_toplevel" ->
  decode m (drop 8 msg) = Ok d -> d_new_object d = Some (id, n) ->
  process ClientToServer h iface m version msg fds w = (Done tt, w') ->
  exists opcode, SET_APP_ID = Some opcode /\
    to_server w' = sent_also (to_server w)
      (msg ++ string_message id opcode (app_id_for (zone (ses w)) "")) fds.
Proof.
  intros Hi Hm Hd Hn (d' & v & fds' & w1 & w2 & Hd' & Hp & Hc & Hs)%process_c2s.
  assert (d' = d) as -> by congruence.
  pose proof (c2s_policy_Done _ _ _ _ _ _ _ _ _ _ Hp) as (fw & wa & fw' & wb & rw & wc & wd & st & H1 & H2 & H3 & H4 & H5 & ->).
  rewrite Hi in H1, H2, H3, H5. rewrite Hm in H3, H5.
  cbn [String.eqb Ascii.eqb Bool.eqb andb] in H1, H3, H5. change (served "xdg_surface") with false in H2.
  apply ret_Done in H1 as [<- <-], H2 as [H2 <-], H3 as [<- <-]. simplify_eq.
  unfold stamp_toplevel, get_ses in H5. rewrite Hn in H5.
  apply bind_Done in H5 as (op & ? & [Hop <-]%require_Done & H5).
  apply bind_Done in H5 as (sn & ? & [<- <-]%gets_Done & H5).
  apply bind_Done in H5 as (x & ? & [Hx <-]%require_Done & [<- _]%ret_Done).
  exists op. split; [done|]. apply finish_string in Hx as ->.
  assert (zone (ses wd) = zone (ses w)) as <-.
  { unfold on_shm in H4. destruct (account _ _ _ _ _ _ _) as [? ?]. by injection H4 as -> <-. }
  erewrite process_forwards; [|done..]. done.
Qed.

(** A request on an object the proxy serves never reaches the compositor, nor do its
    descriptors: at most the placeholder of the object it creates is sent. *)
Theorem served_stays h iface m version msg fds w w' :
  served (i_name iface) = true ->
  process ClientToServer h iface m version msg fds w = (Done tt, w') ->
  to_server w' = to_server w \/
  exists d id n ph, decode m (drop 8 msg) = Ok d /\ d_new_object d = Some (id, n) /\
    placeholder_msg id = Some ph /\ to_server w' = sent_also (to_server w) ph [].
Proof.
  intros Hsv (d & v & fds' & w1 & w2 & Hd & Hp & Hc & Hs)%process_c2s.
  pose proof (c2s_policy_Done _ _ _ _ _ _ _ _ _ _ Hp) as (fw & ? & fw' & ? & rw & ? & ? & st & H1 & H2 & H3 & _ & H5 & ->).
  rewrite Hsv in H2. apply bind_Done in H2 as (? & ? & _ & [H2 _]%ret_Done). simplify_eq.
  apply quiet_c2s_policy in Hp. apply pass_on_Done in Hs as [Hs _]. cbn [v_forward] in Hs, Hc. rewrite Hs, <-Hp.
  destruct (d_new_object d) as [[id n]|] eqn:Hn.
  - right. destruct (create_object_served _ _ _ _ _ _ _ Hn Hc) as (ph & Hph & Hq). by exists d, id, n, ph.
  - left. eapply create_object_quiet; [|done]. auto.
Qed.

(** A bind the proxy accepts is of the interface its global was advertised with, allowed to
    the zone or the proxy's own, at a version within both caps. *)
Theorem bind_advertised h iface m version msg fds w w' d id n v :
  i_name iface = "wl_registry" -> h_opcode h = WL_REGISTRY_BIND ->
  decode m (drop 8 msg) = Ok d -> d_new_object d = Some (id, n) -> d_bind_version d = Some v ->
  process ClientToServer h iface m version msg fds w = (Done tt, w') ->
  exists gname r cap max,
    read_u32 (new_reader (drop 8 msg)) = Ok (gname, r) /\ globals (ses w) !! gname = Some (n, cap) /\
    (allowed_version n (hold_awake (ses w)) = Some max \/ own_version n = Some max) /\
    v <> 0 /\ v <= cap /\ v <= max.
Proof.
  intros Hi Ho Hd Hn Hv (d' & vd & fds' & w1 & w2 & Hd' & Hp & _ & _)%process_c2s.
  assert (d' = d) as -> by congruence.
  apply c2s_policy_Done in Hp as (fw & ? & fw' & ? & rw & ? & ? & st & H1 & _).
  rewrite Hi, Ho in H1. cbn [String.eqb Ascii.eqb Bool.eqb andb Z.eqb WL_REGISTRY_BIND] in H1.
  unfold check_bind, get_ses, read_word in H1. rewrite Hn, Hv in H1.
  apply bind_Done in H1 as (s & ? & [<- <-]%gets_Done & H1).
  apply bind_Done in H1 as (max & ? & [Hmax <-]%require_Done & H1).
  apply bind_Done in H1 as ([gname r] & ? & [Hr <-]%lift_Done & H1).
  apply bind_Done in H1 as ([adv cap] & ? & [Hg <-]%require_Done & H1).
  apply bind_Done in H1 as ([] & ? & [[Ha Hv0]%orb_false_iff <-]%reject_if_Done & H1).
  apply bind_Done in H1 as ([] & ? & [Hle <-]%reject_if_Done & _).
  apply negb_false_iff, String.eqb_eq in Ha as ->.
  exists gname, r, cap, max. split_and!; [|done| |lia..].
  - destruct (read_u32 _); by simplify_eq/=.
  - destruct (allowed_version _ _); auto.
Qed.

(** ** One event, from the compositor's queue to the client's *)
Lemma process_s2c h iface m version msg fds w u w' :
  process ServerToClient h iface m version msg fds w = (Done u, w') ->
  exists d v w1 w2, decode m (drop 8 msg) = Ok d /\
    s2c_policy h iface m (drop 8 msg) w = (Done v, w1) /\
    create_object ServerToClient d version (v_forward v) w1 = (Done tt, w2) /\
    pass_on ServerToClient v msg fds w2 = (Done tt, w').
Proof.
  intros HH. unfold process in HH. change (Z.to_nat HEADER_LEN) with 8%nat in HH. cbv zeta in HH.
  apply bind_Done in HH as (d & ? & [Hd <-]%lift_Done & HH).
  apply bind_Done in HH as ([v fds'] & w1 & Hp & HH).
  apply bind_Done in Hp as (v' & ? & Hp & [? <-]%ret_Done). simplify_eq.
  apply bind_Done in HH as ([] & w2 & Hc & HH). destruct u.
  exists d, v, x, w2. split; [|done]. destruct (decode _ _); by simplify_eq/=.
Qed.

(** The stages of an event that is none of the keyboard's or the display's. *)
Lemma s2c_policy_plain h iface m body w v w' :
  i_name iface <> "wl_keyboard" -> h_opcode h <> WL_DISPLAY_DELETE_ID \/ h_object h <> WL_DISPLAY ->
  s2c_policy h iface m body w = (Done v, w') ->
  exists fw rw w1 fw' w2 rw',
    (if String.eqb (i_name iface) "wl_registry" && (h_opcode h =? WL_REGISTRY_GLOBAL)
     then hear_global h body else mret (true, None)) w = (Done (fw, rw), w1) /\
    (if String.eqb (i_name iface) "wl_registry" && (h_opcode h =? WL_REGISTRY_GLOBAL_REMOVE)
     then '(gname, _) ← read_word (new_reader body);
          s ← get_ses;
          mret (bool_decide (is_Some (globals s !! gname)))
     else mret fw) w1 = (Done fw', w2) /\
    (if String.eqb (i_name iface) "wl_output"
        && (String.eqb (m_name m) "geometry" || String.eqb (m_name m) "name"
            || String.eqb (m_name m) "description")
     then b ← blank_output h m body; mret (Some b) else mret rw) w2 = (Done rw', w') /\
    v = mkVerdict fw' rw' None.
Proof.
  intros Hk Hd HH. unfold s2c_policy in HH.
  apply bind_Done in HH as ([fw rw] & w1 & H1 & HH). apply bind_Done in HH as (fw' & w2 & H2 & HH).
  apply bind_Done in HH as (rw' & w3 & H3 & HH). apply bind_Done in HH as ([] & w4 & H4 & HH).
  exists fw, rw, w1, fw', w2, rw'. split; [done|]. split; [done|].
  rewrite (proj2 (andb_false_iff (h_object h =? WL_DISPLAY) (h_opcode h =? WL_DISPLAY_DELETE_ID))) in HH
    by (destruct Hd; [right|left]; by apply Z.eqb_neq).
  cbv zeta in HH. apply bind_Done in HH as (ended & w5 & [<- <-]%ret_Done & HH). cbn [when] in HH.
  apply bind_Done in HH as ([] & w6 & [_ <-]%ret_Done & [<- <-]%ret_Done).
  unfold keyboard in H4. rewrite (proj2 (String.eqb_neq (i_name iface) "wl_keyboard")) in H4 by done.
  cbn [andb when] in H4. apply bind_Done in H4 as ([] & w7 & [_ <-]%ret_Done & H4).
  apply bind_Done in H4 as (? & w8 & [_ <-]%gets_Done & [_ <-]%ret_Done). done.
Qed.

Lemma creation_none args d :
  creation args d -> existsb is_new_id args = false -> d_new_object d = None.
Proof.
  intros Hc Hn. assert (forall o, ANewId o ∉ args) as Hno.
  { intros o Ho. assert (existsb is_new_id args = true); [|congruence].
    apply existsb_exists. exists (ANewId o). split; [by apply list_elem_of_In|done]. }
  unfold creation in Hc. destruct (d_new_object d) as [[? ?]|]; [|done].
  destruct (d_bind_version d); by apply Hno in Hc.
Qed.

Lemma process_events h iface m version msg fds w u w' d v w1 w2 :
  d_new_object d = None -> create_object ServerToClient d version (v_forward v) w1 = (Done tt, w2) ->
  pass_on ServerToClient v msg fds w2 = (Done u, w') ->
  s2c_policy h iface m (drop 8 msg) w = (Done v, w1) -> to_client w1 = to_client w ->
  to_client w' = (if v_forward v then sent_also (to_client w)
    (default msg (v_rewritten v) ++ default [] (v_stamp v)) fds else to_client w) /\
  globals (ses w') = globals (ses w1).
Proof.
  intros Hn Hc Hs _ Hq. unfold create_object in Hc. rewrite Hn in Hc. apply ret_Done in Hc as [_ <-].
  split; [apply pass_on_Done in Hs as [_ ->]; by rewrite Hq|].
  unfold pass_on in Hs. apply when_Done in Hs. destruct (v_forward v); [|by subst].
  unfold get_ses, mod_ses in Hs.
  apply bind_Done in Hs as (s & ? & [<- <-]%gets_Done & Hs).
  apply bind_Done in Hs as ([] & ? & [_ <-]%reject_if_Done & Hs).
  apply bind_Done in Hs as ([] & ? & [_ <-]%reject_if_Done & Hs).
  apply bind_Done in Hs as ([] & w3 & <-%modify_Done & Hs).
  apply bind_Done in Hs as ([] & w4 & R2 & <-%modify_Done).
  destruct (v_stamp v); [apply bind_Done in R2 as ([] & w5 & <-%modify_Done & <-%modify_Done)
    |apply ret_Done in R2 as [_ <-]]; done.
Qed.

Lemma allowed_short :
  forallb (fun n => str_len n <=? 64) ((fst <$> ALLOWED) ++ [HOLD_AWAKE.1]) = true.
Proof. vm_compute. done. Qed.

(** A global's event with a capped version always fits a message. *)
Lemma allowed_message n b a gname v object opcode :
  allowed_version n b = Some a ->
  is_Some (finish (put_u32 v (put_string n (put_u32 gname (new_writer object opcode))))).
Proof.
  intros Ha. assert (str_len n <= 64) as Hn.
  { unfold allowed_version in Ha. apply fmap_Some in Ha as ([n' v'] & Hf & _).
    apply List.find_some in Hf as [Hin Heq%String.eqb_eq]. simpl in Heq. subst n'.
    pose proof allowed_short as Hs. rewrite forallb_forall in Hs. apply Z.leb_le, Hs.
    apply in_app_iff in Hin as [Hin|Hin]; apply in_app_iff.
    - left. by apply (in_map fst) in Hin.
    - right. destruct b; [|done]. destruct Hin as [->|[]]. by left. }
  pose proof (str_len_nonneg n). apply finish_is_Some. rewrite put_string_spec; [|lia|done].
  cbn [put_u32 new_writer mw_body]. rewrite !zlen_app, !zlen_bytes_of_u32, zlen_enc_string.
  change (zlen (@nil byte)) with 0. unfold MAX_MESSAGE_LEN. dlia.
Qed.

(** A global the zone may not bind is never shown to the client; any other is shown at most
    at the version the proxy parses, and it is this version a bind is held to. *)
Theorem global_filtered h version msg fds w w' :
  zlookup (i_events iface_wl_registry) (h_opcode h) = Some (mkMessage "global" [AUint; AString false; AUint] 0 1) ->
  process ServerToClient h iface_wl_registry (mkMessage "global" [AUint; AString false; AUint] 0 1)
    version msg fds w = (Done tt, w') ->
  exists gname r1 iname r2 v r3,
    read_u32 (new_reader (drop 8 msg)) = Ok (gname, r1) /\ read_string r1 = Ok (iname, r2) /\
    read_u32 r2 = Ok (v, r3) /\
    match allowed_version (default "" iname) (hold_awake (ses w)) with
    | None => to_client w' = to_client w /\ globals (ses w') = globals (ses w)
    | Some allowed =>
      globals (ses w') = <[gname := (default "" iname, Z.min allowed v)]> (globals (ses w)) /\
      (v <= allowed -> to_client w' = sent_also (to_client w) msg fds) /\
      (allowed < v -> exists x,
         finish (put_u32 allowed (put_string (default "" iname)
           (put_u32 gname (new_writer (h_object h) (h_opcode h))))) = Some x /\
         to_client w' = sent_also (to_client w) x fds)
    end.
Proof.
  intros Hop (d & vd & w1 & w2 & Hd & Hp & Hc & Hs)%process_s2c.
  assert (h_opcode h = 0) as Ho.
  { apply zlookup_Some in Hop as [Hnn Hl]. destruct (Z.to_nat (h_opcode h)) as [|[|?]] eqn:He; [lia|done..]. }
  assert (d_new_object d = None) as Hnone by (by apply decode_creation, creation_none in Hd).
  pose proof Hp as Hp'. apply s2c_policy_plain in Hp as (fw & rw & wa & fw' & wb & rw' & H1 & H2 & H3 & Hvd);
    [|done|by left; rewrite Ho]. rewrite Ho in H1, H2. cbn [i_name iface_wl_registry] in H1, H2, H3.
  cbn [String.eqb Ascii.eqb Bool.eqb andb Z.eqb WL_REGISTRY_GLOBAL WL_REGISTRY_GLOBAL_REMOVE] in H1, H2, H3.
  apply ret_Done in H2 as [<- <-], H3 as [<- <-].
  unfold hear_global, read_word, read_text, get_ses, mod_ses in H1.
  apply bind_Done in H1 as ([gname r1] & ? & [Hr1 <-]%lift_Done & H1).
  apply bind_Done in H1 as ([nm r2'] & ? & H2 & H1).
  apply bind_Done in H2 as ([iname r2] & ? & [Hr2 <-]%lift_Done & [Heq <-]%ret_Done). simplify_eq.
  apply bind_Done in H1 as ([v r3] & ? & [Hr3 <-]%lift_Done & H1).
  apply bind_Done in H1 as (s & ? & [<- <-]%gets_Done & H1).
  exists gname, r1, iname, r2', v, r3.
  split; [destruct (read_u32 _); by simplify_eq/=|]. split; [destruct (read_string _); by simplify_eq/=|].
  split; [destruct (read_u32 r2'); by simplify_eq/=|].
  destruct (allowed_version _ _) as [allowed|] eqn:Ha.
  - apply bind_Done in H1 as ([] & w3 & <-%modify_Done & [Hv Hw]%ret_Done). simplify_eq.
    eapply process_events in Hs as [Hs Hg]; [|done..]. cbn [v_forward v_rewritten v_stamp default] in Hs.
    rewrite app_nil_r in Hs. rewrite (allowed_name _ _ _ Ha) in Hg. split; [exact Hg|].
    split; intros Hle.
    + rewrite Hs, (Z.min_r allowed v), Z.eqb_refl by lia. done.
    + destruct (allowed_message _ _ _ gname allowed (h_object h) (h_opcode h) Ha) as [y Hy].
      exists y. split; [done|]. rewrite Hs, (Z.min_l allowed v) by lia.
      rewrite (proj2 (Z.eqb_neq allowed v)) by lia. cbn [negb]. by rewrite Hy.
  - apply bind_Done in H1 as ([] & w3 & <-%modify_Done & [Hv Hw]%ret_Done). simplify_eq.
    eapply process_events in Hs as [Hs Hg]; [|done..]. cbn [v_forward] in Hs. done.
Qed.

(** A monitor's name and description reach a client as its global's number only. *)
Theorem output_renamed h m version msg fds w w' :
  zlookup (i_events iface_wl_output) (h_opcode h) = Some m ->
  m_name m = "name" \/ m_name m = "description" ->
  process ServerToClient h iface_wl_output m version msg fds w = (Done tt, w') ->
  to_client w' = sent_also (to_client w) (string_message (h_object h) (h_opcode h)
    ("output-" +:+ pretty (default 0 (outputs (ses w) !! h_object h)))) fds.
Proof.
  intros Hop Hm (d & vd & w1 & w2 & Hd & Hp & Hc & Hs)%process_s2c.
  assert (existsb is_new_id (m_args m) = false /\ h_opcode h <> WL_DISPLAY_DELETE_ID) as [Hnew Ho].
  { apply zlookup_Some in Hop as [Hnn Hl]. destruct (Z.to_nat (h_opcode h)) as [|[|[|[|[|[|?]]]]]] eqn:He;
      simplify_eq/=; try (by destruct Hm); split; (done || unfold WL_DISPLAY_DELETE_ID; lia). }
  assert (d_new_object d = None) as Hnone by (by apply decode_creation, creation_none in Hd).
  pose proof Hp as Hp'. apply s2c_policy_plain in Hp as (fw & rw & wa & fw' & wb & rw' & H1 & H2 & H3 & Hvd);
    [|done|by left]. cbn [i_name iface_wl_output] in H1, H2, H3.
  cbn [String.eqb Ascii.eqb Bool.eqb andb] in H1, H2, H3.
  apply ret_Done in H1 as [H1 <-], H2 as [<- <-]. simplify_eq.
  replace (_ || _) with true in H3 by (destruct Hm as [-> | ->]; done). cbn [andb] in H3.
  apply bind_Done in H3 as (b & ? & H3 & [<- <-]%ret_Done). unfold blank_output in H3. cbv zeta in H3.
  replace (String.eqb (m_name m) "geometry") with false in H3 by (destruct Hm as [-> | ->]; done).
  apply bind_Done in H3 as (mw & ? & H3 & [Hf <-]%require_Done). unfold get_ses in H3.
  apply bind_Done in H3 as (s & ? & [<- <-]%gets_Done & [<- <-]%ret_Done).
  apply finish_string in Hf as ->.
  eapply process_events in Hs as [Hs _]; [|done..]. cbn [v_forward v_rewritten v_stamp default] in Hs.
  by rewrite app_nil_r in Hs.
Qed.
End spec.

(** ** The theorems at concrete messages *)
Lemma c2s_transparent_witness :
  to_server (demo_after ClientToServer iface_wl_compositor 0 (bytes_of_u32 3))
  = sent_also (to_server (demo_world iface_wl_compositor)) (demo_message 0 (bytes_of_u32 3)) [].
Proof.
  apply (@c2s_transparent demo_os (demo_header 0 (bytes_of_u32 3)) iface_wl_compositor
    (request iface_wl_compositor 0) 1); vm_compute; reflexivity.
Defined.

Lemma retitle_forwarded_witness :
  to_server (demo_after ClientToServer iface_xdg_toplevel 2 (enc_string "mail"))
  = sent_also (to_server (demo_world iface_xdg_toplevel))
      (string_message 2 2 (title_for "work" "mail")) [].
Proof.
  apply (@retitle_forwarded demo_os (demo_header 2 (enc_string "mail")) iface_xdg_toplevel
    (request iface_xdg_toplevel 2) 1 (demo_message 2 (enc_string "mail")) [] (demo_world iface_xdg_toplevel) _
    (demo_decoded (request iface_xdg_toplevel 2) (enc_string "mail")) 0 "mail" []);
    first [left; vm_compute; reflexivity|vm_compute; reflexivity].
Defined.

Lemma toplevel_stamped_witness :
  exists opcode, SET_APP_ID = Some opcode /\
    to_server (demo_after ClientToServer iface_xdg_surface 1 (bytes_of_u32 3))
    = sent_also (to_server (demo_world iface_xdg_surface))
        (demo_message 1 (bytes_of_u32 3) ++ string_message 3 opcode (app_id_for "work" "")) [].
Proof.
  apply (@toplevel_stamped demo_os (demo_header 1 (bytes_of_u32 3)) iface_xdg_surface
    (request iface_xdg_surface 1) 1 (demo_message 1 (bytes_of_u32 3)) [] (demo_world iface_xdg_surface) _
    (demo_decoded (request iface_xdg_surface 1) (bytes_of_u32 3)) 3 "xdg_toplevel");
    vm_compute; reflexivity.
Defined.

Lemma served_stays_witness :
  let w' := demo_after ClientToServer iface_wl_data_device_manager 0 (bytes_of_u32 3) in
  let w := demo_world iface_wl_data_device_manager in
  let msg := demo_message 0 (bytes_of_u32 3) in
  to_server w' = to_server w \/
  exists d id n ph, decode (request iface_wl_data_device_manager 0) (drop 8 msg) = Ok d /\
    d_new_object d = Some (id, n) /\ placeholder_msg id = Some ph /\
    to_server w' = sent_also (to_server w) ph [].
Proof.
  apply (@served_stays demo_os (demo_header 0 (bytes_of_u32 3)) iface_wl_data_device_manager
    (request iface_wl_data_device_manager 0) 1 (demo_message 0 (bytes_of_u32 3)) []); vm_compute; reflexivity.
Defined.

Definition demo_bind : bytes :=
  bytes_of_u32 7 ++ enc_string "wl_compositor" ++ bytes_of_u32 4 ++ bytes_of_u32 3.

Lemma bind_advertised_witness :
  exists gname r cap max,
    read_u32 (new_reader (drop 8 (demo_message 0 demo_bind))) = Ok (gname, r) /\
    globals (demo_session iface_wl_registry) !! gname = Some ("wl_compositor", cap) /\
    (allowed_version "wl_compositor" false = Some max \/ own_version "wl_compositor" = Some max) /\
    4 <> 0 /\ 4 <= cap /\ 4 <= max.
Proof.
  apply (@bind_advertised demo_os (demo_header 0 demo_bind) iface_wl_registry (request iface_wl_registry 0) 1
    (demo_message 0 demo_bind) [] (demo_world iface_wl_registry)
    (demo_after ClientToServer iface_wl_registry 0 demo_bind)
    (demo_decoded (request iface_wl_registry 0) demo_bind) 3 "wl_compositor" 4); vm_compute; reflexivity.
Defined.

Definition demo_global : bytes :=
  bytes_of_u32 9 ++ enc_string "wl_compositor" ++ bytes_of_u32 9.

Lemma global_filtered_witness :
  let w := demo_world iface_wl_registry in
  let w' := demo_after ServerToClient iface_wl_registry 0 demo_global in
  exists gname r1 iname r2 v r3,
    read_u32 (new_reader (drop 8 (demo_message 0 demo_global))) = Ok (gname, r1) /\
    read_string r1 = Ok (iname, r2) /\ read_u32 r2 = Ok (v, r3) /\
    match allowed_version (default "" iname) (hold_awake (ses w)) with
    | None => to_client w' = to_client w /\ globals (ses w') = globals (ses w)
    | Some allowed =>
      globals (ses w') = <[gname := (default "" iname, Z.min allowed v)]> (globals (ses w)) /\
      (v <= allowed -> to_client w' = sent_also (to_client w) (demo_message 0 demo_global) []) /\
      (allowed < v -> exists x,
         finish (put_u32 allowed (put_string (default "" iname)
           (put_u32 gname (new_writer 2 0)))) = Some x /\
         to_client w' = sent_also (to_client w) x [])
    end.
Proof.
  apply (@global_filtered demo_os (demo_header 0 demo_global) 1 (demo_message 0 demo_global) []
    (demo_world iface_wl_registry) (demo_after ServerToClient iface_wl_registry 0 demo_global));
    vm_compute; reflexivity.
Defined.

Lemma output_renamed_witness :
  to_client (demo_after ServerToClient iface_wl_output 4 (enc_string "DP-1"))
  = sent_also (to_client (demo_world iface_wl_output)) (string_message 2 4 "output-1") [].
Proof.
  apply (@output_renamed demo_os (demo_header 4 (enc_string "DP-1")) (event iface_wl_output 4) 1
    (demo_message 4 (enc_string "DP-1")) [] (demo_world iface_wl_output));
    first [left; vm_compute; reflexivity|vm_compute; reflexivity].
Defined.
