(* ===== verification/Turn.v ===== *)
(** * compositor/wlproxy/src/main.rs: one turn of the proxy's loop over a zone's sessions

    Each polled session reads, pumps both ways and flushes within the zone's budget; what
    one session's copy or paste asked of another is done when every session had its turn;
    an ended session's pools wait for their punch. The kernel's answers are the turn's
    input. Not here: the descriptor set handed to poll, the log, and [--once]. *)
From S2P Require Import Prelude Bytes Wire Protocol ProtocolTables WlPolicy Clipboard Endpoint.
From S2P Require Import Objects Pools PoolsSafe Session SessionSafe SessionSpec.
Open Scope string_scope.
Open Scope list_scope.
Open Scope Z_scope.

(** Why a session's turn ends it. *)
Inductive StepError : Type :=
| SocketVanished
| ClientDisconnected
| ClientRead (e : IoError)
| CompositorClosed
| CompositorRead (e : IoError)
| Refused (e : SessionError)
| ZoneBudget
| CompositorWrite (e : IoError)
| ClientWrite (e : IoError).

Abbreviation TM := (M World StepError).

(** [.map_err(f)?]. *)
Definition map_err {S E E' A} (f : E -> E') (m : M S E A) : M S E' A := fun s =>
  match m s with
  | (Done a, s') => (Done a, s')
  | (Fail e, s') => (Fail (f e), s')
  | (Panic, s') => (Panic, s')
  end.

(** What poll reported for a session's two sockets, and what the kernel then answers:
    [None] where there is nothing to read. *)
Record Polled := mkPolled {
  nval : bool;
  client_recv : option RecvResult;
  server_recv : option RecvResult;
  server_send : list SendResult;
  client_send : list SendResult;
  refuse_send : list SendResult;
}.

Record Totals := mkTotals { t_bytes : Z; t_pools : Z; t_tops : Z }.
Definition usage (s : Session) : Totals :=
  mkTotals (shm_pool_bytes (shm s)) (shm_pool_count (shm s)) (toplevels s).

(** An operation on one of the session's endpoints. *)
Definition on_end {A} (dir : Dir) (m : M Endpoint IoError A) : M World IoError A := fun w =>
  let '(r, e) := m (src dir (ses w)) in (r, mkWorld (set_src dir e (ses w)) (clip w)).
Definition flush_end (ks : list SendResult) : M Endpoint IoError bool := fun e =>
  let '(r, e', _) := flush ks e in (r, e').

Definition read_end (dir : Dir) (k : option RecvResult) (err : IoError -> StepError) (eof : StepError) : TM unit :=
  match k with
  | None => mret tt
  | Some k =>
    n ← map_err err (on_end dir (ep_read k));
    reject_if (n =? 0) eof
  end.

Section turn.
Context `{Os} (say : StepError -> string).

(** [total + new - old > bound]. *)
Definition over (total new old bound : Z) : TM bool :=
  a ← usize_add total new;
  b ← usize_sub a old;
  mret (b >? bound).

(** The [step] closure: a session's turn, within what the zone has left. *)
Definition step (p : Polled) (zone old : Totals) : TM unit :=
  reject_if (nval p) SocketVanished;;
  read_end ClientToServer (client_recv p) ClientRead ClientDisconnected;;
  read_end ServerToClient (server_recv p) CompositorRead CompositorClosed;;
  map_err Refused (pump ClientToServer);;
  map_err Refused (pump ServerToClient);;
  s ← gets ses;
  o1 ← over (t_bytes zone) (t_bytes (usage s)) (t_bytes old) MAX_SHM_BYTES_PER_ZONE;
  o2 ← (if (o1 : bool) then mret true
        else over (t_pools zone) (t_pools (usage s)) (t_pools old) MAX_SHM_POOLS_PER_ZONE);
  o3 ← (if (o2 : bool) then mret true
        else over (t_tops zone) (t_tops (usage s)) (t_tops old) MAX_TOPLEVELS_PER_ZONE);
  reject_if o3 ZoneBudget;;
  map_err CompositorWrite (on_end ServerToClient (flush_end (server_send p)));;
  map_err ClientWrite (on_end ClientToServer (flush_end (client_send p)));;
  mret tt.

Record Live := mkLive { l_s : Session; l_id : Z }.

(** [l.s.unpunched.take()]. *)
Definition clear_unpunched (s : Session) : Session := set_shm (with_unpunched None (shm s)) s.

(** The new totals once a session's turn went well; [None] is an underflow. *)
Definition retotal (zone old new : Totals) : option Totals :=
  if (t_bytes old <=? t_bytes zone) && (t_pools old <=? t_pools zone) && (t_tops old <=? t_tops zone)
  then Some (mkTotals (t_bytes zone - t_bytes old + t_bytes new)
    (t_pools zone - t_pools old + t_pools new) (t_tops zone - t_tops old + t_tops new))
  else None.

(** One session of the loop: whether it ended. [None] is a panic. *)
Definition one_session (l : Live) (p : Polled) (zone : Totals) (c : Clipboard)
    : option (Live * bool * Totals * Clipboard) :=
  let old := usage (l_s l) in
  match step p zone old (mkWorld (l_s l) c) with
  | (Panic, _) => None
  | (Done _, w) =>
    let s := clear_unpunched (ses w) in
    zone ← retotal zone old (usage s);
    Some (mkLive s (l_id l), false, zone, clip w)
  | (Fail e, w) =>
    match refuse (say e) (refuse_send p) (mkWorld (clear_unpunched (ses w)) (clip w)) with
    | (Panic, _) => None
    | (_, w') => Some (mkLive (ses w') (l_id l), true, zone, clip w')
    end
  end.

Fixpoint run_sessions (ls : list Live) (ps : list Polled) (zone : Totals) (c : Clipboard)
    : option (list (Live * bool) * Totals * Clipboard) :=
  match ls, ps with
  | l :: ls, p :: ps =>
    '(l, ended, zone, c) ← one_session l p zone c;
    '(rest, zone, c) ← run_sessions ls ps zone c;
    Some ((l, ended) :: rest, zone, c)
  | ls, _ => Some ((fun l => (l, false)) <$> ls, zone, c)
  end.

(** One action, done by the session it names unless that has ended; a paste of the proxy's
    own selection is a new writer. *)
Definition MAX_WRITERS : Z := 8.
Definition paste_own (a : Action) (c : Clipboard) (writers : list (Z * bytes)) : list (Z * bytes) :=
  match a, selection c ≫= sel_data with
  | Send _ _ _ fd, Some data => if zlen writers <? MAX_WRITERS then writers ++ [(fd, data)] else writers
  | _, _ => writers
  end.

Fixpoint act_on (a : Action) (ls : list (Live * bool)) (c : Clipboard) (ks : list SendResult)
    : option (list (Live * bool)) :=
  match ls with
  | [] => Some []
  | (l, ended) :: ls =>
    if negb (l_id l =? action_session a) then cons (l, ended) <$> act_on a ls c ks
    else if ended then Some ((l, ended) :: ls)
    else match act a (mkWorld (l_s l) c) with
         | (Panic, _) => None
         | (Done _, w) => Some ((mkLive (ses w) (l_id l), false) :: ls)
         | (Fail e, w) =>
           match refuse (say (Refused e)) ks (mkWorld (ses w) c) with
           | (Panic, _) => None
           | (_, w) => Some ((mkLive (ses w) (l_id l), true) :: ls)
           end
         end
  end.

Fixpoint act_all (acts : list Action) (ls : list (Live * bool)) (c : Clipboard)
    (writers : list (Z * bytes)) (ks : list SendResult) : option (list (Live * bool) * list (Z * bytes)) :=
  match acts with
  | [] => Some (ls, writers)
  | a :: acts =>
    if action_session a =? OWN then act_all acts ls c (paste_own a c writers) ks
    else ls ← act_on a ls c ks; act_all acts ls c writers ks
  end.

Definition clear_actions (c : Clipboard) : Clipboard :=
  mkClipboard (focus c) (selection c) (generation c) [].

(** The ended sessions, last first: their pools wait for their punch, the clipboard forgets
    them. *)
Definition POOL_GRACE : Z := 1000.
Fixpoint bury (ls : list (Live * bool)) (now : Z) (c : Clipboard)
    : list (Live * bool) * list (Z * Z * Z) * Clipboard :=
  match ls with
  | [] => ([], [], c)
  | (l, ended) :: ls =>
    let '(rest, gone, c) := bury ls now c in
    if (ended : bool) then
      let pools := match take_pools (shm (l_s l)) with (Done ps, _) => ps | _ => [] end in
      (rest, gone ++ ((fun fs => (fs, now + POOL_GRACE)) <$> pools), session_gone (l_id l) c)
    else ((l, ended) :: rest, gone, c)
  end.

(** [loop { .. }] until no session ended in its round; [None] when the fuel runs out. *)
Fixpoint settle_actions (fuel : nat) (ls : list (Live * bool)) (now : Z) (c : Clipboard)
    (gone : list (Z * Z * Z)) (writers : list (Z * bytes)) (ks : list SendResult)
    : option (list Live * list (Z * Z * Z) * Clipboard * list (Z * bytes)) :=
  match fuel with
  | O => None
  | S fuel =>
    '(ls, writers) ← act_all (actions c) ls (clear_actions c) writers ks;
    if existsb snd ls then
      let '(ls, buried, c) := bury ls now (clear_actions c) in
      settle_actions fuel ls now c (gone ++ buried) writers ks
    else Some (fst <$> ls, gone, clear_actions c, writers)
  end.

(** The proxy between two turns. *)
Record Proxy := mkProxy {
  p_zone : string;
  p_awake : bool;
  p_max_clients : Z;
  p_sessions : list Live;
  p_clip : Clipboard;
  p_next_id : Z;
  p_gone : list (Z * Z * Z);
  p_writers : list (Z * bytes);
  p_punched : list (Z * Z);
}.

Definition sum_totals (ls : list Live) (gone : list (Z * Z * Z)) : Totals :=
  foldr (fun l t => mkTotals (t_bytes (usage (l_s l)) + t_bytes t) (t_pools (usage (l_s l)) + t_pools t)
                      (t_tops (usage (l_s l)) + t_tops t))
    (mkTotals (foldr (fun g n => g.1.2 + n) 0 gone) (zlen gone) 0) ls.

(** What happens to the proxy in a turn: poll's answers, the move gesture's change of the
    clipboard, the writers that stay, and a connection accepted and connected upstream. *)
Record Input := mkInput {
  in_polled : list Polled;
  in_gesture : Clipboard -> Clipboard;
  in_now : Z;
  in_later : Z;
  in_act_send : list SendResult;
  in_writers : list (Z * bytes) -> list (Z * bytes);
  in_accept : option (Z * Z);
}.

(** [sessions.push(Live { .. })] of a connection just accepted. *)
Definition accept (q : Proxy) (conn : option (Z * Z)) : option Proxy :=
  match conn with
  | Some (cfd, sfd) =>
    s ← new_session (p_zone q) cfd sfd;
    let s := mkSession (zone s) (p_awake q) (p_next_id q) (client s) (server s) (objects s) (shm s)
      (toplevels s) (popups s) (globals s) (outputs s) (sources s) (devices s) (offers s)
      (placeholders s) (hidden_count s) (forwarded_c2s s) (forwarded_s2c s) (rewritten s) in
    Some (mkProxy (p_zone q) (p_awake q) (p_max_clients q) (p_sessions q ++ [mkLive s (p_next_id q)])
      (p_clip q) (p_next_id q + 1) (p_gone q) (p_writers q) (p_punched q))
  | None => Some q
  end.

(** One turn of the loop. [None] is a panic. *)
Definition turn (q : Proxy) (i : Input) : option Proxy :=
  let accepting := zlen (p_sessions q) <? p_max_clients q in
  let zone := sum_totals (p_sessions q) (p_gone q) in
  '(ls, _, c) ← run_sessions (p_sessions q) (in_polled i) zone (p_clip q);
  let c := in_gesture i c in
  '(ls, gone, c, writers) ← settle_actions (S (S (length ls))) ls (in_now i) c (p_gone q) (p_writers q) (in_act_send i);
  let due := List.filter (fun g => g.2 <=? in_later i) gone in
  let kept := List.filter (fun g => negb (g.2 <=? in_later i)) gone in
  accept (mkProxy (p_zone q) (p_awake q) (p_max_clients q) ls c (p_next_id q) kept
            (in_writers i writers) (p_punched q ++ (fst <$> due)))
    (if accepting then in_accept i else None).
End turn.

(** ** How many clients' descriptors fit *)
Definition FDS_PER_SESSION : Z := 2 + 2 * MAX_PENDING_FDS.
Definition FDS_RESERVED : Z := 8 + MAX_SHM_POOLS_PER_ZONE.

Definition clients_within (limit wanted : Z) : Z :=
  let room := saturating_sub (Z.min limit USIZE_MAX) FDS_RESERVED / FDS_PER_SESSION in
  Z.max (Z.min wanted room) 1.

(** [fit_descriptors] on [max_clients]: the soft and hard limits getrlimit gave, if it did, and
    whether setrlimit raised the first to the second. *)
Definition fit_descriptors (limits : option (Z * Z)) (raises : bool) (max_clients : Z) : Z :=
  match limits with
  | None => max_clients
  | Some (cur, max) =>
    let cur := if (cur <? max) && raises then max else cur in
    let fit := clients_within cur max_clients in
    if fit <? max_clients then fit else max_clients
  end.
