(* ===== verification/ProxyClaims.v ===== *)
(** * The proxy's loop never panics, and keeps a zone within its budget *)
From S2P Require Import Prelude Bytes Wire Protocol ProtocolTables WlPolicy Clipboard Endpoint.
From S2P Require Import Objects Pools PoolsSafe Session SessionSafe SessionSpec Turn.
Open Scope string_scope.
Open Scope list_scope.
Open Scope Z_scope.

Lemma wp_map_err {S E E' A} (f : E -> E') (m : M S E A) Q R s :
  wp m Q (fun e => R (f e)) s -> wp (map_err f m) Q R s.
Proof. unfold wp, map_err. by destruct (m s) as [[?|?|] ?]. Qed.

Lemma wp_on_end {A} dir (m : M Endpoint IoError A) Q R w :
  wp m (fun a e => Q a (mkWorld (set_src dir e (ses w)) (clip w)))
       (fun x e => R x (mkWorld (set_src dir e (ses w)) (clip w))) (src dir (ses w)) ->
  wp (on_end dir m) Q R w.
Proof. unfold wp, on_end. by destruct (m _) as [[?|?|] ?]. Qed.

Lemma keeps_ep_read k : keeps ep_fits (ep_read k).
Proof.
  unfold ep_read. keeps_steps.
  - apply keeps_modify. intros e. apply ep_fits_in_fds.
  - apply keeps_modify. intros e ([] & ? & ?). split; [|done]. split; try done. cbn.
    pose proof (zlen_nonneg (pending_in e ++ data)). lia.
Qed.

Lemma steady_end k dir e w :
  ep_fits e -> steady k w -> steady k (mkWorld (set_src dir e (ses w)) (clip w)).
Proof.
  intros He (k' & Hw & H1 & H2 & H3). exists (set_input dir (pending_in e) k').
  split; [by apply sess_ok_input|]. by destruct dir.
Qed.

Lemma steady_fits k dir w : steady k w -> ep_fits (src dir (ses w)).
Proof. intros (k' & Hw & _). by eapply sess_ok_src_fits. Qed.

Lemma keeps_flush_end ks : keeps ep_fits (flush_end ks).
Proof.
  intros e (Hok & Hb & Hf). unfold wp, flush_end. destruct (flush ks e) as [[r e'] s] eqn:Hfl.
  destruct (flush_ok _ _ _ _ _ Hok Hfl) as (Hr & Hok' & Hbs & Hfs & _).
  assert (ep_fits e').
  { split; [done|]. rewrite (ep_out _ Hok'), (ep_fds _ Hok'). rewrite (ep_out _ Hok), <-Hbs, zlen_app in Hb.
    rewrite (ep_fds _ Hok), <-Hfs, zlen_app in Hf.
    pose proof (zlen_nonneg (mjoin (fst <$> s))). pose proof (zlen_nonneg (mjoin (snd <$> s))). lia. }
  by destruct r.
Qed.

Lemma keeps_on_end {A E} k dir (f : IoError -> E) (m : M Endpoint IoError A) :
  keeps ep_fits m -> keeps (steady k) (map_err f (on_end dir m)).
Proof.
  intros Hm w Hw. apply wp_map_err, wp_on_end.
  eapply wp_mono; [..|apply Hm, (steady_fits k dir w Hw)]; intros ? e He; by apply steady_end.
Qed.

Lemma keeps_read_end k dir r err eof : keeps (steady k) (read_end dir r err eof).
Proof.
  unfold read_end. destruct r; [|apply keeps_ret]. apply keeps_bind; [|intros; apply keeps_reject_if].
  apply keeps_on_end, keeps_ep_read.
Qed.

(** ** Budgets *)
Definition tot_add (a b : Totals) : Totals :=
  mkTotals (t_bytes a + t_bytes b) (t_pools a + t_pools b) (t_tops a + t_tops b).
Definition tot_le (a b : Totals) : Prop :=
  t_bytes a <= t_bytes b /\ t_pools a <= t_pools b /\ t_tops a <= t_tops b.
Definition tot_zero : Totals := mkTotals 0 0 0.
Definition ZONE_MAX : Totals := mkTotals MAX_SHM_BYTES_PER_ZONE MAX_SHM_POOLS_PER_ZONE MAX_TOPLEVELS_PER_ZONE.
Definition live_usage (ls : list Live) : Totals := foldr (fun l => tot_add (usage (l_s l))) tot_zero ls.
#[global] Arguments live_usage : simpl never.
#[global] Arguments usage : simpl never.
Lemma live_usage_cons l ls : live_usage (l :: ls) = tot_add (usage (l_s l)) (live_usage ls).
Proof. done. Qed.
(** Far below where a [usize] ends. *)
Definition ROOM : Totals := mkTotals (2 ^ 62) (2 ^ 62) (2 ^ 62).

Lemma usage_bounds k s :
  sess_ok k s -> tot_le tot_zero (usage s) /\
  tot_le (usage s) (mkTotals MAX_SHM_BYTES_PER_SESSION MAX_SHM_POOLS_PER_SESSION MAX_TOPLEVELS_PER_SESSION).
Proof.
  intros Hs. pose proof (s_shm _ _ Hs) as Hi. pose proof (bytes_nonneg _ _ _ Hi).
  pose proof (so_max _ _ _ Hi). pose proof (so_count _ _ _ Hi). pose proof (so_count_max _ _ _ Hi).
  pose proof (s_top_max _ _ Hs).
  assert (0 <= toplevels s).
  { rewrite (s_top _ _ Hs). unfold obj_count.
    pose proof (count_slots_nonneg (named "xdg_toplevel") (o_client (objects s))).
    pose proof (count_slots_nonneg (named "xdg_toplevel") (o_server (objects s))). lia. }
  unfold tot_le, usage. cbn. lia.
Qed.

Definition budgeted (ls : list Live) (more : Totals) : Prop := tot_le (tot_add (live_usage ls) more) ZONE_MAX.

(** Arithmetic on totals, componentwise. *)
Ltac tot :=
  unfold budgeted, tot_le, tot_add in *; rewrite ?live_usage_cons in *; unfold tot_add in *; cbn in *;
  unfold MAX_SHM_BYTES_PER_ZONE, MAX_SHM_POOLS_PER_ZONE, MAX_TOPLEVELS_PER_ZONE in *; lia.


Section safe.
Context `{Os} (say : StepError -> string).

Lemma wp_over total new old bound (Q : bool -> World -> Prop) R w :
  0 <= new <= 2 ^ 62 -> old <= total <= 2 ^ 62 -> 0 <= old ->
  Q (total + new - old >? bound) w -> wp (over total new old bound) Q R w.
Proof.
  intros Hn Ht Ho HQ. unfold over. wp_step. apply wp_usize_add; [lia|]. wp_step.
  apply wp_usize_sub; [lia|]. by wp_step.
Qed.

(** A turn that goes well leaves the zone within its budget. *)
Lemma wp_step_safe k p zone old w :
  steady k w -> tot_le tot_zero old -> tot_le old zone -> tot_le zone ROOM ->
  wp (step p zone old)
    (fun _ w' => steady k w' /\
       t_bytes zone + t_bytes (usage (ses w')) - t_bytes old <= t_bytes ZONE_MAX /\
       t_pools zone + t_pools (usage (ses w')) - t_pools old <= t_pools ZONE_MAX /\
       t_tops zone + t_tops (usage (ses w')) - t_tops old <= t_tops ZONE_MAX)
    (fun _ => steady k) w.
Proof.
  intros Hw (Ho1 & Ho2 & Ho3) (Hz1 & Hz2 & Hz3) (Hr1 & Hr2 & Hr3). unfold step.
  cbn in Ho1, Ho2, Ho3, Hr1, Hr2, Hr3.
  assert (forall dir, keeps (steady k) (map_err Refused (pump dir))) as Hpump.
  { intros dir w1 (k1 & Hk1 & E1 & E2 & E3). apply wp_map_err. eapply wp_mono; [..|by apply wp_pump];
      intros ? w2 (k2 & Hk2 & F1 & F2 & F3); exists k2; split_and!; (done || congruence). }
  wp_step. apply (wp_mono _ (fun _ => steady k) _ (fun _ => steady k)); [|done|by apply keeps_reject_if].
  intros [] w1 Hw1. wp_step. eapply wp_mono; [..|by apply keeps_read_end]; [|done]. intros [] w2 Hw2.
  wp_step. eapply wp_mono; [..|by apply keeps_read_end]; [|done]. intros [] w3 Hw3.
  wp_step. eapply wp_mono; [..|by apply Hpump]; [|done]. intros [] w4 Hw4.
  wp_step. eapply wp_mono; [..|by apply Hpump]; [|done]. intros [] w5 Hw5.
  do 3 wp_step. assert (tot_le tot_zero (usage (ses w5)) /\ tot_le (usage (ses w5)) ROOM) as [(U1 & U2 & U3) (V1 & V2 & V3)].
  { destruct Hw5 as (k5 & Hk5 & _). destruct (usage_bounds _ _ Hk5) as [? (? & ? & ?)]. split; [done|].
    unfold tot_le in *. cbn in *. unfold MAX_SHM_BYTES_PER_SESSION, MAX_SHM_POOLS_PER_SESSION, MAX_TOPLEVELS_PER_SESSION in *. lia. }
  cbv beta zeta. remember (usage (ses w5)) as u eqn:Hu. cbn in U1, U2, U3, V1, V2, V3.
  apply wp_over; [lia..|]. wp_step.
  apply (wp_mono _ (fun o w' => w' = w5 /\ (o = false ->
    t_bytes zone + t_bytes u - t_bytes old <= MAX_SHM_BYTES_PER_ZONE /\
    t_pools zone + t_pools u - t_pools old <= MAX_SHM_POOLS_PER_ZONE)) _ (fun _ _ => False)); [|done|].
  2: { case_bool; [by wp_step|]. apply wp_over; [lia..|]. split; [done|lia]. }
  intros o2 w6 [-> Ho]. wp_step.
  apply (wp_mono _ (fun o w' => w' = w5 /\ (o = false ->
    t_bytes zone + t_bytes u - t_bytes old <= MAX_SHM_BYTES_PER_ZONE /\
    t_pools zone + t_pools u - t_pools old <= MAX_SHM_POOLS_PER_ZONE /\
    t_tops zone + t_tops u - t_tops old <= MAX_TOPLEVELS_PER_ZONE)) _ (fun _ _ => False)); [|done|].
  2: { destruct o2; [by wp_step|]. specialize (Ho eq_refl). apply wp_over; [lia..|]. split; [done|lia]. }
  intros o3 w7 [-> Ho3']. wp_step. wp_step; [done|]. subst o3. specialize (Ho3' eq_refl).
  wp_step. 
  apply (wp_mono _ (fun _ w' => steady k w' /\ usage (ses w') = u) _ (fun _ => steady k)); [|done|].
  - intros b w8 [Hw8 Hu8]. wp_step.
    apply (wp_mono _ (fun _ w' => steady k w' /\ usage (ses w') = u) _ (fun _ => steady k)); [|done|].
    + intros b' w9 [Hw9 Hu9]. wp_step. rewrite Hu9. done.
    + apply wp_map_err, wp_on_end. eapply wp_mono; [..|apply keeps_flush_end, (steady_fits k _ _ Hw8)].
      * intros ? e He. split; [by apply steady_end|done].
      * intros ? e He. by apply steady_end.
  - apply wp_map_err, wp_on_end. eapply wp_mono; [..|apply keeps_flush_end, (steady_fits k _ _ Hw5)].
    + intros ? e He. split; [by apply steady_end|done].
    + intros ? e He. by apply steady_end.
Qed.

(** ** A session that is refused *)
Lemma refuse_total k why ks w :
  steady k w -> exists w', refuse why ks w = (Done tt, w') /\ clip w' = clip w /\ shm (ses w') = shm (ses w).
Proof.
  intros Hw. assert (forall q : SM unit, wp q (fun _ w' => clip w' = clip w /\ shm (ses w') = shm (ses w)) (fun _ _ => False) w ->
    exists w', q w = (Done tt, w') /\ clip w' = clip w /\ shm (ses w') = shm (ses w)) as Hq.
  { intros q. unfold wp. destruct (q w) as [[[]|?|] w']; [|done..]. eauto. }
  apply Hq. clear Hq. unfold refuse, mod_ses. cbv zeta. wp_step.
  apply (wp_mono _ (fun _ w' => clip w' = clip w /\ shm (ses w') = shm (ses w)) _ (fun _ _ => False)); [|done|].
  - intros [] w1 [Hc Hs]. by do 3 wp_step.
  - destruct (finish _) as [m|] eqn:Hf; [|by wp_step]. unfold get_ses. do 4 wp_step.
    pose proof (steady_fits k ClientToServer w Hw) as (Hok & _). cbn [src] in Hok.
    assert (ep_ok (queue m [] (client (ses w)))) as Hok1.
    { apply queue_ok; [|done]. split; [by eapply finish_size|]. unfold BATCH_FDS. cbn. unfold zlen. simpl. lia. }
    cbn [ses client set_client]. destruct (flush ks _) as [[r e] sn] eqn:Hfl.
    destruct (flush_ok _ _ _ _ _ Hok1 Hfl) as [Hr _]. destruct r; [by wp_step|by wp_step|done].
Qed.

(** ** What other sessions' actions change *)
Lemma quiet_register_offer id v dir : quiet (usage ∘ ses) (register id "wl_data_offer" v dir).
Proof.
  intros w u w' HH. unfold register, get_ses, mod_ses in HH. cbv zeta in HH.
  apply bind_Done in HH as ([] & ? & [_ <-]%reject_if_Done & HH).
  apply bind_Done in HH as (i & ? & [Hi <-]%require_Done & HH). apply find_Some in Hi as [_ Hi]. rewrite Hi in HH.
  cbn [String.eqb Ascii.eqb Bool.eqb andb when reject_if] in HH.
  apply bind_Done in HH as (s & ? & [<- <-]%gets_Done & HH).
  apply bind_Done in HH as ([] & ? & [_ <-]%ret_Done & HH).
  apply bind_Done in HH as ([] & ? & [_ <-]%ret_Done & HH).
  apply bind_Done in HH as (o & ? & [_ <-]%lift_Done & HH).
  apply bind_Done in HH as ([] & ? & <-%modify_Done & HH).
  apply bind_Done in HH as ([] & ? & [_ <-]%ret_Done & [_ <-]%ret_Done). done.
Qed.
Lemma quiet_emit_usage msg fds : quiet (usage ∘ ses) (emit msg fds).
Proof. unfold emit. quiet_steps. Qed.
Hint Resolve quiet_register_offer quiet_emit_usage : kryptik.

Lemma quiet_act a : quiet (usage ∘ ses) (act a).
Proof. unfold act, offer_selection, offer_to, cancel. quiet_steps. Qed.

(** ** Sessions in order *)
Definition live_ok (b : bool) (z : string) (l : Live) : Prop :=
  exists k, sess_ok k (l_s l) /\ k_awake k = b /\ k_zone k = z /\ k_id k = l_id l.
Definition alive (ls : list (Live * bool)) : list Live := fst <$> List.filter (fun p => negb p.2) ls.
#[local] Arguments alive : simpl never.
Definition flagged_ok (b : bool) (z : string) (ls : list (Live * bool)) : Prop :=
  Forall (live_ok b z) (alive ls) /\ Forall (fun p => Inv (shm (l_s p.1))) ls.

Lemma live_steady b z l c : live_ok b z l -> steady (mkKonst b z (l_id l) [] []) (mkWorld (l_s l) c).
Proof. intros (k & Hk & H1 & H2 & H3). by exists k. Qed.
Lemma steady_live b z id w : steady (mkKonst b z id [] []) w -> live_ok b z (mkLive (ses w) id).
Proof. intros (k & Hk & H1 & H2 & H3). by exists k. Qed.

Lemma sess_ok_unpunched k s : sess_ok k s -> sess_ok k (clear_unpunched s).
Proof. intros Hs. apply sess_ok_shm; [|done]. eapply shm_ok_unpunched, s_shm, Hs. Qed.
Lemma steady_unpunched k w : steady k w -> steady k (mkWorld (clear_unpunched (ses w)) (clip w)).
Proof. intros (k' & Hk & H1 & H2 & H3). exists k'. split; [by apply sess_ok_unpunched|done]. Qed.

Lemma live_usage_bounds b z ls : Forall (live_ok b z) ls -> tot_le tot_zero (live_usage ls).
Proof.
  induction 1 as [|l ls (k & Hk & _) _ IH]; [done|]. destruct (usage_bounds _ _ Hk) as [H1 _].
  tot.
Qed.

(** One session's turn: no panic, and either it stays, the zone within its budget, or it
    ended, the totals left as they were. *)
Lemma one_session_safe b z l p zone c :
  live_ok b z l -> tot_le (usage (l_s l)) zone -> tot_le zone ROOM ->
  exists l' ended zone' c', one_session say l p zone c = Some (l', ended, zone', c') /\ l_id l' = l_id l /\ Inv (shm (l_s l')) /\
    if (ended : bool) then zone' = zone
    else live_ok b z l' /\ tot_le zone' ZONE_MAX /\
      tot_add zone' (usage (l_s l)) = tot_add zone (usage (l_s l')).
Proof.
  intros Hl Hz Hr. destruct Hl as (k0 & Hk0 & E1 & E2 & E3). pose proof (usage_bounds _ _ Hk0) as [Hu _].
  assert (steady (mkKonst b z (l_id l) [] []) (mkWorld (l_s l) c)) as Hst by (by exists k0).
  unfold one_session. cbv zeta.
  pose proof (wp_step_safe _ p zone (usage (l_s l)) _ Hst Hu Hz Hr) as Hwp. unfold wp in Hwp.
  destruct (step p zone (usage (l_s l)) (mkWorld (l_s l) c)) as [[[]|e|] w]; [| |done].
  - destruct Hwp as (Hw & B1 & B2 & B3). destruct Hz as (Z1 & Z2 & Z3).
    unfold retotal. rewrite !(proj2 (Z.leb_le _ _)) by done. cbn [andb].
    pose proof (steady_live _ _ _ _ (steady_unpunched _ _ Hw)) as Hl'.
    eexists _, false, _, _. split; [done|]. split; [done|]. split_and!.
    + destruct Hl' as (k1 & Hk1 & _). by eapply s_shm.
    + exact (steady_live _ _ _ _ (steady_unpunched _ _ Hw)).
    + change (usage (clear_unpunched (ses w))) with (usage (ses w)). tot.
    + change (usage (l_s (mkLive (clear_unpunched (ses w)) (l_id l)))) with (usage (ses w)).
      change (usage (clear_unpunched (ses w))) with (usage (ses w)). unfold tot_add. cbn. f_equal; lia.
  - pose proof (steady_unpunched _ _ Hwp) as Hup.
    destruct (refuse_total _ (say e) (refuse_send p) _ Hup) as (w' & -> & _ & Hsh).
    eexists _, true, _, _. split_and!; [done..| |done]. cbn. rewrite Hsh.
    destruct Hup as (k1 & Hk1 & _). by apply (s_shm _ _ Hk1).
Qed.

Lemma run_sessions_safe b z ls : forall ps zone c done_ rest,
  Forall (live_ok b z) ls -> tot_le tot_zero done_ -> tot_le done_ rest -> budgeted ls done_ ->
  zone = tot_add (live_usage ls) rest -> tot_le zone ROOM ->
  exists ls' zone' c', run_sessions say ls ps zone c = Some (ls', zone', c') /\
    flagged_ok b z ls' /\ budgeted (alive ls') done_ /\ l_id <$> (fst <$> ls') = l_id <$> ls.
Proof.
  induction ls as [|l ls IH]; intros ps zone c done_ rest Hls Hd0 Hdr Hb Hz Hr.
  { exists [], zone, c. by destruct ps. }
  apply Forall_cons in Hls as [Hl Hls]. pose proof (live_usage_bounds _ _ _ Hls) as Hlu.
  destruct ps as [|p ps].
  { exists ((fun l => (l, false)) <$> (l :: ls)), zone, c.
    assert (forall k, alive ((fun l => (l, false)) <$> k) = k) as Ha.
    { intros k. unfold alive. induction k as [|x k IHk]; [done|]. cbn. by rewrite IHk. }
    split; [done|]. unfold flagged_ok. rewrite Ha. split_and!; [by constructor| |done|].
    { apply Forall_fmap, (Forall_impl (live_ok b z)); [by constructor|]. intros x (kx & Hkx & _). by eapply s_shm. }
    rewrite <-list_fmap_compose. by rewrite <-list_fmap_compose. }
  rewrite live_usage_cons in Hz. unfold budgeted in Hb. rewrite live_usage_cons in Hb.
  destruct (Hl) as (k0 & Hk0 & _). pose proof (usage_bounds _ _ Hk0) as [Hu _].
  destruct (one_session_safe b z l p zone c Hl) as (l' & ended & zone' & c' & He & Hid & Hinv & Hcase);
    [subst zone; tot|done|].
  cbn [run_sessions]. rewrite He. cbn [mbind option_bind].
  destruct ended; cbn in Hcase.
  - subst zone'. destruct (IH ps zone c' done_ (tot_add (usage (l_s l)) rest)) as (ls' & z' & c2 & -> & Hf & Hb' & Hids); try done.
    + tot.
    + tot.
    + subst zone. unfold tot_add. cbn. f_equal; lia.
    + cbn. destruct Hf as [Hf1 Hf2].
      eexists _, _, _. split; [done|]. split_and!; [split; [done|by constructor]|done|]. cbn. by rewrite Hid, Hids.
  - destruct Hcase as (Hl' & Hmax & Heq). destruct (Hl') as (k1 & Hk1 & _). pose proof (usage_bounds _ _ Hk1) as [Hu1 _].
    pose proof (f_equal t_bytes Heq) as Q1. pose proof (f_equal t_pools Heq) as Q2.
    pose proof (f_equal t_tops Heq) as Q3. cbn [tot_add t_bytes t_pools t_tops] in Q1, Q2, Q3. clear Heq.
    destruct (IH ps zone' c' (tot_add (usage (l_s l')) done_) (tot_add (usage (l_s l')) rest)) as (ls' & z' & c2 & -> & Hf & Hb' & Hids); try done.
    + tot.
    + tot.
    + subst zone; tot.
    + subst zone. destruct zone'. unfold tot_add in *. cbn in *. f_equal; lia.
    + tot.
    + cbn. eexists _, _, _. split; [done|]. split_and!.
      * destruct Hf as [Hf1 Hf2]. split; [|by constructor].
        change (alive ((l', false) :: ls')) with (l' :: alive ls'). by constructor.
      * change (alive ((l', false) :: ls')) with (l' :: alive ls'). unfold budgeted in *. rewrite live_usage_cons. tot.
      * cbn. by rewrite Hid, Hids.
Qed.

(** ** Actions *)
Lemma alive_cons l e ls : alive ((l, e) :: ls) = if e then alive ls else l :: alive ls.
Proof. by destruct e. Qed.

(** No panic; a session may end, the others use what they did. *)
Lemma act_on_safe b z a c ks ls :
  flagged_ok b z ls -> exists ls', act_on say a ls c ks = Some ls' /\ flagged_ok b z ls' /\
    tot_le (live_usage (alive ls')) (live_usage (alive ls)) /\ l_id <$> (fst <$> ls') = l_id <$> (fst <$> ls).
Proof.
  induction ls as [|[l e] ls IH]; intros [Hf1 Hf2]; [by exists []|].
  apply Forall_cons in Hf2 as [Hi Hf2]. rewrite alive_cons in *. cbn [act_on].
  assert (Forall (live_ok b z) (alive ls)) as Hals by (destruct e; [done|by apply Forall_cons in Hf1 as [_ ?]]).
  pose proof (live_usage_bounds _ _ _ Hals) as Hnn.
  case_bool.
  - destruct (IH (conj Hals Hf2)) as (ls' & -> & [Hg1 Hg2] & Hu & Hid). eexists. split; [done|].
    rewrite alive_cons. destruct e.
    + split_and!; [split; [done|by constructor]|done|cbn; by rewrite Hid].
    + apply Forall_cons in Hf1 as [Hl _]. rewrite !live_usage_cons.
      split_and!; [split; by constructor|tot|cbn; by rewrite Hid].
  - destruct e.
    + eexists. split; [done|]. rewrite alive_cons. split_and!; [split; [done|by constructor]|tot|done].
    + apply Forall_cons in Hf1 as [(k & Hk & E1 & E2 & E3) _]. rewrite live_usage_cons.
      pose proof (keeps_act k a (mkWorld (l_s l) c) Hk) as Hwp. unfold wp in Hwp.
      destruct (usage_bounds _ _ Hk) as [Hu0 _].
      destruct (act a (mkWorld (l_s l) c)) as [[[]|err|] w] eqn:Hact; [| |done].
      * eexists. split; [done|]. rewrite alive_cons, live_usage_cons. cbn [l_s].
        apply quiet_act in Hact. cbn in Hact. rewrite Hact.
        assert (live_ok b z (mkLive (ses w) (l_id l))) as Hlw by (by exists k).
        split_and!; [split; constructor; try done; by apply (s_shm _ _ Hwp)|tot|done].
      * destruct (refuse_total k (say (Refused err)) ks (mkWorld (ses w) c)) as (w' & -> & _ & Hsh); [by exists k|].
        eexists. split; [done|]. rewrite alive_cons.
        split_and!; [split; [done|constructor; [|done]]|tot|done]. cbn. rewrite Hsh. by apply (s_shm _ _ Hwp).
Qed.

Lemma act_all_safe b z acts c ks : forall ls writers,
  flagged_ok b z ls -> exists ls' writers', act_all say acts ls c writers ks = Some (ls', writers') /\
    flagged_ok b z ls' /\ tot_le (live_usage (alive ls')) (live_usage (alive ls)) /\
    l_id <$> (fst <$> ls') = l_id <$> (fst <$> ls).
Proof.
  induction acts as [|a acts IH]; intros ls writers Hf.
  - exists ls, writers. split_and!; try done.
  - cbn [act_all]. case_bool; [by apply IH|].
    destruct (act_on_safe b z a c ks ls Hf) as (ls1 & -> & Hf1 & Hu1 & Hid1). cbn [mbind option_bind].
    destruct (IH ls1 writers Hf1) as (ls2 & wr & -> & Hf2 & Hu2 & Hid2). exists ls2, wr.
    split_and!; [done|done|tot|congruence].
Qed.

(** ** Ended sessions *)
Definition gone_ok (gone : list (Z * Z * Z)) : Prop := Forall (fun g => 0 <= g.1.2) gone.

Lemma gone_sum_nonneg gone : gone_ok gone -> 0 <= foldr (fun g n => g.1.2 + n) 0 gone.
Proof. induction 1 as [|x l Hx _ IH]; cbn; [done|]. lia. Qed.

Lemma take_pools_sizes s ps s' : Inv s -> take_pools s = (Done ps, s') -> Forall (fun fs => 0 <= fs.2) ps.
Proof.
  intros Hs HH. unfold take_pools in HH. apply bind_Done in HH as (s0 & ? & [<- <-]%gets_Done & HH).
  apply bind_Done in HH as ([] & ? & _ & [<- _]%ret_Done). apply Forall_fmap, Forall_forall.
  intros [g p] Hin%elem_of_map_to_list. cbn. by eapply range_nonneg.
Qed.

Lemma bury_spec now ls : forall c rest gone c',
  bury ls now c = (rest, gone, c') -> Forall (fun p => Inv (shm (l_s p.1))) ls ->
  rest = (fun l => (l, false)) <$> alive ls /\ gone_ok gone.
Proof.
  induction ls as [|[l e] ls IH]; intros c rest gone c' Hb Hi; cbn [bury] in Hb.
  { simplify_eq. split; [done|constructor]. }
  apply Forall_cons in Hi as [Hl Hi].
  destruct (bury ls now c) as [[rest1 gone1] c1] eqn:Hr. destruct (IH _ _ _ _ Hr Hi) as [-> Hg].
  rewrite alive_cons. destruct e; simplify_eq; [|done]. split; [done|]. apply Forall_app. split; [done|].
  apply Forall_fmap. destruct (take_pools (shm (l_s l))) as [[ps|?|] s'] eqn:Ht; try constructor.
  by apply (take_pools_sizes _ _ _ Hl) in Ht.
Qed.

Lemma alive_all ls : existsb snd ls = false -> fst <$> ls = alive ls.
Proof.
  induction ls as [|[l e] ls IH]; [done|]. cbn. destruct e; [done|]. intros H1. rewrite alive_cons. by rewrite IH.
Qed.
Lemma alive_fewer ls : existsb snd ls = true -> (length (alive ls) < length ls)%nat.
Proof.
  assert (forall k, length (alive k) <= length k)%nat as Hle.
  { intros k. unfold alive. rewrite length_fmap. apply List.filter_length_le. }
  induction ls as [|[l e] ls IH]; [done|]. cbn. rewrite alive_cons. destruct e; [specialize (Hle ls); lia|].
  intros H1. specialize (IH H1). simpl. lia.
Qed.
Lemma alive_ids ls : sublist (l_id <$> alive ls) (l_id <$> (fst <$> ls)).
Proof.
  induction ls as [|[l e] ls IH]; [constructor|]. rewrite alive_cons. destruct e; cbn; by constructor.
Qed.
Lemma alive_false ls : alive ((fun l => (l, false)) <$> ls) = ls.
Proof. unfold alive. induction ls as [|x ls IH]; [done|]. cbn. by rewrite IH. Qed.

Lemma fst_false (ls : list Live) : fst <$> ((fun l => (l, false)) <$> ls) = ls.
Proof. induction ls as [|x ls IH]; [done|]. cbn. by rewrite IH. Qed.

(** The rounds of actions end, and leave sessions in order. *)
Lemma settle_actions_safe b z now ks fuel : forall ls c gone writers,
  (length ls < fuel)%nat -> flagged_ok b z ls -> gone_ok gone ->
  exists ls' gone' c' writers', settle_actions say fuel ls now c gone writers ks = Some (ls', gone', c', writers') /\
    Forall (live_ok b z) ls' /\ tot_le (live_usage ls') (live_usage (alive ls)) /\ gone_ok gone' /\
    sublist (l_id <$> ls') (l_id <$> (fst <$> ls)).
Proof.
  induction fuel as [|fuel IH]; intros ls c gone writers Hfuel Hf Hg; [lia|]. cbn [settle_actions].
  destruct (act_all_safe b z (actions c) (clear_actions c) ks ls writers Hf) as (ls1 & wr & -> & Hf1 & Hu & Hid).
  cbn [mbind option_bind]. destruct (existsb snd ls1) eqn:He.
  - destruct (bury ls1 now (clear_actions c)) as [[rest buried] c1] eqn:Hb.
    destruct Hf1 as [Hf1 Hf2]. destruct (bury_spec _ _ _ _ _ _ Hb Hf2) as [-> Hg2].
    destruct (IH ((fun l => (l, false)) <$> alive ls1) c1 (gone ++ buried) wr)
      as (ls' & gone' & c' & wr' & -> & Hl' & Hu' & Hg' & Hsub).
    + apply alive_fewer in He. rewrite length_fmap.
      apply (f_equal length) in Hid. rewrite !length_fmap in Hid. lia.
    + unfold flagged_ok. rewrite alive_false. split; [done|]. apply Forall_fmap, (Forall_impl (live_ok b z)); [done|].
      intros x (kx & Hkx & _). by eapply s_shm.
    + by apply Forall_app.
    + exists ls', gone', c', wr'. rewrite alive_false in Hu'. split_and!; [done|done|tot|done|].
      rewrite <-Hid. rewrite fst_false in Hsub. etransitivity; [done|]. apply alive_ids.
  - rewrite (alive_all _ He). eexists _, _, _, _. split; [done|]. destruct Hf1 as [Hf1 _].
    split_and!; [done|done|done|]. rewrite <-Hid. apply alive_ids.
Qed.

(** ** The proxy *)
Record proxy_ok (q : Proxy) : Prop := {
  q_sessions : Forall (live_ok (p_awake q) (p_zone q)) (p_sessions q);
  q_budget : tot_le (live_usage (p_sessions q)) ZONE_MAX;
  q_gone : gone_ok (p_gone q);
  q_ids : Forall (fun l => 0 < l_id l < p_next_id q) (p_sessions q);
  q_nodup : NoDup (l_id <$> p_sessions q);
  q_next : 0 < p_next_id q;
  q_clients : zlen (p_sessions q) <= Z.max 0 (p_max_clients q);
}.

(** What the pools of live and of ended sessions add up to, far from a [usize]'s end: each
    is at most 128 MiB and has a descriptor of the proxy's. *)
Definition room (q : Proxy) : Prop := tot_le (sum_totals (p_sessions q) (p_gone q)) ROOM.

Lemma sum_totals_split ls gone :
  sum_totals ls gone = tot_add (live_usage ls) (mkTotals (foldr (fun g n => g.1.2 + n) 0 gone) (zlen gone) 0).
Proof.
  unfold sum_totals. induction ls as [|l ls IH].
  - unfold tot_add. cbn. done.
  - cbn [foldr]. rewrite IH, live_usage_cons. unfold tot_add. cbn. f_equal; lia.
Qed.

Lemma new_session_is z cfd sfd : exists s, new_session z cfd sfd = Some s /\
  konst s = mkKonst false z 0 [] [] /\ usage s = tot_zero.
Proof.
  unfold new_session. assert (find "wl_display" = Some iface_wl_display) as -> by (vm_compute; done).
  simpl. eexists. split; [done|]. done.
Qed.

(** A session with the zone's name and rights, as accept makes it. *)
Lemma accepted_ok z cfd sfd s b id :
  new_session z cfd sfd = Some s ->
  live_ok b z (mkLive (mkSession (zone s) b id (client s) (server s) (objects s) (shm s) (toplevels s)
    (popups s) (globals s) (outputs s) (sources s) (devices s) (offers s) (placeholders s)
    (hidden_count s) (forwarded_c2s s) (forwarded_s2c s) (rewritten s)) id).
Proof.
  intros Hn. pose proof (new_session_ok _ _ _ _ Hn) as Hs.
  exists (mkKonst b z id [] []). split; [|done].
  pose proof (s_konst _ _ Hs) as Hkn. unfold konst in Hkn. injection Hkn as K1 K2 K3 K4 K5.
  assert (globals s = ∅) as Hg.
  { unfold new_session in Hn. destruct (find "wl_display"); [|done]. by injection Hn as <-. }
  pose proof (s_reach _ _ Hs) as Hre. destruct Hs. split; cbn; try done.
  - unfold konst. cbn. by rewrite K2, K4, K5.
  - intros i g. rewrite Hg, lookup_empty. done.
  - intros i ob Hob. specialize (Hre i ob Hob). revert Hre. destruct b; [|done].
    apply reachable_mono.
Qed.

Lemma accept_ok q conn :
  proxy_ok q -> (conn <> None -> zlen (p_sessions q) < p_max_clients q) ->
  exists q', accept q conn = Some q' /\ proxy_ok q' /\ p_zone q' = p_zone q /\ p_awake q' = p_awake q.
Proof.
  intros Hq Hc. destruct conn as [[cfd sfd]|]; [|by exists q]. cbn [accept].
  destruct (new_session_is (p_zone q) cfd sfd) as (s & Hn & Hk & Hu). rewrite Hn. cbn [mbind option_bind].
  pose proof (accepted_ok _ _ _ _ (p_awake q) (p_next_id q) Hn) as Hl. eexists. split; [done|]. split; [|done].
  destruct Hq. specialize (Hc ltac:(done)). split; cbn.
  - apply Forall_app. split; [done|]. by constructor.
  - assert (forall l ls, live_usage (ls ++ [l]) = tot_add (live_usage ls) (usage (l_s l))) as Happ.
    { intros l ls. induction ls as [|x ls IH]; cbn [app]; rewrite !live_usage_cons.
      - change (live_usage []) with tot_zero. unfold tot_add. cbn. f_equal; lia.
      - rewrite IH. unfold tot_add. cbn. f_equal; lia. }
    rewrite Happ. cbn [l_s].
    match goal with |- tot_le (tot_add _ ?u) _ => change u with (usage s) end. rewrite Hu. tot.
  - done.
  - apply Forall_app. split; [eapply Forall_impl; [done|]; cbn; lia|]. constructor; [cbn; lia|done].
  - rewrite fmap_app. apply NoDup_app. split_and!; [done| |by apply NoDup_singleton].
    intros x (l & -> & Hin)%list_elem_of_fmap. cbn. rewrite list_elem_of_singleton.
    rewrite Forall_forall in q_ids0. specialize (q_ids0 _ Hin). lia.
  - lia.
  - rewrite zlen_app. change (zlen [_]) with 1. lia.
Qed.

Lemma sublist_Forall {A} (P : A -> Prop) l k : sublist l k -> Forall P k -> Forall P l.
Proof. intros Hs. induction Hs; [done|..]; rewrite ?Forall_cons; naive_solver. Qed.

(** A turn never panics, and keeps the proxy in order. *)
Lemma turn_ok q i :
  proxy_ok q -> room q ->
  exists q', turn say q i = Some q' /\ proxy_ok q' /\ p_zone q' = p_zone q /\ p_awake q' = p_awake q.
Proof.
  intros Hq Hr. unfold turn. cbv zeta. unfold room in Hr. rewrite sum_totals_split in *.
  set (g := mkTotals _ _ 0) in *.
  assert (tot_le tot_zero g) as Hg0.
  { subst g. unfold tot_le. cbn. pose proof (zlen_nonneg (p_gone q)). split; [|lia].
    apply gone_sum_nonneg, (q_gone _ Hq). }
  clearbody g.
  destruct (run_sessions_safe _ _ (p_sessions q) (in_polled i) (tot_add (live_usage (p_sessions q)) g)
    (p_clip q) tot_zero g (q_sessions _ Hq)) as (ls & zn & c & -> & Hf & Hb & Hid); try done.
  { pose proof (q_budget _ Hq). tot. }
  cbn [mbind option_bind].
  destruct (settle_actions_safe (p_awake q) (p_zone q) (in_now i) (in_act_send i) (S (S (length ls))) ls (in_gesture i c)
    (p_gone q) (p_writers q)) as (ls' & gone' & c' & wr & -> & Hl & Hu & Hg & Hsub); [lia|done|apply (q_gone _ Hq)|].
  cbn [mbind option_bind]. rewrite Hid in Hsub.
  destruct (accept_ok (mkProxy (p_zone q) (p_awake q) (p_max_clients q) ls' c' (p_next_id q)
      (List.filter (fun g => negb (g.2 <=? in_later i)) gone') (in_writers i wr)
      (p_punched q ++ (fst <$> List.filter (fun g => g.2 <=? in_later i) gone')))
    (if zlen (p_sessions q) <? p_max_clients q then in_accept i else None)) as (q' & Hq' & Hok & Hz & Ha).
  - destruct Hq. split; cbn; try done.
    + tot.
    + apply Forall_forall. intros x [Hx _]%list_elem_of_In%List.filter_In.
      unfold gone_ok in Hg. rewrite Forall_forall in Hg. apply Hg. by apply list_elem_of_In.
    + assert (Forall (fun n => 0 < n < p_next_id q) (l_id <$> ls')) as Hids.
      { eapply sublist_Forall; [done|]. by apply Forall_fmap. }
      by apply Forall_fmap in Hids.
    + by eapply sublist_NoDup.
    + apply sublist_length in Hsub. rewrite !length_fmap in Hsub. unfold zlen in *. lia.
  - cbn. apply sublist_length in Hsub. rewrite !length_fmap in Hsub. intros Hne.
    destruct (Z.ltb_spec (zlen (p_sessions q)) (p_max_clients q)); [|done]. unfold zlen in *. lia.
  - exists q'. by rewrite Hq'.
Qed.
End safe.

(** * The proxy, from its start

    Every proxy a zone's clients and the compositor can drive this one to, turn by turn,
    whatever they send: it never panics, and what the invariants of its sessions say of its
    objects, its memory and its clients. *)
From S2P Require Import Demo.

(** ** Reachable proxies *)
Definition fresh_proxy (zone : string) (awake : bool) (max_clients : Z) : Proxy :=
  mkProxy zone awake max_clients [] default_clipboard 1 [] [] [].

Lemma not_reachable b n :
  n ∈ reachable b ->
  (n ∉ ["wl_shell"; "wl_shell_surface"; "wl_fixes"]) /\
  (b = false -> n ∉ ["zwp_idle_inhibit_manager_v1"; "zwp_idle_inhibitor_v1"]).
Proof.
  assert (Forall (fun n => (n ∉ ["wl_shell"; "wl_shell_surface"; "wl_fixes"]) /\
    (b = false -> n ∉ ["zwp_idle_inhibit_manager_v1"; "zwp_idle_inhibitor_v1"])) (reachable b)) as HF.
  { destruct b; apply (bool_decide_unpack _); vm_compute; exact I. }
  rewrite Forall_forall in HF. apply HF.
Qed.

Section reach.
Context `{Os} (say : StepError -> string).

(** Any number of turns with any input, the pools of live and ended sessions adding up to less
    than 2^62 bytes before each. *)
Inductive reachable_proxy : Proxy -> Prop :=
| proxy_starts zone awake max : reachable_proxy (fresh_proxy zone awake max)
| proxy_turns q i q' : reachable_proxy q -> room q -> turn say q i = Some q' -> reachable_proxy q'.

Lemma fresh_proxy_ok zone awake max : proxy_ok (fresh_proxy zone awake max).
Proof. split; cbn; try done; try (by constructor). unfold zlen. cbn. lia. Qed.

Lemma reachable_proxy_ok q : reachable_proxy q -> proxy_ok q.
Proof.
  induction 1 as [|q i q' _ IH Hr Ht]; [apply fresh_proxy_ok|].
  destruct (turn_ok say q i IH Hr) as (q'' & Ht' & Hok & _). congruence.
Qed.

Lemma reachable_session q l :
  reachable_proxy q -> l ∈ p_sessions q -> live_ok (p_awake q) (p_zone q) l.
Proof.
  intros Hq Hl. pose proof (q_sessions _ (reachable_proxy_ok q Hq)) as HF.
  rewrite Forall_forall in HF. by apply HF.
Qed.


(** C5: The live sessions of a zone together never hold more shared memory, pools
    or toplevels than the zone's budget. *)
Theorem zone_within_budget q :
  reachable_proxy q ->
  t_bytes (live_usage (p_sessions q)) <= MAX_SHM_BYTES_PER_ZONE /\
  t_pools (live_usage (p_sessions q)) <= MAX_SHM_POOLS_PER_ZONE /\
  t_tops (live_usage (p_sessions q)) <= MAX_TOPLEVELS_PER_ZONE.
Proof. intros Hq. apply (q_budget _ (reachable_proxy_ok q Hq)). Qed.

(** C4: Every live object of every client has an interface of the allowlist, of
    the proxy's own globals or created by one of those; without the right to hold the screen
    awake none is the idle-inhibit manager or an inhibitor. *)
Theorem interfaces_confined q l id ob :
  reachable_proxy q -> l ∈ p_sessions q -> get id (objects (l_s l)) = Some ob ->
  i_name ob.1 ∈ reachable (p_awake q) /\
  (p_awake q = false -> i_name ob.1 ∉ ["zwp_idle_inhibit_manager_v1"; "zwp_idle_inhibitor_v1"]) /\
  i_name ob.1 ∉ ["wl_shell"; "wl_shell_surface"; "wl_fixes"].
Proof.
  intros Hq Hl Hg. destruct (reachable_session q l Hq Hl) as (k & Hs & Hk & _).
  pose proof (s_reach _ _ Hs id ob Hg) as Hr. rewrite Hk in Hr. split_and!; [done| |].
  - intros Ha. by apply (not_reachable _ _ Hr).
  - apply (not_reachable _ _ Hr).
Qed.

(** C6: A session's counters are exact and bounded: its shared memory is the sum of
    its pools, its toplevels and popups are the live objects of those interfaces, its objects
    are those of its two id ranges. *)
Theorem session_accounting q l :
  reachable_proxy q -> l ∈ p_sessions q ->
  let s := l_s l in
  shm_pool_bytes (shm s) = msum p_range (pools (shm s)) /\
  shm_pool_bytes (shm s) <= MAX_SHM_BYTES_PER_SESSION /\
  shm_pool_count (shm s) = Z.of_nat (size (pools (shm s))) /\
  shm_pool_count (shm s) <= MAX_SHM_POOLS_PER_SESSION /\
  toplevels s = obj_count (named "xdg_toplevel") (objects s) /\
  toplevels s <= MAX_TOPLEVELS_PER_SESSION /\
  popups s = obj_count (named "xdg_popup") (objects s) /\
  popups s <= MAX_POPUPS_PER_SESSION /\
  o_live (objects s) = obj_count (fun _ => true) (objects s) /\
  o_live (objects s) <= MAX_OBJECTS.
Proof.
  intros Hq Hl. destruct (reachable_session q l Hq Hl) as (k & Hs & _). destruct Hs, s_shm, s_objs. done.
Qed.


(** What waits to be written to a client or the compositor is bounded, in bytes and
    in descriptors, and counted exactly. *)
Theorem queues_bounded q l e :
  reachable_proxy q -> l ∈ p_sessions q -> e = client (l_s l) \/ e = server (l_s l) ->
  pending_out e = zlen (out_bytes e) /\ pending_out e <= MAX_PENDING_BYTES /\
  pending_fds e = zlen (out_fds e) /\ pending_fds e <= MAX_PENDING_FDS.
Proof.
  intros Hq Hl He. destruct (reachable_session q l Hq Hl) as (k & Hs & _).
  assert (ep_fits e) as (Hok & ? & ?) by (destruct Hs; by destruct He as [-> | ->]).
  destruct Hok. done.
Qed.

(** Sessions have distinct numbers, never the proxy's own, and are no more than the
    descriptors allow; each serves this zone with this zone's rights. *)
Theorem sessions_named q :
  reachable_proxy q ->
  NoDup (l_id <$> p_sessions q) /\ zlen (p_sessions q) <= Z.max 0 (p_max_clients q) /\
  Forall (fun l => l_id l <> OWN /\ sid (l_s l) = l_id l /\ zone (l_s l) = p_zone q
                   /\ hold_awake (l_s l) = p_awake q) (p_sessions q).
Proof.
  intros Hq. pose proof (reachable_proxy_ok q Hq) as [Hses ? ? Hids ? ? ?]. split_and!; [done..|].
  apply Forall_forall. intros l Hl. rewrite Forall_forall in Hids, Hses.
  destruct (Hses l Hl) as (k & Hs & Ha & Hz & Hi). pose proof (Hids l Hl).
  destruct Hs. subst k. unfold OWN. cbn in *. split_and!; [lia|done..].
Qed.
End reach.

(** The clients admitted, all their sockets and queued descriptors, the pools of the zone
    and the proxy's own descriptors fit under the limit, wherever one client's do; and one is
    always admitted. *)
Theorem clients_fit limits raises max_clients :
  1 <= max_clients ->
  let n := fit_descriptors limits raises max_clients in
  1 <= n <= max_clients /\
  forall cur max, limits = Some (cur, max) -> cur <= max -> (cur < max -> raises = true) ->
    max <= USIZE_MAX -> FDS_RESERVED + FDS_PER_SESSION <= max ->
    FDS_RESERVED + n * FDS_PER_SESSION <= max.
Proof.
  intros Hm. unfold fit_descriptors, clients_within, saturating_sub.
  destruct limits as [[cur max]|]; [|split; [lia|done]].
  set (c := if (cur <? max) && raises then max else cur).
  assert (0 < FDS_PER_SESSION) by done. assert (0 <= FDS_RESERVED) by done. split.
  - destruct (Z.ltb_spec (Z.max (Z.min max_clients (Z.max 0 (Z.min c USIZE_MAX - FDS_RESERVED) / FDS_PER_SESSION)) 1)
      max_clients); lia.
  - intros cur' max' E Hle Hr Hu Hone. injection E as <- <-.
    assert (c = max) as ->.
    { subst c. destruct (Z.ltb_spec cur max); cbn [andb]; [by rewrite Hr by lia|lia]. }
    rewrite (Z.min_l max USIZE_MAX), (Z.max_r 0) by lia.
    pose proof (Z.mul_div_le (max - FDS_RESERVED) FDS_PER_SESSION ltac:(done)) as Hd.
    assert (1 <= (max - FDS_RESERVED) / FDS_PER_SESSION) as H1.
    { apply Z.div_le_lower_bound; lia. }
    destruct (Z.ltb_spec (Z.max (Z.min max_clients ((max - FDS_RESERVED) / FDS_PER_SESSION)) 1) max_clients);
      nia.
Qed.

(** ** The theorems at a proxy with a client *)
Definition demo_say (_ : StepError) : string := "refused".
Definition demo_input (recv : list RecvResult) (conn : option (Z * Z)) : Input :=
  mkInput ((fun r => mkPolled false (Some r) None [] [] []) <$> recv) id 0 0 [] id conn.
Definition demo_turn (q : Proxy) (i : Input) : Proxy := default q (@turn demo_os demo_say q i).

(** A client connects, asks for the registry, and is answered with the proxy's own globals. *)
Definition demo_get_registry : bytes := encode_header (mkHeader 1 1 12) ++ bytes_of_u32 2.
Definition demo_start : Proxy := fresh_proxy "work" false 16.
Definition demo_accepted : Proxy := demo_turn demo_start (demo_input [] (Some (5, 6))).
Definition demo_proxy : Proxy := demo_turn demo_accepted (demo_input [Received demo_get_registry [] false] None).
Definition demo_live : Live := default (mkLive (demo_session iface_wl_registry) 0) (p_sessions demo_proxy !! 0%nat).


Ltac room_now := repeat split; vm_compute; discriminate.

Lemma demo_reachable : @reachable_proxy demo_os demo_say demo_proxy.
Proof.
  apply (proxy_turns demo_say demo_accepted (demo_input [Received demo_get_registry [] false] None));
    [|room_now|vm_compute; reflexivity].
  apply (proxy_turns demo_say demo_start (demo_input [] (Some (5, 6))));
    [apply proxy_starts|room_now|vm_compute; reflexivity].
Qed.

Lemma demo_live_in : demo_live ∈ p_sessions demo_proxy.
Proof. apply (list_elem_of_lookup_2 _ 0%nat). vm_compute. reflexivity. Qed.


Lemma zone_within_budget_witness :
  t_bytes (live_usage (p_sessions demo_proxy)) <= MAX_SHM_BYTES_PER_ZONE /\
  t_pools (live_usage (p_sessions demo_proxy)) <= MAX_SHM_POOLS_PER_ZONE /\
  t_tops (live_usage (p_sessions demo_proxy)) <= MAX_TOPLEVELS_PER_ZONE.
Proof. apply (@zone_within_budget demo_os demo_say), demo_reachable. Defined.

Lemma interfaces_confined_witness :
  "wl_registry" ∈ reachable false /\
  (false = false -> "wl_registry" ∉ ["zwp_idle_inhibit_manager_v1"; "zwp_idle_inhibitor_v1"]) /\
  "wl_registry" ∉ ["wl_shell"; "wl_shell_surface"; "wl_fixes"].
Proof.
  apply (@interfaces_confined demo_os demo_say demo_proxy demo_live 2 (iface_wl_registry, 1));
    [apply demo_reachable|apply demo_live_in|vm_compute; reflexivity].
Defined.

Lemma session_accounting_witness :
  let s := l_s demo_live in
  shm_pool_bytes (shm s) = msum p_range (pools (shm s)) /\
  shm_pool_bytes (shm s) <= MAX_SHM_BYTES_PER_SESSION /\
  shm_pool_count (shm s) = Z.of_nat (size (pools (shm s))) /\
  shm_pool_count (shm s) <= MAX_SHM_POOLS_PER_SESSION /\
  toplevels s = obj_count (named "xdg_toplevel") (objects s) /\
  toplevels s <= MAX_TOPLEVELS_PER_SESSION /\
  popups s = obj_count (named "xdg_popup") (objects s) /\
  popups s <= MAX_POPUPS_PER_SESSION /\
  o_live (objects s) = obj_count (fun _ => true) (objects s) /\
  o_live (objects s) <= MAX_OBJECTS.
Proof.
  apply (@session_accounting demo_os demo_say demo_proxy demo_live); [apply demo_reachable|apply demo_live_in].
Defined.


Lemma queues_bounded_witness :
  let e := client (l_s demo_live) in
  pending_out e = zlen (out_bytes e) /\ pending_out e <= MAX_PENDING_BYTES /\
  pending_fds e = zlen (out_fds e) /\ pending_fds e <= MAX_PENDING_FDS.
Proof.
  apply (@queues_bounded demo_os demo_say demo_proxy demo_live);
    [apply demo_reachable|apply demo_live_in|left; reflexivity].
Defined.

Lemma sessions_named_witness :
  NoDup (l_id <$> p_sessions demo_proxy) /\ zlen (p_sessions demo_proxy) <= Z.max 0 16 /\
  Forall (fun l => l_id l <> OWN /\ sid (l_s l) = l_id l /\ zone (l_s l) = "work"
                   /\ hold_awake (l_s l) = false) (p_sessions demo_proxy).
Proof. apply (@sessions_named demo_os demo_say demo_proxy), demo_reachable. Defined.

Lemma clients_fit_witness :
  1 <= fit_descriptors (Some (1024, 4096)) true 16 <= 16 /\
  FDS_RESERVED + fit_descriptors (Some (1024, 4096)) true 16 * FDS_PER_SESSION <= 4096.
Proof.
  destruct (clients_fit (Some (1024, 4096)) true 16 ltac:(lia)) as [H1 H2]. split; [exact H1|].
  apply (H2 1024 4096); [reflexivity|lia|reflexivity|vm_compute; discriminate|vm_compute; discriminate].
Defined.
