(* ===== verification/Control.v ===== *)
(** * compositor/wlproxy/src/control.rs: the move gesture's requests

    One connection at a time asks for the zone's selection ([take]), gives the zone another
    zone's ([give]), or ends the one taken ([clear]). What the kernel answers to each read
    and write is an argument; how an error reads ([say]) is a parameter. *)
From S2P Require Import Prelude Bytes WlPolicy Clipboard.
Open Scope string_scope.
Open Scope list_scope.
Open Scope Z_scope.

Definition DEADLINE : Z := 2000.
Definition LINE_MAX : Z := 128.

Inductive Request : Type :=
| Take
| Clear (generation : Z)
| Give (mime : string) (data : bytes).

#[export] Instance Request_eq_dec : EqDecision Request.
Proof. solve_decision. Defined.

Inductive CtlError : Type :=
| LineTooLong
| LineNotUtf8
| NotAGeneration (text : string)
| NotAType (text : string)
| NotALength (text : string)
| TooManyBytes (len : Z)
| BytesPastLength
| NotARequest
| RequestLate
| RequestOverBound
| SelectionTooLarge
| CopierLate
| SelectionChanged
| NoType
| NoPipe
| SelectionChangedSince.

(** [buf.iter().position(|&b| b == b'\n')], with what is before it and after it. *)
Fixpoint cut_line (buf : bytes) : option (bytes * bytes) :=
  match buf with
  | [] => None
  | b :: buf => if Z_of_byte b =? 10 then Some ([], buf)
                else (fun p => (b :: p.1, p.2)) <$> cut_line buf
  end.

(** [str::split(' ')], on the text's bytes: a space is one byte of its own in UTF-8. *)
Fixpoint split_space (l : bytes) : list bytes :=
  match l with
  | [] => [[]]
  | b :: l =>
    if Z_of_byte b =? 32 then [] :: split_space l
    else match split_space l with w :: ws => (b :: w) :: ws | [] => [[b]] end
  end.

(** [str::parse] of an unsigned integer of at most [max]: an optional plus, then digits. *)
Fixpoint digits (l : bytes) (acc : Z) : option Z :=
  match l with
  | [] => Some acc
  | b :: l => let d := Z_of_byte b - 48 in
              if between 0 9 d then digits l (acc * 10 + d) else None
  end.
Definition parse_uint (max : Z) (s : string) : option Z :=
  let l := as_bytes s in
  let l := match l with b :: rest => if Z_of_byte b =? 43 then rest else l | [] => l end in
  match l with
  | [] => None
  | _ => n ← digits l 0; if n <=? max then Some n else None
  end.

Definition U64_MAX : Z := 18446744073709551615.

(** [parse]: one request, once it has all come. *)
Definition parse_give (mime len : string) (rest : bytes) : result (option Request) CtlError :=
  if negb (existsb (String.eqb mime) MOVE_TYPES) then Err (NotAType mime) else
  match parse_uint USIZE_MAX len with
  | None => Err (NotALength len)
  | Some n =>
    if n >? MAX_MOVE_BYTES then Err (TooManyBytes n)
    else if zlen rest >? n then Err BytesPastLength
    else if zlen rest <? n then Ok None
    else Ok (Some (Give mime rest))
  end.

Definition parse (buf : bytes) : result (option Request) CtlError :=
  match cut_line buf with
  | None => if zlen buf >? LINE_MAX then Err LineTooLong else Ok None
  | Some (line, rest) =>
    match from_utf8 line with
    | None => Err LineNotUtf8
    | Some line =>
      let words := str_of_bytes <$> split_space (as_bytes line) in
      match words with
      | [w] => if String.eqb w "take" && (zlen rest =? 0) then Ok (Some Take) else Err NotARequest
      | [w; g] =>
        if String.eqb w "clear" && (zlen rest =? 0)
        then match parse_uint U64_MAX g with Some n => Ok (Some (Clear n)) | None => Err (NotAGeneration g) end
        else Err NotARequest
      | [w; mime; len] =>
        if String.eqb w "give" then parse_give mime len rest else Err NotARequest
      | _ => Err NotARequest
      end
    end
  end.

Inductive State : Type :=
| SRequest (buf : bytes)
| STaking (pipe : Z) (mime : string) (generation : Z) (data : bytes)
| SReplying (out : bytes) (pos : Z).

Record Control := mkControl {
  c_deadline : Z;
  c_state : State;
}.

(** [Control::new]. *)
Definition new_control (now : Z) : Control := mkControl (now + DEADLINE) (SRequest []).

(** [Control::reply]. *)
Definition reply (out : bytes) (now : Z) : Control := mkControl (now + DEADLINE) (SReplying out 0).

(** The kernel's answer to one read or write; [pipe2]'s is its two ends. *)
Inductive Io : Type :=
| IoData (data : bytes)
| IoEof
| IoWouldBlock
| IoError_
| IoWrote (n : Z)
| IoPipe (r w : Z).

Section control.
Context (say : CtlError -> string).

(** [Control::refuse]. *)
Definition refuse_move (why : CtlError) (now : Z) : Control :=
  reply (as_bytes ("error: " +:+ say why) ++ [x0a]) now.

Definition ok_line (generation : Z) (mime : string) (len : Z) : bytes :=
  as_bytes ("ok " +:+ pretty generation +:+ " " +:+ mime +:+ " " +:+ pretty len) ++ [x0a].

(** [Control::answer]; [pipe] is what [pipe2] answers. *)
Definition answer (r : Request) (c : Clipboard) (now : Z) (pipe : option (Z * Z)) : Control * Clipboard :=
  match r with
  | Take =>
    match selection c with
    | None => (reply (as_bytes "empty" ++ [x0a]) now, c)
    | Some sel =>
      match List.find (fun t => existsb (String.eqb t) (sel_mimes sel)) MOVE_TYPES with
      | None => (refuse_move NoType now, c)
      | Some mime =>
        match sel_data sel with
        | Some data => (reply (ok_line (generation c) mime (zlen data) ++ data) now, c)
        | None =>
          match pipe with
          | None => (refuse_move NoPipe now, c)
          | Some (r, w) =>
            (mkControl (now + DEADLINE) (STaking r mime (generation c) []),
             push_action (Send (sel_owner sel) (sel_source sel) mime w) c)
          end
        end
      end
    end
  | Give mime data =>
    (reply (as_bytes "ok" ++ [x0a]) now, clip_set (Some (mkSelection OWN 0 [mime] (Some data))) c)
  | Clear g =>
    if g =? generation c then (reply (as_bytes "ok" ++ [x0a]) now, clip_set None c)
    else (refuse_move SelectionChangedSince now, c)
  end.

(** One turn of [Control::step]'s loop, for one answer of the kernel: the state after it,
    and whether the loop returns, over or not. *)
Inductive Next : Type := Continue | Return (over : bool).

Definition step_request (buf : bytes) (k : Io) (pipe : option (Z * Z)) (m : Control) (c : Clipboard) (now : Z)
    : Control * Clipboard * Next :=
  match k with
  | IoError_ => (m, c, Return true)
  | _ =>
    let eof := match k with IoEof => true | _ => false end in
    let buf := match k with IoData d => buf ++ d | _ => buf end in
    match parse buf with
    | Ok (Some r) => let '(m, c) := answer r c now pipe in (m, c, Continue)
    | Ok None =>
      if eof then (mkControl (c_deadline m) (SRequest buf), c, Return true)
      else if now >=? c_deadline m then (refuse_move RequestLate now, c, Continue)
      else if zlen buf >? LINE_MAX + MAX_MOVE_BYTES then (refuse_move RequestOverBound now, c, Continue)
      else (mkControl (c_deadline m) (SRequest buf), c, Return false)
    | Err why => (refuse_move why now, c, Continue)
    end
  end.

Definition step_taking (pipe : Z) (mime : string) (gen : Z) (data : bytes) (k : Io) (m : Control) (c : Clipboard)
    (now : Z) : Control * Next :=
  match k with
  | IoData d =>
    let data := data ++ d in
    if zlen data >? MAX_MOVE_BYTES then (refuse_move SelectionTooLarge now, Continue)
    else (mkControl (c_deadline m) (STaking pipe mime gen data), Continue)
  | IoWouldBlock =>
    if now <? c_deadline m then (m, Return false) else (refuse_move CopierLate now, Continue)
  | IoEof =>
    if negb (generation c =? gen) then (refuse_move SelectionChanged now, Continue)
    else (reply (ok_line gen mime (zlen data) ++ data) now, Continue)
  | _ => (refuse_move SelectionChanged now, Continue)
  end.

Definition step_replying (out : bytes) (pos : Z) (k : Io) (m : Control) (now : Z) : Control * Next :=
  match k with
  | IoWrote n =>
    let pos := pos + n in
    (mkControl (c_deadline m) (SReplying out pos), if pos =? zlen out then Return true else Continue)
  | IoWouldBlock => (m, Return (now >=? c_deadline m))
  | _ => (m, Return true)
  end.

Definition step_once (k : Io) (pipe : option (Z * Z)) (m : Control) (c : Clipboard) (now : Z)
    : Control * Clipboard * Next :=
  match c_state m with
  | SRequest buf => step_request buf k pipe m c now
  | STaking p mime gen data => let '(m, n) := step_taking p mime gen data k m c now in (m, c, n)
  | SReplying out pos => let '(m, n) := step_replying out pos k m now in (m, c, n)
  end.

(** [Control::step], an answer of the kernel per turn of its loop; [None] while the answers
    given do not yet make it return. *)
Fixpoint step_control (ks : list (Io * option (Z * Z))) (m : Control) (c : Clipboard) (now : Z)
    : Control * Clipboard * option bool :=
  match ks with
  | [] => (m, c, None)
  | (k, pipe) :: ks =>
    match step_once k pipe m c now with
    | (m, c, Continue) => step_control ks m c now
    | (m, c, Return over) => (m, c, Some over)
    end
  end.
End control.

(** [Writer]: a paste of the proxy's own selection, as its reader drains it; [true] when done. *)
Definition WRITE_DEADLINE : Z := 10000.
Record Writer := mkWriterState { wr_data : bytes; wr_pos : Z; wr_deadline : Z }.
Definition new_paste (data : bytes) (now : Z) : Writer := mkWriterState data 0 (now + WRITE_DEADLINE).
Fixpoint step_writer (ks : list Io) (w : Writer) (now : Z) : Writer * option bool :=
  if wr_pos w <? zlen (wr_data w) then
    match ks with
    | [] => (w, None)
    | IoWrote n :: ks =>
      if n >? 0 then step_writer ks (mkWriterState (wr_data w) (wr_pos w + n) (wr_deadline w)) now
      else (w, Some true)
    | IoWouldBlock :: _ => (w, Some (now >=? wr_deadline w))
    | _ :: _ => (w, Some true)
    end
  else (w, Some true).

(** ** Lemmas *)

(** A printed number reads back. *)
Lemma digits_pretty_char x : (x < 10)%N -> Z_of_byte (Ascii.byte_of_ascii (pretty_N_char x)) = 48 + Z.of_N x.
Proof.
  intros Hx. assert (exists n, (n < 10)%nat /\ x = N.of_nat n) as (n & Hn & ->) by (exists (N.to_nat x); lia).
  do 10 (destruct n as [|n]; [done|]). lia.
Qed.

Lemma as_bytes_String a s : as_bytes (String a s) = Ascii.byte_of_ascii a :: as_bytes s.
Proof. done. Qed.

Lemma digits_pretty_N_go x s : digits (as_bytes (pretty_N_go x s)) 0 = digits (as_bytes s) (Z.of_N x).
Proof.
  revert s. induction (N.lt_wf_0 x) as [x _ IH]; intros s.
  assert (x = 0 \/ 0 < x)%N as [->|Hx] by lia; [by rewrite pretty_N_go_0|].
  rewrite pretty_N_go_step by done. rewrite IH by (apply N.div_lt; lia).
  rewrite as_bytes_String. cbn [digits].
  rewrite digits_pretty_char by (apply N.mod_lt; lia).
  assert (Z.of_N (x `mod` 10)%N = Z.of_N x mod 10) as Hm by (by rewrite N2Z.inj_mod).
  assert (Z.of_N (x / 10)%N = Z.of_N x / 10) as Hd by (by rewrite N2Z.inj_div).
  rewrite Hm, Hd. replace (between 0 9 (48 + Z.of_N x mod 10 - 48)) with true by (unfold between; symmetry; dlia).
  f_equal. dlia.
Qed.

Definition digit (b : byte) : Prop := 48 <= Z_of_byte b <= 57.

Lemma digits_pretty_N_go_digits x s : Forall digit (as_bytes s) -> Forall digit (as_bytes (pretty_N_go x s)).
Proof.
  revert s. induction (N.lt_wf_0 x) as [x _ IH]; intros s Hs.
  assert (x = 0 \/ 0 < x)%N as [->|Hx] by lia; [by rewrite pretty_N_go_0|].
  rewrite pretty_N_go_step by done. apply IH; [apply N.div_lt; lia|]. rewrite as_bytes_String. constructor; [|done].
  unfold digit. rewrite digits_pretty_char by (apply N.mod_lt; lia).
  assert (x `mod` 10 < 10)%N as Hm by (apply N.mod_lt; lia). revert Hm.
  generalize (x `mod` 10)%N. clear. intros. lia.
Qed.

Lemma pretty_digits n :
  0 <= n -> Forall digit (as_bytes (pretty n)) /\ digits (as_bytes (pretty n)) 0 = Some n /\ as_bytes (pretty n) <> [].
Proof.
  intros Hn. destruct n as [|n|n]; [|..|lia].
  - split_and!; [|done|done]. constructor; [|done]. done.
  - change (pretty (Z.pos n)) with (pretty_N_go (N.pos n) "").
    split_and!; [apply digits_pretty_N_go_digits; constructor|by rewrite digits_pretty_N_go|].
    intros He. pose proof (digits_pretty_N_go (N.pos n) "") as Hd. rewrite He in Hd. by injection Hd.
Qed.

Lemma parse_uint_pretty max n : 0 <= n <= max -> parse_uint max (pretty n) = Some n.
Proof.
  intros Hn. destruct (pretty_digits n) as (Hd & Hv & Hne); [lia|]. unfold parse_uint.
  destruct (as_bytes (pretty n)) as [|b l] eqn:Hb; [done|]. apply Forall_cons in Hd as [Hd _]. unfold digit in Hd.
  rewrite (proj2 (Z.eqb_neq (Z_of_byte b) 43)) by lia. rewrite Hv. cbn [mbind option_bind].
  by rewrite (proj2 (Z.leb_le n max)) by lia.
Qed.

(** Plain text: neither a newline nor anything beyond ASCII. *)
Definition plain_byte (b : byte) : bool := (Z_of_byte b <? 128) && negb (Z_of_byte b =? 10).
Definition word_byte (b : byte) : bool := plain_byte b && negb (Z_of_byte b =? 32).

Lemma cut_line_app l rest :
  Forall (fun b => plain_byte b = true) l -> cut_line (l ++ [x0a] ++ rest) = Some (l, rest).
Proof.
  induction 1 as [|b l Hb _ IH]; [done|]. cbn [app cut_line] in *.
  apply andb_true_iff in Hb as [_ Hb%negb_true_iff]. rewrite Hb.
  by rewrite IH.
Qed.

Lemma cut_line_none l : Forall (fun b => plain_byte b = true) l -> cut_line l = None.
Proof.
  induction 1 as [|b l Hb _ IH]; [done|]. cbn [cut_line].
  apply andb_true_iff in Hb as [_ Hb%negb_true_iff]. by rewrite Hb, IH.
Qed.

Lemma split_space_word w : Forall (fun b => word_byte b = true) w -> split_space w = [w].
Proof.
  induction 1 as [|b l Hb _ IH]; [done|]. cbn [split_space].
  apply andb_true_iff in Hb as [_ Hb%negb_true_iff]. by rewrite Hb, IH.
Qed.

Lemma split_space_app w rest :
  Forall (fun b => word_byte b = true) w -> split_space (w ++ [x20] ++ rest) = w :: split_space rest.
Proof.
  induction 1 as [|b l Hb _ IH]; [done|]. cbn [app split_space] in *.
  apply andb_true_iff in Hb as [_ Hb%negb_true_iff]. rewrite Hb.
  by rewrite IH.
Qed.

Lemma from_utf8_plain l : Forall (fun b => plain_byte b = true) l -> from_utf8 l = Some (str_of_bytes l).
Proof.
  intros Hl. unfold from_utf8. assert (is_Some (utf8 l)) as [cs ->]; [|done].
  induction Hl as [|b l Hb _ IH]; [by eexists|]. cbn [utf8].
  apply andb_true_iff in Hb as [Hb _]. rewrite Hb. destruct IH as [cs ->]. by eexists.
Qed.

(** ** [give], as the broker sends it *)
Definition give_line (mime : string) (len : Z) : bytes :=
  as_bytes "give" ++ [x20] ++ as_bytes mime ++ [x20] ++ as_bytes (pretty len).
Definition give_message (mime : string) (data : bytes) : bytes :=
  give_line mime (zlen data) ++ [x0a] ++ data.

Lemma move_types_plain :
  forallb (fun m => forallb word_byte (as_bytes m) && (zlen (as_bytes m) <=? 64)) MOVE_TYPES = true.
Proof. vm_compute. done. Qed.

Lemma move_type_word m :
  m ∈ MOVE_TYPES -> Forall (fun b => word_byte b = true) (as_bytes m) /\ zlen (as_bytes m) <= 64.
Proof.
  intros Hm. pose proof move_types_plain as H. rewrite forallb_forall in H.
  specialize (H m ltac:(by apply list_elem_of_In)). apply andb_true_iff in H as [H1 H2].
  split; [by apply forallb_Forall|lia].
Qed.

Lemma digit_word l : Forall digit l -> Forall (fun b => word_byte b = true) l.
Proof. intros Hl. eapply Forall_impl; [exact Hl|]. unfold digit, word_byte, plain_byte. intros b Hb. lia. Qed.

Lemma word_plain l : Forall (fun b => word_byte b = true) l -> Forall (fun b => plain_byte b = true) l.
Proof. intros Hl. eapply Forall_impl; [exact Hl|]. unfold word_byte. by intros b [? _]%andb_true_iff. Qed.

(** What follows a [give] line. *)
Lemma parse_give_line mime len rest :
  mime ∈ MOVE_TYPES -> 0 <= len -> parse (give_line mime len ++ [x0a] ++ rest) = parse_give mime (pretty len) rest.
Proof.
  intros Hm Hl. destruct (move_type_word _ Hm) as [Hw _]. destruct (pretty_digits len Hl) as (Hd & _ & _).
  apply digit_word in Hd. unfold parse.
  assert (Forall (fun b => word_byte b = true) (as_bytes "give")) as Hg by (by repeat constructor).
  rewrite cut_line_app; cycle 1.
  { unfold give_line. rewrite !Forall_app. split_and!; try (by apply word_plain); by repeat constructor. }
  rewrite from_utf8_plain; cycle 1.
  { unfold give_line. rewrite !Forall_app. split_and!; try (by apply word_plain); by repeat constructor. }
  rewrite as_bytes_of_bytes. unfold give_line.
  rewrite (split_space_app (as_bytes "give")), (split_space_app (as_bytes mime)), split_space_word by done.
  cbn [fmap list_fmap]. rewrite !str_of_as_bytes. done.
Qed.

Lemma prefix_app_cases {A} (p l k : list A) :
  p `prefix_of` l ++ k -> p `prefix_of` l \/ exists q, q `prefix_of` k /\ p = l ++ q.
Proof.
  revert p. induction l as [|x l IH]; intros p Hp; [right; by exists p|].
  destruct p as [|y p]; [left; apply prefix_nil|]. cbn in Hp.
  pose proof (prefix_cons_inv_1 _ _ _ _ Hp) as ->. apply prefix_cons_inv_2, IH in Hp as [Hp|(q & Hq & ->)].
  - left. by apply prefix_cons.
  - right. by exists q.
Qed.

Lemma pretty_N_go_length k : forall x s,
  (x < 10 ^ N.of_nat k)%N -> (length (as_bytes (pretty_N_go x s)) <= k + length (as_bytes s))%nat.
Proof.
  induction k as [|k IH]; intros x s Hx.
  - assert (x = 0)%N as -> by (change (10 ^ N.of_nat 0)%N with 1%N in Hx; lia). by rewrite pretty_N_go_0.
  - assert (x = 0 \/ 0 < x)%N as [->|Hp] by lia; [rewrite pretty_N_go_0; lia|].
    rewrite pretty_N_go_step by done. etransitivity; [apply IH|].
    + apply N.Div0.div_lt_upper_bound. rewrite Nat2N.inj_succ, N.pow_succ_r' in Hx. done.
    + rewrite as_bytes_String. simpl. lia.
Qed.

Lemma zlen_pretty_move n : 0 <= n <= MAX_MOVE_BYTES -> zlen (as_bytes (pretty n)) <= 7.
Proof.
  intros Hn. destruct n as [|n|n]; [done| |lia]. change (pretty (Z.pos n)) with (pretty_N_go (N.pos n) "").
  unfold zlen. pose proof (pretty_N_go_length 7 (N.pos n) "") as Hl. change (length (as_bytes "")) with 0%nat in Hl.
  unfold MAX_MOVE_BYTES in Hn. change (10 ^ N.of_nat 7)%N with 10000000%N in Hl. lia.
Qed.

Lemma give_line_plain mime n :
  mime ∈ MOVE_TYPES -> 0 <= n <= MAX_MOVE_BYTES ->
  Forall (fun b => plain_byte b = true) (give_line mime n) /\ zlen (give_line mime n) <= LINE_MAX.
Proof.
  intros Hm Hn. destruct (move_type_word _ Hm) as [Hw Hl]. destruct (pretty_digits n) as (Hd & _ & _); [lia|].
  pose proof (zlen_pretty_move n Hn). split.
  - unfold give_line. rewrite !Forall_app. split_and!; try (by apply word_plain); try (by repeat constructor).
    by apply word_plain, digit_word.
  - unfold give_line, LINE_MAX. rewrite !zlen_app. change (zlen (as_bytes "give")) with 4. change (zlen [x20]) with 1. lia.
Qed.

Lemma Forall_prefix {A} (P : A -> Prop) l k : l `prefix_of` k -> Forall P k -> Forall P l.
Proof. intros [r ->] Hk. by apply Forall_app in Hk as [? _]. Qed.

Lemma zlen_prefix {A} (l k : list A) : l `prefix_of` k -> zlen l <= zlen k.
Proof. intros [r ->]. rewrite zlen_app. pose proof (zlen_nonneg r). lia. Qed.

(** A [give] is read back whole, and while it is arriving the parser waits for the rest. *)
Lemma parse_give_message mime data p :
  mime ∈ MOVE_TYPES -> zlen data <= MAX_MOVE_BYTES -> p `prefix_of` give_message mime data ->
  parse p = if decide (p = give_message mime data) then Ok (Some (Give mime data)) else Ok None.
Proof.
  intros Hm Hd Hp. pose proof (zlen_nonneg data).
  destruct (give_line_plain mime (zlen data) Hm) as [Hpl Hlen]; [lia|].
  assert (forall rest, rest `prefix_of` data -> parse (give_line mime (zlen data) ++ [x0a] ++ rest) =
    if zlen rest <? zlen data then Ok None else Ok (Some (Give mime rest))) as Hparse.
  { intros rest Hr. rewrite parse_give_line by done. unfold parse_give.
    replace (existsb (String.eqb mime) MOVE_TYPES) with true; cycle 1.
    { symmetry. apply existsb_exists. exists mime. split; [by apply list_elem_of_In|apply String.eqb_refl]. }
    unfold MAX_MOVE_BYTES in *. rewrite parse_uint_pretty by lia. cbn [negb].
    rewrite Z.gtb_ltb, (proj2 (Z.ltb_ge _ _)) by lia.
    rewrite Z.gtb_ltb, (proj2 (Z.ltb_ge (zlen data) (zlen rest))) by (by apply zlen_prefix). done. }
  unfold give_message in *. apply prefix_app_cases in Hp as [Hp|(q & Hq & ->)].
  - assert (zlen p <= zlen (give_line mime (zlen data))) as Hz by (by apply zlen_prefix).
    rewrite decide_False; cycle 1.
    { intros ->. rewrite !zlen_app in Hz. change (zlen [x0a]) with 1 in Hz. lia. }
    unfold parse. rewrite cut_line_none by (by eapply Forall_prefix).
    by rewrite Z.gtb_ltb, (proj2 (Z.ltb_ge LINE_MAX (zlen p))) by lia.
  - change ([x0a] ++ data) with (x0a :: data) in Hq. destruct q as [|x q].
    { rewrite app_nil_r, decide_False; cycle 1.
      { intros He. apply (f_equal zlen) in He. rewrite !zlen_app in He. change (zlen [x0a]) with 1 in He. lia. }
      unfold parse. rewrite cut_line_none by done. by rewrite Z.gtb_ltb, (proj2 (Z.ltb_ge LINE_MAX _)) by lia. }
    pose proof (prefix_cons_inv_1 _ _ _ _ Hq) as ->. apply prefix_cons_inv_2 in Hq.
    change (x0a :: q) with ([x0a] ++ q). rewrite Hparse by done.
    destruct (Z.ltb_spec (zlen q) (zlen data)) as [Hlt|Hge].
    + rewrite decide_False; [done|]. intros He. apply app_inv_head, app_inv_head in He. subst q. lia.
    + assert (q = data) as ->.
      { destruct Hq as [r ->]. rewrite zlen_app in Hge. destruct r; [by rewrite app_nil_r|].
        rewrite zlen_cons in Hge. pose proof (zlen_nonneg r). lia. }
      by rewrite decide_True.
Qed.

(** ** Bounds: what a move can make the proxy hold *)
Definition state_bounded (s : State) : Prop :=
  match s with
  | SRequest buf => zlen buf <= LINE_MAX + MAX_MOVE_BYTES
  | STaking _ mime _ data => mime ∈ MOVE_TYPES /\ zlen data <= MAX_MOVE_BYTES
  | SReplying _ _ => True
  end.

Lemma parse_Give buf mime data :
  parse buf = Ok (Some (Give mime data)) -> mime ∈ MOVE_TYPES /\ zlen data <= MAX_MOVE_BYTES.
Proof.
  unfold parse, parse_give. intros HH. repeat (case_match; simplify_eq); try done.
  split; [|lia]. match goal with H : negb (existsb _ _) = false |- _ => apply negb_false_iff, existsb_exists in H as (x & Hx & He) end.
  apply String.eqb_eq in He as ->. by apply list_elem_of_In.
Qed.

Lemma find_mime_type sel mime :
  List.find (fun t => existsb (String.eqb t) (sel_mimes sel)) MOVE_TYPES = Some mime ->
  mime ∈ MOVE_TYPES /\ mime ∈ sel_mimes sel.
Proof.
  intros [Hin Hex]%List.find_some. split; [by apply list_elem_of_In|].
  apply existsb_exists in Hex as (x & Hx & He). apply String.eqb_eq in He as ->. by apply list_elem_of_In.
Qed.

Lemma answer_bounded say r c now pipe : state_bounded (c_state (answer say r c now pipe).1).
Proof.
  unfold answer. destruct r as [|g|mime data]; [|by case_bool|done].
  destruct (selection c) as [sel|]; [|done].
  destruct (List.find _ _) as [mime|] eqn:Hf; [|done]. apply find_mime_type in Hf as [Hf _].
  destruct (sel_data sel); [done|]. by destruct pipe as [[r w]|].
Qed.

Lemma step_once_bounded say k pipe m c now :
  state_bounded (c_state m) -> state_bounded (c_state (step_once say k pipe m c now).1.1).
Proof.
  intros Hb. unfold step_once. destruct (c_state m) as [buf|p mime gen data|out pos] eqn:Hm.
  - assert (forall eof buf', state_bounded (c_state
      (match parse buf' with
       | Ok (Some r) => let '(m, c) := answer say r c now pipe in (m, c, Continue)
       | Ok None =>
         if (eof : bool) then (mkControl (c_deadline m) (SRequest buf), c, Return true)
         else if now >=? c_deadline m then (refuse_move say RequestLate now, c, Continue)
         else if zlen buf' >? LINE_MAX + MAX_MOVE_BYTES then (refuse_move say RequestOverBound now, c, Continue)
         else (mkControl (c_deadline m) (SRequest buf'), c, Return false)
       | Err why => (refuse_move say why now, c, Continue)
       end).1.1)) as Hgen.
    { intros eof buf'. destruct (parse buf') as [[r|]|why]; [|repeat case_bool; cbn; (done || lia)|done].
      pose proof (answer_bounded say r c now pipe) as Ha. by destruct (answer say r c now pipe). }
    destruct k as [d| | | | |]; cbn [step_request]; [exact (Hgen false (buf ++ d))|exact (Hgen true buf)
      |exact (Hgen false buf)|cbn; by rewrite Hm|exact (Hgen false buf)..].
  - destruct Hb as [Hmime Hlen]. destruct k; cbn [step_taking]; try case_bool; cbn; try done; [|by rewrite Hm].
    split; [done|lia].
  - destruct k; cbn [step_replying fst]; try case_bool; cbn; try done; by rewrite Hm.
Qed.

Lemma step_control_bounded say ks : forall m c now,
  state_bounded (c_state m) -> state_bounded (c_state (step_control say ks m c now).1.1).
Proof.
  induction ks as [|[k pipe] ks IH]; intros m c now Hb; [done|]. cbn [step_control].
  pose proof (step_once_bounded say k pipe m c now Hb) as Hs.
  destruct (step_once say k pipe m c now) as [[m' c'] []]; [by apply IH|done].
Qed.
