(* ===== verification/WireClaims.v ===== *)
(** * The claims about the proxy's parts

    The wire format, the protocol tables, titles and app_ids, the clipboard, the queues, the
    pools, a session's loop and the move gesture's socket, each with the theorem that makes it
    correct and a witness at a concrete input. *)
From S2P Require Import Prelude Bytes Wire Protocol ProtocolTables WlPolicy Clipboard Endpoint.
From S2P Require Import Objects Pools PoolsSafe Session Demo SessionSafe SessionSpec Control.
Open Scope string_scope.
Open Scope list_scope.
Open Scope Z_scope.

(** ** The wire format *)

(** The header parser accepts exactly the bytes the encoder writes for a header whose
    size is a multiple of four between 8 and 4096, followed by anything. *)
Theorem header_exact buf h :
  parse_header buf = Ok h <-> valid_header h /\ exists rest, buf = encode_header h ++ rest.
Proof.
  split.
  - intros Hp. destruct (parse_header_Ok _ _ Hp) as [Hv He]. split; [done|].
    exists (drop 8 buf). by rewrite He, take_drop.
  - intros [Hv [rest ->]]. by apply parse_encode_header.
Qed.

(** A string written into a message that fits the wire is read back: the
    message parses to its header, and its body decodes to that string and nothing else. *)
Theorem string_message_roundtrip object opcode s name :
  0 <= object <= U32_MAX -> 0 <= opcode <= U16_MAX -> wire_str s ->
  8 + zlen (enc_string s) <= MAX_MESSAGE_LEN ->
  exists m, finish (put_string s (new_writer object opcode)) = Some m /\
    parse_header m = Ok (mkHeader object opcode (zlen m)) /\
    decode (mkMessage name [AString false] 0 1) (drop 8 m) = Ok (mkDecoded None [(0, s)] None).
Proof.
  intros Ho Hc Hs Hlen. pose proof Hs as (_ & _ & Hsl).
  assert (put_string s (new_writer object opcode) = mkWriter object opcode (enc_string s)) as Hput
    by (rewrite put_string_spec by done; done).
  destruct (finish_is_Some (mkWriter object opcode (enc_string s))) as [m Hm]; [done|].
  pose proof (string_bytes_enc s Hs) as Hb. destruct (zlen_string_bytes _ _ Hb) as [Hmod Hge].
  destruct (finish_Some _ _ Hm) as (E & Hl & Hmax). cbn [mw_body mw_object mw_opcode] in *.
  exists m. rewrite Hput. split; [done|]. split.
  - rewrite E at 1. apply parse_encode_header. unfold valid_header, HEADER_LEN. cbn [h_object h_opcode h_size].
    split_and!; try lia. rewrite Hl. dlia.
  - assert (drop 8 m = enc_string s) as -> by (rewrite E; done).
    apply decode_iff; [unfold MAX_MESSAGE_LEN in *; lia|]. exists [VString (Some s)]. cbn [m_args].
    rewrite <-(app_nil_r (enc_string s)). eapply carries_cons; [split; [done|by intros]|done|constructor].
Qed.

(** A body decodes to [d] exactly when it carries one well-formed value per argument of
    the signature, with nothing left over, and [d] is what those values say. *)
Theorem decode_exact msg body d :
  zlen body <= USIZE_MAX ->
  decode msg body = Ok d <-> exists vs, carries 0 (m_args msg) vs body default_decoded d.
Proof. apply decode_iff. Qed.

(** ** Titles and app_ids *)

(** Whatever a client calls its window, the title shown is a string of at most 256
    bytes that starts with the zone's name in brackets and holds no control or bidirectional
    character. *)
Theorem title_carries_zone zone title :
  is_str zone -> zone_ok zone = true -> is_str title ->
  is_str (title_for zone title) /\ str_len (title_for zone title) <= MAX_TITLE_BYTES /\
  Forall (fun c => blanked c = false) (chars (title_for zone title)) /\
  exists shown, title_for zone title = ("[" +:+ zone +:+ "] ") +:+ shown.
Proof. apply title_for_spec. Qed.

(** An app_id names one zone: two zones' clients never get the same one, whatever
    they ask for. *)
Theorem app_id_names_zone z1 c1 z2 c2 :
  is_str z1 -> zone_ok z1 = true -> is_str z2 -> zone_ok z2 = true ->
  app_id_for z1 c1 = app_id_for z2 c2 -> z1 = z2.
Proof. apply app_id_for_zone. Qed.

(** ** The clipboard *)

(** Setting the selection bumps the generation, cancels the replaced source of a
    client once, unless it is the same one, and offers the new selection to the focused session. *)
Theorem selection_replaced sel c :
  let c' := clip_set sel c in
  selection c' = sel /\ focus c' = focus c /\ generation c' = generation c + 1 /\
  exists cancelled, actions c' = actions c ++ cancelled ++ (Offer <$> option_list (focus c)) /\
    (cancelled = [] \/ exists old, selection c = Some old /\ sel_owner old <> OWN /\
       is_some_and sel (is_source (sel_owner old) (sel_source old)) = false /\
       cancelled = [Cancel (sel_owner old) (sel_source old)]).
Proof. apply clip_set_spec. Qed.

(** Once a session is gone the clipboard neither focuses it, nor holds a selection
    of its, nor has an action left for it. *)
Theorem session_forgotten id c :
  let c' := session_gone id c in
  focus c' <> Some id /\
  (forall s, selection c' = Some s -> sel_owner s <> id) /\
  (forall a, a ∈ actions c' -> action_session a <> id).
Proof. apply session_gone_spec. Qed.

(** ** The queues *)

(** C39: Messages queued on an idle connection and flushed, whatever sendmsg answers: no
    panic, the bytes sent and those left are the messages' in order, and the descriptors sent are
    those of a prefix of the messages that covers every byte sent, so none is late. *)
Theorem flush_faithful ms e ks r e' s :
  ep_ok e -> outq e = [] -> Forall batch_ok ms -> flush ks (queue_all ms e) = (r, e', s) ->
  r <> Panic /\ ep_ok e' /\
  mjoin (fst <$> s) ++ out_bytes e' = mjoin (fst <$> ms) /\
  covered [] ms s (out_fds e').
Proof.
  intros He Hq Hms Hf. pose proof (queue_all_ok ms e Hms He) as Hok.
  destruct (flush_ok _ _ _ _ _ Hok Hf) as (Hr & He' & Hb & _).
  assert (grouped (outq e) []) as Hg0 by (rewrite Hq; constructor).
  pose proof (queue_all_grouped ms e [] Hg0) as Hg. cbn [app] in Hg. split_and!; [done..| |].
  - rewrite Hb. unfold out_bytes. clear -Hg. induction Hg as [|g q ms H IH]; [done|].
    rewrite fmap_app, join_app, join_fmap_cons. by rewrite IH.
  - eapply flush_grouped; [apply Hok| |by left|done|done]. done.
Qed.

(** ** The pools *)

(** Applying a surface's committed state, with that of the subsurfaces synchronised to it
    however they are nested, ends without a panic, and leaves every pool's holds counted. *)
Theorem apply_total `{Os} x s :
  Inv s -> exists s', apply x s = (Done tt, s') /\ Inv s'.
Proof.
  intros Hs. pose proof (wp_apply [] x s Hs) as Hw. unfold wp in Hw.
  destruct (apply x s) as [[[]|e|] s']; [|done..]. eauto.
Qed.

(** No request on pools, buffers or surfaces can panic, and each keeps the pools'
    accounts exact, whether it is served or refused. *)
Theorem pool_requests_safe `{Os} object body fds request created :
  keeps Inv (create_pool body fds) /\ keeps Inv (resize_pool object body) /\
  keeps Inv (create_buffer object created) /\ keeps Inv (attach object body) /\
  keeps Inv (commit object) /\ keeps Inv (get_subsurface body) /\
  keeps Inv (subsurface_request object request) /\ keeps Inv (delete_pool_id object) /\
  keeps Inv (delete_buffer_id object) /\ keeps Inv (delete_surface object).
Proof.
  split_and!; [apply keeps_create_pool|apply keeps_resize_pool|apply keeps_create_buffer|apply keeps_attach
    |apply keeps_commit|apply keeps_get_subsurface|apply keeps_subsurface_request|..]; intros s Hs.
  - eapply wp_mono; [..|by apply wp_delete_pool_id]; [done|by intros].
  - eapply wp_mono; [..|by apply wp_delete_buffer_id]; [done|by intros].
  - eapply wp_mono; [..|by apply wp_delete_surface]; [done|by intros].
Qed.

(** ** A session's loop *)

(** From a session in order, its loop over one side's input ends with the session in order,
    the same zone's, whether every message was passed on or one was refused: it never panics. *)
Theorem pump_total `{Os} k dir w :
  WInv k w ->
  match pump dir w with
  | (Panic, _) => False
  | (_, w') => steady k w'
  end.
Proof.
  intros Hw. pose proof (wp_pump k dir w Hw) as Hp. unfold wp in Hp. by destruct (pump dir w) as [[[]|e|] w'].
Qed.

(** ** The move gesture's socket *)

(** A move's message is understood when its last byte arrives and waits for more on every
    prefix: the type and the bytes given are the ones parsed. *)
Theorem give_parsed mime data p :
  mime ∈ MOVE_TYPES -> zlen data <= MAX_MOVE_BYTES -> p `prefix_of` give_message mime data ->
  parse p = if decide (p = give_message mime data) then Ok (Some (Give mime data)) else Ok None.
Proof. apply parse_give_message. Qed.

(** Whatever arrives on the control socket and the pipe of a move, what the proxy
    keeps of it stays within a line and the most a move may carry. *)
Theorem control_bounded say ks m c now :
  state_bounded (c_state m) -> state_bounded (c_state (step_control say ks m c now).1.1).
Proof. apply step_control_bounded. Qed.

(** ** The theorems at concrete inputs *)
Lemma string_message_roundtrip_witness :
  exists m, finish (put_string "kryptik" (new_writer 5 2)) = Some m /\
    parse_header m = Ok (mkHeader 5 2 (zlen m)) /\
    decode (mkMessage "set_title" [AString false] 0 1) (drop 8 m) = Ok (mkDecoded None [(0, "kryptik")] None).
Proof.
  apply string_message_roundtrip; [lia|lia| |vm_compute; discriminate].
  split; [eexists; vm_compute; reflexivity|]. split; [|vm_compute; reflexivity].
  apply (bool_decide_unpack _). vm_compute. exact I.
Defined.

Lemma decode_exact_witness :
  exists vs, carries 0 [ANewId (Some "wl_registry")] vs (bytes_of_u32 2) default_decoded
    (mkDecoded (Some (2, "wl_registry")) [] None).
Proof.
  apply (decode_exact (mkMessage "get_registry" [ANewId (Some "wl_registry")] 0 1)); [vm_compute; discriminate|].
  vm_compute. reflexivity.
Defined.

Lemma title_carries_zone_witness :
  is_str (title_for "work" "mail") /\ str_len (title_for "work" "mail") <= MAX_TITLE_BYTES /\
  Forall (fun c => blanked c = false) (chars (title_for "work" "mail")) /\
  exists shown, title_for "work" "mail" = ("[" +:+ "work" +:+ "] ") +:+ shown.
Proof.
  apply title_carries_zone; [eexists; vm_compute; reflexivity|vm_compute; reflexivity|eexists; vm_compute; reflexivity].
Defined.

Lemma app_id_names_zone_witness : "work" = "work".
Proof.
  apply (app_id_names_zone "work" "kryptik.vault.x" "work" "kryptik/vault/x");
    first [eexists; vm_compute; reflexivity|vm_compute; reflexivity].
Defined.

Lemma flush_faithful_witness :
  let ms := [(demo_message 0 (bytes_of_u32 3), [9]); (demo_message 1 (bytes_of_u32 4), [])] in
  let f := flush [Sent 5; Sent 40] (queue_all ms (new_endpoint 3)) in
  f.1.1 <> Panic /\ ep_ok f.1.2 /\
  mjoin (fst <$> f.2) ++ out_bytes f.1.2 = mjoin (fst <$> ms) /\ covered [] ms f.2 (out_fds f.1.2).
Proof.
  intros ms f. apply (flush_faithful ms (new_endpoint 3) [Sent 5; Sent 40]).
  - apply new_endpoint_ok.
  - reflexivity.
  - apply (bool_decide_unpack _). vm_compute. exact I.
  - vm_compute. reflexivity.
Defined.

Lemma apply_total_witness : exists s', @apply demo_os 7 new_shm = (Done tt, s') /\ Inv s'.
Proof. apply (@apply_total demo_os 7 new_shm). apply new_shm_ok. Defined.

Lemma pump_total_witness :
  match new_session "work" 3 4 with
  | Some s => match @pump demo_os ClientToServer (mkWorld s default_clipboard) with
              | (Panic, _) => False
              | (_, w') => steady (mkKonst false "work" 0 [] []) w'
              end
  | None => False
  end.
Proof.
  destruct (new_session "work" 3 4) as [s|] eqn:Hs; [|discriminate Hs].
  apply (@pump_total demo_os (mkKonst false "work" 0 [] []) ClientToServer (mkWorld s default_clipboard)).
  exact (new_session_ok _ _ _ _ Hs).
Defined.

Lemma give_parsed_witness :
  parse (give_message "text/plain" (as_bytes "hi")) = Ok (Some (Give "text/plain" (as_bytes "hi"))).
Proof.
  rewrite (give_parsed "text/plain" (as_bytes "hi")).
  - vm_compute. reflexivity.
  - apply (bool_decide_unpack _). vm_compute. exact I.
  - vm_compute. discriminate.
  - reflexivity.
Defined.

Lemma control_bounded_witness :
  state_bounded (c_state (step_control (fun _ => "") [(IoData (as_bytes "take"), None)] (new_control 9)
    default_clipboard 0).1.1).
Proof. apply control_bounded. vm_compute. discriminate. Defined.
