(* ===== verification/Text.v ===== *)
(** * Text, as the daemon's parsers read it

    [str] methods of the standard library over the characters of a string: lines, trimming,
    words, splitting, prefixes, character classes, and the parse of integers. *)
From S2P Require Import Prelude Bytes.
Open Scope string_scope.
Open Scope list_scope.
Open Scope Z_scope.

(** [char::is_whitespace]: Unicode's White_Space. *)
Definition is_whitespace (c : Z) : bool :=
  between 9 13 c || (c =? 32) || (c =? 0x85) || (c =? 0xa0) || (c =? 0x1680)
  || between 0x2000 0x200a c || (c =? 0x2028) || (c =? 0x2029) || (c =? 0x202f)
  || (c =? 0x205f) || (c =? 0x3000).

(** One trailing carriage return, before a newline, is not part of a line. *)
Definition strip_cr (l : list Z) : list Z :=
  match reverse l with 13 :: r => reverse r | _ => l end.

(** [str::lines]. *)
Fixpoint lines_from (acc : list Z) (cs : list Z) : list (list Z) :=
  match cs with
  | [] => match acc with [] => [] | _ => [reverse acc] end
  | c :: cs => if c =? 10 then strip_cr (reverse acc) :: lines_from [] cs
               else lines_from (c :: acc) cs
  end.
Definition lines (cs : list Z) : list (list Z) := lines_from [] cs.

(** Lines written one after another, each with its newline. *)
Definition unlines (ls : list (list Z)) : list Z := mjoin ((fun l => l ++ [10]) <$> ls).

(** [split(c).next()]: up to the first [c]. *)
Fixpoint before (c : Z) (cs : list Z) : list Z :=
  match cs with
  | [] => []
  | x :: cs => if x =? c then [] else x :: before c cs
  end.

(** [str::trim_start], [str::trim]. *)
Fixpoint trim_start (cs : list Z) : list Z :=
  match cs with
  | [] => []
  | c :: cs' => if is_whitespace c then trim_start cs' else cs
  end.
Definition trim (cs : list Z) : list Z := reverse (trim_start (reverse (trim_start cs))).

(** [str::split_whitespace]: the runs of other characters. *)
Fixpoint words_from (acc : list Z) (cs : list Z) : list (list Z) :=
  match cs with
  | [] => match acc with [] => [] | _ => [reverse acc] end
  | c :: cs =>
    if is_whitespace c then
      match acc with [] => words_from [] cs | _ => reverse acc :: words_from [] cs end
    else words_from (c :: acc) cs
  end.
Definition words (cs : list Z) : list (list Z) := words_from [] cs.

(** [str::parse::<i32>]: a sign and digits, within the type's range. *)
Fixpoint digits_from (acc : Z) (cs : list Z) : option Z :=
  match cs with
  | [] => Some acc
  | c :: cs => if between 48 57 c then digits_from (acc * 10 + (c - 48)) cs else None
  end.
Definition parse_i32 (cs : list Z) : option Z :=
  match cs with
  | [] | [43] | [45] => None
  | 45 :: cs => v ← digits_from 0 cs; if v <=? 2147483648 then Some (- v) else None
  | c :: cs' => v ← digits_from 0 (if c =? 43 then cs' else cs);
                if v <=? 2147483647 then Some v else None
  end.

(** [str::parse] of an unsigned type: an optional plus and digits, up to [bound]. *)
Definition parse_unsigned (bound : Z) (cs : list Z) : option Z :=
  match cs with
  | [] | [43] => None
  | c :: cs' => v ← digits_from 0 (if c =? 43 then cs' else cs);
                if v <=? bound then Some v else None
  end.
Abbreviation U64_MAX := 18446744073709551615%Z.
Definition parse_u32 : list Z -> option Z := parse_unsigned U32_MAX.
Definition parse_u64 : list Z -> option Z := parse_unsigned U64_MAX.

(** [str::bytes], as numbers. *)
Definition octets (s : string) : list Z := Z_of_byte <$> as_bytes s.

(** [split_once(c)]. *)
Fixpoint split_once (c : Z) (cs : list Z) : option (list Z * list Z) :=
  match cs with
  | [] => None
  | x :: cs => if x =? c then Some ([], cs)
               else '(a, b) ← split_once c cs; Some (x :: a, b)
  end.

(** [split(c)]. *)
Fixpoint split_from (c : Z) (acc cs : list Z) : list (list Z) :=
  match cs with
  | [] => [reverse acc]
  | x :: cs => if x =? c then reverse acc :: split_from c [] cs else split_from c (x :: acc) cs
  end.
Definition split (c : Z) (cs : list Z) : list (list Z) := split_from c [] cs.

(** [strip_prefix(s)], and [strip_suffix(c)]. *)
Fixpoint strip_prefix (p cs : list Z) : option (list Z) :=
  match p, cs with
  | [], _ => Some cs
  | a :: p, c :: cs => if a =? c then strip_prefix p cs else None
  | _, [] => None
  end.

Definition strip_suffix (c : Z) (cs : list Z) : option (list Z) :=
  match reverse cs with
  | x :: r => if x =? c then Some (reverse r) else None
  | [] => None
  end.

(** Character classes of [char] and [u8]. *)
Definition is_digit (c : Z) : bool := between 48 57 c.
Definition is_lower (c : Z) : bool := between 97 122 c.
Definition is_graphic (c : Z) : bool := between 33 126 c.
Definition is_hexdigit (c : Z) : bool := is_digit c || between 65 70 c || between 97 102 c.
Definition is_control (c : Z) : bool := between 0 31 c || between 127 159 c.
(** [to_ascii_lowercase], on a byte. *)
Definition to_lower (c : Z) : Z := if between 65 90 c then c + 32 else c.

(** [String::from_utf8_lossy]: the longest beginning of a character that could have been one, or
    one byte that could not, becomes U+FFFD. *)
Fixpoint utf8_lossy (l : bytes) : list Z :=
  match l with
  | [] => []
  | b0 :: l0 =>
    let c0 := Z_of_byte b0 in
    if c0 <? 128 then c0 :: utf8_lossy l0
    else
      match l0 with
      | [] => [0xfffd]
      | b1 :: l1 =>
        let c1 := Z_of_byte b1 in
        if ok2 c0 && cont b1 then ((c0 - 192) * 64 + (c1 - 128)) :: utf8_lossy l1
        else if ok3 c0 c1 then
          match l1 with
          | [] => [0xfffd]
          | b2 :: l2 =>
            if cont b2
            then ((c0 - 224) * 4096 + (c1 - 128) * 64 + (Z_of_byte b2 - 128)) :: utf8_lossy l2
            else 0xfffd :: utf8_lossy l1
          end
        else if ok4 c0 c1 then
          match l1 with
          | [] => [0xfffd]
          | b2 :: l2 =>
            if cont b2 then
              match l2 with
              | [] => [0xfffd]
              | b3 :: l3 =>
                if cont b3
                then ((c0 - 240) * 262144 + (c1 - 128) * 4096 + (Z_of_byte b2 - 128) * 64
                      + (Z_of_byte b3 - 128)) :: utf8_lossy l3
                else 0xfffd :: utf8_lossy l2
              end
            else 0xfffd :: utf8_lossy l1
          end
        else 0xfffd :: utf8_lossy l0
      end
  end.

(** [Iterator::find_map]. *)
Fixpoint find_map {A B} (f : A -> option B) (l : list A) : option B :=
  match l with
  | [] => None
  | x :: l => match f x with Some y => Some y | None => find_map f l end
  end.

(** ** Words of printed lines *)
Lemma words_from_word acc w :
  forallb (fun c => negb (is_whitespace c)) w = true -> acc <> [] \/ w <> [] ->
  words_from acc w = [reverse acc ++ w].
Proof.
  revert acc. induction w as [|c w IH]; intros acc Hw Hne; simpl.
  - destruct acc; [naive_solver|]. by rewrite app_nil_r.
  - simpl in Hw. apply andb_true_iff in Hw as [Hc Hw]. apply negb_true_iff in Hc as ->.
    rewrite IH by (done || (left; done)). by rewrite reverse_cons, <-(assoc_L (++)).
Qed.

Lemma words_from_space acc w c cs :
  forallb (fun c => negb (is_whitespace c)) w = true -> acc <> [] \/ w <> [] -> is_whitespace c = true ->
  words_from acc (w ++ c :: cs) = (reverse acc ++ w) :: words_from [] cs.
Proof.
  revert acc. induction w as [|x w IH]; intros acc Hw Hne Hc; simpl.
  - rewrite Hc. destruct acc; [naive_solver|]. by rewrite app_nil_r.
  - simpl in Hw. apply andb_true_iff in Hw as [Hx Hw]. apply negb_true_iff in Hx as ->.
    rewrite IH by (done || (left; done)). by rewrite reverse_cons, <-(assoc_L (++)).
Qed.

(** A line without newlines, ended by one, is the first of the text's lines. *)
Lemma lines_from_app acc l cs :
  10 ∉ l -> lines_from acc (l ++ 10 :: cs) = strip_cr (reverse acc ++ l) :: lines_from [] cs.
Proof.
  revert acc. induction l as [|c l IH]; intros acc Hl; simpl.
  - by rewrite app_nil_r.
  - apply not_elem_of_cons in Hl as [Hc Hl]. rewrite (proj2 (Z.eqb_neq c 10)) by done.
    rewrite IH by done. by rewrite reverse_cons, <-(assoc_L (++)).
Qed.

(** ** Trimming *)
Lemma trim_start_id c l : is_whitespace c = false -> trim_start (c :: l) = c :: l.
Proof. intros Hc. simpl. by rewrite Hc. Qed.

Lemma trim_id c l l' d :
  is_whitespace c = false -> is_whitespace d = false -> c :: l = l' ++ [d] ->
  trim (c :: l) = c :: l.
Proof.
  intros Hc Hd E. unfold trim. rewrite trim_start_id, E, reverse_snoc, trim_start_id by done.
  by rewrite reverse_cons, reverse_involutive.
Qed.

Lemma trim_space_r c l l' d :
  is_whitespace c = false -> is_whitespace d = false -> c :: l = l' ++ [d] ->
  trim ((c :: l) ++ [32]) = c :: l.
Proof.
  intros Hc Hd E. unfold trim. rewrite <-app_comm_cons, trim_start_id by done.
  rewrite app_comm_cons, reverse_snoc. cbn [trim_start is_whitespace between andb orb Z.leb Z.eqb].
  change (is_whitespace 32) with true. cbn iota.
  rewrite E, reverse_snoc, trim_start_id by done. by rewrite reverse_cons, reverse_involutive.
Qed.

Lemma trim_space_l cs : trim (32 :: cs) = trim cs.
Proof. done. Qed.

Lemma split_once_app c l r : c ∉ l -> split_once c (l ++ c :: r) = Some (l, r).
Proof.
  induction l as [|x l IH]; intros Hl; simpl; [by rewrite Z.eqb_refl|].
  apply not_elem_of_cons in Hl as [Hx Hl]. rewrite (proj2 (Z.eqb_neq x c)), IH by done. done.
Qed.

Lemma strip_suffix_snoc c l : strip_suffix c (l ++ [c]) = Some l.
Proof. unfold strip_suffix. by rewrite reverse_snoc, Z.eqb_refl, reverse_involutive. Qed.

Lemma strip_cr_other l c : c <> 13 -> strip_cr (l ++ [c]) = l ++ [c].
Proof. intros Hc. unfold strip_cr. rewrite reverse_snoc. repeat case_match; congruence. Qed.

Lemma existsb_eqb_false c l : c ∉ l -> existsb (Z.eqb c) l = false.
Proof.
  intros H. apply not_true_iff_false. intros (x & Hx & ->%Z.eqb_eq)%existsb_exists.
  by apply H, list_elem_of_In.
Qed.

(** ** Lines written are lines read *)
Definition plain_line (l : list Z) : Prop := 10 ∉ l /\ last l <> Some 13.

Lemma strip_cr_plain l : last l <> Some 13 -> strip_cr l = l.
Proof.
  destruct l as [|x l _] using rev_ind; [done|]. rewrite last_snoc. intros H.
  apply strip_cr_other. congruence.
Qed.

Lemma lines_unlines ls : Forall plain_line ls -> lines (unlines ls) = ls.
Proof.
  intros H. unfold lines, unlines. induction H as [|l ls [Hn Hr] _ IH]; [done|].
  rewrite join_fmap_cons, <-(assoc_L (++)). cbn [app].
  rewrite lines_from_app, IH by done. by rewrite reverse_nil, strip_cr_plain.
Qed.

(** What the parser of numbers returns fits. *)
Lemma digits_from_nonneg acc cs v : 0 <= acc -> digits_from acc cs = Some v -> 0 <= v.
Proof.
  revert acc. induction cs as [|c cs IH]; intros acc Ha H; simpl in H; [by injection H as <-|].
  destruct (between 48 57 c) eqn:Hc; [|done]. apply IH in H; [done|]. unfold between in Hc. lia.
Qed.

Lemma parse_unsigned_range b cs v : parse_unsigned b cs = Some v -> 0 <= v <= b.
Proof.
  unfold parse_unsigned. intros H.
  assert (exists ds, (w ← digits_from 0 ds; if w <=? b then Some w else None) = Some v) as (ds & Hd)
    by (repeat case_match; eauto; discriminate).
  destruct (digits_from 0 ds) as [w|] eqn:Hw; [|done]. cbn in Hd.
  destruct (Z.leb_spec w b); [|done]. injection Hd as <-.
  apply digits_from_nonneg in Hw; lia.
Qed.

(** What is text already is read as it is. *)
Lemma utf8_lossy_utf8 l cs : utf8 l = Some cs -> utf8_lossy l = cs.
Proof.
  remember (length l) as n eqn:En. revert l cs En. induction n as [n IH] using lt_wf_ind.
  intros [|b0 l0] cs En H; [by injection H as <-|]. cbn [utf8 utf8_lossy] in *.
  assert (forall l' cs', (length l' < n)%nat -> utf8 l' = Some cs' -> utf8_lossy l' = cs') as IH'
    by (intros; by eapply IH). clear IH.
  destruct (Z_of_byte b0 <? 128).
  { apply fmap_Some in H as (t & Ht & ->). f_equal. apply IH'; [cbn in En; lia|done]. }
  destruct l0 as [|b1 l1]; [done|]. destruct (ok2 _ && cont b1).
  { apply fmap_Some in H as (t & Ht & ->). f_equal. apply IH'; [cbn in En; lia|done]. }
  destruct l1 as [|b2 l2]; [done|].
  destruct (ok3 (Z_of_byte b0) (Z_of_byte b1)) eqn:E3, (ok4 (Z_of_byte b0) (Z_of_byte b1)) eqn:E4;
    cbn [andb] in H.
  - unfold ok3, ok4, between in E3, E4. lia.
  - destruct (cont b2); [|by destruct l2].
    apply fmap_Some in H as (t & Ht & ->). f_equal. apply IH'; [cbn in En; lia|done].
  - destruct l2 as [|b3 l3]; [done|]. destruct (cont b2), (cont b3); try done.
    apply fmap_Some in H as (t & Ht & ->). f_equal. apply IH'; [cbn in En; lia|done].
  - by destruct l2.
Qed.

(** ** Words of any line *)
Lemma words_from_plain acc cs : Forall (fun c => is_whitespace c = false) acc ->
  Forall (fun w => w <> [] /\ Forall (fun c => is_whitespace c = false) w /\ w ⊆ acc ++ cs) (words_from acc cs).
Proof.
  revert acc. induction cs as [|c cs IH]; intros acc Ha; cbn [words_from].
  - destruct acc as [|a acc]; [constructor|]. apply Forall_singleton. rewrite app_nil_r.
    split; [intros E; apply (f_equal reverse) in E; by rewrite reverse_involutive in E|].
    split; [by apply Forall_reverse|]. intros x. by rewrite elem_of_reverse.
  - destruct (is_whitespace c) eqn:Ec.
    + assert (Forall (fun w => w <> [] /\ Forall (fun c => is_whitespace c = false) w /\ w ⊆ acc ++ c :: cs) (words_from [] cs)) as H.
      { eapply Forall_impl; [by apply IH|]. cbv beta. intros w (? & ? & H). split; [done|]. split; [done|]. set_solver. }
      destruct acc as [|a acc]; [exact H|]. constructor; [|exact H].
      split; [intros E; apply (f_equal reverse) in E; by rewrite reverse_involutive in E|].
      split; [by apply Forall_reverse|]. intros x. rewrite elem_of_reverse, elem_of_app. auto.
    + eapply Forall_impl; [by apply IH; constructor|]. cbv beta. intros w (? & ? & H). split; [done|]. split; [done|]. set_solver.
Qed.
Lemma words_plain cs :
  Forall (fun w => w <> [] /\ Forall (fun c => is_whitespace c = false) w /\ w ⊆ cs) (words cs).
Proof. exact (words_from_plain [] cs (List.Forall_nil _)). Qed.

Lemma before_notin c cs : c ∉ before c cs.
Proof.
  induction cs as [|x cs IH]; cbn; [apply not_elem_of_nil|]. destruct (x =? c) eqn:E; [apply not_elem_of_nil|].
  apply not_elem_of_cons. split; [|done]. intros ->. by rewrite Z.eqb_refl in E.
Qed.
Lemma before_id c cs : c ∉ cs -> before c cs = cs.
Proof.
  induction cs as [|x cs IH]; cbn; [done|]. intros [Hx Hc]%not_elem_of_cons.
  rewrite (proj2 (Z.eqb_neq x c)) by congruence. by rewrite IH.
Qed.
Lemma trim_start_subset cs : trim_start cs ⊆ cs.
Proof. induction cs as [|c cs IH]; cbn; [done|]. destruct (is_whitespace c); set_solver. Qed.
Lemma trim_subset cs : trim cs ⊆ cs.
Proof. intros x. unfold trim. rewrite elem_of_reverse. intros H%trim_start_subset. rewrite elem_of_reverse in H. by apply trim_start_subset. Qed.

(** [iter().any(|x| f(x) == y)]. *)
Lemma existsb_fmap {A B} `{EqDecision B} (f : A -> B) (y : B) (l : list A) :
  existsb (fun x => bool_decide (f x = y)) l = bool_decide (y ∈ f <$> l).
Proof.
  induction l as [|x l IH]; cbn; [by rewrite bool_decide_eq_false_2 by apply not_elem_of_nil|].
  rewrite IH. repeat case_bool_decide; cbn; try done; set_solver.
Qed.

(** ** Texts taken apart *)
Lemma strip_prefix_iff p cs r : strip_prefix p cs = Some r <-> cs = p ++ r.
Proof.
  revert cs. induction p as [|a p IH]; intros cs; cbn; [naive_solver|]. destruct cs as [|c cs]; [naive_solver|].
  destruct (Z.eqb_spec a c) as [->|Hn]; [rewrite IH; naive_solver|naive_solver].
Qed.
Lemma strip_suffix_iff c cs r : strip_suffix c cs = Some r <-> cs = r ++ [c].
Proof.
  split; [|intros ->; apply strip_suffix_snoc]. unfold strip_suffix. destruct cs as [|x cs _] using rev_ind; [done|].
  rewrite reverse_snoc. destruct (Z.eqb_spec x c) as [->|]; [|done]. rewrite reverse_involutive. by intros [= ->].
Qed.
Lemma split_once_iff c cs l r : split_once c cs = Some (l, r) <-> cs = l ++ c :: r /\ c ∉ l.
Proof.
  split; [|intros [-> H]; by apply split_once_app]. revert l. induction cs as [|x cs IH]; intros l; cbn; [done|].
  destruct (Z.eqb_spec x c) as [->|Hn]; [intros [= <- <-]; split; [done|set_solver]|].
  destruct (split_once c cs) as [[a b]|]; cbn; [|done]. intros [= <- <-]. destruct (IH a eq_refl) as [-> Ha]. split; [done|]. set_solver.
Qed.
