(* ===== verification/Names.v ===== *)
(** * The names a zone may write in a request

    broker.rs: the alphabet of a destination and of a transferred file's name. The update channel
    takes the same file names from a listing. *)
From S2P Require Import Prelude Bytes Text.
Open Scope string_scope.
Open Scope list_scope.
Open Scope Z_scope.

Inductive NameError :=
| NotAZoneName
| NameLength
| SeveralComponents
| NotAFileName
| DotFile
| NotPrintable.

Definition check_zone_name (s : list Z) : result unit NameError :=
  if bool_decide (s = []) || (12 <? zlen (encode_chars s))
     || negb (forallb (fun c => is_lower c || is_digit c || (c =? 45)) s)
  then Err NotAZoneName else Ok tt.

Definition check_transfer_name (n : list Z) : result unit NameError :=
  if bool_decide (n = []) || (255 <? zlen (encode_chars n)) then Err NameLength
  else if existsb (Z.eqb 47) n then Err SeveralComponents
  else if bool_decide (n = [46]) || bool_decide (n = [46; 46]) then Err NotAFileName
  else if bool_decide (head n = Some 46) then Err DotFile
  else if negb (forallb (between 0x21 0x7e) n) then Err NotPrintable
  else Ok tt.

(** One component of 1 to 255 printable bytes that is not hidden: never a path, [.] or [..]. *)
Definition file_name (n : list Z) : Prop :=
  n <> [] /\ zlen n <= 255 /\ head n <> Some 46 /\ Forall (fun c => 0x21 <= c <= 0x7e /\ c <> 47) n.

Lemma encode_ascii n : Forall (fun c => 0 <= c < 128) n -> zlen (encode_chars n) = zlen n.
Proof.
  induction 1 as [|c n Hc _ IH]; [done|]. unfold encode_chars in *. rewrite join_fmap_cons, zlen_app, zlen_cons.
  unfold encode_char at 1. destruct (Z.ltb_spec c 128); [|lia]. change (zlen [byte_of_Z c]) with 1. lia.
Qed.

Lemma check_transfer_name_ok n : check_transfer_name n = Ok tt <-> file_name n.
Proof.
  unfold check_transfer_name, file_name. split.
  - case_bool_decide; [done|]. cbn [orb]. destruct (Z.ltb_spec 255 (zlen (encode_chars n))); [done|].
    destruct (existsb _ n) eqn:Hs; [done|]. destruct (_ || _); [done|]. case_bool_decide; [done|].
    destruct (forallb _ n) eqn:Hp; [|done]. intros _. rewrite forallb_Forall in Hp.
    assert (Forall (fun c => 0x21 <= c <= 0x7e /\ c <> 47) n) as Hf.
    { rewrite Forall_forall in Hp |- *. intros c Hc. specialize (Hp c Hc). cbn in Hp. unfold between in Hp.
      split; [lia|]. intros ->. apply not_true_iff_false in Hs. apply Hs, existsb_exists.
      exists 47. split; [by apply list_elem_of_In|done]. }
    split_and!; try done. rewrite encode_ascii in *; [lia|]. eapply Forall_impl; [done|]. cbn. lia.
  - intros (Hn & Hl & Hd & Hf). rewrite bool_decide_eq_false_2 by done. cbn [orb].
    rewrite encode_ascii by (eapply Forall_impl; [done|]; cbn; lia).
    destruct (Z.ltb_spec 255 (zlen n)); [lia|]. destruct (existsb _ n) eqn:Hs.
    { apply existsb_exists in Hs as (c & Hc & <-%Z.eqb_eq). rewrite <-list_elem_of_In in Hc.
      rewrite Forall_forall in Hf. by destruct (Hf 47 Hc). }
    rewrite !bool_decide_eq_false_2 by (intros ->; by apply Hd). cbn [orb].
    rewrite bool_decide_eq_false_2 by done.
    replace (forallb (between 33 126) n) with true; [done|]. symmetry. rewrite forallb_Forall.
    eapply Forall_impl; [done|]. cbn. unfold between. lia.
Qed.
