(* ===== verification/Wifi.v ===== *)
(** * compartments/kryptikd/src/wifi.rs: Wi-Fi credentials and scans

    The wpa_supplicant.conf kryptikd writes and reads back, the networks added to and removed
    from it, and the answer of a scan. Text is its characters ([list Z]); the file's contents are
    the state, what getrandom(2) wrote is a parameter, and the text of an error is its
    constructor. *)
From S2P Require Import Prelude Bytes Text.
Open Scope string_scope.
Open Scope list_scope.
Open Scope Z_scope.

Module Wifi.

Abbreviation text := (list Z).

(** A tab and a double quote. *)
Definition TAB : Z := 9.
Definition QUOTE : Z := 34.

Definition HEADER_LINES : list text := Eval vm_compute in
  [chars "ctrl_interface=/run/wpa_supplicant"; chars "update_config=0";
   chars "scan_res_valid_for_connect=0"; chars "sae_pwe=2"].

Definition KEY_MGMT_PASSPHRASE : text := Eval vm_compute in TAB :: chars "key_mgmt=WPA-PSK WPA-PSK-SHA256 SAE".
Definition KEY_MGMT_KEY : text := Eval vm_compute in TAB :: chars "key_mgmt=WPA-PSK WPA-PSK-SHA256".
Definition KEY_MGMT_OPEN : text := Eval vm_compute in TAB :: chars "key_mgmt=NONE".
Definition PMF : text := Eval vm_compute in TAB :: chars "ieee80211w=1".
Definition MAC_POLICY : text := Eval vm_compute in TAB :: chars "mac_addr=3".
Definition HIDDEN : text := Eval vm_compute in TAB :: chars "scan_ssid=1".

(** The words of a block. *)
Definition OPENING : text := Eval vm_compute in chars "network={".
Definition CLOSING : text := Eval vm_compute in chars "}".
Definition SSID_IS : text := Eval vm_compute in TAB :: chars "ssid=".
Definition PSK_IS : text := Eval vm_compute in TAB :: chars "psk=".
Definition MAC_IS : text := Eval vm_compute in TAB :: chars "mac_value=".

Inductive Psk :=
| Passphrase (p : text)
| Hex (h : text)
| Open.

Definition key_mgmt (psk : Psk) : text :=
  match psk with
  | Passphrase _ => KEY_MGMT_PASSPHRASE
  | Hex _ => KEY_MGMT_KEY
  | Open => KEY_MGMT_OPEN
  end.

Record Network := mkNetwork { ssid : text; psk : Psk; mac : option text; hidden : bool }.

Inductive Added := New | Replaced.

Inductive WifiError :=
| SsidLength (len : Z)
| SsidChar (c : Z)
| PassphraseChar
| PassphraseLength (len : Z)
| BadAddress
| NoRandomness
| NoSsid (line : Z)
| NoPsk (line : Z)
| WrongKeyMgmt (line : Z)
| HalfAddress (line : Z)
| Foreign (line : Z)
| Second (line : Z) (what : string)
| WronglyQuoted (line : Z)
| AtLine (line : Z) (e : WifiError)
| Unclosed
| NoNetwork (ssid : text).

(** ** Checks *)

(** [str::len]: the bytes of the characters. *)
Definition len (s : text) : Z := zlen (encode_chars s).

Definition is_printable (c : Z) : bool := is_graphic c || (c =? 32).

(** A character neither an SSID nor a passphrase may hold. *)
Definition refused (c : Z) : bool := negb (is_printable c) || (c =? QUOTE) || (c =? 92).

Definition check_ssid (s : text) : result unit WifiError :=
  if bool_decide (s = []) || (32 <? len s) then Err (SsidLength (len s))
  else match List.find refused s with
       | Some c => Err (SsidChar c)
       | None => Ok tt
       end.

Definition check_passphrase (pass : text) : result Psk WifiError :=
  if (len pass =? 64) && forallb is_hexdigit pass then Ok (Hex pass)
  else if existsb refused pass then Err PassphraseChar
  else if (len pass <? 8) || (63 <? len pass) then Err (PassphraseLength (len pass))
  else Ok (Passphrase pass).

(** A hex digit's value, and [u8::from_str_radix(s, 16)] of two of them. *)
Definition hex_value (c : Z) : option Z :=
  if is_digit c then Some (c - 48)
  else if between 97 102 c then Some (c - 87)
  else if between 65 70 c then Some (c - 55)
  else None.
Definition from_hex2 (s : text) : option Z :=
  match s with
  | [a; b] => x ← hex_value a; y ← hex_value b; Some (16 * x + y)
  | _ => None
  end.

Definition is_lower_hex (c : Z) : bool := is_digit c || between 97 102 c.

Definition check_mac (v : text) : result unit WifiError :=
  let octets := split 58 v in
  let hex := (zlen octets =? 6) && forallb (fun o => (len o =? 2) && forallb is_lower_hex o) octets in
  match head octets with
  | Some o =>
    match (if hex then from_hex2 o else None) with
    | Some first => if Z.land first 3 =? 2 then Ok tt else Err BadAddress
    | None => Err BadAddress
    end
  | None => Err BadAddress
  end.

(** ** Addresses *)

(** [format!("{o:02x}")]. *)
Definition hex_digit (d : Z) : Z := if d <? 10 then 48 + d else 87 + d.
Definition hex2 (o : Z) : text := [hex_digit (o / 16); hex_digit (o mod 16)].

(** The address of the six bytes getrandom wrote; fewer is an error. *)
Definition random_mac (drawn : list Z) : result (list Z) WifiError :=
  match drawn with
  | [b0; b1; b2; b3; b4; b5] => Ok [Z.lor (Z.land b0 0xfc) 0x02; b1; b2; b3; b4; b5]
  | _ => Err NoRandomness
  end.

(** [join(":")]. *)
Fixpoint join (sep : Z) (l : list text) : text :=
  match l with
  | [] => []
  | [x] => x
  | x :: l => x ++ sep :: join sep l
  end.

Definition new_mac (drawn : list Z) : result text WifiError :=
  (let? b := random_mac drawn in Ok (join 58 (hex2 <$> b)))%result.

(** The networks with an address each; [draws] are the answers of getrandom, in turn. *)
Fixpoint give_addresses (draws : nat -> list Z) (i : nat) (nets : list Network)
    : result (list Network) WifiError :=
  match nets with
  | [] => Ok []
  | n :: nets =>
    match mac n with
    | Some _ => (let? rest := give_addresses draws i nets in Ok (n :: rest))%result
    | None =>
      (let? m := new_mac (draws i) in
       let? rest := give_addresses draws (S i) nets in
       Ok (mkNetwork (ssid n) (psk n) (Some m) (hidden n) :: rest))%result
    end
  end.

(** ** The file *)
Definition quoted_value (key v : text) : text := key ++ QUOTE :: v ++ [QUOTE].

(** The lines of one network's block. *)
Definition block_lines (n : Network) : list text :=
  [[]; OPENING; quoted_value SSID_IS (ssid n)]
  ++ (if hidden n then [HIDDEN] else [])
  ++ [key_mgmt (psk n)]
  ++ match psk n with
     | Passphrase p => [PMF; quoted_value PSK_IS p]
     | Hex h => [PMF; PSK_IS ++ h]
     | Open => []
     end
  ++ match mac n with
     | Some m => [MAC_POLICY; MAC_IS ++ m]
     | None => []
     end
  ++ [CLOSING].

Definition render (nets : list Network) : text :=
  unlines (HEADER_LINES ++ mjoin (block_lines <$> nets)).

Record Block := mkBlock {
  b_ssid : option text;
  b_psk : option Psk;
  b_key_mgmt : option text;
  b_pmf : bool;
  b_mac_policy : bool;
  b_mac : option text;
  b_hidden : bool;
}.
Definition default_block : Block := mkBlock None None None false false None false.

Definition close (b : Block) (n : Z) : result Network WifiError :=
  match b_ssid b with
  | None => Err (NoSsid n)
  | Some s =>
    let psk :=
      match b_psk b, b_key_mgmt b, b_pmf b with
      | Some p, None, false => Ok p
      | Some p, Some k, true => if bool_decide (k = key_mgmt p) then Ok p else Err (WrongKeyMgmt n)
      | None, Some k, false => if bool_decide (k = KEY_MGMT_OPEN) then Ok Open else Err (WrongKeyMgmt n)
      | None, None, _ => Err (NoPsk n)
      | _, _, _ => Err (WrongKeyMgmt n)
      end in
    (let? p := psk in
     if negb (Bool.eqb (b_mac_policy b) (bool_decide (is_Some (b_mac b)))) then Err (HalfAddress n)
     else Ok (mkNetwork s p (b_mac b) (b_hidden b)))%result
  end.

Definition unquote (key : text) (line : text) : option text :=
  r ← strip_prefix key line; strip_suffix QUOTE r.

Definition at_line {A} (n : Z) (r : result A WifiError) : result A WifiError :=
  match r with Ok a => Ok a | Err e => Err (AtLine n e) end.

(** A key management line is one of three. *)
Definition KEY_MGMTS : list text := [KEY_MGMT_PASSPHRASE; KEY_MGMT_KEY; KEY_MGMT_OPEN].

Definition psk_value (n : Z) (v : text) : result Psk WifiError :=
  let quoted := unquote [QUOTE] v in
  match quoted, check_passphrase (default v quoted) with
  | Some _, Ok (Passphrase p) => Ok (Passphrase p)
  | None, Ok (Hex h) => Ok (Hex h)
  | _, Ok _ => Err (WronglyQuoted n)
  | _, Err e => Err (AtLine n e)
  end.

(** One line inside a block, but its closing one. *)
Definition block_line (n : Z) (line : text) (b : Block) : result Block WifiError :=
  let '(mkBlock s p k pmf mp m h) := b in
  match unquote (SSID_IS ++ [QUOTE]) line with
  | Some v =>
    (let? _ := at_line n (check_ssid v) in
     if bool_decide (is_Some s) then Err (Second n "ssid") else Ok (mkBlock (Some v) p k pmf mp m h))%result
  | None =>
    if bool_decide (line ∈ KEY_MGMTS) then
      if bool_decide (is_Some k) then Err (Second n "key_mgmt") else Ok (mkBlock s p (Some line) pmf mp m h)
    else if bool_decide (line = PMF) then
      if pmf then Err (Second n "ieee80211w") else Ok (mkBlock s p k true mp m h)
    else if bool_decide (line = HIDDEN) then
      if h then Err (Second n "scan_ssid") else Ok (mkBlock s p k pmf mp m true)
    else if bool_decide (line = MAC_POLICY) then
      if mp then Err (Second n "mac_addr") else Ok (mkBlock s p k pmf true m h)
    else
      match strip_prefix MAC_IS line with
      | Some v =>
        (let? _ := at_line n (check_mac v) in
         if bool_decide (is_Some m) then Err (Second n "mac_value")
         else Ok (mkBlock s p k pmf mp (Some v) h))%result
      | None =>
        match strip_prefix PSK_IS line with
        | Some v =>
          (let? value := psk_value n v in
           if bool_decide (is_Some p) then Err (Second n "psk")
           else Ok (mkBlock s (Some value) k pmf mp m h))%result
        | None => Err (Foreign n)
        end
      end
  end.

(** One line: the networks read and the block open. *)
Definition parse_line (n : Z) (line : text) (st : list Network * option Block)
    : result (list Network * option Block) WifiError :=
  let '(nets, block) := st in
  match block with
  | None =>
    if bool_decide (trim line = []) || bool_decide (line ∈ HEADER_LINES) then Ok (nets, None)
    else if negb (bool_decide (line = OPENING)) then Err (Foreign n)
    else Ok (nets, Some default_block)
  | Some b =>
    if bool_decide (line = CLOSING) then (let? net := close b n in Ok (nets ++ [net], None))%result
    else (let? b := block_line n line b in Ok (nets, Some b))%result
  end.

Fixpoint parse_lines (n : Z) (ls : list text) (st : list Network * option Block)
    : result (list Network * option Block) WifiError :=
  match ls with
  | [] => Ok st
  | l :: ls => (let? st := parse_line n l st in parse_lines (n + 1) ls st)%result
  end.

Definition parse (t : text) : result (list Network) WifiError :=
  (let? (nets, block) := parse_lines 1 (lines t) ([], None) in
   match block with None => Ok nets | Some _ => Err Unclosed end)%result.

(** ** The operations on the file

    [file] is its text, or none when there is no file; a write replaces it whole. *)
Definition load (file : option text) : result (list Network) WifiError :=
  match file with Some t => parse t | None => Ok [] end.

Definition replace_net (s : text) (p : Psk) (h : bool) (nets : list Network)
    : list Network * (Added * bool) :=
  match List.find (fun n => bool_decide (ssid n = s)) nets with
  | Some n =>
    ((fix go l := match l with
      | [] => []
      | m :: l => if bool_decide (ssid m = s) then mkNetwork (ssid m) p (mac m) (hidden m || h) :: l
                  else m :: go l
      end) nets, (Replaced, hidden n || h))
  | None => (nets ++ [mkNetwork s p None h], (New, h))
  end.

Definition add (draws : nat -> list Z) (file : option text) (s : text) (passphrase : option text)
    (h : bool) : result (Added * bool * text) WifiError :=
  (let? _ := check_ssid s in
   let? p := match passphrase with Some pass => check_passphrase pass | None => Ok Open end in
   let? nets := load file in
   let '(nets, outcome) := replace_net s p h nets in
   let? nets := give_addresses draws 0 nets in
   Ok (outcome, render nets))%result.

Definition forget (draws : nat -> list Z) (file : option text) (s : text) : result text WifiError :=
  (let? _ := check_ssid s in
   let? nets := load file in
   let left := List.filter (fun n => negb (bool_decide (ssid n = s))) nets in
   if zlen left =? zlen nets then Err (NoNetwork s)
   else
     let? left := give_addresses draws 0 left in
     Ok (render left))%result.

(** [refresh]: the text to write, unless the file is [current] in its owner and mode and in its
    text already. *)
Definition refresh (draws : nat -> list Z) (file : option text) (owned : bool)
    : result (option text) WifiError :=
  match file with
  | None => Ok None
  | Some t =>
    (let? nets := parse t in
     let? nets := give_addresses draws 0 nets in
     let current := render nets in
     if bool_decide (current = t) && owned then Ok None else Ok (Some current))%result
  end.

Definition list_ssids (file : option text) : result (list text) WifiError :=
  (let? nets := load file in Ok (ssid <$> nets))%result.

(** ** Scans *)
Definition MAX_HEARD : Z := 40.
Definition SECURITIES : list string :=
  ["open"; "wep"; "wpa"; "wpa2"; "wpa3"; "wpa2/wpa3"; "owe"; "enterprise"; "other"].

Record Heard := mkHeard { h_ssid : list Z; h_security : string; h_signal : Z }.
Record Scan := mkScan { radios : list text; off : list text; heard : list Heard }.

(** An SSID as iw prints one, from its bytes. *)
Fixpoint unescape_iw (b : list Z) : option (list Z) :=
  match b with
  | [] => Some []
  | c :: r =>
    if c =? 92 then
      match r with
      | x :: h1 :: h2 :: r' =>
        if (x =? 120) && is_hexdigit h1 && is_hexdigit h2
        then v ← from_hex2 [h1; h2]; out ← unescape_iw r'; Some (v :: out)
        else None
      | _ => None
      end
    else if (c =? 32) || is_graphic c then out ← unescape_iw r; Some (c :: out)
    else None
  end.

Definition ssid_from_iw (printed : text) : option (list Z) :=
  b ← unescape_iw (Z_of_byte <$> encode_chars printed);
  if between 1 32 (zlen b) && existsb (fun c => negb (c =? 0)) b then Some b else None.

(** [as_iw_prints], from byte [i] on of [last + 1]. *)
Fixpoint as_iw_from (i last : Z) (ssid : list Z) : text :=
  match ssid with
  | [] => []
  | c :: ssid =>
    (if (is_graphic c && negb (c =? 92)) || ((c =? 32) && negb (i =? 0) && negb (i =? last))
     then [c] else 92 :: 120 :: hex2 c) ++ as_iw_from (i + 1) last ssid
  end.
Definition as_iw_prints (ssid : list Z) : text := as_iw_from 0 (saturating_sub (zlen ssid) 1) ssid.

Definition heard_line (line : text) : option Heard :=
  match split 9 line with
  | [signal; security; ssid] =>
    signal ← parse_i32 signal;
    if between (-150) 0 signal then
      security ← List.find (fun s => bool_decide (chars s = security)) SECURITIES;
      ssid ← ssid_from_iw ssid;
      Some (mkHeard ssid security signal)
    else None
  | _ => None
  end.

(** An interface's name. *)
Definition plain (n : text) : bool :=
  between 1 15 (len n) && forallb (fun b => is_lower b || is_digit b) n.

(** A network heard again keeps its strongest signal. *)
Fixpoint hear (h : Heard) (l : list Heard) : list Heard :=
  match l with
  | [] => [h]
  | o :: l =>
    if bool_decide (h_ssid o = h_ssid h) && String.eqb (h_security o) (h_security h)
    then mkHeard (h_ssid o) (h_security o) (Z.max (h_signal o) (h_signal h)) :: l
    else o :: hear h l
  end.

Definition scan_line (s : Scan) (line : text) : Scan :=
  match strip_prefix (chars "radios ") line with
  | Some names =>
    mkScan (List.filter (fun n => negb (bool_decide (n = chars "none")) && plain n) (split 32 names))
      (off s) (heard s)
  | None =>
    match (n ← strip_prefix (chars "off ") line; if plain n then Some n else None) with
    | Some n => mkScan (radios s) (off s ++ [n]) (heard s)
    | None =>
      match heard_line line with
      | Some h => mkScan (radios s) (off s) (hear h (heard s))
      | None => s
      end
    end
  end.

(** [Vec<u8>]'s order. *)
Fixpoint bytes_leb (a b : list Z) : bool :=
  match a, b with
  | [], _ => true
  | _, [] => false
  | x :: a, y :: b => if x <? y then true else if y <? x then false else bytes_leb a b
  end.
(** Strongest first, then by name. *)
Definition heard_leb (a b : Heard) : bool :=
  (h_signal b <? h_signal a) || ((h_signal a =? h_signal b) && bytes_leb (h_ssid a) (h_ssid b)).
Fixpoint insert_heard (h : Heard) (l : list Heard) : list Heard :=
  match l with
  | [] => [h]
  | o :: l => if heard_leb h o then h :: o :: l else o :: insert_heard h l
  end.
(** [sort_by], which is stable. *)
Definition sort_heard (l : list Heard) : list Heard := foldr insert_heard [] l.

Definition parse_scan (t : text) : Scan :=
  let s := fold_left scan_line (take 1000 (lines t)) (mkScan [] [] []) in
  mkScan (radios s) (off s) (take (Z.to_nat MAX_HEARD) (sort_heard (heard s))).

End Wifi.
