(* ===== verification/WifiClaims.v ===== *)
(** * What kryptikd's Wi-Fi file holds, and what a scan may say

    The file is read back as it was written, every operation leaves one that is, and the answer
    of the untrusted net zone is bounded. *)
From Stdlib Require Import Sorted.
From S2P Require Import Prelude Bytes Text Wifi.
Import Wifi.
Open Scope string_scope.
Open Scope list_scope.
Open Scope Z_scope.

(** ** Networks the file can hold *)
Definition psk_ok (p : Psk) : Prop :=
  match p with Open => True | Passphrase t | Hex t => check_passphrase t = Ok p end.
Record net_ok (n : Network) : Prop := {
  ok_ssid : check_ssid (ssid n) = Ok tt;
  ok_psk : psk_ok (psk n);
  ok_mac : forall m, mac n = Some m -> check_mac m = Ok tt;
}.

(** Printable characters but the quote and the backslash. *)
Definition clean (s : text) : Prop := Forall (fun c => 32 <= c <= 126 /\ c <> 34 /\ c <> 92) s.

Lemma refused_false c : refused c = false -> 32 <= c <= 126 /\ c <> 34 /\ c <> 92.
Proof. unfold refused, is_printable, is_graphic, between, QUOTE. lia. Qed.

Lemma check_ssid_ok s : check_ssid s = Ok tt -> s <> [] /\ clean s.
Proof.
  unfold check_ssid. case_bool_decide; [done|]. cbn [orb]. destruct (32 <? len s); [done|].
  destruct (List.find refused s) as [c|] eqn:Hf; [done|]. intros _. split; [done|].
  apply Forall_forall. intros c Hc%list_elem_of_In. by apply refused_false, (List.find_none _ _ Hf).
Qed.

Lemma hexdigit_clean c : is_hexdigit c = true -> 32 <= c <= 126 /\ c <> 34 /\ c <> 92.
Proof. unfold is_hexdigit, is_digit, between. lia. Qed.

Lemma check_passphrase_ok t p : check_passphrase t = Ok p -> clean t /\ psk_ok p /\
  (p = Hex t /\ forallb is_hexdigit t = true \/ p = Passphrase t).
Proof.
  intros H. pose proof H as H'. unfold check_passphrase in H'.
  destruct ((len t =? 64) && forallb is_hexdigit t) eqn:Hh.
  - injection H' as <-. apply andb_true_iff in Hh as [_ Hh]. split_and!; [|done|auto].
    rewrite forallb_Forall in Hh. eapply Forall_impl; [apply Hh|]. apply hexdigit_clean.
  - destruct (existsb refused t) eqn:Hr; [done|]. destruct (_ || _); [done|]. injection H' as <-.
    split_and!; [|done|auto]. apply Forall_forall. intros c Hc. apply refused_false.
    apply not_true_iff_false. intros E. apply not_true_iff_false in Hr. apply Hr, existsb_exists.
    exists c. split; [by apply list_elem_of_In|done].
Qed.

(** ** Addresses *)
Lemma split_from_app c acc l r :
  c ∉ l -> split_from c acc (l ++ c :: r) = (reverse acc ++ l) :: split_from c [] r.
Proof.
  revert acc. induction l as [|x l IH]; intros acc Hl; simpl.
  - by rewrite Z.eqb_refl, app_nil_r.
  - apply not_elem_of_cons in Hl as [Hx Hl]. rewrite (proj2 (Z.eqb_neq x c)), IH by done.
    by rewrite reverse_cons, <-(assoc_L (++)).
Qed.

Lemma split_from_last c acc l : c ∉ l -> split_from c acc l = [reverse acc ++ l].
Proof.
  revert acc. induction l as [|x l IH]; intros acc Hl; simpl; [by rewrite app_nil_r|].
  apply not_elem_of_cons in Hl as [Hx Hl]. rewrite (proj2 (Z.eqb_neq x c)), IH by done.
  by rewrite reverse_cons, <-(assoc_L (++)).
Qed.

(** [split] undoes [join]. *)
Lemma split_join c l : l <> [] -> Forall (fun x => c ∉ x) l -> split c (join c l) = l.
Proof.
  unfold split. intros Hne Hl. induction Hl as [|x l Hx Hl IH]; [done|]. destruct l as [|y l].
  - simpl. by rewrite split_from_last, reverse_nil.
  - change (join c (x :: y :: l)) with (x ++ c :: join c (y :: l)).
    rewrite split_from_app, reverse_nil by done. cbn [app]. by rewrite IH.
Qed.

Lemma hex_digit_lower d : 0 <= d < 16 ->
  is_lower_hex (hex_digit d) = true /\ hex_digit d <> 58 /\ hex_value (hex_digit d) = Some d.
Proof.
  intros Hd. unfold is_lower_hex, hex_digit, hex_value, is_digit, between.
  destruct (Z.ltb_spec d 10); split_and!; try lia; repeat case_match; try f_equal; lia.
Qed.

Lemma nibbles o : 0 <= o < 256 -> 0 <= o / 16 < 16 /\ 0 <= o mod 16 < 16 /\ 16 * (o / 16) + o mod 16 = o.
Proof. intros Ho. Z.to_euclidean_division_equations. lia. Qed.

Lemma from_hex2_hex2 o : 0 <= o < 256 -> from_hex2 (hex2 o) = Some o.
Proof.
  intros (H1 & H2 & E)%nibbles. unfold from_hex2, hex2.
  rewrite (proj2 (proj2 (hex_digit_lower _ H1))). cbn -[Z.mul].
  rewrite (proj2 (proj2 (hex_digit_lower _ H2))). cbn -[Z.mul]. by f_equal.
Qed.

Lemma hex2_ok o : 0 <= o < 256 ->
  (len (hex2 o) =? 2) && forallb is_lower_hex (hex2 o) = true /\ 58 ∉ hex2 o.
Proof.
  intros (Hh & Hl & _)%nibbles. destruct (hex_digit_lower _ Hh) as (H1 & H2 & _).
  destruct (hex_digit_lower _ Hl) as (H3 & H4 & _).
  split; [|unfold hex2; rewrite !elem_of_cons, elem_of_nil; intuition congruence].
  apply andb_true_iff. split.
  - unfold len, encode_chars, hex2. cbn [fmap list_fmap mjoin list_join].
    assert (forall c, is_lower_hex c = true -> zlen (encode_char c) = 1) as Hone.
    { intros c Hc. unfold encode_char. unfold is_lower_hex, is_digit, between in Hc.
      replace (c <? 128) with true by lia. done. }
    rewrite !zlen_app, !Hone by done. done.
  - unfold hex2. cbn. by rewrite H1, H3.
Qed.

(** Every address drawn is locally administered, unicast and of the form read back. *)
Lemma random_mac_ok drawn b : Forall (fun o => 0 <= o < 256) drawn -> random_mac drawn = Ok b ->
  Forall (fun o => 0 <= o < 256) b /\ length b = 6%nat /\ exists b0, head b = Some b0 /\ Z.land b0 3 = 2.
Proof.
  intros Hd H. unfold random_mac in H. destruct drawn as [|b0 [|b1 [|b2 [|b3 [|b4 [|b5 [|]]]]]]]; try done.
  injection H as <-. apply Forall_cons in Hd as [H0 Hd].
  assert (0 <= Z.lor (Z.land b0 252) 2 < 256 /\ Z.land (Z.lor (Z.land b0 252) 2) 3 = 2) as [Hr Hl].
  { assert (forallb (fun n => let x := Z.lor (Z.land n 252) 2 in (0 <=? x) && (x <? 256) && (Z.land x 3 =? 2))
      (Z.of_nat <$> seq 0 256) = true) as Hall by (vm_compute; reflexivity).
    rewrite forallb_Forall, Forall_forall in Hall. specialize (Hall b0). cbn zeta in Hall.
    rewrite list_elem_of_fmap in Hall. setoid_rewrite elem_of_seq in Hall.
    specialize (Hall ltac:(exists (Z.to_nat b0); lia)). lia. }
  split_and!; [by constructor|done|]. eauto.
Qed.

Lemma new_mac_ok drawn m : Forall (fun o => 0 <= o < 256) drawn -> new_mac drawn = Ok m ->
  check_mac m = Ok tt.
Proof.
  intros Hd H. unfold new_mac in H. bind_inv. injection H as <-.
  destruct (random_mac_ok _ _ Hd E) as (Hb & Hlen & b0 & H0 & Hl).
  assert (split 58 (join 58 (hex2 <$> a)) = hex2 <$> a) as Hs.
  { apply split_join; [by destruct a|]. apply Forall_fmap. eapply Forall_impl; [apply Hb|].
    intros o Ho. cbn. by apply hex2_ok. }
  assert ((zlen (hex2 <$> a) =? 6)
    && forallb (fun o => (len o =? 2) && forallb is_lower_hex o) (hex2 <$> a) = true) as Hhex.
  { apply andb_true_iff. split.
    - unfold zlen. by rewrite length_fmap, Hlen.
    - apply forallb_Forall, Forall_fmap. eapply Forall_impl; [apply Hb|]. intros o Ho. cbn. by apply hex2_ok. }
  unfold check_mac. rewrite Hs, Hhex. destruct a as [|a0 a]; [done|]. injection H0 as ->.
  cbn [head fmap list_fmap]. apply Forall_cons in Hb as [Hb0 _]. by rewrite from_hex2_hex2, Hl.
Qed.

(** ** Lines written *)
Definition printed (l : text) : bool := forallb (fun c => (c =? 9) || (32 <=? c)) l.

Lemma printed_Forall l : printed l = true <-> Forall (fun c => c = 9 \/ 32 <= c) l.
Proof. unfold printed. rewrite forallb_Forall, !Forall_forall. split; intros H c Hc; specialize (H c Hc); lia. Qed.

Lemma printed_app a b : printed a = true -> printed b = true -> printed (a ++ b) = true.
Proof. unfold printed. rewrite forallb_app. by intros -> ->. Qed.

Lemma printed_plain l : printed l = true -> plain_line l.
Proof.
  rewrite printed_Forall, Forall_forall. intros H. split.
  - intros Hin. specialize (H 10 Hin). lia.
  - intros (l' & ->)%last_Some. specialize (H 13 ltac:(set_solver)). lia.
Qed.

Lemma clean_printed l : clean l -> printed l = true.
Proof. intros H. apply printed_Forall. eapply Forall_impl; [apply H|]. cbn. lia. Qed.

Lemma split_from_elem c x acc l : x ∈ l -> x = c \/ exists p, p ∈ split_from c acc l /\ x ∈ p.
Proof.
  revert acc. induction l as [|y l IH]; intros acc Hx; [by apply not_elem_of_nil in Hx|]. simpl.
  apply elem_of_cons in Hx as [->|Hx].
  - destruct (Z.eqb_spec y c) as [->|Hne]; [by left|]. right. clear IH.
    assert (forall acc l, y ∈ acc -> exists p, p ∈ split_from c acc l /\ y ∈ p) as Hacc.
    { clear. intros acc l. revert acc. induction l as [|z l IH]; intros acc Hy; simpl.
      - exists (reverse acc). split; [set_solver|]. by apply elem_of_reverse.
      - destruct (z =? c).
        + exists (reverse acc). split; [set_solver|]. by apply elem_of_reverse.
        + apply IH. set_solver. }
    apply Hacc. set_solver.
  - destruct (y =? c); [|by apply IH]. destruct (IH [] Hx) as [->|(p & Hp & Hxp)]; [by left|].
    right. exists p. split; [by constructor|done].
Qed.

Lemma check_mac_printed m : check_mac m = Ok tt -> printed m = true.
Proof.
  unfold check_mac. intros H. destruct (head _); [|done].
  destruct (_ && _) eqn:Hh in H; [|done]. apply andb_true_iff in Hh as [_ Hh].
  apply printed_Forall, Forall_forall. intros c Hc. apply (split_from_elem 58 c []) in Hc as [->|(p & Hp & Hcp)]; [lia|].
  rewrite forallb_Forall, Forall_forall in Hh. specialize (Hh p Hp).
  apply andb_true_iff in Hh as [_ Hh]. rewrite forallb_Forall, Forall_forall in Hh.
  specialize (Hh c Hcp). unfold is_lower_hex, is_digit, between in Hh. lia.
Qed.

Lemma psk_ok_clean p : psk_ok p -> match p with Passphrase t | Hex t => clean t | Open => True end.
Proof. destruct p; [| |done]; cbn; intros H; by apply check_passphrase_ok in H as (? & _). Qed.

Lemma printed_quoted k v : printed k = true -> clean v -> printed (quoted_value k v) = true.
Proof.
  intros Hk Hv. apply printed_app; [done|]. apply (printed_app [QUOTE]); [done|].
  apply printed_app; [by apply clean_printed|done].
Qed.

Lemma block_lines_plain n : net_ok n -> Forall plain_line (block_lines n).
Proof.
  intros [[_ Hs]%check_ssid_ok Hp%psk_ok_clean Hm]. eapply Forall_impl; [|apply printed_plain].
  unfold block_lines. destruct n as [s p m h]; cbn [ssid psk mac hidden] in *.
  destruct p as [t|t|], m as [m|], h; cbn [app];
    repeat (first [apply Forall_nil_2 | apply Forall_cons_2]); try done;
    try (by apply printed_quoted);
    apply printed_app; auto using clean_printed, check_mac_printed.
Qed.

(** ** Lines read back *)
Lemma strip_prefix_app p cs : strip_prefix p (p ++ cs) = Some cs.
Proof. induction p as [|c p IH]; simpl; [done|]. by rewrite Z.eqb_refl. Qed.

Lemma unquote_quoted k v : unquote (k ++ [QUOTE]) (quoted_value k v) = Some v.
Proof.
  unfold unquote, quoted_value. change (QUOTE :: v ++ [QUOTE]) with ([QUOTE] ++ v ++ [QUOTE]).
  rewrite (assoc_L (++)), strip_prefix_app. cbn. apply strip_suffix_snoc.
Qed.

(** A line that starts with a tab is none of the lines that start otherwise. *)
Ltac differ := apply bool_decide_eq_false_2; unfold KEY_MGMTS; intros ?;
  repeat match goal with
  | H : _ ∈ _ :: _ |- _ => apply elem_of_cons in H as [H|H]
  | H : _ ∈ [] |- _ => by apply not_elem_of_nil in H
  end; discriminate.

Section blocks.
Context (s : text) (k : Z).

Lemma read_ssid p ky pmf mp m h : check_ssid s = Ok tt ->
  block_line k (quoted_value SSID_IS s) (mkBlock None p ky pmf mp m h)
  = Ok (mkBlock (Some s) p ky pmf mp m h).
Proof.
  intros Hs. unfold block_line. rewrite unquote_quoted. cbn iota. by rewrite Hs.
Qed.

Lemma read_mac o p ky pmf mp h : check_mac s = Ok tt ->
  block_line k (MAC_IS ++ s) (mkBlock o p ky pmf mp None h) = Ok (mkBlock o p ky pmf mp (Some s) h).
Proof.
  intros Hs. unfold block_line.
  replace (unquote (SSID_IS ++ [QUOTE]) (MAC_IS ++ s)) with (@None text) by reflexivity.
  replace (bool_decide (MAC_IS ++ s ∈ KEY_MGMTS)) with false by (symmetry; differ).
  replace (bool_decide (MAC_IS ++ s = PMF)) with false by (symmetry; differ).
  replace (bool_decide (MAC_IS ++ s = HIDDEN)) with false by (symmetry; differ).
  replace (bool_decide (MAC_IS ++ s = MAC_POLICY)) with false by (symmetry; differ).
  rewrite strip_prefix_app. cbn iota. by rewrite Hs.
Qed.

Lemma read_psk v o ky pmf mp m h : psk_value k s = Ok v ->
  block_line k (PSK_IS ++ s) (mkBlock o None ky pmf mp m h) = Ok (mkBlock o (Some v) ky pmf mp m h).
Proof.
  intros Hs. unfold block_line.
  replace (unquote (SSID_IS ++ [QUOTE]) (PSK_IS ++ s)) with (@None text) by reflexivity.
  replace (bool_decide (PSK_IS ++ s ∈ KEY_MGMTS)) with false by (symmetry; differ).
  replace (bool_decide (PSK_IS ++ s = PMF)) with false by (symmetry; differ).
  replace (bool_decide (PSK_IS ++ s = HIDDEN)) with false by (symmetry; differ).
  replace (bool_decide (PSK_IS ++ s = MAC_POLICY)) with false by (symmetry; differ).
  replace (strip_prefix MAC_IS (PSK_IS ++ s)) with (@None text) by reflexivity.
  rewrite strip_prefix_app. cbn iota. by rewrite Hs.
Qed.

Lemma psk_value_quoted : check_passphrase s = Ok (Passphrase s) ->
  psk_value k (QUOTE :: s ++ [QUOTE]) = Ok (Passphrase s).
Proof.
  intros Hs. unfold psk_value, unquote. cbn [strip_prefix]. rewrite Z.eqb_refl. cbn [mbind option_bind].
  rewrite strip_suffix_snoc. cbn [default from_option id]. by rewrite Hs.
Qed.

Lemma psk_value_hex : check_passphrase s = Ok (Hex s) -> psk_value k s = Ok (Hex s).
Proof.
  intros Hs. destruct (check_passphrase_ok _ _ Hs) as (Hc & _ & _). unfold psk_value, unquote.
  replace (strip_prefix [QUOTE] s) with (@None text); [cbn; by rewrite Hs|].
  destruct s as [|c t]; [done|]. apply Forall_cons in Hc as [(_ & Hc & _) _]. cbn [strip_prefix].
  rewrite (proj2 (Z.eqb_neq QUOTE c)) by (unfold QUOTE; congruence). done.
Qed.
End blocks.

Lemma parse_line_block k line b b' nets :
  head line = Some TAB -> block_line k line b = Ok b' ->
  parse_line k line (nets, Some b) = Ok (nets, Some b').
Proof.
  intros Hh Hb. unfold parse_line. replace (bool_decide (line = CLOSING)) with false; [by rewrite Hb|].
  symmetry. apply bool_decide_eq_false_2. intros ->. discriminate.
Qed.

Lemma parse_lines_app k a b st :
  parse_lines k (a ++ b) st = (let? st' := parse_lines k a st in parse_lines (k + zlen a) b st')%result.
Proof.
  revert k st. induction a as [|l a IH]; intros k st; simpl.
  - f_equal. rewrite zlen_nil. lia.
  - destruct (parse_line k l st) as [st'|e]; [|done]. cbn. rewrite IH, zlen_cons.
    destruct (parse_lines (k + 1) a st'); [|done]. cbn. f_equal. lia.
Qed.

(** Each line of a block, one after another. *)
Ltac read_line :=
  cbn [parse_lines]; erewrite parse_line_block by
    first [reflexivity
          | first [eapply read_ssid | eapply read_mac | eapply read_psk]; eauto using psk_value_quoted, psk_value_hex
          | reflexivity];
  cbn [result_bind].

Lemma parse_block k n nets : net_ok n ->
  parse_lines k (block_lines n) (nets, None) = Ok (nets ++ [n], None).
Proof.
  intros [Hs Hp Hm]. destruct n as [s p m h]. cbn in Hs, Hp, Hm. unfold block_lines. cbn [app ssid psk mac hidden].
  cbn [parse_lines]. change (parse_line k [] (nets, None)) with (@Ok _ WifiError (nets, @None Block)).
  cbn [result_bind].
  change (parse_line (k + 1) OPENING (nets, None)) with (@Ok _ WifiError (nets, Some default_block)).
  cbn [result_bind]. unfold default_block.
  destruct h, p as [t|t|], m as [m|]; cbn [app]; repeat read_line; reflexivity.
Qed.

Lemma parse_blocks k nets done :
  Forall net_ok nets ->
  parse_lines k (mjoin (block_lines <$> nets)) (done, None) = Ok (done ++ nets, None).
Proof.
  revert k done. induction nets as [|n nets IH]; intros k done Hn; [by rewrite app_nil_r|].
  apply Forall_cons in Hn as [Hn Hns]. rewrite join_fmap_cons, parse_lines_app, parse_block by done.
  cbn [result_bind]. rewrite IH by done. by rewrite <-(assoc_L (++)).
Qed.

Lemma parse_render nets : Forall net_ok nets -> parse (render nets) = Ok nets.
Proof.
  intros Hn. unfold parse, render. rewrite lines_unlines.
  - rewrite parse_lines_app.
    change (parse_lines 1 HEADER_LINES ([], None)) with (@Ok _ WifiError (@nil Network, @None Block)).
    cbn [result_bind]. rewrite parse_blocks by done. done.
  - apply Forall_app. split.
    + eapply Forall_impl; [|apply printed_plain]. by repeat constructor.
    + induction Hn as [|n nets Hn _ IH]; [constructor|]. rewrite join_fmap_cons.
      apply Forall_app. split; [by apply block_lines_plain|done].
Qed.

(** ** What is read is well-formed *)
Record block_ok (b : Block) : Prop := {
  bo_ssid : forall s, b_ssid b = Some s -> check_ssid s = Ok tt;
  bo_psk : forall p, b_psk b = Some p -> psk_ok p;
  bo_mac : forall m, b_mac b = Some m -> check_mac m = Ok tt;
}.

Lemma psk_value_ok n v p : psk_value n v = Ok p -> psk_ok p.
Proof.
  unfold psk_value. intros H.
  assert (check_passphrase (default v (unquote [QUOTE] v)) = Ok p) as E by (repeat case_match; congruence).
  by apply check_passphrase_ok in E as (_ & ? & _).
Qed.

Lemma block_line_ok n line b b' : block_ok b -> block_line n line b = Ok b' -> block_ok b'.
Proof.
  intros [H1 H2 H3] H. unfold block_line in H. destruct b as [s p k pmf mp m h].
  cbn [b_ssid b_psk b_mac] in *. destruct (unquote _ line) as [v|].
  { destruct (check_ssid v) as [[]|] eqn:Hv; [|done]. cbn in H. case_bool_decide; [done|].
    injection H as <-. split; cbn; [congruence|done..]. }
  repeat (case_bool_decide; [repeat (case_bool_decide || case_match); try done; injection H as <-; done|]).
  destruct (strip_prefix MAC_IS line) as [v|].
  { destruct (check_mac v) as [[]|] eqn:Hv; [|done]. cbn in H. case_bool_decide; [done|].
    injection H as <-. split; cbn; [done..|congruence]. }
  destruct (strip_prefix PSK_IS line) as [v|]; [|done].
  destruct (psk_value n v) as [q|] eqn:Hv; [|done]. cbn in H. case_bool_decide; [done|].
  injection H as <-. apply psk_value_ok in Hv. split; cbn; [done|congruence|done].
Qed.

Lemma close_ok b n net : block_ok b -> close b n = Ok net -> net_ok net.
Proof.
  intros [H1 H2 H3] H. unfold close in H. destruct (b_ssid b) as [s|]; [|done]. bind_inv.
  destruct (negb _); [done|]. injection H as <-. split; cbn; [auto| |auto].
  destruct (b_psk b) as [p|]; repeat case_match; simplify_eq; auto; done.
Qed.

Definition reading_ok (st : list Network * option Block) : Prop :=
  Forall net_ok st.1 /\ forall b, st.2 = Some b -> block_ok b.

Lemma parse_line_ok n line st st' : reading_ok st -> parse_line n line st = Ok st' -> reading_ok st'.
Proof.
  intros [Hn Hb] H. destruct st as [nets [b|]]; cbn in *.
  - destruct (bool_decide _).
    + bind_inv. injection H as <-. split; [|done]. cbn. apply Forall_app. split; [done|].
      apply Forall_singleton. eapply close_ok; [by apply Hb|done].
    + bind_inv. injection H as <-. split; [done|]. cbn. intros b' [= <-].
      eapply block_line_ok; [by apply Hb|done].
  - destruct (_ || _); [by injection H as <-|]. destruct (negb _); [done|]. injection H as <-.
    split; [done|]. cbn. by intros b' [= <-].
Qed.

Lemma parse_lines_ok n ls st st' : reading_ok st -> parse_lines n ls st = Ok st' -> reading_ok st'.
Proof.
  revert n st. induction ls as [|l ls IH]; intros n st Hst H; simpl in H; [by injection H as <-|].
  bind_inv. eapply IH; [|done]. by eapply parse_line_ok.
Qed.

Lemma wifi_parse_ok t nets : parse t = Ok nets -> Forall net_ok nets.
Proof.
  unfold parse. intros H. bind_inv. destruct a as [ns [b|]]; [done|]. injection H as <-.
  apply (parse_lines_ok _ _ _ _) in E as [Hn _]; [done|]. split; [constructor|done].
Qed.

Lemma load_ok file nets : load file = Ok nets -> Forall net_ok nets.
Proof. destruct file; [apply wifi_parse_ok|]. intros [= <-]. constructor. Qed.

(** ** Addresses given *)
Record kept (n n' : Network) : Prop := {
  k_ssid : ssid n' = ssid n;
  k_psk : psk n' = psk n;
  k_hidden : hidden n' = hidden n;
  k_mac : forall m, mac n = Some m -> mac n' = Some m;
  k_has : is_Some (mac n');
}.

Definition octets_drawn (draws : nat -> list Z) : Prop :=
  forall i, Forall (fun o => 0 <= o < 256) (draws i).

Lemma give_addresses_ok draws i nets nets' :
  octets_drawn draws -> Forall net_ok nets -> give_addresses draws i nets = Ok nets' ->
  Forall2 kept nets nets' /\ Forall net_ok nets'.
Proof.
  intros Hd. revert i nets'. induction nets as [|n nets IH]; intros i nets' Hn H; simpl in H.
  { injection H as <-. split; constructor. }
  apply Forall_cons in Hn as [[Hs Hp Hm] Hns]. destruct (mac n) as [m|] eqn:Hmac; bind_inv; injection H as <-.
  - destruct (IH _ _ Hns E) as [? ?]. split; constructor; try done; split; try done.
    by rewrite Hmac.
  - destruct (IH _ _ Hns E0) as [? ?]. split; constructor; try done; split; try done; cbn.
    + intros m. congruence.
    + intros m [= <-]. eapply new_mac_ok; [apply Hd|done].
Qed.

(** The network saved under a name. *)
Definition saved (nets : list Network) (s : text) : option Network :=
  List.find (fun n => bool_decide (ssid n = s)) nets.

Lemma saved_kept nets nets' s : Forall2 kept nets nets' -> option_Forall2 kept (saved nets s) (saved nets' s).
Proof.
  intros H. induction H as [|n n' nets nets' Hk _ IH]; [constructor|]. unfold saved. simpl.
  rewrite (k_ssid _ _ Hk). case_bool_decide; [by constructor|done].
Qed.

Lemma saved_ssid nets s n : saved nets s = Some n -> ssid n = s.
Proof. intros [_ H]%List.find_some. by apply bool_decide_eq_true in H. Qed.

Lemma replace_net_saved s p h nets nets' o :
  replace_net s p h nets = (nets', o) ->
  (forall s', s' <> s -> saved nets' s' = saved nets s') /\
  exists n, saved nets' s = Some n /\ psk n = p /\ hidden n = o.2 /\
    mac n = (saved nets s ≫= mac).
Proof.
  unfold replace_net. fold (saved nets s). destruct (saved nets s) as [n|] eqn:Hf; intros [= <- <-].
  - revert Hf. unfold saved. induction nets as [|m nets IH]; [done|]. cbn [List.find].
    destruct (bool_decide (ssid m = s)) eqn:Hm; cbn [List.find].
    + intros [= ->]. apply bool_decide_eq_true in Hm as Hm'. split.
      * intros s' Hs'. cbn [ssid]. by rewrite bool_decide_eq_false_2 by congruence.
      * cbn [ssid]. rewrite Hm. eexists. by split_and!.
    + intros Hf. destruct (IH Hf) as [H1 H2]. rewrite Hm. split; [|done]. intros s' Hs'.
      destruct (bool_decide (ssid m = s')); [done|]. by apply H1.
  - split.
    + intros s' Hs'. unfold saved. clear Hf. induction nets as [|m nets IH]; simpl.
      * by rewrite bool_decide_eq_false_2 by congruence.
      * by case_bool_decide.
    + exists (mkNetwork s p None h). split_and!; [|done..]. revert Hf. unfold saved.
      induction nets as [|m nets IH]; simpl; [by rewrite bool_decide_eq_true_2|].
      by case_bool_decide.
Qed.

Lemma replace_net_ok s p h nets : check_ssid s = Ok tt -> psk_ok p -> Forall net_ok nets ->
  Forall net_ok (replace_net s p h nets).1.
Proof.
  intros Hs Hp Hn. unfold replace_net. destruct (List.find _ nets) as [m|]; cbn.
  - clear m. induction Hn as [|n nets [H1 H2 H3] Hn IH]; [constructor|]. case_bool_decide; constructor; done.
  - apply Forall_app. split; [done|]. by apply Forall_singleton.
Qed.

Lemma saved_forget s s' nets :
  saved (List.filter (fun n => negb (bool_decide (ssid n = s))) nets) s'
  = if bool_decide (s' = s) then None else saved nets s'.
Proof.
  unfold saved. induction nets as [|n nets IH]; simpl; [by destruct (bool_decide _)|].
  destruct (bool_decide_reflect (ssid n = s)) as [E|E]; cbn.
  - rewrite IH. destruct (bool_decide_reflect (s' = s)); [done|].
    by rewrite (bool_decide_eq_false_2 (ssid n = s')) by congruence.
  - destruct (bool_decide_reflect (ssid n = s')) as [E'|]; [|done].
    by rewrite (bool_decide_eq_false_2 (s' = s)) by congruence.
Qed.

(** The networks kryptikd writes are read back exactly, and whatever file it
    reads holds only networks it could have written. *)
Theorem wifi_roundtrip nets :
  (Forall net_ok nets -> parse (render nets) = Ok nets) /\
  (forall t, parse t = Ok nets -> parse (render nets) = Ok nets).
Proof. split; [apply parse_render|]. intros t Ht%wifi_parse_ok. by apply parse_render. Qed.

(** Adding a network leaves a file in which it has the passphrase given, keeps the
    address it had, and every other network keeps its passphrase and its address; every network
    has an address. *)
Theorem wifi_add draws file s pass h o hid t :
  octets_drawn draws -> add draws file s pass h = Ok (o, hid, t) ->
  exists nets nets' n p, load file = Ok nets /\ load (Some t) = Ok nets' /\
    Forall (fun n => is_Some (mac n)) nets' /\
    match pass with Some pass => check_passphrase pass = Ok p | None => p = Open end /\
    saved nets' s = Some n /\ psk n = p /\ hidden n = hid /\
    (forall m, (saved nets s ≫= mac) = Some m -> mac n = Some m) /\
    (forall s', s' <> s -> option_Forall2 kept (saved nets s') (saved nets' s')).
Proof.
  intros Hd H. unfold add in H. bind_inv.
  destruct (replace_net _ _ _ _) as [new out] eqn:Hr. bind_inv. rename a0 into p, a1 into nets, a into nets'.
  injection H as -> <-. destruct (replace_net_saved _ _ _ _ _ _ Hr) as (Hother & n & Hs & Hp & Hh & Hm).
  assert (psk_ok p) as Hpsk.
  { destruct pass; [by apply check_passphrase_ok in E0 as (_ & ? & _)|]. by injection E0 as <-. }
  assert (Forall net_ok new) as Hnew.
  { replace new with (replace_net s p h nets).1 by by rewrite Hr. apply replace_net_ok; [done..|by eapply load_ok]. }
  destruct (give_addresses_ok _ _ _ _ Hd Hnew E2) as [Hk Hok].
  pose proof (saved_kept _ _ s Hk) as Hks. rewrite Hs in Hks. inversion Hks as [? n' Hkn Hn0 Hn'|]; subst p. subst x.
  exists nets, nets', n', (psk n). split_and!; try done; [by apply parse_render| | | | | |].
  - eapply Forall2_Forall_r; [done|]. apply Forall_forall. intros x _ y Hxy. apply Hxy.
  - destruct pass; [done|]. congruence.
  - apply Hkn.
  - rewrite (k_hidden _ _ Hkn). apply Hh.
  - intros m Hmm. apply (k_mac _ _ Hkn). by rewrite Hm.
  - intros s' Hne. rewrite <-Hother by done. by apply saved_kept.
Qed.

(** Forgetting a network removes it and nothing else; forgetting one that is not
    saved is an error. *)
Theorem wifi_forget draws file s nets :
  octets_drawn draws -> check_ssid s = Ok tt -> load file = Ok nets ->
  (saved nets s = None -> forget draws file s = Err (NoNetwork s)) /\
  (forall t, forget draws file s = Ok t -> exists nets', load (Some t) = Ok nets' /\
     saved nets' s = None /\ forall s', s' <> s -> option_Forall2 kept (saved nets s') (saved nets' s')).
Proof.
  intros Hd Hs Hl. unfold forget. rewrite Hs, Hl. cbn [result_bind].
  set (f := fun n => negb (bool_decide (ssid n = s))). split.
  - intros Hn. replace (List.filter f nets) with nets; [by rewrite Z.eqb_refl|].
    symmetry. apply forallb_filter_id. apply forallb_forall. intros n Hin.
    pose proof (List.find_none _ _ Hn n Hin). subst f. by apply negb_true_iff.
  - intros t H. destruct (_ =? _); [done|]. bind_inv. injection H as <-.
    assert (Forall net_ok (List.filter f nets)) as Hf.
    { apply Forall_forall. intros n [Hin _]%list_elem_of_In%filter_In.
      eapply Forall_forall; [by eapply load_ok|]. by apply list_elem_of_In. }
    destruct (give_addresses_ok _ _ _ _ Hd Hf E) as [Hk Hok]. exists a.
    split; [by apply parse_render|]. split.
    + pose proof (saved_kept _ _ s Hk) as H. subst f. rewrite saved_forget, bool_decide_eq_true_2 in H by done.
      by inversion H.
    + intros s' Hne. pose proof (saved_kept _ _ s' Hk) as H. subst f.
      by rewrite saved_forget, bool_decide_eq_false_2 in H by done.
Qed.

(** ** iw's escapes *)
Lemma as_iw_from_graphic i last b : Forall (fun o => 0 <= o < 256) b ->
  Forall (fun c => 32 <= c < 128) (as_iw_from i last b) /\ unescape_iw (as_iw_from i last b) = Some b.
Proof.
  intros Hb. revert i. induction Hb as [|c b Hc Hb IH]; intros i; [done|]. simpl.
  destruct (IH (i + 1)) as [Hg Hu].
  destruct (_ || _) eqn:Hp.
  - assert (c <> 92 /\ (c =? 32) || is_graphic c = true) as [Hne Hgr].
    { unfold is_graphic, between in *. lia. }
    cbn [app unescape_iw]. rewrite (proj2 (Z.eqb_neq c 92)), Hgr, Hu by done. cbn.
    split; [|done]. constructor; [|done]. unfold is_graphic, between in Hgr. lia.
  - destruct (nibbles c Hc) as (H1 & H2 & _).
    destruct (hex_digit_lower _ H1) as (L1 & _ & _), (hex_digit_lower _ H2) as (L2 & _ & _).
    cbn [app hex2 unescape_iw]. rewrite !Z.eqb_refl.
    assert (forall d, is_lower_hex d = true -> is_hexdigit d = true /\ 32 <= d < 128) as Hx.
    { intros d. unfold is_lower_hex, is_hexdigit, is_digit, between. lia. }
    destruct (Hx _ L1) as [X1 R1], (Hx _ L2) as [X2 R2]. rewrite X1, X2. cbn [andb].
    rewrite (from_hex2_hex2 c Hc : from_hex2 [hex_digit (c / 16); hex_digit (c mod 16)] = Some c).
    cbn [mbind option_bind]. rewrite Hu. split; [|done].
    repeat (apply Forall_cons; split; [lia|]). done.
Qed.

Lemma ascii_octets l : Forall (fun c => 32 <= c < 128) l -> Z_of_byte <$> encode_chars l = l.
Proof.
  unfold encode_chars. induction 1 as [|c l Hc _ IH]; [done|]. rewrite join_fmap_cons, fmap_app, IH.
  unfold encode_char. replace (c <? 128) with true by lia. cbn. f_equal.
  rewrite Z_of_byte_of_Z. apply Z.mod_small. lia.
Qed.

(** An SSID printed as iw prints one is read back byte for byte, whatever bytes it
    has, if it can name a network at all. *)
Theorem iw_roundtrip b :
  Forall (fun o => 0 <= o < 256) b ->
  ssid_from_iw (as_iw_prints b)
  = if between 1 32 (zlen b) && existsb (fun c => negb (c =? 0)) b then Some b else None.
Proof.
  intros Hb. destruct (as_iw_from_graphic 0 (saturating_sub (zlen b) 1) b Hb) as [Hg Hu].
  unfold ssid_from_iw, as_iw_prints. by rewrite ascii_octets, Hu.
Qed.

(** ** Scans *)
Definition heard_ok (h : Heard) : Prop :=
  1 <= zlen (h_ssid h) <= 32 /\ -150 <= h_signal h <= 0 /\ h_security h ∈ SECURITIES.
Definition heard_key (h : Heard) : list Z * string := (h_ssid h, h_security h).

Lemma heard_line_ok line h : heard_line line = Some h -> heard_ok h.
Proof.
  unfold heard_line. destruct (split 9 line) as [|a [|b [|c [|]]]]; try done.
  destruct (parse_i32 a) as [sig|]; cbn [mbind option_bind]; [|done].
  destruct (between (-150) 0 sig) eqn:Hs; [|done].
  destruct (List.find _ SECURITIES) as [sec|] eqn:Hf; cbn [mbind option_bind]; [|done].
  unfold ssid_from_iw. destruct (unescape_iw _) as [b'|]; cbn [mbind option_bind]; [|done].
  destruct (between 1 32 _) eqn:Hl; [|done]. cbn [andb]. destruct (existsb _ b'); [|done]. intros [= <-].
  apply List.find_some in Hf as [Hf _]. unfold between in *. split_and!; cbn; try lia.
  by apply list_elem_of_In.
Qed.

Lemma hear_ok h l : heard_ok h -> Forall heard_ok l -> Forall heard_ok (hear h l).
Proof.
  intros Hh Hl. induction Hl as [|o l (? & ? & ?) Hl IH]; simpl; [by apply Forall_singleton|].
  destruct (_ && _); constructor; try done. destruct Hh as (_ & ? & _). split_and!; cbn; try done; lia.
Qed.

Lemma hear_keys h l : heard_key <$> hear h l =
  (heard_key <$> l) ++ (if bool_decide (heard_key h ∈ heard_key <$> l) then [] else [heard_key h]).
Proof.
  induction l as [|o l IH]; [done|]. cbn [hear].
  destruct (_ && _) eqn:E; rewrite !fmap_cons.
  - apply andb_true_iff in E as [E1%bool_decide_eq_true E2%String.eqb_eq].
    rewrite bool_decide_eq_true_2; [by rewrite app_nil_r|]. unfold heard_key. rewrite E1, E2. constructor.
  - rewrite IH. cbn [app]. f_equal. f_equal.
    rewrite (bool_decide_ext (heard_key h ∈ heard_key o :: _) (heard_key h ∈ heard_key <$> l)); [done|].
    rewrite elem_of_cons. split; [|by right]. intros [Eq|?]; [|done]. exfalso.
    unfold heard_key in Eq. injection Eq as E1 E2.
    rewrite E1, E2, bool_decide_eq_true_2, String.eqb_refl in E by done. done.
Qed.

Definition scan_ok (s : Scan) : Prop :=
  Forall heard_ok (heard s) /\ NoDup (heard_key <$> heard s) /\
  Forall (fun n => plain n = true) (radios s) /\ Forall (fun n => plain n = true) (off s).

Lemma scan_line_ok s line : scan_ok s -> scan_ok (scan_line s line).
Proof.
  intros (H1 & H2 & H3 & H4). unfold scan_line. destruct (strip_prefix _ line) as [names|].
  { split_and!; try done. cbn. apply Forall_forall. intros n [_ Hn]%list_elem_of_In%filter_In.
    by apply andb_true_iff in Hn as [_ ?]. }
  destruct (_ ≫= _) as [n|] eqn:Hn.
  { split_and!; try done. cbn. apply Forall_app. split; [done|]. apply Forall_singleton.
    destruct (strip_prefix _ line) as [m|]; [|done]. cbn in Hn. destruct (plain m) eqn:Hp; congruence. }
  destruct (heard_line line) as [h|] eqn:Hh; [|done]. split_and!; try done; cbn.
  - apply hear_ok; [by eapply heard_line_ok|done].
  - rewrite hear_keys. case_bool_decide; [by rewrite app_nil_r|]. by apply NoDup_snoc.
Qed.

Lemma insert_heard_perm h l : insert_heard h l ≡ₚ h :: l.
Proof.
  induction l as [|o l IH]; simpl; [done|]. destruct (heard_leb h o); [done|].
  rewrite IH. apply Permutation_swap.
Qed.
Lemma sort_heard_perm l : sort_heard l ≡ₚ l.
Proof. induction l as [|h l IH]; simpl; [done|]. by rewrite insert_heard_perm, IH. Qed.

Definition stronger (a b : Heard) : Prop := h_signal b <= h_signal a.

Lemma insert_heard_sorted h l : Sorted stronger l -> Sorted stronger (insert_heard h l).
Proof.
  induction l as [|o l IH]; intros Hs; simpl; [by repeat constructor|].
  destruct (heard_leb h o) eqn:E.
  { constructor; [done|]. constructor. unfold heard_leb, stronger in *. lia. }
  inversion_clear Hs as [|? ? Hl Ho]. assert (stronger o h) as Hoh.
  { unfold heard_leb, stronger in *. apply orb_false_iff in E as [? _]. lia. }
  constructor; [by apply IH|]. destruct l as [|x l]; simpl; [by constructor|].
  inversion_clear Ho. destruct (heard_leb h x); by constructor.
Qed.

Lemma Sorted_take {A} (R : relation A) n l : Sorted R l -> Sorted R (take n l).
Proof.
  intros Hs. revert n. induction Hs as [|x l Hs IH Hx]; intros [|n]; simpl; [constructor..|].
  constructor; [apply IH|]. destruct Hx, n; by constructor.
Qed.

(** Whatever the net zone answers, a scan holds at most 40 networks, each a name
    of 1 to 32 bytes heard once per kind of security, the strongest first, and only plain names
    of radios. *)
Theorem scan_bounded t :
  zlen (heard (parse_scan t)) <= MAX_HEARD /\ scan_ok (parse_scan t) /\
  Sorted stronger (heard (parse_scan t)).
Proof.
  assert (forall ls s, scan_ok s -> scan_ok (fold_left scan_line ls s)) as Hf.
  { induction ls as [|l ls IH]; intros s Hs; [done|]. cbn. by apply IH, scan_line_ok. }
  unfold parse_scan. set (s := fold_left _ _ _).
  assert (scan_ok s) as (H1 & H2 & H3 & H4) by (apply Hf; split_and!; constructor).
  assert (Sorted stronger (sort_heard (heard s))) as Hsort.
  { generalize (heard s). intros l. induction l; [constructor|]. by apply insert_heard_sorted. }
  unfold scan_ok. cbn [heard radios off]. split_and!; [|apply Forall_take; by rewrite sort_heard_perm| | | |].
  - unfold zlen, MAX_HEARD. rewrite length_take. lia.
  - rewrite fmap_take. eapply sublist_NoDup; [|apply sublist_take]. by rewrite sort_heard_perm.
  - done.
  - done.
  - by apply Sorted_take.
Qed.

(** ** Witnesses *)
Definition demo_draws : nat -> list Z := fun i => [17; 34; 51; 68; 85; Z.of_nat i mod 256].
Definition home : Network :=
  mkNetwork (chars "home") (Passphrase (chars "correct horse")) (Some (chars "02:00:00:00:00:01")) false.
Definition added_file : text :=
  match add demo_draws (Some (render [home])) (chars "cafe") None true with
  | Ok (_, _, t) => t
  | Err _ => []
  end.

Lemma demo_octets : octets_drawn demo_draws.
Proof. intros i. repeat (apply Forall_cons; split; [lia || apply Z.mod_pos_bound; lia|]). constructor. Qed.

Lemma wifi_roundtrip_witness : parse (render [home]) = Ok [home].
Proof.
  apply (wifi_roundtrip [home]). constructor; [|constructor].
  split; [vm_compute; reflexivity..|]. intros m [= <-]. vm_compute. reflexivity.
Defined.

Lemma wifi_add_witness :
  exists nets nets' n p, load (Some (render [home])) = Ok nets /\ load (Some added_file) = Ok nets' /\
    Forall (fun n => is_Some (mac n)) nets' /\ p = Open /\
    saved nets' (chars "cafe") = Some n /\ psk n = p /\ hidden n = true /\
    (forall m, (saved nets (chars "cafe") ≫= mac) = Some m -> mac n = Some m) /\
    (forall s', s' <> chars "cafe" -> option_Forall2 kept (saved nets s') (saved nets' s')).
Proof.
  apply (wifi_add demo_draws (Some (render [home])) (chars "cafe") None true New true added_file);
    [apply demo_octets|]. vm_compute. reflexivity.
Defined.

Lemma wifi_forget_witness :
  (saved [home] (chars "cafe") = None ->
     forget demo_draws (Some (render [home])) (chars "cafe") = Err (NoNetwork (chars "cafe"))) /\
  (forall t, forget demo_draws (Some (render [home])) (chars "cafe") = Ok t ->
     exists nets', load (Some t) = Ok nets' /\ saved nets' (chars "cafe") = None /\
     forall s', s' <> chars "cafe" -> option_Forall2 kept (saved [home] s') (saved nets' s')).
Proof.
  apply wifi_forget; [apply demo_octets|vm_compute; reflexivity..].
Defined.

Lemma iw_roundtrip_witness : ssid_from_iw (as_iw_prints [32; 92; 200; 65; 32]) = Some [32; 92; 200; 65; 32].
Proof.
  rewrite (iw_roundtrip [32; 92; 200; 65; 32]); [vm_compute; reflexivity|].
  repeat (apply Forall_cons; split; [lia|]). constructor.
Defined.
