(* ===== verification/Dates.v ===== *)
(** * compartments/kryptikd/src/time.rs: calendar dates

    The days of a proleptic Gregorian date and back, and the ISO 8601 times of signed statements,
    in seconds since the epoch. Rust's division rounds toward zero: [Z.quot]. *)
From S2P Require Import Prelude Bytes Text.
Open Scope string_scope.
Open Scope list_scope.
Open Scope Z_scope.

Definition days_from_civil (y m d : Z) : Z :=
  let y := if m <=? 2 then y - 1 else y in
  let era := (if 0 <=? y then y else y - 399) ÷ 400 in
  let yoe := y - era * 400 in
  let doy := (153 * (if 2 <? m then m - 3 else m + 9) + 2) ÷ 5 + d - 1 in
  let doe := yoe * 365 + yoe ÷ 4 - yoe ÷ 100 + doy in
  era * 146097 + doe - 719468.

Definition civil_from_days (z : Z) : Z * Z * Z :=
  let z := z + 719468 in
  let era := (if 0 <=? z then z else z - 146096) ÷ 146097 in
  let doe := z - era * 146097 in
  let yoe := (doe - doe ÷ 1460 + doe ÷ 36524 - doe ÷ 146096) ÷ 365 in
  let doy := doe - (365 * yoe + yoe ÷ 4 - yoe ÷ 100) in
  let mp := (5 * doy + 2) ÷ 153 in
  let d := doy - (153 * mp + 2) ÷ 5 + 1 in
  let m := if mp <? 10 then mp + 3 else mp - 9 in
  (yoe + era * 400 + (if m <=? 2 then 1 else 0), m, d).

(** The digits of [s[from..to]] as a number. *)
Definition num (s : list Z) (from to : Z) : option Z :=
  let t := slice s from to in
  if (to <=? zlen s) && forallb is_digit t then digits_from 0 t else None.

(** [parse_iso8601], on the bytes of the text. *)
Definition parse_iso8601 (s : string) : option Z :=
  let b := octets s in
  let at_ i c := match zlookup b i with Some x => x =? c | None => false end in
  if (zlen b <? 20) || negb (at_ 4 45) || negb (at_ 7 45) || negb (at_ 10 84) || negb (at_ 13 58)
     || negb (at_ 16 58) then None
  else
    y ← num b 0 4; mo ← num b 5 7; d ← num b 8 10;
    h ← num b 11 13; mi ← num b 14 16; se ← num b 17 19;
    if negb (between 1 12 mo) || negb (between 1 31 d) || (23 <? h) || (59 <? mi) || (60 <? se)
    then None
    else
      let z := drop 19 b in
      zone ← (if bool_decide (z = [90]) then Some 0
              else if (zlen z =? 6) && (at_ 19 43 || at_ 19 45) && at_ 22 58 then
                zh ← num b 20 22; zm ← num b 23 25;
                if (23 <? zh) || (59 <? zm) then None
                else let secs := zh * 3600 + zm * 60 in
                     Some (if at_ 19 45 then - secs else secs)
              else None);
      Some (days_from_civil y mo d * 86400 + h * 3600 + mi * 60 + se - zone).

(** ** The calendar

    The days of each month, and of a date within its year of 400 years. *)
Definition leap (y : Z) : bool := (y mod 4 =? 0) && (negb (y mod 100 =? 0) || (y mod 400 =? 0)).
Definition month_days (y m : Z) : Z :=
  if m =? 2 then if leap y then 29 else 28
  else if (m =? 4) || (m =? 6) || (m =? 9) || (m =? 11) then 30 else 31.
Definition valid_date (y m d : Z) : bool := between 1 12 m && between 1 (month_days y m) d.

(** The day after a date. *)
Definition next_day (date : Z * Z * Z) : Z * Z * Z :=
  let '(y, m, d) := date in
  if d <? month_days y m then (y, m, d + 1)
  else if m <? 12 then (y, m + 1, 1)
  else (y + 1, 1, 1).

(** Rounding toward zero of a shifted negative is rounding down. *)
Lemma era_quot z n : 0 < n -> (if 0 <=? z then z else z - (n - 1)) ÷ n = z / n.
Proof.
  intros Hn. destruct (Z.leb_spec 0 z); [by apply Z.quot_div_nonneg|].
  Z.to_euclidean_division_equations. nia.
Qed.

(** Both directions repeat every 400 years. *)
Lemma days_from_civil_era y m d k :
  days_from_civil (y + 400 * k) m d = days_from_civil y m d + 146097 * k.
Proof.
  unfold days_from_civil. rewrite !(era_quot _ 400) by done.
  set (y1 := if m <=? 2 then y - 1 else y).
  replace (if m <=? 2 then y + 400 * k - 1 else y + 400 * k) with (y1 + k * 400)
    by (subst y1; case_match; lia).
  rewrite Z.div_add by done.
  replace (y1 + k * 400 - (y1 / 400 + k) * 400) with (y1 - y1 / 400 * 400) by lia. lia.
Qed.

Definition shift_years (k : Z) (date : Z * Z * Z) : Z * Z * Z :=
  let '(y, m, d) := date in (y + 400 * k, m, d).

Lemma civil_from_days_era z k :
  civil_from_days (z + 146097 * k) = shift_years k (civil_from_days z).
Proof.
  unfold civil_from_days, shift_years. rewrite !(era_quot _ 146097) by done.
  replace (z + 146097 * k + 719468) with (z + 719468 + k * 146097) by lia.
  rewrite Z.div_add by done.
  replace (z + 719468 + k * 146097 - ((z + 719468) / 146097 + k) * 146097)
    with (z + 719468 - (z + 719468) / 146097 * 146097) by lia.
  set (doe := z + 719468 - _). do 2 f_equal. lia.
Qed.

Lemma month_days_era y k m : month_days (y + 400 * k) m = month_days y m.
Proof.
  assert (leap (y + 400 * k) = leap y) as Hl.
  { unfold leap. do 2 f_equal; [|f_equal; f_equal|f_equal].
    - replace (y + 400 * k) with (y + (100 * k) * 4) by lia. by rewrite Z_mod_plus_full.
    - replace (y + 400 * k) with (y + (4 * k) * 100) by lia. by rewrite Z_mod_plus_full.
    - replace (y + 400 * k) with (y + k * 400) by lia. by rewrite Z_mod_plus_full. }
  unfold month_days. by rewrite Hl.
Qed.

Lemma next_day_era k date : next_day (shift_years k date) = shift_years k (next_day date).
Proof.
  destruct date as [[y m] d]. unfold next_day, shift_years. rewrite month_days_era.
  repeat case_match; f_equal; f_equal; lia.
Qed.

(** ** A date from its days *)

(** A year counted from March, of [yoe] in its era: its last day is the 366th in leap years. *)
Definition last_doy (yoe : Z) : Z := if leap (yoe + 1) then 365 else 364.
Definition day_of_era (yoe doy : Z) : Z := yoe * 365 + yoe ÷ 4 - yoe ÷ 100 + doy.
Definition year_of_era (doe : Z) : Z := (doe - doe ÷ 1460 + doe ÷ 36524 - doe ÷ 146096) ÷ 365.

Lemma year_of_era_mono a b : 0 <= a <= b -> b <= 146096 -> year_of_era a <= year_of_era b.
Proof.
  intros Ha Hb. unfold year_of_era. rewrite !Z.quot_div_nonneg by (lia || Z.to_euclidean_division_equations; lia).
  apply Z.div_le_mono; [done|]. Z.to_euclidean_division_equations. lia.
Qed.

(** The first and the last day of each of the 400 years. *)
Definition check_year (yoe : Z) : bool :=
  (year_of_era (day_of_era yoe 0) =? yoe) && (year_of_era (day_of_era yoe (last_doy yoe)) =? yoe)
  && (0 <=? day_of_era yoe 0) && (day_of_era yoe (last_doy yoe) <=? 146096)
  && (if yoe <? 399 then day_of_era (yoe + 1) 0 =? day_of_era yoe (last_doy yoe) + 1
      else day_of_era yoe (last_doy yoe) =? 146096).

Lemma check_years : forallb check_year (Z.of_nat <$> seq 0 400) = true.
Proof. vm_compute. reflexivity. Qed.

Lemma check_year_ok yoe : 0 <= yoe < 400 -> check_year yoe = true.
Proof.
  intros Hy. pose proof check_years as H. rewrite forallb_Forall, Forall_forall in H. apply H.
  apply list_elem_of_fmap. exists (Z.to_nat yoe). rewrite elem_of_seq. lia.
Qed.

Lemma year_of_era_ok yoe doy : 0 <= yoe < 400 -> 0 <= doy <= last_doy yoe ->
  0 <= day_of_era yoe doy <= 146096 /\ year_of_era (day_of_era yoe doy) = yoe.
Proof.
  intros Hy Hd. pose proof (check_year_ok yoe Hy) as H. unfold check_year in H.
  apply andb_true_iff in H as [H _]. apply andb_true_iff in H as [H H4]. apply andb_true_iff in H as [H H3].
  apply andb_true_iff in H as [H1 H2].
  assert (day_of_era yoe 0 <= day_of_era yoe doy <= day_of_era yoe (last_doy yoe)) as Hr
    by (unfold day_of_era; lia).
  split; [lia|]. pose proof (year_of_era_mono (day_of_era yoe 0) (day_of_era yoe doy)).
  pose proof (year_of_era_mono (day_of_era yoe doy) (day_of_era yoe (last_doy yoe))). lia.
Qed.

(** A month counted from March, and the days before it. *)
Definition march (m : Z) : Z := if 2 <? m then m - 3 else m + 9.
Definition day_of_year (mp d : Z) : Z := (153 * mp + 2) ÷ 5 + d - 1.

Definition check_month (m : Z) : bool :=
  let mp := march m in
  forallb (fun d =>
    let doy := day_of_year mp d in
    ((5 * doy + 2) ÷ 153 =? mp) && (doy - (153 * mp + 2) ÷ 5 + 1 =? d) && (0 <=? doy)
    && ((if mp <? 10 then mp + 3 else mp - 9) =? m)
    && (doy <=? (if (m =? 2) && (d =? 29) then 365 else 364)))
    (Z.of_nat <$> seq 1 (Z.to_nat (month_days 0 m))).

Lemma check_months : forallb check_month (Z.of_nat <$> seq 1 12) = true.
Proof. vm_compute. reflexivity. Qed.

Lemma month_days_0 y m : month_days y m <= month_days 0 m.
Proof. unfold month_days. repeat case_match; done || lia. Qed.

Lemma check_month_ok y m d : valid_date y m d = true ->
  let mp := march m in let doy := day_of_year mp d in
  (5 * doy + 2) ÷ 153 = mp /\ doy - (153 * mp + 2) ÷ 5 + 1 = d /\ 0 <= doy /\
  (if mp <? 10 then mp + 3 else mp - 9) = m /\
  doy <= (if (m =? 2) && (d =? 29) then 365 else 364).
Proof.
  unfold valid_date, between. intros H. pose proof (month_days_0 y m).
  pose proof check_months as Hm. rewrite forallb_Forall, Forall_forall in Hm.
  specialize (Hm m). rewrite list_elem_of_fmap in Hm.
  specialize (Hm ltac:(exists (Z.to_nat m); rewrite elem_of_seq; lia)).
  unfold check_month in Hm. rewrite forallb_Forall, Forall_forall in Hm.
  specialize (Hm d). rewrite list_elem_of_fmap in Hm.
  specialize (Hm ltac:(exists (Z.to_nat d); rewrite elem_of_seq; lia)). cbv zeta in *. lia.
Qed.

(** The March year of a date. *)
Definition march_year (y m : Z) : Z := if m <=? 2 then y - 1 else y.

Lemma days_from_civil_eq y m d :
  days_from_civil y m d =
  march_year y m / 400 * 146097
  + day_of_era (march_year y m mod 400) (day_of_year (march m) d) - 719468.
Proof.
  unfold days_from_civil. fold (march_year y m) (march m). rewrite (era_quot _ 400) by done.
  unfold day_of_era, day_of_year. rewrite Z.mod_eq by done.
  replace (march_year y m - 400 * (march_year y m / 400)) with (march_year y m - march_year y m / 400 * 400) by lia.
  lia.
Qed.

Lemma valid_doy y m d : valid_date y m d = true ->
  0 <= day_of_year (march m) d <= last_doy (march_year y m mod 400).
Proof.
  intros H. destruct (check_month_ok _ _ _ H) as (_ & _ & H0 & _ & Hl). split; [done|].
  unfold last_doy. assert (leap (march_year y m mod 400 + 1) = leap (march_year y m + 1)) as ->.
  { rewrite (Z.div_mod (march_year y m) 400) at 2 by done. unfold leap.
    set (q := march_year y m / 400). set (r := march_year y m mod 400).
    replace (400 * q + r + 1) with (r + 1 + (100 * q) * 4) at 1 by lia.
    replace (400 * q + r + 1) with (r + 1 + (4 * q) * 100) at 1 by lia.
    replace (400 * q + r + 1) with (r + 1 + q * 400) by lia. by rewrite !Z_mod_plus_full. }
  destruct ((m =? 2) && (d =? 29)) eqn:E; [|case_match; lia].
  assert (m = 2 /\ d = 29) as [-> ->] by lia. unfold march_year. cbn [Z.leb].
  change (2 <=? 2) with true. cbn iota. replace (y - 1 + 1) with y by lia.
  unfold valid_date, month_days, between in H. change (2 =? 2) with true in H. cbn iota in H.
  destruct (leap y); lia.
Qed.

(** The date of a valid date's days is that date. *)
Lemma civil_days y m d : valid_date y m d = true -> civil_from_days (days_from_civil y m d) = (y, m, d).
Proof.
  intros H. pose proof (valid_doy _ _ _ H) as Hdoy.
  destruct (check_month_ok _ _ _ H) as (Hmp & Hd & _ & Hm & _).
  set (yoe := march_year y m mod 400) in *. set (doy := day_of_year (march m) d) in *.
  destruct (year_of_era_ok yoe doy) as [Hr Hy]; [subst yoe; apply Z.mod_pos_bound; lia|done|].
  rewrite days_from_civil_eq. fold yoe doy. unfold civil_from_days.
  replace (march_year y m / 400 * 146097 + day_of_era yoe doy - 719468 + 719468)
    with (day_of_era yoe doy + march_year y m / 400 * 146097) by lia.
  rewrite (era_quot _ 146097), Z.div_add, (Z.div_small (day_of_era yoe doy)) by lia.
  replace (day_of_era yoe doy + march_year y m / 400 * 146097 - (0 + march_year y m / 400) * 146097)
    with (day_of_era yoe doy) by lia.
  fold (year_of_era (day_of_era yoe doy)). rewrite Hy.
  replace (day_of_era yoe doy - (365 * yoe + yoe ÷ 4 - yoe ÷ 100)) with doy by (unfold day_of_era; lia).
  rewrite Hmp, Hd, Hm. do 2 f_equal. subst yoe. unfold march_year.
  pose proof (Z.div_mod (if m <=? 2 then y - 1 else y) 400). destruct (m <=? 2); lia.
Qed.

(** ** Every day is a date's *)
Lemma year_turns Y :
  Y / 400 * 146097 + day_of_era (Y mod 400) (last_doy (Y mod 400)) + 1
  = (Y + 1) / 400 * 146097 + day_of_era ((Y + 1) mod 400) 0.
Proof.
  pose proof (Z.mod_pos_bound Y 400 ltac:(lia)) as Hb. pose proof (check_year_ok _ Hb) as H.
  unfold check_year in H. apply andb_true_iff in H as [_ H]. set (r := Y mod 400) in *. set (q := Y / 400).
  assert (Y = 400 * q + r) as E by (apply Z.div_mod; lia). destruct (Z.ltb_spec r 399).
  - assert ((Y + 1) / 400 = q /\ (Y + 1) mod 400 = r + 1) as [-> ->].
    { split; [symmetry; apply (Z.div_unique _ _ _ (r + 1)); lia|symmetry; apply (Z.mod_unique _ _ q); lia]. }
    lia.
  - assert ((Y + 1) / 400 = q + 1 /\ (Y + 1) mod 400 = 0) as [-> ->].
    { split; [symmetry; apply (Z.div_unique _ _ _ 0); lia|symmetry; apply (Z.mod_unique _ _ (q + 1)); lia]. }
    change (day_of_era 0 0) with 0. lia.
Qed.

Lemma months m : 1 <= m <= 12 ->
  m = 2 \/ m = 12 \/ (march (m + 1) = march m + 1 /\ m <> 2 /\ m < 12 /\
    (forall y, day_of_year (march (m + 1)) 1 = day_of_year (march m) (month_days y m) + 1) /\
    forall y, march_year y (m + 1) = march_year y m).
Proof.
  intros Hm. assert (m ∈ Z.of_nat <$> seq 1 12) as Hin.
  { apply list_elem_of_fmap. exists (Z.to_nat m). rewrite elem_of_seq. lia. }
  repeat (apply elem_of_cons in Hin as [->|Hin]); [..|by apply not_elem_of_nil in Hin];
    cbn; auto; right; right; split_and!; done.
Qed.

Lemma next_day_days y m d : valid_date y m d = true ->
  let '(y', m', d') := next_day (y, m, d) in
  valid_date y' m' d' = true /\ days_from_civil y' m' d' = days_from_civil y m d + 1.
Proof.
  intros H. pose proof (valid_doy _ _ _ H) as Hdoy. pose proof H as Hv. unfold valid_date, between in Hv.
  assert (forall y m, 1 <= month_days y m) as Hpos by (intros; unfold month_days; repeat case_match; lia).
  unfold next_day. destruct (Z.ltb_spec d (month_days y m)) as [Hd|Hd].
  { split; [unfold valid_date, between; lia|]. rewrite !days_from_civil_eq.
    unfold day_of_era, day_of_year. lia. }
  assert (d = month_days y m) as -> by lia.
  destruct (months m ltac:(lia)) as [-> | [-> | (_ & Hn & Hlt & Hdoys & Hyear)]].
  - change (2 <? 12) with true. cbn iota. change (2 + 1) with 3.
    split; [unfold valid_date, between; specialize (Hpos y 3); lia|].
    rewrite !days_from_civil_eq. change (day_of_year (march 3) 1) with 0. change (march_year y 3) with y.
    assert (day_of_year (march 2) (month_days y 2) = last_doy (march_year y 2 mod 400)) as ->.
    { unfold last_doy, month_days. change (2 =? 2) with true. cbn iota.
      change (march_year y 2) with (y - 1) in *.
      assert (leap ((y - 1) mod 400 + 1) = leap y) as ->.
      { pose proof (Z.div_mod (y - 1) 400 ltac:(lia)) as E. set (q := (y - 1) / 400) in E.
        set (r := (y - 1) mod 400) in *. unfold leap.
        replace y with (r + 1 + (100 * q) * 4) at 1 by lia.
        replace y with (r + 1 + (4 * q) * 100) at 1 by lia.
        replace y with (r + 1 + q * 400) at 1 by lia. by rewrite !Z_mod_plus_full. }
      by destruct (leap y). }
    change (march_year y 2) with (y - 1). pose proof (year_turns (y - 1)) as E.
    replace (y - 1 + 1) with y in E by lia. lia.
  - change (12 <? 12) with false. cbn iota.
    split; [unfold valid_date, between; specialize (Hpos (y + 1) 1); lia|].
    rewrite !days_from_civil_eq. change (march_year (y + 1) 1) with (y + 1 - 1).
    replace (y + 1 - 1) with y by lia. change (march_year y 12) with y.
    change (month_days y 12) with 31. change (day_of_year (march 1) 1) with (day_of_year (march 12) 31 + 1).
    unfold day_of_era. lia.
  - rewrite (proj2 (Z.ltb_lt m 12)) by done.
    split; [unfold valid_date, between; specialize (Hpos y (m + 1)); lia|].
    rewrite !days_from_civil_eq, (Hdoys y), Hyear. unfold day_of_era. lia.
Qed.

Lemma days_reached (n : nat) : exists y m d, valid_date y m d = true /\ days_from_civil y m d = Z.of_nat n.
Proof.
  induction n as [|n (y & m & d & Hv & E)].
  - exists 1970, 1, 1. done.
  - pose proof (next_day_days y m d Hv) as Hn. destruct (next_day (y, m, d)) as [[y' m'] d'].
    exists y', m', d'. split; [by apply Hn|]. destruct Hn as [_ ->]. lia.
Qed.

Lemma civil_days_inv z : exists y m d,
  civil_from_days z = (y, m, d) /\ valid_date y m d = true /\ days_from_civil y m d = z.
Proof.
  set (k := Z.abs z). destruct (days_reached (Z.to_nat (z + 146097 * k))) as (y & m & d & Hv & E).
  rewrite Z2Nat.id in E by lia. exists (y + 400 * - k), m, d.
  assert (days_from_civil (y + 400 * - k) m d = z) as Ez by (rewrite days_from_civil_era; lia).
  assert (valid_date (y + 400 * - k) m d = true) as Hv' by (unfold valid_date; by rewrite month_days_era).
  split_and!; [|done..]. rewrite <-Ez. by apply civil_days.
Qed.

(** The two conversions are inverse to each other on every day and every valid
    date, and the day after a date, by the Gregorian calendar, is the date of the next day. *)
Theorem calendar_exact :
  (forall z, exists y m d, civil_from_days z = (y, m, d) /\ valid_date y m d = true /\
     days_from_civil y m d = z /\ civil_from_days (z + 1) = next_day (y, m, d)) /\
  (forall y m d, valid_date y m d = true -> civil_from_days (days_from_civil y m d) = (y, m, d)).
Proof.
  split; [|apply civil_days]. intros z. destruct (civil_days_inv z) as (y & m & d & Ec & Hv & Ed).
  exists y, m, d. split_and!; [done..|]. pose proof (next_day_days y m d Hv) as Hn.
  destruct (next_day (y, m, d)) as [[y' m'] d']. destruct Hn as [Hv' E].
  rewrite <-Ed, <-E. by apply civil_days.
Qed.
