(* ===== verification/Update.v ===== *)
(** * compartments/kryptikd/src/update.rs: zone 0's side of the update channel

    Statements of what is current, the order of versions, the release asked for and what of it has
    arrived. [Dir] is the state directory; its files are written whole, and the operations of the
    file system succeed. The signature checks, the clock, the free space and whether an apply is
    running are arguments. A stage directory has an inode, fresh when it is made, which tells
    whether the one held open across a check is still there. *)
From S2P Require Import Prelude Bytes Text Dates Names.
Open Scope string_scope.
Open Scope list_scope.
Open Scope Z_scope.

Module Update.

Abbreviation text := (list Z).

Definition POINTER_MAGIC : text := Eval vm_compute in chars "KRYPTIK-LATEST-1".
Definition POINTER_MAX : Z := 8 * 1024.
Definition MANIFEST_MAX : Z := 64 * 1024.
Definition STALE_AFTER_SECS : Z := 30 * 86400.
Definition MAX_AHEAD_SECS : Z := 86400.
Definition POINTER_INTERVAL_SECS : Z := 3600.
Definition PUT_MAX : Z := Z.shiftl 1 20.
Definition MANIFEST : text := Eval vm_compute in chars "manifest".
Definition MANIFEST_SIG : text := Eval vm_compute in chars "manifest.sig".

Inductive UpdateError :=
| NotAPointer
| NotKeyValue (line : text)
| UnknownPointerKey (k : text)
| GivenTwice (k : text)
| NoKey (k : text)
| NotAVersion (v : text)
| NotADate (d : text)
| NotAHash
| BadBase
| RelativeBase (base : text)
| PlainHttp
| NeitherScheme (url : text)
| WrongRole (role : text)
| DatedAhead
| Replay
| NotFileLine (line : text)
| NotASize (s : text)
| BadFileName (n : text)
| ListedTwice (n : text)
| NoFiles
| NothingToPut
| OffsetOverflow
| AlreadyVerified (n : text)
| PutWhole (n : text)
| NotVerified
| NotListed (n : text)
| WrongOffset (n : text) (held : Z)
| PastSize (n : text) (size : Z)
| TooSoon
| NotText
| CheckFailed (why : string)
| NoRole
| NotAnUpdateVerb
| NoStatement
| NotNewer (v : text)
| NoChannel
| NotFetched (v : text) (e : UpdateError)
| Applying
| NothingAsked
| NotTheNewest
| RefusedLately
| StageCleared (v : text)
| NotForVersion (v : text)
| NotAnnounced
| NoRoom (need free : Z)
| NotArrived (v : text)
| StillArriving (n : text) (at_ : Z).

(** ** Statements *)
Record Pointer := mkPointer {
  role : text; version : text; issued : Z; manifest_sha256 : text; base : text }.

Definition is_alnum (c : Z) : bool := is_digit c || is_lower c || between 65 90 c.

Definition is_version (s : text) : bool :=
  (zlen (encode_chars s) <=? 32)
  && (match s with c :: _ => is_alnum c | [] => false end)
  && forallb (fun b => is_alnum b || (b =? 46) || (b =? 43) || (b =? 45) || (b =? 126)) s.

(** [split_once(": ")]. *)
Fixpoint split_colon (cs : text) : option (text * text) :=
  match cs with
  | [] => None
  | c :: cs' =>
    match cs' with
    | d :: r => if (c =? 58) && (d =? 32) then Some ([], r)
                else '(a, b) ← split_colon cs'; Some (c :: a, b)
    | [] => None
    end
  end.

Definition POINTER_KEYS : list text := Eval vm_compute in
  [chars "role"; chars "version"; chars "issued"; chars "manifest-sha256"; chars "base"].

(** The values given so far, by key. *)
Fixpoint pointer_lines (slots : gmap text text) (ls : list text) : result (gmap text text) UpdateError :=
  match ls with
  | [] => Ok slots
  | line :: ls =>
    (let? (k, v) := ok_or (split_colon line) (NotKeyValue line) in
     if negb (bool_decide (k ∈ POINTER_KEYS)) then Err (UnknownPointerKey k)
     else match slots !! k with
          | Some _ => Err (GivenTwice k)
          | None => pointer_lines (<[k := v]> slots) ls
          end)%result
  end.

Definition need_key (slots : gmap text text) (k : string) : result text UpdateError :=
  ok_or (slots !! chars k) (NoKey (chars k)).

Definition is_hash (sha : text) : bool :=
  (zlen (encode_chars sha) =? 64) && forallb (fun b => is_digit b || between 97 102 b) sha.

Definition parse_pointer (t : text) : result Pointer UpdateError :=
  match lines t with
  | first :: ls =>
    if negb (bool_decide (first = POINTER_MAGIC)) then Err NotAPointer
    else
      (let? slots := pointer_lines ∅ ls in
       let? role := need_key slots "role" in
       let? version := need_key slots "version" in
       let? issued := need_key slots "issued" in
       let? sha := need_key slots "manifest-sha256" in
       let? base := need_key slots "base" in
       if negb (is_version version) then Err (NotAVersion version)
       else
         let? at_ := ok_or (parse_iso8601 (of_chars issued)) (NotADate issued) in
         if negb (is_hash sha) then Err NotAHash
         else if bool_decide (base = []) || (512 <? zlen (encode_chars base))
                 || negb (forallb (between 0x21 0x7e) base) then Err BadBase
         else Ok (mkPointer role version at_ sha base))%result
  | [] => Err NotAPointer
  end.

(** ** URLs *)
(** [split_once("://")]: the scheme. *)
Fixpoint scheme (cs : text) : option text :=
  match cs with
  | [] => None
  | c :: cs' =>
    if bool_decide (take 3 cs = [58; 47; 47]) then Some []
    else s ← scheme cs'; Some (c :: s)
  end.

(** [trim_end_matches('/')]. *)
Fixpoint trim_slashes_rev (cs : text) : text :=
  match cs with c :: cs' => if c =? 47 then trim_slashes_rev cs' else cs | [] => [] end.
Definition trim_end_slashes (cs : text) : text := reverse (trim_slashes_rev (reverse cs)).

Definition DEVELOPMENT : text := Eval vm_compute in chars "development".

Definition resolve_base (channel base role : text) : result text UpdateError :=
  (let? url :=
     match scheme base with
     | Some _ => Ok base
     | None =>
       if bool_decide (head base = Some 47) || bool_decide ([46; 46] ∈ split 47 base)
       then Err (RelativeBase base)
       else Ok (trim_end_slashes channel ++ 47 :: base)
     end in
   let url := if bool_decide (last url = Some 47) then url else url ++ [47] in
   match scheme url with
   | Some s =>
     if bool_decide (s = chars "https") then Ok url
     else if bool_decide (s = chars "http") then
       if bool_decide (role = DEVELOPMENT) then Ok url else Err PlainHttp
     else Err (NeitherScheme url)
   | None => Err (NeitherScheme url)
   end)%result.

(** ** The order of versions *)

(** The digits a text starts with, and what follows. *)
Fixpoint run (s : text) : text * text :=
  match s with
  | c :: s' => if is_digit c then let '(r, t) := run s' in (c :: r, t) else ([], s)
  | [] => ([], [])
  end.
Fixpoint strip_zeros (s : text) : text :=
  match s with c :: s' => if c =? 48 then strip_zeros s' else s | [] => [] end.
(** [Vec<u8>]'s order. *)
Fixpoint bytes_cmp (a b : text) : comparison :=
  match a, b with
  | [], [] => Eq
  | [], _ => Lt
  | _, [] => Gt
  | x :: a, y :: b => match x ?= y with Eq => bytes_cmp a b | o => o end
  end.
(** Digit runs as numbers. *)
Definition run_cmp (x y : text) : comparison :=
  match zlen (strip_zeros x) ?= zlen (strip_zeros y) with
  | Eq => bytes_cmp (strip_zeros x) (strip_zeros y)
  | o => o
  end.

(** The loop of [version_cmp]; each round consumes a byte of both. *)
Fixpoint version_loop (fuel : nat) (a b : text) : comparison :=
  match fuel with
  | O => Eq
  | S fuel =>
    match a, b with
    | x :: a', y :: b' =>
      if is_digit x && is_digit y then
        let '(ra, a) := run a in
        let '(rb, b) := run b in
        match run_cmp ra rb with Eq => version_loop fuel a b | o => o end
      else
        match x ?= y with Eq => version_loop fuel a' b' | o => o end
    | _, _ => zlen a ?= zlen b
    end
  end.
Definition version_cmp (a b : text) : comparison := version_loop (S (length a)) a b.

Inductive Standing := Current | Available (v : text).

Definition accept_pointer (p : Pointer) (required_role running : text) (newest_issued : option Z)
    (now : Z) : result Standing UpdateError :=
  if negb (bool_decide (role p = required_role)) then Err (WrongRole (role p))
  else if now + MAX_AHEAD_SECS <? issued p then Err DatedAhead
  else
    match newest_issued with
    | Some seen => if issued p <? seen then Err Replay
                   else Ok (match version_cmp (version p) running with Gt => Available (version p) | _ => Current end)
    | None => Ok (match version_cmp (version p) running with Gt => Available (version p) | _ => Current end)
    end.

Definition staleness (now issued : Z) : Z * bool :=
  let age := Z.max (now - issued) 0 in (age ÷ 86400, STALE_AFTER_SECS <? age).
Definition behind (now then_ : Z) : option Z :=
  if now + MAX_AHEAD_SECS <? then_ then Some ((then_ - now) ÷ 86400) else None.

(** ** Files of a release *)
Record Entry := mkEntry { e_name : text; e_size : Z }.

Definition transfer_name_ok (n : text) : bool :=
  match check_transfer_name n with Ok _ => true | Err _ => false end.

Definition FILE_IS : text := Eval vm_compute in chars "file ".
Fixpoint file_lines (out : list Entry) (ls : list text) : result (list Entry) UpdateError :=
  match ls with
  | [] => Ok out
  | line :: ls =>
    match strip_prefix FILE_IS line with
    | None => file_lines out ls
    | Some rest =>
      (let? (size, name) := ok_or (split_once 32 rest) (NotFileLine line) in
       let? size := ok_or (parse_u64 size) (NotASize size) in
       if negb (transfer_name_ok name) then Err (BadFileName name)
       else if bool_decide (name = MANIFEST) || bool_decide (name = MANIFEST_SIG)
               || existsb (fun e => bool_decide (e_name e = name)) out then Err (ListedTwice name)
       else file_lines (out ++ [mkEntry name size]) ls)%result
    end
  end.
Definition parse_file_list (t : text) : result (list Entry) UpdateError :=
  (let? out := file_lines [] (lines t) in
   if bool_decide (length out = 0%nat) then Err NoFiles else Ok out)%result.

(** A saturating sum. *)
Definition total_bytes (files : list Entry) : Z :=
  fold_left (fun sum e => Z.min (sum + e_size e) U64_MAX) files 0.

Definition find_entry (files : list Entry) (name : text) : option Entry :=
  List.find (fun e => bool_decide (e_name e = name)) files.

Definition may_put (files : option (list Entry)) (name : text) (offset len held : Z)
    : result unit UpdateError :=
  if len =? 0 then Err NothingToPut
  else
    (let? end_ := ok_or (if offset + len <=? U64_MAX then Some (offset + len) else None) OffsetOverflow in
     if bool_decide (name = MANIFEST) || bool_decide (name = MANIFEST_SIG) then
       match files with
       | Some _ => Err (AlreadyVerified name)
       | None => if negb (offset =? 0) || (MANIFEST_MAX <? end_) then Err (PutWhole name) else Ok tt
       end
     else
       let? files := ok_or files NotVerified in
       let? e := ok_or (find_entry files name) (NotListed name) in
       if negb (offset =? held) then Err (WrongOffset name held)
       else if e_size e <? end_ then Err (PastSize name (e_size e))
       else Ok tt)%result.

Definition still_needed (files : list Entry) (held : text -> Z) : list (text * Z) :=
  omap (fun e => if held (e_name e) <? e_size e then Some (e_name e, held (e_name e)) else None) files.

(** ** The state directory *)
Record Stage := mkStage { inode : Z; content : gmap text bytes }.

Record Dir := mkDir {
  d_pointer : option bytes;
  d_considered : option Z;
  d_refused : option Z;
  d_wanted : option text;
  d_declined : option text;
  d_auto : bool;
  d_files : option text;
  incoming : gmap text Stage;
  next_inode : Z;
}.

Abbreviation UM := (M Dir UpdateError).

Definition with_pointer (b : bytes) (d : Dir) : Dir :=
  mkDir (Some b) (d_considered d) (d_refused d) (d_wanted d) (d_declined d) (d_auto d) (d_files d)
    (incoming d) (next_inode d).
Definition with_considered (t : Z) (d : Dir) : Dir :=
  mkDir (d_pointer d) (Some t) (d_refused d) (d_wanted d) (d_declined d) (d_auto d) (d_files d)
    (incoming d) (next_inode d).
Definition with_refused (t : Z) (d : Dir) : Dir :=
  mkDir (d_pointer d) (d_considered d) (Some t) (d_wanted d) (d_declined d) (d_auto d) (d_files d)
    (incoming d) (next_inode d).
Definition with_wanted (w : option text) (d : Dir) : Dir :=
  mkDir (d_pointer d) (d_considered d) (d_refused d) w (d_declined d) (d_auto d) (d_files d)
    (incoming d) (next_inode d).
Definition with_declined (w : option text) (d : Dir) : Dir :=
  mkDir (d_pointer d) (d_considered d) (d_refused d) (d_wanted d) w (d_auto d) (d_files d)
    (incoming d) (next_inode d).
Definition with_auto (b : bool) (d : Dir) : Dir :=
  mkDir (d_pointer d) (d_considered d) (d_refused d) (d_wanted d) (d_declined d) b (d_files d)
    (incoming d) (next_inode d).
Definition with_files (f : option text) (d : Dir) : Dir :=
  mkDir (d_pointer d) (d_considered d) (d_refused d) (d_wanted d) (d_declined d) (d_auto d) f
    (incoming d) (next_inode d).
Definition with_incoming (m : gmap text Stage) (n : Z) (d : Dir) : Dir :=
  mkDir (d_pointer d) (d_considered d) (d_refused d) (d_wanted d) (d_declined d) (d_auto d) (d_files d)
    m n.

Definition empty_dir : Dir := mkDir None None None None None false None ∅ 0.

Definition stored_pointer (d : Dir) : option Pointer :=
  b ← d_pointer d; t ← utf8 b;
  match parse_pointer t with Ok p => Some p | Err _ => None end.

Definition wanted (d : Dir) : option text :=
  v ← d_wanted d; if is_version (trim v) then Some (trim v) else None.
Definition declined (d : Dir) : option text :=
  v ← d_declined d; if is_version (trim v) then Some (trim v) else None.

Definition held (d : Dir) (version name : text) : Z :=
  match (st ← incoming d !! version; content st !! name) with
  | Some b => zlen b
  | None => 0
  end.

Definition VERSION_IS : text := Eval vm_compute in chars "version: ".
Definition SHA_IS : text := Eval vm_compute in chars "sha256: ".

(** The files a verified listing gives the version. *)
Definition listing_for (version t : text) : option (list Entry) :=
  if bool_decide (head (lines t) = Some (VERSION_IS ++ version))
  then match parse_file_list t with Ok f => Some f | Err _ => None end
  else None.
Definition verified_files (d : Dir) (version : text) : option (list Entry) :=
  t ← d_files d; listing_for version t.

(** Less than an interval ago, or ahead. *)
Definition lately (now : Z) (t : option Z) : bool :=
  match t with Some t => Z.abs (now - t) <? POINTER_INTERVAL_SECS | None => false end.
Definition refused_lately (d : Dir) (now : Z) : bool := lately now (d_refused d).

(** [latest]; [check] is kryptik-update's verdict on the statement and its signature. *)
Definition latest (check : bytes -> bytes -> option string) (now : Z) (role running : text)
    (pointer sig : bytes) : UM Standing :=
  d ← gets (fun d => d);
  reject_if (lately now (d_considered d)) TooSoon;;
  modify (with_considered now);;
  t ← require (utf8 pointer) NotText;
  (match check pointer sig with Some why => fail (CheckFailed why) | None => mret tt end);;
  p ← lift (parse_pointer t);
  standing ← lift (accept_pointer p role running (issued <$> stored_pointer d) now);
  modify (with_pointer pointer);;
  mret standing.

(** [clear_stage]: what has arrived of the wanted release. *)
Definition clear_stage : UM unit :=
  modify (with_files None);; modify (fun d => with_incoming ∅ (next_inode d) d).

(** [want]; [applying]: an apply holds kryptik-update's lock. *)
Definition want (channel : option text) (role running : text) (applying : bool) : UM text :=
  d ← gets (fun d => d);
  p ← require (stored_pointer d) NoStatement;
  reject_if (match version_cmp (version p) running with Gt => false | _ => true end) (NotNewer (version p));;
  channel ← require channel NoChannel;
  (match resolve_base channel (base p) role with
   | Err e => fail (NotFetched (version p) e)
   | Ok _ => mret tt
   end);;
  when (negb (bool_decide (wanted d = Some (version p)))) (reject_if applying Applying;; clear_stage);;
  modify (with_wanted (Some (version p)));;
  modify (with_declined None);;
  mret (version p).

Definition forget (applying : bool) : UM text :=
  d ← gets (fun d => d);
  v ← require (wanted d) NothingAsked;
  reject_if applying Applying;;
  modify (with_declined (Some v));;
  modify (with_wanted None);;
  clear_stage;;
  mret v.

Definition set_auto (on : bool) (channel : option text) : UM unit :=
  if negb on then modify (with_auto false)
  else _ ← require channel NoChannel; modify (with_auto true).

Definition outstanding (d : Dir) (channel role running : text) (now : Z)
    : option (Pointer * text * list (text * Z)) :=
  v ← wanted d;
  p ← stored_pointer d;
  if negb (bool_decide (version p = v)) then None
  else match version_cmp v running with
  | Gt =>
    match resolve_base channel (base p) role with
    | Err _ => None
    | Ok url =>
      match verified_files d v with
      | Some files => Some (p, url, still_needed files (held d v))
      | None =>
        if refused_lately d now then None
        else Some (p, url, (fun n => (n, 0)) <$> List.filter (fun n => held d v n =? 0) [MANIFEST; MANIFEST_SIG])
      end
    end
  | _ => None
  end.

(** The answer to a poll: idle, or a version, its address and the files still needed. *)
Inductive Reply := Idle | Fetch (v url : text) (need : list (text * Z)).

Definition poll (channel role running : text) (now : Z) (applying : bool) : UM Reply :=
  d ← gets (fun d => d);
  when (d_auto d && match stored_pointer d with
                    | Some p => negb (bool_decide (wanted d = Some (version p)))
                                && negb (bool_decide (declined d = Some (version p)))
                    | None => false
                    end)
    (fun d => match want (Some channel) role running applying d with
              | (Panic, d') => (Panic, d')
              | (_, d') => (Done tt, d')
              end);;
  d ← gets (fun d => d);
  mret (match outstanding d channel role running now with
        | Some (p, url, need) => if bool_decide (length need = 0%nat) then Idle else Fetch (version p) url need
        | None => Idle
        end).

(** ** Bytes of a release *)

(** What [put] keeps while the manifest is checked with the lock released. *)
Record Pending := mkPending {
  pn_name : text; pn_version : text; pn_sha256 : text; pn_inode : Z; pn_now : Z }.
Inductive Put :=
| Arrived (name : text)
| Part (name : text) (have size : Z)
| Checking (p : Pending).

(** [private_dir(&stage)]: the stage, made when missing. *)
Definition make_stage (v : text) (d : Dir) : Dir :=
  match incoming d !! v with
  | Some _ => d
  | None => with_incoming (<[v := mkStage (next_inode d) ∅]> (incoming d)) (next_inode d + 1) d
  end.
Definition edit_stage (v : text) (f : gmap text bytes -> gmap text bytes) (d : Dir) : Dir :=
  match incoming d !! v with
  | Some st => with_incoming (<[v := mkStage (inode st) (f (content st))]> (incoming d)) (next_inode d) d
  | None => d
  end.
Definition remove_stage (v : text) (d : Dir) : Dir := with_incoming (delete v (incoming d)) (next_inode d) d.

(** An append, to a file made when missing. *)
Definition append (name : text) (b : bytes) (m : gmap text bytes) : gmap text bytes :=
  <[name := default [] (m !! name) ++ b]> m.

(** [put], up to the check of a manifest that has arrived whole. *)
Definition put (now : Z) (name : text) (offset : Z) (b : bytes) : UM Put :=
  d ← gets (fun d => d);
  v ← require (wanted d) NothingAsked;
  p ← require (p ← stored_pointer d; if bool_decide (version p = v) then Some p else None) NotTheNewest;
  let files := verified_files d v in
  lift (may_put files name offset (zlen b) (held d v name));;
  modify (make_stage v);;
  when (bool_decide (files = None)) (modify (edit_stage v (delete name)));;
  modify (edit_stage v (append name b));;
  match files with
  | Some files =>
    let size := match find_entry files name with Some e => e_size e | None => 0 end in
    let have := offset + zlen b in
    mret (if have =? size then Arrived name else Part name have size)
  | None =>
    d ← gets (fun d => d);
    if (held d v MANIFEST =? 0) || (held d v MANIFEST_SIG =? 0) then mret (Arrived name)
    else if refused_lately d now then modify (remove_stage v);; fail RefusedLately
    else
      st ← unwrap (incoming d !! v);
      mret (Checking (mkPending name v (manifest_sha256 p) (inode st) now))
  end.

(** The rest of [put]: the verdict of the check, [free] bytes of room. *)
Definition put_checked (pn : Pending) (checked : result text string) (free : option Z) : UM text :=
  let v := pn_version pn in
  let refuse_checked {A} (e : UpdateError) : UM A :=
    modify (with_refused (pn_now pn));; modify (remove_stage v);; fail e in
  d ← gets (fun d => d);
  reject_if (negb (bool_decide (inode <$> incoming d !! v = Some (pn_inode pn)))) (StageCleared v);;
  match checked with
  | Err why => refuse_checked (CheckFailed why)
  | Ok listing =>
    if negb (bool_decide (head (lines listing) = Some (VERSION_IS ++ v))) then refuse_checked (NotForVersion v)
    else if negb (existsb (fun l => bool_decide (strip_prefix SHA_IS l = Some (pn_sha256 pn))) (lines listing))
    then refuse_checked NotAnnounced
    else
      match parse_file_list listing with
      | Err e => refuse_checked e
      | Ok files =>
        let need := total_bytes files in
        let free := default 0 free in
        if free <? need then refuse_checked (NoRoom need free)
        else modify (with_files (Some listing));; mret (pn_name pn)
      end
  end.

(** [complete_stage]: the version whose stage may be applied. *)
Definition complete_stage (d : Dir) : result text UpdateError :=
  (let? v := ok_or (wanted d) NothingAsked in
   let? files := ok_or (verified_files d v) (NotArrived v) in
   match still_needed files (held d v) with
   | [] => Ok v
   | (name, at_) :: _ => Err (StillArriving name at_)
   end)%result.

(** [forget_unless_trial]; [trial]: one is still to be judged or has just failed. *)
Definition forget_if_installed (running : text) (trial : bool) : UM unit :=
  d ← gets (fun d => d);
  if trial then mret tt
  else when (match wanted d with
             | Some v => match version_cmp v running with Gt => false | _ => true end
             | None => false
             end)
         (modify (with_wanted None);; clear_stage).

(** [stale_line]: what the login prompt says. *)
Inductive Notice := ClockBehind (days : Z) | Overdue (days : Z) | NeverHeard (days : Z).
Definition stale_line (d : Dir) (now : Z) (since : option Z) : option Notice :=
  match stored_pointer d with
  | Some p =>
    match behind now (issued p) with
    | Some days => Some (ClockBehind days)
    | None => let '(days, stale) := staleness now (issued p) in if stale then Some (Overdue days) else None
    end
  | None =>
    since ← since;
    match behind now since with
    | Some days => Some (ClockBehind days)
    | None => let '(days, stale) := staleness now since in if stale then Some (NeverHeard days) else None
    end
  end.

End Update.
