(* ===== verification/UpdateClaims.v ===== *)
(** * The order of versions, and the invariant of the update state *)
From S2P Require Import Prelude Bytes Text Dates Update.
Import Update.
Open Scope string_scope.
Open Scope list_scope.
Open Scope Z_scope.

(** ** Lexicographic order *)
Lemma bytes_cmp_refl a : bytes_cmp a a = Eq.
Proof. induction a as [|x a IH]; [done|]. cbn. by rewrite Z.compare_refl. Qed.

Lemma bytes_cmp_eq a b : bytes_cmp a b = Eq -> a = b.
Proof.
  revert b. induction a as [|x a IH]; intros [|y b]; cbn; try done.
  destruct (Z.compare_spec x y) as [->| |]; try done. intros H. f_equal. by apply IH.
Qed.

Lemma bytes_cmp_antisym a b : bytes_cmp b a = CompOpp (bytes_cmp a b).
Proof.
  revert b. induction a as [|x a IH]; intros [|y b]; cbn; try done.
  rewrite (Z.compare_antisym x y). destruct (x ?= y); cbn; auto.
Qed.

Lemma bytes_cmp_trans a b c : bytes_cmp a b = Lt -> bytes_cmp b c = Lt -> bytes_cmp a c = Lt.
Proof.
  revert b c. induction a as [|x a IH]; intros [|y b] [|z c]; cbn; try done.
  destruct (Z.compare_spec x y) as [->|Hxy|]; try done.
  - destruct (y ?= z); try done. intros. by eapply IH.
  - intros _. destruct (Z.compare_spec y z) as [<-|Hyz|]; try done.
    + by rewrite (proj2 (Z.compare_lt_iff x y)).
    + intros _. by rewrite (proj2 (Z.compare_lt_iff x z)) by lia.
Qed.

(** ** Digit runs are numbers *)
Fixpoint value (s : text) : Z :=
  match s with [] => 0 | c :: s => (c - 48) * 10 ^ zlen s + value s end.

Definition digits (s : text) : Prop := Forall (fun c => is_digit c = true) s.

Lemma value_bound s : digits s -> 0 <= value s < 10 ^ zlen s.
Proof.
  induction 1 as [|c s Hc _ IH]; [done|]. cbn [value]. rewrite zlen_cons.
  pose proof (zlen_nonneg s). rewrite Z.pow_add_r by lia. unfold is_digit, between in Hc. nia.
Qed.

Lemma strip_zeros_digits s : digits s -> digits (strip_zeros s).
Proof. induction 1 as [|c s Hc Hs IH]; cbn; [constructor|]. destruct (c =? 48); [done|by constructor]. Qed.

Lemma strip_zeros_value s : value (strip_zeros s) = value s.
Proof.
  induction s as [|c s IH]; cbn; [done|]. destruct (Z.eqb_spec c 48) as [->|]; [|done]. rewrite IH. lia.
Qed.

Lemma strip_zeros_head s c t : strip_zeros s = c :: t -> c <> 48.
Proof.
  induction s as [|x s IH]; cbn; [done|]. destruct (Z.eqb_spec x 48); [done|]. by intros [= <- _].
Qed.

Lemma bytes_cmp_value x y : digits x -> digits y -> zlen x = zlen y -> bytes_cmp x y = (value x ?= value y).
Proof.
  intros Hx. revert y. induction Hx as [|c x Hc Hx IH]; intros [|d y] Hy Hl; try done.
  - apply Forall_cons in Hy as [Hd Hy]. rewrite !zlen_cons in Hl. assert (zlen x = zlen y) as E by lia.
    cbn [bytes_cmp value]. rewrite E. pose proof (value_bound x Hx) as Bx. pose proof (value_bound y Hy) as By.
    rewrite E in Bx. destruct (Z.compare_spec c d) as [->|Hlt|Hlt].
    + rewrite IH by done. symmetry. rewrite (Z.add_compare_mono_l ((d - 48) * 10 ^ zlen y)). done.
    + symmetry. apply Z.compare_lt_iff. nia.
    + symmetry. apply Z.compare_gt_iff. nia.
Qed.

Lemma value_longer x y : digits x -> digits y ->
  (forall c t, y = c :: t -> c <> 48) -> zlen x < zlen y -> value x < value y.
Proof.
  intros Hx Hy Hn Hl. pose proof (value_bound x Hx) as Bx. destruct y as [|d y].
  { pose proof (zlen_nonneg x). rewrite zlen_nil in Hl. lia. }
  apply Forall_cons in Hy as [Hd Hy]. specialize (Hn d y eq_refl). pose proof (value_bound y Hy) as By.
  rewrite zlen_cons in Hl. cbn [value].
  assert (10 ^ zlen x <= 10 ^ zlen y) by (apply Z.pow_le_mono_r; lia).
  unfold is_digit, between in Hd. nia.
Qed.

(** The comparison of two runs is that of their numbers. *)
Lemma run_cmp_value x y : digits x -> digits y -> run_cmp x y = (value x ?= value y).
Proof.
  intros Hx Hy. unfold run_cmp. rewrite <-(strip_zeros_value x), <-(strip_zeros_value y).
  pose proof (strip_zeros_digits x Hx) as Hx'. pose proof (strip_zeros_digits y Hy) as Hy'.
  destruct (Z.compare_spec (zlen (strip_zeros x)) (zlen (strip_zeros y))) as [E|Hl|Hl].
  - by apply bytes_cmp_value.
  - symmetry. apply Z.compare_lt_iff. apply value_longer; [done..| |done]. apply strip_zeros_head.
  - symmetry. apply Z.compare_gt_iff. apply value_longer; [done..| |done]. apply strip_zeros_head.
Qed.

(** ** Versions as keys

    A run of digits is its number, after the first digit's place in the byte order; any other
    byte is itself. *)
Fixpoint key_from (fuel : nat) (s : text) : list Z :=
  match fuel with
  | O => []
  | S fuel =>
    match s with
    | [] => []
    | c :: s' =>
      if is_digit c then let '(r, t) := run s in 48 :: value r :: key_from fuel t
      else c :: 0 :: key_from fuel s'
    end
  end.
Definition version_key (s : text) : list Z := key_from (length s) s.

Lemma run_spec s : digits (run s).1 /\ s = (run s).1 ++ (run s).2.
Proof.
  induction s as [|c s [IH1 IH2]]; cbn; [split; [constructor|done]|].
  destruct (is_digit c) eqn:Hc; [|split; [constructor|done]].
  destruct (run s) as [r t]. cbn in *. subst s. split; [by constructor|done].
Qed.

Lemma run_shorter c s : is_digit c = true -> (length (run (c :: s)).2 <= length s)%nat.
Proof.
  intros Hc. cbn. rewrite Hc. destruct (run_spec s) as [_ E]. destruct (run s) as [r t]. cbn in *.
  rewrite E, length_app. lia.
Qed.

Lemma key_from_fuel n m s : (length s <= n)%nat -> (length s <= m)%nat -> key_from n s = key_from m s.
Proof.
  revert m s. induction n as [|n IH]; intros m s Hn Hm; [destruct s; [by destruct m|cbn in Hn; lia]|].
  destruct s as [|c s]; [by destruct m|]. destruct m as [|m]; [cbn in Hm; lia|]. cbn in Hn, Hm.
  cbn [key_from]. destruct (is_digit c) eqn:Hc.
  - pose proof (run_shorter c s Hc). destruct (run (c :: s)) as [r t]. cbn in *. do 2 f_equal. apply IH; lia.
  - do 2 f_equal. apply IH; lia.
Qed.

Lemma version_key_cons c s : version_key (c :: s) =
  if is_digit c then 48 :: value (run (c :: s)).1 :: version_key (run (c :: s)).2
  else c :: 0 :: version_key s.
Proof.
  unfold version_key at 1. cbn [length key_from]. destruct (is_digit c) eqn:Hc; [|done].
  pose proof (run_shorter c s Hc). destruct (run (c :: s)) as [r t]. cbn in *. do 2 f_equal.
  by apply key_from_fuel.
Qed.

Lemma compare_mixed x y :
  is_digit x && is_digit y = false -> is_digit x || is_digit y = true ->
  ((if is_digit x then 48 else x) ?= (if is_digit y then 48 else y)) = (x ?= y) /\ (x ?= y) <> Eq.
Proof.
  destruct (is_digit x) eqn:Dx, (is_digit y) eqn:Dy; try done; intros _ _;
    unfold is_digit, between in Dx, Dy; destruct (Z.compare_spec x y) as [|Hl|Hl]; try lia;
    (split; [|done]); first [apply Z.compare_lt_iff; lia | apply Z.compare_gt_iff; lia].
Qed.

(** The loop compares the keys. *)
Lemma version_loop_key fuel a b : (length a < fuel)%nat ->
  version_loop fuel a b = bytes_cmp (version_key a) (version_key b).
Proof.
  revert a b. induction fuel as [|fuel IH]; intros a b Hf; [lia|].
  destruct a as [|x a], b as [|y b]; cbn [version_loop]; [done| | |].
  - rewrite version_key_cons, zlen_cons. pose proof (zlen_nonneg b). change (zlen []) with 0.
    rewrite (proj2 (Z.compare_lt_iff _ _)) by lia. by destruct (is_digit y).
  - rewrite version_key_cons, zlen_cons. pose proof (zlen_nonneg a). change (zlen []) with 0.
    rewrite (proj2 (Z.compare_gt_iff _ _)) by lia. by destruct (is_digit x).
  - cbn [length] in Hf. rewrite !version_key_cons. destruct (is_digit x && is_digit y) eqn:Hd.
    + apply andb_true_iff in Hd as [Hx Hy]. rewrite Hx, Hy. pose proof (run_shorter x a Hx).
      destruct (run_spec (x :: a)) as [Ha _], (run_spec (y :: b)) as [Hb _].
      destruct (run (x :: a)) as [ra a'], (run (y :: b)) as [rb b']. cbn [fst snd] in *.
      rewrite run_cmp_value by done. cbn [bytes_cmp]. rewrite Z.compare_refl.
      destruct (value ra ?= value rb); [|done..]. apply IH. lia.
    + destruct (is_digit x || is_digit y) eqn:Ho.
      * destruct (compare_mixed x y Hd Ho) as [E Hne]. destruct (is_digit x), (is_digit y); try done;
          cbn [bytes_cmp]; rewrite <-E in Hne |- *; by destruct (_ ?= _).
      * apply orb_false_iff in Ho as [-> ->]. cbn [bytes_cmp]. destruct (x ?= y); [|done..].
        rewrite Z.compare_refl. apply IH. lia.
Qed.

Lemma version_cmp_key a b : version_cmp a b = bytes_cmp (version_key a) (version_key b).
Proof. apply version_loop_key. lia. Qed.

(** ** Listings *)
Record listing_ok (files : list Entry) : Prop := {
  lo_names : NoDup (e_name <$> files);
  lo_plain : Forall (fun e => e_name e <> MANIFEST /\ e_name e <> MANIFEST_SIG) files;
  lo_sizes : Forall (fun e => 0 <= e_size e <= U64_MAX) files;
}.

Lemma parse_u64_range cs v : parse_u64 cs = Some v -> 0 <= v <= U64_MAX.
Proof. apply parse_unsigned_range. Qed.

Lemma file_lines_ok out ls files : listing_ok out -> file_lines out ls = Ok files -> listing_ok files.
Proof.
  revert out. induction ls as [|l ls IH]; intros out Ho H; cbn [file_lines] in H; [by injection H as <-|].
  destruct (strip_prefix FILE_IS l) as [rest|]; [|by eapply IH].
  apply result_bind_Ok in H as ([size name] & _ & H). apply result_bind_Ok in H as (n & Hn & H).
  destruct (negb (transfer_name_ok name)); [done|]. destruct (_ || _) eqn:Hc; [done|].
  apply orb_false_iff in Hc as [[H1%bool_decide_eq_false H2%bool_decide_eq_false]%orb_false_iff H3].
  eapply IH; [|done]. destruct Ho. split.
  - rewrite fmap_app. apply NoDup_snoc; [done|]. intros (e & E & He)%list_elem_of_fmap.
    apply not_true_iff_false in H3. apply H3, existsb_exists. exists e.
    split; [by apply list_elem_of_In|by apply bool_decide_eq_true].
  - apply Forall_app. split; [done|]. by apply Forall_singleton.
  - apply Forall_app. split; [done|]. apply Forall_singleton. cbn.
    destruct (parse_u64 size) as [m|] eqn:Hp; [|done]. injection Hn as <-. by eapply parse_u64_range.
Qed.

Lemma parse_file_list_ok t files : parse_file_list t = Ok files -> listing_ok files.
Proof.
  unfold parse_file_list. intros H. apply result_bind_Ok in H as (out & Ho & H).
  case_bool_decide; [done|]. injection H as <-. eapply file_lines_ok; [|done]. by split; constructor.
Qed.

Lemma listing_for_ok v t files : listing_for v t = Some files -> listing_ok files.
Proof.
  unfold listing_for. case_bool_decide; [|done]. destruct (parse_file_list t) eqn:E; [|done].
  intros [= <-]. by eapply parse_file_list_ok.
Qed.

Lemma find_entry_Some files n e : find_entry files n = Some e -> e ∈ files /\ e_name e = n.
Proof. intros [Hin E%bool_decide_eq_true]%List.find_some. by rewrite <-list_elem_of_In in Hin. Qed.

Lemma find_entry_elem files e : NoDup (e_name <$> files) -> e ∈ files -> find_entry files (e_name e) = Some e.
Proof.
  unfold find_entry. induction files as [|x l IH]; intros Hn He; [by apply not_elem_of_nil in He|].
  rewrite fmap_cons in Hn. apply NoDup_cons in Hn as [Hx Hn]. simpl.
  apply elem_of_cons in He as [->|He]; [by rewrite bool_decide_eq_true_2|].
  case_bool_decide as E; [|by apply IH]. exfalso. apply Hx. rewrite E. by apply list_elem_of_fmap_2.
Qed.

(** ** What may be put *)
Lemma may_put_ok files name offset len held : may_put files name offset len held = Ok tt -> 0 <= len ->
  0 < len /\
  match files with
  | None => (name = MANIFEST \/ name = MANIFEST_SIG) /\ offset = 0 /\ len <= MANIFEST_MAX
  | Some fs => name <> MANIFEST /\ name <> MANIFEST_SIG /\ offset = held /\
               exists e, find_entry fs name = Some e /\ offset + len <= e_size e
  end.
Proof.
  unfold may_put. intros H Hl. destruct (Z.eqb_spec len 0); [done|]. split; [lia|].
  destruct (offset + len <=? U64_MAX); [|done]. cbn [ok_or result_bind] in H.
  destruct (bool_decide_reflect (name = MANIFEST)) as [->|Hm]; cbn [orb] in H;
    [|destruct (bool_decide_reflect (name = MANIFEST_SIG)) as [->|Hs]].
  - destruct files; [done|]. destruct (negb (offset =? 0) || _) eqn:E; [done|]. split; [by left|]. lia.
  - destruct files; [done|]. destruct (negb (offset =? 0) || _) eqn:E; [done|]. split; [by right|]. lia.
  - destruct files as [fs|]; [|done]. cbn [ok_or result_bind] in H.
    destruct (find_entry fs name) as [e|]; [|done]. cbn [ok_or result_bind] in H.
    destruct (Z.eqb_spec offset held) as [->|]; [|done]. cbn [negb] in H.
    destruct (Z.ltb_spec (e_size e) (held + len)); [done|]. split_and!; eauto.
Qed.

(** ** The invariant of the directory *)
Lemma trim_plain l : Forall (fun c => is_whitespace c = false) l -> trim l = l.
Proof.
  intros Hl. destruct l as [|c m]; [done|]. destruct (@exists_last _ (c :: m)) as (n & d & E); [discriminate|].
  assert (is_whitespace d = false) as Hd.
  { rewrite E in Hl. apply Forall_app in Hl as [_ Hl]. by inversion Hl. }
  apply Forall_cons in Hl as [Hc _]. by eapply trim_id.
Qed.

Lemma is_version_trim v : is_version v = true -> trim v = v.
Proof.
  unfold is_version. intros [_ H]%andb_true_iff. apply trim_plain. rewrite forallb_Forall in H.
  eapply Forall_impl; [apply H|]. intros c Hc. cbn in Hc.
  unfold is_alnum, is_digit, is_lower, is_whitespace, between in *. lia.
Qed.

Lemma parse_pointer_version t p : parse_pointer t = Ok p -> is_version (version p) = true.
Proof.
  unfold parse_pointer. destruct (lines t) as [|first ls]; [done|]. destruct (negb _); [done|].
  intros H. bind_inv. destruct (is_version _) eqn:Hv; [|done]. cbn [negb] in H. bind_inv.
  destruct (negb (is_hash _)); [done|]. destruct (_ || _); [done|]. by injection H as <-.
Qed.

Lemma stored_pointer_version d p : stored_pointer d = Some p -> is_version (version p) = true.
Proof.
  unfold stored_pointer. destruct (d_pointer d) as [b|]; [cbn|done]. destruct (utf8 b) as [t|]; [cbn|done].
  destruct (parse_pointer t) eqn:E; [|done]. intros [= <-]. by eapply parse_pointer_version.
Qed.

Definition staged_ok (fs : option (list Entry)) (name : text) (b : bytes) : Prop :=
  ((name = MANIFEST \/ name = MANIFEST_SIG) /\ zlen b <= MANIFEST_MAX) \/
  exists files e, fs = Some files /\ find_entry files name = Some e /\ zlen b <= e_size e.

Record dir_ok (d : Dir) : Prop := {
  do_wanted : forall v st, incoming d !! v = Some st -> wanted d = Some v /\ inode st < next_inode d;
  do_files : forall t, d_files d = Some t -> exists v st files,
    wanted d = Some v /\ incoming d !! v = Some st /\ listing_for v t = Some files;
  do_staged : forall v st name b, incoming d !! v = Some st -> content st !! name = Some b ->
    staged_ok (verified_files d v) name b;
}.

(** Fields the invariant does not read. *)
Lemma dir_ok_same d d' :
  wanted d' = wanted d -> d_files d' = d_files d -> incoming d' = incoming d -> next_inode d' = next_inode d ->
  dir_ok d -> dir_ok d'.
Proof.
  intros Hw Hf Hi Hn [H1 H2 H3]. split; rewrite ?Hi, ?Hw, ?Hn, ?Hf; [done..|].
  intros v st name b. unfold verified_files. rewrite Hf. apply H3.
Qed.

Lemma dir_ok_empty d : incoming d = ∅ -> d_files d = None -> dir_ok d.
Proof. intros Hi Hf. split; rewrite ?Hi, ?Hf; done. Qed.

(** ** What every operation keeps

    The invariant, a listing still to be verified, and the newest statement or a newer one. *)
Definition advances (d d' : Dir) : Prop :=
  forall p, stored_pointer d = Some p -> exists p', stored_pointer d' = Some p' /\ issued p <= issued p'.

Record kept (d d' : Dir) : Prop := {
  k_ok : dir_ok d';
  k_files : d_files d = None -> d_files d' = None;
  k_pointer : advances d d';
}.

Lemma advances_same d d' : d_pointer d' = d_pointer d -> advances d d'.
Proof. intros E p Hp. exists p. unfold stored_pointer in *. rewrite E. split; [done|lia]. Qed.

Lemma kept_same d d' :
  wanted d' = wanted d -> d_files d' = d_files d -> incoming d' = incoming d -> next_inode d' = next_inode d ->
  d_pointer d' = d_pointer d -> dir_ok d -> kept d d'.
Proof.
  intros ? Hf ? ? ? ?. split; [by apply (dir_ok_same d)|congruence|by apply advances_same].
Qed.

Lemma kept_refl d : dir_ok d -> kept d d.
Proof. by apply kept_same. Qed.
#[local] Hint Resolve kept_refl : core.

Lemma kept_empty d d' : incoming d' = ∅ -> d_files d' = None -> d_pointer d' = d_pointer d -> kept d d'.
Proof. intros ? ? ?. split; [by apply dir_ok_empty|done|by apply advances_same]. Qed.

Abbreviation keeps m := (fun d => wp m (fun _ => kept d) (fun _ => kept d) d).

Lemma accept_pointer_ok p role running newest now s :
  accept_pointer p role running newest now = Ok s ->
  Update.role p = role /\ issued p <= now + MAX_AHEAD_SECS /\ from_option (fun t => t <= issued p) True newest /\
  s = match version_cmp (version p) running with Gt => Available (version p) | _ => Current end.
Proof.
  unfold accept_pointer. case_bool_decide; [cbn [negb]|done].
  destruct (Z.ltb_spec (now + MAX_AHEAD_SECS) (issued p)); [done|].
  destruct newest as [t|]; [destruct (Z.ltb_spec (issued p) t); [done|]|]; intros [= <-]; cbn; auto.
Qed.

(** A statement that is accepted: the checks it passed. *)
Record accepted (check : bytes -> bytes -> option string) (now : Z) (role running : text) (ptr sig : bytes)
    (s : Standing) (d d' : Dir) : Prop := {
  a_check : check ptr sig = None;
  a_stored : exists p, stored_pointer d' = Some p /\
    accept_pointer p role running (issued <$> stored_pointer d) now = Ok s;
  a_interval : lately now (d_considered d) = false;
}.

Lemma latest_keeps check now role running ptr sig d : dir_ok d ->
  wp (latest check now role running ptr sig)
    (fun s d' => kept d d' /\ accepted check now role running ptr sig s d d')
    (fun e d' => kept d d' /\ d_pointer d' = d_pointer d) d.
Proof.
  intros Hd. unfold latest. apply wp_bind, wp_gets, wp_bind, wp_reject_if; [by auto|]. intros Hl.
  apply wp_bind, wp_modify.
  assert (kept d (with_considered now d)) as Hc by (by apply kept_same).
  apply wp_bind, wp_require; [intros t Ht|done].
  apply wp_bind. destruct (check ptr sig) as [why|] eqn:Hk; [by apply wp_fail|]. apply wp_ret.
  apply wp_bind, wp_lift; [intros p Hp|done]. apply wp_bind, wp_lift; [intros s Hs|done].
  apply wp_bind, wp_modify, wp_ret.
  assert (stored_pointer (with_pointer ptr (with_considered now d)) = Some p) as Hsp
    by (unfold stored_pointer; cbn; by rewrite Ht; cbn; rewrite Hp).
  split; [|split; eauto]. split; [by apply (dir_ok_same d)|done|].
  intros q Hq. exists p. split; [done|]. apply accept_pointer_ok in Hs as (_ & _ & Hn & _). by rewrite Hq in Hn.
Qed.

Lemma clear_stage_keeps d : keeps clear_stage d.
Proof. apply wp_bind, wp_modify, wp_modify. by apply kept_empty. Qed.

Lemma want_keeps channel role running applying d : dir_ok d -> keeps (want channel role running applying) d.
Proof.
  intros Hd. unfold want. apply wp_bind, wp_gets, wp_bind, wp_require; [intros p Hp|by auto].
  apply stored_pointer_version in Hp as Hv. apply is_version_trim in Hv as Ht.
  apply wp_bind, wp_reject_if; [by auto|intros _]. apply wp_bind, wp_require; [intros ch _|by auto].
  apply wp_bind. destruct (resolve_base _ _ _); [apply wp_ret|by apply wp_fail; auto].
  apply wp_bind. case_bool_decide as Hw; cbn [negb when].
  - apply wp_ret, wp_bind, wp_modify, wp_bind, wp_modify, wp_ret. apply kept_same; try done.
    unfold wanted at 1. cbn. by rewrite Ht, Hv.
  - apply wp_bind, wp_reject_if; [by auto|intros _]. apply wp_bind, wp_modify, wp_modify.
    apply wp_bind, wp_modify, wp_bind, wp_modify, wp_ret. by apply kept_empty.
Qed.

Lemma forget_keeps applying d : dir_ok d -> keeps (forget applying) d.
Proof.
  intros Hd. unfold forget. apply wp_bind, wp_gets, wp_bind, wp_require; [intros v _|by auto].
  apply wp_bind, wp_reject_if; [by auto|intros _].
  apply wp_bind, wp_modify, wp_bind, wp_modify, wp_bind. apply wp_bind, wp_modify, wp_modify, wp_ret.
  by apply kept_empty.
Qed.

Lemma set_auto_keeps on channel d : dir_ok d -> keeps (set_auto on channel) d.
Proof.
  intros Hd. unfold set_auto. destruct on; cbn [negb].
  - apply wp_bind, wp_require; [intros _ _|by auto]. apply wp_modify. by apply kept_same.
  - apply wp_modify. by apply kept_same.
Qed.

Lemma poll_keeps channel role running now applying d :
  dir_ok d -> keeps (poll channel role running now applying) d.
Proof.
  intros Hd. unfold poll. apply wp_bind, wp_gets, wp_bind.
  eapply (wp_mono _ (fun _ => kept d) _ (fun _ => kept d)); [|done|].
  - intros [] d' Hd'. by apply wp_bind, wp_gets, wp_ret.
  - apply wp_when; [intros _|by auto].
    pose proof (want_keeps (Some channel) role running applying d Hd) as Hw. unfold wp in *.
    by destruct (want _ _ _ _ d) as [[?|?|] ?].
Qed.

Lemma forget_if_installed_keeps running trial d : dir_ok d -> keeps (forget_if_installed running trial) d.
Proof.
  intros Hd. unfold forget_if_installed. apply wp_bind, wp_gets. destruct trial; [by apply wp_ret; auto|].
  apply wp_when; [intros _|by auto]. apply wp_bind, wp_modify, wp_bind, wp_modify, wp_modify. by apply kept_empty.
Qed.

(** ** Stages *)
Lemma edit_stage_ok v f d : dir_ok d ->
  (forall st name b, incoming d !! v = Some st -> f (content st) !! name = Some b ->
     staged_ok (verified_files d v) name b) ->
  dir_ok (edit_stage v f d).
Proof.
  intros [H1 H2 H3] Hf. unfold edit_stage. destruct (incoming d !! v) as [st|] eqn:Hv; [|done].
  split; cbn.
  - intros v' st' [[<- <-]|[_ Hs]]%lookup_insert_Some; [by apply H1 in Hv|by apply H1 in Hs].
  - intros t Ht. destruct (H2 t Ht) as (w & sw & files & Hw & Hs & Hl).
    destruct (decide (v = w)) as [->|Hne].
    + eexists w, _, files. rewrite lookup_insert_eq. split_and!; done.
    + exists w, sw, files. by rewrite lookup_insert_ne.
  - intros v' st' name b [[<- <-]|[_ Hs]]%lookup_insert_Some Hc; cbn in *; [by eapply Hf|by eapply H3].
Qed.

Lemma make_stage_ok v d : wanted d = Some v -> dir_ok d -> dir_ok (make_stage v d).
Proof.
  intros Hw [H1 H2 H3]. unfold make_stage. destruct (incoming d !! v) as [st|] eqn:Hv; [done|]. split; cbn.
  - intros v' st' [[<- <-]|[_ Hs]]%lookup_insert_Some; cbn; [split; [done|lia]|]. apply H1 in Hs as [? ?]. split; [done|lia].
  - intros t Ht. destruct (H2 t Ht) as (w & sw & files & Hw' & Hs & Hl).
    exists w, sw, files. rewrite lookup_insert_ne; [done|congruence].
  - intros v' st' name b [[<- <-]|[_ Hs]]%lookup_insert_Some Hc; [done|by eapply H3].
Qed.

Lemma remove_stage_ok v d : d_files d = None -> dir_ok d -> dir_ok (remove_stage v d).
Proof.
  intros Hf [H1 H2 H3]. split; cbn.
  - intros v' st' [_ Hs]%lookup_delete_Some. by apply H1.
  - intros t. by rewrite Hf.
  - intros v' st' name b [_ Hs]%lookup_delete_Some. by apply H3.
Qed.

(** The listing is that of the wanted version, so one there is verified. *)
Lemma verified_none d v : dir_ok d -> wanted d = Some v -> verified_files d v = None -> d_files d = None.
Proof.
  intros [_ H2 _] Hw Hv. destruct (d_files d) as [t|] eqn:Hf; [|done].
  destruct (H2 t eq_refl) as (w & sw & files & Hw' & _ & Hl). unfold verified_files in Hv.
  rewrite Hf in Hv. cbn in Hv. congruence.
Qed.

Lemma edit_stage_same v f d :
  wanted (edit_stage v f d) = wanted d /\ d_files (edit_stage v f d) = d_files d /\
  d_pointer (edit_stage v f d) = d_pointer d.
Proof. unfold edit_stage. by destruct (incoming d !! v). Qed.

Lemma make_stage_same v d :
  wanted (make_stage v d) = wanted d /\ d_files (make_stage v d) = d_files d /\
  d_pointer (make_stage v d) = d_pointer d.
Proof. unfold make_stage. by destruct (incoming d !! v). Qed.

Lemma held_stage d v st name : incoming d !! v = Some st -> held d v name = zlen (default [] (content st !! name)).
Proof. intros H. unfold held. rewrite H. cbn. by destruct (content st !! name). Qed.

Lemma held_make_stage v d w name : held (make_stage v d) w name = held d w name.
Proof.
  unfold make_stage. destruct (incoming d !! v) eqn:Hv; [done|]. unfold held. cbn.
  destruct (decide (v = w)) as [->|]; [by rewrite lookup_insert_eq, Hv|by rewrite lookup_insert_ne].
Qed.

(** The bytes that are appended leave a stage within the listing. *)
Lemma put_append_ok files v name offset b d : dir_ok d -> verified_files d v = files ->
  may_put files name offset (zlen b) (held d v name) = Ok tt ->
  (files = None -> held d v name = 0) ->
  dir_ok (edit_stage v (append name b) d).
Proof.
  intros Hd Hf Hp H0. apply may_put_ok in Hp as [_ Hp]; [|apply zlen_nonneg].
  apply edit_stage_ok; [done|]. intros st m x Hv. rewrite Hf.
  rewrite (held_stage d v st name Hv) in Hp, H0.
  unfold append.
  intros [[<- <-]|[_ Hm]]%lookup_insert_Some; [|rewrite <-Hf; by eapply (do_staged d)].
  unfold staged_ok. rewrite zlen_app. destruct files as [fs|].
  - destruct Hp as (_ & _ & -> & e & He & Hl). right. by exists fs, e.
  - destruct Hp as (Hn & _ & Hl). left. by rewrite H0.
Qed.

(** The rest of a put, once the bytes are written. *)
Definition put_result (d d' : Dir) (r : Put) : Prop :=
  kept d d' /\ match r with Checking pn => d_files d' = None | _ => True end.

Lemma held_deleted v name d : held (edit_stage v (delete name) d) v name = 0.
Proof.
  unfold edit_stage. destruct (incoming d !! v) as [st|] eqn:Hv; unfold held; cbn.
  - rewrite lookup_insert_eq. cbn. by rewrite lookup_delete_eq.
  - by rewrite Hv.
Qed.

(** What a put leaves of the directory. *)
Definition put_dir (v name : text) (b : bytes) (d : Dir) : Dir :=
  let d := make_stage v d in
  let d := if bool_decide (verified_files d v = None) then edit_stage v (delete name) d else d in
  edit_stage v (append name b) d.

Lemma put_dir_kept v name offset b d : dir_ok d -> wanted d = Some v ->
  may_put (verified_files d v) name offset (zlen b) (held d v name) = Ok tt ->
  kept d (put_dir v name b d) /\ d_files (put_dir v name b d) = d_files d /\ wanted (put_dir v name b d) = wanted d.
Proof.
  intros Hd Hw Hp. unfold put_dir. destruct (make_stage_same v d) as (Mw & Mf & Mp).
  pose proof (make_stage_ok v d Hw Hd) as Hd1. rewrite <-held_make_stage with (v := v) in Hp.
  set (d1 := make_stage v d) in *. assert (verified_files d1 v = verified_files d v) as Ev
    by (unfold verified_files; by rewrite Mf). rewrite <-Ev in Hp.
  set (d2 := if bool_decide (verified_files d1 v = None) then edit_stage v (delete name) d1 else d1).
  assert (wanted d2 = wanted d /\ d_files d2 = d_files d /\ d_pointer d2 = d_pointer d) as (W2 & F2 & P2).
  { subst d2. case_bool_decide; [|done]. destruct (edit_stage_same v (delete name) d1) as (->&->&->). done. }
  destruct (edit_stage_same v (append name b) d2) as (W3 & F3 & P3).
  assert (dir_ok (edit_stage v (append name b) d2)) as Hok.
  { subst d2. case_bool_decide as Hn.
    - eapply (put_append_ok None _ _ offset); [| | |by rewrite held_deleted].
      + apply edit_stage_ok; [done|]. intros st m x Hv [_ Hx]%lookup_delete_Some. by eapply (do_staged d1).
      + unfold verified_files in *. by rewrite F2, <-Mf.
      + rewrite Hn in Hp. exact Hp.
    - by eapply (put_append_ok (verified_files d1 v) _ _ offset). }
  split_and!; [|congruence..]. split; [done|congruence|]. apply advances_same. congruence.
Qed.

Lemma verified_make_stage v d w : verified_files (make_stage v d) w = verified_files d w.
Proof. unfold verified_files. by destruct (make_stage_same v d) as (_ & -> & _). Qed.

Lemma put_dir_stage v name b d : is_Some (incoming (put_dir v name b d) !! v).
Proof.
  assert (forall f d, is_Some (incoming d !! v) -> is_Some (incoming (edit_stage v f d) !! v)) as He.
  { intros f d' [st Hs]. unfold edit_stage. rewrite Hs. cbn. rewrite lookup_insert_eq. eauto. }
  assert (is_Some (incoming (make_stage v d) !! v)) as Hm.
  { unfold make_stage. destruct (incoming d !! v) eqn:Hv; [by rewrite Hv|]. cbn. rewrite lookup_insert_eq. eauto. }
  unfold put_dir. case_bool_decide; auto.
Qed.

Lemma put_keeps now name offset b d : dir_ok d ->
  wp (put now name offset b) (fun r d' => put_result d d' r) (fun _ => kept d) d.
Proof.
  intros Hd. unfold put. apply wp_bind, wp_gets, wp_bind, wp_require; [intros v Hw|by auto].
  apply wp_bind, wp_require; [intros p _|by auto]. apply wp_bind, wp_lift; [intros [] Hp|by auto].
  destruct (put_dir_kept v name offset b d Hd Hw Hp) as (Hk & Hf & Hw').
  pose proof (put_dir_stage v name b d) as Hs. unfold put_dir in Hk, Hf, Hw', Hs.
  rewrite verified_make_stage in *. apply wp_bind, wp_modify, wp_bind, wp_when; intros Hn; rewrite Hn in *;
    try apply wp_modify; apply wp_bind, wp_modify.
  - apply bool_decide_eq_true in Hn. rewrite Hn. apply wp_bind, wp_gets.
    pose proof (verified_none d v Hd Hw Hn) as H0.
    set (d3 := edit_stage _ _ _) in *. destruct (_ || _); [by apply wp_ret|].
    destruct (refused_lately d3 now).
    + apply wp_bind, wp_modify, wp_fail. destruct Hk. split; [apply remove_stage_ok; auto|done|done].
    + destruct Hs as [st Hs]. eapply wp_bind, wp_unwrap; [done|]. apply wp_ret. split; [done|]. by apply (k_files d d3 Hk).
  - apply bool_decide_eq_false in Hn. destruct (verified_files d v) as [files|]; [|done].
    apply wp_ret. split; [done|]. by destruct (_ =? _).
Qed.

(** A verified listing: the verdict's, for the version whose stage is there. *)
Lemma put_checked_keeps pn checked free d : dir_ok d -> d_files d = None ->
  wp (put_checked pn checked free)
    (fun _ d' => dir_ok d' /\ advances d d' /\ exists listing files,
       checked = Ok listing /\ d_files d' = Some listing /\ verified_files d' (pn_version pn) = Some files /\
       total_bytes files <= default 0 free)
    (fun _ => kept d) d.
Proof.
  intros Hd H0. unfold put_checked. apply wp_bind, wp_gets, wp_bind, wp_reject_if; [by auto|intros Hi].
  apply negb_false_iff, bool_decide_eq_true, fmap_Some in Hi as (st & Hs & _).
  destruct (do_wanted d Hd _ _ Hs) as [Hw _].
  assert (forall (e : UpdateError) (A : Type) (Q : A -> Dir -> Prop), wp (E := UpdateError) (modify (with_refused (pn_now pn));;
    modify (remove_stage (pn_version pn));; fail e) Q (fun _ => kept d) d) as Hr.
  { intros e A Q. apply wp_bind, wp_modify, wp_bind, wp_modify, wp_fail. split; [|done|by apply advances_same].
    apply remove_stage_ok; [done|]. by apply (dir_ok_same d). }
  destruct checked as [listing|why]; [|by apply Hr].
  destruct (bool_decide_reflect (head (lines listing) = Some (VERSION_IS ++ pn_version pn))) as [Hh|]; cbn [negb]; [|by apply Hr].
  destruct (negb _); [by apply Hr|]. destruct (parse_file_list listing) as [files|e] eqn:Hp; [|by apply Hr].
  destruct (Z.ltb_spec (default 0 free) (total_bytes files)); [by apply Hr|].
  apply wp_bind, wp_modify, wp_ret.
  assert (listing_for (pn_version pn) listing = Some files) as Hl
    by (unfold listing_for; by rewrite bool_decide_eq_true_2, Hp).
  split_and!; [|by apply advances_same|by exists listing, files].
  split; cbn.
  - apply (do_wanted d Hd).
  - intros t [= <-]. by exists (pn_version pn), st, files.
  - intros v st' name b Hv Hc. destruct (do_staged d Hd v st' name b Hv Hc) as [Hm|(fs & e & Hf & _)]; [by left|].
    unfold verified_files in Hf. by rewrite H0 in Hf.
Qed.

(** * The update channel: what its operations promise together

    [Machine] is the state directory and a put whose manifest is being checked with the stage
    lock released. The launcher serves its zone's requests one at a time, so no other put starts
    meanwhile; everything else may. *)
From stdpp Require Import relations.
Open Scope list_scope.
Open Scope Z_scope.
Import Update.

Record Machine := mkMachine { m_dir : Dir; m_checking : option Pending }.

Section Machine.
Context (check : bytes -> bytes -> option string) (role : text).

(** The put that is still to be checked. *)
Definition pending (o : outcome Put UpdateError) : option Pending :=
  match o with Done (Checking pn) => Some pn | _ => None end.

Inductive mstep : Machine -> Machine -> Prop :=
| S_latest d c now running ptr sig :
    mstep (mkMachine d c) (mkMachine (latest check now role running ptr sig d).2 c)
| S_want d c channel running applying :
    mstep (mkMachine d c) (mkMachine (want channel role running applying d).2 c)
| S_forget d c applying : mstep (mkMachine d c) (mkMachine (forget applying d).2 c)
| S_auto d c on channel : mstep (mkMachine d c) (mkMachine (set_auto on channel d).2 c)
| S_poll d c channel running now applying :
    mstep (mkMachine d c) (mkMachine (poll channel role running now applying d).2 c)
| S_installed d c running trial : mstep (mkMachine d c) (mkMachine (forget_if_installed running trial d).2 c)
| S_discard d c : mstep (mkMachine d c) (mkMachine (clear_stage d).2 c)
| S_put d now name offset b :
    mstep (mkMachine d None)
      (mkMachine (put now name offset b d).2 (pending (put now name offset b d).1))
| S_checked d pn verdict free :
    mstep (mkMachine d (Some pn)) (mkMachine (put_checked pn verdict free d).2 None)
| S_gone d pn : mstep (mkMachine d (Some pn)) (mkMachine d None).

Definition reachable (m : Machine) : Prop := rtc mstep (mkMachine empty_dir None) m.

Definition machine_ok (m : Machine) : Prop :=
  dir_ok (m_dir m) /\ (m_checking m <> None -> d_files (m_dir m) = None).

Lemma kept_machine d d' c : machine_ok (mkMachine d c) -> kept d d' ->
  machine_ok (mkMachine d' c) /\ advances d d'.
Proof. intros [_ Hf] [Hk Hf' Ha]. cbn in *. split; [split; cbn; auto|done]. Qed.

Lemma machine_idle d : dir_ok d -> machine_ok (mkMachine d None).
Proof. intros Hd. split; [done|]. by intros []. Qed.

Lemma wp_run {A} (m : M Dir UpdateError A) (P : Dir -> Prop) d : wp m (fun _ => P) (fun _ => P) d -> P (m d).2.
Proof. unfold wp. destruct (m d) as [[?|?|] d']; auto. done. Qed.

Lemma mstep_ok m m' : mstep m m' -> machine_ok m -> machine_ok m' /\ advances (m_dir m) (m_dir m').
Proof.
  intros Hs Hm. pose proof Hm as [Hd Hf]. destruct Hs; cbn [m_dir m_checking] in *.
  1-7: apply kept_machine; [done|].
  - apply (wp_run (latest check now role running ptr sig)).
    eapply wp_mono; [| |by apply latest_keeps]; [by intros s d' []|by intros e d' []].
  - by apply (wp_run (want channel role running applying)), want_keeps.
  - by apply (wp_run (forget applying)), forget_keeps.
  - by apply (wp_run (set_auto on channel)), set_auto_keeps.
  - by apply (wp_run (poll channel role running now applying)), poll_keeps.
  - by apply (wp_run (forget_if_installed running trial)), forget_if_installed_keeps.
  - by apply (wp_run clear_stage), clear_stage_keeps.
  - pose proof (put_keeps now name offset b d Hd) as Hp. unfold wp in Hp.
    destruct (put now name offset b d) as [[r|e|] d']; cbn [fst snd]; [| |done].
    + destruct Hp as [[Hk _ Ha] Hr]. split; [|done]. split; [done|]. destruct r; cbn in *; done.
    + destruct Hp as [Hk _ Ha]. split; [by apply machine_idle|exact Ha].
  - pose proof (put_checked_keeps pn verdict free d Hd (Hf ltac:(done))) as Hp. unfold wp in Hp.
    destruct (put_checked pn verdict free d) as [[r|e|] d']; cbn [fst snd]; [| |done].
    + destruct Hp as (Hk & Ha & _). split; [by apply machine_idle|exact Ha].
    + destruct Hp as [Hk _ Ha]. split; [by apply machine_idle|exact Ha].
  - split; [by apply machine_idle|]. by apply advances_same.
Qed.

Lemma msteps_ok m m' : rtc mstep m m' -> machine_ok m -> machine_ok m' /\ advances (m_dir m) (m_dir m').
Proof.
  induction 1 as [m|m m1 m' Hs _ IH]; intros Hm; [split; [done|by apply advances_same]|].
  apply mstep_ok in Hs as [H1 A1]; [|done]. apply IH in H1 as [H2 A2]. split; [done|].
  intros p Hp. apply A1 in Hp as (q & Hq & ?). apply A2 in Hq as (r & Hr & ?). exists r. split; [done|lia].
Qed.

Lemma reachable_ok m : reachable m -> machine_ok m.
Proof. intros H. apply msteps_ok in H as [H _]; [done|]. by apply machine_idle, dir_ok_empty. Qed.

End Machine.

(** ** Claims *)

(** [version_cmp] is the order of version keys, in which a run of digits is its
    number and any other byte is itself: runs of any length compare as numbers. It is total,
    antisymmetric up to equal keys, and transitive. *)
Theorem version_order a b c :
  version_cmp a b = bytes_cmp (version_key a) (version_key b) /\
  (version_cmp a b = Eq <-> version_key a = version_key b) /\
  version_cmp b a = CompOpp (version_cmp a b) /\
  (version_cmp a b = Lt -> version_cmp b c = Lt -> version_cmp a c = Lt).
Proof.
  rewrite !version_cmp_key. split_and!;
    [done|split; [apply bytes_cmp_eq|intros ->; apply bytes_cmp_refl]|apply bytes_cmp_antisym|apply bytes_cmp_trans].
Qed.

(** A tilde is after the end of a version, where [sort -V] puts it before. *)
Example tilde_after : version_cmp (chars "1.0~rc1") (chars "1.0") = Gt.
Proof. by vm_compute. Qed.

(** C33: whatever requests arrive, in whatever order, and while a manifest is
    checked: bytes are staged only for the wanted release, and each file there is one of the
    manifest pair, of at most 64 KiB, or a file the verified listing names, of at most the size it
    gives. *)
Theorem staged_within_signed check role m v st name b :
  reachable check role m -> incoming (m_dir m) !! v = Some st -> content st !! name = Some b ->
  wanted (m_dir m) = Some v /\
  (((name = MANIFEST \/ name = MANIFEST_SIG) /\ zlen b <= MANIFEST_MAX) \/
   exists files e, verified_files (m_dir m) v = Some files /\ e ∈ files /\ e_name e = name /\ zlen b <= e_size e).
Proof.
  intros [Hd _]%reachable_ok Hv Hc. split; [by apply (do_wanted _ Hd) in Hv as []|].
  destruct (do_staged _ Hd v st name b Hv Hc) as [|(files & e & Hf & [He Hn]%find_entry_Some & Hl)]; [by left|].
  right. by exists files, e.
Qed.

Lemma verified_listing_ok d v files : verified_files d v = Some files -> listing_ok files.
Proof. unfold verified_files. destruct (d_files d); [by apply listing_for_ok|done]. Qed.

(** A listed file holds no more than its size. *)
Lemma held_listed d v files e :
  dir_ok d -> verified_files d v = Some files -> e ∈ files -> held d v (e_name e) <= e_size e.
Proof.
  intros Hd Hf He. pose proof (verified_listing_ok d v files Hf) as [Hn Hp Hs].
  rewrite Forall_forall in Hp, Hs. destruct (Hp e He), (Hs e He). unfold held.
  destruct (incoming d !! v) as [st|] eqn:Hv; [cbn|done]. destruct (content st !! e_name e) as [b|] eqn:Hc; [|done].
  destruct (do_staged d Hd v st _ b Hv Hc) as [[[] _]|(fs & e' & Hf' & Hfe & Hl)]; [done..|].
  rewrite Hf in Hf'. injection Hf' as <-. rewrite find_entry_elem in Hfe by done. by injection Hfe as <-.
Qed.

Lemma still_needed_nil files held :
  still_needed files held = [] -> Forall (fun e => e_size e <= held (e_name e)) files.
Proof.
  unfold still_needed. induction files as [|e files IH]; [constructor|]. cbn.
  destruct (Z.ltb_spec (held (e_name e)) (e_size e)); [done|]. intros H'. constructor; [lia|auto].
Qed.

(** A release handed to the installer is the one asked for, with a verified
    listing, no file listed twice, and every file in it exactly as long as the listing says. *)
Theorem complete_exact check role m v :
  reachable check role m -> complete_stage (m_dir m) = Ok v ->
  wanted (m_dir m) = Some v /\ exists files, verified_files (m_dir m) v = Some files /\
  NoDup (e_name <$> files) /\ Forall (fun e => held (m_dir m) v (e_name e) = e_size e) files.
Proof.
  intros [Hd _]%reachable_ok H. unfold complete_stage in H. apply result_bind_Ok in H as (w & Hw & H).
  apply result_bind_Ok in H as (files & Hf & H).
  destruct (wanted (m_dir m)) as [w'|] eqn:Ew; [injection Hw as ->|done].
  destruct (verified_files (m_dir m) w) as [files'|] eqn:Ev; [injection Hf as ->|done].
  destruct (still_needed files _) as [|[n k] l] eqn:En; [injection H as ->|done].
  pose proof (verified_listing_ok _ _ _ Ev) as Hok.
  split; [done|]. exists files. split; [done|]. split; [apply Hok|].
  apply still_needed_nil in En. rewrite Forall_forall in En |- *. intros e He. specialize (En e He).
  pose proof (held_listed _ _ _ _ Hd Ev He). lia.
Qed.

(** C34: from any state that can be reached, the newest accepted statement is
    never lost, and never replaced by one dated before it: an old signed statement cannot be
    replayed to hide a release. *)
Theorem statements_monotone check role m m' p :
  reachable check role m -> rtc (mstep check role) m m' -> stored_pointer (m_dir m) = Some p ->
  exists p', stored_pointer (m_dir m') = Some p' /\ issued p <= issued p'.
Proof. intros Hm%reachable_ok Hs Hp. apply msteps_ok in Hs as [_ Ha]; [by apply Ha|done]. Qed.

(** A statement is accepted only when an interval has passed since the last one
    considered, its signature was checked, its role is this machine's, it is dated at most a day
    ahead and not before the newest; it is then the newest, and an update is announced exactly when
    its version is after the running one. Any refusal leaves the newest statement as it was, and
    one that came too soon leaves the whole directory. *)
Theorem latest_accepts check now role running ptr sig d :
  wp (latest check now role running ptr sig)
    (fun s d' => lately now (d_considered d) = false /\ d_considered d' = Some now /\ check ptr sig = None /\
      exists p, stored_pointer d' = Some p /\ Update.role p = role /\ issued p <= now + MAX_AHEAD_SECS /\
        from_option (fun q => issued q <= issued p) True (stored_pointer d) /\
        (s = Available (version p) <-> version_cmp (version p) running = Gt))
    (fun e d' => (e = TooSoon /\ d' = d /\ lately now (d_considered d) = true) \/
      (d' = with_considered now d /\ lately now (d_considered d) = false)) d.
Proof.
  unfold latest. apply wp_bind, wp_gets, wp_bind, wp_reject_if; [by left|]. intros Hl.
  apply wp_bind, wp_modify, wp_bind, wp_require; [intros t Ht|by right].
  apply wp_bind. destruct (check ptr sig) as [why|] eqn:Hk; [by apply wp_fail; right|]. apply wp_ret.
  apply wp_bind, wp_lift; [intros p Hp|by right]. apply wp_bind, wp_lift; [intros s Hs|by right].
  apply wp_bind, wp_modify, wp_ret. apply accept_pointer_ok in Hs as (Hr & Ha & Hn & ->).
  split_and!; [done..|]. exists p. split_and!; [|done|done| |].
  - unfold stored_pointer. cbn. rewrite Ht. cbn. by rewrite Hp.
  - by destruct (stored_pointer d).
  - destruct (version_cmp (version p) running); by split.
Qed.

(** ** A release that is fetched to its end *)

(** The zone's side of a release whose listing is verified: the next part of the first file
    [complete_stage] finds missing, at most [PUT_MAX] bytes of it. *)
Definition fetch (data : text -> bytes) (now : Z) (d : Dir) : Dir :=
  match complete_stage d with
  | Err (StillArriving n at_) => (put now n at_ (take (Z.to_nat PUT_MAX) (drop (Z.to_nat at_) (data n))) d).2
  | _ => d
  end.

(** What is staged of a listed file. *)
Definition staged (d : Dir) (v name : text) : bytes :=
  default [] (st ← incoming d !! v; content st !! name).

Lemma held_staged d v name : held d v name = zlen (staged d v name).
Proof. unfold held, staged. by destruct (_ ≫= _). Qed.

(** A release is being fetched: everything staged is a beginning of the real file. *)
Record fetching (data : text -> bytes) (v : text) (files : list Entry) (d : Dir) : Prop := {
  f_ok : dir_ok d;
  f_wanted : wanted d = Some v;
  f_pointer : exists p, stored_pointer d = Some p /\ version p = v;
  f_files : verified_files d v = Some files;
  f_data : Forall (fun e => zlen (data (e_name e)) = e_size e) files;
  f_prefix : Forall (fun e => staged d v (e_name e) `prefix_of` data (e_name e)) files;
}.

Lemma still_needed_first files held n k l : still_needed files held = (n, k) :: l ->
  exists e, e ∈ files /\ e_name e = n /\ k = held n /\ k < e_size e.
Proof.
  unfold still_needed. induction files as [|e files IH]; [done|]. cbn.
  destruct (Z.ltb_spec (held (e_name e)) (e_size e)).
  - intros [= <- <- _]. exists e. split_and!; [left|done..].
  - intros (e' & ? & ?)%IH. exists e'. split; [by right|done].
Qed.

Lemma put_listed now d v files p e b : dir_ok d -> wanted d = Some v ->
  stored_pointer d = Some p -> version p = v -> verified_files d v = Some files -> e ∈ files ->
  0 < zlen b -> held d v (e_name e) + zlen b <= e_size e ->
  (exists r, put now (e_name e) (held d v (e_name e)) b d = (Done r, edit_stage v (append (e_name e) b) d) /\
     pending (Done r) = None) /\
  is_Some (incoming d !! v).
Proof.
  intros Hd Hw Hp Hv Hf He Hb Hs. destruct (verified_listing_ok d v files Hf) as [Hn Hm Hz].
  rewrite Forall_forall in Hm, Hz. destruct (Hm e He) as [Hm1 Hm2], (Hz e He) as [_ He'].
  assert (is_Some (incoming d !! v)) as [st Hst].
  { unfold verified_files in Hf. destruct (d_files d) as [t|] eqn:Ht; [|done].
    destruct (do_files d Hd t Ht) as (w & st & fs & Hw' & Hst & _). rewrite Hw in Hw'. injection Hw' as <-. eauto. }
  split; [|eauto].
  assert (may_put (Some files) (e_name e) (held d v (e_name e)) (zlen b) (held d v (e_name e)) = Ok tt) as Hmp.
  { unfold may_put. rewrite (proj2 (Z.eqb_neq (zlen b) 0)), (proj2 (Z.leb_le _ _)) by lia. cbn [ok_or result_bind].
    rewrite !bool_decide_eq_false_2 by done. cbn [orb ok_or result_bind].
    rewrite find_entry_elem by done. cbn [ok_or result_bind]. rewrite Z.eqb_refl. cbn [negb].
    by rewrite (proj2 (Z.ltb_ge _ _)). }
  cut (wp (put now (e_name e) (held d v (e_name e)) b)
    (fun r d' => d' = edit_stage v (append (e_name e) b) d /\ pending (Done r) = None) (fun _ _ => False) d).
  { unfold wp. destruct (put _ _ _ _ _) as [[r| |] d']; [|done..]. intros [-> ?]. eauto. }
  unfold put.
  apply wp_bind, wp_gets, wp_bind, wp_require; [intros w Ew|congruence]. rewrite Hw in Ew. injection Ew as <-.
  apply wp_bind, wp_require; [intros q _|rewrite Hp; cbn; by rewrite bool_decide_eq_true_2].
  rewrite Hf, Hmp. apply wp_bind, wp_lift; [intros [] _|done]. apply wp_bind, wp_modify, wp_bind.
  rewrite bool_decide_eq_false_2 by done. apply wp_ret, wp_bind, wp_modify, wp_ret.
  unfold make_stage. rewrite Hst. split; [done|]. by destruct (_ =? _).
Qed.

Lemma staged_append d v n b m : is_Some (incoming d !! v) ->
  staged (edit_stage v (append n b) d) v m = if decide (m = n) then staged d v m ++ b else staged d v m.
Proof.
  intros [st Hs]. unfold edit_stage, staged. rewrite Hs. cbn. rewrite lookup_insert_eq. cbn. unfold append.
  case_decide as E; [subst m; by rewrite lookup_insert_eq|by rewrite lookup_insert_ne].
Qed.

(** The bytes that have not arrived. *)
Definition missing (files : list Entry) (d : Dir) (v : text) : nat :=
  sum_list_with (fun e => Z.to_nat (e_size e - held d v (e_name e))) files.

Lemma sum_list_with_lt {A} (f g : A -> nat) (l : list A) x :
  (forall y, (f y <= g y)%nat) -> x ∈ l -> (f x < g x)%nat -> (sum_list_with f l < sum_list_with g l)%nat.
Proof.
  intros Hle Hx Hlt. assert (forall l, sum_list_with f l <= sum_list_with g l)%nat as Hs.
  { intros l'. induction l' as [|y l' IH]; cbn; [lia|]. specialize (Hle y). lia. }
  induction Hx as [y l|x y l _ IH]; cbn; [specialize (Hs l); lia|]. specialize (Hle y). specialize (IH Hlt). lia.
Qed.

Lemma prefix_next {A} (a l : list A) n : a `prefix_of` l -> a ++ take n (drop (length a) l) `prefix_of` l.
Proof. intros [k ->]. rewrite drop_app_length. exists (drop n k). by rewrite <-(assoc_L (++)), take_drop. Qed.

(** Of a file that has not arrived whole, the next part fits and is not empty. *)
Lemma next_part {A} (a l : list A) n : a `prefix_of` l -> (0 < n)%nat -> zlen a < zlen l ->
  0 < zlen (take n (drop (length a) l)) /\ zlen a + zlen (take n (drop (length a) l)) <= zlen l.
Proof.
  intros [k ->] Hn. unfold zlen. rewrite drop_app_length, length_app, length_take. lia.
Qed.

Lemma fetch_step data now v files d n k : fetching data v files d ->
  complete_stage d = Err (StillArriving n k) ->
  fetching data v files (fetch data now d) /\
  (missing files (fetch data now d) v < missing files d v)%nat /\
  exists r, put now n k (take (Z.to_nat PUT_MAX) (drop (Z.to_nat k) (data n))) d = (Done r, fetch data now d) /\
    pending (Done r) = None.
Proof.
  intros [Hd Hw (p & Hp & Hv) Hf Hz Hx] Hc. unfold fetch. rewrite Hc. unfold complete_stage in Hc.
  rewrite Hw in Hc. cbn in Hc. rewrite Hf in Hc. cbn in Hc.
  destruct (still_needed files (held d v)) as [|[n' k'] l] eqn:Hs; [done|]. injection Hc as -> ->.
  apply still_needed_first in Hs as (e & He & <- & -> & Hl). rewrite Forall_forall in Hz, Hx.
  pose proof (Hz e He) as Hze. pose proof (Hx e He) as Hxe. rewrite held_staged in *.
  assert (Z.to_nat (zlen (staged d v (e_name e))) = length (staged d v (e_name e))) as En by (unfold zlen; lia).
  rewrite En. set (b := take _ _).
  destruct (next_part _ _ (Z.to_nat PUT_MAX) Hxe) as [Hb Hb']; [change PUT_MAX with 1048576; lia|lia|]. fold b in Hb, Hb'.
  rewrite Hze in Hb'.
  destruct (put_listed now d v files p e b) as ((r & Er & Hr) & Hi); try done; [by rewrite held_staged|].
  rewrite held_staged in Er. rewrite Er. cbn [snd].
  destruct (edit_stage_same v (append (e_name e) b) d) as (W & F & P).
  split_and!; [|apply (sum_list_with_lt _ _ _ e); [|done|]|by eauto].
  - split; [|by rewrite W|exists p; split; [|done]; unfold stored_pointer in *; by rewrite P
           |by unfold verified_files; rewrite F|by rewrite Forall_forall|].
    + pose proof (put_keeps now (e_name e) (zlen (staged d v (e_name e))) b d Hd) as Hk. unfold wp in Hk.
      rewrite Er in Hk. apply Hk.
    + apply Forall_forall. intros e' He'. rewrite staged_append by done. case_decide as E; [|by apply Hx].
      rewrite E. subst b. by apply prefix_next.
  - intros y. rewrite !held_staged, staged_append by done. case_decide; [|done]. rewrite zlen_app. pose proof (zlen_nonneg b). lia.
  - rewrite !held_staged, staged_append by done. rewrite decide_True by done. rewrite zlen_app. lia.
Qed.

Lemma fetching_complete data v files d : fetching data v files d ->
  complete_stage d = Ok v \/ exists n k, complete_stage d = Err (StillArriving n k).
Proof.
  intros [_ Hw _ Hf _ _]. unfold complete_stage. rewrite Hw. cbn. rewrite Hf. cbn.
  destruct (still_needed _ _) as [|[n k] l]; [by left|right; eauto].
Qed.

Lemma complete_staged data v files d : fetching data v files d -> complete_stage d = Ok v ->
  Forall (fun e => staged d v (e_name e) = data (e_name e)) files.
Proof.
  intros [Hd Hw _ Hf Hz Hx] Hc. unfold complete_stage in Hc. rewrite Hw in Hc. cbn in Hc. rewrite Hf in Hc. cbn in Hc.
  destruct (still_needed _ _) as [|[n k] l] eqn:Hn; [|done]. apply still_needed_nil in Hn.
  rewrite Forall_forall in Hz, Hx, Hn |- *. intros e He. specialize (Hz e He). specialize (Hn e He).
  destruct (Hx e He) as [r Hr]. rewrite held_staged in Hn. rewrite Hr, zlen_app in Hz. pose proof (zlen_nonneg r).
  assert (r = []) as -> by (destruct r; [done|rewrite zlen_cons in *; pose proof (zlen_nonneg r); lia]).
  by rewrite app_nil_r in Hr.
Qed.

Lemma fetch_all check role data now v files m : m_checking m = None -> fetching data v files (m_dir m) ->
  exists k, (k <= missing files (m_dir m) v)%nat /\
  rtc (mstep check role) m (mkMachine (Nat.iter k (fetch data now) (m_dir m)) None) /\
  complete_stage (Nat.iter k (fetch data now) (m_dir m)) = Ok v /\
  fetching data v files (Nat.iter k (fetch data now) (m_dir m)).
Proof.
  remember (missing files (m_dir m) v) as w eqn:Ew. revert m Ew.
  induction w as [w IH] using lt_wf_ind. intros [d c] -> Hc Hf. cbn in Hc. subst c. cbn [m_dir] in *.
  destruct (fetching_complete data v files d Hf) as [Ho|(n & k & Hn)].
  - exists 0%nat. cbn. split_and!; [lia|apply rtc_refl|done|done].
  - destruct (fetch_step data now v files d n k Hf Hn) as (Hf' & Hl & r & Er & Hr).
    destruct (IH _ Hl (mkMachine (fetch data now d) None) eq_refl eq_refl Hf') as (j & Hj & Hs & Hco & Hff).
    cbn [m_dir] in *. exists (S j). rewrite Nat.iter_succ_r. split_and!; [lia| |done|done].
    eapply rtc_l; [|exact Hs]. pose proof (S_put check role d now n k
      (take (Z.to_nat PUT_MAX) (drop (Z.to_nat k) (data n)))) as Hstep.
    rewrite Er in Hstep. cbn [fst snd] in Hstep. by rewrite Hr in Hstep.
Qed.


(** ** A release from its announcement to its last byte *)
Module Demo.
Definition check : bytes -> bytes -> option string := fun _ _ => None.
Definition role : text := Eval vm_compute in chars "release".
Definition running : text := Eval vm_compute in chars "1.9".
Definition release : text := Eval vm_compute in chars "1.10".
Definition channel : text := Eval vm_compute in chars "https://k.example".
Definition sha : text := Eval vm_compute in repeat 97 64.
Definition pointer : bytes := Eval vm_compute in encode_chars (unlines
  [chars "KRYPTIK-LATEST-1"; chars "role: release"; chars "version: 1.10"; chars "issued: 2026-01-01T00:00:00Z";
   chars "manifest-sha256: " ++ sha; chars "base: r"]).
Definition now : Z := 1767225600.
Definition listing : text := Eval vm_compute in unlines
  [chars "version: 1.10"; chars "sha256: " ++ sha; chars "file 3 root.img"; chars "file 2 kernel"].
Definition root_img : text := Eval vm_compute in chars "root.img".
Definition kernel : text := Eval vm_compute in chars "kernel".
Definition data (n : text) : bytes :=
  if bool_decide (n = root_img) then as_bytes "abc" else if bool_decide (n = kernel) then as_bytes "de" else [].

Definition heard : Dir := (latest check now role running pointer [] empty_dir).2.
Definition asked : Dir := (want (Some channel) role running false heard).2.
Definition half : Dir := (put now MANIFEST 0 (as_bytes "m") asked).2.
Definition both : Dir := (put now MANIFEST_SIG 0 (as_bytes "s") half).2.
Definition pn : Pending := Eval vm_compute in
  default (mkPending [] [] [] 0 0) (pending (put now MANIFEST_SIG 0 (as_bytes "s") half).1).
Definition verified : Dir := (put_checked pn (Ok listing) (Some 1000) both).2.
Definition part : Dir := (put now root_img 0 (as_bytes "a") verified).2.
Definition done_ : Dir := Nat.iter 2 (fetch data now) part.

Lemma asked_reachable : reachable check role (mkMachine asked None).
Proof.
  eapply rtc_l; [apply (S_latest _ _ empty_dir None now running pointer [])|].
  eapply rtc_l; [apply (S_want _ _ heard None (Some channel) running false)|]. apply rtc_refl.
Qed.

Lemma part_steps : rtc (mstep check role) (mkMachine asked None) (mkMachine part None).
Proof.
  eapply rtc_l; [apply (S_put _ _ asked now MANIFEST 0 (as_bytes "m"))|].
  replace (pending (put now MANIFEST 0 (as_bytes "m") asked).1) with (@None Pending) by (by vm_compute).
  eapply rtc_l; [apply (S_put _ _ half now MANIFEST_SIG 0 (as_bytes "s"))|].
  replace (pending (put now MANIFEST_SIG 0 (as_bytes "s") half).1) with (Some pn) by (by vm_compute).
  eapply rtc_l; [apply (S_checked _ _ both pn (Ok listing) (Some 1000))|].
  eapply rtc_l; [apply (S_put _ _ verified now root_img 0 (as_bytes "a"))|].
  replace (pending (put now root_img 0 (as_bytes "a") verified).1) with (@None Pending) by (by vm_compute).
  apply rtc_refl.
Qed.

Lemma part_reachable : reachable check role (mkMachine part None).
Proof. unfold reachable. etrans; [apply asked_reachable|apply part_steps]. Qed.

Lemma done_steps : rtc (mstep check role) (mkMachine part None) (mkMachine done_ None).
Proof.
  eapply rtc_l; [apply (S_put _ _ part now root_img 1 (as_bytes "bc"))|].
  replace (pending (put now root_img 1 (as_bytes "bc") part).1) with (@None Pending) by (by vm_compute).
  eapply rtc_l; [apply (S_put _ _ _ now kernel 0 (as_bytes "de"))|].
  replace (pending _) with (@None Pending) by (by vm_compute). 
  replace done_ with (put now kernel 0 (as_bytes "de") (put now root_img 1 (as_bytes "bc") part).2).2
    by (by vm_compute).
  apply rtc_refl.
Qed.
End Demo.
Import Demo.

Definition demo_stage : Stage := Eval vm_compute in default (mkStage 0 ∅) (incoming part !! release).
Definition demo_files : list Entry := Eval vm_compute in default [] (verified_files part release).

Lemma staged_within_signed_witness :
  wanted part = Some release /\
  ((root_img = MANIFEST \/ root_img = MANIFEST_SIG) /\ zlen (as_bytes "a") <= MANIFEST_MAX \/
   exists files e, verified_files part release = Some files /\ e ∈ files /\ e_name e = root_img /\
     zlen (as_bytes "a") <= e_size e).
Proof.
  apply (staged_within_signed check role (mkMachine part None) release demo_stage root_img (as_bytes "a"));
    [apply part_reachable|by vm_compute|by vm_compute].
Defined.

Lemma complete_exact_witness :
  wanted done_ = Some release /\ exists files, verified_files done_ release = Some files /\
  NoDup (e_name <$> files) /\ Forall (fun e => held done_ release (e_name e) = e_size e) files.
Proof.
  apply (complete_exact check role (mkMachine done_ None) release); [|by vm_compute].
  unfold reachable. etrans; [apply part_reachable|apply done_steps].
Defined.

Definition demo_pointer : Pointer := Eval vm_compute in
  default (mkPointer [] [] 0 [] []) (stored_pointer asked).

Lemma statements_monotone_witness :
  exists p', stored_pointer part = Some p' /\ issued demo_pointer <= issued p'.
Proof.
  apply (statements_monotone check role (mkMachine asked None) (mkMachine part None) demo_pointer);
    [apply asked_reachable|apply part_steps|by vm_compute].
Defined.

