(* ===== verification/Consent.v ===== *)
(** * compartments/kryptikd/src/consent.rs: a question for the user in zone 0

    The channel directory is a map from names to what is there; the session's group may write to
    it, so each look finds a directory of its own ([Tick]). The kernel's answers are arguments.
    [None] is a question still open. *)
From S2P Require Import Prelude Bytes Text Control.
From stdpp Require Import pretty.
Open Scope string_scope.
Open Scope list_scope.
Open Scope Z_scope.

Module Consent.

Definition TIMEOUT_SECS : Z := 60.
Definition WATCHER_LOCK : string := "watcher.lock".
Definition ANSWER_MAX : Z := 64.

(** What a name of the channel holds. *)
Inductive Node := Plain (b : bytes) | Symlink | Special | Unreadable.
Abbreviation Dir := (gmap string Node).

Inductive Why :=
| NoChannel
| ForeignChannel (uid : Z)
| OpenToEveryone
| NotWatched
| NoRandomness
| CannotWrite
| CannotPlace
| NamesTaken
| RefusedByUser
| Malformed (answer : list Z)
| NotAPlainFile
| NoAnswer
| Withdrawn.

(** The channel directory as opened: its owner, and whether everyone may write to it. *)
Record Opened := mkOpened { o_uid : Z; o_world : bool }.

Definition open_channel (opened : option Opened) (me : Z) : result unit Why :=
  match opened with
  | None => Err NoChannel
  | Some st =>
    if negb (o_uid st =? 0) && negb (o_uid st =? me) then Err (ForeignChannel (o_uid st))
    else if o_world st then Err OpenToEveryone
    else Ok tt
  end.

(** flock(2)'s answer for a shared lock, without waiting. *)
Inductive Flock := Locked | WouldBlock | LockFailed.

Definition watched (d : Dir) (lock : Flock) : bool :=
  match d !! WATCHER_LOCK with
  | Some (Plain _) => match lock with WouldBlock => true | _ => false end
  | _ => false
  end.

(** [{:016x}]. *)
Definition hexit (d : Z) : Z := if d <? 10 then 48 + d else 87 + d.
Fixpoint hex_digits (n : nat) (v : Z) : list Z :=
  match n with
  | O => []
  | S n => hex_digits n (v / 16) ++ [hexit (v mod 16)]
  end.
Definition hex16 (v : Z) : string := of_chars (hex_digits 16 v).

(** One name tried, by the counter: the random nonce, and whether each call succeeds. *)
Record Attempt := mkAttempt { a_nonce : option Z; a_create : bool; a_write : bool; a_rename : bool }.

(** The channel and the process's counter of questions. *)
Record Chan := mkChan { c_dir : Dir; c_counter : Z }.

Definition question_id (pid counter nonce : Z) : string :=
  pretty pid +:+ "-" +:+ pretty counter +:+ "-" +:+ hex16 nonce.

Fixpoint place_loop (n : nat) (attempts : Z -> Attempt) (pid : Z) (text : bytes) (c : Chan)
    : result string Why * Chan :=
  match n with
  | O => (Err NamesTaken, c)
  | S n =>
    let a := attempts (c_counter c) in
    let c' := mkChan (c_dir c) (c_counter c + 1) in
    match a_nonce a with
    | None => (Err NoRandomness, c')
    | Some nonce =>
      let id := question_id pid (c_counter c) nonce in
      match c_dir c !! (id +:+ ".tmp") with
      | Some _ => place_loop n attempts pid text c'
      | None =>
        if negb (a_create a) || negb (a_write a) then (Err CannotWrite, c')
        else if negb (a_rename a) then (Err CannotPlace, c')
        else (Ok id, mkChan (<[id +:+ ".ask" := Plain text]> (c_dir c)) (c_counter c + 1))
      end
    end
  end.
(** [place_question]: eight names. A temporary whose writing or renaming fails is removed again,
    so what is left is the directory as it was. *)
Definition place_question (attempts : Z -> Attempt) (pid : Z) (text : bytes) (c : Chan)
    : result string Why * Chan := place_loop 8 attempts pid text c.

Definition read_answer (d : Dir) (name : string) : result (option (list Z)) Why :=
  match d !! name with
  | None => Ok None
  | Some (Plain b) => Ok (Some (utf8_lossy (take (Z.to_nat ANSWER_MAX) b)))
  | Some _ => Err NotAPlainFile
  end.

Definition YES : list Z := Eval vm_compute in chars "yes".
Definition NO : list Z := Eval vm_compute in chars "no".

Definition judge (a : list Z) : result unit Why :=
  let first := trim (default [] (head (lines a))) in
  if bool_decide (first = YES) then Ok tt
  else if bool_decide (first = NO) then Err RefusedByUser
  else Err (Malformed first).

(** One look at the channel: the directory then, whether the deadline has passed, and what
    [asking] answers. *)
Record Tick := mkTick { t_dir : Dir; t_late : bool; t_asking : bool }.

(** The loop: the outcome, and the directory at the last look. *)
Fixpoint wait (answer : string) (ticks : list Tick) : option (result unit Why * Dir) :=
  match ticks with
  | [] => None
  | t :: ticks =>
    match read_answer (t_dir t) answer with
    | Ok (Some a) => Some (judge a, t_dir t)
    | Err e => Some (Err e, t_dir t)
    | Ok None =>
      if t_late t then Some (Err NoAnswer, t_dir t)
      else if negb (t_asking t) then Some (Err Withdrawn, t_dir t)
      else wait answer ticks
    end
  end.

Record Refusal := mkRefusal { why : Why; shown : bool }.
Definition unseen (w : Why) : Refusal := mkRefusal w false.

(** What the kernel answers while a question is asked. *)
Record Asked := mkAsked {
  k_opened : option Opened; k_me : Z; k_lock : Flock; k_pid : Z;
  k_attempts : Z -> Attempt; k_ticks : list Tick }.

Definition ask_text (k : Asked) (text : bytes) (c : Chan) : option (result unit Refusal * Chan) :=
  match open_channel (k_opened k) (k_me k) with
  | Err w => Some (Err (unseen w), c)
  | Ok _ =>
    if negb (watched (c_dir c) (k_lock k)) then Some (Err (unseen NotWatched), c)
    else
      match place_question (k_attempts k) (k_pid k) text c with
      | (Ok id, c) =>
        '(outcome, d) ← wait (id +:+ ".answer") (k_ticks k);
        let d := delete (id +:+ ".code") (delete (id +:+ ".answer") (delete (id +:+ ".ask") d)) in
        let c := mkChan d (c_counter c) in
        Some (match outcome with Ok _ => Ok tt | Err w => Err (mkRefusal w true) end, c)
      | (Err w, c) => Some (Err (unseen w), c)
      end
  end.

(** The question of a transfer. *)
Definition ask (k : Asked) (from to name : string) (size : Z) : Chan -> option (result unit Refusal * Chan) :=
  ask_text k (as_bytes ("from=" +:+ from +:+ String (Ascii.ascii_of_nat 10) ("to=" +:+ to +:+
    String (Ascii.ascii_of_nat 10) ("name=" +:+ name +:+
    String (Ascii.ascii_of_nat 10) ("bytes=" +:+ pretty size +:+ String (Ascii.ascii_of_nat 10) ""))))).

End Consent.

Import Consent.

(** ** A yes is given, and only for this question *)
Lemma judge_yes a : judge a = Ok tt <-> trim (default [] (head (lines a))) = YES.
Proof. unfold judge. case_bool_decide; [done|]. split; [|done]. by case_bool_decide. Qed.

(** Nothing to act on: no answer yet, in time, the zone still there. *)
Definition idle (answer : string) (t : Tick) : Prop :=
  t_dir t !! answer = None /\ t_late t = false /\ t_asking t = true.

Lemma wait_yes answer ticks d : wait answer ticks = Some (Ok tt, d) ->
  exists pre t post b, ticks = pre ++ t :: post /\ Forall (idle answer) pre /\ t_dir t = d /\
    d !! answer = Some (Plain b) /\ trim (default [] (head (lines (utf8_lossy (take (Z.to_nat ANSWER_MAX) b))))) = YES.
Proof.
  induction ticks as [|t ticks IH]; [done|]. cbn [wait]. unfold read_answer.
  destruct (t_dir t !! answer) as [n|] eqn:Hn.
  - destruct n as [b| | |]; try (intros H; by injection H). intros H. injection H as Hj <-.
    exists [], t, ticks, b. split_and!; [done|constructor|done|done|]. by apply judge_yes.
  - destruct (t_late t) eqn:Hl; [done|]. destruct (t_asking t) eqn:Ha; [cbn [negb]|done].
    intros (pre & u & post & b & -> & Hp & Hr)%IH. exists (t :: pre), u, post, b.
    split; [done|]. split; [by constructor|done].
Qed.

Lemma wait_ends answer ticks : Exists (fun t => t_late t = true) ticks -> is_Some (wait answer ticks).
Proof.
  induction 1 as [t ticks Hl|t ticks _ IH]; cbn [wait]; destruct (read_answer _ _) as [[a|]|e]; eauto;
    [by rewrite Hl; eauto|]. destruct (t_late t); [eauto|]. destruct (negb (t_asking t)); eauto.
Qed.

Lemma place_loop_ok n attempts pid text c id c' : place_loop n attempts pid text c = (Ok id, c') ->
  c_counter c < c_counter c' /\ exists counter nonce, c_counter c <= counter < c_counter c' /\
    id = question_id pid counter nonce /\ c_dir c' = <[id +:+ ".ask" := Plain text]> (c_dir c).
Proof.
  revert c. induction n as [|n IH]; intros c; cbn [place_loop]; [done|].
  destruct (a_nonce _) as [nonce|]; [|done]. destruct (_ !! _).
  - intros (H1 & counter & k & H2 & H3 & H4)%IH. cbn in *. split; [lia|]. exists counter, k. split_and!; [lia..|done|done].
  - destruct (_ || _); [done|]. destruct (negb _); [done|]. intros [= <- <-]. cbn. split; [lia|].
    exists (c_counter c), nonce. split_and!; [lia..|done|done].
Qed.

(** ** Questions have names of their own *)
Lemma digit_no_dash l : Forall digit l -> x2d ∉ l.
Proof. intros H Hx. rewrite Forall_forall in H. specialize (H _ Hx). unfold digit in H.
  change (Z_of_byte x2d) with 45 in H. lia. Qed.

Lemma question_id_inj pid c n c' n' : 0 <= pid -> 0 <= c -> 0 <= c' ->
  question_id pid c n = question_id pid c' n' -> c = c'.
Proof.
  intros Hp Hc Hc' E. apply (f_equal as_bytes) in E. unfold question_id in E. rewrite !as_bytes_app in E.
  apply app_inv_head in E. apply app_inv_head in E.
  destruct (pretty_digits c Hc) as (Hd & Hv & _), (pretty_digits c' Hc') as (Hd' & Hv' & _).
  change (as_bytes "-") with [x2d] in E. cbn [app] in E.
  apply app_sep_inj in E as [E _]; [congruence|by apply digit_no_dash..].
Qed.

(** ** Claims *)


(** A question ends once its deadline passes. *)
Lemma ask_text_ends k text c : Exists (fun t => t_late t = true) (k_ticks k) -> is_Some (ask_text k text c).
Proof.
  intros Hl. unfold ask_text. destruct (open_channel _ _); [|eauto]. destruct (negb _); [eauto|].
  destruct (place_question _ _ _ _) as [[id|w] c1]; [|eauto].
  destruct (wait_ends (id +:+ ".answer") _ Hl) as [[o d] ->]. cbn. eauto.
Qed.

(** Two looks at a channel: nothing yet, then a yes. *)
Definition demo_chan : Chan := mkChan {[ WATCHER_LOCK := Plain [] ]} 1.
Definition demo_id : string := Eval vm_compute in question_id 7 1 255.
Definition demo_asked : Asked := mkAsked (Some (mkOpened 0 false)) 0 WouldBlock 7
  (fun _ => mkAttempt (Some 255) true true true)
  [mkTick ∅ false true; mkTick {[ demo_id +:+ ".answer" := Plain (as_bytes "yes") ]} false true].

