(* ===== verification/Zone.v ===== *)
(** * compartments/kryptikd/src/zone.rs: zone definitions

    The flat TOML of a zone file, the zone it defines, and the checks across every zone of the
    system. Reading files and the directory are parameters; the text of an error is its
    constructor. A value is read as text, so an integer and the string of its digits are the
    same value, as in the source. *)
From S2P Require Import Prelude Bytes Text.
Open Scope string_scope.
Open Scope list_scope.
Open Scope Z_scope.

(** How a zone reaches the network; [Loopback] is the source's [None]. *)
Inductive NetworkMode := Loopback | Routed | Nic.
#[global] Instance NetworkMode_eq_dec : EqDecision NetworkMode.
Proof. solve_decision. Defined.

Inductive StorageMode := Encrypted | Ephemeral | Persistent.
#[global] Instance StorageMode_eq_dec : EqDecision StorageMode.
Proof. solve_decision. Defined.

Record Zone := mkZone {
  z_name : string;
  z_description : string;
  z_network : NetworkMode;
  z_nic : option string;
  z_local : bool;
  z_storage : StorageMode;
  z_volume : option string;
  z_seccomp : option string;
  z_landlock : option string;
  z_size : option string;
  z_memory_max : option string;
  z_pids_max : option Z;
  z_cpu_max : option string;
  z_io_max : option string;
  z_border_color : string;
  z_border_pattern : option string;
  z_glyph : option string;
  z_label : option string;
  z_uid_base : option Z;
  z_transfer_to : list string;
  z_transfer_max : option Z;
  z_images : list string;
  z_sound : bool;
  z_removable : bool;
  z_camera : bool;
  z_hold_awake : bool;
}.

Definition IDENTITY_MIN : Z := 131072.
Definition IDENTITY_STRIDE : Z := 65536.
(** broker.rs's cap on one transfer. *)
Definition TRANSFER_MAX : Z := Z.shiftl 1 30.

(** The messages of [ZoneError::Syntax], by what they say. *)
Inductive SyntaxMsg :=
| UnterminatedHeader
| NestedTables
| ExpectedKeyValue
| ArraysUnsupported
| UnterminatedString
| UnquotedValue (value : string)
| DuplicateKey (key : string).

(** The messages of [ZoneError::Invalid]. *)
Inductive InvalidMsg :=
| UnknownKey (key : string)
| IoMaxWithoutVolume (zone : string)
| EphemeralWithoutSize (zone : string)
| SizeOverMemory (zone size memory : string)
| SizeOfVolume (zone : string)
| SizeNotInForce (zone : string)
| NicOnlyForNic (zone : string)
| LocalOnlyForRouted (zone : string)
| NicPlaysNoSound (zone : string)
| NicGetsNoStick (zone : string)
| NicGetsNoCamera (zone : string)
| NicDrawsNoWindow (zone : string)
| TransferToItself (zone : string)
| TransferTwice (zone target : string)
| ImageTwice (zone image : string)
| EmptyName
| NameNotLowercase (zone : string)
| NameTooLong (zone : string)
| EncryptedWithoutVolume (zone : string)
| VolumeOfPersistent (zone volume : string)
| NotAColour (zone colour : string)
| NotAPattern (zone pattern : string)
| NotAGlyph (zone glyph : string)
| NotALabel (zone label : string)
| FileNamedOtherwise (path zone : string)
| TransferToNoZone (zone target : string)
| TransferToNic (zone target : string)
| NoNicZone
| SeveralNicZones (zones : list string)
| DuplicateName (zone : string)
| SharedUidBase (prev zone : string) (base : Z)
| SharedColour (prev zone colour : string).

Inductive ZoneError :=
| ZoneIo (msg : string)
| Syntax (line : Z) (msg : SyntaxMsg)
| Missing (key : string)
| BadValue (field value expected : string)
| Invalid (msg : InvalidMsg).

Definition NetworkMode_parse (s : string) : result NetworkMode ZoneError :=
  if String.eqb s "none" then Ok Loopback
  else if String.eqb s "routed" then Ok Routed
  else if String.eqb s "nic" then Ok Nic
  else Err (BadValue "network.mode" s "none | routed | nic").

Definition StorageMode_parse (s : string) : result StorageMode ZoneError :=
  if String.eqb s "encrypted" then Ok Encrypted
  else if String.eqb s "ephemeral" then Ok Ephemeral
  else if String.eqb s "persistent" then Ok Persistent
  else Err (BadValue "storage.mode" s "encrypted | ephemeral | persistent").

Definition KNOWN_KEYS : list string := [
  "zone.name"; "zone.description";
  "network.mode"; "network.nic"; "network.local";
  "storage.mode"; "storage.volume"; "storage.size"; "storage.removable";
  "policy.seccomp"; "policy.landlock";
  "limits.memory_max"; "limits.pids_max"; "limits.cpu_max"; "limits.io_max";
  "identity.uid_base";
  "transfer.to"; "transfer.max_bytes";
  "software.images";
  "sound.play";
  "camera.use";
  "desktop.hold_awake";
  "ui.border_color"; "ui.border_pattern"; "ui.glyph"; "ui.label"].

(** ** Quantities *)
Definition parse_cpu_max (s : string) : option Z :=
  digits ← strip_suffix 37 (octets s);
  if bool_decide (digits = []) || negb (forallb is_digit digits) then None
  else n ← parse_u32 digits; if 0 <? n then Some n else None.

(** The digits and the shift of their unit. *)
Definition size_unit (cs : list Z) : option (list Z * Z) :=
  match reverse cs with
  | [] => None
  | c :: r =>
    if (c =? 75) || (c =? 107) then Some (reverse r, 10)
    else if (c =? 77) || (c =? 109) then Some (reverse r, 20)
    else if (c =? 71) || (c =? 103) then Some (reverse r, 30)
    else if (c =? 84) || (c =? 116) then Some (reverse r, 40)
    else Some (cs, 0)
  end.

Definition parse_size (s : string) : option Z :=
  '(digits, shift) ← size_unit (octets s);
  if bool_decide (digits = []) || negb (forallb is_digit digits) then None
  else
    n ← parse_u64 digits;
    if 0 <? n then
      let v := n * Z.shiftl 1 shift in if v <=? U64_MAX then Some v else None
    else None.

(** ** Flat TOML *)

(** [strip_comment]: up to a [#] outside quotes. *)
Fixpoint strip_comment_from (in_string : bool) (cs : list Z) : list Z :=
  match cs with
  | [] => []
  | c :: cs =>
    if c =? 34 then c :: strip_comment_from (negb in_string) cs
    else if (c =? 35) && negb in_string then []
    else c :: strip_comment_from in_string cs
  end.
Definition strip_comment (line : list Z) : list Z := strip_comment_from false line.

(** The text of a value: what is between its quotes, or digits, [true] and [false]. *)
Definition toml_value (lineno : Z) (value : list Z) : result (list Z) ZoneError :=
  match value with
  | 34 :: inner => ok_or (strip_suffix 34 inner) (Syntax lineno UnterminatedString)
  | _ =>
    if negb (forallb is_digit value) && negb (String.eqb (of_chars value) "true")
       && negb (String.eqb (of_chars value) "false")
    then Err (Syntax lineno (UnquotedValue (of_chars value)))
    else Ok value
  end.

Definition full_key (section key : string) : string :=
  if String.eqb section "" then key else section +:+ "." +:+ key.

Abbreviation table := (gmap string string).

(** One line: the table and the section it leaves. *)
Definition toml_line (lineno : Z) (raw : list Z) (st : table * string)
    : result (table * string) ZoneError :=
  let '(out, section) := st in
  let line := trim (strip_comment raw) in
  (match line with
   | [] => Ok (out, section)
   | 91 :: rest =>
     let? name := ok_or (strip_suffix 93 rest) (Syntax lineno UnterminatedHeader) in
     if existsb (Z.eqb 91) name || existsb (Z.eqb 46) name then Err (Syntax lineno NestedTables)
     else Ok (out, of_chars (trim name))
   | _ =>
     let? (key, value) := ok_or (split_once 61 line) (Syntax lineno ExpectedKeyValue) in
     let key := trim key in
     let value := trim value in
     if bool_decide (head value = Some 91) then Err (Syntax lineno ArraysUnsupported)
     else
       let? v := toml_value lineno value in
       let full := full_key section (of_chars key) in
       match out !! full with
       | Some _ => Err (Syntax lineno (DuplicateKey full))
       | None => Ok (<[full := of_chars v]> out, section)
       end
   end)%result.

Fixpoint toml_lines (lineno : Z) (ls : list (list Z)) (st : table * string)
    : result (table * string) ZoneError :=
  match ls with
  | [] => Ok st
  | raw :: ls => (let? st := toml_line lineno raw st in toml_lines (lineno + 1) ls st)%result
  end.

Definition parse_flat_toml (text : string) : result table ZoneError :=
  (let? (out, _) := toml_lines 1 (lines (chars text)) (∅, "") in Ok out)%result.

(** ** One zone *)
Section from_str.
Context (kv : table).

Definition need (k : string) : result string ZoneError := ok_or (kv !! k) (Missing k).

(** The keys no zone file may contain; the map's order is unspecified. *)
Definition unknown_keys : list string :=
  List.filter (fun k => negb (bool_decide (k ∈ KNOWN_KEYS))) ((map_to_list kv).*1).
Definition check_keys : result unit ZoneError :=
  match unknown_keys with k :: _ => Err (Invalid (UnknownKey k)) | [] => Ok tt end.

Definition read_pids_max : result (option Z) ZoneError :=
  match kv !! "limits.pids_max" with
  | None => Ok None
  | Some v =>
    match parse_u32 (chars v) with
    | Some n => if 0 <? n then Ok (Some n)
                else Err (BadValue "limits.pids_max" v "a positive integer")
    | None => Err (BadValue "limits.pids_max" v "a positive integer")
    end
  end.

Definition check_memory_max : result unit ZoneError :=
  match kv !! "limits.memory_max" with
  | Some v => if bool_decide (parse_size v = None)
              then Err (BadValue "limits.memory_max" v "a size such as 512M or 2G") else Ok tt
  | None => Ok tt
  end.

Definition check_cpu_max : result unit ZoneError :=
  match kv !! "limits.cpu_max" with
  | Some v => if bool_decide (parse_cpu_max v = None)
              then Err (BadValue "limits.cpu_max" v "a percentage of one CPU such as 50% or 200%")
              else Ok tt
  | None => Ok tt
  end.

Definition check_io_max (name : string) (storage : StorageMode) : result unit ZoneError :=
  match kv !! "limits.io_max" with
  | Some v =>
    if bool_decide (parse_size v = None)
    then Err (BadValue "limits.io_max" v "bytes per second such as 20M")
    else if bool_decide (storage <> Encrypted) then Err (Invalid (IoMaxWithoutVolume name))
    else Ok tt
  | None => Ok tt
  end.

Definition check_storage_size (name : string) (storage : StorageMode) : result unit ZoneError :=
  match storage, kv !! "storage.size" with
  | Ephemeral, None => Err (Invalid (EphemeralWithoutSize name))
  | Ephemeral, Some v =>
    match parse_size v with
    | None => Err (BadValue "storage.size" v "a size such as 512M or 2G")
    | Some sz =>
      match kv !! "limits.memory_max" with
      | Some m =>
        match parse_size m with
        | Some mm => if mm <? sz then Err (Invalid (SizeOverMemory name v m)) else Ok tt
        | None => Ok tt
        end
      | None => Ok tt
      end
    end
  | Encrypted, Some _ => Err (Invalid (SizeOfVolume name))
  | Persistent, Some _ => Err (Invalid (SizeNotInForce name))
  | _, None => Ok tt
  end.

Definition read_uid_base : result (option Z) ZoneError :=
  match kv !! "identity.uid_base" with
  | None => Ok None
  | Some v =>
    match parse_u32 (chars v) with
    | None => Err (BadValue "identity.uid_base" v "an unsigned integer")
    | Some n =>
      if (n <? IDENTITY_MIN) || negb (n mod IDENTITY_STRIDE =? 0)
         || (U32_MAX <? n + (IDENTITY_STRIDE - 1))
      then Err (BadValue "identity.uid_base" v
                  "a multiple of 65536, at least 131072, with room for a 65536-wide range")
      else Ok (Some n)
    end
  end.

(** The kernel's rule for an interface's name, kept to printable ASCII. *)
Definition nic_name_ok (n : string) : bool :=
  negb (String.eqb n "") && (str_len n <=? 15) && negb (String.eqb n ".") && negb (String.eqb n "..")
  && forallb (fun b => is_graphic b && negb (b =? 47) && negb (b =? 58)) (octets n).

Definition check_nic (name : string) (network : NetworkMode) : result unit ZoneError :=
  match kv !! "network.nic" with
  | None => Ok tt
  | Some n =>
    if negb (nic_name_ok n)
    then Err (BadValue "network.nic" n
                "an interface name of at most 15 characters, or * for every physical interface")
    else if bool_decide (network <> Nic) then Err (Invalid (NicOnlyForNic name))
    else Ok tt
  end.

Definition read_local (name : string) (network : NetworkMode) : result bool ZoneError :=
  match kv !! "network.local" with
  | None => Ok false
  | Some v =>
    if bool_decide (network <> Routed) then Err (Invalid (LocalOnlyForRouted name))
    else if String.eqb v "true" then Ok true
    else if String.eqb v "false" then Ok false
    else Err (BadValue "network.local" v "true or false")
  end.

(** A device every zone has unless its file says no, and the nic zone never. *)
Definition read_granted (key : string) (refusal : InvalidMsg) (network : NetworkMode)
    : result bool ZoneError :=
  match kv !! key with
  | None => Ok (bool_decide (network <> Nic))
  | Some v =>
    if String.eqb v "false" then Ok false
    else if String.eqb v "true" then
      if bool_decide (network = Nic) then Err (Invalid refusal) else Ok true
    else Err (BadValue key v "true or false")
  end.
Definition read_sound (name : string) : NetworkMode -> result bool ZoneError :=
  read_granted "sound.play" (NicPlaysNoSound name).
Definition read_removable (name : string) : NetworkMode -> result bool ZoneError :=
  read_granted "storage.removable" (NicGetsNoStick name).
Definition read_camera (name : string) : NetworkMode -> result bool ZoneError :=
  read_granted "camera.use" (NicGetsNoCamera name).

Definition read_hold_awake (name : string) (network : NetworkMode) : result bool ZoneError :=
  match kv !! "desktop.hold_awake" with
  | None => Ok false
  | Some v =>
    if String.eqb v "false" then Ok false
    else if String.eqb v "true" then
      if bool_decide (network = Nic) then Err (Invalid (NicDrawsNoWindow name)) else Ok true
    else Err (BadValue "desktop.hold_awake" v "true or false")
  end.

(** A character of a zone's or an image's name. *)
Definition name_char (c : Z) : bool := is_lower c || is_digit c || (c =? 45).

Fixpoint transfer_names (name v : string) (out : list string) (ws : list (list Z))
    : result (list string) ZoneError :=
  match ws with
  | [] => Ok out
  | w :: ws =>
    let n := of_chars w in
    if negb (forallb name_char w) then Err (BadValue "transfer.to" v "space-separated zone names")
    else if String.eqb n name then Err (Invalid (TransferToItself name))
    else if existsb (String.eqb n) out then Err (Invalid (TransferTwice name n))
    else transfer_names name v (out ++ [n]) ws
  end.
Definition read_transfer_to (name : string) : result (list string) ZoneError :=
  match kv !! "transfer.to" with
  | None => Ok []
  | Some v =>
    (let? out := transfer_names name v [] (words (chars v)) in
     if bool_decide (out = [])
     then Err (BadValue "transfer.to" v "at least one zone name, or omit [transfer] to send nothing")
     else Ok out)%result
  end.

Definition read_transfer_max : result (option Z) ZoneError :=
  match kv !! "transfer.max_bytes" with
  | None => Ok None
  | Some v =>
    let bad := Err (BadValue "transfer.max_bytes" v "a whole number of bytes from 1 to 1073741824") in
    match parse_u64 (chars v) with
    | Some n => if between 1 TRANSFER_MAX n && forallb is_digit (octets v) then Ok (Some n) else bad
    | None => bad
    end
  end.

(** images.rs's [valid_name]. *)
Definition valid_name (s : string) : bool :=
  between 1 32 (str_len s) && forallb name_char (octets s).

Fixpoint image_names (name v : string) (out : list string) (ws : list (list Z))
    : result (list string) ZoneError :=
  match ws with
  | [] => Ok out
  | w :: ws =>
    let n := of_chars w in
    if negb (valid_name n) then Err (BadValue "software.images" v "space-separated image names")
    else if existsb (String.eqb n) out then Err (Invalid (ImageTwice name n))
    else image_names name v (out ++ [n]) ws
  end.
Definition read_images (name : string) : result (list string) ZoneError :=
  match kv !! "software.images" with
  | None => Ok []
  | Some v =>
    (let? out := image_names name v [] (words (chars v)) in
     if bool_decide (out = [])
     then Err (BadValue "software.images" v "at least one image name, or omit [software]")
     else Ok out)%result
  end.
End from_str.

(** [to_ascii_lowercase] of a string. *)
Definition to_ascii_lowercase (s : string) : string :=
  str_of_bytes ((fun b => byte_of_Z (to_lower (Z_of_byte b))) <$> as_bytes s).

Definition is_hex_colour (s : string) : bool :=
  (str_len s =? 7) && String.prefix "#" s && forallb is_hexdigit (drop 1 (chars s)).

Definition PATTERNS : list string := ["solid"; "dashed"; "dotted"; "double"; "dash-dot"; "notched"].

Definition glyph_ok (g : string) : bool :=
  (zlen (chars g) =? 1) && negb (existsb (fun c => is_control c || is_whitespace c) (chars g)).

Definition label_ok (l : string) : bool :=
  negb (String.eqb l "") && (str_len l <=? 12) && forallb (between 32 126) (chars l)
  && negb (bool_decide (head (chars l) = Some 32)) && negb (bool_decide (last (chars l) = Some 32)).

Definition validate (z : Zone) : result unit ZoneError :=
  let bad m := Err (Invalid m) in
  let some_not ok (o : option string) := match o with Some x => negb (ok x) | None => false end in
  if String.eqb (z_name z) "" then bad EmptyName
  else if negb (forallb name_char (chars (z_name z))) then bad (NameNotLowercase (z_name z))
  else if 12 <? str_len (z_name z) then bad (NameTooLong (z_name z))
  else if bool_decide (z_storage z = Encrypted) && bool_decide (z_volume z = None)
  then bad (EncryptedWithoutVolume (z_name z))
  else if bool_decide (z_storage z = Persistent) && negb (bool_decide (z_volume z = None))
  then bad (VolumeOfPersistent (z_name z) (default "" (z_volume z)))
  else if negb (is_hex_colour (z_border_color z)) then bad (NotAColour (z_name z) (z_border_color z))
  else if some_not (fun p => bool_decide (p ∈ PATTERNS)) (z_border_pattern z)
  then bad (NotAPattern (z_name z) (default "" (z_border_pattern z)))
  else if some_not glyph_ok (z_glyph z) then bad (NotAGlyph (z_name z) (default "" (z_glyph z)))
  else if some_not label_ok (z_label z) then bad (NotALabel (z_name z) (default "" (z_label z)))
  else Ok tt.

(** [Zone::from_str], its checks in their order. *)
Definition from_table (kv : table) : result Zone ZoneError :=
  (let? _ := check_keys kv in
   let? name := need kv "zone.name" in
   let? mode := need kv "network.mode" in
   let? network := NetworkMode_parse mode in
   let? mode := need kv "storage.mode" in
   let? storage := StorageMode_parse mode in
   let? pids_max := read_pids_max kv in
   let? _ := check_memory_max kv in
   let? _ := check_cpu_max kv in
   let? _ := check_io_max kv name storage in
   let? _ := check_storage_size kv name storage in
   let? uid_base := read_uid_base kv in
   let? _ := check_nic kv name network in
   let? local := read_local kv name network in
   let? sound := read_sound kv name network in
   let? removable := read_removable kv name network in
   let? camera := read_camera kv name network in
   let? hold_awake := read_hold_awake kv name network in
   let? transfer_to := read_transfer_to kv name in
   let? transfer_max := read_transfer_max kv in
   let? images := read_images kv name in
   let? border_color := need kv "ui.border_color" in
   let zone := {|
     z_nic := kv !! "network.nic";
     z_uid_base := uid_base;
     z_transfer_to := transfer_to;
     z_transfer_max := transfer_max;
     z_images := images;
     z_sound := sound;
     z_removable := removable;
     z_camera := camera;
     z_hold_awake := hold_awake;
     z_description := default "" (kv !! "zone.description");
     z_volume := kv !! "storage.volume";
     z_size := kv !! "storage.size";
     z_seccomp := kv !! "policy.seccomp";
     z_landlock := kv !! "policy.landlock";
     z_memory_max := kv !! "limits.memory_max";
     z_pids_max := pids_max;
     z_cpu_max := kv !! "limits.cpu_max";
     z_io_max := kv !! "limits.io_max";
     z_border_color := to_ascii_lowercase border_color;
     z_border_pattern := kv !! "ui.border_pattern";
     z_glyph := kv !! "ui.glyph";
     z_label := kv !! "ui.label";
     z_name := name;
     z_network := network;
     z_local := local;
     z_storage := storage |} in
   let? _ := validate zone in
   Ok zone)%result.
Definition from_str (text : string) : result Zone ZoneError :=
  (let? kv := parse_flat_toml text in from_table kv)%result.

(** [Zone::from_file]; [read] is [fs::read_to_string]: the text, or the error's message. *)
Definition from_file (read : string -> string + string) (path : string) : result Zone ZoneError :=
  match read path with
  | inl text => from_str text
  | inr err => Err (ZoneIo (path +:+ ": " +:+ err))
  end.

(** ** Every zone *)

(** [by_name]: the first zone of a name. *)
Definition zone_by_name (zones : list Zone) (n : string) : option Zone :=
  List.find (fun z => String.eqb (z_name z) n) zones.

Fixpoint check_targets (zones : list Zone) (name : string) (targets : list string)
    : result unit ZoneError :=
  match targets with
  | [] => Ok tt
  | d :: targets =>
    match zone_by_name zones d with
    | None => Err (Invalid (TransferToNoZone name d))
    | Some o => if bool_decide (z_network o = Nic) then Err (Invalid (TransferToNic name d))
                else check_targets zones name targets
    end
  end.

(** [for x in l { f(x)? }], without state. *)
Fixpoint check_each {A E} (f : A -> result unit E) (l : list A) : result unit E :=
  match l with
  | [] => Ok tt
  | x :: l => (let? _ := f x in check_each f l)%result
  end.

Definition check_transfers (zones : list Zone) : result unit ZoneError :=
  check_each (fun z => check_targets zones (z_name z) (z_transfer_to z)) zones.

Definition nic_zones (zones : list Zone) : list string :=
  z_name <$> List.filter (fun z => bool_decide (z_network z = Nic)) zones.

Definition check_nic_zones (zones : list Zone) : result unit ZoneError :=
  match nic_zones zones with
  | [_] => Ok tt
  | [] => if existsb (fun z => bool_decide (z_network z = Routed)) zones
          then Err (Invalid NoNicZone) else Ok tt
  | several => Err (Invalid (SeveralNicZones several))
  end.

Fixpoint check_names (seen : gset string) (zones : list Zone) : result unit ZoneError :=
  match zones with
  | [] => Ok tt
  | z :: zones => if bool_decide (z_name z ∈ seen) then Err (Invalid (DuplicateName (z_name z)))
                  else check_names ({[z_name z]} ∪ seen) zones
  end.

Fixpoint check_bases (bases : gmap Z string) (zones : list Zone) : result unit ZoneError :=
  match zones with
  | [] => Ok tt
  | z :: zones =>
    match z_uid_base z with
    | Some b =>
      match bases !! b with
      | Some prev => Err (Invalid (SharedUidBase prev (z_name z) b))
      | None => check_bases (<[b := z_name z]> bases) zones
      end
    | None => check_bases bases zones
    end
  end.

Fixpoint check_colours (colours : gmap string string) (zones : list Zone) : result unit ZoneError :=
  match zones with
  | [] => Ok tt
  | z :: zones =>
    match colours !! z_border_color z with
    | Some prev => Err (Invalid (SharedColour prev (z_name z) (z_border_color z)))
    | None => check_colours (<[z_border_color z := z_name z]> colours) zones
    end
  end.

Definition check_invariants (zones : list Zone) : result unit ZoneError :=
  (let? _ := check_transfers zones in
   let? _ := check_nic_zones zones in
   let? _ := check_names ∅ zones in
   let? _ := check_bases ∅ zones in
   check_colours ∅ zones)%result.

(** A file's name cut at its last dot, as [Path] does: none before the dot of a hidden file. *)
Definition cut_at_dot (file : bytes) : option bytes * option bytes :=
  match split_once 46 (Z_of_byte <$> reverse file) with
  | None => (None, Some file)
  | Some (after, before) =>
    let after := take (length after) (reverse file) in
    let before := drop (S (length after)) (reverse file) in
    if bool_decide (before = []) then (Some file, None)
    else (Some (reverse before), Some (reverse after))
  end.
(** [Path::file_stem] and [Path::extension], as text. *)
Definition file_stem (file : bytes) : option string :=
  let '(before, after) := cut_at_dot file in
  stem ← match before with Some b => Some b | None => after end; from_utf8 stem.
Definition extension (file : bytes) : option string :=
  match cut_at_dot file with
  | (Some _, Some after) => from_utf8 after
  | _ => None
  end.

(** An entry of the directory: its file's name, and what reading it gives. *)
Record Entry := { e_file : bytes; e_path : string; e_read : string + string }.

(** [sort_by] by name, which is stable. *)
Fixpoint insert_zone (z : Zone) (l : list Zone) : list Zone :=
  match l with
  | [] => [z]
  | y :: l => if String.leb (z_name z) (z_name y) then z :: y :: l else y :: insert_zone z l
  end.
Definition sort_zones (l : list Zone) : list Zone := foldr insert_zone [] l.

(** The loop over the directory. An entry may fail to be read. *)
Fixpoint load_entries (es : list (Entry + string)) : result (list Zone) ZoneError :=
  match es with
  | [] => Ok []
  | inr err :: _ => Err (ZoneIo err)
  | inl e :: es =>
    if negb (bool_decide (extension (e_file e) = Some "toml")) then load_entries es
    else
      (let? zone := from_file (fun _ => e_read e) (e_path e) in
       if negb (bool_decide (file_stem (e_file e) = Some (z_name zone)))
       then Err (Invalid (FileNamedOtherwise (e_path e) (z_name zone)))
       else let? zones := load_entries es in Ok (zone :: zones))%result
  end.

(** [load_all]; [entries] is [fs::read_dir]'s answer. *)
Definition load_all (dir : string) (entries : list (Entry + string) + string)
    : result (list Zone) ZoneError :=
  match entries with
  | inr err => Err (ZoneIo (dir +:+ ": " +:+ err))
  | inl es =>
    (let? zones := load_entries es in
     let zones := sort_zones zones in
     let? _ := check_invariants zones in
     Ok zones)%result
  end.
