(* ===== verification/ZoneSafe.v ===== *)
(** * What a zone file can define

    The invariant of every zone [from_str] accepts, the invariant of every set of zones
    [check_invariants] accepts, with its converse, and what [load_all] returns. *)
From Stdlib Require Import Sorted.
From S2P Require Import Prelude Bytes Text Zone.
Open Scope string_scope.
Open Scope list_scope.
Open Scope Z_scope.

(** ** Integers read *)
Lemma parse_size_range s v : parse_size s = Some v -> 0 < v <= U64_MAX.
Proof.
  unfold parse_size. destruct (size_unit _) as [[ds sh]|] eqn:Hu; [cbn|done].
  destruct (_ || _); [done|]. destruct (parse_u64 ds) as [n|] eqn:Hn; [cbn|done].
  destruct (Z.ltb_spec 0 n); [|done]. destruct (Z.leb_spec (n * Z.shiftl 1 sh) U64_MAX); [|done].
  intros E. injection E as <-. split; [|lia].
  apply Z.mul_pos_pos; [lia|]. rewrite Z.shiftl_1_l. apply Z.pow_pos_nonneg; [lia|].
  unfold size_unit in Hu. repeat case_match; simplify_eq; lia.
Qed.

(** ** One zone *)
Definition storage_wf (z : Zone) : Prop :=
  match z_storage z with
  | Encrypted => is_Some (z_volume z) /\ z_size z = None
  | Ephemeral =>
    z_io_max z = None /\
    exists v n, z_size z = Some v /\ parse_size v = Some n /\
      forall m k, z_memory_max z = Some m -> parse_size m = Some k -> n <= k
  | Persistent => z_volume z = None /\ z_size z = None /\ z_io_max z = None
  end.

Record zone_wf (z : Zone) : Prop := {
  wf_name : z_name z <> "" /\ forallb name_char (chars (z_name z)) = true /\ str_len (z_name z) <= 12;
  wf_powers : z_network z = Nic ->
    z_sound z = false /\ z_removable z = false /\ z_camera z = false /\ z_hold_awake z = false;
  wf_nic : forall n, z_nic z = Some n -> z_network z = Nic /\ nic_name_ok n = true;
  wf_local : z_local z = true -> z_network z = Routed;
  wf_storage : storage_wf z;
  wf_pids : forall n, z_pids_max z = Some n -> 0 < n <= U32_MAX;
  wf_memory : forall v, z_memory_max z = Some v -> is_Some (parse_size v);
  wf_cpu : forall v, z_cpu_max z = Some v -> is_Some (parse_cpu_max v);
  wf_io : forall v, z_io_max z = Some v -> is_Some (parse_size v);
  wf_uid : forall b, z_uid_base z = Some b ->
    IDENTITY_MIN <= b /\ (IDENTITY_STRIDE | b) /\ b + (IDENTITY_STRIDE - 1) <= U32_MAX;
  wf_transfer : NoDup (z_transfer_to z) /\ z_name z ∉ z_transfer_to z;
  wf_transfer_max : forall n, z_transfer_max z = Some n -> 1 <= n <= TRANSFER_MAX;
  wf_images : NoDup (z_images z) /\ Forall (fun n => valid_name n = true) (z_images z);
  wf_colour : is_hex_colour (z_border_color z) = true /\
    to_ascii_lowercase (z_border_color z) = z_border_color z;
  wf_pattern : forall p, z_border_pattern z = Some p -> p ∈ PATTERNS;
  wf_glyph : forall g, z_glyph z = Some g -> glyph_ok g = true;
  wf_label : forall l, z_label z = Some l -> label_ok l = true;
}.

Section readers.
Context (kv : table).

Lemma read_pids_max_ok o n : read_pids_max kv = Ok o -> o = Some n -> 0 < n <= U32_MAX.
Proof.
  unfold read_pids_max. intros H ->. destruct (kv !! _) as [v|]; [|done].
  destruct (parse_u32 _) as [m|] eqn:Hm; [|done]. destruct (Z.ltb_spec 0 m); [|done].
  injection H as <-. apply parse_unsigned_range in Hm. lia.
Qed.

Lemma check_memory_max_ok : check_memory_max kv = Ok tt ->
  forall v, kv !! "limits.memory_max" = Some v -> is_Some (parse_size v).
Proof.
  unfold check_memory_max. intros H v Hv. rewrite Hv in H. case_bool_decide; [done|].
  by apply not_eq_None_Some.
Qed.

Lemma check_cpu_max_ok : check_cpu_max kv = Ok tt ->
  forall v, kv !! "limits.cpu_max" = Some v -> is_Some (parse_cpu_max v).
Proof.
  unfold check_cpu_max. intros H v Hv. rewrite Hv in H. case_bool_decide; [done|].
  by apply not_eq_None_Some.
Qed.

Lemma check_io_max_ok name st : check_io_max kv name st = Ok tt ->
  forall v, kv !! "limits.io_max" = Some v -> is_Some (parse_size v) /\ st = Encrypted.
Proof.
  unfold check_io_max. intros H v Hv. rewrite Hv in H. case_bool_decide; [done|].
  split; [by apply not_eq_None_Some|by destruct st].
Qed.

Lemma read_uid_base_ok o b : read_uid_base kv = Ok o -> o = Some b ->
  IDENTITY_MIN <= b /\ (IDENTITY_STRIDE | b) /\ b + (IDENTITY_STRIDE - 1) <= U32_MAX.
Proof.
  unfold read_uid_base. intros H ->. destruct (kv !! _) as [v|]; [|done].
  destruct (parse_u32 _) as [n|]; [|done]. destruct (_ || _) eqn:Hc; [done|]. injection H as <-.
  apply orb_false_iff in Hc as [[H1 H2]%orb_false_iff H3].
  apply negb_false_iff in H2. split_and!; [lia| |lia].
  apply Z.mod_divide; [done|lia].
Qed.

Lemma check_nic_ok name net : check_nic kv name net = Ok tt ->
  forall n, kv !! "network.nic" = Some n -> net = Nic /\ nic_name_ok n = true.
Proof.
  unfold check_nic. intros H n Hn. rewrite Hn in H. destruct (nic_name_ok n); [|done]. cbn in H.
  by destruct net.
Qed.

Lemma read_local_ok name net : read_local kv name net = Ok true -> net = Routed.
Proof.
  unfold read_local. destruct (kv !! _) as [v|]; [|done].
  by destruct net.
Qed.

Lemma read_granted_nic key why b : read_granted kv key why Nic = Ok b -> b = false.
Proof.
  unfold read_granted. destruct (kv !! key) as [v|]; [|by intros [= <-]].
  destruct (String.eqb v "false"); [by intros [= <-]|]. by destruct (String.eqb v "true").
Qed.

Lemma read_hold_awake_nic name b : read_hold_awake kv name Nic = Ok b -> b = false.
Proof.
  unfold read_hold_awake. destruct (kv !! _) as [v|]; [|by intros [= <-]].
  destruct (String.eqb v "false"); [by intros [= <-]|]. by destruct (String.eqb v "true").
Qed.

Lemma existsb_eqb n l : existsb (String.eqb n) l = false -> n ∉ l.
Proof.
  intros H Hin. apply not_true_iff_false in H. apply H, existsb_exists.
  exists n. split; [by apply list_elem_of_In|]. apply String.eqb_refl.
Qed.

Lemma transfer_names_ok name v out ws l :
  NoDup out /\ name ∉ out -> transfer_names name v out ws = Ok l -> NoDup l /\ name ∉ l.
Proof.
  revert out. induction ws as [|w ws IH]; intros out [H1 H2] H; simpl in H; [by injection H as <-|].
  destruct (forallb name_char w); [|done]. cbn in H.
  destruct (String.eqb_spec (of_chars w) name); [done|].
  destruct (existsb _ out) eqn:Ho; [done|]. apply existsb_eqb in Ho.
  apply IH in H; [done|]. split; [by apply NoDup_snoc|]. set_solver.
Qed.

Lemma read_transfer_to_ok name l : read_transfer_to kv name = Ok l -> NoDup l /\ name ∉ l.
Proof.
  unfold read_transfer_to. destruct (kv !! _) as [v|]; intros H; bind_inv.
  - case_bool_decide; [done|]. injection H as <-. eapply transfer_names_ok; [|done].
    split; [constructor|set_solver].
  - injection H as <-. split; [constructor|set_solver].
Qed.

Lemma read_transfer_max_ok o n : read_transfer_max kv = Ok o -> o = Some n -> 1 <= n <= TRANSFER_MAX.
Proof.
  unfold read_transfer_max. intros H ->. destruct (kv !! _) as [v|]; [|done].
  destruct (parse_u64 _) as [m|]; [|done]. destruct (between _ _ m) eqn:Hb; [|done]. cbn in H.
  destruct (forallb _ _); [|done]. injection H as <-. unfold between in Hb. lia.
Qed.

Lemma image_names_ok name v out ws l :
  NoDup out /\ Forall (fun n => valid_name n = true) out -> image_names name v out ws = Ok l ->
  NoDup l /\ Forall (fun n => valid_name n = true) l.
Proof.
  revert out. induction ws as [|w ws IH]; intros out [H1 H2] H; simpl in H; [by injection H as <-|].
  destruct (valid_name _) eqn:Hv; [|done]. cbn in H.
  destruct (existsb _ out) eqn:Ho; [done|]. apply existsb_eqb in Ho.
  apply IH in H; [done|]. split; [by apply NoDup_snoc|].
  apply Forall_app. split; [done|]. by apply Forall_singleton.
Qed.

Lemma read_images_ok name l : read_images kv name = Ok l ->
  NoDup l /\ Forall (fun n => valid_name n = true) l.
Proof.
  unfold read_images. destruct (kv !! _) as [v|]; intros H; bind_inv.
  - case_bool_decide; [done|]. injection H as <-. eapply image_names_ok; [|done].
    split; constructor.
  - injection H as <-. split; constructor.
Qed.

Lemma check_storage_size_ok name st : check_storage_size kv name st = Ok tt ->
  match st with
  | Ephemeral => exists v n, kv !! "storage.size" = Some v /\ parse_size v = Some n /\
      forall m k, kv !! "limits.memory_max" = Some m -> parse_size m = Some k -> n <= k
  | _ => kv !! "storage.size" = None
  end.
Proof.
  unfold check_storage_size. intros H.
  destruct st, (kv !! "storage.size") as [v|]; try done.
  destruct (parse_size v) as [n|] eqn:Hn; [|done]. exists v, n. split_and!; [done..|].
  intros m k Hm Hk. rewrite Hm, Hk in H. destruct (Z.ltb_spec k n); [done|lia].
Qed.
End readers.

Lemma Z_of_byte_lower b : Z_of_byte (byte_of_Z (to_lower (Z_of_byte b))) = to_lower (Z_of_byte b).
Proof.
  rewrite Z_of_byte_of_Z. apply Z.mod_small. pose proof (Z_of_byte_range b).
  unfold to_lower, between. case_match; lia.
Qed.

Lemma to_lower_idem c : to_lower (to_lower c) = to_lower c.
Proof. unfold to_lower, between. repeat case_match; lia. Qed.

Lemma to_ascii_lowercase_idem s : to_ascii_lowercase (to_ascii_lowercase s) = to_ascii_lowercase s.
Proof.
  unfold to_ascii_lowercase. rewrite as_bytes_of_bytes, <-list_fmap_compose. f_equal.
  apply list_fmap_ext. intros i b _. cbn. by rewrite Z_of_byte_lower, to_lower_idem.
Qed.

(** What the last checks of a zone leave. *)
Lemma validate_ok z : validate z = Ok tt ->
  (z_name z <> "" /\ forallb name_char (chars (z_name z)) = true /\ str_len (z_name z) <= 12) /\
  (z_storage z = Encrypted -> is_Some (z_volume z)) /\
  (z_storage z = Persistent -> z_volume z = None) /\
  is_hex_colour (z_border_color z) = true /\
  (forall p, z_border_pattern z = Some p -> p ∈ PATTERNS) /\
  (forall g, z_glyph z = Some g -> glyph_ok g = true) /\
  (forall l, z_label z = Some l -> label_ok l = true).
Proof.
  unfold validate. intros H.
  destruct (String.eqb_spec (z_name z) ""); [done|].
  destruct (forallb name_char _); [|done]. destruct (Z.ltb_spec 12 (str_len (z_name z))); [done|].
  destruct (_ && _) eqn:Hv; [done|]. destruct (bool_decide (z_storage z = Persistent) && _) eqn:Hp; [done|].
  destruct (is_hex_colour _); [|done]. cbn [negb] in H.
  destruct (match z_border_pattern z with Some _ => _ | None => _ end) eqn:Hb; [done|].
  destruct (match z_glyph z with Some _ => _ | None => _ end) eqn:Hg; [done|].
  destruct (match z_label z with Some _ => _ | None => _ end) eqn:Hl; [done|].
  split_and!; try done.
  - intros E. rewrite E in Hv. by destruct (z_volume z).
  - intros E. rewrite E in Hp. by destruct (z_volume z).
  - intros p E. rewrite E in Hb. by apply negb_false_iff, bool_decide_eq_true in Hb.
  - intros g E. rewrite E in Hg. by apply negb_false_iff in Hg.
  - intros l E. rewrite E in Hl. by apply negb_false_iff in Hl.
Qed.

Lemma from_table_wf kv z : from_table kv = Ok z -> zone_wf z.
Proof.
  unfold from_table. intros H. bind_inv. injection H as <-.
  match goal with Hv : validate _ = _ |- _ => apply validate_ok in Hv as (? & Hvol & ? & ? & ? & ? & ?) end.
  match goal with Hs : check_storage_size _ _ _ = _ |- _ => apply check_storage_size_ok in Hs as Hst end.
  match goal with Hi : check_io_max _ _ _ = _ |- _ => pose proof (check_io_max_ok _ _ _ Hi) as Hio end.
  split; cbn in *; try done.
  - intros ->. split_and!; by first [eapply read_granted_nic | eapply read_hold_awake_nic].
  - by eapply check_nic_ok.
  - intros ->. by eapply read_local_ok.
  - unfold storage_wf. cbn.
    match goal with |- context [match ?st with Encrypted => _ | Ephemeral => _ | Persistent => _ end] =>
      destruct st; [auto| |] end.
    + split; [|done]. destruct (kv !! "limits.io_max") as [v|]; [|done].
      by destruct (Hio v eq_refl).
    + split_and!; [auto|done|]. destruct (kv !! "limits.io_max") as [v|]; [|done].
      by destruct (Hio v eq_refl).
  - intros n. by apply read_pids_max_ok with kv.
  - by apply check_memory_max_ok.
  - by apply check_cpu_max_ok.
  - intros v Hv. apply (Hio v Hv).
  - intros b. by apply read_uid_base_ok with kv.
  - by eapply read_transfer_to_ok.
  - intros n. by apply read_transfer_max_ok with kv.
  - by eapply read_images_ok.
  - split; [done|]. apply to_ascii_lowercase_idem.
Qed.

Lemma from_str_wf text z : from_str text = Ok z -> zone_wf z.
Proof. unfold from_str. intros H. bind_inv. by eapply from_table_wf. Qed.

(** ** Every zone

    What the zones of a system are to one another. *)
Record zone_set (zs : list Zone) : Prop := {
  set_targets : forall z d, z ∈ zs -> d ∈ z_transfer_to z ->
    exists o, o ∈ zs /\ z_name o = d /\ z_network o <> Nic;
  set_nic : zlen (nic_zones zs) <= 1;
  set_routed : forall z, z ∈ zs -> z_network z = Routed -> zlen (nic_zones zs) = 1;
  set_names : NoDup (z_name <$> zs);
  set_bases : NoDup (omap z_uid_base zs);
  set_colours : NoDup (z_border_color <$> zs);
}.

Lemma check_each_Ok {A E} (f : A -> result unit E) l :
  check_each f l = Ok tt <-> Forall (fun x => f x = Ok tt) l.
Proof.
  induction l as [|x l IH]; simpl; [split; [constructor|done]|].
  rewrite Forall_cons, <-IH. destruct (f x) as [[]|]; naive_solver.
Qed.

Lemma check_targets_Ok zs name ds :
  check_targets zs name ds = Ok tt <->
  Forall (fun d => exists o, zone_by_name zs d = Some o /\ z_network o <> Nic) ds.
Proof.
  induction ds as [|d ds IH]; simpl; [split; [constructor|done]|]. rewrite Forall_cons, <-IH.
  destruct (zone_by_name zs d) as [o|]; [|naive_solver]. case_bool_decide; naive_solver.
Qed.

Lemma zone_by_name_Some zs d o : zone_by_name zs d = Some o -> o ∈ zs /\ z_name o = d.
Proof.
  intros [Hin E%String.eqb_eq]%List.find_some. by rewrite <-list_elem_of_In in Hin.
Qed.

Lemma zone_by_name_elem zs o : NoDup (z_name <$> zs) -> o ∈ zs -> zone_by_name zs (z_name o) = Some o.
Proof.
  unfold zone_by_name. induction zs as [|z zs IH]; intros Hn Ho; [by apply not_elem_of_nil in Ho|].
  rewrite fmap_cons in Hn. apply NoDup_cons in Hn as [Hz Hn]. simpl.
  apply elem_of_cons in Ho as [->|Ho]; [by rewrite String.eqb_refl|].
  destruct (String.eqb_spec (z_name z) (z_name o)) as [E|_]; [|by apply IH].
  exfalso. apply Hz. rewrite E. by apply list_elem_of_fmap_2.
Qed.

Lemma check_transfers_Ok zs : check_transfers zs = Ok tt <->
  forall z d, z ∈ zs -> d ∈ z_transfer_to z -> exists o, zone_by_name zs d = Some o /\ z_network o <> Nic.
Proof.
  unfold check_transfers. rewrite check_each_Ok, Forall_forall.
  setoid_rewrite check_targets_Ok. setoid_rewrite Forall_forall. naive_solver.
Qed.

Lemma check_nic_zones_Ok zs : check_nic_zones zs = Ok tt <->
  zlen (nic_zones zs) <= 1 /\ (forall z, z ∈ zs -> z_network z = Routed -> zlen (nic_zones zs) = 1).
Proof.
  unfold check_nic_zones. destruct (nic_zones zs) as [|a [|b l]].
  - destruct (existsb _ zs) eqn:Hr.
    + apply existsb_exists in Hr as (z & Hz & Hr). rewrite <-list_elem_of_In in Hz.
      apply bool_decide_eq_true in Hr. split; [done|]. intros [_ H]. by specialize (H z Hz Hr).
    + split; [|done]. intros _. split; [done|]. intros z Hz Hn. exfalso.
      apply not_true_iff_false in Hr. apply Hr, existsb_exists. exists z.
      split; [by apply list_elem_of_In|]. by apply bool_decide_eq_true.
  - done.
  - split; [done|]. rewrite !zlen_cons. pose proof (zlen_nonneg l). lia.
Qed.

Lemma check_names_Ok seen zs : check_names seen zs = Ok tt <->
  NoDup (z_name <$> zs) /\ Forall (fun z => z_name z ∉ seen) zs.
Proof.
  revert seen. induction zs as [|z zs IH]; intros seen; simpl.
  - split; [|done]. by repeat constructor.
  - rewrite NoDup_cons, Forall_cons. case_bool_decide; [naive_solver|].
    rewrite IH, !Forall_forall, list_elem_of_fmap. split.
    + intros [Hn Hs]. split_and!; [|done..|set_solver]. intros (y & E & Hy). set_solver.
    + intros [[Hz Hn] [_ Hs]]. split; [done|]. intros y Hy.
      apply not_elem_of_union. split; [|auto]. intros E%elem_of_singleton. apply Hz. eauto.
Qed.

(** A loop that inserts into a map and stops at a key it has already. *)
Lemma check_bases_Ok bases zs : check_bases bases zs = Ok tt <->
  NoDup (omap z_uid_base zs) /\ Forall (fun b => bases !! b = None) (omap z_uid_base zs).
Proof.
  revert bases. induction zs as [|z zs IH]; intros bases; simpl.
  - split; [|done]. by repeat constructor.
  - destruct (z_uid_base z) as [b|]; [|apply IH]. rewrite NoDup_cons, Forall_cons.
    destruct (bases !! b) as [prev|] eqn:Hb; [naive_solver|]. rewrite IH, !Forall_forall.
    setoid_rewrite lookup_insert_None. naive_solver.
Qed.

Lemma check_colours_Ok colours zs : check_colours colours zs = Ok tt <->
  NoDup (z_border_color <$> zs) /\ Forall (fun c => colours !! c = None) (z_border_color <$> zs).
Proof.
  revert colours. induction zs as [|z zs IH]; intros colours; simpl.
  - split; [|done]. by repeat constructor.
  - rewrite NoDup_cons, Forall_cons. destruct (colours !! z_border_color z) as [prev|] eqn:Hb; [naive_solver|].
    rewrite IH, !Forall_forall. setoid_rewrite lookup_insert_None. naive_solver.
Qed.

Lemma check_invariants_Ok zs : check_invariants zs = Ok tt <-> zone_set zs.
Proof.
  unfold check_invariants. rewrite !result_bind_Ok. split.
  - intros ([] & Ht & H). bind_inv.
    rewrite check_transfers_Ok in Ht. rewrite check_nic_zones_Ok in E. destruct E.
    rewrite check_names_Ok in E0. rewrite check_bases_Ok in E1. rewrite check_colours_Ok in H.
    split; try naive_solver.
    intros z d Hz Hd. destruct (Ht z d Hz Hd) as (o & Ho & Hn). exists o.
    apply zone_by_name_Some in Ho as [? ?]. done.
  - intros []. exists tt. split.
    { apply check_transfers_Ok. intros z d Hz Hd. destruct (set_targets0 z d Hz Hd) as (o & Ho & <- & Hn).
      exists o. split; [by apply zone_by_name_elem|done]. }
    rewrite (proj2 (check_nic_zones_Ok zs) (conj set_nic0 set_routed0)). cbn.
    rewrite (proj2 (check_names_Ok ∅ zs)) by (split; [done|]; apply Forall_forall; set_solver). cbn.
    rewrite (proj2 (check_bases_Ok ∅ zs)) by (split; [done|]; by apply Forall_forall). cbn.
    apply check_colours_Ok. split; [done|]. by apply Forall_forall.
Qed.

(** Aligned bases that differ are a whole range apart. *)
Lemma aligned_apart a b :
  (IDENTITY_STRIDE | a) -> (IDENTITY_STRIDE | b) -> a <> b ->
  a + IDENTITY_STRIDE <= b \/ b + IDENTITY_STRIDE <= a.
Proof. unfold IDENTITY_STRIDE. intros [x ->] [y ->] H. lia. Qed.

Lemma omap_NoDup_ne {A} (f : A -> option Z) l i j a b x y :
  NoDup (omap f l) -> l !! i = Some a -> l !! j = Some b -> i <> j ->
  f a = Some x -> f b = Some y -> x <> y.
Proof.
  revert i j. induction l as [|c l IH]; intros [|i] [|j] Hn Ha Hb Hij Hx Hy; simplify_eq/=.
  - rewrite Hx in Hn. apply NoDup_cons in Hn as [Hn _]. intros ->. apply Hn.
    apply list_elem_of_omap. exists b. split; [by eapply list_elem_of_lookup_2|done].
  - rewrite Hy in Hn. apply NoDup_cons in Hn as [Hn _]. intros ->. apply Hn.
    apply list_elem_of_omap. exists a. split; [by eapply list_elem_of_lookup_2|done].
  - apply (IH i j); try done; [|lia]. destruct (f c); [by apply NoDup_cons in Hn as [_ ?]|done].
Qed.

(** Two zones that hold the NIC are two names of [nic_zones]. *)
Lemma one_nic zs j b : zs !! j = Some b -> z_network b = Nic -> 1 <= zlen (nic_zones zs).
Proof.
  intros Hb%list_elem_of_lookup_2 Hn. assert (z_name b ∈ nic_zones zs) as Hin.
  { apply list_elem_of_fmap_2, list_elem_of_In, filter_In.
    split; [by apply list_elem_of_In|by apply bool_decide_eq_true]. }
  destruct (nic_zones zs) as [|x l]; [by apply not_elem_of_nil in Hin|].
  rewrite zlen_cons. pose proof (zlen_nonneg l). lia.
Qed.

Lemma nic_zones_cons z zs :
  zlen (nic_zones (z :: zs)) = (if bool_decide (z_network z = Nic) then 1 else 0) + zlen (nic_zones zs).
Proof. unfold nic_zones. simpl. case_bool_decide; [|done]. by rewrite fmap_cons, zlen_cons. Qed.

Lemma two_nics zs i j a b :
  zlen (nic_zones zs) <= 1 -> zs !! i = Some a -> zs !! j = Some b -> i <> j ->
  z_network a = Nic -> z_network b = Nic -> False.
Proof.
  intros Hlen Ha Hb Hij Hna Hnb. revert i j Ha Hb Hij.
  induction zs as [|z zs IH]; intros [|i] [|j] Ha Hb Hij; simplify_eq/=; rewrite nic_zones_cons in Hlen.
  - rewrite bool_decide_eq_true_2 in Hlen by done. pose proof (one_nic zs j b Hb Hnb). lia.
  - rewrite bool_decide_eq_true_2 in Hlen by done. pose proof (one_nic zs i a Ha Hna). lia.
  - apply (IH ltac:(case_bool_decide; lia) i j); [done..|lia].
Qed.

(** ** The sort *)
Definition name_le (a b : Zone) : Prop := String.leb (z_name a) (z_name b) = true.

Lemma insert_zone_perm z l : insert_zone z l ≡ₚ z :: l.
Proof.
  induction l as [|y l IH]; simpl; [done|]. destruct (String.leb _ _); [done|].
  rewrite IH. apply Permutation_swap.
Qed.

Lemma sort_zones_perm l : sort_zones l ≡ₚ l.
Proof. induction l as [|z l IH]; simpl; [done|]. by rewrite insert_zone_perm, IH. Qed.

Lemma leb_total a b : String.leb a b = false -> String.leb b a = true.
Proof. destruct (String.leb_total a b) as [-> | ->]; done. Qed.

Lemma insert_zone_sorted z l : Sorted name_le l -> Sorted name_le (insert_zone z l).
Proof.
  induction l as [|y l IH]; intros Hs; simpl; [by repeat constructor|].
  destruct (String.leb _ _) eqn:E; [constructor; [done|by constructor]|]. inversion_clear Hs as [|? ? Hl Hy].
  constructor; [by apply IH|]. destruct l as [|x l]; simpl.
  - constructor. by apply leb_total.
  - inversion_clear Hy. destruct (String.leb (z_name z) (z_name x)); constructor; [by apply leb_total|done].
Qed.

Lemma sort_zones_sorted l : Sorted name_le (sort_zones l).
Proof. induction l; [constructor|]. by apply insert_zone_sorted. Qed.

(** ** The directory *)

(** The zone an entry of the directory holds: a file [<name>.toml]. *)
Definition entry_zone (e : Entry) (z : Zone) : Prop :=
  extension (e_file e) = Some "toml" /\ file_stem (e_file e) = Some (z_name z) /\
  exists text, e_read e = inl text /\ from_str text = Ok z.
Definition zone_files (es : list (Entry + string)) : list Entry :=
  omap (fun e => match e with
                 | inl e => if bool_decide (extension (e_file e) = Some "toml") then Some e else None
                 | inr _ => None
                 end) es.

Lemma load_entries_Ok es zs : load_entries es = Ok zs -> Forall2 entry_zone (zone_files es) zs.
Proof.
  revert zs. induction es as [|[e|err] es IH]; intros zs H; simpl in *; [injection H as <-; constructor| |done].
  case_bool_decide as Hx; cbn [negb] in H; [|by apply IH]. bind_inv.
  case_bool_decide as Hst; [|done]. cbn [negb] in H. bind_inv. injection H as <-.
  constructor; [|by apply IH]. split_and!; [done..|].
  unfold from_file in *. destruct (e_read e) as [text|]; [eauto|done].
Qed.

Lemma load_all_Ok dir entries zs : load_all dir entries = Ok zs ->
  exists es files, entries = inl es /\ Forall2 entry_zone (zone_files es) files /\
    zs ≡ₚ files /\ Sorted name_le zs /\ Forall zone_wf zs /\ zone_set zs.
Proof.
  unfold load_all. destruct entries as [es|]; [|done]. intros H. bind_inv. injection H as <-.
  apply load_entries_Ok in E. rewrite check_invariants_Ok in E0.
  exists es, a. split_and!; try done; [apply sort_zones_perm|apply sort_zones_sorted|].
  rewrite sort_zones_perm. eapply Forall2_Forall_r; [apply E|].
  apply Forall_forall. intros e _ z (_ & _ & text & _ & Hz). by eapply from_str_wf.
Qed.
