(* ===== verification/ZoneText.v ===== *)
(** * The flat TOML of zone files, printed and read back

    A file of quoted values, each under its section's header, parses to the table of its
    entries. *)
From S2P Require Import Prelude Bytes Text Zone.
Open Scope string_scope.
Open Scope list_scope.
Open Scope Z_scope.

(** A section, a key and a value, as characters. *)
Record Setting := mkSetting { st_section : list Z; st_key : list Z; st_value : list Z }.

Definition header_line (s : Setting) : list Z := 91 :: st_section s ++ [93].
Definition value_line (s : Setting) : list Z := st_key s ++ 32 :: 61 :: 32 :: 34 :: st_value s ++ [34].
Definition print_setting (s : Setting) : list Z :=
  header_line s ++ 10 :: value_line s ++ [10].
Definition print_settings (l : list Setting) : string := of_chars (mjoin (print_setting <$> l)).

Definition setting_key (s : Setting) : string :=
  full_key (of_chars (st_section s)) (of_chars (st_key s)).
Definition settings_table (l : list Setting) : table :=
  list_to_map ((fun s => (setting_key s, of_chars (st_value s))) <$> l).

(** Text that neither starts nor ends with white space. *)
Definition trimmed (l : list Z) : bool :=
  match head l, last l with
  | Some c, Some d => negb (is_whitespace c) && negb (is_whitespace d)
  | _, _ => false
  end.

(** A setting that can be written: no delimiter inside a name, no quote inside a value. *)
Record writable (s : Setting) : Prop := {
  w_section : trimmed (st_section s) = true;
  w_section_chars : Forall (fun c => is_char c = true /\ c ∉ [10; 34; 35; 46; 91]) (st_section s);
  w_key : trimmed (st_key s) = true /\ head (st_key s) <> Some 91;
  w_key_chars : Forall (fun c => is_char c = true /\ c ∉ [10; 34; 35; 61]) (st_key s);
  w_value_chars : Forall (fun c => is_char c = true /\ c ∉ [10; 34]) (st_value s);
}.

Lemma not_in_chars c (bad l : list Z) :
  Forall (fun x => is_char x = true /\ x ∉ bad) l -> c ∈ bad -> c ∉ l.
Proof. rewrite Forall_forall. intros H Hb Hl. by destruct (H c Hl). Qed.

Lemma trimmed_ends l : trimmed l = true ->
  exists c m d n, l = c :: m /\ l = n ++ [d] /\ is_whitespace c = false /\ is_whitespace d = false.
Proof.
  unfold trimmed. destruct l as [|c m]; [done|]. cbn [head]. intros H.
  destruct (last (c :: m)) as [d|] eqn:Hd; [|done]. apply last_Some in Hd as [n Hn].
  apply andb_true_iff in H as [H1%negb_true_iff H2%negb_true_iff]. by exists c, m, d, n.
Qed.

Lemma trim_trimmed l : trimmed l = true -> trim l = l.
Proof. intros (c & m & d & n & -> & E & Hc & Hd)%trimmed_ends. by eapply trim_id. Qed.

(** ** Comments *)
Lemma strip_comment_plain b l r :
  34 ∉ l -> 35 ∉ l -> strip_comment_from b (l ++ r) = l ++ strip_comment_from b r.
Proof.
  induction l as [|c l IH]; intros Hq Hh; simpl; [done|].
  apply not_elem_of_cons in Hq as [Hq1 Hq], Hh as [Hh1 Hh].
  rewrite (proj2 (Z.eqb_neq c 34)), (proj2 (Z.eqb_neq c 35)) by done. cbn. by rewrite IH.
Qed.

Lemma strip_comment_quoted l r :
  34 ∉ l -> strip_comment_from true (l ++ 34 :: r) = l ++ 34 :: strip_comment_from false r.
Proof.
  induction l as [|c l IH]; intros Hq; simpl; [done|].
  apply not_elem_of_cons in Hq as [Hq1 Hq].
  rewrite (proj2 (Z.eqb_neq c 34)) by done. rewrite andb_false_r. by rewrite IH.
Qed.

Section setting.
Context (s : Setting) (Hs : writable s).

Lemma header_line_clean : trim (strip_comment (header_line s)) = header_line s.
Proof using Hs.
  destruct Hs. unfold strip_comment, header_line.
  change (91 :: st_section s ++ [93]) with ([91] ++ st_section s ++ [93]).
  rewrite (strip_comment_plain false [91]) by set_solver.
  rewrite strip_comment_plain by (eapply not_in_chars; [eassumption|set_solver]).
  cbn [strip_comment_from Z.eqb app andb negb]. change (93 =? 34) with false.
  cbn. by apply (trim_id 91 _ (91 :: st_section s) 93).
Qed.

Lemma value_line_clean : trim (strip_comment (value_line s)) = value_line s.
Proof using Hs.
  destruct Hs. destruct w_key0 as [(c & m & d & n & Hc & Hd & Hwc & Hwd)%trimmed_ends _].
  unfold strip_comment, value_line.
  rewrite strip_comment_plain by (eapply not_in_chars; [eassumption|set_solver]).
  change (32 :: 61 :: 32 :: 34 :: st_value s ++ [34]) with ([32; 61; 32] ++ 34 :: st_value s ++ [34]).
  rewrite (strip_comment_plain false [32; 61; 32]) by set_solver.
  cbn [strip_comment_from]. change (34 =? 34) with true. cbn [negb].
  rewrite strip_comment_quoted by (eapply not_in_chars; [eassumption|set_solver]). cbn [strip_comment_from].
  rewrite Hc. apply (trim_id c _ ((c :: m) ++ [32; 61; 32; 34] ++ st_value s) 34); [done..|].
  cbn. by rewrite <-(assoc_L (++)).
Qed.

Lemma toml_line_header n out sec :
  toml_line n (header_line s) (out, sec) = Ok (out, of_chars (st_section s)).
Proof using Hs.
  unfold toml_line. rewrite header_line_clean. unfold header_line. cbn iota beta.
  rewrite strip_suffix_snoc. cbn. destruct Hs.
  rewrite !existsb_eqb_false by (eapply not_in_chars; [eassumption|set_solver]). cbn.
  by rewrite trim_trimmed.
Qed.

Lemma trim_key : trim (st_key s ++ [32]) = st_key s.
Proof using Hs.
  destruct Hs. destruct w_key0 as [(c & m & d & n & Hc & Hd & Hwc & Hwd)%trimmed_ends _].
  rewrite Hc. eapply trim_space_r; [done|done|]. by rewrite <-Hc.
Qed.

Lemma trim_value : trim (32 :: 34 :: st_value s ++ [34]) = 34 :: st_value s ++ [34].
Proof using. rewrite trim_space_l. by apply (trim_id 34 _ (34 :: st_value s) 34). Qed.

Lemma split_value_line :
  split_once 61 (value_line s) = Some (st_key s ++ [32], 32 :: 34 :: st_value s ++ [34]).
Proof using Hs.
  unfold value_line.
  replace (st_key s ++ 32 :: 61 :: 32 :: 34 :: st_value s ++ [34])
    with ((st_key s ++ [32]) ++ 61 :: 32 :: 34 :: st_value s ++ [34]) by by rewrite <-(assoc_L (++)).
  destruct Hs. apply split_once_app. apply not_elem_of_app.
  split; [eapply not_in_chars; [eassumption|set_solver]|set_solver].
Qed.

Lemma toml_line_value n out :
  out !! setting_key s = None ->
  toml_line n (value_line s) (out, of_chars (st_section s))
  = Ok (<[setting_key s := of_chars (st_value s)]> out, of_chars (st_section s)).
Proof using Hs.
  intros Hout. unfold toml_line. rewrite value_line_clean.
  assert (exists c m, value_line s = c :: m /\ c <> 91) as (c & m & E & Hc).
  { destruct Hs. destruct w_key0 as [(c & m & _ & _ & E & _)%trimmed_ends Hh]. unfold value_line.
    rewrite E in *. exists c. eexists. split; [done|]. intros ->. done. }
  pose proof split_value_line as Hsp. rewrite E in Hsp |- *.
  transitivity (let? (key, value) := ok_or (split_once 61 (c :: m)) (Syntax n ExpectedKeyValue) in
     if bool_decide (head (trim value) = Some 91) then Err (Syntax n ArraysUnsupported)
     else
       let? v := toml_value n (trim value) in
       match out !! full_key (of_chars (st_section s)) (of_chars (trim key)) with
       | Some _ => Err (Syntax n (DuplicateKey (full_key (of_chars (st_section s)) (of_chars (trim key)))))
       | None => Ok (<[full_key (of_chars (st_section s)) (of_chars (trim key)) := of_chars v]> out,
                     of_chars (st_section s))
       end)%result.
  { repeat case_match; congruence. }
  rewrite Hsp. cbn [ok_or result_bind]. rewrite trim_key, trim_value. cbn [head].
  rewrite bool_decide_eq_false_2 by done. unfold toml_value. rewrite strip_suffix_snoc. cbn [ok_or result_bind].
  fold (setting_key s). by rewrite Hout.
Qed.
End setting.

Lemma setting_lines s rest : writable s ->
  lines (print_setting s ++ rest) = header_line s :: value_line s :: lines rest.
Proof.
  intros Hs. unfold lines, print_setting. rewrite <-(assoc_L (++)). destruct Hs as [_ Hsc _ Hkc Hvc].
  rewrite <-app_comm_cons, lines_from_app; cycle 1.
  { unfold header_line. intros [?|[Hin|?%list_elem_of_singleton]%elem_of_app]%elem_of_cons; [done| |done].
    revert Hin. eapply not_in_chars; [eassumption|set_solver]. }
  cbn [app reverse]. unfold header_line. rewrite reverse_nil. cbn [app].
  rewrite app_comm_cons, strip_cr_other by done. f_equal.
  rewrite <-(assoc_L (++)). cbn [app]. rewrite lines_from_app; cycle 1.
  { unfold value_line. intros [Hin|Hin]%elem_of_app.
    - revert Hin. eapply not_in_chars; [eassumption|set_solver].
    - assert (10 ∉ st_value s) by (eapply not_in_chars; [eassumption|set_solver]). set_solver. }
  rewrite reverse_nil. cbn [app]. f_equal. unfold value_line.
  rewrite !app_comm_cons, (assoc_L (++)). by apply strip_cr_other.
Qed.

Lemma toml_lines_settings l n out sec :
  Forall writable l -> NoDup (setting_key <$> l) -> Forall (fun s => out !! setting_key s = None) l ->
  exists sec' m, toml_lines n (lines (mjoin (print_setting <$> l))) (out, sec) = Ok (m, sec') /\
    m = settings_table l ∪ out.
Proof.
  revert n out sec. induction l as [|s l IH]; intros n out sec Hw Hn Ho.
  { exists sec, out. split; [done|]. unfold settings_table. cbn. by rewrite (left_id_L ∅ (∪)). }
  apply Forall_cons in Hw as [Hs Hw], Ho as [Hos Ho]. rewrite fmap_cons in Hn.
  apply NoDup_cons in Hn as [Hsn Hn].
  rewrite join_fmap_cons, setting_lines by done. cbn [toml_lines].
  rewrite toml_line_header by done. cbn [result_bind]. rewrite toml_line_value by done. cbn [result_bind].
  edestruct (IH (n + 1 + 1) (<[setting_key s:=of_chars (st_value s)]> out)) as (sec' & m & E & Hm); [done..| |].
  { rewrite Forall_forall in Ho |- *. intros t Ht. rewrite lookup_insert_ne; [auto|].
    intros Ek. apply Hsn. rewrite Ek. by apply list_elem_of_fmap_2. }
  exists sec', m. split; [done|]. rewrite Hm. unfold settings_table. rewrite fmap_cons. cbn.
  rewrite <-insert_union_r, insert_union_l; [done|].
  apply not_elem_of_list_to_map_1. rewrite <-list_fmap_compose. intros (t & Et & Ht)%list_elem_of_fmap.
  apply Hsn. apply list_elem_of_fmap. by exists t.
Qed.

Lemma print_settings_chars l : Forall writable l ->
  chars (print_settings l) = mjoin (print_setting <$> l).
Proof.
  intros Hw. apply chars_of_chars, forallb_Forall. induction Hw as [|s l Hs _ IH]; [constructor|].
  rewrite join_fmap_cons. apply Forall_app. split; [|done]. destruct Hs as [_ Hsc _ Hkc Hvc].
  unfold print_setting, header_line, value_line.
  repeat first [apply Forall_app; split | apply Forall_cons; split | apply Forall_nil_2 | done];
    eapply Forall_impl; try eassumption; by intros ? [].
Qed.

Lemma parse_print_settings l :
  Forall writable l -> NoDup (setting_key <$> l) ->
  parse_flat_toml (print_settings l) = Ok (settings_table l).
Proof.
  intros Hw Hn. unfold parse_flat_toml. rewrite print_settings_chars by done.
  destruct (toml_lines_settings l 1 ∅ "" Hw Hn) as (sec & m & E & Hm).
  { apply Forall_forall. done. }
  rewrite E. cbn. by rewrite Hm, (right_id_L ∅ (∪)).
Qed.
