(* ===== verification/ZoneClaims.v ===== *)
(** * The claims about zone definitions

    What a zone file can define, what the zones of a system are to one another, and the round
    trip of the file format, each with a witness: the net and work zones of compartments/zones. *)
From Stdlib Require Import Sorted.
From S2P Require Import Prelude Bytes Text Zone ZoneSafe ZoneText.
Open Scope string_scope.
Open Scope list_scope.
Open Scope Z_scope.

(** C36: Every zone a file defines is well-formed: its name fits an interface name, a
    zone that holds the NIC has no sound, stick, camera or window, only that zone names an
    interface, only a routed zone reaches local networks, its storage has the bound its mode needs
    and no bound that is not in force, its limits parse, its identity range is aligned and fits
    32 bits, it sends to no zone twice and never to itself, its colour is one spelling of #rrggbb. *)
Theorem zone_confined text z :
  from_str text = Ok z -> zone_wf z /\ str_len ("kv-" +:+ z_name z) <= 15.
Proof.
  intros Hz%from_str_wf. split; [done|]. destruct Hz as [(_ & _ & Hl) _ _ _ _ _ _ _ _ _ _ _ _ _ _ _ _].
  unfold str_len in *. rewrite as_bytes_app, zlen_app. change (zlen (as_bytes "kv-")) with 3. lia.
Qed.

(** The checks across zones accept exactly the sets in which every target of a
    transfer is a zone without the NIC, at most one zone holds the NIC and one does where a zone
    is routed, and names, identity bases and colours are each distinct. *)
Theorem zones_checked zs : check_invariants zs = Ok tt <-> zone_set zs.
Proof. apply check_invariants_Ok. Qed.

(** C37: Any two zones loaded together have different names and colours, at most one of
    them holds the NIC, neither sends to the one that does, and their identity ranges do not
    overlap. *)
Theorem zones_apart dir entries zs i j a b :
  load_all dir entries = Ok zs -> zs !! i = Some a -> zs !! j = Some b -> i <> j ->
  z_name a <> z_name b /\ z_border_color a <> z_border_color b /\
  (z_network a = Nic -> z_network b <> Nic) /\
  (z_name b ∈ z_transfer_to a -> z_network b <> Nic) /\
  (forall x y, z_uid_base a = Some x -> z_uid_base b = Some y ->
     x + IDENTITY_STRIDE <= y \/ y + IDENTITY_STRIDE <= x).
Proof.
  intros (es & files & _ & _ & _ & _ & Hwf & Hset)%load_all_Ok Ha Hb Hij.
  assert (a ∈ zs /\ b ∈ zs) as [Ha' Hb'] by (split; by eapply list_elem_of_lookup_2).
  assert (forall f : Zone -> string, NoDup (f <$> zs) -> f a <> f b) as Hne.
  { intros f Hf E. apply Hij. eapply NoDup_lookup; [done| |]; rewrite list_lookup_fmap.
    - by rewrite Ha.
    - rewrite Hb. cbn. by rewrite E. }
  destruct Hset. split_and!; [by apply Hne..| | |].
  - intros Hna Hnb. by apply (two_nics zs i j a b).
  - intros Hin Hn. destruct (set_targets a (z_name b) Ha' Hin) as (o & Ho & E & Hno).
    apply Hno. rewrite <-Hn. f_equal. pose proof (zone_by_name_elem zs o set_names Ho) as H1.
    rewrite E, (zone_by_name_elem zs b) in H1 by done. congruence.
  - intros x y Hx Hy. rewrite Forall_forall in Hwf.
    apply aligned_apart; [by apply (wf_uid a (Hwf a Ha'))|by apply (wf_uid b (Hwf b Hb'))|].
    by eapply (omap_NoDup_ne z_uid_base zs i j).
Qed.

(** The zones loaded are those of the directory's files [<name>.toml], each once
    and under the name of its file, sorted by name, and every one is well-formed. *)
Theorem zones_loaded dir entries zs :
  load_all dir entries = Ok zs ->
  exists es files, entries = inl es /\ Forall2 entry_zone (zone_files es) files /\
    zs ≡ₚ files /\ Sorted name_le zs /\ Forall zone_wf zs /\ zone_set zs.
Proof. apply load_all_Ok. Qed.

(** C38: Settings written as quoted values under their sections' headers are read
    back exactly: the table holds each value under its section and key, and nothing else. *)
Theorem toml_roundtrip l :
  Forall writable l -> NoDup (setting_key <$> l) ->
  parse_flat_toml (print_settings l) = Ok (settings_table l).
Proof. apply parse_print_settings. Qed.

(** A key that is not a zone setting is refused before anything else of the
    file is looked at, whatever else the file says. *)
Theorem unknown_key_refused text kv k :
  parse_flat_toml text = Ok kv -> is_Some (kv !! k) -> k ∉ KNOWN_KEYS ->
  exists k', from_str text = Err (Invalid (UnknownKey k')) /\ is_Some (kv !! k') /\ k' ∉ KNOWN_KEYS.
Proof.
  intros Hp [v Hv] Hk. assert (k ∈ unknown_keys kv) as Hin.
  { unfold unknown_keys. apply list_elem_of_In, filter_In. split.
    - apply list_elem_of_In, list_elem_of_fmap. exists (k, v). split; [done|]. by apply elem_of_map_to_list.
    - by rewrite bool_decide_eq_false_2. }
  destruct (unknown_keys kv) as [|k' ks] eqn:Hu; [by apply not_elem_of_nil in Hin|].
  assert (k' ∈ unknown_keys kv) as Hk' by (rewrite Hu; constructor).
  exists k'. split.
  - unfold from_str. rewrite Hp. cbn. unfold from_table, check_keys. by rewrite Hu.
  - unfold unknown_keys in Hk'. apply list_elem_of_In, filter_In in Hk' as [Hl Hd].
    apply list_elem_of_In, list_elem_of_fmap in Hl as ([k2 w] & E & Hl%elem_of_map_to_list).
    cbn in E. subst k2. split; [eauto|]. by destruct (bool_decide_reflect (k' ∈ KNOWN_KEYS)).
Qed.

(** ** Witnesses: the zones of compartments/zones

    Their text without comments; [quoted] writes an apostrophe as the double quote. *)
Definition quoted (s : string) : string :=
  of_chars ((fun c => if c =? 39 then 34 else c) <$> chars s).

Definition net_toml : string := quoted
"[zone]
name        = 'net'
description = 'Sole holder of a physical network route.'

[network]
mode = 'nic'
nic = '*' # every physical one

[storage]
mode = 'ephemeral'
size = '512M'

[policy]
seccomp  = 'policy/net.seccomp'

[limits]
memory_max = '1G'
pids_max   = 256
cpu_max    = '100%'

[identity]
uid_base = 196608

[ui]
border_color   = '#686573'
border_pattern = 'notched'
glyph          = '◐'
label          = 'NET'
".

Definition work_toml : string := quoted
"[zone]
name        = 'work'
description = 'Daily productivity.'

[network]
mode = 'routed'

[storage]
mode   = 'encrypted'
volume = '/var/lib/kryptik/volumes/work.luks'

[policy]
seccomp  = 'policy/work.seccomp'

[limits]
memory_max = '8G'
pids_max   = 4096

[identity]
uid_base = 458752

[ui]
border_color   = '#2d60d1'
border_pattern = 'solid'
glyph          = '■'
label          = 'WORK'

[software]
images = 'browser toolkit'

[desktop]
hold_awake = true
".

Definition zone_of (text : string) : Zone :=
  match from_str text with Ok z => z | Err _ =>
    mkZone "" "" Loopback None false Persistent None None None None None None None None "" None None
      None None [] None [] false false false false end.

Definition demo_entry (name text : string) : Entry + string :=
  inl {| e_file := as_bytes name; e_path := "/etc/kryptik/zones/" +:+ name; e_read := inl text |}.
Definition demo_dir : list (Entry + string) :=
  [demo_entry "work.toml" work_toml; demo_entry "README" ""; demo_entry "net.toml" net_toml].
Definition demo_zones : list Zone := [zone_of net_toml; zone_of work_toml].

Lemma zone_confined_witness :
  zone_wf (zone_of net_toml) /\ str_len ("kv-" +:+ z_name (zone_of net_toml)) <= 15.
Proof. apply (zone_confined net_toml). vm_compute. reflexivity. Defined.

Lemma zones_apart_witness :
  let a := zone_of net_toml in let b := zone_of work_toml in
  z_name a <> z_name b /\ z_border_color a <> z_border_color b /\
  (z_network a = Nic -> z_network b <> Nic) /\
  (z_name b ∈ z_transfer_to a -> z_network b <> Nic) /\
  (forall x y, z_uid_base a = Some x -> z_uid_base b = Some y ->
     x + IDENTITY_STRIDE <= y \/ y + IDENTITY_STRIDE <= x).
Proof.
  apply (zones_apart "/etc/kryptik/zones" (inl demo_dir) demo_zones 0 1);
    [vm_compute; reflexivity..|discriminate].
Defined.

Lemma zones_loaded_witness :
  exists es files, @inl (list (Entry + string)) string demo_dir = inl es /\
    Forall2 entry_zone (zone_files es) files /\
    demo_zones ≡ₚ files /\ Sorted name_le demo_zones /\ Forall zone_wf demo_zones /\ zone_set demo_zones.
Proof. apply (zones_loaded "/etc/kryptik/zones"). vm_compute. reflexivity. Defined.

Definition demo_settings : list Setting :=
  [mkSetting (chars "zone") (chars "name") (chars "work");
   mkSetting (chars "ui") (chars "border_color") (chars "#2d60d1");
   mkSetting (chars "zone") (chars "description") (chars "# not a comment")].

Lemma toml_roundtrip_witness :
  parse_flat_toml (print_settings demo_settings) = Ok (settings_table demo_settings).
Proof.
  apply toml_roundtrip; [|apply (bool_decide_unpack _); vm_compute; reflexivity].
  repeat (constructor; [constructor; apply (bool_decide_unpack _); vm_compute; reflexivity|]).
  constructor.
Defined.

Lemma unknown_key_refused_witness :
  exists k', from_str (quoted "[network]
mod = 'none'") = Err (Invalid (UnknownKey k')) /\
    is_Some (({["network.mod" := "none"]} : table) !! k') /\ k' ∉ KNOWN_KEYS.
Proof.
  apply (unknown_key_refused _ {["network.mod" := "none"]} "network.mod").
  - vm_compute. reflexivity.
  - exists "none". vm_compute. reflexivity.
  - apply (bool_decide_unpack _). vm_compute. reflexivity.
Defined.

(** A key with nothing after its equals sign is read as the empty string, although only a quoted
    string, an integer or a boolean is a value. *)
Lemma empty_value_accepted :
  parse_flat_toml "[storage]
volume =" = Ok {["storage.volume" := ""]}.
Proof. vm_compute. reflexivity. Qed.
