(* ===== verification/Transfer.v ===== *)
(** * compartments/kryptikd/src/broker.rs: a file from one zone to another

    The checks of a transfer, the user's consent, and the copy into the destination's [incoming/].
    The kernel's answers, the clock and the destination's faults are arguments; a home is what is
    under [incoming/]. [None] is a transfer still under way: a question open, or a copy whose next
    call has not returned. *)
From S2P Require Import Prelude Bytes Text Names Consent Zone.
From stdpp Require Import pretty.
Open Scope string_scope.
Open Scope list_scope.
Open Scope Z_scope.

Module Transfer.

Inductive Errno := EINTR | EXDEV | EINVAL | ENOSYS | EOPNOTSUPP | EOther (n : Z).

Inductive TransferError :=
| Descriptors (n : Z)
| ToItself
| NotNamed (dest : string)
| BadDestination (dest : string) (e : ZoneError)
| NicReceivesNothing (dest : string)
| DescriptorStat (e : Errno)
| NotRegular
| DescriptorFlags (e : Errno)
| IsPath
| NotReadOnly
| MountUnknown
| WrongMount
| OverLimit (size limit : Z)
| DestinationGone (dest : string)
| RefusedRecently
| NotConsented (w : Consent.Why)
| HomeUnreachable
| IncomingFailed
| IncomingNotPlain
| IncomingForeign
| CreateFailed (name : string) (e : Errno)
| AllTaken
| CopyFailed (e : Errno)
| ReadFailed (e : Errno)
| WriteFailed (e : Errno)
| TooLong
| Shrank (total : Z)
| OwnershipFailed
| SyncFailed.

(** ** The copy *)

(** [write_all]; [answers] are what write(2) returns. *)
Fixpoint write_all (answers : list (result Z Errno)) (out data : bytes) : option (result unit Errno * bytes) :=
  match data with
  | [] => Some (Ok tt, out)
  | _ =>
    match answers with
    | [] => None
    | Ok n :: answers => write_all answers (out ++ take (Z.to_nat n) data) (drop (Z.to_nat n) data)
    | Err EINTR :: answers => write_all answers out data
    | Err e :: _ => Some (Err e, out)
    end
  end.

(** One round: what copy_file_range(2) or pread(2) finds, and the writes after a pread. *)
Record Round := mkRound { r_read : result bytes Errno; r_writes : list (result Z Errno) }.

Definition unsupported (e : Errno) : bool :=
  match e with EXDEV | EINVAL | ENOSYS | EOPNOTSUPP => true | _ => false end.

(** [copy_capped]'s loop; a call returns at most what it was asked for. *)
Fixpoint copy_loop (rounds : list Round) (fallback : bool) (total cap : Z) (out : bytes)
    : option (result Z TransferError * bytes) :=
  match rounds with
  | [] => None
  | r :: rounds =>
    let want := Z.min (Z.shiftl 1 20) (cap + 1 - total) in
    let advance (n : Z) (out : bytes) :=
      if n =? 0 then Some (Ok total, out)
      else if cap <? total + n then Some (Err TooLong, out)
      else copy_loop rounds fallback (total + n) cap out in
    match r_read r, fallback with
    | Err EINTR, _ => copy_loop rounds fallback total cap out
    | Err e, false =>
      if unsupported e && (total =? 0) then copy_loop rounds true total cap out
      else Some (Err (CopyFailed e), out)
    | Err e, true => Some (Err (ReadFailed e), out)
    | Ok b, false => let b := take (Z.to_nat want) b in advance (zlen b) (out ++ b)
    | Ok b, true =>
      let b := take (Z.to_nat (Z.min (Z.shiftl 1 16) want)) b in
      match write_all (r_writes r) out b with
      | None => None
      | Some (Err e, out) => Some (Err (WriteFailed e), out)
      | Some (Ok _, out) => advance (zlen b) out
      end
    end
  end.
Definition copy_capped (rounds : list Round) (cap : Z) : option (result Z TransferError * bytes) :=
  copy_loop rounds false 0 cap [].

(** ** The destination *)
Inductive Node := Data (owner : Z) (b : bytes) | OtherNode.
Inductive Home := Absent | Directory (owner : Z) (files : gmap string Node) | NotPlain.

Record Target := mkTarget { t_uid : Z; t_gid : Z }.

(** The calls on the destination that may fail, and the rounds of the copy. *)
Record Faults := mkFaults {
  f_home : bool; f_mkdir : bool; f_chown_dir : bool; f_open : bool; f_stat : bool;
  f_create : string -> option Errno; f_chown : bool; f_sync : bool; f_rounds : list Round }.

Definition fill (f : Faults) (root : bool) (size : Z) : option (result Z TransferError * bytes) :=
  if root && f_chown f then Some (Err OwnershipFailed, [])
  else
    match copy_capped (f_rounds f) size with
    | None => None
    | Some (Err e, out) => Some (Err e, out)
    | Some (Ok total, out) =>
      if negb (total =? size) then Some (Err (Shrank total), out)
      else if f_sync f then Some (Err SyncFailed, out)
      else Some (Ok total, out)
    end.

Definition candidate (name : string) (i : Z) : string :=
  if i =? 1 then name else name +:+ "-" +:+ pretty i.

(** The names tried, [i] of them done; O_EXCL takes the first that is free. *)
Fixpoint pick (n : nat) (i : Z) (f : Faults) (root : bool) (me uid : Z) (name : string) (size : Z)
    (files : gmap string Node) : option (result (string * Z) TransferError * gmap string Node) :=
  match n with
  | O => Some (Err AllTaken, files)
  | S n =>
    let cand := candidate name i in
    match f_create f cand with
    | Some e => Some (Err (CreateFailed cand e), files)
    | None =>
      match files !! cand with
      | Some _ => pick n (i + 1) f root me uid name size files
      | None =>
        match fill f root size with
        | None => None
        | Some (Ok n, out) => Some (Ok (cand, n), <[cand := Data (if root then uid else me) out]> files)
        | Some (Err e, _) => Some (Err e, files)
        end
      end
    end
  end.

Definition deliver_into (f : Faults) (root : bool) (me : Z) (t : Target) (name : string) (size : Z) (h : Home)
    : option (result (string * Z) TransferError * Home) :=
  if f_mkdir f then Some (Err IncomingFailed, h)
  else
    let made := match h with Absent => true | _ => false end in
    let h := match h with Absent => Directory (if root then t_uid t else me) ∅ | _ => h end in
    if made && root && f_chown_dir f then Some (Err IncomingFailed, h)
    else
      match h with
      | Directory owner files =>
        if f_open f then Some (Err IncomingNotPlain, h)
        else if f_stat f then Some (Err IncomingFailed, h)
        else if negb (owner =? t_uid t) then Some (Err IncomingForeign, h)
        else '(r, files) ← pick 100 1 f root me (t_uid t) name size files; Some (r, Directory owner files)
      | _ => Some (Err IncomingNotPlain, h)
      end.

(** What the broker's launcher keeps, and what it acts on: the file-system identity, the pause
    after a refusal, the consent channel, and the homes of the zones. *)
Record World := mkWorld {
  w_fsuid : Z; w_fsgid : Z; w_refused_until : option Z; w_chan : Consent.Chan; w_homes : gmap string Home }.

Definition with_fs (u g : Z) (w : World) : World :=
  mkWorld u g (w_refused_until w) (w_chan w) (w_homes w).
Definition with_refused (t : option Z) (w : World) : World :=
  mkWorld (w_fsuid w) (w_fsgid w) t (w_chan w) (w_homes w).
Definition with_chan (c : Consent.Chan) (w : World) : World :=
  mkWorld (w_fsuid w) (w_fsgid w) (w_refused_until w) c (w_homes w).
Definition with_home (dest : string) (h : Home) (w : World) : World :=
  mkWorld (w_fsuid w) (w_fsgid w) (w_refused_until w) (w_chan w) (<[dest := h]> (w_homes w)).

(** [me]: the effective uid. *)
Definition deliver (f : Faults) (me : Z) (t : Target) (dest name : string) (size : Z) (w : World)
    : option (result (string * Z) TransferError * World) :=
  if f_home f then Some (Err HomeUnreachable, w)
  else
    let switched := me =? 0 in
    let w := if switched then with_fs (t_uid t) (t_gid t) w else w in
    '(r, h) ← deliver_into f switched me t name size (default Absent (w_homes w !! dest));
    let w := with_home dest h w in
    let w := if switched then with_fs 0 0 w else w in
    Some (r, w).

(** ** The request *)

(** fstat(2) and F_GETFL of a descriptor handed over. *)
Record Stat := mkStat { st_regular : bool; st_dev : Z; st_size : Z }.
Record Flags := mkFlags { o_path : bool; o_rdonly : bool }.
Record Fd := mkFd { fd_stat : result Stat Errno; fd_flags : result Flags Errno }.

(** [Served], and what the clock, the registry and the kernel answer while a transfer runs. *)
Record Served := mkServed {
  s_zone : Zone;
  s_read : string -> string + string;
  s_home_dev : option Z;
  s_auto_approve : bool;
  s_max_bytes : Z;
  s_resolve_before : string -> option Target;
  s_resolve_after : string -> option Target;
  s_now : Z;
  s_answered : Z;
  s_me : Z;
  s_asked : Consent.Asked;
  s_faults : Faults;
}.

(** [REFUSAL_PAUSE], in seconds. *)
Definition REFUSAL_PAUSE : Z := 60.

(** The tightest of the launcher's cap and the two zones' own. *)
Definition transfer_limit (max : Z) (zones : list Zone) : Z :=
  fold_left (fun limit z => match z_transfer_max z with
                            | Some m => if m <? limit then m else limit
                            | None => limit
                            end) zones max.

(** The checks that come before the question, in order. *)
Definition check_transfer (s : Served) (dest : string) (fds : list Fd) : result Z TransferError :=
  match fds with
  | [fd] =>
    if String.eqb dest (z_name (s_zone s)) then Err ToItself
    else if negb (existsb (String.eqb dest) (z_transfer_to (s_zone s))) then Err (NotNamed dest)
    else
      match from_file (s_read s) (dest +:+ ".toml") with
      | Err e => Err (BadDestination dest e)
      | Ok dz =>
        if bool_decide (z_network dz = Nic) then Err (NicReceivesNothing dest)
        else
          match fd_stat fd with
          | Err e => Err (DescriptorStat e)
          | Ok st =>
            if negb (st_regular st) then Err NotRegular
            else
              match fd_flags fd with
              | Err e => Err (DescriptorFlags e)
              | Ok fl =>
                if o_path fl then Err IsPath
                else if negb (o_rdonly fl) then Err NotReadOnly
                else
                  match s_home_dev s with
                  | None => Err MountUnknown
                  | Some d =>
                    if negb (d =? st_dev st) then Err WrongMount
                    else
                      let limit := transfer_limit (s_max_bytes s) [s_zone s; dz] in
                      if limit <? st_size st then Err (OverLimit (st_size st) limit) else Ok (st_size st)
                  end
              end
          end
      end
  | _ => Err (Descriptors (zlen fds))
  end.

(** The question: the destination is known to run, no refusal is recent, the user says yes. *)
Definition ask_user (s : Served) (dest name : string) (size : Z) (w : World)
    : option (result unit TransferError * World) :=
  if s_auto_approve s then Some (Ok tt, w)
  else
    match s_resolve_before s dest with
    | None => Some (Err (DestinationGone dest), w)
    | Some _ =>
      if match w_refused_until w with Some t => s_now s <? t | None => false end
      then Some (Err RefusedRecently, w)
      else
        match Consent.ask (s_asked s) (z_name (s_zone s)) dest name size (w_chan w) with
        | None => None
        | Some (Ok _, c) => Some (Ok tt, with_chan c w)
        | Some (Err r, c) =>
          let w := with_chan c w in
          let w := if Consent.shown r then with_refused (Some (s_answered s + REFUSAL_PAUSE)) w else w in
          Some (Err (NotConsented (Consent.why r)), w)
        end
    end.

Definition handle_transfer (s : Served) (dest name : string) (fds : list Fd) (w : World)
    : option (result (string * Z) TransferError * World) :=
  match check_transfer s dest fds with
  | Err e => Some (Err e, w)
  | Ok size =>
    match ask_user s dest name size w with
    | None => None
    | Some (Err e, w) => Some (Err e, w)
    | Some (Ok _, w) =>
      match s_resolve_after s dest with
      | None => Some (Err (DestinationGone dest), w)
      | Some t => deliver (s_faults s) (s_me s) t dest name size w
      end
    end
  end.

End Transfer.
