(* ===== verification/TransferClaims.v ===== *)
(** * What a transfer promises *)
From S2P Require Import Prelude Bytes Text Names Consent Zone ZoneClaims Transfer.
From stdpp Require Import pretty.
Import Transfer.
Open Scope string_scope.
Open Scope list_scope.
Open Scope Z_scope.

(** ** The copy *)
Lemma write_all_ok answers out data out' :
  Forall (fun a => match a with Ok n => 0 <= n | Err _ => True end) answers ->
  write_all answers out data = Some (Ok tt, out') -> out' = out ++ data.
Proof.
  intros H. revert out data. induction H as [|a answers Ha _ IH]; intros out [|b data]; cbn [write_all]; try done.
  - intros [= ->]. by rewrite app_nil_r.
  - intros [= ->]. by rewrite app_nil_r.
  - destruct a as [n|[]]; try done.
    + intros ->%IH. by rewrite <-(assoc_L (++)), take_drop.
    + apply IH.
Qed.

(** A write returns no negative count. *)
Definition writes_ok (rounds : list Round) : Prop :=
  Forall (fun r => Forall (fun a => match a with Ok n => 0 <= n | Err _ => True end) (r_writes r)) rounds.

Lemma zlen_take_le {A} (n : Z) (l : list A) : 0 <= n -> zlen (take (Z.to_nat n) l) <= n.
Proof. intros Hn. unfold zlen. rewrite length_take. lia. Qed.

(** What is written is what is counted, never more than the cap. *)
Lemma copy_loop_ok rounds fallback total cap out n out' : writes_ok rounds ->
  0 <= total <= cap -> total = zlen out ->
  copy_loop rounds fallback total cap out = Some (Ok n, out') ->
  n = zlen out' /\ n <= cap /\ exists rest, out' = out ++ rest.
Proof.
  intros Hw. revert fallback total out. induction Hw as [|r rounds Hr _ IH]; intros fallback total out Ht Hz;
    cbn [copy_loop]; [done|].
  assert (forall (b : bytes) fb, (if zlen b =? 0 then Some (Ok total, out ++ b)
     else if cap <? total + zlen b then Some (Err TooLong, out ++ b)
     else copy_loop rounds fb (total + zlen b) cap (out ++ b)) = Some (Ok n, out') ->
     n = zlen out' /\ n <= cap /\ exists rest, out' = out ++ rest) as Hadv.
  { intros b fb. destruct (Z.eqb_spec (zlen b) 0) as [E|].
    - intros [= <- <-]. rewrite zlen_app. split_and!; [lia|lia|by exists b].
    - destruct (Z.ltb_spec cap (total + zlen b)); [done|]. intros Hc. apply IH in Hc as (-> & Hle & rest & ->).
      + split_and!; [done|done|]. exists (b ++ rest). by rewrite (assoc_L (++)).
      + pose proof (zlen_nonneg b). lia.
      + rewrite zlen_app. lia. }
  destruct (r_read r) as [b|e], fallback.
  - destruct (write_all _ _ _) as [[[[]|e] out1]|] eqn:Ew; [|done..].
    apply write_all_ok in Ew as ->; [|done]. apply Hadv.
  - apply Hadv.
  - destruct e; try done. by apply IH.
  - destruct e; cbn [unsupported andb]; try done; try (destruct (total =? 0); [|done]); by apply IH.
Qed.

Lemma fill_ok f root size n out : writes_ok (f_rounds f) -> 0 <= size ->
  fill f root size = Some (Ok n, out) -> n = size /\ zlen out = size.
Proof.
  intros Hw Hs. unfold fill. destruct (root && f_chown f); [done|].
  destruct (copy_capped _ _) as [[[total|e] out1]|] eqn:Hc; [|done..].
  destruct (Z.eqb_spec total size) as [->|]; [cbn [negb]|done]. destruct (f_sync f); [done|]. intros [= <- <-].
  apply copy_loop_ok in Hc as (? & _); [done|done|lia|done].
Qed.

(** ** The name it lands under *)
Definition taken (name : string) (files : gmap string Node) (j : Z) : Prop :=
  is_Some (files !! candidate name j).

Lemma pick_spec k i f root me uid name size files r files' : writes_ok (f_rounds f) -> 0 <= size ->
  pick k i f root me uid name size files = Some (r, files') ->
  match r with
  | Ok (final, n) => exists j data, i <= j < i + Z.of_nat k /\ final = candidate name j /\
      (forall l, i <= l < j -> taken name files l) /\ files !! final = None /\
      n = size /\ zlen data = size /\ files' = <[final := Data (if root then uid else me) data]> files
  | Err _ => files' = files
  end.
Proof.
  intros Hw Hs. revert i. induction k as [|k IH]; intros i; cbn [pick]; [by intros [= <- <-]|].
  destruct (f_create f _); [by intros [= <- <-]|]. destruct (files !! candidate name i) as [nd|] eqn:Hf.
  - intros H%IH. destruct r as [[final n]|e]; [|done].
    destruct H as (j & data & Hj & -> & Ht & H). exists j, data. split_and!; [lia|lia|done| |apply H..].
    intros l Hl. destruct (decide (l = i)) as [->|]; [by eexists|]. apply Ht. lia.
  - destruct (fill f root size) as [[[n|e] out]|] eqn:Ef; [..|done].
    + intros [= <- <-]. apply fill_ok in Ef as [-> Hz]; [|done..]. exists i, out. split_and!; try done; lia.
    + by intros [= <- <-].
Qed.

(** What is under [incoming/]. *)
Definition files_of (h : Home) : gmap string Node := match h with Directory _ f => f | _ => ∅ end.
Definition home_files (w : World) (dest : string) : gmap string Node :=
  files_of (default Absent (w_homes w !! dest)).

(** The outcome of a delivery, against the files there were. *)
Definition delivered (name : string) (size : Z) (r : result (string * Z) TransferError)
    (before after : gmap string Node) : Prop :=
  match r with
  | Ok (final, n) => exists j owner data, 1 <= j <= 100 /\ final = candidate name j /\
      (forall l, 1 <= l < j -> taken name before l) /\ before !! final = None /\
      n = size /\ zlen data = size /\ after = <[final := Data owner data]> before
  | Err _ => after = before
  end.

Lemma deliver_into_spec f root me t name size h r h' : writes_ok (f_rounds f) -> 0 <= size ->
  deliver_into f root me t name size h = Some (r, h') -> delivered name size r (files_of h) (files_of h').
Proof.
  intros Hw Hs. unfold deliver_into. destruct (f_mkdir f); [by intros [= <- <-]|].
  set (h1 := match h with Absent => Directory (if root then t_uid t else me) ∅ | _ => h end). assert (files_of h1 = files_of h) as <- by (by destruct h).
  destruct (_ && f_chown_dir f); [by intros [= <- <-]|]. clearbody h1.
  destruct h1 as [|owner files|]; [by intros [= <- <-]|..|by intros [= <- <-]]. cbn [files_of].
  destruct (f_open f); [by intros [= <- <-]|]. destruct (f_stat f); [by intros [= <- <-]|].
  destruct (negb _); [by intros [= <- <-]|].
  destruct (pick _ _ _ _ _ _ _ _ _) as [[r1 files1]|] eqn:Hp; [|done]. cbn. intros [= <- <-].
  apply pick_spec in Hp; [|done..]. destruct r1 as [[final n]|e]; [|done]. cbn.
  destruct Hp as (j & data & Hj & Hr). exists j, (if root then t_uid t else me), data. split; [lia|apply Hr].
Qed.

Lemma deliver_spec f me t dest name size w r w' : writes_ok (f_rounds f) -> 0 <= size ->
  deliver f me t dest name size w = Some (r, w') ->
  delivered name size r (home_files w dest) (home_files w' dest) /\
  (forall z, z <> dest -> w_homes w' !! z = w_homes w !! z) /\
  (w_fsuid w = 0 -> w_fsgid w = 0 -> w_fsuid w' = 0 /\ w_fsgid w' = 0) /\
  w_refused_until w' = w_refused_until w /\ w_chan w' = w_chan w.
Proof.
  intros Hw Hs. unfold deliver. destruct (f_home f); [by intros [= <- <-]|].
  assert (w_homes (if me =? 0 then with_fs (t_uid t) (t_gid t) w else w) = w_homes w) as -> by (by destruct (me =? 0)).
  destruct (deliver_into _ _ _ _ _ _ _) as [[r1 h]|] eqn:Hd; [|done]. cbn. intros [= <- <-].
  apply deliver_into_spec in Hd; [|done..]. unfold home_files.
  destruct (me =? 0); cbn; rewrite lookup_insert_eq; cbn; (split; [done|]);
    (split; [intros z Hz; by rewrite lookup_insert_ne|done]).
Qed.

(** ** The checks *)
Lemma transfer_limit_spec max zones : transfer_limit max zones <= max /\
  Forall (fun z => forall m, z_transfer_max z = Some m -> transfer_limit max zones <= m) zones.
Proof.
  unfold transfer_limit. revert max. induction zones as [|z zones IH]; intros max; cbn [fold_left]; [split; [lia|constructor]|].
  set (max' := match z_transfer_max z with Some m => _ | None => _ end). destruct (IH max') as [H1 H2].
  assert (max' <= max /\ forall m, z_transfer_max z = Some m -> max' <= m) as [H3 H4].
  { subst max'. destruct (z_transfer_max z) as [m|]; [|split; [lia|done]].
    destruct (Z.ltb_spec m max); split; try lia; intros ? [= <-]; lia. }
  split; [lia|]. constructor; [|done]. intros m Hm. specialize (H4 m Hm). lia.
Qed.

(** What a transfer that may be asked for is. *)
Record transferable (s : Served) (dest : string) (fds : list Fd) (size : Z) (fd : Fd) (st : Stat) (fl : Flags)
    (dz : Zone) : Prop := {
  tr_one : fds = [fd];
  tr_other : dest <> z_name (s_zone s);
  tr_named : dest ∈ z_transfer_to (s_zone s);
  tr_dest : from_file (s_read s) (dest +:+ ".toml") = Ok dz;
  tr_not_nic : z_network dz <> Nic;
  tr_stat : fd_stat fd = Ok st;
  tr_regular : st_regular st = true;
  tr_flags : fd_flags fd = Ok fl;
  tr_open : o_path fl = false;
  tr_rdonly : o_rdonly fl = true;
  tr_mount : s_home_dev s = Some (st_dev st);
  tr_size : size = st_size st;
  tr_cap : size <= s_max_bytes s;
  tr_sender_cap : forall m, z_transfer_max (s_zone s) = Some m -> size <= m;
  tr_dest_cap : forall m, z_transfer_max dz = Some m -> size <= m;
}.

Lemma check_transfer_ok s dest fds size : check_transfer s dest fds = Ok size ->
  exists fd st fl dz, transferable s dest fds size fd st fl dz.
Proof.
  unfold check_transfer. destruct fds as [|fd [|]]; [done| |done].
  destruct (String.eqb_spec dest (z_name (s_zone s))) as [|Hne]; [done|].
  destruct (existsb _ _) eqn:He; [cbn [negb]|done]. apply existsb_exists in He as (d & Hd & <-%String.eqb_eq).
  destruct (from_file _ _) as [dz|e] eqn:Hz; [|done]. case_bool_decide; [done|].
  destruct (fd_stat fd) as [st|] eqn:Hst; [|done]. destruct (st_regular st) eqn:Hr; [cbn [negb]|done].
  destruct (fd_flags fd) as [fl|] eqn:Hfl; [|done]. destruct (o_path fl) eqn:Hp; [done|].
  destruct (o_rdonly fl) eqn:Ho; [cbn [negb]|done]. destruct (s_home_dev s) as [dev|] eqn:Hh; [|done].
  destruct (Z.eqb_spec dev (st_dev st)) as [->|]; [cbn [negb]|done].
  destruct (Z.ltb_spec (transfer_limit (s_max_bytes s) [s_zone s; dz]) (st_size st)) as [|Hl]; [done|].
  intros [= <-]. destruct (transfer_limit_spec (s_max_bytes s) [s_zone s; dz]) as [Hm Hf].
  apply Forall_cons in Hf as [Hf1 Hf2]. apply Forall_cons in Hf2 as [Hf2 _].
  exists fd, st, fl, dz. rewrite <-list_elem_of_In in Hd.
  split; try done; [lia|intros m Hz1%Hf1; lia|intros m Hz1%Hf2; lia].
Qed.

(** Only a question that was shown starts a pause. *)
Lemma ask_user_refused s dest name size w r w' : ask_user s dest name size w = Some (r, w') ->
  match r with
  | Ok _ => w_refused_until w' = w_refused_until w
  | Err _ => w_refused_until w' = w_refused_until w \/ w_refused_until w' = Some (s_answered s + REFUSAL_PAUSE)
  end.
Proof.
  unfold ask_user. destruct (s_auto_approve s); [by intros [= <- <-]|].
  destruct (s_resolve_before s dest); [|by intros [= <- <-]; left].
  destruct (match w_refused_until w with Some t => s_now s <? t | None => false end); [by intros [= <- <-]; left|].
  destruct (Consent.ask _ _ _ _ _ _) as [[[?|rf] c]|]; [by intros [= <- <-]|..|done].
  intros [= <- <-]. destruct (Consent.shown rf); [by right|by left].
Qed.

Lemma deliver_refused f me t dest name size w r w' :
  deliver f me t dest name size w = Some (r, w') -> w_refused_until w' = w_refused_until w.
Proof.
  unfold deliver. destruct (f_home f); [by intros [= <- <-]|]. destruct (deliver_into _ _ _ _ _ _ _) as [[r1 h]|]; [|done].
  cbn. intros [= <- <-]. by destruct (me =? 0).
Qed.

(** ** Claims *)

(** C8: A file that crosses was sent by a zone whose file names the destination,
    which is another configured zone, running, that does not hold the network card; it is one
    read-only regular file on the sender's own data mount, within the launcher's cap and both
    zones' limits; and the user said yes to it in zone 0, or the launcher was started to approve
    by itself. *)
Theorem transfer_consented s dest name fds w final n w' :
  handle_transfer s dest name fds w = Some (Ok (final, n), w') ->
  exists fd st fl dz, transferable s dest fds (st_size st) fd st fl dz /\ is_Some (s_resolve_after s dest) /\
  (s_auto_approve s = true \/
   (is_Some (s_resolve_before s dest) /\ from_option (fun t => t <= s_now s) True (w_refused_until w) /\
    exists c, Consent.ask (s_asked s) (z_name (s_zone s)) dest name (st_size st) (w_chan w) = Some (Ok tt, c))).
Proof.
  unfold handle_transfer. destruct (check_transfer s dest fds) as [size|e] eqn:Hc; [|done].
  apply check_transfer_ok in Hc as (fd & st & fl & dz & Ht). assert (size = st_size st) as -> by apply Ht.
  destruct (ask_user s dest name (st_size st) w) as [[[[]|e] w1]|] eqn:Ha; [|done..].
  destruct (s_resolve_after s dest) as [t|]; [|done]. intros _. exists fd, st, fl, dz.
  split; [done|]. split; [eauto|]. unfold ask_user in Ha. destruct (s_auto_approve s); [by left|right].
  destruct (s_resolve_before s dest); [|done].
  destruct (match w_refused_until w with Some t => s_now s <? t | None => false end) eqn:Hr; [done|].
  split; [eauto|]. split; [destruct (w_refused_until w); cbn; [lia|done]|].
  destruct (Consent.ask _ _ _ _ _ _) as [[[[]|r] c]|]; [eauto|done..].
Qed.


(** Once the user has been shown a question and has not said yes, the zone's next
    transfers are refused for a minute without another question: nothing is placed in the channel
    and nothing else changes. *)
Theorem refusal_pauses s dest name fds w y w' :
  handle_transfer s dest name fds w = Some (Err (NotConsented y), w') ->
  w_refused_until w' <> w_refused_until w ->
  forall s' dest' name' fds', s_auto_approve s' = false -> s_now s' < s_answered s + REFUSAL_PAUSE ->
  exists e, handle_transfer s' dest' name' fds' w' = Some (Err e, w').
Proof.
  intros H Hne s' dest' name' fds' Ha Hn.
  assert (w_refused_until w' = Some (s_answered s + REFUSAL_PAUSE)) as Hr.
  { unfold handle_transfer in H. destruct (check_transfer s dest fds) as [size|e]; [|by injection H as -> <-].
    destruct (ask_user s dest name size w) as [[[[]|e] w1]|] eqn:Hu; [| |done]; apply ask_user_refused in Hu.
    - destruct (s_resolve_after s dest); [apply deliver_refused in H; congruence|by injection H].
    - injection H as -> <-. by destruct Hu. }
  unfold handle_transfer. destruct (check_transfer s' dest' fds') as [size|e]; [|eauto].
  unfold ask_user. rewrite Ha, Hr, (proj2 (Z.ltb_lt _ _) Hn). destruct (s_resolve_before s' dest'); eauto.
Qed.

(** ** Witnesses: vault sends three bytes to work, and is asked about *)
Definition vault_toml : string := quoted
"[zone]
name = 'vault'
description = 'Kept apart.'
[network]
mode = 'none'
[storage]
mode = 'persistent'
[policy]
seccomp = 'policy/vault.seccomp'
[limits]
memory_max = '1G'
[ui]
border_color = '#3a3a3a'
[transfer]
to = 'work'
max_bytes = 1000
".

Definition demo_faults : Faults := mkFaults false false false false false (fun _ => None) false false
  [mkRound (Err EINTR) []; mkRound (Err EXDEV) []; mkRound (Ok (as_bytes "abc")) [Ok 2; Err EINTR; Ok 1];
   mkRound (Ok []) []].
Definition demo_served (k : Consent.Asked) : Served :=
  mkServed (zone_of vault_toml) (fun _ => inl work_toml) (Some 9) false TRANSFER_MAX
    (fun _ => Some (mkTarget 458752 458752)) (fun _ => Some (mkTarget 458752 458752)) 100 100 0 k demo_faults.
Definition demo_fd : Fd := mkFd (Ok (mkStat true 9 3)) (Ok (mkFlags false true)).
Definition demo_world : World := mkWorld 0 0 None demo_chan
  {[ "work" := Directory 458752 {[ "a" := OtherNode ]} ]}.
(** Nobody answers. *)
Definition demo_silent : Consent.Asked := Consent.mkAsked (Some (Consent.mkOpened 0 false)) 0 Consent.WouldBlock 7
  (fun _ => Consent.mkAttempt (Some 255) true true true) [Consent.mkTick ∅ false true; Consent.mkTick ∅ true true].

Lemma transfer_consented_witness : exists fd st fl dz,
  transferable (demo_served demo_asked) "work" [demo_fd] (st_size st) fd st fl dz /\ z_name dz = "work".
Proof.
  destruct (handle_transfer (demo_served demo_asked) "work" "a" [demo_fd] demo_world) as [[[[final n]|e] w']|] eqn:E;
    [|vm_compute in E; discriminate..].
  destruct (transfer_consented _ _ _ _ _ _ _ _ E) as (fd & st & fl & dz & Ht & _).
  exists fd, st, fl, dz. split; [done|]. pose proof (tr_dest _ _ _ _ _ _ _ _ Ht) as Hd. vm_compute in Hd.
  injection Hd as <-. reflexivity.
Defined.


Lemma refusal_pauses_witness : exists w' e,
  handle_transfer (demo_served demo_asked) "work" "a" [demo_fd] w' = Some (Err e, w').
Proof.
  eexists. eapply (refusal_pauses (demo_served demo_silent) "work" "a" [demo_fd] demo_world);
    [vm_compute; reflexivity|by vm_compute|done|by vm_compute].
Defined.
