(* ===== verification/Broker.v ===== *)
(** * compartments/kryptikd/src/broker.rs: the requests of a zone

    The request line, the zone's clipboard, and a connection from its first byte to its reply.
    What recvmsg finds is a list of answers, what the rest of the daemon answers is in [Env]; the
    discipline of the clock (time.rs, in floating point) and the opening of a stick are answers
    too. *)
From S2P Require Import Prelude Bytes Text Names Dates Update Control Consent Zone Transfer.
Open Scope string_scope.
Open Scope list_scope.
Open Scope Z_scope.

Module Broker.

Abbreviation text := (list Z).

Definition CLIPBOARD_MAX : Z := Z.shiftl 1 20.
Definition MIME_TYPES : list string :=
  ["text/plain"; "text/plain;charset=utf-8"; "text/html"; "text/uri-list"; "image/png"; "image/jpeg";
   "application/octet-stream"].

(** time.rs's claim: the offset is the text of a decimal, whose value is a float. *)
Record Claim := mkClaim { c_offset : text; c_sources : Z }.

Inductive Request :=
| Version
| ClipboardSet (mime : string) (len : Z)
| ClipboardGet
| NotAZoneVerb (verb : string)
| Transfer (dest name : string)
| TimeOffset (c : Claim)
| UpdateLatest (plen slen : Z)
| UpdatePoll
| UpdatePut (name : text) (offset len : Z)
| Stick
| Unknown (verb : string).

Definition name (r : Request) : string :=
  match r with
  | Version => "version"
  | ClipboardSet _ _ => "clipboard-set"
  | ClipboardGet => "clipboard-get"
  | NotAZoneVerb _ => "zone 0 verb"
  | Transfer _ _ => "transfer"
  | TimeOffset _ => "time-offset"
  | UpdateLatest _ _ => "update-latest"
  | UpdatePoll => "update-poll"
  | UpdatePut _ _ _ => "update-put"
  | Stick => "stick"
  | Unknown _ => "unknown verb"
  end.

Inductive RequestError :=
| UnsupportedMime (mime : string)
| BadLength (len : text)
| OverClipboard (len : Z)
| BadName (e : NameError)
| NotAnOffset (secs : text)
| NotASourceCount (sources : text)
| NotASize (what : string) (w : text)
| BadOffset (w : text)
| BadPutLength (w : text)
| Usage (verb : string)
| EmptyRequest.

Definition is_digits (s : text) : bool := negb (bool_decide (s = [])) && forallb is_digit s.

(** time.rs's [parse_claim]. *)
Definition parse_claim (args : text) : result Claim RequestError :=
  match split 32 args with
  | [secs; sources] =>
    let body := match secs with c :: r => if (c =? 45) || (c =? 43) then r else secs | [] => secs end in
    let '(int, frac) := default (body, []) (split_once 46 body) in
    if negb (is_digits int) || (10 <? zlen (encode_chars int)) || (6 <? zlen (encode_chars frac))
       || (existsb (Z.eqb 46) body && negb (is_digits frac))
    then Err (NotAnOffset secs)
    else
      match parse_unsigned 255 sources with
      | Some n => if between 1 16 n && is_digits sources then Ok (mkClaim secs n) else Err (NotASourceCount sources)
      | None => Err (NotASourceCount sources)
      end
  | _ => Err (Usage "time-offset")
  end.

Definition size_of (what : string) (w : text) : result Z RequestError :=
  match parse_u64 w with
  | Some n => if between 1 Update.POINTER_MAX n then Ok n else Err (NotASize what w)
  | None => Err (NotASize what w)
  end.

Definition named (r : result unit NameError) : result unit RequestError :=
  match r with Ok _ => Ok tt | Err e => Err (BadName e) end.

Definition parse_request (line : text) : result Request RequestError :=
  match words line with
  | [] => Err EmptyRequest
  | verb :: rest =>
    let verb_is (v : string) := bool_decide (verb = chars v) in
    (if verb_is "version" && bool_decide (rest = []) then Ok Version
     else if verb_is "clipboard-get" && bool_decide (rest = []) then Ok ClipboardGet
     else if verb_is "clipboard-set" then
       match rest with
       | [mime; len] =>
         if negb (bool_decide (of_chars mime ∈ MIME_TYPES)) then Err (UnsupportedMime (of_chars mime))
         else
           let? n := ok_or (parse_u64 len) (BadLength len) in
           if CLIPBOARD_MAX <? n then Err (OverClipboard n) else Ok (ClipboardSet (of_chars mime) n)
       | _ => Err (Usage "clipboard-set")
       end
     else if verb_is "clipboard-move" then Ok (NotAZoneVerb (of_chars verb))
     else if verb_is "transfer" then
       match rest with
       | [dest; name] =>
         let? _ := named (check_zone_name dest) in
         let? _ := named (check_transfer_name name) in
         Ok (Transfer (of_chars dest) (of_chars name))
       | _ => Err (Usage "transfer")
       end
     else if verb_is "time-offset" then
       match rest with
       | [secs; sources] => let? c := parse_claim (secs ++ 32 :: sources) in Ok (TimeOffset c)
       | _ => Err (Usage "time-offset")
       end
     else if verb_is "update-latest" then
       match rest with
       | [plen; slen] =>
         let? p := size_of "pointer" plen in
         let? s := size_of "signature" slen in
         Ok (UpdateLatest p s)
       | _ => Err (Usage "update-latest")
       end
     else if verb_is "update-poll" then
       match rest with [] => Ok UpdatePoll | _ => Err (Usage "update-poll") end
     else if verb_is "update-put" then
       match rest with
       | [name; offset; len] =>
         let? _ := named (check_transfer_name name) in
         let? o := ok_or (parse_u64 offset) (BadOffset offset) in
         match parse_u64 len with
         | Some n => if between 1 Update.PUT_MAX n then Ok (UpdatePut name o n) else Err (BadPutLength len)
         | None => Err (BadPutLength len)
         end
       | _ => Err (Usage "update-put")
       end
     else if verb_is "stick" then
       match rest with [] => Ok Stick | _ => Err (Usage "stick") end
     else Ok (Unknown (of_chars verb)))%result
  end.

(** ** The clipboard of a zone, in its registry entry *)
Inductive ClipFile := NoFile | File (b : bytes) | Planted.
Inductive ClipError := CannotOpen | NoMimeLine | FileMime (mime : text) | FileOverLimit | WriteMime | WriteOverLimit
  | WriteFailed | NothingThere | StillOnSource.

Definition clipboard_read (f : ClipFile) : result (option (string * bytes)) ClipError :=
  match f with
  | NoFile => Ok None
  | Planted => Err CannotOpen
  | File b =>
    match cut_line (take (Z.to_nat (CLIPBOARD_MAX + 256)) b) with
    | None => Err NoMimeLine
    | Some (line, rest) =>
      let mime := utf8_lossy line in
      if negb (bool_decide (of_chars mime ∈ MIME_TYPES)) then Err (FileMime mime)
      else if CLIPBOARD_MAX <? zlen rest then Err FileOverLimit
      else Ok (Some (of_chars mime, rest))
    end
  end.

(** [clipboard_write]; [wrote]: the file was replaced, whole. *)
Definition clipboard_write (wrote : bool) (mime : string) (b : bytes) (f : ClipFile)
    : result unit ClipError * ClipFile :=
  if negb (bool_decide (mime ∈ MIME_TYPES)) then (Err WriteMime, f)
  else if CLIPBOARD_MAX <? zlen b then (Err WriteOverLimit, f)
  else if wrote then (Ok tt, File (as_bytes mime ++ x0a :: b)) else (Err WriteFailed, f).

Definition clipboard_move (wrote removed : bool) (from to : ClipFile)
    : result (string * Z) ClipError * ClipFile * ClipFile :=
  match clipboard_read from with
  | Err e => (Err e, from, to)
  | Ok None => (Err NothingThere, from, to)
  | Ok (Some (mime, b)) =>
    match clipboard_write wrote mime b to with
    | (Err e, to) => (Err e, from, to)
    | (Ok _, to) => if removed then (Ok (mime, zlen b), NoFile, to) else (Err StillOnSource, from, to)
    end
  end.

(** ** A connection *)

(** What one recvmsg answers: bytes (none at the end of the stream) and descriptors; an
    interruption or a timeout, which is retried; the deadline, found passed before the call; or
    an error. *)
Inductive Recv := Got (b : bytes) (fds : list Transfer.Fd) | Retry | Late | Broken.

Inductive ServeError := NoPeer | RecvFailed | TimedOut | Waiting.

Definition CHUNK : Z := 4096.
Definition HEADER_MAX : Z := 512.

(** One answer into [room] bytes: [recv_into], and [recv_first] with its descriptors. *)
Fixpoint recv_into (room : Z) (answers : list Recv) : result (bytes * list Transfer.Fd * list Recv) ServeError :=
  match answers with
  | [] => Err Waiting
  | Got b fds :: answers => Ok (take (Z.to_nat room) b, fds, answers)
  | Retry :: answers => recv_into room answers
  | Late :: _ => Err TimedOut
  | Broken :: _ => Err RecvFailed
  end.

(** The header: until a newline, the end, or [HEADER_MAX] bytes. *)
Definition has_line (buf : bytes) : bool := existsb (fun b => Z_of_byte b =? 10) buf.
Fixpoint read_header (answers : list Recv) (more : bool) (buf : bytes) : result (bytes * list Recv) ServeError :=
  if more && negb (has_line buf) && (zlen buf <? HEADER_MAX) then
    match answers with
    | [] => Err Waiting
    | Got b _ :: answers =>
      let b := take (Z.to_nat CHUNK) b in read_header answers (0 <? zlen b) (buf ++ b)
    | Retry :: answers => read_header answers more buf
    | Late :: _ => Err TimedOut
    | Broken :: _ => Err RecvFailed
    end
  else Ok (buf, answers).

(** [read_more]: [want] bytes, or what there is at the end of the stream. *)
Fixpoint read_more (want : Z) (answers : list Recv) (buf : bytes) : result (bytes * list Recv) ServeError :=
  if want <=? zlen buf then Ok (buf, answers)
  else
    match answers with
    | [] => Err Waiting
    | Got b _ :: answers =>
      let b := take (Z.to_nat (want - zlen buf)) b in
      if zlen b =? 0 then Ok (buf, answers) else read_more want answers (buf ++ b)
    | Retry :: answers => read_more want answers buf
    | Late :: _ => Err TimedOut
    | Broken :: _ => Err RecvFailed
    end.

(** What the zone is told. *)
Inductive TimeOutcome := ClockRefused | ClockDone (how : string).
Inductive UpAnswer :=
| UpLatest (s : Update.Standing)
| UpPoll (r : Update.Reply)
| UpPut (p : Update.Put)
| UpVerified (name : text).
Inductive Refused :=
| Malformed (e : RequestError)
| Unreadable (e : ServeError)
| NoHeader
| NotTransferred (e : Transfer.TransferError)
| ClockNo
| NotTheNicZone
| UpdateNo (e : Update.UpdateError)
| PayloadFailed (e : ServeError)
| PayloadShort (have want : Z)
| ClipboardNo (e : ClipError)
| StickNo
| ZoneZeroVerb (verb : string)
| UnknownVerb.
Inductive Reply :=
| Unidentified
| RefusedWith (why : Refused)
| VersionOf (zone : string)
| OkSet
| OkTransfer (final : string)
| OkTime (how : string)
| OkUpdate (a : UpAnswer)
| OkClip (mime : string) (b : bytes)
| EmptyClip
| OkStick (what : string).

Record Env := mkEnv {
  e_served : Transfer.Served;
  e_uid : Z;
  e_peer : option Z;
  e_wrote : bool;
  e_consider : Claim -> TimeOutcome;
  e_stick : option string;
  e_check : bytes -> bytes -> option string;
  e_role : option text;
  e_running : text;
  e_channel : option text;
  e_now : Z;
  e_applying : bool;
  e_trial : bool;
  e_verdict : Update.Pending -> result text string;
  e_free : option Z;
  e_meanwhile : Update.Pending -> Update.Dir -> Update.Dir;
}.

Record Conn := mkConn {
  k_recv : list Recv; k_world : Transfer.World; k_clip : ClipFile; k_dir : Update.Dir; k_out : list Reply }.

Definition with_recv (l : list Recv) (k : Conn) : Conn := mkConn l (k_world k) (k_clip k) (k_dir k) (k_out k).
Definition with_world (w : Transfer.World) (k : Conn) : Conn := mkConn (k_recv k) w (k_clip k) (k_dir k) (k_out k).
Definition with_clip (c : ClipFile) (k : Conn) : Conn := mkConn (k_recv k) (k_world k) c (k_dir k) (k_out k).
Definition with_dir (d : Update.Dir) (k : Conn) : Conn := mkConn (k_recv k) (k_world k) (k_clip k) d (k_out k).
Definition with_reply (r : Reply) (k : Conn) : Conn :=
  mkConn (k_recv k) (k_world k) (k_clip k) (k_dir k) (k_out k ++ [r]).

Abbreviation BM := (M Conn ServeError).

Definition reply (r : Reply) : BM unit := modify (with_reply r).

(** An operation of the update channel, its error kept. *)
Definition on_dir {A} (m : M Update.Dir Update.UpdateError A) : BM (result A Update.UpdateError) := fun k =>
  match m (k_dir k) with
  | (Done a, d) => (Done (Ok a), with_dir d k)
  | (Fail e, d) => (Done (Err e), with_dir d k)
  | (Panic, d) => (Panic, with_dir d k)
  end.

(** [handle_update]: [split_at] panics past the end. *)
Definition handle_update (e : Env) (req : Request) (payload : bytes) : M Update.Dir Update.UpdateError UpAnswer :=
  match req with
  | UpdateLatest plen _ =>
    role ← require (e_role e) Update.NoRole;
    _ ← unwrap (if plen <=? zlen payload then Some tt else None);
    s ← Update.latest (e_check e) (e_now e) role (e_running e)
          (take (Z.to_nat plen) payload) (drop (Z.to_nat plen) payload);
    mret (UpLatest s)
  | UpdatePoll =>
    role ← require (e_role e) Update.NoRole;
    Update.forget_if_installed (e_running e) (e_trial e);;
    match e_channel e with
    | None => mret (UpPoll Update.Idle)
    | Some channel =>
      r ← Update.poll channel role (e_running e) (e_now e) (e_applying e);
      mret (UpPoll r)
    end
  | UpdatePut name offset _ =>
    p ← Update.put (e_now e) name offset payload;
    match p with
    | Update.Checking pn =>
      modify (e_meanwhile e pn);;
      n ← Update.put_checked pn (e_verdict e pn) (e_free e);
      mret (UpVerified n)
    | _ => mret (UpPut p)
    end
  | _ => fail Update.NotAnUpdateVerb
  end.

Definition zone (e : Env) : Zone := Transfer.s_zone (e_served e).

(** The payload of a request, of a length that was checked. *)
Definition payload_len (r : Request) : Z :=
  match r with
  | UpdateLatest p s => p + s
  | UpdatePut _ _ len => len
  | ClipboardSet _ len => len
  | _ => 0
  end.

(** The verbs of the update channel: who asks is settled before a byte of payload is read. *)
Definition serve_update (e : Env) (req : Request) (rest : bytes) : BM unit :=
  if negb (bool_decide (z_network (zone e) = Nic)) then reply (RefusedWith NotTheNicZone)
  else
    answers ← gets k_recv;
    match read_more (payload_len req) answers rest with
    | Err Waiting => fail Waiting
    | Err err => reply (RefusedWith (PayloadFailed err))
    | Ok (rest, answers) =>
      modify (with_recv answers);;
      if zlen rest <? payload_len req then reply (RefusedWith (PayloadShort (zlen rest) (payload_len req)))
      else
        r ← on_dir (handle_update e req (take (Z.to_nat (payload_len req)) rest));
        reply (match r with Ok a => OkUpdate a | Err err => RefusedWith (UpdateNo err) end)
    end.

Definition serve_clipboard_set (e : Env) (mime : string) (len : Z) (rest : bytes) : BM unit :=
  answers ← gets k_recv;
  match read_more len answers rest with
  | Err Waiting => fail Waiting
  | Err err => reply (RefusedWith (PayloadFailed err))
  | Ok (rest, answers) =>
    modify (with_recv answers);;
    if zlen rest <? len then reply (RefusedWith (PayloadShort (zlen rest) len))
    else
      f ← gets k_clip;
      match clipboard_write (e_wrote e) mime (take (Z.to_nat len) rest) f with
      | (Ok _, f) => modify (with_clip f);; reply OkSet
      | (Err err, _) => reply (RefusedWith (ClipboardNo err))
      end
  end.

Definition serve_request (e : Env) (req : Request) (fds : list Transfer.Fd) (rest : bytes) : BM unit :=
  match req with
  | Version => reply (VersionOf (z_name (zone e)))
  | Transfer dest name =>
    w ← gets k_world;
    match Transfer.handle_transfer (e_served e) dest name fds w with
    | None => fail Waiting
    | Some (Ok (final, _), w) => modify (with_world w);; reply (OkTransfer final)
    | Some (Err err, w) => modify (with_world w);; reply (RefusedWith (NotTransferred err))
    end
  | TimeOffset c =>
    reply (if negb (bool_decide (z_network (zone e) = Nic)) then RefusedWith ClockNo
           else match e_consider e c with
                | ClockRefused => RefusedWith ClockNo
                | ClockDone how => OkTime how
                end)
  | UpdateLatest _ _ | UpdatePoll | UpdatePut _ _ _ => serve_update e req rest
  | ClipboardGet =>
    f ← gets k_clip;
    reply (match clipboard_read f with
           | Ok (Some (mime, b)) => OkClip mime b
           | Ok None => EmptyClip
           | Err err => RefusedWith (ClipboardNo err)
           end)
  | ClipboardSet mime len => serve_clipboard_set e mime len rest
  | Stick => reply (match e_stick e with Some what => OkStick what | None => RefusedWith StickNo end)
  | NotAZoneVerb v => reply (RefusedWith (ZoneZeroVerb v))
  | Unknown _ => reply (RefusedWith UnknownVerb)
  end.

(** [serve_connection]: the name of the request, for the log. *)
Definition serve_connection (e : Env) : BM (option string) :=
  uid ← require (e_peer e) NoPeer;
  if negb (uid =? e_uid e) then reply Unidentified;; mret None
  else
    answers ← gets k_recv;
    match recv_into CHUNK answers with
    | Err Waiting => fail Waiting
    | Err err => reply (RefusedWith (Unreadable err));; mret None
    | Ok (buf, fds, answers) =>
      '(buf, answers) ← lift (read_header answers (0 <? zlen buf) buf);
      modify (with_recv answers);;
      match cut_line buf with
      | None => reply (RefusedWith NoHeader);; mret None
      | Some (header, rest) =>
        match parse_request (utf8_lossy header) with
        | Err why => reply (RefusedWith (Malformed why));; mret (Some "malformed request")
        | Ok req => serve_request e req fds rest;; mret (Some (name req))
        end
      end
    end.

End Broker.
