(* ===== verification/BrokerClaims.v ===== *)
(** * What the broker promises a machine, whatever its zone sends *)
From S2P Require Import Prelude Bytes Text Names Dates Update UpdateClaims Control Consent Zone.
From S2P Require Import ZoneClaims Transfer TransferClaims Broker.
From stdpp Require Import relations.
Import Broker.
Open Scope string_scope.
Open Scope list_scope.
Open Scope Z_scope.

(** ** Requests *)
Definition zone_name (n : list Z) : Prop :=
  n <> [] /\ zlen n <= 12 /\ Forall (fun c => is_lower c = true \/ is_digit c = true \/ c = 45) n.

Definition request_ok (r : Request) : Prop :=
  match r with
  | ClipboardSet mime len => mime ∈ MIME_TYPES /\ 0 <= len <= CLIPBOARD_MAX
  | Transfer dest name => exists d n, dest = of_chars d /\ name = of_chars n /\ zone_name d /\ file_name n
  | TimeOffset c => 1 <= c_sources c <= 16
  | UpdateLatest p s => 1 <= p <= Update.POINTER_MAX /\ 1 <= s <= Update.POINTER_MAX
  | UpdatePut name offset len => file_name name /\ 0 <= offset <= Text.U64_MAX /\ 1 <= len <= Update.PUT_MAX
  | _ => True
  end.

Lemma check_zone_name_ok n : check_zone_name n = Ok tt -> zone_name n.
Proof.
  unfold check_zone_name. case_bool_decide; [done|]. cbn [orb].
  destruct (Z.ltb_spec 12 (zlen (encode_chars n))); [done|]. destruct (forallb _ n) eqn:Hf; [|done]. intros _.
  rewrite forallb_Forall in Hf. assert (Forall (fun c => is_lower c = true \/ is_digit c = true \/ c = 45) n) as Hn.
  { eapply Forall_impl; [apply Hf|]. intros c Hc. cbn in Hc.
    apply orb_true_iff in Hc as [[?|?]%orb_true_iff|?%Z.eqb_eq]; auto. }
  split_and!; [done| |done]. rewrite encode_ascii in *; [lia|]. eapply Forall_impl; [apply Hn|].
  unfold is_lower, is_digit, Bytes.between. cbn. lia.
Qed.

Lemma named_ok r : named r = Ok tt -> r = Ok tt.
Proof. by destruct r as [[]|]. Qed.

Lemma size_of_ok what w n : size_of what w = Ok n -> 1 <= n <= Update.POINTER_MAX.
Proof.
  unfold size_of. destruct (parse_u64 w) as [m|]; [|done]. destruct (Bytes.between 1 _ m) eqn:Hb; [|done].
  intros [= <-]. unfold Bytes.between in Hb. lia.
Qed.

Lemma parse_claim_ok t c : parse_claim t = Ok c -> 1 <= c_sources c <= 16.
Proof.
  unfold parse_claim. destruct (Text.split _ _) as [|secs [|sources []]]; try done.
  destruct (default _ _) as [int frac]. destruct (_ || _); [done|].
  destruct (parse_unsigned 255 sources) as [n|]; [|done]. destruct (Bytes.between 1 16 n && _) eqn:Hb; [|done].
  intros [= <-]. cbn. apply andb_true_iff in Hb as [Hb _]. unfold Bytes.between in Hb. lia.
Qed.

Lemma payload_bounded r : request_ok r -> 0 <= payload_len r <= CLIPBOARD_MAX.
Proof.
  destruct r; cbn; unfold CLIPBOARD_MAX, Update.POINTER_MAX, Update.PUT_MAX; change (Z.shiftl 1 20) with 1048576; lia.
Qed.

Lemma parse_request_ok line r : parse_request line = Ok r -> request_ok r.
Proof.
  unfold parse_request.
  destruct (words line) as [|verb rest]; [done|].
  destruct (_ && _); [by intros [= <-]|]. destruct (_ && _); [by intros [= <-]|].
  destruct (bool_decide _).
  { destruct rest as [|mime [|len []]]; try done. case_bool_decide; [cbn [negb]|done].
    intros H'. bind_inv. destruct (Z.ltb_spec CLIPBOARD_MAX a); [done|]. injection H' as <-.
    destruct (parse_u64 len) as [n|] eqn:Hn; [|done]. injection E as <-. apply parse_u64_range in Hn. split; [done|lia]. }
  destruct (bool_decide _); [by intros [= <-]|]. destruct (bool_decide _).
  { destruct rest as [|dest [|nm []]]; try done. intros H'. bind_inv. injection H' as <-.
    exists dest, nm. split_and!; [done..| |]; [by apply check_zone_name_ok, named_ok|].
    by apply check_transfer_name_ok, named_ok. }
  destruct (bool_decide _).
  { destruct rest as [|secs [|sources []]]; try done. intros H'. bind_inv. injection H' as <-. by eapply parse_claim_ok. }
  destruct (bool_decide _).
  { destruct rest as [|p [|s []]]; try done. intros H'. bind_inv. injection H' as <-. split; by eapply size_of_ok. }
  destruct (bool_decide _); [by destruct rest; [intros [= <-]|]|]. destruct (bool_decide _).
  { destruct rest as [|nm [|offset [|len []]]]; try done. intros H'. bind_inv.
    destruct (parse_u64 len) as [n|]; [|done]. destruct (Bytes.between 1 _ n) eqn:Hb; [|done]. injection H' as <-.
    split; [by apply check_transfer_name_ok, named_ok|]. unfold Bytes.between in Hb.
    destruct (parse_u64 offset) as [o|] eqn:Ho; [|done]. injection E0 as <-. apply parse_u64_range in Ho. split; lia. }
  destruct (bool_decide _); [by destruct rest; [intros [= <-]|]|]. by intros [= <-].
Qed.

(** ** Reading *)
Lemma recv_into_bound room answers b fds rest : 0 <= room ->
  recv_into room answers = Ok (b, fds, rest) -> zlen b <= room.
Proof.
  intros Hr. induction answers as [|[b' fds'| | |] answers IH]; cbn [recv_into]; try done.
  intros [= <- _ _]. by apply zlen_take_le.
Qed.

Lemma read_header_bound answers more buf buf' rest : zlen buf <= HEADER_MAX - 1 + CHUNK ->
  read_header answers more buf = Ok (buf', rest) -> zlen buf' <= HEADER_MAX - 1 + CHUNK.
Proof.
  revert more buf. induction answers as [|a answers IH]; intros more buf Hb; cbn [read_header];
    (destruct (_ && _) eqn:Hc; [|by intros [= <- _]]).
  - done.
  - apply andb_true_iff in Hc as [_ Hc]. apply Z.ltb_lt in Hc.
    destruct a as [b fds| | |]; try done; [|by apply IH].
    apply IH. rewrite zlen_app. pose proof (zlen_take_le CHUNK b ltac:(done)). lia.
Qed.

Lemma read_more_bound want answers buf buf' rest :
  read_more want answers buf = Ok (buf', rest) -> zlen buf' <= Z.max want (zlen buf) /\ exists more, buf' = buf ++ more.
Proof.
  revert buf. induction answers as [|a answers IH]; intros buf; cbn [read_more];
    (destruct (Z.leb_spec want (zlen buf)); [intros [= <- _]; split; [lia|exists []; by rewrite app_nil_r]|]).
  - done.
  - destruct a as [b fds| | |]; try done; [|by apply IH].
    pose proof (zlen_take_le (want - zlen buf) b ltac:(lia)).
    destruct (_ =? 0); [intros [= <- _]; split; [lia|exists []; by rewrite app_nil_r]|].
    intros (Hl & more & ->)%IH. rewrite zlen_app in Hl. split; [rewrite !zlen_app in *; lia|].
    eexists (_ ++ more). by rewrite (assoc_L (++)).
Qed.

Lemma cut_line_Some buf header tail : cut_line buf = Some (header, tail) -> buf = header ++ x0a :: tail.
Proof.
  revert header. induction buf as [|b buf IH]; intros header; cbn [cut_line]; [done|].
  destruct (Z.eqb_spec (Z_of_byte b) 10) as [E|].
  - intros [= <- <-]. cbn. f_equal. by apply Z_of_byte_inj.
  - intros ([h t] & E & [= -> ->])%fmap_Some. cbn. f_equal. by apply IH.
Qed.

(** ** The update channel behind the broker *)
Section refines.
Context (check : bytes -> bytes -> option string) (role : list Z).

(** A computation's state afterwards. *)
Lemma wp_self {A} (m : M Update.Dir Update.UpdateError A) Q R d : wp m Q R d ->
  wp m (fun _ s => s = (m d).2) (fun _ s => s = (m d).2) d.
Proof. unfold wp. by destruct (m d) as [[?|?|] ?]. Qed.

Abbreviation moves d := (fun d' => rtc (mstep check role) (mkMachine d None) (mkMachine d' None)).

(** An operation that is one step of the machine. *)
Lemma wp_moves {A} (m : M Update.Dir Update.UpdateError A) Q R d :
  wp m Q R d -> mstep check role (mkMachine d None) (mkMachine (m d).2 None) ->
  wp m (fun _ => moves d) (fun _ => moves d) d.
Proof.
  intros Hw Hs. eapply wp_mono; [| |by eapply wp_self]; intros ? ? ->; by apply rtc_once.
Qed.

Lemma latest_moves now running ptr sig d : dir_ok d ->
  wp (Update.latest check now role running ptr sig) (fun _ => moves d) (fun _ => moves d) d.
Proof. intros Hd. eapply wp_moves; [by apply latest_keeps|apply S_latest]. Qed.

Lemma poll_moves channel running now applying d : dir_ok d ->
  wp (Update.poll channel role running now applying) (fun _ => moves d) (fun _ => moves d) d.
Proof. intros Hd. eapply wp_moves; [by apply poll_keeps|apply S_poll]. Qed.

Lemma installed_moves running trial d : dir_ok d ->
  wp (Update.forget_if_installed running trial) (fun _ => moves d) (fun _ => moves d) d.
Proof. intros Hd. eapply wp_moves; [by apply forget_if_installed_keeps|apply S_installed]. Qed.

(** What others do while a manifest is checked are steps of the machine. *)
Definition interleaved (e : Env) : Prop := forall pn d,
  rtc (mstep check role) (mkMachine d (Some pn)) (mkMachine (e_meanwhile e pn d) (Some pn)).

Lemma moves_ok d d' : dir_ok d -> moves d d' -> dir_ok d'.
Proof. intros Hd H. apply msteps_ok in H as [[H _] _]; [done|by apply machine_idle]. Qed.

Lemma put_moves e now name offset b d : interleaved e -> dir_ok d ->
  wp (p ← Update.put now name offset b;
      match p with
      | Update.Checking pn =>
        modify (e_meanwhile e pn);;
        n ← Update.put_checked pn (e_verdict e pn) (e_free e);
        mret (UpVerified n)
      | _ => mret (UpPut p)
      end) (fun _ => moves d) (fun _ => moves d) d.
Proof.
  intros He Hd. pose proof (S_put check role d now name offset b) as Hs.
  pose proof (put_keeps now name offset b d Hd) as Hk. apply wp_bind. unfold wp in Hk |- * at 1.
  destruct (Update.put now name offset b d) as [[p|err|] d1]; cbn [fst snd pending] in Hs; [| |done].
  - destruct p as [n|n h z|pn]; cbn [pending] in Hs; [by apply wp_ret, rtc_once..|].
    apply wp_bind, wp_modify, wp_bind. destruct Hk as [[Hd1 Hf1 _] Hn1]. specialize (He pn d1).
    destruct (msteps_ok check role _ _ He) as [[Hd2 Hf2] _]; [by split|]. cbn [m_dir m_checking] in *.
    pose proof (S_checked check role (e_meanwhile e pn d1) pn (e_verdict e pn) (e_free e)) as Hc.
    eapply wp_mono; [| |eapply wp_self, put_checked_keeps; [done|by apply Hf2]].
    + intros n d2 ->. apply wp_ret. eapply rtc_l; [exact Hs|]. etrans; [exact He|by apply rtc_once].
    + intros n d2 ->. eapply rtc_l; [exact Hs|]. etrans; [exact He|by apply rtc_once].
  - by apply rtc_once.
Qed.

Lemma handle_update_moves e req payload d : interleaved e -> e_check e = check ->
  (e_role e = None \/ e_role e = Some role) -> dir_ok d ->
  (forall p s, req = UpdateLatest p s -> p <= zlen payload) ->
  wp (handle_update e req payload) (fun _ => moves d) (fun _ => moves d) d.
Proof.
  intros He Hc Hr Hd Hp.
  destruct req; try (apply wp_fail, rtc_refl); cbn [handle_update].
  - apply wp_bind, wp_require; [intros r Er|by intros _; apply rtc_refl].
    assert (r = role) as -> by (destruct Hr; congruence). eapply wp_bind, wp_unwrap.
    { by rewrite (proj2 (Z.leb_le _ _) (Hp _ _ eq_refl)). }
    apply wp_bind. rewrite Hc. eapply wp_mono; [| |by apply latest_moves]; [|done]. by intros s d' H; apply wp_ret.
  - apply wp_bind, wp_require; [intros r Er|by intros _; apply rtc_refl].
    assert (r = role) as -> by (destruct Hr; congruence). apply wp_bind.
    eapply wp_mono; [| |by apply installed_moves]; [|done]. intros [] d1 H1. cbv beta in H1.
    destruct (e_channel e) as [ch|]; [|by apply wp_ret]. apply wp_bind.
    eapply wp_mono; [| |apply poll_moves; by eapply moves_ok].
    + intros rp d2 H2. apply wp_ret. by etrans.
    + intros err d2 H2. by etrans.
  - by apply put_moves.
Qed.

(** ** A connection *)

(** A connection that is answered: one reply; the update directory moves as the machine does, and
    only for the zone that holds the network; the clipboard changes only when it was set. *)
Record handled (e : Env) (k k' : Conn) (r : Reply) : Prop := {
  h_reply : k_out k' = k_out k ++ [r];
  h_moves : moves (k_dir k) (k_dir k');
  h_nic : z_network (zone e) <> Nic -> k_dir k' = k_dir k;
  h_clip : r <> OkSet -> k_clip k' = k_clip k;
  h_foreign : e_peer e <> Some (e_uid e) -> r = Unidentified /\ k_recv k' = k_recv k /\ k_world k' = k_world k;
}.
(** One that is not: nothing but input is consumed. *)
Definition untouched (k k' : Conn) : Prop :=
  k_out k' = k_out k /\ k_dir k' = k_dir k /\ k_clip k' = k_clip k /\ k_world k' = k_world k.

Abbreviation serves m e k0 k :=
  (wp m (fun _ k' => exists r, handled e k0 k' r) (fun _ k' => untouched k0 k') k).

(** Before the reply, nothing of the zone's state has changed. *)
Definition since (e : Env) (k0 k : Conn) : Prop := untouched k0 k /\ e_peer e = Some (e_uid e).

Lemma handled_reply e k0 k r : since e k0 k -> handled e k0 (with_reply r k) r.
Proof.
  intros [(Ho & Hd & Hc & Hw) Hp]. split; cbn; [congruence|rewrite Hd; apply rtc_refl|congruence|congruence|congruence].
Qed.

Lemma serves_reply e k0 k r : since e k0 k -> serves (reply r) e k0 k.
Proof. intros H. apply wp_modify. eexists. by apply handled_reply. Qed.

Lemma since_recv e k0 k l : since e k0 k -> since e k0 (with_recv l k).
Proof. done. Qed.

Lemma wp_on_dir {A} (m : M Update.Dir Update.UpdateError A) (Q : result A Update.UpdateError -> Conn -> Prop) R k :
  wp m (fun a d => Q (Ok a) (with_dir d k)) (fun err d => Q (Err err) (with_dir d k)) (k_dir k) ->
  wp (on_dir m) Q R k.
Proof. unfold wp, on_dir. by destruct (m (k_dir k)) as [[?|?|] ?]. Qed.

Lemma serves_update e req rest k0 k : interleaved e -> e_check e = check ->
  (e_role e = None \/ e_role e = Some role) -> dir_ok (k_dir k) -> since e k0 k -> request_ok req ->
  serves (serve_update e req rest) e k0 k.
Proof.
  intros He Hc Hr Hd Hs Hq. unfold serve_update. destruct (bool_decide_reflect (z_network (zone e) = Nic)) as [Hn|];
    cbn [negb]; [|by apply serves_reply].
  apply wp_bind, wp_gets. destruct (read_more _ _ _) as [[rest' answers]|err] eqn:Hm.
  2:{ destruct err; first [apply wp_fail; apply Hs|by apply serves_reply]. }
  apply wp_bind, wp_modify. destruct (Z.ltb_spec (zlen rest') (payload_len req)); [by apply serves_reply|].
  apply wp_bind, wp_on_dir. pose proof Hs as [(Ho & Hdir & Hcl & Hw) Hp].
  eapply wp_mono; [| |apply (handle_update_moves e req _ _ He Hc Hr)]; [| |done|].
  - intros a d' H'. apply wp_modify. eexists. split; cbn; [by rewrite Ho|by rewrite <-Hdir|done|done|done].
  - intros a d' H'. apply wp_modify. eexists. split; cbn; [by rewrite Ho|by rewrite <-Hdir|done|done|done].
  - intros p s ->. cbn [payload_len request_ok] in *. unfold zlen in *. rewrite length_take. lia.
Qed.

Lemma serves_request e req fds rest k0 k : interleaved e -> e_check e = check ->
  (e_role e = None \/ e_role e = Some role) -> dir_ok (k_dir k) -> since e k0 k -> request_ok req ->
  serves (serve_request e req fds rest) e k0 k.
Proof.
  intros He Hc Hr Hd Hs Hq. destruct req; cbn [serve_request]; try (by apply serves_reply);
    try (by apply serves_update).
  - apply wp_bind, wp_gets. destruct (read_more _ _ _) as [[rest' answers]|err] eqn:Hm.
    2:{ destruct err; first [apply wp_fail; apply Hs|by apply serves_reply]. }
    apply wp_bind, wp_modify. destruct (_ <? _); [by apply serves_reply|]. apply wp_bind, wp_gets.
    destruct (clipboard_write _ _ _ _) as [[[]|err] f]; [|by apply serves_reply].
    apply wp_bind, wp_modify, wp_modify. exists OkSet. pose proof Hs as [(Ho & Hdir & Hcl & Hw) Hp].
    split; cbn; [congruence|rewrite Hdir; apply rtc_refl|done|done|congruence].
  - apply wp_bind, wp_gets. destruct (Transfer.handle_transfer _ _ _ _ _) as [[[[final n]|err] w]|].
    + apply wp_bind, wp_modify, wp_modify. eexists. pose proof Hs as [(Ho & Hdir & Hcl & Hw) Hp].
      split; cbn; [by rewrite Ho|rewrite Hdir; apply rtc_refl|done|done|congruence].
    + apply wp_bind, wp_modify, wp_modify. eexists. pose proof Hs as [(Ho & Hdir & Hcl & Hw) Hp].
      split; cbn; [by rewrite Ho|rewrite Hdir; apply rtc_refl|done|done|congruence].
    + apply wp_fail. apply Hs.
Qed.

Lemma serves_ret {A} (m : BM unit) e k0 k (a : A) : serves m e k0 k -> serves (m;; mret a) e k0 k.
Proof. intros H. apply wp_bind. eapply wp_mono; [| |exact H]; [|done]. intros ? k' H'. by apply wp_ret. Qed.

Lemma serves_connection e k : interleaved e -> e_check e = check ->
  (e_role e = None \/ e_role e = Some role) -> dir_ok (k_dir k) -> serves (serve_connection e) e k k.
Proof.
  intros He Hc Hr Hd. unfold serve_connection. apply wp_bind, wp_require; [intros uid Hu|done].
  destruct (Z.eqb_spec uid (e_uid e)) as [->|Hne]; cbn [negb].
  2:{ apply wp_bind, wp_modify, wp_ret. exists Unidentified. split; cbn; [done|apply rtc_refl|done|done|done]. }
  assert (forall l, since e k (with_recv l k)) as Hs by done.
  assert (since e k k) as Hs0 by done.
  apply wp_bind, wp_gets. destruct (recv_into _ _) as [[[buf fds] answers]|err].
  2:{ destruct err; first [by apply wp_fail|by apply serves_ret, serves_reply]. }
  apply wp_bind, wp_lift; [intros [buf' answers'] Hh|by intros err _].
  apply wp_bind, wp_modify. destruct (cut_line buf') as [[header rest]|]; [|by apply serves_ret, serves_reply].
  destruct (parse_request _) as [req|why] eqn:Hp; [|by apply serves_ret, serves_reply].
  apply serves_ret, serves_request; try done. by eapply parse_request_ok.
Qed.

End refines.

(** ** The clipboard *)
Lemma mime_plain m : m ∈ MIME_TYPES ->
  utf8 (as_bytes m) = Some (chars m) /\ of_chars (chars m) = m /\ Forall (fun b => plain_byte b = true) (as_bytes m) /\
  zlen (as_bytes m) <= 24.
Proof.
  intros H. unfold MIME_TYPES in H. repeat (apply elem_of_cons in H as [->|H]; [|]); [..|by apply not_elem_of_nil in H];
    (split_and!; [by vm_compute|by vm_compute|by repeat constructor|by vm_compute]).
Qed.

Lemma clipboard_read_write mime b f f' : clipboard_write true mime b f = (Ok tt, f') ->
  clipboard_read f' = Ok (Some (mime, b)).
Proof.
  unfold clipboard_write. case_bool_decide as Hm; [cbn [negb]|done].
  destruct (Z.ltb_spec CLIPBOARD_MAX (zlen b)) as [|Hb]; [done|]. intros [= <-].
  destruct (mime_plain mime Hm) as (Hu & Hoc & Hp & Hl). unfold clipboard_read.
  rewrite take_ge by (unfold zlen, CLIPBOARD_MAX in *; rewrite length_app; cbn [length]; lia).
  pose proof (cut_line_app _ b Hp) as Hc. cbn [app] in Hc. rewrite Hc, (utf8_lossy_utf8 _ _ Hu), Hoc.
  rewrite bool_decide_eq_true_2 by done. cbn [negb]. by rewrite (proj2 (Z.ltb_ge _ _)).
Qed.

(** ** Claims *)

(** A request line that is accepted asks for no more than its verb allows: a
    payload of at most 1 MiB, one of the fixed clipboard types, names of one plain component, and
    lengths and offsets within their types. *)
Theorem request_bounded line r :
  parse_request line = Ok r -> request_ok r /\ 0 <= payload_len r <= CLIPBOARD_MAX.
Proof. intros H%parse_request_ok. split; [done|by apply payload_bounded]. Qed.

(** C11: A connection, whatever a zone sends over it, never panics. Seen from the
    update channel it is a sequence of that machine's steps, so every state it leaves is one the
    machine can reach; a connection that is answered gets one reply, and one that fails while it
    is read changes nothing. Only the zone that holds the network moves the channel at all. *)
Theorem broker_refines check role e k : interleaved check role e -> e_check e = check ->
  (e_role e = None \/ e_role e = Some role) -> reachable check role (mkMachine (k_dir k) None) ->
  wp (serve_connection e)
    (fun _ k' => exists r, handled check role e k k' r /\ reachable check role (mkMachine (k_dir k') None))
    (fun _ k' => untouched k k') k.
Proof.
  intros He Hc Hr Hk. pose proof (reachable_ok _ _ _ Hk) as [Hd _].
  eapply wp_mono; [| |by apply (serves_connection check role)]; [|done].
  intros o k' (r & H). exists r. split; [done|]. unfold reachable in *. etrans; [exact Hk|apply H].
Qed.

(** A peer that is not the zone is told it is unidentified and nothing else: its
    bytes are not even read, and nothing changes. *)
Theorem foreign_peer e k uid : e_peer e = Some uid -> uid <> e_uid e ->
  serve_connection e k = (Done None, with_reply Unidentified k).
Proof.
  intros Hp Hu. assert (wp (serve_connection e) (fun o k' => o = None /\ k' = with_reply Unidentified k) (fun _ _ => False) k) as H.
  { unfold serve_connection. apply wp_bind, wp_require; [intros u Eu|congruence].
    assert (u = uid) as -> by congruence. destruct (Z.eqb_spec uid (e_uid e)); [done|]. cbn [negb].
    by apply wp_bind, wp_modify, wp_ret. }
  unfold wp in H. destruct (serve_connection e k) as [[o|err|] k']; [|done..]. by destruct H as [-> ->].
Qed.

(** What a zone puts on its clipboard it gets back, type and bytes; moved to
    another zone it is read there as it was, and the source is empty: one payload crosses, once. *)
Theorem clipboard_exact mime b f to : mime ∈ MIME_TYPES -> zlen b <= CLIPBOARD_MAX ->
  exists f', clipboard_write true mime b f = (Ok tt, f') /\ clipboard_read f' = Ok (Some (mime, b)) /\
  exists to', clipboard_move true true f' to = (Ok (mime, zlen b), NoFile, to') /\
    clipboard_read to' = Ok (Some (mime, b)).
Proof.
  intros Hm Hb. assert (forall f, clipboard_write true mime b f = (Ok tt, File (as_bytes mime ++ x0a :: b))) as Hw.
  { intros g. unfold clipboard_write. rewrite bool_decide_eq_true_2 by done. cbn [negb]. by rewrite (proj2 (Z.ltb_ge _ _)). }
  eexists. split; [apply Hw|]. pose proof (clipboard_read_write _ _ _ _ (Hw f)) as Hr. split; [done|].
  eexists. unfold clipboard_move. rewrite Hr, Hw. by split.
Qed.

(** Whatever arrives and however it is cut, the broker holds at most 4607 bytes of
    a request before its line ends, and after that no more than the line left or the payload its
    verb may have, whichever is more. *)
Theorem reads_bounded answers buf fds rest buf' rest' header tail req buf'' rest'' :
  recv_into CHUNK answers = Ok (buf, fds, rest) ->
  read_header rest (0 <? zlen buf) buf = Ok (buf', rest') ->
  cut_line buf' = Some (header, tail) -> parse_request (utf8_lossy header) = Ok req ->
  read_more (payload_len req) rest' tail = Ok (buf'', rest'') ->
  zlen buf' <= 4607 /\ zlen buf'' <= Z.max CLIPBOARD_MAX 4607.
Proof.
  intros H1 H2 H3 H4%parse_request_ok H5. apply recv_into_bound in H1; [|done].
  apply read_header_bound in H2; [|unfold HEADER_MAX, CHUNK in *; lia]. change (HEADER_MAX - 1 + CHUNK) with 4607 in H2.
  split; [done|]. apply read_more_bound in H5 as [H5 _]. pose proof (payload_bounded req H4).
  assert (zlen tail <= zlen buf').
  { apply cut_line_Some in H3 as ->. rewrite zlen_app, zlen_cons. pose proof (zlen_nonneg header). lia. }
  lia.
Qed.

(** ** Witnesses: the net zone brings the next bytes of a release *)
Definition net_served : Transfer.Served :=
  Transfer.mkServed (zone_of net_toml) (fun _ => inr "no such file") None false TRANSFER_MAX (fun _ => None)
    (fun _ => None) 0 0 0 demo_silent demo_faults.
Definition net_env : Env := mkEnv net_served 196608 (Some 196608) true (fun _ => ClockRefused) None
  UpdateClaims.Demo.check (Some UpdateClaims.Demo.role) UpdateClaims.Demo.running
  (Some UpdateClaims.Demo.channel) UpdateClaims.Demo.now false false (fun _ => Err "not asked") None (fun _ d => d).
Definition net_conn (d : Update.Dir) : Conn :=
  mkConn [Got (as_bytes "update-put root") []; Retry; Got (as_bytes ".img 1 2" ++ x0a :: as_bytes "b") [];
          Got (as_bytes "c") []] demo_world NoFile d [].

Lemma request_bounded_witness : exists r, parse_request (chars "update-put root.img 1 2") = Ok r /\
  request_ok r /\ 0 <= payload_len r <= CLIPBOARD_MAX.
Proof.
  eexists. split; [vm_compute; reflexivity|].
  eapply (request_bounded (chars "update-put root.img 1 2")). vm_compute. reflexivity.
Defined.

Lemma broker_refines_witness :
  (exists r, (serve_connection net_env (net_conn UpdateClaims.Demo.part)).1 = Done (Some "update-put") /\
     k_out (serve_connection net_env (net_conn UpdateClaims.Demo.part)).2 = [OkUpdate (UpPut (Update.Arrived r))]) /\
  wp (serve_connection net_env)
    (fun _ k' => exists r, handled UpdateClaims.Demo.check UpdateClaims.Demo.role net_env
       (net_conn UpdateClaims.Demo.part) k' r /\
       reachable UpdateClaims.Demo.check UpdateClaims.Demo.role (mkMachine (k_dir k') None))
    (fun _ k' => untouched (net_conn UpdateClaims.Demo.part) k') (net_conn UpdateClaims.Demo.part).
Proof.
  split; [eexists; split; vm_compute; reflexivity|].
  apply (broker_refines UpdateClaims.Demo.check UpdateClaims.Demo.role); [|done|by right|apply UpdateClaims.Demo.part_reachable].
  intros pn d. apply rtc_refl.
Defined.

Definition foreign_env : Env := mkEnv net_served 1 (Some 196608) true (fun _ => ClockRefused) None
  UpdateClaims.Demo.check None [] None 0 false false (fun _ => Err "not asked") None (fun _ d => d).

Lemma foreign_peer_witness :
  serve_connection foreign_env (net_conn Update.empty_dir) = (Done None, with_reply Unidentified (net_conn Update.empty_dir)).
Proof. apply (foreign_peer foreign_env (net_conn Update.empty_dir) 196608); [reflexivity|discriminate]. Defined.

Lemma clipboard_exact_witness : exists f', clipboard_write true "text/plain" (as_bytes "hi") NoFile = (Ok tt, f') /\
  clipboard_read f' = Ok (Some ("text/plain", as_bytes "hi")) /\
  exists to', clipboard_move true true f' Planted = (Ok ("text/plain", 2), NoFile, to') /\
    clipboard_read to' = Ok (Some ("text/plain", as_bytes "hi")).
Proof. apply (clipboard_exact "text/plain" (as_bytes "hi") NoFile Planted); [left|by vm_compute]. Defined.
