(* ===== verification/Exfat.v ===== *)
(** * tools/stick/src/exfat.rs: exFAT, read only

    The reader of a stick another machine wrote. The device answers each read as it likes, also
    differently from one read to the next ([v_read] has the number of the read); every read is
    kept in a log. Values the source keeps behind [&mut] (how far a run or a directory has been
    read, the budget) are passed along. Integers are unbounded [Z], and an operation that could
    overflow, an index out of range and a loop out of fuel panic.

    The up-case table is the vector of all 65536 units, as a map of those that are not their own
    capital. *)
From S2P Require Import Prelude Bytes Text.
Open Scope string_scope.
Open Scope list_scope.
Open Scope Z_scope.

Module Exfat.

Abbreviation text := (list Z).

Definition PIECE : Z := 4096.
Definition UPCASE_MAX : Z := 131072.
Definition DIR_MAX : Z := Z.shiftl 256 20.
(** main.rs's. *)
Definition DIR_ENTRIES_MAX : Z := 65536.
Definition MAX_DEPTH : nat := 32.

Inductive ExErr :=
| ReadFailed | NoExfat | NotBoot | SizesOut | LiesOutside | BootChecksum | ChainLeaves | EndsEarly
| OutsideHeap | ChainLoops | NotWholeEntries | LongLabel | NoUpcase | UpcaseLength | UpcaseEnds
| UpcaseChecksum | UpcasePast | NoBitmap | BitmapLength | SetOffEnd | StraySecondary | UnknownEntry
| SetSize | SetChecksum | NoStream | NamePast | NameOrder | ValidPast | DataOutside | DataPast
| DirLength | Malformed | NotADirectory | NotOnStick | NoLocalName (n : text) | TooDeep
| CannotCreate | CannotWrite.

(** ** The device *)
Record Device := mkDevice { v_size : option Z; v_read : Z -> Z -> Z -> option bytes }.
Record Disk := mkDisk { k_dev : Device; k_log : list (Z * Z) }.

(** [read_at]: an answer of another length than asked is the end of the device. *)
Definition read_at (at_ len : Z) : M Disk ExErr bytes := fun k =>
  let k' := mkDisk (k_dev k) (k_log k ++ [(at_, len)]) in
  match v_read (k_dev k) (zlen (k_log k)) at_ len with
  | Some b => if zlen b =? len then (Done b, k') else (Fail ReadFailed, k')
  | None => (Fail ReadFailed, k')
  end.

(** Little-endian fields of an array of bytes, at places within it. *)
Definition byte_at (b : bytes) (i : Z) : Z := match zlookup b i with Some x => Z_of_byte x | None => 0 end.
Definition le16 (b : bytes) (i : Z) : Z := byte_at b i + 256 * byte_at b (i + 1).
Definition le32 (b : bytes) (i : Z) : Z := le16 b i + 65536 * le16 b (i + 2).
Definition le64 (b : bytes) (i : Z) : Z := le32 b i + 4294967296 * le32 b (i + 4).

(** [rotate_right(1).wrapping_add(b)], at a width. *)
Definition rot_add (width s b : Z) : Z := (s / 2 + s mod 2 * 2 ^ (width - 1) + b) mod 2 ^ width.
Fixpoint checksum (width : Z) (skip : Z -> bool) (i s : Z) (l : bytes) : Z :=
  match l with
  | [] => s
  | b :: l => checksum width skip (i + 1) (if skip i then s else rot_add width s (Z_of_byte b)) l
  end.

(** [chunks(n)]: [fuel] the length. *)
Fixpoint chunks (fuel : nat) (n : nat) (l : bytes) : list bytes :=
  match fuel with
  | O => []
  | S fuel => match l with [] => [] | _ => take n l :: chunks fuel n (drop n l) end
  end.

(** [String::from_utf16_lossy], and [encode_utf16]. *)
Fixpoint utf16_lossy (us : list Z) : text :=
  match us with
  | [] => []
  | u :: us =>
    if between 0xd800 0xdbff u then
      match us with
      | v :: us' => if between 0xdc00 0xdfff v
                    then (0x10000 + (u - 0xd800) * 1024 + (v - 0xdc00)) :: utf16_lossy us'
                    else 0xfffd :: utf16_lossy us
      | [] => [0xfffd]
      end
    else if between 0xdc00 0xdfff u then 0xfffd :: utf16_lossy us
    else u :: utf16_lossy us
  end.
Definition encode_utf16 (cs : text) : list Z :=
  mjoin ((fun c => if c <? 0x10000 then [c]
                   else [0xd800 + (c - 0x10000) / 1024; 0xdc00 + (c - 0x10000) mod 1024]) <$> cs).

(** ** State *)
Record Run := mkRun { first : Z; run_len : option Z; straight : bool }.
Record Reading := mkReading { r_run : Run; r_cluster : Z; r_clusters : Z; r_offset : Z; r_done : Z }.
Definition new_reading (run : Run) : Reading := mkReading run 0 0 0 0.
Record Slots := mkSlots { s_cur : Reading; s_buf : bytes; s_at : Z; s_len : Z }.
Definition new_slots (run : Run) : Slots := mkSlots (new_reading run) [] 0 0.

Record Budget := mkBudget { b_entries : Z; b_bytes : Z; b_dirs : Z }.

Record Entry := mkEntry {
  e_name : text; e_units : list Z; e_dir : bool; e_len : Z; e_valid : Z; e_run : Run }.

Record ExFat := mkExFat {
  x_disk : Disk;
  x_sector : Z;
  x_cluster : Z;
  x_fat : Z;
  x_heap : Z;
  x_count : Z;
  x_root : Z;
  x_active : Z;
  x_upcase : gmap Z Z;
  x_label : text;
  x_free : Z;
  x_cached : option (Z * bytes);
}.

Abbreviation XM := (M ExFat ExErr).

Definition with_disk (k : Disk) (x : ExFat) : ExFat :=
  mkExFat k (x_sector x) (x_cluster x) (x_fat x) (x_heap x) (x_count x) (x_root x) (x_active x)
    (x_upcase x) (x_label x) (x_free x) (x_cached x).
Definition with_cached (c : option (Z * bytes)) (x : ExFat) : ExFat :=
  mkExFat (x_disk x) (x_sector x) (x_cluster x) (x_fat x) (x_heap x) (x_count x) (x_root x) (x_active x)
    (x_upcase x) (x_label x) (x_free x) c.
Definition with_label (l : text) (x : ExFat) : ExFat :=
  mkExFat (x_disk x) (x_sector x) (x_cluster x) (x_fat x) (x_heap x) (x_count x) (x_root x) (x_active x)
    (x_upcase x) l (x_free x) (x_cached x).
Definition with_upcase (u : gmap Z Z) (x : ExFat) : ExFat :=
  mkExFat (x_disk x) (x_sector x) (x_cluster x) (x_fat x) (x_heap x) (x_count x) (x_root x) (x_active x)
    u (x_label x) (x_free x) (x_cached x).
Definition with_free (f : Z) (x : ExFat) : ExFat :=
  mkExFat (x_disk x) (x_sector x) (x_cluster x) (x_fat x) (x_heap x) (x_count x) (x_root x) (x_active x)
    (x_upcase x) (x_label x) f (x_cached x).

Definition on_disk {A} (m : M Disk ExErr A) : XM A := fun x =>
  let '(o, k) := m (x_disk x) in (o, with_disk k x).

(** Arithmetic of [u32] and [u64]: a value past the type panics. *)
Definition u64 (v : Z) : XM Z := if between 0 USIZE_MAX v then mret v else panic.
Definition u32 (v : Z) : XM Z := if between 0 U32_MAX v then mret v else panic.
(** [&b[from..from + n]]. *)
Definition part (b : bytes) (from n : Z) : XM bytes :=
  if (0 <=? from) && (from + n <=? zlen b) then mret (slice b from (from + n)) else panic.

(** ** The budget *)
Definition entry_of (b : Budget) (n : Z) : result (Budget * Z) ExErr :=
  if DIR_ENTRIES_MAX <? n + 1 then Err Malformed
  else if b_entries b <? 1 then Err Malformed
  else Ok (mkBudget (b_entries b - 1) (b_bytes b) (b_dirs b), n + 1).
Definition take_bytes (b : Budget) (n : Z) : result Budget ExErr :=
  if b_bytes b <? n then Err Malformed else Ok (mkBudget (b_entries b) (b_bytes b - n) (b_dirs b)).
Definition dir_cluster (b : Budget) : result Budget ExErr :=
  if b_dirs b <? 1 then Err Malformed else Ok (mkBudget (b_entries b) (b_bytes b) (b_dirs b - 1)).

Definition budget (x : ExFat) : Budget :=
  let heap := x_count x * x_cluster x in mkBudget (heap / 32 + DIR_ENTRIES_MAX) heap (x_count x).
Definition root_run (x : ExFat) : Run := mkRun (x_root x) None false.

(** ** Clusters *)
Definition in_heap (x : ExFat) (c : Z) : bool := between 2 (x_count x + 1) c.

(** [next]: the FAT's entry for a cluster. *)
Definition next (c : Z) : XM (option Z) :=
  x ← gets (fun x => x);
  at_ ← u64 (x_fat x + c * 4);
  _ ← unwrap (if x_sector x =? 0 then None else Some tt);
  let base := at_ - at_ mod x_sector x in
  (match x_cached x with
   | Some (b, _) => if b =? base then mret tt
                    else s ← on_disk (read_at base (x_sector x)); modify (with_cached (Some (base, s)))
   | None => s ← on_disk (read_at base (x_sector x)); modify (with_cached (Some (base, s)))
   end);;
  cached ← gets x_cached;
  '(_, s) ← unwrap cached;
  f ← part s (at_ - base) 4;
  let v := le32 f 0 in
  if v =? 0xffffffff then mret None
  else if in_heap x v then mret (Some v)
  else fail ChainLeaves.

(** The cluster a run goes on with: [None] at the end of a chain without a length. *)
Definition step_cluster (c : Reading) : XM (option Z) :=
  if r_cluster c =? 0 then mret (Some (first (r_run c)))
  else if straight (r_run c) then n ← u32 (r_cluster c + 1); mret (Some n)
  else
    n ← next (r_cluster c);
    match n, run_len (r_run c) with
    | Some n, _ => mret (Some n)
    | None, None => mret None
    | None, Some _ => fail EndsEarly
    end.

(** The reading at the cluster its next bytes are in. *)
Definition enter (c : Reading) : XM (option Reading) :=
  x ← gets (fun x => x);
  if (r_cluster c =? 0) || (r_offset c =? x_cluster x) then
    n ← step_cluster c;
    match n with
    | None => mret None
    | Some n =>
      reject_if (negb (in_heap x n)) OutsideHeap;;
      clusters ← u64 (r_clusters c + 1);
      reject_if (x_count x <? clusters) ChainLoops;;
      mret (Some (mkReading (r_run c) n clusters 0 (r_done c)))
    end
  else mret (Some c).

(** [read_run]: up to [room] of a run's next bytes, within one cluster; none at its end. *)
Definition read_run (c : Reading) (room : Z) : XM (Reading * bytes) :=
  if match run_len (r_run c) with Some len => len <=? r_done c | None => false end then mret (c, [])
  else
    entered ← enter c;
    match entered with
    | None => mret (c, [])
    | Some c =>
      x ← gets (fun x => x);
      left ← u64 (x_cluster x - r_offset c);
      let n := Z.min left room in
      let n := match run_len (r_run c) with Some len => Z.min n (len - r_done c) | None => n end in
      at_ ← u64 (x_heap x + (r_cluster c - 2) * x_cluster x + r_offset c);
      b ← on_disk (read_at at_ n);
      offset ← u64 (r_offset c + n);
      done ← u64 (r_done c + n);
      mret (mkReading (r_run c) (r_cluster c) (r_clusters c) offset done, b)
    end.

(** [slot]: a directory's next entry. *)
Definition slot (s : Slots) (b : Budget) : XM (Slots * Budget * option bytes) :=
  if s_at s =? s_len s then
    '(cur, buf) ← read_run (s_cur s) PIECE;
    b ← lift (if r_clusters cur =? r_clusters (s_cur s) then Ok b else dir_cluster b);
    if zlen buf =? 0 then mret (mkSlots cur (s_buf s) (s_at s) (s_len s), b, None)
    else
      reject_if (negb (zlen buf mod 32 =? 0)) NotWholeEntries;;
      e ← part buf 0 32;
      mret (mkSlots cur buf 32 (zlen buf), b, Some e)
  else
    e ← part (s_buf s) (s_at s) 32;
    mret (mkSlots (s_cur s) (s_buf s) (s_at s + 32) (s_len s), b, Some e).

(** What a directory may still hold: enough rounds for any loop over its entries. *)
Definition slot_room (x : ExFat) (s : Slots) (b : Budget) : nat :=
  Z.to_nat (b_dirs b * x_cluster x + (if r_cluster (s_cur s) =? 0 then 0 else x_cluster x - r_offset (s_cur s))
            + (s_len s - s_at s)).

(** ** The boot region *)
Definition EXFAT : list Z := Eval vm_compute in chars "EXFAT   ".
Definition numbers (b : bytes) : list Z := Z_of_byte <$> b.

(** What the boot sector says: the shifts of a sector and a cluster, and the places. *)
Record Boot := mkBoot {
  bps : Z; spc : Z; volume : Z; fat_at : Z; fat_len : Z; heap_at : Z; count : Z; root : Z; fats : Z; active : Z }.
Definition boot_of (b : bytes) : Boot :=
  mkBoot (byte_at b 108) (byte_at b 109) (le64 b 72) (le32 b 80) (le32 b 84) (le32 b 88) (le32 b 92)
    (le32 b 96) (byte_at b 110) (Z.land (le16 b 106) 1).

(** [inside]; [checked_mul] of the volume's bytes. *)
Definition inside (b : Boot) (size : Z) : bool :=
  let sector := Z.shiftl 1 (bps b) in
  between 1 2 (fats b)
  && (active b <? fats b)
  && (24 <=? fat_at b)
  && (0 <? fat_len b)
  && (fat_at b + fat_len b * fats b <=? heap_at b)
  && ((count b + 2) * 4 <=? fat_len b * sector)
  && between 1 0xfffffff5 (count b)
  && (heap_at b + Z.shiftl (count b) (spc b) <=? volume b)
  && ((volume b * sector <=? USIZE_MAX) && (volume b * sector <=? size))
  && between 2 (count b + 1) (root b).

(** The fields that change are not summed. *)
Definition skipped (i : Z) : bool := (i =? 106) || (i =? 107) || (i =? 112).

(** [open], up to the root directory. *)
Definition open_boot : XM unit :=
  k ← gets x_disk;
  size ← require (v_size (k_dev k)) ReadFailed;
  boot ← on_disk (read_at 0 512);
  reject_if (negb (bool_decide (numbers (slice boot 3 11) = EXFAT))) NoExfat;;
  reject_if (negb (bool_decide (numbers (slice boot 510 512) = [0x55; 0xaa]))
             || existsb (fun b => negb (Z_of_byte b =? 0)) (slice boot 11 64)) NotBoot;;
  let b := boot_of boot in
  reject_if (negb (between 9 12 (bps b)) || (25 - bps b <? spc b)) SizesOut;;
  let sector := Z.shiftl 1 (bps b) in
  let cluster := Z.shiftl sector (spc b) in
  reject_if (negb (inside b size)) LiesOutside;;
  region ← on_disk (read_at 0 (sector * 12));
  sectors ← part region 0 (sector * 11);
  check ← part region (sector * 11) sector;
  let sum := checksum 32 skipped 0 0 sectors in
  reject_if (existsb (fun c => negb (le32 c 0 =? sum)) (chunks (length check) 4 check)) BootChecksum;;
  modify (fun x => mkExFat (x_disk x) sector cluster ((fat_at b + active b * fat_len b) * sector)
    (heap_at b * sector) (count b) (root b) (active b) ∅ [] 0 None).

(** ** The root directory's own entries *)

(** The bitmap's place and length, the up-case table's sum, place and length. *)
Record Found := mkFound { f_bitmap : option (Z * Z); f_upcase : option (Z * Z * Z) }.

Definition label_units (e : bytes) (n : Z) : list Z := (fun k => le16 e (2 + 2 * k)) <$> seqZ 0 n.

Fixpoint root_loop (fuel : nat) (s : Slots) (b : Budget) (f : Found) : XM Found :=
  match fuel with
  | O => panic
  | S fuel =>
    '(s, b, e) ← slot s b;
    match e with
    | None => mret f
    | Some e =>
      let t := byte_at e 0 in
      a ← gets x_active;
      if t =? 0 then mret f
      else if (t =? 0x81) && (Z.land (byte_at e 1) 1 =? a)
      then root_loop fuel s b (mkFound (Some (le32 e 20, le64 e 24)) (f_upcase f))
      else if t =? 0x82 then root_loop fuel s b (mkFound (f_bitmap f) (Some (le32 e 4, le32 e 20, le64 e 24)))
      else if t =? 0x83 then
        reject_if (11 <? byte_at e 1) LongLabel;;
        modify (with_label (utf16_lossy (label_units e (byte_at e 1))));;
        root_loop fuel s b f
      else root_loop fuel s b f
    end
  end.

(** A run's next [want] bytes, all of them. *)
Fixpoint read_table (fuel : nat) (c : Reading) (want : Z) (acc : bytes) : XM bytes :=
  match fuel with
  | O => panic
  | S fuel =>
    if zlen acc <? want then
      '(c, b) ← read_run c (want - zlen acc);
      if zlen b =? 0 then fail UpcaseEnds else read_table fuel c want (acc ++ b)
    else mret acc
  end.

(** The compressed table: a unit at [i], or, after 0xffff, how many units are their own capital. *)
Fixpoint up_case (units : list Z) (i : Z) (map : gmap Z Z) : result (gmap Z Z) ExErr :=
  match units with
  | [] => Ok map
  | u :: us =>
    let literal := if i <? 65536 then up_case us (i + 1) (<[i := u]> map) else Err UpcasePast in
    match us with
    | v :: us' => if u =? 0xffff then (if 65536 <? i + v then Err UpcasePast else up_case us' (i + v) map) else literal
    | [] => literal
    end
  end.

Definition count_ones (v : Z) : Z := Z.of_nat (length (List.filter (Z.testbit v) (seqZ 0 8))).
Definition ones (l : bytes) : Z := foldr (fun b s => count_ones (Z_of_byte b) + s) 0 l.

(** The bitmap read a piece at a time: the bits set, and the last byte. *)
Fixpoint bitmap_loop (fuel : nat) (c : Reading) (used last : Z) : XM (Z * Z) :=
  match fuel with
  | O => panic
  | S fuel =>
    '(c, b) ← read_run c PIECE;
    if zlen b =? 0 then mret (used, last)
    else
      used ← u64 (used + ones b);
      bitmap_loop fuel c used (byte_at b (zlen b - 1))
  end.

Definition div_ceil (a b : Z) : Z := (a + b - 1) / b.

Definition read_root : XM unit :=
  x ← gets (fun x => x);
  let b := budget x in
  let s := new_slots (root_run x) in
  f ← root_loop (S (slot_room x s b)) s b (mkFound None None);
  '(sum, fst, len) ← require (f_upcase f) NoUpcase;
  reject_if ((len =? 0) || (UPCASE_MAX <? len) || negb (len mod 2 =? 0)) UpcaseLength;;
  table ← read_table (S (Z.to_nat len)) (new_reading (mkRun fst (Some len) false)) len [];
  reject_if (negb (checksum 32 (fun _ => false) 0 0 table =? sum)) UpcaseChecksum;;
  map ← lift (up_case ((fun c => le16 c 0) <$> chunks (length table) 2 table) 0 ∅);
  modify (with_upcase map);;
  '(fst, len) ← require (f_bitmap f) NoBitmap;
  let need := div_ceil (x_count x) 8 in
  reject_if ((len <? need) || (need + x_cluster x <? len)) BitmapLength;;
  '(used, last) ← bitmap_loop (S (Z.to_nat need)) (new_reading (mkRun fst (Some need) false)) 0 0;
  let spare := need * 8 - x_count x in
  used ← (if 0 <? spare then u64 (used - count_ones (Z.shiftr last (8 - spare))) else mret used);
  modify (with_free ((x_count x - Z.min used (x_count x)) * x_cluster x)).

Definition open : XM unit := open_boot;; read_root.
Definition blank (v : Device) : ExFat := mkExFat (mkDisk v []) 0 0 0 0 0 0 0 ∅ [] 0 None.

(** ** Entries *)

(** [n] more slots of an entry set, their bytes after those there are. *)
Fixpoint more_slots (n : nat) (s : Slots) (b : Budget) (set : bytes) : XM (Slots * Budget * bytes) :=
  match n with
  | O => mret (s, b, set)
  | S n =>
    '(s, b, e) ← slot s b;
    match e with
    | None => fail SetOffEnd
    | Some e => more_slots n s b (set ++ e)
    end
  end.

(** The name's units: fifteen an entry, [name_len] of them. *)
Fixpoint name_units (n : nat) (k : Z) (set : bytes) (name_len : Z) (units : list Z) : XM (list Z) :=
  match n with
  | O => mret units
  | S n =>
    e ← part set (64 + 32 * k) 32;
    reject_if (negb (byte_at e 0 =? 0xc1)) NameOrder;;
    let units := fold_left (fun us j => if zlen us <? name_len then us ++ [le16 e (2 + 2 * j)] else us)
                   (seqZ 0 15) units in
    name_units n (k + 1) set name_len units
  end.

Definition file_set (primary : bytes) (s : Slots) (b : Budget) : XM (Slots * Budget * Entry) :=
  let count := byte_at primary 1 in
  reject_if (negb (between 2 18 count)) SetSize;;
  '(s, b, set) ← more_slots (Z.to_nat count) s b primary;
  reject_if (negb (checksum 16 (fun i => (i =? 2) || (i =? 3)) 0 0 set =? le16 primary 2)) SetChecksum;;
  stream ← part set 32 32;
  reject_if (negb (byte_at stream 0 =? 0xc0)) NoStream;;
  let name_len := byte_at stream 3 in
  let names := div_ceil name_len 15 in
  reject_if ((name_len =? 0) || (count <? 1 + names)) NamePast;;
  units ← name_units (Z.to_nat names) 0 set name_len [];
  let flags := byte_at stream 1 in
  let valid := le64 stream 8 in
  let fst := le32 stream 20 in
  let len := le64 stream 24 in
  let dir := negb (Z.land (le16 primary 4) 0x10 =? 0) in
  let strt := negb (Z.land flags 0x02 =? 0) in
  x ← gets (fun x => x);
  reject_if (len <? valid) ValidPast;;
  when (0 <? len)
    (reject_if ((Z.land flags 0x01 =? 0) || negb (in_heap x fst)) DataOutside;;
     _ ← unwrap (if x_cluster x =? 0 then None else Some tt);
     let clusters := div_ceil len (x_cluster x) in
     reject_if ((x_count x <? clusters) || (strt && (x_count x + 1 <? fst + clusters - 1))) DataPast);;
  reject_if (dir && (negb (len mod 32 =? 0) || (DIR_MAX <? len))) DirLength;;
  mret (s, b, mkEntry (utf16_lossy units) units dir len valid (mkRun fst (Some len) strt)).

Fixpoint entry (fuel : nat) (s : Slots) (b : Budget) : XM (Slots * Budget * option Entry) :=
  match fuel with
  | O => panic
  | S fuel =>
    '(s, b, e) ← slot s b;
    match e with
    | None => mret (s, b, None)
    | Some e =>
      let t := byte_at e 0 in
      if t =? 0 then mret (s, b, None)
      else if Z.land t 0x80 =? 0 then entry fuel s b
      else if between 0x81 0x83 t then entry fuel s b
      else if t =? 0x85 then '(s, b, f) ← file_set e s b; mret (s, b, Some f)
      else if negb (Z.land t 0x40 =? 0) then fail StraySecondary
      else if negb (Z.land t 0x20 =? 0) then
        '(s, b, _) ← more_slots (Z.to_nat (byte_at e 1)) s b [];
        entry fuel s b
      else fail UnknownEntry
    end
  end.
Definition next_entry (s : Slots) (b : Budget) : XM (Slots * Budget * option Entry) :=
  x ← gets (fun x => x); entry (S (slot_room x s b)) s b.

Definition upcase_of (x : ExFat) (u : Z) : Z := default u (x_upcase x !! u).
Definition same (x : ExFat) (a b : list Z) : bool :=
  (zlen a =? zlen b) && forallb (fun '(u, v) => upcase_of x u =? upcase_of x v) (zip a b).

(** ** Paths on the stick *)
Definition trim_slashes (p : text) : text :=
  let drop_slashes := fix go (cs : text) := match cs with c :: cs' => if c =? 47 then go cs' else cs | [] => [] end in
  reverse (drop_slashes (reverse (drop_slashes p))).
Definition parts_of (path : text) : list text :=
  List.filter (fun p => negb (bool_decide (p = []))) (split 47 (trim_slashes path)).

(** A directory searched for a name. *)
Fixpoint search (fuel : nat) (want : list Z) (s : Slots) (b : Budget) (n : Z) : XM (Budget * option Entry) :=
  match fuel with
  | O => panic
  | S fuel =>
    '(s, b, e) ← next_entry s b;
    match e with
    | None => mret (b, None)
    | Some e =>
      '(b, n) ← lift (entry_of b n);
      x ← gets (fun x => x);
      if same x (e_units e) want then mret (b, Some e) else search fuel want s b n
    end
  end.

(** The run of a directory: the root's, or an entry's that is one. *)
Definition dir_run (found : option Entry) : XM Run :=
  x ← gets (fun x => x);
  match found with
  | None => mret (root_run x)
  | Some e => if e_dir e then mret (e_run e) else fail NotADirectory
  end.

Fixpoint find (parts : list text) (found : option Entry) (b : Budget) : XM (Budget * option Entry) :=
  match parts with
  | [] => mret (b, found)
  | p :: parts =>
    run ← dir_run found;
    x ← gets (fun x => x);
    '(b, e) ← search (S (slot_room x (new_slots run) b)) (encode_utf16 p) (new_slots run) b 0;
    match e with
    | None => fail NotOnStick
    | Some e => find parts (Some e) b
    end
  end.

Fixpoint list_loop (fuel : nat) (s : Slots) (b : Budget) (n : Z) (out : list (text * bool * Z))
    : XM (list (text * bool * Z)) :=
  match fuel with
  | O => panic
  | S fuel =>
    '(s, b, e) ← next_entry s b;
    match e with
    | None => mret out
    | Some e =>
      '(b, n) ← lift (entry_of b n);
      list_loop fuel s b n (out ++ [(e_name e, e_dir e, e_len e)])
    end
  end.
Definition entries (dir : text) : XM (list (text * bool * Z)) :=
  x ← gets (fun x => x);
  '(b, found) ← find (parts_of dir) None (budget x);
  run ← dir_run found;
  list_loop (S (slot_room x (new_slots run) b)) (new_slots run) b 0 [].

(** ** Copying off the stick *)

(** Here: what is at each path, which creations the kernel refuses, and which writes fail, having
    written how much. *)
Inductive LNode := LDir | LFile (b : bytes).
Record Local := mkLocal {
  l_nodes : gmap (list text) LNode; l_refused : list text -> bool; l_full : list text -> Z -> option nat }.
Record Job := mkJob { j_x : ExFat; j_local : Local }.
Abbreviation JM := (M Job ExErr).

Definition on_x {A} (m : XM A) : JM A := fun j =>
  let '(o, x) := m (j_x j) in (o, mkJob x (j_local j)).
Definition set_node (p : list text) (n : LNode) (j : Job) : Job :=
  mkJob (j_x j) (mkLocal (<[p := n]> (l_nodes (j_local j))) (l_refused (j_local j)) (l_full (j_local j))).

(** [create_dir], and [create_new] of a file: nothing may be there yet. *)
Definition create (p : list text) (n : LNode) : JM unit :=
  l ← gets j_local;
  reject_if (l_refused l p || bool_decide (is_Some (l_nodes l !! p))) CannotCreate;;
  modify (set_node p n).

(** main.rs's [local_name]. *)
Definition local_name (n : text) : result text ExErr :=
  if bool_decide (n = []) || bool_decide (n = [46]) || bool_decide (n = [46; 46]) then Err (NoLocalName n)
  else if existsb (fun c => (c =? 47) || (c =? 0)) n || existsb is_control n then Err (NoLocalName n)
  else Ok n.

Definition COPY_PIECE : Z := 65536.

(** The loop of [copy_file_out]: past its valid data a file reads as zeros. *)
Fixpoint copy_loop (fuel : nat) (valid : Z) (c : Reading) (done : Z) (to : list text) (out : bytes) : JM Z :=
  match fuel with
  | O => panic
  | S fuel =>
    '(c, b) ← on_x (read_run c COPY_PIECE);
    if zlen b =? 0 then mret done
    else
      let keep := Z.min (Z.max (valid - done) 0) (zlen b) in
      let b := take (Z.to_nat keep) b ++ repeat x00 (Z.to_nat (zlen b - keep)) in
      l ← gets j_local;
      match l_full l to done with
      | Some n => modify (set_node to (LFile (out ++ take n b)));; fail CannotWrite
      | None =>
        modify (set_node to (LFile (out ++ b)));;
        copy_loop fuel valid c (done + zlen b) to (out ++ b)
      end
  end.
Definition copy_file_out (e : Entry) (to : list text) (b : Budget) : JM (Budget * Z) :=
  b ← lift (take_bytes b (e_len e));
  create to (LFile []);;
  n ← copy_loop (S (Z.to_nat (e_len e))) (e_valid e) (new_reading (e_run e)) 0 to [];
  mret (b, n).

(** The loop of [copy_dir_out], a directory within it copied by [sub]. *)
Fixpoint copy_entries (sub : Run -> list text -> Budget -> JM (Budget * Z)) (to : list text) (fuel : nat)
    (s : Slots) (b : Budget) (n copied : Z) : JM (Budget * Z) :=
  match fuel with
  | O => panic
  | S fuel =>
    '(s, b, e) ← on_x (next_entry s b);
    match e with
    | None => mret (b, copied)
    | Some e =>
      '(b, n) ← lift (entry_of b n);
      name ← lift (local_name (e_name e));
      '(b, c) ← (if e_dir e then sub (e_run e) (to ++ [name]) b else copy_file_out e (to ++ [name]) b);
      copied ← on_x (u64 (copied + c));
      copy_entries sub to fuel s b n copied
    end
  end.

(** [copy_dir_out]: [depth] levels may still be entered. *)
Fixpoint copy_dir_out (depth : nat) (run : Run) (to : list text) (b : Budget) : JM (Budget * Z) :=
  match depth with
  | O => fail TooDeep
  | S depth =>
    create to LDir;;
    x ← gets j_x;
    copy_entries (copy_dir_out depth) to (S (slot_room x (new_slots run) b)) (new_slots run) b 0 0
  end.

(** [get]; the path's last part names what lands in a directory that is there. *)
Definition get (path : text) (dest : list text) : JM Z :=
  j ← gets (fun j => j);
  let p := trim_slashes path in
  let into := match l_nodes (j_local j) !! dest with Some LDir => true | _ => false end in
  target ← (if into && negb (bool_decide (p = []))
            then n ← lift (local_name (default p (last (split 47 p)))); mret (dest ++ [n])
            else mret dest);
  '(b, found) ← on_x (find (parts_of path) None (budget (j_x j)));
  '(_, n) ← (match found with
             | None => x ← gets j_x; copy_dir_out (S MAX_DEPTH) (root_run x) target b
             | Some e => if e_dir e then copy_dir_out (S MAX_DEPTH) (e_run e) target b
                         else copy_file_out e target b
             end);
  mret n.

(** ** The commands: [stick ls DIR] and [stick get PATH DEST] on an exFAT stick *)
Definition stick_ls (v : Device) (dir : text) : outcome (list (text * bool * Z)) ExErr * ExFat :=
  (open;; entries dir) (blank v).
Definition stick_get (v : Device) (l : Local) (path : text) (dest : list text) : outcome Z ExErr * Job :=
  (on_x open;; get path dest) (mkJob (blank v) l).

End Exfat.
