(* ===== verification/ExfatSafe.v ===== *)
(** * The exFAT reader on any device: no panic, no endless loop, no read outside the volume *)
From S2P Require Import Prelude Bytes Text Exfat.
Import Exfat.
Open Scope string_scope.
Open Scope list_scope.
Open Scope Z_scope.

(** ** Fields *)
Lemma byte_at_range b i : 0 <= byte_at b i < 256.
Proof. unfold byte_at. destruct (zlookup b i); [apply Z_of_byte_range|lia]. Qed.
Lemma le16_range b i : 0 <= le16 b i < 65536.
Proof. unfold le16. pose proof (byte_at_range b i). pose proof (byte_at_range b (i + 1)). lia. Qed.
Lemma le32_range b i : 0 <= le32 b i < 4294967296.
Proof. unfold le32. pose proof (le16_range b i). pose proof (le16_range b (i + 2)). lia. Qed.
Lemma le64_range b i : 0 <= le64 b i < 18446744073709551616.
Proof. unfold le64. pose proof (le32_range b i). pose proof (le32_range b (i + 4)). lia. Qed.

Lemma div_ceil_bound a b : 0 < b -> 0 <= a -> 0 <= div_ceil a b /\ a <= div_ceil a b * b < a + b.
Proof. intros Hb Ha. unfold div_ceil. split; [apply Z.div_pos; lia|]. pose proof (Z.div_mod (a + b - 1) b). pose proof (Z.mod_pos_bound (a + b - 1) b). nia. Qed.

(** ** What the boot region promises the reader: [vol] bytes of volume *)
Record geo_ok (vol : Z) (x : ExFat) : Prop := {
  g_sector : 512 <= x_sector x <= 4096 /\ x_sector x mod 4 = 0;
  g_cluster : 512 <= x_cluster x <= 33554432;
  g_whole : x_cluster x mod 32 = 0;
  g_count : 1 <= x_count x <= 0xfffffff5;
  g_fat : 0 <= x_fat x /\ x_fat x mod x_sector x = 0;
  g_fat_end : exists n, (x_count x + 2) * 4 <= n * x_sector x /\ x_fat x + n * x_sector x <= x_heap x;
  g_heap : x_heap x + x_count x * x_cluster x <= vol;
  g_vol : vol <= USIZE_MAX;
  g_root : 2 <= x_root x <= x_count x + 1;
  g_active : 0 <= x_active x <= 1;
}.

(** A read inside the volume. *)
Definition read_inside (vol : Z) (r : Z * Z) : Prop := 0 <= r.1 /\ 0 <= r.2 /\ r.1 + r.2 <= vol.

(** The volume as it was opened: reading moves the device's log and the sector kept, no more. *)
Record kept (vol : Z) (x0 x : ExFat) : Prop := {
  kp_sector : x_sector x = x_sector x0;
  kp_cluster : x_cluster x = x_cluster x0;
  kp_fat : x_fat x = x_fat x0;
  kp_heap : x_heap x = x_heap x0;
  kp_count : x_count x = x_count x0;
  kp_root : x_root x = x_root x0;
  kp_active : x_active x = x_active x0;
  kp_cached : forall b s, x_cached x = Some (b, s) -> zlen s = x_sector x0;
  kp_dev : k_dev (x_disk x) = k_dev (x_disk x0);
  kp_log : exists l, k_log (x_disk x) = k_log (x_disk x0) ++ l /\ Forall (read_inside vol) l;
}.

Lemma volume_kept_refl vol x : (forall b s, x_cached x = Some (b, s) -> zlen s = x_sector x) -> kept vol x x.
Proof. intros H. split; try done. exists []. by rewrite app_nil_r. Qed.

Section volume.
Context (vol : Z) (x0 : ExFat).
Hypothesis Hgeo : geo_ok vol x0.

Abbreviation I := (kept vol x0).
Abbreviation CL := (x_cluster x0).
Abbreviation CT := (x_count x0).

Lemma wp_on_disk {A} (m : M Disk ExErr A) (Q : A -> ExFat -> Prop) R x :
  wp m (fun a k => Q a (with_disk k x)) (fun e k => R e (with_disk k x)) (x_disk x) -> wp (on_disk m) Q R x.
Proof. unfold wp, on_disk. by destruct (m (x_disk x)) as [[?|?|] ?]. Qed.

(** A read inside the volume. *)
Lemma wp_read at_ n (Q : bytes -> ExFat -> Prop) R x : I x -> read_inside vol (at_, n) ->
  (forall b x', I x' -> zlen b = n -> Q b x') -> (forall e x', I x' -> R e x') -> wp (on_disk (read_at at_ n)) Q R x.
Proof.
  intros Hx Hr HQ HR. assert (forall k, k_dev k = k_dev (x_disk x) -> k_log k = k_log (x_disk x) ++ [(at_, n)] ->
    I (with_disk k x)) as Hk.
  { intros k Hd Hl. destruct Hx as [? ? ? ? ? ? ? ? Hdev (l & El & Hf)]. split; cbn; try done; [congruence|].
    exists (l ++ [(at_, n)]). rewrite Hl, El, (assoc_L (++)). split; [done|]. apply Forall_app. split; [done|by constructor]. }
  apply wp_on_disk. unfold wp, read_at. destruct (v_read _ _ _ _) as [b|]; [|by apply HR, Hk].
  destruct (Z.eqb_spec (zlen b) n); [by apply HQ; [apply Hk|]|by apply HR, Hk].
Qed.

Lemma wp_u64 v (Q : Z -> ExFat -> Prop) R x : 0 <= v <= USIZE_MAX -> Q v x -> wp (u64 v) Q R x.
Proof. intros Hv HQ. unfold u64, between. rewrite (proj2 (Z.leb_le 0 v)), (proj2 (Z.leb_le v _)) by lia. by apply wp_ret. Qed.
Lemma wp_u32 v (Q : Z -> ExFat -> Prop) R x : 0 <= v <= U32_MAX -> Q v x -> wp (u32 v) Q R x.
Proof. intros Hv HQ. unfold u32, between. rewrite (proj2 (Z.leb_le 0 v)), (proj2 (Z.leb_le v _)) by lia. by apply wp_ret. Qed.
Lemma wp_part b from n (Q : bytes -> ExFat -> Prop) R x : 0 <= from -> 0 <= n -> from + n <= zlen b ->
  (forall p, zlen p = n -> Q p x) -> wp (part b from n) Q R x.
Proof.
  intros Hf Hn Hl HQ. unfold part. rewrite (proj2 (Z.leb_le 0 from)), (proj2 (Z.leb_le _ (zlen b))) by lia.
  apply wp_ret, HQ. rewrite zlen_slice by lia. lia.
Qed.

Lemma in_heap_spec x c : I x -> in_heap x c = true <-> 2 <= c <= CT + 1.
Proof. intros Hx. unfold in_heap, between. rewrite (kp_count _ _ _ Hx). lia. Qed.

Lemma fat_sector c : 2 <= c <= CT + 1 ->
  let at_ := x_fat x0 + c * 4 in let base := at_ - at_ mod x_sector x0 in
  read_inside vol (base, x_sector x0) /\ 0 <= at_ - base /\ at_ - base + 4 <= x_sector x0 /\ 0 <= at_ <= USIZE_MAX.
Proof.
  intros Hc at_ base. destruct Hgeo as [[Hs H4] Hcl _ Hct [Hf0 Hfm] (n & Hn & He) Hh Hv _ _].
  set (z := x_sector x0) in *. set (q := x_fat x0 / z). set (k := at_ / z).
  assert (x_fat x0 = z * q) as Hq by (pose proof (Z.div_mod (x_fat x0) z ltac:(lia)); lia).
  assert (at_ = z * k + at_ mod z) as Hk by (apply Z.div_mod; lia).
  pose proof (Z.mod_pos_bound at_ z ltac:(lia)) as Hr.
  assert (z = 4 * (z / 4)) as Hz by (pose proof (Z.div_mod z 4 ltac:(lia)); lia).
  set (r := at_ mod z) in *. set (w := z / 4) in *.
  assert (r = 4 * (w * q + c - w * k)) as Hr4 by (subst at_; nia).
  assert (k < q + n) by (subst at_; nia). assert (0 <= k) by (apply Z.div_pos; subst at_; lia).
  unfold read_inside. subst base. cbn. split_and!; try lia; nia.
Qed.

(** ** A cluster chain *)
Lemma wp_next c x : I x -> 2 <= c <= CT + 1 ->
  wp (next c) (fun o x' => I x' /\ forall v, o = Some v -> 2 <= v <= CT + 1) (fun _ => I) x.
Proof.
  intros Hx Hc. destruct (fat_sector c Hc) as (Hin & H0 & H4 & Hu). unfold next. apply wp_bind, wp_gets.
  rewrite (kp_fat _ _ _ Hx), (kp_sector _ _ _ Hx). apply wp_bind, wp_u64; [lia|]. apply wp_bind.
  destruct (Z.eqb_spec (x_sector x0) 0) as [E|_]; [destruct Hgeo; lia|]. eapply wp_unwrap; [done|].
  set (base := _ - _ mod _) in *. apply wp_bind.
  assert (forall x1, I x1 -> is_Some (x_cached x1) ->
    wp (cached ← gets x_cached; '(_, s) ← unwrap cached; f ← part s (x_fat x0 + c * 4 - base) 4;
        if le32 f 0 =? 0xffffffff then mret None else if in_heap x (le32 f 0) then mret (Some (le32 f 0)) else fail ChainLeaves)
     (fun o x' => I x' /\ forall v, o = Some v -> 2 <= v <= CT + 1) (fun _ => I) x1) as Hrest.
  { intros x1 Hx1 [[b s] Hs]. apply wp_bind, wp_gets, wp_bind. rewrite Hs. eapply wp_unwrap; [done|].
    apply wp_bind, wp_part; [lia|lia|rewrite (kp_cached _ _ _ Hx1 _ _ Hs); lia|]. intros f _.
    destruct (_ =? _); [by apply wp_ret|]. destruct (in_heap x (le32 f 0)) eqn:Hh; [|by apply wp_fail].
    apply wp_ret. split; [done|]. intros v [= <-]. by apply (in_heap_spec x). }
  assert (wp (s ← on_disk (read_at base (x_sector x0)); modify (with_cached (Some (base, s))))
    (fun _ x1 => I x1 /\ is_Some (x_cached x1)) (fun _ => I) x) as Hread.
  { apply wp_bind, wp_read; [done|done| |done]. intros b x1 [] Hb. apply wp_modify. split; [|by eexists].
    split; cbn; try done. by intros ? ? [= <- <-]. }
  destruct (x_cached x) as [[b s]|] eqn:Hcd; [destruct (b =? base); [apply wp_ret, Hrest; [done|by rewrite Hcd]|]|];
    (eapply wp_mono; [| |exact Hread]; [intros [] x1 [H1 H2]; by apply Hrest|done]).
Qed.

(** ** Runs *)
Record reading_ok (c : Reading) : Prop := {
  rd_cluster : r_cluster c = 0 \/ 2 <= r_cluster c <= CT + 1;
  rd_clusters : 0 <= r_clusters c <= CT;
  rd_offset : 0 <= r_offset c <= CL;
  rd_start : r_cluster c = 0 -> r_clusters c = 0 /\ r_offset c = 0;
  rd_done : r_done c = if r_cluster c =? 0 then 0 else (r_clusters c - 1) * CL + r_offset c;
  rd_entered : r_cluster c <> 0 -> 1 <= r_clusters c;
  rd_len : forall len, run_len (r_run c) = Some len -> 0 <= len /\ r_done c <= len;
}.

(** Bytes left of the cluster a reading is in. *)
Definition cluster_left (c : Reading) : Z := if r_cluster c =? 0 then 0 else CL - r_offset c.

Lemma new_reading_ok run : (forall len, run_len run = Some len -> 0 <= len) -> reading_ok (new_reading run).
Proof. intros H. destruct Hgeo. split; cbn; try done; try lia. intros len Hl. specialize (H len Hl). lia. Qed.

Lemma wp_enter c x : I x -> reading_ok c ->
  wp (enter c) (fun o x' => I x' /\ match o with
      | None => run_len (r_run c) = None
      | Some c' => r_run c' = r_run c /\ r_done c' = r_done c /\ 2 <= r_cluster c' <= CT + 1 /\
          1 <= r_clusters c' <= CT /\ 0 <= r_offset c' < CL /\ r_done c = (r_clusters c' - 1) * CL + r_offset c' /\
          ((c' = c) \/ (r_clusters c' = r_clusters c + 1 /\ r_offset c' = 0 /\ cluster_left c = 0))
      end) (fun _ => I) x.
Proof.
  intros Hx Hc. unfold enter. apply wp_bind, wp_gets. rewrite (kp_cluster _ _ _ Hx).
  destruct Hc as [H1 H2 H3 H4 H5 H6 H7]. destruct ((r_cluster c =? 0) || (r_offset c =? CL)) eqn:He.
  - assert (cluster_left c = 0) as Hl by (unfold cluster_left; destruct (r_cluster c =? 0); lia). apply wp_bind.
    assert (wp (step_cluster c) (fun o x' => I x' /\ (o = None -> run_len (r_run c) = None)) (fun _ => I) x) as Hs.
    { unfold step_cluster. destruct (Z.eqb_spec (r_cluster c) 0); [by apply wp_ret|].
      destruct (straight _); [apply wp_bind, wp_u32; [destruct Hgeo; lia|by apply wp_ret]|].
      apply wp_bind. eapply wp_mono; [| |apply wp_next; [done|lia]]; [|done].
      intros [v|] x1 [Hx1 _]; [by apply wp_ret|]. destruct (run_len (r_run c)); [by apply wp_fail|by apply wp_ret]. }
    eapply wp_mono; [| |exact Hs]; [|done]. intros [n|] x1 [Hx1 Hn]; [|by apply wp_ret; auto].
    apply wp_bind, wp_reject_if; [done|]. intros Hh%negb_false_iff.
    assert (2 <= n <= CT + 1) by (by apply (in_heap_spec x)).
    apply wp_bind, wp_u64; [destruct Hgeo; lia|]. rewrite (kp_count _ _ _ Hx).
    apply wp_bind, wp_reject_if; [done|]. intros Hc. apply wp_ret. split; [done|]. cbn.
    pose proof (g_cluster _ _ Hgeo). split_and!; try lia; try done.
    rewrite H5. destruct (Z.eqb_spec (r_cluster c) 0) as [E|]; [destruct (H4 E); lia|]. lia.
  - apply orb_false_iff in He as [E1%Z.eqb_neq E2%Z.eqb_neq]. apply wp_ret. split; [done|]. specialize (H6 E1).
    rewrite (proj2 (Z.eqb_neq _ _) E1) in H5. split_and!; try lia; try done. by left.
Qed.
(** What a read of a run gives: at its end nothing, else bytes of one cluster, counted. *)
Record read_ok (c : Reading) (room : Z) (c' : Reading) (b : bytes) : Prop := {
  ro_reading : reading_ok c';
  ro_run : r_run c' = r_run c;
  ro_done : r_done c' = r_done c + zlen b;
  ro_room : zlen b <= room;
  ro_end : zlen b = 0 -> c' = c /\ forall len, run_len (r_run c) = Some len -> r_done c = len;
  ro_left : (r_clusters c' = r_clusters c /\ cluster_left c' = cluster_left c - zlen b) \/
            (r_clusters c' = r_clusters c + 1 /\ cluster_left c = 0 /\ cluster_left c' = CL - zlen b);
}.

Lemma read_ok_end c room : 0 <= room -> reading_ok c -> (forall len, run_len (r_run c) = Some len -> r_done c = len) ->
  read_ok c room c [].
Proof. intros Hr Hc He. split; try done; change (zlen []) with 0; lia. Qed.

Lemma heap_read c n : 2 <= r_cluster c <= CT + 1 -> 0 <= r_offset c -> 0 <= n -> r_offset c + n <= CL ->
  read_inside vol (x_heap x0 + (r_cluster c - 2) * CL + r_offset c, n).
Proof.
  intros Hc Ho Hn Hl. destruct Hgeo as [Hs Hcl _ Hct [Hf0 _] (m & Hm & He) Hh Hv _ _]. unfold read_inside. cbn.
  split_and!; [nia|lia|nia].
Qed.

Lemma wp_read_run c room x : I x -> reading_ok c -> 0 < room ->
  wp (read_run c room) (fun '(c', b) x' => I x' /\ read_ok c room c' b) (fun _ => I) x.
Proof.
  intros Hx Hc Hr. unfold read_run. destruct (match run_len (r_run c) with Some len => len <=? r_done c | None => false end) eqn:He.
  { apply wp_ret. split; [done|]. apply read_ok_end; [lia|done|]. intros len Hl. rewrite Hl in He.
    destruct (rd_len c Hc len Hl). lia. }
  apply wp_bind. eapply wp_mono; [| |by apply wp_enter]; [|done]. intros [c1|] x1 [Hx1 H1].
  2:{ apply wp_ret. split; [done|]. apply read_ok_end; [lia|done|congruence]. }
  destruct H1 as (Hrun & Hdone & Hcl & Hcls & Hoff & Hd & Hcase). apply wp_bind, wp_gets.
  rewrite (kp_cluster _ _ _ Hx1), (kp_heap _ _ _ Hx1). pose proof (g_cluster _ _ Hgeo) as Hg. pose proof (g_count _ _ Hgeo) as Hgc.
  apply wp_bind, wp_u64; [lia|].
  set (n := match run_len (r_run c1) with Some len => _ | None => _ end).
  assert (1 <= n <= Z.min (CL - r_offset c1) room /\ forall len, run_len (r_run c) = Some len -> n <= len - r_done c) as [Hn Hlen].
  { subst n. rewrite Hrun. destruct (run_len (r_run c)) as [len|] eqn:El; [|split; [lia|done]].
    split; [lia|]. intros ? [= <-]. lia. }
  pose proof (heap_read c1 n Hcl ltac:(lia) ltac:(lia) ltac:(lia)) as Hin.
  apply wp_bind, wp_u64; [unfold read_inside in Hin; cbn in Hin; destruct Hgeo; lia|].
  apply wp_bind, wp_read; [done|done| |done]. intros b x2 Hx2 Hb.
  apply wp_bind, wp_u64; [lia|]. apply wp_bind, wp_u64; [nia|]. apply wp_ret. split; [done|].
  split; cbn; rewrite ?Hb; try done; try lia.
  - split; cbn; try lia; [|intros len Hl; rewrite Hrun in Hl; destruct (rd_len c Hc len Hl); specialize (Hlen len Hl); lia].
    destruct (Z.eqb_spec (r_cluster c1) 0); [lia|]. lia.
  - unfold cluster_left at 1 4. cbn. destruct (Z.eqb_spec (r_cluster c1) 0); [lia|].
    destruct Hcase as [->|(H2 & H3 & H4)]; [left|right]; [|split_and!; lia].
    unfold cluster_left. destruct (Z.eqb_spec (r_cluster c) 0); [lia|]. split; [done|lia].
Qed.

(** ** Directories *)
Record slots_ok (s : Slots) : Prop := {
  sl_cur : reading_ok (s_cur s);
  sl_at : 0 <= s_at s <= s_len s;
  sl_len : s_len s = zlen (s_buf s);
  sl_whole : s_at s mod 32 = 0 /\ s_len s mod 32 = 0;
}.

(** What may still be read of a directory, in bytes. *)
Definition room (s : Slots) (b : Budget) : Z := b_dirs b * CL + cluster_left (s_cur s) + (s_len s - s_at s).

Definition spent (b b' : Budget) : Prop :=
  b_entries b' = b_entries b /\ b_bytes b' = b_bytes b /\ 0 <= b_dirs b' <= b_dirs b.

Lemma room_nonneg s b : slots_ok s -> 0 <= b_dirs b -> 0 <= room s b.
Proof.
  intros [[] ? ? ?] Hb. destruct Hgeo. unfold room, cluster_left. destruct (_ =? 0); nia.
Qed.

Lemma slot_room_spec x s b : I x -> slot_room x s b = Z.to_nat (room s b).
Proof. intros Hx. unfold slot_room, room, cluster_left. by rewrite (kp_cluster _ _ _ Hx). Qed.

Lemma new_slots_ok run : (forall len, run_len run = Some len -> 0 <= len) -> slots_ok (new_slots run).
Proof. intros H. split; cbn; try done. by apply new_reading_ok. Qed.

(** One entry fewer, or the end. *)
Definition slot_ok (s : Slots) (b : Budget) (s' : Slots) (b' : Budget) (e : option bytes) : Prop :=
  slots_ok s' /\ spent b b' /\
  match e with Some e => zlen e = 32 /\ room s' b' + 32 <= room s b | None => room s' b' <= room s b end.

Lemma wp_slot s b x : I x -> slots_ok s -> 0 <= b_dirs b ->
  wp (slot s b) (fun '(s', b', e) x' => I x' /\ slot_ok s b s' b' e) (fun _ => I) x.
Proof.
  intros Hx Hs Hb. pose proof Hs as [Hcur Hat Hlen [Hwa Hwl]]. unfold slot.
  destruct (Z.eqb_spec (s_at s) (s_len s)) as [E|E].
  - apply wp_bind. eapply wp_mono; [| |apply wp_read_run; [done|done|unfold PIECE; lia]]; [|done].
    intros [cur buf] x1 [Hx1 [Hcur' Hrun Hd Hrm Hend Hleft]]. pose proof (zlen_nonneg buf) as Hz.
    apply wp_bind, wp_lift; [intros b1 Hb1|done].
    assert (spent b b1 /\ b_dirs b1 * CL + cluster_left cur + zlen buf = b_dirs b * CL + cluster_left (s_cur s)) as [Hsp Hrm1].
    { destruct (Z.eqb_spec (r_clusters cur) (r_clusters (s_cur s))) as [E1|E1].
      - injection Hb1 as <-. unfold spent. destruct Hleft as [[_ Hl]|[Hl _]]; [|lia]. split; [lia|lia].
      - unfold dir_cluster in Hb1. destruct (Z.ltb_spec (b_dirs b) 1); [done|]. injection Hb1 as <-.
        unfold spent. cbn. destruct Hleft as [[Hl _]|(Hl & H0 & H1)]; [lia|]. split; [lia|]. rewrite H0, H1. lia. }
    destruct (Z.eqb_spec (zlen buf) 0) as [E0|E0].
    + apply wp_ret. split; [done|]. split_and!; [|done|]; [split; cbn; try done|].
      unfold room. cbn. lia.
    + apply wp_bind, wp_reject_if; [done|]. intros Hm%negb_false_iff%Z.eqb_eq.
      assert (32 <= zlen buf) by (pose proof (Z.div_mod (zlen buf) 32 ltac:(lia)); lia).
      apply wp_bind, wp_part; [lia|lia|lia|]. intros e He. apply wp_ret. split; [done|].
      split_and!; [split; cbn; try done; lia|done|done|]. unfold room. cbn. lia.
  - assert (s_at s + 32 <= s_len s).
    { pose proof (Z.div_mod (s_at s) 32 ltac:(lia)). pose proof (Z.div_mod (s_len s) 32 ltac:(lia)). lia. }
    apply wp_bind, wp_part; [lia|lia|lia|]. intros e He. apply wp_ret. split; [done|].
    split_and!; [split; cbn; try done; [lia|]|unfold spent; lia|done|unfold room; cbn; lia].
    split; [|done]. rewrite <-Z.add_mod_idemp_l, Hwa by lia. done.
Qed.

Lemma spent_refl b : 0 <= b_dirs b -> spent b b.
Proof. unfold spent. lia. Qed.
Lemma spent_trans b1 b2 b3 : spent b1 b2 -> spent b2 b3 -> spent b1 b3.
Proof. unfold spent. lia. Qed.

Lemma wp_more_slots n s b set x : I x -> slots_ok s -> 0 <= b_dirs b ->
  wp (more_slots n s b set) (fun '(s', b', set') x' => I x' /\ slots_ok s' /\ spent b b' /\
    zlen set' = zlen set + 32 * Z.of_nat n /\ room s' b' + 32 * Z.of_nat n <= room s b) (fun _ => I) x.
Proof.
  revert s b set x. induction n as [|n IH]; intros s b set x Hx Hs Hb; cbn [more_slots].
  - apply wp_ret. split_and!; try done; try lia; by apply spent_refl.
  - apply wp_bind. eapply wp_mono; [| |by apply wp_slot]; [|done].
    intros [[s1 b1] [e|]] x1 [Hx1 (Hs1 & Hb1 & He)]; [|by apply wp_fail]. destruct He as [He Hr].
    eapply wp_mono; [| |apply IH; [done|done|unfold spent in Hb1; lia]]; [|done].
    intros [[s2 b2] set2] x2 (Hx2 & Hs2 & Hb2 & Hz & Hr2). split_and!; try done; [by eapply spent_trans| |lia].
    rewrite zlen_app in Hz. lia.
Qed.

(** A file's name is of 16-bit units. *)
Lemma wp_name_units n k set name_len units x : I x -> 0 <= k -> 64 + 32 * (k + Z.of_nat n) <= zlen set ->
  Forall (fun u => 0 <= u < 65536) units ->
  wp (name_units n k set name_len units) (fun us x' => I x' /\ Forall (fun u => 0 <= u < 65536) us) (fun _ => I) x.
Proof.
  revert k units x. induction n as [|n IH]; intros k units x Hx Hk Hl Hu; cbn [name_units]; [by apply wp_ret|].
  apply wp_bind, wp_part; [lia|lia|lia|]. intros e _. apply wp_bind, wp_reject_if; [done|]. intros _.
  apply IH; [done|lia|lia|]. assert (forall l us, Forall (fun u => 0 <= u < 65536) us -> Forall (fun u => 0 <= u < 65536)
    (fold_left (fun us j => if zlen us <? name_len then us ++ [le16 e (2 + 2 * j)] else us) l us)) as Hf; [|by apply Hf].
  induction l as [|j l IHl]; intros us Hus; cbn; [done|]. apply IHl. destruct (_ <? _); [|done].
  apply Forall_app. split; [done|]. constructor; [apply le16_range|done].
Qed.

(** An entry that passed its checks. *)
Record entry_ok (e : Entry) : Prop := {
  en_run : run_len (e_run e) = Some (e_len e);
  en_len : 0 <= e_len e <= CT * CL;
  en_valid : 0 <= e_valid e <= e_len e;
  en_units : Forall (fun u => 0 <= u < 65536) (e_units e);
  en_name : e_name e = utf16_lossy (e_units e);
}.

Lemma wp_file_set primary s b x : I x -> slots_ok s -> 0 <= b_dirs b -> zlen primary = 32 ->
  wp (file_set primary s b) (fun '(s', b', e) x' => I x' /\ slots_ok s' /\ spent b b' /\
    room s' b' <= room s b /\ entry_ok e) (fun _ => I) x.
Proof.
  intros Hx Hs Hb Hp. unfold file_set. apply wp_bind, wp_reject_if; [done|].
  intros Hc%negb_false_iff. unfold between in Hc. set (count := byte_at primary 1) in *.
  apply wp_bind. eapply wp_mono; [| |by apply wp_more_slots]; [|done].
  intros [[s1 b1] set] x1 (Hx1 & Hs1 & Hb1 & Hz & Hr). rewrite Z2Nat.id in Hz, Hr by lia.
  apply wp_bind, wp_reject_if; [done|]. intros _. apply wp_bind, wp_part; [lia|lia|lia|]. intros stream Hst.
  apply wp_bind, wp_reject_if; [done|]. intros _. set (name_len := byte_at stream 3).
  apply wp_bind, wp_reject_if; [done|]. intros Hn. pose proof (byte_at_range stream 3). fold name_len in H.
  destruct (div_ceil_bound name_len 15) as [Hd _]; [lia|lia|].
  apply wp_bind. eapply wp_mono; [| |apply (wp_name_units _ 0); [done|lia|lia|constructor]]; [|done].
  intros units x2 [Hx2 Hu]. apply wp_bind, wp_gets. pose proof (le64_range stream 24) as Hl. pose proof (le64_range stream 8).
  apply wp_bind, wp_reject_if; [done|]. intros Hv. apply wp_bind.
  eapply (wp_mono _ (fun _ x' => I x' /\ le64 stream 24 <= CT * CL) _ (fun _ => I)); [|done|].
  - intros [] x3 [Hx3 Hlen]. apply wp_bind, wp_reject_if; [done|]. intros _. apply wp_ret.
    split_and!; try done; [lia|]. split; cbn; try done; lia.
  - pose proof (g_cluster _ _ Hgeo). pose proof (g_count _ _ Hgeo). apply wp_when; intros Hz0; [|split; [done|nia]].
    apply wp_bind, wp_reject_if; [done|]. intros _. rewrite (kp_cluster _ _ _ Hx2), (kp_count _ _ _ Hx2).
    destruct (Z.eqb_spec CL 0); [lia|]. apply wp_bind. eapply wp_unwrap; [done|].
    apply wp_reject_if; [done|]. intros Hlim. split; [done|].
    destruct (div_ceil_bound (le64 stream 24) CL); [lia|lia|]. nia.
Qed.

(** An entry found takes at least a slot. *)
Definition entry_step (s : Slots) (b : Budget) (s' : Slots) (b' : Budget) (e : option Entry) : Prop :=
  slots_ok s' /\ spent b b' /\
  match e with Some e => entry_ok e /\ room s' b' + 32 <= room s b | None => room s' b' <= room s b end.

Lemma wp_entry fuel s b x : I x -> slots_ok s -> 0 <= b_dirs b -> (Z.to_nat (room s b) < fuel)%nat ->
  wp (entry fuel s b) (fun '(s', b', e) x' => I x' /\ entry_step s b s' b' e) (fun _ => I) x.
Proof.
  revert s b x. induction fuel as [|fuel IH]; intros s b x Hx Hs Hb Hf; [lia|]. cbn [entry].
  apply wp_bind. eapply wp_mono; [| |by apply wp_slot]; [|done].
  intros [[s1 b1] [e|]] x1 [Hx1 (Hs1 & Hb1 & He)]; [|by apply wp_ret]. destruct He as [He Hr].
  assert (forall s2 b2 x2, I x2 -> slots_ok s2 -> spent b1 b2 -> room s2 b2 <= room s1 b1 ->
    wp (entry fuel s2 b2) (fun '(s', b', e) x' => I x' /\ entry_step s b s' b' e) (fun _ => I) x2) as Hrec.
  { intros s2 b2 x2 Hx2 Hs2 Hb2 Hr2. pose proof (spent_trans _ _ _ Hb1 Hb2) as Hb3.
    assert (0 <= b_dirs b2) by (unfold spent in Hb3; lia).
    eapply wp_mono; [| |apply IH; [done|done|done|]]; [|done|].
    - intros [[s3 b3] e3] x3 [Hx3 (Hs3 & Hb4 & He3)]. split; [done|]. split_and!; [done|by eapply spent_trans|].
      destruct e3; [split; [apply He3|lia]|lia].
    - pose proof (room_nonneg s2 b2 Hs2 ltac:(done)). lia. }
  assert (0 <= b_dirs b1) by (unfold spent in Hb1; lia).
  destruct (_ =? 0); [apply wp_ret; split; [done|]; split_and!; [done|done|lia]|].
  destruct (_ =? 0); [apply Hrec; auto using spent_refl; lia|].
  destruct (between _ _ _); [apply Hrec; auto using spent_refl; lia|]. destruct (_ =? 0x85).
  { apply wp_bind. eapply wp_mono; [| |by apply wp_file_set]; [|done].
    intros [[s2 b2] f] x2 (Hx2 & Hs2 & Hb2 & Hr2 & Hen). apply wp_ret. split; [done|].
    split_and!; [done|by eapply spent_trans|done|lia]. }
  destruct (negb _); [by apply wp_fail|]. destruct (negb _); [|by apply wp_fail].
  apply wp_bind. eapply wp_mono; [| |by apply wp_more_slots]; [|done].
  intros [[s2 b2] st] x2 (Hx2 & Hs2 & Hb2 & _ & Hr2). apply Hrec; try done. lia.
Qed.

Lemma wp_next_entry s b x : I x -> slots_ok s -> 0 <= b_dirs b ->
  wp (next_entry s b) (fun '(s', b', e) x' => I x' /\ entry_step s b s' b' e) (fun _ => I) x.
Proof.
  intros Hx Hs Hb. unfold next_entry. apply wp_bind, wp_gets. rewrite (slot_room_spec x s b Hx).
  apply wp_entry; [done|done|done|lia].
Qed.

(** ** Walks *)
Definition walked (b b' : Budget) : Prop := b_bytes b' = b_bytes b /\ 0 <= b_dirs b' <= b_dirs b.

Lemma entry_of_ok b n b' n' : entry_of b n = Ok (b', n') ->
  n' = n + 1 /\ n' <= DIR_ENTRIES_MAX /\ b_bytes b' = b_bytes b /\ b_dirs b' = b_dirs b.
Proof.
  unfold entry_of. destruct (Z.ltb_spec DIR_ENTRIES_MAX (n + 1)); [done|]. destruct (_ <? 1); [done|].
  intros [= <- <-]. cbn. lia.
Qed.

Lemma room_dirs s b b' : b_dirs b' = b_dirs b -> room s b' = room s b.
Proof. unfold room. by intros ->. Qed.

Definition found_ok (e : option Entry) : Prop := from_option entry_ok True e.

Lemma wp_search fuel want s b n x : I x -> slots_ok s -> 0 <= b_dirs b -> (Z.to_nat (room s b) < fuel)%nat ->
  wp (search fuel want s b n) (fun '(b', e) x' => I x' /\ walked b b' /\ found_ok e) (fun _ => I) x.
Proof.
  revert s b n x. induction fuel as [|fuel IH]; intros s b n x Hx Hs Hb Hf; [lia|]. cbn [search].
  apply wp_bind. eapply wp_mono; [| |by apply wp_next_entry]; [|done].
  intros [[s1 b1] [e|]] x1 [Hx1 (Hs1 & Hb1 & He)]; unfold spent in Hb1.
  2:{ apply wp_ret. split_and!; [done|unfold walked; lia|done]. }
  destruct He as [He Hr]. apply wp_bind, wp_lift; [intros [b2 n2] (-> & _ & H1 & H2)%entry_of_ok|done].
  apply wp_bind, wp_gets. destruct (same _ _ _); [apply wp_ret; split_and!; [done|unfold walked; lia|done]|].
  pose proof (room_dirs s1 b1 b2 H2) as Hr2. pose proof (room_nonneg s1 b1 Hs1 ltac:(lia)).
  eapply wp_mono; [| |apply IH; [done|done|lia|lia]]; [|done].
  intros [b3 e3] x3 (Hx3 & Hw3 & He3). split_and!; [done|unfold walked in *; lia|done].
Qed.

Lemma wp_dir_run found x : I x -> found_ok found ->
  wp (dir_run found) (fun run x' => I x' /\ slots_ok (new_slots run)) (fun _ => I) x.
Proof.
  intros Hx Hf. unfold dir_run. apply wp_bind, wp_gets. destruct found as [e|]; cbn in Hf.
  - destruct (e_dir e); [|by apply wp_fail]. apply wp_ret. split; [done|]. apply new_slots_ok.
    intros len Hl. destruct Hf. rewrite en_run0 in Hl. injection Hl as <-. lia.
  - apply wp_ret. split; [done|]. by apply new_slots_ok.
Qed.

Lemma wp_find parts found b x : I x -> found_ok found -> 0 <= b_dirs b ->
  wp (find parts found b) (fun '(b', e) x' => I x' /\ walked b b' /\ found_ok e) (fun _ => I) x.
Proof.
  revert found b x. induction parts as [|p parts IH]; intros found b x Hx Hf Hb; cbn [find].
  - apply wp_ret. split_and!; [done|unfold walked; lia|done].
  - apply wp_bind. eapply wp_mono; [| |by apply wp_dir_run]; [|done]. intros run x1 [Hx1 Hs].
    apply wp_bind, wp_gets, wp_bind. rewrite (slot_room_spec x1 _ _ Hx1).
    eapply wp_mono; [| |apply wp_search; [done|done|done|lia]]; [|done].
    intros [b1 [e|]] x2 (Hx2 & Hw & He); [|by apply wp_fail].
    eapply wp_mono; [| |apply IH; [done|done|unfold walked in Hw; lia]]; [|done].
    intros [b2 e2] x3 (Hx3 & Hw2 & He2). split_and!; [done|unfold walked in *; lia|done].
Qed.

Lemma wp_list_loop fuel s b n out x : I x -> slots_ok s -> 0 <= b_dirs b -> (Z.to_nat (room s b) < fuel)%nat ->
  n = zlen out -> zlen out <= DIR_ENTRIES_MAX ->
  wp (list_loop fuel s b n out) (fun l x' => I x' /\ zlen l <= DIR_ENTRIES_MAX) (fun _ => I) x.
Proof.
  revert s b n out x. induction fuel as [|fuel IH]; intros s b n out x Hx Hs Hb Hf Hn Ho; [lia|]. cbn [list_loop].
  apply wp_bind. eapply wp_mono; [| |by apply wp_next_entry]; [|done].
  intros [[s1 b1] [e|]] x1 [Hx1 (Hs1 & Hb1 & He)]; unfold spent in Hb1; [|by apply wp_ret].
  destruct He as [He Hr]. apply wp_bind, wp_lift; [intros [b2 n2] (-> & Hm & H1 & H2)%entry_of_ok|done].
  pose proof (room_dirs s1 b1 b2 H2). pose proof (room_nonneg s1 b1 Hs1 ltac:(lia)).
  apply IH; try done; try lia; rewrite zlen_app; change (zlen [_]) with 1; lia.
Qed.

Lemma budget_ok x : I x -> 0 <= b_dirs (budget x) /\ b_bytes (budget x) = CT * CL.
Proof. intros Hx. unfold budget. cbn. rewrite (kp_count _ _ _ Hx), (kp_cluster _ _ _ Hx). destruct Hgeo. lia. Qed.

Lemma wp_entries dir x : I x ->
  wp (entries dir) (fun l x' => I x' /\ zlen l <= DIR_ENTRIES_MAX) (fun _ => I) x.
Proof.
  intros Hx. unfold entries. destruct (budget_ok x Hx) as [Hb _]. apply wp_bind, wp_gets, wp_bind.
  eapply wp_mono; [| |by apply wp_find]; [|done]. intros [b found] x1 (Hx1 & Hw & Hf).
  apply wp_bind. eapply wp_mono; [| |by apply wp_dir_run]; [|done]. intros run x2 [Hx2 Hs].
  rewrite (slot_room_spec x _ _ Hx). apply wp_list_loop; try done; try lia. unfold walked in Hw. lia.
Qed.

(** ** The root directory *)
Lemma I_label l x : I x -> I (with_label l x).
Proof. by intros []. Qed.
Lemma I_upcase u x : I x -> I (with_upcase u x).
Proof. by intros []. Qed.
Lemma I_free f x : I x -> I (with_free f x).
Proof. by intros []. Qed.

(** The places the root names: lengths are 64-bit. *)
Definition named_ok (f : Found) : Prop :=
  (forall a n, f_bitmap f = Some (a, n) -> 0 <= n) /\ (forall k a n, f_upcase f = Some (k, a, n) -> 0 <= n).

Lemma wp_root_loop fuel s b f x : I x -> slots_ok s -> 0 <= b_dirs b -> (Z.to_nat (room s b) < fuel)%nat -> named_ok f ->
  wp (root_loop fuel s b f) (fun f' x' => I x' /\ named_ok f') (fun _ => I) x.
Proof.
  revert s b f x. induction fuel as [|fuel IH]; intros s b f x Hx Hs Hb Hf Hn; [lia|]. cbn [root_loop].
  apply wp_bind. eapply wp_mono; [| |by apply wp_slot]; [|done].
  intros [[s1 b1] [e|]] x1 [Hx1 (Hs1 & Hb1 & He)]; unfold spent in Hb1; [|by apply wp_ret].
  destruct He as [He Hr]. pose proof (room_nonneg s1 b1 Hs1 ltac:(lia)). apply wp_bind, wp_gets.
  assert (forall f1 x2, I x2 -> named_ok f1 ->
    wp (root_loop fuel s1 b1 f1) (fun f' x' => I x' /\ named_ok f') (fun _ => I) x2) as Hrec
    by (intros; apply IH; try done; lia).
  destruct (_ =? 0); [by apply wp_ret|]. destruct (_ && _).
  { apply Hrec; [done|]. split; cbn; [intros a n [= <- <-]; apply le64_range|apply Hn]. }
  destruct (_ =? 0x82).
  { apply Hrec; [done|]. split; cbn; [apply Hn|intros k a n [= <- <- <-]; apply le64_range]. }
  destruct (_ =? 0x83); [|by apply Hrec]. apply wp_bind, wp_reject_if; [done|]. intros _.
  apply wp_bind, wp_modify. apply Hrec; [by apply I_label|done].
Qed.

Lemma wp_read_table fuel c want acc x : I x -> reading_ok c -> (Z.to_nat (want - zlen acc) < fuel)%nat ->
  wp (read_table fuel c want acc) (fun _ => I) (fun _ => I) x.
Proof.
  revert c acc x. induction fuel as [|fuel IH]; intros c acc x Hx Hc Hf; [lia|]. cbn [read_table].
  destruct (Z.ltb_spec (zlen acc) want); [|by apply wp_ret]. apply wp_bind.
  eapply wp_mono; [| |apply wp_read_run; [done|done|lia]]; [|done]. intros [c1 b] x1 [Hx1 []].
  destruct (Z.eqb_spec (zlen b) 0); [by apply wp_fail|]. pose proof (zlen_nonneg b).
  apply IH; [done|done|]. rewrite zlen_app. lia.
Qed.

End volume.

(** ** Bits *)
Lemma count_ones_check : forallb (fun v => forallb (fun k => count_ones (Z.shiftr v k) <=? count_ones v) (seqZ 0 9)
  && (count_ones v <=? 8)) (seqZ 0 256) = true.
Proof. by vm_compute. Qed.

Lemma count_ones_shift v k : 0 <= v < 256 -> 0 <= k <= 8 ->
  0 <= count_ones (Z.shiftr v k) <= count_ones v /\ count_ones v <= 8.
Proof.
  intros Hv Hk. pose proof count_ones_check as H. rewrite forallb_Forall, Forall_forall in H.
  specialize (H v). rewrite elem_of_seqZ in H. specialize (H ltac:(lia)). apply andb_true_iff in H as [H1 H2].
  rewrite forallb_Forall, Forall_forall in H1. specialize (H1 k). rewrite elem_of_seqZ in H1. specialize (H1 ltac:(lia)).
  unfold count_ones in *. lia.
Qed.

Lemma ones_bound l : 0 <= ones l <= 8 * zlen l.
Proof.
  unfold ones. induction l as [|b l IH]; cbn [foldr]; [done|]. rewrite zlen_cons.
  destruct (count_ones_shift (Z_of_byte b) 0) as [? ?]; [pose proof (Z_of_byte_range b); lia|lia|]. rewrite Z.shiftr_0_r in *. lia.
Qed.

Lemma ones_last l : 0 < zlen l -> count_ones (byte_at l (zlen l - 1)) <= ones l.
Proof.
  destruct l as [|b l _] using rev_ind; [done|]. intros _. unfold byte_at.
  rewrite zlen_app. change (zlen [b]) with 1. replace (zlen l + 1 - 1) with (zlen l) by lia.
  assert (zlookup (l ++ [b]) (zlen l) = Some b) as ->.
  { apply zlookup_Some. split; [apply zlen_nonneg|]. unfold zlen. rewrite Nat2Z.id. by apply list_lookup_middle. }
  unfold ones. rewrite foldr_app. cbn [foldr].
  assert (forall z, z <= foldr (fun b s => count_ones (Z_of_byte b) + s) z l) as Hz; [|by etrans; [|apply Hz]; lia].
  intros z. induction l as [|c l IH]; cbn; [lia|].
  destruct (count_ones_shift (Z_of_byte c) 0) as [? ?]; [pose proof (Z_of_byte_range c); lia|lia|]. rewrite Z.shiftr_0_r in *. lia.
Qed.

Section root.
Context (vol : Z) (x0 : ExFat).
Hypothesis Hgeo : geo_ok vol x0.
Abbreviation I := (kept vol x0).

(** The bits counted are those of the bytes read, and the last byte's are among them. *)
Lemma wp_bitmap_loop fuel c used last need x : I x -> reading_ok x0 c -> run_len (r_run c) = Some need ->
  need <= 1073741824 -> (Z.to_nat (need - r_done c) < fuel)%nat ->
  0 <= used <= 8 * r_done c -> 0 <= last < 256 -> count_ones last <= used ->
  wp (bitmap_loop fuel c used last)
    (fun '(u, l) x' => I x' /\ 0 <= u <= 8 * need /\ 0 <= l < 256 /\ count_ones l <= u) (fun _ => I) x.
Proof.
  revert c used last x. induction fuel as [|fuel IH]; intros c used last x Hx Hc Hl Hn Hf Hu Hlast Hones; [lia|].
  cbn [bitmap_loop]. apply wp_bind. eapply wp_mono; [| |apply (wp_read_run vol x0 Hgeo); [done|done|unfold PIECE; lia]]; [|done].
  intros [c1 b] x1 [Hx1 [Hc1 Hrun Hd Hrm Hend Hleft]]. pose proof (zlen_nonneg b). pose proof (rd_len _ _ Hc1) as Hlen.
  rewrite Hrun in Hlen. specialize (Hlen _ Hl). destruct (Z.eqb_spec (zlen b) 0) as [E|E].
  - apply wp_ret. destruct (Hend E) as [-> He]. specialize (He _ Hl). split_and!; try done; lia.
  - pose proof (ones_bound b) as Hob. apply wp_bind, (wp_u64); [lia|].
    apply IH; try done; [by rewrite Hrun|lia|lia|apply byte_at_range|]. pose proof (ones_last b ltac:(lia)). lia.
Qed.

Lemma wp_read_root x : I x -> wp read_root (fun _ x' => I x' /\ 0 <= x_free x' <= x_count x0 * x_cluster x0 /\
  x_free x' mod x_cluster x0 = 0) (fun _ => I) x.
Proof.
  intros Hx. unfold read_root. apply wp_bind, wp_gets, wp_bind. destruct (budget_ok vol x0 Hgeo x Hx) as [Hb _].
  assert (slots_ok x0 (new_slots (root_run x))) as Hs by (by apply (new_slots_ok vol)).
  rewrite (slot_room_spec vol x0 x _ _ Hx).
  eapply wp_mono; [| |apply (wp_root_loop vol x0 Hgeo); [done|done|done|lia|done]]; [|done]. intros f x1 [Hx1 [Hf1 Hf2]].
  apply wp_bind, wp_require; [intros [[sum fst] len] Hup|done]. specialize (Hf2 _ _ _ Hup).
  apply wp_bind, wp_reject_if; [done|]. intros Hlen. apply wp_bind.
  eapply wp_mono; [| |apply (wp_read_table vol x0 Hgeo); [done| |]]; [|done| |].
  2:{ apply (new_reading_ok vol); [done|]. cbn. intros ? [= <-]. lia. }
  2:{ change (zlen []) with 0. lia. }
  intros table x2 Hx2. apply wp_bind, wp_reject_if; [done|]. intros _. apply wp_bind, wp_lift; [intros map _|done].
  apply wp_bind, wp_modify. apply I_upcase with (u := map) in Hx2.
  apply wp_bind, wp_require; [intros [fst2 len2] Hbm|done].
  pose proof (g_count _ _ Hgeo) as Hct. pose proof (g_cluster _ _ Hgeo) as Hcl.
  rewrite (kp_count _ _ _ Hx), (kp_cluster _ _ _ Hx). destruct (div_ceil_bound (x_count x0) 8) as [Hd0 Hd1]; [lia|lia|].
  set (need := div_ceil (x_count x0) 8) in *. apply wp_bind, wp_reject_if; [done|]. intros _. apply wp_bind.
  eapply wp_mono; [| |apply (wp_bitmap_loop _ _ _ _ need); try done; try (cbn; lia)]; [|done|].
  2:{ apply (new_reading_ok vol); [done|]. cbn. intros ? [= <-]. lia. }
  intros [used last] x3 (Hx3 & Hu & Hl & Ho). apply wp_bind.
  assert (forall u x4, I x4 -> 0 <= u -> I (with_free ((x_count x0 - Z.min u (x_count x0)) * x_cluster x0) x4) /\
    0 <= (x_count x0 - Z.min u (x_count x0)) * x_cluster x0 <= x_count x0 * x_cluster x0 /\
    ((x_count x0 - Z.min u (x_count x0)) * x_cluster x0) mod x_cluster x0 = 0) as Hfree.
  { intros u x4 Hx4 H0. split; [by apply I_free|]. split; [nia|]. apply Z.mod_mul. lia. }
  destruct (Z.ltb_spec 0 (need * 8 - x_count x0)).
  - destruct (count_ones_shift last (8 - (need * 8 - x_count x0))) as [Hc1 Hc2]; [lia|lia|].
    apply wp_u64; [lia|]. apply wp_modify, Hfree; [done|lia].
  - apply wp_ret, wp_modify, Hfree; [done|lia].
Qed.
End root.

(** ** Opening a volume *)
Lemma shift_sector b : 9 <= b <= 12 -> 512 <= Z.shiftl 1 b <= 4096 /\ Z.shiftl 1 b mod 4 = 0 /\ Z.shiftl 1 b mod 32 = 0 /\ Z.shiftl 1 b = 2 ^ b.
Proof.
  intros Hb. assert (b = 9 \/ b = 10 \/ b = 11 \/ b = 12) as [->|[->|[->| ->]]] by lia; by vm_compute.
Qed.

Lemma inside_spec b size : inside b size = true ->
  1 <= fats b <= 2 /\ active b < fats b /\ 24 <= fat_at b /\ 0 < fat_len b /\
  fat_at b + fat_len b * fats b <= heap_at b /\ (count b + 2) * 4 <= fat_len b * Z.shiftl 1 (bps b) /\
  1 <= count b <= 0xfffffff5 /\ heap_at b + Z.shiftl (count b) (spc b) <= volume b /\
  volume b * Z.shiftl 1 (bps b) <= USIZE_MAX /\ volume b * Z.shiftl 1 (bps b) <= size /\ 2 <= root b <= count b + 1.
Proof. unfold inside, between. rewrite !andb_true_iff. lia. Qed.

(** What the first reads of a volume are. *)
Definition boot_reads (sector : Z) : list (Z * Z) := [(0, 512); (0, sector * 12)].

Lemma boot_of_range boot : let b := boot_of boot in
  0 <= bps b /\ 0 <= spc b /\ 0 <= active b <= 1.
Proof.
  cbn. pose proof (byte_at_range boot 108). pose proof (byte_at_range boot 109). split_and!; try lia.
  - apply Z.land_nonneg. lia.
  - rewrite Z.land_comm. pose proof (Z.land_ones (le16 boot 106) 1 ltac:(lia)) as E. rewrite Z.land_comm in E.
    change (Z.ones 1) with 1 in E. rewrite E. pose proof (Z.mod_pos_bound (le16 boot 106) (2 ^ 1) ltac:(lia)). lia.
Qed.

(** The reads of a device: its first 512 bytes, and places inside it. *)
Definition reads_ok (v : Device) (l : list (Z * Z)) : Prop :=
  Forall (fun r => r = (0, 512) \/ exists size, v_size v = Some size /\ read_inside size r) l.

Record opened (v : Device) (vol : Z) (x : ExFat) : Prop := {
  op_geo : geo_ok vol x;
  op_size : exists size, v_size v = Some size /\ vol <= size;
  op_dev : k_dev (x_disk x) = v;
  op_log : k_log (x_disk x) = boot_reads (x_sector x);
  op_fits : x_sector x * 12 <= vol;
  op_cached : x_cached x = None;
}.

Lemma wp_on_disk_read at_ n (Q : bytes -> ExFat -> Prop) R x :
  (forall b, zlen b = n -> Q b (with_disk (mkDisk (k_dev (x_disk x)) (k_log (x_disk x) ++ [(at_, n)])) x)) ->
  (forall e, R e (with_disk (mkDisk (k_dev (x_disk x)) (k_log (x_disk x) ++ [(at_, n)])) x)) ->
  wp (on_disk (read_at at_ n)) Q R x.
Proof.
  intros HQ HR. unfold wp, on_disk, read_at. destruct (v_read _ _ _ _) as [b|]; [|apply HR].
  destruct (Z.eqb_spec (zlen b) n); [by apply HQ|apply HR].
Qed.

Lemma boot_reads_ok v size vol sector : v_size v = Some size -> vol <= size -> 0 <= sector -> sector * 12 <= vol ->
  reads_ok v (boot_reads sector).
Proof.
  intros Hs Hv H0 H12. constructor; [by left|]. constructor; [right|done]. exists size. split; [done|].
  unfold read_inside. cbn. lia.
Qed.

Lemma wp_open_boot v : wp open_boot (fun _ x => exists vol, opened v vol x) (fun _ x => reads_ok v (k_log (x_disk x))) (blank v).
Proof.
  unfold open_boot. apply wp_bind, wp_gets, wp_bind, wp_require; [intros size Hsize|by constructor].
  assert (reads_ok v [(0, 512)]) as Hfirst by (repeat constructor).
  apply wp_bind, wp_on_disk_read; [|done]. intros boot Hboot.
  apply wp_bind, wp_reject_if; [done|]. intros _. apply wp_bind, wp_reject_if; [done|]. intros _.
  destruct (boot_of_range boot) as (Hb0 & Hs0 & Ha). set (b := boot_of boot) in *.
  apply wp_bind, wp_reject_if; [done|]. intros Hsz. apply orb_false_iff in Hsz as [Hbps%negb_false_iff Hspc].
  unfold between in Hbps. destruct (shift_sector (bps b) ltac:(lia)) as (Hsec & H4 & H32 & Epow).
  apply wp_bind, wp_reject_if; [done|]. intros Hin%negb_false_iff%inside_spec.
  set (sector := Z.shiftl 1 (bps b)) in *.
  assert (sector * 12 <= volume b * sector) as H12.
  { destruct Hin as (? & ? & ? & ? & ? & ? & ? & Hv & _). pose proof (Z.shiftl_nonneg (count b) (spc b)). nia. }
  assert (reads_ok v ([(0, 512)] ++ [(0, sector * 12)])) as Hreads
    by (apply (boot_reads_ok v size (volume b * sector)); [done|apply Hin|lia|lia]).
  apply wp_bind, wp_on_disk_read; [|done]. intros region Hregion.
  apply wp_bind, wp_part; [lia|lia|lia|]. intros sectors _. apply wp_bind, wp_part; [lia|lia|lia|]. intros check _.
  apply wp_bind, wp_reject_if; [done|]. intros _. apply wp_modify.
  exists (volume b * sector). rewrite !Z.shiftl_mul_pow2 in * by lia.
  destruct Hin as (H1 & H2 & H3 & H5 & H6 & H7 & H8 & H9 & H10 & H11 & H13).
  assert (1 <= 2 ^ spc b) by (pose proof (Z.pow_pos_nonneg 2 (spc b)); lia).
  assert (sector * 2 ^ spc b <= 33554432) as Hcl.
  { rewrite Epow, <-Z.pow_add_r by lia. change 33554432 with (2 ^ 25). apply Z.pow_le_mono_r; lia. }
  clearbody sector b. split; cbn [x_sector x_cluster x_fat x_heap x_count x_root x_active x_disk x_cached with_disk k_dev k_log].
  - split; cbn [x_sector x_cluster x_fat x_heap x_count x_root x_active].
    + done.
    + split; [nia|done].
    + by rewrite <-Zmult_mod_idemp_l, H32.
    + done.
    + split; [nia|]. apply Z.mod_mul. lia.
    + exists (fat_len b). split; [lia|]. nia.
    + nia.
    + done.
    + done.
    + done.
  - by exists size.
  - done.
  - done.
  - nia.
  - done.
Qed.

(** ** Opening, whole *)
Lemma inside_reads_ok v vol size l : v_size v = Some size -> vol <= size -> Forall (read_inside vol) l -> reads_ok v l.
Proof.
  intros Hs Hv Hl. eapply Forall_impl; [done|]. intros r Hr. right. exists size. split; [done|]. unfold read_inside in *. lia.
Qed.

(** A volume open on a device: what every command starts from. *)
Record ready (v : Device) (vol : Z) (x : ExFat) : Prop := {
  rd_geo : geo_ok vol x;
  rd_size : exists size, v_size v = Some size /\ vol <= size;
  rd_dev : k_dev (x_disk x) = v;
  rd_log : reads_ok v (k_log (x_disk x));
  rd_cached : forall b s, x_cached x = Some (b, s) -> zlen s = x_sector x;
  rd_free : 0 <= x_free x <= x_count x * x_cluster x /\ x_free x mod x_cluster x = 0;
}.

Lemma geo_kept vol x0 x : geo_ok vol x0 -> kept vol x0 x -> geo_ok vol x.
Proof.
  intros [] []. split; rewrite ?kp_sector0, ?kp_cluster0, ?kp_fat0, ?kp_heap0, ?kp_count0, ?kp_root0, ?kp_active0; done.
Qed.

Lemma kept_reads v vol x0 x : (exists size, v_size v = Some size /\ vol <= size) -> reads_ok v (k_log (x_disk x0)) ->
  kept vol x0 x -> reads_ok v (k_log (x_disk x)).
Proof.
  intros (size & Hs & Hv) Hl Hx. destruct (kp_log _ _ _ Hx) as (l & -> & Hf). apply Forall_app. split; [done|].
  by eapply inside_reads_ok.
Qed.

Lemma wp_open v : wp open (fun _ x => exists vol, ready v vol x) (fun _ x => reads_ok v (k_log (x_disk x))) (blank v).
Proof.
  unfold open. apply wp_bind. eapply wp_mono; [| |apply wp_open_boot]; [|done]. intros [] x0 (vol & Hop).
  assert (kept vol x0 x0) as Hk by (apply volume_kept_refl; by rewrite (op_cached _ _ _ Hop)).
  assert (reads_ok v (k_log (x_disk x0))) as Hl0.
  { destruct Hop as [Hg (size & Hs & Hv) _ Hl Hf _]. rewrite Hl. eapply boot_reads_ok; try done. destruct (g_sector _ _ Hg); lia. }
  eapply wp_mono; [| |by apply (wp_read_root vol x0 (op_geo _ _ _ Hop))].
  - intros [] x (Hx & Hfree & Hmod). exists vol. destruct Hop as [Hg Hs Hd Hl Hf Hc]. pose proof Hx as [].
    split; [by eapply geo_kept|done|congruence|by eapply kept_reads| |by rewrite kp_count0, kp_cluster0].
    intros b s Hb. rewrite kp_sector0. by eapply kp_cached0.
  - intros e x Hx. eapply kept_reads; [apply Hop|done|done].
Qed.
