(* ===== verification/ExfatClaims.v ===== *)
(** * Copying off an exFAT stick: where it lands, how much, and what past a file's valid data *)
From S2P Require Import Prelude Bytes Text Exfat ExfatSafe.
Import Exfat.
Open Scope string_scope.
Open Scope list_scope.
Open Scope Z_scope.

(** ** Here *)

(** A name that is one component of a path and goes to no other place. *)
Definition plain (n : text) : Prop := n <> [] /\ n <> [46] /\ n <> [46; 46] /\ 47 ∉ n /\ 0 ∉ n.

Lemma local_name_ok n m : local_name n = Ok m -> m = n /\ plain n.
Proof.
  unfold local_name. case_match eqn:H1; [done|]. case_match eqn:H2; [done|]. intros [= <-]. split; [done|].
  rewrite !orb_false_iff, !bool_decide_eq_false in H1. apply orb_false_iff in H2 as [H2 _].
  assert (forall c, c ∈ n -> c <> 47 /\ c <> 0) as Hc.
  { intros c Hin. destruct (existsb_exists (fun c => (c =? 47) || (c =? 0)) n) as [_ He]. rewrite H2 in He.
    split; intros ->; (discriminate He; eexists; split; [by apply list_elem_of_In|done]). }
  split_and!; try apply H1; intros Hin; by destruct (Hc _ Hin).
Qed.

(** A path at or below another, by plain names. *)
Definition under (to p : list text) : Prop := exists rest, p = to ++ rest /\ Forall plain rest.

Lemma under_refl to : under to to.
Proof. exists []. by rewrite app_nil_r. Qed.
Lemma under_child to n p : plain n -> under (to ++ [n]) p -> under to p.
Proof. intros Hn (rest & -> & Hr). exists (n :: rest). rewrite <-(assoc_L (++)). split; [done|by constructor]. Qed.

Abbreviation nodes := (gmap (list text) LNode).

(** What was there is there as it was, and what is new is under [to]. *)
Record grown (to : list text) (m m' : nodes) : Prop := {
  gr_keep : m ⊆ m';
  gr_new : forall p, m !! p = None -> is_Some (m' !! p) -> under to p;
}.

Lemma grown_refl to m : grown to m m.
Proof. split; [done|]. intros p Hp [n Hn]. congruence. Qed.
Lemma grown_trans to m1 m2 m3 : grown to m1 m2 -> grown to m2 m3 -> grown to m1 m3.
Proof.
  intros [H1 H2] [H3 H4]. split; [by etrans|]. intros p Hp Hs.
  destruct (m2 !! p) eqn:E; [apply H2; [done|by rewrite E]|by apply H4].
Qed.
Lemma grown_child to n m m' : plain n -> grown (to ++ [n]) m m' -> grown to m m'.
Proof. intros Hn [H1 H2]. split; [done|]. intros p Hp Hs. by eapply under_child, H2. Qed.
Lemma grown_insert to m v : m !! to = None -> grown to m (<[to := v]> m).
Proof.
  intros Hm. split; [by apply insert_subseteq|]. intros p Hp [n Hn].
  destruct (decide (p = to)) as [->|Hne]; [apply under_refl|]. rewrite lookup_insert_ne in Hn by done. congruence.
Qed.

Definition node_size (n : LNode) : Z := match n with LDir => 0 | LFile b => zlen b end.
(** The bytes of all the files there are. *)
Definition held (m : nodes) : Z := msum node_size m.

(** ** A file *)

(** Zero from the place [valid] on. *)
Definition zeros_from (valid : Z) (b : bytes) : Prop := forall i y, zlookup b i = Some y -> valid <= i -> y = x00.

Lemma zeros_from_app valid out b keep : zeros_from valid out -> keep = Z.min (Z.max (valid - zlen out) 0) (zlen b) ->
  zeros_from valid (out ++ take (Z.to_nat keep) b ++ repeat x00 (Z.to_nat (zlen b - keep))).
Proof.
  intros Hz Hk i y [Hi Hy]%zlookup_Some Hv. pose proof (zlen_nonneg b). pose proof (zlen_nonneg out).
  apply lookup_app_Some in Hy as [Hy|[Hge Hy]].
  { eapply Hz; [|done]. by apply zlookup_Some. }
  apply lookup_app_Some in Hy as [Hy|[_ Hy]].
  - apply lookup_lt_Some in Hy. rewrite length_take in Hy. unfold zlen in *. lia.
  - apply list_elem_of_lookup_2, list_elem_of_In, repeat_spec in Hy. done.
Qed.

Lemma zlen_cleared b keep : 0 <= keep <= zlen b ->
  zlen (take (Z.to_nat keep) b ++ repeat x00 (Z.to_nat (zlen b - keep))) = zlen b.
Proof. intros Hk. rewrite zlen_app, zlen_take by done. unfold zlen in *. rewrite repeat_length. lia. Qed.

Section copy.
Context (vol : Z) (x0 : ExFat).
Hypothesis Hgeo : geo_ok vol x0.
Abbreviation I := (fun j => kept vol x0 (j_x j)).

Lemma wp_on_x {A} (m : XM A) (Q : A -> Job -> Prop) R j :
  wp m (fun a x => Q a (mkJob x (j_local j))) (fun e x => R e (mkJob x (j_local j))) (j_x j) -> wp (on_x m) Q R j.
Proof. unfold wp, on_x. by destruct (m (j_x j)) as [[?|?|] ?]. Qed.

Abbreviation at_ j := (l_nodes (j_local j)).

Lemma wp_create p n (Q : unit -> Job -> Prop) (R : ExErr -> Job -> Prop) j :
  (at_ j !! p = None -> Q tt (set_node p n j)) -> (forall e, R e j) -> wp (create p n) Q R j.
Proof.
  intros HQ HR. unfold create. apply wp_bind, wp_gets, wp_bind, wp_reject_if; [intros _; apply HR|].
  intros [_ Hd%bool_decide_eq_false]%orb_false_iff. apply wp_modify, HQ. by apply eq_None_not_Some.
Qed.

(** The file [to] grows to the run's length. *)
Lemma wp_copy_loop fuel valid len c done_ to out j :
  I j -> reading_ok x0 c -> run_len (r_run c) = Some len -> r_done c = done_ -> zlen out = done_ ->
  (Z.to_nat (len - done_) < fuel)%nat -> zeros_from valid out -> at_ j !! to = Some (LFile out) ->
  wp (copy_loop fuel valid c done_ to out)
    (fun n j' => I j' /\ n = len /\ exists f, at_ j' = <[to := LFile f]> (at_ j) /\ zlen f = len /\ zeros_from valid f)
    (fun _ j' => I j' /\ exists f, at_ j' = <[to := LFile f]> (at_ j) /\ zlen f <= len) j.
Proof.
  revert c done_ out j. induction fuel as [|fuel IH]; intros c done_ out j Hj Hc Hl Hd Ho Hf Hz Hto; [lia|]. cbn [copy_loop].
  pose proof (rd_len _ _ Hc _ Hl) as [_ Hle].
  assert (at_ j = <[to := LFile out]> (at_ j)) as Hsame by (by rewrite insert_id).
  apply wp_bind, wp_on_x.
  eapply wp_mono; [| |apply (wp_read_run vol x0 Hgeo c COPY_PIECE); [done|done|unfold COPY_PIECE; lia]].
  2:{ intros e x Hx. split; [done|]. exists out. split; [done|lia]. }
  intros [c1 b] x1 [Hx1 [Hc1 Hrun Hdn Hrm Hend _]]. pose proof (zlen_nonneg b). pose proof (rd_len _ _ Hc1 len) as Hl1.
  rewrite Hrun in Hl1. destruct (Hl1 Hl) as [_ Hle1].
  destruct (Z.eqb_spec (zlen b) 0) as [E|E].
  { apply wp_ret. destruct (Hend E) as [_ He]. specialize (He _ Hl). split_and!; [done|lia|]. exists out. split_and!; [done|lia|done]. }
  set (keep := Z.min _ (zlen b)). assert (0 <= keep <= zlen b) as Hk by lia.
  set (b' := take _ b ++ _). pose proof (zlen_cleared b keep Hk) as Hb'. fold b' in Hb'. apply wp_bind, wp_gets.
  destruct (l_full _ _ _) as [n|].
  { apply wp_bind, wp_modify, wp_fail. split; [done|]. exists (out ++ take n b'). split; [done|].
    rewrite zlen_app. unfold zlen at 2. rewrite length_take. unfold zlen in *. lia. }
  apply wp_bind, wp_modify. eapply wp_mono; [| |apply IH; try done].
  - intros n j' (Hj' & -> & f & -> & Hf1 & Hf2). split_and!; [done|done|]. exists f. split_and!; [|done|done].
    cbn. by rewrite insert_insert_eq.
  - intros e j' (Hj' & f & -> & Hf1). split; [done|]. exists f. split; [|done]. cbn. by rewrite insert_insert_eq.
  - by rewrite Hrun.
  - lia.
  - rewrite zlen_app. lia.
  - lia.
  - subst b'. apply zeros_from_app; [done|]. subst keep. lia.
  - cbn. apply lookup_insert_eq.
Qed.

Lemma wp_copy_file e to b j : I j -> entry_ok x0 e ->
  wp (copy_file_out e to b)
    (fun '(b', n) j' => I j' /\ n = e_len e /\ b_bytes b' = b_bytes b - n /\ b_dirs b' = b_dirs b /\ n <= b_bytes b /\
      at_ j !! to = None /\ exists f, at_ j' = <[to := LFile f]> (at_ j) /\ zlen f = n /\ zeros_from (e_valid e) f)
    (fun _ j' => I j' /\ (at_ j' = at_ j \/
      at_ j !! to = None /\ exists f, at_ j' = <[to := LFile f]> (at_ j) /\ zlen f <= b_bytes b)) j.
Proof.
  intros Hj He. destruct He as [Hrun Hlen Hvalid _ _]. unfold copy_file_out. apply wp_bind, wp_lift; [|auto].
  unfold take_bytes. destruct (Z.ltb_spec (b_bytes b) (e_len e)); [done|]. intros ? [= <-].
  apply wp_bind, wp_create; [intros Hto|auto]. apply wp_bind.
  eapply wp_mono; [| |apply (wp_copy_loop _ (e_valid e) (e_len e))].
  - intros n j' (Hj' & -> & f & E & Hf1 & Hf2). apply wp_ret. cbn. split_and!; try done. exists f. split_and!; try done.
    rewrite E. cbn. by rewrite insert_insert_eq.
  - intros er j' (Hj' & f & E & Hf1). split; [done|]. right. split; [done|]. exists f. split; [|lia].
    rewrite E. cbn. by rewrite insert_insert_eq.
  - done.
  - apply (new_reading_ok vol); [done|]. cbn. rewrite Hrun. intros ? [= <-]. lia.
  - done.
  - done.
  - done.
  - lia.
  - intros i y Hy. by destruct i.
  - cbn. apply lookup_insert_eq.
Qed.

(** ** A directory *)
Lemma held_insert m to f : m !! to = None -> held (<[to := LFile f]> m) = held m + zlen f.
Proof. intros Hm. unfold held. rewrite msum_insert_None by done. cbn. lia. Qed.

(** What a copy leaves: all of it under [to], as many bytes as counted, off the budget. *)
Definition copied_ok (to : list text) (b : Budget) (m : nodes) (b' : Budget) (n : Z) (m' : nodes) : Prop :=
  grown to m m' /\ 0 <= n /\ b_bytes b' = b_bytes b - n /\ n <= b_bytes b /\ 0 <= b_dirs b' <= b_dirs b /\ held m' = held m + n.
Definition copied_part (to : list text) (b : Budget) (m m' : nodes) : Prop :=
  grown to m m' /\ held m <= held m' <= held m + b_bytes b.

Lemma copied_part_refl to b m : 0 <= b_bytes b -> copied_part to b m m.
Proof. intros Hb. split; [apply grown_refl|lia]. Qed.

Lemma wp_copy_file_out e to b j : I j -> entry_ok x0 e -> 0 <= b_dirs b -> 0 <= b_bytes b ->
  wp (copy_file_out e to b) (fun '(b', n) j' => I j' /\ copied_ok to b (at_ j) b' n (at_ j'))
    (fun _ j' => I j' /\ copied_part to b (at_ j) (at_ j')) j.
Proof.
  intros Hj He Hb Hy. eapply wp_mono; [| |by apply wp_copy_file].
  - intros [b' n] j' (Hj' & -> & H1 & H2 & H3 & Hto & f & E & Hf & _). split; [done|]. rewrite E. destruct He.
    split_and!; [by apply grown_insert|lia|done|done|lia|lia|]. rewrite held_insert by done. lia.
  - intros er j' (Hj' & [->|(Hto & f & -> & Hf)]); (split; [done|]); [by apply copied_part_refl|].
    pose proof (zlen_nonneg f). split; [by apply grown_insert|]. rewrite held_insert by done. lia.
Qed.

(** A copy of [sub] directories keeps to its target and its budget. *)
Definition copies (sub : Run -> list text -> Budget -> JM (Budget * Z)) : Prop := forall run to b j,
  I j -> slots_ok x0 (new_slots run) -> 0 <= b_dirs b -> 0 <= b_bytes b <= x_count x0 * x_cluster x0 ->
  wp (sub run to b) (fun '(b', n) j' => I j' /\ copied_ok to b (at_ j) b' n (at_ j'))
    (fun _ j' => I j' /\ copied_part to b (at_ j) (at_ j')) j.

Lemma heap_fits : x_count x0 * x_cluster x0 <= USIZE_MAX.
Proof. destruct Hgeo as [? ? ? ? [? _] (? & ? & ?) ? ? ? ?]. nia. Qed.

(** The loop, [copied] bytes and the nodes [at_ j1] in. *)
Lemma wp_copy_entries sub to b m : copies sub -> 0 <= b_bytes b <= x_count x0 * x_cluster x0 ->
  forall fuel s b1 n copied j1, I j1 -> slots_ok x0 s -> (Z.to_nat (room x0 s b1) < fuel)%nat ->
  0 <= b_dirs b1 -> copied_ok to b m b1 copied (at_ j1) ->
  wp (copy_entries sub to fuel s b1 n copied) (fun '(b', n) j' => I j' /\ copied_ok to b m b' n (at_ j'))
    (fun _ j' => I j' /\ copied_part to b m (at_ j')) j1.
Proof.
  intros Hsub Hy. induction fuel as [|fuel IH]; intros s b1 n copied j1 Hj1 Hs1 Hf Hd1 Hok; [lia|]. cbn [copy_entries].
  pose proof Hok as (Hg & Hc & Hb1 & Hle & Hd & Hh). pose proof heap_fits as Hmax.
  assert (forall x, kept vol x0 x -> I (mkJob x (j_local j1)) /\ copied_part to b m (at_ (mkJob x (j_local j1)))) as HR.
  { intros x Hx. split; [done|]. split; [done|]. cbn. lia. }
  apply wp_bind, wp_on_x. eapply wp_mono; [| |by apply (wp_next_entry vol x0 Hgeo)]; [|intros e x; apply HR].
  intros [[s2 b2] [e|]] x2 [Hx2 (Hs2 & (Hsp1 & Hsp2 & Hsp3) & He)].
  2:{ apply wp_ret. split; [done|]. split_and!; [done|lia|lia|lia|lia|lia|done]. }
  destruct He as [He Hr]. apply wp_bind, wp_lift; [intros [b3 n3] (-> & Hm & H1 & H2)%entry_of_ok|intros er _; by apply HR].
  apply wp_bind, wp_lift; [intros name (-> & Hpl)%local_name_ok|intros er _; by apply HR]. apply wp_bind.
  eapply (wp_mono _ (fun '(b', n) j' => I j' /\ copied_ok (to ++ [e_name e]) b3 (at_ j1) b' n (at_ j')) _
    (fun _ j' => I j' /\ copied_part (to ++ [e_name e]) b3 (at_ j1) (at_ j'))).
  - intros [b4 c] [x4 l4] (Hj4 & Hg4 & Hc0 & Hb4 & Hc4 & Hd4 & Hh4). apply wp_bind, wp_on_x, wp_u64; [lia|].
    pose proof (room_dirs x0 s2 b2 b3 H2). pose proof (room_nonneg vol x0 Hgeo s2 b3 Hs2 ltac:(lia)).
    assert (room x0 s2 b4 <= room x0 s2 b3) by (unfold room; pose proof (g_cluster _ _ Hgeo); nia).
    apply IH; [done|done|lia|lia|]. cbn in *. split_and!; try lia. eapply grown_trans; [done|]. by eapply grown_child.
  - intros er j4 (Hj4 & Hg4 & Hh4). split; [done|]. split; [|lia]. eapply grown_trans; [done|]. by eapply grown_child.
  - destruct (e_dir e); [apply (Hsub _ _ _ (mkJob x2 (j_local j1))); [done| |lia|lia]|
      apply (wp_copy_file_out _ _ _ (mkJob x2 (j_local j1))); try done; lia].
    apply (new_slots_ok vol); [done|]. destruct He as [-> ? _ _ _]. intros ? [= <-]. lia.
Qed.

Lemma wp_copy_dir_out depth : copies (copy_dir_out depth).
Proof.
  induction depth as [|depth IH]; intros run to b j Hj Hs Hb Hy; cbn [copy_dir_out].
  { apply wp_fail. split; [done|]. apply copied_part_refl. lia. }
  apply wp_bind, wp_create; [intros Hto|intros e; split; [done|apply copied_part_refl; lia]].
  apply wp_bind, wp_gets. cbn [j_x set_node]. rewrite (slot_room_spec vol x0 _ _ _ Hj).
  apply wp_copy_entries; try done; [lia|]. cbn. split_and!; try lia; [by apply grown_insert|].
  unfold held. rewrite msum_insert_None by done. cbn. lia.
Qed.

(** ** [get] *)
Lemma wp_get path dest j : I j ->
  wp (get path dest)
    (fun n j' => I j' /\ grown dest (at_ j) (at_ j') /\ 0 <= n <= x_count x0 * x_cluster x0 /\ held (at_ j') = held (at_ j) + n)
    (fun _ j' => I j' /\ grown dest (at_ j) (at_ j') /\
      held (at_ j) <= held (at_ j') <= held (at_ j) + x_count x0 * x_cluster x0) j.
Proof.
  intros Hj. unfold get. destruct (budget_ok vol x0 Hgeo (j_x j) Hj) as [Hbd Hbb].
  assert (0 <= x_count x0 * x_cluster x0) by (destruct Hgeo; nia).
  assert (forall x, kept vol x0 x -> I (mkJob x (j_local j)) /\ grown dest (at_ j) (at_ j) /\
    held (at_ j) <= held (at_ j) <= held (at_ j) + x_count x0 * x_cluster x0) as HR.
  { intros x Hx. split_and!; [done|apply grown_refl|lia|lia]. }
  destruct j as [xj lj]. apply wp_bind, wp_gets, wp_bind.
  eapply (wp_mono _ (fun target j' => j' = mkJob xj lj /\ forall m m', grown target m m' -> grown dest m m')); [|intros e j' H'; exact H'|].
  - intros target ? [-> Ht]. apply wp_bind, wp_on_x.
    eapply wp_mono; [| |apply (wp_find vol x0 Hgeo); done]; [|intros e x; apply HR].
    intros [b found] x1 (Hx1 & [Hw1 Hw2] & Hfound). apply wp_bind.
    eapply (wp_mono _ (fun '(b', n) j' => I j' /\ copied_ok target b (l_nodes lj) b' n (at_ j')) _
      (fun _ j' => I j' /\ copied_part target b (l_nodes lj) (at_ j'))).
    + intros [b' n] j' (Hj' & Hg & Hn & Hb' & Hnb & _ & Hh). apply wp_ret. split_and!; [done|by apply Ht|lia|lia|done].
    + intros e j' (Hj' & Hg & Hh). split_and!; [done|by apply Ht|cbn; lia|cbn; lia].
    + destruct found as [e|]; cbn in Hfound.
      * destruct (e_dir e); [apply (wp_copy_dir_out (S MAX_DEPTH) _ _ _ (mkJob x1 lj)); try done; try lia|
          apply (wp_copy_file_out _ _ _ (mkJob x1 lj)); try done; lia].
        apply (new_slots_ok vol); [done|]. destruct Hfound as [-> ? _ _ _]. intros ? [= <-]. lia.
      * apply wp_bind, wp_gets. apply (wp_copy_dir_out (S MAX_DEPTH) _ _ _ (mkJob x1 lj)); try done; try lia. by apply (new_slots_ok vol).
  - destruct (_ && _); [|by apply wp_ret]. apply wp_bind, wp_lift; [intros n [-> Hp]%local_name_ok|intros e _; by apply HR].
    apply wp_ret. split; [done|]. intros m m'. by apply grown_child.
Qed.
End copy.

(** * exFAT: the claims, and a small volume they hold of *)
Import Exfat.

(** ** A volume of eight clusters, one sector each *)
Definition le (n : nat) (v : Z) : bytes := (fun i => byte_of_Z (Z.shiftr v (8 * Z.of_nat i) mod 256)) <$> seq 0 n.
Definition zeros (n : nat) : bytes := repeat x00 n.
(** A sector that begins with these bytes. *)
Definition sector_of (b : bytes) : bytes := b ++ zeros (512 - length b).
Definition boot_sector : bytes := Eval vm_compute in
  zeros 3 ++ le 8 0x2020205441465845 ++ zeros 61 ++ le 8 33 ++ le 4 24 ++ le 4 1 ++ le 4 25 ++ le 4 8 ++ le 4 2
  ++ zeros 8 ++ le 4 0x00010009 ++ zeros 398 ++ le 2 0xaa55.
Definition boot_sum : Z := Eval vm_compute in checksum 32 skipped 0 0 (boot_sector ++ zeros 5120).
Definition fat_bytes : bytes := Eval vm_compute in
  sector_of (le 4 0xfffffff8 ++ mjoin (repeat (le 4 0xffffffff) 9)).
Definition up_table : bytes := Eval vm_compute in le 2 0xffff ++ le 2 0x61 ++ le 2 0x41.
(** HI.TXT: five bytes, three of them valid, in cluster 5. *)
Definition stream_entry : bytes := Eval vm_compute in
  le 4 0x060003c0 ++ le 4 0 ++ le 8 3 ++ le 4 0 ++ le 4 5 ++ le 8 5.
Definition name_entry : bytes := Eval vm_compute in le 2 0xc1 ++ mjoin (le 2 <$> chars "HI.TXT") ++ zeros 18.
Definition set_of (sum : Z) : bytes :=
  le 2 0x0285 ++ le 2 sum ++ le 2 0x20 ++ zeros 26 ++ stream_entry ++ name_entry.
Definition root_sector : bytes := Eval vm_compute in sector_of (
  le 4 0x81 ++ zeros 16 ++ le 4 3 ++ le 8 1
  ++ le 4 0x82 ++ le 4 (checksum 32 (fun _ => false) 0 0 up_table) ++ zeros 12 ++ le 4 4 ++ le 8 6
  ++ set_of (checksum 16 (fun i => (i =? 2) || (i =? 3)) 0 0 (set_of 0))).
Definition image : bytes := Eval vm_compute in
  boot_sector ++ zeros 5120 ++ mjoin (repeat (le 4 boot_sum) 128) ++ zeros 6144 ++ fat_bytes
  ++ root_sector ++ sector_of [x0f] ++ sector_of up_table ++ sector_of (as_bytes "HELLO") ++ zeros 2048.
Definition a_stick : Device := mkDevice (Some (zlen image)) (fun _ at_ n => Some (slice image at_ (at_ + n))).
(** A home with nothing in it, where every call is granted. *)
Definition a_home : Local := mkLocal {[ [chars "home"] := LDir ]} (fun _ => false) (fun _ _ => None).

Example ls_root : (stick_ls a_stick (chars "/")).1 = Done [(chars "HI.TXT", false, 5)].
Proof. by vm_compute. Qed.
Example get_file : let r := stick_get a_stick a_home (chars "/HI.TXT") [chars "home"] in
  r.1 = Done 5 /\ l_nodes (j_local r.2) !! [chars "home"; chars "HI.TXT"] = Some (LFile (as_bytes "HEL" ++ [x00; x00])).
Proof. by vm_compute. Qed.

(** ** Any device *)
Lemma ready_kept v vol x : ready v vol x -> kept vol x x.
Proof. intros []. by apply volume_kept_refl. Qed.

Lemma wp_stick_ls v dir : wp (open;; entries dir)
  (fun l x => reads_ok v (k_log (x_disk x)) /\ zlen l <= DIR_ENTRIES_MAX) (fun _ x => reads_ok v (k_log (x_disk x))) (blank v).
Proof.
  apply wp_bind. eapply wp_mono; [| |apply wp_open]; [|done]. intros [] x0 (vol & Hr).
  pose proof (ready_kept _ _ _ Hr) as Hk. destruct Hr as [Hg Hs _ Hl _ _].
  eapply wp_mono; [| |by apply (wp_entries vol x0 Hg)].
  - intros l x [Hx Hn]. split; [by eapply kept_reads|done].
  - intros e x Hx. by eapply kept_reads.
Qed.

(** What a copy leaves here, however it ends. *)
Definition left_here (v : Device) (dest : list text) (m : nodes) (j : Job) : Prop :=
  reads_ok v (k_log (x_disk (j_x j))) /\ grown dest m (l_nodes (j_local j)) /\
  (l_nodes (j_local j) = m \/ exists size, v_size v = Some size /\ held m <= held (l_nodes (j_local j)) <= held m + size).

Lemma wp_stick_get v l path dest : wp (on_x open;; get path dest)
  (fun n j => left_here v dest (l_nodes l) j /\ held (l_nodes (j_local j)) = held (l_nodes l) + n)
  (fun _ j => left_here v dest (l_nodes l) j) (mkJob (blank v) l).
Proof.
  apply wp_bind, wp_on_x. eapply wp_mono; [| |apply wp_open].
  2:{ intros e x Hx. split_and!; [done|apply grown_refl|by left]. }
  intros [] x0 (vol & Hr). pose proof (ready_kept _ _ _ Hr) as Hk. destruct Hr as [Hg (size & Hs & Hv) _ Hl _ _].
  assert (x_count x0 * x_cluster x0 <= size) as Hc by (destruct Hg as [? ? ? ? [? _] (? & ? & ?) ? ? ? ?]; nia).
  eapply wp_mono; [| |apply (wp_get vol x0 Hg); exact Hk]; cbn [j_local j_x].
  - intros n j' (Hj & Hgr & Hn & Hh). split; [|done]. split_and!; [apply (kept_reads v vol x0); [by exists size|done|done]|done|].
    right. exists size. split; [done|lia].
  - intros e j' (Hj & Hgr & Hh). split_and!; [apply (kept_reads v vol x0); [by exists size|done|done]|done|]. right. exists size. split; [done|lia].
Qed.


(** Every read either command makes of the device, past the first 512 bytes
    that say what it is, lies inside the size the device has, whatever the volume claims. *)
Theorem stick_reads_inside (v : Device) (dir path : text) (l : Local) (dest : list text) :
  let inside_device '(at_, n) := exists size, v_size v = Some size /\ 0 <= at_ /\ 0 <= n /\ at_ + n <= size in
  forall r, r ∈ k_log (x_disk (stick_ls v dir).2) ++ k_log (x_disk (j_x (stick_get v l path dest).2)) ->
  r = (0, 512) \/ inside_device r.
Proof.
  unfold stick_ls, stick_get. pose proof (wp_stick_ls v dir) as H1. pose proof (wp_stick_get v l path dest) as H2.
  intros [a n] Hr. unfold wp in H1, H2.
  assert (reads_ok v (k_log (x_disk ((open;; entries dir) (blank v)).2) ++
    k_log (x_disk (j_x ((on_x open;; get path dest) (mkJob (blank v) l)).2)))) as Hok.
  { apply Forall_app. split.
    - by destruct ((open;; entries dir) _) as [[] ?]; cbn; [apply H1|..].
    - destruct ((on_x open;; get path dest) _) as [[] ?]; cbn; [apply H2|apply H2|done]. }
  unfold reads_ok in Hok. rewrite Forall_forall in Hok. destruct (Hok _ Hr) as [?|(size & Hs & Hi)]; [by left|right].
  exists size. split; [done|]. by apply Hi.
Qed.
Example stick_reads_inside_witness :
  (12800, 512) = (0, 512) \/ exists size, v_size a_stick = Some size /\ 0 <= 12800 /\ 0 <= 512 /\ 12800 + 512 <= size.
Proof.
  apply (stick_reads_inside a_stick (chars "/") (chars "/HI.TXT") a_home [chars "home"] (12800, 512)).
  apply (bool_decide_unpack _). vm_compute. exact I.
Defined.

(** C13: however a copy off the stick ends, what was here is here as it was, and
    what is new lies at or under the destination, by names that hold no slash and no NUL and are
    neither empty nor a dot name, whatever the names on the stick are. *)
Theorem stick_confined (v : Device) (l : Local) (path : text) (dest p : list text) :
  let here := l_nodes (j_local (stick_get v l path dest).2) in
  (forall n, l_nodes l !! p = Some n -> here !! p = Some n) /\
  (l_nodes l !! p = None -> is_Some (here !! p) -> exists rest, p = dest ++ rest /\ Forall plain rest).
Proof.
  pose proof (wp_stick_get v l path dest) as H. unfold stick_get, wp in *.
  destruct ((on_x open;; get path dest) _) as [[] j]; cbn; [destruct H as [H _]| |done]; destruct H as (_ & [Hk Hn] & _);
    (split; [intros n Hp; by eapply lookup_weaken|apply Hn]).
Qed.

(** A copy writes no more bytes here than the device holds, also when it fails,
    and one that succeeds reports the bytes it wrote. *)
Theorem stick_bounded (v : Device) (l : Local) (path : text) (dest : list text) :
  let '(o, j) := stick_get v l path dest in
  let written := held (l_nodes (j_local j)) - held (l_nodes l) in
  0 <= written <= Z.max 0 (default 0 (v_size v)) /\ forall n, o = Done n -> n = written.
Proof.
  pose proof (wp_stick_get v l path dest) as H. unfold stick_get, wp in *.
  destruct ((on_x open;; get path dest) _) as [[n|e|] j]; [destruct H as [H E]| |done].
  - split; [|intros ? [= <-]; lia]. destruct H as (_ & _ & [->|(size & -> & Hs)]); cbn; lia.
  - split; [|done]. destruct H as (_ & _ & [->|(size & -> & Hs)]); cbn; lia.
Qed.

(** A file copied off the stick has the length its entry says, and past its valid
    data it is zeros, whatever its clusters hold there. *)
Theorem stale_data (v : Device) (x : ExFat) (l : Local) (e : Entry) (to : list text) (b b' : Budget) (n : Z) (j : Job) :
  open (blank v) = (Done tt, x) -> entry_ok x e ->
  copy_file_out e to b (mkJob x l) = (Done (b', n), j) ->
  exists f, l_nodes (j_local j) !! to = Some (LFile f) /\ zlen f = e_len e /\ n = e_len e /\
    (forall i y, zlookup f i = Some y -> e_valid e <= i -> y = x00).
Proof.
  intros Ho He Hc. pose proof (wp_open v) as H. unfold wp in H. rewrite Ho in H. destruct H as (vol & Hr).
  pose proof (wp_copy_file vol x (rd_geo _ _ _ Hr) e to b (mkJob x l) (ready_kept _ _ _ Hr) He) as H. unfold wp in H.
  rewrite Hc in H. destruct H as (_ & -> & _ & _ & _ & _ & f & -> & Hf & Hz). exists f. by rewrite lookup_insert_eq.
Qed.
Definition opened_stick : ExFat := (open (blank a_stick)).2.
Definition hi_entry : Entry := mkEntry (chars "HI.TXT") (chars "HI.TXT") false 5 3 (mkRun 5 (Some 5) true).
Definition hi_copy := copy_file_out hi_entry [chars "x"] (budget opened_stick) (mkJob opened_stick a_home).
Example stale_data_witness :
  exists f, l_nodes (j_local hi_copy.2) !! [chars "x"] = Some (LFile f) /\ zlen f = 5 /\ 5 = 5 /\
    (forall i y, zlookup f i = Some y -> 3 <= i -> y = x00).
Proof.
  refine (stale_data a_stick opened_stick a_home hi_entry [chars "x"] (budget opened_stick)
    (mkBudget (b_entries (budget opened_stick)) (b_bytes (budget opened_stick) - 5) (b_dirs (budget opened_stick))) 5 hi_copy.2 _ _ _).
  - unfold opened_stick. vm_compute. reflexivity.
  - assert (x_count opened_stick * x_cluster opened_stick = 4096) as E by (by vm_compute).
    constructor.
    + reflexivity.
    + rewrite E. cbn [e_len hi_entry]. lia.
    + cbn [e_len e_valid hi_entry]. lia.
    + assert (e_units hi_entry = [72; 73; 46; 84; 88; 84]) as -> by (by vm_compute).
      clear E. repeat (constructor; [lia|]). constructor.
    + vm_compute. reflexivity.
  - unfold hi_copy. vm_compute. reflexivity.
Defined.
