(* ===== verification/Netlink.v ===== *)
(** * kryptikd's netlink.rs: requests to the kernel's network stack, as bytes

    Messages are built in a byte vector whose lengths are patched in as they end ([Msg]); replies
    are read back by offset. An index out of range, an overflow and a loop out of fuel panic.
    What the kernel answers is an [Oracle], asked by the number of the question, so that it may
    answer the same question differently each time; each request is logged with the namespace the
    thread was in and how it ended. *)
From S2P Require Import Prelude Bytes Text.
Open Scope string_scope.
Open Scope list_scope.
Open Scope Z_scope.

Module Netlink.

Definition NETLINK_ROUTE : Z := 0.
Definition NETLINK_GENERIC : Z := 16.
Definition GENL_ID_CTRL : Z := 0x10.
Definition CTRL_CMD_GETFAMILY : Z := 3.
Definition CTRL_ATTR_FAMILY_ID : Z := 1.
Definition CTRL_ATTR_FAMILY_NAME : Z := 2.
Definition NL80211_CMD_NEW_INTERFACE : Z := 7.
Definition NL80211_CMD_DEL_INTERFACE : Z := 8.
Definition NL80211_CMD_SET_WIPHY_NETNS : Z := 49.
Definition NL80211_ATTR_WIPHY : Z := 1.
Definition NL80211_ATTR_IFINDEX : Z := 3.
Definition NL80211_ATTR_IFNAME : Z := 4.
Definition NL80211_ATTR_IFTYPE : Z := 5.
Definition NL80211_IFTYPE_STATION : Z := 2.
Definition NL80211_ATTR_NETNS_FD : Z := 219.
Definition NLA_TYPE_MASK : Z := 0x3fff.
Definition RTM_NEWLINK : Z := 16.
Definition RTM_DELLINK : Z := 17.
Definition RTM_GETLINK : Z := 18.
Definition RTM_SETLINK : Z := 19.
Definition RTM_NEWADDR : Z := 20.
Definition RTM_NEWROUTE : Z := 24.
Definition RTM_DELLINKPROP : Z := 109.
Definition NLMSG_ERROR : Z := 2.
Definition NLMSG_DONE : Z := 3.
Definition NLM_F_REQUEST : Z := 0x01.
Definition NLM_F_ACK : Z := 0x04.
Definition NLM_F_EXCL : Z := 0x200.
Definition NLM_F_CREATE : Z := 0x400.
Definition NLA_F_NESTED : Z := 0x8000.
Definition IFLA_ADDRESS : Z := 1.
Definition IFLA_IFNAME : Z := 3.
Definition IFLA_MTU : Z := 4.
Definition IFLA_MASTER : Z := 10.
Definition IFLA_PROTINFO : Z := 12.
Definition IFLA_LINKINFO : Z := 18.
Definition IFLA_IFALIAS : Z := 20.
Definition IFLA_NET_NS_FD : Z := 28.
Definition IFLA_PROP_LIST : Z := 52.
Definition IFLA_ALT_IFNAME : Z := 53.
Definition IFLA_INFO_KIND : Z := 1.
Definition IFLA_INFO_DATA : Z := 2.
Definition VETH_INFO_PEER : Z := 1.
Definition IFLA_BRPORT_ISOLATED : Z := 33.
Definition IFA_ADDRESS : Z := 1.
Definition IFA_LOCAL : Z := 2.
Definition RTA_OIF : Z := 4.
Definition RTA_GATEWAY : Z := 5.
Definition RT_TABLE_MAIN : Z := 254.
Definition RTPROT_BOOT : Z := 3.
Definition RT_SCOPE_UNIVERSE : Z := 0.
Definition RTN_UNICAST : Z := 1.
Definition AF_BRIDGE : Z := 7.
(** The libc crate's. *)
Definition AF_UNSPEC : Z := 0.
Definition AF_INET : Z := 2.
Definition AF_INET6 : Z := 10.
Definition IFF_UP : Z := 1.
Definition EINTR : Z := 4.
Definition ENOENT : Z := 2.
Definition EEXIST : Z := 17.

Definition MAX_REPLY : Z := 128 * 1024.

Definition align4 (n : Z) : Z := Z.land (n + 3) (Z.lnot 3).

(** [u16::to_ne_bytes]. *)
Definition bytes_of_u16 (v : Z) : bytes := [byte_of_Z v; byte_of_Z (v / 256)].

(** ** A message under construction *)
Definition Msg := bytes.

Definition push_zeros (b : Msg) : Msg := b ++ repeat x00 (Z.to_nat (align4 (zlen b) - zlen b)).
Definition raw (b : Msg) (d : bytes) : Msg := push_zeros (b ++ d).

Definition new_msg (msg_type flags seq : Z) : Msg :=
  bytes_of_u32 0 ++ bytes_of_u16 msg_type ++ bytes_of_u16 (Z.lor (Z.lor NLM_F_REQUEST NLM_F_ACK) flags)
  ++ bytes_of_u32 seq ++ bytes_of_u32 0.

(** An [i32] as its 32 bits. *)
Definition ifinfomsg (b : Msg) (family index flags change : Z) : Msg :=
  raw b ([byte_of_Z family; x00] ++ bytes_of_u16 0 ++ bytes_of_u32 index ++ bytes_of_u32 flags ++ bytes_of_u32 change).
Definition ifaddrmsg (b : Msg) (family prefixlen index : Z) : Msg :=
  raw b ([byte_of_Z family; byte_of_Z prefixlen; x00; x00] ++ bytes_of_u32 index).
Definition genlmsghdr (b : Msg) (cmd version : Z) : Msg := raw b [byte_of_Z cmd; byte_of_Z version; x00; x00].
Definition rtmsg (b : Msg) (family : Z) : Msg :=
  raw b (byte_of_Z <$> [family; 0; 0; 0; RT_TABLE_MAIN; RTPROT_BOOT; RT_SCOPE_UNIVERSE; RTN_UNICAST; 0; 0; 0; 0]).

(** The length is [as u16]. *)
Definition attr (b : Msg) (kind : Z) (d : bytes) : Msg :=
  raw (b ++ bytes_of_u16 (as_u16 (4 + zlen d)) ++ bytes_of_u16 kind) d.
Definition attr_str (b : Msg) (kind : Z) (s : string) : Msg := attr b kind (as_bytes s ++ [x00]).
Definition attr_u32 (b : Msg) (kind v : Z) : Msg := attr b kind (bytes_of_u32 v).

Definition begin_nested (b : Msg) (kind : Z) : Msg * Z :=
  (b ++ bytes_of_u16 0 ++ bytes_of_u16 (Z.lor kind NLA_F_NESTED), zlen b).
(** [self.buf[at..at + d.len()].copy_from_slice(d)]; the caller's place is in the buffer. *)
Definition patch (b : Msg) (at_ : Z) (d : bytes) : Msg :=
  take (Z.to_nat at_) b ++ d ++ drop (Z.to_nat (at_ + zlen d)) b.
Definition end_nested (b : Msg) (start : Z) : Msg := patch b start (bytes_of_u16 (as_u16 (zlen b - start))).
Definition finish (b : Msg) : bytes := patch b 0 (bytes_of_u32 (as_u32 (zlen b))).

(** ** Reading replies *)
Definition byte_at (b : bytes) (i : Z) : option Z := Z_of_byte <$> zlookup b i.
Definition u16_at (b : bytes) (i : Z) : option Z :=
  lo ← byte_at b i; hi ← byte_at b (i + 1); Some (lo + 256 * hi).
Definition u32_at (b : bytes) (i : Z) : option Z :=
  lo ← u16_at b i; hi ← u16_at b (i + 2); Some (lo + 65536 * hi).

(** [attrs]: [None] is a panic. *)
Fixpoint attrs_loop (fuel : nat) (buf : bytes) (off : Z) : option (list (Z * bytes)) :=
  match fuel with
  | O => None
  | S fuel =>
    if off + 4 <=? zlen buf then
      len ← u16_at buf off;
      k ← u16_at buf (off + 2);
      if (len <? 4) || (zlen buf <? off + len) then Some []
      else
        rest ← attrs_loop fuel buf (off + align4 len);
        Some ((Z.land k NLA_TYPE_MASK, slice buf (off + 4) (off + len)) :: rest)
    else Some []
  end.
Definition attrs (buf : bytes) (off : Z) : option (list (Z * bytes)) := attrs_loop (S (length buf)) buf off.

(** The loop of [genl_family_id]: the family's id if the reply has it. *)
Fixpoint family_loop (fuel : nat) (buf : bytes) (off : Z) : option (option Z) :=
  match fuel with
  | O => None
  | S fuel =>
    if off + 4 <=? zlen buf then
      len ← u16_at buf off;
      k ← u16_at buf (off + 2);
      if (len <? 4) || (zlen buf <? off + len) then Some None
      else if (Z.land k NLA_TYPE_MASK =? CTRL_ATTR_FAMILY_ID) && (6 <=? len) then
        id ← u16_at buf (off + 4); Some (Some id)
      else family_loop fuel buf (off + align4 len)
    else Some None
  end.

(** The bytes of a name up to its NUL. *)
Fixpoint until_nul (d : bytes) : bytes :=
  match d with [] => [] | b :: d => if bool_decide (b = x00) then [] else b :: until_nul d end.

(** What [names_left] reads of a link's attributes. *)
Fixpoint altnames (l : list (Z * bytes)) : list bytes :=
  match l with
  | [] => []
  | (k, d) :: l => if k =? IFLA_ALT_IFNAME then until_nul d :: altnames l else altnames l
  end.
Fixpoint link_names (l : list (Z * bytes)) (alt : list bytes) (alias : bool) : option (list bytes * bool) :=
  match l with
  | [] => Some (alt, alias)
  | (k, d) :: l =>
    if k =? IFLA_PROP_LIST then
      inner ← attrs d 0;
      link_names l (alt ++ altnames inner) alias
    else if k =? IFLA_IFALIAS then
      link_names l alt (match d with b :: _ => negb (bool_decide (b = x00)) | [] => false end)
    else link_names l alt alias
  end.

(** ** An exchange *)
Inductive NlErr :=
| BadName | NoInterface | Errno (e : Z) | ReplyTooLarge | TruncatedReply | ErrorWithoutCode
| KernelSaid (e : Z) | NoFamily | NotANumber | SetnsFailed (e : Z) | SetnsBack (e : Z).

(** [e.kind() == AlreadyExists], and [NotFound]. *)
Definition already_exists (e : NlErr) : bool :=
  match e with Errno e | KernelSaid e | SetnsFailed e | SetnsBack e => e =? EEXIST | _ => false end.
Definition not_found (e : NlErr) : bool :=
  match e with
  | Errno e | KernelSaid e | SetnsFailed e | SetnsBack e => e =? ENOENT
  | NoInterface | NoFamily => true
  | _ => false
  end.

(** A turn of the loop: the peek at the next message's size fails, the read of it fails, or it
    is read. *)
Inductive Round := PeekFails (e : Z) | RecvFails (need e : Z) | Reads (need : Z) (d : bytes).

(** The messages of one read: how the exchange ends, or the replies so far. *)
Fixpoint messages (fuel : nat) (buf : bytes) (off : Z) (replies : bytes) : outcome bytes NlErr + bytes :=
  match fuel with
  | O => inl Panic
  | S fuel =>
    if off + 16 <=? zlen buf then
      match u32_at buf off, u16_at buf (off + 4) with
      | Some len, Some ty =>
        if (len <? 16) || (zlen buf <? off + len) then inl (Fail TruncatedReply)
        else if ty =? NLMSG_ERROR then
          if len <? 20 then inl (Fail ErrorWithoutCode)
          else
            match u32_at buf (off + 16) with
            | None => inl Panic
            | Some c =>
              if as_i32 c =? 0 then inl (Done replies)
              else if as_i32 c =? -2147483648 then inl Panic
              else inl (Fail (KernelSaid (- as_i32 c)))
            end
        else if ty =? NLMSG_DONE then inl (Done replies)
        else if MAX_REPLY <? zlen replies + len then inl (Fail ReplyTooLarge)
        else messages fuel buf (off + align4 len) (replies ++ slice buf (off + 16) (off + len))
      | _, _ => inl Panic
      end
    else inr replies
  end.

(** The loop of [transact_on], the reads the kernel answers and the error after the last. *)
Fixpoint exchange (rounds : list Round) (last : Z) (replies : bytes) : outcome bytes NlErr :=
  match rounds with
  | [] => Fail (Errno last)
  | PeekFails e :: rounds => if e =? EINTR then exchange rounds last replies else Fail (Errno e)
  | RecvFails need e :: rounds =>
    if MAX_REPLY <? need then Fail ReplyTooLarge
    else if e =? EINTR then exchange rounds last replies
    else Fail (Errno e)
  | Reads need d :: rounds =>
    if MAX_REPLY <? need then Fail ReplyTooLarge
    else
      let buf := take (Z.to_nat (Z.max need 16)) d in
      match messages (S (length buf)) buf 0 replies with
      | inl o => o
      | inr replies => exchange rounds last replies
      end
  end.

(** ** The requests *)

(** What is asked: of a device by its name, or of an index, a radio or a file as it is. *)
Inductive Op :=
| RenameIndex (idx : Z) (name : string)
| CreateVeth (a b : string) (peer_ns : option Z) (peer_mac : option bytes)
| CreateBridge (name : string)
| SetMaster (dev master : string)
| SetPortIsolated (dev : string) (on : bool)
| DeleteLink (dev : string)
| SetUp (dev : string)
| SetNetns (dev : string) (ns_fd : Z)
| GetFamily (name : string)
| SetWiphyNetns (family phy ns_fd : Z)
| NewStation (family phy : Z) (name : string)
| DelInterface (family idx : Z)
| AddAddr4 (dev : string) (addr : bytes) (prefix : Z)
| AddAddr6 (dev : string) (addr : bytes) (prefix : Z)
| AddDefaultRoute4 (gw : bytes) (dev : string)
| AddDefaultRoute6 (gw : bytes) (dev : string)
| SetLink (dev : string) (mac : option bytes) (mtu : option Z) (drop_alias : bool)
| GetLink (dev : string)
| DelAltnames (dev : string) (names : list bytes)
| Sysctl (path value : string)
| WolOff (dev : string).

Definition check_name (name : string) : bool :=
  negb (String.eqb name "" || (15 <? str_len name) || existsb (Z.eqb 47) (chars name) || existsb is_whitespace (chars name)).

(** The names a request checks before anything, and the devices it looks up, in order. *)
Definition checked (op : Op) : list string :=
  match op with
  | RenameIndex _ n | CreateBridge n | NewStation _ _ n => [n]
  | CreateVeth a b _ _ => [a; b]
  | _ => []
  end.
Definition devices (op : Op) : list string :=
  match op with
  | SetMaster d m => [d; m]
  | SetPortIsolated d _ | DeleteLink d | SetUp d | SetNetns d _ | AddAddr4 d _ _ | AddAddr6 d _ _
  | AddDefaultRoute4 _ d | AddDefaultRoute6 _ d | SetLink d _ _ _ | GetLink d | DelAltnames d _ => [d]
  | _ => []
  end.
Definition protocol (op : Op) : Z :=
  match op with
  | GetFamily _ | SetWiphyNetns _ _ _ | NewStation _ _ _ | DelInterface _ _ => NETLINK_GENERIC
  | _ => NETLINK_ROUTE
  end.

Definition link_msg (ty flags index up : Z) : Msg := ifinfomsg (new_msg ty flags 1) AF_UNSPEC index up up.

Definition rename_msg (idx : Z) (name : string) : bytes := finish (attr_str (link_msg RTM_NEWLINK 0 idx 0) IFLA_IFNAME name).
Definition create_veth_msg (a b : string) (peer_ns : option Z) (peer_mac : option bytes) : bytes :=
  let m := attr_str (link_msg RTM_NEWLINK (Z.lor NLM_F_CREATE NLM_F_EXCL) 0 0) IFLA_IFNAME a in
  let '(m, li) := begin_nested m IFLA_LINKINFO in
  let m := attr_str m IFLA_INFO_KIND "veth" in
  let '(m, data) := begin_nested m IFLA_INFO_DATA in
  let '(m, peer) := begin_nested m VETH_INFO_PEER in
  let m := ifinfomsg m AF_UNSPEC 0 0 0 in
  let m := attr_str m IFLA_IFNAME b in
  let m := match peer_ns with Some fd => attr_u32 m IFLA_NET_NS_FD fd | None => m end in
  let m := match peer_mac with Some mac => attr m IFLA_ADDRESS mac | None => m end in
  finish (end_nested (end_nested (end_nested m peer) data) li).
Definition create_bridge_msg (name : string) : bytes :=
  let m := attr_str (link_msg RTM_NEWLINK (Z.lor NLM_F_CREATE NLM_F_EXCL) 0 0) IFLA_IFNAME name in
  let '(m, li) := begin_nested m IFLA_LINKINFO in
  finish (end_nested (attr_str m IFLA_INFO_KIND "bridge") li).
Definition set_master_msg (idx midx : Z) : bytes := finish (attr_u32 (link_msg RTM_NEWLINK 0 idx 0) IFLA_MASTER midx).
Definition set_port_isolated_msg (idx : Z) (on : bool) : bytes :=
  let m := ifinfomsg (new_msg RTM_SETLINK 0 1) AF_BRIDGE idx 0 0 in
  let '(m, pi) := begin_nested m IFLA_PROTINFO in
  finish (end_nested (attr m IFLA_BRPORT_ISOLATED [if on then x01 else x00]) pi).
Definition set_wiphy_netns_msg (family phy ns_fd : Z) : bytes :=
  let m := genlmsghdr (new_msg family 0 1) NL80211_CMD_SET_WIPHY_NETNS 0 in
  finish (attr_u32 (attr_u32 m NL80211_ATTR_WIPHY phy) NL80211_ATTR_NETNS_FD ns_fd).
Definition new_station_msg (family phy : Z) (name : string) : bytes :=
  let m := genlmsghdr (new_msg family 0 1) NL80211_CMD_NEW_INTERFACE 0 in
  let m := attr_str (attr_u32 m NL80211_ATTR_WIPHY phy) NL80211_ATTR_IFNAME name in
  finish (attr_u32 m NL80211_ATTR_IFTYPE NL80211_IFTYPE_STATION).
Definition del_interface_msg (family idx : Z) : bytes :=
  finish (attr_u32 (genlmsghdr (new_msg family 0 1) NL80211_CMD_DEL_INTERFACE 0) NL80211_ATTR_IFINDEX idx).
Definition get_family_msg (name : string) : bytes :=
  finish (attr_str (genlmsghdr (new_msg GENL_ID_CTRL 0 1) CTRL_CMD_GETFAMILY 1) CTRL_ATTR_FAMILY_NAME name).
Definition add_addr4_msg (idx : Z) (addr : bytes) (prefix : Z) : bytes :=
  let m := ifaddrmsg (new_msg RTM_NEWADDR (Z.lor NLM_F_CREATE NLM_F_EXCL) 1) AF_INET prefix idx in
  finish (attr (attr m IFA_LOCAL addr) IFA_ADDRESS addr).
Definition add_addr6_msg (idx : Z) (addr : bytes) (prefix : Z) : bytes :=
  let m := ifaddrmsg (new_msg RTM_NEWADDR (Z.lor NLM_F_CREATE NLM_F_EXCL) 1) AF_INET6 prefix idx in
  finish (attr m IFA_ADDRESS addr).
Definition add_default_route_msg (family : Z) (gw : bytes) (idx : Z) : bytes :=
  let m := rtmsg (new_msg RTM_NEWROUTE (Z.lor NLM_F_CREATE NLM_F_EXCL) 1) family in
  finish (attr_u32 (attr m RTA_GATEWAY gw) RTA_OIF idx).
Definition set_link_msg (idx : Z) (mac : option bytes) (mtu : option Z) (drop_alias : bool) : bytes :=
  let m := link_msg RTM_NEWLINK 0 idx 0 in
  let m := match mac with Some a => attr m IFLA_ADDRESS a | None => m end in
  let m := match mtu with Some n => attr_u32 m IFLA_MTU n | None => m end in
  finish (if drop_alias then attr m IFLA_IFALIAS [] else m).
Definition del_altnames_msg (idx : Z) (names : list bytes) : bytes :=
  let m := link_msg RTM_DELLINKPROP 0 idx 0 in
  let '(m, list_) := begin_nested m IFLA_PROP_LIST in
  finish (end_nested (fold_left (fun m n => attr m IFLA_ALT_IFNAME (n ++ [x00])) names m) list_).

(** The message of a request, its devices' indices looked up. *)
Definition message (op : Op) (idx : list Z) : bytes :=
  let i := default 0 (head idx) in
  match op with
  | RenameIndex idx n => rename_msg idx n
  | CreateVeth a b ns mac => create_veth_msg a b ns mac
  | CreateBridge n => create_bridge_msg n
  | SetMaster _ _ => set_master_msg i (default 0 (idx !! 1%nat))
  | SetPortIsolated _ on => set_port_isolated_msg i on
  | DeleteLink _ => finish (link_msg RTM_DELLINK 0 i 0)
  | SetUp _ => finish (link_msg RTM_NEWLINK 0 i IFF_UP)
  | SetNetns _ fd => finish (attr_u32 (link_msg RTM_NEWLINK 0 i 0) IFLA_NET_NS_FD fd)
  | GetFamily n => get_family_msg n
  | SetWiphyNetns f p fd => set_wiphy_netns_msg f p fd
  | NewStation f p n => new_station_msg f p n
  | DelInterface f idx => del_interface_msg f idx
  | AddAddr4 _ a p => add_addr4_msg i a p
  | AddAddr6 _ a p => add_addr6_msg i a p
  | AddDefaultRoute4 gw _ => add_default_route_msg AF_INET gw i
  | AddDefaultRoute6 gw _ => add_default_route_msg AF_INET6 gw i
  | SetLink _ mac mtu al => set_link_msg i mac mtu al
  | GetLink _ => finish (link_msg RTM_GETLINK 0 i 0)
  | DelAltnames _ ns => del_altnames_msg i ns
  | Sysctl _ _ | WolOff _ => []
  end.

(** ** The kernel, asked *)

(** Answers, by the number of the question: the index of a device here or 0, why a socket could
    not be opened, connected or sent to, what it reads then, why a namespace could not be entered,
    why a sysctl could not be written or a card not set, and the name of an index. *)
Record Oracle := mkOracle {
  o_index : nat -> Z -> string -> Z;
  o_send : nat -> option Z;
  o_rounds : nat -> list Round * Z;
  o_setns : nat -> option Z;
  o_write : nat -> Z -> string -> option Z;
  o_name : nat -> Z -> Z -> result string Z;
}.

(** The namespace the thread is in, the questions asked, and the requests made and how each ended. *)
Record Net := mkNet { n_ns : Z; n_asked : nat; n_log : list (Z * Op * bool) }.
Abbreviation NM := (M Net NlErr).

Definition ask {A} (f : nat -> Z -> A) : NM A := fun n =>
  (Done (f (n_asked n) (n_ns n)), mkNet (n_ns n) (S (n_asked n)) (n_log n)).
Definition note (op : Op) (ok : bool) (n : Net) : Net := mkNet (n_ns n) (n_asked n) (n_log n ++ [(n_ns n, op, ok)]).
Definition in_ns (ns : Z) (n : Net) : Net := mkNet ns (n_asked n) (n_log n).

(** The value of an [io::Result] handled rather than returned. *)
Definition attempt {A} (m : NM A) : NM (result A NlErr) := fun n =>
  match m n with
  | (Done a, n) => (Done (Ok a), n)
  | (Fail e, n) => (Done (Err e), n)
  | (Panic, n) => (Panic, n)
  end.
Definition whole {A} (o : outcome A NlErr) : NM A := fun n => (o, n).

Section requests.
Context (o : Oracle).

Definition index_of (dev : string) : NM Z :=
  idx ← ask (fun t ns => o_index o t ns dev);
  reject_if (idx =? 0) NoInterface;;
  mret idx.

Fixpoint indices (devs : list string) : NM (list Z) :=
  match devs with
  | [] => mret []
  | d :: devs => i ← index_of d; l ← indices devs; mret (i :: l)
  end.

Definition transact_on (msg : bytes) : NM bytes :=
  sent ← ask (fun t _ => o_send o t);
  match sent with
  | Some e => fail (Errno e)
  | None => '(rounds, last) ← ask (fun t _ => o_rounds o t); whole (exchange rounds last [])
  end.

Definition make (op : Op) : NM bytes :=
  match op with
  | Sysctl path _ | WolOff path =>
    e ← ask (fun t ns => o_write o t ns path);
    match e with Some e => fail (Errno e) | None => mret [] end
  | _ =>
    reject_if (negb (forallb check_name (checked op))) BadName;;
    idx ← indices (devices op);
    transact_on (message op idx)
  end.

(** A request, logged with how it ended. *)
Definition perform (op : Op) : NM bytes := fun n =>
  match make op n with
  | (Done r, n) => (Done r, note op true n)
  | (Fail e, n) => (Fail e, note op false n)
  | (Panic, n) => (Panic, n)
  end.
Definition request (op : Op) : NM unit := perform op;; mret tt.

Definition rename_index (idx : Z) (name : string) : NM string :=
  request (RenameIndex idx name);;
  r ← ask (fun t ns => o_name o t ns idx);
  match r with Ok n => mret n | Err e => fail (Errno e) end.

Definition genl_family_id (name : string) : NM Z :=
  reply ← perform (GetFamily name);
  id ← unwrap (family_loop (S (length reply)) reply 4);
  require id NoFamily.

Definition set_wiphy_netns (phy ns_fd : Z) : NM unit :=
  family ← genl_family_id "nl80211"; request (SetWiphyNetns family phy ns_fd).
Definition new_station (phy : Z) (name : string) : NM unit :=
  reject_if (negb (check_name name)) BadName;;
  family ← genl_family_id "nl80211"; request (NewStation family phy name).
Definition del_interface (idx : Z) : NM unit :=
  family ← genl_family_id "nl80211"; request (DelInterface family idx).

Definition names_left (dev : string) : NM (list bytes * bool) :=
  reply ← perform (GetLink dev);
  l ← unwrap (attrs reply 16);
  unwrap (link_names l [] false).

(** Altnames removed, 64 to a request; the index is looked up once. *)
Fixpoint del_chunks (fuel : nat) (dev : string) (idx : Z) (names : list bytes) : NM unit :=
  match fuel, names with
  | _, [] => mret tt
  | O, _ => panic
  | S fuel, _ =>
    let some := take 64 names in
    (fun n => match transact_on (del_altnames_msg idx some) n with
              | (Done _, n) => (Done tt, note (DelAltnames dev some) true n)
              | (Fail e, n) => (Fail e, note (DelAltnames dev some) false n)
              | (Panic, n) => (Panic, n)
              end);;
    del_chunks fuel dev idx (drop 64 names)
  end.
Definition del_altnames (dev : string) (names : list bytes) : NM unit :=
  idx ← index_of dev; del_chunks (length names) dev idx names.

(** [with_netns]; the own namespace's handle is opened first. *)
Definition with_netns {A} (ns : Z) (f : NM A) : NM A :=
  mine ← gets n_ns;
  opened ← ask (fun t _ => o_setns o t);
  match opened with
  | Some e => fail (Errno e)
  | None =>
    e ← ask (fun t _ => o_setns o t);
    match e with
    | Some e => fail (SetnsFailed e)
    | None =>
      modify (in_ns ns);;
      r ← attempt f;
      e ← ask (fun t _ => o_setns o t);
      match e with
      | Some e => fail (SetnsBack e)
      | None => modify (in_ns mine);; lift r
      end
    end
  end.
End requests.

(** The addresses of the zones' network. *)
Definition BRIDGE_V4 : bytes := byte_of_Z <$> [10; 19; 0; 1].
Definition BRIDGE_V6 : bytes := byte_of_Z <$> [0xfd; 0x19; 0; 0; 0; 0; 0; 0; 0; 0; 0; 0; 0; 0; 0; 1].
Definition zone_v4 (k : Z) : bytes := byte_of_Z <$> [10; 19; 0; k].
Definition zone_v6 (k : Z) : bytes := <[15%nat := byte_of_Z k]> BRIDGE_V6.
Definition zone_mac (k : Z) : bytes := byte_of_Z <$> [0x02; 0x19; 0; 0; 0; k].

End Netlink.
