(* ===== verification/NetlinkSafe.v ===== *)
(** * Netlink messages: what is built reads back, and replies are read within their bounds *)
From S2P Require Import Prelude Bytes Text Netlink.
Import Netlink.
Open Scope string_scope.
Open Scope list_scope.
Open Scope Z_scope.

(** ** Alignment *)
Lemma align4_div n : align4 n = 4 * ((n + 3) / 4).
Proof.
  unfold align4. rewrite <-Z.ldiff_land. change 3 with (Z.ones 2) at 2. rewrite Z.ldiff_ones_r by lia.
  rewrite Z.shiftr_div_pow2, Z.shiftl_mul_pow2 by lia. change (2 ^ 2) with 4. lia.
Qed.

Lemma align4_bounds n : n <= align4 n < n + 4 /\ align4 n mod 4 = 0.
Proof.
  rewrite align4_div. pose proof (Z.div_mod (n + 3) 4 ltac:(lia)). pose proof (Z.mod_pos_bound (n + 3) 4 ltac:(lia)).
  split; [lia|]. rewrite Z.mul_comm. apply Z.mod_mul. lia.
Qed.

Lemma align4_add a n : a mod 4 = 0 -> align4 (a + n) = a + align4 n.
Proof.
  intros Ha. rewrite !align4_div. pose proof (Z.div_mod a 4 ltac:(lia)). set (q := a / 4) in *.
  replace (a + n + 3) with ((n + 3) + q * 4) by lia. rewrite Z.div_add by lia. lia.
Qed.
Lemma align4_id a : a mod 4 = 0 -> align4 a = a.
Proof. intros Ha. rewrite <-(Z.add_0_r a) at 1. rewrite align4_add by done. change (align4 0) with 0. lia. Qed.

(** ** Words *)
Lemma zlen_u16 v : zlen (bytes_of_u16 v) = 2.
Proof. done. Qed.
Lemma zlen_u32 v : zlen (bytes_of_u32 v) = 4.
Proof. done. Qed.

Lemma byte_at_app pre b rest : byte_at (pre ++ b :: rest) (zlen pre) = Some (Z_of_byte b).
Proof.
  unfold byte_at. assert (zlookup (pre ++ b :: rest) (zlen pre) = Some b) as ->; [|done].
  apply zlookup_Some. split; [apply zlen_nonneg|]. unfold zlen. rewrite Nat2Z.id. by apply list_lookup_middle.
Qed.

Lemma u16_at_mod pre v rest : u16_at (pre ++ bytes_of_u16 v ++ rest) (zlen pre) = Some (v mod 65536).
Proof.
  unfold u16_at, bytes_of_u16. cbn [app]. rewrite byte_at_app. cbn [mbind option_bind].
  replace (zlen pre + 1) with (zlen (pre ++ [byte_of_Z v])) by (by rewrite zlen_app).
  replace (pre ++ byte_of_Z v :: byte_of_Z (v / 256) :: rest) with ((pre ++ [byte_of_Z v]) ++ byte_of_Z (v / 256) :: rest)
    by (by rewrite <-(assoc_L (++))).
  rewrite byte_at_app. cbn. rewrite !Z_of_byte_of_Z. f_equal. by rewrite <-(Z.rem_mul_r v 256 256).
Qed.
Lemma u16_at_app pre v rest : 0 <= v < 65536 -> u16_at (pre ++ bytes_of_u16 v ++ rest) (zlen pre) = Some v.
Proof. intros Hv. by rewrite u16_at_mod, Z.mod_small. Qed.

Lemma bytes_of_u32_halves v : bytes_of_u32 v = bytes_of_u16 v ++ bytes_of_u16 (v / 65536).
Proof. unfold bytes_of_u32, bytes_of_u16. cbn [app]. by rewrite Z.div_div. Qed.

Lemma u32_at_app pre v rest : 0 <= v <= U32_MAX -> u32_at (pre ++ bytes_of_u32 v ++ rest) (zlen pre) = Some v.
Proof.
  intros Hv. unfold u32_at. rewrite bytes_of_u32_halves, <-(assoc_L (++)), u16_at_mod. cbn [mbind option_bind].
  replace (zlen pre + 2) with (zlen (pre ++ bytes_of_u16 v)) by (by rewrite zlen_app).
  rewrite (assoc_L (++) pre), u16_at_mod. cbn. f_equal. rewrite <-(Z.rem_mul_r v 65536 65536) by lia.
  apply Z.mod_small. lia.
Qed.

(** ** An attribute *)
Definition pad (d : bytes) : bytes := d ++ repeat x00 (Z.to_nat (align4 (zlen d) - zlen d)).
Definition enc (kd : Z * bytes) : bytes := bytes_of_u16 (4 + zlen kd.2) ++ bytes_of_u16 kd.1 ++ pad kd.2.
Definition attr_ok (kd : Z * bytes) : Prop := 0 <= kd.1 < 65536 /\ 4 + zlen kd.2 < 65536.
Definition aligned (b : bytes) : Prop := zlen b mod 4 = 0.

Lemma zlen_pad d : zlen (pad d) = align4 (zlen d).
Proof. unfold pad. rewrite zlen_app. unfold zlen at 2. rewrite repeat_length. pose proof (align4_bounds (zlen d)). lia. Qed.
Lemma aligned_app a b : aligned a -> aligned b -> aligned (a ++ b).
Proof. unfold aligned. intros Ha Hb. rewrite zlen_app, <-Z.add_mod_idemp_l, Ha by lia. done. Qed.
Lemma aligned_pad d : aligned (pad d).
Proof. unfold aligned. rewrite zlen_pad. apply align4_bounds. Qed.
Lemma aligned_enc kd : aligned (enc kd).
Proof. unfold enc. rewrite (assoc_L (++)). apply aligned_app; [done|apply aligned_pad]. Qed.
Lemma zlen_enc kd : zlen (enc kd) = 4 + align4 (zlen kd.2).
Proof. unfold enc. rewrite !zlen_app, zlen_pad, !zlen_u16. lia. Qed.
Lemma aligned_join l : aligned (mjoin (enc <$> l)).
Proof. induction l as [|kd l IH]; [done|]. rewrite join_fmap_cons. by apply aligned_app; [apply aligned_enc|]. Qed.

Lemma raw_pad b d : aligned b -> raw b d = b ++ pad d.
Proof.
  intros Hb. unfold raw, push_zeros, pad. rewrite zlen_app, align4_add by done. rewrite <-(assoc_L (++)).
  do 2 f_equal. f_equal. lia.
Qed.

Lemma attr_enc b k d : aligned b -> 4 + zlen d < 65536 -> attr b k d = b ++ enc (k, d).
Proof.
  intros Hb Hd. unfold attr. rewrite raw_pad by (apply aligned_app; [done|]; done).
  unfold enc, as_u16. cbn [fst snd]. pose proof (zlen_nonneg d). rewrite Z.mod_small by lia. by rewrite <-!(assoc_L (++)).
Qed.

Lemma patch_app a old d rest : zlen old = zlen d -> patch (a ++ old ++ rest) (zlen a) d = a ++ d ++ rest.
Proof.
  intros E. unfold patch. unfold zlen at 1. rewrite Nat2Z.id, take_app_length. do 2 f_equal.
  rewrite (assoc_L (++)). replace (Z.to_nat (zlen a + zlen d)) with (length (a ++ old)); [by rewrite drop_app_length|].
  unfold zlen in *. rewrite length_app. lia.
Qed.

(** A nest, begun at [b] and ended after [body], is an attribute. *)
Lemma nested_enc b k body : aligned body -> 4 + zlen body < 65536 ->
  end_nested ((begin_nested b k).1 ++ body) (begin_nested b k).2 = b ++ enc (Z.lor k NLA_F_NESTED, body).
Proof.
  intros Hb Hl. unfold begin_nested, end_nested. cbn [fst snd]. rewrite <-!(assoc_L (++)).
  rewrite !zlen_app, !zlen_u16. pose proof (zlen_nonneg body).
  replace (as_u16 (zlen b + (2 + (2 + zlen body)) - zlen b)) with (4 + zlen body)
    by (unfold as_u16; rewrite Z.mod_small by lia; lia).
  rewrite patch_app by done. unfold enc, pad. cbn [fst snd]. rewrite align4_id by done.
  by rewrite Z.sub_diag, app_nil_r.
Qed.

Lemma finish_len b : 4 <= zlen b -> zlen (finish b) = zlen b /\ drop 4 (finish b) = drop 4 b /\
  (zlen b <= U32_MAX -> u32_at (finish b) 0 = Some (zlen b)).
Proof.
  intros Hb. pose proof (patch_app [] (take 4 b) (bytes_of_u32 (as_u32 (zlen b))) (drop 4 b)) as E.
  cbn [app] in E. change (zlen []) with 0 in E. rewrite take_drop in E. unfold finish. rewrite E.
  2:{ rewrite zlen_u32. unfold zlen in *. rewrite length_take. lia. }
  split; [|split].
  - rewrite zlen_app, zlen_u32. unfold zlen in *. rewrite length_drop. lia.
  - done.
  - intros Hm. unfold as_u32. rewrite Z.mod_small by lia. apply (u32_at_app []). lia.
Qed.

(** ** Reading back *)
Lemma enc_slice pre k d rest : slice (pre ++ enc (k, d) ++ rest) (zlen pre + 4) (zlen pre + (4 + zlen d)) = d.
Proof.
  unfold slice. replace (Z.to_nat (zlen pre + (4 + zlen d) - (zlen pre + 4))) with (length d) by (unfold zlen; lia).
  set (h := pre ++ bytes_of_u16 (4 + zlen d) ++ bytes_of_u16 k).
  assert (pre ++ enc (k, d) ++ rest = h ++ d ++ repeat x00 (Z.to_nat (align4 (zlen d) - zlen d)) ++ rest) as ->
    by (unfold h, enc, pad; cbn [fst snd]; by rewrite <-!(assoc_L (++))).
  replace (Z.to_nat (zlen pre + 4)) with (length h) by (unfold h, zlen; rewrite !length_app; cbn; lia).
  by rewrite drop_app_length, take_app_length.
Qed.

Lemma attrs_loop_enc l : forall fuel pre, (length l < fuel)%nat -> aligned pre -> Forall attr_ok l ->
  attrs_loop fuel (pre ++ mjoin (enc <$> l)) (zlen pre) = Some ((fun kd => (Z.land kd.1 NLA_TYPE_MASK, kd.2)) <$> l).
Proof.
  induction l as [|[k d] l IH]; intros fuel pre Hf Hp Hl; (destruct fuel as [|fuel]; [cbn in Hf; lia|]); cbn [attrs_loop].
  { cbn. rewrite app_nil_r. by rewrite (proj2 (Z.leb_gt _ _)) by lia. }
  apply Forall_cons in Hl as [[Hk Hd] Hl]. cbn [fst snd] in Hk, Hd. rewrite join_fmap_cons.
  pose proof (zlen_nonneg d). pose proof (zlen_nonneg (mjoin (enc <$> l))). pose proof (align4_bounds (zlen d)) as [Ha _].
  assert (zlen (pre ++ enc (k, d) ++ mjoin (enc <$> l)) = zlen pre + 4 + align4 (zlen d) + zlen (mjoin (enc <$> l))) as Hz.
  { rewrite !zlen_app, zlen_enc. cbn [snd]. lia. }
  rewrite Hz, (proj2 (Z.leb_le _ _)) by lia.
  assert (u16_at (pre ++ enc (k, d) ++ mjoin (enc <$> l)) (zlen pre) = Some (4 + zlen d)) as ->.
  { unfold enc at 1. cbn [fst snd]. rewrite <-!(assoc_L (++)). apply u16_at_app. lia. }
  assert (u16_at (pre ++ enc (k, d) ++ mjoin (enc <$> l)) (zlen pre + 2) = Some k) as ->.
  { unfold enc at 1. cbn [fst snd]. replace (zlen pre + 2) with (zlen (pre ++ bytes_of_u16 (4 + zlen d))) by (by rewrite zlen_app).
    rewrite <-!(assoc_L (++)), (assoc_L (++) pre). apply u16_at_app. lia. }
  cbn [mbind option_bind]. rewrite (proj2 (Z.ltb_ge _ _)), (proj2 (Z.ltb_ge _ _)) by lia. cbn [orb].
  replace (zlen pre + align4 (4 + zlen d)) with (zlen (pre ++ enc (k, d))).
  2:{ rewrite zlen_app, zlen_enc. cbn [snd]. rewrite (align4_add 4) by done. lia. }
  rewrite (assoc_L (++)), IH; [|cbn in Hf; lia|by apply aligned_app; [|apply aligned_enc]|done].
  cbn [mbind option_bind]. rewrite fmap_cons. cbn [fst snd]. do 3 f_equal. rewrite <-(assoc_L (++)). apply enc_slice.
Qed.

Lemma length_join_enc l : (4 * length l <= length (mjoin (enc <$> l)))%nat.
Proof.
  induction l as [|kd l IH]; [done|]. rewrite join_fmap_cons, length_app. cbn [length].
  pose proof (zlen_enc kd) as H. pose proof (align4_bounds (zlen kd.2)). pose proof (zlen_nonneg kd.2). unfold zlen in *. lia.
Qed.

Lemma attrs_enc pre l : aligned pre -> Forall attr_ok l ->
  attrs (pre ++ mjoin (enc <$> l)) (zlen pre) = Some ((fun kd => (Z.land kd.1 NLA_TYPE_MASK, kd.2)) <$> l).
Proof.
  intros Hp Hl. apply attrs_loop_enc; [|done|done]. pose proof (length_join_enc l). rewrite length_app. lia.
Qed.

(** ** Any reply *)
Lemma byte_at_in b i : 0 <= i < zlen b -> exists v, byte_at b i = Some v /\ 0 <= v < 256.
Proof.
  intros Hi. unfold byte_at. destruct (zlookup b i) as [y|] eqn:E; [eexists; split; [done|apply Z_of_byte_range]|].
  apply zlookup_None in E; lia.
Qed.
Lemma u16_at_in b i : 0 <= i -> i + 2 <= zlen b -> exists v, u16_at b i = Some v /\ 0 <= v < 65536.
Proof.
  intros Hi Hl. unfold u16_at. destruct (byte_at_in b i) as (x & -> & Hx); [lia|].
  destruct (byte_at_in b (i + 1)) as (y & -> & Hy); [lia|]. eexists. split; [done|lia].
Qed.
Lemma u32_at_in b i : 0 <= i -> i + 4 <= zlen b -> exists v, u32_at b i = Some v /\ 0 <= v <= U32_MAX.
Proof.
  intros Hi Hl. unfold u32_at. destruct (u16_at_in b i) as (x & -> & Hx); [lia|lia|].
  destruct (u16_at_in b (i + 2)) as (y & -> & Hy); [lia|lia|]. eexists. split; [done|lia].
Qed.

Lemma attrs_loop_total fuel buf off : 0 <= off -> (Z.to_nat (zlen buf - off) < fuel)%nat -> is_Some (attrs_loop fuel buf off).
Proof.
  revert off. induction fuel as [|fuel IH]; intros off Ho Hf; [lia|]. cbn [attrs_loop].
  destruct (Z.leb_spec (off + 4) (zlen buf)); [|done].
  destruct (u16_at_in buf off) as (len & -> & Hlen); [lia|lia|]. destruct (u16_at_in buf (off + 2)) as (k & -> & _); [lia|lia|].
  cbn [mbind option_bind]. destruct (_ || _) eqn:E; [done|]. apply orb_false_iff in E as [E1 E2].
  pose proof (align4_bounds len) as [Ha _]. destruct (IH (off + align4 len)) as [r ->]; [lia|lia|done].
Qed.
Lemma attrs_total buf off : 0 <= off -> is_Some (attrs buf off).
Proof. intros Ho. apply attrs_loop_total; [done|]. unfold zlen. lia. Qed.

Lemma family_loop_total fuel buf off : 0 <= off -> (Z.to_nat (zlen buf - off) < fuel)%nat -> is_Some (family_loop fuel buf off).
Proof.
  revert off. induction fuel as [|fuel IH]; intros off Ho Hf; [lia|]. cbn [family_loop].
  destruct (Z.leb_spec (off + 4) (zlen buf)); [|done].
  destruct (u16_at_in buf off) as (len & -> & Hlen); [lia|lia|]. destruct (u16_at_in buf (off + 2)) as (k & -> & _); [lia|lia|].
  cbn [mbind option_bind]. destruct (_ || _) eqn:E; [done|]. apply orb_false_iff in E as [E1 E2].
  destruct (_ && _) eqn:E3; [|apply IH; pose proof (align4_bounds len); lia].
  apply andb_true_iff in E3 as [_ E3]. by destruct (u16_at_in buf (off + 4)) as (v & -> & _); [lia|lia|].
Qed.

Lemma link_names_total l alt alias : is_Some (link_names l alt alias).
Proof.
  revert alt alias. induction l as [|[k d] l IH]; intros alt alias; cbn [link_names]; [done|].
  destruct (k =? IFLA_PROP_LIST); [|by destruct (k =? IFLA_IFALIAS)].
  destruct (attrs_total d 0) as [inner ->]; [done|]. apply IH.
Qed.

(** What no kernel sends: an error code of -2{^31}, whose negation is no [i32]. *)
Definition int_min (b : bytes) : Prop := exists i, u32_at b i = Some 2147483648.
Definition round_ok (r : Round) : Prop :=
  match r with Reads need d => ~ int_min (take (Z.to_nat (Z.max need 16)) d) | _ => True end.

Definition answer_ok (o : outcome bytes NlErr) : Prop :=
  match o with Done r => zlen r <= MAX_REPLY | Fail _ => True | Panic => False end.

Lemma messages_ok fuel buf off replies : 0 <= off -> (Z.to_nat (zlen buf - off) < fuel)%nat -> ~ int_min buf ->
  zlen replies <= MAX_REPLY ->
  match messages fuel buf off replies with inl o => answer_ok o | inr r => zlen r <= MAX_REPLY end.
Proof.
  revert off replies. induction fuel as [|fuel IH]; intros off replies Ho Hf Hm Hr; [lia|]. cbn [messages].
  destruct (Z.leb_spec (off + 16) (zlen buf)); [|done].
  destruct (u32_at_in buf off) as (len & -> & Hlen); [lia|lia|]. destruct (u16_at_in buf (off + 4)) as (ty & -> & _); [lia|lia|].
  destruct (_ || _) eqn:E; [done|]. apply orb_false_iff in E as [E1 E2]. destruct (ty =? NLMSG_ERROR).
  - destruct (Z.ltb_spec len 20); [done|]. destruct (u32_at_in buf (off + 16)) as (c & Hc & Hr32); [lia|lia|]. rewrite Hc.
    destruct (as_i32 c =? 0); [done|]. destruct (Z.eqb_spec (as_i32 c) (-2147483648)) as [Ec|]; [|done].
    apply Hm. exists (off + 16). rewrite Hc. f_equal. unfold as_i32 in Ec. destruct (Z.ltb_spec c 2147483648); lia.
  - destruct (ty =? NLMSG_DONE); [done|]. destruct (Z.ltb_spec MAX_REPLY (zlen replies + len)); [done|].
    pose proof (align4_bounds len) as [Ha _]. apply IH; [lia|lia|done|]. rewrite zlen_app, zlen_slice by lia. lia.
Qed.

Lemma exchange_ok rounds last replies : Forall round_ok rounds -> zlen replies <= MAX_REPLY ->
  answer_ok (exchange rounds last replies).
Proof.
  revert replies. induction rounds as [|r rounds IH]; intros replies Hk Hr; cbn [exchange]; [done|].
  apply Forall_cons in Hk as [H1 Hk]. destruct r as [e|need e|need d].
  - destruct (_ =? _); [by apply IH|done].
  - destruct (_ <? _); [done|]. destruct (_ =? _); [by apply IH|done].
  - destruct (_ <? _); [done|]. set (buf := take _ d) in *.
    assert (Z.to_nat (zlen buf - 0) < S (length buf))%nat as Hf by (unfold zlen; lia).
    pose proof (messages_ok (S (length buf)) buf 0 replies ltac:(done) Hf H1 Hr) as H.
    destruct (messages _ _ _ _) as [o|r]; [done|by apply IH].
Qed.

(** ** Requests, whatever the kernel answers *)
Definition kernel_ok (o : Oracle) : Prop := forall t, Forall round_ok (o_rounds o t).1.

(** From [n] to [n'] the requests [l] were made, and the thread is in the namespace it was in. *)
Definition logged (n : Net) (l : list (Z * Op * bool)) (n' : Net) : Prop :=
  n_ns n' = n_ns n /\ n_log n' = n_log n ++ l.

Lemma logged_nil n n' : logged n [] n' <-> n_ns n' = n_ns n /\ n_log n' = n_log n.
Proof. unfold logged. by rewrite app_nil_r. Qed.
Lemma logged_trans n l n1 l' n2 : logged n l n1 -> logged n1 l' n2 -> logged n (l ++ l') n2.
Proof. intros [H1 H2] [H3 H4]. split; [congruence|]. by rewrite H4, H2, <-(assoc_L (++)). Qed.

Lemma wp_ask {A} (f : nat -> Z -> A) (Q : A -> Net -> Prop) R n :
  (forall n', logged n [] n' -> Q (f (n_asked n) (n_ns n)) n') -> wp (ask f) Q R n.
Proof. intros H. apply H. by apply logged_nil. Qed.

Lemma wp_attempt {A} (m : NM A) (Q : result A NlErr -> Net -> Prop) R n :
  wp m (fun a n' => Q (Ok a) n') (fun e n' => Q (Err e) n') n -> wp (attempt m) Q R n.
Proof. unfold wp, attempt. by destruct (m n) as [[?|?|] ?]. Qed.

Section kernel.
Context (o : Oracle).
Hypothesis Hk : kernel_ok o.

Lemma wp_index_of dev n : wp (index_of o dev) (fun _ => logged n []) (fun _ => logged n []) n.
Proof.
  unfold index_of. apply wp_bind, wp_ask. intros n1 H1. apply wp_bind, wp_reject_if; [done|]. intros _. by apply wp_ret.
Qed.

Lemma wp_indices devs n : wp (indices o devs) (fun _ => logged n []) (fun _ => logged n []) n.
Proof.
  revert n. induction devs as [|d devs IH]; intros n; cbn [indices]; [apply wp_ret; by apply logged_nil|].
  apply wp_bind. eapply wp_mono; [| |apply wp_index_of]; [|done]. intros i n1 H1. apply wp_bind.
  eapply wp_mono; [| |apply IH].
  - intros l n2 H2. apply wp_ret. by apply (logged_trans n [] n1 []).
  - intros e n2 H2. by apply (logged_trans n [] n1 []).
Qed.

Lemma wp_transact_on msg n :
  wp (transact_on o msg) (fun r n' => zlen r <= MAX_REPLY /\ logged n [] n') (fun _ => logged n []) n.
Proof.
  unfold transact_on. apply wp_bind, wp_ask. intros n1 H1. destruct (o_send _ _); [by apply wp_fail|].
  apply wp_bind, wp_ask. intros n2 H2. pose proof (logged_trans _ _ _ _ _ H1 H2) as H.
  destruct (o_rounds o (n_asked n1)) as [rounds last] eqn:E. pose proof (Hk (n_asked n1)) as Hr. rewrite E in Hr.
  unfold wp, whole. pose proof (exchange_ok rounds last [] Hr ltac:(done)) as Ha. by destruct (exchange _ _ _).
Qed.

Lemma wp_make op n : wp (make o op) (fun r n' => zlen r <= MAX_REPLY /\ logged n [] n') (fun _ => logged n []) n.
Proof.
  assert (wp (reject_if (negb (forallb check_name (checked op))) BadName;; idx ← indices o (devices op); transact_on o (message op idx))
    (fun r n' => zlen r <= MAX_REPLY /\ logged n [] n') (fun _ => logged n []) n) as H.
  { apply wp_bind, wp_reject_if; [intros _; by apply logged_nil|]. intros _. apply wp_bind.
    eapply wp_mono; [| |apply wp_indices]; [|done]. intros idx n1 H1.
    eapply wp_mono; [| |apply wp_transact_on].
    - intros r n2 [Hr H2]. split; [done|]. by apply (logged_trans n [] n1 []).
    - intros e n2 H2. by apply (logged_trans n [] n1 []). }
  destruct op; try exact H; cbn [make]; (apply wp_bind, wp_ask; intros n1 H1;
    destruct (o_write _ _ _); [by apply wp_fail|by apply wp_ret; split]).
Qed.

(** A request is logged once, where it was made. *)
Lemma wp_perform op n :
  wp (perform o op) (fun r n' => zlen r <= MAX_REPLY /\ logged n [(n_ns n, op, true)] n')
    (fun _ => logged n [(n_ns n, op, false)]) n.
Proof.
  pose proof (wp_make op n) as H. unfold wp, perform, logged in *. destruct (make o op n) as [[r|e|] n']; [| |done]; cbn.
  - destruct H as (H & Hn & Hl). rewrite Hl, Hn, app_nil_r. done.
  - destruct H as (Hn & Hl). rewrite Hl, Hn, app_nil_r. done.
Qed.
Lemma wp_request op n :
  wp (request o op) (fun _ => logged n [(n_ns n, op, true)]) (fun _ => logged n [(n_ns n, op, false)]) n.
Proof. apply wp_bind. eapply wp_mono; [| |apply wp_perform]; [|done]. intros r n' [_ H]. by apply wp_ret. Qed.

(** A computation that ends without a panic; the log only grows. *)
Definition grows (n n' : Net) : Prop := n_log n `prefix_of` n_log n'.
Definition ends {A} (m : NM A) : Prop := forall n, wp m (fun _ => grows n) (fun _ => grows n) n.

Lemma grows_logged n l n' : logged n l n' -> grows n n'.
Proof. intros [_ H]. by exists l. Qed.
Lemma grows_refl n : grows n n.
Proof. unfold grows. done. Qed.
Lemma ends_ret {A} (a : A) : ends (mret a).
Proof. intros n. apply wp_ret. apply grows_refl. Qed.
Lemma ends_fail {A} e : ends (fail (A:=A) e).
Proof. intros n. apply wp_fail. apply grows_refl. Qed.
Lemma ends_gets {A} (f : Net -> A) : ends (gets f).
Proof. intros n. apply wp_gets. apply grows_refl. Qed.
Lemma ends_in_ns ns : ends (modify (in_ns ns)).
Proof. intros n. apply wp_modify. unfold grows. done. Qed.
Lemma ends_ask {A} (f : nat -> Z -> A) : ends (ask f).
Proof. intros n. apply wp_ask. intros n' H. exact (grows_logged _ _ _ H). Qed.
Lemma ends_bind {A B} (m : NM A) (f : A -> NM B) : ends m -> (forall a, ends (f a)) -> ends (m ≫= f).
Proof.
  intros Hm Hf n. apply wp_bind. eapply wp_mono; [| |apply Hm]; [|done]. intros a n1 H1.
  eapply wp_mono; [| |apply Hf]; (intros ? n2 H2; unfold grows in *; by etrans).
Qed.
Lemma ends_attempt {A} (m : NM A) : ends m -> ends (attempt m).
Proof. intros Hm n. apply wp_attempt. exact (Hm n). Qed.
Lemma ends_lift {A} (r : result A NlErr) : ends (lift r).
Proof. intros n. destruct r; apply grows_refl. Qed.
Lemma ends_unwrap {A} (a : option A) : is_Some a -> ends (unwrap a).
Proof. intros [x ->]. apply (ends_ret x). Qed.
Lemma ends_reject_if b e : ends (reject_if b e).
Proof. intros n. destruct b; apply grows_refl. Qed.
Lemma ends_when b m : ends m -> ends (when b m).
Proof. intros H. destruct b; [done|apply (ends_ret tt)]. Qed.
Lemma ends_for_each {A} (l : list A) f : (forall a, ends (f a)) -> ends (for_each l f).
Proof. intros H. induction l as [|a l IH]; [apply (ends_ret tt)|]. apply ends_bind; [apply H|intros _; apply IH]. Qed.
Lemma ends_perform op : ends (perform o op).
Proof. intros n. eapply wp_mono; [| |apply wp_perform]; [intros ? ? [_ H]|intros ? ? H]; exact (grows_logged _ _ _ H). Qed.
Lemma ends_request op : ends (request o op).
Proof. apply ends_bind; [apply ends_perform|intros; apply ends_ret]. Qed.
Lemma ends_index_of dev : ends (index_of o dev).
Proof. intros n. eapply wp_mono; [| |apply wp_index_of]; (intros ? ? H; exact (grows_logged _ _ _ H)). Qed.
End kernel.

Create HintDb ends discriminated.
#[export] Hint Resolve ends_ret ends_fail ends_gets ends_in_ns ends_ask ends_attempt ends_lift ends_reject_if ends_when
  ends_for_each ends_request ends_perform ends_index_of : ends.

(** Steps through a computation, one bind, test or match at a time. *)
Ltac ends_step :=
  match goal with
  | |- ends (mbind _ _) => apply ends_bind; [|intros ?]
  | |- ends (attempt _) => apply ends_attempt
  | |- ends (when _ _) => apply ends_when
  | |- ends (for_each _ _) => apply ends_for_each; intros ?
  | |- ends (require _ _) => apply ends_lift
  | |- ends (match ?x with _ => _ end) => destruct x
  | _ => solve [auto with ends]
  end.
Ltac ends := repeat ends_step.

Section compound.
Context (o : Oracle).
Hypothesis Hk : kernel_ok o.

Lemma ends_rename_index idx name : ends (rename_index o idx name).
Proof. unfold rename_index. ends. Qed.

Lemma ends_genl_family_id name : ends (genl_family_id o name).
Proof.
  unfold genl_family_id. apply ends_bind; [by apply ends_perform|]. intros reply. apply ends_bind; [|intros; apply ends_lift].
  apply ends_unwrap, family_loop_total; [done|]. unfold zlen. lia.
Qed.
Lemma ends_names_left dev : ends (names_left o dev).
Proof.
  unfold names_left. apply ends_bind; [by apply ends_perform|]. intros reply.
  apply ends_bind; [by apply ends_unwrap, attrs_total|]. intros l. apply ends_unwrap, link_names_total.
Qed.

Lemma ends_del_chunks fuel dev idx names : (length names <= fuel)%nat -> ends (del_chunks o fuel dev idx names).
Proof.
  revert names. induction fuel as [|fuel IH]; intros [|x names] Hl; cbn [del_chunks length] in *; [apply ends_ret|lia|apply ends_ret|].
  apply ends_bind; [|intros _; apply IH; rewrite length_drop; cbn [length]; lia].
  intros n. pose proof (wp_transact_on o Hk (del_altnames_msg idx (take 64 (x :: names))) n) as H. unfold wp in *.
  destruct (transact_on _ _ n) as [[r|e|] n']; [destruct H as [_ H]| |done]; destruct H as [Hn Hlog];
    unfold grows, note; cbn; rewrite Hlog, app_nil_r; apply prefix_app_r; done.
Qed.
Lemma ends_del_altnames dev names : ends (del_altnames o dev names).
Proof. unfold del_altnames. apply ends_bind; [by apply ends_index_of|]. intros idx. by apply ends_del_chunks. Qed.

Lemma ends_with_netns {A} ns (f : NM A) : ends f -> ends (with_netns o ns f).
Proof. intros Hf. unfold with_netns. ends. Qed.
End compound.

#[export] Hint Resolve ends_rename_index ends_genl_family_id ends_names_left ends_del_altnames ends_with_netns : ends.
