(* ===== verification/Netzone.v ===== *)
(** * kryptikd's netzone.rs: the zones' network

    Who holds the network cards, and how routed zones reach them: sequences of netlink requests
    (Netlink) in one namespace or another. What sysfs, the registry and the clock answer is a
    [Host], asked by the number of the question like the kernel. *)
From S2P Require Import Prelude Bytes Text Zone Netlink.
Import Netlink.
Open Scope string_scope.
Open Scope list_scope.
Open Scope Z_scope.

Module Netzone.

Definition BRIDGE : string := "kryptik0".

Inductive NetError := NetIo (e : NlErr) | NoNetZone | NoAddress | NotAnInterface (n : string).
Abbreviation ZM := (M Net NetError).

(** [.map_err(|e| io(.., e))?]. *)
Definition io {A} (m : NM A) : ZM A := fun n =>
  match m n with
  | (Done a, n) => (Done a, n)
  | (Fail e, n) => (Fail (NetIo e), n)
  | (Panic, n) => (Panic, n)
  end.
(** An error that is reported and no more. *)
Definition tolerate {A} (m : NM A) : NM unit := attempt m;; mret tt.

(** An entry of /sys/class/net: its name, whether a bus device is under it, and what its ifindex
    and its radio's index read. *)
Record SysDev := mkSysDev { sd_name : string; sd_device : bool; sd_ifindex : option (list Z); sd_phy : option (list Z) }.
Record RfKill := mkRfKill { rf_name : string; rf_soft : option (list Z); rf_hard : option (list Z) }.
(** An address getifaddrs gives: the interface, and for IPv4 the address and the mask. *)
Record IfAddr := mkIfAddr { ia_name : string; ia_inet : option (bytes * option Z) }.
Inductive RunState := NotRunning | Running (pid : Z).

Record Host := mkHost {
  h_kernel : Oracle;
  h_class_net : nat -> result (list SysDev) Z;
  h_radios : nat -> list (option (list Z));
  h_sysfs : nat -> string -> string -> option (list Z);
  h_phy_index : nat -> string -> result (option (list Z)) Z;
  h_is_radio : nat -> string -> bool;
  h_rfkill : nat -> string -> list RfKill;
  h_random_mac : nat -> option bytes;
  h_perm_mac : nat -> string -> option bytes;
  h_mac : nat -> string -> option bytes;
  h_wol : nat -> string -> result Z Z;
  h_ifaddrs : nat -> result (list IfAddr) Z;
  h_routes : nat -> result (list Z) Z;
  h_elapsed : nat -> Z;
  h_ipv6 : nat -> bool;
  h_names : list string;
  h_read : string -> string + string;
  h_state : nat -> string -> RunState;
  h_open_ns : nat -> Z -> result Z Z;
  h_alive : nat -> Z -> bool;
}.

(** A routed zone's host number; [base - IDENTITY_MIN] of a base below it panics. *)
Definition host_number (z : Zone) : ZM (option Z) :=
  match z_uid_base z with
  | None => mret None
  | Some base =>
    d ← usize_sub base IDENTITY_MIN;
    let k := d / IDENTITY_STRIDE + 2 in
    mret (if 250 <=? k then None else Some k)
  end.

Definition port_name (zone : string) : string := "kv-" +:+ zone.

(** ** Sysfs *)
Definition parse_sysfs (t : option (list Z)) : option Z := t ← t; parse_u32 (trim t).

Definition plain_name (name : string) : bool :=
  (str_len name <? 16) && negb (String.eqb name BRIDGE)
  && from_option is_lower false (head (octets name))
  && forallb (fun b => is_lower b || is_digit b) (octets name).

Definition Dev : Type := string * Z * option Z.
Definition dev_leb (a b : Dev) : bool := String.leb a.1.1 b.1.1.
Fixpoint insert_dev (d : Dev) (l : list Dev) : list Dev :=
  match l with
  | [] => [d]
  | e :: l' => if dev_leb d e then d :: l else e :: insert_dev d l'
  end.
Definition sort_devs (l : list Dev) : list Dev := foldr insert_dev [] l.

(** The physical interfaces of a listing; names in a directory are distinct. *)
Fixpoint physical (l : list SysDev) : result (list Dev) NlErr :=
  match l with
  | [] => Ok []
  | e :: l =>
    if String.eqb (sd_name e) "lo" || negb (sd_device e) then physical l
    else
      match parse_sysfs (sd_ifindex e) with
      | None => Err NotANumber
      | Some idx => (let? rest := physical l in Ok ((sd_name e, idx, parse_sysfs (sd_phy e)) :: rest))%result
      end
  end.

Fixpoint insert_name (n : string) (l : list string) : list string :=
  match l with
  | [] => [n]
  | m :: l' => if String.leb n m then n :: l else m :: insert_name n l'
  end.
Fixpoint insert_z (n : Z) (l : list Z) : list Z :=
  match l with
  | [] => [n]
  | m :: l' => if n <=? m then n :: l else m :: insert_z n l'
  end.

(** How many devices sit on a radio. *)
Definition on_radio (l : list Dev) (p : Z) : Z :=
  zlen (List.filter (fun d : Dev => bool_decide (d.2 = Some p)) l).

(** The number of leading ones of a mask, in host order. *)
Fixpoint leading_ones (bits : nat) (v : Z) : Z :=
  match bits with
  | O => 0
  | S bits => if Z.testbit v (Z.of_nat bits) then 1 + leading_ones bits v else 0
  end.

(** [u32::from_str_radix(.., 16)]: an optional plus and hex digits. *)
Definition hex_value (c : Z) : option Z :=
  if between 48 57 c then Some (c - 48)
  else if between 65 70 c then Some (c - 55)
  else if between 97 102 c then Some (c - 87)
  else None.
Fixpoint hex_from (acc : Z) (cs : list Z) : option Z :=
  match cs with
  | [] => if acc <=? U32_MAX then Some acc else None
  | c :: cs => v ← hex_value c; hex_from (acc * 16 + v) cs
  end.
Definition parse_hex (cs : list Z) : option Z :=
  match cs with
  | [] | [43] => None
  | c :: cs' => hex_from 0 (if c =? 43 then cs' else cs)
  end.

Definition ZERO8 : list Z := Eval vm_compute in chars "00000000".
(** A line of /proc/self/net/route: the gateway of a default route by the interface. *)
Definition route_line (nic : string) (l : list Z) : option bytes :=
  match words l with
  | w0 :: w1 :: w2 :: _ :: _ :: _ :: _ :: w7 :: _ =>
    if bool_decide (w0 = chars nic) && bool_decide (w1 = ZERO8) && bool_decide (w7 = ZERO8)
    then bytes_of_u32 <$> parse_hex w2 else None
  | _ => None
  end.
Definition gateway_of (nic : string) (text : list Z) : option bytes :=
  head (omap (route_line nic) (drop 1 (lines text))).

Record Uplink := mkUplink { u_addrs : list (bytes * Z); u_gateway : option bytes }.
Definition addr_of (nic : string) (a : IfAddr) : option (bytes * Z) :=
  if String.eqb (ia_name a) nic then
    match ia_inet a with Some (b, Some m) => Some (b, leading_ones 32 m) | _ => None end
  else None.

Section host.
Context (h : Host).
Abbreviation o := (h_kernel h).

Definition uplink_config (nic : string) : NM Uplink :=
  l ← ask (fun t _ => h_ifaddrs h t);
  match l with
  | Err e => fail (Errno e)
  | Ok l =>
    r ← ask (fun t _ => h_routes h t);
    match r with
    | Err e => fail (Errno e)
    | Ok text => mret (mkUplink (omap (addr_of nic) l) (gateway_of nic text))
    end
  end.

(** [wiphy_index_of]. *)
Definition wiphy_index_of (dev : string) : NM (option Z) :=
  reject_if (negb (check_name dev)) BadName;;
  r ← ask (fun t _ => h_phy_index h t dev);
  match r with
  | Err e => fail (Errno e)
  | Ok None => mret None
  | Ok (Some text) => p ← require (parse_u32 (trim text)) NotANumber; mret (Some p)
  end.

Definition add_addrs (nic : string) (l : list (bytes * Z)) : NM unit :=
  for_each l (fun '(a, p) => request o (AddAddr4 nic a p)).

(** [carry_nic]. *)
Definition carry_nic (nic : string) (zone_ns : Z) (off : bool) : NM Uplink :=
  cfg ← uplink_config nic;
  phy ← wiphy_index_of nic;
  (match phy with
   | Some phy => set_wiphy_netns o phy zone_ns
   | None => request o (SetNetns nic zone_ns)
   end);;
  with_netns o zone_ns
    (add_addrs nic (u_addrs cfg);;
     when (negb off) (request o (SetUp nic));;
     match u_gateway cfg with
     | None => mret tt
     | Some gw =>
       r ← attempt (request o (AddDefaultRoute4 gw nic));
       match r with
       | Err e => if already_exists e then mret tt else fail e
       | Ok _ => mret tt
       end
     end);;
  mret cfg.

(** [physical_interfaces_under]. *)
Definition physical_interfaces_under : NM (list Dev) :=
  r ← ask (fun t _ => h_class_net h t);
  match r with
  | Err e => fail (Errno e)
  | Ok l => devs ← lift (physical l); mret (sort_devs devs)
  end.

(** [bare_radios]: an unreadable directory is an empty one. *)
Definition bare_radios : NM (list Z) :=
  net ← ask (fun t _ => h_class_net h t);
  radios ← ask (fun t _ => h_radios h t);
  let held := omap (fun d => parse_sysfs (sd_phy d)) (match net with Ok l => l | Err _ => [] end) in
  mret (foldr insert_z [] (List.filter (fun p => negb (bool_decide (p ∈ held))) (omap parse_sysfs radios))).

(** The names that go: one for each radio, each plain or made so. *)
Fixpoint collect (l : list Dev) (radios : list Z) (out : list string) : NM (list string) :=
  match l with
  | [] => mret out
  | (name, idx, phy) :: l =>
    if from_option (fun p => bool_decide (p ∈ radios)) false phy then collect l radios out
    else
      let radios := match phy with Some p => p :: radios | None => radios end in
      if plain_name name then collect l radios (out ++ [name])
      else
        r ← attempt (rename_index o idx "nic%d");
        collect l radios (match r with Ok now => out ++ [now] | Err _ => out end)
  end.

Definition is_radio (nic : string) : NM bool := ask (fun t _ => h_is_radio h t nic).

(** The address a card is given: a radio's is random, another's its own when it is not that. *)
Definition reset_addr (nic : string) (radio : bool) : NM (option bytes) :=
  if radio then ask (fun t _ => h_random_mac h t)
  else
    perm ← ask (fun t _ => h_perm_mac h t nic);
    match perm with
    | None => mret None
    | Some p => mac ← ask (fun t _ => h_mac h t nic); mret (if bool_decide (mac = Some p) then None else Some p)
    end.

(** [reset_nic]: nothing it cannot set back stops the start. *)
Definition reset_nic (nic : string) : NM unit :=
  radio ← is_radio nic;
  addr ← reset_addr nic radio;
  ty ← ask (fun t _ => h_sysfs h t nic "type");
  mtu ← (if bool_decide (parse_sysfs ty = Some 1) then
           m ← ask (fun t _ => h_sysfs h t nic "mtu"); mret (if bool_decide (parse_sysfs m = Some 1500) then None else Some 1500)
         else mret None);
  left ← attempt (names_left o nic);
  '(alt, alias) ← (match left with
                   | Ok r => mret r
                   | Err _ => tolerate (del_altnames o nic [as_bytes BRIDGE]);; mret ([], false)
                   end);
  when (negb (bool_decide (alt = []))) (tolerate (del_altnames o nic alt));;
  when (bool_decide (is_Some addr) || bool_decide (is_Some mtu) || alias) (tolerate (request o (SetLink nic addr mtu alias)));;
  wol ← ask (fun t _ => h_wol h t nic);
  match wol with
  | Ok v => when (negb (v =? 0)) (tolerate (request o (WolOff nic)))
  | Err _ => mret tt
  end.

(** [physical_interfaces]. *)
Definition physical_interfaces : NM (list string) :=
  listed ← physical_interfaces_under;
  for_each listed (fun '(_, idx, phy) =>
    when (from_option (fun p => 1 <? on_radio listed p) false phy) (tolerate (del_interface o idx)));;
  bare ← bare_radios;
  for_each bare (fun phy => tolerate (new_station o phy "nic%d"));;
  again ← physical_interfaces_under;
  out ← collect again [] [];
  let out := foldr insert_name [] out in
  for_each out reset_nic;;
  mret out.

Definition starts_with_rfkill (n : string) : bool := bool_decide (take 6 (octets n) = octets "rfkill").
Definition switched_off (nic : string) : NM bool :=
  l ← ask (fun t _ => h_rfkill h t nic);
  mret (existsb (fun r => starts_with_rfkill (rf_name r)
    && (from_option (fun v => negb (v =? 0)) false (parse_sysfs (rf_soft r))
        || from_option (fun v => negb (v =? 0)) false (parse_sysfs (rf_hard r)))) l).

Fixpoint off_among (nics : list string) : NM (list string) :=
  match nics with
  | [] => mret []
  | n :: nics => off ← switched_off n; rest ← off_among nics; mret (match off with true => n :: rest | false => rest end)
  end.

(** The cards the nic zone takes. *)
Definition nics_for (z : Zone) : ZM (list string) :=
  match z_nic z with
  | None => mret []
  | Some n =>
    if String.eqb n "*" then io physical_interfaces
    else
      idx ← io (ask (fun t ns => o_index o t ns n));
      reject_if (idx =? 0) (NotAnInterface n);;
      io (reset_nic n);;
      mret [n]
  end.

(** [plumb_nic_zone_bridge]. *)
Definition plumb_nic_zone_bridge (z : Zone) (zone_ns : Z) : ZM unit :=
  nics ← nics_for z;
  off ← io (off_among nics);
  for_each nics (fun n => io (carry_nic n zone_ns (bool_decide (n ∈ off)));; mret tt);;
  io (with_netns o zone_ns
    (request o (SetUp "lo");;
     request o (CreateBridge BRIDGE);;
     request o (AddAddr4 BRIDGE BRIDGE_V4 24);;
     request o (SetUp BRIDGE);;
     tolerate (request o (AddAddr6 BRIDGE BRIDGE_V6 64));;
     request o (Sysctl "/proc/sys/net/ipv4/ip_forward" "0");;
     v6 ← ask (fun t _ => h_ipv6 h t);
     when v6 (request o (Sysctl "/proc/sys/net/ipv6/conf/all/forwarding" "0"));;
     for_each (List.filter (fun n => negb (bool_decide (n ∈ off))) nics) (fun n => request o (SetUp n)))).

(** ** Routed zones *)
Definition STALE_PORT_WAIT : Z := 5000.

(** The loop of [attach_v4], each round after the first a tenth of a second later at least. *)
Fixpoint make_port (fuel : nat) (i : Z) (port : string) (k zone_ns : Z) : NM unit :=
  match fuel with
  | O => panic
  | S fuel =>
    r ← attempt (request o (CreateVeth port "eth0" (Some zone_ns) (Some (zone_mac k))));
    match r with
    | Ok _ => mret tt
    | Err e =>
      if already_exists e then
        elapsed ← ask (fun t _ => Z.max (100 * i) (h_elapsed h t));
        if elapsed <? STALE_PORT_WAIT then
          tolerate (request o (DeleteLink port));;
          make_port fuel (i + 1) port k zone_ns
        else fail e
      else fail e
    end
  end.

(** The bridge's end of [attach_v4], in the nic zone, and the zone's own. *)
Definition attach_port (port : string) (k zone_ns : Z) : NM unit :=
  make_port 51 0 port k zone_ns;;
  request o (SetMaster port BRIDGE);;
  request o (SetPortIsolated port true);;
  request o (SetUp port).
Definition attach_end (k : Z) (host_gid : option Z) : NM unit :=
  request o (SetUp "lo");;
  tolerate (request o (Sysctl "/proc/sys/net/ipv6/conf/eth0/accept_ra" "0"));;
  request o (AddAddr4 "eth0" (zone_v4 k) 24);;
  request o (SetUp "eth0");;
  request o (AddDefaultRoute4 BRIDGE_V4 "eth0");;
  match host_gid with
  | Some g => tolerate (request o (Sysctl "/proc/sys/net/ipv4/ping_group_range" (pretty g +:+ " " +:+ pretty g)))
  | None => mret tt
  end.
Definition attach_v4 (port : string) (k nic_ns zone_ns : Z) (host_gid : option Z) : ZM unit :=
  io (with_netns o nic_ns (attach_port port k zone_ns));;
  io (with_netns o zone_ns (attach_end k host_gid)).

(** An error's value, and the state it leaves, for [r.is_err()]. *)
Definition attempt_net {A} (m : ZM A) : ZM (result A NetError) := fun n =>
  match m n with
  | (Done a, n) => (Done (Ok a), n)
  | (Fail e, n) => (Done (Err e), n)
  | (Panic, n) => (Panic, n)
  end.

Definition attach_routed (name : string) (k nic_ns zone_ns : Z) (host_gid : option Z) : ZM unit :=
  let port := port_name name in
  r ← attempt_net (attach_v4 port k nic_ns zone_ns host_gid);
  (match r with Err _ => io (tolerate (with_netns o nic_ns (request o (DeleteLink port)))) | Ok _ => mret tt end);;
  lift r;;
  io (tolerate (with_netns o zone_ns
    (request o (AddAddr6 "eth0" (zone_v6 k) 64);; request o (AddDefaultRoute6 BRIDGE_V6 "eth0")))).

(** A zone's namespace and whether its first process is still the one that was registered. *)
Definition zone_of (name : string) : option Zone :=
  match from_file (h_read h) (name +:+ ".toml") with Ok z => Some z | Err _ => None end.

Definition still_alive (pid : Z) : ZM bool := io (ask (fun t _ => h_alive h t pid)).

Fixpoint find_nic_zone (names : list string) : ZM Z :=
  match names with
  | [] => fail NoNetZone
  | name :: names =>
    match zone_of name with
    | Some z =>
      if bool_decide (z_network z = Nic) then
        st ← io (ask (fun t _ => h_state h t name));
        match st with
        | NotRunning => find_nic_zone names
        | Running pid =>
          ns ← io (ask (fun t _ => h_open_ns h t pid));
          alive ← still_alive pid;
          match alive with
          | true => match ns with Ok ns => mret ns | Err e => fail (NetIo (Errno e)) end
          | false => find_nic_zone names
          end
        end
      else find_nic_zone names
    | None => find_nic_zone names
    end
  end.
Definition running_nic_zone_ns : ZM Z := find_nic_zone (h_names h).

Definition plumb_routed_zone (z : Zone) (zone_ns host_gid : Z) : ZM unit :=
  k ← host_number z;
  k ← require k NoAddress;
  net_ns ← running_nic_zone_ns;
  attach_routed (z_name z) k net_ns zone_ns (Some host_gid).

(** [replumb_routed_zones]: what became of each. *)
Fixpoint replumb (names : list string) (nic_ns : Z) : ZM (list (string * result unit NetError)) :=
  match names with
  | [] => mret []
  | name :: names =>
    match zone_of name with
    | Some z =>
      if bool_decide (z_network z = Routed) then
        st ← io (ask (fun t _ => h_state h t name));
        match st with
        | NotRunning => replumb names nic_ns
        | Running pid =>
          ns ← io (ask (fun t _ => h_open_ns h t pid));
          alive ← still_alive pid;
          match alive with
          | true =>
            r ← attempt_net (
              k ← host_number z;
              k ← require k NoAddress;
              zone_ns ← (match ns with Ok ns => mret ns | Err e => fail (NetIo (Errno e)) end);
              attach_routed (z_name z) k nic_ns zone_ns None);
            rest ← replumb names nic_ns;
            mret ((name, r) :: rest)
          | false => replumb names nic_ns
          end
        end
      else replumb names nic_ns
    | None => replumb names nic_ns
    end
  end.
Definition replumb_routed_zones (nic_ns : Z) : ZM (list (string * result unit NetError)) := replumb (h_names h) nic_ns.

Definition plumb_nic_zone (z : Zone) (zone_ns : Z) : ZM unit :=
  plumb_nic_zone_bridge z zone_ns;;
  replumb_routed_zones zone_ns;;
  mret tt.
End host.

End Netzone.
