(* ===== verification/NetlinkClaims.v ===== *)
(** * Netlink: claims on the messages built *)
From S2P Require Import Prelude Bytes Text Netlink NetlinkSafe.
Import Netlink.
Open Scope string_scope.
Open Scope list_scope.
Open Scope Z_scope.

(** ** The shape of a message *)
Lemma finish_app hd rest : 4 <= zlen hd -> zlen (hd ++ rest) <= U32_MAX ->
  exists hd', finish (hd ++ rest) = hd' ++ rest /\ zlen hd' = zlen hd /\ u32_at (finish (hd ++ rest)) 0 = Some (zlen (hd ++ rest)).
Proof.
  intros Hh Hm. pose proof (zlen_nonneg rest). destruct (finish_len (hd ++ rest)) as (_ & _ & Hu); [rewrite zlen_app; lia|].
  exists (bytes_of_u32 (as_u32 (zlen (hd ++ rest))) ++ drop 4 hd). split; [|split; [|by apply Hu]].
  - unfold finish. set (v := bytes_of_u32 _). rewrite <-(take_drop 4 hd) at 1. rewrite <-!(assoc_L (++)).
    pose proof (patch_app [] (take 4 hd) v (drop 4 hd ++ rest)) as E. cbn [app] in E. apply E.
    unfold v. rewrite zlen_u32. unfold zlen in *. rewrite length_take. lia.
  - rewrite zlen_app, zlen_u32. unfold zlen in *. rewrite length_drop. lia.
Qed.

(** A message's attributes, after its header and fixed part, read back as they were put. *)
Lemma message_attrs hd l m : m = hd ++ mjoin (enc <$> l) -> 4 <= zlen hd -> aligned hd -> Forall attr_ok l ->
  zlen m <= U32_MAX ->
  u32_at (finish m) 0 = Some (zlen m) /\
  attrs (finish m) (zlen hd) = Some ((fun kd => (Z.land kd.1 NLA_TYPE_MASK, kd.2)) <$> l).
Proof.
  intros -> Hh Ha Hl Hm. destruct (finish_app hd (mjoin (enc <$> l)) Hh Hm) as (hd' & E & Hz & Hu). split; [done|].
  rewrite E, <-Hz. apply attrs_enc; [unfold aligned; by rewrite Hz|done].
Qed.

Lemma link_msg_shape ty flags idx up : zlen (link_msg ty flags idx up) = 32 /\ aligned (link_msg ty flags idx up).
Proof. split; vm_compute; reflexivity. Qed.

Lemma join_snoc l kd : mjoin (enc <$> (l ++ [kd])) = mjoin (enc <$> l) ++ enc kd.
Proof. rewrite fmap_app, join_app. cbn. by rewrite app_nil_r. Qed.

(** A list of attributes written one after another. *)
Lemma attrs_written {A} (f : A -> Z * bytes) (l : list A) b : aligned b -> Forall (fun a => 4 + zlen (f a).2 < 65536) l ->
  fold_left (fun m a => attr m (f a).1 (f a).2) l b = b ++ mjoin (enc <$> (f <$> l)).
Proof.
  revert b. induction l as [|a l IH]; intros b Hb Hl; cbn [fold_left]; [cbn; by rewrite app_nil_r|].
  apply Forall_cons in Hl as [Ha Hl]. rewrite attr_enc by done. rewrite <-surjective_pairing.
  rewrite IH; [|by apply aligned_app; [|apply aligned_enc]|done]. rewrite fmap_cons, join_fmap_cons. by rewrite <-(assoc_L (++)).
Qed.

Lemma nested_last hd b k body m : aligned body -> 4 + zlen body < 65536 -> 0 <= k < 0x4000 ->
  m = (begin_nested (hd ++ b) k).1 ++ body ->
  end_nested m (begin_nested (hd ++ b) k).2 = hd ++ b ++ enc (Z.lor k NLA_F_NESTED, body).
Proof. intros Hb Hl Hk ->. rewrite nested_enc by done. by rewrite <-(assoc_L (++)). Qed.

Lemma begin_aligned b k : aligned b -> aligned (begin_nested b k).1.
Proof. intros Hb. unfold begin_nested. by apply aligned_app. Qed.

(** ** Altnames *)
Lemma until_nul_name n : x00 ∉ n -> until_nul (n ++ [x00]) = n.
Proof.
  induction n as [|b n IH]; intros Hn; cbn; [by rewrite bool_decide_eq_true_2|].
  apply not_elem_of_cons in Hn as [Hb Hn]. rewrite bool_decide_eq_false_2 by congruence. by rewrite IH.
Qed.

Definition alt_attr (n : bytes) : Z * bytes := (IFLA_ALT_IFNAME, n ++ [x00]).

Lemma altnames_of names : Forall (fun n => x00 ∉ n) names ->
  altnames ((fun kd : Z * bytes => (Z.land kd.1 NLA_TYPE_MASK, kd.2)) <$> (alt_attr <$> names)) = names.
Proof.
  induction names as [|n names IH]; intros Hn; [done|]. apply Forall_cons in Hn as [Hn1 Hn]. cbn [fmap list_fmap altnames].
  change (Z.land (alt_attr n).1 NLA_TYPE_MASK =? IFLA_ALT_IFNAME) with true. cbv iota. cbn [snd alt_attr].
  rewrite until_nul_name by done. f_equal. by apply IH.
Qed.

Lemma zlen_alts names : Forall (fun n => zlen n <= 127) names ->
  zlen (mjoin (enc <$> (alt_attr <$> names))) <= 132 * zlen names.
Proof.
  induction names as [|n names IH]; intros Hn; [done|]. apply Forall_cons in Hn as [Hn1 Hn].
  rewrite fmap_cons, join_fmap_cons, zlen_app, zlen_enc, zlen_cons. specialize (IH Hn). cbn [snd alt_attr].
  rewrite zlen_app. change (zlen [x00]) with 1.
  assert (align4 (zlen n + 1) <= 128); [|lia]. rewrite align4_div. pose proof (Z.div_le_mono (zlen n + 1 + 3) 131 4). 
  change (131 / 4) with 32 in *. lia.
Qed.

(** A request that removes altnames, at most 64 of them and each as long as
    the kernel lets one be, carries them all: its length fits its header and its property list's
    16 bits, and read as a link's answer is read it gives exactly those names back. *)
Theorem altnames_roundtrip (idx : Z) (names : list bytes) :
  (length names <= 64)%nat -> Forall (fun n => zlen n <= 127 /\ x00 ∉ n) names ->
  let m := del_altnames_msg idx names in
  u32_at m 0 = Some (zlen m) /\
  exists l, attrs m 32 = Some l /\ link_names l [] false = Some (names, false).
Proof.
  intros Hl Hn. assert (Forall (fun n => zlen n <= 127) names /\ Forall (fun n => x00 ∉ n) names) as [H127 H0]
    by (split; eapply Forall_impl; try exact Hn; naive_solver).
  pose proof (zlen_alts names H127) as Hz. set (d := mjoin (enc <$> (alt_attr <$> names))) in *.
  assert (zlen names <= 64) by (unfold zlen; lia). assert (aligned d) as Hd by apply aligned_join.
  assert (Forall attr_ok (alt_attr <$> names)) as Hok.
  { apply Forall_fmap. eapply Forall_impl; [exact H127|]. intros n Hnn. cbv beta in Hnn. split; cbn [alt_attr fst snd]; [done|].
    rewrite zlen_app. change (zlen [x00]) with 1. lia. }
  destruct (link_msg_shape RTM_DELLINKPROP 0 idx 0) as [Hh Ha]. set (hd := link_msg RTM_DELLINKPROP 0 idx 0) in *.
  pose proof (message_attrs hd [(Z.lor IFLA_PROP_LIST NLA_F_NESTED, d)]
    (end_nested (fold_left (fun m n => attr m IFLA_ALT_IFNAME (n ++ [x00])) names (begin_nested hd IFLA_PROP_LIST).1)
       (begin_nested hd IFLA_PROP_LIST).2)) as Hm.
  assert (forall b, aligned b -> fold_left (fun m n => attr m IFLA_ALT_IFNAME (n ++ [x00])) names b = b ++ d) as Hf.
  { intros b Hb. apply (attrs_written alt_attr); [done|]. eapply Forall_impl; [exact H127|]. intros n Hnn. cbv beta in Hnn. cbn [alt_attr snd].
    rewrite zlen_app. change (zlen [x00]) with 1. lia. }
  rewrite Hf in Hm by (by apply begin_aligned). rewrite nested_enc in Hm by (done || lia).
  assert (zlen (hd ++ enc (Z.lor IFLA_PROP_LIST NLA_F_NESTED, d)) <= U32_MAX) as Hmax.
  { rewrite zlen_app, zlen_enc, align4_id by done. cbn [snd]. lia. }
  destruct Hm as [Hu Hat]; [cbn; by rewrite app_nil_r|lia|done| |done|].
  { constructor; [|constructor]. unfold attr_ok. cbn [fst snd]. split; [done|lia]. }
  assert (del_altnames_msg idx names = finish (hd ++ enc (Z.lor IFLA_PROP_LIST NLA_F_NESTED, d))) as E.
  { unfold del_altnames_msg. fold hd. cbn [begin_nested]. f_equal. rewrite <-nested_enc by (done || lia).
    rewrite <-Hf by (by apply begin_aligned). done. }
  cbv zeta. rewrite E. destruct (finish_len (hd ++ enc (Z.lor IFLA_PROP_LIST NLA_F_NESTED, d))) as [-> _].
  { rewrite zlen_app. pose proof (zlen_nonneg (enc (Z.lor IFLA_PROP_LIST NLA_F_NESTED, d))). lia. }
  split; [done|]. rewrite Hh in Hat. eexists. split; [exact Hat|]. cbn [fmap list_fmap fst snd link_names].
  change (Z.land (Z.lor IFLA_PROP_LIST NLA_F_NESTED) NLA_TYPE_MASK =? IFLA_PROP_LIST) with true. cbv iota.
  pose proof (attrs_enc [] (alt_attr <$> names) ltac:(done) Hok) as Hin. cbn [app] in Hin. change (zlen []) with 0 in Hin.
  fold d in Hin. rewrite Hin. cbn [mbind option_bind]. by rewrite altnames_of.
Qed.
Example altnames_roundtrip_witness : let m := del_altnames_msg 3 [as_bytes "kryptik0"; as_bytes "wan"] in
  u32_at m 0 = Some (zlen m) /\
  exists l, attrs m 32 = Some l /\ link_names l [] false = Some ([as_bytes "kryptik0"; as_bytes "wan"], false).
Proof.
  apply (altnames_roundtrip 3 [as_bytes "kryptik0"; as_bytes "wan"]); [vm_compute; lia|].
  repeat constructor; try (vm_compute; discriminate); (apply (bool_decide_unpack _); vm_compute; exact I).
Defined.

(** ** A pair of links, and an isolated port *)
Definition masked (l : list (Z * bytes)) : list (Z * bytes) := (fun kd => (Z.land kd.1 NLA_TYPE_MASK, kd.2)) <$> l.
Definition named (s : string) : bytes := as_bytes s ++ [x00].
(** The fixed part of a link's message: any device, nothing changed. *)
Definition no_ifinfo : bytes := repeat x00 16.

Lemma ifinfo_none b : aligned b -> ifinfomsg b AF_UNSPEC 0 0 0 = b ++ no_ifinfo.
Proof. intros Hb. unfold ifinfomsg. rewrite raw_pad by done. done. Qed.

Lemma attr_str_enc b k s : aligned b -> str_len s <= 15 -> attr_str b k s = b ++ enc (k, named s).
Proof. intros Hb Hs. unfold attr_str. apply attr_enc; [done|]. unfold str_len in Hs. unfold named. rewrite zlen_app. change (zlen [x00]) with 1. lia. Qed.

Lemma zlen_named s : str_len s <= 15 -> zlen (named s) <= 16.
Proof. unfold named, str_len. intros H. rewrite zlen_app. change (zlen [x00]) with 1. lia. Qed.

Lemma check_name_len n : check_name n = true -> str_len n <= 15.
Proof. unfold check_name. rewrite negb_true_iff, !orb_false_iff. intros [[[_ H] _] _]. lia. Qed.

Lemma zlen_enc_le kd n : zlen kd.2 <= n -> zlen (enc kd) <= 7 + n.
Proof. intros H. rewrite zlen_enc. pose proof (align4_bounds (zlen kd.2)). lia. Qed.

(** The peer's part of a pair: its fixed part and attributes. *)
Definition peer_attrs (b : string) (fd : Z) (mac : bytes) : list (Z * bytes) :=
  [(IFLA_IFNAME, named b); (IFLA_NET_NS_FD, bytes_of_u32 fd); (IFLA_ADDRESS, mac)].
Definition peer_data (b : string) (fd : Z) (mac : bytes) : bytes := no_ifinfo ++ mjoin (enc <$> peer_attrs b fd mac).
Definition peer_nest (b : string) (fd : Z) (mac : bytes) : bytes :=
  enc (Z.lor VETH_INFO_PEER NLA_F_NESTED, peer_data b fd mac).
Definition veth_info (b : string) (fd : Z) (mac : bytes) : list (Z * bytes) :=
  [(IFLA_INFO_KIND, named "veth"); (Z.lor IFLA_INFO_DATA NLA_F_NESTED, peer_nest b fd mac)].

Section veth.
Context (a b : string) (fd : Z) (mac : bytes).
Hypothesis Ha : check_name a = true.
Hypothesis Hb : check_name b = true.
Hypothesis Hmac : zlen mac = 6.

Lemma peer_data_ok : aligned (peer_data b fd mac) /\ zlen (peer_data b fd mac) <= 64.
Proof.
  apply check_name_len in Hb. pose proof (zlen_named b Hb) as Hz. split; [apply aligned_app; [done|apply aligned_join]|].
  unfold peer_data, peer_attrs. rewrite !join_fmap_cons, !zlen_app. change (zlen (mjoin (enc <$> []))) with 0.
  pose proof (zlen_enc_le (IFLA_IFNAME, named b) 16 ltac:(done)). rewrite (zlen_enc (IFLA_NET_NS_FD, _)), (zlen_enc (IFLA_ADDRESS, _)).
  cbn [snd]. rewrite Hmac. change (align4 6) with 8. change (align4 (zlen (bytes_of_u32 fd))) with 4. change (zlen no_ifinfo) with 16. lia.
Qed.

Lemma peer_nest_ok : aligned (peer_nest b fd mac) /\ zlen (peer_nest b fd mac) <= 68.
Proof.
  destruct peer_data_ok as [H1 H2]. split; [apply aligned_enc|]. unfold peer_nest. rewrite zlen_enc. cbn [snd].
  rewrite align4_id by done. lia.
Qed.

Lemma veth_info_ok : Forall attr_ok (veth_info b fd mac) /\ aligned (mjoin (enc <$> veth_info b fd mac)) /\
  zlen (mjoin (enc <$> veth_info b fd mac)) <= 96.
Proof.
  destruct peer_nest_ok as [H1 H2]. pose proof (zlen_nonneg (peer_nest b fd mac)). split_and!.
  - constructor; [split; vm_compute; split; congruence|]. constructor; [|constructor]. split; [done|]. cbn [snd]. lia.
  - apply aligned_join.
  - unfold veth_info. rewrite !join_fmap_cons, !zlen_app, !zlen_enc. change (zlen (mjoin (enc <$> []))) with 0. cbn [snd].
    rewrite (align4_id (zlen (peer_nest _ _ _))) by done. change (align4 (zlen (named "veth"))) with 8. lia.
Qed.

Definition veth_attrs : list (Z * bytes) :=
  [(IFLA_IFNAME, named a); (Z.lor IFLA_LINKINFO NLA_F_NESTED, mjoin (enc <$> veth_info b fd mac))].

Lemma veth_shape : exists hd, zlen hd = 32 /\ aligned hd /\
  create_veth_msg a b (Some fd) (Some mac) = finish (hd ++ mjoin (enc <$> veth_attrs)).
Proof.
  set (hd := link_msg RTM_NEWLINK (Z.lor NLM_F_CREATE NLM_F_EXCL) 0 0). exists hd. split; [done|]. split; [done|].
  pose proof (check_name_len a Ha) as La. pose proof (check_name_len b Hb) as Lb. assert (aligned hd) as Hh by done.
  unfold create_veth_msg. fold hd. rewrite attr_str_enc by done. set (m1 := hd ++ enc (IFLA_IFNAME, named a)).
  assert (aligned m1) as H1 by (apply aligned_app; [done|apply aligned_enc]).
  rewrite (surjective_pairing (begin_nested m1 IFLA_LINKINFO)). set (m2 := (begin_nested m1 IFLA_LINKINFO).1).
  assert (aligned m2) as H2 by (by apply begin_aligned). rewrite attr_str_enc by done.
  set (m3 := m2 ++ enc (IFLA_INFO_KIND, named "veth")). assert (aligned m3) as H3 by (apply aligned_app; [done|apply aligned_enc]).
  rewrite (surjective_pairing (begin_nested m3 IFLA_INFO_DATA)). set (m4 := (begin_nested m3 IFLA_INFO_DATA).1).
  assert (aligned m4) as H4 by (by apply begin_aligned).
  rewrite (surjective_pairing (begin_nested m4 VETH_INFO_PEER)). set (m5 := (begin_nested m4 VETH_INFO_PEER).1).
  assert (aligned m5) as H5 by (by apply begin_aligned). rewrite ifinfo_none by done.
  assert (aligned (m5 ++ no_ifinfo)) as H6 by (by apply aligned_app). rewrite attr_str_enc by done.
  set (m7 := (m5 ++ no_ifinfo) ++ _). assert (aligned m7) as H7 by (apply aligned_app; [done|apply aligned_enc]).
  unfold attr_u32. rewrite (attr_enc m7); [|done|rewrite zlen_u32; lia]. rewrite attr_enc; [|apply aligned_app; [done|apply aligned_enc]|lia].
  destruct (peer_data_ok) as [Pd1 Pd2]. destruct (peer_nest_ok) as [Pn1 Pn2]. destruct (veth_info_ok) as (_ & Vi1 & Vi2).
  assert ((m7 ++ enc (IFLA_NET_NS_FD, bytes_of_u32 fd)) ++ enc (IFLA_ADDRESS, mac) = m5 ++ peer_data b fd mac) as ->.
  { unfold m7, peer_data, peer_attrs. rewrite !join_fmap_cons. change (mjoin (enc <$> [])) with (@nil byte).
    by rewrite app_nil_r, <-!(assoc_L (++)). }
  unfold m5. rewrite nested_enc by (done || lia). fold (peer_nest b fd mac). unfold m4 at 1. rewrite nested_enc by (done || lia).
  unfold m3. rewrite <-(assoc_L (++)).
  assert (enc (IFLA_INFO_KIND, named "veth") ++ enc (Z.lor IFLA_INFO_DATA NLA_F_NESTED, peer_nest b fd mac)
    = mjoin (enc <$> veth_info b fd mac)) as ->.
  { unfold veth_info. rewrite !join_fmap_cons. change (mjoin (enc <$> [])) with (@nil byte). by rewrite app_nil_r. }
  unfold m2. rewrite nested_enc by (done || lia). f_equal. unfold m1, veth_attrs. rewrite !join_fmap_cons.
  change (mjoin (enc <$> [])) with (@nil byte). by rewrite app_nil_r, <-(assoc_L (++)).
Qed.
End veth.

(** The request for a pair of links, read as the kernel reads one, says exactly
    what was asked: a veth named as the port, whose peer has its own name, namespace and MAC; every
    length in it is exact. *)
Theorem veth_message (a b : string) (fd : Z) (mac : bytes) :
  check_name a = true -> check_name b = true -> zlen mac = 6 ->
  let m := create_veth_msg a b (Some fd) (Some mac) in
  u32_at m 0 = Some (zlen m) /\
  exists info data peer,
    attrs m 32 = Some [(IFLA_IFNAME, named a); (IFLA_LINKINFO, info)] /\
    attrs info 0 = Some [(IFLA_INFO_KIND, named "veth"); (IFLA_INFO_DATA, data)] /\
    attrs data 0 = Some [(VETH_INFO_PEER, peer)] /\
    take 16 peer = no_ifinfo /\
    attrs peer 16 = Some [(IFLA_IFNAME, named b); (IFLA_NET_NS_FD, bytes_of_u32 fd); (IFLA_ADDRESS, mac)].
Proof.
  intros Ha Hb Hm. destruct (veth_shape a b fd mac Ha Hb Hm) as (hd & Hh & Hal & ->).
  destruct (peer_data_ok b fd mac Hb Hm) as [Pd1 Pd2]. destruct (veth_info_ok b fd mac Hb Hm) as (Vi0 & Vi1 & Vi2).
  pose proof (zlen_named a (check_name_len a Ha)) as La. pose proof (zlen_named b (check_name_len b Hb)) as Lb.
  assert (Forall attr_ok (veth_attrs a b fd mac)) as Hok.
  { constructor; [|constructor; [|constructor]]; (split; [done|]); cbn [snd]; lia. }
  assert (Forall attr_ok (peer_attrs b fd mac)) as Hpk.
  { constructor; [|constructor; [|constructor; [|constructor]]]; (split; [done|]); cbn [snd]; [lia|done|lia]. }
  assert (zlen (hd ++ mjoin (enc <$> veth_attrs a b fd mac)) <= 200) as Hz.
  { unfold veth_attrs. rewrite !join_fmap_cons, !zlen_app, (zlen_enc (Z.lor _ _, _)). change (zlen (mjoin (enc <$> []))) with 0.
    cbn [snd]. rewrite align4_id by done. pose proof (zlen_enc_le (IFLA_IFNAME, named a) 16 La). lia. }
  destruct (message_attrs hd (veth_attrs a b fd mac) _ eq_refl) as [Hu Hat]; [lia|done|done|lia|].
  cbv zeta. destruct (finish_len (hd ++ mjoin (enc <$> veth_attrs a b fd mac))) as [-> _].
  { rewrite zlen_app. pose proof (zlen_nonneg (mjoin (enc <$> veth_attrs a b fd mac))). lia. }
  split; [done|]. rewrite Hh in Hat. eexists _, _, _. split; [exact Hat|].
  pose proof (attrs_enc [] (veth_info b fd mac) ltac:(done) Vi0) as H1. cbn [app] in H1. split; [exact H1|].
  pose proof (attrs_enc [] [(Z.lor VETH_INFO_PEER NLA_F_NESTED, peer_data b fd mac)]) as H2. cbn [app] in H2.
  assert (mjoin (enc <$> [(Z.lor VETH_INFO_PEER NLA_F_NESTED, peer_data b fd mac)]) = peer_nest b fd mac) as E
    by (rewrite join_fmap_cons; apply app_nil_r).
  rewrite E in H2. split; [apply H2; [done|constructor; [split; [done|cbn [snd]; lia]|constructor]]|].
  split; [done|]. exact (attrs_enc no_ifinfo (peer_attrs b fd mac) ltac:(done) Hpk).
Qed.
Example veth_message_witness : let m := create_veth_msg "kv-work" "eth0" (Some 9) (Some (zone_mac 3)) in
  u32_at m 0 = Some (zlen m) /\
  exists info data peer,
    attrs m 32 = Some [(IFLA_IFNAME, named "kv-work"); (IFLA_LINKINFO, info)] /\
    attrs info 0 = Some [(IFLA_INFO_KIND, named "veth"); (IFLA_INFO_DATA, data)] /\
    attrs data 0 = Some [(VETH_INFO_PEER, peer)] /\
    take 16 peer = no_ifinfo /\
    attrs peer 16 = Some [(IFLA_IFNAME, named "eth0"); (IFLA_NET_NS_FD, bytes_of_u32 9); (IFLA_ADDRESS, zone_mac 3)].
Proof. apply (veth_message "kv-work" "eth0" 9 (zone_mac 3)); vm_compute; reflexivity. Defined.

(** The isolation of a port is where the bridge looks for it: the bridge's family, and the flag
    nested in its port's attributes. *)
Example isolated_message : let m := set_port_isolated_msg 7 true in
  byte_at m 16 = Some AF_BRIDGE /\
  attrs m 32 = Some [(IFLA_PROTINFO, slice m 36 44)] /\ attrs (slice m 36 44) 0 = Some [(IFLA_BRPORT_ISOLATED, [x01])].
Proof. vm_compute. done. Qed.
