(* ===== verification/NetzoneClaims.v ===== *)
(** * The zones' network: every plumbing ends, and a zone's port is attached step by step *)
From S2P Require Import Prelude Bytes Text Zone ZoneSafe Netlink NetlinkSafe Netzone.
Import Netlink Netzone.
Open Scope string_scope.
Open Scope list_scope.
Open Scope Z_scope.

(** ** Every plumbing ends *)
Definition ends_net {A} (m : ZM A) : Prop := forall n, wp m (fun _ => grows n) (fun _ => grows n) n.

Lemma wp_io {A} (m : NM A) (Q : A -> Net -> Prop) R n : wp m Q (fun e => R (NetIo e)) n -> wp (io m) Q R n.
Proof. unfold wp, io. by destruct (m n) as [[?|?|] ?]. Qed.
Lemma wp_attempt_net {A} (m : ZM A) (Q : result A NetError -> Net -> Prop) R n :
  wp m (fun a n' => Q (Ok a) n') (fun e n' => Q (Err e) n') n -> wp (attempt_net m) Q R n.
Proof. unfold wp, attempt_net. by destruct (m n) as [[?|?|] ?]. Qed.

Lemma net_io {A} (m : NM A) : ends m -> ends_net (io m).
Proof. intros H n. apply wp_io. exact (H n). Qed.
Lemma net_ret {A} (a : A) : ends_net (mret a).
Proof. intros n. apply grows_refl. Qed.
Lemma net_fail {A} e : ends_net (fail (A:=A) e).
Proof. intros n. apply grows_refl. Qed.
Lemma net_lift {A} (r : result A NetError) : ends_net (lift r).
Proof. intros n. destruct r; apply grows_refl. Qed.
Lemma net_reject_if b e : ends_net (reject_if b e).
Proof. intros n. destruct b; apply grows_refl. Qed.
Lemma net_bind {A B} (m : ZM A) (f : A -> ZM B) : ends_net m -> (forall a, ends_net (f a)) -> ends_net (m ≫= f).
Proof.
  intros Hm Hf n. apply wp_bind. eapply wp_mono; [| |apply Hm]; [|done]. intros a n1 H1.
  eapply wp_mono; [| |apply Hf]; (intros ? n2 H2; unfold grows in *; by etrans).
Qed.
Lemma net_attempt {A} (m : ZM A) : ends_net m -> ends_net (attempt_net m).
Proof. intros Hm n. apply wp_attempt_net. exact (Hm n). Qed.
Lemma net_for_each {A} (l : list A) f : (forall a, ends_net (f a)) -> ends_net (for_each l f).
Proof. intros H. induction l as [|a l IH]; [apply (net_ret tt)|]. apply net_bind; [apply H|intros _; apply IH]. Qed.

#[export] Hint Resolve net_io net_ret net_fail net_lift net_reject_if net_for_each : ends.

Ltac net_step :=
  match goal with
  | |- ends_net (mbind _ _) => apply net_bind; [|intros ?]
  | |- ends_net (io _) => apply net_io
  | |- ends_net (attempt_net _) => apply net_attempt
  | |- ends_net (for_each _ _) => apply net_for_each; intros ?
  | |- ends_net (require _ _) => apply net_lift
  | |- ends_net (match ?x with _ => _ end) => destruct x
  | |- ends_net _ => solve [auto with ends]
  | |- ends (tolerate _) => unfold tolerate
  | |- ends (with_netns _ _ _) => apply ends_with_netns
  | _ => ends_step
  end.
Ltac net := repeat net_step.

Section plumbing.
Context (h : Host).
Abbreviation o := (h_kernel h).
Hypothesis Hk : kernel_ok o.

Lemma ends_reset_nic nic : ends (reset_nic h nic).
Proof. unfold reset_nic, is_radio, reset_addr. net. Qed.
Lemma ends_carry_nic nic ns off : ends (carry_nic h nic ns off).
Proof. unfold carry_nic, uplink_config, wiphy_index_of, add_addrs, set_wiphy_netns. net. Qed.
Lemma ends_collect l radios out : ends (collect h l radios out).
Proof. revert radios out. induction l as [|[[name idx] phy] l IH]; intros radios out; cbn [collect]; net. Qed.
Lemma ends_physical_interfaces : ends (physical_interfaces h).
Proof.
  unfold physical_interfaces, physical_interfaces_under, bare_radios, del_interface, new_station. net;
    auto using ends_collect, ends_reset_nic.
Qed.
Lemma ends_off_among nics : ends (off_among h nics).
Proof. induction nics as [|n nics IH]; cbn [off_among]; [apply ends_ret|]. unfold switched_off. net. Qed.

Lemma net_nics_for z : ends_net (nics_for h z).
Proof. unfold nics_for. net; auto using ends_physical_interfaces, ends_reset_nic. Qed.
Lemma net_plumb_nic_zone_bridge z ns : ends_net (plumb_nic_zone_bridge h z ns).
Proof.
  unfold plumb_nic_zone_bridge. apply net_bind; [apply net_nics_for|intros nics].
  apply net_bind; [apply net_io, ends_off_among|intros off].
  apply net_bind; [apply net_for_each; intros n; apply net_bind; [apply net_io, ends_carry_nic|intros; apply net_ret]|intros _]. net.
Qed.

(** One round of waiting for a port: the pair could not be made, and what was there was deleted or not. *)
Definition veth_op (port : string) (k zone_ns : Z) : Op := CreateVeth port "eth0" (Some zone_ns) (Some (zone_mac k)).
Definition retry (port : string) (k zone_ns ns : Z) (e : Z * Op * bool) : Prop :=
  e = (ns, veth_op port k zone_ns, false) \/ exists b, e = (ns, DeleteLink port, b).

(** Fifty waits of a tenth of a second are the five seconds a port may take to go. *)
Lemma wp_make_port fuel i port k zone_ns n : 0 <= i <= 50 -> 51 <= Z.of_nat fuel + i ->
  let made b n' := exists l, logged n (l ++ [(n_ns n, veth_op port k zone_ns, b)]) n' /\
    Forall (retry port k zone_ns (n_ns n)) l in
  wp (make_port h fuel i port k zone_ns) (fun _ => made true) (fun _ => made false) n.
Proof.
  revert i n. induction fuel as [|fuel IH]; intros i n Hi Hf; [lia|]. cbn [make_port]. fold (veth_op port k zone_ns).
  apply wp_bind, wp_attempt. eapply wp_mono; [| |by apply wp_request].
  { intros [] n1 H1. apply wp_ret. by exists []. }
  intros e n1 H1. cbn beta iota. destruct (already_exists e); [|by apply wp_fail; exists []].
  apply wp_bind, wp_ask. intros n2 H2. destruct (Z.ltb_spec (Z.max (100 * i) (h_elapsed h (n_asked n1))) STALE_PORT_WAIT).
  2:{ apply wp_fail. exists []. split; [|done]. apply (logged_trans _ _ _ _ _ H1 H2). }
  unfold STALE_PORT_WAIT in *. pose proof (logged_trans _ _ _ _ _ H1 H2) as H12. rewrite app_nil_r in H12.
  assert (n_ns n2 = n_ns n) as Hns by apply H12. apply wp_bind.
  eapply (wp_mono _ (fun _ n3 => exists b, logged n2 [(n_ns n, DeleteLink port, b)] n3) _ (fun _ _ => False)).
  - intros [] n3 [b H3]. pose proof (logged_trans _ _ _ _ _ H12 H3) as H13. assert (n_ns n3 = n_ns n) as Hns3 by apply H13.
    eapply wp_mono; [| |apply (IH (i + 1) n3); lia]; rewrite Hns3; intros ? n4 (l & H4 & Hl);
      (exists ([(n_ns n, veth_op port k zone_ns, false); (n_ns n, DeleteLink port, b)] ++ l); split;
       [rewrite <-(assoc_L (++)); by apply (logged_trans _ _ _ _ _ H13 H4)|];
       apply Forall_app; split; [constructor; [by left|constructor; [right; by exists b|constructor]]|done]).
  - done.
  - apply wp_bind, wp_attempt. rewrite <-Hns. eapply wp_mono; [| |by apply wp_request]; intros ? n3 H3; apply wp_ret; (eexists; exact H3).
Qed.

Lemma ends_make_port port k ns : ends (make_port h 51 0 port k ns).
Proof.
  intros n. eapply wp_mono; [| |apply (wp_make_port 51 0); lia]; (intros ? n' (l & H & _); exact (grows_logged _ _ _ H)).
Qed.

Lemma net_attach_routed name k nic_ns zone_ns gid : ends_net (attach_routed h name k nic_ns zone_ns gid).
Proof. unfold attach_routed, attach_v4, attach_port, attach_end. net; apply ends_make_port. Qed.

Lemma net_host_number z : zone_wf z -> ends_net (host_number z).
Proof.
  intros Hz. unfold host_number. destruct (z_uid_base z) as [base|] eqn:E; [|apply net_ret].
  destruct (wf_uid z Hz base E) as (Hb & _ & _). intros n. unfold usize_sub. rewrite (proj2 (Z.leb_le _ _)) by lia.
  apply grows_refl.
Qed.

Lemma zone_of_wf name z : zone_of h name = Some z -> zone_wf z.
Proof.
  unfold zone_of, from_file. destruct (h_read h _) as [text|]; [|done]. destruct (from_str text) as [z'|] eqn:E; [|done].
  intros [= <-]. by eapply from_str_wf.
Qed.

Lemma net_find_nic_zone names : ends_net (find_nic_zone h names).
Proof. induction names as [|name names IH]; cbn [find_nic_zone]; [apply net_fail|]. unfold still_alive. net. Qed.

Lemma net_plumb_routed_zone z ns gid : zone_wf z -> ends_net (plumb_routed_zone h z ns gid).
Proof.
  intros Hz. unfold plumb_routed_zone, running_nic_zone_ns. net; auto using net_host_number, net_find_nic_zone, net_attach_routed.
Qed.

Lemma net_replumb names nic_ns : ends_net (replumb h names nic_ns).
Proof.
  induction names as [|name names IH]; cbn [replumb]; [apply net_ret|].
  destruct (zone_of h name) as [z|] eqn:Ez; [|done]. apply zone_of_wf in Ez. unfold still_alive.
  net; auto using net_host_number, net_attach_routed.
Qed.

Lemma net_plumb_nic_zone z ns : ends_net (plumb_nic_zone h z ns).
Proof.
  unfold plumb_nic_zone, replumb_routed_zones. apply net_bind; [apply net_plumb_nic_zone_bridge|intros _].
  apply net_bind; [apply net_replumb|intros _; apply net_ret].
Qed.
End plumbing.

(** * The zones' network: claims *)
From S2P Require Import ZoneClaims.
Import Netlink Netzone.

(** ** How a zone is attached, abstractly

    The port on the bridge, and the zone's own end: what each has come to. *)
Inductive PortPhase := Gone | Made | Joined | Isolated | PortUp.
Inductive EndPhase := NoAddr | Addressed | EndUp | EndRouted.
Record Wire := mkWire { w_port : PortPhase; w_end : EndPhase }.

#[export] Instance PortPhase_eq_dec : EqDecision PortPhase.
Proof. solve_decision. Defined.
#[export] Instance EndPhase_eq_dec : EqDecision EndPhase.
Proof. solve_decision. Defined.
#[export] Instance Op_eq_dec : EqDecision Op.
Proof. solve_decision. Defined.

Section wire.
Context (port : string) (k nic_ns zone_ns : Z).

(** A request in the nic zone's namespace: the port is made, joins the bridge, is isolated and
    only then brought up; it may be deleted at any time. [None] is a step out of turn. *)
Definition port_step (w : Wire) (op : Op) (ok : bool) : option Wire :=
  let to p := if ok then mkWire p (w_end w) else w in
  if bool_decide (op = veth_op port k zone_ns) then Some (if ok then mkWire Made NoAddr else w)
  else if bool_decide (op = DeleteLink port) then Some (if ok then mkWire Gone NoAddr else w)
  else if bool_decide (op = SetMaster port BRIDGE) && bool_decide (w_port w = Made) then Some (to Joined)
  else if bool_decide (op = SetPortIsolated port true) && bool_decide (w_port w = Joined) then Some (to Isolated)
  else if bool_decide (op = SetUp port) && bool_decide (w_port w = Isolated) then Some (to PortUp)
  else None.

(** A request in the zone's namespace, once the port is up: its own address, then its link, then
    the route through the bridge; IPv6 only after that. *)
Definition end_step (w : Wire) (op : Op) (ok : bool) : option Wire :=
  let to e := Some (if ok then mkWire (w_port w) e else w) in
  if negb (bool_decide (w_port w = PortUp)) then None
  else
    match op with
    | SetUp d =>
      if String.eqb d "lo" then Some w
      else if String.eqb d "eth0" && bool_decide (w_end w = Addressed) then to EndUp
      else None
    | AddAddr4 d a p =>
      if String.eqb d "eth0" && bool_decide (a = zone_v4 k) && (p =? 24) && bool_decide (w_end w = NoAddr) then to Addressed else None
    | AddDefaultRoute4 g d =>
      if String.eqb d "eth0" && bool_decide (g = BRIDGE_V4) && bool_decide (w_end w = EndUp) then to EndRouted else None
    | AddAddr6 d a p =>
      if String.eqb d "eth0" && bool_decide (a = zone_v6 k) && (p =? 64) && bool_decide (w_end w = EndRouted) then Some w else None
    | AddDefaultRoute6 g d =>
      if String.eqb d "eth0" && bool_decide (g = BRIDGE_V6) && bool_decide (w_end w = EndRouted) then Some w else None
    | Sysctl _ _ => Some w
    | _ => None
    end.

Definition wire_step (w : Wire) (e : Z * Op * bool) : option Wire :=
  let '(ns, op, ok) := e in
  if ns =? nic_ns then port_step w op ok
  else if ns =? zone_ns then end_step w op ok
  else None.

Fixpoint wire_run (w : Wire) (l : list (Z * Op * bool)) : option Wire :=
  match l with
  | [] => Some w
  | e :: l => w' ← wire_step w e; wire_run w' l
  end.

Lemma wire_run_app w l l' : wire_run w (l ++ l') = w' ← wire_run w l; wire_run w' l'.
Proof. revert w. induction l as [|e l IH]; intros w; cbn; [done|]. destruct (wire_step w e); [apply IH|done]. Qed.

(** ** The attachment follows it *)
Context (h : Host) (n0 : Net).
Abbreviation o := (h_kernel h).
Hypothesis Hk : kernel_ok o.
Hypothesis Hne : nic_ns <> zone_ns.

(** The requests made since [n0] have brought the wire to [w]. *)
Definition follows (w : Wire) (n : Net) : Prop :=
  exists l, n_log n = n_log n0 ++ l /\ wire_run (mkWire Gone NoAddr) l = Some w.

Lemma follows_logged w w' l n n' : follows w n -> logged n l n' -> wire_run w l = Some w' -> follows w' n'.
Proof.
  intros (l0 & E & Hr) [_ Hl] Hw. exists (l0 ++ l). rewrite Hl, E, <-(assoc_L (++)). split; [done|].
  by rewrite wire_run_app, Hr.
Qed.

Lemma wp_follow op w w1 w2 n : follows w n ->
  wire_step w (n_ns n, op, true) = Some w1 -> wire_step w (n_ns n, op, false) = Some w2 ->
  wp (request o op) (fun _ n' => follows w1 n' /\ n_ns n' = n_ns n) (fun _ n' => follows w2 n' /\ n_ns n' = n_ns n) n.
Proof.
  intros Hf H1 H2. eapply wp_mono; [| |by apply wp_request]; (intros ? n' H; split; [|apply H]; eapply follows_logged; [exact Hf|exact H|]);
    cbn [wire_run]; [by rewrite H1|by rewrite H2].
Qed.

(** Inside [with_netns], [f] runs in [ns]; a failure to enter it makes no request. *)
Lemma wp_with_netns {A} ns (f : NM A) (Q : A -> Net -> Prop) (R : NlErr -> Net -> Prop) n :
  (forall e n', n_log n' = n_log n -> ~ (forall t, o_setns o t = None) -> R e n') ->
  (forall n1, n_ns n1 = ns -> n_log n1 = n_log n ->
    wp f (fun a n' => (forall n2, n_log n2 = n_log n' -> Q a n2) /\ (forall e n2, n_log n2 = n_log n' -> R e n2))
         (fun _ n' => forall e n2, n_log n2 = n_log n' -> R e n2) n1) ->
  wp (with_netns o ns f) Q R n.
Proof.
  intros HR Hf. unfold with_netns. apply wp_bind, wp_gets, wp_bind, wp_ask. intros n1 [_ H1]. rewrite app_nil_r in H1.
  destruct (o_setns _ _) eqn:E1; [apply wp_fail, HR; [done|congruence]|]. apply wp_bind, wp_ask. intros n2 [_ H2]. rewrite app_nil_r in H2.
  destruct (o_setns o (n_asked n1)) eqn:E2; [apply wp_fail, HR; congruence|]. apply wp_bind, wp_modify, wp_bind, wp_attempt.
  eapply wp_mono; [| |apply (Hf (in_ns ns n2)); [done|cbn; congruence]].
  - intros a n3 [HQ HR3]. apply wp_bind, wp_ask. intros n4 [_ H4]. rewrite app_nil_r in H4.
    destruct (o_setns o (n_asked n3)); [by apply wp_fail, HR3|]. apply wp_bind, wp_modify. by apply HQ.
  - intros e n3 HR3. apply wp_bind, wp_ask. intros n4 [_ H4]. rewrite app_nil_r in H4.
    destruct (o_setns o (n_asked n3)); [by apply wp_fail, HR3|]. apply wp_bind, wp_modify. by apply HR3.
Qed.

Lemma follows_same w n n' : n_log n' = n_log n -> follows w n -> follows w n'.
Proof. unfold follows. by intros ->. Qed.

(** Some wire the requests have come to. *)
Definition lawful (n : Net) : Prop := exists w, follows w n.

Lemma retry_run w l : Forall (retry port k zone_ns nic_ns) l -> exists w', wire_run w l = Some w'.
Proof.
  revert w. induction l as [|e l IH]; intros w Hl; [by eexists|]. apply Forall_cons in Hl as [He Hl]. cbn [wire_run].
  destruct He as [->|[b ->]]; unfold wire_step, port_step; rewrite Z.eqb_refl.
  - rewrite bool_decide_eq_true_2 by done. cbn. by apply IH.
  - rewrite bool_decide_eq_false_2 by done. rewrite bool_decide_eq_true_2 by done. cbn. by apply IH.
Qed.

Lemma wp_follow_port w n : n_ns n = nic_ns -> follows w n ->
  wp (make_port h 51 0 port k zone_ns) (fun _ n' => follows (mkWire Made NoAddr) n' /\ n_ns n' = nic_ns) (fun _ => lawful) n.
Proof.
  intros Hn Hf. eapply wp_mono; [| |by apply (wp_make_port h Hk 51 0); lia].
  - intros [] n' (l & Hl & Hr). rewrite Hn in Hl, Hr. split; [|rewrite <-Hn; apply Hl].
    destruct (retry_run w l Hr) as [w' Hw]. eapply follows_logged; [exact Hf|exact Hl|]. rewrite wire_run_app, Hw. cbn.
    unfold wire_step, port_step. rewrite Z.eqb_refl. by rewrite bool_decide_eq_true_2.
  - intros e n' (l & Hl & Hr). rewrite Hn in Hl, Hr. destruct (retry_run w l Hr) as [w' Hw]. exists w'.
    eapply follows_logged; [exact Hf|exact Hl|]. rewrite wire_run_app, Hw. cbn.
    unfold wire_step, port_step. rewrite Z.eqb_refl. by rewrite bool_decide_eq_true_2.
Qed.

Lemma lawful_same n n' : n_log n' = n_log n -> lawful n -> lawful n'.
Proof. intros E [w Hw]. exists w. by eapply follows_same. Qed.

(** A request in turn, and one whose failure is put up with. *)
Lemma wp_turn op w w1 (Q : unit -> Net -> Prop) (R : NlErr -> Net -> Prop) n ns : n_ns n = ns -> follows w n ->
  wire_step w (ns, op, true) = Some w1 -> wire_step w (ns, op, false) = Some w ->
  (forall n', n_ns n' = ns -> follows w1 n' -> Q tt n') -> (forall e n', follows w n' -> R e n') ->
  wp (request o op) Q R n.
Proof.
  intros <- Hf H1 H2 HQ HR. eapply wp_mono; [| |by eapply wp_follow].
  - intros [] n' [Hw Hn]. by apply HQ.
  - intros e n' [Hw _]. by eapply HR.
Qed.
Lemma wp_tolerated op w (Q : unit -> Net -> Prop) (R : NlErr -> Net -> Prop) n ns : n_ns n = ns -> follows w n ->
  wire_step w (ns, op, true) = Some w -> wire_step w (ns, op, false) = Some w ->
  (forall n', n_ns n' = ns -> follows w n' -> Q tt n') -> wp (tolerate (request o op)) Q R n.
Proof.
  intros Hn Hf H1 H2 HQ. unfold tolerate. apply wp_bind, wp_attempt. rewrite <-Hn in H1, H2.
  eapply wp_mono; [| |by eapply wp_follow]; (intros ? n' [Hw Hns]; apply wp_ret, HQ; [congruence|done]).
Qed.
End wire.

(** A step of the wire, by evaluation. *)
Ltac wire :=
  unfold wire_step, port_step, end_step, veth_op; cbn [w_port w_end];
  repeat first
    [ rewrite Z.eqb_refl
    | match goal with H : ?a <> ?b |- context [?b =? ?a] => rewrite (proj2 (Z.eqb_neq b a) (not_eq_sym H)) end
    | rewrite bool_decide_eq_true_2 by done
    | rewrite bool_decide_eq_false_2 by done ];
  cbn; reflexivity.

Section attach.
Context (h : Host) (port : string) (k nic_ns zone_ns : Z) (n0 : Net).
Abbreviation o := (h_kernel h).
Hypothesis Hk : kernel_ok o.
Hypothesis Hne : nic_ns <> zone_ns.
Abbreviation follows := (follows port k nic_ns zone_ns n0).
Abbreviation lawful := (lawful port k nic_ns zone_ns n0).

Lemma lawful_of w n : follows w n -> lawful n.
Proof. by exists w. Qed.

Ltac turn := eapply wp_turn; [eassumption|eassumption|eassumption|wire|wire| |intros ? ? ?; by eapply lawful_of].

(** [with_netns] around a computation that follows the wire, or leaves it lawful. *)
Lemma wp_entered_log ns (f : NM unit) (P Q : Net -> Prop) n :
  (forall n n', n_log n' = n_log n -> P n -> P n') -> (forall n n', n_log n' = n_log n -> Q n -> Q n') ->
  (forall n, Q n -> P n) -> P n ->
  (forall n1, n_ns n1 = ns -> n_log n1 = n_log n -> wp f (fun _ => Q) (fun _ => P) n1) ->
  wp (with_netns o ns f) (fun _ => Q) (fun _ => P) n.
Proof.
  intros HP HQ HQP Hn H. apply wp_with_netns; [eauto|].
  intros n1 Hn1 E1. eapply wp_mono; [| |by apply H]; [intros [] n' Hq; split|]; eauto.
Qed.
Lemma wp_entered ns (f : NM unit) w w' n : follows w n ->
  (forall n1, n_ns n1 = ns -> follows w n1 -> wp f (fun _ => follows w') (fun _ => lawful) n1) ->
  wp (with_netns o ns f) (fun _ => follows w') (fun _ => lawful) n.
Proof.
  intros Hf H. apply wp_entered_log; eauto using lawful_same, follows_same, lawful_of.
Qed.

Lemma wp_attach_port w n : n_ns n = nic_ns -> follows w n ->
  wp (attach_port h port k zone_ns) (fun _ => follows (mkWire PortUp NoAddr)) (fun _ => lawful) n.
Proof.
  intros Hn Hf. unfold attach_port. apply wp_bind.
  eapply wp_mono; [| |by eapply (wp_follow_port port k nic_ns zone_ns h n0 Hk)]; [|done].
  intros [] n2 [Hw2 Hn2]. apply wp_bind. turn. intros n3 Hn3 Hw3. apply wp_bind. turn. intros n4 Hn4 Hw4. turn. done.
Qed.

Lemma wp_attach_end gid n : n_ns n = zone_ns -> follows (mkWire PortUp NoAddr) n ->
  wp (attach_end h k gid) (fun _ => follows (mkWire PortUp EndRouted)) (fun _ => lawful) n.
Proof.
  intros Hn Hf. unfold attach_end. apply wp_bind. turn. intros n2 Hn2 Hw2. apply wp_bind.
  eapply wp_tolerated; [eassumption|eassumption|eassumption|wire|wire|]. intros n3 Hn3 Hw3.
  apply wp_bind. turn. intros n4 Hn4 Hw4. apply wp_bind. turn. intros n5 Hn5 Hw5. apply wp_bind. turn. intros n6 Hn6 Hw6.
  destruct gid as [g|]; [|by apply wp_ret].
  eapply wp_tolerated; [eassumption|eassumption|eassumption|wire|wire|]. done.
Qed.

Lemma wp_attach_v4 w gid n : follows w n ->
  wp (attach_v4 h port k nic_ns zone_ns gid) (fun _ => follows (mkWire PortUp EndRouted)) (fun _ => lawful) n.
Proof.
  intros Hf. unfold attach_v4. apply wp_bind, wp_io.
  eapply wp_mono; [| |eapply wp_entered; [done|intros; by eapply wp_attach_port]]; [|done].
  intros [] n1 H1. apply wp_io. eapply wp_entered; [done|]. intros. by apply wp_attach_end.
Qed.

(** IPv6 changes nothing the wire counts. *)
Lemma wp_attach_v6 n : follows (mkWire PortUp EndRouted) n ->
  wp (tolerate (with_netns o zone_ns
       (request o (AddAddr6 "eth0" (zone_v6 k) 64);; request o (AddDefaultRoute6 BRIDGE_V6 "eth0"))))
    (fun _ => follows (mkWire PortUp EndRouted)) (fun _ _ => False) n.
Proof.
  intros Hf. unfold tolerate. apply wp_bind, wp_attempt.
  eapply (wp_mono _ (fun _ => follows (mkWire PortUp EndRouted)) _ (fun _ => follows (mkWire PortUp EndRouted))); [done|done|].
  apply wp_entered_log; eauto using follows_same. intros n1 Hn1 E1.
  pose proof (follows_same _ _ _ _ _ _ _ _ E1 Hf) as Hf1.
  apply wp_bind. eapply wp_turn; [eassumption|eassumption|eassumption|wire|wire| |done]. intros n2 Hn2 Hw2.
  eapply wp_turn; [eassumption|eassumption|eassumption|wire|wire| |done]. done.
Qed.

(** What a failed attachment leaves: the port's deletion was asked last, where the kernel let the
    thread into the nic zone. *)
Definition cleared (n : Net) : Prop :=
  exists l w b, n_log n = n_log n0 ++ l ++ [(nic_ns, DeleteLink port, b)] /\
    wire_run port k nic_ns zone_ns (mkWire Gone NoAddr) (l ++ [(nic_ns, DeleteLink port, b)]) = Some w /\
    (b = true -> w = mkWire Gone NoAddr).

Lemma cleared_after w l b n n' : follows w n -> logged n l n' -> l = [(nic_ns, DeleteLink port, b)] -> cleared n'.
Proof.
  intros (l0 & E & Hw) [_ Hl] ->. set (w' := if b then mkWire Gone NoAddr else w).
  exists l0, w', b. rewrite Hl, E, <-(assoc_L (++)). split; [done|]. split; [|by intros ->].
  rewrite wire_run_app, Hw. cbn. unfold wire_step, port_step. rewrite Z.eqb_refl, bool_decide_eq_false_2 by done.
  rewrite bool_decide_eq_true_2 by done. by destruct b.
Qed.

Lemma cleared_lawful n : cleared n -> lawful n.
Proof. intros (l & w & b & E & Hw & _). exists w. by eexists. Qed.

Lemma wp_clear n : lawful n ->
  wp (tolerate (with_netns o nic_ns (request o (DeleteLink port))))
    (fun _ n' => lawful n' /\ ((forall t, o_setns o t = None) -> cleared n')) (fun _ _ => False) n.
Proof.
  intros [w Hf]. unfold tolerate. apply wp_bind, wp_attempt.
  set (P := fun n' => lawful n' /\ ((forall t, o_setns o t = None) -> cleared n')).
  assert (forall n n', n_log n' = n_log n -> cleared n -> P n') as HP.
  { intros n1 n2 E Hc. assert (cleared n2) as Hc2 by (unfold cleared; by rewrite E). split; [by apply cleared_lawful|done]. }
  eapply (wp_mono _ (fun _ => P) _ (fun _ => P)); [done|done|]. apply wp_with_netns.
  { intros e n' E Hno. split; [|done]. exists w. by eapply follows_same. }
  intros n1 Hn1 E1. assert (follows w n1) as Hf1 by (by eapply follows_same).
  eapply wp_mono; [| |by apply wp_request]; rewrite Hn1; intros ? n2 H2;
    pose proof (cleared_after _ _ _ _ _ Hf1 H2 eq_refl) as Hc; [split|]; eauto.
Qed.
End attach.


(** ** Addresses *)
Lemma host_number_spec z n k : zone_wf z -> host_number z n = (Done (Some k), n) ->
  exists b, z_uid_base z = Some b /\ k = (b - IDENTITY_MIN) / IDENTITY_STRIDE + 2 /\ 2 <= k < 250.
Proof.
  intros Hz H. assert (wp (host_number z) (fun r _ => forall k, r = Some k ->
    exists b, z_uid_base z = Some b /\ k = (b - IDENTITY_MIN) / IDENTITY_STRIDE + 2 /\ 2 <= k < 250) (fun _ _ => False) n) as Hw.
  { unfold host_number. destruct (z_uid_base z) as [b|] eqn:E; [|by apply wp_ret].
    destruct (wf_uid z Hz b E) as (Hb & _ & _). pose proof (Z.div_pos (b - IDENTITY_MIN) IDENTITY_STRIDE).
    apply wp_bind. unfold usize_sub. rewrite (proj2 (Z.leb_le _ _)) by lia. apply wp_ret, wp_ret. intros k0 Hk0.
    exists b. destruct (Z.leb_spec 250 ((b - IDENTITY_MIN) / IDENTITY_STRIDE + 2)); [done|]. injection Hk0 as <-.
    unfold IDENTITY_STRIDE in *. split_and!; [done|done|lia|lia]. }
  unfold wp in Hw. rewrite H in Hw. by apply Hw.
Qed.

Lemma existsb_none {A} (f : A -> bool) l : (forall x, x ∈ l -> f x = false) -> existsb f l = false.
Proof.
  induction l as [|x l IH]; intros H; [done|]. cbn. rewrite H by left. apply IH. intros y Hy. apply H. by right.
Qed.

Lemma byte_of_Z_inj a b : 0 <= a < 256 -> 0 <= b < 256 -> byte_of_Z a = byte_of_Z b -> a = b.
Proof. intros Ha Hb H. apply (f_equal Z_of_byte) in H. rewrite !Z_of_byte_of_Z, !Z.mod_small in H by lia. done. Qed.

(** The host number is in the last byte of every address. *)
Lemma addresses_inj a b : 0 <= a < 256 -> 0 <= b < 256 ->
  zone_v4 a = zone_v4 b \/ zone_v6 a = zone_v6 b \/ zone_mac a = zone_mac b -> a = b.
Proof.
  intros Ha Hb H. apply byte_of_Z_inj; [done|done|]. destruct H as [H|[H|H]]; apply (f_equal last) in H.
  - by injection H.
  - change (Some (byte_of_Z a) = Some (byte_of_Z b)) in H. by injection H.
  - by injection H.
Qed.

Lemma chars_port s : chars ("kv-" +:+ s) = match utf8 (as_bytes s) with Some cs => 107 :: 118 :: 45 :: cs | None => [] end.
Proof.
  unfold chars. change (as_bytes ("kv-" +:+ s)) with (encode_chars [107; 118; 45] ++ as_bytes s).
  rewrite utf8_app_chars by done. by destruct (utf8 (as_bytes s)).
Qed.

Lemma port_name_ok z : zone_wf z -> check_name (port_name (z_name z)) = true.
Proof.
  intros Hz. destruct (wf_name z Hz) as (Hne & Hc & Hl). unfold check_name, port_name.
  change (str_len ("kv-" +:+ z_name z)) with (zlen ([x6b; x76; x2d] ++ as_bytes (z_name z))). rewrite zlen_app.
  change (zlen [x6b; x76; x2d]) with 3. unfold str_len in Hl. rewrite (proj2 (Z.ltb_ge 15 _)) by lia.
  assert (forall f, (forall c, name_char c = true -> f c = false) -> existsb f (chars ("kv-" +:+ z_name z)) = false) as Hn.
  { intros f Hf. rewrite chars_port. unfold chars in Hc. destruct (utf8 (as_bytes (z_name z))) as [cs|]; [|done]. cbn in Hc.
    apply existsb_none. intros c Hin. apply Hf. rewrite forallb_Forall, Forall_forall in Hc.
    rewrite !elem_of_cons in Hin. destruct Hin as [->|[->|[->|Hin]]]; [done..|by apply Hc]. }
  rewrite !Hn; [done|..]; unfold name_char, is_lower, is_digit, is_whitespace, between; intros c Hx; lia.
Qed.

(** Two zones loaded together that are both given host numbers have different
    IPv4, IPv6 and MAC addresses, none of them the bridge's, and ports of different names, each a
    name the kernel takes for an interface. *)
Theorem addresses_apart dir entries zs i j a b ka kb n :
  load_all dir entries = Ok zs -> zs !! i = Some a -> zs !! j = Some b -> i <> j ->
  host_number a n = (Done (Some ka), n) -> host_number b n = (Done (Some kb), n) ->
  2 <= ka < 250 /\ zone_v4 ka <> zone_v4 kb /\ zone_v6 ka <> zone_v6 kb /\ zone_mac ka <> zone_mac kb /\
  zone_v4 ka <> BRIDGE_V4 /\ zone_v6 ka <> BRIDGE_V6 /\
  port_name (z_name a) <> port_name (z_name b) /\ check_name (port_name (z_name a)) = true.
Proof.
  intros (es & files & _ & _ & _ & _ & Hwf & Hset)%load_all_Ok Ha Hb Hij Hka Hkb.
  assert (a ∈ zs /\ b ∈ zs) as [Ha' Hb'] by (split; by eapply list_elem_of_lookup_2). rewrite Forall_forall in Hwf.
  destruct (host_number_spec a n ka (Hwf a Ha') Hka) as (x & Ex & -> & Hra).
  destruct (host_number_spec b n kb (Hwf b Hb') Hkb) as (y & Ey & -> & Hrb).
  destruct (wf_uid a (Hwf a Ha') x Ex) as (Hx & [qx ->] & _). destruct (wf_uid b (Hwf b Hb') y Ey) as (Hy & [qy ->] & _).
  assert (qx * IDENTITY_STRIDE <> qy * IDENTITY_STRIDE) as Hne by (by eapply (omap_NoDup_ne z_uid_base zs i j); [apply Hset|..]).
  set (ka := (qx * IDENTITY_STRIDE - IDENTITY_MIN) / IDENTITY_STRIDE + 2) in *.
  set (kb := (qy * IDENTITY_STRIDE - IDENTITY_MIN) / IDENTITY_STRIDE + 2) in *.
  assert (ka = qx /\ kb = qy) as [Ea Eb].
  { subst ka kb. change IDENTITY_MIN with (2 * IDENTITY_STRIDE). rewrite <-!Z.mul_sub_distr_r, !Z.div_mul by done. lia. }
  assert (ka <> kb) as Hk by (intros E; apply Hne; congruence).
  assert (forall c, c <> ka -> 0 <= c < 256 -> zone_v4 ka <> zone_v4 c /\ zone_v6 ka <> zone_v6 c /\ zone_mac ka <> zone_mac c) as Hap.
  { intros c Hc Hr. split_and!; intros E; apply Hc; symmetry; apply addresses_inj; auto; lia. }
  destruct (Hap kb) as (H4 & H6 & Hm); [done|lia|]. destruct (Hap 1) as (B4 & B6 & _); [lia|lia|].
  split_and!; try done; [lia|lia| |by apply port_name_ok, Hwf].
  intros E. unfold port_name in E. assert (z_name a = z_name b) as E2 by (by injection E).
  apply Hij. eapply (NoDup_lookup (z_name <$> zs)); [apply Hset| |]; rewrite list_lookup_fmap; [by rewrite Ha|].
  rewrite Hb. cbn. by rewrite E2.
Qed.

(** Whatever the kernel, sysfs, the clock and the registry answer, plumbing the
    network zone, all the routed zones reattached with it, and plumbing a routed zone come to an
    end without a panic: no address underflows, no reply is read past its end, no request or wait
    is repeated for ever. *)
Theorem plumbing_total (h : Host) (text : string) (z : Zone) (zone_ns gid : Z) (n : Net) :
  kernel_ok (h_kernel h) -> from_str text = Ok z ->
  (plumb_nic_zone h z zone_ns n).1 <> Panic /\ (plumb_routed_zone h z zone_ns gid n).1 <> Panic.
Proof.
  intros Hk Hz%from_str_wf. pose proof (net_plumb_nic_zone h Hk z zone_ns n) as H1.
  pose proof (net_plumb_routed_zone h Hk z zone_ns gid Hz n) as H2. unfold wp in H1, H2.
  by destruct (plumb_nic_zone _ _ _ _) as [[] ?], (plumb_routed_zone _ _ _ _ _) as [[] ?].
Qed.

(** ** A kernel that grants everything *)
Definition ack : bytes := Eval vm_compute in
  bytes_of_u32 20 ++ bytes_of_u16 NLMSG_ERROR ++ bytes_of_u16 0 ++ bytes_of_u32 1 ++ bytes_of_u32 0 ++ bytes_of_u32 0.
Definition granting (setns : nat -> option Z) : Oracle :=
  mkOracle (fun _ _ _ => 3) (fun _ => None) (fun _ => ([Reads 20 ack], 0)) setns (fun _ _ _ => None) (fun _ _ _ => Ok "nic0").
Definition a_host (k : Oracle) : Host :=
  mkHost k (fun _ => Ok []) (fun _ => []) (fun _ _ _ => None) (fun _ _ => Ok None) (fun _ _ => false) (fun _ _ => [])
    (fun _ => None) (fun _ _ => None) (fun _ _ => None) (fun _ _ => Err 0) (fun _ => Ok []) (fun _ => Ok [])
    (fun _ => 0) (fun _ => true) [] (fun _ => inr "no such file") (fun _ _ => NotRunning) (fun _ _ => Err 2) (fun _ _ => true).

Lemma int_min_check b :
  forallb (fun i => negb (bool_decide (u32_at b i = Some 2147483648))) (seqZ 0 (zlen b)) = true -> ~ int_min b.
Proof.
  intros H [i Hi]. assert (0 <= i < zlen b) as Hr.
  { unfold u32_at, u16_at, byte_at in Hi. destruct (zlookup b i) eqn:E; [|done]. by apply zlookup_bound in E. }
  rewrite forallb_Forall, Forall_forall in H. specialize (H i). rewrite elem_of_seqZ in H. specialize (H ltac:(lia)).
  by rewrite bool_decide_eq_true_2 in H.
Qed.
Lemma granting_ok setns : kernel_ok (granting setns).
Proof. intros t. constructor; [|constructor]. apply int_min_check. by vm_compute. Qed.

Definition start : Net := mkNet 1 0 [].
Definition good_host : Host := a_host (granting (fun _ => None)).

Example plumbing_total_witness :
  (plumb_nic_zone good_host (ZoneClaims.zone_of net_toml) 7 start).1 <> Panic /\
  (plumb_routed_zone good_host (ZoneClaims.zone_of net_toml) 7 65536 start).1 <> Panic.
Proof.
  apply (plumbing_total good_host net_toml (ZoneClaims.zone_of net_toml) 7 65536 start); [apply granting_ok|vm_compute; reflexivity].
Defined.

Example addresses_apart_witness :
  let a := ZoneClaims.zone_of net_toml in let b := ZoneClaims.zone_of work_toml in
  2 <= 3 < 250 /\ zone_v4 3 <> zone_v4 7 /\ zone_v6 3 <> zone_v6 7 /\ zone_mac 3 <> zone_mac 7 /\
  zone_v4 3 <> BRIDGE_V4 /\ zone_v6 3 <> BRIDGE_V6 /\
  port_name (z_name a) <> port_name (z_name b) /\ check_name (port_name (z_name a)) = true.
Proof.
  apply (addresses_apart "/etc/kryptik/zones" (inl demo_dir) demo_zones 0 1 _ _ 3 7 start);
    [vm_compute; reflexivity..|discriminate|vm_compute; reflexivity|vm_compute; reflexivity].
Defined.

(** The end of a zone whose IPv6 could not be configured because the thread could not come back
    from the zone's namespace: the failure is put up with like any other of IPv6's, the attachment
    succeeds, and the thread goes on in the zone's namespace. *)
Example stranded : let h := a_host (granting (fun t => if (t =? 39)%nat then Some 1 else None)) in
  let '(r, n') := attach_routed h "work" 3 7 9 None start in r = Done tt /\ n_ns n' = 9 /\ n_ns start = 1.
Proof. vm_compute. done. Qed.
