(* ===== verification/Landlock.v ===== *)
(** * Landlock: src/compartments/kryptikd/src/landlock.rs

    The rights, the rules of a zone and of its policy file, and the system calls that put them
    on. [Task] is the kernel's side: no_new_privs and the layers a task is under. What a layer
    lets a task do is [permits], as landlock(7) gives it. The rule sets of the Wayland proxy and of
    wpa_supplicant (proxy.rs, supplicant.rs) are here too. *)
From S2P Require Import Prelude Bytes Text.
Open Scope string_scope.
Open Scope list_scope.
Open Scope Z_scope.

Module Landlock.

Definition FS_EXECUTE : Z := Z.shiftl 1 0.
Definition FS_WRITE_FILE : Z := Z.shiftl 1 1.
Definition FS_READ_FILE : Z := Z.shiftl 1 2.
Definition FS_READ_DIR : Z := Z.shiftl 1 3.
Definition FS_REMOVE_DIR : Z := Z.shiftl 1 4.
Definition FS_REMOVE_FILE : Z := Z.shiftl 1 5.
Definition FS_MAKE_CHAR : Z := Z.shiftl 1 6.
Definition FS_MAKE_DIR : Z := Z.shiftl 1 7.
Definition FS_MAKE_REG : Z := Z.shiftl 1 8.
Definition FS_MAKE_SOCK : Z := Z.shiftl 1 9.
Definition FS_MAKE_FIFO : Z := Z.shiftl 1 10.
Definition FS_MAKE_BLOCK : Z := Z.shiftl 1 11.
Definition FS_MAKE_SYM : Z := Z.shiftl 1 12.
Definition FS_REFER : Z := Z.shiftl 1 13.
Definition FS_TRUNCATE : Z := Z.shiftl 1 14.
Definition FS_IOCTL_DEV : Z := Z.shiftl 1 15.
Definition MIN_ABI : Z := 3.

Definition either (l : list Z) : Z := fold_left Z.lor l 0.
Definition ACCESS_READ : Z := Z.lor FS_READ_FILE FS_READ_DIR.
Definition ACCESS_WRITE : Z :=
  either [FS_WRITE_FILE; FS_REMOVE_DIR; FS_REMOVE_FILE; FS_MAKE_DIR; FS_MAKE_REG; FS_MAKE_SYM;
          FS_MAKE_SOCK; FS_MAKE_FIFO; FS_REFER; FS_TRUNCATE].
Definition ACCESS_WRITE_FILE : Z := Z.lor FS_WRITE_FILE FS_TRUNCATE.
Definition ACCESS_EXEC : Z := FS_EXECUTE.
Definition ACCESS_READ_FILE : Z := FS_READ_FILE.
Definition ACCESS_IOCTL_DEV : Z := FS_IOCTL_DEV.

(** The call that failed, and its errno. *)
Inductive LandlockError :=
| Unsupported
| TooOld (abi need : Z)
| Syscall (call : string) (errno : Z)
| BadPath (path : list Z) (errno : Z)
| Symlink (path : list Z).

(** ** The kernel

    A path is its characters; the place it names is its components, since a rule's path goes
    through no symbolic link. A layer denies every right it handles but those a rule grants on the
    place or above it; a task under several layers has what all of them grant. *)
Definition place (path : list Z) : list (list Z) :=
  List.filter (fun c => negb (bool_decide (c = [])) && negb (bool_decide (c = [46]))) (split 47 path).
Record Layer := mkLayer { ly_handled : Z; ly_rules : list (list Z * Z) }.
Record Task := mkTask { t_nnp : bool; t_layers : list Layer; t_calls : nat }.

Definition beneath (rule : list Z) (p : list (list Z)) : bool := bool_decide (place rule `prefix_of` p).
Definition grants (rules : list (list Z * Z)) (p : list (list Z)) (right : Z) : bool :=
  existsb (fun r => beneath r.1 p && Z.testbit r.2 right) rules.
Definition layer_permits (p : list (list Z)) (right : Z) (ly : Layer) : bool :=
  negb (Z.testbit (ly_handled ly) right) || grants (ly_rules ly) p right.
Definition permits (t : Task) (p : list (list Z)) (right : Z) : bool :=
  forallb (layer_permits p right) (t_layers t).

(** What the system calls answer: the ABI version, an errno or none for each call. *)
Record Os := mkOs {
  os_abi : nat -> Z;
  os_create : nat -> Z -> Z -> option Z;
  os_open : nat -> list Z -> option Z;
  os_add : nat -> list Z -> Z -> option Z;
  os_nnp : nat -> option Z;
  os_restrict : nat -> option Z;
  os_is_dir : nat -> list Z -> bool
}.
Definition ELOOP : Z := 40.
Definition EINVAL : Z := 22.

Abbreviation LM := (M Task LandlockError).
Definition call {A} (f : nat -> A) : LM A := fun t => (Done (f (t_calls t)), mkTask (t_nnp t) (t_layers t) (S (t_calls t))).
Definition set_nnp (t : Task) : Task := mkTask true (t_layers t) (t_calls t).
Definition add_layer (ly : Layer) (t : Task) : Task := mkTask (t_nnp t) (ly :: t_layers t) (t_calls t).
Definition checked (name : string) (errno : option Z) : LM unit :=
  match errno with Some e => fail (Syscall name e) | None => mret tt end.

Definition access_mask_for (abi : Z) : Z :=
  let mask := either [FS_EXECUTE; FS_WRITE_FILE; FS_READ_FILE; FS_READ_DIR; FS_REMOVE_DIR; FS_REMOVE_FILE;
    FS_MAKE_CHAR; FS_MAKE_DIR; FS_MAKE_REG; FS_MAKE_SOCK; FS_MAKE_FIFO; FS_MAKE_BLOCK; FS_MAKE_SYM;
    FS_REFER; FS_TRUNCATE] in
  if 5 <=? abi then Z.lor mask FS_IOCTL_DEV else mask.

(** The rule set behind [fd], and the ABI it was made with. *)
Record Ruleset := mkRuleset { rs_layer : Layer; rs_abi : Z }.

Section calls.
Context (os : Os).

Definition abi_version : LM (option Z) :=
  ret ← call (os_abi os);
  mret (if ret <? 0 then None else Some ret).

Definition new_ruleset : LM Ruleset :=
  version ← abi_version;
  abi ← require version Unsupported;
  reject_if (abi <? MIN_ABI) (TooOld abi MIN_ABI);;
  let handled := access_mask_for abi in
  let size := if 4 <=? abi then 16 else 8 in
  fd ← call (fun n => os_create os n handled size);
  checked "landlock_create_ruleset" fd;;
  mret (mkRuleset (mkLayer handled []) abi).

Definition open_exact (path : list Z) : LM unit :=
  if existsb (Z.eqb 0) path then fail (BadPath path EINVAL)
  else
    fd ← call (fun n => os_open os n path);
    match fd with
    | None => mret tt
    | Some errno => if errno =? ELOOP then fail (Symlink path) else fail (BadPath path errno)
    end.

Definition allow (rs : Ruleset) (path : list Z) (access : Z) : LM Ruleset :=
  open_exact path;;
  let allowed := Z.land access (access_mask_for (rs_abi rs)) in
  ret ← call (fun n => os_add os n path allowed);
  checked "landlock_add_rule" ret;;
  mret (mkRuleset (mkLayer (ly_handled (rs_layer rs)) (ly_rules (rs_layer rs) ++ [(path, allowed)])) (rs_abi rs)).

Definition restrict_self (rs : Ruleset) : LM unit :=
  nnp ← call (os_nnp os);
  checked "prctl(PR_SET_NO_NEW_PRIVS)" nnp;;
  modify set_nnp;;
  ret ← call (os_restrict os);
  checked "landlock_restrict_self" ret;;
  modify (add_layer (rs_layer rs)).
End calls.

(** ** The rules *)
Record ZoneRule := mkRule { zr_path : list Z; zr_access : Z; zr_required : bool }.

Definition FS_DIRECTIVES : list (string * Z) :=
  [("read", ACCESS_READ);
   ("read-exec", Z.lor ACCESS_READ ACCESS_EXEC);
   ("read-write", Z.lor ACCESS_READ ACCESS_WRITE);
   ("read-write-exec", either [ACCESS_READ; ACCESS_WRITE; ACCESS_EXEC])].

(** The errors of a policy file, with the line they are on. *)
Inductive PolicyError :=
| NoPath (line : Z) | TwoPaths (line : Z) | UnknownDirective (line : Z) (verb : list Z) | NotAbsolute (line : Z) (path : list Z)
| DotDot (line : Z) (path : list Z) | NamedTwice (line : Z) (path : list Z) | GrantsNothing.

Definition directive (verb : list Z) : option Z :=
  snd <$> List.find (fun d => bool_decide (chars d.1 = verb)) FS_DIRECTIVES.
Definition policy_line (out : list ZoneRule) (n : Z) (raw : list Z) : result (list ZoneRule) PolicyError :=
  let line := trim (before 35 raw) in
  if bool_decide (line = []) then Ok out
  else
    match words line with
    | verb :: path :: more =>
      if negb (bool_decide (more = [])) then Err (TwoPaths n)
      else
        match directive verb with
        | None => Err (UnknownDirective n verb)
        | Some access =>
          if negb (bool_decide (head path = Some 47)) then Err (NotAbsolute n path)
          else if existsb (fun c => bool_decide (c = [46; 46])) (split 47 path) then Err (DotDot n path)
          else if existsb (fun r => bool_decide (zr_path r = path)) out then Err (NamedTwice n path)
          else Ok (out ++ [mkRule path access true])
        end
    | _ => Err (NoPath n)
    end.
Fixpoint policy_lines (out : list ZoneRule) (n : Z) (ls : list (list Z)) : result (list ZoneRule) PolicyError :=
  match ls with
  | [] => Ok out
  | raw :: ls => (let? out := policy_line out n raw in policy_lines out (n + 1) ls)%result
  end.
Definition parse_policy (text : list Z) : result (list ZoneRule) PolicyError :=
  (let? out := policy_lines [] 1 (lines text) in
   if bool_decide (out = []) then Err GrantsNothing else Ok out)%result.

Definition zone_rules (home : list Z) : list ZoneRule :=
  [mkRule (chars "/") (Z.lor ACCESS_READ ACCESS_EXEC) true;
   mkRule home (either [ACCESS_READ; ACCESS_WRITE; ACCESS_EXEC]) true;
   mkRule (chars "/tmp") (either [ACCESS_READ; ACCESS_WRITE; ACCESS_EXEC]) true;
   mkRule (chars "/dev") (either [ACCESS_READ; ACCESS_WRITE_FILE; ACCESS_IOCTL_DEV]) true;
   mkRule (chars "/dev/shm") (Z.lor ACCESS_READ ACCESS_WRITE) false;
   mkRule (chars "/proc") (Z.lor ACCESS_READ ACCESS_WRITE_FILE) true].
Definition nic_zone_rules : list ZoneRule :=
  (fun p => mkRule (chars p) (Z.lor ACCESS_READ ACCESS_WRITE) true) <$> ["/run"; "/var/lib"].
Definition IN_ZONE : string := "/run/kryptik/camera".
Definition camera_rules : list ZoneRule :=
  [mkRule (chars IN_ZONE) (either [ACCESS_READ; ACCESS_WRITE_FILE; ACCESS_IOCTL_DEV]) true].

Definition describe_access (access : Z) : list string :=
  (if negb (Z.land access ACCESS_READ =? 0) then ["read"] else [])
  ++ (if Z.land access ACCESS_WRITE =? ACCESS_WRITE then ["write"]
      else if negb (Z.land access FS_WRITE_FILE =? 0) then ["write-existing-files"] else [])
  ++ (if negb (Z.land access ACCESS_EXEC =? 0) then ["exec"] else [])
  ++ (if negb (Z.land access ACCESS_IOCTL_DEV =? 0) then ["ioctl-dev"] else []).

(** ** Putting them on *)
Section confine.
Context (os : Os).

Fixpoint allow_all (rs : Ruleset) (rules : list ZoneRule) : LM Ruleset :=
  match rules with
  | [] => mret rs
  | r :: rules => rs ← allow os rs (zr_path r) (zr_access r); allow_all rs rules
  end.
Definition confine_further (rules : list ZoneRule) : LM unit :=
  rs ← new_ruleset os;
  rs ← allow_all rs rules;
  restrict_self os rs.

(** Every rule of the zone; one not required that fails is left out. *)
Fixpoint allow_zone (rs : Ruleset) (rules : list ZoneRule) : LM Ruleset :=
  match rules with
  | [] => mret rs
  | r :: rules =>
    res ← tried (allow os rs (zr_path r) (zr_access r));
    match res with
    | Ok rs => allow_zone rs rules
    | Err e => if negb (zr_required r) then allow_zone rs rules else fail e
    end
  end.
Definition pivoted_rules (home : list Z) (nic camera : bool) : list ZoneRule :=
  zone_rules home ++ (if nic then nic_zone_rules else []) ++ (if camera then camera_rules else []).
Definition confine_pivoted_zone (home : list Z) (nic camera : bool) : LM unit :=
  rs ← new_ruleset os;
  rs ← allow_zone rs (pivoted_rules home nic camera);
  restrict_self os rs.

(** Both layers, as the zone's first process puts them on. *)
Definition confine_fs (home : list Z) (nic camera : bool) (fs_rules : list ZoneRule) : LM unit :=
  confine_pivoted_zone home nic camera;;
  if bool_decide (fs_rules = []) then mret tt else confine_further fs_rules.

(** [confine-test]: a path of [extra_ro] that cannot be opened is left out. *)
Fixpoint allow_extra (rs : Ruleset) (extra : list (list Z)) : LM Ruleset :=
  match extra with
  | [] => mret rs
  | p :: extra =>
    res ← tried (allow os rs p (Z.lor ACCESS_READ ACCESS_EXEC));
    allow_extra (match res with Ok rs => rs | Err _ => rs end) extra
  end.
Definition confine_to_zone (rootfs : list Z) (extra_ro : list (list Z)) : LM unit :=
  rs ← new_ruleset os;
  rs ← allow os rs rootfs (either [ACCESS_READ; ACCESS_WRITE; ACCESS_EXEC]);
  rs ← allow_extra rs extra_ro;
  restrict_self os rs.

(** The system directories that are there, read and run. *)
Definition SYSTEM_PATHS : list string := ["/usr"; "/lib"; "/lib64"; "/bin"; "/sbin"].
Fixpoint allow_system (rs : Ruleset) (paths : list string) : LM Ruleset :=
  match paths with
  | [] => mret rs
  | p :: paths =>
    there ← call (fun n => os_is_dir os n (chars p));
    if (there : bool) then rs ← allow os rs (chars p) (Z.lor ACCESS_READ ACCESS_EXEC); allow_system rs paths
    else allow_system rs paths
  end.

Definition RUN_DIR : string := "/run/wpa_supplicant".
Definition supplicant_rules : list ZoneRule :=
  (fun r => mkRule (chars r.1) r.2 true) <$>
    [("/etc", ACCESS_READ); ("/proc", ACCESS_READ); ("/sys", ACCESS_READ);
     ("/dev", Z.lor ACCESS_READ ACCESS_WRITE_FILE); (RUN_DIR, Z.lor ACCESS_READ ACCESS_WRITE)].
Definition supplicant_ruleset : LM Ruleset :=
  rs ← new_ruleset os;
  rs ← allow_system rs SYSTEM_PATHS;
  allow_all rs supplicant_rules.

(** The proxy's: its own program and, for a developer's build, the system directories. *)
Definition confine_proxy_fs (exe : list Z) (uid : option Z) : LM unit :=
  rs ← new_ruleset os;
  rs ← allow os rs exe (Z.lor ACCESS_EXEC ACCESS_READ_FILE);
  rs ← match uid with None => allow_system rs SYSTEM_PATHS | Some _ => mret rs end;
  restrict_self os rs.
End confine.
End Landlock.
