(* ===== verification/LandlockClaims.v ===== *)
(** * Landlock: what a confined task may do, and the round trip of a policy file *)
From S2P Require Import Prelude Bytes Text Landlock.
Import Landlock.
Open Scope string_scope.
Open Scope list_scope.
Open Scope Z_scope.

(** ** Sets of rights *)
Lemma rights_apart a b i : Z.land a b = 0 -> Z.testbit a i = true -> Z.testbit b i = false.
Proof.
  intros H Ha. assert (Z.testbit (Z.land a b) i = false) as E by (rewrite H; apply Z.bits_0).
  rewrite Z.land_spec, Ha in E. done.
Qed.

Lemma rights_within a b i : Z.ldiff a b = 0 -> Z.testbit a i = true -> Z.testbit b i = true.
Proof.
  intros H Ha. assert (Z.testbit (Z.ldiff a b) i = false) as E by (rewrite H; apply Z.bits_0).
  rewrite Z.ldiff_spec, Ha in E. cbn in E. by destruct (Z.testbit b i).
Qed.

(** Every right but that of ABI 5 is handled on every kernel a rule set is made for. *)
Definition BASE_RIGHTS : Z := access_mask_for MIN_ABI.
Lemma mask_base abi i : Z.testbit BASE_RIGHTS i = true -> Z.testbit (access_mask_for abi) i = true.
Proof. unfold access_mask_for. destruct (5 <=? abi); apply rights_within; reflexivity. Qed.

(** ** What the calls do to a task *)
Definition same (t t' : Task) : Prop := t_nnp t' = t_nnp t /\ t_layers t' = t_layers t.
Lemma same_trans t t1 t2 : same t t1 -> same t1 t2 -> same t t2.
Proof. intros [? ?] [? ?]; split; congruence. Qed.
Lemma same_refl t : same t t.
Proof. by split. Qed.
#[local] Hint Resolve same_refl same_trans : core.

Section calls.
Context (os : Os).

Lemma wp_lcall {A} (f : nat -> A) (Q : A -> Task -> Prop) (R : LandlockError -> Task -> Prop) t :
  (forall a t', same t t' -> Q a t') -> wp (call f) Q R t.
Proof. intros H. apply H. by split. Qed.

Lemma wp_checked c e (Q : unit -> Task -> Prop) (R : LandlockError -> Task -> Prop) t :
  (e = None -> Q tt t) -> (forall x, R x t) -> wp (checked c e) Q R t.
Proof. intros HQ HR. unfold checked. destruct e; [by apply wp_fail|by apply wp_ret, HQ]. Qed.

(** [rs'] is [rs] with the rules [added], cut to the rights its ABI handles. *)
Definition adds (rs : Ruleset) (added : list ZoneRule) (rs' : Ruleset) : Prop :=
  rs_abi rs' = rs_abi rs /\ ly_handled (rs_layer rs') = ly_handled (rs_layer rs) /\
  ly_rules (rs_layer rs') = ly_rules (rs_layer rs) ++
    ((fun r => (zr_path r, Z.land (zr_access r) (access_mask_for (rs_abi rs)))) <$> added).

Lemma adds_nil rs : adds rs [] rs.
Proof. repeat split. by rewrite app_nil_r. Qed.
Lemma adds_app rs a rs1 b rs2 : adds rs a rs1 -> adds rs1 b rs2 -> adds rs (a ++ b) rs2.
Proof.
  intros (E1 & E2 & E3) (F1 & F2 & F3). repeat split; [congruence..|].
  rewrite F3, E3, E1, fmap_app. by rewrite <-(assoc_L (++)).
Qed.

(** A rule set of the running kernel. *)
Definition made (rs : Ruleset) : Prop :=
  MIN_ABI <= rs_abi rs /\ rs_layer rs = mkLayer (access_mask_for (rs_abi rs)) [].

Lemma wp_new_ruleset t : wp (new_ruleset os) (fun rs t' => made rs /\ same t t') (fun _ t' => same t t') t.
Proof.
  unfold new_ruleset, abi_version. apply wp_bind, wp_bind, wp_lcall. intros ret t1 H1. apply wp_ret.
  apply wp_bind, wp_require; [|done]. intros abi Ea. apply wp_bind, wp_reject_if; [done|]. intros Hm.
  apply wp_bind, wp_lcall. intros e t2 H2. apply wp_bind, wp_checked; [|eauto]. intros ->. apply wp_ret.
  split; [|eauto]. apply Z.ltb_ge in Hm. split; [exact Hm|reflexivity].
Qed.

Lemma wp_allow rs path access t : wp (allow os rs path access)
  (fun rs' t' => adds rs [mkRule path access true] rs' /\ same t t') (fun _ t' => same t t') t.
Proof.
  unfold allow, open_exact. apply wp_bind. destruct (existsb _ _); [by apply wp_fail|].
  apply wp_bind, wp_lcall. intros fd t1 H1. destruct fd as [e|].
  { destruct (e =? ELOOP); by apply wp_fail. }
  apply wp_ret, wp_bind, wp_lcall. intros ret t2 H2. apply wp_bind, wp_checked; [|eauto]. intros ->. apply wp_ret.
  split; [|eauto]. repeat split.
Qed.

Lemma wp_restrict rs t : wp (restrict_self os rs)
  (fun _ t' => t_nnp t' = true /\ t_layers t' = rs_layer rs :: t_layers t) (fun _ t' => t_layers t' = t_layers t) t.
Proof.
  unfold restrict_self. apply wp_bind, wp_lcall. intros nnp t1 [_ H1]. apply wp_bind, wp_checked; [|done]. intros ->.
  apply wp_bind, wp_modify, wp_bind, wp_lcall. intros ret t2 [Hn H2].
  apply wp_bind, wp_checked; [|intros _; by rewrite H2]. intros ->. apply wp_modify. cbn. rewrite Hn, H2. cbn. by rewrite H1.
Qed.

(** The rights of a rule whose path and required flag the kernel does not see. *)
Lemma adds_required rs r rs' : adds rs [mkRule (zr_path r) (zr_access r) true] rs' -> adds rs [r] rs'.
Proof. by destruct r. Qed.

Lemma wp_allow_all rs rules t : wp (allow_all os rs rules)
  (fun rs' t' => adds rs rules rs' /\ same t t') (fun _ t' => same t t') t.
Proof.
  revert rs t. induction rules as [|r rules IH]; intros rs t; cbn [allow_all]; [apply wp_ret; split; [apply adds_nil|done]|].
  apply wp_bind. eapply wp_mono; [| |apply wp_allow]; [|eauto]. intros rs1 t1 [H1 S1]. cbv beta.
  eapply wp_mono; [| |apply IH]; cbv beta; [|eauto]. intros rs2 t2 [H2 S2].
  split; [|eauto]. exact (adds_app _ [r] _ _ _ (adds_required _ _ _ H1) H2).
Qed.

Lemma wp_allow_zone rs rules t : wp (allow_zone os rs rules)
  (fun rs' t' => (exists kept, adds rs kept rs' /\ kept ⊆ rules /\ (forall r, r ∈ rules -> zr_required r = true -> r ∈ kept)) /\ same t t')
  (fun _ t' => same t t') t.
Proof.
  revert rs t. induction rules as [|r rules IH]; intros rs t; cbn [allow_zone].
  { apply wp_ret. split; [|done]. exists []. split; [apply adds_nil|]. split; [done|]. intros ? H. by apply elem_of_nil in H. }
  apply wp_bind, wp_tried. eapply wp_mono; [| |apply wp_allow].
  - intros rs1 t1 [H1 S1]. cbv beta iota. eapply wp_mono; [| |apply IH]; cbv beta; [|eauto].
    intros rs2 t2 [(kept & Hk & Hs & Hr) S2]. split; [|eauto]. exists (r :: kept).
    split; [exact (adds_app _ [r] _ _ _ (adds_required _ _ _ H1) Hk)|]. split; [set_solver|].
    intros r' Hr' Hq. apply elem_of_cons in Hr' as [->|Hr']; [left|right]. by apply Hr.
  - intros e t1 S1. cbv beta iota in *. destruct (zr_required r) eqn:Er; cbn [negb]; [by apply wp_fail|].
    eapply wp_mono; [| |apply IH]; cbv beta; [|eauto]. intros rs2 t2 [(kept & Hk & Hs & Hr) S2]. split; [|eauto].
    exists kept. split; [done|]. split; [set_solver|]. intros r' Hr' Hq. apply elem_of_cons in Hr' as [->|Hr']; [congruence|by apply Hr].
Qed.

(** ** What a layer lets through *)
Lemma adds_grants rs added rs' p i : made rs -> adds rs added rs' ->
  grants (ly_rules (rs_layer rs')) p i = true <->
  exists r, r ∈ added /\ beneath (zr_path r) p = true /\ Z.testbit (zr_access r) i = true /\ Z.testbit (access_mask_for (rs_abi rs)) i = true.
Proof.
  intros [_ Hl] (_ & _ & E). rewrite E, Hl. cbn [ly_rules]. rewrite app_nil_l. unfold grants. rewrite existsb_exists. split.
  - intros (x & Hx & Hb). apply list_elem_of_In, list_elem_of_fmap in Hx as (r & -> & Hr). cbn [fst snd] in Hb.
    rewrite Z.land_spec in Hb. exists r. by apply andb_true_iff in Hb as [? [? ?]%andb_true_iff].
  - intros (r & Hr & Hb & Ha & Hm). eexists. split; [apply list_elem_of_In, list_elem_of_fmap; by exists r|].
    cbn [fst snd]. by rewrite Z.land_spec, Hb, Ha, Hm.
Qed.

Lemma layer_permits_handled rs added rs' p i : made rs -> adds rs added rs' ->
  Z.testbit (access_mask_for (rs_abi rs)) i = true -> layer_permits p i (rs_layer rs') = true ->
  exists r, r ∈ added /\ beneath (zr_path r) p = true /\ Z.testbit (zr_access r) i = true.
Proof.
  intros Hm Ha Hi Hp. unfold layer_permits in Hp. pose proof Ha as (_ & Eh & _). pose proof Hm as [_ El].
  rewrite Eh, El in Hp. cbn [ly_handled] in Hp. rewrite Hi in Hp. cbn in Hp.
  apply (adds_grants rs added rs' p i Hm Ha) in Hp as (r & ? & ? & ? & _). eauto.
Qed.

Lemma layer_permits_rule rs added rs' p i r : made rs -> adds rs added rs' ->
  r ∈ added -> beneath (zr_path r) p = true -> Z.testbit (zr_access r) i = true -> layer_permits p i (rs_layer rs') = true.
Proof.
  intros Hm Ha Hr Hb Hi. unfold layer_permits. pose proof Ha as (_ & Eh & _). pose proof Hm as [_ El]. rewrite Eh, El. cbn [ly_handled].
  destruct (Z.testbit (access_mask_for (rs_abi rs)) i) eqn:E; [cbn|done].
  apply (adds_grants rs added rs' p i Hm Ha). exists r. auto.
Qed.
End calls.

Lemma permits_more t t' p i ly : t_layers t' = ly :: t_layers t -> permits t' p i = layer_permits p i ly && permits t p i.
Proof. unfold permits. by intros ->. Qed.
Lemma permits_same t t' p i : t_layers t' = t_layers t -> permits t' p i = permits t p i.
Proof. unfold permits. by intros ->. Qed.

(** A task confined from [t]: its new layer is made of [added]. *)
Definition confined_by (t t' : Task) (added : list ZoneRule) : Prop :=
  t_nnp t' = true /\ exists rs rs', made rs /\ adds rs added rs' /\ t_layers t' = rs_layer rs' :: t_layers t.

Section confined.
Context (os : Os).

Lemma wp_further rules t : wp (confine_further os rules) (fun _ t' => confined_by t t' rules) (fun _ t' => t_layers t' = t_layers t) t.
Proof.
  unfold confine_further. apply wp_bind. eapply wp_mono; [| |apply wp_new_ruleset]; [|by intros ? ? [_ ?]].
  intros rs t1 [Hm [_ H1]]. apply wp_bind. eapply wp_mono; [| |apply wp_allow_all]; cbv beta; [|intros ? ? [_ ?]; congruence].
  intros rs' t2 [Ha [_ H2]]. eapply wp_mono; [| |apply wp_restrict]; cbv beta; [|intros; congruence].
  intros _ t3 [Hn H3]. split; [done|]. exists rs, rs'. repeat (split; [done|]). congruence.
Qed.

Lemma wp_pivoted home nic camera t : wp (confine_pivoted_zone os home nic camera)
  (fun _ t' => exists kept, confined_by t t' kept /\ kept ⊆ pivoted_rules home nic camera /\
     (forall r, r ∈ pivoted_rules home nic camera -> zr_required r = true -> r ∈ kept))
  (fun _ t' => t_layers t' = t_layers t) t.
Proof.
  unfold confine_pivoted_zone. apply wp_bind. eapply wp_mono; [| |apply wp_new_ruleset]; [|by intros ? ? [_ ?]].
  intros rs t1 [Hm [_ H1]]. apply wp_bind. eapply wp_mono; [| |apply wp_allow_zone]; cbv beta; [|intros ? ? [_ ?]; congruence].
  intros rs' t2 [(kept & Ha & Hs & Hr) [_ H2]]. eapply wp_mono; [| |apply wp_restrict]; cbv beta; [|intros; congruence].
  intros _ t3 [Hn H3]. exists kept. split; [|done]. split; [done|]. exists rs, rs'. repeat (split; [done|]). congruence.
Qed.

(** What a new layer permits was permitted, and a rule grants it. *)
Lemma confined_narrows t t' added p i : confined_by t t' added -> permits t' p i = true -> permits t p i = true.
Proof. intros (_ & rs & rs' & _ & _ & E) H. rewrite (permits_more _ _ _ _ _ E) in H. by apply andb_true_iff in H as [_ ?]. Qed.
Lemma confined_granted t t' added p i : confined_by t t' added -> Z.testbit BASE_RIGHTS i = true -> permits t' p i = true ->
  exists r, r ∈ added /\ beneath (zr_path r) p = true /\ Z.testbit (zr_access r) i = true.
Proof.
  intros (_ & rs & rs' & Hm & Ha & E) Hi H. rewrite (permits_more _ _ _ _ _ E) in H. apply andb_true_iff in H as [H _].
  eapply layer_permits_handled; eauto. by apply mask_base.
Qed.
Lemma confined_keeps t t' added p i r : confined_by t t' added -> r ∈ added -> beneath (zr_path r) p = true ->
  Z.testbit (zr_access r) i = true -> permits t' p i = permits t p i.
Proof.
  intros (_ & rs & rs' & Hm & Ha & E) Hr Hb Hi. rewrite (permits_more _ _ _ _ _ E).
  by rewrite (layer_permits_rule rs added rs' p i r) by done.
Qed.
End confined.

(** ** The zone's places *)
Definition nic_places (nic : bool) : list (list Z) := if nic then [chars "/run"; chars "/var/lib"] else [].
(** Where files are made, renamed and removed. *)
Definition growing (home : list Z) (nic : bool) : list (list Z) := [home; chars "/tmp"; chars "/dev/shm"] ++ nic_places nic.
(** Where files are written. *)
Definition writable (home : list Z) (nic camera : bool) : list (list Z) :=
  [home; chars "/tmp"; chars "/dev"; chars "/dev/shm"; chars "/proc"] ++ nic_places nic ++ (if camera then [chars IN_ZONE] else []).
Definition MAKING : Z := Z.ldiff ACCESS_WRITE ACCESS_WRITE_FILE.
Definition DEVICES : Z := Z.lor FS_MAKE_CHAR FS_MAKE_BLOCK.

(** The rules that grant one of [rights] are at [places]. *)
Definition only_at (rights : Z) (places : list (list Z)) (r : ZoneRule) : Prop :=
  Z.land (zr_access r) rights = 0 \/ zr_path r ∈ places.
Ltac rule_by_rule :=
  repeat (apply Forall_cons; split; [first [left; reflexivity|right; cbn [zr_path]; set_solver]|]); apply Forall_nil; exact I.

Lemma pivoted_writes home nic camera : Forall (only_at ACCESS_WRITE (writable home nic camera)) (pivoted_rules home nic camera).
Proof. destruct nic, camera; rule_by_rule. Qed.
Lemma pivoted_makes home nic camera : Forall (only_at MAKING (growing home nic)) (pivoted_rules home nic camera).
Proof. destruct nic, camera; rule_by_rule. Qed.
Lemma pivoted_devices home nic camera : Forall (only_at DEVICES []) (pivoted_rules home nic camera).
Proof. destruct nic, camera; rule_by_rule. Qed.

Lemma confined_only t t' rules added rights places p i :
  confined_by t t' added -> added ⊆ rules -> Forall (only_at rights places) rules -> Z.ldiff rights BASE_RIGHTS = 0 ->
  Z.testbit rights i = true -> permits t' p i = true -> exists q, q ∈ places /\ beneath q p = true.
Proof.
  intros Hc Hs Hf Hb Hi Hp. destruct (confined_granted t t' added p i) as (r & Hr & Hq & Ha); [done|by eapply rights_within|done|].
  rewrite Forall_forall in Hf. destruct (Hf r) as [H|H]; [by apply Hs| |eauto].
  by rewrite (rights_apart _ _ _ H Ha) in Hi.
Qed.

(** A zone's root as its rules leave it. *)
Definition zone_confined_fs (home : list Z) (nic camera : bool) (t' : Task) : Prop :=
  t_nnp t' = true /\ forall p i, permits t' p i = true ->
    (Z.testbit ACCESS_WRITE i = true -> exists q, q ∈ writable home nic camera /\ beneath q p = true) /\
    (Z.testbit MAKING i = true -> exists q, q ∈ growing home nic /\ beneath q p = true) /\
    Z.testbit DEVICES i = false.

Lemma pivoted_confined home nic camera t t' kept : confined_by t t' kept -> kept ⊆ pivoted_rules home nic camera ->
  zone_confined_fs home nic camera t'.
Proof.
  intros Hc Hs. split; [apply Hc|]. intros p i Hp. split; [|split].
  - intros Hi. eapply confined_only; eauto using pivoted_writes.
  - intros Hi. eapply confined_only; eauto using pivoted_makes.
  - destruct (Z.testbit DEVICES i) eqn:Hi; [|done].
    destruct (confined_only t t' (pivoted_rules home nic camera) kept DEVICES [] p i) as (q & Hq & _); auto using pivoted_devices.
    by apply elem_of_nil in Hq.
Qed.

(** What both layers leave, whatever the kernel answers. *)
Lemma wp_confine_fs (os : Os) (home : list Z) (nic camera : bool) (policy : list ZoneRule) (t : Task) :
  wp (confine_fs os home nic camera policy)
    (fun _ t' => (forall p i, permits t' p i = true -> permits t p i = true) /\ zone_confined_fs home nic camera t' /\
      (policy <> [] -> forall p i, Z.testbit BASE_RIGHTS i = true -> permits t' p i = true ->
        exists r, r ∈ policy /\ beneath (zr_path r) p = true /\ Z.testbit (zr_access r) i = true) /\
      (policy = [] -> forall p i,
        Z.testbit (Z.lor ACCESS_READ ACCESS_EXEC) i = true \/ (Z.testbit ACCESS_WRITE i = true /\ beneath home p = true) ->
        permits t' p i = permits t p i))
    (fun _ t' => (forall p i, permits t' p i = true -> permits t p i = true) /\ (policy = [] -> t_layers t' = t_layers t)) t.
Proof.
  unfold confine_fs. apply wp_bind. eapply wp_mono; [| |apply wp_pivoted]; cbv beta.
  2: { intros e t1 H1. split; [|done]. intros p i. by rewrite (permits_same _ _ _ _ H1). }
  intros _ t1 (kept & Hc & Hs & Hr). pose proof (pivoted_confined _ _ _ _ _ _ Hc Hs) as Hz. case_bool_decide as Ep.
  - apply wp_ret. split; [intros p i; by eapply confined_narrows|]. split; [done|]. split; [done|]. intros _ p i [Hi|[Hi Hb]].
    + eapply (confined_keeps t t1 kept p i (mkRule (chars "/") (Z.lor ACCESS_READ ACCESS_EXEC) true)); [done| | |exact Hi].
      * apply Hr; [left|done].
      * unfold beneath. apply bool_decide_eq_true. apply prefix_nil.
    + eapply (confined_keeps t t1 kept p i (mkRule home (either [ACCESS_READ; ACCESS_WRITE; ACCESS_EXEC]) true)); [done| |exact Hb|].
      * apply Hr; [right; left|done].
      * eapply rights_within; [|exact Hi]. reflexivity.
  - eapply wp_mono; [| |apply wp_further]; cbv beta.
    + intros _ t2 Hc2. split; [intros p i Hp; eapply confined_narrows; [exact Hc|]; by eapply confined_narrows|].
      split; [|split; [|done]].
      * split; [apply Hc2|]. intros p i Hp. apply Hz. by eapply confined_narrows.
      * intros _ p i Hi Hp. by eapply confined_granted.
    + intros e t2 H2. split; [|done]. intros p i. rewrite (permits_same _ _ _ _ H2). by eapply confined_narrows.
Qed.

(** C16: whatever the kernel answers, a zone's two Landlock layers only take rights
    away; once both are on, no_new_privs is set, files are written only beneath the home, /tmp,
    /dev, /dev/shm and /proc (for the nic zone /run and /var/lib, for the camera its directory),
    made, renamed and removed only beneath the home, /tmp, /dev/shm and the nic zone's places, and
    device nodes are made nowhere; a policy file leaves only what it grants. Without one, every
    file can still be read and run and the home fully used as before. *)
Theorem zone_fs_confined (os : Os) (home : list Z) (nic camera : bool) (policy : list ZoneRule) (t : Task) :
  let '(r, t') := confine_fs os home nic camera policy t in
  (forall p i, permits t' p i = true -> permits t p i = true) /\
  match r with
  | Panic => False
  | Fail _ => policy = [] -> t_layers t' = t_layers t
  | Done _ =>
    zone_confined_fs home nic camera t' /\
    (policy <> [] -> forall p i, Z.testbit BASE_RIGHTS i = true -> permits t' p i = true ->
      exists r, r ∈ policy /\ beneath (zr_path r) p = true /\ Z.testbit (zr_access r) i = true) /\
    (policy = [] -> forall p i,
      Z.testbit (Z.lor ACCESS_READ ACCESS_EXEC) i = true \/ (Z.testbit ACCESS_WRITE i = true /\ beneath home p = true) ->
      permits t' p i = permits t p i)
  end.
Proof. pose proof (wp_confine_fs os home nic camera policy t) as H. unfold wp in H. by destruct (confine_fs _ _ _ _ _ _) as [[?|?|] ?]. Qed.

(** ** Policy files *)
Definition fs_path (p : list Z) : Prop :=
  head p = Some 47 /\ Forall (fun c => is_whitespace c = false /\ c <> 35) p /\ [46; 46] ∉ split 47 p.
(** What a policy file may grant. *)
Definition fs_policy (rules : list ZoneRule) : Prop :=
  rules <> [] /\ NoDup (zr_path <$> rules) /\
  Forall (fun r => fs_path (zr_path r) /\ zr_access r ∈ FS_DIRECTIVES.*2 /\ zr_required r = true) rules.

Definition verb_of (access : Z) : list Z :=
  default [] (chars ∘ fst <$> List.find (fun d => d.2 =? access) FS_DIRECTIVES).
Definition print_rule (r : ZoneRule) : list Z := verb_of (zr_access r) ++ 32 :: zr_path r.

Lemma verb_of_ok a : a ∈ FS_DIRECTIVES.*2 ->
  directive (verb_of a) = Some a /\ verb_of a <> [] /\ Forall (fun c => is_whitespace c = false /\ c <> 35) (verb_of a).
Proof.
  intros H. enough (Forall (fun a => directive (verb_of a) = Some a /\ verb_of a <> [] /\
    Forall (fun c => is_whitespace c = false /\ c <> 35) (verb_of a)) FS_DIRECTIVES.*2) as HF by (by rewrite Forall_forall in HF; apply HF).
  repeat (apply Forall_cons; split; [split; [vm_compute; reflexivity|split; [vm_compute; discriminate|]]; vm_compute verb_of; repeat constructor; done|]).
  apply Forall_nil. exact I.
Qed.

Lemma directive_in v a : directive v = Some a -> a ∈ FS_DIRECTIVES.*2.
Proof.
  unfold directive. destruct (List.find _ _) as [d|] eqn:E; intros [= <-].
  apply find_some in E as [E _]. apply list_elem_of_fmap. exists d. split; [done|by apply list_elem_of_In].
Qed.

Lemma plain_negb l : Forall (fun c => is_whitespace c = false /\ c <> 35) l -> forallb (fun c => negb (is_whitespace c)) l = true.
Proof. intros H. apply forallb_Forall. eapply Forall_impl; [exact H|]. cbv beta. by intros c [-> _]. Qed.

Section print.
Context (r : ZoneRule).
Hypothesis Hp : fs_path (zr_path r).
Hypothesis Ha : zr_access r ∈ FS_DIRECTIVES.*2.

Lemma print_rule_words : words (print_rule r) = [verb_of (zr_access r); zr_path r].
Proof.
  destruct (verb_of_ok _ Ha) as (_ & Hv & Hw). destruct Hp as (Hh & Hpw & _). unfold words, print_rule.
  rewrite words_from_space by (auto using plain_negb). rewrite words_from_word; [by rewrite !reverse_nil|by apply plain_negb|].
  right. by destruct (zr_path r).
Qed.

Lemma print_rule_line : trim (before 35 (print_rule r)) = print_rule r /\ plain_line (print_rule r) /\ print_rule r <> [].
Proof.
  destruct (verb_of_ok _ Ha) as (_ & Hv & Hw). destruct Hp as (Hh & Hpw & _). unfold print_rule.
  destruct (verb_of (zr_access r)) as [|c v] eqn:E; [done|]. destruct (zr_path r) as [|q qs _] eqn:Eq using rev_ind; [done|].
  apply Forall_app in Hpw as [Hqs Hq]. apply Forall_singleton in Hq as [Hq Hq35].
  assert (Forall (fun x => x <> 35 /\ x <> 10) ((c :: v) ++ 32 :: qs ++ [q])) as Hall.
  { apply Forall_app. split; [eapply Forall_impl; [exact Hw|]|constructor; [done|]; apply Forall_app; split; [eapply Forall_impl; [exact Hqs|]|]];
      cbv beta; [intros x [Hx ?]; split; [done|]; by intros ->..|]. apply Forall_singleton. split; [done|by intros ->]. }
  rewrite Forall_forall in Hall. split; [|split; [split|done]].
  - rewrite before_id by (intros H; by destruct (Hall _ H)). apply Forall_cons in Hw as [[Hc _] _].
    apply (trim_id c (v ++ 32 :: qs ++ [q]) ((c :: v) ++ 32 :: qs) q); [done|done|]. by rewrite <-(assoc_L (++)).
  - intros H. by destruct (Hall _ H).
  - rewrite app_comm_cons, (assoc_L (++)), last_snoc. intros [= ->]. done.
Qed.
End print.

Lemma policy_line_print out n r : fs_path (zr_path r) -> zr_access r ∈ FS_DIRECTIVES.*2 -> zr_required r = true ->
  zr_path r ∉ zr_path <$> out -> policy_line out n (print_rule r) = Ok (out ++ [r]).
Proof.
  intros Hp Ha Hq Hn. unfold policy_line. destruct (print_rule_line r Hp Ha) as (-> & _ & He).
  rewrite bool_decide_eq_false_2 by done. rewrite (print_rule_words r Hp Ha). cbn [negb bool_decide].
  rewrite bool_decide_eq_true_2 by done. cbn [negb]. destruct (verb_of_ok _ Ha) as (-> & _ & _). destruct Hp as (Hh & _ & Hd).
  rewrite bool_decide_eq_true_2 by done. cbn [negb].
  rewrite (existsb_fmap id), list_fmap_id, bool_decide_eq_false_2 by done. rewrite existsb_fmap, bool_decide_eq_false_2 by done.
  destruct r; cbn in *; by subst.
Qed.

Lemma policy_lines_print rules : forall out n, fs_policy (out ++ rules) \/ rules = [] ->
  policy_lines out n (print_rule <$> rules) = Ok (out ++ rules).
Proof.
  induction rules as [|r rules IH]; intros out n H; [cbn; by rewrite app_nil_r|]. rewrite fmap_cons. cbn [policy_lines]. destruct H as [(Hne & Hd & Hf)|]; [|done].
  pose proof Hf as Hf'. apply Forall_app in Hf' as [_ Hf']. apply Forall_cons in Hf' as [(Hp & Ha & Hq) _].
  rewrite fmap_app, fmap_cons in Hd. pose proof Hd as (_ & Hd' & _)%NoDup_app.
  rewrite policy_line_print; [|done..|]. 2: { intros Hin. eapply Hd'; [exact Hin|left]. }
  cbn [result_bind]. rewrite IH; [by rewrite <-(assoc_L (++))|]. left. rewrite <-(assoc_L (++)). cbn [app].
  split; [done|]. split; [by rewrite fmap_app, fmap_cons|done].
Qed.

Lemma policy_line_wf out n raw out' : policy_line out n raw = Ok out' -> out = [] \/ fs_policy out -> out' = [] \/ fs_policy out'.
Proof.
  unfold policy_line. case_bool_decide as E0; [by intros [= <-]|]. pose proof (words_plain (trim (before 35 raw))) as Hw.
  destruct (words _) as [|v [|p more]]; [done..|]. apply Forall_cons in Hw as [_ Hw]. apply Forall_cons in Hw as [(_ & Hpw & Hps) _].
  case_bool_decide as E1; cbn [negb]; [|done]. destruct (directive v) as [a|] eqn:Ed; [|done].
  case_bool_decide as E2; cbn [negb]; [|done]. rewrite (existsb_fmap id), list_fmap_id. case_bool_decide as E3; [done|].
  rewrite existsb_fmap. case_bool_decide as E4; [done|]. intros [= <-] Hout. right.
  assert (fs_path p) as Hp.
  { split; [done|]. split; [|done]. rewrite Forall_forall in Hpw. apply Forall_forall. intros c Hc. split; [by apply Hpw|].
    intros ->. by eapply before_notin, trim_subset, Hps. }
  assert (Forall (fun r => fs_path (zr_path r) /\ zr_access r ∈ FS_DIRECTIVES.*2 /\ zr_required r = true) out) as Hf
    by (destruct Hout as [->|Hout]; [constructor|apply Hout]).
  assert (NoDup (zr_path <$> out)) as Hd by (destruct Hout as [->|Hout]; [constructor|apply Hout]).
  split; [by destruct out|]. split; [rewrite fmap_app; by apply NoDup_snoc|]. apply Forall_app. split; [done|].
  apply Forall_singleton. split; [done|]. split; [by eapply directive_in|done].
Qed.

Lemma policy_lines_wf ls : forall out n out', policy_lines out n ls = Ok out' -> out = [] \/ fs_policy out -> out' = [] \/ fs_policy out'.
Proof.
  induction ls as [|raw ls IH]; intros out n out'; cbn; [by intros [= <-]|].
  intros (o1 & H1 & H2)%result_bind_Ok Hout. eapply IH; [exact H2|]. by eapply policy_line_wf.
Qed.

(** The policy files that parse are those of the rules a policy may have:
    absolute paths without [..], each once, each with the rights of a directive, and at least one;
    and any such rules, printed one per line, parse to themselves. *)
Theorem fs_policy_exact :
  (forall rules, fs_policy rules -> parse_policy (unlines (print_rule <$> rules)) = Ok rules) /\
  (forall text rules, parse_policy text = Ok rules -> fs_policy rules).
Proof.
  split.
  - intros rules H. unfold parse_policy. rewrite lines_unlines.
    + rewrite (policy_lines_print rules [] 1) by auto. cbn. rewrite bool_decide_eq_false_2; [done|apply H].
    + destruct H as (_ & _ & Hf). apply Forall_fmap. eapply Forall_impl; [exact Hf|]. cbv beta. intros r (Hp & Ha & _). by apply print_rule_line.
  - intros text rules H. unfold parse_policy in H. apply result_bind_Ok in H as (out & H & E). case_bool_decide as Eo; [done|]. simplify_eq.
    by destruct (policy_lines_wf _ [] 1 rules H) as [|]; [left|..].
Qed.

(** ** The proxy's and wpa_supplicant's rule sets *)
Definition system_rules : list ZoneRule := (fun p => mkRule (chars p) (Z.lor ACCESS_READ ACCESS_EXEC) true) <$> SYSTEM_PATHS.

Section services.
Context (os : Os).

Lemma wp_allow_system rs paths t : wp (allow_system os rs paths)
  (fun rs' t' => (exists kept, adds rs kept rs' /\ kept ⊆ (fun p => mkRule (chars p) (Z.lor ACCESS_READ ACCESS_EXEC) true) <$> paths) /\ same t t')
  (fun _ t' => same t t') t.
Proof.
  revert rs t. induction paths as [|p paths IH]; intros rs t; cbn [allow_system].
  { apply wp_ret. split; [|done]. exists []. split; [apply adds_nil|done]. }
  apply wp_bind, wp_lcall. intros there t1 S1. destruct there.
  - apply wp_bind. eapply wp_mono; [| |apply wp_allow]; cbv beta; [|eauto using same_trans]. intros rs1 t2 [H1 S2].
    eapply wp_mono; [| |apply IH]; cbv beta; [|eauto using same_trans]. intros rs2 t3 [(kept & Hk & Hs) S3]. split; [|eauto using same_trans].
    eexists. split; [exact (adds_app _ _ _ _ _ H1 Hk)|]. rewrite fmap_cons. set_solver.
  - eapply wp_mono; [| |apply IH]; cbv beta; [|eauto using same_trans]. intros rs2 t3 [(kept & Hk & Hs) S3]. split; [|eauto using same_trans].
    exists kept. split; [done|]. rewrite fmap_cons. set_solver.
Qed.

(** A rule set made of some of [rules], put on. *)
Lemma wp_put_on rs rs' added rules t t0 : made rs -> adds rs added rs' -> added ⊆ rules -> t_layers t = t_layers t0 ->
  wp (restrict_self os rs') (fun _ t' => exists kept, confined_by t0 t' kept /\ kept ⊆ rules) (fun _ _ => True) t.
Proof.
  intros Hm Ha Hs E. eapply wp_mono; [| |apply wp_restrict]; cbv beta; [|done]. intros _ t' [Hn H].
  exists added. split; [|done]. split; [done|]. exists rs, rs'. repeat (split; [done|]). congruence.
Qed.

Lemma wp_confine_proxy exe uid t : wp (confine_proxy_fs os exe uid)
  (fun _ t' => exists kept, confined_by t t' kept /\
    kept ⊆ mkRule exe (Z.lor ACCESS_EXEC ACCESS_READ_FILE) true :: match uid with None => system_rules | Some _ => [] end)
  (fun _ _ => True) t.
Proof.
  unfold confine_proxy_fs. apply wp_bind. eapply wp_mono; [| |apply wp_new_ruleset]; [|done]. intros rs t1 [Hm S1].
  apply wp_bind. eapply wp_mono; [| |apply wp_allow]; cbv beta; [|done]. intros rs1 t2 [H1 S2]. apply wp_bind. destruct uid as [u|].
  - apply wp_ret. eapply wp_put_on; [done|exact H1|done|]. destruct S1, S2; congruence.
  - eapply wp_mono; [| |apply wp_allow_system]; cbv beta; [|done]. intros rs2 t3 [(kept & H2 & Hs) S3].
    eapply wp_put_on; [done|exact (adds_app _ _ _ _ _ H1 H2)| |destruct S1, S2, S3; congruence]. unfold system_rules. set_solver.
Qed.

(** The supplicant's rules, as it puts them on itself. *)
Definition confine_supplicant_fs : M Task LandlockError unit := rs ← supplicant_ruleset os; restrict_self os rs.
Lemma wp_confine_supplicant t : wp confine_supplicant_fs
  (fun _ t' => exists kept, confined_by t t' kept /\ kept ⊆ system_rules ++ supplicant_rules) (fun _ _ => True) t.
Proof.
  unfold confine_supplicant_fs, supplicant_ruleset. apply wp_bind, wp_bind. eapply wp_mono; [| |apply wp_new_ruleset]; [|done]. intros rs t1 [Hm S1].
  apply wp_bind. eapply wp_mono; [| |apply wp_allow_system]; cbv beta; [|done]. intros rs1 t2 [(kept & H1 & Hs) S2].
  eapply wp_mono; [| |apply wp_allow_all]; cbv beta; [|done]. intros rs2 t3 [H2 S3].
  eapply wp_put_on; [done|exact (adds_app _ _ _ _ _ H1 H2)| |destruct S1, S2, S3; congruence].
  intros r. rewrite !elem_of_app. intros [Hr|Hr]; [left; by apply Hs|by right].
Qed.
End services.

(** Once its rules are on, the installed Wayland proxy has no file but its own
    program, to read and run, and no proxy writes anywhere; wpa_supplicant writes only beneath its
    run directory and to what is in /dev, and makes and removes files beneath the former alone. *)
Theorem services_confined (os : Os) (exe : list Z) (uid : option Z) (t : Task) :
  (let '(r, t') := confine_proxy_fs os exe uid t in
   r <> Panic /\ (r = Done tt -> t_nnp t' = true /\ forall p i, permits t' p i = true ->
     Z.testbit ACCESS_WRITE i = false /\
     (is_Some uid -> Z.testbit BASE_RIGHTS i = true -> beneath exe p = true /\ Z.testbit (Z.lor ACCESS_EXEC ACCESS_READ_FILE) i = true))) /\
  (let '(r, t') := confine_supplicant_fs os t in
   r <> Panic /\ (r = Done tt -> t_nnp t' = true /\ forall p i, permits t' p i = true ->
     (Z.testbit ACCESS_WRITE i = true -> exists q, q ∈ [chars "/dev"; chars RUN_DIR] /\ beneath q p = true) /\
     (Z.testbit MAKING i = true -> beneath (chars RUN_DIR) p = true))).
Proof.
  split.
  - pose proof (wp_confine_proxy os exe uid t) as H. unfold wp in H. destruct (confine_proxy_fs os exe uid t) as [[[]|e|] t']; [|done..].
    split; [done|]. intros _. destruct H as (kept & Hc & Hs). split; [apply Hc|]. intros p i Hp. split.
    + destruct (Z.testbit ACCESS_WRITE i) eqn:Hi; [|done].
      edestruct (confined_only t t' _ kept ACCESS_WRITE [] p i Hc Hs) as (q & Hq & _); [|done|done|done|by apply elem_of_nil in Hq].
      destruct uid; rule_by_rule.
    + intros [u ->] Hi. destruct (confined_granted _ _ _ _ _ Hc Hi Hp) as (r & Hr & Hb & Ha). apply Hs in Hr.
      apply list_elem_of_singleton in Hr as ->. done.
  - pose proof (wp_confine_supplicant os t) as H. unfold wp in H. destruct (confine_supplicant_fs os t) as [[[]|e|] t']; [|done..].
    split; [done|]. intros _. destruct H as (kept & Hc & Hs). split; [apply Hc|]. intros p i Hp. split; intros Hi.
    + eapply (confined_only t t' _ kept ACCESS_WRITE _ p i Hc Hs); [|done..]. rule_by_rule.
    + edestruct (confined_only t t' _ kept MAKING [chars RUN_DIR] p i Hc Hs) as (q & Hq%list_elem_of_singleton & Hb); [|done..|by subst]. rule_by_rule.
Qed.
