(* ===== verification/Registry.v ===== *)
(** * The running-zone registry: src/compartments/kryptikd/src/registry.rs

    Several kryptikd processes share one directory per zone. A process is a program of system
    calls ([Prog]), written as the code is; [exec] answers one call on the shared file system, and
    [step] lets any process make its next call, or die, at any time. *)
From stdpp Require Import gmap strings pretty.
From S2P Require Import Prelude Bytes Text.
Open Scope string_scope.
Open Scope list_scope.
Open Scope Z_scope.

Module Registry.

(** ** Stamps *)
Record PidStamp := mkStamp { pid : Z; start : Z }.
#[export] Instance PidStamp_eq_dec : EqDecision PidStamp.
Proof. solve_decision. Defined.

Inductive Errno := EExist | ENoent | EOther.
Inductive RegistryError :=
| AlreadyRunning (launcher : Z)
| Io (what : string) (e : Errno)
| Malformed (what : string)
| UnsafeBase (why : string).

(** The text after the last [)]. *)
Fixpoint after_last (c : Z) (cs : list Z) : option (list Z) :=
  match cs with
  | [] => None
  | x :: cs =>
    match after_last c cs with
    | Some r => Some r
    | None => if x =? c then Some cs else None
    end
  end.
Definition start_time (stat : option (list Z)) : option Z :=
  s ← stat;
  rest ← after_last 41 s;
  tok ← words rest !! 19%nat;
  parse_u64 tok.

(** [format!] of an unsigned integer, and of a signed one. *)
Definition show_num (v : Z) : list Z := octets (pretty v).
Definition show_int (v : Z) : list Z := if v <? 0 then 45 :: show_num (- v) else show_num v.
Definition encode (st : PidStamp) : list Z := show_int (pid st) ++ [32] ++ show_num (start st) ++ [10].
Definition decode (s : list Z) : result PidStamp RegistryError :=
  match (words s !! 0%nat) ≫= parse_i32, (words s !! 1%nat) ≫= parse_u64 with
  | Some p, Some t => Ok (mkStamp p t)
  | _, _ => Err (Malformed "expected <pid> <starttime>")
  end.

(** ** Paths

    The components of a [Path]: separators repeated or at the end and [.] after the first do not
    count. *)
Inductive Component := RootDir | CurDir | ParentDir | Normal (c : list Z).
#[export] Instance Component_eq_dec : EqDecision Component.
Proof. solve_decision. Defined.
Definition component (c : list Z) : list Component :=
  if bool_decide (c = []) || bool_decide (c = [46]) then []
  else if bool_decide (c = [46; 46]) then [ParentDir] else [Normal c].
Definition components (p : list Z) : list Component :=
  (if bool_decide (head p = Some 47) then [RootDir]
   else if bool_decide (head (split 47 p) = Some [46]) then [CurDir] else [])
  ++ mjoin (component <$> split 47 p).
Definition under (p root : list Z) : bool :=
  bool_decide (components root `prefix_of` components p)
  && negb (bool_decide (components p = components root))
  && negb (bool_decide (ParentDir ∈ components p)).

(** ** The base directory

    [base_for] asks for the metadata of [XDG_RUNTIME_DIR]; [Meta] is what [lstat] gives. *)
Inductive Kind := IsDir | IsLink | IsOther.
#[export] Instance Kind_eq_dec : EqDecision Kind.
Proof. solve_decision. Defined.
Record Meta := mkMeta { m_kind : Kind; m_uid : Z; m_mode : Z }.
Definition base_for (uid euid : Z) (xdg : option (list Z)) (metadata : list Z -> option Meta) : list Z :=
  let fallback := chars "/tmp/kryptik-" ++ show_num uid ++ chars "/zones" in
  if euid =? 0 then chars "/run/kryptik/zones"
  else
    match xdg with
    | None => fallback
    | Some x =>
      if bool_decide (x = []) then fallback
      else
        match metadata x with
        | Some md => if bool_decide (m_kind md = IsDir) && (m_uid md =? uid) then x ++ chars "/kryptik/zones" else fallback
        | None => fallback
        end
    end.

(** What a path is, if anything, and whether [mkdir] and [chmod] on it fail; a directory another
    process makes between the look and [mkdir] is [raced]. *)
Record Spot := mkSpot { s_lstat : result Meta Errno; s_mkdir : option Errno; s_raced : result Meta Errno; s_chmod : option Errno }.
(** The metadata of the directory used, after the checks. *)
Definition check_existing (me : Z) (s : Spot) (md : Meta) : result Meta RegistryError :=
  let mode := Z.land (m_mode md) 511 in
  if bool_decide (m_kind md = IsLink) then Err (UnsafeBase "it is a symlink")
  else if negb (bool_decide (m_kind md = IsDir)) then Err (UnsafeBase "it is not a directory")
  else if negb (m_uid md =? me) then Err (UnsafeBase "it is owned by another")
  else if negb (Z.land mode 18 =? 0) then Err (UnsafeBase "writable by others")
  else if negb (mode =? 448) then
    match s_chmod s with
    | Some e => Err (Io "chmod" e)
    | None => Ok (mkMeta IsDir (m_uid md) 448)
    end
  else Ok md.
Definition check_or_create (me : Z) (s : Spot) : result Meta RegistryError :=
  match s_lstat s with
  | Err ENoent =>
    match s_mkdir s with
    | None => Ok (mkMeta IsDir me 448)
    | Some EExist =>
      match s_raced s with Ok md => check_existing me s md | Err e => Err (Io "lstat" e) end
    | Some e => Err (Io "mkdir" e)
    end
  | Err e => Err (Io "lstat" e)
  | Ok md => check_existing me s md
  end.
(** The base and, unless it is [/] or nothing, its parent. *)
Definition ensure_base (me : Z) (parent : option Spot) (b : Spot) : result Meta RegistryError :=
  match parent with
  | Some p => (let? _ := check_or_create me p in check_or_create me b)%result
  | None => check_or_create me b
  end.

(** ** System calls

    On one zone's entry. A descriptor is a number of its own for every open; [Begin] and [End] mark
    the part of a launcher's life in which its zone runs. *)
Definition Fd := nat.
Definition Ino := nat.
Inductive Call : Type -> Type :=
| Mkdir : Call (result unit Errno)
| Chmod (mode : Z) : Call (result unit Errno)
| DirExists : Call bool
| OpenLock (create : bool) : Call (result (option Fd) Errno)
| FlockEx (fd : Fd) : Call bool
| FlockSh (fd : Fd) : Call bool
| SameInode (fd : Fd) : Call bool
| Unlock (fd : Fd) : Call unit
| Close (fd : Fd) : Call unit
| Read (name : string) : Call (option (list Z))
| ReadDir : Call (result (list (string * bool)) Errno)
| Remove (name : string) (is_dir : bool) : Call unit
| UnlinkLock : Call unit
| Rmdir : Call (result unit Errno)
| WriteField (name : string) (t : list Z) : Call (result unit Errno)
| Detach : Call unit
| CgIsDir (p : list Z) : Call bool
| CgKill (p : list Z) : Call unit
| CgRmdir (p : list Z) : Call bool
| Stat (p : Z) : Call (option (list Z))
| Time : Call Z
| Begin (fd : Fd) : Call unit
| End (fd : Fd) : Call unit.

Inductive Prog (A : Type) : Type :=
| Ret (a : A)
| Vis {X : Type} (c : Call X) (k : X -> Prog A).
Arguments Ret {A} a.
Arguments Vis {A X} c k.

Fixpoint prog_bind {A B} (f : A -> Prog B) (p : Prog A) : Prog B :=
  match p with
  | Ret a => f a
  | Vis c k => Vis c (fun x => prog_bind f (k x))
  end.
#[export] Instance Prog_ret : MRet Prog := @Ret.
#[export] Instance Prog_bind : MBind Prog := fun A B f p => prog_bind f p.
Definition call {X} (c : Call X) : Prog X := Vis c Ret.
(** [?] in a function that returns a [Result]. *)
Definition try_bind {A B E} (p : Prog (result A E)) (f : A -> Prog (result B E)) : Prog (result B E) :=
  r ← p; match r with Ok a => f a | Err e => mret (Err e) end.
Notation "x <-? p ; f" := (try_bind p (fun x => f)) (at level 20, p at level 100, f at level 200).
Definition as_io {A} (what : string) (r : result A Errno) : result A RegistryError :=
  match r with Ok a => Ok a | Err e => Err (Io what e) end.
#[export] Instance Prog_fmap : FMap Prog := fun A B f p => prog_bind (fun a => Ret (f a)) p.
Definition io {A} (what : string) (p : Prog (result A Errno)) : Prog (result A RegistryError) := as_io what <$> p.

(** ** The operations *)
Definition read_field (name : string) : Prog (option (list Z)) := s ← call (Read name); mret (option_map trim s).

Fixpoint remove_all (l : list (string * bool)) : Prog unit :=
  match l with
  | [] => mret tt
  | (name, is_dir) :: l =>
    if String.eqb name "lock" then remove_all l
    else _ ← call (Remove name is_dir); remove_all l
  end.
Definition sweep : Prog (result unit RegistryError) :=
  _ ← call Detach;
  rd ← call ReadDir;
  match rd with
  | Err ENoent => mret (Ok tt)
  | Err e => mret (Err (Io "readdir" e))
  | Ok l =>
    _ ← remove_all l;
    _ ← call UnlinkLock;
    r ← call Rmdir;
    match r with
    | Ok _ | Err ENoent => mret (Ok tt)
    | Err e => mret (Err (Io "rmdir" e))
    end
  end.

Definition open_lock (create : bool) : Prog (result (option Fd) RegistryError) := io "lock" (call (OpenLock create)).

Inductive Lock := Held (fd : Fd) | Busy | Gone.
Definition try_lock : Prog (result Lock RegistryError) :=
  fd <-? open_lock true;
  match fd with
  | None => mret (Ok Gone)
  | Some fd =>
    locked ← call (FlockEx fd);
    if locked : bool then
      same ← call (SameInode fd);
      if same : bool then mret (Ok (Held fd)) else _ ← call (Close fd); mret (Ok Gone)
    else _ ← call (Close fd); mret (Ok Busy)
  end.
Fixpoint lock_again (n : nat) (lock : Lock) : Prog (result Lock RegistryError) :=
  match n, lock with
  | S n, Busy => lock <-? try_lock; lock_again n lock
  | _, _ => mret (Ok lock)
  end.
Definition lock_owner : Prog (result Lock RegistryError) := lock <-? try_lock; lock_again 20 lock.

Definition held : Prog (result bool RegistryError) :=
  fd <-? open_lock false;
  match fd with
  | None => mret (Ok false)
  | Some fd =>
    rc ← call (FlockSh fd);
    _ ← call (Close fd);
    mret (Ok (negb rc))
  end.

Inductive State :=
| Absent
| Running (launcher init : option PidStamp) (cgroup : option (list Z)) (started : list Z)
| Stale (launcher : option PidStamp) (cgroup : option (list Z)).
Definition stamp_of (s : option (list Z)) : option PidStamp :=
  s ← s; match decode s with Ok st => Some st | Err _ => None end.
Definition state : Prog (result State RegistryError) :=
  there ← call DirExists;
  if there : bool then
    launcher ← read_field "launcher.pid";
    cgroup ← read_field "cgroup";
    h <-? held;
    if h : bool then
      init ← read_field "init.pid";
      started ← read_field "started";
      mret (Ok (Running (stamp_of launcher) (stamp_of init) cgroup (default [] started)))
    else mret (Ok (Stale (stamp_of launcher) cgroup))
  else mret (Ok Absent).

(** [cgroup::kryptik_root()]. *)
Definition KRYPTIK_ROOT : list Z := chars "/sys/fs/cgroup/kryptik".
Fixpoint rm_cgroup (n : nat) (p : list Z) : Prog unit :=
  match n with
  | O => mret tt
  | S n => gone ← call (CgRmdir p); if gone : bool then mret tt else rm_cgroup n p
  end.
Definition kill_cgroup (path : option (list Z)) : Prog unit :=
  match path with
  | None => mret tt
  | Some p =>
    if negb (under p KRYPTIK_ROOT) then mret tt
    else
      d ← call (CgIsDir p);
      if d : bool then _ ← call (CgKill p); rm_cgroup 100 p else mret tt
  end.
Definition reclaim_locked : Prog (result unit RegistryError) :=
  path ← read_field "cgroup";
  _ ← kill_cgroup path;
  sweep.
Definition reclaim : Prog (result unit RegistryError) :=
  there ← call DirExists;
  if there : bool then
    lock <-? lock_owner;
    match lock with
    | Held fd => r ← reclaim_locked; _ ← call (Close fd); mret r
    | Busy => mret (Err (AlreadyRunning (-1)))
    | Gone => mret (Ok tt)
    end
  else mret (Ok tt).

(** A [Handle] is its descriptor. *)
Definition write (name : string) (t : list Z) : Prog (result unit RegistryError) := io name (call (WriteField name t)).
Definition stamp_pid (p : Z) : Prog (option PidStamp) :=
  t ← call (Stat p); mret (mkStamp p <$> start_time t).
Definition set_launcher (p : Z) : Prog (result unit RegistryError) :=
  st ← stamp_pid p;
  match st with
  | Some st => write "launcher.pid" (encode st)
  | None => mret (Err (Malformed "launcher pid vanished before it could be recorded"))
  end.
Definition set_init (p : Z) : Prog (result unit RegistryError) :=
  st ← stamp_pid p;
  match st with
  | Some st => write "init.pid" (encode st)
  | None => mret (Ok tt)
  end.
Definition set_cgroup (path : list Z) : Prog (result unit RegistryError) := write "cgroup" (path ++ [10]).
Definition set_identity (uid gid : Z) : Prog (result unit RegistryError) :=
  write "identity" (show_num uid ++ [32] ++ show_num gid ++ [10]).
Definition drop_handle (fd : Fd) : Prog unit :=
  _ ← sweep;
  _ ← call (Unlock fd);
  call (Close fd).

(** A fresh directory made, its lock taken and its first field written; a failed write drops the
    handle. [None] starts over. *)
Definition take_entry : Prog (option (result Fd RegistryError)) :=
  m ← io "chmod" (call (Chmod 448));
  match m with
  | Err e => mret (Some (Err e))
  | Ok _ =>
    lock ← lock_owner;
    match lock with
    | Err e => mret (Some (Err e))
    | Ok (Held fd) =>
      secs ← call Time;
      w ← write "started" (64 :: show_int secs ++ [10]);
      match w with
      | Ok _ => mret (Some (Ok fd))
      | Err e => _ ← drop_handle fd; mret (Some (Err e))
      end
    | Ok Busy => mret (Some (Err (AlreadyRunning (-1))))
    | Ok Gone => mret None
    end
  end.
Fixpoint claim_loop (n : nat) (attempt : Z) : Prog (result Fd RegistryError) :=
  match n with
  | O => mret (Err (AlreadyRunning (-1)))
  | S n =>
    made ← call Mkdir;
    match made with
    | Ok _ =>
      r ← take_entry;
      match r with Some r => mret r | None => claim_loop n (attempt + 1) end
    | Err EExist =>
      st <-? state;
      match st with
      | Running None _ _ _ =>
        if attempt =? 0 then claim_loop n (attempt + 1) else mret (Err (AlreadyRunning (-1)))
      | Running (Some l) _ _ _ => mret (Err (AlreadyRunning (pid l)))
      | Stale _ _ | Absent =>
        if attempt =? 0 then _ <-? reclaim; claim_loop n (attempt + 1)
        else mret (Err (AlreadyRunning (-1)))
      end
    | Err e => mret (Err (Io "mkdir" e))
    end
  end.
Definition claim : Prog (result Fd RegistryError) := claim_loop 3 0.

(** ** The shared file system *)
Inductive Node := File (t : list Z) | Sub (full : bool).
Record Entry := mkEntry { e_mode : Z; e_lock : option Ino; e_nodes : gmap string Node }.
(** A lock held exclusively, or shared by the descriptors of a set. *)
Inductive Lk := Excl (fd : Fd) | Shared (fds : gset Fd).
Record FS := mkFS {
  fs_dir : option Entry;
  fs_files : gmap Fd (nat * Ino);
  fs_locks : gmap Ino Lk;
  fs_next : nat;
  fs_alive : gset Fd;
  fs_killed : list (list Z)
}.
Definition with_dir (d : option Entry) (fs : FS) : FS :=
  mkFS d (fs_files fs) (fs_locks fs) (fs_next fs) (fs_alive fs) (fs_killed fs).
Definition with_lock (i : Ino) (l : option Lk) (fs : FS) : FS :=
  mkFS (fs_dir fs) (fs_files fs) (partial_alter (fun _ => l) i (fs_locks fs)) (fs_next fs) (fs_alive fs) (fs_killed fs).
Definition with_alive (a : gset Fd) (fs : FS) : FS :=
  mkFS (fs_dir fs) (fs_files fs) (fs_locks fs) (fs_next fs) a (fs_killed fs).
Definition with_file (fd : Fd) (f : option (nat * Ino)) (fs : FS) : FS :=
  mkFS (fs_dir fs) (partial_alter (fun _ => f) fd (fs_files fs)) (fs_locks fs) (fs_next fs) (fs_alive fs) (fs_killed fs).
Definition with_kill (p : list Z) (fs : FS) : FS :=
  mkFS (fs_dir fs) (fs_files fs) (fs_locks fs) (fs_next fs) (fs_alive fs) (fs_killed fs ++ [p]).

Definition unlock (fd : Fd) (fs : FS) : FS :=
  match fs_files fs !! fd with
  | None => fs
  | Some (_, i) =>
    match fs_locks fs !! i with
    | Some (Excl fd') => if bool_decide (fd = fd') then with_lock i None fs else fs
    | Some (Shared fds) => with_lock i (if bool_decide (fds ∖ {[fd]} = ∅) then None else Some (Shared (fds ∖ {[fd]}))) fs
    | None => fs
    end
  end.
Definition close (fd : Fd) (fs : FS) : FS := with_file fd None (unlock fd fs).

(** A new open file description of process [me] on inode [i]. *)
Definition open_on (me : nat) (i : Ino) (fs : FS) : Fd * FS :=
  let fd := fs_next fs in
  (fd, mkFS (fs_dir fs) (<[fd := (me, i)]> (fs_files fs)) (fs_locks fs) (S fd) (fs_alive fs) (fs_killed fs)).
Definition fresh_ino (fs : FS) : Ino * FS :=
  (fs_next fs, mkFS (fs_dir fs) (fs_files fs) (fs_locks fs) (S (fs_next fs)) (fs_alive fs) (fs_killed fs)).

Definition is_sub (n : Node) : bool := match n with Sub _ => true | File _ => false end.
Definition listing (e : Entry) : list (string * bool) :=
  ((fun x => (x.1, is_sub x.2)) <$> map_to_list (e_nodes e)) ++ (if e_lock e then [("lock", false)] else []).
Definition remove_node (name : string) (is_dir : bool) (e : Entry) : Entry :=
  match e_nodes e !! name, is_dir with
  | Some (File _), false | Some (Sub false), true => mkEntry (e_mode e) (e_lock e) (delete name (e_nodes e))
  | _, _ => e
  end.

(** One call of process [me]. [luck] is what the kernel is free to choose: not 0 is a call that
    fails for no reason of the registry's, 2 and 3 after it truncated or wrote the file. *)
Definition exec {X} (stat : Z -> option (list Z)) (now : Z) (me luck : nat) (c : Call X) (fs : FS) : X * FS :=
  let ok := Nat.eqb luck 0 in
  match c in Call X return X * FS with
  | Mkdir =>
    if negb ok then (Err EOther, fs)
    else match fs_dir fs with Some _ => (Err EExist, fs) | None => (Ok tt, with_dir (Some (mkEntry 493 None ∅)) fs) end
  | Chmod m =>
    if negb ok then (Err EOther, fs)
    else match fs_dir fs with
         | Some e => (Ok tt, with_dir (Some (mkEntry m (e_lock e) (e_nodes e))) fs)
         | None => (Err ENoent, fs)
         end
  | DirExists => (ok && bool_decide (is_Some (fs_dir fs)), fs)
  | OpenLock create =>
    if negb ok then (Err EOther, fs)
    else match fs_dir fs with
         | None => (Ok None, fs)
         | Some e =>
           match e_lock e with
           | Some i => let '(fd, fs) := open_on me i fs in (Ok (Some fd), fs)
           | None =>
             if create then
               let '(i, fs) := fresh_ino fs in
               let '(fd, fs) := open_on me i (with_dir (Some (mkEntry (e_mode e) (Some i) (e_nodes e))) fs) in
               (Ok (Some fd), fs)
             else (Ok None, fs)
           end
         end
  | FlockEx fd =>
    match fs_files fs !! fd with
    | Some (_, i) =>
      match fs_locks fs !! i with
      | None => if ok then (true, with_lock i (Some (Excl fd)) fs) else (false, fs)
      | Some _ => (false, fs)
      end
    | None => (false, fs)
    end
  | FlockSh fd =>
    match fs_files fs !! fd with
    | Some (_, i) =>
      match fs_locks fs !! i with
      | None => if ok then (true, with_lock i (Some (Shared {[fd]})) fs) else (false, fs)
      | Some (Shared fds) => if ok then (true, with_lock i (Some (Shared ({[fd]} ∪ fds))) fs) else (false, fs)
      | Some (Excl _) => (false, fs)
      end
    | None => (false, fs)
    end
  | SameInode fd =>
    (ok && match fs_files fs !! fd, fs_dir fs with
           | Some (_, i), Some e => bool_decide (e_lock e = Some i)
           | _, _ => false
           end, fs)
  | Unlock fd => (tt, unlock fd fs)
  | Close fd => (tt, close fd fs)
  | Read name =>
    (if ok then match fs_dir fs ≫= (fun e => e_nodes e !! name) with Some (File t) => Some t | _ => None end else None, fs)
  | ReadDir =>
    if negb ok then (Err EOther, fs)
    else match fs_dir fs with Some e => (Ok (listing e), fs) | None => (Err ENoent, fs) end
  | Remove name d => (tt, if ok then with_dir (remove_node name d <$> fs_dir fs) fs else fs)
  | UnlinkLock => (tt, if ok then with_dir ((fun e => mkEntry (e_mode e) None (e_nodes e)) <$> fs_dir fs) fs else fs)
  | Rmdir =>
    match fs_dir fs with
    | None => (Err ENoent, fs)
    | Some e =>
      if ok && bool_decide (e_lock e = None) && bool_decide (e_nodes e = ∅) then (Ok tt, with_dir None fs) else (Err EOther, fs)
    end
  | WriteField name t =>
    match fs_dir fs with
    | None => (Err ENoent, fs)
    | Some e =>
      match e_nodes e !! name with
      | Some (Sub _) => (Err EOther, fs)
      | _ =>
        let put t := with_dir (Some (mkEntry (e_mode e) (e_lock e) (<[name := File t]> (e_nodes e)))) fs in
        match luck with
        | 0%nat => (Ok tt, put t)
        | 2%nat => (Err EOther, put [])
        | 3%nat => (Err EOther, put t)
        | _ => (Err EOther, fs)
        end
      end
    end
  | Detach => (tt, fs)
  | CgIsDir _ => (ok, fs)
  | CgKill p => (tt, with_kill p fs)
  | CgRmdir _ => (ok, fs)
  | Stat p => (stat p, fs)
  | Time => (now, fs)
  | Begin fd => (tt, with_alive ({[fd]} ∪ fs_alive fs) fs)
  | End fd => (tt, with_alive (fs_alive fs ∖ {[fd]}) fs)
  end.

(** ** Processes

    What a process does with the registry: read a zone's state, reclaim a stale entry, or claim
    the name, record what it has to, run the zone and drop the handle. *)
Inductive Rec := SetLauncher (p : Z) | SetInit (p : Z) | SetCgroup (path : list Z) | SetIdentity (uid gid : Z).
Inductive Task := Look | Reclaim | Launch (records : list Rec).
Definition set_record (r : Rec) : Prog (result unit RegistryError) :=
  match r with
  | SetLauncher p => set_launcher p
  | SetInit p => set_init p
  | SetCgroup path => set_cgroup path
  | SetIdentity uid gid => set_identity uid gid
  end.
Fixpoint record_all (l : list Rec) : Prog (result unit RegistryError) :=
  match l with
  | [] => mret (Ok tt)
  | r :: l => _ <-? set_record r; record_all l
  end.
Definition launch (records : list Rec) : Prog unit :=
  h ← claim;
  match h with
  | Err _ => mret tt
  | Ok fd =>
    _ ← call (Begin fd);
    _ ← record_all records;
    _ ← call (End fd);
    drop_handle fd
  end.
Definition task (t : Task) : Prog unit :=
  match t with
  | Look => _ ← state; mret tt
  | Reclaim => _ ← reclaim; mret tt
  | Launch records => launch records
  end.

Record World := mkWorld { w_fs : FS; w_procs : list (Prog unit) }.

(** A process that dies closes what it had open; its zone, if it ran one, is over. *)
Definition die (me : nat) (fs : FS) : FS :=
  let mine := filter (fun x => bool_decide (x.2.1 = me)) (map_to_list (fs_files fs)) in
  let fds := list_to_set (fst <$> mine) in
  with_alive (fs_alive fs ∖ fds) (fold_right close fs (fst <$> mine)).

Inductive step (stat : Z -> option (list Z)) (me : nat) : World -> World -> Prop :=
| step_call fs ps X (c : Call X) k luck now :
    ps !! me = Some (Vis c k) ->
    step stat me (mkWorld fs ps)
      (mkWorld (exec stat now me luck c fs).2 (<[me := k (exec stat now me luck c fs).1]> ps))
| step_die fs ps p :
    ps !! me = Some p -> step stat me (mkWorld fs ps) (mkWorld (die me fs) (<[me := Ret tt]> ps)).
Inductive reaches (stat : Z -> option (list Z)) : World -> World -> Prop :=
| reaches_refl w : reaches stat w w
| reaches_step w1 w2 w3 me : reaches stat w1 w2 -> step stat me w2 w3 -> reaches stat w1 w3.

(** One step of a schedule: who, and what the kernel chooses. *)
Definition advance (stat : Z -> option (list Z)) (now : Z) (w : World) (who : nat * nat) : World :=
  let '(me, luck) := who in
  match w_procs w !! me with
  | Some (Vis c k) =>
    let '(x, fs) := exec stat now me luck c (w_fs w) in mkWorld fs (<[me := k x]> (w_procs w))
  | _ => w
  end.

(** At first nobody has anything open; the entry may be anything an earlier boot or a dead launcher
    left. *)
Definition quiet (fs : FS) : Prop :=
  fs_files fs = ∅ /\ fs_locks fs = ∅ /\ fs_alive fs = ∅ /\
  match fs_dir fs with Some e => forall i, e_lock e = Some i -> (i < fs_next fs)%nat | None => True end.

(** ** One process alone, with a kernel that fails nothing *)
Fixpoint run {A} (stat : Z -> option (list Z)) (now : Z) (me : nat) (p : Prog A) (fs : FS) : A * FS :=
  match p with
  | Ret a => (a, fs)
  | Vis c k => let '(x, fs) := exec stat now me 0 c fs in run stat now me (k x) fs
  end.
End Registry.
