(* ===== verification/RegistrySafe.v ===== *)
(** * The registry: what a process may do when, and the invariant of the shared directory

    A process is in a phase ([Phase]) that follows the answers it got: it looks for the lock, holds
    it, has found it still linked ([Owner]), or has unlinked it ([Swept]). [cwp] says which call a
    phase may make and what it becomes; [follows] that a program keeps to it. *)
From stdpp Require Import gmap functions.
From S2P Require Import Prelude Bytes Text Registry.
Import Registry.
Open Scope string_scope.
Open Scope list_scope.
Open Scope Z_scope.

Inductive Phase := Idle | Opened (fd : Fd) | Sharing (fd : Fd) | Locked (fd : Fd) | Owner (fd : Fd) (alive : bool) | Swept (fd : Fd).
Definition fd_of (ph : Phase) : option Fd :=
  match ph with Idle => None | Opened fd | Sharing fd | Locked fd | Owner fd _ | Swept fd => Some fd end.
(** The descriptor through which the lock is held exclusively. *)
Definition ex_of (ph : Phase) : option Fd :=
  match ph with Locked fd | Owner fd _ | Swept fd => Some fd | _ => None end.
Definition resting (ph : Phase) : Prop := match ph with Owner _ true => False | _ => True end.

Definition cwp {X} (c : Call X) (ph : Phase) : (X -> Phase -> Prop) -> Prop :=
  match c in Call X return (X -> Phase -> Prop) -> Prop with
  | OpenLock _ => fun K => ph = Idle /\ (forall e, K (Err e) Idle) /\ K (Ok None) Idle /\ forall fd, K (Ok (Some fd)) (Opened fd)
  | FlockEx fd => fun K => ph = Opened fd /\ K true (Locked fd) /\ K false (Opened fd)
  | FlockSh fd => fun K => ph = Opened fd /\ K true (Sharing fd) /\ K false (Opened fd)
  | SameInode fd => fun K => ph = Locked fd /\ K true (Owner fd false) /\ K false (Locked fd)
  | Unlock fd => fun K => fd_of ph = Some fd /\ resting ph /\ K tt (Opened fd)
  | Close fd => fun K => fd_of ph = Some fd /\ resting ph /\ K tt Idle
  | Remove _ _ => fun K => (exists fd, ph = Owner fd false) /\ K tt ph
  | UnlinkLock => fun K => exists fd, ph = Owner fd false /\ K tt (Swept fd)
  | WriteField _ _ => fun K => (exists fd b, ph = Owner fd b) /\ forall r, K r ph
  | CgKill p => fun K => (exists fd, ph = Owner fd false) /\ under p KRYPTIK_ROOT = true /\ K tt ph
  | CgRmdir p => fun K => (exists fd, ph = Owner fd false) /\ under p KRYPTIK_ROOT = true /\ forall b, K b ph
  | Begin fd => fun K => ph = Owner fd false /\ K tt (Owner fd true)
  | End fd => fun K => ph = Owner fd true /\ K tt (Owner fd false)
  | Detach => fun K => (exists fd, ph = Owner fd false) /\ K tt ph
  | Mkdir | Chmod _ | DirExists | Read _ | ReadDir | Rmdir | CgIsDir _ | Stat _ | Time => fun K => forall x, K x ph
  end.

Fixpoint follows {A} (p : Prog A) (Q : A -> Phase -> Prop) (ph : Phase) : Prop :=
  match p with
  | Ret a => Q a ph
  | Vis c k => cwp c ph (fun x ph' => follows (k x) Q ph')
  end.

Lemma cwp_mono {X} (c : Call X) ph (K K' : X -> Phase -> Prop) :
  (forall x ph', K x ph' -> K' x ph') -> cwp c ph K -> cwp c ph K'.
Proof. destruct c; cbn; naive_solver. Qed.

Lemma follows_mono {A} (p : Prog A) (Q Q' : A -> Phase -> Prop) ph :
  (forall a ph', Q a ph' -> Q' a ph') -> follows p Q ph -> follows p Q' ph.
Proof.
  intros HQ. revert ph. induction p as [a|X c k IH]; intros ph; cbn; [apply HQ|].
  apply cwp_mono. intros x ph'. apply IH.
Qed.

Lemma follows_bind {A B} (p : Prog A) (f : A -> Prog B) Q ph :
  follows p (fun a ph' => follows (f a) Q ph') ph -> follows (p ≫= f) Q ph.
Proof.
  revert ph. induction p as [a|X c k IH]; intros ph; cbn; [done|]. apply cwp_mono. intros x ph'. apply IH.
Qed.
Lemma follows_fmap {A B} (p : Prog A) (f : A -> B) Q ph :
  follows p (fun a ph' => Q (f a) ph') ph -> follows (f <$> p) Q ph.
Proof. apply (follows_bind p (fun a => Ret (f a))). Qed.
Lemma follows_try {A B E} (p : Prog (result A E)) (f : A -> Prog (result B E)) Q ph :
  follows p (fun r ph' => match r with Ok a => follows (f a) Q ph' | Err e => Q (Err e) ph' end) ph ->
  follows (try_bind p f) Q ph.
Proof. intros H. apply follows_bind. eapply follows_mono; [|exact H]. by intros [a|e] ph' H'. Qed.
Lemma follows_call {X} (c : Call X) Q ph : cwp c ph Q -> follows (call c) Q ph.
Proof. done. Qed.

(** ** The programs keep to it *)
Lemma follows_read_field name Q ph : (forall r, Q r ph) -> follows (read_field name) Q ph.
Proof. intros H. apply follows_bind, follows_call. cbn [cwp]. intros r. apply H. Qed.

Lemma follows_remove_all l fd Q : Q tt (Owner fd false) -> follows (remove_all l) Q (Owner fd false).
Proof.
  intros H. induction l as [|[name d] l IH]; cbn; [done|]. destruct (String.eqb name "lock"); [done|]. cbn. eauto.
Qed.

Lemma follows_sweep fd Q : (forall r ph, fd_of ph = Some fd -> resting ph -> Q r ph) -> follows sweep Q (Owner fd false).
Proof.
  intros H. cbn. split; [eauto|]. intros [l|[]]; [|by apply H..]. apply follows_bind, follows_remove_all. cbn.
  exists fd. split; [done|]. intros [u|[]]; by apply H.
Qed.

Lemma follows_try_lock Q :
  (forall e, Q (Err e) Idle) -> Q (Ok Busy) Idle -> Q (Ok Gone) Idle -> (forall fd, Q (Ok (Held fd)) (Owner fd false)) ->
  follows try_lock Q Idle.
Proof.
  intros He Hb Hg Hh. apply follows_try, follows_fmap. cbn. split; [done|]. split; [intros e; apply He|]. split; [exact Hg|].
  intros fd. cbn. split; [done|]. split; cbn; auto.
Qed.
Lemma follows_lock_again n Q :
  (forall e, Q (Err e) Idle) -> Q (Ok Busy) Idle -> Q (Ok Gone) Idle -> (forall fd, Q (Ok (Held fd)) (Owner fd false)) ->
  follows (lock_again n Busy) Q Idle.
Proof.
  intros He Hb Hg Hh. induction n as [|n IH]; [exact Hb|]. cbn [lock_again]. apply follows_try, follows_try_lock; auto.
  - destruct n; exact Hg.
  - intros fd. destruct n; apply Hh.
Qed.
Lemma follows_lock_owner Q :
  (forall e, Q (Err e) Idle) -> Q (Ok Busy) Idle -> Q (Ok Gone) Idle -> (forall fd, Q (Ok (Held fd)) (Owner fd false)) ->
  follows lock_owner Q Idle.
Proof. intros He Hb Hg Hh. apply follows_try, follows_try_lock; auto. by apply follows_lock_again. Qed.

Lemma follows_state Q : (forall r, Q r Idle) -> follows state Q Idle.
Proof.
  intros H. unfold state. apply follows_bind, follows_call. cbn [cwp]. intros [|]; [|apply H].
  apply follows_bind, follows_read_field. intros l. apply follows_bind, follows_read_field. intros cg.
  apply follows_try. unfold held. apply follows_try, follows_fmap. cbn. split; [done|]. split; [intros; apply H|]. split; [apply H|].
  intros fd. cbn. split; [done|]. split; (split; [done|]; split; [done|]); cbn; [apply H|].
  intros i s. apply H.
Qed.

Lemma follows_rm_cgroup n p fd Q : under p KRYPTIK_ROOT = true -> Q tt (Owner fd false) -> follows (rm_cgroup n p) Q (Owner fd false).
Proof. intros Hp H. induction n as [|n IH]; cbn; [done|]. split; [eauto|]. split; [done|]. by intros [|]. Qed.
Lemma follows_reclaim_locked fd Q : (forall r ph, fd_of ph = Some fd -> resting ph -> Q r ph) -> follows reclaim_locked Q (Owner fd false).
Proof.
  intros H. unfold reclaim_locked. apply follows_bind, follows_read_field. intros path. apply follows_bind. unfold kill_cgroup.
  destruct path as [p|]; [|by apply follows_sweep]. destruct (under p KRYPTIK_ROOT) eqn:Hp; cbn [negb]; [|by apply follows_sweep].
  apply follows_bind, follows_call. cbn [cwp]. intros [|]; [|by apply follows_sweep].
  apply follows_bind, follows_call. cbn [cwp]. split; [eauto|]. split; [done|].
  apply follows_rm_cgroup; [done|]. by apply follows_sweep.
Qed.
Lemma follows_reclaim Q : (forall r, Q r Idle) -> follows reclaim Q Idle.
Proof.
  intros H. unfold reclaim. apply follows_bind, follows_call. cbn [cwp]. intros [|]; [|apply H]. apply follows_try, follows_lock_owner; [intros e; apply H|apply H|apply H|].
  intros fd. apply follows_bind, follows_reclaim_locked. intros r ph Hf Hr. cbn. auto.
Qed.
Lemma follows_drop fd Q : Q tt Idle -> follows (drop_handle fd) Q (Owner fd false).
Proof. intros H. apply follows_bind, follows_sweep. intros r ph Hf Hr. cbn. auto. Qed.

Lemma follows_take_entry Q : (forall e, Q (Some (Err e)) Idle) -> Q None Idle -> (forall fd, Q (Some (Ok fd)) (Owner fd false)) ->
  follows take_entry Q Idle.
Proof.
  intros He Hn Ho. unfold take_entry. apply follows_bind, follows_fmap, follows_call. cbn [cwp]. intros [u|e]; cbn [as_io]; [|apply He].
  apply follows_bind, follows_lock_owner; [intros e; apply He|apply He|apply Hn|]. intros fd.
  apply follows_bind, follows_call. cbn [cwp]. intros secs. apply follows_bind, follows_fmap, follows_call. cbn [cwp]. split; [eauto|].
  intros [w|e]; cbn [as_io]; [apply Ho|]. apply follows_bind, follows_drop. apply He.
Qed.
Lemma follows_claim Q : (forall e, Q (Err e) Idle) -> (forall fd, Q (Ok fd) (Owner fd false)) -> follows claim Q Idle.
Proof.
  intros He Ho. unfold claim. generalize 0. generalize 3%nat. intros n. induction n as [|n IH]; intros at_; [apply He|].
  cbn [claim_loop]. apply follows_bind, follows_call. cbn [cwp]. intros [u|[]]; try apply He.
  - apply follows_bind, follows_take_entry; [intros e; apply He|apply IH|intros fd; apply Ho].
  - apply follows_try, follows_state. intros [st|e]; [|apply He]. destruct st as [|[l|] ? ? ?|]; try apply He; destruct (at_ =? 0); try apply He; try apply IH.
    all: apply follows_try, follows_reclaim; intros [r|e]; [apply IH|apply He].
Qed.

Lemma follows_set_record r fd b Q : (forall x, Q x (Owner fd b)) -> follows (set_record r) Q (Owner fd b).
Proof.
  intros H. destruct r; cbn.
  1, 2: intros t; destruct (start_time t); cbn; [|apply H]; (split; [eauto|]); intros x; apply H.
  all: (split; [eauto|]); intros x; apply H.
Qed.
Lemma follows_record_all l fd b Q : (forall x, Q x (Owner fd b)) -> follows (record_all l) Q (Owner fd b).
Proof.
  intros H. induction l as [|r l IH]; cbn [record_all]; [apply H|]. apply follows_try, follows_set_record. intros [x|e]; [apply IH|apply H].
Qed.

Lemma follows_task t : follows (task t) (fun _ ph => ph = Idle) Idle.
Proof.
  destruct t as [| |records]; cbn [task].
  - apply follows_bind, follows_state. done.
  - apply follows_bind, follows_reclaim. done.
  - unfold launch. apply follows_bind, follows_claim; [done|]. intros fd. apply follows_bind, follows_call. cbn [cwp]. split; [done|].
    apply follows_bind, follows_record_all. intros x. apply follows_bind, follows_call. cbn [cwp].
    split; [done|]. by apply follows_drop.
Qed.

(** ** The invariant

    Every open description belongs to the process whose phase says so; a lock is held by the
    phase that got it; an owner's lock is the one linked in the directory; a zone is alive exactly
    while its launcher owns the entry. *)
Record consistent (phs : nat -> Phase) (fs : FS) : Prop := {
  c_fd i fd : fd_of (phs i) = Some fd -> exists ino, fs_files fs !! fd = Some (i, ino);
  c_mine fd i ino : fs_files fs !! fd = Some (i, ino) -> fd_of (phs i) = Some fd /\ (fd < fs_next fs)%nat;
  c_ex i fd ino : ex_of (phs i) = Some fd -> fs_files fs !! fd = Some (i, ino) -> fs_locks fs !! ino = Some (Excl fd);
  c_own i fd b : phs i = Owner fd b ->
    exists e ino, fs_dir fs = Some e /\ e_lock e = Some ino /\ fs_files fs !! fd = Some (i, ino);
  c_alive fd : fd ∈ fs_alive fs <-> exists i, phs i = Owner fd true;
  c_killed : Forall (fun p => under p KRYPTIK_ROOT = true) (fs_killed fs)
}.

Lemma owner_unique phs fs i j fd fd' b b' : consistent phs fs -> phs i = Owner fd b -> phs j = Owner fd' b' -> i = j.
Proof.
  intros C Hi Hj. destruct (c_own _ _ C _ _ _ Hi) as (e & ino & E & L & F), (c_own _ _ C _ _ _ Hj) as (e' & ino' & E' & L' & F').
  simplify_eq. pose proof (c_ex _ _ C i fd ino ltac:(by rewrite Hi) F) as X. pose proof (c_ex _ _ C j fd' ino ltac:(by rewrite Hj) F') as X'.
  by simplify_eq.
Qed.

(** What others see of a change that leaves descriptors and locks, and the directory to its owner. *)
Lemma consistent_dir phs fs me ph d :
  consistent phs fs -> (phs me = ph \/ (exists fd, phs me = Owner fd false /\ ph = Swept fd)) ->
  (forall i fd b e ino, <[me := ph]> phs i = Owner fd b -> fs_dir fs = Some e -> e_lock e = Some ino -> exists e', d = Some e' /\ e_lock e' = Some ino) ->
  consistent (<[me := ph]> phs) (with_dir d fs).
Proof.
  intros C Hph Hd. assert (forall i, fd_of (<[me := ph]> phs i) = fd_of (phs i) /\ ex_of (<[me := ph]> phs i) = ex_of (phs i) /\
    (forall fd b, <[me := ph]> phs i = Owner fd b -> phs i = Owner fd b)) as Hi.
  { intros i. destruct (decide (me = i)) as [<-|Hne]; [rewrite fn_lookup_insert|by rewrite fn_lookup_insert_ne].
    destruct Hph as [<-|(fd & -> & ->)]; [done|]. by repeat split. }
  constructor; cbn.
  - intros i fd. destruct (Hi i) as (-> & _ & _). apply C.
  - intros fd i ino H. destruct (Hi i) as (-> & _ & _). by apply (c_mine _ _ C) in H.
  - intros i fd ino. destruct (Hi i) as (_ & -> & _). apply C.
  - intros i fd b H. destruct (Hi i) as (_ & _ & Ho). pose proof (Ho _ _ H) as H'.
    destruct (c_own _ _ C _ _ _ H') as (e & ino & E & L & F). destruct (Hd i fd b e ino H E L) as (e' & -> & L'). eauto 10.
  - intros fd. rewrite (c_alive _ _ C). split; intros [i H]; exists i; [|by apply Hi].
    destruct (decide (me = i)) as [<-|Hne]; [rewrite fn_lookup_insert|by rewrite fn_lookup_insert_ne].
    destruct Hph as [<-|(fd' & H' & _)]; [done|congruence].
  - apply C.
Qed.

(** ** Unlocking *)
Lemma unlock_keeps fd fs :
  fs_dir (unlock fd fs) = fs_dir fs /\ fs_files (unlock fd fs) = fs_files fs /\ fs_next (unlock fd fs) = fs_next fs /\
  fs_alive (unlock fd fs) = fs_alive fs /\ fs_killed (unlock fd fs) = fs_killed fs.
Proof. unfold unlock. destruct (fs_files fs !! fd) as [[? ?]|]; [|done]. destruct (fs_locks fs !! _) as [[]|]; [case_bool_decide|..]; done. Qed.
Lemma unlock_others fd fd' i fs : fs_locks fs !! i = Some (Excl fd') -> fd' <> fd -> fs_locks (unlock fd fs) !! i = Some (Excl fd').
Proof.
  intros H Hne. unfold unlock. destruct (fs_files fs !! fd) as [[? j]|]; [|done].
  destruct (decide (i = j)) as [->|Hij].
  - rewrite H. by rewrite bool_decide_eq_false_2.
  - destruct (fs_locks fs !! j) as [[]|]; [case_bool_decide|..]; cbn; by rewrite ?lookup_partial_alter_ne by done.
Qed.

Ltac other me i := destruct (decide (me = i)) as [<-|?Hne]; [rewrite ?fn_lookup_insert in *|rewrite ?fn_lookup_insert_ne in * by done].

Lemma consistent_id phs fs me ph : consistent phs fs -> phs me = ph -> consistent (<[me := ph]> phs) fs.
Proof.
  intros C H. replace fs with (with_dir (fs_dir fs) fs) by (by destruct fs). apply consistent_dir; [done|by left|].
  intros i fd b e ino _ -> L. eauto.
Qed.

(** A new phase that holds no more than the old one, through the same descriptor. *)
Lemma consistent_less phs fs me ph :
  consistent phs fs -> resting (phs me) -> fd_of ph = fd_of (phs me) -> (ex_of ph = None \/ ex_of ph = ex_of (phs me)) ->
  (forall fd b, ph <> Owner fd b) -> consistent (<[me := ph]> phs) fs.
Proof.
  intros C Hr Hf He Ho. constructor.
  - intros i fd. other me i; [rewrite Hf|]; apply C.
  - intros fd i ino H. apply (c_mine _ _ C) in H as [H ?]. split; [|done]. other me i; [by rewrite Hf|done].
  - intros i fd ino. other me i; [|apply C]. destruct He as [->| ->]; [done|apply C].
  - intros i fd b H. other me i; [by apply Ho in H|by apply (c_own _ _ C) in H].
  - intros fd. rewrite (c_alive _ _ C). split; intros [i H]; exists i; other me i; try done; [by rewrite H in Hr|by apply Ho in H].
  - apply C.
Qed.

(** Locks taken through [fd] by the process that has it open. *)
Lemma consistent_lock phs fs me fd ino ph l :
  consistent phs fs -> phs me = Opened fd -> fs_files fs !! fd = Some (me, ino) -> (forall fd', fs_locks fs !! ino <> Some (Excl fd')) ->
  (ph = Locked fd /\ l = Excl fd \/ ph = Sharing fd) -> consistent (<[me := ph]> phs) (with_lock ino (Some l) fs).
Proof.
  intros C Hm Hf Hn Hph. assert (fd_of ph = Some fd) as Hfd by (destruct Hph as [[-> _]| ->]; done).
  constructor; cbn.
  - intros i fd'. other me i; [rewrite Hfd; intros [= <-]; eauto|apply C].
  - intros fd' i ino' H. apply (c_mine _ _ C) in H as [H ?]. split; [|done]. other me i; [|done]. by rewrite Hm in H; rewrite Hfd.
  - intros i fd' ino' He F. other me i.
    + destruct Hph as [[-> ->]| ->]; [|done]. injection He as <-. rewrite Hf in F. injection F as <-. by rewrite lookup_partial_alter_eq.
    + pose proof (c_ex _ _ C _ _ _ He F) as X. rewrite lookup_partial_alter_ne; [done|]. intros <-. by apply (Hn fd').
  - intros i fd' b H. other me i; [destruct Hph as [[-> _]| ->]; done|by apply (c_own _ _ C) in H].
  - intros fd'. rewrite (c_alive _ _ C). split; intros [i H]; exists i; other me i; try done; [congruence|destruct Hph as [[-> _]| ->]; done].
  - apply C.
Qed.

Lemma consistent_unlock phs fs me fd :
  consistent phs fs -> fd_of (phs me) = Some fd -> resting (phs me) -> consistent (<[me := Opened fd]> phs) (unlock fd fs).
Proof.
  intros C Hf Hr. destruct (c_fd _ _ C _ _ Hf) as [ino Hi]. destruct (unlock_keeps fd fs) as (E1 & E2 & E3 & E4 & E5).
  pose proof (consistent_less phs fs me (Opened fd) C Hr (eq_sym Hf) (or_introl eq_refl) ltac:(done)) as C'.
  constructor; rewrite ?E1, ?E2, ?E3, ?E4, ?E5; [apply C'|apply C'| |apply C'|apply C'|apply C'].
  intros i fd' ino' He F. pose proof (c_ex _ _ C' _ _ _ He F) as X. apply unlock_others; [done|]. intros ->.
  rewrite Hi in F. simplify_eq. by rewrite fn_lookup_insert in He.
Qed.

Lemma consistent_close phs fs me fd :
  consistent phs fs -> fd_of (phs me) = Some fd -> resting (phs me) -> consistent (<[me := Idle]> phs) (close fd fs).
Proof.
  intros C Hf Hr. pose proof (consistent_unlock phs fs me fd C Hf Hr) as C'. destruct (c_fd _ _ C _ _ Hf) as [ino Hi].
  destruct (unlock_keeps fd fs) as (E1 & E2 & E3 & E4 & E5). unfold close. set (fs' := unlock fd fs) in *. constructor; cbn.
  - intros i fd' H. other me i; [done|]. destruct (c_fd _ _ C i fd' H) as [ino' F]. exists ino'. rewrite E2, lookup_partial_alter_ne; [done|congruence].
  - intros fd' i ino' F. destruct (decide (fd = fd')) as [<-|Hfd]; [by rewrite lookup_partial_alter_eq in F|].
    rewrite lookup_partial_alter_ne in F by done. apply (c_mine _ _ C') in F as [F ?]. split; [|done]. other me i; [|done].
    by injection F as ->.
  - intros i fd' ino' He F. other me i; [done|]. destruct (decide (fd = fd')) as [<-|Hfd]; [by rewrite lookup_partial_alter_eq in F|].
    rewrite lookup_partial_alter_ne in F by done. apply (c_ex _ _ C' i); [by rewrite fn_lookup_insert_ne|done].
  - intros i fd' b H. other me i; [done|]. destruct (c_own _ _ C' i fd' b) as (e & ino' & ? & ? & F); [by rewrite fn_lookup_insert_ne|].
    exists e, ino'. split; [done|]. split; [done|]. rewrite lookup_partial_alter_ne; [done|]. intros <-. rewrite E2, Hi in F. by simplify_eq.
  - intros fd'. rewrite (c_alive _ _ C'). split; intros [i H]; exists i; other me i; done.
  - apply C'.
Qed.

Lemma consistent_next phs fs : consistent phs fs -> consistent phs (fresh_ino fs).2.
Proof.
  intros C. constructor; cbn; try apply C. intros fd i ino F. apply (c_mine _ _ C) in F as [? ?]. split; [done|lia].
Qed.

Lemma consistent_open phs fs me i :
  consistent phs fs -> phs me = Idle -> consistent (<[me := Opened (fs_next fs)]> phs) (open_on me i fs).2.
Proof.
  intros C Hm. assert (forall fd x, fs_files fs !! fd = Some x -> fs_next fs <> fd) as Hn.
  { intros fd [j ino] E. apply (c_mine _ _ C) in E as [_ ?]. lia. }
  constructor; cbn.
  - intros j fd H. other me j.
    + injection H as <-. exists i. apply lookup_insert_eq.
    + destruct (c_fd _ _ C j fd H) as [ino F]. exists ino. rewrite lookup_insert_ne; [done|eauto].
  - intros fd j ino F. destruct (decide (fs_next fs = fd)) as [<-|Hne'].
    + rewrite lookup_insert_eq in F. injection F as <- <-. rewrite fn_lookup_insert. split; [done|lia].
    + rewrite lookup_insert_ne in F by done. apply (c_mine _ _ C) in F as [F ?]. split; [|lia]. other me j; [by rewrite Hm in F|done].
  - intros j fd ino H F. other me j; [done|]. destruct (decide (fs_next fs = fd)) as [<-|Hne'].
    + destruct (c_fd _ _ C j (fs_next fs)) as [? E]; [by destruct (phs j); simplify_eq/=|by apply Hn in E].
    + rewrite lookup_insert_ne in F by done. by apply (c_ex _ _ C j).
  - intros j fd b H. other me j; [done|]. destruct (c_own _ _ C _ _ _ H) as (e & ino & ? & ? & F). exists e, ino.
    split; [done|]. split; [done|]. rewrite lookup_insert_ne; [done|eauto].
  - intros fd. rewrite (c_alive _ _ C). split; intros [j H]; exists j; other me j; try done. by rewrite Hm in H.
  - apply C.
Qed.

Lemma consistent_kill phs fs p : consistent phs fs -> under p KRYPTIK_ROOT = true -> consistent phs (with_kill p fs).
Proof. intros C Hp. constructor; cbn; try apply C. apply Forall_app. split; [apply C|by apply Forall_singleton]. Qed.

(** The lock found still linked makes its holder the owner. *)
Lemma consistent_owner phs fs me fd ino e : consistent phs fs -> phs me = Locked fd ->
  fs_files fs !! fd = Some (me, ino) -> fs_dir fs = Some e -> e_lock e = Some ino -> consistent (<[me := Owner fd false]> phs) fs.
Proof.
  intros C Hm F D L. constructor.
  - intros i fd' H. other me i; [|by apply C]. injection H as <-. eauto.
  - intros fd' i ino' H. apply (c_mine _ _ C) in H as [H ?]. split; [|done]. other me i; [|done]. by rewrite Hm in H.
  - intros i fd' ino' H F'. other me i; [|by apply (c_ex _ _ C i)]. injection H as <-. apply (c_ex _ _ C me); [by rewrite Hm|done].
  - intros i fd' b H. other me i; [|by apply (c_own _ _ C) in H]. injection H as <- <-. eauto 10.
  - intros fd'. rewrite (c_alive _ _ C). split; intros [i H]; exists i; other me i; try done. by rewrite Hm in H.
  - apply C.
Qed.

(** A zone begins and ends under its owner. *)
Lemma consistent_alive phs fs me fd b a : consistent phs fs -> phs me = Owner fd b ->
  (forall fd', fd' ∈ a <-> (fd' = fd /\ negb b = true) \/ (fd' <> fd /\ fd' ∈ fs_alive fs)) ->
  consistent (<[me := Owner fd (negb b)]> phs) (with_alive a fs).
Proof.
  intros C Hm Ha. constructor; cbn.
  - intros i fd' H. other me i; [|by apply C]. injection H as <-. apply C. by rewrite Hm.
  - intros fd' i ino' H. apply (c_mine _ _ C) in H as [H ?]. split; [|done]. other me i; [|done]. by rewrite Hm in H.
  - intros i fd' ino' H F'. other me i; [|by apply (c_ex _ _ C i)]. injection H as <-. apply (c_ex _ _ C me); [by rewrite Hm|done].
  - intros i fd' b' H. other me i; [|by apply (c_own _ _ C) in H]. injection H as <- <-. by apply (c_own _ _ C) in Hm.
  - intros fd'. rewrite Ha, (c_alive _ _ C). split.
    + intros [[-> Hb]|[Hf [i H]]]; [exists me; rewrite fn_lookup_insert; by destruct b|]. exists i.
      other me i; [congruence|done].
    + intros [i H]. other me i; [injection H as <- H; left; by rewrite H|]. right. split; [|eauto].
      intros ->. pose proof (owner_unique phs fs i me _ _ _ _ C H Hm). congruence.
  - apply C.
Qed.

(** Only the directory changed, and no owner has it. *)
Lemma consistent_unowned phs fs me d : consistent phs fs ->
  (forall e, fs_dir fs = Some e -> e_lock e = None) -> consistent (<[me := phs me]> phs) (with_dir d fs).
Proof.
  intros C H. apply consistent_dir; [done|by left|]. intros i fd b e ino _ E L. apply H in E. congruence.
Qed.

Section steps.
Context (stat : Z -> option (list Z)).

Lemma exec_follows {X} (c : Call X) phs fs me luck now (K : X -> Phase -> Prop) :
  consistent phs fs -> cwp c (phs me) K ->
  exists ph, K (exec stat now me luck c fs).1 ph /\ consistent (<[me := ph]> phs) (exec stat now me luck c fs).2.
Proof.
  intros C. pose proof (consistent_id phs fs me (phs me) C eq_refl) as Cid.
  destruct c; cbn [cwp exec].
  - (* Mkdir *) intros H. exists (phs me). destruct (negb _); cbn; [done|]. destruct (fs_dir fs) eqn:E; cbn; [done|].
    split; [done|]. apply consistent_unowned; [done|congruence].
  - (* Chmod *) intros H. exists (phs me). destruct (negb _); cbn; [done|]. destruct (fs_dir fs) as [e|] eqn:E; cbn; [|done].
    split; [done|]. apply consistent_dir; [done|by left|]. intros i fd b e' ino _ E' L. simplify_eq. eauto.
  - intros H. by exists (phs me).
  - (* OpenLock *) intros (Hi & He & Hn & Ho). rewrite Hi in Cid. destruct (negb _); cbn; [by exists Idle|].
    destruct (fs_dir fs) as [e|] eqn:E; cbn; [|by exists Idle]. destruct (e_lock e) as [i|] eqn:L.
    { exists (Opened (fs_next fs)). split; [apply Ho|].
      pose proof (consistent_open phs fs me i C Hi) as C'. cbn in C'. by rewrite E in C'. }
    destruct create; cbn; [|by exists Idle]. exists (Opened (S (fs_next fs))). split; [apply Ho|].
    pose proof (consistent_next _ _ C) as C1.
    pose proof (consistent_unowned phs (fresh_ino fs).2 me (Some (mkEntry (e_mode e) (Some (fs_next fs)) (e_nodes e))) C1) as C2.
    cbn in C2. specialize (C2 ltac:(intros; congruence)).
    pose proof (consistent_open _ _ me (fs_next fs) C2) as C3. rewrite fn_lookup_insert in C3. specialize (C3 Hi).
    cbn in C3. cbn. destruct C3. constructor; cbn in *.
    + intros i fd H. apply c_fd0. by other me i.
    + intros fd i ino H. apply c_mine0 in H as [H ?]. split; [|done]. by other me i.
    + intros i fd ino H. apply c_ex0. by other me i.
    + intros i fd b H. apply (c_own0 i fd b). by other me i.
    + intros fd. rewrite c_alive0. split; intros [i H]; exists i; by other me i.
    + done.
  - (* FlockEx *) intros (Hm & Ht & Hf). rewrite Hm in Cid. destruct (c_fd _ _ C me fd) as [i F]; [by rewrite Hm|]. rewrite F.
    destruct (fs_locks fs !! i) eqn:L; cbn; [by exists (Opened fd)|]. destruct (Nat.eqb luck 0); cbn; [|by exists (Opened fd)].
    exists (Locked fd). split; [done|]. eapply consistent_lock; eauto. by rewrite L.
  - (* FlockSh *) intros (Hm & Ht & Hf). rewrite Hm in Cid. destruct (c_fd _ _ C me fd) as [i F]; [by rewrite Hm|]. rewrite F.
    destruct (fs_locks fs !! i) as [[fd'|fds]|] eqn:L; cbn; [by exists (Opened fd)| |]; (destruct (Nat.eqb luck 0); cbn; [|by exists (Opened fd)]);
      exists (Sharing fd); (split; [done|]); (eapply consistent_lock; eauto; by rewrite L).
  - (* SameInode *) intros (Hm & Ht & Hf). rewrite Hm in Cid. destruct (c_fd _ _ C me fd) as [i F]; [by rewrite Hm|]. rewrite F.
    destruct (Nat.eqb luck 0); cbn; [|by exists (Locked fd)]. destruct (fs_dir fs) as [e|] eqn:E; [|by exists (Locked fd)].
    case_bool_decide as L; [|by exists (Locked fd)]. exists (Owner fd false). split; [done|]. by eapply consistent_owner.
  - intros (Hf & Hr & H). exists (Opened fd). split; [done|]. by apply consistent_unlock.
  - intros (Hf & Hr & H). exists Idle. split; [done|]. by apply consistent_close.
  - intros H. by exists (phs me).
  - intros H. exists (phs me). destruct (negb _); cbn; [done|]. by destruct (fs_dir fs).
  - (* Remove *) intros [[fd Hm] H]. exists (phs me). split; [done|]. cbn. destruct (Nat.eqb luck 0); [|done].
    apply consistent_dir; [done|by left|]. intros i fd' b e ino _ -> L. exists (remove_node name is_dir e). split; [done|].
    unfold remove_node. destruct (e_nodes e !! name) as [[?|[]]|], is_dir; done.
  - (* UnlinkLock *) intros (fd & Hm & H). exists (Swept fd). split; [done|]. cbn. destruct (Nat.eqb luck 0).
    + apply consistent_dir; [done|right; eauto|]. intros i fd' b e ino Ho D L. exfalso. other me i; [done|].
      pose proof (owner_unique phs fs i me _ _ _ _ C Ho Hm). congruence.
    + apply consistent_less; rewrite ?Hm; cbn; auto.
  - (* Rmdir *) intros H. exists (phs me). destruct (fs_dir fs) as [e|] eqn:E; cbn; [|done].
    destruct (Nat.eqb luck 0); cbn; [|done]. case_bool_decide as L; cbn; [|done]. case_bool_decide; cbn; [|done].
    split; [done|]. apply consistent_unowned; [done|]. intros; congruence.
  - (* WriteField *) intros [(fd & b & Hm) H]. exists (phs me). destruct (fs_dir fs) as [e|] eqn:E; cbn; [|done].
    assert (forall t', consistent (<[me:=phs me]> phs) (with_dir (Some (mkEntry (e_mode e) (e_lock e) (<[name:=File t']> (e_nodes e)))) fs)) as Hput.
    { intros t'. apply consistent_dir; [done|by left|]. intros i fd' b' e' ino _ E' L. simplify_eq. eauto. }
    destruct (e_nodes e !! name) as [[?|?]|]; cbn; [|done|]; destruct luck as [|[|[|[|?]]]]; cbn; auto.
  - intros [_ H]. by exists (phs me).
  - intros H. by exists (phs me).
  - intros (_ & Hp & H). exists (phs me). split; [done|]. by apply consistent_kill.
  - intros (_ & Hp & H). by exists (phs me).
  - intros H. by exists (phs me).
  - intros H. by exists (phs me).
  - (* Begin *) intros [Hm H]. exists (Owner fd true). split; [done|]. apply (consistent_alive phs fs me fd false); [done|done|].
    cbn. intros fd'. rewrite elem_of_union, elem_of_singleton. destruct (decide (fd' = fd)); naive_solver.
  - (* End *) intros [Hm H]. exists (Owner fd false). split; [done|]. apply (consistent_alive phs fs me fd true); [done|done|].
    cbn. intros fd'. rewrite elem_of_difference, elem_of_singleton. naive_solver.
Qed.
End steps.
