(* ===== verification/RegistryClaims.v ===== *)
(** * The registry: claims *)
From stdpp Require Import gmap functions pretty.
From S2P Require Import Prelude Bytes Text Control Registry RegistrySafe.
Import Registry.
Open Scope string_scope.
Open Scope list_scope.
Open Scope Z_scope.

(** ** Dying *)
Lemma close_alive fd a fs : close fd (with_alive a fs) = with_alive a (close fd fs).
Proof.
  unfold close, unlock. cbn. destruct (fs_files fs !! fd) as [[? i]|]; [|done].
  destruct (fs_locks fs !! i) as [[]|]; [case_bool_decide|..]; done.
Qed.

Lemma my_files phs fs me : consistent phs fs ->
  fst <$> filter (fun x => bool_decide (x.2.1 = me)) (map_to_list (fs_files fs)) = option_list (fd_of (phs me)).
Proof.
  intros C. set (L := fst <$> _). assert (NoDup L) as Hd.
  { eapply sublist_NoDup; [apply (NoDup_fst_map_to_list (fs_files fs))|]. apply fmap_sublist, sublist_filter. }
  assert (forall x, x ∈ L <-> x ∈ option_list (fd_of (phs me))) as Hin.
  { intros x. assert (x ∈ option_list (fd_of (phs me)) <-> fd_of (phs me) = Some x) as -> by (destruct (fd_of (phs me)); set_solver).
    unfold L. rewrite list_elem_of_fmap. split.
    - intros ([fd [i ino]] & -> & H). apply list_elem_of_filter in H as [H%bool_decide_unpack F]. cbn in *. subst.
      apply elem_of_map_to_list in F. by apply (c_mine _ _ C) in F as [? _].
    - intros H. destruct (c_fd _ _ C _ _ H) as [ino F]. exists (x, (me, ino)). split; [done|]. apply list_elem_of_filter.
      split; [by apply bool_decide_pack|by apply elem_of_map_to_list]. }
  apply NoDup_Permutation in Hin; [|done|destruct (fd_of (phs me)); [apply NoDup_singleton|constructor]].
  destruct (fd_of (phs me)); cbn in *; [by apply Permutation_singleton_r in Hin|by apply Permutation_nil_r in Hin].
Qed.

Lemma consistent_die phs fs me : consistent phs fs -> consistent (<[me := Idle]> phs) (die me fs).
Proof.
  intros C. unfold die. rewrite (my_files _ _ _ C). destruct (fd_of (phs me)) as [fd|] eqn:Hf; unfold option_list; cbn [option_rect foldr].
  - rewrite <-close_alive, list_to_set_singleton_L.
    assert (resting (phs me) \/ phs me = Owner fd true) as [Hr|Ho].
    { destruct (phs me) as [| | | |? []|]; cbn in *; simplify_eq; auto. }
    + assert (fd ∉ fs_alive fs) as Ha.
      { intros [i H]%(c_alive _ _ C). destruct (c_own _ _ C _ _ _ H) as (? & ino & _ & _ & F).
        destruct (c_fd _ _ C _ _ Hf) as [ino' F']. rewrite F in F'. injection F' as -> _. by rewrite H in Hr. }
      replace (fs_alive fs ∖ {[fd]}) with (fs_alive fs) by set_solver.
      replace (with_alive (fs_alive fs) fs) with fs by (by destruct fs). by apply consistent_close.
    + pose proof (consistent_alive phs fs me fd true (fs_alive fs ∖ {[fd]}) C Ho) as C1. cbn [negb] in C1.
      specialize (C1 ltac:(intros fd'; rewrite elem_of_difference, elem_of_singleton; naive_solver)).
      eapply consistent_close in C1; [|by rewrite fn_lookup_insert|by rewrite fn_lookup_insert].
      destruct C1. constructor.
      * intros i fd' H. apply c_fd. by other me i.
      * intros fd' i ino H. apply c_mine in H as [H ?]. split; [|done]. by other me i.
      * intros i fd' ino H. apply c_ex. by other me i.
      * intros i fd' b H. apply (c_own i fd' b). by other me i.
      * intros fd'. rewrite c_alive. split; intros [i H]; exists i; by other me i.
      * done.
  - replace (fs_alive fs ∖ list_to_set []) with (fs_alive fs) by set_solver.
    replace (with_alive (fs_alive fs) fs) with fs by (by destruct fs). apply consistent_id; [done|]. by destruct (phs me).
Qed.

(** ** Every reachable world *)
Definition inv (w : World) : Prop :=
  exists phs, consistent phs (w_fs w) /\ forall i p, w_procs w !! i = Some p -> follows p (fun _ ph => ph = Idle) (phs i).

Lemma inv_step stat me w w' : inv w -> step stat me w w' -> inv w'.
Proof.
  intros (phs & C & Hp) Hs. destruct Hs as [fs ps X c k luck now E|fs ps p E]; cbn in *.
  - pose proof (Hp _ _ E) as Hf. cbn in Hf. destruct (exec_follows stat c phs fs me luck now _ C Hf) as (ph & HK & C').
    exists (<[me := ph]> phs). split; [done|]. intros i p Hi. cbn in Hi. destruct (decide (me = i)) as [<-|Hne].
    + rewrite list_lookup_insert_eq in Hi by (by eapply lookup_lt_Some). simplify_eq. by rewrite fn_lookup_insert.
    + rewrite list_lookup_insert_ne in Hi by done. rewrite fn_lookup_insert_ne by done. by apply Hp.
  - exists (<[me := Idle]> phs). split; [by apply consistent_die|]. intros i p' Hi. cbn in Hi. destruct (decide (me = i)) as [<-|Hne].
    + rewrite list_lookup_insert_eq in Hi by (by eapply lookup_lt_Some). simplify_eq. cbn. by rewrite fn_lookup_insert.
    + rewrite list_lookup_insert_ne in Hi by done. rewrite fn_lookup_insert_ne by done. by apply Hp.
Qed.

Lemma inv_start fs tasks : quiet fs -> fs_killed fs = [] -> inv (mkWorld fs (task <$> tasks)).
Proof.
  intros (Hf & Hl & Ha & _) Hk. exists (fun _ => Idle). split.
  - constructor; try done; cbn.
    + intros fd i ino. by rewrite Hf.
    + intros fd. rewrite Ha. split; [set_solver|by intros [? ?]].
    + rewrite Hk. constructor.
  - intros i p H. cbn in H. apply list_lookup_fmap_Some in H as (t & -> & _). apply follows_task.
Qed.

Lemma inv_reaches stat w w' : reaches stat w w' -> inv w -> inv w'.
Proof. induction 1; eauto using inv_step. Qed.

(** ** Others leave an owned entry alone *)
Definition holds_of (fs : FS) : option (option Ino * gmap string Node) := (fun e => (e_lock e, e_nodes e)) <$> fs_dir fs.

Lemma exec_others {X} stat (c : Call X) phs fs me luck now K i fd b :
  consistent phs fs -> cwp c (phs me) K -> phs i = Owner fd b -> me <> i ->
  holds_of (exec stat now me luck c fs).2 = holds_of fs.
Proof.
  intros C Hc Hi Hne. destruct (c_own _ _ C _ _ _ Hi) as (e & ino & D & L & F). unfold holds_of.
  assert (forall fd' b', phs me <> Owner fd' b') as Hno.
  { intros fd' b' Hm. by pose proof (owner_unique _ _ _ _ _ _ _ _ C Hm Hi). }
  destruct c; cbn [cwp exec] in *.
  all: try done.
  all: try (destruct Hc as [(fd' & b' & Hm) _]; by destruct (Hno fd' b')).
  all: try (destruct Hc as [(fd' & Hm) _]; by destruct (Hno fd' false)).
  all: rewrite ?D.
  - destruct (negb _); cbn; by rewrite ?D.
  - destruct (negb _); cbn; by rewrite ?D.
  - destruct (negb _); cbn; [by rewrite D|]. rewrite L. cbn. rewrite D. cbn. by rewrite L.
  - destruct (fs_files fs !! fd0) as [[? ?]|]; [|cbn; by rewrite ?D]. destruct (fs_locks fs !! _); [cbn; by rewrite ?D|].
    destruct (Nat.eqb luck 0); cbn; by rewrite ?D.
  - destruct (fs_files fs !! fd0) as [[? ?]|]; [|cbn; by rewrite ?D]. destruct (fs_locks fs !! _) as [[]|]; [cbn; by rewrite ?D|..];
      destruct (Nat.eqb luck 0); cbn; by rewrite ?D.
  - cbn. destruct (unlock_keeps fd0 fs) as (-> & _). by rewrite D.
  - cbn. destruct (unlock_keeps fd0 fs) as (-> & _). by rewrite D.
  - destruct (negb _); cbn; by rewrite ?D.
  - destruct Hc as (fd' & Hm & _). by destruct (Hno fd' false).
  - rewrite (bool_decide_eq_false_2 (e_lock e = None)) by congruence. rewrite andb_false_r. cbn. by rewrite D.
Qed.

(** A step of another process leaves an owner its entry and its zone. *)
Lemma step_others stat w phs me i fd w' : consistent phs (w_fs w) ->
  (forall j p, w_procs w !! j = Some p -> follows p (fun _ ph => ph = Idle) (phs j)) ->
  phs i = Owner fd true -> me <> i -> step stat me w w' ->
  holds_of (w_fs w') = holds_of (w_fs w) /\ fd ∈ fs_alive (w_fs w').
Proof.
  intros C Hp Hi Hne Hs. destruct Hs as [fs ps X c k luck now E|fs ps p E]; cbn in *.
  - pose proof (Hp _ _ E) as Hf. cbn in Hf. split; [by eapply exec_others|].
    destruct (exec_follows stat c phs fs me luck now _ C Hf) as (ph & _ & C').
    apply (c_alive _ _ C'). exists i. by rewrite fn_lookup_insert_ne.
  - split.
    + unfold die, holds_of. rewrite (my_files _ _ _ C). destruct (fd_of (phs me)) as [fd'|]; cbn; [|done].
      by destruct (unlock_keeps fd' fs) as (-> & _).
    + apply (c_alive _ _ (consistent_die _ _ me C)). exists i. by rewrite fn_lookup_insert_ne.
Qed.

(** C15: however the processes that look at, reclaim and launch a zone interleave,
    whatever calls fail and whoever dies, at most one launcher has its zone running; while it does,
    the entry's lock is the one it holds, which no other descriptor gets, not even shared, and no
    step of another process takes its zone, its lock or any of the entry's files away; and only
    cgroups below kryptikd's own are ever killed. *)
Theorem registry_exclusive (stat : Z -> option (list Z)) (tasks : list Task) (fs : FS) (w : World) :
  quiet fs -> fs_killed fs = [] -> reaches stat (mkWorld fs (task <$> tasks)) w ->
  (forall fd fd', fd ∈ fs_alive (w_fs w) -> fd' ∈ fs_alive (w_fs w) -> fd = fd') /\
  (forall fd, fd ∈ fs_alive (w_fs w) -> exists i e ino,
    fs_files (w_fs w) !! fd = Some (i, ino) /\ fs_dir (w_fs w) = Some e /\ e_lock e = Some ino /\
    (forall me fd' luck now, fs_files (w_fs w) !! fd' = Some (me, ino) ->
      (exec stat now me luck (FlockEx fd') (w_fs w)).1 = false /\ (exec stat now me luck (FlockSh fd') (w_fs w)).1 = false) /\
    (forall me w', me <> i -> step stat me w w' -> holds_of (w_fs w') = holds_of (w_fs w) /\ fd ∈ fs_alive (w_fs w'))) /\
  Forall (fun p => under p KRYPTIK_ROOT = true) (fs_killed (w_fs w)).
Proof.
  intros Hq Hk Hr. destruct (inv_reaches _ _ _ Hr (inv_start fs tasks Hq Hk)) as (phs & C & Hp). split; [|split; [|apply C]].
  - intros fd fd' [i Hi]%(c_alive _ _ C) [j Hj]%(c_alive _ _ C). pose proof (owner_unique _ _ _ _ _ _ _ _ C Hi Hj) as ->. congruence.
  - intros fd [i Hi]%(c_alive _ _ C). destruct (c_own _ _ C _ _ _ Hi) as (e & ino & D & L & F).
    pose proof (c_ex _ _ C i fd ino ltac:(by rewrite Hi) F) as X. exists i, e, ino. do 3 (split; [done|]). split.
    + intros me fd' luck now F'. cbn [exec]. by rewrite F', X.
    + intros me w' Hne Hs. by eapply step_others.
Qed.

(** Two launchers race for a name with a stale entry: the first runs its zone, the second is done. *)
Definition stale_fs : FS := mkFS (Some (mkEntry 448 (Some 0%nat) {["launcher.pid" := File (chars "17 4"); "x" := Sub false]})) ∅ ∅ 1 ∅ [].
Definition no_stat : Z -> option (list Z) := fun _ => None.
Definition race : World :=
  foldl (advance no_stat 5) (mkWorld stale_fs (task <$> [Launch [SetInit 9]; Launch []]))
    (replicate 27 (0%nat, 0%nat) ++ replicate 40 (1%nat, 0%nat)).

Lemma advance_reaches stat now w0 w who : reaches stat w0 w -> reaches stat w0 (advance stat now w who).
Proof.
  intros H. destruct who as [me luck]. unfold advance. destruct (w_procs w !! me) as [[a|X c k]|] eqn:E; try done.
  destruct (exec _ _ _ _ _ _) as [x fs'] eqn:Ex. eapply reaches_step; [done|]. destruct w as [fs ps].
  pose proof (step_call stat me fs ps X c k luck now E) as Hs. cbn in Ex. by rewrite Ex in Hs.
Qed.
Lemma schedule_reaches stat now l w0 w : reaches stat w0 w -> reaches stat w0 (foldl (advance stat now) w l).
Proof. revert w. induction l as [|who l IH]; intros w H; cbn; [done|]. by apply IH, advance_reaches. Qed.

Example race_alive : elements (fs_alive (w_fs race)) = [4%nat] /\ w_procs race !! 1%nat = Some (Ret tt).
Proof. vm_compute. done. Qed.

Lemma registry_exclusive_witness :
  (forall fd fd', fd ∈ fs_alive (w_fs race) -> fd' ∈ fs_alive (w_fs race) -> fd = fd') /\
  Forall (fun p => under p KRYPTIK_ROOT = true) (fs_killed (w_fs race)).
Proof.
  destruct (registry_exclusive no_stat [Launch [SetInit 9]; Launch []] stale_fs race) as (H1 & _ & H3).
  - repeat split. intros i. cbn. intros [= <-]. cbn. lia.
  - reflexivity.
  - apply schedule_reaches. constructor.
  - split; [exact H1|exact H3].
Defined.

(** A reclaim that finds the directory a launcher has just made, and removes it before the launcher
    sets its mode: the launcher does not start over, but gives up, with nobody holding the name. *)
Definition overtaken : World :=
  foldl (advance no_stat 5) (mkWorld (mkFS None ∅ ∅ 0 ∅ []) (task <$> [Launch []; Reclaim]))
    ([(0, 0)] ++ replicate 12 (1, 0) ++ [(0, 0)])%nat.
Example overtaken_gives_up :
  w_procs overtaken = [Ret tt; Ret tt] /\ fs_dir (w_fs overtaken) = None /\ fs_alive (w_fs overtaken) = ∅.
Proof. vm_compute. done. Qed.

(** ** A claim that nobody disturbs *)
Section alone.
Context (stat : Z -> option (list Z)) (now : Z) (me : nat).
Abbreviation run := (run stat now me).

Lemma run_bind {A B} (p : Prog A) (f : A -> Prog B) fs : run (p ≫= f) fs = run (f (run p fs).1) (run p fs).2.
Proof. revert fs. induction p as [a|X c k IH]; intros fs; cbn; [done|]. destruct (exec _ _ _ _ _ _). apply IH. Qed.
Lemma run_try {A B E} (p : Prog (result A E)) (f : A -> Prog (result B E)) fs :
  run (try_bind p f) fs = match (run p fs).1 with Ok a => run (f a) (run p fs).2 | Err e => (Err e, (run p fs).2) end.
Proof. unfold try_bind. rewrite run_bind. by destruct (run p fs).1. Qed.

Definition idle (fs : FS) : Prop := fs_files fs = ∅ /\ fs_locks fs = ∅.
(** [me] holds the lock of its entry through [fd], and nothing else is open. *)
Definition holding (fd : Fd) (ino : Ino) (fs : FS) : Prop := fs_files fs = {[fd := (me, ino)]} /\ fs_locks fs = {[ino := Excl fd]}.

Lemma run_close fd ino fs : holding fd ino fs -> idle (close fd fs) /\ fs_dir (close fd fs) = fs_dir fs.
Proof.
  intros [F L]. unfold close, unlock. rewrite F, lookup_singleton_eq, L, lookup_singleton_eq, bool_decide_eq_true_2 by done.
  unfold idle. cbn. rewrite F, L. split; [|done]. split; [change (delete fd {[fd := (me, ino)]} = (∅ : gmap Fd (nat * Ino)))|change (delete ino {[ino := Excl fd]} = (∅ : gmap Ino Lk))];
    by rewrite delete_singleton_eq.
Qed.

Lemma alter_gone {V} (k : nat) (v : V) : partial_alter (fun _ => None) k (partial_alter (fun _ => Some v) k ∅) = (∅ : gmap nat V).
Proof.
  apply map_eq. intros j. destruct (decide (k = j)) as [->|?]; [by rewrite lookup_partial_alter_eq|by rewrite !lookup_partial_alter_ne].
Qed.

Lemma run_held fs e : idle fs -> fs_dir fs = Some e -> (run held fs).1 = Ok false /\ idle (run held fs).2 /\ fs_dir (run held fs).2 = Some e.
Proof.
  intros [F L] D. unfold held. rewrite run_try. unfold open_lock, io. cbn -[close exec]. cbn [exec negb Nat.eqb]. rewrite D.
  destruct (e_lock e) as [i|]; cbn -[close]; [|done]. rewrite lookup_insert_eq, L, lookup_empty. cbn -[close]. split; [done|].
  unfold close, unlock. cbn. rewrite lookup_insert_eq, lookup_partial_alter_eq. cbn. unfold idle. cbn. rewrite ?F, ?L.
  rewrite bool_decide_eq_true_2 by set_solver. split; [|done]. split; apply alter_gone.
Qed.

Lemma run_lock_owner fs e : idle fs -> fs_dir fs = Some e ->
  exists fd ino fs', run lock_owner fs = (Ok (Held fd), fs') /\ holding fd ino fs' /\ fs_dir fs' = Some (mkEntry (e_mode e) (Some ino) (e_nodes e)).
Proof.
  intros [F L] D. unfold lock_owner. rewrite run_try. unfold try_lock. rewrite run_try. unfold open_lock, io. cbn -[exec lock_again]. cbn [exec negb Nat.eqb]. rewrite D.
  destruct (e_lock e) as [i|] eqn:Le; cbn -[lock_again].
  - rewrite lookup_insert_eq, L, lookup_empty. cbn -[lock_again]. rewrite lookup_insert_eq, D, Le, bool_decide_eq_true_2 by done. cbn.
    eexists _, i, _. split; [done|]. split; [unfold holding; cbn; rewrite ?F, ?L; split; reflexivity|]. cbn. rewrite ?D. by destruct e; cbn in *; subst.
  - rewrite lookup_insert_eq, L, lookup_empty. cbn -[lock_again]. rewrite lookup_insert_eq, bool_decide_eq_true_2 by done. cbn.
    eexists _, _, _. split; [done|]. split; [unfold holding; cbn; rewrite ?F, ?L; split; reflexivity|]. done.
Qed.

(** An entry whose files can all be removed; the lock is not among them. *)
Definition removable (nodes : gmap string Node) : Prop := nodes !! "lock" = None /\ forall n, nodes !! n <> Some (Sub true).

Lemma run_remove_all l fs e : fs_dir fs = Some e ->
  (forall n d nd, (n, d) ∈ l -> e_nodes e !! n = Some nd -> d = is_sub nd) -> removable (e_nodes e) ->
  exists nodes, run (remove_all l) fs = (tt, with_dir (Some (mkEntry (e_mode e) (e_lock e) nodes)) fs) /\
    forall n, nodes !! n = if decide (n ∈ l.*1) then None else e_nodes e !! n.
Proof.
  revert fs e. induction l as [|[n d] l IH]; intros fs e D Hd [Hlock Hsub].
  { exists (e_nodes e). split; [|intros n; by rewrite decide_False by set_solver]. cbn. unfold with_dir. rewrite <-D || idtac.
    replace (mkEntry (e_mode e) (e_lock e) (e_nodes e)) with e by (by destruct e). rewrite <-D. by destruct fs. }
  cbn [remove_all]. destruct (String.eqb n "lock") eqn:En.
  - apply String.eqb_eq in En as ->. destruct (IH fs e D) as (nodes & -> & Hn); [set_solver|done|]. exists nodes. split; [done|].
    intros n. rewrite Hn, fmap_cons. cbn [fst]. destruct (decide (n ∈ l.*1)), (decide (n ∈ "lock" :: l.*1)) as [Hin|]; try done.
    { set_solver. }
    apply elem_of_cons in Hin as [->|]; done.
  - rewrite run_bind. cbn [run call exec Nat.eqb fst snd]. rewrite D. change (remove_node n d <$> Some e) with (Some (remove_node n d e)).
    assert (e_mode (remove_node n d e) = e_mode e /\ e_lock (remove_node n d e) = e_lock e /\ e_nodes (remove_node n d e) = delete n (e_nodes e)) as (Em & El & Ed).
    { unfold remove_node. destruct (e_nodes e !! n) as [[t|[]]|] eqn:Ex.
      - rewrite (Hd n d (File t)) by (set_solver || done). done.
      - by destruct (Hsub n).
      - rewrite (Hd n d (Sub false)) by (set_solver || done). done.
      - by rewrite delete_id. }
    destruct (IH (with_dir (Some (remove_node n d e)) fs) (remove_node n d e)) as (nodes & -> & Hn); [done|..].
    { intros n' d' nd Hin. rewrite Ed. intros [_ H]%lookup_delete_Some. eapply Hd; [|exact H]. set_solver. }
    { rewrite Ed. split; [by apply lookup_delete_None; right|]. intros n' [_ H]%lookup_delete_Some. by apply (Hsub n'). }
    exists nodes. rewrite Em, El. split; [done|]. intros n'. rewrite Hn, Ed, fmap_cons. cbn [fst].
    destruct (decide (n' ∈ l.*1)), (decide (n' ∈ n :: l.*1)) as [Hin|Hin]; try done; [set_solver|..].
    + apply elem_of_cons in Hin as [->|]; [apply lookup_delete_eq|done].
    + apply lookup_delete_ne. set_solver.
Qed.

Lemma run_sweep fs e : fs_dir fs = Some e -> removable (e_nodes e) -> run sweep fs = (Ok tt, with_dir None fs).
Proof.
  intros D Hr. unfold sweep. rewrite run_bind. cbn [run call exec fst snd]. rewrite run_bind. cbn [run call exec Nat.eqb negb]. rewrite D. cbn [fst snd].
  rewrite run_bind. destruct (run_remove_all (listing e) fs e D) as (nodes & E & Hn); [|done|].
  { intros n d nd Hin Hnd. unfold listing in Hin. apply elem_of_app in Hin as [Hin|Hin].
    - apply list_elem_of_fmap in Hin as ([n' nd'] & [= -> ->] & Hin). apply elem_of_map_to_list in Hin. cbn in *. congruence.
    - destruct (e_lock e); [|set_solver]. apply list_elem_of_singleton in Hin as [= -> ->]. destruct Hr as [Hr _]. congruence. }
  rewrite E. cbn [fst snd]. rewrite run_bind. cbn [run call exec Nat.eqb fst snd with_dir fs_dir fmap option_fmap option_map e_mode e_nodes].
  rewrite run_bind. cbn [run call exec Nat.eqb fst snd with_dir fs_dir e_lock e_nodes].
  assert (nodes = ∅) as ->.
  { apply map_eq. intros n. rewrite Hn, lookup_empty. case_decide as Hl; [done|]. destruct (e_nodes e !! n) as [nd|] eqn:En; [|done].
    destruct Hl. apply list_elem_of_fmap. exists (n, is_sub nd). split; [done|]. apply elem_of_app. left. apply list_elem_of_fmap.
    exists (n, nd). split; [done|]. by apply elem_of_map_to_list. }
  rewrite !bool_decide_eq_true_2 by done. cbn. done.
Qed.

Lemma run_read name fs : (run (read_field name) fs).2 = fs.
Proof. done. Qed.

Lemma run_kill path fs : exists fs', run (kill_cgroup path) fs = (tt, fs') /\ fs_dir fs' = fs_dir fs /\ fs_files fs' = fs_files fs /\ fs_locks fs' = fs_locks fs.
Proof.
  unfold kill_cgroup. destruct path as [p|]; [|by exists fs]. destruct (negb (under p KRYPTIK_ROOT)); [by exists fs|].
  rewrite run_bind. cbn [run call exec Nat.eqb fst snd]. by eexists.
Qed.

Lemma run_reclaim_locked fs e : fs_dir fs = Some e -> removable (e_nodes e) ->
  exists fs', run reclaim_locked fs = (Ok tt, fs') /\ fs_dir fs' = None /\ fs_files fs' = fs_files fs /\ fs_locks fs' = fs_locks fs.
Proof.
  intros D Hr. unfold reclaim_locked. rewrite run_bind, run_read, run_bind.
  destruct (run_kill (run (read_field "cgroup") fs).1 fs) as (fs2 & -> & D2 & F2 & L2). cbn [fst snd].
  rewrite (run_sweep fs2 e) by (done || congruence). by eexists.
Qed.

Lemma run_reclaim fs e : idle fs -> fs_dir fs = Some e -> removable (e_nodes e) ->
  exists fs', run reclaim fs = (Ok tt, fs') /\ idle fs' /\ fs_dir fs' = None.
Proof.
  intros Hi D Hr. unfold reclaim. rewrite run_bind. cbn [run call exec Nat.eqb fst snd andb]. rewrite D, bool_decide_eq_true_2 by done.
  rewrite run_try. destruct (run_lock_owner fs e Hi D) as (fd & ino & fs1 & -> & [F L] & D1). cbn [fst snd].
  rewrite run_bind. destruct (run_reclaim_locked fs1 _ D1 Hr) as (fs2 & -> & D2 & F2 & L2). cbn [fst snd]. rewrite run_bind.
  cbn [run call exec fst snd]. edestruct (run_close fd ino fs2) as [Hi' D']; [split; congruence|].
  eexists. split; [reflexivity|]. split; [done|congruence].
Qed.

Lemma run_state fs e : idle fs -> fs_dir fs = Some e ->
  exists l c fs', run state fs = (Ok (Stale l c), fs') /\ idle fs' /\ fs_dir fs' = Some e.
Proof.
  intros Hi D. unfold state. rewrite run_bind. cbn [run call exec Nat.eqb fst snd andb]. rewrite D, bool_decide_eq_true_2 by done.
  rewrite run_bind, run_read, run_bind, run_read, run_try. destruct (run_held fs e Hi D) as (-> & Hi' & D'). by eexists _, _, _.
Qed.

Lemma run_take_entry fs : idle fs -> fs_dir fs = Some (mkEntry 493 None ∅) ->
  exists fd ino fs', run take_entry fs = (Some (Ok fd), fs') /\ holding fd ino fs' /\
    fs_dir fs' = Some (mkEntry 448 (Some ino) {["started" := File (64 :: show_int now ++ [10])]}).
Proof.
  intros [F L] D. unfold take_entry. rewrite run_bind.
  assert (run (io "chmod" (call (Chmod 448))) fs = (Ok tt, with_dir (Some (mkEntry 448 None ∅)) fs)) as -> by (cbn; by rewrite D).
  cbn [fst snd]. rewrite run_bind.
  destruct (run_lock_owner (with_dir (Some (mkEntry 448 None ∅)) fs) (mkEntry 448 None ∅)) as (fd & ino & fs1 & -> & [F1 L1] & D1); [done|done|].
  cbn [fst snd]. rewrite run_bind. cbn [run call exec fst snd]. rewrite run_bind.
  assert (run (write "started" (64 :: show_int now ++ [10])) fs1 =
    (Ok tt, with_dir (Some (mkEntry 448 (Some ino) {["started" := File (64 :: show_int now ++ [10])]})) fs1)) as ->
    by (cbn -[show_int]; rewrite D1; cbn -[show_int]; by rewrite lookup_empty).
  eexists fd, ino, _. split; [reflexivity|]. split; [done|]. reflexivity.
Qed.

(** Alone, a claim of a name nobody holds succeeds, over nothing or over whatever a
    dead launcher left: the entry is then new, its only file the time of the claim, its mode 0700
    and its lock held by the claimer. *)
Theorem claim_fresh (fs : FS) :
  idle fs -> (forall e, fs_dir fs = Some e -> removable (e_nodes e)) ->
  exists fd ino fs', run claim fs = (Ok fd, fs') /\ holding fd ino fs' /\
    fs_dir fs' = Some (mkEntry 448 (Some ino) {["started" := File (64 :: show_int now ++ [10])]}).
Proof.
  assert (forall n at_ fs, idle fs -> fs_dir fs = None -> exists fd ino fs', run (claim_loop (S n) at_) fs = (Ok fd, fs') /\ holding fd ino fs' /\
    fs_dir fs' = Some (mkEntry 448 (Some ino) {["started" := File (64 :: show_int now ++ [10])]})) as Hnew.
  { intros n at_ fs' Hi D. cbn [claim_loop]. rewrite run_bind. cbn [run call exec Nat.eqb negb fst snd]. rewrite D. cbn [fst snd]. rewrite run_bind.
    destruct (run_take_entry (with_dir (Some (mkEntry 493 None ∅)) fs')) as (fd & ino & fs1 & -> & H1 & D1); [done|done|].
    exists fd, ino, fs1. done. }
  intros Hi Hr. unfold claim. destruct (fs_dir fs) as [e|] eqn:D; [|by apply Hnew].
  cbn [claim_loop]. rewrite run_bind. cbn [run call exec Nat.eqb negb fst snd]. rewrite D. cbn [fst snd]. rewrite run_try.
  destruct (run_state fs e Hi D) as (l & c & fs1 & -> & Hi1 & D1). cbn [fst snd Z.eqb]. rewrite run_try.
  destruct (run_reclaim fs1 e Hi1 D1) as (fs2 & -> & Hi2 & D2); [by apply Hr|]. cbn [fst snd]. exact (Hnew 1%nat 1 fs2 Hi2 D2).
Qed.
End alone.

Lemma claim_fresh_witness : exists fd ino fs', Registry.run no_stat 5 7 claim stale_fs = (Ok fd, fs') /\ holding 7 fd ino fs' /\
    fs_dir fs' = Some (mkEntry 448 (Some ino) {["started" := File (64 :: show_int 5 ++ [10])]}).
Proof.
  apply (claim_fresh no_stat 5 7 stale_fs); [done|]. intros e [= <-]. split; [reflexivity|]. intros n H.
  cbn in H. apply lookup_insert_Some in H as [[_ H]|[_ H]]; [done|]. apply lookup_singleton_Some in H as [_ H]. done.
Defined.

(** ** Stamps *)
Lemma digits_octets l acc : Control.digits l acc = digits_from acc (Z_of_byte <$> l).
Proof.
  revert acc. induction l as [|b l IH]; intros acc; cbn; [done|]. unfold between.
  replace ((0 <=? Z_of_byte b - 48) && (Z_of_byte b - 48 <=? 9)) with ((48 <=? Z_of_byte b) && (Z_of_byte b <=? 57))
    by lia.
  by destruct (_ && _).
Qed.

Lemma show_num_digits n : 0 <= n ->
  digits_from 0 (show_num n) = Some n /\ Forall (fun c => 48 <= c <= 57) (show_num n) /\ show_num n <> [].
Proof.
  intros Hn. destruct (Control.pretty_digits n Hn) as (Hd & Hv & Hne). unfold show_num, octets. split; [by rewrite <-digits_octets|].
  split; [|by destruct (as_bytes (pretty n))]. apply Forall_fmap. eapply Forall_impl; [exact Hd|]. unfold Control.digit, compose. intros b Hb. lia.
Qed.

Lemma show_num_word n : 0 <= n -> forallb (fun c => negb (is_whitespace c)) (show_num n) = true.
Proof.
  intros Hn. destruct (show_num_digits n Hn) as (_ & Hd & _). apply forallb_Forall. eapply Forall_impl; [exact Hd|]. cbv beta. intros c Hc.
  unfold is_whitespace, between. lia.
Qed.
Lemma show_int_word n : forallb (fun c => negb (is_whitespace c)) (show_int n) = true /\ show_int n <> [].
Proof.
  unfold show_int. destruct (n <? 0) eqn:E; [apply Z.ltb_lt in E|apply Z.ltb_ge in E].
  - split; [|done]. cbn. apply show_num_word. lia.
  - split; [by apply show_num_word|]. by apply show_num_digits.
Qed.

Lemma parse_u64_show n : 0 <= n <= USIZE_MAX -> parse_u64 (show_num n) = Some n.
Proof.
  intros Hn. destruct (show_num_digits n) as (Hd & Hf & Hne); [lia|]. unfold parse_u64.
  destruct (show_num n) as [|c l]; [done|]. apply Forall_cons in Hf as [Hc _].
  assert (parse_unsigned 18446744073709551615 (c :: l) = v ← digits_from 0 (c :: l); if v <=? 18446744073709551615 then Some v else None) as E'.
  { assert (c = 48 \/ c = 49 \/ c = 50 \/ c = 51 \/ c = 52 \/ c = 53 \/ c = 54 \/ c = 55 \/ c = 56 \/ c = 57) as Hd' by lia.
    destruct_or! Hd'; by subst. }
  etransitivity; [exact E'|]. rewrite Hd. cbn [mbind option_bind]. by rewrite (proj2 (Z.leb_le _ _)) by lia.
Qed.
Lemma parse_i32_show n : -2147483648 <= n <= 2147483647 -> parse_i32 (show_int n) = Some n.
Proof.
  intros Hn. unfold show_int. destruct (n <? 0) eqn:E; [apply Z.ltb_lt in E|apply Z.ltb_ge in E].
  - destruct (show_num_digits (- n)) as (Hd & Hf & Hne); [lia|]. unfold parse_i32.
    destruct (show_num (- n)) as [|c l] eqn:Es; [done|]. rewrite Hd. cbn [mbind option_bind]. rewrite (proj2 (Z.leb_le _ _)) by lia.
    f_equal. lia.
  - destruct (show_num_digits n) as (Hd & Hf & Hne); [lia|].
    destruct (show_num n) as [|c l] eqn:Es; [done|]. apply Forall_cons in Hf as [Hc _].
    assert (parse_i32 (c :: l) = v ← digits_from 0 (c :: l); if v <=? 2147483647 then Some v else None) as E'.
    { assert (c = 48 \/ c = 49 \/ c = 50 \/ c = 51 \/ c = 52 \/ c = 53 \/ c = 54 \/ c = 55 \/ c = 56 \/ c = 57) as Hd' by lia.
      destruct_or! Hd'; by subst. }
    etransitivity; [exact E'|]. rewrite Hd. cbn [mbind option_bind]. by rewrite (proj2 (Z.leb_le _ _)) by lia.
Qed.

(** A line of /proc/pid/stat: whatever the program calls itself, then the state and the fields that
    follow, none of which holds a parenthesis. *)
Definition stat_line (name : list Z) (fields : list (list Z)) : list Z := name ++ [41] ++ mjoin ((fun f => 32 :: f) <$> fields).

Lemma after_last_app c l r : c ∉ r -> after_last c (l ++ [c] ++ r) = Some r.
Proof.
  intros Hr. assert (after_last c r = None) as Hn.
  { induction r as [|x r IH]; cbn; [done|]. apply not_elem_of_cons in Hr as [Hx Hr]. rewrite IH by done.
    by rewrite (proj2 (Z.eqb_neq x c)) by congruence. }
  induction l as [|x l IH]; cbn; [by rewrite Hn, Z.eqb_refl|]. cbn in IH. by rewrite IH.
Qed.
Lemma words_fields fields : Forall (fun f => f <> [] /\ forallb (fun c => negb (is_whitespace c)) f = true) fields ->
  words (mjoin ((fun f => 32 :: f) <$> fields)) = fields.
Proof.
  unfold words. induction 1 as [|f fields [Hne Hf] _ IH]; [done|]. rewrite join_fmap_cons. cbn [app words_from].
  change (is_whitespace 32) with true. cbn iota. destruct fields as [|g fields].
  - cbn. rewrite app_nil_r, words_from_word by auto. done.
  - rewrite join_fmap_cons in *. cbn [app] in *. rewrite words_from_space by auto. cbn [words_from] in IH.
    change (is_whitespace 32) with true in IH. cbn iota in IH. by rewrite IH.
Qed.

(** A recorded process is read back exactly, whatever its pid and start time; and
    the start time read off /proc is its twentieth field after the name, whatever the program has
    called itself, parentheses and spaces included. *)
Theorem stamp_roundtrip (st : PidStamp) (name : list Z) (fields : list (list Z)) :
  -2147483648 <= pid st <= 2147483647 -> 0 <= start st <= USIZE_MAX ->
  Forall (fun f => f <> [] /\ forallb (fun c => negb (is_whitespace c)) f = true /\ 41 ∉ f) fields -> fields !! 19%nat = Some (show_num (start st)) ->
  decode (encode st) = Ok st /\ start_time (Some (stat_line name fields)) = Some (start st).
Proof.
  intros Hp Hs Hf H19. split.
  - unfold decode, encode. destruct (show_int_word (pid st)) as [Hw Hne]. cbn [app].
    assert (words (show_int (pid st) ++ 32 :: show_num (start st) ++ [10]) = [show_int (pid st); show_num (start st)]) as ->.
    { unfold words. rewrite words_from_space by auto. rewrite words_from_space by (auto using show_num_word || (apply show_num_word; lia) || (right; apply show_num_digits; lia)). done. }
    cbn [lookup list_lookup mbind option_bind]. rewrite parse_i32_show, parse_u64_show by lia. by destruct st.
  - unfold start_time, stat_line. cbn [mbind option_bind]. rewrite after_last_app.
    + cbn [mbind option_bind]. rewrite words_fields, H19 by (eapply Forall_impl; [exact Hf|]; naive_solver). cbn. by apply parse_u64_show.
    + intros H. apply list_elem_of_join in H as (l & Hin & Hl). apply list_elem_of_fmap in Hl as (f & -> & Hl).
      rewrite Forall_forall in Hf. apply elem_of_cons in Hin as [?|?]; [done|]. by apply (Hf f Hl).
Qed.
Lemma stamp_roundtrip_witness :
  decode (encode (mkStamp 412 9981)) = Ok (mkStamp 412 9981) /\
  start_time (Some (stat_line (chars "412 (a) b) 7 (c") (replicate 19 (chars "S") ++ [chars "9981"; chars "0"]))) = Some 9981.
Proof.
  apply (stamp_roundtrip (mkStamp 412 9981)); [cbn; lia|cbn; lia| |reflexivity].
  repeat constructor; (discriminate || set_solver).
Defined.

(** ** The base directory *)
Lemma check_existing_ok me s md md' : check_existing me s md = Ok md' ->
  m_kind md = IsDir /\ m_uid md = me /\ Z.land (m_mode md) 18 = 0 /\ m_kind md' = IsDir /\ m_uid md' = me /\ Z.land (m_mode md') 511 = 448.
Proof.
  unfold check_existing. case_bool_decide as E1; [done|]. case_bool_decide as E2; cbn [negb]; [|done].
  destruct (m_uid md =? me) eqn:E3; cbn [negb]; [|done]. apply Z.eqb_eq in E3.
  destruct (Z.land (Z.land (m_mode md) 511) 18 =? 0) eqn:E4; cbn [negb]; [|done]. apply Z.eqb_eq in E4.
  rewrite <-Z.land_assoc in E4. change (Z.land 511 18) with 18 in E4.
  destruct (Z.land (m_mode md) 511 =? 448) eqn:E5; cbn [negb]; [intros [= <-]; by apply Z.eqb_eq in E5|].
  destruct (s_chmod s); intros [= <-]. by split_and!.
Qed.

(** The registry is kept only in a directory of our own with mode 0700, one that nobody else could
    write before it was found, whose parent is such a directory too; a link, a file, another
    user's directory and one open to writing are refused. *)
Theorem base_vetted (me : Z) (parent : option Spot) (b : Spot) (md : Meta) :
  ensure_base me parent b = Ok md ->
  m_kind md = IsDir /\ m_uid md = me /\ Z.land (m_mode md) 511 = 448 /\
  (forall p, parent = Some p -> exists md', check_or_create me p = Ok md' /\ m_kind md' = IsDir /\ m_uid md' = me /\ Z.land (m_mode md') 511 = 448) /\
  (forall md0, s_lstat b = Ok md0 -> m_kind md0 = IsDir /\ m_uid md0 = me /\ Z.land (m_mode md0) 18 = 0).
Proof.
  assert (forall s md, check_or_create me s = Ok md -> (m_kind md = IsDir /\ m_uid md = me /\ Z.land (m_mode md) 511 = 448) /\
    forall md0, s_lstat s = Ok md0 -> m_kind md0 = IsDir /\ m_uid md0 = me /\ Z.land (m_mode md0) 18 = 0) as Hc.
  { intros s md1. unfold check_or_create. destruct (s_lstat s) as [m|[]]; try done.
    - intros H%check_existing_ok. split; [naive_solver|]. intros ? [= <-]. naive_solver.
    - destruct (s_mkdir s) as [[]|]; try done; [destruct (s_raced s); [|done]; intros H%check_existing_ok; naive_solver|].
      intros [= <-]. done. }
  unfold ensure_base. intros H. destruct parent as [p|].
  - apply result_bind_Ok in H as (mp & Hp & Hb). destruct (Hc _ _ Hb) as ((? & ? & ?) & ?). destruct (Hc _ _ Hp) as (? & _).
    do 3 (split; [done|]). split; [|done]. intros ? [= <-]. eauto.
  - destruct (Hc _ _ H) as ((? & ? & ?) & ?). by split_and!.
Qed.
