(* ===== verification/Password.v ===== *)
(** * The login password: src/compartments/kryptikd/src/password.rs

    The session user's entry of the shadow file, the comparison through crypt(3), and the pause
    after wrong passwords. Instants are nanoseconds; crypt_r is a parameter. *)
From stdpp Require Import sorting.
From S2P Require Import Prelude Bytes Text.
Open Scope string_scope.
Open Scope list_scope.
Open Scope Z_scope.

Module Password.
Abbreviation NANOS := 1000000000%Z.

(** One line's field after [user]'s name, if the line is [user]'s and has one. *)
Definition shadow_field (user : list Z) (l : list Z) : option (list Z) :=
  match split 58 l with
  | name :: field :: _ => if bool_decide (name = user) then Some field else None
  | _ => None
  end.
Definition starts_with (p cs : list Z) : bool := bool_decide (is_Some (strip_prefix p cs)).
Definition SHA512 : list Z := Eval vm_compute in chars "$6$".
Definition SHA256 : list Z := Eval vm_compute in chars "$5$".
Definition hash_of (shadow user : list Z) : option (list Z) :=
  h ← find_map (shadow_field user) (lines shadow);
  if starts_with SHA512 h || starts_with SHA256 h then Some h else None.

(** The difference of two texts of one length, byte by byte. *)
Definition differs (got hash : list Z) : Z :=
  fold_left (fun d p => Z.lor d (Z.lxor p.1 p.2)) (zip got hash) 0.
Definition matches (crypt : list Z -> list Z -> option (list Z)) (password hash : list Z) : bool :=
  if existsb (Z.eqb 0) password || existsb (Z.eqb 0) hash then false
  else
    match crypt password hash with
    | None => false
    | Some got => (zlen got =? zlen hash) && (differs got hash =? 0)
    end.

Record Attempts := mkAttempts { failures : Z; next : option Z }.
Definition default_attempts : Attempts := mkAttempts 0 None.
Definition wait (a : Attempts) (now : Z) : option Z :=
  match next a with
  | None => None
  | Some n => if (now <=? n) && negb (n - now =? 0) then Some (n - now) else None
  end.
(** The seconds of "wait N s". *)
Definition paused (a : Attempts) (now : Z) : option Z :=
  match wait a now with
  | None => None
  | Some w => Some (w / NANOS + (if 0 <? w mod NANOS then 1 else 0))
  end.
Definition failed (a : Attempts) (now : Z) : Attempts :=
  let f := Z.min (failures a + 1) U32_MAX in
  let secs := Z.min (Z.shiftl 1 (Z.min f 6)) 60 in
  mkAttempts f (Some (now + secs * NANOS)).
Definition passed (a : Attempts) : Attempts := default_attempts.

Inductive PasswordError := Wait (secs : Z) | Unreadable | NoHash | Wrong.
(** [read] is the shadow file's text, if it can be read. *)
Definition check (crypt : list Z -> list Z -> option (list Z)) (read : option (list Z)) (user password : list Z)
  (attempts : Attempts) (now : Z) : result unit PasswordError * Attempts :=
  match paused attempts now with
  | Some w => (Err (Wait w), attempts)
  | None =>
    match read with
    | None => (Err Unreadable, attempts)
    | Some text =>
      match hash_of text user with
      | None => (Err NoHash, attempts)
      | Some hash =>
        if matches crypt password hash then (Ok tt, passed attempts)
        else (Err Wrong, failed attempts now)
      end
    end
  end.

End Password.
Import Password.

(** ** Comparing *)
Lemma differs_zero got hash acc : 0 <= acc ->
  Forall (fun c => 0 <= c) got -> Forall (fun c => 0 <= c) hash -> length got = length hash ->
  fold_left (fun d p => Z.lor d (Z.lxor p.1 p.2)) (zip got hash) acc = 0 <-> acc = 0 /\ got = hash.
Proof.
  intros Ha Hg Hh. revert hash acc Ha Hh. induction Hg as [|g got Hg1 _ IH]; intros [|h hash] acc Ha Hh E; cbn in *; try done.
  { naive_solver. }
  apply Forall_cons in Hh as [Hh1 Hh]. assert (0 <= Z.lxor g h) as Hx by (apply Z.lxor_nonneg; lia).
  rewrite IH; [|apply Z.lor_nonneg; lia|done|lia]. rewrite Z.lor_eq_0_iff, Z.lxor_eq_0_iff. naive_solver.
Qed.

(** The comparison that looks at every byte is equality. *)
Lemma matches_spec crypt password hash :
  (forall got, crypt password hash = Some got -> Forall (fun c => 0 <= c) got) -> Forall (fun c => 0 <= c) hash ->
  matches crypt password hash = true <-> 0 ∉ password /\ 0 ∉ hash /\ crypt password hash = Some hash.
Proof.
  intros Hc Hh. unfold matches.
  assert (forall l, existsb (Z.eqb 0) l = true <-> 0 ∈ l) as Hex.
  { intros l. rewrite existsb_exists. split; [intros (x & Hx & ->%Z.eqb_eq); by apply list_elem_of_In|].
    intros H. exists 0. split; [by apply list_elem_of_In|done]. }
  destruct (existsb (Z.eqb 0) password || existsb (Z.eqb 0) hash) eqn:E.
  { apply orb_true_iff in E. rewrite !Hex in E. naive_solver. }
  apply orb_false_iff in E as [E1 E2].
  assert (0 ∉ password /\ 0 ∉ hash) as [Hp Hn] by (split; intros H%Hex; congruence).
  destruct (crypt password hash) as [got|] eqn:Eg; [|naive_solver]. rewrite andb_true_iff, !Z.eqb_eq. unfold differs.
  split.
  - intros [El Ed]. unfold zlen in El. apply differs_zero in Ed as [_ ->]; [done|lia|by apply Hc|done|lia].
  - intros (_ & _ & [= ->]). split; [done|]. apply differs_zero; [lia|by apply Hc|done|done|done].
Qed.

(** ** Attempts

    Passwords tried one after another, each at its time; [compared] keeps those that were really
    compared with the hash, and whether they were right. *)
Fixpoint compared (crypt : list Z -> list Z -> option (list Z)) (read : option (list Z)) (user : list Z)
  (a : Attempts) (tries : list (Z * list Z)) : list (Z * bool) :=
  match tries with
  | [] => []
  | (now, password) :: tries =>
    let '(r, a') := check crypt read user password a now in
    match r with
    | Ok _ => (now, true) :: compared crypt read user a' tries
    | Err Wrong => (now, false) :: compared crypt read user a' tries
    | Err _ => compared crypt read user a' tries
    end
  end.

(** Nanoseconds of pause after [k] wrong passwords in a row. *)
Definition pause (k : Z) : Z := Z.min (2 ^ Z.min k 6) 60 * NANOS.

(** Each comparison after a wrong one waits for its pause, with [k] wrong ones before the first,
    none of which may come before [from]. *)
Fixpoint spaced (k from : Z) (log : list (Z * bool)) : Prop :=
  match log with
  | [] => True
  | (t, ok) :: log => from <= t /\ if ok : bool then spaced 0 t log else spaced (k + 1) (t + pause (k + 1)) log
  end.

Lemma spaced_mono k from from' log : from' <= from -> spaced k from log -> spaced k from' log.
Proof. destruct log as [|[t ok] log]; cbn; [done|]. intros ? [? ?]. split; [lia|done]. Qed.

(** A longer run of wrong passwords waits no less. *)
Definition in_step (k : Z) (a : Attempts) : Prop := failures a = Z.min k U32_MAX /\ 0 <= k.

Lemma wait_until a now : wait a now = None -> forall n, next a = Some n -> n <= now.
Proof.
  unfold wait. intros H n En. rewrite En in H. destruct (now <=? n) eqn:E; [|apply Z.leb_gt in E; lia].
  destruct (n - now =? 0) eqn:E'; cbn in H; [apply Z.eqb_eq in E'; lia|done].
Qed.

Lemma failed_next k a now : in_step k a -> next (failed a now) = Some (now + pause (k + 1)) /\ in_step (k + 1) (failed a now).
Proof.
  intros [Ef Hk]. unfold failed, in_step, pause. cbn. rewrite Ef. split; [|lia].
  replace (Z.min (Z.min (Z.min k U32_MAX + 1) U32_MAX) 6) with (Z.min (k + 1) 6) by lia. by rewrite Z.shiftl_1_l.
Qed.

Lemma compared_spaced crypt read user tries : forall k a from,
  StronglySorted (fun x y => x.1 <= y.1) tries -> Forall (fun x => from <= x.1) tries ->
  in_step k a ->
  spaced k (match next a with Some n => Z.max from n | None => from end) (compared crypt read user a tries).
Proof.
  induction tries as [|[now pw] tries IH]; intros k a from Hs Hf Hk; cbn [compared]; [done|].
  apply StronglySorted_inv in Hs as [Hs Hle]. apply Forall_cons in Hf as [Hn Hf]. cbn in Hn, Hle.
  assert (spaced k (match next a with Some n => Z.max from n | None => from end) (compared crypt read user a tries)) as Hsame by (by apply IH).
  unfold check. destruct (paused a now) eqn:Ep; [done|]. destruct read as [text|] eqn:Er; [|done]. destruct (hash_of text user) as [hash|] eqn:Eh; [|done].
  assert (wait a now = None) as Hw by (unfold paused in Ep; by destruct (wait a now)). pose proof (wait_until a now Hw) as Hu.
  assert (match next a with Some n => Z.max from n | None => from end <= now) as Hfrom.
  { destruct (next a) as [n|]; [|done]. specialize (Hu n eq_refl). lia. }
  destruct (matches crypt pw hash).
  - cbn [spaced]. split; [done|]. apply (IH 0 default_attempts now); auto. split; [done|lia].
  - cbn [spaced]. split; [done|]. destruct (failed_next k a now Hk) as [En Hk']. pose proof (IH (k + 1) (failed a now) now Hs Hle Hk') as H.
    rewrite En in H. eapply spaced_mono; [|exact H]. lia.
Qed.

(** C23: however many passwords are tried, and how often, those compared with the
    hash come apart: after the k-th wrong one in a row the next waits min(2^k, 60) seconds, up to
    the sixth and from there a minute each; a right one ends the pause. *)
Theorem password_throttled (crypt : list Z -> list Z -> option (list Z)) (read : option (list Z)) (user : list Z)
  (tries : list (Z * list Z)) (from : Z) :
  StronglySorted (fun x y => x.1 <= y.1) tries -> Forall (fun x => from <= x.1) tries ->
  spaced 0 from (compared crypt read user default_attempts tries).
Proof. intros Hs Hf. apply (compared_spaced crypt read user tries 0 default_attempts from Hs Hf). split; [done|lia]. Qed.

(** A crypt that keeps the method and appends the password. *)
Definition toy_crypt (pw setting : list Z) : option (list Z) := Some (take 3 setting ++ pw).
Definition toy_shadow : list Z := chars "root:*:1
me:$6$open:2
".
Example toy_log : compared toy_crypt (Some toy_shadow) (chars "me") default_attempts
  [(1, chars "a"); (2, chars "open"); (3 * NANOS, chars "b"); (4 * NANOS, chars "open"); (8 * NANOS, chars "open")]
  = [(1, false); (3 * NANOS, false); (8 * NANOS, true)].
Proof. vm_compute. reflexivity. Qed.
Lemma password_throttled_witness :
  spaced 0 1 (compared toy_crypt (Some toy_shadow) (chars "me") default_attempts [(1, chars "a"); (2, chars "open"); (3 * NANOS, chars "b")]).
Proof.
  apply (password_throttled toy_crypt (Some toy_shadow) (chars "me")).
  - repeat constructor; cbn; lia.
  - repeat constructor; cbn; lia.
Defined.
