(* ===== verification/Files.v ===== *)
(** * Zone 0's state files, written whole: src/compartments/kryptikd/src/files.rs

    A directory is a map of names; [d_past] keeps every state it went through, since a machine can
    stop in any of them. What the kernel refuses is the parameter [ok], asked call by call. *)
From stdpp Require Import gmap pretty.
From S2P Require Import Prelude Bytes Text.
Open Scope string_scope.
Open Scope list_scope.
Open Scope Z_scope.

Module Files.

Record Node := mkNode { n_data : bytes; n_mode : Z; n_owner : Z * Z; n_synced : bool }.
Record Dir := mkDir { d_files : gmap (list Z) Node; d_past : list (gmap (list Z) Node); d_calls : nat }.
Inductive IoError := Refused | NoName | NotPrivate.
Abbreviation DM := (M Dir IoError).

Section calls.
Context (ok : nat -> bool).

Definition asks : DM bool := fun d => (Done (ok (d_calls d)), mkDir (d_files d) (d_past d) (S (d_calls d))).
Definition change (f : gmap (list Z) Node -> gmap (list Z) Node) : DM unit :=
  modify (fun d => mkDir (f (d_files d)) (d_past d ++ [d_files d]) (d_calls d)).
(** A call that fails when the kernel refuses it. *)
Definition granted : DM unit := b ← asks; if b : bool then mret tt else fail Refused.

Definition remove_file (name : list Z) : DM unit := granted;; change (delete name).
Definition ignore {A} (m : DM A) : DM unit := r ← tried m; mret tt.

Definition stem (name : list Z) : list Z := [46] ++ name ++ [46].
Definition temporary (name : list Z) (pid : Z) : list Z := stem name ++ octets (pretty pid).
(** Whether [n] is a temporary of [name] whose writer is gone. *)
Definition stale (alive : Z -> bool) (name n : list Z) : bool :=
  match strip_prefix (stem name) n ≫= parse_u32 with
  | Some p => negb (alive p)
  | None => false
  end.
Fixpoint remove_stale (alive : Z -> bool) (name : list Z) (l : list (list Z)) : DM unit :=
  match l with
  | [] => mret tt
  | n :: l => when (stale alive name n) (ignore (remove_file n));; remove_stale alive name l
  end.

(** One [write_all]: all of [p], or some of it and an error. *)
Definition append (tmp : list Z) (p : bytes) : DM unit :=
  b ← asks;
  let n := if b : bool then length p else Nat.div2 (length p) in
  change (alter (fun f => mkNode (n_data f ++ take n p) (n_mode f) (n_owner f) false) tmp);;
  if b : bool then mret tt else fail Refused.
Definition set_node (tmp : list Z) (f : Node -> Node) : DM unit := granted;; change (alter f tmp).
Definition create_new (tmp : list Z) (umask : Z) (mode : Z) (me : Z * Z) : DM unit :=
  granted;;
  files ← gets d_files;
  if bool_decide (is_Some (files !! tmp)) then fail Refused
  else change (insert tmp (mkNode [] (Z.ldiff mode umask) me false)).
Definition rename (tmp name : list Z) : DM unit :=
  granted;;
  files ← gets d_files;
  match files !! tmp with
  | None => fail Refused
  | Some f => change (fun files => insert name f (delete tmp files))
  end.

Definition write_tmp (tmp name : list Z) (parts : list bytes) (mode umask : Z) (me : Z * Z) (owner : option (Z * Z)) : DM unit :=
  create_new tmp umask mode me;;
  for_each parts (append tmp);;
  set_node tmp (fun f => mkNode (n_data f) mode (n_owner f) false);;
  match owner with
  | Some o => set_node tmp (fun f => mkNode (n_data f) (n_mode f) o false)
  | None => mret tt
  end;;
  set_node tmp (fun f => mkNode (n_data f) (n_mode f) (n_owner f) true);;
  rename tmp name.

(** [pid] and [me] are this process's; [alive] says which processes there are. *)
Definition write_atomic (alive : Z -> bool) (pid umask : Z) (me : Z * Z) (name : option (list Z)) (parts : list bytes)
  (mode : Z) (owner : option (Z * Z)) : DM unit :=
  name ← require name NoName;
  granted;;
  files ← gets d_files;
  remove_stale alive name (fst <$> map_to_list files);;
  let tmp := temporary name pid in
  ignore (remove_file tmp);;
  r ← tried (write_tmp tmp name parts mode umask me owner);
  match r with
  | Ok _ => mret tt
  | Err e => ignore (remove_file tmp);; fail e
  end.
End calls.

(** What [lstat] says of a directory just made or found. *)
Record Meta := mkMeta { m_is_dir : bool; m_uid : Z; m_mode : Z }.
Inductive Made := MadeOk | MadeExists | MadeFailed.
Definition private_dir (made : Made) (lstat : option Meta) (euid : Z) : result unit IoError :=
  match made with
  | MadeFailed => Err Refused
  | MadeOk | MadeExists =>
    match lstat with
    | None => Err Refused
    | Some m =>
      if negb (m_is_dir m) || negb (m_uid m =? euid) || negb (Z.land (m_mode m) 63 =? 0) then Err NotPrivate else Ok tt
    end
  end.
End Files.

(** * State files: at every moment the old one or the new one *)
Import Files.

Lemma strip_prefix_length p cs r : strip_prefix p cs = Some r -> length cs = (length p + length r)%nat.
Proof.
  revert cs. induction p as [|x p IH]; intros [|c cs]; cbn; try done; [by intros [= <-]..|].
  destruct (x =? c); [|done]. intros H%IH. lia.
Qed.
Lemma tmp_not_name name pid : temporary name pid <> name.
Proof. intros H. apply (f_equal length) in H. unfold temporary, stem in H. rewrite !length_app in H. cbn in H. lia. Qed.
Lemma stale_not_name alive name n : stale alive name n = true -> n <> name.
Proof.
  unfold stale. destruct (strip_prefix (stem name) n) as [r|] eqn:E; cbn; [|done]. intros _ ->.
  apply strip_prefix_length in E. unfold stem in E. rewrite !length_app in E. cbn in E. lia.
Qed.

Section write.
Context (ok : nat -> bool) (alive : Z -> bool) (pid umask : Z) (me : Z * Z) (name : list Z) (parts : list bytes) (mode : Z)
  (owner : option (Z * Z)) (files0 : gmap (list Z) Node) (past0 : list (gmap (list Z) Node)).
Abbreviation tmp := (temporary name pid).

(** The file as it is to be. *)
Definition written : Node := mkNode (mjoin parts) mode (default me owner) true.

(** Every state since the start has the old file under the name; others' files are untouched but
    the temporaries of dead writers; [T] says what our temporary is. *)
Definition before_rename (T : option Node -> Prop) (d : Dir) : Prop :=
  (exists more, d_past d = past0 ++ more /\ Forall (fun s => s !! name = files0 !! name) more) /\
  d_files d !! name = files0 !! name /\
  (forall n, n <> tmp -> d_files d !! n = files0 !! n \/ (stale alive name n = true /\ d_files d !! n = None)) /\
  T (d_files d !! tmp).

Lemma wp_asks (Q : bool -> Dir -> Prop) R d : (forall b, Q b (mkDir (d_files d) (d_past d) (S (d_calls d)))) -> wp (asks ok) Q R d.
Proof. intros H. apply H. Qed.

Lemma before_same T d n : before_rename T d -> before_rename T (mkDir (d_files d) (d_past d) n).
Proof. by intros (? & ? & ? & ?). Qed.
Lemma before_weaken (T T' : option Node -> Prop) d : (forall x, T x -> T' x) -> before_rename T d -> before_rename T' d.
Proof. intros H (? & ? & ? & ?). repeat split; auto. Qed.

Lemma wp_granted T (Q : unit -> Dir -> Prop) R d : before_rename T d ->
  (forall d', before_rename T d' -> Q tt d') -> (forall d', before_rename T d' -> R Refused d') -> wp (granted ok) Q R d.
Proof.
  intros H HQ HR. unfold granted. apply wp_bind, wp_asks. intros [|]; [apply wp_ret, HQ|apply wp_fail, HR]; by apply before_same.
Qed.

(** A change to our temporary alone. *)
Lemma before_change T T' f d : before_rename T d ->
  (forall m n, n <> tmp -> f m !! n = m !! n) -> (forall m, T (m !! tmp) -> T' (f m !! tmp)) ->
  before_rename T' (mkDir (f (d_files d)) (d_past d ++ [d_files d]) (d_calls d)).
Proof.
  intros ((more & Hp & Hm) & Hn & Ho & Ht) Hf HT. split; [|split; [|split]]; cbn.
  - exists (more ++ [d_files d]). rewrite Hp, <-(assoc_L (++)). split; [done|]. apply Forall_app. split; [done|]. by apply Forall_singleton.
  - rewrite Hf; [done|]. intros E. by apply (tmp_not_name name pid).
  - intros n Hne. rewrite Hf by done. by apply Ho.
  - by apply HT.
Qed.

Lemma wp_remove_tmp T d Q R : before_rename T d ->
  (forall d', before_rename (fun x => x = None) d' -> Q tt d') -> (forall d', before_rename T d' -> R Refused d') ->
  wp (remove_file ok tmp) Q R d.
Proof.
  intros H HQ HR. unfold remove_file. apply wp_bind. eapply (wp_granted T); [done| |done]. intros d' H'. apply wp_modify, HQ.
  eapply (before_change T); [done| |].
  - intros m n Hne. by apply lookup_delete_ne.
  - intros m _. apply lookup_delete_eq.
Qed.

Lemma wp_remove_stale T l d (Q : unit -> Dir -> Prop) R : before_rename T d -> (forall x, T x -> T None) ->
  (forall d', before_rename T d' -> Q tt d') -> wp (remove_stale ok alive name l) Q R d.
Proof.
  intros H HT. revert d H. induction l as [|n l IH]; intros d H HQ; cbn [remove_stale]; [by apply wp_ret, HQ|].
  apply wp_bind. apply wp_when; [|intros _; by apply IH]. intros Hs. apply wp_bind, wp_tried. unfold remove_file. apply wp_bind.
  apply (wp_granted T); [done|..]; intros d' H'; [|apply wp_ret; by apply IH]. apply wp_modify, wp_ret. apply IH; [|done].
  destruct H' as ((more & Hp & Hm) & Hn & Ho & Ht). pose proof (stale_not_name _ _ _ Hs) as Hne. split; [|split; [|split]]; cbn.
  - exists (more ++ [d_files d']). rewrite Hp, <-(assoc_L (++)). split; [done|]. apply Forall_app. split; [done|]. by apply Forall_singleton.
  - by rewrite lookup_delete_ne.
  - intros n' Hn'. destruct (decide (n = n')) as [->|?]; [right; by rewrite lookup_delete_eq|rewrite lookup_delete_ne by done; by apply Ho].
  - destruct (decide (n = tmp)) as [->|?]; [rewrite lookup_delete_eq; by eapply HT|by rewrite lookup_delete_ne].
Qed.

Lemma wp_set_node (T T' : Node -> Prop) f d (Q : unit -> Dir -> Prop) R :
  before_rename (fun x => exists v, x = Some v /\ T v) d -> (forall v, T v -> T' (f v)) ->
  (forall d', before_rename (fun x => exists v, x = Some v /\ T' v) d' -> Q tt d') -> (forall d', before_rename (fun _ => True) d' -> R Refused d') ->
  wp (set_node ok tmp f) Q R d.
Proof.
  intros H HT HQ HR. unfold set_node. apply wp_bind. eapply wp_granted; [exact H| |intros d' H'; apply HR; eapply before_weaken; [|exact H']; done].
  intros d' H'. apply wp_modify, HQ. eapply before_change; [exact H'|..].
  - intros m n Hne. by apply lookup_alter_ne.
  - intros m (v & E & Hv). exists (f v). rewrite lookup_alter_eq, E. auto.
Qed.

Lemma wp_append p data d (Q : unit -> Dir -> Prop) R :
  before_rename (fun x => exists v, x = Some v /\ n_data v = data /\ n_owner v = me) d ->
  (forall d', before_rename (fun x => exists v, x = Some v /\ n_data v = data ++ p /\ n_owner v = me) d' -> Q tt d') ->
  (forall d', before_rename (fun _ => True) d' -> R Refused d') -> wp (append ok tmp p) Q R d.
Proof.
  intros H HQ HR. unfold append. apply wp_bind, wp_asks. intros b. apply (before_same _ _ (S (d_calls d))) in H.
  apply wp_bind, wp_modify. destruct b.
  - apply wp_ret, HQ. eapply before_change; [exact H| |].
    + intros m n Hne. by apply lookup_alter_ne.
    + intros m (v & E & Hv & Ho). eexists. rewrite lookup_alter_eq, E. split; [reflexivity|]. cbn. by rewrite Hv, firstn_all.
  - apply wp_fail, HR. eapply before_change; [exact H| |done]. intros m n Hne. by apply lookup_alter_ne.
Qed.

Lemma wp_append_all l data d (Q : unit -> Dir -> Prop) R :
  before_rename (fun x => exists v, x = Some v /\ n_data v = data /\ n_owner v = me) d ->
  (forall d', before_rename (fun x => exists v, x = Some v /\ n_data v = data ++ mjoin l /\ n_owner v = me) d' -> Q tt d') ->
  (forall d', before_rename (fun _ => True) d' -> R Refused d') -> wp (for_each l (append ok tmp)) Q R d.
Proof.
  revert data d. induction l as [|p l IH]; intros data d H HQ HR; cbn [for_each].
  - apply wp_ret, HQ. by rewrite app_nil_r.
  - apply wp_bind. eapply wp_append; [exact H| |done]. intros d' H'. eapply IH; [exact H'| |done].
    intros d'' H''. apply HQ. cbn [mjoin list_join] in *. by rewrite (assoc_L (++)).
Qed.

(** Our temporary is gone, or its removal was the last call and was refused. *)
Definition cleaned (d : Dir) : Prop := d_files d !! tmp = None \/ exists k, d_calls d = S k /\ ok k = false.

Lemma wp_clean T d (Q : unit -> Dir -> Prop) R : before_rename T d ->
  (forall d', before_rename (fun _ => True) d' -> cleaned d' -> Q tt d') -> wp (ignore (remove_file ok tmp)) Q R d.
Proof.
  intros H HQ. unfold ignore, remove_file, granted. apply wp_bind, wp_tried, wp_bind, wp_bind.
  unfold asks, wp at 1. apply (before_same _ _ (S (d_calls d))) in H. destruct (ok (d_calls d)) eqn:E.
  - apply wp_ret, wp_modify, wp_ret, HQ; [|left; apply lookup_delete_eq]. eapply before_change; [exact H| |done].
    intros m n Hne. by apply lookup_delete_ne.
  - apply wp_fail, wp_ret, HQ; [eapply before_weaken; [|exact H]; done|]. right. by exists (d_calls d).
Qed.

(** The directory once the temporary has become the file. *)
Definition renamed (d : Dir) : Prop :=
  (exists more, d_past d = past0 ++ more /\ Forall (fun s => s !! name = files0 !! name) more) /\
  d_files d !! name = Some written /\ d_files d !! tmp = None /\
  (forall n, n <> tmp -> n <> name -> d_files d !! n = files0 !! n \/ (stale alive name n = true /\ d_files d !! n = None)).

Lemma wp_rename d (Q : unit -> Dir -> Prop) R : before_rename (fun x => x = Some written) d ->
  (forall d', renamed d' -> Q tt d') -> (forall d', before_rename (fun _ => True) d' -> R Refused d') -> wp (rename ok tmp name) Q R d.
Proof.
  intros H HQ HR. unfold rename. apply wp_bind. eapply wp_granted; [exact H| |intros d' H'; apply HR; eapply before_weaken; [|exact H']; done].
  intros d' ((more & Hp & Hm) & Hn & Ho & Ht). apply wp_bind, wp_gets. rewrite Ht. apply wp_modify, HQ. pose proof (tmp_not_name name pid) as Hne.
  split; [|split; [|split]]; cbn [d_past d_files].
  - exists (more ++ [d_files d']). rewrite Hp, <-(assoc_L (++)). split; [done|]. apply Forall_app. split; [done|]. by apply Forall_singleton.
  - apply lookup_insert_eq.
  - rewrite lookup_insert_ne by congruence. apply lookup_delete_eq.
  - intros n H1 H2. rewrite lookup_insert_ne, lookup_delete_ne by congruence. by apply Ho.
Qed.

Lemma wp_write_tmp d : before_rename (fun _ => True) d ->
  wp (write_tmp ok tmp name parts mode umask me owner) (fun _ => renamed) (fun _ => before_rename (fun _ => True)) d.
Proof.
  intros H. unfold write_tmp, create_new. apply wp_bind, wp_bind. eapply wp_granted; [exact H| |done]. intros d1 H1.
  apply wp_bind, wp_gets. case_bool_decide; [by apply wp_fail|]. apply wp_modify, wp_bind.
  eapply (wp_append_all parts []); [|cbn [app]|done].
  { eapply before_change; [exact H1|..].
    - intros m n Hne. by apply lookup_insert_ne.
    - intros m _. eexists. rewrite lookup_insert_eq. done. }
  intros d2 H2. apply wp_bind. eapply (wp_set_node _ (fun v => n_data v = mjoin parts /\ n_mode v = mode /\ n_owner v = me)); [exact H2|by intros v [-> ->]| |done].
  intros d3 H3. apply wp_bind. assert (wp match owner with Some o => set_node ok tmp (fun f => mkNode (n_data f) (n_mode f) o false) | None => mret tt end
    (fun _ => before_rename (fun x => exists v, x = Some v /\ n_data v = mjoin parts /\ n_mode v = mode /\ n_owner v = default me owner))
    (fun _ => before_rename (fun _ => True)) d3) as Ho.
  { destruct owner as [o|]; [|by apply wp_ret]. eapply (wp_set_node _ (fun v => n_data v = mjoin parts /\ n_mode v = mode /\ n_owner v = o)); [exact H3| |done|done].
    by intros v (-> & -> & _). }
  eapply wp_mono; [| |exact Ho]; [|done]. intros u d4 H4. apply wp_bind.
  eapply (wp_set_node _ (fun v => v = written)); [exact H4|unfold written; by intros v (-> & -> & ->)| |done].
  intros d5 H5. apply wp_rename; [|done|done]. eapply before_weaken; [|exact H5]. by intros x (v & -> & ->).
Qed.
End write.

(** C21: whatever the kernel refuses, and wherever the machine stops, the file is the old
    one or the whole new one, with its mode and owner and synced before it is named; after a
    failure it is the old one, and our temporary is gone unless its removal was refused too. No
    other file changes but temporaries of the same file whose writers are dead, which go. *)
Theorem atomic_write (ok : nat -> bool) (alive : Z -> bool) (pid umask : Z) (me : Z * Z) (name : list Z) (parts : list bytes)
  (mode : Z) (owner : option (Z * Z)) (d : Dir) :
  let '(r, d') := write_atomic ok alive pid umask me (Some name) parts mode owner d in
  (exists more, d_past d' = d_past d ++ more /\ Forall (fun s => s !! name = d_files d !! name) more) /\
  (forall n, n <> temporary name pid -> n <> name ->
    d_files d' !! n = d_files d !! n \/ (stale alive name n = true /\ d_files d' !! n = None)) /\
  match r with
  | Done _ => d_files d' !! name = Some (mkNode (mjoin parts) mode (default me owner) true) /\ d_files d' !! temporary name pid = None
  | Fail _ => d_files d' !! name = d_files d !! name /\
              (d_files d' !! temporary name pid = None \/ exists k, d_calls d' = S k /\ ok k = false)
  | Panic => False
  end.
Proof.
  enough (wp (write_atomic ok alive pid umask me (Some name) parts mode owner)
    (fun _ => renamed alive pid me name parts mode owner (d_files d) (d_past d))
    (fun _ d' => before_rename alive pid name (d_files d) (d_past d) (fun _ => True) d' /\ cleaned ok pid name d') d) as H.
  { unfold wp in H. destruct (write_atomic _ _ _ _ _ _ _ _ _ _) as [[[]|e|] d']; [| |done].
    - destruct H as (Hp & Hn & Ht & Ho). auto.
    - destruct H as ((Hp & Hn & Ho & _) & Hc). auto. }
  assert (before_rename alive pid name (d_files d) (d_past d) (fun _ => True) d) as H0.
  { split; [exists []; by rewrite app_nil_r|]. split; [done|]. split; [auto|done]. }
  unfold write_atomic. apply wp_bind, wp_require; [|done]. intros x [= <-]. apply wp_bind. unfold granted. apply wp_bind. unfold asks, wp at 1.
  apply (before_same _ _ _ _ _ _ _ (S (d_calls d))) in H0. destruct (ok (d_calls d)) eqn:Ek.
  2: { apply wp_fail. split; [done|]. right. by exists (d_calls d). }
  apply wp_ret, wp_bind, wp_gets, wp_bind. eapply wp_remove_stale; [exact H0|done|]. intros d1 H1. apply wp_bind.
  eapply wp_clean; [exact H1|]. intros d2 H2 _. apply wp_bind, wp_tried. eapply wp_mono; [| |by apply wp_write_tmp]; cbv beta.
  - intros _ d3 H3. by apply wp_ret.
  - intros e d3 H3. apply wp_bind. eapply wp_clean; [exact H3|]. intros d4 H4 Hc. by apply wp_fail.
Qed.
