(* ===== verification/Cgroup.v ===== *)
(** * Limits of a zone: src/compartments/kryptikd/src/cgroup.rs

    The cgroup file system answers through [CgOs]; [g_log] keeps what was written, in order. Also
    how a launch puts its child under the zone's limits (spawn.rs). *)
From stdpp Require Import pretty.
From S2P Require Import Prelude Bytes Text Zone Registry.
Open Scope string_scope.
Open Scope list_scope.
Open Scope Z_scope.

Module Cgroup.
Import Registry.

Abbreviation path := (list Z).
Definition join (p : path) (name : list Z) : path := p ++ [47] ++ name.
Definition CGROUP2_ROOT : path := Eval vm_compute in chars "/sys/fs/cgroup".
Definition KRYPTIK_GROUP : list Z := Eval vm_compute in chars "kryptik".
Definition NEEDED : list (list Z) := Eval vm_compute in chars <$> ["memory"; "pids"; "cpu"; "io"].

Inductive CgroupError := Unavailable (why : string) | CgIo (p : path) (e : Errno) | BadLimit (field value : string).

(** What the file system answers, call by call. *)
Record CgOs := mkCgOs {
  co_read : nat -> path -> result (list Z) Errno;
  co_write : nat -> path -> list Z -> option Errno;
  co_mkdir : nat -> path -> option Errno;
  co_rmdir : nat -> path -> option Errno;
  co_exists : nat -> path -> bool
}.
Record Cg := mkCg { g_log : list (path * list Z); g_calls : nat }.
Abbreviation GM := (M Cg CgroupError).

Definition ask {A} (f : nat -> A) : GM A := fun g => (Done (f (g_calls g)), mkCg (g_log g) (S (g_calls g))).

Section calls.
Context (os : CgOs).

(** [fs::write], its error as it comes; what is written is kept. *)
Definition put (p : path) (t : list Z) : GM (option Errno) :=
  e ← ask (fun n => co_write os n p t);
  match e with
  | None => modify (fun g => mkCg (g_log g ++ [(p, t)]) (g_calls g));; mret None
  | Some e => mret (Some e)
  end.
Definition write (p : path) (t : list Z) : GM unit :=
  e ← put p t;
  match e with None => mret tt | Some e => fail (CgIo p e) end.
Definition mkdir (p : path) : GM unit :=
  e ← ask (fun n => co_mkdir os n p);
  match e with None => mret tt | Some e => fail (CgIo p e) end.
Definition rmdir (p : path) : GM (option Errno) := ask (fun n => co_rmdir os n p).
Definition exists_ (p : path) : GM bool := ask (fun n => co_exists os n p).

Definition parse_memory_max (v : string) : result Z CgroupError := ok_or (parse_size v) (BadLimit "memory_max" v).
Definition parse_cpu_limit (v : string) : result Z CgroupError := ok_or (parse_cpu_max v) (BadLimit "cpu_max" v).
Definition parse_io_max (v : string) : result Z CgroupError := ok_or (parse_size v) (BadLimit "io_max" v).

Definition read_trim (p : path) : GM (list Z) :=
  r ← ask (fun n => co_read os n p);
  match r with Ok t => mret (trim t) | Err e => fail (CgIo p e) end.

Fixpoint missing (avail enabled : list (list Z)) (needed : list (list Z)) : result (list Z) CgroupError :=
  match needed with
  | [] => Ok []
  | c :: needed =>
    if negb (bool_decide (c ∈ avail)) then Err (Unavailable "a controller is not available")
    else
      (let? add := missing avail enabled needed in
       Ok (if negb (bool_decide (c ∈ enabled)) then [43] ++ c ++ [32] ++ add else add))%result
  end.
Definition ensure_subtree_control (dir : path) : GM unit :=
  avail ← read_trim (join dir (chars "cgroup.controllers"));
  r ← tried (read_trim (join dir (chars "cgroup.subtree_control")));
  let enabled := match r with Ok t => t | Err _ => [] end in
  add ← lift (missing (words avail) (words enabled) NEEDED);
  if bool_decide (add = []) then mret tt
  else write (join dir (chars "cgroup.subtree_control")) (trim add).

(** ** Sweeping *)
Record Leaf := mkLeaf { lf_name : list Z; lf_dir : bool; lf_procs : option (list Z); lf_age : option Z }.
Definition STALE_AFTER : Z := 5.
Fixpoint rsplit_once (c : Z) (cs : list Z) : option (list Z * list Z) :=
  match cs with
  | [] => None
  | x :: cs =>
    match rsplit_once c cs with
    | Some (l, r) => Some (x :: l, r)
    | None => if x =? c then Some ([], cs) else None
    end
  end.
Definition launcher_of (name : list Z) : option Z := '(_, r) ← rsplit_once 46 name; parse_i32 r.
Definition populated (procs : option (list Z)) : bool :=
  match procs with
  | Some s => existsb (fun l => negb (bool_decide (trim l = []))) (lines s)
  | None => true
  end.
Definition abandoned (alive : Z -> bool) (l : Leaf) : bool :=
  lf_dir l
  && match launcher_of (lf_name l) with
     | Some pid => negb (alive pid)
     | None => match lf_age l with Some age => STALE_AFTER <? age | None => false end
     end
  && negb (populated (lf_procs l)).
Definition abandoned_leaves (alive : Z -> bool) (entries : list Leaf) : list Leaf := List.filter (abandoned alive) entries.
Fixpoint rmdir_times (n : nat) (p : path) : GM unit :=
  match n with
  | O => mret tt
  | S n => e ← rmdir p; match e with None => mret tt | Some _ => rmdir_times n p end
  end.
Definition sweep_stale (base : path) (alive : Z -> bool) (entries : list Leaf) : GM unit :=
  for_each (abandoned_leaves alive entries) (fun l => rmdir_times 5 (join base (lf_name l))).

(** [pid] is this process; [entries] what the group holds when it is swept. *)
Definition available_under (root : path) (pid : Z) (alive : Z -> bool) (entries : list Leaf) : GM path :=
  there ← exists_ (join root (chars "cgroup.controllers"));
  if negb there then fail (Unavailable "not a cgroup v2 hierarchy")
  else
    ensure_subtree_control root;;
    let group := join root KRYPTIK_GROUP in
    made ← exists_ group;
    when (negb made) (mkdir group);;
    ensure_subtree_control group;;
    let probe := join group (chars ".probe." ++ show_num pid) in
    rmdir probe;;
    e ← ask (fun n => co_mkdir os n probe);
    match e with
    | Some _ => fail (Unavailable "cannot create a cgroup")
    | None => rmdir probe;; sweep_stale group alive entries;; mret group
    end.

(** ** One zone's cgroup *)
Definition leaf_name (zone : list Z) (launcher_pid : Z) : list Z := zone ++ [46] ++ show_num launcher_pid.
Definition create (base : path) (zone : list Z) (launcher_pid : Z) : GM path :=
  let p := join base (leaf_name zone launcher_pid) in
  rmdir p;;
  mkdir p;;
  mret p.

Definition MAX : list Z := Eval vm_compute in chars "max".
Definition PERIOD : list Z := Eval vm_compute in chars " 100000".
Definition io_line (device : list Z) (bps : Z) : list Z :=
  device ++ chars " rbps=" ++ show_num bps ++ chars " wbps=" ++ show_num bps.
Definition set_limits (cg : path) (memory_max : option string) (pids_max : option Z) (cpu_max : option string)
  (io_max : option (list (list Z) * string)) : GM unit :=
  let mem := join cg (chars "memory.max") in
  match memory_max with
  | Some v => bytes ← lift (parse_memory_max v); write mem (show_num bytes)
  | None => put mem MAX;; mret tt
  end;;
  let pids := join cg (chars "pids.max") in
  match pids_max with
  | Some n => write pids (show_num n)
  | None => put pids MAX;; mret tt
  end;;
  let cpu := join cg (chars "cpu.max") in
  match cpu_max with
  | Some v => pct ← lift (parse_cpu_limit v); write cpu (show_num (pct * 1000) ++ PERIOD)
  | None => put cpu (MAX ++ PERIOD);; mret tt
  end;;
  match io_max with
  | Some (devices, v) =>
    bps ← lift (parse_io_max v);
    for_each devices (fun d => write (join cg (chars "io.max")) (io_line d bps))
  | None => mret tt
  end;;
  write (join cg (chars "memory.oom.group")) [49];;
  e ← put (join cg (chars "memory.swap.max")) [48];
  match e with
  | None | Some ENoent => mret tt
  | Some e => fail (CgIo (join cg (chars "memory.swap.max")) e)
  end.

Definition attach (cg : path) (pid : Z) : GM unit := write (join cg (chars "cgroup.procs")) (show_num pid).

Fixpoint destroy_loop (n : nat) (cg : path) : GM unit :=
  match n with
  | O => e ← rmdir cg; match e with None => mret tt | Some e => fail (CgIo cg e) end
  | S n => e ← rmdir cg; match e with None | Some ENoent => mret tt | Some _ => destroy_loop n cg end
  end.
Definition destroy (cg : path) : GM unit := put (join cg (chars "cgroup.kill")) [49];; destroy_loop 50 cg.

(** A launch's child put under the zone's limits, before it goes on; [devices] are the volume's,
    known only when it is open. *)
Definition limit_zone (base : path) (z : Zone) (parent_pid pid : Z) (devices : option (list (list Z))) : GM path :=
  cg ← create base (chars (z_name z)) parent_pid;
  io ← match z_io_max z, devices with
       | None, _ => mret []
       | Some _, Some d => mret d
       | Some _, None => fail (Unavailable "limits.io_max bounds the zone's volume, which only a root launch opens")
       end;
  set_limits cg (z_memory_max z) (z_pids_max z) (z_cpu_max z) (pair io <$> z_io_max z);;
  attach cg pid;;
  mret cg.

(** ** The desktop *)
Definition DESKTOP_GROUP : list Z := Eval vm_compute in chars "kryptik-desktop".
Definition desktop_memory_max (mem_total : Z) : Z := Z.max (mem_total / 4) (Z.shiftl 1 30).
Definition zoned (p : list Z) : bool :=
  bool_decide (p = chars "/kryptik") || bool_decide (is_Some (strip_prefix (chars "/kryptik/") p)).
(** The real uid a status file gives, as its text. *)
Definition real_uid (status : list Z) : option (list Z) :=
  v ← find_map (strip_prefix (chars "Uid:")) (lines status); words v !! 0%nat.
Definition in_zone (held : list Z) : bool :=
  existsb (fun l => match strip_prefix (chars "0::") l with Some p => zoned p | None => false end) (lines held).
(** [str::strip_suffix] of a text. *)
Definition strip_end (suffix cs : list Z) : option (list Z) := reverse <$> strip_prefix (reverse suffix) (reverse cs).
Definition mem_total_kb (meminfo : list Z) : option Z :=
  v ← find_map (strip_prefix (chars "MemTotal:")) (lines meminfo);
  kb ← strip_end (chars "kB") (trim v);
  parse_u64 (trim kb).
Definition prepare_desktop_under (root procfs : path) (uid pid : Z) : GM (path * Z) :=
  reject_if (uid =? 0) (Unavailable "the desktop is an ordinary user's, not root's");;
  let asker := join procfs (show_num pid) in
  status ← read_trim (join asker (chars "status"));
  reject_if (negb (bool_decide (real_uid status = Some (show_num uid)))) (Unavailable "the pid is not the user's");;
  held ← read_trim (join asker (chars "cgroup"));
  reject_if (in_zone held) (Unavailable "the pid runs in a zone's or a proxy's cgroup");;
  there ← exists_ (join root (chars "cgroup.controllers"));
  reject_if (negb there) (Unavailable "not a cgroup v2 hierarchy");;
  ensure_subtree_control root;;
  let group := join root DESKTOP_GROUP in
  rmdir group;;
  made ← exists_ group;
  when (negb made) (mkdir group);;
  meminfo ← read_trim (join procfs (chars "meminfo"));
  total_kb ← require (mem_total_kb meminfo) (Unavailable "no MemTotal");
  total ← (if total_kb * 1024 <=? U64_MAX then mret (total_kb * 1024) else panic);
  let max := desktop_memory_max total in
  write (join group (chars "memory.max")) (show_num max);;
  mret (group, max).
End calls.
End Cgroup.

(** * Limits: what a launched zone is under, and which leaves the sweep spares *)
From S2P Require Import ZoneSafe ZoneClaims RegistryClaims.
Import Registry Cgroup.

Section calls.
Context (os : CgOs) (g0 : Cg).

(** What was written since [g0]. *)
Definition since (l : list (path * list Z)) (g : Cg) : Prop := g_log g = g_log g0 ++ l.

Lemma wp_ask_since {A} (f : nat -> A) l (Q : A -> Cg -> Prop) R g : since l g -> (forall a g', since l g' -> Q a g') -> wp (ask f) Q R g.
Proof. intros H HQ. by apply HQ. Qed.

Lemma wp_put p t l (Q : option Errno -> Cg -> Prop) R g : since l g ->
  (forall g', since (l ++ [(p, t)]) g' -> Q None g') -> (forall e g', since l g' -> Q (Some e) g') -> wp (put os p t) Q R g.
Proof.
  intros H HN HS. unfold put. apply wp_bind. eapply wp_ask_since; [exact H|]. intros [e|] g' H'; [by apply wp_ret, HS|].
  apply wp_bind, wp_modify, wp_ret, HN. unfold since in *. cbn. by rewrite H', <-(assoc_L (++)).
Qed.
Lemma wp_write p t l (Q : unit -> Cg -> Prop) R g : since l g ->
  (forall g', since (l ++ [(p, t)]) g' -> Q tt g') -> (forall e g', since l g' -> R (CgIo p e) g') -> wp (write os p t) Q R g.
Proof.
  intros H HQ HR. unfold write. apply wp_bind. eapply wp_put; [exact H|..]; intros; [by apply wp_ret, HQ|by apply wp_fail, HR].
Qed.
Lemma wp_put_any p t l (Q : unit -> Cg -> Prop) R g : since l g ->
  (forall l' g', l' ⊆ [(p, t)] -> since (l ++ l') g' -> Q tt g') -> wp (put os p t;; mret tt) Q R g.
Proof.
  intros H HQ. apply wp_bind. eapply wp_put; [exact H|..].
  - intros g' H'. by apply wp_ret, (HQ [(p, t)]).
  - intros e g' H'. apply wp_ret, (HQ []); [set_solver|by rewrite app_nil_r].
Qed.

(** An error of the file system, not of a limit. *)
Definition not_limit (e : CgroupError) : Prop := forall f v, e <> BadLimit f v.

Lemma wp_io_lines cg bps ds l (Q : unit -> Cg -> Prop) (R : CgroupError -> Cg -> Prop) g : since l g ->
  (forall g', since (l ++ ((fun d => (join cg (chars "io.max"), io_line d bps)) <$> ds)) g' -> Q tt g') ->
  (forall e ds' g', since (l ++ ((fun d => (join cg (chars "io.max"), io_line d bps)) <$> ds')) g' -> R (CgIo (join cg (chars "io.max")) e) g') ->
  wp (for_each ds (fun d => write os (join cg (chars "io.max")) (io_line d bps))) Q R g.
Proof.
  revert l g. induction ds as [|d ds IH]; intros l g H HQ HR; cbn [for_each].
  - apply wp_ret, HQ. by rewrite app_nil_r.
  - apply wp_bind. eapply wp_write; [exact H|..].
    + intros g' H'. eapply IH; [exact H'|..].
      * intros g'' H''. apply HQ. rewrite fmap_cons. by rewrite <-(assoc_L (++)) in H''.
      * intros e ds' g'' H''. apply (HR e (d :: ds')). rewrite fmap_cons. by rewrite <-(assoc_L (++)) in H''.
    + intros e g' H'. apply (HR e []). by rewrite app_nil_r.
Qed.

(** The writes of a zone's limits. *)
Definition limits_written (cg : path) (z : Zone) (devices : list (list Z)) (l : list (path * list Z)) : Prop :=
  (forall v b, z_memory_max z = Some v -> parse_size v = Some b -> (join cg (chars "memory.max"), show_num b) ∈ l) /\
  (forall n, z_pids_max z = Some n -> (join cg (chars "pids.max"), show_num n) ∈ l) /\
  (forall v pct, z_cpu_max z = Some v -> parse_cpu_max v = Some pct -> (join cg (chars "cpu.max"), show_num (pct * 1000) ++ PERIOD) ∈ l) /\
  (forall v bps d, z_io_max z = Some v -> parse_size v = Some bps -> d ∈ devices -> (join cg (chars "io.max"), io_line d bps) ∈ l) /\
  (join cg (chars "memory.oom.group"), [49]) ∈ l.
(** Writes to files of [cg] other than [cgroup.procs]. *)
Definition elsewhere (cg : path) (l : list (path * list Z)) : Prop := Forall (fun w => w.1 <> join cg (chars "cgroup.procs")) l.

Lemma elsewhere_app cg l l' : elsewhere cg l -> elsewhere cg l' -> elsewhere cg (l ++ l').
Proof. intros. by apply Forall_app. Qed.
Lemma elsewhere_sub cg l l' : l' ⊆ l -> elsewhere cg l -> elsewhere cg l'.
Proof. unfold elsewhere. rewrite !Forall_forall. naive_solver. Qed.
Lemma elsewhere_one cg name t : name <> chars "cgroup.procs" -> elsewhere cg [(join cg name, t)].
Proof. intros H. apply Forall_singleton. cbn. unfold join. intros E. by apply app_inj_1 in E as [_ [= E]]. Qed.
Lemma elsewhere_io cg bps ds : elsewhere cg ((fun d => (join cg (chars "io.max"), io_line d bps)) <$> ds).
Proof. apply Forall_fmap, Forall_true. intros d. cbn. unfold join. intros E. by apply app_inj_1 in E as [_ [= E]]. Qed.

(** A block of writes that adds what [P] says, none of it to [cgroup.procs]. *)
Definition block (cg : path) (P : list (path * list Z) -> Prop) (m : GM unit) : Prop :=
  forall l g, since l g ->
    wp m (fun _ g' => exists l', since (l ++ l') g' /\ elsewhere cg l' /\ P l')
         (fun e g' => not_limit e /\ exists l', since (l ++ l') g' /\ elsewhere cg l') g.

Lemma block_bind cg P P' m m' : block cg P m -> block cg P' m' ->
  block cg (fun l => exists a b, l = a ++ b /\ P a /\ P' b) (m;; m').
Proof.
  intros Hm Hm' l g H. apply wp_bind. eapply wp_mono; [| |by apply Hm]; cbv beta; [|done].
  intros _ g1 (a & H1 & Ha & HP). eapply wp_mono; [| |by apply (Hm' (l ++ a))]; cbv beta.
  - intros _ g2 (b & H2 & Hb & HP'). exists (a ++ b). rewrite (assoc_L (++)). split; [done|]. split; [by apply elsewhere_app|]. eauto.
  - intros e g2 (He & b & H2 & Hb). split; [done|]. exists (a ++ b). rewrite (assoc_L (++)). split; [done|]. by apply elsewhere_app.
Qed.

Lemma block_write cg name t : name <> chars "cgroup.procs" -> block cg (fun l => (join cg name, t) ∈ l) (write os (join cg name) t).
Proof.
  intros Hn l g H. eapply wp_write; [exact H|..].
  - intros g' H'. eexists. split; [exact H'|]. split; [by apply elsewhere_one|set_solver].
  - intros e g' H'. split; [done|]. exists []. rewrite app_nil_r. split; [done|constructor].
Qed.
Lemma block_put cg name t : name <> chars "cgroup.procs" -> block cg (fun _ => True) (put os (join cg name) t;; mret tt).
Proof.
  intros Hn l g H. eapply wp_put_any; [exact H|]. intros l' g' Hs H'. exists l'. split; [done|]. split; [|done].
  eapply elsewhere_sub; [exact Hs|by apply elsewhere_one].
Qed.
Lemma block_mono cg (P P' : list (path * list Z) -> Prop) m : (forall l, P l -> P' l) -> block cg P m -> block cg P' m.
Proof. intros HP Hm l g H. eapply wp_mono; [| |by apply Hm]; cbv beta; [|done]. intros _ g' (l' & ? & ? & ?). eauto. Qed.
Lemma block_lift {A} cg P (r : result A CgroupError) a (f : A -> GM unit) : r = Ok a -> block cg P (f a) -> block cg P (x ← lift r; f x).
Proof. intros -> Hf l g H. apply wp_bind. apply wp_lift; [|done]. intros x [= ->]. by apply Hf. Qed.

Lemma block_set_limits cg z ds : zone_wf z ->
  block cg (limits_written cg z ds) (set_limits os cg (z_memory_max z) (z_pids_max z) (z_cpu_max z) (pair ds <$> z_io_max z)).
Proof.
  intros Hz. unfold set_limits.
  assert (block cg (fun l => forall v b, z_memory_max z = Some v -> parse_size v = Some b -> (join cg (chars "memory.max"), show_num b) ∈ l)
    match z_memory_max z with Some v => bytes ← lift (parse_memory_max v); write os (join cg (chars "memory.max")) (show_num bytes)
    | None => put os (join cg (chars "memory.max")) MAX;; mret tt end) as Hmem.
  { destruct (z_memory_max z) as [v|] eqn:E; [|eapply block_mono; [|by apply block_put]; done].
    destruct (wf_memory _ Hz v E) as [b Eb]. eapply block_lift; [unfold parse_memory_max; by rewrite Eb|].
    eapply block_mono; [|by apply block_write]. intros l H v' b' [= <-] Eb'. congruence. }
  assert (block cg (fun l => forall n, z_pids_max z = Some n -> (join cg (chars "pids.max"), show_num n) ∈ l)
    match z_pids_max z with Some n => write os (join cg (chars "pids.max")) (show_num n) | None => put os (join cg (chars "pids.max")) MAX;; mret tt end) as Hpids.
  { destruct (z_pids_max z) as [n|] eqn:E; [|eapply block_mono; [|by apply block_put]; done].
    eapply block_mono; [|by apply block_write]. by intros l H n' [= <-]. }
  assert (block cg (fun l => forall v pct, z_cpu_max z = Some v -> parse_cpu_max v = Some pct -> (join cg (chars "cpu.max"), show_num (pct * 1000) ++ PERIOD) ∈ l)
    match z_cpu_max z with Some v => pct ← lift (parse_cpu_limit v); write os (join cg (chars "cpu.max")) (show_num (pct * 1000) ++ PERIOD)
    | None => put os (join cg (chars "cpu.max")) (MAX ++ PERIOD);; mret tt end) as Hcpu.
  { destruct (z_cpu_max z) as [v|] eqn:E; [|eapply block_mono; [|by apply block_put]; done].
    destruct (wf_cpu _ Hz v E) as [b Eb]. eapply block_lift; [unfold parse_cpu_limit; by rewrite Eb|].
    eapply block_mono; [|by apply block_write]. intros l H v' b' [= <-] Eb'. congruence. }
  assert (block cg (fun l => forall v bps d, z_io_max z = Some v -> parse_size v = Some bps -> d ∈ ds -> (join cg (chars "io.max"), io_line d bps) ∈ l)
    match pair ds <$> z_io_max z with Some (devices, v) => bps ← lift (parse_io_max v); for_each devices (fun d => write os (join cg (chars "io.max")) (io_line d bps))
    | None => mret tt end) as Hio.
  { destruct (z_io_max z) as [v|] eqn:E; cbn [fmap option_fmap option_map].
    - destruct (wf_io _ Hz v E) as [b Eb]. eapply block_lift; [unfold parse_io_max; by rewrite Eb|]. intros l g H.
      eapply wp_io_lines; [exact H|..].
      + intros g' H'. eexists. split; [exact H'|]. split; [apply elsewhere_io|]. intros v' b' d [= <-] Eb' Hd.
        assert (b' = b) as -> by congruence. apply list_elem_of_fmap. eauto.
      + intros e ds' g' H'. split; [done|]. eexists. split; [exact H'|apply elsewhere_io].
    - intros l g H. apply wp_ret. exists []. rewrite app_nil_r. split; [done|]. split; [constructor|done]. }
  assert (block cg (fun _ => True) (e ← put os (join cg (chars "memory.swap.max")) [48];
    match e with None | Some ENoent => mret tt | Some e => fail (CgIo (join cg (chars "memory.swap.max")) e) end)) as Hswap.
  { intros l g H. apply wp_bind. eapply wp_put; [exact H|..].
    - intros g' H'. apply wp_ret. eexists. split; [exact H'|]. split; [by apply elsewhere_one|done].
    - intros e g' H'. assert (since (l ++ []) g') as H'' by (by rewrite app_nil_r).
      destruct e; first [apply wp_fail; split; [done|]; exists []; split; [done|constructor]|apply wp_ret; exists []; split; [done|]; split; [constructor|done]]. }
  pose proof (block_write cg (chars "memory.oom.group") [49] ltac:(by vm_compute)) as Hoom.
  eapply block_mono; [|exact (block_bind _ _ _ _ _ Hmem (block_bind _ _ _ _ _ Hpids (block_bind _ _ _ _ _ Hcpu (block_bind _ _ _ _ _ Hio (block_bind _ _ _ _ _ Hoom Hswap)))))].
  intros l (a & b & -> & H1 & a2 & b2 & -> & H2 & a3 & b3 & -> & H3 & a4 & b4 & -> & H4 & a5 & b5 & -> & H5 & _).
  split_and!; intros; rewrite !elem_of_app; naive_solver.
Qed.
End calls.


(** ** Sweeping *)
Lemma rsplit_once_app c l r : c ∉ r -> rsplit_once c (l ++ [c] ++ r) = Some (l, r).
Proof.
  intros Hr. assert (rsplit_once c r = None) as Hn.
  { induction r as [|x r IH]; cbn; [done|]. apply not_elem_of_cons in Hr as [Hx Hr]. rewrite IH by done.
    by rewrite (proj2 (Z.eqb_neq x c)) by congruence. }
  induction l as [|x l IH]; cbn; [by rewrite Hn, Z.eqb_refl|]. cbn in IH. by rewrite IH.
Qed.

Lemma launcher_of_leaf zone pid : 0 <= pid <= 2147483647 -> launcher_of (leaf_name zone pid) = Some pid.
Proof.
  intros Hp. unfold launcher_of, leaf_name. rewrite rsplit_once_app.
  - cbn. pose proof (parse_i32_show pid ltac:(lia)) as H. unfold show_int in H. by rewrite (proj2 (Z.ltb_ge _ _)) in H by lia.
  - intros H. destruct (show_num_digits pid) as (_ & Hd & _); [lia|]. rewrite Forall_forall in Hd. apply Hd in H. lia.
Qed.

(** The sweep removes only directories that hold no process, and never the cgroup a
    running launcher made, whatever the zone is called, full or still empty. *)
Theorem sweep_spares (alive : Z -> bool) (entries : list Leaf) :
  (forall l, l ∈ abandoned_leaves alive entries -> l ∈ entries /\ lf_dir l = true /\
    exists procs, lf_procs l = Some procs /\ Forall (fun line => trim line = []) (lines procs)) /\
  (forall l zone pid, l ∈ entries -> lf_name l = leaf_name zone pid -> 0 <= pid <= 2147483647 -> alive pid = true ->
    l ∉ abandoned_leaves alive entries).
Proof.
  unfold abandoned_leaves. split.
  - intros l [Hin Ha]%list_elem_of_In%filter_In. unfold abandoned in Ha. apply andb_true_iff in Ha as [[Hd _]%andb_true_iff Hp%negb_true_iff].
    split; [by apply list_elem_of_In|]. split; [done|]. unfold populated in Hp. destruct (lf_procs l) as [procs|]; [|done].
    exists procs. split; [done|]. apply Forall_forall. intros line Hl. destruct (decide (trim line = [])) as [|Hne]; [done|].
    assert (existsb (fun l => negb (bool_decide (trim l = []))) (lines procs) = true) as E; [|congruence].
    apply existsb_exists. exists line. split; [by apply list_elem_of_In|]. by rewrite bool_decide_eq_false_2.
  - intros l zone pid _ En Hp Ha [_ H]%list_elem_of_In%filter_In. unfold abandoned in H. rewrite En, launcher_of_leaf, Ha in H by done.
    by rewrite andb_false_r in H.
Qed.

(** ** The desktop *)
Section desktop.
Context (os : CgOs) (g : Cg).

Lemma wp_asked {A} (f : nat -> A) (Q : A -> Cg -> Prop) R g1 : (forall a g', Q a g') -> wp (ask f) Q R g1.
Proof. intros H. apply H. Qed.
Lemma wp_read_trim p (Q : list Z -> Cg -> Prop) R g1 :
  (forall t n g', co_read os n p = Ok t -> Q (trim t) g') -> (forall e g', R (CgIo p e) g') -> wp (read_trim os p) Q R g1.
Proof.
  intros HQ HR. unfold read_trim. apply wp_bind. unfold ask, wp at 1. destruct (co_read os (g_calls g1) p) as [t|e] eqn:E.
  - apply wp_ret. by eapply HQ.
  - apply wp_fail, HR.
Qed.
Lemma wp_subtree dir (Q : unit -> Cg -> Prop) (R : CgroupError -> Cg -> Prop) g1 :
  (forall g', Q tt g') -> (forall e g', R e g') -> wp (ensure_subtree_control os dir) Q R g1.
Proof.
  intros HQ HR. unfold ensure_subtree_control. apply wp_bind, wp_read_trim; [|auto]. intros t n g2 _. apply wp_bind, wp_tried.
  assert (forall x g3, wp (add ← lift (missing (words (trim t)) (words x) NEEDED);
    if bool_decide (add = []) then mret tt else write os (join dir (chars "cgroup.subtree_control")) (trim add)) Q R g3) as H.
  { intros x g3. apply wp_bind, wp_lift; [|auto]. intros add _. case_bool_decide; [by apply wp_ret|].
    unfold write, put. apply wp_bind, wp_bind, wp_asked. intros [e|] g4; [by apply wp_ret, wp_fail|]. apply wp_bind, wp_modify, wp_ret. by apply wp_ret. }
  apply wp_read_trim; intros; apply H.
Qed.

(** The desktop's cgroup is made only for an ordinary user whose own process
    asked, one in no zone's or proxy's cgroup, and is given a quarter of the memory and at least
    1 GiB; nothing else is returned. *)
Theorem desktop_guarded (root procfs : path) (uid pid : Z) :
  (forall n t kb, co_read os n (join procfs (chars "meminfo")) = Ok t -> mem_total_kb (trim t) = Some kb -> kb * 1024 <= USIZE_MAX) ->
  let '(r, g') := prepare_desktop_under os root procfs uid pid g in
  match r with
  | Panic => False
  | Fail _ => True
  | Done (group, max) => uid <> 0 /\ group = join root DESKTOP_GROUP /\
    (exists n t, co_read os n (join (join procfs (show_num pid)) (chars "status")) = Ok t /\ real_uid (trim t) = Some (show_num uid)) /\
    (exists n t, co_read os n (join (join procfs (show_num pid)) (chars "cgroup")) = Ok t /\ in_zone (trim t) = false) /\
    (exists n t kb, co_read os n (join procfs (chars "meminfo")) = Ok t /\ mem_total_kb (trim t) = Some kb /\
      max = Z.max (kb * 1024 / 4) (2 ^ 30) /\ last (g_log g') = Some (join group (chars "memory.max"), show_num max))
  end.
Proof.
  intros Hmem. enough (wp (prepare_desktop_under os root procfs uid pid) (fun gm g' => uid <> 0 /\ gm.1 = join root DESKTOP_GROUP /\
    (exists n t, co_read os n (join (join procfs (show_num pid)) (chars "status")) = Ok t /\ real_uid (trim t) = Some (show_num uid)) /\
    (exists n t, co_read os n (join (join procfs (show_num pid)) (chars "cgroup")) = Ok t /\ in_zone (trim t) = false) /\
    (exists n t kb, co_read os n (join procfs (chars "meminfo")) = Ok t /\ mem_total_kb (trim t) = Some kb /\
      gm.2 = Z.max (kb * 1024 / 4) (2 ^ 30) /\ last (g_log g') = Some (join gm.1 (chars "memory.max"), show_num gm.2))) (fun _ _ => True) g) as H.
  { unfold wp in H. by destruct (prepare_desktop_under _ _ _ _ _ _) as [[[? ?]|?|] ?]. }
  unfold prepare_desktop_under. apply wp_bind, wp_reject_if; [done|]. intros Hu%Z.eqb_neq.
  apply wp_bind, wp_read_trim; [|done]. intros st n1 g1 Est. apply wp_bind, wp_reject_if; [done|]. intros Hr%negb_false_iff%bool_decide_eq_true.
  apply wp_bind, wp_read_trim; [|done]. intros cg n2 g2 Ecg. apply wp_bind, wp_reject_if; [done|]. intros Hz.
  apply wp_bind, wp_asked. intros there g3. apply wp_bind, wp_reject_if; [done|]. intros _. apply wp_bind, wp_subtree; [|done]. intros g4.
  apply wp_bind, wp_asked. intros _ g5. apply wp_bind, wp_asked. intros made g6. apply wp_bind.
  eapply (wp_mono _ (fun _ _ => True) _ (fun _ _ => True)); [|done|].
  2: { apply wp_when; [|done]. intros _. unfold mkdir. apply wp_bind, wp_asked. intros [e|] g7; [by apply wp_fail|by apply wp_ret]. }
  intros _ g7 _. apply wp_bind, wp_read_trim; [|done]. intros mi n3 g8 Emi. apply wp_bind, wp_require; [|done]. intros kb Ekb.
  apply wp_bind. rewrite (proj2 (Z.leb_le _ _)) by (eapply Hmem; eauto). apply wp_ret, wp_bind. unfold write, put. apply wp_bind, wp_bind, wp_asked.
  intros [e|] g9; [by apply wp_ret, wp_fail|]. apply wp_bind, wp_modify, wp_ret, wp_ret, wp_ret. cbn [fst snd g_log]. rewrite last_snoc.
  split; [done|]. split; [done|]. split; [eauto|]. split; [eauto|]. eauto 10.
Qed.
End desktop.

(** A file system that grants everything, and one zone's launch on it. *)
Definition granting : CgOs := mkCgOs (fun _ _ => Ok []) (fun _ _ _ => None) (fun _ _ => None) (fun _ _ => None) (fun _ _ => true).
Example limits_done : (limit_zone granting (chars "/g") (ZoneClaims.zone_of work_toml) 7 8 None (mkCg [] 0)).1 = Done (chars "/g/work.7").
Proof. vm_compute. reflexivity. Qed.
