(* ===== verification/Tools.v ===== *)
(** * System calls and tools, and the trace of them

    What volume.rs, images.rs, stick.rs and suspend.rs ask of the system: the commands they run,
    the files they look at and change, the mounts they make. A [Call] is indexed by the type of
    its answer; the system answers each as it likes, and the trace keeps call and answer. *)
From S2P Require Import Prelude Bytes Text Registry.
Open Scope string_scope.
Open Scope list_scope.
Open Scope Z_scope.

Module Tools.
Abbreviation path := (list Z).
Definition slash (p name : path) : path := p ++ [47] ++ name.

Inductive Fault := NotFound | Other (errno : Z).
(** What stat(2) says of a file. *)
Record Meta := mkMeta { md_file : bool; md_dir : bool; md_len : Z; md_uid : Z; md_mode : Z }.

(** How a command given a time ended: with its exit code, or by a signal. *)
Inductive Ended := NotRun | NoAnswer | WaitFault | Exited (code : option Z).

Inductive Call : Type -> Type :=
| Run (prog : string) (args : list (list Z)) (stdin : option bytes) : Call (result (list Z) Z)
| Exists (p : path) : Call bool
| Stat (p : path) : Call (result Meta Fault)
| Lstat (p : path) : Call (result Meta Fault)
| OpenFile (p : path) : Call (result Meta Fault)
| ReadFile (p : path) : Call (result bytes Fault)
| ReadText (p : path) : Call (result (list Z) Fault)
| ReadDir (p : path) : Call (option (list (list Z)))
| Resolve (p : path) : Call (option path)
| WriteText (p : path) (text : list Z) : Call (result unit Fault)
| MkdirAll (p : path) : Call (result unit Fault)
| Chmod (p : path) (mode : Z) : Call (result unit Fault)
| Create (p : path) (mode : Z) : Call (result unit Fault)
| SetLen (p : path) (len : Z) : Call (result unit Fault)
| RemoveFile (p : path) : Call (result unit Fault)
| Rename (from to : path) : Call (result unit Fault)
| WriteWhole (p : path) (data : bytes) (mode : Z) : Call (result unit Fault)
| MemfdCreate (name : string) : Call (option Z)
| WriteFd (fd : Z) (data : bytes) : Call Z
| Mount (src at_ fstype : list Z) (flags : Z) (data : list Z) : Call (result unit Fault)
| Flock (p : path) : Call bool
| FlockShared (p : path) : Call bool
| Names : Call (list (list Z))
| StateOf (zone : list Z) : Call (result Registry.State Registry.RegistryError)
| RunFor (secs : Z) (prog : string) (args : list (list Z)) (stdin : bytes) : Call Ended
| Flush (dev : list Z) : Call (result unit Fault)
| OpenDev (dev : list Z) (writable : bool) : Call (result unit Fault)
| DevOf (dev : list Z) : Call (result (Z * Z) Fault)
| Now : Call Z
| Sleep (ms : Z) : Call unit
| Sync : Call unit.

Inductive Event := Did (A : Type) (c : Call A) (a : A).
#[global] Arguments Did {A} _ _.
Abbreviation Trace := (list Event).
Definition Sys : Type := forall A, nat -> Call A -> A.
Abbreviation TM E := (M Trace E).

Section calls.
Context (sys : Sys) {E : Type}.
Definition call {A} (c : Call A) : TM E A := fun t =>
  let a := sys A (length t) c in (Done a, t ++ [Did c a]).
(** [.map_err(...)?] on a call's answer. *)
Definition called {A F} (c : Call (result A F)) (e : E) : TM E A :=
  r ← call c; match r with Ok a => mret a | Err _ => fail e end.
(** [let _ = ...]. *)
Definition ignored {A} (c : Call A) : TM E unit := _ ← call c; mret tt.
End calls.

(** A command that ran and succeeded. *)
Definition ran_ok (prog : string) (args : list (list Z)) (ev : Event) : bool :=
  match ev with
  | @Did _ c a =>
    match c in Call A return A -> bool with
    | Run p l _ => fun r => String.eqb p prog && bool_decide (l = args) && match r with Ok _ => true | Err _ => false end
    | _ => fun _ => false
    end a
  end.
Definition never_ran (prog : string) (args : list (list Z)) (t : Trace) : bool := forallb (fun ev => negb (ran_ok prog args ev)) t.

(** ** Traces in which what came before justifies each event *)
Definition justified {A} (P : list A -> A -> Prop) (t : list A) : Prop :=
  forall before ev after, t = before ++ ev :: after -> P before ev.

Lemma justified_nil {A} (P : list A -> A -> Prop) : justified P [].
Proof. by intros [|? ?] ? ?. Qed.
Lemma justified_snoc {A} (P : list A -> A -> Prop) t ev : justified P t -> P t ev -> justified P (t ++ [ev]).
Proof.
  intros Ht He before e after H. destruct after as [|e' after _] using rev_ind.
  - by apply app_inj_tail in H as [<- <-].
  - rewrite app_comm_cons, app_assoc in H. apply app_inj_tail in H as [H _]. by eapply Ht.
Qed.
Lemma justified_weaken {A} (P P' : list A -> A -> Prop) t :
  (forall b e, P b e -> P' b e) -> justified P t -> justified P' t.
Proof. intros HP Ht b e a H. eapply HP, Ht, H. Qed.

Lemma elem_snoc (t : Trace) ev : ev ∈ t ++ [ev].
Proof. apply elem_of_app. right. by apply list_elem_of_singleton. Qed.
Lemma elem_snoc_l (t : Trace) ev ev' : ev ∈ t -> ev ∈ t ++ [ev'].
Proof. intros H. apply elem_of_app. by left. Qed.
Lemma sub_snoc (t : Trace) ev : t ⊆ t ++ [ev].
Proof. intros e He. by apply elem_snoc_l. Qed.
Lemma sub_trans (t t' : Trace) ev : t ⊆ t' -> t ⊆ t' ++ [ev].
Proof. intros Hs e He. by apply elem_snoc_l, Hs. Qed.

Section wps.
Context (sys : Sys) {E : Type} (P : Trace -> Event -> Prop).

(** A call's answer is anything; what it adds must be justified. *)
Lemma wp_call {A} (c : Call A) (Q : A -> Trace -> Prop) (R : E -> Trace -> Prop) t :
  justified P t -> (forall a, P t (Did c a)) ->
  (forall a, justified P (t ++ [Did c a]) -> Q a (t ++ [Did c a])) -> wp (call sys c) Q R t.
Proof. intros Ht HP HQ. apply HQ, justified_snoc; auto. Qed.
Lemma wp_called {A F} (c : Call (result A F)) e (Q : A -> Trace -> Prop) (R : E -> Trace -> Prop) t :
  justified P t -> (forall a, P t (Did c a)) ->
  (forall a, justified P (t ++ [Did c (Ok a)]) -> Q a (t ++ [Did c (Ok a)])) ->
  (forall x, justified P (t ++ [Did c (Err x)]) -> R e (t ++ [Did c (Err x)])) -> wp (called sys c e) Q R t.
Proof.
  intros Ht HP HQ HR. unfold called. apply wp_bind, wp_call; [done..|].
  intros [a|x] H; [by apply wp_ret, HQ|by apply wp_fail, HR].
Qed.
Lemma wp_ignored {A} (c : Call A) (Q : unit -> Trace -> Prop) (R : E -> Trace -> Prop) t :
  justified P t -> (forall a, P t (Did c a)) ->
  (forall a, justified P (t ++ [Did c a]) -> Q tt (t ++ [Did c a])) -> wp (ignored sys c) Q R t.
Proof. intros Ht HP HQ. apply wp_bind, wp_call; [done..|]. intros a H. by apply wp_ret, HQ. Qed.
End wps.

(** The invariant as a [keeps], for code whose every call is justified wherever it is made. *)
Lemma keeps_call (sys : Sys) {E A} (P : Trace -> Event -> Prop) (c : Call A) :
  (forall t a, P t (Did c a)) -> keeps (E := E) (justified P) (call sys c).
Proof. intros HP t Ht. unfold call. cbn. apply justified_snoc; auto. Qed.
End Tools.
