(* ===== verification/Volume.v ===== *)
(** * Encrypted volumes: src/compartments/kryptikd/src/volume.rs

    Passphrases as they are read, the LUKS container of a zone made, opened, closed, suspended and
    destroyed. cryptsetup, e2fsck, mount and the rest are commands of [Tools.Call]. *)
From stdpp Require Import sorting.
From S2P Require Import Prelude Bytes Text Registry Tools.
Open Scope string_scope.
Open Scope list_scope.
Open Scope Z_scope.

Module Volume.
Import Tools.

Definition MAPPER_PREFIX : list Z := Eval vm_compute in chars "kryptik-zone-".
Definition DEFAULT_VOLUME_DIR : path := Eval vm_compute in chars "/var/lib/kryptik/volumes".
Definition MIN_CHARS : Z := 8.

(** [Passphrase(String)] and [Io(String)], by what their messages say. *)
Inductive PassFault :=
| TooShort (n : Z) | CannotOpen | NotRegular | WrongOwner (uid : Z) | WrongMode (mode : Z)
| NotOpen | NotReadable | NotFileOrPipe | Slow | ReadFault | TooLong | NoPassphrase.
Inductive IoFault :=
| NoVolume | MountpointFault | StatFault | Signed (signature : list Z) | NotEmpty (len : Z) | TooSmall
| DirFault | CreateFault | SizeFault | MemfdFault | MemfdWrite | BackupExists | VolumeOpen
| NotAFile | NotLuks (signature : list Z) | RemoveFault.
Inductive VolumeError :=
| WrongPassphrase (zone : list Z)
| AlreadyOpen (zone mapper : list Z)
| BadPassphrase (why : PassFault)
| Tool (what : string) (code : Z)
| Invariant (what : path)
| Io (why : IoFault).

(** ** Passphrases *)
Definition check_new (pass : bytes) : result unit VolumeError :=
  let n := zlen (List.filter (fun b => negb (Z.land (Z_of_byte b) 192 =? 128)) pass) in
  if n <? MIN_CHARS then Err (BadPassphrase (TooShort n)) else Ok tt.

(** What one round of the read loop meets: the clock in ns, poll's answer, the read's. *)
Inductive ReadAnswer := Got (data : bytes) | Again | Broken.
Record Round := mkRound { r_now : Z; r_ready : Z; r_interrupted : bool; r_read : ReadAnswer }.
Definition CAPACITY : nat := Z.to_nat 4097.

(** [None] while the source has not ended and the clock not run out. *)
Fixpoint read_loop (until : Z) (rounds : list Round) (used : bytes) : option (result bytes VolumeError) :=
  match rounds with
  | [] => None
  | r :: rounds =>
    if saturating_sub until (r_now r) =? 0 then Some (Err (BadPassphrase Slow))
    else if r_ready r <? 0 then
      if r_interrupted r then read_loop until rounds used else Some (Err (BadPassphrase ReadFault))
    else if r_ready r =? 0 then read_loop until rounds used
    else
      match r_read r with
      | Got data =>
        match take (CAPACITY - length used) data with
        | [] => Some (Ok used)
        | got => if 4096 <? zlen (used ++ got) then Some (Err (BadPassphrase TooLong)) else read_loop until rounds (used ++ got)
        end
      | Again => read_loop until rounds used
      | Broken => Some (Err (BadPassphrase ReadFault))
      end
  end.
Definition is_newline (b : byte) : bool := let z := Z_of_byte b in (z =? 13) || (z =? 10).
Fixpoint drop_newlines (rev : bytes) : bytes :=
  match rev with
  | b :: rest => if is_newline b then drop_newlines rest else rev
  | [] => []
  end.
Definition WITHIN : Z := 5 * 1000000000.
Definition read_bounded (start : Z) (rounds : list Round) : option (result bytes VolumeError) :=
  match read_loop (start + WITHIN) rounds [] with
  | Some (Ok used) =>
    match reverse (drop_newlines (reverse used)) with
    | [] => Some (Err (BadPassphrase NoPassphrase))
    | pass => Some (Ok pass)
    end
  | r => r
  end.

(** [opened]: the file opened without following a link, and its metadata. *)
Definition from_file (me : Z) (opened : result Meta Fault) (start : Z) (rounds : list Round) : option (result bytes VolumeError) :=
  let bad w := Some (Err (BadPassphrase w)) in
  match opened with
  | Err _ => bad CannotOpen
  | Ok md =>
    if negb (md_file md) then bad NotRegular
    else if negb (md_uid md =? me) && negb (md_uid md =? 0) then bad (WrongOwner (md_uid md))
    else if negb (Z.land (md_mode md) 63 =? 0) then bad (WrongMode (Z.land (md_mode md) 4095))
    else read_bounded start rounds
  end.

(** A descriptor passed over a socket: fcntl's flags (negative when not open), whether it is a
    file or a pipe, and whether it is opened again and, for a file, sought to where it stood. *)
Record Passed := mkPassed { pd_flags : Z; pd_file : option bool; pd_fifo : bool; pd_reopened : bool; pd_sought : bool }.
Definition O_PATH : Z := 2097152.
Definition O_ACCMODE : Z := 3.
Definition O_WRONLY : Z := 1.
Definition from_fd (fd : Passed) (start : Z) (rounds : list Round) : option (result bytes VolumeError) :=
  let bad w := Some (Err (BadPassphrase w)) in
  if pd_flags fd <? 0 then bad NotOpen
  else if negb (Z.land (pd_flags fd) O_PATH =? 0) || (Z.land (pd_flags fd) O_ACCMODE =? O_WRONLY) then bad NotReadable
  else
    match pd_file fd with
    | None => bad ReadFault
    | Some is_file =>
      if negb is_file && negb (pd_fifo fd) then bad NotFileOrPipe
      else if negb (pd_reopened fd) then bad CannotOpen
      else if is_file && negb (pd_sought fd) then bad ReadFault
      else read_bounded start rounds
    end.

(** ** Names *)
Definition mapper_name (zone : list Z) : list Z := MAPPER_PREFIX ++ zone.
Definition mapper_path (zone : list Z) : path := chars "/dev/mapper/" ++ mapper_name zone.
Definition default_volume_path (zone : list Z) : path := DEFAULT_VOLUME_DIR ++ [47] ++ zone ++ chars ".luks".

(** [Path::parent]: the path without its last component. *)
Definition components (p : path) : list (list Z) := List.filter (fun c => negb (bool_decide (c = [])) && negb (bool_decide (c = [46]))) (split 47 p).
Fixpoint join_slash (l : list (list Z)) : path :=
  match l with [] => [] | [c] => c | c :: l => c ++ [47] ++ join_slash l end.
Definition parent (p : path) : option path :=
  match reverse (components p) with
  | [] => None
  | _ :: up => Some ((if bool_decide (head p = Some 47) then [47] else []) ++ join_slash (reverse up))
  end.

Definition lits (l : list string) : list (list Z) := chars <$> l.

(** [path] as /proc/self/mounts writes it. *)
Definition escape (c : Z) : list Z :=
  if c =? 92 then [92; 49; 51; 52] else if c =? 32 then [92; 48; 52; 48]
  else if c =? 9 then [92; 48; 49; 49] else if c =? 10 then [92; 48; 49; 50] else [c].
Definition replace (c : Z) (by_ : list Z) (cs : list Z) : list Z := mjoin ((fun d => if d =? c then by_ else [d]) <$> cs).
Definition mount_escaped (p : path) : list Z :=
  replace 10 [92; 48; 49; 50] (replace 9 [92; 48; 49; 49] (replace 32 [92; 48; 52; 48] (replace 92 [92; 49; 51; 52] p))).
Definition mounted_in (text : list Z) (p : path) : bool :=
  existsb (fun l => bool_decide (words l !! 1%nat = Some (mount_escaped p))) (lines text).

(** ** Operations *)
Section calls.
Context (sys : Sys).
Abbreviation VM := (TM VolumeError).

Definition run (prog : string) (args : list (list Z)) (stdin : option bytes) : VM (result (list Z) Z) :=
  call sys (Run prog args stdin).
(** [run(...).map_err(|e| tool_err(what, e))?]. *)
Definition must (what prog : string) (args : list (list Z)) (stdin : option bytes) : VM unit :=
  r ← run prog args stdin; match r with Ok _ => mret tt | Err code => fail (Tool what code) end.

Definition signature_of (p : path) : VM (list Z) :=
  r ← run "blkid" (lits ["-p"; "-s"; "TYPE"; "-o"; "value"] ++ [p]) None;
  mret (match r with Ok s => trim s | Err _ => [] end).
Definition mapping_exists (zone : list Z) : VM bool := call sys (Exists (mapper_path zone)).
Definition is_mountpoint {E} (p : path) : TM E bool :=
  r ← call sys (ReadText (chars "/proc/self/mounts"));
  mret (match r with Ok text => mounted_in text p | Err _ => false end).

Fixpoint unmount_loop (n : nat) (mountpoint : path) (unmounted : bool) : VM bool :=
  match n with
  | O => mret unmounted
  | S n =>
    if unmounted then mret true
    else
      r ← run "umount" [mountpoint] None;
      match r with
      | Ok _ => unmount_loop n mountpoint true
      | Err _ => call sys (Sleep 100);; m ← is_mountpoint mountpoint; unmount_loop n mountpoint (negb m)
      end
  end.
Definition close_mapping (zone mountpoint : list Z) : VM unit :=
  let mapper := mapper_path zone in
  m ← is_mountpoint mountpoint;
  unmounted ← unmount_loop 30 mountpoint (negb m);
  reject_if (negb unmounted) (Invariant mountpoint);;
  there ← call sys (Exists mapper);
  when there (
    r ← run "cryptsetup" (lits ["close"] ++ [mapper_name zone]) None;
    match r with
    | Ok _ => mret tt
    | Err code =>
      r ← run "dmsetup" (lits ["remove"] ++ [mapper_name zone]) None;
      match r with Ok _ => mret tt | Err _ => fail (Tool "cryptsetup close" code) end
    end);;
  there ← call sys (Exists mapper);
  reject_if there (Invariant mapper).

(** An [Opened] dropped on an error closes the mapping first, whatever that answers. *)
Definition closing {A} (zone mountpoint : list Z) (m : VM A) : VM A :=
  r ← tried m;
  match r with
  | Ok a => mret a
  | Err e => _ ← tried (close_mapping zone mountpoint) : VM (result unit VolumeError); fail e
  end.
(** [cryptsetup open] of [volume], the passphrase on its standard input. *)
Definition open_args (zone volume : list Z) : list (list Z) :=
  lits ["open"; "--type"; "luks2"; "--key-file"; "-"] ++ [volume; mapper_name zone].
Definition mount_args (zone mountpoint : list Z) : list (list Z) :=
  lits ["-t"; "ext4"; "-o"; "nosuid,nodev,noatime"] ++ [mapper_path zone; mountpoint].
Definition open_and_mount (zone volume : list Z) (pass : bytes) (mountpoint : path) : VM (list Z * path) :=
  let mapper := mapper_path zone in
  there ← mapping_exists zone;
  reject_if there (AlreadyOpen zone mapper);;
  v ← call sys (Exists volume);
  reject_if (negb v) (Io NoVolume);;
  r ← run "cryptsetup" (open_args zone volume) (Some pass);
  match r with
  | Ok _ => mret tt
  | Err code => if code =? 2 then fail (WrongPassphrase zone) else fail (Tool "cryptsetup open" code)
  end;;
  appeared ← call sys (Exists mapper);
  reject_if (negb appeared) (Tool "cryptsetup open" 0);;
  closing zone mountpoint (
    r ← run "e2fsck" (lits ["-p"] ++ [mapper]) None;
    match r with
    | Ok _ => mret tt
    | Err code => if code =? 1 then mret tt else fail (Tool "e2fsck" code)
    end;;
    called sys (MkdirAll mountpoint) (Io MountpointFault);;
    must "mount" "mount" (mount_args zone mountpoint) None;;
    mret (zone, mountpoint)).

(** ** Made and destroyed *)
Definition MIN_VOLUME : Z := 32 * 1024 * 1024.
Definition format_args (volume : list Z) : list (list Z) :=
  lits ["luksFormat"; "--type"; "luks2"; "--pbkdf"; "argon2id"; "--batch-mode"; "--key-file"; "-"] ++ [volume].
(** [fs::metadata(p).map(|m| m.is_file()).unwrap_or(false)]. *)
Definition is_file (p : path) : VM bool :=
  r ← call sys (Stat p); mret (match r with Ok md => md_file md | Err _ => false end).
(** What is formatted carries nothing: no signature, and a file no bytes. *)
Definition refuse_used (volume : path) : VM unit :=
  there ← call sys (Exists volume);
  when there (
    md ← called sys (Stat volume) (Io StatFault);
    sig ← signature_of volume;
    reject_if (negb (bool_decide (sig = []))) (Io (Signed sig));;
    reject_if (md_file md && (0 <? md_len md)) (Io (NotEmpty (md_len md)))).
Definition make_container (volume : path) (size : Z) : VM unit :=
  reject_if (size <? MIN_VOLUME) (Io TooSmall);;
  match parent volume with
  | None => mret tt
  | Some dir =>
    called sys (MkdirAll dir) (Io DirFault);;
    ignored sys (Chmod dir 448)
  end;;
  called sys (Create volume 384) (Io CreateFault);;
  called sys (SetLen volume size) (Io SizeFault).
Definition init (zone volume : list Z) (size : Z) (pass : bytes) (uid gid : Z) : VM unit :=
  lift (check_new pass);;
  refuse_used volume;;
  open ← mapping_exists zone;
  reject_if open (AlreadyOpen zone (mapper_path zone));;
  there ← call sys (Exists volume);
  file ← if there : bool then is_file volume else mret true;
  when file (make_container volume size);;
  must "cryptsetup luksFormat" "cryptsetup" (format_args volume) (Some pass);;
  must "cryptsetup open" "cryptsetup" (open_args zone volume) (Some pass);;
  r ← run "mkfs.ext4" (lits ["-q"; "-F"; "-E"] ++ [chars "root_owner=" ++ Registry.show_num uid ++ [58] ++ Registry.show_num gid ++ chars ",lazy_itable_init=0"]
        ++ lits ["-L"] ++ [chars "kryptik-" ++ zone; mapper_path zone]) None;
  c ← run "cryptsetup" (lits ["close"] ++ [mapper_name zone]) None;
  match r with Ok _ => mret tt | Err code => fail (Tool "mkfs.ext4" code) end;;
  match c with Ok _ => mret tt | Err code => fail (Tool "cryptsetup close" code) end.

Fixpoint memfd_loop (fuel : nat) (fd : Z) (left : bytes) : VM unit :=
  match left with
  | [] => mret tt
  | _ =>
    match fuel with
    | O => panic
    | S fuel =>
      n ← call sys (WriteFd fd left);
      reject_if (n <=? 0) (Io MemfdWrite);;
      memfd_loop fuel fd (drop (Z.to_nat n) left)
    end
  end.
Definition memfd (name : string) (data : bytes) : VM Z :=
  fd ← call sys (MemfdCreate name);
  fd ← require fd (Io MemfdFault);
  memfd_loop (length data) fd data;;
  mret fd.
Definition fd_path (fd : Z) : path := chars "/proc/self/fd/" ++ Registry.show_num fd.
Definition change_key (zone volume : list Z) (old new : bytes) : VM unit :=
  lift (check_new new);;
  oldfd ← memfd "old" old;
  newfd ← memfd "new" new;
  r ← run "cryptsetup" (lits ["luksChangeKey"; "--batch-mode"; "--key-file"] ++ [fd_path oldfd; volume; fd_path newfd]) None;
  match r with
  | Ok _ => mret tt
  | Err code => if code =? 2 then fail (WrongPassphrase zone) else fail (Tool "cryptsetup luksChangeKey" code)
  end.

Definition backup_header (volume out : path) : VM unit :=
  there ← call sys (Exists out);
  reject_if there (Io BackupExists);;
  must "cryptsetup luksHeaderBackup" "cryptsetup" (lits ["luksHeaderBackup"; "--header-backup-file"] ++ [out; volume]) None;;
  ignored sys (Chmod out 384).
Definition restore_header (volume from : path) : VM unit :=
  must "cryptsetup luksHeaderRestore" "cryptsetup" (lits ["luksHeaderRestore"; "--batch-mode"; "--header-backup-file"] ++ [from; volume]) None.

Definition LUKS : list Z := Eval vm_compute in chars "crypto_LUKS".
Fixpoint contains_text (needle cs : list Z) : bool :=
  bool_decide (needle `prefix_of` cs) || match cs with [] => false | _ :: cs => contains_text needle cs end.
Definition erase_args (volume : list Z) : list (list Z) := lits ["luksErase"; "--batch-mode"] ++ [volume].
Definition destroy (zone volume : list Z) : VM unit :=
  open ← mapping_exists zone;
  reject_if open (Io VolumeOpen);;
  r ← call sys (Stat volume);
  md ← match r with Ok md => mret md | Err NotFound => fail (Io NoVolume) | Err _ => fail (Io StatFault) end;
  reject_if (negb (md_file md)) (Io NotAFile);;
  sig ← signature_of volume;
  reject_if (negb (contains_text LUKS sig)) (Io (NotLuks sig));;
  must "cryptsetup luksErase" "cryptsetup" (erase_args volume) None;;
  called sys (RemoveFile volume) (Io RemoveFault).

(** ** Suspended *)
Definition suspend_mapping (mapper : list Z) : VM unit :=
  must "cryptsetup luksSuspend" "cryptsetup" (lits ["luksSuspend"] ++ [mapper]) None.
Definition resume_mapping (zone : list Z) (pass : bytes) : VM unit :=
  r ← run "cryptsetup" (lits ["luksResume"; "--key-file"; "-"] ++ [mapper_name zone]) (Some pass);
  match r with
  | Ok _ => mret tt
  | Err code => if code =? 2 then fail (WrongPassphrase zone) else fail (Tool "cryptsetup luksResume" code)
  end.
Definition fail_mapping (zone : list Z) : VM unit :=
  must "dmsetup wipe_table" "dmsetup" (lits ["wipe_table"] ++ [mapper_name zone]) None.

(** [sort] on strings: byte by byte, the order of their characters. *)
Fixpoint text_leb (a b : list Z) : bool :=
  match a, b with
  | [], _ => true
  | _ :: _, [] => false
  | x :: a, y :: b => (x <? y) || ((x =? y) && text_leb a b)
  end.
#[global] Instance text_leb_dec a b : Decision (text_leb a b = true) := _.
Definition sort_text : list (list Z) -> list (list Z) := merge_sort (fun a b => text_leb a b = true).
Definition zones_mapped (names : list (list Z)) : list (list Z) := sort_text (omap (strip_prefix MAPPER_PREFIX) names).
Definition mappings : VM (list (list Z)) :=
  names ← call sys (ReadDir (chars "/dev/mapper"));
  mret (zones_mapped (default [] names)).
End calls.
End Volume.
