(* ===== verification/VolumeClaims.v ===== *)
(** * What volume.rs promises

    Whatever the tools and the kernel answer: the order in which a volume is opened, mounted and
    closed, what is formatted and destroyed, and the passphrases that are read. *)
From stdpp Require Import sorting.
From S2P Require Import Prelude Bytes Text Registry Tools Volume.
Open Scope string_scope.
Open Scope list_scope.
Open Scope Z_scope.
Import Tools Volume.

(** ** Closing *)
Definition MOUNTS : path := chars "/proc/self/mounts".
(** The file system was seen to be mounted nowhere at [mp], or unmounted there. *)
Definition seen_unmounted (mp : path) (t : Trace) : Prop :=
  (exists out, Did (Run "umount" [mp] None) (Ok out) ∈ t) \/
  (exists r, Did (ReadText MOUNTS) r ∈ t /\ forall text, r = Ok text -> mounted_in text mp = false).
Definition closing_step (zone : list Z) (mp : path) (t : Trace) (ev : Event) : Prop :=
  match ev with
  | @Did _ (Run prog args stdin) _ =>
    stdin = None /\
    ((prog = "umount" /\ args = [mp]) \/
     (seen_unmounted mp t /\
      ((prog = "cryptsetup" /\ args = lits ["close"] ++ [mapper_name zone]) \/ (prog = "dmsetup" /\ args = lits ["remove"] ++ [mapper_name zone]))))
  | @Did _ (ReadText p) _ => p = MOUNTS
  | @Did _ (Exists p) _ => p = mapper_path zone
  | @Did _ (Sleep _) _ => True
  | _ => False
  end.

Lemma seen_unmounted_app mp t l : seen_unmounted mp t -> seen_unmounted mp (t ++ l).
Proof. unfold seen_unmounted. setoid_rewrite elem_of_app. naive_solver. Qed.

Section closing.
Context (sys : Sys) (zone : list Z) (mp : path) (P : Trace -> Event -> Prop).
Hypothesis HP : forall t ev, closing_step zone mp t ev -> P t ev.

Lemma wp_is_mountpoint (Q : bool -> Trace -> Prop) (R : VolumeError -> Trace -> Prop) t : justified P t ->
  (forall b t', justified P t' -> (b = false -> seen_unmounted mp t') -> Q b t') -> wp (is_mountpoint sys mp) Q R t.
Proof.
  intros Ht HQ. unfold is_mountpoint. apply wp_bind, (wp_call sys P); [done|by intros a; apply HP|].
  intros a H. apply wp_ret, HQ; [done|]. intros Ha. right. exists a. split; [apply elem_of_app; right; by apply list_elem_of_singleton|].
  by intros text ->.
Qed.

Lemma wp_unmount_loop n b (Q : bool -> Trace -> Prop) (R : VolumeError -> Trace -> Prop) t :
  justified P t -> (b = true -> seen_unmounted mp t) ->
  (forall b t', justified P t' -> (b = true -> seen_unmounted mp t') -> Q b t') -> wp (unmount_loop sys n mp b) Q R t.
Proof.
  revert b t. induction n as [|n IH]; intros b t Ht Hb HQ; cbn [unmount_loop]; [by apply wp_ret, HQ|].
  destruct b; [by apply wp_ret, HQ|]. apply wp_bind, (wp_call sys P); [done| |].
  { intros a. apply HP. cbn. auto. }
  intros [out|code] H.
  - apply IH; [done| |done]. intros _. left. exists out. apply elem_of_app; right; by apply list_elem_of_singleton.
  - apply wp_bind, (wp_call sys P); [done|by intros a; apply HP|]. intros u H1. apply wp_bind, wp_is_mountpoint; [done|].
    intros m t' H2 Hm. apply IH; [done| |done]. intros Hm'%negb_true_iff. auto.
Qed.

Lemma wp_close_mapping t : justified P t ->
  wp (close_mapping sys zone mp) (fun _ t' => justified P t' /\ exists t1, t' = t1 ++ [Did (Exists (mapper_path zone)) false]) (fun _ t' => justified P t') t.
Proof.
  intros Ht. unfold close_mapping. apply wp_bind, wp_is_mountpoint; [done|]. intros m t1 H1 Hm.
  apply wp_bind, wp_unmount_loop; [done| |]. { intros E%negb_true_iff. auto. }
  intros u t2 H2 Hu. apply wp_bind, wp_reject_if; [done|]. intros ->%negb_false_iff.
  specialize (Hu eq_refl). apply wp_bind, (wp_call sys P); [done|by intros a; apply HP|]. intros there H3.
  apply (seen_unmounted_app _ _ [Did (Exists (mapper_path zone)) there]) in Hu. apply wp_bind.
  set (t3 := t2 ++ _) in *. clearbody t3.
  eapply (wp_mono _ (fun _ t' => justified P t') _ (fun _ t' => justified P t')).
  - intros _ t4 H4. apply wp_bind, (wp_call sys P); [done|by intros a; apply HP|]. intros [|] H5; [by apply wp_fail|].
    apply wp_ret. eauto.
  - done.
  - apply wp_when; [|done]. intros _. apply wp_bind, (wp_call sys P); [done| |]. { intros a. apply HP. cbn. auto 8. }
    intros [out|code] H4; [by apply wp_ret|]. apply wp_bind, (wp_call sys P); [done| |].
    { intros a. apply HP. cbn. split; [done|]. right. split; [by apply seen_unmounted_app|auto]. }
    intros [out|code'] H5; [by apply wp_ret|by apply wp_fail].
Qed.
End closing.

(** ** Opening *)
Section opening.
Context (zone volume : list Z) (pass : bytes) (mp : path).
Definition unlock : Call (result (list Z) Z) := Run "cryptsetup" (open_args zone volume) (Some pass).
Definition check_fs : Call (result (list Z) Z) := Run "e2fsck" (lits ["-p"] ++ [mapper_path zone]) None.
Definition mount_fs : Call (result (list Z) Z) := Run "mount" (mount_args zone mp) None.
Definition fs_clean (t : Trace) : Prop := exists r, Did check_fs r ∈ t /\ (r = Err 1 \/ exists out, r = Ok out).
Definition opening_step (t : Trace) (ev : Event) : Prop :=
  closing_step zone mp t ev \/
  match ev with
  | @Did _ (Run prog args stdin) _ =>
    (prog = "cryptsetup" /\ args = open_args zone volume /\ stdin = Some pass /\ Did (Exists (mapper_path zone)) false ∈ t) \/
    (prog = "e2fsck" /\ args = lits ["-p"] ++ [mapper_path zone] /\ stdin = None) \/
    (prog = "mount" /\ args = mount_args zone mp /\ stdin = None /\ (exists out, Did unlock (Ok out) ∈ t) /\ fs_clean t)
  | @Did _ (Exists p) _ => p = volume
  | @Did _ (MkdirAll p) _ => p = mp
  | _ => False
  end.
End opening.

#[local] Hint Resolve elem_snoc elem_snoc_l : core.

Lemma run_closing (sys : Sys) zone mp e (Q : list Z * path -> Trace -> Prop) (R : VolumeError -> Trace -> Prop) t :
  R e (close_mapping sys zone mp t).2 -> wp (close_mapping sys zone mp) (fun _ _ => True) (fun _ _ => True) t ->
  wp (_ ← tried (close_mapping sys zone mp) : TM VolumeError (result unit VolumeError); fail e) Q R t.
Proof.
  intros HR Hw. apply wp_bind. unfold wp, tried in *. destruct (close_mapping sys zone mp t) as [[[]|e'|] t']; [..|done]; by apply wp_fail.
Qed.

Lemma justified_closing (sys : Sys) zone volume pass mp t :
  justified (opening_step zone volume pass mp) t -> justified (opening_step zone volume pass mp) (close_mapping sys zone mp t).2.
Proof.
  intros Ht. pose proof (wp_close_mapping sys zone mp (opening_step zone volume pass mp) ltac:(by left) t Ht) as Hw.
  unfold wp in Hw. destruct (close_mapping sys zone mp t) as [[[]|e|] t']; naive_solver.
Qed.
Lemma closing_total (sys : Sys) zone mp t : wp (close_mapping sys zone mp) (fun _ _ => True) (fun _ _ => True) t.
Proof.
  eapply wp_mono; [..|apply (wp_close_mapping sys zone mp (fun _ _ => True))]; done.
Qed.

(** What an opening that fails leaves: no unlocked mapping that it saw, or the close that ran. *)
Definition given_up (sys : Sys) (zone volume : list Z) (pass : bytes) (mp : path) (t : Trace) : Prop :=
  never_ran "cryptsetup" (open_args zone volume) t = true \/
  (exists t1, t = t1 ++ [Did (Exists (mapper_path zone)) false]) \/
  (exists t1, t = (close_mapping sys zone mp t1).2).

Lemma wp_mount_checked (sys : Sys) zone volume pass mp t out :
  justified (opening_step zone volume pass mp) t -> Did (unlock zone volume pass) (Ok out) ∈ t ->
  wp (r ← run sys "e2fsck" (lits ["-p"] ++ [mapper_path zone]) None;
      match r with Ok _ => mret tt | Err code => if code =? 1 then mret tt else fail (Tool "e2fsck" code) end;;
      called sys (MkdirAll mp) (Io MountpointFault);;
      must sys "mount" "mount" (mount_args zone mp) None;; mret (zone, mp))
    (fun o t' => justified (opening_step zone volume pass mp) t' /\ o = (zone, mp) /\ exists t1 out, t' = t1 ++ [Did (mount_fs zone mp) (Ok out)])
    (fun _ t' => justified (opening_step zone volume pass mp) t') t.
Proof.
  intros Ht Ho. apply wp_bind, (wp_call sys (opening_step zone volume pass mp)); [done|by intros; right; right; left|]. intros r H1.
  apply wp_bind. eapply (wp_mono _ (fun _ t' => t' = t ++ [Did (check_fs zone) r] /\ fs_clean zone t') _ (fun _ t' => justified (opening_step zone volume pass mp) t')).
  - intros _ t1 [-> Hc]. apply wp_bind, (wp_called sys (opening_step zone volume pass mp)); [done|by right| |done].
    intros a H2. apply wp_bind. unfold must. apply wp_bind, (wp_call sys (opening_step zone volume pass mp)); [done| |].
    { intros a0. right. right. right. split_and!; [done..|eauto|]. destruct Hc as (r' & ? & ?). exists r'. eauto. }
    intros [out'|code] H3; [|by apply wp_fail]. by apply wp_ret, wp_ret; eauto 6.
  - done.
  - destruct r as [o|code]; [apply wp_ret; split; [done|]; exists (Ok o); eauto|].
    destruct (Z.eqb_spec code 1) as [->|]; [|by apply wp_fail]. apply wp_ret. split; [done|]. exists (Err 1). eauto.
Qed.


(** ** Made and destroyed *)
Definition signature (p : path) : Call (result (list Z) Z) := Run "blkid" (lits ["-p"; "-s"; "TYPE"; "-o"; "value"] ++ [p]) None.
(** What [signature_of] makes of blkid's answer. *)
Definition read_signature (r : result (list Z) Z) : list Z := match r with Ok s => trim s | Err _ => [] end.
(** Nothing is there, or a device or an empty file that carries no signature. *)
Definition seen_blank (volume : path) (t : Trace) : Prop :=
  Did (Exists volume) false ∈ t \/
  (exists md r, Did (Stat volume) (Ok md) ∈ t /\ Did (signature volume) r ∈ t /\ read_signature r = [] /\ (md_file md = true -> md_len md <= 0)).
Definition unmapped (zone : list Z) (t : Trace) : Prop := Did (Exists (mapper_path zone)) false ∈ t.

Definition destroy_step (zone volume : list Z) (t : Trace) (ev : Event) : Prop :=
  match ev with
  | @Did _ (RemoveFile p) _ => p = volume /\ exists out, Did (Run "cryptsetup" (erase_args volume) None) (Ok out) ∈ t
  | @Did _ (Run prog args stdin) _ =>
    stdin = None /\
    ((prog = "blkid" /\ args = lits ["-p"; "-s"; "TYPE"; "-o"; "value"] ++ [volume]) \/
     (prog = "cryptsetup" /\ args = erase_args volume /\ unmapped zone t /\
      (exists md, Did (Stat volume) (Ok md) ∈ t /\ md_file md = true) /\
      (exists r, Did (signature volume) r ∈ t /\ contains_text LUKS (read_signature r) = true)))
  | @Did _ (Stat p) _ => p = volume
  | @Did _ (Exists p) _ => p = mapper_path zone
  | _ => False
  end.

Definition init_step (zone volume : list Z) (size : Z) (pass : bytes) (t : Trace) (ev : Event) : Prop :=
  match ev with
  | @Did _ (Run prog args stdin) _ =>
    (stdin = None /\ (prog = "blkid" \/ prog = "mkfs.ext4" \/ args = lits ["close"] ++ [mapper_name zone])) \/
    (prog = "cryptsetup" /\ stdin = Some pass /\ MIN_CHARS <= zlen (List.filter (fun b => negb (Z.land (Z_of_byte b) 192 =? 128)) pass) /\
     seen_blank volume t /\ unmapped zone t /\
     (args = format_args volume \/ (args = open_args zone volume /\ exists out, Did (Run "cryptsetup" (format_args volume) (Some pass)) (Ok out) ∈ t)))
  | @Did _ (SetLen p n) _ => p = volume /\ n = size /\ MIN_VOLUME <= size /\ seen_blank volume t /\ unmapped zone t
  | @Did _ (Create p mode) _ => p = volume /\ mode = 384 /\ seen_blank volume t /\ unmapped zone t
  | @Did _ (Exists _) _ | @Did _ (Stat _) _ | @Did _ (MkdirAll _) _ | @Did _ (Chmod _ _) _ => True
  | _ => False
  end.

Lemma seen_blank_app volume t l : seen_blank volume t -> seen_blank volume (t ++ l).
Proof. unfold seen_blank. setoid_rewrite elem_of_app. naive_solver. Qed.
Lemma unmapped_app zone t l : unmapped zone t -> unmapped zone (t ++ l).
Proof. unfold unmapped. rewrite elem_of_app. by left. Qed.
#[local] Hint Resolve seen_blank_app unmapped_app : core.

Lemma wp_destroy (sys : Sys) zone volume :
  wp (destroy sys zone volume) (fun _ t => justified (destroy_step zone volume) t) (fun _ t => justified (destroy_step zone volume) t) [].
Proof.
  set (P := destroy_step zone volume). unfold destroy. apply wp_bind, (wp_call sys P); [apply justified_nil|done|].
  intros o H1. apply wp_bind, wp_reject_if; [done|]. intros ->. apply wp_bind, (wp_call sys P); [done..|]. intros r H2. apply wp_bind.
  destruct r as [md|[|e]]; [|by apply wp_fail..]. apply wp_ret, wp_bind, wp_reject_if; [done|]. intros Hf%negb_false_iff.
  apply wp_bind. unfold signature_of. apply wp_bind, (wp_call sys P); [done|by intros; split; [|left]|]. intros sg H3.
  apply wp_ret, wp_bind, wp_reject_if; [done|]. intros Hs%negb_false_iff. apply wp_bind. unfold must. apply wp_bind, (wp_call sys P); [done| |].
  { intros a. split; [done|]. right. split_and!; [done..|by rewrite <- app_assoc; apply unmapped_app, elem_snoc|exists md; auto|exists sg; auto]. }
  intros [out|code] H4; [|by apply wp_fail]. apply wp_ret. apply (wp_called sys P); [done|by split; eauto|done..].
Qed.

Lemma wp_blank (sys : Sys) zone volume size pass t : justified (init_step zone volume size pass) t ->
  wp (refuse_used sys volume)
    (fun _ t' => justified (init_step zone volume size pass) t' /\ seen_blank volume t') (fun _ t' => justified (init_step zone volume size pass) t') t.
Proof.
  set (P := init_step zone volume size pass). intros Ht. unfold refuse_used. apply wp_bind, (wp_call sys P); [done..|]. intros [|] H1.
  2: { apply wp_ret. split; [done|]. left. auto. }
  apply wp_bind, (wp_called sys P); [done..| |done]. intros md H2. apply wp_bind. unfold signature_of.
  apply wp_bind, (wp_call sys P); [done|by intros; left; auto|]. intros sg H3. apply wp_ret, wp_bind, wp_reject_if; [done|].
  intros Hs%negb_false_iff%bool_decide_eq_true. apply wp_reject_if; [done|]. intros Hl. split; [done|]. right. exists md, sg.
  split_and!; [auto..|exact Hs|]. intros Hf. rewrite Hf in Hl. cbn in Hl. by apply Z.ltb_ge in Hl.
Qed.

(** The container's file, when it is one: made, and as long as asked. *)
Lemma wp_container (sys : Sys) zone volume size pass t :
  justified (init_step zone volume size pass) t -> seen_blank volume t -> unmapped zone t ->
  wp (make_container sys volume size)
    (fun _ t' => justified (init_step zone volume size pass) t' /\ seen_blank volume t' /\ unmapped zone t')
    (fun _ t' => justified (init_step zone volume size pass) t') t.
Proof.
  set (P := init_step zone volume size pass). intros Ht Hb Hu. unfold make_container. apply wp_bind, wp_reject_if; [done|]. intros Hsz%Z.ltb_ge. apply wp_bind.
  eapply (wp_mono _ (fun _ t' => justified P t' /\ seen_blank volume t' /\ unmapped zone t') _ (fun _ t' => justified P t')); [|done|].
  - intros _ t1 (H1 & Hb1 & Hu1). apply wp_bind, (wp_called sys P); [done..| |done]. intros _a H2.
    apply (wp_called sys P); [done| |by auto|done]. intros b. split_and!; auto.
  - destruct (parent volume); [|by apply wp_ret]. apply wp_bind, (wp_called sys P); [done..| |done]. intros x H1.
    apply (wp_ignored sys P); [done..|]. intros y H2. auto.
Qed.

Lemma wp_init (sys : Sys) zone volume size pass uid gid :
  wp (init sys zone volume size pass uid gid) (fun _ t => justified (init_step zone volume size pass) t)
    (fun _ t => justified (init_step zone volume size pass) t) [].
Proof.
  set (P := init_step zone volume size pass). unfold init. apply wp_bind, wp_lift; [|intros; apply justified_nil].
  intros [] Hn. unfold check_new in Hn. destruct (Z.ltb_spec (zlen (List.filter (fun b => negb (Z.land (Z_of_byte b) 192 =? 128)) pass)) MIN_CHARS) as [|Hlen]; [done|].
  clear Hn. apply wp_bind. eapply wp_mono; [..|apply (wp_blank sys zone volume size pass), justified_nil]; [|done].
  intros _ t [Ht Hb]. cbv beta in *. apply wp_bind, (wp_call sys P); [done..|]. intros o H1. apply wp_bind, wp_reject_if; [done|]. intros ->.
  assert (unmapped zone (t ++ [Did (Exists (mapper_path zone)) false])) as Hu by apply elem_snoc.
  apply (seen_blank_app _ _ [Did (Exists (mapper_path zone)) false]) in Hb. set (t1 := t ++ _) in *. clearbody t1. clear t Ht.
  apply wp_bind, (wp_call sys P); [done..|]. intros there H2. apply wp_bind.
  eapply (wp_mono _ (fun _ t' => justified P t' /\ seen_blank volume t' /\ unmapped zone t') _ (fun _ t' => justified P t')); [|done|].
  2: { destruct there; [|apply wp_ret; auto]. unfold is_file. apply wp_bind, (wp_call sys P); [done..|]. intros a H3. apply wp_ret; auto. }
  intros file t2 (H3 & Hb2 & Hu2). apply wp_bind.
  eapply (wp_mono _ (fun _ t' => justified P t' /\ seen_blank volume t' /\ unmapped zone t') _ (fun _ t' => justified P t')); [|done|].
  2: { apply wp_when; [|done]. intros _. by apply wp_container. }
  intros _ t3 (H4 & Hb3 & Hu3). apply wp_bind. unfold must. apply wp_bind, (wp_call sys P); [done| |].
  { intros a. right. split_and!; auto. }
  intros [out|code] H5; [|by apply wp_fail]. apply wp_ret, wp_bind, wp_bind, (wp_call sys P); [done| |].
  { intros a. right. split_and!; eauto. }
  intros [out'|code] H6; [|by apply wp_fail]. apply wp_ret, wp_bind, (wp_call sys P); [done|by left; auto|]. intros r H7.
  apply wp_bind, (wp_call sys P); [done|by left; auto|]. intros c H8. apply wp_bind.
  destruct r as [?|?]; [|by apply wp_fail]. apply wp_ret. destruct c; [by apply wp_ret|by apply wp_fail].
Qed.


(** ** Passphrases *)
(** What the source gave, as far as it was read. *)
Definition data_of (r : Round) : bytes :=
  if r_ready r <=? 0 then [] else match r_read r with Got data => data | _ => [] end.

Lemma read_loop_ok until rounds used pass : zlen used <= 4096 -> read_loop until rounds used = Some (Ok pass) ->
  zlen pass <= 4096 /\ exists n, pass = used ++ mjoin (data_of <$> take n rounds).
Proof.
  revert used. induction rounds as [|r rounds IH]; intros used Hu H; cbn in H; [done|].
  assert (forall used', zlen used' <= 4096 -> read_loop until rounds used' = Some (Ok pass) -> data_of r = [] /\ used' = used \/ used' = used ++ data_of r ->
    zlen pass <= 4096 /\ exists n, pass = used ++ mjoin (data_of <$> take n (r :: rounds))) as Hk.
  { intros used' Hu' Hl Hd. destruct (IH used' Hu' Hl) as [? [n ->]]. split; [done|]. exists (S n). cbn.
    destruct Hd as [[-> ->]| ->]; [done|by rewrite <- app_assoc]. }
  destruct (_ =? 0); [done|]. unfold data_of in Hk at 1 2 3.
  destruct (Z.ltb_spec (r_ready r) 0) as [Hr|Hr].
  { destruct (r_interrupted r); [|done]. apply (Hk used); [done..|]. left. split; [|done]. case_bool; done || lia. }
  destruct (Z.eqb_spec (r_ready r) 0) as [Hz|Hz].
  { apply (Hk used); [done..|]. left. rewrite Hz. done. }
  destruct (r_ready r <=? 0) eqn:Hle; [apply Z.leb_le in Hle; lia|].
  destruct (r_read r) as [data| |]; [|by apply (Hk used); auto|done].
  destruct (take (CAPACITY - length used) data) as [|b got] eqn:Et.
  { injection H as <-. split; [done|]. exists 0%nat. by rewrite app_nil_r. }
  destruct (Z.ltb_spec 4096 (zlen (used ++ b :: got))) as [|Hle']; [done|].
  assert (b :: got = data) as Hd.
  { rewrite <- Et. apply take_ge. rewrite <- Et in Hle'. unfold zlen, CAPACITY in *. rewrite length_app, length_take in Hle'. lia. }
  apply (Hk (used ++ b :: got)); [done..|]. right. by rewrite Hd.
Qed.

Lemma read_loop_ends until rounds used : List.Exists (fun r => until <= r_now r) rounds -> is_Some (read_loop until rounds used).
Proof.
  intros H. revert used. induction H as [r rounds Hr|r rounds _ IH]; intros used; cbn.
  - unfold saturating_sub. rewrite (proj2 (Z.eqb_eq _ 0)) by lia. eauto.
  - repeat first [case_match | eauto].
Qed.

Lemma drop_newlines_app l : exists tail, l = tail ++ drop_newlines l /\ Forall (fun b => is_newline b = true) tail.
Proof.
  induction l as [|b l (tail & H & Hf)]; cbn; [by exists []|]. destruct (is_newline b) eqn:E; [|by exists []].
  exists (b :: tail). split; [by rewrite H at 1|by constructor].
Qed.
Lemma drop_newlines_head l b r : drop_newlines l = b :: r -> is_newline b = false.
Proof. induction l as [|c l IH]; cbn; [done|]. destruct (is_newline c) eqn:E; [done|]. by intros [= <- _]. Qed.

(** The bytes that [check_new] does not count are those that continue a character. *)
Lemma lead_bytes b : (Z.land (Z_of_byte b) 192 =? 128) = cont b.
Proof. by destruct b. Qed.
Lemma cont_of_Z z : 0 <= z < 256 -> cont (byte_of_Z z) = between 128 191 z.
Proof. intros H. unfold cont. by rewrite Z_of_byte_of_Z, Z.mod_small. Qed.
Lemma lead_char c : is_char c = true -> zlen (List.filter (fun b => negb (cont b)) (encode_char c)) = 1.
Proof.
  unfold is_char, encode_char, between. intros H.
  repeat case_match; cbn [List.filter]; rewrite !cont_of_Z by dlia; unfold between;
  repeat match goal with |- context [?a <=? ?b] => destruct (Z.leb_spec a b); try dlia end; done.
Qed.
Lemma lead_chars cs : forallb is_char cs = true ->
  zlen (List.filter (fun b => negb (Z.land (Z_of_byte b) 192 =? 128)) (encode_chars cs)) = zlen cs.
Proof.
  intros H. rewrite (List.filter_ext _ (fun b => negb (cont b))) by (intros b; by rewrite lead_bytes).
  induction cs as [|c cs IH]; [done|]. cbn in H. apply andb_true_iff in H as [Hc H]. unfold encode_chars. rewrite join_fmap_cons, List.filter_app, zlen_app, lead_char by done.
  rewrite zlen_cons. f_equal. by apply IH.
Qed.

(** A passphrase that is read is what its source gave, less the line ends it ended
    with: of 1 to 4096 bytes, all of it; and whatever poll and the source do, the reading ends once
    five seconds are over. A new one passes the check when it has eight characters. *)
Theorem passphrase_read (start : Z) (rounds : list Round) :
  (forall pass, read_bounded start rounds = Some (Ok pass) ->
    1 <= zlen pass <= 4096 /\
    (forall b, last pass = Some b -> is_newline b = false) /\
    exists n ends, Forall (fun b => is_newline b = true) ends /\ mjoin (data_of <$> take n rounds) = pass ++ ends) /\
  (List.Exists (fun r => start + WITHIN <= r_now r) rounds -> is_Some (read_bounded start rounds)) /\
  (forall cs, forallb is_char cs = true -> check_new (encode_chars cs) = Ok tt <-> 8 <= zlen cs).
Proof.
  split_and!.
  - intros pass H. unfold read_bounded in H. destruct (read_loop _ _ _) as [[used|]|] eqn:El; [|done..].
    apply read_loop_ok in El as [Hl [n Hn]]; [|done]. cbn in Hn.
    destruct (drop_newlines_app (reverse used)) as (tail & Ht & Hf).
    assert (used = reverse (drop_newlines (reverse used)) ++ reverse tail) as Hu.
    { rewrite <- reverse_app, <- Ht. by rewrite reverse_involutive. }
    destruct (reverse (drop_newlines (reverse used))) as [|b0 p] eqn:Ep; [done|]. injection H as <-. split_and!.
    + rewrite zlen_cons. pose proof (zlen_nonneg p). lia.
    + rewrite Hu, zlen_app in Hl. pose proof (zlen_nonneg (reverse tail)). lia.
    + intros b Hb. apply last_Some in Hb as [p' Hp']. rewrite Hp' in Ep. apply (f_equal reverse) in Ep.
      rewrite reverse_involutive, reverse_snoc in Ep. by eapply drop_newlines_head.
    + exists n, (reverse tail). split; [by apply Forall_reverse|]. by rewrite <- Hn.
  - intros He. unfold read_bounded. destruct (read_loop_ends _ rounds [] He) as [r ->]. destruct r as [used|]; [|done].
    by destruct (reverse _).
  - intros cs Hcs. unfold check_new. rewrite lead_chars by done. unfold MIN_CHARS. case_bool; split; done || lia.
Qed.

(** ** Mount points *)
Lemma replace_join c by_ (f : Z -> list Z) p : replace c by_ (mjoin (f <$> p)) = mjoin ((fun d => replace c by_ (f d)) <$> p).
Proof.
  induction p as [|d p IH]; [done|]. rewrite !join_fmap_cons, <- IH. unfold replace. by rewrite fmap_app, join_app.
Qed.
Lemma mount_escaped_each p : mount_escaped p = mjoin (escape <$> p).
Proof.
  unfold mount_escaped. unfold replace at 4. rewrite !replace_join. f_equal. apply list_fmap_ext. intros _ d _. unfold escape.
  destruct (Z.eqb_spec d 92) as [->|]; [done|]. cbn. destruct (Z.eqb_spec d 32) as [->|]; [done|]. cbn.
  destruct (Z.eqb_spec d 9) as [->|]; [done|]. cbn. by destruct (Z.eqb_spec d 10) as [->|].
Qed.
Lemma escape_inj c d l m : escape c ++ l = escape d ++ m -> c = d /\ l = m.
Proof.
  unfold escape. repeat match goal with |- context [?a =? ?b] => destruct (Z.eqb_spec a b) as [->|] end; cbn; intros [=]; subst; auto; done.
Qed.
Lemma mount_escaped_inj p q : mount_escaped p = mount_escaped q -> p = q.
Proof.
  rewrite !mount_escaped_each. revert q. induction p as [|c p IH]; intros [|d q]; rewrite ?join_fmap_cons; [done|..].
  - unfold escape. by repeat case_bool.
  - unfold escape. by repeat case_bool.
  - intros [-> H]%escape_inj. f_equal. by apply IH.
Qed.
(** What the kernel writes unescaped is no whitespace. *)
Definition plain_path (p : path) : Prop := p <> [] /\ forallb (fun c => negb (is_whitespace c) || (c =? 32) || (c =? 9) || (c =? 10)) p = true.
Lemma escaped_word p : plain_path p -> forallb (fun c => negb (is_whitespace c)) (mount_escaped p) = true /\ mount_escaped p <> [].
Proof.
  rewrite mount_escaped_each. intros [Hne H]. split.
  - clear Hne. induction p as [|c p IH]; [done|]. cbn in H. apply andb_true_iff in H as [Hc H]. rewrite join_fmap_cons, forallb_app, IH, andb_true_r by done.
    unfold escape. repeat case_bool; try done. cbn. by destruct (is_whitespace c).
  - destruct p as [|c p]; [done|]. rewrite join_fmap_cons. unfold escape. by repeat case_bool.
Qed.
(** A line of /proc/self/mounts: the device, where it is mounted, the rest. *)
Definition mount_line (m : list Z * path * list Z) : list Z := m.1.1 ++ 32 :: mount_escaped m.1.2 ++ 32 :: m.2.
Definition table_ok (m : list Z * path * list Z) : Prop :=
  (m.1.1 <> [] /\ forallb (fun c => negb (is_whitespace c)) m.1.1 = true) /\ plain_path m.1.2 /\ plain_line m.2 /\ m.2 <> [].

(** A mount point is found exactly when the kernel's table has it, whatever the spaces, tabs,
    newlines and backslashes in the paths. *)
Theorem mountpoint_exact (table : list (list Z * path * list Z)) (p : path) :
  Forall table_ok table -> mounted_in (unlines (mount_line <$> table)) p = true <-> p ∈ table.*1.*2.
Proof.
  intros Ht. unfold mounted_in. rewrite lines_unlines.
  - rewrite existsb_exists. split.
    + intros (l & Hl & Hw%bool_decide_eq_true). apply list_elem_of_In, list_elem_of_fmap in Hl as (m & -> & Hm). rewrite Forall_forall in Ht.
      destruct (Ht m Hm) as ((Hd & Hd') & Hp & _). destruct (escaped_word _ Hp) as [He He']. unfold mount_line, words in Hw.
      rewrite (words_from_space [] m.1.1), words_from_space in Hw by auto. cbn in Hw. injection Hw as Hw%mount_escaped_inj. subst p.
      apply list_elem_of_fmap. exists m.1. split; [done|]. apply list_elem_of_fmap. by exists m.
    + intros ([d q] & -> & ([[d' q'] rest] & [= -> ->] & Hm)%list_elem_of_fmap)%list_elem_of_fmap. exists (mount_line (d', q', rest)). split.
      { apply list_elem_of_In, list_elem_of_fmap. by eexists. }
      rewrite Forall_forall in Ht. destruct (Ht _ Hm) as ((Hd & Hd') & Hp & _). cbn in *. destruct (escaped_word _ Hp) as [He He'].
      apply bool_decide_eq_true. unfold mount_line, words. cbn. by rewrite (words_from_space [] d'), words_from_space by auto.
  - apply Forall_fmap. eapply Forall_impl; [exact Ht|]. intros [[d q] rest] ((Hd & Hd') & Hp & [Hr Hr'] & Hne). cbn in *. destruct (escaped_word _ Hp) as [He He'].
    assert (forall w, forallb (fun c => negb (is_whitespace c)) w = true -> 10 ∉ w) as Hw.
    { intros w Hf Hin. rewrite forallb_forall in Hf. by specialize (Hf 10 (proj1 (list_elem_of_In _ _) Hin)). }
    split.
    + unfold mount_line. cbn. rewrite !elem_of_app, !elem_of_cons, !elem_of_app, !elem_of_cons. intros [H|[?|[H|[?|H]]]]; [by apply (Hw d)|done|by apply (Hw (mount_escaped q))|done|done].
    + destruct rest as [|c rest _] using rev_ind; [done|]. rewrite last_snoc in Hr'.
      assert (mount_line (d, q, rest ++ [c]) = (d ++ 32 :: mount_escaped q ++ 32 :: rest) ++ [c]) as Hl.
      { unfold mount_line. cbn. by rewrite <- app_assoc, <- app_comm_cons, <- app_assoc. }
      change (last (mount_line (d, q, rest ++ [c])) <> Some 13). rewrite Hl. by rewrite last_snoc.
Qed.

(** ** Keys changed *)
Lemma memfd_loop_total (sys : Sys) fd fuel data t : (length data <= fuel)%nat ->
  wp (memfd_loop sys fuel fd data) (fun _ _ => True) (fun _ _ => True) t.
Proof.
  revert data t. induction fuel as [|fuel IH]; intros [|b data] t H; cbn [memfd_loop]; [by apply wp_ret|cbn in H; lia|by apply wp_ret|].
  apply wp_bind, (wp_call sys (fun _ _ => True)); [done..|]. intros n _. apply wp_bind, wp_reject_if; [done|]. intros Hn%Z.leb_gt.
  apply IH. rewrite length_drop. cbn [length] in *. lia.
Qed.
(** Whatever is written of them at a time, both passphrases are in their memfds when cryptsetup
    runs, and a changed key is one of eight characters. *)
Lemma change_key_total (sys : Sys) zone volume old new t :
  wp (change_key sys zone volume old new) (fun _ _ => check_new new = Ok tt) (fun _ _ => True) t.
Proof.
  unfold change_key. apply wp_bind, wp_lift; [|done]. intros [] Hn.
  assert (forall name data (Q : Z -> Trace -> Prop) t, (forall fd t', Q fd t') -> wp (memfd sys name data) Q (fun _ _ => True) t) as Hm.
  { intros name data Q t' HQ. apply wp_bind, (wp_call sys (fun _ _ => True)); [done..|]. intros fd _. apply wp_bind, wp_require; [|done].
    intros v _. apply wp_bind. eapply wp_mono; [..|by apply memfd_loop_total]; [|done]. intros _ t1 _. apply wp_ret, HQ. }
  apply wp_bind, Hm. intros oldfd t1. apply wp_bind, Hm. intros newfd t2. apply wp_bind, (wp_call sys (fun _ _ => True)); [done..|].
  intros [out|code] _; [by apply wp_ret|]. destruct (code =? 2); by apply wp_fail.
Qed.
