(* ===== verification/Rootfs.v ===== *)
(** * The root a zone is given (rootfs.rs)

    Everything a zone sees is mounted by [pivot_into] on a fresh tmpfs, which then becomes its
    root. The code is a sequence of system calls, each answered by the kernel as it likes
    ([Sys]); [after] says what the mount table is once they have been made. *)
From S2P Require Import Prelude Bytes Text Registry Volume.
Open Scope string_scope.
Open Scope list_scope.
Open Scope Z_scope.

Module Rootfs.
Abbreviation text := (list Z).
Definition in_dir (dir rel : text) : text := dir ++ chars "/" ++ rel.

(** ** What is asked of the kernel *)
Abbreviation MS_RDONLY := 1.
Abbreviation MS_NOSUID := 2.
Abbreviation MS_NODEV := 4.
Abbreviation MS_NOEXEC := 8.
Abbreviation MS_REMOUNT := 32.
Abbreviation MS_BIND := 4096.
Abbreviation MS_REC := 16384.
Abbreviation MS_PRIVATE := 262144.
Abbreviation EINVAL := 22.
Abbreviation MOUNT_ATTR_RDONLY := 1.
Abbreviation MOUNT_ATTR_NOSUID := 2.
Abbreviation MOUNT_ATTR_NODEV := 4.
Abbreviation MOUNT_ATTR_NOEXEC := 8.

Record Stat := mkStat { st_symlink : bool; st_dir : bool; st_uid : Z }.
Inductive Remark := NoSys | NoDevice (host : text) | NoDevpts | HomeFlags (home : text).

(** A system call that fails answers its errno, one of the standard library [false] or [None].
    The entries of a directory are those that could be read. *)
Inductive Call : Type -> Type :=
| Mount (src target : text) (fstype : option text) (flags : Z) (data : option text) : Call (option Z)
| SetAttr (target : text) (attrs : Z) (recursive : bool) : Call (option Z)
| Detach (target : text) : Call (option Z)
| PivotRoot (new old : text) : Call (option Z)
| Chdir (p : text) : Call (option Z)
| OpenPath (p : text) : Call (result Z Z)
| Close (fd : Z) : Call unit
| CreateDirAll (p : text) : Call bool
| CreateFile (p : text) : Call bool
| WriteFile (p : text) (content : bytes) : Call bool
| ReadFile (p : text) : Call (option bytes)
| Symlink (target link : text) : Call bool
| Chown (p : text) (uid gid : Z) : Call bool
| SetMode (p : text) (mode : Z) : Call bool
| RemoveDir (p : text) : Call bool
| RemoveFile (p : text) : Call bool
| IsDir (p : text) : Call bool
| IsFile (p : text) : Call bool
| Exists (p : text) : Call bool
| Lstat (p : text) : Call (option Stat)
| Canonical (p : text) : Call (option text)
| ReadDir (p : text) : Call (option (list (option text)))
| Note (r : Remark) : Call unit
| FdFlags (fd : Z) : Call Z
| OpenNull : Call Z
| CloseRange (first last : Z) : Call (option Z).

Inductive Event := Did (A : Type) (c : Call A) (a : A).
#[global] Arguments Did {A} _ _.
Abbreviation Trace := (list Event).
Definition Sys : Type := forall A, nat -> Call A -> A.

Inductive RootfsError :=
| Syscall (call : string) (path : text) (errno : Z)
| NulPath (path : text)
| SetupAt (path : text)
| DataSymlink (path : text)
| DataNotDir (path : text)
| DataOwner (path : text) (uid expected : Z)
| DataHasMounts (path : text)
| Leftovers (zone path : text) (names : list (option text)).
Abbreviation RM := (M Trace RootfsError).

Section calls.
Context (sys : Sys).
Definition call {A} (c : Call A) : RM A := fun t =>
  let a := sys A (length t) c in (Done a, t ++ [Did c a]).
(** [let _ = ...]. *)
Definition ignored {A} (c : Call A) : RM unit := _ ← call c; mret tt.
(** A call of the standard library whose failure names the path. *)
Definition need (c : Call bool) (p : text) : RM unit :=
  ok ← call c; if ok : bool then mret tt else fail (SetupAt p).
(** A system call whose failure is returned with its errno. *)
Definition sysret (c : Call (option Z)) (name : string) (p : text) : RM unit :=
  r ← call c; match r with None => mret tt | Some e => fail (Syscall name p e) end.

(** [CString::new]. *)
Definition cs (s : text) : RM unit := reject_if (bool_decide (0 ∈ s)) (NulPath s).
Definition cs_opt (s : option text) : RM unit := match s with Some s => cs s | None => mret tt end.

Definition mount_raw (src target : text) (fstype : option text) (flags : Z) (data : option text) (name : string) : RM unit :=
  cs src;; cs target;; cs_opt fstype;; cs_opt data;;
  sysret (Mount src target fstype flags data) name target.
Definition set_mount_attr (target : text) (attrs : Z) (recursive : bool) : RM unit :=
  cs target;; sysret (SetAttr target attrs recursive) "mount_setattr" target.
Definition make_ro_recursive (target : text) : RM unit :=
  set_mount_attr target (Z.lor (Z.lor MOUNT_ATTR_RDONLY MOUNT_ATTR_NOSUID) MOUNT_ATTR_NODEV) true.
Definition bind_ro_dir (src target : text) : RM unit :=
  need (CreateDirAll target) target;;
  mount_raw src target None (Z.lor MS_BIND MS_REC) None "mount(bind)";;
  make_ro_recursive target.
Definition bind_dev_dir (src target : text) : RM unit :=
  need (CreateDirAll target) target;;
  mount_raw src target None MS_BIND None "mount(bind camera directory)";;
  set_mount_attr target (Z.lor (Z.lor MOUNT_ATTR_RDONLY MOUNT_ATTR_NOSUID) MOUNT_ATTR_NOEXEC) false.
Definition bind_over_ro (src target : text) : RM unit :=
  mount_raw src target None MS_BIND None "mount(bind file)";;
  set_mount_attr target (Z.lor (Z.lor MOUNT_ATTR_RDONLY MOUNT_ATTR_NOSUID) MOUNT_ATTR_NODEV) false.
(** [Path::parent] of a path as the callers write it: what comes before its last slash. *)
Fixpoint parent (p : text) : option text :=
  match p with
  | [] => None
  | c :: p =>
    match parent p with
    | Some d => Some (c :: d)
    | None => if c =? 47 then Some [] else None
    end
  end.
Definition bind_ro_file (src target : text) : RM unit :=
  match parent target with Some dir => need (CreateDirAll dir) dir | None => mret tt end;;
  need (CreateFile target) target;;
  bind_over_ro src target.

(** ** What every zone is given *)
Definition SYSTEM_PATHS : list text := chars <$> ["/usr"; "/lib"; "/lib64"; "/bin"; "/sbin"].
Definition ETC_RO_FILES : list text :=
  chars <$> ["/etc/ld.so.cache"; "/etc/services"; "/etc/protocols"; "/etc/man_db.conf"; "/etc/ssl/cert.pem"].
Definition NIC_ETC_FILES : list text := chars <$> ["/etc/dhcpcd.conf"; "/etc/kryptik/time.conf"; "/etc/kryptik/update.conf"].
Definition PROC_MASKED : list text := chars <$>
  ["interrupts"; "softirqs"; "stat"; "schedstat"; "pressure/irq"; "timer_list"; "sched_debug";
   "loadavg"; "partitions"; "diskstats";
   "vmstat"; "zoneinfo"; "buddyinfo"; "pressure/cpu"; "pressure/memory"; "pressure/io";
   "sys/fs/file-nr"; "sys/fs/inode-nr"; "sys/fs/dentry-state"].
Definition PROC_EMPTIED : list text := chars <$> ["irq"; "asound"].
Definition SYSFS_KEPT : list text := chars <$> ["class/net"; "devices/virtual/net"; "devices/system/cpu"].
Definition NIC_SYSFS_KEPT : list text := [chars "class/ieee80211"].
Definition ETC_RO_DIRS : list text := chars <$> ["/etc/alternatives"; "/etc/ssl/certs"; "/etc/pki/tls/certs"; "/etc/lynx"].
Definition ALLOCATOR : text := chars "/usr/lib/libhardened_malloc.so".
Definition DEVICES : list (text * text) := (fun p : string * string => (chars p.1, chars p.2)) <$>
  [("/dev/null", "null"); ("/dev/zero", "zero"); ("/dev/full", "full"); ("/dev/random", "random"); ("/dev/urandom", "urandom"); ("/dev/tty", "tty")].
Definition WAYLAND_SOCKET_NAME : text := chars "wayland-0".
Definition WAYLAND_SOCKET_IN_ZONE : text := chars "/run/kryptik/wayland-0".
Definition BROKER_SOCKET_NAME : text := chars "broker".
Definition WIFI_IN_ZONE : text := chars "/etc/wpa_supplicant.conf".
Definition SOUND_IN_ZONE : text := chars "/run/kryptik/sound".
Definition CAMERA_IN_ZONE : text := chars "/run/kryptik/camera".
Definition CAMERA_NODE : text := chars "video0".
Definition WPA_RUN_DIR : text := chars "/run/wpa_supplicant".
Definition SERVICE_ID : Z := 100.
Definition WIFI_ID : Z := 101.
Definition SERVICE_HOME : text := chars "/var/empty".

Definition zone_home (zone : text) : text := chars "/home/" ++ zone.
Definition nl : text := [10].
Definition num : Z -> text := Registry.show_num.
Definition passwd_for (zone home : text) (service : bool) : text :=
  chars "root:x:0:0:" ++ zone ++ chars ":" ++ home ++ chars ":/bin/sh" ++ nl ++
  (if service then
     chars "dhcpcd:x:" ++ num SERVICE_ID ++ chars ":" ++ num SERVICE_ID ++ chars ":dhcpcd:" ++ SERVICE_HOME ++ chars ":/bin/false" ++ nl ++
     chars "wpa:x:" ++ num WIFI_ID ++ chars ":" ++ num WIFI_ID ++ chars ":wpa_supplicant:" ++ WPA_RUN_DIR ++ chars ":/bin/false" ++ nl
   else []) ++
  chars "nobody:x:65534:65534:nobody:/nonexistent:/bin/false" ++ nl.
Definition group_for (service : bool) : text :=
  chars "root:x:0:" ++ nl ++
  (if service then chars "dhcpcd:x:" ++ num SERVICE_ID ++ chars ":" ++ nl ++ chars "wpa:x:" ++ num WIFI_ID ++ chars ":" ++ nl else []) ++
  chars "nogroup:x:65534:" ++ nl.
Definition nsswitch : text :=
  chars "passwd: files" ++ nl ++ chars "group: files" ++ nl ++ chars "shadow: files" ++ nl ++ chars "hosts: files dns" ++ nl ++
  chars "services: files" ++ nl ++ chars "protocols: files" ++ nl.
Definition hosts_for (zone : text) : text :=
  chars "127.0.0.1 localhost " ++ zone ++ nl ++ chars "::1 localhost " ++ zone ++ nl.
Inductive Resolver := NoResolver | Bridge | Writable.
#[global] Instance Resolver_eq : EqDecision Resolver := ltac:(solve_decision).
Definition resolv_conf_for_bridge : text := chars "nameserver 10.19.0.1" ++ nl ++ chars "nameserver fd19::1" ++ nl.

(** ** The zone's data directory *)
Definition check_data_dir_empty (path zone : text) : RM unit :=
  r ← call (ReadDir path);
  match r with
  | None => fail (SetupAt path)
  | Some entries =>
    match take 6 entries with
    | [] => mret tt
    | leftovers => fail (Leftovers zone path leftovers)
    end
  end.
Definition check_data_dir (path : text) (expected_uid : Z) : RM unit :=
  r ← call (Lstat path);
  match r with
  | None => fail (SetupAt path)
  | Some md =>
    reject_if (st_symlink md) (DataSymlink path);;
    reject_if (negb (st_dir md)) (DataNotDir path);;
    reject_if (negb (st_uid md =? expected_uid)) (DataOwner path (st_uid md) expected_uid)
  end.

(** ** /etc *)
Definition put_etc (etc name content : text) : RM unit :=
  let p := in_dir etc name in need (WriteFile p (encode_chars content)) p.
Definition bind_etc_file (root f : text) : RM unit :=
  ok ← call (IsFile f); if ok : bool then bind_ro_file f (root ++ f) else mret tt.
Definition bind_etc_dir (root d : text) : RM unit :=
  ok ← call (IsDir d); if ok : bool then bind_ro_dir d (root ++ d) else mret tt.
Definition populate_etc (root zone home : text) (resolver : Resolver) (service : bool) : RM unit :=
  let etc := in_dir root (chars "etc") in
  need (CreateDirAll etc) etc;;
  put_etc etc (chars "passwd") (passwd_for zone home service);;
  put_etc etc (chars "group") (group_for service);;
  put_etc etc (chars "nsswitch.conf") nsswitch;;
  put_etc etc (chars "hosts") (hosts_for zone);;
  put_etc etc (chars "hostname") (zone ++ nl);;
  hardened ← call (IsFile ALLOCATOR);
  (if hardened : bool then put_etc etc (chars "ld.so.preload") (ALLOCATOR ++ nl) else mret tt);;
  match resolver with
  | NoResolver => mret tt
  | Bridge => put_etc etc (chars "resolv.conf") resolv_conf_for_bridge
  | Writable => need (Symlink (chars "/tmp/resolv.conf") (in_dir etc (chars "resolv.conf"))) (in_dir etc (chars "resolv.conf"))
  end;;
  for_each (ETC_RO_FILES ++ (if decide (resolver = Writable) then NIC_ETC_FILES else [])) (bind_etc_file root);;
  for_each ETC_RO_DIRS (bind_etc_dir root).

(** ** /proc *)
Definition mask_file (proc_dir f : text) : RM unit :=
  let target := in_dir proc_dir f in
  there ← call (Exists target); if there : bool then bind_over_ro (chars "/dev/null") target else mret tt.
Definition SEALED_TMPFS : Z := Z.lor (Z.lor (Z.lor MS_RDONLY MS_NOSUID) MS_NODEV) MS_NOEXEC.
Definition empty_dir (proc_dir d : text) : RM unit :=
  let target := in_dir proc_dir d in
  there ← call (IsDir target);
  if there : bool then mount_raw (chars "tmpfs") target (Some (chars "tmpfs")) SEALED_TMPFS (Some (chars "mode=0555,size=4k")) "mount(proc tmpfs)"
  else mret tt.
(** A file of /proc behind a copy of [from], taken now and unlinked once it is bound. *)
Definition freeze_file (from own target : text) : RM unit :=
  there ← call (Exists target);
  if there : bool then
    r ← call (ReadFile from);
    match r with
    | None => fail (SetupAt own)
    | Some content =>
      need (WriteFile own content) own;;
      bind_over_ro own target;;
      ignored (RemoveFile own)
    end
  else mret tt.
Definition mask_proc (root proc_dir : text) : RM unit :=
  for_each PROC_MASKED (mask_file proc_dir);;
  for_each PROC_EMPTIED (empty_dir proc_dir);;
  freeze_file (in_dir proc_dir (chars "sys/kernel/random/uuid")) (in_dir root (chars ".boot_id")) (in_dir proc_dir (chars "sys/kernel/random/boot_id"));;
  freeze_file (in_dir proc_dir (chars "cpuinfo")) (in_dir root (chars ".cpuinfo")) (in_dir proc_dir (chars "cpuinfo")).

(** ** /sys *)
(** [Path::strip_prefix] on paths without doubled slashes. *)
Definition path_under (base p : text) : option text :=
  if bool_decide (p = base) then Some [] else strip_prefix (in_dir base []) p.
Definition device_of (aside base class name : text) : RM (list text) :=
  dev ← call (Canonical (in_dir (in_dir (in_dir aside class) name) (chars "device")));
  mret (match dev with Some d => option_list (path_under base d) | None => [] end).
Fixpoint devices_of (aside base class : text) (entries : list (option text)) : RM (list text) :=
  match entries with
  | [] => mret []
  | Some name :: es => ds ← device_of aside base class name; rest ← devices_of aside base class es; mret (ds ++ rest)
  | None :: es => devices_of aside base class es
  end.
Definition class_devices (aside base class : text) : RM (list text) :=
  r ← call (ReadDir (in_dir aside class)); devices_of aside base class (default [] r).
(** The set is walked in order, each device once. *)
Definition add_devices (kept devices : list text) : list text :=
  foldl (fun kept d => if negb (bool_decide (d = [])) && negb (bool_decide (d ∈ kept)) then kept ++ [d] else kept)
    kept (Volume.sort_text (remove_dups devices)).
Definition nic_sysfs (aside : text) : RM (list text) :=
  let kept := SYSFS_KEPT ++ NIC_SYSFS_KEPT in
  b ← call (Canonical aside);
  match b with
  | None => mret kept
  | Some base =>
    net ← class_devices aside base (chars "class/net");
    radios ← class_devices aside base (chars "class/ieee80211");
    mret (add_devices kept (net ++ radios))
  end.
Definition is_numbered (name : text) : bool :=
  match strip_prefix (chars "cpu") name with Some n => negb (bool_decide (n = [])) && forallb is_digit n | None => false end.
Definition SYS_FLAGS : Z := Z.lor (Z.lor MS_NOSUID MS_NODEV) MS_NOEXEC.
Definition keep_dir (aside sys_dir rel : text) : RM unit :=
  let src := in_dir aside rel in
  there ← call (IsDir src); if there : bool then bind_ro_dir src (in_dir sys_dir rel) else mret tt.
Definition empty_sys (target : text) (name : string) : RM unit :=
  mount_raw (chars "tmpfs") target (Some (chars "tmpfs")) (Z.lor SYS_FLAGS MS_RDONLY) (Some (chars "mode=0555,size=4k")) name.
Definition empty_idle (cpus : text) (e : option text) : RM unit :=
  match e with
  | None => mret tt
  | Some name =>
    let idle := in_dir (in_dir cpus name) (chars "cpuidle") in
    if is_numbered name then there ← call (IsDir idle); if there : bool then empty_sys idle "mount(cpuidle tmpfs)" else mret tt
    else mret tt
  end.
Definition keep_sysfs (aside sys_dir : text) (kept : list text) : RM unit :=
  mount_raw (chars "tmpfs") sys_dir (Some (chars "tmpfs")) SYS_FLAGS (Some (chars "mode=0755,size=64k")) "mount(sys tmpfs)";;
  for_each kept (keep_dir aside sys_dir);;
  let cpus := in_dir sys_dir (chars "devices/system/cpu") in
  entries ← call (ReadDir cpus);
  for_each (default [] entries) (empty_idle cpus);;
  let freq := in_dir cpus (chars "cpufreq") in
  there ← call (IsDir freq);
  (if there : bool then empty_sys freq "mount(cpufreq tmpfs)" else mret tt);;
  mount_raw (chars "none") sys_dir None (Z.lor (Z.lor SYS_FLAGS MS_REMOUNT) MS_RDONLY) None "mount(sys tmpfs, ro)".

(** ** /dev *)
(** [if let Err(e) = m]: the error, if it failed. *)
Definition attempt (m : RM unit) : RM (option RootfsError) := fun t =>
  match m t with
  | (Done _, t) => (Done None, t)
  | (Fail e, t) => (Done (Some e), t)
  | (Panic, t) => (Panic, t)
  end.
Definition give_device (dev_dir : text) (d : text * text) : RM unit :=
  there ← call (Exists d.1);
  if negb there then mret tt
  else
    let target := in_dir dev_dir d.2 in
    need (CreateFile target) target;;
    r ← attempt (mount_raw d.1 target None MS_BIND None "mount(dev node)");
    match r with Some _ => ignored (Note (NoDevice d.1)) | None => mret tt end.
Definition STD_LINKS : list (text * text) := (fun p : string * string => (chars p.1, chars p.2)) <$>
  [("fd", "/proc/self/fd"); ("stdin", "/proc/self/fd/0"); ("stdout", "/proc/self/fd/1"); ("stderr", "/proc/self/fd/2")].
Definition populate_dev (root : text) (camera : bool) : RM unit :=
  let dev_dir := in_dir root (chars "dev") in
  need (CreateDirAll dev_dir) dev_dir;;
  mount_raw (chars "tmpfs") dev_dir (Some (chars "tmpfs")) (Z.lor MS_NOSUID MS_NOEXEC) (Some (chars "mode=0755,size=1M")) "mount(dev tmpfs)";;
  for_each DEVICES (give_device dev_dir);;
  let shm := in_dir dev_dir (chars "shm") in
  need (CreateDirAll shm) shm;;
  mount_raw (chars "tmpfs") shm (Some (chars "tmpfs")) (Z.lor (Z.lor MS_NOSUID MS_NODEV) MS_NOEXEC) (Some (chars "mode=1777,size=256m")) "mount(dev/shm)";;
  let pts := in_dir dev_dir (chars "pts") in
  need (CreateDirAll pts) pts;;
  r ← attempt (mount_raw (chars "devpts") pts (Some (chars "devpts")) (Z.lor MS_NOSUID MS_NOEXEC)
                 (Some (chars "newinstance,ptmxmode=0666,mode=0620,max=256")) "mount(devpts)");
  match r with
  | None => ignored (Symlink (chars "pts/ptmx") (in_dir dev_dir (chars "ptmx")))
  | Some _ => ignored (Note NoDevpts)
  end;;
  (if camera then ignored (Symlink (in_dir CAMERA_IN_ZONE CAMERA_NODE) (in_dir dev_dir (chars "video0"))) else mret tt);;
  for_each STD_LINKS (fun l => ignored (Symlink l.2 (in_dir dev_dir l.1))).

(** ** The whole root *)
(** The arguments of [pivot_into]. *)
Record Args := mkArgs {
  a_data_dir : text; a_zone : text; a_ephemeral : option text; a_resolver : Resolver;
  a_broker : option text; a_wayland : option text; a_wifi_conf : option text;
  a_sound : option text; a_camera : option text; a_usr : text; a_service : bool }.

Definition mkdir (root rel : text) : RM text :=
  let p := in_dir root rel in need (CreateDirAll p) p;; mret p.
(** The descriptor of the data directory, opened before the tmpfs hides it. *)
Definition open_data (a : Args) : RM Z :=
  match a_ephemeral a with
  | Some _ => mret (-1)
  | None =>
    cs (a_data_dir a);;
    r ← call (OpenPath (a_data_dir a));
    match r with Ok fd => mret fd | Err e => fail (Syscall "open(data dir)" (a_data_dir a) e) end
  end.
Definition bind_system (root usr p : text) : RM unit :=
  there ← call (IsDir p);
  if there : bool then bind_ro_dir (if bool_decide (p = chars "/usr") then usr else p) (root ++ p) else mret tt.
Definition mount_proc (root : text) : RM unit :=
  proc_dir ← mkdir root (chars "proc");
  mount_raw (chars "proc") proc_dir (Some (chars "proc")) (Z.lor (Z.lor MS_NOSUID MS_NOEXEC) MS_NODEV) None "mount(proc)";;
  mask_proc root proc_dir.
Definition mount_sys (root : text) (resolver : Resolver) : RM unit :=
  sys_dir ← mkdir root (chars "sys");
  aside ← mkdir root (chars ".sysfs");
  mounted ← attempt (mount_raw (chars "sysfs") aside (Some (chars "sysfs"))
                       (Z.lor (Z.lor (Z.lor MS_NOSUID MS_NOEXEC) MS_NODEV) MS_RDONLY) None "mount(sysfs)");
  match mounted with
  | None =>
    kept ← (if decide (resolver = Writable) then nic_sysfs aside else mret SYSFS_KEPT);
    r ← attempt (keep_sysfs aside sys_dir kept);
    match r with Some _ => ignored (Note NoSys) | None => mret tt end;;
    cs aside;;
    sysret (Detach aside) "umount2" aside
  | Some _ => mret tt
  end;;
  ignored (RemoveDir aside).
Definition mount_tmp (root : text) : RM unit :=
  tmp_dir ← mkdir root (chars "tmp");
  mount_raw (chars "tmpfs") tmp_dir (Some (chars "tmpfs")) (Z.lor MS_NOSUID MS_NODEV) (Some (chars "mode=1777,size=256m")) "mount(tmp)".
Definition mount_nic (root : text) (d : text * string) : RM unit :=
  p ← mkdir root d.1;
  mount_raw (chars "tmpfs") p (Some (chars "tmpfs")) (Z.lor (Z.lor MS_NOSUID MS_NODEV) MS_NOEXEC) (Some (chars "mode=0755,size=8m")) d.2.
Definition nic_dirs (root : text) (service : bool) : RM unit :=
  for_each [(chars "run", "mount(nic /run tmpfs)"); (chars "var/lib", "mount(nic /var/lib tmpfs)")] (mount_nic root);;
  if service then
    d ← mkdir root (drop 1 WPA_RUN_DIR);
    need (Chown d WIFI_ID WIFI_ID) d;;
    need (SetMode d 457) d
  else mret tt.
Definition bind_socket (root name sock : text) : RM unit :=
  rk ← mkdir root (chars "run/kryptik"); bind_ro_file sock (in_dir rk name).
Definition opt (o : option text) (f : text -> RM unit) : RM unit := match o with Some x => f x | None => mret tt end.
Definition bind_wifi (root conf : text) : RM unit :=
  there ← call (IsFile conf); if there : bool then bind_ro_file conf (root ++ WIFI_IN_ZONE) else mret tt.
Definition mount_home (a : Args) (root : text) (data_fd : Z) : RM unit :=
  let home := zone_home (a_zone a) in
  home_dir ← mkdir root (drop 1 home);
  match a_ephemeral a with
  | Some size =>
    mount_raw (chars "tmpfs") home_dir (Some (chars "tmpfs")) (Z.lor MS_NOSUID MS_NODEV)
      (Some (chars "mode=0700,uid=0,gid=0,size=" ++ size)) "mount(ephemeral home tmpfs)"
  | None =>
    r ← attempt (mount_raw (chars "/proc/self/fd/" ++ num data_fd) home_dir None MS_BIND None "mount(bind zone data)");
    match r with
    | None => mret tt
    | Some (Syscall c p e) => if e =? EINVAL then fail (DataHasMounts (a_data_dir a)) else fail (Syscall c p e)
    | Some e => fail e
    end;;
    call (Close data_fd)
  end;;
  r ← attempt (set_mount_attr home_dir (Z.lor MOUNT_ATTR_NOSUID MOUNT_ATTR_NODEV) false);
  match r with Some _ => ignored (Note (HomeFlags home)) | None => mret tt end.
Definition OLD_ROOT : text := chars "/.oldroot".
Definition enter (root : text) : RM unit :=
  old_root ← mkdir root (chars ".oldroot");
  cs root;; cs old_root;;
  sysret (PivotRoot root old_root) "pivot_root" root;;
  sysret (Chdir (chars "/")) "chdir" (chars "/");;
  sysret (Detach OLD_ROOT) "umount2" OLD_ROOT;;
  ignored (RemoveDir OLD_ROOT);;
  set_mount_attr (chars "/") (Z.lor (Z.lor (Z.lor MOUNT_ATTR_RDONLY MOUNT_ATTR_NOSUID) MOUNT_ATTR_NODEV) MOUNT_ATTR_NOEXEC) false.

(** What is mounted on the root's tmpfs, in order. *)
Definition furnish (a : Args) (data_fd : Z) : RM unit :=
  let root := a_data_dir a in let home := zone_home (a_zone a) in
  for_each SYSTEM_PATHS (bind_system root (a_usr a));;
  populate_etc root (a_zone a) home (a_resolver a) (a_service a);;
  (if a_service a then _ ← mkdir root (drop 1 SERVICE_HOME); mret tt else mret tt);;
  mount_proc root;;
  mount_sys root (a_resolver a);;
  populate_dev root (bool_decide (is_Some (a_camera a)));;
  mount_tmp root;;
  (if decide (a_resolver a = Writable) then nic_dirs root (a_service a) else mret tt);;
  opt (a_wifi_conf a) (bind_wifi root);;
  opt (a_broker a) (bind_socket root BROKER_SOCKET_NAME);;
  opt (a_wayland a) (bind_socket root WAYLAND_SOCKET_NAME);;
  opt (a_sound a) (fun dir => bind_ro_dir dir (root ++ SOUND_IN_ZONE));;
  opt (a_camera a) (fun dir => bind_dev_dir dir (root ++ CAMERA_IN_ZONE));;
  mount_home a root data_fd.
Definition pivot_into (a : Args) : RM text :=
  mount_raw (chars "none") (chars "/") None (Z.lor MS_REC MS_PRIVATE) None "mount(private)";;
  data_fd ← open_data a;
  let root := a_data_dir a in
  mount_raw (chars "tmpfs") root (Some (chars "tmpfs")) (Z.lor (Z.lor MS_NOSUID MS_NODEV) MS_NOEXEC) (Some (chars "mode=0755,size=16m")) "mount(root tmpfs)";;
  furnish a data_fd;;
  enter root;;
  mret (zone_home (a_zone a)).

(** ** Descriptors *)
Definition ensure_fd (fd : Z) : RM unit :=
  r ← call (FdFlags fd);
  if 0 <=? r then mret tt
  else got ← call OpenNull; if (0 <=? got) && negb (got =? fd) then call (Close got) else mret tt.
Definition ensure_stdio : RM unit := for_each [0; 1; 2] ensure_fd.
Definition close_inherited_fds : RM (option Z) := call (CloseRange 3 U32_MAX).
End calls.

(** ** What the calls leave mounted

    A table lists the mounts a process can reach, the newest first. [m_attr] holds the attributes
    that were asked for, as bits; [m_tree] those of the mounts a recursive bind has brought
    along, [None] where it brought none. *)
Record Mnt := mkMnt { m_at : text; m_src : text; m_fs : option text; m_attr : Z; m_tree : option Z }.
Definition inside (p q : text) : bool :=
  bool_decide (p = q) || bool_decide (p = chars "/") || match strip_prefix (in_dir p []) q with Some _ => true | None => false end.
Definition add_attr (attrs : Z) (recursive : bool) (m : Mnt) : Mnt :=
  mkMnt (m_at m) (m_src m) (m_fs m) (Z.lor (m_attr m) attrs) (if recursive then Z.lor attrs <$> m_tree m else m_tree m).
Fixpoint set_attr (p : text) (attrs : Z) (recursive : bool) (l : list Mnt) : list Mnt :=
  match l with
  | [] => []
  | m :: l =>
    if bool_decide (m_at m = p) then add_attr attrs recursive m :: l
    else (if recursive && inside p (m_at m) then add_attr attrs recursive m else m) :: set_attr p attrs recursive l
  end.
Fixpoint remount (p : text) (attrs : Z) (l : list Mnt) : list Mnt :=
  match l with
  | [] => []
  | m :: l => if bool_decide (m_at m = p) then mkMnt (m_at m) (m_src m) (m_fs m) attrs (m_tree m) :: l else m :: remount p attrs l
  end.
(** The newest mount at [p] goes, and what was mounted beneath it since. *)
Fixpoint detach (p : text) (l : list Mnt) : list Mnt :=
  match l with
  | [] => []
  | m :: l => if bool_decide (m_at m = p) then l else if inside p (m_at m) then detach p l else m :: detach p l
  end.
Definition moved (f : text -> text) (m : Mnt) : Mnt := mkMnt (f (m_at m)) (m_src m) (m_fs m) (m_attr m) (m_tree m).
(** What the process could reach: nothing older than its root. *)
Fixpoint reach (l : list Mnt) : list Mnt :=
  match l with
  | [] => []
  | m :: l => if bool_decide (m_at m = chars "/") then [m] else m :: reach l
  end.
(** The newest mount at [new] and what is mounted beneath it since, and the rest. *)
Fixpoint cut (new : text) (l : list Mnt) : list Mnt * list Mnt :=
  match l with
  | [] => ([], [])
  | m :: l =>
    if bool_decide (m_at m = new) then ([m], l)
    else let '(zone, host) := cut new l in if inside new (m_at m) then (m :: zone, host) else (zone, m :: host)
  end.
Definition below (new p : text) : text :=
  match strip_prefix new p with Some [] | None => chars "/" | Some rest => rest end.
Definition onto (old p : text) : text := if bool_decide (p = chars "/") then old else old ++ p.
Definition pivot (new old : text) (l : list Mnt) : list Mnt :=
  let '(zone, host) := cut new l in
  (moved (onto (below new old)) <$> reach host) ++ (moved (below new) <$> zone).
Definition has (flags f : Z) : bool := negb (Z.land flags f =? 0).
Definition mounted (src target : text) (fstype : option text) (flags : Z) (l : list Mnt) : list Mnt :=
  if has flags MS_PRIVATE then l
  else if has flags MS_REMOUNT then remount target (Z.land flags 15) l
  else if has flags MS_BIND then mkMnt target src None 0 (if has flags MS_REC then Some 0 else None) :: l
  else mkMnt target src fstype (Z.land flags 15) None :: l.
Definition step (l : list Mnt) (ev : Event) : list Mnt :=
  match ev with
  | @Did _ c a =>
    match c in Call A return A -> list Mnt with
    | Mount src target fstype flags _ => fun r => match r with None => mounted src target fstype flags l | Some _ => l end
    | SetAttr target attrs recursive => fun r => match r with None => set_attr target attrs recursive l | Some _ => l end
    | Detach target => fun r => match r with None => detach target l | Some _ => l end
    | PivotRoot new old => fun r => match r with None => pivot new old l | Some _ => l end
    | _ => fun _ => l
    end a
  end.
Definition after (host : list Mnt) (t : Trace) : list Mnt := foldl step host t.
End Rootfs.
