(* ===== verification/RootfsClaims.v ===== *)
(** * What a zone finds mounted (claims on rootfs.rs) *)
From S2P Require Import Prelude Bytes Text Registry Volume Rootfs.
Open Scope string_scope.
Open Scope list_scope.
Open Scope Z_scope.
Import Rootfs.
#[local] Opaque M_bind M_ret.

(** ** What a zone may find

    Each mount as it is once the zone has its root: where, of what, and the attributes it was
    given. Attributes: 1 read-only, 2 no setuid, 4 no devices, 8 no programs. *)
Definition tmpfs (at_ : text) (attrs : Z) : Mnt := mkMnt at_ (chars "tmpfs") (Some (chars "tmpfs")) attrs None.
Definition bound (at_ src : text) (attrs : Z) : Mnt := mkMnt at_ src None attrs None.
Definition bound_tree (at_ src : text) (attrs : Z) : Mnt := mkMnt at_ src None attrs (Some attrs).
Definition mask (f : text) : Mnt := bound (chars "/proc/" ++ f) (chars "/dev/null") 7.
Definition emptied (d : text) : Mnt := tmpfs (chars "/proc/" ++ d) 15.
Definition frozen (root f own : text) : Mnt := bound (chars "/proc/" ++ f) (in_dir root own) 7.
Definition nic (a : Args) : Prop := a_resolver a = Writable.

(** What there is below /sys: read-only pieces of sysfs, and a tmpfs over what tells of other
    zones; less of either when a mount failed. *)
Inductive in_sys (a : Args) : Mnt -> Prop :=
| sys_root attrs : attrs = 14 \/ attrs = 15 -> in_sys a (tmpfs (chars "/sys") attrs)
| sys_piece rel attrs : rel ∈ SYSFS_KEPT \/ nic a -> attrs = 0 \/ attrs = 7 ->
    in_sys a (bound_tree (chars "/sys/" ++ rel) (in_dir (in_dir (a_data_dir a) (chars ".sysfs")) rel) attrs)
| sys_idle cpu : in_sys a (tmpfs (chars "/sys/devices/system/cpu/" ++ cpu ++ chars "/cpuidle") 15)
| sys_freq : in_sys a (tmpfs (chars "/sys/devices/system/cpu/cpufreq") 15).

Inductive granted (a : Args) : Mnt -> Prop :=
| g_system p : p ∈ SYSTEM_PATHS -> granted a (bound_tree p (if bool_decide (p = chars "/usr") then a_usr a else p) 7)
| g_etc_file f : f ∈ ETC_RO_FILES \/ nic a /\ f ∈ NIC_ETC_FILES -> granted a (bound f f 7)
| g_etc_dir d : d ∈ ETC_RO_DIRS -> granted a (bound_tree d d 7)
| g_proc : granted a (mkMnt (chars "/proc") (chars "proc") (Some (chars "proc")) 14 None)
| g_masked f : f ∈ PROC_MASKED -> granted a (mask f)
| g_emptied d : d ∈ PROC_EMPTIED -> granted a (emptied d)
| g_boot_id : granted a (frozen (a_data_dir a) (chars "sys/kernel/random/boot_id") (chars ".boot_id"))
| g_cpuinfo : granted a (frozen (a_data_dir a) (chars "cpuinfo") (chars ".cpuinfo"))
| g_sys m : in_sys a m -> granted a m
| g_dev : granted a (tmpfs (chars "/dev") 10)
| g_device d : d ∈ DEVICES -> granted a (bound (chars "/dev/" ++ d.2) d.1 0)
| g_shm : granted a (tmpfs (chars "/dev/shm") 14)
| g_pts : granted a (mkMnt (chars "/dev/pts") (chars "devpts") (Some (chars "devpts")) 10 None)
| g_tmp : granted a (tmpfs (chars "/tmp") 6)
| g_nic_dir d : nic a -> d ∈ [chars "/run"; chars "/var/lib"] -> granted a (tmpfs d 14)
| g_wifi conf : a_wifi_conf a = Some conf -> granted a (bound WIFI_IN_ZONE conf 7)
| g_broker sock : a_broker a = Some sock -> granted a (bound (chars "/run/kryptik/broker") sock 7)
| g_wayland sock : a_wayland a = Some sock -> granted a (bound (chars "/run/kryptik/wayland-0") sock 7)
| g_sound dir : a_sound a = Some dir -> granted a (bound_tree SOUND_IN_ZONE dir 7)
| g_camera dir : a_camera a = Some dir -> granted a (bound CAMERA_IN_ZONE dir 11)
| g_ephemeral size : a_ephemeral a = Some size -> granted a (tmpfs (zone_home (a_zone a)) 6)
| g_data fd attrs : a_ephemeral a = None -> attrs = 0 \/ attrs = 6 ->
    granted a (bound (zone_home (a_zone a)) (chars "/proc/self/fd/" ++ num fd) attrs).

(** ** Growing tables *)
Abbreviation none := (fun _ : Mnt => False).
Abbreviation any := (fun _ : Mnt => True).
Section grows.
Context (sys : Sys) (host : list Mnt).
Abbreviation tbl := (after host).

Lemma after_snoc t ev : tbl (t ++ [ev]) = step (tbl t) ev.
Proof. unfold after. by rewrite foldl_app. Qed.

(** From [t] to [t'], mounts that satisfy [P] were added, and nothing else changed. *)
Definition ext (P : Mnt -> Prop) (t t' : Trace) : Prop :=
  exists es new, t' = t ++ es /\ tbl t' = new ++ tbl t /\ Forall P new.
Lemma ext_refl P t : ext P t t.
Proof. exists [], []. by rewrite app_nil_r. Qed.
Lemma ext_trans P t1 t2 t3 : ext P t1 t2 -> ext P t2 t3 -> ext P t1 t3.
Proof.
  intros (e & n & -> & H & Hn) (e' & n' & -> & H' & Hn'). exists (e ++ e'), (n' ++ n).
  rewrite app_assoc, H', H, app_assoc. split_and!; [done..|]. by apply Forall_app.
Qed.
Lemma ext_weaken (P P' : Mnt -> Prop) t t' : (forall m, P m -> P' m) -> ext P t t' -> ext P' t t'.
Proof. intros HP (e & n & ? & ? & ?). exists e, n. split_and!; [done..|]. by eapply Forall_impl. Qed.
Lemma ext_one (P : Mnt -> Prop) t ev : (exists m, step (tbl t) ev = m :: tbl t /\ P m) -> ext P t (t ++ [ev]).
Proof. intros (m & Hm & HP). exists [ev], [m]. rewrite after_snoc, Hm. split_and!; [done..|]. by repeat constructor. Qed.
Lemma ext_still (P : Mnt -> Prop) t ev : step (tbl t) ev = tbl t -> ext P t (t ++ [ev]).
Proof. intros H. exists [ev], []. by rewrite after_snoc, H. Qed.

(** [m] adds [P] when it succeeds and [P'] when it fails. *)
Definition adds {A} (P P' : Mnt -> Prop) (m : RM A) : Prop :=
  forall t, wp m (fun _ => ext P t) (fun _ => ext P' t) t.

Lemma adds_weaken {A} (P P' Q Q' : Mnt -> Prop) (m : RM A) :
  (forall x, P x -> Q x) -> (forall x, P' x -> Q' x) -> adds P P' m -> adds Q Q' m.
Proof. intros HP HP' H t. eapply wp_mono; [..|apply H]; intros; by eapply ext_weaken. Qed.
Lemma adds_bind {A B} (P P' : Mnt -> Prop) (m : RM A) (f : A -> RM B) :
  (forall x, P x -> P' x) -> adds P P' m -> (forall a, adds P P' (f a)) -> adds P P' (m ≫= f).
Proof.
  intros HP Hm Hf t. apply wp_bind. eapply wp_mono; [..|apply Hm]; [|done]. intros a t' Ht.
  eapply wp_mono; [..|apply Hf]; intros ? ? H; [exact (ext_trans _ _ _ _ Ht H)|]. exact (ext_trans _ _ _ _ (ext_weaken _ _ _ _ HP Ht) H).
Qed.
Lemma adds_ret {A} P P' (a : A) : adds P P' (mret a).
Proof. intros t. apply wp_ret, ext_refl. Qed.
Lemma adds_fail {A} P P' e : adds P P' (fail e : RM A).
Proof. intros t. apply wp_fail, ext_refl. Qed.
Lemma adds_for_each {A} (P P' : Mnt -> Prop) (l : list A) (f : A -> RM unit) :
  (forall x, P x -> P' x) -> (forall x, x ∈ l -> adds P P' (f x)) -> adds P P' (for_each l f).
Proof.
  intros HP. induction l as [|x l IH]; intros Hf; [apply adds_ret|]. apply adds_bind; [done|apply Hf; by left|].
  intros _. apply IH. intros y Hy. apply Hf. by right.
Qed.
Lemma adds_attempt (P P' Q Q' : Mnt -> Prop) m : (forall x, P x -> Q x) -> (forall x, P' x -> Q x) -> adds P P' m -> adds Q Q' (attempt m).
Proof.
  intros HP HP' H t. specialize (H t). unfold wp, attempt in *. destruct (m t) as [[a|e|] t']; [..|done]; (eapply ext_weaken; [|exact H]; done).
Qed.

(** *** The calls *)
Definition neutral {A} (c : Call A) : Prop := forall l a, step l (Did c a) = l.
Lemma wp_rcall {A} (c : Call A) (Q : A -> Trace -> Prop) (R : RootfsError -> Trace -> Prop) t :
  (forall a, Q a (t ++ [Did c a])) -> wp (call sys c) Q R t.
Proof. intros H. apply H. Qed.
Lemma adds_call {A} P P' (c : Call A) : neutral c -> adds P P' (call sys c).
Proof. intros Hc t. unfold call, wp. by apply ext_still. Qed.
Lemma adds_ignored {A} P P' (c : Call A) : (forall x, P x -> P' x) -> neutral c -> adds P P' (ignored sys c).
Proof. intros. apply adds_bind; [done|by apply adds_call|]. intros. apply adds_ret. Qed.
Lemma adds_need P P' c p : (forall x, P x -> P' x) -> neutral c -> adds P P' (need sys c p).
Proof. intros. apply adds_bind; [done|by apply adds_call|]. intros []; [apply adds_ret|apply adds_fail]. Qed.
Lemma adds_cs P P' s : adds P P' (cs s).
Proof. unfold cs, reject_if. case_bool_decide; [apply adds_fail|apply adds_ret]. Qed.
Lemma adds_cs_opt P P' s : adds P P' (cs_opt s).
Proof. destruct s; [apply adds_cs|apply adds_ret]. Qed.
Lemma none_still t t' : ext none t t' -> exists es, t' = t ++ es /\ tbl t' = tbl t.
Proof. intros (es & [|m new] & ? & ? & Hn); [by exists es|by inversion Hn]. Qed.
Lemma ext_none P t t' : ext none t t' -> ext P t t'.
Proof. by apply ext_weaken. Qed.
Definition one (m : Mnt) (t t' : Trace) : Prop := exists es, t' = t ++ es /\ tbl t' = m :: tbl t.
Lemma one_ext (P : Mnt -> Prop) m t t' : P m -> one m t t' -> ext P t t'.
Proof. intros HP (es & ? & ?). exists es, [m]. split_and!; [done..|]. by repeat constructor. Qed.
Lemma one_none m t1 t2 t3 : ext none t1 t2 -> one m t2 t3 -> one m t1 t3.
Proof. intros (es & -> & H)%none_still (es' & -> & H'). exists (es ++ es'). by rewrite app_assoc, H', H. Qed.

(** [m] makes the mount [x] when it succeeds. *)
Definition makes {A} (x : Mnt) (P' : Mnt -> Prop) (m : RM A) : Prop :=
  forall t, wp m (fun _ => one x t) (fun _ => ext P' t) t.
Lemma makes_adds {A} (P P' Q' : Mnt -> Prop) x (m : RM A) : P x -> (forall y, Q' y -> P' y) -> makes x Q' m -> adds P P' m.
Proof. intros HP HQ H t. eapply wp_mono; [..|apply H]; intros ? t' Ht; [by eapply one_ext|by eapply ext_weaken]. Qed.
Lemma makes_after {A B} x (P' : Mnt -> Prop) (m : RM A) (f : A -> RM B) :
  adds none P' m -> (forall a, makes x P' (f a)) -> makes x P' (m ≫= f).
Proof.
  intros Hm Hf t. apply wp_bind. eapply wp_mono; [..|apply Hm]; [|done]. intros a t' Ht.
  eapply wp_mono; [..|apply Hf]; intros ? t3 H; [exact (one_none _ _ _ _ Ht H)|exact (ext_trans _ _ _ _ (ext_none _ _ _ Ht) H)].
Qed.
Lemma makes_then {A B} x (P' : Mnt -> Prop) (m : RM A) (f : A -> RM B) :
  P' x -> makes x P' m -> (forall a, adds none P' (f a)) -> makes x P' (m ≫= f).
Proof.
  intros Hx Hm Hf t. apply wp_bind. eapply wp_mono; [..|apply Hm]; [|done]. intros a t' Ht.
  eapply wp_mono; [..|apply Hf]; intros ? t3 H.
  - destruct Ht as (es & -> & Hs). apply none_still in H as (es' & -> & Hs'). exists (es ++ es'). by rewrite app_assoc, Hs'.
  - exact (ext_trans _ _ _ _ (one_ext _ _ _ _ Hx Ht) H).
Qed.
Lemma makes_mount src target fs flags data name m :
  (forall l, mounted src target fs flags l = m :: l) -> makes m none (mount_raw sys src target fs flags data name).
Proof.
  intros Hm. unfold mount_raw. repeat (apply makes_after; [first [apply adds_cs|apply adds_cs_opt]|intros _]).
  intros t. apply wp_bind, wp_rcall. intros [e|]; [apply wp_fail|apply wp_ret].
  - by apply ext_still.
  - eexists. split; [done|]. rewrite after_snoc. apply Hm.
Qed.
Lemma adds_mount (P P' : Mnt -> Prop) src target fs flags data name m :
  (forall l, mounted src target fs flags l = m :: l) -> P m -> adds P P' (mount_raw sys src target fs flags data name).
Proof. intros Hm HP. apply (makes_adds P P' none m); [done..|]. by apply makes_mount. Qed.
(** Attributes set on the mount just made. *)
Lemma wp_set_head target attrs recursive m t t' :
  m_at m = target -> one m t t' ->
  wp (set_mount_attr sys target attrs recursive) (fun _ => one (add_attr attrs recursive m) t) (fun _ => one m t) t'.
Proof.
  intros Hm (es & -> & Ht). apply wp_bind. eapply wp_mono; [..|apply (adds_cs none none)]; cbv beta.
  - intros _ t' (es' & -> & Ht')%none_still. apply wp_bind, wp_rcall. intros [e|]; [apply wp_fail|apply wp_ret]; eexists; (split; [by rewrite <-!app_assoc|]); rewrite after_snoc, Ht', Ht; [done|].
    cbn. by rewrite bool_decide_true.
  - intros _ t' (es' & -> & Ht')%none_still. exists (es ++ es'). by rewrite app_assoc, Ht'.
Qed.
Lemma makes_mount_attr src target fs flags data name attrs recursive m :
  (forall l, mounted src target fs flags l = m :: l) -> m_at m = target ->
  makes (add_attr attrs recursive m) (eq m) (mount_raw sys src target fs flags data name;; set_mount_attr sys target attrs recursive).
Proof.
  intros Hm Ht t. apply wp_bind. eapply wp_mono; [..|by apply makes_mount]; [|intros e t' H; by apply ext_none].
  intros u t' H. eapply wp_mono; [..|eapply wp_set_head; [exact Ht|exact H]]; [done|]. intros e t3 H3. by eapply one_ext.
Qed.

Lemma makes_weaken {A} x (P Q : Mnt -> Prop) (m : RM A) : (forall y, P y -> Q y) -> makes x P m -> makes x Q m.
Proof. intros HP H t. eapply wp_mono; [..|apply H]; [done|]. intros ? ? Ht. by eapply ext_weaken. Qed.
Lemma makes_bind_ro_dir src target : makes (bound_tree target src 7) (eq (bound_tree target src 0)) (bind_ro_dir sys src target).
Proof. apply makes_after; [by apply adds_need|]. intros _. by apply (makes_mount_attr src target None 20480 None _ 7 true (bound_tree target src 0)). Qed.
Lemma makes_bind_dev_dir src target : makes (bound target src 11) (eq (bound target src 0)) (bind_dev_dir sys src target).
Proof. apply makes_after; [by apply adds_need|]. intros _. by apply (makes_mount_attr src target None MS_BIND None _ 11 false (bound target src 0)). Qed.
Lemma makes_bind_over_ro src target : makes (bound target src 7) (eq (bound target src 0)) (bind_over_ro sys src target).
Proof. by apply (makes_mount_attr src target None MS_BIND None _ 7 false (bound target src 0)). Qed.
Lemma makes_bind_ro_file src target : makes (bound target src 7) (eq (bound target src 0)) (bind_ro_file sys src target).
Proof.
  apply makes_after; [destruct (parent target); [by apply adds_need|apply adds_ret]|]. intros _.
  apply makes_after; [by apply adds_need|]. intros _. apply makes_bind_over_ro.
Qed.
End grows.

(** ** What each part of the root adds *)
Section parts.
Context (sys : Sys) (host : list Mnt) (a : Args).
Abbreviation root := (a_data_dir a).
(** A granted mount, as long as the root is still a directory of the host's. *)
Definition pre (m : Mnt) : Prop := exists g, granted a g /\ m = moved (app root) g.
Abbreviation gives m := (adds host pre any m).

Lemma given_bind {A B} (m : RM A) (f : A -> RM B) : gives m -> (forall x, gives (f x)) -> gives (m ≫= f).
Proof. by apply adds_bind. Qed.
Lemma gives_makes {A} x P' (m : RM A) : pre x -> makes host x P' m -> gives m.
Proof. intros Hx Hm. by eapply makes_adds. Qed.
Lemma gives_mkdir {B} rel (f : text -> RM B) : gives (f (in_dir root rel)) -> gives (mkdir sys root rel ≫= f).
Proof.
  intros Hf t. apply wp_bind, wp_bind. eapply wp_mono; [..|by apply (adds_need sys host none none)]; cbv beta.
  - intros _ t' Ht. apply wp_ret. eapply wp_mono; [..|apply Hf]; intros ? ? H; exact (ext_trans _ _ _ _ _ (ext_none _ _ _ _ Ht) H).
  - intros _ t' Ht. by apply ext_none.
Qed.
Lemma pre_at g x : granted a g -> x = moved (app root) g -> pre x.
Proof. by exists g. Qed.
Ltac placed g := apply (pre_at g); [|unfold in_dir, bound, bound_tree, tmpfs, moved; cbn [m_at m_src m_fs m_attr m_tree]; f_equal; rewrite <-?app_assoc; reflexivity].

Lemma gives_bind_system p : p ∈ SYSTEM_PATHS -> gives (bind_system sys root (a_usr a) p).
Proof.
  intros Hp. apply given_bind; [by apply adds_call|]. intros []; [|apply adds_ret].
  eapply gives_makes; [|apply makes_bind_ro_dir]. by eapply pre_at; [apply g_system|].
Qed.
Lemma gives_put_etc etc name content : gives (put_etc sys etc name content).
Proof. by apply adds_need. Qed.
Lemma gives_etc_file f : f ∈ ETC_RO_FILES \/ nic a /\ f ∈ NIC_ETC_FILES -> gives (bind_etc_file sys root f).
Proof.
  intros Hf. apply given_bind; [by apply adds_call|]. intros []; [|apply adds_ret].
  eapply gives_makes; [|apply makes_bind_ro_file]. by eapply pre_at; [by apply g_etc_file|].
Qed.
Lemma gives_etc_dir d : d ∈ ETC_RO_DIRS -> gives (bind_etc_dir sys root d).
Proof.
  intros Hd. apply given_bind; [by apply adds_call|]. intros []; [|apply adds_ret].
  eapply gives_makes; [|apply makes_bind_ro_dir]. by eapply pre_at; [by apply g_etc_dir|].
Qed.
Lemma gives_etc : gives (populate_etc sys root (a_zone a) (zone_home (a_zone a)) (a_resolver a) (a_service a)).
Proof.
  unfold populate_etc. apply given_bind; [by apply adds_need|]. intros _.
  do 5 (apply given_bind; [apply gives_put_etc|]; intros _). apply given_bind; [by apply adds_call|]. intros hardened.
  apply given_bind; [destruct hardened; [apply gives_put_etc|apply adds_ret]|]. intros _.
  apply given_bind; [destruct (a_resolver a); [apply adds_ret|apply gives_put_etc|by apply adds_need]|]. intros _.
  apply given_bind; [|intros _]; (apply adds_for_each; [done|]).
  - intros f [Hf|Hf]%elem_of_app; apply gives_etc_file; [by left|]. case_decide; [by right|by apply elem_of_nil in Hf].
  - intros d. apply gives_etc_dir.
Qed.
Lemma gives_device d : d ∈ DEVICES -> gives (give_device sys (in_dir root (chars "dev")) d).
Proof.
  intros Hd. apply given_bind; [by apply adds_call|]. intros []; [|apply adds_ret]. cbn [negb].
  apply given_bind; [by apply adds_need|]. intros _. apply given_bind.
  - apply (adds_attempt host pre none); [done..|]. eapply adds_mount; [reflexivity|]. placed (bound (chars "/dev/" ++ d.2) d.1 0). by apply g_device.
  - intros [e|]; [by apply adds_ignored|apply adds_ret].
Qed.
Lemma gives_mount src target fs flags data name m :
  (forall l, mounted src target fs flags l = m :: l) -> pre m -> gives (mount_raw sys src target fs flags data name).
Proof. apply adds_mount. Qed.
Lemma gives_links l : gives (for_each l (fun x : text * text => ignored sys (Symlink x.2 (in_dir (in_dir root (chars "dev")) x.1)))).
Proof. apply adds_for_each; [done|]. intros x _. by apply adds_ignored. Qed.
Lemma gives_dev camera : gives (populate_dev sys root camera).
Proof.
  unfold populate_dev. apply given_bind; [by apply adds_need|]. intros _. apply given_bind.
  { eapply gives_mount; [reflexivity|]. placed (tmpfs (chars "/dev") 10). apply g_dev. }
  intros _. apply given_bind; [apply adds_for_each; [done|]; apply gives_device|]. intros _.
  apply given_bind; [by apply adds_need|]. intros _. apply given_bind.
  { eapply gives_mount; [reflexivity|]. placed (tmpfs (chars "/dev/shm") 14). apply g_shm. }
  intros _. apply given_bind; [by apply adds_need|]. intros _. apply given_bind.
  { apply (adds_attempt host pre none); [done..|]. eapply adds_mount; [reflexivity|].
    placed (mkMnt (chars "/dev/pts") (chars "devpts") (Some (chars "devpts")) 10 None). apply g_pts. }
  intros r. apply given_bind; [destruct r; by apply adds_ignored|]. intros _.
  apply given_bind; [destruct camera; [by apply adds_ignored|apply adds_ret]|]. intros _. apply gives_links.
Qed.
Lemma gives_tmp : gives (mount_tmp sys root).
Proof. apply gives_mkdir. eapply gives_mount; [reflexivity|]. placed (tmpfs (chars "/tmp") 6). apply g_tmp. Qed.
Lemma gives_nic_dirs service : nic a -> gives (nic_dirs sys root service).
Proof.
  intros Hn. unfold nic_dirs. cbn [for_each]. apply given_bind; [apply given_bind|intros _].
  - apply gives_mkdir. eapply gives_mount; [reflexivity|]. placed (tmpfs (chars "/run") 14). apply g_nic_dir; [done|set_solver].
  - intros _. apply given_bind; [|intros _; apply adds_ret]. apply gives_mkdir. eapply gives_mount; [reflexivity|].
    placed (tmpfs (chars "/var/lib") 14). apply g_nic_dir; [done|set_solver].
  - destruct service; [|apply adds_ret]. apply gives_mkdir. apply given_bind; [by apply adds_need|]. intros _. by apply adds_need.
Qed.
Lemma gives_socket name sock g : granted a g -> moved (app root) g = bound (in_dir (in_dir root (chars "run/kryptik")) name) sock 7 ->
  gives (bind_socket sys root name sock).
Proof. intros Hg He. apply gives_mkdir. eapply gives_makes; [|apply makes_bind_ro_file]. by eapply pre_at. Qed.
Lemma gives_opt o f : (forall x, o = Some x -> gives (f x)) -> gives (opt o f).
Proof. intros H. destruct o; [by apply H|apply adds_ret]. Qed.
Lemma gives_wifi conf : a_wifi_conf a = Some conf -> gives (bind_wifi sys root conf).
Proof.
  intros Hc. apply given_bind; [by apply adds_call|]. intros []; [|apply adds_ret].
  eapply gives_makes; [|apply makes_bind_ro_file]. by eapply pre_at; [by apply g_wifi|].
Qed.

(** *** The home, whose attributes may stay unset *)
Lemma gives_with_attr target attrs x note (m : RM unit) :
  makes host x any m -> m_at x = target -> pre x -> pre (add_attr attrs false x) ->
  gives (m;; r ← attempt (set_mount_attr sys target attrs false); match r with Some _ => ignored sys (Note note) | None => mret tt end).
Proof.
  intros Hm Ht Hx Hx' t. apply wp_bind. eapply wp_mono; [..|apply Hm]; [|done]. intros u t1 H1. apply wp_bind.
  assert (wp (attempt (set_mount_attr sys target attrs false)) (fun _ => ext host pre t) (fun _ => ext host any t) t1) as Ha.
  { pose proof (wp_set_head sys host target attrs false x t t1 Ht H1) as Hw. unfold wp, attempt in *.
    destruct (set_mount_attr sys target attrs false t1) as [[?|?|] t2]; [..|done]; (eapply one_ext; [|exact Hw]; done). }
  eapply wp_mono; [..|exact Ha]; [|done]. intros r t2 H2.
  assert (gives (match r with Some _ => ignored sys (Note note) | None => mret tt end)) as Hr by (destruct r; [by apply adds_ignored|apply adds_ret]).
  eapply wp_mono; [..|apply Hr]; intros ? t3 H3; [exact (ext_trans _ _ _ _ _ H2 H3)|exact (ext_trans _ _ _ _ _ (ext_weaken _ _ _ _ _ (fun _ _ => I) H2) H3)].
Qed.
Lemma makes_data_bind src target fd x :
  (forall l, mounted src target None MS_BIND l = x :: l) ->
  makes host x any (r ← attempt (mount_raw sys src target None MS_BIND None "mount(bind zone data)");
    match r with
    | None => mret tt
    | Some (Syscall c p e) => if e =? EINVAL then fail (DataHasMounts root) else fail (Syscall c p e)
    | Some e => fail e
    end;; call sys (Close fd)).
Proof.
  intros Hx t. apply wp_bind. pose proof (makes_mount sys host src target None MS_BIND None "mount(bind zone data)" x Hx t) as Hm.
  unfold wp at 1. unfold attempt. unfold wp in Hm. destruct (mount_raw _ _ _ _ _ _ _ t) as [[?|e|] t1]; [..|done]; apply wp_bind.
  - apply wp_ret, wp_rcall. intros u. destruct Hm as (es & -> & Ht). eexists. split; [by rewrite <-app_assoc|]. by rewrite after_snoc.
  - destruct e; try (by apply wp_fail, ext_none). case_match; by apply wp_fail, ext_none.
Qed.
Lemma gives_home fd : gives (mount_home sys a root fd).
Proof.
  apply gives_mkdir. destruct (a_ephemeral a) as [size|] eqn:He.
  - apply (gives_with_attr _ _ (tmpfs (in_dir root (drop 1 (zone_home (a_zone a)))) 6)); [|done| |].
    + eapply makes_weaken; [|by apply makes_mount]. done.
    + placed (tmpfs (zone_home (a_zone a)) 6). by eapply g_ephemeral.
    + placed (tmpfs (zone_home (a_zone a)) 6). by eapply g_ephemeral.
  - apply (gives_with_attr _ _ (bound (in_dir root (drop 1 (zone_home (a_zone a)))) (chars "/proc/self/fd/" ++ num fd) 0)); [|done| |].
    + by apply makes_data_bind.
    + placed (bound (zone_home (a_zone a)) (chars "/proc/self/fd/" ++ num fd) 0). apply g_data; [done|by left].
    + placed (bound (zone_home (a_zone a)) (chars "/proc/self/fd/" ++ num fd) 6). apply g_data; [done|by right].
Qed.

(** *** What is hidden of /proc *)
Context (n : nat).
(** The mounts made since there were [n]. *)
Definition own (t : Trace) : list Mnt := take (length (after host t) - n) (after host t).
(** [m] is one of them, unless what it hides was not there. *)
Definition hid (c : Call bool) (m : Mnt) (t : Trace) : Prop := Did c false ∈ t \/ moved (app root) m ∈ own t.
Definition stable (K : Trace -> Prop) : Prop := forall P t t', ext host P t t' -> K t -> K t'.
Lemma own_ext P t t' : ext host P t t' -> (n <= length (after host t))%nat -> exists new, own t' = new ++ own t /\ after host t' = new ++ after host t.
Proof.
  intros (es & new & -> & Ht & _) Hn. exists new. split; [|done]. unfold own. rewrite Ht, length_app.
  replace (length new + length (after host t) - n)%nat with (length new + (length (after host t) - n))%nat by lia. by rewrite take_app_add.
Qed.
Lemma hid_stable c m : stable (hid c m).
Proof.
  intros P t t' He [H|H].
  - left. destruct He as (es & new & -> & _). apply elem_of_app. by left.
  - right. destruct (decide (n <= length (after host t))%nat) as [Hn|Hn].
    + destruct (own_ext P t t' He Hn) as (new & -> & _). apply elem_of_app. by right.
    + unfold own in H. replace (length (after host t) - n)%nat with 0%nat in H by lia. by apply elem_of_nil in H.
Qed.
Lemma room_ext P t t' : ext host P t t' -> (n <= length (after host t))%nat -> (n <= length (after host t'))%nat.
Proof. intros (es & new & _ & -> & _) Hn. rewrite length_app. lia. Qed.
Definition gives_too {A} (K : Trace -> Prop) (m : RM A) : Prop :=
  forall t, (n <= length (after host t))%nat -> wp m (fun _ t' => ext host pre t t' /\ K t') (fun _ => ext host any t) t.
Lemma too_bind {A B} (K K' : Trace -> Prop) (m : RM A) (f : A -> RM B) :
  stable K -> gives_too K m -> (forall x, gives_too K' (f x)) -> gives_too (fun t => K t /\ K' t) (m ≫= f).
Proof.
  intros Hs Hm Hf t Hr. apply wp_bind. eapply wp_mono; [..|by apply Hm]; [|done]. intros x t1 [H1 HK].
  eapply wp_mono; [..|apply Hf; by eapply room_ext]; cbv beta.
  - intros _ t2 [H2 HK']. split_and!; [exact (ext_trans _ _ _ _ _ H1 H2)|by eapply Hs|done].
  - intros _ t2 H2. exact (ext_trans _ _ _ _ _ (ext_weaken _ _ _ _ _ (fun _ _ => I) H1) H2).
Qed.
Lemma too_each {A} (K : A -> Trace -> Prop) (l : list A) f :
  (forall x, stable (K x)) -> (forall x, x ∈ l -> gives_too (K x) (f x)) -> gives_too (fun t => forall x, x ∈ l -> K x t) (for_each l f).
Proof.
  intros Hs. induction l as [|x l IH]; intros Hf t Hr.
  - apply wp_ret. split; [apply ext_refl|]. by intros x ?%elem_of_nil.
  - cbn [for_each]. eapply wp_mono; [..|apply (too_bind (K x) (fun t => forall x, x ∈ l -> K x t))]; cbv beta.
    + intros _ t' (He & Hx & Hl). split; [done|]. intros y [->|Hy]%elem_of_cons; auto.
    + done.
    + apply Hs.
    + apply Hf. by left.
    + intros _. apply IH. intros y Hy. apply Hf. by right.
    + done.
Qed.
(** A call that asks whether there is anything to hide, and what hides it. *)
Lemma too_hides (c : Call bool) (m : Mnt) P' (body : RM unit) :
  neutral c -> granted a m -> makes host (moved (app root) m) P' body ->
  gives_too (hid c m) (there ← call sys c; if there : bool then body else mret tt).
Proof.
  intros Hc Hg Hb t Hr. apply wp_bind, wp_rcall. intros there.
  assert (ext host none t (t ++ [Did c there])) as H1 by by apply ext_still. destruct there.
  - eapply wp_mono; [..|apply Hb]; cbv beta.
    + intros _ t2 H2. split; [exact (ext_trans _ _ _ _ _ (ext_none _ _ _ _ H1) (one_ext _ _ _ _ _ (pre_at _ _ Hg eq_refl) H2))|].
      right. pose proof (room_ext _ _ _ H1 Hr) as Hr'. destruct H2 as (es & _ & Ht2). unfold own. rewrite Ht2. cbn [length].
      rewrite Nat.sub_succ_l by done. by left.
    + intros _ t2 H2. exact (ext_trans _ _ _ _ _ (ext_none _ _ _ _ H1) (ext_weaken _ _ _ _ _ (fun _ _ => I) H2)).
  - apply wp_ret. split; [by apply ext_none|]. left. apply elem_of_app. right. by apply list_elem_of_singleton.
Qed.
Abbreviation proc_dir := (in_dir root (chars "proc")).
Lemma too_mask f : f ∈ PROC_MASKED -> gives_too (hid (Exists (in_dir proc_dir f)) (mask f)) (mask_file sys proc_dir f).
Proof.
  intros Hf. eapply too_hides; [done|by apply g_masked|].
  replace (moved (app root) (mask f)) with (bound (in_dir proc_dir f) (chars "/dev/null") 7); [apply makes_bind_over_ro|].
  unfold bound, mask, moved, in_dir. cbn [m_at m_src m_fs m_attr m_tree]. f_equal. by rewrite <-!app_assoc.
Qed.
Lemma too_empty d : d ∈ PROC_EMPTIED -> gives_too (hid (IsDir (in_dir proc_dir d)) (emptied d)) (empty_dir sys proc_dir d).
Proof.
  intros Hd. eapply too_hides; [done|by apply g_emptied|].
  replace (moved (app root) (emptied d)) with (tmpfs (in_dir proc_dir d) 15); [by apply makes_mount|].
  unfold emptied, tmpfs, moved, in_dir. cbn [m_at m_src m_fs m_attr m_tree]. f_equal. by rewrite <-!app_assoc.
Qed.
Lemma too_freeze from own f : granted a (frozen root f own) ->
  gives_too (hid (Exists (in_dir proc_dir f)) (frozen root f own)) (freeze_file sys from (in_dir root own) (in_dir proc_dir f)).
Proof.
  intros Hg. eapply too_hides; [done|exact Hg|].
  replace (moved (app root) (frozen root f own)) with (bound (in_dir proc_dir f) (in_dir root own) 7).
  2:{ unfold bound, frozen, moved, in_dir. cbn [m_at m_src m_fs m_attr m_tree]. f_equal. by rewrite <-!app_assoc. }
  apply (makes_after _ _ any); [by apply adds_call|]. intros [content|]; [|apply (makes_weaken _ _ none); [done|]; intros t; apply wp_fail, ext_refl].
  apply makes_after; [by apply adds_need|]. intros _. apply makes_then; [done| |intros _; by apply adds_ignored].
  eapply makes_weaken; [|apply makes_bind_over_ro]. done.
Qed.
Definition proc_hidden (t : Trace) : Prop :=
  (forall f, f ∈ PROC_MASKED -> hid (Exists (in_dir proc_dir f)) (mask f) t) /\
  (forall d, d ∈ PROC_EMPTIED -> hid (IsDir (in_dir proc_dir d)) (emptied d) t) /\
  hid (Exists (in_dir proc_dir (chars "sys/kernel/random/boot_id"))) (frozen root (chars "sys/kernel/random/boot_id") (chars ".boot_id")) t /\
  hid (Exists (in_dir proc_dir (chars "cpuinfo"))) (frozen root (chars "cpuinfo") (chars ".cpuinfo")) t.
Lemma too_proc : gives_too proc_hidden (mask_proc sys root proc_dir).
Proof.
  unfold mask_proc, proc_hidden. apply (too_bind (fun t => forall f, f ∈ PROC_MASKED -> _)); [|apply too_each; [intros; apply hid_stable|apply too_mask]|intros _].
  { intros P t t' He H f Hf. eapply hid_stable; eauto. }
  apply (too_bind (fun t => forall d, d ∈ PROC_EMPTIED -> _)); [|apply too_each; [intros; apply hid_stable|apply too_empty]|intros _].
  { intros P t t' He H d Hd. eapply hid_stable; eauto. }
  apply too_bind; [apply hid_stable|apply too_freeze, g_boot_id|intros _]. apply too_freeze, g_cpuinfo.
Qed.
Lemma too_after {A B} K (m : RM A) (f : A -> RM B) : gives m -> (forall x, gives_too K (f x)) -> gives_too K (m ≫= f).
Proof.
  intros Hm Hf t Hr. eapply wp_mono; [..|apply (too_bind (fun _ => True) K); [done| |exact Hf|done]]; [by intros ? ? (? & _ & ?)|done|].
  intros t' _. eapply wp_mono; [..|apply Hm]; done.
Qed.
Lemma too_then {A B} K (m : RM A) (f : A -> RM B) : stable K -> gives_too K m -> (forall x, gives (f x)) -> gives_too K (m ≫= f).
Proof.
  intros Hs Hm Hf t Hr. eapply wp_mono; [..|apply (too_bind K (fun _ => True)); [done|exact Hm| |done]]; [by intros ? ? (? & ? & _)|done|].
  intros x t' _. eapply wp_mono; [..|apply Hf]; done.
Qed.
Lemma wp_mkdir rel t : wp (mkdir sys root rel) (fun p t' => p = in_dir root rel /\ ext host none t t') (fun _ => ext host none t) t.
Proof.
  apply wp_bind. eapply wp_mono; [..|by apply (adds_need sys host none none)]; [|done]. intros ? t' Ht. by apply wp_ret.
Qed.
Lemma proc_hidden_stable : stable proc_hidden.
Proof.
  intros P t t' He (Hm & Hd & Hb & Hc). split_and!; [intros f Hf|intros d Hdd|..]; eapply hid_stable; eauto.
Qed.
Lemma too_mount_proc : gives_too proc_hidden (mount_proc sys root).
Proof.
  intros t Hr. apply wp_bind. eapply wp_mono; [..|apply wp_mkdir]; cbv beta; [|intros; by apply ext_none]. intros ? t1 [-> H1].
  assert (gives_too proc_hidden (mount_raw sys (chars "proc") proc_dir (Some (chars "proc")) 14 None "mount(proc)";; mask_proc sys root proc_dir)) as Hp.
  { apply too_after; [|intros _; apply too_proc]. eapply gives_mount; [reflexivity|].
    placed (mkMnt (chars "/proc") (chars "proc") (Some (chars "proc")) 14 None). apply g_proc. }
  eapply wp_mono; [..|apply Hp; by eapply room_ext]; cbv beta; intros ? t2.
  - intros [H2 HK]. split; [exact (ext_trans _ _ _ _ _ (ext_none _ _ _ _ H1) H2)|done].
  - intros H2. exact (ext_trans _ _ _ _ _ (ext_none _ _ _ _ H1) H2).
Qed.

(** *** /sys, from a sysfs mounted aside *)
Abbreviation aside := (in_dir root (chars ".sysfs")).
Abbreviation sys_dir := (in_dir root (chars "sys")).
Definition pre_sys (m : Mnt) : Prop := exists g, in_sys a g /\ m = moved (app root) g.
Lemma pre_sys_pre m : pre_sys m -> pre m.
Proof. intros (g & Hg & ->). exists g. split; [by apply g_sys|done]. Qed.
Lemma sys_at_aside m : pre_sys m -> m_at m <> aside.
Proof. intros (g & Hg & ->) H%app_inv_head. by destruct Hg. Qed.
Lemma sys_remounted m : pre_sys m -> m_at m = sys_dir -> pre_sys (mkMnt (m_at m) (m_src m) (m_fs m) 15 (m_tree m)).
Proof.
  intros (g & Hg & ->) H. exists (mkMnt (m_at g) (m_src g) (m_fs g) 15 (m_tree g)). split; [|done].
  apply app_inv_head in H. destruct Hg; [|done..]. apply sys_root. by right.
Qed.
Lemma remount_app p attrs new l : List.Exists (fun m => m_at m = p) new -> remount p attrs (new ++ l) = remount p attrs new ++ l.
Proof.
  induction 1 as [m new Hm|m new _ IH]; cbn; [by rewrite bool_decide_true|]. case_bool_decide; [done|]. by rewrite IH.
Qed.
Lemma remount_sys new : Forall pre_sys new -> Forall pre_sys (remount sys_dir 15 new).
Proof.
  intros H. induction H as [|m new Hm Hn IH]; cbn; [done|]. case_bool_decide as Ha; constructor; done || by apply sys_remounted.
Qed.
Abbreviation both m := (adds host pre_sys pre_sys m).
Lemma both_keep rel : rel ∈ SYSFS_KEPT \/ nic a -> both (keep_dir sys aside sys_dir rel).
Proof.
  intros Hr. apply adds_bind; [done|by apply adds_call|]. intros []; [|apply adds_ret].
  eapply makes_adds; [| |apply makes_bind_ro_dir].
  - exists (bound_tree (chars "/sys/" ++ rel) (in_dir aside rel) 7). split; [apply sys_piece; [done|by right]|].
    unfold in_dir, bound_tree, moved. cbn [m_at m_src m_fs m_attr m_tree]. f_equal. by rewrite <-!app_assoc.
  - intros y <-. exists (bound_tree (chars "/sys/" ++ rel) (in_dir aside rel) 0). split; [apply sys_piece; [done|by left]|].
    unfold in_dir, bound_tree, moved. cbn [m_at m_src m_fs m_attr m_tree]. f_equal. by rewrite <-!app_assoc.
Qed.
Lemma both_empty target name g : in_sys a g -> moved (app root) g = tmpfs target 15 -> both (empty_sys sys target name).
Proof. intros Hg He. eapply adds_mount; [reflexivity|]. exists g. by split. Qed.
Lemma both_idle e : both (empty_idle sys (in_dir sys_dir (chars "devices/system/cpu")) e).
Proof.
  destruct e as [name|]; [|apply adds_ret]. unfold empty_idle. destruct (is_numbered name); [|apply adds_ret].
  apply adds_bind; [done|by apply adds_call|]. intros []; [|apply adds_ret]. eapply both_empty; [apply (sys_idle a name)|].
  unfold in_dir, tmpfs, moved. cbn [m_at m_src m_fs m_attr m_tree]. f_equal. rewrite <-!app_assoc. reflexivity.
Qed.
(** A step that adds to what was added since [t0]. *)
Lemma wp_both {A B} t0 (m : RM A) (f : A -> RM B) (Q : B -> Trace -> Prop) (R : RootfsError -> Trace -> Prop) t :
  ext host pre_sys t0 t -> both m -> (forall x t', ext host pre_sys t0 t' -> wp (f x) Q R t') -> (forall e t', ext host pre_sys t0 t' -> R e t') ->
  wp (m ≫= f) Q R t.
Proof.
  intros H0 Hm HQ HR. apply wp_bind. eapply wp_mono; [..|apply Hm]; intros ? ? H; [apply HQ|apply HR]; exact (ext_trans _ _ _ _ _ H0 H).
Qed.
Lemma both_sysfs kept : (forall rel, rel ∈ kept -> rel ∈ SYSFS_KEPT \/ nic a) -> both (keep_sysfs sys aside sys_dir kept).
Proof.
  intros Hk t. set (top := tmpfs sys_dir 14). assert (pre_sys top) as Htop by (exists (tmpfs (chars "/sys") 14); split; [apply sys_root; by left|done]).
  apply wp_bind. eapply wp_mono; [..|by apply (makes_mount sys host _ _ _ _ _ _ top)]; [|intros; by apply ext_none]. intros ? t1 H1.
  assert (forall t', ext host pre_sys t1 t' -> ext host pre_sys t t') as Hfar.
  { intros t' H. exact (ext_trans _ _ _ _ _ (one_ext _ _ _ _ _ Htop H1) H). }
  apply (wp_both t1); [apply ext_refl|apply adds_for_each; [done|]; intros; by apply both_keep, Hk| |auto]. intros _ t2 H2.
  apply (wp_both t1); [done|by apply adds_call| |auto]. intros entries t3 H3.
  apply (wp_both t1); [done|apply adds_for_each; [done|]; intros; apply both_idle| |auto]. intros _ t4 H4.
  apply (wp_both t1); [done|by apply adds_call| |auto]. intros there t5 H5. apply (wp_both t1); [done| | |auto].
  { destruct there; [|apply adds_ret]. eapply both_empty; [apply (sys_freq a)|].
    unfold in_dir, tmpfs, moved. cbn [m_at m_src m_fs m_attr m_tree]. f_equal. rewrite <-!app_assoc. reflexivity. }
  intros _ t6 H6. do 4 (apply (wp_both t1); [done|first [apply adds_cs|apply adds_cs_opt]| |auto]; clear H6; intros _ ? H6).
  apply wp_bind, wp_rcall. intros [e|]; [apply wp_fail; apply Hfar|apply wp_ret].
  { eapply ext_trans; [exact H6|]. by apply ext_still. }
  destruct H1 as (es & -> & Ht1), H6 as (es' & new & -> & Ht6 & Hn).
  exists (es ++ es' ++ [Did (Mount (chars "none") sys_dir None 47 None) None]), (remount sys_dir 15 (new ++ [top])).
  split_and!; [by rewrite <-!app_assoc|..].
  - rewrite after_snoc. cbn [step]. change (mounted _ _ _ _ ?l) with (remount sys_dir 15 l). rewrite Ht6, Ht1.
    change (top :: ?l) with ([top] ++ l). rewrite app_assoc. apply remount_app. apply Exists_app. right. by left.
  - apply remount_sys, Forall_app. split; [done|]. by constructor.
Qed.
Lemma detach_app p x new l : m_at x = p -> Forall (fun m => m_at m <> p) new ->
  exists left, detach p (new ++ x :: l) = left ++ l /\ (forall P, Forall P new -> Forall P left).
Proof.
  intros Hx Hn. induction Hn as [|m new Hm Hn (lft & IH & HP)]; cbn.
  - exists []. rewrite bool_decide_true by done. split; [done|constructor].
  - rewrite bool_decide_false by done. rewrite IH. destruct (inside p (m_at m)).
    + exists lft. split; [done|]. intros P HF. inversion HF. auto.
    + exists (m :: lft). split; [done|]. intros P HF. inversion HF. constructor; auto.
Qed.
Lemma still_kept : adds host none none (if decide (a_resolver a = Writable) then nic_sysfs sys aside else mret SYSFS_KEPT).
Proof.
  case_decide; [|apply adds_ret]. apply adds_bind; [done|by apply adds_call|]. intros [base|]; [|apply adds_ret].
  assert (forall class, adds host none none (class_devices sys aside base class)) as Hc.
  { intros class. apply adds_bind; [done|by apply adds_call|]. intros r. induction (default [] r) as [|[name|] es IH]; cbn [devices_of]; [apply adds_ret| |done].
    apply adds_bind; [done| |intros ds; apply adds_bind; [done..|intros; apply adds_ret]]. apply adds_bind; [done|by apply adds_call|intros; apply adds_ret]. }
  apply adds_bind; [done..|]. intros net. apply adds_bind; [done..|]. intros radios. apply adds_ret.
Qed.
Lemma wp_kept t :
  wp (if decide (a_resolver a = Writable) then nic_sysfs sys aside else mret SYSFS_KEPT)
    (fun kept t' => (forall rel, rel ∈ kept -> rel ∈ SYSFS_KEPT \/ nic a) /\ ext host none t t') (fun _ => ext host none t) t.
Proof.
  pose proof (still_kept t) as H. case_decide as Hn.
  - eapply wp_mono; [..|exact H]; [|done]. intros kept t' Ht. split; [|done]. intros. by right.
  - apply wp_ret. split; [|apply ext_refl]. intros. by left.
Qed.
Lemma gives_sys : gives (mount_sys sys root (a_resolver a)).
Proof.
  intros t. apply wp_bind. eapply wp_mono; [..|apply wp_mkdir]; cbv beta; [|intros; by apply ext_none]. intros ? t1 [-> H1].
  apply wp_bind. eapply wp_mono; [..|apply wp_mkdir]; cbv beta; [|intros ? ? H; by apply ext_none, (ext_trans _ _ _ _ _ H1)]. intros ? t2 [-> H2].
  pose proof (ext_trans _ _ _ _ _ H1 H2) as H02. clear H1 H2 t1. set (x := mkMnt aside (chars "sysfs") (Some (chars "sysfs")) 15 None).
  assert (gives (ignored sys (RemoveDir aside))) as Hrm by by apply adds_ignored.
  apply wp_bind. pose proof (makes_mount sys host (chars "sysfs") aside (Some (chars "sysfs")) 15 None "mount(sysfs)" x (fun _ => eq_refl) t2) as Hm.
  unfold wp at 1. unfold attempt at 1. change (Z.lor (Z.lor (Z.lor MS_NOSUID MS_NOEXEC) MS_NODEV) MS_RDONLY) with 15. unfold wp in Hm.
  destruct (mount_raw _ _ _ _ _ _ _ t2) as [[u|e|] t3]; [..|done]; apply wp_bind.
  2:{ apply wp_ret. pose proof (ext_trans _ _ _ _ _ H02 Hm) as H3. eapply wp_mono; [..|apply Hrm]; intros ? ? H; exact (ext_trans _ _ _ _ _ (ext_none _ _ _ _ H3) H). }
  assert (one host x t t3) as H3 by exact (one_none _ _ _ _ _ H02 Hm). clear Hm H02 t2.
  assert (forall t', ext host pre_sys t3 t' -> ext host any t t') as Hfar.
  { intros t' H. exact (ext_trans _ _ _ _ _ (one_ext _ any _ _ _ I H3) (ext_weaken _ _ _ _ _ (fun _ _ => I) H)). }
  apply wp_bind. eapply wp_mono; [..|apply wp_kept]; cbv beta; [|intros; by apply Hfar, ext_none]. intros kept t4 [Hk H4].
  apply (wp_both t3); [by apply ext_none|by eapply (adds_attempt host pre_sys pre_sys), both_sysfs| |auto]. intros r t5 H5.
  apply (wp_both t3); [done|destruct r; [by apply adds_ignored|apply adds_ret]| |auto]. intros _ t6 H6.
  apply (wp_both t3); [done|apply adds_cs| |auto]. intros _ t7 H7. apply wp_bind, wp_rcall. intros [e|].
  { apply wp_fail, Hfar. eapply ext_trans; [exact H7|]. by apply ext_still. }
  apply wp_ret. destruct H3 as (es & -> & Ht3), H7 as (es' & new & -> & Ht7 & Hn).
  destruct (detach_app aside x new (after host t) eq_refl) as (lft & Hl & HP); [eapply Forall_impl; [exact Hn|]; apply sys_at_aside|].
  assert (ext host pre t (((t ++ es) ++ es') ++ [Did (Detach aside) None])) as H8.
  { exists (es ++ es' ++ [Did (Detach aside) None]), lft. split_and!; [by rewrite <-!app_assoc| |apply HP; eapply Forall_impl; [exact Hn|]; apply pre_sys_pre].
    rewrite after_snoc. cbn [step]. by rewrite Ht7, Ht3. }
  eapply wp_mono; [..|apply Hrm]; intros ? ? H; [exact (ext_trans _ _ _ _ _ H8 H)|exact (ext_trans _ _ _ _ _ (ext_weaken _ _ _ _ _ (fun _ _ => I) H8) H)].
Qed.

(** *** The whole *)
Lemma too_furnish fd : gives_too proc_hidden (furnish sys a fd).
Proof.
  unfold furnish. apply too_after; [apply adds_for_each; [done|]; apply gives_bind_system|]. intros _.
  apply too_after; [apply gives_etc|]. intros _.
  apply too_after; [destruct (a_service a); [apply gives_mkdir|]; apply adds_ret|]. intros _.
  apply too_then; [apply proc_hidden_stable|apply too_mount_proc|]. intros _.
  apply given_bind; [apply gives_sys|]. intros _. apply given_bind; [apply gives_dev|]. intros _.
  apply given_bind; [apply gives_tmp|]. intros _.
  apply given_bind; [case_decide; [by apply gives_nic_dirs|apply adds_ret]|]. intros _.
  apply given_bind; [apply gives_opt, gives_wifi|]. intros _.
  apply given_bind; [apply gives_opt; intros sock Hs; eapply gives_socket; [by apply g_broker|]|intros _].
  { unfold in_dir, bound, moved. cbn [m_at m_src m_fs m_attr m_tree]. f_equal. by rewrite <-!app_assoc. }
  apply given_bind; [apply gives_opt; intros sock Hs; eapply gives_socket; [by apply g_wayland|]|intros _].
  { unfold in_dir, bound, moved. cbn [m_at m_src m_fs m_attr m_tree]. f_equal. by rewrite <-!app_assoc. }
  apply given_bind; [apply gives_opt; intros dir Hd; eapply gives_makes; [|apply makes_bind_ro_dir]; by eapply pre_at; [by apply g_sound|]|intros _].
  apply given_bind; [apply gives_opt; intros dir Hd; eapply gives_makes; [|apply makes_bind_dev_dir]; by eapply pre_at; [by apply g_camera|]|intros _].
  apply gives_home.
Qed.
End parts.

(** ** Becoming the root *)
Definition zone_path (p : text) : bool := match p with 47 :: c :: _ => negb (c =? 46) | _ => false end.
Lemma zone_path_iff p : zone_path p = true <-> exists c x, p = 47 :: c :: x /\ c <> 46.
Proof.
  destruct p as [|b [|c x]]; cbn; [naive_solver|..].
  - split; [|naive_solver]. destruct (decide (b = 47)) as [->|Hb]; [done|]. repeat case_match; done.
  - destruct (decide (b = 47)) as [->|Hb].
    + rewrite negb_true_iff, Z.eqb_neq. naive_solver.
    + split; [|naive_solver]. repeat case_match; done.
Qed.
Lemma granted_path a g : granted a g -> zone_path (m_at g) = true.
Proof.
  assert (forall l p, forallb zone_path l = true -> p ∈ l -> zone_path p = true) as Hl.
  { intros l p Hf Hp. rewrite forallb_Forall, Forall_forall in Hf. auto. }
  intros Hg. destruct Hg as [p Hp|f [Hf|[_ Hf]]|d Hd| | | | | |m Hm| | | | | |d _ Hd| | | | | | |]; try reflexivity.
  - by apply (Hl SYSTEM_PATHS).
  - by apply (Hl ETC_RO_FILES).
  - by apply (Hl NIC_ETC_FILES).
  - by apply (Hl ETC_RO_DIRS).
  - by destruct Hm.
  - by apply (Hl [chars "/run"; chars "/var/lib"]).
Qed.

Section enter.
Context (root : text).
Lemma below_app x : x <> [] -> below root (root ++ x) = x.
Proof. intros Hx. unfold below. rewrite (proj2 (strip_prefix_iff _ _ _) eq_refl). by destruct x. Qed.
Lemma moved_back a g : granted a g -> moved (below root) (moved (app root) g) = g.
Proof.
  intros (c & x & Hg & _)%granted_path%zone_path_iff. destruct g as [at_ src fs attrs tree]. unfold moved. cbn in *. subst. by rewrite below_app.
Qed.
Lemma inside_root x : inside root (root ++ 47 :: x) = true.
Proof.
  unfold inside. rewrite (proj2 (strip_prefix_iff (in_dir root []) (root ++ 47 :: x) x)); [by rewrite orb_true_r|].
  unfold in_dir. by rewrite <-app_assoc.
Qed.
Lemma cut_zone zs r l : Forall (fun m => exists x, m_at m = root ++ 47 :: x) zs -> m_at r = root -> cut root (zs ++ r :: l) = (zs ++ [r], l).
Proof.
  intros Hz Hr. induction Hz as [|m zs (x & Hm) _ IH]; cbn; [by rewrite bool_decide_true|].
  rewrite bool_decide_false, IH, Hm, inside_root; [done|]. rewrite Hm. intros H. apply (f_equal length) in H. rewrite length_app in H. cbn in H. lia.
Qed.
End enter.
Lemma outside_old p : zone_path p = true -> inside OLD_ROOT p = false.
Proof.
  intros (c & x & -> & Hc)%zone_path_iff. unfold inside. rewrite !bool_decide_false; [|done|intros [= <- _]; done]. cbn [orb].
  destruct (strip_prefix _ _) eqn:E; [|done]. apply strip_prefix_iff in E. by injection E as -> _.
Qed.
Lemma detach_outside l : Forall (fun m => inside OLD_ROOT (m_at m) = false) l -> detach OLD_ROOT l = l.
Proof.
  intros H. induction H as [|m l Hm _ IH]; cbn [detach]; [done|]. rewrite bool_decide_false, Hm, IH; [done|].
  intros He. unfold inside in Hm. rewrite He, bool_decide_true in Hm by done. done.
Qed.
Lemma inside_old x : inside OLD_ROOT (OLD_ROOT ++ 47 :: x) = true.
Proof. apply inside_root. Qed.
Lemma detach_host host l : Forall (fun m => head (m_at m) = Some 47) host -> Forall (fun m => inside OLD_ROOT (m_at m) = false) l ->
  detach OLD_ROOT ((moved (onto OLD_ROOT) <$> reach host) ++ l) = l.
Proof.
  intros Hh Hl. induction Hh as [|m host Hm _ IH]; [by apply detach_outside|]. cbn [reach].
  destruct (m_at m) as [|b x] eqn:E; [done|]. injection Hm as ->. case_bool_decide as Hs.
  - cbn [fmap list_fmap app detach moved m_at]. unfold onto at 1. rewrite E, Hs. by rewrite !bool_decide_true.
  - assert (onto OLD_ROOT (47 :: x) = OLD_ROOT ++ 47 :: x) as Ho by (unfold onto; by rewrite bool_decide_false).
    cbn [fmap list_fmap app detach moved m_at]. rewrite E, Ho, bool_decide_false by (intros H; apply (f_equal length) in H; cbn in H; lia).
    rewrite inside_old. apply IH.
Qed.
Lemma set_root gs : Forall (fun m => m_at m <> chars "/") gs -> set_attr (chars "/") 15 false (gs ++ [tmpfs (chars "/") 14]) = gs ++ [tmpfs (chars "/") 15].
Proof. intros H. induction H as [|m gs Hm _ IH]; [done|]. cbn [set_attr app andb]. rewrite bool_decide_false by done. by rewrite IH. Qed.

(** A step that leaves the table [tb] as it is, at or past the trace [t0]. *)
Definition at_table (host : list Mnt) (t0 : Trace) (tb : list Mnt) (t : Trace) : Prop := (exists es, t = t0 ++ es) /\ after host t = tb.
Lemma wp_calm {A B} host t0 tb (m : RM A) (f : A -> RM B) (Q : B -> Trace -> Prop) (R : RootfsError -> Trace -> Prop) t :
  at_table host t0 tb t -> adds host none none m -> (forall x t', at_table host t0 tb t' -> wp (f x) Q R t') -> (forall e t', at_table host t0 tb t' -> R e t') ->
  wp (m ≫= f) Q R t.
Proof.
  intros [(es & ->) Ht] Hm HQ HR. apply wp_bind. eapply wp_mono; [..|apply Hm]; intros x t' (es' & -> & Ht')%none_still; [apply HQ|apply HR];
    (split; [exists (es ++ es'); by rewrite app_assoc|by rewrite Ht']).
Qed.
(** A system call that changes it to [tb']. *)
Lemma wp_change {B} sys host t0 tb tb' c name p (f : unit -> RM B) (Q : B -> Trace -> Prop) (R : RootfsError -> Trace -> Prop) t :
  at_table host t0 tb t -> step tb (Did c None) = tb' -> (forall e, step tb (Did c (Some e)) = tb) ->
  (forall x t', at_table host t0 tb' t' -> wp (f x) Q R t') -> (forall e t', at_table host t0 tb t' -> R e t') ->
  wp (sysret sys c name p ≫= f) Q R t.
Proof.
  intros [(es & ->) Ht] Hn Hs HQ HR. apply wp_bind, wp_bind, wp_rcall. intros [e|]; [apply wp_fail, HR|apply wp_ret, HQ];
    (split; [eexists; by rewrite <-app_assoc|]); rewrite after_snoc, Ht; auto.
Qed.

(** A root that is furnished becomes the zone's, and nothing of the host's is left. *)
Lemma wp_become_root sys host a gs t :
  Forall (fun m => head (m_at m) = Some 47) host -> Forall (granted a) gs ->
  after host t = (moved (app (a_data_dir a)) <$> gs) ++ tmpfs (a_data_dir a) 14 :: host ->
  wp (enter sys (a_data_dir a)) (fun _ => at_table host t (gs ++ [tmpfs (chars "/") 15])) (fun _ t' => exists es, t' = t ++ es) t.
Proof.
  intros Hh Hg Ht. set (root := a_data_dir a) in *. set (tb := _ ++ _) in Ht.
  assert (at_table host t tb t) as H0 by (split; [exists []; by rewrite app_nil_r|done]).
  assert (Forall (fun m => exists x, m_at m = root ++ 47 :: x) (moved (app root) <$> gs)) as Hin.
  { apply Forall_fmap. eapply Forall_impl; [exact Hg|]. intros g (c & x & Hc & _)%granted_path%zone_path_iff. exists (c :: x). cbn. by rewrite Hc. }
  assert (moved (below root) <$> (moved (app root) <$> gs) = gs) as Hback.
  { rewrite <-list_fmap_compose. rewrite <-(list_fmap_id gs) at 2. apply list_fmap_ext. intros i g Hi. unfold compose. eapply moved_back.
    rewrite Forall_lookup in Hg. eauto. }
  assert (Forall (fun m => inside OLD_ROOT (m_at m) = false) (gs ++ [tmpfs (chars "/") 14])) as Hout.
  { apply Forall_app. split; [eapply Forall_impl; [exact Hg|]; intros g Hp%granted_path; by apply outside_old|by repeat constructor]. }
  eapply wp_bind, wp_mono; [..|apply (wp_mkdir sys host a)]; cbv beta; [|intros _ t1 (es & -> & _)%none_still; by exists es].
  intros ? t1 [-> (es & -> & H1)%none_still]. assert (at_table host t tb (t ++ es)) as H1' by (split; [by exists es|by rewrite H1]). clear H1 H0 Ht.
  eapply wp_calm; [done|apply adds_cs| |by intros ? ? []]. intros _ t2 H2. eapply wp_calm; [done|apply adds_cs| |by intros ? ? []]. intros _ t3 H3.
  eapply (wp_change _ _ _ _ ((moved (onto OLD_ROOT) <$> reach host) ++ gs ++ [tmpfs (chars "/") 14])); [done| |done| |by intros ? ? []].
  { cbn [step]. unfold pivot, tb. rewrite cut_zone by done. rewrite fmap_app, Hback. unfold in_dir. rewrite below_app by done. f_equal.
    f_equal. cbn. unfold tmpfs, moved. cbn. f_equal. f_equal. rewrite <-(app_nil_r root) at 2. unfold below. by rewrite (proj2 (strip_prefix_iff _ _ _) eq_refl). }
  intros _ t4 H4. eapply wp_change; [done|done|done| |by intros ? ? []]. intros _ t5 H5.
  eapply (wp_change _ _ _ _ (gs ++ [tmpfs (chars "/") 14])); [done| |done| |by intros ? ? []].
  { cbn [step]. by apply detach_host. }
  intros _ t6 H6. eapply wp_calm; [done|by apply adds_ignored| |by intros ? ? []]. intros _ t7 H7.
  eapply wp_calm; [done|apply adds_cs| |by intros ? ? []]. intros _ t8 [(es8 & ->) H8].
  apply wp_bind, wp_rcall. intros [e|]; [apply wp_fail|apply wp_ret].
  - eexists. by rewrite <-app_assoc.
  - split; [eexists; by rewrite <-app_assoc|]. rewrite after_snoc, H8. cbn [step]. apply set_root. eapply Forall_impl; [exact Hg|].
    intros g (c & x & -> & _)%granted_path%zone_path_iff. done.
Qed.

(** ** The claim *)
(** Where a zone may write, when a mount is not read-only. *)
Definition writable (a : Args) (p : text) : Prop :=
  p ∈ chars <$> ["/proc"; "/dev"; "/dev/shm"; "/dev/pts"; "/tmp"] \/ (exists d, d ∈ DEVICES /\ p = chars "/dev/" ++ d.2) \/
  p = zone_home (a_zone a) \/ nic a /\ p ∈ [chars "/run"; chars "/var/lib"] \/ inside (chars "/sys") p = true.
(** Where device nodes could work. *)
Definition device_place (a : Args) (p : text) : Prop :=
  p ∈ chars <$> ["/dev"; "/dev/pts"; "/run/kryptik/camera"] \/ (exists d, d ∈ DEVICES /\ p = chars "/dev/" ++ d.2) \/
  p = zone_home (a_zone a) /\ a_ephemeral a = None \/ inside (chars "/sys") p = true.
Lemma in_sys_inside a m : in_sys a m -> inside (chars "/sys") (m_at m) = true.
Proof.
  assert (forall x, inside (chars "/sys") (chars "/sys/" ++ x) = true) as H by (intros x; apply (inside_root (chars "/sys"))).
  destruct 1; [done|apply H|apply (H (chars "devices/system/cpu/" ++ _))|done].
Qed.
Lemma granted_writable a m : granted a m -> Z.testbit (m_attr m) 0 = false -> writable a (m_at m).
Proof.
  unfold writable. destruct 1 as [| | | | | | | |m Hm| |d Hd| | | | | | | | | |size|]; cbn; try done; intros Hb; try (left; set_solver).
  - by do 4 right; apply in_sys_inside in Hm.
  - right; left. by exists d.
  - right; right; right; left. done.
  - by right; right; left.
  - by right; right; left.
Qed.
Lemma granted_device a m : granted a m -> Z.testbit (m_attr m) 2 = false -> device_place a (m_at m).
Proof.
  unfold device_place. destruct 1 as [| | | | | | | |m Hm| |d Hd| | | | | | | | | |size|]; cbn; try done; intros Hb; try (left; set_solver).
  - by do 3 right; apply in_sys_inside in Hm.
  - right; left. by exists d.
  - by right; right; left.
Qed.
Definition PRIVATE : Call (option Z) := Mount (chars "none") (chars "/") None (Z.lor MS_REC MS_PRIVATE) None.
(** Mounted over what it hides, or nothing there to hide. *)
Definition hidden (c : Call bool) (m : Mnt) (t : Trace) (gs : list Mnt) : Prop := Did c false ∈ t \/ m ∈ gs.

Section pivoting.
Context (sys : Sys) (host : list Mnt) (a : Args).
Lemma wp_private t :
  wp (mount_raw sys (chars "none") (chars "/") None (Z.lor MS_REC MS_PRIVATE) None "mount(private)")
    (fun _ t' => t' = t ++ [Did PRIVATE None]) (fun _ t' => exists e, t' = t ++ [Did PRIVATE (Some e)]) t.
Proof.
  unfold mount_raw. do 2 (apply wp_bind; unfold cs at 1; apply wp_reject_if; [intros H; vm_compute in H; discriminate|intros _]).
  do 2 apply wp_bind, wp_ret. apply wp_bind, wp_rcall. intros [e|]; [apply wp_fail; by exists e|by apply wp_ret].
Qed.
(** The mounts are private before anything else is asked. *)
Definition private_first (t t' : Trace) : Prop := exists r es, t' = t ++ Did PRIVATE r :: es /\ (r = None \/ es = []).
Lemma still_open : adds host none none (open_data sys a).
Proof.
  unfold open_data. destruct (a_ephemeral a); [apply adds_ret|]. apply adds_bind; [done|apply adds_cs|]. intros _.
  apply adds_bind; [done|by apply adds_call|]. intros []; [apply adds_ret|apply adds_fail].
Qed.
Abbreviation proc_dir := (in_dir (a_data_dir a) (chars "proc")).
Definition masks (t : Trace) (gs : list Mnt) : Prop :=
  (forall f, f ∈ PROC_MASKED -> hidden (Exists (in_dir proc_dir f)) (mask f) t gs) /\
  (forall d, d ∈ PROC_EMPTIED -> hidden (IsDir (in_dir proc_dir d)) (emptied d) t gs) /\
  hidden (Exists (in_dir proc_dir (chars "sys/kernel/random/boot_id"))) (frozen (a_data_dir a) (chars "sys/kernel/random/boot_id") (chars ".boot_id")) t gs /\
  hidden (Exists (in_dir proc_dir (chars "cpuinfo"))) (frozen (a_data_dir a) (chars "cpuinfo") (chars ".cpuinfo")) t gs.

Lemma moved_inj r g g' : moved (app r) g = moved (app r) g' -> g = g'.
Proof. destruct g, g'. unfold moved. cbn. intros [= H%app_inv_head]. by subst. Qed.
Lemma pre_list zs : Forall (pre a) zs -> exists gs, zs = moved (app (a_data_dir a)) <$> gs /\ Forall (granted a) gs.
Proof.
  induction 1 as [|z zs (g & Hg & ->) _ (gs & -> & Hgs)]; [by exists []|]. exists (g :: gs). split; [done|by constructor].
Qed.
Lemma hid_hidden c m t gs tail es : after host t = (moved (app (a_data_dir a)) <$> gs) ++ tail ->
  hid host a (length tail) c m t -> hidden c m (t ++ es) gs.
Proof.
  intros Ht [H|H]; [left; apply elem_of_app; by left|right]. unfold own in H. rewrite Ht, length_app, Nat.add_sub, take_app_length in H.
  apply list_elem_of_fmap in H as (g & Hg & Hin). by apply moved_inj in Hg as ->.
Qed.
Lemma private_ext P t t' t'' : t' = t ++ [Did PRIVATE None] -> ext host P t' t'' -> private_first t t''.
Proof. intros -> (es & _ & -> & _). exists None, es. split; [by rewrite <-app_assoc|by left]. Qed.
Lemma wp_pivot_into t : after host t = host -> Forall (fun m => head (m_at m) = Some 47) host ->
  wp (pivot_into sys a)
    (fun home t' => private_first t t' /\ home = zone_home (a_zone a) /\ exists gs, after host t' = gs ++ [tmpfs (chars "/") 15] /\ Forall (granted a) gs /\ masks t' gs)
    (fun _ t' => private_first t t') t.
Proof.
  intros Ht Hh. apply wp_bind. eapply wp_mono; [..|apply wp_private]; cbv beta; [|intros _ ? (e & ->); exists (Some e), []; split; [done|by right]].
  intros _ t1 H1. assert (after host t1 = host) as Ht1 by by rewrite H1, after_snoc.
  apply wp_bind. eapply wp_mono; [..|apply still_open]; cbv beta; [|intros _ t2 H2; by eapply private_ext]. intros fd t2 E2. pose proof E2 as (e2 & -> & H2)%none_still.
  apply wp_bind. eapply wp_mono; [..|by apply (makes_mount sys host _ _ _ _ _ _ (tmpfs (a_data_dir a) 14))]; cbv beta.
  2:{ intros _ t3 E3. eapply private_ext; [done|]. exact (ext_trans _ _ _ _ _ E2 E3). }
  intros _ t3 E3. pose proof (ext_trans _ _ _ _ _ (ext_none _ any _ _ E2) (one_ext _ any _ _ _ I E3)) as E13. clear E2.
  destruct E3 as (e3 & -> & H3). rewrite H2, Ht1 in H3. set (tail := tmpfs (a_data_dir a) 14 :: host) in *.
  apply wp_bind. eapply wp_mono; [..|apply (too_furnish sys host a (length tail)); by rewrite H3]; cbv beta.
  2:{ intros _ t4 E4. eapply private_ext; [done|]. exact (ext_trans _ _ _ _ _ E13 E4). }
  intros _ t4 [(e4 & zs & -> & H4 & (gs & -> & Hgs)%pre_list) (Hm & He & Hb & Hc)]. rewrite H3 in H4.
  assert (forall e5, private_first t ((((t1 ++ e2) ++ e3) ++ e4) ++ e5)) as Hp.
  { intros e5. exists None, (e2 ++ e3 ++ e4 ++ e5). split; [by rewrite H1, <-!app_assoc|by left]. }
  apply wp_bind. eapply wp_mono; [..|by apply (wp_become_root sys host a gs)]; cbv beta; [|by intros _ t5 (e5 & ->)].
  intros _ t5 [(e5 & ->) H5]. apply wp_ret. split_and!; [done..|]. exists gs. split_and!; [done..|]. unfold masks. split_and!.
  - intros f Hf. by eapply hid_hidden, Hm.
  - intros d Hd. by eapply hid_hidden, He.
  - by eapply hid_hidden.
  - by eapply hid_hidden.
Qed.
End pivoting.


(** ** A zone's root, built *)
Definition demo_kernel (fails : text -> bool) : Sys := fun A _ c =>
  match c in Call A return A with
  | Mount _ target _ _ _ => if fails target then Some 12 else None
  | SetAttr _ _ _ | Detach _ | PivotRoot _ _ | Chdir _ | CloseRange _ _ => None
  | OpenPath _ => Ok 7
  | Close _ | Note _ => tt
  | CreateDirAll _ | CreateFile _ | WriteFile _ _ | Symlink _ _ | Chown _ _ _ | SetMode _ _ | RemoveDir _ | RemoveFile _ => true
  | ReadFile _ => Some []
  | IsDir p | IsFile p | Exists p => negb (bool_decide (p = chars "/etc/lynx"))
  | Lstat _ => Some (mkStat false true 131072)
  | Canonical p => Some p
  | ReadDir _ => Some [Some (chars "cpu0"); None; Some (chars "cpufreq")]
  | FdFlags _ => 0
  | OpenNull => 3
  end.
Definition demo_args : Args :=
  mkArgs (chars "/state/zones/mail") (chars "mail") None Bridge (Some (chars "/proc/self/fd/4")) (Some (chars "/proc/self/fd/5")) None None None (chars "/usr") false.
Definition demo_host : list Mnt := [bound (chars "/state") (chars "/dev/dm-0") 0; bound (chars "/") (chars "/dev/dm-1") 1].
Definition demo_run (fails : text -> bool) : outcome text RootfsError * Trace := pivot_into (demo_kernel fails) demo_args [].
Definition idle_dir : text := chars "/state/zones/mail/sys/devices/system/cpu/cpu0/cpuidle".

Example demo_table : (m_at <$> after demo_host (demo_run (fun _ => false)).2) = (chars <$>
  ["/home/mail"; "/run/kryptik/wayland-0"; "/run/kryptik/broker"; "/tmp"; "/dev/pts"; "/dev/shm"; "/dev/tty"; "/dev/urandom"; "/dev/random";
   "/dev/full"; "/dev/zero"; "/dev/null"; "/dev"; "/sys/devices/system/cpu/cpufreq"; "/sys/devices/system/cpu/cpu0/cpuidle"; "/sys/devices/system/cpu"; "/sys/devices/virtual/net"; "/sys/class/net"; "/sys";
   "/proc/cpuinfo"; "/proc/sys/kernel/random/boot_id"; "/proc/asound"; "/proc/irq"]) ++
  reverse ((fun f => chars "/proc/" ++ f) <$> PROC_MASKED) ++ (chars <$>
  ["/proc"; "/etc/pki/tls/certs"; "/etc/ssl/certs"; "/etc/alternatives"; "/etc/ssl/cert.pem"; "/etc/man_db.conf"; "/etc/protocols"; "/etc/services"; "/etc/ld.so.cache";
   "/sbin"; "/bin"; "/lib64"; "/lib"; "/usr"; "/"]).
Proof. vm_compute. reflexivity. Qed.

(** When a mount below /sys fails, the note says that the zone gets no /sys; it keeps what was
    bound before the failure, and what was to be hidden of it shows: the idle counts of each CPU. *)
Example sys_stays :
  let t := (demo_run (fun p => bool_decide (p = idle_dir))).2 in let table := after demo_host t in
  existsb (fun m => bool_decide (m_at m = chars "/sys/devices/system/cpu")) table = true /\
  existsb (fun m => bool_decide (m_at m = chars "/sys/devices/system/cpu/cpu0/cpuidle")) table = false /\
  existsb (fun ev => match ev with @Did _ (Note NoSys) _ => true | _ => false end) t = true /\
  match (demo_run (fun p => bool_decide (p = idle_dir))).1 with Done _ => true | _ => false end = true.
Proof. vm_compute. split_and!; reflexivity. Qed.
