(* ===== verification/Stick.v ===== *)
(** * USB sticks given to zones: src/compartments/kryptikd/src/stick.rs

    Which partitions may be given, the device-mapper mapping that gives one, its record, and taking
    it back. sysfs, dmsetup and the devices answer through [Tools.Sys]; how a size in gigabytes
    reads ([show_gb]) is floating point, and a parameter. *)
From S2P Require Import Prelude Bytes Text Zone Registry Tools Volume.
Open Scope string_scope.
Open Scope list_scope.
Open Scope Z_scope.

Module Stick.
Import Tools.

Definition RUN_DIR : path := Eval vm_compute in chars "/run/kryptik-stick".
Definition MAPPING_PREFIX : list Z := Eval vm_compute in chars "kryptik-stick-".
Definition mapping_name (zone : list Z) : list Z := MAPPING_PREFIX ++ zone.
Definition SYS : path := Eval vm_compute in chars "/sys".
Definition SYS_BLOCK : path := Eval vm_compute in chars "/sys/block".
Definition CLASS_BLOCK : path := Eval vm_compute in chars "/sys/class/block".

(** ** Records *)
Record Grant := mkGrant { g_writable : bool; g_partition : list Z; g_what : list Z }.
Definition mode_text (g : Grant) : list Z := chars (if g_writable g then "rw" else "ro").
Definition render (g : Grant) : list Z :=
  chars "mode " ++ mode_text g ++ [10] ++ chars "partition " ++ g_partition g ++ [10] ++ chars "what " ++ g_what g ++ [10].
Definition is_name (s : list Z) : bool :=
  negb (bool_decide (s = [])) && (zlen s <=? 32) && forallb (fun b => is_lower b || is_digit b) s.

Record Fields := mkFields { f_writable : option bool; f_partition : option (list Z); f_what : option (list Z) }.
Definition read_field (f : Fields) (line : list Z) : option Fields :=
  '(key, v) ← split_once 32 line;
  if bool_decide (key = chars "mode") && bool_decide (v = chars "rw") then Some (mkFields (Some true) (f_partition f) (f_what f))
  else if bool_decide (key = chars "mode") && bool_decide (v = chars "ro") then Some (mkFields (Some false) (f_partition f) (f_what f))
  else if bool_decide (key = chars "partition") && is_name v then Some (mkFields (f_writable f) (Some v) (f_what f))
  else if bool_decide (key = chars "what") then Some (mkFields (f_writable f) (f_partition f) (Some v))
  else None.
Fixpoint read_fields (f : Fields) (ls : list (list Z)) : option Fields :=
  match ls with
  | [] => Some f
  | l :: ls => f ← read_field f l; read_fields f ls
  end.
Definition parse (text : list Z) : option Grant :=
  f ← read_fields (mkFields None None None) (lines text);
  w ← f_writable f; p ← f_partition f; what ← f_what f;
  Some (mkGrant w p what).

(** ** Partitions *)
Record Partition := mkPartition { p_name : list Z; p_sectors : Z; p_what : list Z }.
Inductive StickError :=
| BadName (name : list Z) | NoDevice | NoDisk | HasPartitions | NotRemovable | Held | MountedHere | SystemDisk | NoSize
| TooSmall | Refused (zone : string) | HoldsOne | StillHeld | Dmsetup (verb : string) (code : Z) | RecordFault | DeviceFault
| NoGrant | Pulled | Ejected.

(** Printable ASCII alone, and short. *)
Definition plain (s : list Z) : list Z :=
  let kept := take 40 (List.filter (fun c => is_graphic c || (c =? 32)) s) in
  mjoin (match words kept with [] => [] | w :: ws => w :: ((fun w => 32 :: w) <$> ws) end).

Definition TAIL : Z := 128.
Definition table (p : Partition) : result (list Z) StickError :=
  if p_sectors p <=? TAIL then Err TooSmall
  else
    let head := p_sectors p - TAIL in
    let n := p_name p in
    Ok (chars "0 " ++ Registry.show_num head ++ chars " linear /dev/" ++ n ++ chars " 0" ++ [10] ++
        Registry.show_num head ++ [32] ++ Registry.show_num TAIL ++ chars " linear /dev/" ++ n ++ [32] ++ Registry.show_num head).

Section calls.
Context (sys : Sys) (show_gb : Z -> list Z).
Abbreviation SM := (TM StickError).

Definition read_trim (p : path) : SM (option (list Z)) :=
  r ← call sys (ReadText p); mret (match r with Ok s => Some (trim s) | Err _ => None end).
(** [fs::read_dir(p).into_iter().flatten().flatten()]. *)
Definition list_dir (p : path) : SM (list (list Z)) := r ← call sys (ReadDir p); mret (default [] r).
Definition grant_of (zone : list Z) : SM (option Grant) :=
  r ← call sys (ReadText (slash RUN_DIR zone)); mret (match r with Ok t => parse t | Err _ => None end).

Definition partition_file (p : path) : path := p ++ chars "/partition".
(** The first of [names] that is a disk with the partition. *)
Fixpoint holder_of (block part : list Z) (names : list (list Z)) : SM (option (list Z)) :=
  match names with
  | [] => mret None
  | d :: names =>
    if bool_decide (d = part) then holder_of block part names
    else
      has ← call sys (Exists (partition_file (slash (slash block d) part)));
      if has : bool then mret (Some d) else holder_of block part names
  end.
Definition disk_of (block part : list Z) : SM (option (list Z)) :=
  is_part ← call sys (Exists (partition_file (slash block part)));
  if negb is_part then mret (Some part)
  else
    names ← call sys (ReadDir block);
    match names with None => mret None | Some names => holder_of block part names end.

Fixpoint disks_of (block : path) (slaves : list (list Z)) : SM (list (list Z)) :=
  match slaves with
  | [] => mret []
  | s :: slaves =>
    d ← disk_of block s;
    ds ← disks_of block slaves;
    mret (match d with Some d => d :: ds | None => ds end)
  end.
Fixpoint system_disks_among (block : path) (dms : list (list Z)) : SM (list (list Z)) :=
  match dms with
  | [] => mret []
  | dm :: dms =>
    name ← read_trim (slash SYS_BLOCK dm ++ chars "/dm/name");
    let name := default [] name in
    here ← if bool_decide (name = []) || bool_decide (MAPPING_PREFIX `prefix_of` name) then mret []
           else slaves ← list_dir (slash SYS_BLOCK dm ++ chars "/slaves"); disks_of block slaves;
    rest ← system_disks_among block dms;
    mret (here ++ rest)
  end.
Definition system_disks : SM (list (list Z)) :=
  dms ← list_dir SYS_BLOCK;
  system_disks_among CLASS_BLOCK dms.

Fixpoint any_partition (dev : path) (names : list (list Z)) : SM bool :=
  match names with
  | [] => mret false
  | n :: names =>
    here ← call sys (Exists (partition_file (slash dev n)));
    if here : bool then mret true else any_partition dev names
  end.
Definition on_usb (p : path) : bool := existsb (fun c => bool_decide (is_Some (strip_prefix (chars "usb") c))) (split 47 p).
Definition mounted_node (mounts name : list Z) : bool :=
  existsb (fun l => bool_decide (head (split 32 l) = Some (chars "/dev/" ++ name))) (lines mounts).

(** How the chrome names the device. *)
Definition describe (disk name : list Z) (sectors : Z) : SM (list Z) :=
  let dev := slash CLASS_BLOCK name in
  let device := slash CLASS_BLOCK disk ++ chars "/device" in
  vendor ← read_trim (slash device (chars "vendor"));
  model ← read_trim (slash device (chars "model"));
  label ← read_trim (slash device (chars "name"));
  let words := List.filter (fun s => negb (bool_decide (s = []))) (plain <$> omap id [vendor; model; label]) in
  let model := match words with [] => chars "a USB stick" | w :: ws => mjoin (w :: ((fun w => 32 :: w) <$> ws)) end in
  n ← read_trim (slash dev (chars "partition"));
  u ← read_trim (slash dev (chars "uevent"));
  let label := u ← u; find_map (fun l => plain <$> strip_prefix (chars "PARTNAME=") l) (lines u) in
  mret (model ++ chars ", " ++ show_gb sectors ++ chars " GB"
    ++ match n with Some n => chars ", partition " ++ plain n | None => [] end
    ++ match label with Some l => if bool_decide (l = []) then [] else chars " (" ++ l ++ [41] | None => [] end).

Definition partition_in (mounts name : list Z) : SM Partition :=
  reject_if (negb (is_name name)) (BadName name);;
  let dev := slash CLASS_BLOCK name in
  there ← call sys (Exists dev);
  reject_if (negb there) NoDevice;;
  d ← disk_of CLASS_BLOCK name;
  disk ← require d NoDisk;
  parts ← if bool_decide (disk = name) then names ← list_dir dev; any_partition dev names else mret false;
  reject_if parts HasPartitions;;
  real ← call sys (Resolve (slash CLASS_BLOCK disk));
  card ← read_trim (slash CLASS_BLOCK disk ++ chars "/device/type");
  reject_if (negb (match real with Some p => on_usb p | None => false end) && negb (bool_decide (card = Some (chars "SD")))) NotRemovable;;
  holders ← list_dir (slash dev (chars "holders"));
  reject_if (negb (bool_decide (holders = []))) Held;;
  reject_if (mounted_node mounts name) MountedHere;;
  own ← system_disks;
  reject_if (bool_decide (disk ∈ own)) SystemDisk;;
  size ← read_trim (slash dev (chars "size"));
  sectors ← require (s ← size; n ← parse_u64 s; if 0 <? n then Some n else None) NoSize;
  what ← describe disk name sectors;
  mret (mkPartition name sectors what).

Fixpoint eligible_among (mounts : list Z) (names : list (list Z)) : SM (list Partition) :=
  match names with
  | [] => mret []
  | n :: names =>
    p ← tried (partition_in mounts n);
    ps ← eligible_among mounts names;
    mret (match p with Ok p => p :: ps | Err _ => ps end)
  end.
Definition MOUNTS : path := Eval vm_compute in chars "/proc/self/mounts".
Definition read_mounts : SM (list Z) := r ← call sys (ReadText MOUNTS); mret (match r with Ok m => m | Err _ => [] end).
Definition eligible : SM (list Partition) :=
  mounts ← read_mounts;
  names ← list_dir CLASS_BLOCK;
  eligible_among mounts (Volume.sort_text names).

(** ** Given and taken back *)
Fixpoint dm_among (name : list Z) (dms : list (list Z)) : SM (option (list Z)) :=
  match dms with
  | [] => mret None
  | dm :: dms =>
    n ← read_trim (slash SYS_BLOCK dm ++ chars "/dm/name");
    if bool_decide (n = Some name) then mret (Some dm) else dm_among name dms
  end.
Definition dm_device (name : list Z) : SM (option (list Z)) :=
  r ← call sys (ReadDir SYS_BLOCK);
  match r with None => mret None | Some dms => dm_among name dms end.

Definition dmsetup (verb : string) (args : list (list Z)) : SM unit :=
  r ← call sys (Run "dmsetup" (chars verb :: args) None);
  match r with Ok _ => mret tt | Err code => fail (Dmsetup verb code) end.
Definition flush_and_drop (dev : list Z) : SM unit := called sys (Flush dev) DeviceFault.

(** An error counts only while the mapping is there. *)
Definition or_gone (map : list Z) (m : SM unit) : SM unit :=
  r ← tried m;
  match r with
  | Ok _ => mret tt
  | Err e => d ← dm_device map; match d with None => mret tt | Some _ => fail e end
  end.
Definition clear_mapping (map dev : list Z) : SM unit :=
  _ ← tried (flush_and_drop dev) : SM (result unit StickError);
  or_gone map (dmsetup "wipe_table" [map]);;
  or_gone map (flush_and_drop dev);;
  or_gone map (dmsetup "remove" [chars "--deferred"; map]).
Definition eject (zone : list Z) : SM bool :=
  let map := mapping_name zone in
  let record := slash RUN_DIR zone in
  held ← call sys (Exists record);
  d ← dm_device map;
  match d with None => mret tt | Some dev => clear_mapping map dev end;;
  when held (
    r ← call sys (RemoveFile record);
    match r with Ok _ | Err NotFound => mret tt | Err _ => fail RecordFault end);;
  mret held.
Fixpoint reap_among (zones : list (list Z)) : SM unit :=
  match zones with
  | [] => mret tt
  | zone :: zones =>
    g ← grant_of zone;
    match g with
    | None => mret tt
    | Some g =>
      there ← call sys (Exists (slash CLASS_BLOCK (g_partition g)));
      when (negb there) (_ ← tried (eject zone) : SM (result bool StickError); mret tt)
    end;;
    reap_among zones
  end.
Definition reap_pulled : SM unit := zones ← list_dir RUN_DIR; reap_among zones.

Definition create_args (map table : list Z) (writable : bool) : list (list Z) :=
  [map; chars "--table"; table] ++ (if writable then [] else [chars "--readonly"]).
Definition write_record (zone : list Z) (g : Grant) : SM unit :=
  let tmp := slash RUN_DIR (46 :: zone) in
  called sys (MkdirAll RUN_DIR) RecordFault;;
  called sys (WriteText tmp (render g)) RecordFault;;
  called sys (Rename tmp (slash RUN_DIR zone)) RecordFault.
Definition grant (zone : Zone) (name : list Z) (writable : bool) : SM Grant :=
  let zn := chars (z_name zone) in
  reject_if (negb (z_removable zone)) (Refused (z_name zone));;
  reap_pulled;;
  let map := mapping_name zn in
  g ← grant_of zn;
  reject_if (match g with Some _ => true | None => false end) HoldsOne;;
  d ← dm_device map;
  reject_if (match d with Some _ => true | None => false end) StillHeld;;
  mounts ← read_mounts;
  p ← partition_in mounts name;
  table ← lift (table p);
  dmsetup "create" (create_args map table writable);;
  let g := mkGrant writable (p_name p) (p_what p) in
  w ← tried (write_record zn g);
  match w with
  | Ok _ => mret g
  | Err e => _ ← tried (dmsetup "remove" [map]) : SM (result unit StickError); fail e
  end.

Definition mapping_at (rdev : Z * Z) (name : list Z) : SM bool :=
  n ← read_trim (SYS ++ chars "/dev/block/" ++ Registry.show_num rdev.1 ++ [58] ++ Registry.show_num rdev.2 ++ chars "/dm/name");
  mret (bool_decide (n = Some name)).
Definition open_for (zone : list Z) : SM (list Z * Grant) :=
  g ← grant_of zone;
  g ← require g NoGrant;
  there ← call sys (Exists (slash CLASS_BLOCK (g_partition g)));
  reject_if (negb there) Pulled;;
  let name := mapping_name zone in
  d ← dm_device name;
  dev ← require d Ejected;
  called sys (OpenDev dev (g_writable g)) DeviceFault;;
  rdev ← called sys (DevOf dev) DeviceFault;
  same ← mapping_at rdev name;
  reject_if (negb same) Ejected;;
  mret (dev, g).
End calls.
End Stick.
