(* ===== verification/StickClaims.v ===== *)
(** * What stick.rs promises

    Records, tables, which partitions are given and to whom, and what is left of a stick taken
    back; whatever sysfs, dmsetup and the devices answer. *)
From S2P Require Import Prelude Bytes Text Zone Registry RegistryClaims Wifi WifiClaims Tools Volume Stick.
Open Scope string_scope.
Open Scope list_scope.
Open Scope Z_scope.
Import Tools Stick.

(** ** Records *)
Definition grant_wf (g : Grant) : Prop := is_name (g_partition g) = true /\ Forall (fun c => 32 <= c <= 126) (g_what g).

Lemma is_name_plain s c : is_name s = true -> c = 10 \/ c = 13 \/ c = 32 -> c ∉ s.
Proof.
  unfold is_name. intros [_ H]%andb_true_iff Hc Hin. rewrite forallb_Forall, Forall_forall in H. specialize (H c Hin). cbv beta in H.
  unfold is_lower, is_digit, between in H. lia.
Qed.
Lemma render_lines g : render g = unlines [chars "mode " ++ mode_text g; chars "partition " ++ g_partition g; chars "what " ++ g_what g].
Proof. unfold render, unlines. cbn [fmap list_fmap mjoin list_join]. by rewrite app_nil_r, <- !app_assoc. Qed.
Lemma plain_from (p l : list Z) : plain_line p -> p <> [] -> Forall (fun c => c <> 10 /\ c <> 13) l -> plain_line (p ++ l).
Proof.
  intros [Hn Hr] Hne Hl. split.
  - rewrite elem_of_app. intros [?|Hin]; [done|]. rewrite Forall_forall in Hl. by destruct (Hl 10 Hin).
  - destruct l as [|x l _] using rev_ind; [by rewrite app_nil_r|]. rewrite app_assoc, last_snoc. apply Forall_app in Hl as [_ Hx]. rewrite Forall_singleton in Hx. naive_solver.
Qed.

Lemma record_ok g : grant_wf g -> parse (render g) = Some g.
Proof.
  intros [Hp Hw]. unfold parse. rewrite render_lines, lines_unlines.
  2: { rewrite !Forall_cons. split; [|split; [|split; [|by apply Forall_nil]]].
       - unfold mode_text. destruct (g_writable g); (split; [vm_compute; set_solver|done]).
       - apply plain_from; [split; [vm_compute; set_solver|done]|done|]. apply Forall_forall. intros c Hc.
         split; intros ->; by eapply is_name_plain in Hc; eauto.
       - apply plain_from; [split; [vm_compute; set_solver|done]|done|]. eapply Forall_impl; [exact Hw|]. cbv beta. lia. }
  cbn [read_fields].
  assert (forall f, read_field f (chars "mode" ++ 32 :: mode_text g) = Some (mkFields (Some (g_writable g)) (f_partition f) (f_what f))) as Hm.
  { intros f. unfold read_field. rewrite split_once_app by (vm_compute; set_solver). unfold mode_text. by destruct (g_writable g). }
  assert (forall f, read_field f (chars "partition" ++ 32 :: g_partition g) = Some (mkFields (f_writable f) (Some (g_partition g)) (f_what f))) as Hpt.
  { intros f. unfold read_field. rewrite split_once_app by (vm_compute; set_solver). cbn [mbind option_bind]. by rewrite Hp. }
  assert (forall f, read_field f (chars "what" ++ 32 :: g_what g) = Some (mkFields (f_writable f) (f_partition f) (Some (g_what g)))) as Hwt.
  { intros f. unfold read_field. by rewrite split_once_app by (vm_compute; set_solver). }
  change (chars "mode " ++ mode_text g) with (chars "mode" ++ 32 :: mode_text g).
  change (chars "partition " ++ g_partition g) with (chars "partition" ++ 32 :: g_partition g).
  change (chars "what " ++ g_what g) with (chars "what" ++ 32 :: g_what g).
  rewrite Hm. cbn [mbind option_bind]. rewrite Hpt. cbn [mbind option_bind]. rewrite Hwt. by destruct g.
Qed.

(** What a zone is recorded to hold reads back as it was written, and whatever a record
    says, the partition it names is a plain device name. *)
Theorem record_exact :
  (forall g, grant_wf g -> parse (render g) = Some g) /\
  (forall text g, parse text = Some g -> is_name (g_partition g) = true).
Proof.
  split.
  - apply record_ok.
  - intros text g. unfold parse.
    assert (forall ls f f', (forall p, f_partition f = Some p -> is_name p = true) -> read_fields f ls = Some f' -> forall p, f_partition f' = Some p -> is_name p = true) as Hf.
    { induction ls as [|l ls IH]; intros f f' Hf H; cbn [read_fields] in H; [by injection H as <-|]. apply bind_Some in H as (f1 & H1 & H). eapply IH; [|exact H].
      unfold read_field in H1. destruct (split_once 32 l) as [[k v]|]; [|done]. cbn in H1.
      repeat case_match; simplify_eq; cbn; auto. intros p [= <-]. match goal with Hb : _ && is_name _ = true |- _ => by apply andb_true_iff in Hb as [_ ?] end. }
    intros H. repeat (apply bind_Some in H as (? & ? & H)). injection H as <-. cbn. by eapply (Hf (lines text) (mkFields None None None)); [..|done].
Qed.

(** ** Tables *)
(** The two targets of a table, in order: together the whole partition, none of it twice, the
    second its last 64 KiB. *)
Theorem table_whole (p : Partition) (tbl : list Z) : is_name (p_name p) = true -> table p = Ok tbl ->
  let head := p_sectors p - TAIL in
  0 < head /\
  split 32 <$> split 10 tbl = [[chars "0"; Registry.show_num head; chars "linear"; chars "/dev/" ++ p_name p; chars "0"];
    [Registry.show_num head; Registry.show_num TAIL; chars "linear"; chars "/dev/" ++ p_name p; Registry.show_num head]].
Proof.
  intros Hn H. unfold table in H. destruct (Z.leb_spec (p_sectors p) TAIL) as [|Hs]; [done|]. injection H as <-. cbv zeta. set (head := p_sectors p - TAIL).
  assert (0 < head) as Hh by (unfold head; lia). split; [done|].
  assert (forall c n, 0 <= n -> c = 10 \/ c = 32 -> c ∉ Registry.show_num n) as Hnum.
  { intros c n Hz Hc Hin. destruct (show_num_digits n Hz) as (_ & Hd & _). rewrite Forall_forall in Hd. specialize (Hd c Hin). cbv beta in Hd. lia. }
  assert (forall c, c = 10 \/ c = 32 -> c ∉ chars "/dev/" ++ p_name p) as Hdev.
  { intros c Hc. rewrite elem_of_app. intros [Hin|Hin]; [destruct Hc as [-> | ->]; revert Hin; vm_compute; set_solver|]. eapply (is_name_plain (p_name p) c); [done|naive_solver|done]. }
  set (w1 := [chars "0"; Registry.show_num head; chars "linear"; chars "/dev/" ++ p_name p; chars "0"]).
  set (w2 := [Registry.show_num head; Registry.show_num TAIL; chars "linear"; chars "/dev/" ++ p_name p; Registry.show_num head]).
  assert (forall c, c = 10 \/ c = 32 -> Forall (fun w => c ∉ w) w1 /\ Forall (fun w => c ∉ w) w2) as Hw.
  { intros c Hc. assert (forall k, k ∈ ["0"; "linear"] -> c ∉ chars k) as Hk.
    { intros k Hk. repeat (apply elem_of_cons in Hk as [->|Hk]); [..|by apply elem_of_nil in Hk]; destruct Hc as [-> | ->]; vm_compute; set_solver. }
    unfold w1, w2. rewrite !Forall_cons. unfold TAIL. split_and!; try (by apply Forall_nil); try (apply Hnum; [lia|done]); try (by apply Hdev); apply Hk; set_solver. }
  assert (forall w, Forall (fun x => 10 ∉ x) w -> 10 ∉ Wifi.join 32 w) as Hj.
  { intros w Hf. induction Hf as [|x [|y w] Hx _ IH]; cbn [Wifi.join]; [set_solver|done|]. rewrite elem_of_app, elem_of_cons. intros [?|[?|?]]; [done|lia|by apply IH]. }
  transitivity (split 32 <$> split 10 (Wifi.join 10 [Wifi.join 32 w1; Wifi.join 32 w2])).
  { f_equal. f_equal. unfold w1, w2. cbn [Wifi.join]. change (chars "0 ") with (chars "0" ++ [32]). change (chars " linear /dev/") with ([32] ++ chars "linear" ++ [32] ++ chars "/dev/").
    change (chars " 0") with (32 :: chars "0"). repeat (rewrite <- ?app_assoc; cbn [app]). reflexivity. }
  rewrite split_join; [|done|rewrite !Forall_cons; split_and!; [apply Hj, Hw; by left..|by apply Forall_nil]]. cbn [fmap list_fmap]. by rewrite !split_join by (done || by apply Hw; right).
Qed.

(** ** What was seen *)
Definition reading (ev : Event) : Prop :=
  match ev with
  | @Did _ (Exists _) _ | @Did _ (ReadDir _) _ | @Did _ (ReadText _) _ | @Did _ (Resolve _) _ => True
  | _ => False
  end.
Definition part_file (part : list Z) : path := partition_file (slash CLASS_BLOCK part).
(** The disk a partition was found on, itself when it is no partition. *)
Definition disk_seen (t : Trace) (part : list Z) (d : option (list Z)) : Prop :=
  (Did (Exists (part_file part)) false ∈ t /\ d = Some part) \/
  (Did (Exists (part_file part)) true ∈ t /\ forall x, d = Some x -> x <> part /\ Did (Exists (partition_file (slash (slash CLASS_BLOCK x) part))) true ∈ t).
Definition dm_name (dm : list Z) : path := slash SYS_BLOCK dm ++ chars "/dm/name".
Definition name_read (a : result (list Z) Fault) : option (list Z) := match a with Ok s => Some (trim s) | Err _ => None end.
(** No device-mapper device but the zones' own sticks has [disk] under it. *)
Definition off_system (t : Trace) (disk : list Z) : Prop := exists dms, Did (ReadDir SYS_BLOCK) dms ∈ t /\
  Forall (fun dm => exists a, Did (ReadText (dm_name dm)) a ∈ t /\
    (let name := default [] (name_read a) in (name = [] \/ MAPPING_PREFIX `prefix_of` name) \/
     exists slaves, Did (ReadDir (slash SYS_BLOCK dm ++ chars "/slaves")) slaves ∈ t /\
       Forall (fun s => exists d, disk_seen t s d /\ d <> Some disk) (default [] slaves))) (default [] dms).
(** No device has the mapping's name. *)
Definition unmapped (t : Trace) (map : list Z) : Prop := exists dms, Did (ReadDir SYS_BLOCK) dms ∈ t /\
  Forall (fun dm => exists a, Did (ReadText (dm_name dm)) a ∈ t /\ name_read a <> Some map) (default [] dms).

Lemma disk_seen_mono t t' part d : t ⊆ t' -> disk_seen t part d -> disk_seen t' part d.
Proof. intros Hs [[H1 H2]|[H1 H2]]; [left|right]; split; auto. intros x Hx. destruct (H2 x Hx). auto. Qed.
Lemma unmapped_mono t t' map : t ⊆ t' -> unmapped t map -> unmapped t' map.
Proof. intros Hs (dms & H1 & H2). exists dms. split; [auto|]. eapply Forall_impl; [exact H2|]. intros dm (a & ? & ?). eauto. Qed.
Lemma off_system_mono t t' disk : t ⊆ t' -> off_system t disk -> off_system t' disk.
Proof.
  intros Hs (dms & H1 & H2). exists dms. split; [auto|]. eapply Forall_impl; [exact H2|]. intros dm (a & Ha & [Hp|(sl & Hl & Hf)]); exists a; split; auto.
  right. exists sl. split; [auto|]. eapply Forall_impl; [exact Hf|]. intros s (d & Hd & Hn). exists d. split; [by eapply disk_seen_mono|done].
Qed.

#[local] Hint Resolve sub_snoc sub_trans elem_snoc elem_snoc_l : core.
#[local] Hint Extern 1 (_ ⊆ _) => reflexivity : core.
Lemma sub_both (t t' t'' : Trace) : t ⊆ t' -> t' ⊆ t'' -> t ⊆ t''.
Proof. intros H1 H2 e He. auto. Qed.

Section seen.
Context (sys : Sys) (P : Trace -> Event -> Prop).
Hypothesis HP : forall t ev, reading ev -> P t ev.
Abbreviation J := (justified P).

Lemma wp_look {A} (c : Call A) (Q : A -> Trace -> Prop) (R : StickError -> Trace -> Prop) t : (forall a, reading (Did c a)) -> J t ->
  (forall a, J (t ++ [Did c a]) -> Q a (t ++ [Did c a])) -> wp (call sys c) Q R t.
Proof. intros Hr Ht HQ. apply (wp_call sys P); auto. Qed.
Lemma wp_read_sys p (Q : option (list Z) -> Trace -> Prop) (R : StickError -> Trace -> Prop) t : J t ->
  (forall a t', J t' -> t ⊆ t' -> Did (ReadText p) a ∈ t' -> Q (name_read a) t') -> wp (read_trim sys p) Q R t.
Proof. intros Ht HQ. apply wp_bind, wp_look; [done..|]. intros a Ha. apply wp_ret. apply (HQ a); auto. Qed.
Lemma wp_list_dir p (Q : list (list Z) -> Trace -> Prop) (R : StickError -> Trace -> Prop) t : J t ->
  (forall a t', J t' -> t ⊆ t' -> Did (ReadDir p) a ∈ t' -> Q (default [] a) t') -> wp (list_dir sys p) Q R t.
Proof. intros Ht HQ. apply wp_bind, wp_look; [done..|]. intros a Ha. apply wp_ret. apply (HQ a); auto. Qed.

Lemma wp_holder_of part names (Q : option (list Z) -> Trace -> Prop) (R : StickError -> Trace -> Prop) t : J t ->
  (forall d t', J t' -> t ⊆ t' -> (forall x, d = Some x -> x <> part /\ Did (Exists (partition_file (slash (slash CLASS_BLOCK x) part))) true ∈ t') -> Q d t') ->
  wp (holder_of sys CLASS_BLOCK part names) Q R t.
Proof.
  revert t. induction names as [|d names IH]; intros t Ht HQ; cbn [holder_of]; [apply wp_ret, HQ; auto; done|].
  case_bool_decide as Hd; [by apply IH|]. apply wp_bind, wp_look; [done..|]. intros [|] H1.
  - apply wp_ret, HQ; auto. intros x [= <-]. auto.
  - apply IH; [done|]. intros x t' Hj Hs Hx. apply HQ; auto. by eapply sub_both; [apply sub_snoc|].
Qed.
Lemma wp_disk_of part (Q : option (list Z) -> Trace -> Prop) (R : StickError -> Trace -> Prop) t : J t ->
  (forall d t', J t' -> t ⊆ t' -> disk_seen t' part d -> Q d t') -> wp (disk_of sys CLASS_BLOCK part) Q R t.
Proof.
  intros Ht HQ. unfold disk_of. apply wp_bind, wp_look; [done..|]. intros is_part H1. destruct is_part; cbn [negb].
  - apply wp_bind, wp_look; [done..|]. intros names H2. destruct names as [names|].
    + apply wp_holder_of; [done|]. intros d t' Hj Hs Hd. apply HQ; [done|by eapply sub_both; [|exact Hs]; auto|]. right. split; [apply Hs; auto|done].
    + apply wp_ret, HQ; auto. right. split; [by apply elem_snoc_l, elem_snoc|done].
  - apply wp_ret, HQ; auto. left. auto.
Qed.
Lemma wp_disks_of slaves (Q : list (list Z) -> Trace -> Prop) (R : StickError -> Trace -> Prop) t : J t ->
  (forall ds t', J t' -> t ⊆ t' -> Forall (fun s => exists d, disk_seen t' s d /\ forall x, d = Some x -> x ∈ ds) slaves -> Q ds t') ->
  wp (disks_of sys CLASS_BLOCK slaves) Q R t.
Proof.
  revert Q t. induction slaves as [|s slaves IH]; intros Q t Ht HQ; cbn [disks_of]; [apply wp_ret, HQ; auto; constructor|].
  apply wp_bind, wp_disk_of; [done|]. intros d t1 H1 Hs1 Hd. apply wp_bind, IH; [done|]. intros ds t2 H2 Hs2 Hds. apply wp_ret, HQ; [done|by eapply sub_both|].
  constructor.
  - exists d. split; [by eapply disk_seen_mono|]. intros x ->. by left.
  - eapply Forall_impl; [exact Hds|]. intros y (d' & Hd' & Hin). exists d'. split; [done|]. intros x Hx. destruct d; [right|]; auto.
Qed.
Lemma wp_system_disks (Q : list (list Z) -> Trace -> Prop) (R : StickError -> Trace -> Prop) t : J t ->
  (forall own t', J t' -> t ⊆ t' -> (forall disk, disk ∉ own -> off_system t' disk) -> Q own t') -> wp (system_disks sys) Q R t.
Proof.
  intros Ht HQ. unfold system_disks. apply wp_bind, wp_list_dir; [done|]. intros dms t1 H1 Hs1 Hdms.
  assert (forall l (Q' : list (list Z) -> Trace -> Prop) t, J t ->
    (forall own t', J t' -> t ⊆ t' -> (forall disk, disk ∉ own -> Forall (fun dm => exists a, Did (ReadText (dm_name dm)) a ∈ t' /\
      (let name := default [] (name_read a) in (name = [] \/ MAPPING_PREFIX `prefix_of` name) \/
       exists slaves, Did (ReadDir (slash SYS_BLOCK dm ++ chars "/slaves")) slaves ∈ t' /\
         Forall (fun s => exists d, disk_seen t' s d /\ d <> Some disk) (default [] slaves))) l) -> Q' own t') ->
    wp (system_disks_among sys CLASS_BLOCK l) Q' R t) as Hall.
  2: { apply Hall; [done|]. intros own t' Hj Hs Hd. apply HQ; [done|by eapply sub_both|]. intros disk Hn. exists dms. split; [auto|by apply Hd]. }
  clear - HP. intros l. induction l as [|dm l IH]; intros Q' t Ht HQ'; cbn [system_disks_among]; [apply wp_ret, HQ'; auto; intros; constructor|].
  apply wp_bind, wp_read_sys; [done|]. intros a t1 H1 Hs1 Ha. apply wp_bind. set (name := default [] (name_read a)).
  eapply (wp_mono _ (fun here t2 => J t2 /\ t1 ⊆ t2 /\ ((name = [] \/ MAPPING_PREFIX `prefix_of` name) \/
       exists slaves, Did (ReadDir (slash SYS_BLOCK dm ++ chars "/slaves")) slaves ∈ t2 /\
         Forall (fun s => exists d, disk_seen t2 s d /\ forall x, d = Some x -> x ∈ here) (default [] slaves))) _ R); [|done|].
  - intros here t2 (H2 & Hs2 & Hh). apply wp_bind, IH; [done|]. intros rest t3 H3 Hs3 Hr. apply wp_ret, HQ'; [done|by eapply sub_both, sub_both; [exact Hs1|exact Hs2|exact Hs3]|].
    intros disk Hn. constructor; [|apply Hr; set_solver]. exists a. split; [by apply Hs3, Hs2|]. destruct Hh as [Hh|(sl & Hsl & Hf)]; [by left|right].
    exists sl. split; [auto|]. eapply Forall_impl; [exact Hf|]. intros s (d & Hd & Hin). exists d. split; [by eapply disk_seen_mono|]. intros ->. specialize (Hin disk eq_refl). set_solver.
  - destruct (bool_decide (name = []) || _) eqn:E.
    + apply wp_ret. split_and!; auto. left. by rewrite orb_true_iff, !bool_decide_eq_true in E.
    + apply wp_bind, wp_list_dir; [done|]. intros sl t2 H2 Hs2 Hsl. apply wp_disks_of; [done|]. intros ds t3 H3 Hs3 Hds. split_and!; [done|by eapply sub_both|].
      right. exists sl. auto.
Qed.
Lemma wp_dm_device map (Q : option (list Z) -> Trace -> Prop) (R : StickError -> Trace -> Prop) t : J t ->
  (forall d t', J t' -> t ⊆ t' -> match d with
    | None => unmapped t' map | Some dm => exists a, Did (ReadText (dm_name dm)) a ∈ t' /\ name_read a = Some map end -> Q d t') ->
  wp (dm_device sys map) Q R t.
Proof.
  intros Ht HQ. unfold dm_device. apply wp_bind, wp_look; [done..|]. intros dms H1. destruct dms as [dms|].
  2: { apply wp_ret, HQ; auto. exists None. split; [auto|constructor]. }
  assert (forall l (Q' : option (list Z) -> Trace -> Prop) t, J t ->
    (forall d t', J t' -> t ⊆ t' -> match d with
      | None => Forall (fun dm => exists a, Did (ReadText (dm_name dm)) a ∈ t' /\ name_read a <> Some map) l
      | Some dm => exists a, Did (ReadText (dm_name dm)) a ∈ t' /\ name_read a = Some map end -> Q' d t') -> wp (dm_among sys map l) Q' R t) as Hall.
  2: { apply Hall; [done|]. intros d t' Hj Hs Hd. apply HQ; [done|by eapply sub_both; [|exact Hs]; auto|]. destruct d; [done|]. exists (Some dms). split; [apply Hs; auto|done]. }
  clear - HP. intros l. induction l as [|dm l IH]; intros Q' t Ht HQ'; cbn [dm_among]; [apply wp_ret, HQ'; auto; constructor|].
  apply wp_bind, wp_read_sys; [done|]. intros a t1 H1 Hs1 Ha. case_bool_decide as Hn; [apply wp_ret, HQ'; auto; eauto|].
  apply IH; [done|]. intros d t2 H2 Hs2 Hd. apply HQ'; [done|by eapply sub_both|]. destruct d; [done|]. constructor; [exists a; split; [auto|done]|done].
Qed.
End seen.

(** ** Giving *)
Definition printable (s : list Z) : Prop := Forall (fun c => 32 <= c <= 126) s.
Definition givable (t : Trace) (p : Partition) : Prop :=
  let dev := slash CLASS_BLOCK (p_name p) in
  is_name (p_name p) = true /\ 0 < p_sectors p /\ Did (Exists dev) true ∈ t /\
  (exists h, Did (ReadDir (slash dev (chars "holders"))) h ∈ t /\ default [] h = []) /\
  exists disk, disk_seen t (p_name p) (Some disk) /\ off_system t disk /\
    ((exists r, Did (Resolve (slash CLASS_BLOCK disk)) (Some r) ∈ t /\ on_usb r = true) \/
     (exists a, Did (ReadText (slash CLASS_BLOCK disk ++ chars "/device/type")) a ∈ t /\ name_read a = Some (chars "SD"))) /\
    (disk = p_name p -> exists names, Did (ReadDir dev) names ∈ t /\ Forall (fun n => Did (Exists (partition_file (slash dev n))) false ∈ t) (default [] names)).
Lemma givable_mono t t' p : t ⊆ t' -> givable t p -> givable t' p.
Proof.
  intros Hs (H1 & H2 & H3 & (h & H4 & H5) & disk & H6 & H7 & H8 & H9). split_and!; auto; [exists h; auto|]. exists disk.
  split; [by eapply disk_seen_mono|]. split; [by eapply off_system_mono|]. split.
  - destruct H8 as [(r & ? & ?)|(a & ? & ?)]; [left; exists r; auto|right; exists a; auto].
  - intros E. destruct (H9 E) as (names & Hn & Hf). exists names. split; [auto|]. eapply Forall_impl; [exact Hf|]. auto.
Qed.

Lemma words_from_all (P : Z -> Prop) cs : forall acc, Forall P acc -> Forall P cs -> Forall (Forall P) (words_from acc cs).
Proof.
  induction cs as [|c cs IH]; intros acc Ha Hc; cbn [words_from].
  - destruct acc; constructor; [by apply Forall_reverse|constructor].
  - apply Forall_cons in Hc as [Hc1 Hc]. destruct (is_whitespace c); [|apply IH; auto; by constructor].
    destruct acc; [by apply IH|]. constructor; [by apply Forall_reverse|]. by apply IH.
Qed.
Lemma join_printable ws : Forall printable ws -> printable (mjoin (match ws with [] => [] | w :: ws => w :: ((fun w => 32 :: w) <$> ws) end)).
Proof.
  intros H. destruct H as [|w ws Hw Hws]; [constructor|]. cbn. apply Forall_app. split; [done|]. induction Hws as [|x ws Hx _ IH]; [constructor|].
  cbn. constructor; [lia|]. by apply Forall_app.
Qed.
Lemma plain_printable s : printable (plain s).
Proof.
  unfold plain. apply join_printable, words_from_all; [constructor|]. apply Forall_take, Forall_forall. intros c [_ Hc]%list_elem_of_In%List.filter_In.
  unfold is_graphic, between in Hc. lia.
Qed.

Lemma text_printable s : forallb (between 32 126) s = true -> printable s.
Proof. rewrite forallb_Forall. intros H. eapply Forall_impl; [exact H|]. intros c Hc. cbv beta in Hc. unfold between in Hc. lia. Qed.

Lemma find_map_Some {A B} (f : A -> option B) l y : find_map f l = Some y -> exists x, x ∈ l /\ f x = Some y.
Proof. induction l as [|x l IH]; cbn; [done|]. destruct (f x) eqn:E; [intros [= <-]; exists x; split; [by left|done]|]. intros (z & ? & ?)%IH. exists z. split; [by right|done]. Qed.

Section giving.
Context (sys : Sys) (show_gb : Z -> list Z) (P : Trace -> Event -> Prop).
Hypothesis HP : forall t ev, reading ev -> P t ev.
Abbreviation J := (justified P).

Lemma wp_describe disk name sectors (Q : list Z -> Trace -> Prop) (R : StickError -> Trace -> Prop) t : J t ->
  (forall what t', J t' -> t ⊆ t' -> ((forall n, printable (show_gb n)) -> printable what) -> Q what t') -> wp (describe sys show_gb disk name sectors) Q R t.
Proof.
  intros Ht HQ. unfold describe. cbv zeta. apply wp_bind, (wp_read_sys sys P HP); [done|]. intros a1 t1 H1 Hs1 _. apply wp_bind, (wp_read_sys sys P HP); [done|]. intros a2 t2 H2 Hs2 _.
  apply wp_bind, (wp_read_sys sys P HP); [done|]. intros a3 t3 H3 Hs3 _. apply wp_bind, (wp_read_sys sys P HP); [done|]. intros a4 t4 H4 Hs4 _.
  apply wp_bind, (wp_read_sys sys P HP); [done|]. intros a5 t5 H5 Hs5 _. apply wp_ret, HQ; [done|by do 4 (eapply sub_both; [|done])|]. intros Hg.
  unfold printable. rewrite !Forall_app. split_and!; try (apply Hg); try by apply text_printable.
  - set (ws := List.filter _ _). assert (Forall printable ws) as Hw.
    { apply Forall_forall. intros w [(x & -> & _)%list_elem_of_In%list_elem_of_fmap _]%list_elem_of_In%List.filter_In. apply plain_printable. }
    destruct ws as [|w ws']; [by apply text_printable|]. apply (join_printable (w :: ws')), Hw.
  - destruct (name_read a4); [|constructor]. apply Forall_app. split; [by apply text_printable|apply plain_printable].
  - destruct (name_read a5) as [u|]; cbn [mbind option_bind]; [|constructor]. destruct (find_map _ _) as [l|] eqn:Ef; [|constructor]. case_bool_decide; [constructor|].
    assert (printable l) as Hl.
    { apply find_map_Some in Ef as (x & _ & (y & _ & ->)%fmap_Some). apply plain_printable. }
    rewrite !Forall_app. split_and!; [by apply text_printable|done|by apply text_printable].
Qed.

Lemma wp_any_partition dev names (Q : bool -> Trace -> Prop) (R : StickError -> Trace -> Prop) t : J t ->
  (forall b t', J t' -> t ⊆ t' -> (b = false -> Forall (fun n => Did (Exists (partition_file (slash dev n))) false ∈ t') names) -> Q b t') ->
  wp (any_partition sys dev names) Q R t.
Proof.
  revert t. induction names as [|n names IH]; intros t Ht HQ; cbn [any_partition]; [apply wp_ret, HQ; auto; constructor|].
  apply wp_bind, (wp_look sys P HP); [done..|]. intros [|] H1; [apply wp_ret, HQ; auto; done|]. apply IH; [done|]. intros b t' Hj Hs Hb.
  apply HQ; [done|by eapply sub_both; [|exact Hs]; auto|]. intros E. constructor; [apply Hs; auto|auto].
Qed.

Lemma wp_partition_in mounts name (Q : Partition -> Trace -> Prop) t : J t ->
  (forall p t', J t' -> t ⊆ t' -> p_name p = name -> givable t' p -> mounted_node mounts name = false -> ((forall n, printable (show_gb n)) -> printable (p_what p)) -> Q p t') ->
  wp (partition_in sys show_gb mounts name) Q (fun _ => J) t.
Proof.
  intros Ht HQ. unfold partition_in. apply wp_bind, wp_reject_if; [done|]. intros Hn%negb_false_iff. apply wp_bind, (wp_look sys P HP); [done..|].
  intros there H1. apply wp_bind, wp_reject_if; [done|]. intros ->%negb_false_iff. apply wp_bind, (wp_disk_of sys P HP); [done|]. intros d t2 H2 Hs2 Hd.
  apply wp_bind, wp_require; [|done]. intros disk ->. apply wp_bind.
  eapply (wp_mono _ (fun b t3 => J t3 /\ t2 ⊆ t3 /\ (b = false -> disk = name -> exists names, Did (ReadDir (slash CLASS_BLOCK name)) names ∈ t3 /\
    Forall (fun n => Did (Exists (partition_file (slash (slash CLASS_BLOCK name) n))) false ∈ t3) (default [] names))) _ (fun _ => J)); [|done|].
  2: { case_bool_decide; [|apply wp_ret; split_and!; auto; done]. apply wp_bind, (wp_list_dir sys P HP); [done|]. intros names t3 H3 Hs3 Hl.
       apply wp_any_partition; [done|]. intros b t4 H4 Hs4 Hb. split_and!; [done|by eapply sub_both|]. intros E _. exists names. auto. }
  intros parts t3 (H3 & Hs3 & Hparts). apply wp_bind, wp_reject_if; [done|]. intros ->. specialize (Hparts eq_refl).
  apply wp_bind, (wp_look sys P HP); [done..|]. intros real H4. apply wp_bind, (wp_read_sys sys P HP); [done|]. intros card t5 H5 Hs5 Hcard.
  apply wp_bind, wp_reject_if; [done|]. intros Hrem. apply wp_bind, (wp_list_dir sys P HP); [done|]. intros h t6 H6 Hs6 Hh.
  apply wp_bind, wp_reject_if; [done|]. intros Hh0%negb_false_iff%bool_decide_eq_true. apply wp_bind, wp_reject_if; [done|]. intros Hmt.
  apply wp_bind, (wp_system_disks sys P HP); [done|]. intros own t7 H7 Hs7 Hown. apply wp_bind, wp_reject_if; [done|]. intros Hd7%bool_decide_eq_false.
  apply wp_bind, (wp_read_sys sys P HP); [done|]. intros size t8 H8 Hs8 _. apply wp_bind, wp_require; [|done]. intros sectors Hsz.
  apply wp_bind, wp_describe; [done|]. intros what t9 H9 Hs9 Hw. apply wp_ret.
  assert (t5 ⊆ t9) as S5 by (do 3 (eapply sub_both; [|done]); done). assert (t3 ⊆ t5) as S35 by (eapply sub_both; [apply sub_snoc|done]).
  assert (t3 ⊆ t9) as S3 by by eapply sub_both. assert (t2 ⊆ t9) as S2 by by eapply sub_both.
  assert (t ++ [Did (Exists (slash CLASS_BLOCK name)) true] ⊆ t9) as S1 by by eapply sub_both.
  apply HQ; [done|by eapply sub_both; [apply sub_snoc|]|done| |done|done]. split_and!; cbn [p_name p_sectors]; [done| |apply S1; auto| |].
  - apply bind_Some in Hsz as (x & _ & (n & Hp & Hn')%bind_Some). destruct (Z.ltb_spec 0 n); [|done]. by injection Hn' as <-.
  - exists h. split; [|done]. by apply Hs9, Hs8, Hs7.
  - exists disk. split; [|split; [|split]].
    + eapply disk_seen_mono; [exact S2|exact Hd].
    + eapply off_system_mono; [|by apply Hown]. eapply sub_both; [exact Hs8|exact Hs9].
    + apply andb_false_iff in Hrem as [Hr%negb_false_iff|Hr%negb_false_iff%bool_decide_eq_true].
      * left. destruct real as [r|]; [|done]. exists r. split; [|done]. apply S5, Hs5. auto.
      * right. exists card. split; [by apply S5|done].
    + intros E. destruct (Hparts E) as (names & Hl & Hf). exists names. split; [by apply S3|]. eapply Forall_impl; [exact Hf|]. intros n. by apply S3.
Qed.
End giving.

(** ** Taking back *)
Definition wipe (map : list Z) : Call (result (list Z) Z) := Run "dmsetup" [chars "wipe_table"; map] None.
Definition remove_later (map : list Z) : Call (result (list Z) Z) := Run "dmsetup" [chars "remove"; chars "--deferred"; map] None.
Definition wiped (t : Trace) (map : list Z) : Prop := (exists out, Did (wipe map) (Ok out) ∈ t) \/ unmapped t map.
(** Seen gone; or made to fail every read, then its cached pages dropped and its removal asked. *)
Definition taken (t : Trace) (map : list Z) : Prop := unmapped t map \/
  exists t1 t2 dev out out', t = t1 ++ t2 /\ Did (wipe map) (Ok out) ∈ t1 /\ Did (Flush dev) (Ok tt) ∈ t2 /\ Did (remove_later map) (Ok out') ∈ t2.
Definition eject_step (zone : list Z) (t : Trace) (ev : Event) : Prop :=
  let map := mapping_name zone in
  match ev with
  | @Did _ (Run prog args stdin) _ => prog = "dmsetup" /\ stdin = None /\
      (args = [chars "wipe_table"; map] \/ (args = [chars "remove"; chars "--deferred"; map] /\ wiped t map))
  | @Did _ (Flush dev) _ => exists a, Did (ReadText (dm_name dev)) a ∈ t /\ name_read a = Some map
  | @Did _ (RemoveFile p) _ => p = slash RUN_DIR zone /\ taken t map
  | _ => reading ev
  end.

Lemma taken_app t l map : taken t map -> taken (t ++ l) map.
Proof.
  intros [H|(t1 & t2 & dev & o & o' & -> & H1 & H2 & H3)]; [left; eapply unmapped_mono; [|done]; intros e He; apply elem_of_app; by left|].
  right. exists t1, (t2 ++ l), dev, o, o'. split_and!; [by rewrite <- app_assoc|done|apply elem_of_app; by left..].
Qed.

Section ejecting.
Context (sys : Sys) (zone : list Z) (P : Trace -> Event -> Prop).
Hypothesis HP : forall t ev, eject_step zone t ev -> P t ev.
Abbreviation J := (justified P).
Abbreviation map := (mapping_name zone).
Lemma HPr t ev : reading ev -> P t ev.
Proof. intros H. apply HP. destruct ev as [A c a]. destruct c; done. Qed.

Lemma wp_or_gone (m : TM StickError unit) (Q : unit -> Trace -> Prop) t :
  wp m Q (fun _ t' => J t' /\ t ⊆ t') t -> (forall t', J t' -> t ⊆ t' -> unmapped t' map -> Q tt t') -> wp (or_gone sys map m) Q (fun _ => J) t.
Proof.
  intros Hm HQ. unfold or_gone. apply wp_bind, wp_tried. eapply wp_mono; [..|exact Hm]; [intros [] t' H; by apply wp_ret|].
  intros e t' [Hj Hs]. cbv beta iota. apply wp_bind, (wp_dm_device sys P HPr); [done|]. intros [dm|] t2 H2 Hs2 Hd; [by apply wp_fail|]. apply wp_ret, HQ; [done|by eapply sub_both|done].
Qed.
Lemma wp_unmap dev (Q : unit -> Trace -> Prop) t : J t -> (exists a, Did (ReadText (dm_name dev)) a ∈ t /\ name_read a = Some map) ->
  (forall t', J t' -> t ⊆ t' -> taken t' map -> Q tt t') -> wp (clear_mapping sys map dev) Q (fun _ => J) t.
Proof.
  intros Ht (a & Ha & Hn) HQ.
  assert (forall t', t ⊆ t' -> forall x, P t' (Did (Flush dev) x)) as Hfl by (intros t' Hs x; apply HP; exists a; auto).
  unfold clear_mapping. apply wp_bind.
  eapply (wp_mono _ (fun _ t1 => J t1 /\ t ⊆ t1) _ (fun _ => J)); [|done|].
  2: { apply wp_tried. unfold flush_and_drop. apply (wp_called sys P); [done|by apply Hfl|auto..]. }
  intros _ t1 [H1 Hs1]. apply wp_bind.
  eapply (wp_mono _ (fun _ t2 => J t2 /\ t ⊆ t2 /\ wiped t2 map) _ (fun _ => J)); [|done|].
  2: { apply wp_or_gone; [|intros t2 H2 Hs2 Hg; split_and!; [done|by eapply sub_both|by right]]. unfold dmsetup.
       apply wp_bind, (wp_call sys P); [done|intros; apply HP; split_and!; auto|]. intros [out|code] H2; [|by apply wp_fail; auto].
       apply wp_ret. split_and!; [done|auto|]. left. exists out. apply elem_snoc. }
  intros _ t2 (H2 & Hs2 & Hw). apply wp_bind.
  eapply (wp_mono _ (fun _ t3 => J t3 /\ t ⊆ t3 /\ (unmapped t3 map \/ exists t1 t2 out, t3 = t1 ++ t2 /\ Did (wipe map) (Ok out) ∈ t1 /\ Did (Flush dev) (Ok tt) ∈ t2)) _ (fun _ => J)); [|done|].
  2: { apply wp_or_gone; [|intros t3 H3 Hs3 Hg; split_and!; [done|by eapply sub_both|by left]]. unfold flush_and_drop.
       apply (wp_called sys P); [done|by apply Hfl| |auto]. intros [] H3. split_and!; [done|auto|].
       destruct Hw as [[out Hw]|Hw]; [|left; by eapply unmapped_mono; [apply sub_snoc|]]. right. exists t2, [Did (Flush dev) (Ok tt)], out. split_and!; [done..|by left]. }
  intros _ t3 (H3 & Hs3 & Hf).
  assert (wiped t3 map) as Hw3.
  { destruct Hf as [Hf|(u1 & u2 & out & -> & Hu & _)]; [by right|]. left. exists out. apply elem_of_app. by left. }
  apply wp_or_gone; [|intros t4 H4 Hs4 Hg; apply HQ; [done|by eapply sub_both|by left]]. unfold dmsetup.
  apply wp_bind, (wp_call sys P); [done|intros; apply HP; split_and!; auto|]. intros [out|code] H4; [|by apply wp_fail; auto]. apply wp_ret, HQ; [done|auto|].
  destruct Hf as [Hf|(u1 & u2 & o & -> & Hu & Hd)]; [left; by eapply unmapped_mono; [apply sub_snoc|]|]. right.
  exists u1, (u2 ++ [Did (remove_later map) (Ok out)]), dev, o, out. split_and!; [by rewrite <- app_assoc|done|by apply elem_snoc_l|apply elem_snoc].
Qed.

Lemma wp_eject (Q : bool -> Trace -> Prop) t : J t ->
  (forall b t', J t' -> t ⊆ t' -> taken t' map -> Did (Exists (slash RUN_DIR zone)) b ∈ t' ->
    (b = true -> exists r, Did (RemoveFile (slash RUN_DIR zone)) r ∈ t' /\ (r = Ok tt \/ r = Err NotFound)) -> Q b t') ->
  wp (eject sys zone) Q (fun _ => J) t.
Proof.
  intros Ht HQ. unfold eject. apply wp_bind, (wp_look sys P HPr); [done..|]. intros held H1. apply wp_bind, (wp_dm_device sys P HPr); [done|].
  intros d t2 H2 Hs2 Hd. apply wp_bind.
  assert (Did (Exists (slash RUN_DIR zone)) held ∈ t2) as Hh by (apply Hs2; auto). assert (t ⊆ t2) as Hs by (eapply sub_both; [apply sub_snoc|exact Hs2]).
  eapply (wp_mono _ (fun _ t3 => J t3 /\ t2 ⊆ t3 /\ taken t3 map) _ (fun _ => J)); [|done|].
  2: { destruct d as [dev|]; [apply wp_unmap; auto|]. apply wp_ret. split_and!; auto. by left. }
  intros _ t3 (H3 & Hs3 & Htk). apply wp_bind, wp_when.
  2: { intros ->. apply wp_ret, HQ; [done|by eapply sub_both|done|by apply Hs3|done]. }
  intros ->. apply wp_bind, (wp_call sys P); [done|intros; apply HP; by split|]. intros r H4.
  assert (r = Ok tt \/ r = Err NotFound -> wp (mret true : TM StickError bool) Q (fun _ => J) (t3 ++ [Did (RemoveFile (slash RUN_DIR zone)) r])) as Hok.
  { intros Hr. apply wp_ret, HQ; [done|by eapply sub_both; [|apply sub_trans]; eauto using sub_both|by apply taken_app|by apply elem_snoc_l, Hs3|]. intros _. exists r. auto. }
  destruct r as [[]|[|e]]; [apply wp_ret; auto..|by apply wp_fail].
Qed.
End ejecting.

(** Whatever dmsetup and the kernel answer, taking a stick back ends; its mapping is
    removed only once it fails every read or is seen gone, and the zone's record only after the
    mapping is seen gone, or made to fail, then flushed of its cached pages, and its removal asked.
    A success has all of that, and no record left. *)
Theorem stick_taken_back (sys : Sys) (zone : list Z) :
  let '(r, t) := eject sys zone [] in
  justified (eject_step zone) t /\
  match r with
  | Panic => False
  | Fail _ => True
  | Done held => taken t (mapping_name zone) /\ Did (Exists (slash RUN_DIR zone)) held ∈ t /\
      (held = true -> exists r, Did (RemoveFile (slash RUN_DIR zone)) r ∈ t /\ (r = Ok tt \/ r = Err NotFound))
  end.
Proof.
  pose proof (wp_eject sys zone (eject_step zone) (fun _ _ H => H) (fun held t => justified (eject_step zone) t /\ taken t (mapping_name zone) /\
    Did (Exists (slash RUN_DIR zone)) held ∈ t /\ (held = true -> exists r, Did (RemoveFile (slash RUN_DIR zone)) r ∈ t /\ (r = Ok tt \/ r = Err NotFound))) []) as Hw.
  specialize (Hw (justified_nil _) ltac:(intros; split_and!; done)). unfold wp in Hw. destruct (eject sys zone []) as [[]]; done.
Qed.

(** ** Opening for the broker *)
Definition open_step (zone : list Z) (t : Trace) (ev : Event) : Prop :=
  match ev with
  | @Did _ (OpenDev dev writable) _ => exists text g, Did (ReadText (slash RUN_DIR zone)) (Ok text) ∈ t /\ parse text = Some g /\ writable = g_writable g
  | @Did _ (DevOf _) _ => True
  | _ => reading ev
  end.
(** The stick a zone's broker hands over is opened for writing only when the record says so, and is,
    as seen after it was opened, the zone's own mapping. *)
Theorem stick_opened (sys : Sys) (zone : list Z) :
  let '(r, t) := open_for sys zone [] in
  justified (open_step zone) t /\
  match r with
  | Panic => False
  | Fail _ => True
  | Done (dev, g) => exists t1 rdev a, Did (OpenDev dev (g_writable g)) (Ok tt) ∈ t1 /\ Did (DevOf dev) (Ok rdev) ∈ t1 /\ name_read a = Some (mapping_name zone) /\
      t = t1 ++ [Did (ReadText (SYS ++ chars "/dev/block/" ++ Registry.show_num rdev.1 ++ [58] ++ Registry.show_num rdev.2 ++ chars "/dm/name")) a]
  end.
Proof.
  set (P := open_step zone).
  assert (forall t ev, reading ev -> P t ev) as HP by (intros t [A c a]; by destruct c).
  assert (wp (open_for sys zone) (fun x t => justified P t /\ exists t1 rdev a, Did (OpenDev x.1 (g_writable x.2)) (Ok tt) ∈ t1 /\ Did (DevOf x.1) (Ok rdev) ∈ t1 /\ name_read a = Some (mapping_name zone) /\
      t = t1 ++ [Did (ReadText (SYS ++ chars "/dev/block/" ++ Registry.show_num rdev.1 ++ [58] ++ Registry.show_num rdev.2 ++ chars "/dm/name")) a])
    (fun _ t => justified P t) []) as Hw.
  2: { unfold wp in Hw. destruct (open_for _ _ _) as [[[]| |] t]; [done..|]. done. }
  unfold open_for. apply wp_bind. unfold grant_of. apply wp_bind, (wp_look sys P HP); [done|apply justified_nil|]. intros text H1. apply wp_ret, wp_bind, wp_require; [|done].
  intros g Hg. apply wp_bind, (wp_look sys P HP); [done..|]. intros there H2. apply wp_bind, wp_reject_if; [done|]. intros _.
  apply wp_bind, (wp_dm_device sys P HP); [done|]. intros d t3 H3 Hs3 _. apply wp_bind, wp_require; [|done]. intros dev _.
  apply wp_bind, (wp_called sys P); [done| | |done].
  { intros a. destruct text as [text|]; [|done]. exists text, g. split_and!; [|done..]. apply Hs3. cbn. by left. }
  intros [] H4. apply wp_bind, (wp_called sys P); [done..| |done]. intros rdev H5. apply wp_bind. unfold mapping_at, read_trim. apply wp_bind, wp_bind, (wp_look sys P HP); [done..|].
  intros a H6. apply wp_ret, wp_ret, wp_bind, wp_reject_if; [done|]. intros Hn%negb_false_iff%bool_decide_eq_true. apply wp_ret. split; [done|].
  eexists _, rdev, a. split_and!; [| |exact Hn|reflexivity]; [by apply elem_snoc_l, elem_snoc|apply elem_snoc].
Qed.

(** ** Granting *)
Section granting.
Context (sys : Sys) (show_gb : Z -> list Z) (zone : Zone) (name : list Z) (writable : bool).
Abbreviation zn := (chars (z_name zone)).
Definition made (ev : Event) : bool :=
  match ev with
  | @Did _ c a =>
    match c in Call A return A -> bool with
    | Run _ args _ => fun r => bool_decide (head args = Some (chars "create")) && match r with Ok _ => true | Err _ => false end
    | _ => fun _ => false
    end a
  end.
(** The zone may have sticks and has none; the partition may be given; read-only unless asked. *)
Definition create_ok (t : Trace) (args : list (list Z)) : Prop :=
  z_removable zone = true /\ unmapped t (mapping_name zn) /\
  (exists a, Did (ReadText (slash RUN_DIR zn)) a ∈ t /\ forall s, a = Ok s -> parse s = None) /\
  (exists a, Did (ReadText MOUNTS) a ∈ t /\ mounted_node (match a with Ok m => m | Err _ => [] end) name = false) /\
  exists p tbl, p_name p = name /\ givable t p /\ table p = Ok tbl /\ args = chars "create" :: create_args (mapping_name zn) tbl writable.
Definition grant_step (t : Trace) (ev : Event) : Prop :=
  match ev with
  | @Did _ (Run prog args stdin) _ => prog = "dmsetup" /\ stdin = None /\ (head args = Some (chars "create") -> create_ok t args)
  | @Did _ (RemoveFile p) _ => exists z, p = slash RUN_DIR z
  | @Did _ (MkdirAll p) _ => p = RUN_DIR
  | @Did _ (WriteText p text) _ => p = slash RUN_DIR (46 :: zn) /\ existsb made t = true /\ exists what, text = render (mkGrant writable name what)
  | @Did _ (Rename from to) _ => from = slash RUN_DIR (46 :: zn) /\ to = slash RUN_DIR zn /\ existsb made t = true
  | @Did _ (Flush _) _ => True
  | _ => reading ev
  end.
Definition early_step (t : Trace) (ev : Event) : Prop := made ev = false /\ grant_step t ev.
Lemma early_reading t ev : reading ev -> early_step t ev.
Proof. destruct ev as [A c a]. by destruct c. Qed.
Lemma early_eject z t ev : eject_step z t ev -> early_step t ev.
Proof.
  destruct ev as [A c a]. destruct c; cbn; try done.
  - intros (-> & -> & [->|[-> _]]); split_and!; try done; by vm_compute.
  - intros [-> _]. split; [done|by exists z].
Qed.
Lemma early_unmade t : justified early_step t -> existsb made t = false.
Proof.
  intros Hj. apply not_true_iff_false. intros (ev & Hin & Hm)%existsb_exists. apply List.in_split in Hin as (l1 & l2 & ->). destruct (Hj l1 ev l2 eq_refl). congruence.
Qed.

Lemma wp_reap (Q : unit -> Trace -> Prop) (R : StickError -> Trace -> Prop) t : justified early_step t -> (forall t', justified early_step t' -> Q tt t') -> wp (reap_pulled sys) Q R t.
Proof.
  intros Ht HQ. unfold reap_pulled. apply wp_bind, (wp_list_dir sys early_step early_reading); [done|]. intros zs t1 H1 _ _. revert t1 H1. induction (default [] zs) as [|z l IH]; intros t1 H1; cbn [reap_among]; [by apply wp_ret, HQ|].
  apply wp_bind. unfold grant_of. apply wp_bind, (wp_look sys early_step early_reading); [done..|]. intros a H2. apply wp_ret, wp_bind.
  destruct (match a with Ok t => parse t | Err _ => None end) as [g|]; [|by apply wp_ret, IH]. apply wp_bind, (wp_look sys early_step early_reading); [done..|]. intros there H3.
  apply wp_when; [|by intros; apply IH]. intros _. apply wp_bind, wp_tried. eapply wp_mono; [..|apply (wp_eject sys z early_step (early_eject z)); [exact H3|]].
  - intros b t4 H4. apply wp_ret. exact (IH t4 H4).
  - intros e t4 H4. apply wp_ret. exact (IH t4 H4).
  - intros b t4 H4 _ _ _ _. exact H4.
Qed.

(** What a grant that fails leaves: nothing mapped by it, or the removal of what it mapped asked. *)
Definition withdrawn (t : Trace) : Prop :=
  existsb made t = false \/ exists t1 r, t = t1 ++ [Did (Run "dmsetup" [chars "remove"; mapping_name zn] None) r].
Definition recorded (g : Grant) (t : Trace) : Prop :=
  g_writable g = writable /\ g_partition g = name /\ Did (WriteText (slash RUN_DIR (46 :: zn)) (render g)) (Ok tt) ∈ t /\
  exists t1, t = t1 ++ [Did (Rename (slash RUN_DIR (46 :: zn)) (slash RUN_DIR zn)) (Ok tt)].

Lemma made_app t l : existsb made t = true -> existsb made (t ++ l) = true.
Proof. intros H. by rewrite existsb_app, H. Qed.
Lemma early_weaken t : justified early_step t -> justified grant_step t.
Proof. apply justified_weaken. by intros b e [_ ?]. Qed.

Lemma wp_write_record what t : justified grant_step t -> existsb made t = true ->
  wp (write_record sys zn (mkGrant writable name what)) (fun _ t' => justified grant_step t' /\ recorded (mkGrant writable name what) t')
    (fun _ t' => justified grant_step t') t.
Proof.
  intros Ht Hm. unfold write_record. apply wp_bind, (wp_called sys grant_step); [done..| |done]. intros [] H1. apply wp_bind, (wp_called sys grant_step); [done| | |done].
  { intros a. split_and!; [done|by apply made_app|eauto]. }
  intros [] H2. apply (wp_called sys grant_step); [done|by intros; split_and!; [..|do 2 apply made_app]| |done]. intros [] H3. split; [done|].
  split_and!; [done..|apply elem_snoc_l, elem_snoc|eauto].
Qed.

Lemma wp_grant : wp (grant sys show_gb zone name writable)
  (fun g t => justified grant_step t /\ recorded g t /\ ((forall n, printable (show_gb n)) -> parse (render g) = Some g))
  (fun _ t => justified grant_step t /\ withdrawn t) [].
Proof.
  assert (forall (e : StickError) t, justified early_step t -> justified grant_step t /\ withdrawn t) as Hearly.
  { intros _ t Hj. split; [by apply early_weaken|]. left. by apply early_unmade. }
  unfold grant. apply wp_bind, wp_reject_if; [intros _; apply (Hearly NoGrant), justified_nil|]. intros Hrm%negb_false_iff. apply wp_bind, wp_reap; [apply justified_nil|]. intros t1 H1.
  apply wp_bind. unfold grant_of. apply wp_bind, (wp_look sys early_step early_reading); [done..|]. intros rec H2. apply wp_ret, wp_bind, wp_reject_if; [by intros _; apply (Hearly NoGrant)|].
  intros Hrec. apply wp_bind, (wp_dm_device sys early_step early_reading); [done|]. intros d t3 H3 Hs3 Hd. apply wp_bind, wp_reject_if; [by intros _; apply (Hearly NoGrant)|].
  intros Hdn. destruct d; [done|]. clear Hdn. unfold read_mounts. apply wp_bind, wp_bind, (wp_look sys early_step early_reading); [done..|]. intros mnt H4. apply wp_ret, wp_bind.
  eapply wp_mono; [..|apply (wp_partition_in sys show_gb early_step early_reading _ _ (fun p t' => justified early_step t' /\ t3 ++ [Did (ReadText MOUNTS) mnt] ⊆ t' /\
    p_name p = name /\ givable t' p /\ mounted_node (match mnt with Ok m => m | Err _ => [] end) name = false /\ ((forall n, printable (show_gb n)) -> printable (p_what p)))); [exact H4|by intros; split_and!]].
  2: { intros e t' Hj. by apply (Hearly e). }
  intros p t5 (H5 & Hs5 & Hpn & Hg & Hmn & Hwh). apply wp_bind, wp_lift; [|by intros; apply (Hearly NoGrant)]. intros tbl Htbl.
  assert (create_ok t5 (chars "create" :: create_args (mapping_name zn) tbl writable)) as Hok.
  { split_and!; [done| |exists rec; split|exists mnt; split; [apply Hs5, elem_snoc|done]|by exists p, tbl].
    - eapply unmapped_mono; [|exact Hd]. eapply sub_both; [apply sub_snoc|exact Hs5].
    - apply Hs5, elem_snoc_l, Hs3, elem_snoc.
    - intros s ->. by destruct (parse s). }
  apply wp_bind. unfold dmsetup. apply wp_bind, (wp_call sys grant_step); [by apply early_weaken|by intros; split_and!|]. intros [out|code] H6.
  2: { apply wp_fail. split; [done|]. left. by rewrite existsb_app, (early_unmade t5 H5). }
  apply wp_ret. assert (existsb made (t5 ++ [Did (Run "dmsetup" (chars "create" :: create_args (mapping_name zn) tbl writable) None) (Ok out)]) = true) as Hmade.
  { rewrite existsb_app. apply orb_true_iff. right. by vm_compute. }
  cbv zeta. rewrite Hpn. apply wp_bind, wp_tried. eapply wp_mono; [..|by apply wp_write_record].
  - intros [] t7 [H7 Hr]. apply wp_ret. split_and!; [done..|]. intros Hgb. apply record_ok. split; [rewrite <- Hpn; apply Hg|by apply Hwh].
  - intros e t7 H7. cbv beta iota. apply wp_bind, wp_tried. apply wp_bind, (wp_call sys grant_step); [done|intros; split_and!; [done..|by vm_compute]|]. intros [o|c] H8; [apply wp_ret|apply wp_fail]; apply wp_fail; (split; [done|right; eauto]).
Qed.
End granting.

