(* ===== verification/Suspend.v ===== *)
(** * Suspend with the keys dropped: src/compartments/kryptikd/src/suspend.rs

    Zones frozen, volumes and the state partition suspended with their keys wiped, the machine put
    to sleep, and the way back; the battery's rule while it is sealed; and [kryptikd suspend]
    (main.rs). sysfs, cgroupfs, cryptsetup, the registry and the clock answer through [Tools.Sys]. *)
From S2P Require Import Prelude Bytes Text Registry Tools Volume.
Open Scope string_scope.
Open Scope list_scope.
Open Scope Z_scope.

Module Suspend.
Import Tools.

Definition STATE_MAPPER : list Z := Eval vm_compute in chars "kryptik-state".
Definition UPDATE_LOCK : path := Eval vm_compute in chars "/run/kryptik/update.lock".
Definition SYNC_ON_SUSPEND : path := Eval vm_compute in chars "/sys/power/sync_on_suspend".
Definition DROP_CACHES : path := Eval vm_compute in chars "/proc/sys/vm/drop_caches".
Definition LEFT_WAITING : path := Eval vm_compute in chars "/run/kryptik-launch/left-waiting".
Definition POWER_STATE : path := Eval vm_compute in chars "/sys/power/state".
Definition SYS : path := Eval vm_compute in chars "/sys".
Definition SYS_BLOCK : path := Eval vm_compute in chars "/sys/block".
(** In milliseconds, as the clock of [Now]. *)
Definition FREEZE_WITHIN : Z := 10000.
Definition ROUND : Z := 20.
Definition RESUME_WITHIN : Z := 60.

Inductive SuspendError :=
| NoCgroup (zone : list Z) | FreezeFault (zone : list Z) | NotFrozen (zone : list Z) | Updating | SyncFault
| VolumeFault (zone : list Z) | StateFault | SleepFault.
Inductive ResumeError := Wrong | StateFirst | NotWaiting | NoCryptsetup | NoAnswerYet | ResumeFault (code : Z).

Definition trim_end (s : list Z) : list Z := reverse (trim_start (reverse s)).
Definition freeze_file (leaf : path) : path := leaf ++ chars "/cgroup.freeze".
Definition events_file (leaf : path) : path := leaf ++ chars "/cgroup.events".
Definition is_frozen (events : list Z) : bool := existsb (fun l => bool_decide (l = chars "frozen 1")) (lines events).

Section calls.
Context (sys : Sys) {E : Type}.
Abbreviation SM := (TM E).

(** ** What is suspended *)
Fixpoint suspended_among (name : list Z) (devs : list (list Z)) : SM (option bool) :=
  match devs with
  | [] => mret None
  | dev :: devs =>
    let dm := SYS_BLOCK ++ [47] ++ dev ++ chars "/dm" in
    n ← call sys (ReadText (dm ++ chars "/name"));
    match n with
    | Err _ => suspended_among name devs
    | Ok n =>
      if bool_decide (trim_end n = name) then
        s ← call sys (ReadText (dm ++ chars "/suspended"));
        mret (Some (match s with Ok s => bool_decide (trim s = [49]) | Err _ => false end))
      else suspended_among name devs
    end
  end.
Definition suspended_in (name : list Z) : SM (option bool) :=
  devs ← call sys (ReadDir SYS_BLOCK);
  match devs with None => mret None | Some devs => suspended_among name devs end.
Definition suspended (name : list Z) : SM bool := s ← suspended_in name; mret (bool_decide (s = Some true)).
Definition state_suspended : SM bool := suspended STATE_MAPPER.
Fixpoint waiting_in (mapped : list (list Z)) : SM (list (list Z)) :=
  match mapped with
  | [] => mret []
  | z :: mapped =>
    s ← suspended (Volume.mapper_name z);
    rest ← waiting_in mapped;
    mret (if s : bool then z :: rest else rest)
  end.
(** [volume::mappings]. *)
Definition mappings : SM (list (list Z)) :=
  names ← call sys (ReadDir (chars "/dev/mapper")); mret (Volume.zones_mapped (default [] names)).
Definition waiting : SM (list (list Z)) := mapped ← mappings; waiting_in mapped.

Definition sleep_refused : SM bool :=
  bound ← call sys (ReadDir (SYS ++ chars "/bus/virtio/drivers/virtio_gpu"));
  mret (match bound with
        | None => false
        | Some names => existsb (fun n => bool_decide (is_Some (strip_prefix (chars "virtio") n))) names
        end).

(** ** Frozen *)
Definition leaf (zone : list Z) : SM (option path) :=
  s ← call sys (StateOf zone);
  mret (match s with
        | Ok (Registry.Running _ _ (Some c) _) => if Registry.under c Registry.KRYPTIK_ROOT then Some c else None
        | _ => None
        end).
Definition set_freeze (leaf : path) (on : bool) : SM (result unit Fault) :=
  call sys (WriteText (freeze_file leaf) (if on then [49] else [48])).
Definition held (leaf : path) : SM bool :=
  s ← call sys (ReadText (freeze_file leaf)); mret (match s with Ok s => bool_decide (trim s = [49]) | Err _ => false end).
Definition frozen (leaf : path) : SM bool :=
  s ← call sys (ReadText (events_file leaf)); mret (match s with Ok s => is_frozen s | Err _ => false end).
Fixpoint undo (done : list (list Z * path)) : SM unit :=
  match done with
  | [] => mret tt
  | (_, l) :: done => set_freeze l false;; undo done
  end.
Definition is_running (s : result Registry.State Registry.RegistryError) : bool :=
  match s with Ok (Registry.Running _ _ _ _) => true | _ => false end.

(** The first zone asked to freeze that is there and not frozen. *)
Fixpoint unfrozen (done : list (list Z * path)) : SM (option (list Z)) :=
  match done with
  | [] => mret None
  | (z, l) :: done =>
    there ← call sys (Exists l);
    if there : bool then
      f ← frozen l;
      if f : bool then unfrozen done else mret (Some z)
    else unfrozen done
  end.

(** Thawed but where the volume waits for its passphrase. *)
Fixpoint thaw_among (waiting zones : list (list Z)) : SM (list (list Z)) :=
  match zones with
  | [] => mret []
  | zone :: zones =>
    here ← if bool_decide (zone ∈ waiting) then mret []
           else
             l ← leaf zone;
             match l with
             | None => mret []
             | Some l =>
               h ← held l;
               if h : bool then
                 r ← set_freeze l false;
                 mret (match r with Ok _ => [zone] | Err _ => [] end)
               else mret []
             end;
    rest ← thaw_among waiting zones;
    mret (here ++ rest)
  end.
Definition thaw : SM (list (list Z)) := w ← waiting; zones ← call sys Names; thaw_among w zones.

Definition locked_out (p : path) : SM bool :=
  f ← call sys (OpenFile p);
  match f with
  | Err _ => mret false
  | Ok _ => got ← call sys (FlockShared p); mret (negb got)
  end.
(** The daemon's count, [n + 1], on 64 bits. *)
Definition count_left_waiting (p : path) : SM unit :=
  s ← call sys (ReadText p);
  let n := default 0 (match s with Ok s => parse_u64 (trim s) | Err _ => None end) in
  if U64_MAX <? n + 1 then panic
  else ignored sys (WriteWhole p (encode_chars (Registry.show_num (n + 1) ++ [10])) 420).
End calls.

Section seal.
Context (sys : Sys).
Abbreviation SM := (TM SuspendError).

Fixpoint freeze_zones (zones : list (list Z)) (done : list (list Z * path)) : SM (list (list Z * path)) :=
  match zones with
  | [] => mret done
  | zone :: zones =>
    s ← call sys (StateOf zone);
    if negb (is_running s) then freeze_zones zones done
    else
      l ← leaf sys zone;
      match l with
      | None => undo sys done;; fail (NoCgroup zone)
      | Some l =>
        r ← set_freeze sys l true;
        match r with
        | Ok _ => freeze_zones zones (done ++ [(zone, l)])
        | Err NotFound => freeze_zones zones done
        | Err _ => undo sys done;; fail (FreezeFault zone)
        end
      end
  end.
(** Each round sleeps 20 ms, so the clock is at least that far on; [i] counts them. *)
Fixpoint freeze_wait (fuel : nat) (i start : Z) (done : list (list Z * path)) : SM unit :=
  match fuel with
  | O => panic
  | S fuel =>
    u ← unfrozen sys done;
    match u with
    | None => mret tt
    | Some zone =>
      now ← call sys Now;
      if FREEZE_WITHIN <=? Z.max (now - start) (ROUND * i) then undo sys done;; fail (NotFrozen zone)
      else call sys (Sleep ROUND);; freeze_wait fuel (i + 1) start done
    end
  end.
Definition FREEZE_ROUNDS : nat := 501.
Definition freeze_all : SM (list (list Z)) :=
  zones ← call sys Names;
  done ← freeze_zones zones [];
  start ← call sys Now;
  freeze_wait FREEZE_ROUNDS 0 start done;;
  mret done.*1.

(** [volume::suspend_mapping]. *)
Definition suspend_mapping (mapper : list Z) : SM bool :=
  r ← call sys (Run "cryptsetup" (Volume.lits ["luksSuspend"] ++ [mapper]) None);
  mret (match r with Ok _ => true | Err _ => false end).
Definition give_way (wiped : bool) (e : SuspendError) : SM unit :=
  thaw sys;;
  when wiped (count_left_waiting sys LEFT_WAITING);;
  fail e.
Fixpoint suspend_volumes (zones : list (list Z)) (wiped : bool) : SM bool :=
  match zones with
  | [] => mret wiped
  | zone :: zones =>
    s ← suspended sys (Volume.mapper_name zone);
    if s : bool then suspend_volumes zones wiped
    else
      ok ← suspend_mapping (Volume.mapper_name zone);
      if ok : bool then suspend_volumes zones true
      else give_way wiped (VolumeFault zone);; mret wiped
  end.
Definition seal : SM (list (list Z)) :=
  locked ← locked_out sys UPDATE_LOCK;
  reject_if locked Updating;;
  zones ← freeze_all;
  call sys Sync;;
  ignored sys (WriteText DROP_CACHES [51]);;
  r ← call sys (WriteText SYNC_ON_SUSPEND [48]);
  match r with Ok _ => mret tt | Err _ => thaw sys;; fail SyncFault end;;
  mapped ← mappings sys;
  wiped ← suspend_volumes mapped false;
  ok ← suspend_mapping STATE_MAPPER;
  if ok : bool then mret zones else give_way wiped StateFault;; mret zones.

Definition sleep : SM unit := called sys (WriteText POWER_STATE (chars "mem")) SleepFault.

(** [kryptikd suspend], run by root: whether it succeeded, and what it says. *)
Inductive Said := StaysAwake | SuspendedAlready | Sealed (zones : list (list Z)) | NotSealed (e : SuspendError) | Slept | DidNotSleep.
Definition put_to_sleep : SM Said :=
  r ← tried sleep; mret (match r with Ok _ => Slept | Err _ => DidNotSleep end).
Definition cmd_suspend (awake : bool) : SM Said :=
  refused ← if awake then mret false else sleep_refused sys;
  if refused : bool then mret StaysAwake
  else
    s ← state_suspended sys;
    if s : bool then if awake then mret SuspendedAlready else put_to_sleep
    else
      r ← tried seal;
      match r with
      | Err e => mret (NotSealed e)
      | Ok zones => if awake then mret (Sealed zones) else put_to_sleep
      end.
End seal.

(** ** Resumed *)
Section resume.
Context (sys : Sys).
Abbreviation RM := (TM ResumeError).

Definition resume_state (pass : bytes) : RM (list (list Z)) :=
  r ← call sys (RunFor RESUME_WITHIN "cryptsetup" (Volume.lits ["luksResume"; "--key-file"; "-"] ++ [STATE_MAPPER]) pass);
  match r with
  | NotRun => fail NoCryptsetup
  | NoAnswer => fail NoAnswerYet
  | WaitFault => fail (ResumeFault (-1))
  | Exited code =>
    if bool_decide (code = Some 0) then
      ignored sys (WriteText SYNC_ON_SUSPEND [49]);;
      thaw sys
    else if bool_decide (code = Some 2) then fail Wrong
    else fail (ResumeFault (default (-1) code))
  end.
Definition thaw_one (zone : list Z) : RM unit :=
  l ← leaf sys zone;
  match l with
  | None => mret tt
  | Some l => h ← held sys l; when h (set_freeze sys l false;; mret tt)
  end.
Definition resume_zone (zone : list Z) (pass : bytes) : RM unit :=
  s ← state_suspended sys;
  reject_if s StateFirst;;
  w ← waiting sys;
  reject_if (negb (bool_decide (zone ∈ w))) NotWaiting;;
  r ← call sys (Run "cryptsetup" (Volume.lits ["luksResume"; "--key-file"; "-"] ++ [Volume.mapper_name zone]) (Some pass));
  match r with
  | Ok _ => mret tt
  | Err code => if code =? 2 then fail Wrong else fail (ResumeFault code)
  end;;
  thaw_one zone.
Definition give_up_zone (zone : list Z) : RM unit :=
  r ← call sys (Run "dmsetup" (Volume.lits ["wipe_table"] ++ [Volume.mapper_name zone]) None);
  match r with Ok _ => mret tt | Err code => fail (ResumeFault code) end;;
  l ← leaf sys zone;
  match l with
  | None => mret tt
  | Some l =>
    h ← held sys l;
    when h (r ← set_freeze sys l false; match r with Ok _ => mret tt | Err _ => fail (ResumeFault 0) end)
  end.
End resume.

(** ** The battery *)
Definition CRITICAL : Z := 3.
Section battery.
Context (attr : list Z -> string -> option (list Z)).

Definition energy (bat : list Z) (k : string) : option Z :=
  now ← attr bat (k +:+ "_now"); now ← parse_u64 now;
  full ← attr bat (k +:+ "_full"); full ← parse_u64 full;
  if 0 <? full then Some (Z.min (Z.min (now * 100) U64_MAX / full) 100) else None.
Definition percent (bat : list Z) : option Z :=
  match attr bat "capacity" with
  | Some c => if negb (bool_decide (c = [])) && forallb is_digit c then parse_u64 c
              else find_map (energy bat) ["energy"; "charge"]
  | None => find_map (energy bat) ["energy"; "charge"]
  end.
Definition is_attr (d : list Z) (k v : string) : bool := bool_decide (attr d k = Some (chars v)).
(** [devs]: the power supplies that have a type. *)
Definition mains (devs : list (list Z)) : bool := existsb (fun d => (is_attr d "type" "Mains" || is_attr d "type" "USB") && is_attr d "online" "1") devs.
Definition batteries (devs : list (list Z)) : list (list Z) :=
  List.filter (fun d => is_attr d "type" "Battery" && negb (is_attr d "scope" "Device")
    && (bool_decide (attr d "present" = None) || is_attr d "present" "1")) devs.
Definition max_of (l : list Z) : option Z := match l with [] => None | x :: l => Some (fold_left Z.max l x) end.
Definition draining (devs : list (list Z)) : bool :=
  let bats := batteries devs in
  existsb (fun d => is_attr d "status" "Discharging") bats
  || (negb (existsb (fun d => is_attr d "status" "Charging" || is_attr d "status" "Full" || is_attr d "status" "Not charging") bats) && negb (mains devs)).
Definition critical_in (supplies : option (list (list Z))) : bool :=
  match supplies with
  | None => false
  | Some all =>
    let devs := List.filter (fun d => negb (bool_decide (attr d "type" = None))) all in
    match max_of (omap percent (batteries devs)) with
    | None => false
    | Some charge => draining devs && (charge <=? CRITICAL)
    end
  end.
End battery.
(** [None]: the count overflows 32 bits. *)
Definition sealed_look (low : Z) (critical : bool) : option (Z * bool) :=
  if critical && (U32_MAX <? low + 1) then None
  else let low := if critical then low + 1 else 0 in Some (low, 2 <=? low).
End Suspend.
