(* ===== verification/SuspendClaims.v ===== *)
(** * What a suspend promises

    The machine sleeps only with every volume's key dropped, the state partition's last, and every
    zone frozen; zones whose volume waits for its passphrase stay frozen. *)
From S2P Require Import Prelude Bytes Text Registry Tools Volume Suspend.
Open Scope string_scope.
Open Scope list_scope.
Open Scope Z_scope.
Import Tools Suspend.

(** ** What was seen and done *)
Definition suspend_args (mapper : list Z) : list (list Z) := Volume.lits ["luksSuspend"] ++ [mapper].
Definition drop_key (mapper : list Z) : Call (result (list Z) Z) := Run "cryptsetup" (suspend_args mapper) None.
Definition dm_file (dev : list Z) (f : string) : path := (SYS_BLOCK ++ [47] ++ dev ++ chars "/dm") ++ chars f.
Definition seen_suspended (t : Trace) (mapper : list Z) : Prop := exists dev n s,
  Did (ReadText (dm_file dev "/name")) (Ok n) ∈ t /\ trim_end n = mapper /\ Did (ReadText (dm_file dev "/suspended")) (Ok s) ∈ t /\ trim s = [49].
Definition key_gone (t : Trace) (mapper : list Z) : Prop := (exists out, Did (drop_key mapper) (Ok out) ∈ t) \/ seen_suspended t mapper.
(** Every zone volume mapped. *)
Definition volumes_down (t : Trace) : Prop := exists names, Did (ReadDir (chars "/dev/mapper")) names ∈ t /\
  Forall (fun z => key_gone t (Volume.mapper_name z)) (Volume.zones_mapped (default [] names)).
(** Asked to freeze, and seen frozen or gone since. *)
Definition still (t : Trace) (l : path) : Prop := Did (WriteText (freeze_file l) [49]) (Ok tt) ∈ t /\
  (Did (Exists l) false ∈ t \/ exists s, Did (ReadText (events_file l)) (Ok s) ∈ t /\ is_frozen s = true).
(** The leaf the registry gives a running zone, in kryptikd's own tree. *)
Definition leaf_of (t : Trace) (z : list Z) (l : path) : Prop := Registry.under l Registry.KRYPTIK_ROOT = true /\
  exists x y w, Did (StateOf z) (Ok (Registry.Running x y (Some l) w)) ∈ t.
Definition zone_still (t : Trace) (z : list Z) : Prop :=
  (exists s, Did (StateOf z) s ∈ t /\ is_running s = false) \/
  (exists l, leaf_of t z l /\ (Did (WriteText (freeze_file l) [49]) (Err NotFound) ∈ t \/ still t l)).
Definition zones_still (t : Trace) : Prop := exists zones, Did Names zones ∈ t /\ Forall (zone_still t) zones.
(** Before any key goes. *)
Definition quiet (t : Trace) : Prop := zones_still t /\ Did Sync tt ∈ t /\ Did (WriteText SYNC_ON_SUSPEND [48]) (Ok tt) ∈ t.

Definition suspend_step (t : Trace) (ev : Event) : Prop :=
  match ev with
  | @Did _ (Run prog args stdin) _ => prog = "cryptsetup" /\ stdin = None /\ quiet t /\
      ((args = suspend_args STATE_MAPPER /\ volumes_down t) \/ (exists z, args = suspend_args (Volume.mapper_name z)))
  | @Did _ (WriteText p text) _ =>
      (p = POWER_STATE /\ (seen_suspended t STATE_MAPPER \/ (quiet t /\ volumes_down t /\ exists out, Did (drop_key STATE_MAPPER) (Ok out) ∈ t))) \/
      (p = DROP_CACHES) \/ (p = SYNC_ON_SUSPEND /\ text = [48]) \/
      (exists l, p = freeze_file l /\ Registry.under l Registry.KRYPTIK_ROOT = true)
  | @Did _ (WriteWhole p _ _) _ => p = LEFT_WAITING
  | @Did _ (Exists _) _ | @Did _ (ReadDir _) _ | @Did _ (ReadText _) _ | @Did _ Names _ | @Did _ (StateOf _) _ | @Did _ Now _
  | @Did _ (Sleep _) _ | @Did _ Sync _ | @Did _ (OpenFile _) _ | @Did _ (FlockShared _) _ => True
  | _ => False
  end.
(** The steps of a seal that has not dropped the state partition's key. *)
Definition puts_to_sleep (ev : Event) : bool :=
  match ev with @Did _ (WriteText p _) _ => bool_decide (p = POWER_STATE) | _ => false end.
Definition awake_step (t : Trace) (ev : Event) : Prop :=
  suspend_step t ev /\ ran_ok "cryptsetup" (suspend_args STATE_MAPPER) ev = false /\ puts_to_sleep ev = false.
Definition slept (t : Trace) : bool := existsb puts_to_sleep t.

Section mono.
Context (t t' : Trace) (Hs : t ⊆ t').
Lemma seen_suspended_mono m : seen_suspended t m -> seen_suspended t' m.
Proof. intros (d & n & s & ? & ? & ? & ?). exists d, n, s. auto. Qed.
Lemma key_gone_mono m : key_gone t m -> key_gone t' m.
Proof. intros [[o ?]|?]; [left; exists o; auto|right; by apply seen_suspended_mono]. Qed.
Lemma volumes_down_mono : volumes_down t -> volumes_down t'.
Proof. intros (n & ? & Hf). exists n. split; [auto|]. eapply Forall_impl; [exact Hf|]. intros z. apply key_gone_mono. Qed.
Lemma still_mono l : still t l -> still t' l.
Proof. intros [? [?|(s & ? & ?)]]; (split; [auto|]); [left; auto|right; exists s; auto]. Qed.
Lemma leaf_of_mono z l : leaf_of t z l -> leaf_of t' z l.
Proof. intros [? (x & y & w & ?)]. split; [done|]. exists x, y, w. auto. Qed.
Lemma zone_still_mono z : zone_still t z -> zone_still t' z.
Proof.
  intros [(s & ? & ?)|(l & Hl & [?|?])]; [left; exists s; auto|right..]; exists l; (split; [by apply leaf_of_mono|]); [auto|right; by apply still_mono].
Qed.
Lemma zones_still_mono : zones_still t -> zones_still t'.
Proof. intros (zs & ? & Hf). exists zs. split; [auto|]. eapply Forall_impl; [exact Hf|]. intros z. apply zone_still_mono. Qed.
Lemma quiet_mono : quiet t -> quiet t'.
Proof. intros (? & ? & ?). split_and!; [by apply zones_still_mono|auto..]. Qed.
End mono.

#[local] Hint Resolve sub_snoc sub_trans elem_snoc elem_snoc_l : core.
#[local] Hint Extern 1 (_ ⊆ _) => reflexivity : core.
Lemma sub_both' (t t' t'' : Trace) : t ⊆ t' -> t' ⊆ t'' -> t ⊆ t''.
Proof. intros H1 H2 e He. auto. Qed.

Abbreviation J := (justified awake_step).

Section steps.
Context (sys : Sys) {E : Type}.

Lemma wp_seen {A} (c : Call A) (Q : A -> Trace -> Prop) (R : E -> Trace -> Prop) t : J t -> (forall a, awake_step t (Did c a)) ->
  (forall a, J (t ++ [Did c a]) -> Q a (t ++ [Did c a])) -> wp (call sys c) Q R t.
Proof. apply wp_call. Qed.

Lemma wp_suspended name (Q : bool -> Trace -> Prop) (R : E -> Trace -> Prop) t : J t ->
  (forall b t', J t' -> t ⊆ t' -> (b = true -> seen_suspended t' name) -> Q b t') -> wp (suspended sys name) Q R t.
Proof.
  intros Ht HQ. unfold suspended, suspended_in. apply wp_bind, wp_bind, wp_seen; [done..|]. intros devs H1.
  destruct devs as [devs|]; [|apply wp_ret, wp_ret, HQ; auto; done].
  assert (forall devs t, J t -> wp (suspended_among sys name devs) (fun s t' => J t' /\ t ⊆ t' /\ (s = Some true -> seen_suspended t' name)) R t) as Hall.
  2: { eapply wp_mono; [..|by apply Hall]; [|done]. intros s t' (H2 & Hs & Hx). apply wp_ret, HQ; [done|by eapply sub_both'; [apply sub_snoc|]|]. intros ->%bool_decide_eq_true. auto. }
  clear - sys. intros devs. induction devs as [|dev devs IH]; intros t Ht; cbn [suspended_among]; [by apply wp_ret|].
  apply wp_bind, wp_seen; [done..|]. intros n H1. assert (forall u, J u -> t ⊆ u -> wp (suspended_among sys name devs) (fun s t' => J t' /\ t ⊆ t' /\ (s = Some true -> seen_suspended t' name)) R u) as Hk.
  { intros u Hu Hs. eapply wp_mono; [..|by apply IH]; [|done]. intros s t' (? & ? & ?). split_and!; [done|by eapply sub_both'|done]. }
  destruct n as [n|]; [|apply Hk; auto]. case_bool_decide as Hn; [|apply Hk; auto]. apply wp_bind, wp_seen; [done..|]. intros s H2. apply wp_ret. split_and!; [done|auto|].
  destruct s as [s|]; [|done]. intros [= Hb%bool_decide_eq_true]. exists dev, n, s. split_and!; [apply elem_snoc_l, elem_snoc|done|apply elem_snoc|done].
Qed.
Lemma wp_mappings (Q : list (list Z) -> Trace -> Prop) (R : E -> Trace -> Prop) t : J t ->
  (forall names t', J t' -> t ⊆ t' -> Did (ReadDir (chars "/dev/mapper")) names ∈ t' -> Q (Volume.zones_mapped (default [] names)) t') -> wp (mappings sys) Q R t.
Proof. intros Ht HQ. apply wp_bind, wp_seen; [done..|]. intros names H1. apply wp_ret, HQ; auto. Qed.
Lemma wp_waiting (Q : list (list Z) -> Trace -> Prop) (R : E -> Trace -> Prop) t : J t -> (forall w t', J t' -> t ⊆ t' -> Q w t') -> wp (waiting sys) Q R t.
Proof.
  intros Ht HQ. unfold waiting. apply wp_bind, wp_mappings; [done|]. intros names t1 H1 Hs1 _. generalize (Volume.zones_mapped (default [] names)). intros l.
  assert (forall l (Q' : list (list Z) -> Trace -> Prop) t, J t -> (forall w t', J t' -> t ⊆ t' -> Q' w t') -> wp (waiting_in sys l) Q' R t) as Hall.
  2: { apply Hall; [done|]. intros w t' H2 Hs2. apply HQ; [done|by eapply sub_both']. }
  clear - sys. intros l. induction l as [|z l IH]; intros Q' t Ht HQ'; cbn [waiting_in]; [apply wp_ret, HQ'; auto|].
  apply wp_bind, wp_suspended; [done|]. intros s t1 H1 Hs1 _. apply wp_bind, IH; [done|]. intros w t2 H2 Hs2. apply wp_ret, HQ'; [done|by eapply sub_both'].
Qed.
Lemma wp_leaf zone (Q : option path -> Trace -> Prop) (R : E -> Trace -> Prop) t : J t ->
  (forall l t', J t' -> t ⊆ t' -> (forall p, l = Some p -> leaf_of t' zone p) -> Q l t') -> wp (leaf sys zone) Q R t.
Proof.
  intros Ht HQ. apply wp_bind, wp_seen; [done..|]. intros s H1. apply wp_ret, HQ; auto. intros p Hp.
  destruct s as [[|x y [c|] w|]|]; try done. destruct (Registry.under c _) eqn:Hu; simplify_eq. split; [done|]. exists x, y, w. apply elem_snoc.
Qed.
Lemma awake_freeze t l on a : Registry.under l Registry.KRYPTIK_ROOT = true -> awake_step t (Did (WriteText (freeze_file l) on) a).
Proof.
  intros Hl. split_and!; [right; right; right; eauto|done|]. apply bool_decide_eq_false. intros H. apply (f_equal reverse) in H.
  unfold freeze_file in H. rewrite reverse_app in H. revert H. generalize (reverse l). intros l'. vm_compute. discriminate.
Qed.
Lemma wp_thaw (Q : list (list Z) -> Trace -> Prop) (R : E -> Trace -> Prop) t : J t -> (forall w t', J t' -> t ⊆ t' -> Q w t') -> wp (thaw sys) Q R t.
Proof.
  intros Ht HQ. unfold thaw. apply wp_bind, wp_waiting; [done|]. intros w t1 H1 Hs1. apply wp_bind, wp_seen; [done..|]. intros zones H2.
  assert (forall zones (Q' : list (list Z) -> Trace -> Prop) t, J t -> (forall w t', J t' -> t ⊆ t' -> Q' w t') -> wp (thaw_among sys w zones) Q' R t) as Hall.
  2: { apply Hall; [done|]. intros x t' H3 Hs3. apply HQ; [done|]. eapply sub_both'; [|exact Hs3]. auto. }
  clear - sys. intros zones. induction zones as [|z zones IH]; intros Q' t Ht HQ'; cbn [thaw_among]; [apply wp_ret, HQ'; auto|].
  apply wp_bind. eapply (wp_mono _ (fun _ t' => J t' /\ t ⊆ t') _ R); [|done|].
  - intros here t1 [H1 Hs1]. apply wp_bind, IH; [done|]. intros rest t2 H2 Hs2. apply wp_ret, HQ'; [done|by eapply sub_both'].
  - case_bool_decide; [apply wp_ret; auto|]. apply wp_bind, wp_leaf; [done|]. intros l t1 H1 Hs1 Hl. destruct l as [l|]; [|apply wp_ret; auto].
    apply wp_bind. unfold held. apply wp_bind, wp_seen; [done..|]. intros s H2. apply wp_ret. destruct (match s with Ok _ => _ | Err _ => _ end); [|apply wp_ret; auto].
    apply wp_bind, wp_seen; [done|intros; eapply awake_freeze, proj1, Hl; done|]. intros r H3. apply wp_ret; auto.
Qed.
Lemma wp_undo done (Q : unit -> Trace -> Prop) (R : E -> Trace -> Prop) t : J t -> Forall (fun x => Registry.under x.2 Registry.KRYPTIK_ROOT = true) done ->
  (forall t', J t' -> Q tt t') -> wp (undo sys done) Q R t.
Proof.
  intros Ht Hd HQ. revert t Ht. induction Hd as [|[z l] done Hl _ IH]; intros t Ht; cbn [undo]; [by apply wp_ret, HQ|].
  apply wp_bind, wp_seen; [done|intros; by apply awake_freeze|]. intros r H1. by apply IH.
Qed.
End steps.

(** ** Freezing *)
Definition asked (t : Trace) (x : list Z * path) : Prop := leaf_of t x.1 x.2 /\ Did (WriteText (freeze_file x.2) [49]) (Ok tt) ∈ t.
Definition met (t : Trace) (done : list (list Z * path)) (z : list Z) : Prop := z ∈ done.*1 \/ zone_still t z.
Lemma asked_mono t t' done : t ⊆ t' -> Forall (asked t) done -> Forall (asked t') done.
Proof. intros Hs Hf. eapply Forall_impl; [exact Hf|]. intros x [? ?]. split; [by eapply leaf_of_mono|auto]. Qed.
Lemma asked_under t done : Forall (asked t) done -> Forall (fun x => Registry.under x.2 Registry.KRYPTIK_ROOT = true) done.
Proof. intros Hf. eapply Forall_impl; [exact Hf|]. by intros x [[? _] _]. Qed.
Lemma met_mono t t' done done' z : t ⊆ t' -> done ⊆ done' -> met t done z -> met t' done' z.
Proof.
  intros Hs Hd [Hz|?]; [left|right; by eapply zone_still_mono]. apply list_elem_of_fmap in Hz as (x & -> & Hx). apply list_elem_of_fmap. exists x. auto.
Qed.

Section freeze.
Context (sys : Sys) (R : SuspendError -> Trace -> Prop) (HR : forall e t, J t -> R e t).

Lemma wp_give_up {A} done e (Q : A -> Trace -> Prop) t : J t -> Forall (asked t) done -> wp (undo sys done;; fail e) Q R t.
Proof. intros Ht Hd. apply wp_bind, wp_undo; [done|by eapply asked_under|]. intros t' Ht'. by apply wp_fail, HR. Qed.

Lemma wp_freeze_zones zones : forall done (Q : list (list Z * path) -> Trace -> Prop) t, J t -> Forall (asked t) done ->
  (forall done' t', J t' -> t ⊆ t' -> done ⊆ done' -> Forall (asked t') done' -> Forall (met t' done') zones -> Q done' t') ->
  wp (freeze_zones sys zones done) Q R t.
Proof.
  induction zones as [|z zones IH]; intros done Q t Ht Hd HQ; cbn [freeze_zones]; [by apply wp_ret, HQ|].
  apply wp_bind, wp_seen; [done..|]. intros s H1. destruct (is_running s) eqn:Hr; cbn [negb].
  2: { apply IH; [done|eapply asked_mono; [|done]; auto|]. intros done' t' H2 Hs Hd' Ha Hm. apply HQ; [done|by eapply sub_both'; [apply sub_snoc|]|done..|].
       constructor; [|done]. right. left. exists s. split; [apply Hs, elem_snoc|done]. }
  apply wp_bind, wp_leaf; [done|]. intros l t1 H2 Hs1 Hl. assert (t ⊆ t1) as Hs01 by (eapply sub_both'; [apply sub_snoc|done]).
  destruct l as [l|]; [|apply wp_give_up; [done|by eapply asked_mono]]. specialize (Hl l eq_refl).
  apply wp_bind. unfold set_freeze. apply wp_seen; [done|intros; by eapply awake_freeze, proj1|]. intros r H3.
  assert (forall done1, done ⊆ done1 -> Forall (asked (t1 ++ [Did (WriteText (freeze_file l) [49]) r])) done1 -> met (t1 ++ [Did (WriteText (freeze_file l) [49]) r]) done1 z ->
    wp (freeze_zones sys zones done1) Q R (t1 ++ [Did (WriteText (freeze_file l) [49]) r])) as Hnext.
  { intros done1 Hsub Ha Hm. apply IH; [done..|]. intros done' t' H4 Hs Hd' Ha' Hm'. apply HQ; [done| |by etrans|done|constructor; [by eapply met_mono|done]].
    eapply sub_both'; [exact Hs01|]. eapply sub_both'; [apply sub_snoc|done]. }
  assert (Forall (asked (t1 ++ [Did (WriteText (freeze_file l) [49]) r])) done) as Hd1 by (eapply asked_mono; [|exact Hd]; auto).
  assert (leaf_of (t1 ++ [Did (WriteText (freeze_file l) [49]) r]) z l) as Hl1 by (eapply leaf_of_mono; [|exact Hl]; auto).
  destruct r as [[]|[|]].
  - apply Hnext; [set_solver|apply Forall_app; split; [done|constructor; [|done]; split; [done|apply elem_snoc]]|]. left. rewrite fmap_app. set_solver.
  - apply Hnext; [done..|]. right. right. exists l. split; [done|left; apply elem_snoc].
  - by apply wp_give_up.
Qed.

Lemma wp_unfrozen done : forall (Q : option (list Z) -> Trace -> Prop) t, J t -> Forall (asked t) done ->
  (forall u t', J t' -> t ⊆ t' -> (u = None -> Forall (fun x => still t' x.2) done) -> Q u t') -> wp (unfrozen sys done) Q R t.
Proof.
  induction done as [|[z l] done IH]; intros Q t Ht Hd HQ; cbn [unfrozen]; [by apply wp_ret, HQ|]. apply Forall_cons in Hd as [[Hl Ha] Hd]. cbn in Hl, Ha.
  assert (forall u, J u -> t ⊆ u -> still u l -> wp (unfrozen sys done) Q R u) as Hnext.
  { intros u Hu Hs Hst. apply IH; [done|by eapply asked_mono|]. intros o t' H1 Hs1 Hf. apply HQ; [done|by eapply sub_both'|]. intros Ho. constructor; [by eapply still_mono|auto]. }
  apply wp_bind, wp_seen; [done..|]. intros there H1. destruct there.
  2: { apply Hnext; [done|auto|]. split; [auto|left; apply elem_snoc]. }
  apply wp_bind. unfold frozen. apply wp_bind, wp_seen; [done..|]. intros s H2. apply wp_ret. destruct s as [s|]; [|apply wp_ret, HQ; [done|auto|done]].
  destruct (is_frozen s) eqn:Hf; [|apply wp_ret, HQ; [done|auto|done]]. apply Hnext; [done|auto|]. split; [auto|]. right. exists s. split; [apply elem_snoc|done].
Qed.

(** The rounds are enough: by the last the deadline has passed. *)
Lemma wp_freeze_wait start done (Q : unit -> Trace -> Prop) fuel : forall i t, 0 <= i -> FREEZE_WITHIN < ROUND * (i + Z.of_nat fuel) -> ROUND * i <= FREEZE_WITHIN -> J t -> Forall (asked t) done ->
  (forall t', J t' -> t ⊆ t' -> Forall (fun x => still t' x.2) done -> Q tt t') -> wp (freeze_wait sys fuel i start done) Q R t.
Proof.
  induction fuel as [|fuel IH]; intros i t Hi Hf Hlim Ht Hd HQ; cbn [freeze_wait]; [unfold FREEZE_WITHIN, ROUND in *; lia|].
  apply wp_bind, wp_unfrozen; [done..|]. intros u t1 H1 Hs1 Hu. destruct u as [z|]; [|by apply wp_ret, HQ; auto].
  apply wp_bind, wp_seen; [done..|]. intros now H2.
  destruct (Z.leb_spec FREEZE_WITHIN (Z.max (now - start) (ROUND * i))) as [?|Hn]; [apply wp_give_up; [done|eapply asked_mono; [|done]; auto]|].
  apply wp_bind, wp_seen; [done..|]. intros _x H3. apply IH; [lia|lia|unfold FREEZE_WITHIN, ROUND in *; lia|done|eapply asked_mono; [|done]; auto|].
  intros t' H4 Hs4. apply HQ; [done|]. eapply sub_both'; [|done]. auto.
Qed.

Lemma wp_freeze_all (Q : list (list Z) -> Trace -> Prop) t : J t ->
  (forall zs t', J t' -> t ⊆ t' -> zones_still t' -> Q zs t') -> wp (freeze_all sys) Q R t.
Proof.
  intros Ht HQ. unfold freeze_all. apply wp_bind, wp_seen; [done..|]. intros zones H1. apply wp_bind, wp_freeze_zones; [done|constructor|].
  intros done t1 H2 Hs1 _ Ha Hm. apply wp_bind, wp_seen; [done..|]. intros start H3.
  apply wp_bind, wp_freeze_wait; [lia|vm_compute; done|vm_compute; done|done|eapply asked_mono; [|done]; auto|]. intros t2 H4 Hs2 Hst. apply wp_ret.
  assert (t1 ⊆ t2) as Hs12 by (eapply sub_both'; [apply sub_snoc|done]). apply HQ; [done|eapply sub_both'; [|done]; eapply sub_both'; [apply sub_snoc|done]|].
  exists zones. split; [apply Hs12, Hs1, elem_snoc|]. eapply Forall_impl; [exact Hm|]. intros z [Hz|?]; [|by eapply zone_still_mono].
  apply list_elem_of_fmap in Hz as (x & -> & Hx). right. exists x.2. rewrite Forall_forall in Ha, Hst. split; [eapply leaf_of_mono, proj1, Ha; done|right; by apply Hst].
Qed.
End freeze.

(** ** Sealing *)
Lemma mapper_not_state z : Volume.mapper_name z <> STATE_MAPPER.
Proof. done. Qed.
Lemma awake_step_weaken t : J t -> justified suspend_step t.
Proof. apply justified_weaken. by intros b e [? _]. Qed.
Lemma awake_never t : J t -> never_ran "cryptsetup" (suspend_args STATE_MAPPER) t = true.
Proof.
  intros Ht. apply forallb_forall. intros ev (b & a & ->)%List.in_split. destruct (Ht _ _ _ eq_refl) as (_ & -> & _). done.
Qed.
Lemma awake_not_slept t : J t -> slept t = false.
Proof.
  intros Ht. apply not_true_iff_false. intros (ev & (b & a & ->)%List.in_split & He)%existsb_exists. destruct (Ht _ _ _ eq_refl) as (_ & _ & Hn). congruence.
Qed.

(** The count of seals left waiting is not at its last number. *)
Definition count_free (sys : Sys) : Prop := forall n s, sys _ n (ReadText LEFT_WAITING) = Ok s -> parse_u64 (trim s) <> Some U64_MAX.

Section seal.
Context (sys : Sys) (Hcount : count_free sys) (R : SuspendError -> Trace -> Prop) (HR : forall e t, J t -> R e t).

Lemma wp_count (Q : unit -> Trace -> Prop) t : J t -> (forall t', J t' -> Q tt t') -> wp (count_left_waiting sys LEFT_WAITING) Q R t.
Proof.
  intros Ht HQ. unfold count_left_waiting. apply wp_bind. unfold wp at 1, call. pose proof (Hcount (length t)) as Hn.
  set (r := sys _ (length t) (ReadText LEFT_WAITING)) in *. cbv zeta. set (n := default 0 _).
  assert (U64_MAX <? n + 1 = false) as ->.
  { apply Z.ltb_ge. unfold n. destruct r as [s|]; [|done]. specialize (Hn s eq_refl). destruct (parse_u64 (trim s)) as [v|] eqn:Hp; [|done].
    apply parse_unsigned_range in Hp. assert (v <> U64_MAX) by congruence. cbn. lia. }
  apply (wp_ignored _ awake_step); [by apply justified_snoc|done|]. intros a H1. by apply HQ.
Qed.
Lemma wp_give_way wiped e (Q : unit -> Trace -> Prop) t : J t -> wp (give_way sys wiped e) Q R t.
Proof.
  intros Ht. unfold give_way. apply wp_bind, wp_thaw; [done|]. intros w t1 H1 _. apply wp_bind, wp_when; intros _; [apply wp_count; [done|]; intros t2 H2|]; by apply wp_fail, HR.
Qed.

(** Each volume's key goes before the next is tried; one that stays ends the seal. *)
Lemma wp_suspend_volumes zones : forall wiped (Q : bool -> Trace -> Prop) t, J t -> quiet t ->
  (forall w t', J t' -> t ⊆ t' -> Forall (fun z => key_gone t' (Volume.mapper_name z)) zones -> Q w t') -> wp (suspend_volumes sys zones wiped) Q R t.
Proof.
  induction zones as [|z zones IH]; intros wiped Q t Ht Hq HQ; cbn [suspend_volumes]; [by apply wp_ret, HQ|].
  assert (forall w u, J u -> t ⊆ u -> key_gone u (Volume.mapper_name z) -> wp (suspend_volumes sys zones w) Q R u) as Hnext.
  { intros w u Hu Hs Hk. apply IH; [done|by eapply quiet_mono|]. intros w' t' H1 Hs1 Hf. apply HQ; [done|by eapply sub_both'|]. constructor; [by eapply key_gone_mono|done]. }
  apply wp_bind, wp_suspended; [done|]. intros s t1 H1 Hs1 Hk. destruct s; [apply Hnext; [done..|]; right; auto|].
  apply wp_bind. unfold suspend_mapping. apply wp_bind, wp_seen; [done| |].
  - intros a. split_and!; [|by destruct a|done]. split_and!; [done|done|by eapply quiet_mono|right; by exists z].
  - intros r H2. apply wp_ret. destruct r as [out|]; [|apply wp_bind, wp_give_way; done]. apply Hnext; [done|auto|]. left. exists out. apply elem_snoc.
Qed.

(** What a seal that succeeds leaves. *)
Definition sealed (t : Trace) : Prop :=
  justified suspend_step t /\ slept t = false /\ quiet t /\ volumes_down t /\ exists out, Did (drop_key STATE_MAPPER) (Ok out) ∈ t.
Lemma wp_seal (Q : list (list Z) -> Trace -> Prop) t : J t -> (forall zs t', sealed t' -> Q zs t') -> wp (seal sys) Q R t.
Proof.
  intros Ht HQ. unfold seal. apply wp_bind. eapply (wp_mono _ (fun _ => J) _ R); [|done|].
  2: { unfold locked_out. apply wp_bind, wp_seen; [done..|]. intros f H1. destruct f; [|by apply wp_ret]. apply wp_bind, wp_seen; [done..|]. intros got H2. by apply wp_ret. }
  intros locked t1 H1. apply wp_bind, wp_reject_if; [intros _; by apply HR|intros _]. apply wp_bind, wp_freeze_all; [done..|]. intros zs t2 H2 _ Hz.
  apply wp_bind, wp_seen; [done..|]. intros [] H3. apply wp_bind, (wp_ignored _ awake_step); [done| |].
  { intros a. split_and!; [right; by left|done|done]. }
  intros d H4. apply wp_bind, wp_seen; [done| |].
  { intros a. split_and!; [right; right; by left|done|done]. }
  intros r H5. apply wp_bind. destruct r as [[]|]; [apply wp_ret|apply wp_bind, wp_thaw; [done|]; intros w t3 H6 _; by apply wp_fail, HR].
  apply wp_bind, wp_mappings; [done|]. intros names t3 H6 Hs3 Hnames.
  assert (quiet t3) as Hq. { eapply quiet_mono; [exact Hs3|]. split_and!; [eapply zones_still_mono; [|exact Hz]; auto|auto|apply elem_snoc]. }
  apply wp_bind, wp_suspend_volumes; [done..|]. intros wiped t4 H7 Hs4 Hk. assert (volumes_down t4) as Hv by (exists names; auto).
  apply quiet_mono with (t' := t4) in Hq; [|done].
  apply wp_bind. unfold suspend_mapping. apply wp_bind, (wp_call _ suspend_step); [by apply awake_step_weaken|intros a; split_and!; auto|]. intros r H8. apply wp_ret. destruct r as [out|].
  - apply wp_ret, HQ. split_and!; [done| |eapply quiet_mono; [|done]; auto|eapply volumes_down_mono; [|done]; auto|exists out; apply elem_snoc].
    unfold slept. rewrite existsb_app. fold (slept t4). by rewrite awake_not_slept.
  - apply wp_bind, wp_give_way. apply justified_snoc; [done|]. split_and!; [split_and!; auto| |done]. cbn [ran_ok]. by rewrite andb_false_r.
Qed.
End seal.

(** ** The command *)
Definition cmd_post (awake : bool) (said : Said) (t : Trace) : Prop :=
  justified suspend_step t /\
  match said with
  | StaysAwake => awake = false /\ slept t = false
  | SuspendedAlready => awake = true /\ slept t = false /\ seen_suspended t STATE_MAPPER
  | NotSealed _ => slept t = false /\ never_ran "cryptsetup" (suspend_args STATE_MAPPER) t = true
  | Sealed _ => awake = true /\ sealed t
  | Slept | DidNotSleep => awake = false /\ slept t = true
  end.
Lemma wp_put_to_sleep sys R t : justified suspend_step t ->
  (seen_suspended t STATE_MAPPER \/ (quiet t /\ volumes_down t /\ exists out, Did (drop_key STATE_MAPPER) (Ok out) ∈ t)) ->
  wp (put_to_sleep sys) (cmd_post false) R t.
Proof.
  intros Ht Hs. unfold put_to_sleep, sleep. apply wp_bind, wp_tried, (wp_called _ suspend_step); [done|intros a; left; auto|..];
    intros a H1; apply wp_ret; (split_and!; [done|done|]); unfold slept; rewrite existsb_app; apply orb_true_r.
Qed.


(** A machine with one zone up, its volume mapped, that sleeps when asked. *)
Definition sealing_sys : Sys := fun A n c =>
  match c in Call A return A with
  | Run _ _ _ => Ok [] | Exists _ => true | Stat _ | Lstat _ | OpenFile _ | ReadFile _ | DevOf _ => Err NotFound
  | ReadText p => if bool_decide (p = LEFT_WAITING) then Err NotFound else Ok (chars "frozen 1")
  | ReadDir p => if bool_decide (p = chars "/dev/mapper") then Some [Volume.mapper_name (chars "mail")] else if bool_decide (p = SYS_BLOCK) then Some [chars "dm-0"] else None
  | Resolve _ => None
  | WriteText _ _ | MkdirAll _ | Chmod _ _ | Create _ _ | SetLen _ _ | RemoveFile _ | Rename _ _ | WriteWhole _ _ _ | Mount _ _ _ _ _ | Flush _ | OpenDev _ _ => Ok tt
  | MemfdCreate _ => None | WriteFd _ _ => 0 | Flock _ | FlockShared _ => true | Names => [chars "mail"]
  | StateOf _ => Ok (Registry.Running None None (Some (Registry.KRYPTIK_ROOT ++ chars "/mail")) [])
  | RunFor _ _ _ _ => NotRun | Now => 0 | Sleep _ | Sync => tt
  end.
Definition seal_run : outcome Said SuspendError * Trace := cmd_suspend sealing_sys false [].
