(* ===== verification/Requests.v ===== *)
(** * The launch daemon's requests: src/compartments/kryptikd/src/serve.rs

    A request read off its connection with the descriptors it carries, the lines of a [run] and of
    a change to the saved networks, the password of a screen lock, and what is shown of the net
    zone's own words. Text is its characters; the connection is a list of [Turn]s, one for each
    round of poll(2) and recvmsg(2). *)
From S2P Require Import Prelude Bytes Text Wifi Registry.
Open Scope string_scope.
Open Scope list_scope.
Open Scope Z_scope.

Module Requests.
Abbreviation text := (list Z).

Definition MAX_REQUEST : Z := 16 * 1024.
Definition MAX_HANDED : Z := 12.
Definition MAX_CARRIED : Z := 3.
Definition BUFFER : nat := 4096.
(** In nanoseconds, as the clock of a [Turn]. *)
Definition REQUEST_DEADLINE : Z := 5 * 1000000000.

(** ** Read *)
Definition ends_with (p l : bytes) : bool := bool_decide (p `suffix_of` l).
Definition starts_with (p l : bytes) : bool := bool_decide (p `prefix_of` l).
Definition request_complete (l : bytes) : bool :=
  if negb (ends_with [byte_of_Z 10] l) then false
  else if starts_with (as_bytes "run ") l || starts_with (as_bytes "wifi-add
") l || starts_with (as_bytes "wifi-forget
") l || starts_with (as_bytes "desktop
") l then ends_with (as_bytes "
end
") l
  else true.

Inductive ReadError := Slow | PollFault | RecvFault | TooManyHanded | NotFirst | TooManyCarried (n : Z) | TooLong | HoldsNul.
(** recvmsg's answer: what it read, the descriptors that came with it, and whether the control
    data was cut off. *)
Inductive RecvAnswer := Again | Broken | Message (data : bytes) (fds : list Z) (truncated : bool).
Record Turn := mkTurn { t_now : Z; t_ready : Z; t_interrupted : bool; t_recv : RecvAnswer }.

(** What was read is kept, within its bounds, until the request is whole. *)
Definition keep (more : bytes -> list Z -> option (result (bytes * list Z) ReadError * list Z)) (got data : bytes) (carried : list Z)
    : option (result (bytes * list Z) ReadError * list Z) :=
  match data with
  | [] => Some (Ok (got, carried), [])
  | _ =>
    let got := got ++ data in
    if MAX_REQUEST <? zlen got then Some (Err TooLong, carried)
    else if existsb (fun b => Z_of_byte b =? 0) got then Some (Err HoldsNul, carried)
    else if request_complete got then Some (Ok (got, carried), [])
    else more got carried
  end.
(** The descriptors given up are released, each at once; [None] while the request has not come
    and the clock not run out. *)
Fixpoint read_loop (deadline : Z) (turns : list Turn) (got : bytes) (carried : list Z)
    : option (result (bytes * list Z) ReadError * list Z) :=
  match turns with
  | [] => None
  | t :: turns =>
    let refuse e released := Some (Err e, released ++ carried) in
    if deadline - t_now t <=? 0 then refuse Slow []
    else if t_ready t <? 0 then
      if t_interrupted t then read_loop deadline turns got carried else refuse PollFault []
    else if t_ready t =? 0 then read_loop deadline turns got carried
    else
      match t_recv t with
      | Again => read_loop deadline turns got carried
      | Broken => refuse RecvFault []
      | Message data fds truncated =>
        let data := take BUFFER data in
        if truncated || (MAX_HANDED <? zlen fds) then refuse TooManyHanded fds
        else
          let go carried := keep (read_loop deadline turns) got data carried in
          match fds with
          | [] => go carried
          | _ =>
            if negb (bool_decide (got = [])) || negb (bool_decide (carried = [])) then refuse NotFirst fds
            else if MAX_CARRIED <? zlen fds then refuse (TooManyCarried (zlen fds)) fds
            else go fds
          end
      end
  end.
Definition read_request (deadline : Z) (turns : list Turn) : option (result (bytes * list Z) ReadError * list Z) :=
  read_loop deadline turns [] [].

(** ** A launch *)
Definition is_alnum (c : Z) : bool := is_digit c || between 65 90 c || is_lower c.
Definition ident_ok (s : text) : bool :=
  negb (bool_decide (s = [])) && (zlen (encode_chars s) <=? 32) && forallb (fun c => is_alnum c || (c =? 45) || (c =? 95)) s.

Record Request := mkRequest { rq_zone : text; rq_wayland : bool; rq_wants_fd : bool; rq_argv : list text }.
Inductive RunError :=
| EmptyRequest | NotRun | NoZoneName | BadZoneName (zone : text) | UnknownOption (opt : text) | UnexpectedLine (line : text) | NotEnded | NoCommand.

Definition RUN : text := Eval vm_compute in chars "run".
Definition WAYLAND : text := Eval vm_compute in chars "wayland".
Definition PASS_FD : text := Eval vm_compute in chars "pass=fd".
Definition END : text := Eval vm_compute in chars "end".
Definition ARG : text := Eval vm_compute in chars "arg ".

Fixpoint run_options (ws : list text) (r : Request) : result Request RunError :=
  match ws with
  | [] => Ok r
  | w :: ws =>
    if bool_decide (w = WAYLAND) then run_options ws (mkRequest (rq_zone r) true (rq_wants_fd r) (rq_argv r))
    else if bool_decide (w = PASS_FD) then run_options ws (mkRequest (rq_zone r) (rq_wayland r) true (rq_argv r))
    else Err (UnknownOption w)
  end.
(** The words given before the [end] line, if there is one. *)
Fixpoint run_lines (ls : list text) (argv : list text) : result (list text * bool) RunError :=
  match ls with
  | [] => Ok (argv, false)
  | l :: ls =>
    if bool_decide (l = END) then Ok (argv, true)
    else match strip_prefix ARG l with Some a => run_lines ls (argv ++ [a]) | None => Err (UnexpectedLine l) end
  end.
Definition parse_run (s : text) : result Request RunError :=
  match lines s with
  | [] => Err EmptyRequest
  | first :: rest =>
    match words first with
    | w :: ws =>
      if negb (bool_decide (w = RUN)) then Err NotRun
      else
        match ws with
        | [] => Err NoZoneName
        | zone :: opts =>
          if negb (ident_ok zone) then Err (BadZoneName zone)
          else
           (let? r := run_options opts (mkRequest zone false false []) in
            let? read := run_lines rest [] in
            let '(argv, ended) := read in
            if negb (ended : bool) then Err NotEnded
            else if bool_decide (argv = []) then Err NoCommand
            else Ok (mkRequest (rq_zone r) (rq_wayland r) (rq_wants_fd r) argv))%result
        end
    | [] => Err NotRun
    end
  end.

(** ** A change to the saved networks *)
Record WifiRequest := mkWifi { w_ssid : text; w_psk : option text; w_open : bool; w_hidden : bool }.
Inductive WifiRequestError := VerbNotAlone (word : text) | TwoOf (what : string) | WifiUnexpected | WifiNotEnded | NoSsid | PskOrOpen.
Definition WIFI_ADD : text := Eval vm_compute in chars "wifi-add".
Definition WIFI_FORGET : text := Eval vm_compute in chars "wifi-forget".
Definition SSID : text := Eval vm_compute in chars "ssid ".
Definition PSK : text := Eval vm_compute in chars "psk ".
Definition OPEN : text := Eval vm_compute in chars "open".
Definition HIDDEN : text := Eval vm_compute in chars "hidden".
(** [ssid], [psk], [open] and [hidden] as read so far. *)
Record Seen := mkSeen { s_ssid : option text; s_psk : option text; s_open : bool; s_hidden : bool }.
Definition wifi_line (adds : bool) (l : text) (s : Seen) : result Seen WifiRequestError :=
  match strip_prefix SSID l with
  | Some v => if s_ssid s then Err (TwoOf "ssid") else Ok (mkSeen (Some v) (s_psk s) (s_open s) (s_hidden s))
  | None =>
    match (if adds then strip_prefix PSK l else None) with
    | Some v => if s_psk s then Err (TwoOf "psk") else Ok (mkSeen (s_ssid s) (Some v) (s_open s) (s_hidden s))
    | None =>
      if adds && bool_decide (l = OPEN) then
        if s_open s then Err (TwoOf "open") else Ok (mkSeen (s_ssid s) (s_psk s) true (s_hidden s))
      else if adds && bool_decide (l = HIDDEN) then
        if s_hidden s then Err (TwoOf "hidden") else Ok (mkSeen (s_ssid s) (s_psk s) (s_open s) true)
      else Err WifiUnexpected
    end
  end.
Fixpoint wifi_lines (adds : bool) (ls : list text) (s : Seen) : result (Seen * bool) WifiRequestError :=
  match ls with
  | [] => Ok (s, false)
  | l :: ls => if bool_decide (l = END) then Ok (s, true) else (let? s := wifi_line adds l s in wifi_lines adds ls s)%result
  end.
Definition parse_wifi (s : text) : result WifiRequest WifiRequestError :=
  let verb := default [] (head (lines s)) in
  let adds := bool_decide (verb = WIFI_ADD) in
  if negb adds && negb (bool_decide (verb = WIFI_FORGET)) then Err (VerbNotAlone (default (chars "wifi") (head (words verb))))
  else
   (let? read := wifi_lines adds (tail (lines s)) (mkSeen None None false false) in
    let '(seen, ended) := read in
    if negb (ended : bool) then Err WifiNotEnded
    else
      let? ssid := ok_or (s_ssid seen) NoSsid in
      if adds && Bool.eqb (if s_psk seen then true else false) (s_open seen) then Err PskOrOpen
      else Ok (mkWifi ssid (s_psk seen) (s_open seen) (s_hidden seen)))%result.

(** ** The screen lock's password: [check_password]'s reading of the request *)
Definition CHECK_PASSWORD : text := Eval vm_compute in chars "check-password".
Definition PASSWORD : text := Eval vm_compute in chars "password ".
Definition password_of (s : text) : option text :=
  match lines s with
  | [verb; l; e] =>
    if bool_decide (verb = CHECK_PASSWORD) && bool_decide (e = END) then strip_prefix PASSWORD l else None
  | _ => None
  end.

(** ** Device and inode of a socket *)
Record InodeId := mkInode { in_dev : Z; in_ino : Z }.
Inductive InodeError := NotDevIno | BadDev | BadIno.
Definition show_inode (i : InodeId) : text := Registry.show_num (in_dev i) ++ [58] ++ Registry.show_num (in_ino i).
Definition parse_inode (s : text) : result InodeId InodeError :=
  match split_once 58 s with
  | None => Err NotDevIno
  | Some (d, n) =>
   (let? d := ok_or (parse_u64 d) BadDev in
    let? n := ok_or (parse_u64 n) BadIno in
    Ok (mkInode d n))%result
  end.

(** ** The net zone's words *)
(** [Ipv4Addr::from_str]: four numbers of one to three digits, without a leading zero. *)
Definition parse_octet (s : text) : option Z :=
  if bool_decide (s = []) || (3 <? zlen s) || ((1 <? zlen s) && bool_decide (head s = Some 48)) then None
  else n ← digits_from 0 s; if n <=? 255 then Some n else None.
Definition parse_v4 (s : text) : option (Z * Z * Z * Z) :=
  match split 46 s with
  | [a; b; c; d] => a ← parse_octet a; b ← parse_octet b; c ← parse_octet c; d ← parse_octet d; Some (a, b, c, d)
  | _ => None
  end.
Definition show_v4 (ip : Z * Z * Z * Z) : text :=
  let '(a, b, c, d) := ip in
  Registry.show_num a ++ [46] ++ Registry.show_num b ++ [46] ++ Registry.show_num c ++ [46] ++ Registry.show_num d.
Definition parse_u8 : text -> option Z := parse_unsigned 255.

(** [wifi::shown]; [quoted] is how Rust prints a string for debugging. *)
Definition shown_byte (c : Z) : text :=
  if (c =? 32) || (is_graphic c && negb (c =? 34) && negb (c =? 92)) then [c] else chars "\x" ++ Wifi.hex2 c.
Definition shown (quoted : text -> text) (ssid : list Z) : text :=
  match utf8 (byte_of_Z <$> ssid) with
  | Some s => quoted s
  | None => [34] ++ mjoin (shown_byte <$> ssid) ++ [34]
  end.

(** [find] and [rfind] of a text: the place of its first and last occurrence. *)
Fixpoint find_text (p s : text) : option nat :=
  match strip_prefix p s with
  | Some _ => Some 0%nat
  | None => match s with [] => None | _ :: s => S <$> find_text p s end
  end.
Fixpoint rfind_text (p s : text) : option nat :=
  let later := match s with [] => None | _ :: s => S <$> rfind_text p s end in
  match later with
  | Some n => Some n
  | None => match strip_prefix p s with Some _ => Some 0%nat | None => None end
  end.

Definition field (key rest : text) : option text := find_map (strip_prefix key) (split 32 rest).
Definition uplink_words (rest : text) : option text :=
  a ← field (chars "uplink=") rest;
  if bool_decide (a = chars "none") then Some (chars "no uplink address")
  else
    '(ip, len) ← split_once 47 a;
    ip ← parse_v4 ip;
    len ← parse_u8 len;
    if len <=? 32 then Some (chars "uplink " ++ show_v4 ip ++ [47] ++ Registry.show_num len) else None.
Definition dns_words (rest : text) : option text :=
  d ← field (chars "dns=") rest;
  if bool_decide (d = chars "yes") then Some (chars "DNS")
  else if bool_decide (d = chars "no") then Some (chars "no DNS") else None.
Definition named (quoted : text -> text) (printed : text) : option text :=
  b ← Wifi.ssid_from_iw printed; Some (shown quoted b).
Definition wifi_words (quoted : text -> text) (rest : text) : option (option text) :=
  from ← find_text (chars " wifi=") rest;
  let from := (from + 6)%nat in
  to ← rfind_text (chars " time=") rest;
  if negb (from <=? to)%nat then None
  else
    let printed := take (to - from) (drop from rest) in
    if bool_decide (printed = chars "none") then Some None
    else if bool_decide (printed = chars "unconfigured") then Some (Some (chars "Wi-Fi with no network saved"))
    else if bool_decide (printed = chars "off") then Some (Some (chars "Wi-Fi switched off"))
    else if bool_decide (printed = chars "connecting") then Some (Some (chars "Wi-Fi connecting"))
    else if bool_decide (printed = chars "associated") then Some (Some (chars "Wi-Fi joined"))
    else
      match strip_prefix (chars "refused:") printed with
      | Some p => n ← named quoted p; Some (Some (chars "Wi-Fi " ++ n ++ chars " refused the passphrase"))
      | None => n ← named quoted printed; Some (Some (chars "Wi-Fi " ++ n))
      end.
Definition net_summary (quoted : text -> text) (line : text) : option text :=
  match strip_prefix (chars "NOT READY") line with
  | Some _ => Some (chars "not ready: forwarding is off")
  | None =>
    rest ← strip_prefix (chars "READY ") line;
    uplink ← uplink_words rest;
    dns ← dns_words rest;
    wifi ← wifi_words quoted rest;
    Some (match wifi with
          | Some w => chars "ready: " ++ w ++ chars ", " ++ uplink ++ chars ", " ++ dns
          | None => chars "ready: " ++ uplink ++ chars ", " ++ dns
          end)
  end.

(** ** The words of an end *)
(** [last_log_line]: of the log's last 8 KiB, the last line that says something. *)
Definition LOG_TAIL : Z := 8192.
Definition log_line (tail : bytes) : text :=
  let ls := lines (utf8_lossy tail) in
  let line := default [] (List.find (fun l => negb (bool_decide (trim l = []))) (reverse ls)) in
  let out := take 200 (List.filter (fun c => negb (is_control c)) line) in
  if 200 <? zlen line then out ++ chars "..." else out.
Definition contains (p s : text) : bool := bool_decide (is_Some (find_text p s)).
Definition spoiled (why : text) : bool :=
  contains (chars "sha256 does not match the manifest") why || contains (chars "truncated or altered") why.

(** A wait status, as wait(2) encodes it. *)
Definition WIFEXITED (st : Z) : bool := Z.land st 127 =? 0.
Definition WEXITSTATUS (st : Z) : Z := Z.land (Z.shiftr st 8) 255.
Definition WTERMSIG (st : Z) : Z := Z.land st 127.
Definition WIFSIGNALED (st : Z) : bool := negb (WIFEXITED st) && negb (WTERMSIG st =? 127).
Definition succeeded (st : Z) : bool := WIFEXITED st && (WEXITSTATUS st =? 0).
Definition exit_text (st : Z) : text :=
  if WIFEXITED st then chars "exited " ++ Registry.show_num (WEXITSTATUS st)
  else if WIFSIGNALED st then chars "killed by signal " ++ Registry.show_num (WTERMSIG st)
  else chars "ended with status " ++ Registry.show_int st.
End Requests.
