(* ===== verification/RequestsClaims.v ===== *)
(** * What the launch daemon takes from a request

    A request is bounded and every descriptor it carried is kept or released; the lines of a
    launch and of a change to the saved networks are read in exactly one way; and of the net
    zone's own words only printable text is shown. *)
From stdpp Require Import sorting pretty.
From S2P Require Import Prelude Bytes Text Wifi WifiClaims Registry RegistryClaims Requests.
Open Scope string_scope.
Open Scope list_scope.
Open Scope Z_scope.
Import Requests.

(** ** Reading *)
(** What a turn takes off the connection. *)
Definition taken (deadline : Z) (t : Turn) : bytes * list Z :=
  if (t_now t <? deadline) && (0 <? t_ready t) then
    match t_recv t with Message data fds _ => (take BUFFER data, fds) | _ => ([], []) end
  else ([], []).
Definition data_of (deadline : Z) (ts : list Turn) : bytes := mjoin ((fun t => (taken deadline t).1) <$> ts).
Definition fds_of (deadline : Z) (ts : list Turn) : list Z := mjoin ((fun t => (taken deadline t).2) <$> ts).
Definition kept (r : result (bytes * list Z) ReadError) : list Z := match r with Ok (_, carried) => carried | Err _ => [] end.
Definition within (got : bytes) (carried : list Z) : Prop :=
  zlen got <= MAX_REQUEST /\ Forall (fun b => Z_of_byte b <> 0) got /\ zlen carried <= MAX_CARRIED.
(** The connection as it was when the descriptors came: nothing of the request had been read. *)
Definition came_first (deadline : Z) (got : bytes) (carried : list Z) (used : list Turn) (c : list Z) : Prop :=
  c = carried \/ (got = [] /\ carried = [] /\ exists u t u', used = u ++ t :: u' /\ (taken deadline t).2 = c /\ data_of deadline u = []).

Definition read_spec (deadline : Z) (got : bytes) (carried : list Z) (used : list Turn) (r : result (bytes * list Z) ReadError) (released : list Z) : Prop :=
  carried ++ fds_of deadline used ≡ₚ released ++ kept r /\
  match r with
  | Ok (text, c) => released = [] /\ text = got ++ data_of deadline used /\ within text c /\ came_first deadline got carried used c /\
      (request_complete text = true \/ exists u t, used = u ++ [t] /\ (taken deadline t).1 = [])
  | Err _ => True
  end.

Lemma data_of_cons dl t ts : data_of dl (t :: ts) = (taken dl t).1 ++ data_of dl ts.
Proof. done. Qed.
Lemma fds_of_cons dl t ts : fds_of dl (t :: ts) = (taken dl t).2 ++ fds_of dl ts.
Proof. done. Qed.

(** A turn that takes nothing leaves the rest of the reading as it is. *)
Lemma read_spec_skip dl got carried t used r released : taken dl t = ([], []) ->
  read_spec dl got carried used r released -> read_spec dl got carried (t :: used) r released.
Proof.
  intros Ht [Hp Hr]. unfold read_spec. rewrite fds_of_cons, data_of_cons, Ht. split; [done|]. destruct r as [[text c]|]; [|done].
  destruct Hr as (? & ? & ? & Hc & Hd). split_and!; [done..| |].
  - destruct Hc as [?|(? & ? & u & x & u' & -> & ? & Hu)]; [by left|]. right. split_and!; [done..|]. exists (t :: u), x, u'. split_and!; [done..|]. by rewrite data_of_cons, Ht.
  - destruct Hd as [?|(u & x & -> & ?)]; [by left|]. right. by exists (t :: u), x.
Qed.

Lemma read_spec_refuse dl got carried t fds e : (taken dl t).2 = fds -> read_spec dl got carried [t] (Err e) (fds ++ carried).
Proof. intros <-. split; [|done]. rewrite fds_of_cons. cbn. rewrite !app_nil_r. apply Permutation_app_comm. Qed.

(** The descriptors that come with a message join those carried, of which there were none. *)
Definition joins (got : bytes) (carried fds carried' : list Z) : Prop :=
  (fds = [] /\ carried' = carried) \/ (got = [] /\ carried = [] /\ carried' = fds).
Lemma joins_perm got carried fds carried' : joins got carried fds carried' -> carried ++ fds = carried'.
Proof. intros [[-> ->]|(-> & -> & ->)]; by rewrite ?app_nil_r. Qed.

Lemma read_spec_next dl got carried t data fds carried' used r released : taken dl t = (data, fds) -> joins got carried fds carried' -> data <> [] ->
  read_spec dl (got ++ data) carried' used r released -> read_spec dl got carried (t :: used) r released.
Proof.
  intros Ht Hj Hne [Hp Hr]. unfold read_spec. rewrite fds_of_cons, data_of_cons, Ht. cbn [fst snd]. split.
  { by rewrite app_assoc, (joins_perm _ _ _ _ Hj). }
  destruct r as [[text c]|]; [|done]. destruct Hr as (? & -> & ? & Hc & Hd). split_and!; [done|by rewrite app_assoc|done| |].
  - destruct Hc as [->|(Hn & _)]; [|by apply app_nil in Hn as [_ ?]]. destruct Hj as [[-> ->]|(-> & -> & ->)]; [by left|]. right. split_and!; [done..|].
    exists [], t, used. by rewrite Ht.
  - destruct Hd as [?|(u & x & -> & ?)]; [by left|]. right. by exists (t :: u), x.
Qed.
Lemma read_spec_stop dl got carried t data fds carried' r released : taken dl t = (data, fds) -> joins got carried fds carried' ->
  (match r with Ok (text, c) => released = [] /\ text = got ++ data /\ within text c /\ c = carried' /\ (request_complete text = true \/ data = []) | Err _ => released = carried' end) ->
  read_spec dl got carried [t] r released.
Proof.
  intros Ht Hj Hr. unfold read_spec. rewrite fds_of_cons, data_of_cons, Ht. cbn [fst snd fds_of data_of fmap list_fmap mjoin list_join]. rewrite !app_nil_r, (joins_perm _ _ _ _ Hj).
  destruct r as [[text c]|]; [|subst; cbn; by rewrite app_nil_r]. destruct Hr as (-> & -> & ? & -> & Hd). split; [done|]. split_and!; [done..| |].
  - destruct Hj as [[-> ->]|(-> & -> & ->)]; [by left|]. right. split_and!; [done..|]. exists [], t, []. by rewrite Ht.
  - destruct Hd as [?|Hd]; [by left|]. right. exists [], t. by rewrite Ht.
Qed.

Lemma no_nul l : existsb (fun b => Z_of_byte b =? 0) l = false -> Forall (fun b => Z_of_byte b <> 0) l.
Proof.
  intros H. apply Forall_forall. intros b Hb Hz. apply not_true_iff_false in H. apply H, existsb_exists. exists b. split; [by apply list_elem_of_In|by apply Z.eqb_eq].
Qed.

Lemma read_loop_spec dl turns : forall got carried r released, within got carried -> read_loop dl turns got carried = Some (r, released) ->
  exists used rest, turns = used ++ rest /\ read_spec dl got carried used r released.
Proof.
  induction turns as [|t turns IH]; intros got carried r released Hw H; [done|]. cbn [read_loop] in H.
  assert (forall got' carried', within got' carried' -> read_loop dl turns got' carried' = Some (r, released) ->
    (forall used, read_spec dl got' carried' used r released -> read_spec dl got carried (t :: used) r released) ->
    exists used rest, t :: turns = used ++ rest /\ read_spec dl got carried used r released) as Hnext.
  { intros got' carried' Hw' Hr Hs. destruct (IH _ _ _ _ Hw' Hr) as (used & rest & -> & Hu). exists (t :: used), rest. auto. }
  assert (read_spec dl got carried [t] r released -> exists used rest, t :: turns = used ++ rest /\ read_spec dl got carried used r released) as Hstop
    by (intros Hs; by exists [t], turns).
  assert (taken dl t = ([], []) -> read_loop dl turns got carried = Some (r, released) -> exists used rest, t :: turns = used ++ rest /\ read_spec dl got carried used r released) as Hskip
    by (intros Ht Hr; eapply Hnext; [done..|]; intros used; by apply read_spec_skip).
  unfold taken in Hskip. destruct (Z.leb_spec (dl - t_now t) 0) as [Hl|Hl].
  { injection H as <- <-. apply Hstop. eapply (read_spec_refuse _ _ _ _ []). unfold taken. by rewrite (proj2 (Z.ltb_ge _ _)) by lia. }
  rewrite (proj2 (Z.ltb_lt (t_now t) dl)) in Hskip by lia. cbn [andb] in Hskip.
  destruct (Z.ltb_spec (t_ready t) 0) as [Hn|Hn].
  { rewrite (proj2 (Z.ltb_ge 0 (t_ready t))) in Hskip by lia. destruct (t_interrupted t); [by apply Hskip|]. injection H as <- <-. apply Hstop, (read_spec_refuse _ _ _ _ []).
    unfold taken. by rewrite (proj2 (Z.ltb_ge 0 (t_ready t))), andb_false_r by lia. }
  destruct (Z.eqb_spec (t_ready t) 0) as [Hz|Hz]; [rewrite (proj2 (Z.ltb_ge 0 (t_ready t))) in Hskip by lia; by apply Hskip|].
  rewrite (proj2 (Z.ltb_lt 0 (t_ready t))) in Hskip by lia.
  assert (forall a b c, t_recv t = Message a b c -> taken dl t = (take BUFFER a, b)) as Htk.
  { intros a b c Hr. unfold taken. by rewrite (proj2 (Z.ltb_lt (t_now t) dl)), (proj2 (Z.ltb_lt 0 (t_ready t))), Hr by lia. }
  destruct (t_recv t) as [| |data fds truncated] eqn:Hr; [by apply Hskip| |].
  { injection H as <- <-. apply Hstop, (read_spec_refuse _ _ _ _ []). unfold taken. by rewrite Hr; destruct (_ && _). }
  specialize (Htk _ _ _ eq_refl). clear Hskip. destruct (truncated || _).
  { injection H as <- <-. apply Hstop, read_spec_refuse. by rewrite Htk. }
  set (d := take BUFFER data) in *.
  assert (forall carried', joins got carried fds carried' -> zlen carried' <= MAX_CARRIED ->
    keep (read_loop dl turns) got d carried' = Some (r, released) ->
    exists used rest, t :: turns = used ++ rest /\ read_spec dl got carried used r released) as Hgo.
  2: { destruct fds as [|fd fds]; [eapply Hgo; [by left|apply Hw|exact H]|].
       case_bool_decide as Hg; cbn [negb orb] in H; [|injection H as <- <-; apply Hstop, (read_spec_refuse _ _ _ _ (fd :: fds)); by rewrite Htk].
       case_bool_decide as Hc; cbn [negb] in H; [|injection H as <- <-; apply Hstop, (read_spec_refuse _ _ _ _ (fd :: fds)); by rewrite Htk].
       destruct (Z.ltb_spec MAX_CARRIED (zlen (fd :: fds))); [injection H as <- <-; apply Hstop, (read_spec_refuse _ _ _ _ (fd :: fds)); by rewrite Htk|].
       eapply Hgo; [by right|lia|exact H]. }
  clear H. intros carried' Hj Hlc H. destruct Hw as (Hw1 & Hw2 & Hw3). unfold keep in H. destruct d as [|b0 d0] eqn:Hd; [|rewrite <- Hd in *].
  { injection H as <- <-. apply Hstop. eapply read_spec_stop; [done..|]. split_and!; [done|by rewrite app_nil_r|by split_and!|done|by right]. }
  destruct (Z.ltb_spec MAX_REQUEST (zlen (got ++ d))); [injection H as <- <-; apply Hstop; by eapply read_spec_stop|].
  destruct (existsb _ (got ++ d)) eqn:Hnul; [injection H as <- <-; apply Hstop; by eapply read_spec_stop|]. apply no_nul in Hnul.
  destruct (request_complete (got ++ d)) eqn:Hcomp.
  - injection H as <- <-. apply Hstop. eapply read_spec_stop; [done..|]. split_and!; [done|done|by split_and!|done|by left].
  - eapply Hnext; [|exact H|]; [by split_and!|]. intros used. eapply read_spec_next; [done..|congruence].
Qed.

Lemma request_loop_ends dl turns : forall got carried, Exists (fun t => dl <= t_now t) turns -> is_Some (read_loop dl turns got carried).
Proof.
  induction turns as [|t turns IH]; intros got carried H; [by inversion H|]. cbn [read_loop].
  destruct (Z.leb_spec (dl - t_now t) 0); [done|]. apply Exists_cons in H as [?|H]; [lia|].
  assert (forall d c, is_Some (keep (read_loop dl turns) got d c)) as Hk by (intros d c; unfold keep; repeat case_match; eauto).
  repeat case_match; eauto.
Qed.

(** C29: whatever comes over its connection and however it is cut, the reading of a
    request has ended by its deadline. Every descriptor that came is kept or released, none of
    them twice; a request that is read is the bytes in their order, at most 16 KiB without a zero
    byte, whole or ended by its sender, with at most three descriptors, which came before any of
    its bytes were read or with the first. *)
Theorem request_read (deadline : Z) (turns : list Turn) :
  (Exists (fun t => deadline <= t_now t) turns -> is_Some (read_request deadline turns)) /\
  match read_request deadline turns with
  | Some (r, released) => exists used rest, turns = used ++ rest /\ fds_of deadline used ≡ₚ released ++ kept r /\
      match r with
      | Ok (text, carried) => released = [] /\ text = data_of deadline used /\ within text carried /\ came_first deadline [] [] used carried /\
          (request_complete text = true \/ exists u t, used = u ++ [t] /\ (taken deadline t).1 = [])
      | Err _ => True
      end
  | None => True
  end.
Proof.
  split; [apply request_loop_ends|]. destruct (read_request deadline turns) as [[r released]|] eqn:H; [|done].
  apply read_loop_spec in H as (used & rest & -> & Hp & Hr); [|by split_and!]. by exists used, rest.
Qed.

(** ** Launches *)
Lemma run_options_iff ws : forall r r', run_options ws r = Ok r' <->
  Forall (fun w => w = WAYLAND \/ w = PASS_FD) ws /\
  r' = mkRequest (rq_zone r) (rq_wayland r || bool_decide (WAYLAND ∈ ws)) (rq_wants_fd r || bool_decide (PASS_FD ∈ ws)) (rq_argv r).
Proof.
  induction ws as [|w ws IH]; intros r r'; cbn [run_options].
  - rewrite !orb_false_r. destruct r. naive_solver.
  - rewrite Forall_cons. destruct (decide (w = WAYLAND)) as [->|Hw]; [|destruct (decide (w = PASS_FD)) as [->|Hp]].
    + rewrite (bool_decide_eq_true_2 (WAYLAND = WAYLAND)) by done. rewrite IH. cbn [rq_zone rq_wayland rq_wants_fd rq_argv].
      rewrite (bool_decide_eq_true_2 (WAYLAND ∈ WAYLAND :: ws)) by set_solver. rewrite orb_true_r.
      rewrite (bool_decide_ext (PASS_FD ∈ WAYLAND :: ws) (PASS_FD ∈ ws)) by (rewrite elem_of_cons; naive_solver). naive_solver.
    + rewrite (bool_decide_eq_false_2 (PASS_FD = WAYLAND)), (bool_decide_eq_true_2 (PASS_FD = PASS_FD)) by done. rewrite IH. cbn [rq_zone rq_wayland rq_wants_fd rq_argv].
      rewrite (bool_decide_eq_true_2 (PASS_FD ∈ PASS_FD :: ws)) by set_solver. rewrite orb_true_r.
      rewrite (bool_decide_ext (WAYLAND ∈ PASS_FD :: ws) (WAYLAND ∈ ws)) by (rewrite elem_of_cons; naive_solver). naive_solver.
    + rewrite (bool_decide_eq_false_2 (w = WAYLAND)), (bool_decide_eq_false_2 (w = PASS_FD)) by done. naive_solver.
Qed.
Definition arg_line (a : text) : text := ARG ++ a.
Lemma run_lines_iff ls : forall argv argv', run_lines ls argv = Ok (argv', true) <->
  exists args after, ls = (arg_line <$> args) ++ END :: after /\ argv' = argv ++ args.
Proof.
  induction ls as [|l ls IH]; intros argv argv'; cbn [run_lines].
  - split; [done|]. by intros ([|] & after & ? & _).
  - case_bool_decide as He.
    + subst l. split; [intros [= <-]; exists [], ls; by rewrite app_nil_r|]. intros ([|a args] & after & H & ->); [by rewrite app_nil_r|done].
    + destruct (strip_prefix ARG l) as [a|] eqn:Hs.
      * apply strip_prefix_iff in Hs as ->. rewrite IH. split.
        -- intros (args & after & -> & ->). exists (a :: args), after. by rewrite <- app_assoc.
        -- intros ([|a' args] & after & H & ->); [done|]. injection H as <- ->. exists args, after. by rewrite <- app_assoc.
      * split; [done|]. intros ([|a' args] & after & H & ->); [by injection H|]. injection H as -> _. pose proof (proj2 (strip_prefix_iff ARG (arg_line a') a') eq_refl). congruence.
Qed.

(** A launch request's lines, in full: its first line's words, the command's words, an [end]. *)
Definition run_form (s : text) (r : Request) : Prop := exists first opts after,
  lines s = first :: (arg_line <$> rq_argv r) ++ END :: after /\ words first = RUN :: rq_zone r :: opts /\
  Forall (fun w => w = WAYLAND \/ w = PASS_FD) opts /\
  rq_wayland r = bool_decide (WAYLAND ∈ opts) /\ rq_wants_fd r = bool_decide (PASS_FD ∈ opts) /\
  ident_ok (rq_zone r) = true /\ rq_argv r <> [].
Lemma run_iff s r : parse_run s = Ok r <-> run_form s r.
Proof.
  unfold parse_run, run_form. destruct (lines s) as [|first rest]; [split; [done|naive_solver]|].
  destruct (words first) as [|w ws] eqn:Hws; [split; [done|]; intros (? & ? & ? & [= <- _] & ? & _); congruence|].
  case_bool_decide as Hw; cbn [negb]; [subst w|split; [done|]; intros (? & ? & ? & [= <- _] & ? & _); congruence].
  destruct ws as [|zone opts]; [split; [done|]; intros (? & ? & ? & [= <- _] & ? & _); congruence|].
  destruct (ident_ok zone) eqn:Hid; cbn [negb]; [|split; [done|]; intros (? & ? & ? & [= <- _] & ? & ? & ? & ? & ? & _); congruence].
  split.
  - intros H. destruct (run_options opts _) as [r1|] eqn:Ho; [|done]. cbn in H. destruct (run_lines rest []) as [[argv ended]|] eqn:Hl; [|done]. cbn in H.
    destruct ended; [|done]. case_bool_decide as Ha; [done|]. injection H as <-. apply run_options_iff in Ho as [Hf ->]. apply run_lines_iff in Hl as (args & after & -> & ->).
    exists first, opts, after. split_and!; done.
  - intros (first' & opts' & after & [= <- ->] & Hw' & Hf & H1 & H2 & H3 & H4). rewrite Hws in Hw'. injection Hw' as -> ->. cbn [mbind].
    rewrite (proj2 (run_options_iff _ _ _) (conj Hf eq_refl)). cbn. rewrite (proj2 (run_lines_iff _ _ _)) by (eexists _, _; split; [reflexivity|]; by rewrite app_nil_l). cbn.
    rewrite bool_decide_eq_false_2 by done. rewrite <- H1, <- H2. by destruct r.
Qed.

(** ** Saved networks *)
Definition ssid_line (v : text) : text := SSID ++ v.
Definition psk_line (v : text) : text := PSK ++ v.
Definition seen_lines (s : Seen) : list text :=
  (ssid_line <$> option_list (s_ssid s)) ++ (psk_line <$> option_list (s_psk s)) ++ (if s_open s then [OPEN] else []) ++ (if s_hidden s then [HIDDEN] else []).
Definition forgets (s : Seen) : Prop := s_psk s = None /\ s_open s = false /\ s_hidden s = false.
Lemma wifi_line_sound adds l s s' : wifi_line adds l s = Ok s' -> (adds = false -> forgets s) ->
  seen_lines s' ≡ₚ seen_lines s ++ [l] /\ (adds = false -> forgets s').
Proof.
  unfold wifi_line, seen_lines, forgets. intros H Hs. destruct s as [ss sp so sh]; cbn [s_ssid s_psk s_open s_hidden] in *.
  destruct (strip_prefix SSID l) as [v|] eqn:Hl.
  { apply strip_prefix_iff in Hl as ->. destruct ss; [done|]. injection H as <-. cbn [s_ssid s_psk s_open s_hidden]. split; [|done]. cbn. fold (ssid_line v). solve_Permutation. }
  destruct adds; [|by cbn in H]. destruct (strip_prefix PSK l) as [v|] eqn:Hp; cbn [andb] in H.
  { apply strip_prefix_iff in Hp as ->. destruct sp; [done|]. injection H as <-. cbn [s_ssid s_psk s_open s_hidden]. split; [|done]. cbn [option_list fmap list_fmap app]. fold (psk_line v). solve_Permutation. }
  case_bool_decide as Ho; [subst l; destruct so; [done|]; injection H as <-; cbn [s_ssid s_psk s_open s_hidden]; split; [|done]; solve_Permutation|].
  case_bool_decide as Hh; [subst l; destruct sh; [done|]; injection H as <-; cbn [s_ssid s_psk s_open s_hidden]; split; [|done]; rewrite app_nil_r, <- !app_assoc; done|done].
Qed.
Lemma wifi_lines_sound adds ls : forall s s', wifi_lines adds ls s = Ok (s', true) -> (adds = false -> forgets s) ->
  exists body after, ls = body ++ END :: after /\ seen_lines s' ≡ₚ seen_lines s ++ body /\ (adds = false -> forgets s').
Proof.
  induction ls as [|l ls IH]; intros s s' H Hs; cbn [wifi_lines] in H; [done|]. case_bool_decide as He.
  - injection H as <-. subst l. exists [], ls. rewrite app_nil_r. by split_and!.
  - destruct (wifi_line adds l s) as [s1|] eqn:Hl; [|done]. cbn in H. apply wifi_line_sound in Hl as [Hp Hf]; [|done].
    apply IH in H as (body & after & -> & Hp' & Hf'); [|done]. exists (l :: body), after. split_and!; [done| |done]. rewrite Hp', Hp, <- app_assoc. done.
Qed.

Definition verb_of (adds : bool) : text := if adds then WIFI_ADD else WIFI_FORGET.
Definition as_seen (w : WifiRequest) : Seen := mkSeen (Some (w_ssid w)) (w_psk w) (w_open w) (w_hidden w).
(** An added network has a passphrase or is open, one of them; a forgotten one has its name alone. *)
Definition wifi_ok (adds : bool) (w : WifiRequest) : Prop :=
  if adds then (is_Some (w_psk w) /\ w_open w = false) \/ (w_psk w = None /\ w_open w = true) else forgets (as_seen w).
Definition wifi_form (s : text) (w : WifiRequest) : Prop := exists adds body after,
  lines s = verb_of adds :: body ++ END :: after /\ body ≡ₚ seen_lines (as_seen w) /\ wifi_ok adds w.
Lemma wifi_sound s w : parse_wifi s = Ok w -> wifi_form s w.
Proof.
  unfold parse_wifi. intros H. set (adds := bool_decide (default [] (head (lines s)) = WIFI_ADD)) in *.
  assert (head (lines s) = Some (verb_of adds)) as Hh.
  { unfold adds, verb_of in *. destruct (lines s) as [|v rest]; [done|]. cbn [head default] in *. case_bool_decide; [by f_equal|]. cbn [negb andb] in H. case_bool_decide; [by f_equal|done]. }
  clearbody adds. destruct (negb adds && _); [done|]. destruct (wifi_lines adds (tail (lines s)) _) as [[seen ended]|] eqn:Hl; [|done]. cbn in H. destruct ended; [|done].
  cbn [negb] in H. destruct (s_ssid seen) as [ssid|] eqn:Hss; [|done]. cbn in H. destruct (adds && _) eqn:Ha; [done|]. injection H as <-.
  apply wifi_lines_sound in Hl as (body & after & Hb & Hp & Hf); [|done]. exists adds, body, after.
  assert (as_seen (mkWifi ssid (s_psk seen) (s_open seen) (s_hidden seen)) = seen) as He by (destruct seen; cbn in *; by subst).
  split_and!; [|by rewrite He, Hp|].
  - destruct (lines s) as [|v rest]; [done|]. cbn in Hh, Hb. injection Hh as ->. by rewrite Hb.
  - unfold wifi_ok. destruct adds; [|by rewrite He; apply Hf]. cbn in *. destruct (s_psk seen) as [k|], (s_open seen); try done; [left|right]; eauto.
Qed.
Definition render_wifi (adds : bool) (w : WifiRequest) : text := unlines (verb_of adds :: seen_lines (as_seen w) ++ [END]).
Lemma plain_app p v : 10 ∉ p -> last p <> Some 13 -> plain_line v -> plain_line (p ++ v).
Proof. intros Hp1 Hp2 [Hv1 Hv2]. split; [set_solver|]. rewrite last_app. destruct (last v); [congruence|done]. Qed.
Lemma plain_const p : negb (existsb (Z.eqb 10) p) && negb (bool_decide (last p = Some 13)) = true -> plain_line p.
Proof.
  intros [H1 H2]%andb_true_iff. apply negb_true_iff in H1, H2. apply bool_decide_eq_false in H2. split; [|done]. intros Hn. apply not_true_iff_false in H1. apply H1, existsb_exists.
  exists 10. split; [by apply list_elem_of_In|done].
Qed.
Lemma wifi_render_plain adds w : plain_line (w_ssid w) -> (forall k, w_psk w = Some k -> plain_line k) -> Forall plain_line (verb_of adds :: seen_lines (as_seen w) ++ [END]).
Proof.
  intros Hs Hk. constructor; [by destruct adds; apply plain_const|]. destruct w as [ss pk op hi]. cbn [w_ssid w_psk] in *.
  unfold seen_lines, as_seen. cbn [s_ssid s_psk s_open s_hidden w_ssid w_psk w_open w_hidden]. rewrite !Forall_app. split_and!.
  - apply Forall_singleton, (plain_app SSID); [by apply (plain_const SSID)..|done].
  - destruct pk as [k|]; [|done]. apply Forall_singleton, (plain_app PSK); [by apply (plain_const PSK)..|by apply Hk].
  - destruct op; [|done]. by apply Forall_singleton, plain_const.
  - destruct hi; [|done]. by apply Forall_singleton, plain_const.
  - by apply Forall_singleton, plain_const.
Qed.
Lemma wifi_reads adds w : wifi_ok adds w -> plain_line (w_ssid w) -> (forall k, w_psk w = Some k -> plain_line k) -> parse_wifi (render_wifi adds w) = Ok w.
Proof.
  intros Hok Hs Hk. unfold parse_wifi, render_wifi. rewrite lines_unlines by by apply wifi_render_plain. cbn [head default tail].
  destruct adds, w as [ss [pk|] op hi]; unfold wifi_ok, forgets, as_seen in Hok; cbn in Hok; destruct op; try naive_solver; destruct hi; try naive_solver; reflexivity.
Qed.

(** C30: a launch request is accepted exactly when its lines have the one form it may
    have (a plain zone name, options among the two, the command's words one to a line, an [end]),
    and means what they say; a change to the saved networks that is accepted is its lines in some
    order, each kind once, with a passphrase or [open] but not both; and every such change, as
    written, is read back. *)
Theorem requests_exact (s : text) :
  (forall r, parse_run s = Ok r <-> run_form s r) /\
  (forall w, parse_wifi s = Ok w -> wifi_form s w) /\
  (forall adds w, wifi_ok adds w -> plain_line (w_ssid w) -> (forall k, w_psk w = Some k -> plain_line k) -> parse_wifi (render_wifi adds w) = Ok w).
Proof. split_and!; [apply run_iff|apply wifi_sound|apply wifi_reads]. Qed.

(** ** The net zone's words *)
Definition printed_ok (s : text) : Prop := Forall (fun c => is_control c = false) s.
Lemma show_printed n : 0 <= n -> printed_ok (Registry.show_num n).
Proof. intros Hn. destruct (show_num_digits n Hn) as (_ & Hd & _). eapply Forall_impl; [exact Hd|]. cbv beta. intros c Hc. unfold is_control, between. lia. Qed.
Lemma const_printed s : forallb (fun c => negb (is_control c)) s = true -> printed_ok s.
Proof. rewrite forallb_Forall. intros H. eapply Forall_impl; [exact H|]. cbv beta. intros c Hc. by apply negb_true_iff. Qed.
Lemma app_printed s s' : printed_ok s -> printed_ok s' -> printed_ok (s ++ s').
Proof. intros. by apply Forall_app. Qed.
#[local] Hint Resolve app_printed show_printed : core.
#[local] Hint Extern 3 (printed_ok _) => apply const_printed; vm_compute; reflexivity : core.

Lemma hex_value_range c v : Wifi.hex_value c = Some v -> 0 <= v < 16.
Proof. unfold Wifi.hex_value, is_digit, between. intros H. repeat case_match; simplify_eq; lia. Qed.
Lemma from_hex2_range a b v : Wifi.from_hex2 [a; b] = Some v -> 0 <= v < 256.
Proof.
  unfold Wifi.from_hex2. destruct (Wifi.hex_value a) as [x|] eqn:Hx; cbn; [|done]. destruct (Wifi.hex_value b) as [y|] eqn:Hy; cbn -[Z.mul]; [|done].
  intros [= <-]. apply hex_value_range in Hx, Hy. lia.
Qed.
Lemma unescape_range n : forall b out, (length b < n)%nat -> Wifi.unescape_iw b = Some out -> Forall (fun c => 0 <= c < 256) out.
Proof.
  induction n as [|n IH]; intros b out Hn H; [lia|]. destruct b as [|c r]; cbn [Wifi.unescape_iw length] in H, Hn; [by injection H as <-|]. destruct (c =? 92).
  - destruct r as [|x [|h1 [|h2 r']]]; try done. destruct (_ && _); [|done]. destruct (Wifi.from_hex2 [h1; h2]) as [v|] eqn:Hv; cbn [mbind option_bind] in H; [|done].
    destruct (Wifi.unescape_iw r') as [o|] eqn:Ho; cbn [mbind option_bind] in H; [|done]. injection H as <-. constructor; [by eapply from_hex2_range|]. eapply IH; [|done]. cbn in Hn. lia.
  - destruct (_ || _) eqn:Hc; [|done]. destruct (Wifi.unescape_iw r) as [o|] eqn:Ho; cbn [mbind option_bind] in H; [|done]. injection H as <-.
    constructor; [unfold is_graphic, between in Hc; lia|]. eapply IH; [|done]. lia.
Qed.
Lemma ssid_range p b : Wifi.ssid_from_iw p = Some b -> Forall (fun c => 0 <= c < 256) b.
Proof.
  unfold Wifi.ssid_from_iw. destruct (Wifi.unescape_iw _) as [o|] eqn:Ho; cbn; [|done]. destruct (_ && _); [|done]. intros [= <-]. eapply unescape_range; [apply Nat.lt_succ_diag_r|exact Ho].
Qed.
Lemma shown_byte_printed c : 0 <= c < 256 -> printed_ok (shown_byte c).
Proof.
  intros Hc. unfold shown_byte. destruct (_ || _) eqn:H.
  - apply Forall_singleton. unfold is_graphic, is_control, between in *. lia.
  - apply app_printed; [auto|]. assert (0 <= c / 16 < 16 /\ 0 <= c mod 16 < 16) as [? ?] by (split; [split; [apply Z.div_pos; lia|apply Z.div_lt_upper_bound; lia]|apply Z.mod_pos_bound; lia]).
    assert (forall d, 0 <= d < 16 -> is_control (Wifi.hex_digit d) = false) as Hd by (intros d Hd; unfold Wifi.hex_digit, is_control, between; case_match; lia).
    apply Forall_cons; split; [auto|apply Forall_singleton; auto].
Qed.

Section quoting.
(** Rust's debug form of a string escapes what does not print. *)
Context (quoted : text -> text) (Hq : forall s, printed_ok (quoted s)).
Lemma shown_printed b : Forall (fun c => 0 <= c < 256) b -> printed_ok (shown quoted b).
Proof.
  intros Hb. assert (printed_ok (mjoin (shown_byte <$> b))) as Hm.
  { induction Hb as [|c b Hc _ IH]; [constructor|]. rewrite join_fmap_cons. apply app_printed; [by apply shown_byte_printed|done]. }
  unfold shown. case_match; [done|]. apply app_printed; [auto|]. apply app_printed; [done|auto].
Qed.
Lemma named_printed p w : named quoted p = Some w -> printed_ok w.
Proof. unfold named. destruct (Wifi.ssid_from_iw p) as [b|] eqn:Hb; cbn; [|done]. intros [= <-]. by eapply shown_printed, ssid_range. Qed.
Lemma octet_nonneg s n : parse_octet s = Some n -> 0 <= n.
Proof.
  unfold parse_octet. destruct (_ || _); [done|]. destruct (digits_from 0 s) as [v|] eqn:Hv; cbn; [|done]. case_match; [|done]. intros [= <-]. by eapply digits_from_nonneg; [|done].
Qed.
Lemma v4_printed s ip : parse_v4 s = Some ip -> printed_ok (show_v4 ip).
Proof.
  unfold parse_v4. destruct (split 46 s) as [|a [|b [|c [|d [|]]]]]; try done.
  destruct (parse_octet a) as [x|] eqn:Ha; cbn; [|done]. destruct (parse_octet b) as [y|] eqn:Hb; cbn; [|done].
  destruct (parse_octet c) as [z|] eqn:Hc; cbn; [|done]. destruct (parse_octet d) as [w|] eqn:Hd; cbn; [|done]. intros [= <-].
  apply octet_nonneg in Ha, Hb, Hc, Hd. unfold show_v4. repeat apply app_printed; auto.
Qed.
Lemma uplink_printed rest w : uplink_words rest = Some w -> printed_ok w.
Proof.
  unfold uplink_words. destruct (field _ rest) as [a|]; cbn [mbind option_bind]; [|done]. case_bool_decide; [intros <-%(inj Some); auto|].
  destruct (split_once 47 a) as [[i l]|]; cbn [mbind option_bind]; [|done]. destruct (parse_v4 i) as [ip|] eqn:Hi; cbn [mbind option_bind]; [|done].
  destruct (parse_u8 l) as [n|] eqn:Hn; cbn [mbind option_bind]; [|done]. case_match; [|done]. intros <-%(inj Some). apply parse_unsigned_range in Hn. apply v4_printed in Hi.
  repeat apply app_printed; try apply show_printed; auto; lia.
Qed.
Lemma dns_printed rest w : dns_words rest = Some w -> printed_ok w.
Proof. unfold dns_words. destruct (field _ rest); cbn [mbind option_bind]; [|done]. repeat case_bool_decide; try done; intros <-%(inj Some); auto. Qed.
Lemma wifi_printed rest w : wifi_words quoted rest = Some (Some w) -> printed_ok w.
Proof.
  unfold wifi_words. destruct (find_text _ rest) as [f|]; cbn [mbind option_bind]; [|done]. destruct (rfind_text _ rest) as [t|]; cbn [mbind option_bind]; [|done].
  destruct (negb _); [done|]. set (p := take _ _). case_bool_decide; [done|].
  do 4 (case_bool_decide; [intros <-%(inj Some)%(inj Some); by auto|]). destruct (strip_prefix _ p) as [q|].
  - destruct (named quoted q) as [n|] eqn:Hn; cbn [mbind option_bind]; [|done]. intros <-%(inj Some)%(inj Some). apply named_printed in Hn. repeat apply app_printed; auto.
  - destruct (named quoted p) as [n|] eqn:Hn; cbn [mbind option_bind]; [|done]. intros <-%(inj Some)%(inj Some). apply named_printed in Hn. repeat apply app_printed; auto.
Qed.
End quoting.

(** Whatever line the net zone writes for its status, what is shown of it holds no
    control character, given that Rust's quoting of a string holds none: an SSID is shown quoted,
    or byte by byte with what does not print escaped. *)
Theorem net_words (quoted : text -> text) (line w : text) :
  (forall s, printed_ok (quoted s)) -> net_summary quoted line = Some w -> printed_ok w.
Proof.
  intros Hq. unfold net_summary. destruct (strip_prefix (chars "NOT READY") line); [intros <-%(inj Some); auto|].
  destruct (strip_prefix (chars "READY ") line) as [rest|]; cbn [mbind option_bind]; [|done].
  destruct (uplink_words rest) as [u|] eqn:Hu; cbn [mbind option_bind]; [|done]. destruct (dns_words rest) as [d|] eqn:Hd; cbn [mbind option_bind]; [|done].
  destruct (wifi_words quoted rest) as [wi|] eqn:Hw; cbn [mbind option_bind]; [|done]. intros <-%(inj Some). apply uplink_printed in Hu. apply dns_printed in Hd.
  destruct wi as [x|]; [apply wifi_printed in Hw; [|done]|]; repeat apply app_printed; auto.
Qed.
Definition net_line : text := chars "READY uplink=192.168.1.7/24 dns=yes wifi=caf\xe9\x1b[2J time=12".
Definition bare (s : text) : text := List.filter (fun c => negb (is_control c)) s.
Definition net_shown : text := Eval vm_compute in default [] (net_summary bare net_line).
Lemma net_words_witness : net_summary bare net_line = Some net_shown /\ printed_ok net_shown.
Proof.
  assert (net_summary bare net_line = Some net_shown) as H by (vm_compute; reflexivity). split; [exact H|]. apply (net_words bare net_line); [|exact H].
  intros s. apply const_printed, forallb_forall. intros c Hc%filter_In. apply Hc.
Defined.
