(* ===== verification/Serve.v ===== *)
(** * The launch daemon: src/compartments/kryptikd/src/serve.rs

    [handle] serves one connection, [turn] is one round of the daemon's loop: jobs and launches in
    flight, the children that end, the battery while the state partition is suspended, and the
    next connection. What the system and the parts of the daemon that are not in this file answer
    comes from an [Env], by its place in the log; the runs of Suspend and Stick are in the log
    with their own traces. Connections are numbered as they are accepted. *)
From S2P Require Import Prelude Bytes Text Zone Registry Password Tools Volume Stick Suspend Requests.
Open Scope string_scope.
Open Scope list_scope.
Open Scope Z_scope.

Module Serve.
Import Requests Password.

(** In nanoseconds. *)
Definition SETTLE : Z := 300 * 1000000.
Definition LAUNCH_DEADLINE : Z := 30 * 1000000000.
Definition NOTICE_EVERY : Z := 3600 * 1000000000.
Definition SEALED_EVERY : Z := 30 * 1000000000.
Definition EXIT_WITHIN : Z := 500 * 1000000.
Definition EXIT_ROUND : Z := 10 * 1000000.

Record ServeConfig := mkConfig { c_developer : bool; c_euid : Z; c_group : text }.

Inductive JobKind :=
| Stop (uid : Z) (zone : text) | UpdateApply | WifiScan | Sleep | Desktop (uid : Z) | StickEject (uid : Z) (zone : text).
#[global] Instance jobkind_eq : EqDecision JobKind.
Proof. solve_decision. Defined.
Record Job := mkJob { j_conn : Z; j_pid : Z; j_what : JobKind; j_exited : option Z }.
Record Pending := mkPending { pe_conn : Z; pe_pid : Z; pe_zone : text; pe_uid : Z; pe_started : Z; pe_ready_at : option Z; pe_exited : option Z }.
Record Proxy := mkProxy { px_session : Z; px_zone : text; px_pid : Z; px_socket : text; px_upstream : InodeId }.
Record Pauses := mkPauses { login : Attempts; state : Attempts; zone : Attempts }.

(** ** What is asked of the system and of the daemon's other parts *)
Inductive Ask : Type -> Type :=
| PeerCred (conn : Z) : Ask (option (Z * Z))
| Turns (conn : Z) : Ask (list Turn)
| Release (fds : list Z) : Ask unit
| Time : Ask Z
| GetGroup (name : text) : Ask (option (Z * list text))
| GetUser (uid : Z) : Ask (option (Z * text))
| Shadow : Ask (option text)
| LoadZones : Ask (result (list Zone) text)
| StateNow (zone : text) : Ask (result Registry.State Registry.RegistryError)
| ZoneNames : Ask (list text)
| FdKind (fd : Z) : Ask (option Z * Z)
| ReadPass (fd : Z) : Ask (result bytes text)
| Part (name : string) (args : list text) : Ask (result text text)
| Upstream (uid : Z) (zone : text) : Ask (option InodeId)
| StartProxy (uid : Z) (zone : text) : Ask (result (Z * text * InodeId) text)
| OpenSocket (path : text) : Ask (result InodeId text)
| Start (what : JobKind) (args : list text) : Ask (result Z text)
| Launch (req : Request) (wayland : option (text * InodeId)) (pass : option Z) : Ask (result Z text)
| Kill (pid : Z) : Ask unit
| WaitFor (pid : Z) : Ask (Z * Z)
| Reaped : Ask (list (Z * Z))
| Output (pid : Z) : Ask text
| Errors (pid : Z) : Ask text
| LogTail (zone : text) : Ask bytes
| NetLine (zone : text) : Ask (option text)
| Nap (ns : Z) : Ask unit
| Battery : Ask ((list Z -> string -> option (list Z)) * option (list (list Z)))
| PowerOff : Ask unit
| Poll (watched : list Z) : Ask (option (list bool * bool))
| ReadReady (pid : Z) : Ask Z
| Accept : Ask bool
| Say (conn : Z) (said : text) : Ask unit
| Started (conn pid : Z) : Ask unit.

Inductive Entry := Asked (A : Type) (q : Ask A) (a : A) | Ran (t : Tools.Trace).
#[global] Arguments Asked {A} _ _.
Record Env := mkEnv { answer : forall A, nat -> Ask A -> A; tools : nat -> Tools.Sys }.

Record Daemon := mkDaemon {
  pending : list Pending; jobs : list Job; pauses : Pauses; proxies : list Proxy;
  sealed_due : option Z; sealed_low : Z; notice_due : option Z; accepted : Z; log : list Entry }.
Definition set_log (l : list Entry) (d : Daemon) : Daemon :=
  mkDaemon (pending d) (jobs d) (pauses d) (proxies d) (sealed_due d) (sealed_low d) (notice_due d) (accepted d) l.
Definition set_pending (l : list Pending) (d : Daemon) : Daemon :=
  mkDaemon l (jobs d) (pauses d) (proxies d) (sealed_due d) (sealed_low d) (notice_due d) (accepted d) (log d).
Definition set_jobs (l : list Job) (d : Daemon) : Daemon :=
  mkDaemon (pending d) l (pauses d) (proxies d) (sealed_due d) (sealed_low d) (notice_due d) (accepted d) (log d).
Definition set_pauses (p : Pauses) (d : Daemon) : Daemon :=
  mkDaemon (pending d) (jobs d) p (proxies d) (sealed_due d) (sealed_low d) (notice_due d) (accepted d) (log d).
Definition set_proxies (l : list Proxy) (d : Daemon) : Daemon :=
  mkDaemon (pending d) (jobs d) (pauses d) l (sealed_due d) (sealed_low d) (notice_due d) (accepted d) (log d).
Definition set_sealed (due : option Z) (low : Z) (d : Daemon) : Daemon :=
  mkDaemon (pending d) (jobs d) (pauses d) (proxies d) due low (notice_due d) (accepted d) (log d).
Definition set_notice (due : option Z) (d : Daemon) : Daemon :=
  mkDaemon (pending d) (jobs d) (pauses d) (proxies d) (sealed_due d) (sealed_low d) due (accepted d) (log d).
Definition set_accepted (n : Z) (d : Daemon) : Daemon :=
  mkDaemon (pending d) (jobs d) (pauses d) (proxies d) (sealed_due d) (sealed_low d) (notice_due d) n (log d).

(** How an error reads. *)
Class Words (E : Type) := words_of : E -> text.

(** The requests never fail: they answer. *)
Inductive Never : Set :=.
Definition never {A : Type} (e : Never) : A := match e with end.
Abbreviation DM := (M Daemon Never).

(** What is owed to the connection once its request is served. *)
Inductive Answer := Said (said : text) | Waits (job : Job) | Begins (job : Job) | Launched (p : Pending).
Definition ok_text : text := Eval vm_compute in chars "ok" ++ [10].
Definition error (why : text) : Answer := Said (chars "error: " ++ why ++ [10]).
Definition err (why : string) : Answer := error (chars why).

Section serve.
Context (env : Env) (cfg : ServeConfig) (crypt : text -> text -> option text) (quoted : text -> text) (show_gb : Z -> text).
Context `{Words ReadError, Words RunError, Words WifiRequestError, Words Suspend.SuspendError, Words Suspend.ResumeError, Words Stick.StickError, Words PasswordError}.

Definition ask {A} (q : Ask A) : DM A := fun d =>
  let a := answer env A (length (log d)) q in (Done a, set_log (log d ++ [Asked q a]) d).
(** A part of the daemon that is a run of system calls. *)
Definition part {E A} (m : Tools.Sys -> M Tools.Trace E A) : DM (result A E) := fun d =>
  let '(r, t) := m (tools env (length (log d))) [] in
  let d := set_log (log d ++ [Ran t]) d in
  match r with Done a => (Done (Ok a), d) | Fail e => (Done (Err e), d) | Panic => (Panic, d) end.
Definition part_of {A} (m : Tools.Sys -> M Tools.Trace Never A) : DM A :=
  r ← part m; match r with Ok a => mret a | Err e => never e end.

(** ** Who is asking *)
Definition in_group (uid : Z) (group : text) : DM bool :=
  if uid =? 0 then mret true
  else
    g ← ask (GetGroup group);
    match g with
    | None => mret false
    | Some (gid, members) =>
      u ← ask (GetUser uid);
      mret (match u with
            | None => false
            | Some (pgid, name) => (pgid =? gid) || bool_decide (name ∈ members)
            end)
    end.
Definition authorised (uid : Z) : DM bool :=
  if c_developer cfg then mret (uid =? c_euid cfg) else in_group uid (c_group cfg).

(** The turns the connection had, then a clock that has run out; what is given up is released,
    and what the connection still queues. *)
Definition recv_request (conn : Z) : DM (result (bytes * list Z) ReadError) :=
  now ← ask Time;
  let deadline := now + REQUEST_DEADLINE in
  turns ← ask (Turns conn);
  match read_request deadline (turns ++ [mkTurn deadline 0 false Again]) with
  | Some (r, released) => ask (Release released);; mret r
  | None => panic
  end.

(** ** Zones *)
Definition zone_named (name : text) : DM (result Zone text) :=
  zones ← ask LoadZones;
  mret (match zones with
        | Err e => Err e
        | Ok zones => ok_or (List.find (fun z => bool_decide (chars (z_name z) = name)) zones) (chars "no zone named " ++ quoted name)
        end).
Definition zone_running (name : text) : DM bool := s ← ask (StateNow name); mret (Suspend.is_running s).
Definition waiting : DM (list text) := part_of (fun sys => Suspend.waiting sys).
Definition state_suspended : DM bool := part_of (fun sys => Suspend.state_suspended sys).
Definition sleep_refused : DM bool := part_of (fun sys => Suspend.sleep_refused sys).
Definition no_sleep : text := chars "the display's driver, virtio-gpu, does not come back from a sleep".

(** [proxies.iter().position(|p| p.zone == zone)], and [remove]. *)
Fixpoint proxy_at (z : text) (l : list Proxy) : option Proxy :=
  match l with [] => None | p :: l => if bool_decide (px_zone p = z) then Some p else proxy_at z l end.
Fixpoint without_proxy (z : text) (l : list Proxy) : list Proxy :=
  match l with [] => [] | p :: l => if bool_decide (px_zone p = z) then l else p :: without_proxy z l end.
Definition running (pid : Z) : DM bool := r ← ask (WaitFor pid); mret (r.1 =? 0).
Definition drop_proxy (p : Proxy) : DM unit :=
  ask (Kill (px_pid p));; modify (fun d => set_proxies (without_proxy (px_zone p) (proxies d)) d).
Definition give_way_proxy (uid : Z) (z : text) : DM (result unit text) :=
  ps ← gets proxies;
  match proxy_at z ps with
  | None => mret (Ok tt)
  | Some p =>
    alive ← running (px_pid p);
    if (alive : bool) && negb (px_session p =? uid) then
      mret (Err (chars "zone " ++ quoted z ++ chars " shows its windows on uid " ++ Registry.show_num (px_session p) ++ chars "'s desktop, one desktop at a time"))
    else
      u ← ask (Upstream uid z);
      let same := match u with Some i => (in_dev i =? in_dev (px_upstream p)) && (in_ino i =? in_ino (px_upstream p)) | None => false end in
      when (negb alive || negb same) (drop_proxy p);;
      mret (Ok tt)
  end.
Definition start_proxy (uid : Z) (z : text) : DM (result Proxy text) :=
  ps ← gets proxies;
  match proxy_at z ps with
  | Some p => mret (Ok p)
  | None =>
    r ← ask (StartProxy uid z);
    match r with
    | Err e => mret (Err e)
    | Ok (pid, socket, upstream) =>
      let p := mkProxy uid z pid socket upstream in
      modify (fun d => set_proxies (proxies d ++ [p]) d);; mret (Ok p)
    end
  end.
Definition proxy_socket (uid : Z) (z : text) : DM (result (text * InodeId) text) :=
  g ← give_way_proxy uid z;
  match g with
  | Err e => mret (Err e)
  | Ok _ =>
    p ← start_proxy uid z;
    match p with
    | Err e => mret (Err e)
    | Ok p =>
      r ← ask (OpenSocket (px_socket p));
      mret (match r with Ok i => Ok (px_socket p, i) | Err e => Err e end)
    end
  end.

(** ** Jobs *)
Definition job_runs (f : JobKind -> bool) : DM bool := gets (fun d => existsb (fun j => f (j_what j)) (jobs d)).
Definition same_kind (k k' : JobKind) : bool := bool_decide (k = k').
(** [start_job] and [fork_job]. *)
Definition start_job (conn : Z) (what : JobKind) (args : list text) (failure : text -> text) : DM Answer :=
  r ← ask (Start what args);
  mret (match r with Ok pid => Waits (mkJob conn pid what None) | Err e => error (failure e) end).
Definition start_sleep (conn : Z) : DM Answer :=
  busy ← job_runs (same_kind Sleep);
  if busy : bool then mret (err "the machine is going to sleep already")
  else start_job conn Sleep [] (fun e => chars "the machine did not sleep: " ++ e ++ chars "; the state partition waits for its passphrase").
Definition start_desktop (conn uid asker : Z) (s : text) (handed : list Z) : DM Answer :=
  if c_developer cfg then mret (err "a developer instance starts no desktop")
  else
    busy ← job_runs (same_kind (Desktop uid));
    if busy : bool then mret (error (chars "uid " ++ Registry.show_num uid ++ chars "'s desktop runs already"))
    else
      r ← ask (Start (Desktop uid) ([Registry.show_num asker; s] ++ (Registry.show_num <$> handed)));
      mret (match r with Ok pid => Begins (mkJob conn pid (Desktop uid) None) | Err e => error e end).

(** ** Secrets *)
Definition check_password (uid : Z) (s : text) : DM Answer :=
  match password_of s with
  | None => mret (err "check-password: the request is `password <PASSWORD>` and `end`, one per line")
  | Some password =>
    u ← ask (GetUser uid);
    match u with
    | None => mret (error (chars "no account has uid " ++ Registry.show_num uid))
    | Some (_, name) =>
      now ← ask Time;
      p ← gets pauses;
      shadow ← (if paused (login p) now then mret None else ask Shadow);
      let '(r, a) := Password.check crypt shadow name password (login p) now in
      modify (set_pauses (mkPauses a (state p) (zone p)));;
      mret (match r with Ok _ => Said ok_text | Err e => error (words_of e) end)
    end
  end.
Definition S_IFIFO : Z := 4096.
Definition S_IFMT : Z := 61440.
Definition in_memory (fd : Z) : DM bool :=
  k ← ask (FdKind fd);
  mret (match k.1 with None => false | Some mode => (Z.land mode S_IFMT =? S_IFIFO) || (0 <=? k.2) end).
Definition wait_words (w : Z) : text := chars "wait " ++ Registry.show_num w ++ chars " s".
(** A passphrase on a descriptor, in memory alone, tried when no pause runs: [get] and [set] are
    the pause, [use] what is done with it. *)
Definition try_passphrase (verb : string) (carried : option Z) (get : Pauses -> Attempts) (set : Attempts -> Pauses -> Pauses)
    (use : bytes -> DM (result unit Suspend.ResumeError)) : DM Answer :=
  now ← ask Time;
  p ← gets pauses;
  match paused (get p) now with
  | Some w => mret (error (wait_words w))
  | None =>
    match carried with
    | None => mret (error (chars verb ++ chars ": the passphrase comes on a descriptor"))
    | Some fd =>
      m ← in_memory fd;
      if negb m then mret (error (chars verb ++ chars ": the passphrase comes in a pipe or a memfd, not a file"))
      else
        pass ← ask (ReadPass fd);
        match pass with
        | Err e => mret (error e)
        | Ok pass =>
          r ← use pass;
          match r with
          | Ok _ => modify (fun d => set_pauses (set (passed (get (pauses d))) (pauses d)) d);; mret (Said ok_text)
          | Err Suspend.Wrong => modify (fun d => set_pauses (set (failed (get (pauses d)) now) (pauses d)) d);; mret (err "wrong passphrase")
          | Err e => mret (error (words_of e))
          end
        end
    end
  end.
Definition set_state (a : Attempts) (p : Pauses) : Pauses := mkPauses (login p) a (zone p).
Definition set_zone (a : Attempts) (p : Pauses) : Pauses := mkPauses (login p) (state p) a.
Definition resume_state_with (pass : bytes) : DM (result unit Suspend.ResumeError) :=
  r ← part (fun sys => Suspend.resume_state sys pass); mret (match r with Ok _ => Ok tt | Err e => Err e end).
Definition while_suspended (first : text) (carried : option Z) : DM Answer :=
  if bool_decide (first = chars "unlock-kind") then mret (Said (chars "ok state" ++ [10]))
  else if bool_decide (first = chars "resume-state") then try_passphrase "resume-state" carried state set_state resume_state_with
  else mret (err "suspended: the state partition waits for its passphrase at the screen lock").

(** ** The verbs of an authorised peer *)
Definition yes_no (b : bool) : text := chars (if b then "yes" else "no").
Definition nl : text := [10].
Definition word (n : nat) (first : text) : text := default [] (words first !! n).

Fixpoint running_lines (zs : list text) : DM text :=
  match zs with
  | [] => mret []
  | z :: zs =>
    r ← zone_running z;
    rest ← running_lines zs;
    mret ((if r : bool then chars "running " ++ z ++ nl else []) ++ rest)
  end.
Definition do_status : DM Answer := zs ← ask ZoneNames; out ← running_lines zs; mret (Said (out ++ chars "end" ++ nl)).

Definition net_status (name : text) : DM (option text) :=
  s ← ask (StateNow name);
  match s with
  | Ok (Registry.Running _ (Some _) _ _) => l ← ask (NetLine name); mret (l ← l; net_summary quoted l)
  | _ => mret None
  end.
Definition do_info (first : text) : DM Answer :=
  let name := word 1 first in
  if negb (ident_ok name) then mret (err "info: bad zone name")
  else
    z ← zone_named name;
    match z with
    | Err e => mret (error e)
    | Ok z =>
      net ← (if bool_decide (z_network z = Nic) then net_status name else mret None);
      r ← zone_running name;
      w ← waiting;
      g ← part (fun sys => Stick.grant_of sys name);
      mret (Said (chars "encrypted " ++ yes_no (bool_decide (z_storage z = Encrypted)) ++ nl
        ++ chars "running " ++ yes_no r ++ nl
        ++ chars "waiting " ++ yes_no (bool_decide (name ∈ w)) ++ nl
        ++ chars "stick " ++ (match g with Ok (Some g) => Stick.mode_text g ++ [32] ++ Stick.g_what g | _ => chars "none" end) ++ nl
        ++ chars "label " ++ chars (default (z_name z) (z_label z)) ++ nl
        ++ (match net with None => [] | Some n => chars "network " ++ n ++ nl end) ++ chars "end" ++ nl))
    end.
Definition ok_with (said : text) : Answer := Said (chars "ok " ++ said ++ nl).
Definition told (r : result text text) : Answer := match r with Ok t => ok_with t | Err e => error e end.
Definition do_runtime (uid : Z) : DM Answer :=
  r ← ask (Part "runtime_dir" [Registry.show_num uid]);
  match r with
  | Err e => mret (error e)
  | Ok d =>
    c ← ask (Part "compositor_dir" [Registry.show_num uid]);
    mret (match c with Ok _ => ok_with d | Err e => error e end)
  end.
Definition do_clipboard_move (first : text) : DM Answer :=
  let from := word 1 first in
  let to := word 2 first in
  if negb (ident_ok from) || negb (ident_ok to) || bool_decide (from = to) then mret (err "clipboard-move needs two different zone names")
  else r ← ask (Part "broker::move_between" [from; to]); mret (told r).

Definition do_suspend (conn : Z) : DM Answer :=
  no ← sleep_refused;
  if no : bool then mret (error no_sleep)
  else if c_developer cfg then mret (err "a developer instance suspends nothing")
  else
    launching ← gets (fun d => negb (bool_decide (length (pending d) = 0%nat)));
    applying ← job_runs (same_kind UpdateApply);
    if launching : bool then mret (err "a zone is starting")
    else if applying : bool then mret (err "an update is being installed")
    else
      r ← part (fun sys => Suspend.seal sys);
      match r with Err e => mret (error (words_of e)) | Ok _ => start_sleep conn end.
Definition do_resume_zone (first : text) (carried : option Z) : DM Answer :=
  let z := word 1 first in
  if negb (ident_ok z) then mret (err "resume-zone: bad zone name")
  else try_passphrase "resume-zone" carried zone set_zone (fun pass => part (fun sys => Suspend.resume_zone sys z pass)).

Definition stick_line (p : Stick.Partition) : text := Stick.p_name p ++ [32] ++ Stick.p_what p ++ nl.
Definition do_sticks : DM Answer :=
  part (fun sys => Stick.reap_pulled sys);;
  r ← part (fun sys => Stick.eligible sys show_gb);
  mret (Said (match r with Ok ps => mjoin (stick_line <$> ps) | Err _ => [] end ++ chars "end" ++ nl)).
Definition do_stick_grant (first : text) : DM Answer :=
  match words first with
  | [_; z; p; m] =>
    if negb (bool_decide (m = chars "ro")) && negb (bool_decide (m = chars "rw")) then mret (err "stick-grant <zone> <partition> ro|rw")
    else if negb (ident_ok z) then mret (err "bad zone name")
    else
      zn ← zone_named z;
      match zn with
      | Err e => mret (error e)
      | Ok zn =>
        g ← part (fun sys => Stick.grant sys show_gb zn p (bool_decide (m = chars "rw")));
        mret (match g with Ok g => ok_with (Stick.mode_text g ++ [32] ++ Stick.g_what g) | Err e => error (words_of e) end)
      end
  | _ => mret (err "stick-grant <zone> <partition> ro|rw")
  end.
Definition ejects (z : text) (k : JobKind) : bool := match k with StickEject _ z' => bool_decide (z' = z) | _ => false end.
Definition do_stick_eject (conn uid : Z) (first : text) : DM Answer :=
  let z := word 1 first in
  if negb (ident_ok z) then mret (err "bad zone name")
  else
    busy ← job_runs (ejects z);
    if busy : bool then mret (error (chars "zone " ++ quoted z ++ chars "'s stick is being taken back already"))
    else start_job conn (StickEject uid z) [z] id.

Definition do_camera_grant (first : text) : DM Answer :=
  let z := word 1 first in
  if negb (ident_ok z) then mret (err "bad zone name")
  else
    zn ← zone_named z;
    match zn with Err e => mret (error e) | Ok _ => r ← ask (Part "camera::grant" [z]); mret (told r) end.
Definition do_camera_revoke : DM Answer := r ← ask (Part "camera::revoke" []); mret (told r).
Definition do_stop (conn uid : Z) (first : text) : DM Answer :=
  let z := word 1 first in
  if negb (ident_ok z) then mret (err "bad zone name")
  else
    ps ← gets proxies;
    match proxy_at z ps with Some p => drop_proxy p | None => mret tt end;;
    start_job conn (Stop uid z) [chars "stop"; z] id.
Definition do_wifi_scan (conn : Z) : DM Answer :=
  busy ← job_runs (same_kind WifiScan);
  if busy : bool then mret (err "a scan is already running") else start_job conn WifiScan [chars "wifi"; chars "scan"] id.

Definition ok_lines (r : result text text) : Answer := match r with Ok t => Said (ok_text ++ t) | Err e => error e end.
Definition is_verb (verb : text) (v : string) : bool := bool_decide (verb = chars v).
Definition do_update (conn : Z) (verb first : text) : DM Answer :=
  applying ← job_runs (same_kind UpdateApply);
  if (is_verb verb "update-fetch" || is_verb verb "update-forget") && (applying : bool) then mret (err "an update is being applied")
  else if is_verb verb "update-status" then r ← ask (Part "update::status" []); mret (ok_lines r)
  else if is_verb verb "update-fetch" then r ← ask (Part "update::want" []); mret (ok_lines r)
  else if is_verb verb "update-forget" then r ← ask (Part "update::forget" []); mret (ok_lines r)
  else if is_verb verb "update-auto" then
    match words first with
    | [_; on] =>
      if bool_decide (on = chars "on") || bool_decide (on = chars "off") then r ← ask (Part "update::set_auto" [on]); mret (ok_lines r)
      else mret (err "update-auto takes on or off")
    | _ => mret (err "update-auto takes on or off")
    end
  else if applying : bool then mret (err "an update is already being applied")
  else
    r ← ask (Part "update::complete_stage" []);
    match r with
    | Err e => mret (error e)
    | Ok stage => start_job conn UpdateApply [chars "apply"; stage] (fun e => chars "/usr/sbin/kryptik-update: " ++ e)
    end.

Definition do_wifi_list : DM Answer :=
  r ← ask (Part "wifi::list" []);
  mret (match r with Ok names => Said (mjoin ((fun n => chars "network " ++ n ++ nl) <$> lines names) ++ chars "end" ++ nl) | Err e => error e end).
Definition do_wifi_change (verb s : text) : DM Answer :=
  match parse_wifi s with
  | Err e => mret (error (words_of e))
  | Ok w =>
    o ← ask (Part "wifi::owner_for" []);
    match o with
    | Err e => mret (error e)
    | Ok owner =>
      r ← ask (if is_verb verb "wifi-add" then Part "wifi::add" ([owner; w_ssid w] ++ option_list (w_psk w) ++ [yes_no (w_hidden w)])
               else Part "wifi::forget" [owner; w_ssid w]);
      match r with
      | Err e => mret (error e)
      | Ok what =>
        restart ← ask (Part "wifi::restart_net_zone" []);
        mret (ok_with (what ++ chars "; " ++ match restart with Ok t | Err t => t end))
      end
    end
  end.

(** The descriptor of a launch: with [pass=fd] and only then. *)
Definition launch_pass (req : Request) (carried : option Z) : result (option Z) text :=
  match rq_wants_fd req, carried with
  | true, Some fd => Ok (Some fd)
  | true, None => Err (chars "pass=fd needs exactly one descriptor, got 0")
  | false, Some _ => Err (chars "a descriptor was sent without pass=fd")
  | false, None => Ok None
  end.
Definition do_run (conn uid : Z) (s : text) (carried : option Z) : DM Answer :=
  match parse_run s with
  | Err e => mret (error (words_of e))
  | Ok req =>
    z ← zone_named (rq_zone req);
    match z with
    | Err e => mret (error e)
    | Ok _ =>
      w ← waiting;
      if bool_decide (rq_zone req ∈ w) then mret (error (chars "zone " ++ quoted (rq_zone req) ++ chars " waits for its volume's passphrase since the machine slept"))
      else
        sock ← (if rq_wayland req then (r ← proxy_socket uid (rq_zone req); mret (match r with Ok s => Ok (Some s) | Err e => Err e end)) else mret (Ok None));
        match sock with
        | Err e => mret (error e)
        | Ok sock =>
          match launch_pass req carried with
          | Err e => mret (error e)
          | Ok pass =>
            r ← ask (Launch req sock pass);
            match r with
            | Err e => mret (error e)
            | Ok pid => now ← ask Time; mret (Launched (mkPending conn pid (rq_zone req) uid now None None))
            end
          end
        end
    end
  end.

Definition serve_verb (conn uid asker : Z) (s : text) (handed : list Z) : DM Answer :=
  let first := default [] (head (lines s)) in
  let verb := default [] (head (words first)) in
  if negb (is_verb verb "desktop") && (1 <? zlen handed) then
    mret (error (chars "at most one descriptor per request but desktop's, got " ++ Registry.show_num (zlen handed)))
  else
    let carried := if is_verb verb "desktop" then None else last handed in
    if is_verb verb "status" then do_status
    else if is_verb verb "info" then do_info first
    else if is_verb verb "runtime" then do_runtime uid
    else if is_verb verb "desktop" then start_desktop conn uid asker s handed
    else if is_verb verb "clipboard-move" then do_clipboard_move first
    else if is_verb verb "unlock-kind" then mret (ok_with (chars "login"))
    else if is_verb verb "resume-state" then mret (err "not suspended: the state partition has its key")
    else if is_verb verb "suspend" then do_suspend conn
    else if is_verb verb "resume-zone" then do_resume_zone first carried
    else if is_verb verb "sticks" then do_sticks
    else if is_verb verb "stick-grant" then do_stick_grant first
    else if is_verb verb "stick-eject" then do_stick_eject conn uid first
    else if is_verb verb "camera-grant" then do_camera_grant first
    else if is_verb verb "camera-revoke" then do_camera_revoke
    else if is_verb verb "stop" then do_stop conn uid first
    else if is_verb verb "wifi-scan" then do_wifi_scan conn
    else if existsb (is_verb verb) ["update-status"; "update-fetch"; "update-forget"; "update-apply"; "update-auto"] then do_update conn verb first
    else if is_verb verb "wifi-list" then do_wifi_list
    else if is_verb verb "wifi-add" || is_verb verb "wifi-forget" then do_wifi_change verb s
    else if is_verb verb "run" then do_run conn uid s carried
    else mret (error (chars "unknown request " ++ quoted verb)).

(** ** A connection *)
(** The request's first line, before it is text. *)
Fixpoint first_bytes (raw : bytes) : bytes :=
  match raw with [] => [] | b :: raw => if Z_of_byte b =? 10 then [] else b :: first_bytes raw end.
Definition suspended_request (conn : Z) : DM Answer :=
  r ← recv_request conn;
  match r with
  | Err e => mret (error (words_of e))
  | Ok (raw, carried) =>
    let first := utf8_lossy (first_bytes raw) in
    if bool_decide (first = chars "suspend") then
      no ← sleep_refused;
      if no : bool then mret (error no_sleep) else start_sleep conn
    else if 1 <? zlen carried then mret (err "at most one descriptor while the state partition is suspended")
    else while_suspended first (last carried)
  end.
Definition handle_request (conn : Z) : DM Answer :=
  peer ← ask (PeerCred conn);
  match peer with
  | None => mret (err "unidentified peer")
  | Some (uid, asker) =>
    s ← state_suspended;
    if s : bool then suspended_request conn
    else
      may ← authorised uid;
      if negb may then mret (error (chars "uid " ++ Registry.show_num uid ++ chars " is not in group " ++ c_group cfg))
      else
        r ← recv_request conn;
        match r with
        | Err e => mret (error (words_of e))
        | Ok (raw, handed) =>
          let s := utf8_lossy raw in
          if bool_decide (head (lines s) = Some CHECK_PASSWORD) then check_password uid s
          else serve_verb conn uid asker s handed
        end
  end.
Definition settle (conn : Z) (a : Answer) : DM unit :=
  match a with
  | Said s => ask (Say conn s)
  | Waits j => modify (fun d => set_jobs (jobs d ++ [j]) d)
  | Begins j => ask (Started conn (j_pid j));; modify (fun d => set_jobs (jobs d ++ [j]) d)
  | Launched p => modify (fun d => set_pending (pending d ++ [p]) d)
  end.
Definition handle (conn : Z) : DM unit := a ← handle_request conn; settle conn a.

(** ** Children that end *)
Definition last_words (errors : text) (otherwise : string) : text :=
  default (chars otherwise) (List.find (fun l => negb (bool_decide (l = []))) (trim <$> reverse (lines errors))).
Definition why (j : Job) (otherwise : string) : DM text := e ← ask (Errors (j_pid j)); mret (last_words e otherwise).
Definition error_text (w : text) : text := chars "error: " ++ w ++ nl.
(** The reply to a job whose command has ended with status [st]. *)
Definition job_reply (j : Job) (st : Z) : DM text :=
  match j_what j with
  | Stop _ _ =>
    if succeeded st then mret ok_text
    else w ← why j "no reason given";
         mret (error_text (chars "stop exited " ++ Registry.show_int (if WIFEXITED st then WEXITSTATUS st else -1) ++ chars ": " ++ w))
  | UpdateApply =>
    if succeeded st then out ← ask (Output (j_pid j)); mret (ok_text ++ out)
    else
      w ← why j "kryptik-update apply failed";
      again ← (if spoiled w then (r ← ask (Part "update::discard_stage" []); mret (match r with Ok _ => true | Err _ => false end)) else mret false);
      mret (error_text (w ++ if again : bool then chars "; what had arrived was discarded and will be fetched again" else []))
  | WifiScan =>
    if succeeded st then out ← ask (Output (j_pid j)); mret (ok_text ++ out)
    else w ← why j "the scan failed"; mret (error_text w)
  | Sleep =>
    if succeeded st then mret (chars "ok woke" ++ nl)
    else w ← why j "no reason given"; mret (error_text (chars "the machine did not sleep: " ++ w ++ chars "; the state partition waits for its passphrase"))
  | Desktop _ =>
    e ← ask (Errors (j_pid j));
    mret (if bool_decide (trim e = []) then chars "ok dwl " ++ exit_text st ++ nl else error_text (chars "dwl did not start: " ++ trim e))
  | StickEject _ _ =>
    if succeeded st then mret ok_text else w ← why j "the stick was not taken back"; mret (error_text w)
  end.
Definition finish_job (j : Job) (st : Z) : DM unit := s ← job_reply j st; ask (Say (j_conn j) s).

Fixpoint mark_job (p st : Z) (l : list Job) : option (list Job) :=
  match l with
  | [] => None
  | j :: l => if j_pid j =? p then Some (mkJob (j_conn j) (j_pid j) (j_what j) (Some st) :: l) else cons j <$> mark_job p st l
  end.
Fixpoint mark_pending (p st : Z) (l : list Pending) : list Pending :=
  match l with
  | [] => []
  | x :: l =>
    if pe_pid x =? p then mkPending (pe_conn x) (pe_pid x) (pe_zone x) (pe_uid x) (pe_started x) (pe_ready_at x) (Some st) :: l
    else x :: mark_pending p st l
  end.
Fixpoint without_pid (p : Z) (l : list Proxy) : option (list Proxy) :=
  match l with [] => None | x :: l => if px_pid x =? p then Some l else cons x <$> without_pid p l end.
Definition reap_one (p st : Z) (d : Daemon) : Daemon :=
  match mark_job p st (jobs d) with
  | Some js => set_jobs js d
  | None =>
    match without_pid p (proxies d) with
    | Some ps => set_proxies ps d
    | None => set_pending (mark_pending p st (pending d)) d
    end
  end.
Definition reap : DM unit :=
  ended ← ask Reaped; modify (fun d => fold_left (fun d x => reap_one x.1 x.2 d) ended d).

(** The jobs whose command has ended are answered and leave; whether a sleep was among them. *)
Fixpoint finish_jobs (js : list Job) : DM (list Job * bool) :=
  match js with
  | [] => mret ([], false)
  | j :: js =>
    match j_exited j with
    | Some st => finish_job j st;; r ← finish_jobs js; mret (r.1, same_kind Sleep (j_what j) || r.2)
    | None => r ← finish_jobs js; mret (j :: r.1, r.2)
    end
  end.

(** ** Launches *)
Definition deadline (p : Pending) : Z := match pe_ready_at p with Some t => t + SETTLE | None => pe_started p + LAUNCH_DEADLINE end.
Fixpoint exit_loop (fuel : nat) (i start pid : Z) : DM (option Z) :=
  match fuel with
  | O => mret None
  | S fuel =>
    r ← ask (WaitFor pid);
    if r.1 =? pid then mret (Some r.2)
    else
      now ← ask Time;
      if (r.1 <? 0) || (EXIT_WITHIN <=? Z.max (now - start) (EXIT_ROUND * i)) then mret None
      else ask (Nap EXIT_ROUND);; exit_loop fuel (i + 1) start pid
  end.
Definition wait_exit (p : Pending) : DM (option Z) :=
  match pe_exited p with
  | Some st => mret (Some st)
  | None => now ← ask Time; exit_loop 51 0 now (pe_pid p)
  end.
Definition finish (p : Pending) (outcome : result unit text) : DM unit :=
  ask (Say (pe_conn p) (match outcome with Ok _ => chars "ok " ++ Registry.show_num (pe_pid p) ++ nl | Err w => error_text w end)).
Definition log_words (p : Pending) (st : Z) : DM text :=
  tail ← ask (LogTail (pe_zone p)); mret (exit_text st ++ chars ": " ++ log_line tail).
(** A readiness pipe that has something: a byte, or its end. [None]: the launch is over. *)
Definition look_ready (p : Pending) : DM (option Pending) :=
  r ← ask (ReadReady (pe_pid p));
  if 0 <? r then
    now ← ask Time;
    mret (Some (mkPending (pe_conn p) (pe_pid p) (pe_zone p) (pe_uid p) (pe_started p) (Some now) (pe_exited p)))
  else
    st ← wait_exit p;
    w ← match st with
        | Some st => l ← log_words p st; mret (chars "zone " ++ quoted (pe_zone p) ++ chars " did not start: launcher " ++ l)
        | None => mret (chars "zone " ++ quoted (pe_zone p) ++ chars " did not start: launcher " ++ Registry.show_num (pe_pid p)
                    ++ chars " closed its readiness pipe without starting the zone")
        end;
    finish p (Err w);;
    mret None.
Definition awaits (p : Pending) : bool := match pe_ready_at p with None => true | Some _ => false end.
(** [flags]: whether the pipe of each launch that awaits readiness has something. *)
Fixpoint look_all (ps : list Pending) (flags : list bool) : DM (list Pending) :=
  match ps with
  | [] => mret []
  | p :: ps =>
    if awaits p then
      now ← (if default false (head flags) then look_ready p else mret (Some p));
      rest ← look_all ps (tail flags);
      mret (option_list now ++ rest)
    else rest ← look_all ps flags; mret (p :: rest)
  end.
Definition settled (p : Pending) : DM unit :=
  st ← match pe_exited p with
       | Some st => mret (Some st)
       | None => r ← ask (WaitFor (pe_pid p)); mret (if r.1 =? pe_pid p then Some r.2 else None)
       end;
  match st with
  | Some st =>
    if succeeded st then finish p (Ok tt)
    else l ← log_words p st; finish p (Err (chars "zone " ++ quoted (pe_zone p) ++ chars " started but its command ended at once: launcher " ++ l))
  | None => finish p (Ok tt)
  end.
Fixpoint expire (now : Z) (ps : list Pending) : DM (list Pending) :=
  match ps with
  | [] => mret []
  | p :: ps =>
    if now <? deadline p then rest ← expire now ps; mret (p :: rest)
    else
      (if awaits p then finish p (Err (chars "zone " ++ quoted (pe_zone p) ++ chars " not ready after 30 s (launcher " ++ Registry.show_num (pe_pid p) ++ chars " still running)"))
       else settled p);;
      expire now ps
  end.

(** ** The loop *)
Definition critical : DM bool := b ← ask Battery; mret (Suspend.critical_in b.1 b.2).
Definition due (at_ : option Z) : DM bool :=
  match at_ with None => mret false | Some t => now ← ask Time; mret (t <=? now) end.
Definition look_sealed : DM unit :=
  at_ ← gets sealed_due;
  d ← due at_;
  when d (
    modify (fun d => set_sealed None (sealed_low d) d);;
    s ← state_suspended;
    if negb s then modify (fun d => set_sealed (sealed_due d) 0 d)
    else
      sleeping ← job_runs (same_kind Sleep);
      when (negb sleeping) (
        c ← critical;
        low ← gets sealed_low;
        match Suspend.sealed_look low c with
        | None => panic
        | Some (low, off) =>
          now ← ask Time;
          modify (set_sealed (Some (now + SEALED_EVERY)) low);;
          when off (ask PowerOff;; modify (fun d => set_sealed None (sealed_low d) d))
        end)).
Definition look_notice : DM unit :=
  at_ ← gets notice_due;
  d ← due at_;
  when d (
    s ← state_suspended;
    when (negb s) (ask (Part "update::refresh_login_notice" []);; mret tt);;
    now ← ask Time;
    modify (set_notice (Some (now + NOTICE_EVERY)))).
Definition end_jobs : DM unit :=
  js ← gets jobs;
  r ← finish_jobs js;
  modify (set_jobs r.1);;
  when (r.2 && negb (c_developer cfg)) (now ← ask Time; modify (fun d => set_sealed (Some now) (sealed_low d) d)).
Definition look_launches (flags : list bool) : DM unit :=
  ps ← gets pending;
  ps ← look_all ps flags;
  now ← ask Time;
  ps ← expire now ps;
  modify (set_pending ps).
Definition accept : DM unit :=
  got ← ask Accept;
  when got (
    c ← gets accepted;
    modify (set_accepted (c + 1));;
    handle c).
Definition turn : DM unit :=
  look_sealed;;
  look_notice;;
  reap;;
  end_jobs;;
  ps ← gets pending;
  polled ← ask (Poll (pe_pid <$> List.filter awaits ps));
  match polled with
  | None => mret tt
  | Some (flags, listener) => look_launches flags;; when listener accept
  end.
Fixpoint turns (n : nat) : DM unit := match n with O => mret tt | S n => turn;; turns n end.
(** The daemon as [cmd_serve] starts it, the state partition suspended or not. *)
Definition start : DM unit :=
  if c_developer cfg then mret tt
  else
    now ← ask Time;
    modify (set_notice (Some now));;
    s ← state_suspended;
    when s (now ← ask Time; modify (fun d => set_sealed (Some now) (sealed_low d) d)).
Definition blank : Daemon := mkDaemon [] [] (mkPauses default_attempts default_attempts default_attempts) [] None 0 None 0 [].
End serve.
End Serve.
