(* ===== verification/ServeClaims.v ===== *)
(** * The launch daemon's requests, kept within their bounds

    Every handler of serve.rs asks only what it may, keeps the lists of jobs and launches as they
    were, and owes its connection one answer. *)
From S2P Require Import Prelude Bytes Text Zone Registry Password Tools Volume Stick StickClaims Suspend SuspendClaims Requests RequestsClaims Serve.
Open Scope string_scope.
Open Scope list_scope.
Open Scope Z_scope.
Import Requests Password Serve.

(** ** Runs of system calls *)
(** Of a run's events: no command but the state partition's resume. *)
Definition resume_args : list (list Z) := Volume.lits ["luksResume"; "--key-file"; "-"] ++ [Suspend.STATE_MAPPER].
Definition tool_quiet (ev : Tools.Event) : Prop :=
  match ev with
  | @Tools.Did _ (Tools.Run _ _ _) _ | @Tools.Did _ (Tools.Mount _ _ _ _ _) _ | @Tools.Did _ (Tools.RemoveFile _) _ => False
  | @Tools.Did _ (Tools.RunFor _ prog args _) _ => prog = "cryptsetup" /\ args = resume_args
  | _ => True
  end.
Definition anything (ev : Tools.Event) : Prop := True.

Lemma keeps_tried {S E F A} (I : S -> Prop) (m : M S E A) : keeps I m -> keeps (E := F) I (tried m).
Proof. intros Hm s Hs. apply wp_tried, Hm, Hs. Qed.

Section parts.
Context (P : Tools.Event -> Prop) (sys : Tools.Sys).
Abbreviation kept := (keeps (Forall P)).
Lemma kept_call {E A} (c : Tools.Call A) : (forall a, P (Tools.Did c a)) -> kept (Tools.call sys (E := E) c).
Proof. intros HP t Ht. apply Forall_app. split; [done|]. by apply Forall_singleton. Qed.
Lemma kept_called {E A F} (c : Tools.Call (result A F)) (e : E) : (forall a, P (Tools.Did c a)) -> kept (Tools.called sys c e).
Proof. intros HP. apply keeps_bind; [by apply kept_call|]. intros [|]; keeps_steps. Qed.
Lemma kept_ignored {E A} (c : Tools.Call A) : (forall a, P (Tools.Did c a)) -> kept (Tools.ignored (E := E) sys c).
Proof. intros HP. apply keeps_bind; [by apply kept_call|]. intros ?. apply keeps_ret. Qed.
End parts.
Create HintDb parts.
(** A call the predicate allows, at once or as one of the quiet ones. *)
Ltac allowed := intros ?; first [exact I | match goal with H : forall ev, tool_quiet ev -> _ |- _ => apply H; exact I end].
Ltac part_step :=
  cbv beta zeta;
  lazymatch goal with
  | |- keeps _ (_ ≫= _) => apply keeps_bind; [|intros ?]
  | |- keeps _ (mret _) => apply keeps_ret
  | |- keeps _ (fail _) => apply keeps_fail
  | |- keeps _ (lift _) => apply keeps_lift
  | |- keeps _ (require _ _) => apply keeps_require
  | |- keeps _ (reject_if _ _) => apply keeps_reject_if
  | |- keeps _ (when _ _) => apply keeps_when; intros ?
  | |- keeps _ (tried _) => apply keeps_tried
  | |- keeps _ (if ?b then _ else _) => destruct b
  | |- keeps _ (match ?x with _ => _ end) => destruct x
  | |- keeps _ (Tools.call _ _) => apply kept_call; allowed
  | |- keeps _ (Tools.called _ _ _) => apply kept_called; allowed
  | |- keeps _ (Tools.ignored _ _) => apply kept_ignored; allowed
  | |- keeps _ _ => solve [eauto with parts]
  end.
Ltac part_steps := repeat part_step.

Section suspend_parts.
Context (sys : Tools.Sys) {E : Type} (P : Tools.Event -> Prop) (HP : forall ev, tool_quiet ev -> P ev).
Abbreviation kept := (keeps (E := E) (Forall P)).
Lemma suspended_quiet name : kept (Suspend.suspended sys name).
Proof.
  unfold Suspend.suspended, Suspend.suspended_in. apply keeps_bind; [|intros ?; apply keeps_ret]. part_step; [part_step|]. destruct a as [devs|]; [|part_step].
  induction devs as [|d devs IH]; cbn [Suspend.suspended_among]; part_steps; done.
Qed.
#[local] Hint Resolve suspended_quiet : parts.
Lemma state_suspended_quiet : kept (Suspend.state_suspended sys).
Proof. apply suspended_quiet. Qed.
Lemma waiting_quiet : kept (Suspend.waiting sys).
Proof.
  unfold Suspend.waiting, Suspend.mappings. part_step; [part_steps|]. induction a as [|z l IH]; cbn [Suspend.waiting_in]; part_steps; done.
Qed.
Lemma sleep_refused_quiet : kept (Suspend.sleep_refused sys).
Proof. unfold Suspend.sleep_refused. part_steps. Qed.
#[local] Hint Resolve waiting_quiet : parts.
Lemma leaf_quiet z : kept (Suspend.leaf sys z).
Proof. unfold Suspend.leaf. part_steps. Qed.
Lemma held_quiet l : kept (Suspend.held sys l).
Proof. unfold Suspend.held. part_steps. Qed.
Lemma set_freeze_quiet l b : kept (Suspend.set_freeze sys l b).
Proof. unfold Suspend.set_freeze. part_steps. Qed.
#[local] Hint Resolve leaf_quiet held_quiet set_freeze_quiet : parts.
Lemma thaw_quiet : kept (Suspend.thaw sys).
Proof.
  unfold Suspend.thaw. part_step; [part_steps|]. part_step; [part_steps|]. induction a0 as [|z l IH]; cbn [Suspend.thaw_among]; part_steps; done.
Qed.
End suspend_parts.
#[local] Hint Resolve suspended_quiet state_suspended_quiet waiting_quiet sleep_refused_quiet leaf_quiet held_quiet set_freeze_quiet thaw_quiet : parts.

Lemma any_ok ev : anything ev.
Proof. exact I. Qed.
#[local] Hint Resolve any_ok : parts.
Lemma resume_state_quiet sys pass : keeps (Forall tool_quiet) (Suspend.resume_state sys pass).
Proof. unfold Suspend.resume_state. part_step; [by apply kept_call|]. destruct a; part_steps. Qed.
Lemma resume_zone_ends sys z pass : keeps (Forall anything) (Suspend.resume_zone sys z pass).
Proof. unfold Suspend.resume_zone, Suspend.thaw_one. part_steps. Qed.

Section stick_parts.
Context (sys : Tools.Sys) (show_gb : Z -> text).
Abbreviation kept := (keeps (Forall anything)).
Lemma read_trim_ends p : kept (Stick.read_trim sys p).
Proof. unfold Stick.read_trim. part_steps. Qed.
Lemma list_dir_ends p : kept (Stick.list_dir sys p).
Proof. unfold Stick.list_dir. part_steps. Qed.
Lemma grant_of_ends z : kept (Stick.grant_of sys z).
Proof. unfold Stick.grant_of. part_steps. Qed.
#[local] Hint Resolve read_trim_ends list_dir_ends grant_of_ends : parts.
Lemma dm_device_ends n : kept (Stick.dm_device sys n).
Proof. unfold Stick.dm_device. part_step; [part_steps|]. destruct a as [l|]; [|part_step]. induction l as [|d l IH]; cbn [Stick.dm_among]; part_steps; done. Qed.
#[local] Hint Resolve dm_device_ends : parts.
Lemma dmsetup_ends v args : kept (Stick.dmsetup sys v args).
Proof. unfold Stick.dmsetup. part_steps. Qed.
Lemma flush_ends d : kept (Stick.flush_and_drop sys d).
Proof. unfold Stick.flush_and_drop. part_steps. Qed.
#[local] Hint Resolve dmsetup_ends flush_ends : parts.
Lemma eject_ends z : kept (Stick.eject sys z).
Proof. unfold Stick.eject, Stick.clear_mapping, Stick.or_gone. part_steps. Qed.
#[local] Hint Resolve eject_ends : parts.
Lemma reap_pulled_ends : kept (Stick.reap_pulled sys).
Proof. unfold Stick.reap_pulled. part_step; [part_steps|]. induction a as [|z l IH]; cbn [Stick.reap_among]; part_steps; done. Qed.
Lemma disk_of_ends b p : kept (Stick.disk_of sys b p).
Proof.
  unfold Stick.disk_of. part_step; [part_steps|]. destruct (negb a); [part_step|]. part_step; [part_steps|]. destruct a0 as [l|]; [|part_step].
  induction l as [|d l IH]; cbn [Stick.holder_of]; part_steps; done.
Qed.
#[local] Hint Resolve disk_of_ends : parts.
Lemma system_disks_ends : kept (Stick.system_disks sys).
Proof.
  unfold Stick.system_disks. part_step; [part_steps|]. induction a as [|d l IH]; cbn [Stick.system_disks_among]; [part_step|].
  part_step; [part_steps|]. part_step; [|part_steps; done]. destruct (_ || _); [part_step|]. part_step; [part_steps|]. induction a0 as [|x m IHm]; cbn [Stick.disks_of]; part_steps; done.
Qed.
#[local] Hint Resolve system_disks_ends : parts.
Lemma any_partition_ends dev l : kept (Stick.any_partition sys dev l).
Proof. induction l; cbn [Stick.any_partition]; part_steps; done. Qed.
#[local] Hint Resolve any_partition_ends : parts.
Lemma describe_ends d n k : kept (Stick.describe sys show_gb d n k).
Proof. unfold Stick.describe. part_steps. Qed.
#[local] Hint Resolve describe_ends : parts.
Lemma partition_in_ends m n : kept (Stick.partition_in sys show_gb m n).
Proof. unfold Stick.partition_in. part_steps. Qed.
#[local] Hint Resolve partition_in_ends : parts.
Lemma eligible_ends : kept (Stick.eligible sys show_gb).
Proof.
  unfold Stick.eligible, Stick.read_mounts. part_step; [part_steps|]. part_step; [part_steps|]. generalize (Volume.sort_text a0). intros l. induction l as [|x l IH]; cbn [Stick.eligible_among]; part_steps; done.
Qed.
End stick_parts.

Lemma seal_ends sys : count_free sys -> wp (Suspend.seal sys) (fun _ => Forall anything) (fun _ => Forall anything) [].
Proof. intros Hc. apply wp_seal; [done|intros ? ? _; by apply Forall_true|apply Tools.justified_nil|intros ? ? _; by apply Forall_true]. Qed.
Lemma grant_ends sys show_gb z p w : wp (Stick.grant sys show_gb z p w) (fun _ => Forall anything) (fun _ => Forall anything) [].
Proof. eapply wp_mono; [..|exact (wp_grant sys show_gb z p w)]; intros ? ? _; by apply Forall_true. Qed.

(** ** What a request may do to the daemon *)
(** Asked of nobody but the system: the connection's answer is not given yet. *)
Definition mute (e : Entry) : Prop := match e with @Asked _ (Say _ _) _ | @Asked _ (Started _ _) _ => False | _ => True end.
(** All that is asked while the state partition is suspended. *)
Definition dormant (e : Entry) : Prop :=
  match e with
  | @Asked _ Time _ | @Asked _ (Turns _) _ | @Asked _ (Release _) _ | @Asked _ (FdKind _) _ | @Asked _ (ReadPass _) _ => True
  | @Asked _ (Start what _) _ => what = Sleep
  | Ran t => Forall tool_quiet t
  | _ => False
  end.
Lemma dormant_mute e : dormant e -> mute e.
Proof. destruct e as [A q a|t]; [destruct q|]; done. Qed.

Definition zones_once (l : list Proxy) : Prop := NoDup (px_zone <$> l).
(** An invariant that allows such entries, and changes to the pauses and the proxies. *)
Record roomy (ok : Entry -> Prop) (js : list Job) (I : Daemon -> Prop) : Prop := {
  rm_log : forall d e, I d -> ok e -> I (set_log (log d ++ [e]) d);
  rm_pauses : forall d p, I d -> I (set_pauses p d);
  rm_proxies : forall d l, I d -> (zones_once (proxies d) -> zones_once l) -> I (set_proxies l d);
  rm_jobs : forall d, I d -> jobs d = js }.
Lemma roomy_weaken (ok ok' : Entry -> Prop) js I : (forall e, ok' e -> ok e) -> roomy ok js I -> roomy ok' js I.
Proof. intros Hw []. split; auto. Qed.

(** The job a kind of request runs at most once at a time. *)
Definition lane (k : JobKind) : option JobKind :=
  match k with Stop _ _ => None | StickEject _ z => Some (StickEject 0 z) | k => Some k end.
Definition lanes (js : list Job) : list JobKind := omap (fun j => lane (j_what j)) js.
Definition fresh_job (conn : Z) (js : list Job) (j : Job) : Prop :=
  j_conn j = conn /\ j_exited j = None /\ (forall k, lane (j_what j) = Some k -> k ∉ lanes js).
Definition owed (conn : Z) (js : list Job) (a : Answer) : Prop :=
  match a with Said _ => True | Waits j | Begins j => fresh_job conn js j | Launched p => pe_conn p = conn end.

Lemma lane_free f js k : (forall k', lane k' = Some k -> f k' = true) -> existsb (fun j => f (j_what j)) js = false -> k ∉ lanes js.
Proof.
  intros Hf He Hk. apply list_elem_of_omap in Hk as (j & Hj & Hl). apply not_true_iff_false in He. apply He, existsb_exists. exists j.
  split; [by apply list_elem_of_In|by apply Hf].
Qed.
Lemma lane_same js k : (forall k', lane k' = Some k -> k' = k) -> existsb (fun j => same_kind k (j_what j)) js = false -> k ∉ lanes js.
Proof. intros Hk. apply lane_free. intros k' Hk'. apply bool_decide_eq_true. symmetry. auto. Qed.
Lemma lane_eject js uid z : existsb (fun j => ejects z (j_what j)) js = false -> forall k, lane (StickEject uid z) = Some k -> k ∉ lanes js.
Proof.
  intros He k [= <-]. revert He. apply (lane_free (ejects z)). intros k' Hk'. destruct k'; simplify_eq/=. by apply bool_decide_eq_true.
Qed.

Lemma without_sublist z l : sublist (without_proxy z l) l.
Proof. induction l as [|p l IH]; cbn; [done|]. case_bool_decide; by constructor. Qed.
Lemma zones_sublist l l' : sublist l l' -> zones_once l' -> zones_once l.
Proof. intros Hs Hn. eapply sublist_NoDup; [exact Hn|]. by apply fmap_sublist. Qed.
Lemma proxy_at_None z l : proxy_at z l = None -> z ∉ px_zone <$> l.
Proof.
  induction l as [|p l IH]; cbn; [set_solver|]. case_bool_decide; [done|]. intros Hl [->|?]%elem_of_cons; [done|by apply IH].
Qed.

Section handlers.
Context (env : Env) (cfg : ServeConfig) (crypt : text -> text -> option text) (quoted : text -> text) (show_gb : Z -> text).
Context `{Words ReadError, Words RunError, Words WifiRequestError, Words Suspend.SuspendError, Words Suspend.ResumeError, Words Stick.StickError, Words PasswordError}.
Context (Hcount : forall n, count_free (tools env n)).

Section invariant.
Context (ok : Entry -> Prop) (js : list Job) (I : Daemon -> Prop) (HI : roomy ok js I).

Definition gives {A} (P : A -> Prop) (m : M Daemon Never A) : Prop := forall d, I d -> wp m (fun a d' => I d' /\ P a) (fun _ _ => False) d.
Lemma gives_bind {A B} (P : B -> Prop) (m : M Daemon Never A) (f : A -> M Daemon Never B) : keeps I m -> (forall a, gives P (f a)) -> gives P (m ≫= f).
Proof. intros Hm Hf d Hd. apply wp_bind. eapply wp_mono; [..|exact (Hm d Hd)]; [|by intros []]. intros a d' Hd'. by apply Hf. Qed.
Lemma gives_ret {A} (P : A -> Prop) (a : A) : P a -> gives P (mret a).
Proof. intros Ha d Hd. by apply wp_ret. Qed.
Lemma gives_then {A B} (P : A -> Prop) (Q : B -> Prop) (m : M Daemon Never A) (f : A -> M Daemon Never B) : gives P m -> (forall a, P a -> gives Q (f a)) -> gives Q (m ≫= f).
Proof. intros Hm Hf d Hd. apply wp_bind. eapply wp_mono; [..|exact (Hm d Hd)]; [|by intros []]. intros a d' [Hd' Ha]. by apply Hf. Qed.
Lemma keeps_ask {A} (q : Ask A) : (forall a, ok (Asked q a)) -> keeps I (ask env q).
Proof. intros Hq d Hd. apply (rm_log _ _ _ HI); auto. Qed.
Lemma keeps_part {E A} (P : Tools.Event -> Prop) (m : Tools.Sys -> M Tools.Trace E A) :
  (forall n, wp (m (tools env n)) (fun _ => Forall P) (fun _ => Forall P) []) -> (forall t, Forall P t -> ok (Ran t)) -> keeps I (part env m).
Proof.
  intros Hm HP d Hd. specialize (Hm (length (log d))). unfold wp, part in *. destruct (m _ []) as [[a|e|] t]; [..|done]; apply (rm_log _ _ _ HI); auto.
Qed.
Lemma keeps_part_of {A} (P : Tools.Event -> Prop) (m : Tools.Sys -> M Tools.Trace Never A) :
  (forall n, wp (m (tools env n)) (fun _ => Forall P) (fun _ => Forall P) []) -> (forall t, Forall P t -> ok (Ran t)) -> keeps I (part_of env m).
Proof. intros Hm HP. apply keeps_bind; [by eapply keeps_part|]. intros [a|[]]. apply keeps_ret. Qed.
Lemma keeps_pauses (f : Daemon -> Pauses) : keeps (E := Never) I (modify (fun d => set_pauses (f d) d)).
Proof. apply keeps_modify. intros d. apply (rm_pauses _ _ _ HI). Qed.
Lemma gives_runs {A} (P : A -> Prop) k (f : bool -> M Daemon Never A) : gives P (f (existsb (fun j => k (j_what j)) js)) -> gives P (job_runs k ≫= f).
Proof. intros Hf d Hd. apply wp_bind. unfold job_runs. apply wp_gets. rewrite (rm_jobs _ _ _ HI d Hd). by apply Hf. Qed.
Lemma keeps_runs k : keeps I (job_runs k).
Proof. apply keeps_gets. Qed.

(** *** Asked also while suspended *)
Context (Hok : forall e, dormant e -> ok e).
Ltac serve_step :=
  cbv beta zeta;
  lazymatch goal with
  | |- keeps _ (_ ≫= _) => apply keeps_bind; [|intros ?]
  | |- keeps _ (mret _) => apply keeps_ret
  | |- keeps _ (gets _) => apply keeps_gets
  | |- keeps _ (when _ _) => apply keeps_when; intros ?
  | |- keeps _ (if ?b then _ else _) => destruct b eqn:?
  | |- keeps _ (match ?x with _ => _ end) => destruct x eqn:?
  | |- keeps _ (ask _ _) => apply keeps_ask; intros ?; (apply Hok; exact Logic.I || exact Logic.I)
  | |- keeps _ (modify (fun d => set_pauses _ d)) => apply keeps_pauses
  | |- gives _ (job_runs _ ≫= _) => apply gives_runs
  | |- gives _ (_ ≫= _) => apply gives_bind; [|intros ?]
  | |- gives _ (mret _) => apply gives_ret; try exact Logic.I
  | |- gives _ (if ?b then _ else _) => destruct b eqn:?
  | |- gives _ (match ?x with _ => _ end) => destruct x eqn:?
  | |- keeps _ _ => solve [eauto with serve]
  | |- gives _ _ => solve [eauto with serve]
  end.
Create HintDb serve.
Ltac serve_steps := repeat serve_step.

Lemma suspended_part {A} (m : Tools.Sys -> M Tools.Trace Never A) : (forall sys, keeps (Forall tool_quiet) (m sys)) -> keeps I (part_of env m).
Proof. intros Hm. apply (keeps_part_of tool_quiet); [|auto]. intros n. by apply Hm. Qed.
Lemma state_suspended_keeps : keeps I (state_suspended env).
Proof. apply suspended_part. intros sys. by apply state_suspended_quiet. Qed.
Lemma sleep_refused_keeps : keeps I (sleep_refused env).
Proof. apply suspended_part. intros sys. by apply sleep_refused_quiet. Qed.
Lemma waiting_keeps : keeps I (waiting env).
Proof. apply suspended_part. intros sys. by apply waiting_quiet. Qed.
Lemma recv_keeps conn : keeps I (recv_request env conn).
Proof.
  unfold recv_request. serve_step; [serve_step|]. serve_step; [serve_step|]. destruct (read_request _ _) as [[r rel]|] eqn:Hr; [serve_steps|].
  destruct (request_loop_ends (a + REQUEST_DEADLINE) (a0 ++ [mkTurn (a + REQUEST_DEADLINE) 0 false Again]) [] []) as [x Hx]; [|unfold read_request in Hr; congruence].
  apply Exists_app. right. constructor. cbn. lia.
Qed.
Lemma start_job_gives conn what args f : ok (Asked (Start what args) (Ok 0)) -> (forall a, ok (Asked (Start what args) a)) ->
  (forall k, lane what = Some k -> k ∉ lanes js) -> gives (owed conn js) (start_job env conn what args f).
Proof. intros _ Hs Hl. unfold start_job. apply gives_bind; [by apply keeps_ask|]. intros [pid|e]; apply gives_ret; done. Qed.
Lemma start_sleep_gives conn : gives (owed conn js) (start_sleep env conn).
Proof.
  unfold start_sleep. serve_step. serve_step; [serve_steps|]. apply start_job_gives; [by apply Hok|intros; by apply Hok|]. intros k [= <-]. eapply lane_same; [|done]. intros []; naive_solver.
Qed.
Lemma in_memory_keeps fd : keeps I (in_memory env fd).
Proof. unfold in_memory. serve_steps. Qed.
Lemma try_gives conn verb carried get set use : (forall pass, keeps I (use pass)) -> gives (owed conn js) (try_passphrase env verb carried get set use).
Proof.
  intros Hu. unfold try_passphrase. pose proof in_memory_keeps. serve_steps.
Qed.
Lemma resume_state_keeps pass : keeps I (resume_state_with env pass).
Proof.
  unfold resume_state_with. apply keeps_bind; [|intros ?; apply keeps_ret]. apply (keeps_part tool_quiet); [|auto]. intros n. by apply resume_state_quiet.
Qed.
Lemma while_suspended_gives conn first carried : gives (owed conn js) (while_suspended env first carried).
Proof. unfold while_suspended. serve_step; [serve_steps|]. serve_step; [|serve_steps]. apply try_gives, resume_state_keeps. Qed.
Lemma suspended_request_gives conn : gives (owed conn js) (suspended_request env conn).
Proof.
  unfold suspended_request. apply gives_bind; [apply recv_keeps|]. intros [[raw carried]|e]; [|serve_steps]. serve_step.
  - apply gives_bind; [apply sleep_refused_keeps|]. intros []; [serve_steps|apply start_sleep_gives].
  - serve_step; [serve_steps|apply while_suspended_gives].
Qed.

(** *** Asked of an authorised peer *)
Context (Hmute : forall e, mute e -> ok e).
Ltac awake_step :=
  cbv beta zeta;
  lazymatch goal with
  | |- keeps _ (ask _ _) => apply keeps_ask; intros ?; apply Hmute; exact Logic.I
  | |- _ => serve_step
  end.
Ltac awake_steps := repeat awake_step.
Hint Resolve waiting_keeps sleep_refused_keeps state_suspended_keeps recv_keeps : serve.

Lemma any_part {E A} (m : Tools.Sys -> M Tools.Trace E A) :
  (forall n, wp (m (tools env n)) (fun _ => Forall anything) (fun _ => Forall anything) []) -> keeps I (part env m).
Proof. intros Hm. apply (keeps_part anything); [done|]. intros t _. by apply Hmute. Qed.
Lemma ending_part {E A} (m : Tools.Sys -> M Tools.Trace E A) : (forall sys, keeps (Forall anything) (m sys)) -> keeps I (part env m).
Proof. intros Hm. apply any_part. intros n. by apply Hm. Qed.
Lemma zone_named_keeps z : keeps I (zone_named env quoted z).
Proof. unfold zone_named. awake_steps. Qed.
Lemma zone_running_keeps z : keeps I (zone_running env z).
Proof. unfold zone_running. awake_steps. Qed.
Hint Resolve zone_named_keeps zone_running_keeps : serve.
Lemma net_status_keeps z : keeps I (net_status env quoted z).
Proof. unfold net_status. awake_steps. Qed.
Lemma grant_of_keeps z : keeps I (part env (fun sys => Stick.grant_of sys z)).
Proof. apply ending_part. intros sys. apply grant_of_ends. Qed.
Hint Resolve net_status_keeps grant_of_keeps : serve.
Lemma status_gives conn : gives (owed conn js) (do_status env).
Proof.
  unfold do_status. awake_step; [awake_step|]. apply gives_bind; [|intros ?; awake_steps]. induction a as [|z l IH]; cbn [running_lines]; awake_steps; done.
Qed.
Lemma info_gives conn first : gives (owed conn js) (do_info env quoted first).
Proof. unfold do_info. awake_steps. Qed.

Lemma drop_proxy_keeps p : keeps I (drop_proxy env p).
Proof.
  unfold drop_proxy. awake_step; [awake_step|]. apply keeps_modify. intros d Hd. apply (rm_proxies _ _ _ HI); [done|]. apply zones_sublist, without_sublist.
Qed.
Hint Resolve drop_proxy_keeps : serve.
Lemma give_way_keeps uid z : keeps I (give_way_proxy env quoted uid z).
Proof. unfold give_way_proxy, running. awake_steps. Qed.
Lemma start_proxy_keeps uid z : keeps I (start_proxy env uid z).
Proof.
  intros d Hd. unfold start_proxy. apply wp_bind, wp_gets. destruct (proxy_at z (proxies d)) as [p|] eqn:Hp; [by apply wp_ret|].
  apply wp_bind. unfold ask at 1, wp at 1. set (a := answer _ _ _ _). set (d1 := set_log _ d).
  assert (I d1) as Hd1 by (apply (rm_log _ _ _ HI); [done|by apply Hmute]). destruct a as [[[pid socket] up]|e]; [|by apply wp_ret].
  apply wp_bind, wp_modify, wp_ret. apply (rm_proxies _ _ _ HI); [done|]. unfold zones_once. intros Hn. rewrite fmap_app. apply NoDup_app. split_and!; [done| |apply NoDup_singleton].
  intros x Hx ->%list_elem_of_singleton. by apply (proxy_at_None z (proxies d)).
Qed.
Hint Resolve give_way_keeps start_proxy_keeps : serve.
Lemma proxy_socket_keeps uid z : keeps I (proxy_socket env quoted uid z).
Proof. unfold proxy_socket. awake_steps. Qed.
Hint Resolve proxy_socket_keeps : serve.

Lemma suspend_gives conn : gives (owed conn js) (do_suspend env cfg conn).
Proof.
  unfold do_suspend. awake_step; [awake_step|]. awake_step; [awake_steps|]. awake_step; [awake_steps|]. apply gives_bind; [apply keeps_gets|intros launching].
  awake_step. awake_step; [awake_steps|]. awake_step; [awake_steps|]. apply gives_bind; [apply any_part; intros n; apply seal_ends, Hcount|].
  intros [zs|e]; [apply start_sleep_gives|awake_steps].
Qed.
Lemma resume_zone_gives conn first carried : gives (owed conn js) (do_resume_zone env first carried).
Proof. unfold do_resume_zone. awake_step; [awake_steps|]. apply try_gives. intros pass. apply ending_part. intros sys. apply resume_zone_ends. Qed.
Lemma sticks_gives conn : gives (owed conn js) (do_sticks env show_gb).
Proof.
  unfold do_sticks. apply gives_bind; [apply ending_part; intros sys; apply reap_pulled_ends|intros _r]. apply gives_bind; [apply ending_part; intros sys; apply eligible_ends|]. intros ?. awake_steps.
Qed.
Lemma stick_grant_gives conn first : gives (owed conn js) (do_stick_grant env quoted show_gb first).
Proof.
  unfold do_stick_grant. destruct (words first) as [|? [|z [|p [|m [|]]]]]; try (awake_steps; fail). awake_step; [awake_steps|]. awake_step; [awake_steps|].
  awake_step; [awake_step|]. destruct a as [zn|e]; [|awake_steps]. apply gives_bind; [apply any_part; intros n; apply grant_ends|]. intros []; awake_steps.
Qed.
Lemma mute_start conn what args f : (forall k, lane what = Some k -> k ∉ lanes js) -> gives (owed conn js) (start_job env conn what args f).
Proof. intros Hl. apply start_job_gives; [by apply Hmute|intros; by apply Hmute|done]. Qed.
Lemma stick_eject_gives conn uid first : gives (owed conn js) (do_stick_eject env quoted conn uid first).
Proof. unfold do_stick_eject. awake_step; [awake_steps|]. awake_step. awake_step; [awake_steps|]. by apply mute_start, lane_eject. Qed.
Lemma told_owed conn r : owed conn js (told r) /\ owed conn js (ok_lines r).
Proof. by destruct r. Qed.
Lemma camera_gives conn first : gives (owed conn js) (do_camera_grant env quoted first) /\ gives (owed conn js) (do_camera_revoke env).
Proof. split; unfold do_camera_grant, do_camera_revoke; awake_steps; apply told_owed. Qed.
Lemma stop_gives conn uid first : gives (owed conn js) (do_stop env conn uid first).
Proof. unfold do_stop. awake_step; [awake_steps|]. apply gives_bind; [awake_steps|intros ps]. apply gives_bind; [awake_steps|intros []]. by apply mute_start. Qed.
Lemma wifi_scan_gives conn : gives (owed conn js) (do_wifi_scan env conn).
Proof. unfold do_wifi_scan. awake_step. awake_step; [awake_steps|]. apply mute_start. intros k [= <-]. eapply lane_same; [|done]. intros []; naive_solver. Qed.
Lemma update_gives conn verb first : gives (owed conn js) (do_update env conn verb first).
Proof.
  unfold do_update. awake_step. awake_step; [awake_steps|]. do 3 (awake_step; [awake_steps; apply told_owed|]). awake_step.
  { destruct (words first) as [|? [|on [|]]]; try (awake_steps; fail). awake_step; [|awake_steps]. awake_steps; apply told_owed. }
  awake_step; [awake_steps|]. awake_step; [awake_step|]. destruct a as [stage|e]; [|awake_steps]. apply mute_start. intros k [= <-]. eapply lane_same; [|done]. intros []; naive_solver.
Qed.
Lemma wifi_list_gives conn : gives (owed conn js) (do_wifi_list env).
Proof. unfold do_wifi_list. awake_step; [awake_step|]. destruct a; awake_steps. Qed.
Lemma wifi_change_gives conn verb s : gives (owed conn js) (do_wifi_change env verb s).
Proof.
  unfold do_wifi_change. awake_step; [|awake_steps]. awake_step; [awake_step|]. awake_step; [|awake_steps]. apply gives_bind; [apply keeps_ask; intros ?; apply Hmute; by destruct (is_verb _ _)|]. intros [|]; awake_steps.
Qed.
Lemma run_gives conn uid s carried : gives (owed conn js) (do_run env quoted conn uid s carried).
Proof. unfold do_run. awake_steps; done. Qed.
Lemma desktop_gives conn uid asker s handed : gives (owed conn js) (start_desktop env cfg conn uid asker s handed).
Proof.
  unfold start_desktop. awake_step; [awake_steps|]. awake_step. awake_step; [awake_steps|]. awake_step; [awake_step|]. destruct a as [pid|e]; [|awake_steps].
  apply gives_ret. split_and!; [done..|]. intros k [= <-]. eapply lane_same; [|done]. intros []; naive_solver.
Qed.
Lemma password_gives conn uid s : gives (owed conn js) (check_password env crypt uid s).
Proof.
  unfold check_password. awake_step; [|awake_steps]. awake_step; [awake_step|]. destruct a as [[g name]|]; [|awake_steps]. awake_step; [awake_step|]. awake_step; [awake_step|].
  awake_step; [destruct (paused _ _); awake_steps|]. destruct (Password.check _ _ _ _ _ _) as [r a']. apply gives_bind; [apply keeps_pauses|intros []]. destruct r; awake_steps.
Qed.
Lemma clipboard_gives conn first : gives (owed conn js) (do_clipboard_move env first).
Proof. unfold do_clipboard_move. awake_steps; apply told_owed. Qed.
Lemma runtime_gives conn uid : gives (owed conn js) (do_runtime env uid).
Proof. unfold do_runtime. awake_step; [awake_step|]. destruct a as [x|]; [|awake_steps]. apply gives_bind; [awake_step|]. intros []; awake_steps. Qed.
Hint Resolve status_gives info_gives runtime_gives desktop_gives clipboard_gives suspend_gives resume_zone_gives sticks_gives stick_grant_gives stick_eject_gives
  stop_gives wifi_scan_gives update_gives wifi_list_gives wifi_change_gives run_gives : serve.
Lemma serve_verb_gives conn uid asker s handed : gives (owed conn js) (serve_verb env cfg quoted show_gb conn uid asker s handed).
Proof.
  unfold serve_verb. pose proof (camera_gives conn (default [] (head (lines s)))) as [Hg Hr]. awake_step; [awake_steps|]. repeat (awake_step; [solve [eauto with serve | awake_steps]|]). awake_steps.
Qed.
Lemma authorised_keeps uid : keeps I (authorised env cfg uid).
Proof. unfold authorised, in_group. awake_steps. Qed.
Hint Resolve authorised_keeps suspended_request_gives serve_verb_gives password_gives : serve.
Lemma handle_request_gives conn : gives (owed conn js) (handle_request env cfg crypt quoted show_gb conn).
Proof.
  unfold handle_request. awake_step; [awake_step|]. destruct a as [[uid asker]|]; [|awake_steps]. awake_step; [awake_step|]. awake_step; [awake_step|]. awake_step; [awake_step|].
  awake_step; [awake_steps|]. awake_step; [awake_step|]. destruct a1 as [[raw handed]|e]; [|awake_steps]. awake_step; awake_step.
Qed.
End invariant.
End handlers.

(** * What the launch daemon promises

    Every connection is answered once, or is held by the one job or launch that will; a request is
    served for those who may ask, and while the state partition is suspended almost none is. *)
Import Requests Password Serve.

(** ** Answers *)
(** The connections answered, in order; a desktop's [started] is not its answer. *)
Definition said (l : list Entry) : list Z := omap (fun e => match e with @Asked _ (Say c _) _ => Some c | _ => None end) l.
Definition held_by (d : Daemon) : list Z := (j_conn <$> jobs d) ++ (pe_conn <$> pending d).
(** The daemon as it was, but for its log, in which [owe] were answered since, and its proxies. *)
Record since (d0 : Daemon) (owe : list Z) (d : Daemon) : Prop := {
  si_jobs : jobs d = jobs d0; si_pending : pending d = pending d0; si_accepted : accepted d = accepted d0; si_low : sealed_low d = sealed_low d0;
  si_zones : zones_once (proxies d0) -> zones_once (proxies d); si_said : said (log d) = said (log d0) ++ owe }.
Lemma since_refl d : since d [] d.
Proof. split; try done. by rewrite app_nil_r. Qed.
Lemma said_app l l' : said (l ++ l') = said l ++ said l'.
Proof. apply omap_app. Qed.
Lemma said_mute e : mute e -> said [e] = [].
Proof. by destruct e as [A []|]. Qed.
Lemma since_roomy d0 owe : roomy mute (jobs d0) (since d0 owe).
Proof.
  split.
  - intros d e [] He. split; cbn; try done. by rewrite said_app, said_mute, app_nil_r.
  - intros d p []. by split.
  - intros d l [] Hl. split; cbn; auto.
  - by intros d [].
Qed.
Lemma since_notice d0 owe d v : since d0 owe d -> since d0 owe (set_notice v d).
Proof. intros []. by split. Qed.
Lemma since_due d0 owe d v : since d0 owe d -> since d0 owe (set_sealed v (sealed_low d) d).
Proof. intros []. by split. Qed.
Lemma since_say d0 owe d c s a : since d0 owe d -> since d0 (owe ++ [c]) (set_log (log d ++ [Asked (Say c s) a]) d).
Proof. intros []. split; cbn; try done. by rewrite said_app, si_said0, <- app_assoc. Qed.

Record tidy (n : Z) (d : Daemon) : Prop := {
  ti_answers : said (log d) ++ held_by d ≡ₚ seqZ 0 (accepted d); ti_accepted : 0 <= accepted d;
  ti_lanes : NoDup (lanes (jobs d)); ti_zones : zones_once (proxies d); ti_low : 0 <= sealed_low d <= n }.
Lemma since_tidy n d0 d : since d0 [] d -> tidy n d0 -> tidy n d.
Proof.
  intros [Hj Hp Ha Hl Hz Hs] []. split; [|congruence|congruence|auto|congruence]. unfold held_by in *. by rewrite Hs, app_nil_r, Hj, Hp, Ha.
Qed.

(** The daemon's fields after a change, without its log unfolded. *)
Ltac fields := cbn [jobs pending proxies pauses sealed_due sealed_low notice_due accepted log set_jobs set_pending set_proxies set_pauses set_sealed set_notice set_accepted set_log].

Section daemon.
Context (env : Env) (cfg : ServeConfig) (crypt : text -> text -> option text) (quoted : text -> text) (show_gb : Z -> text).
Context `{Words ReadError, Words RunError, Words WifiRequestError, Words Suspend.SuspendError, Words Suspend.ResumeError, Words Stick.StickError, Words PasswordError}.
Context (Hcount : forall n, count_free (tools env n)).
Abbreviation run m Q := (wp (S := Daemon) (E := Never) m Q (fun _ _ => False)).

Lemma wp_keeps {A} I (m : M Daemon Never A) (Q : A -> Daemon -> Prop) d : keeps I m -> I d -> (forall a d', I d' -> Q a d') -> run m Q d.
Proof. intros Hm Hd HQ. eapply wp_mono; [..|exact (Hm d Hd)]; [auto|by intros []]. Qed.
Lemma mute_ask {A} (q : Ask A) d0 owe : (forall a, mute (Asked q a)) -> keeps (since d0 owe) (ask env q).
Proof. intros Hq. apply (keeps_ask env mute (jobs d0)); [apply since_roomy|done]. Qed.
Lemma mute_suspended d0 owe : keeps (since d0 owe) (state_suspended env).
Proof. eapply state_suspended_keeps; [apply since_roomy|apply dormant_mute]. Qed.
Lemma wp_say c s (Q : unit -> Daemon -> Prop) d0 owe d : since d0 owe d -> (forall d', since d0 (owe ++ [c]) d' -> Q tt d') -> run (ask env (Say c s)) Q d.
Proof. intros Hd HQ. unfold ask, wp. cbn. destruct (answer env _ _ _). apply HQ. by apply since_say. Qed.

Ltac mute_step :=
  cbv beta zeta;
  lazymatch goal with
  | |- keeps _ (_ ≫= _) => apply keeps_bind; [|intros ?]
  | |- keeps _ (mret _) => apply keeps_ret
  | |- keeps _ (gets _) => apply keeps_gets
  | |- keeps _ (when _ _) => apply keeps_when; intros ?
  | |- keeps _ (if ?b then _ else _) => destruct b
  | |- keeps _ (match ?x with _ => _ end) => destruct x
  | |- keeps _ (ask _ _) => apply mute_ask; intros ?; exact I
  | |- keeps _ (state_suspended _) => apply mute_suspended
  | |- keeps _ _ => done
  end.
Ltac mute_steps := repeat mute_step.

(** ** Jobs that end *)
Lemma job_reply_mute j st d0 owe : keeps (since d0 owe) (job_reply env j st).
Proof. unfold job_reply, why. mute_steps. Qed.
Lemma wp_finish_jobs js : forall d0 owe d (Q : list Job * bool -> Daemon -> Prop), since d0 owe d ->
  (forall r d' paid, since d0 (owe ++ paid) d' -> j_conn <$> js ≡ₚ paid ++ (j_conn <$> r.1) -> sublist r.1 js -> Q r d') -> run (finish_jobs env js) Q d.
Proof.
  induction js as [|j js IH]; intros d0 owe d Q Hd HQ; cbn [finish_jobs].
  - apply wp_ret. apply (HQ ([], false) d []); [by rewrite app_nil_r|done|done].
  - destruct (j_exited j) as [st|].
    + apply wp_bind. unfold finish_job. apply wp_bind. eapply wp_keeps; [apply job_reply_mute|exact Hd|]. intros s d1 Hd1. apply (wp_say _ _ _ d0 owe); [done|]. intros d2 Hd2.
      apply wp_bind, (IH d0 (owe ++ [j_conn j])); [done|]. intros r d3 paid Hd3 Hp Hs. apply wp_ret. apply (HQ _ _ (j_conn j :: paid)).
      * by rewrite <- app_assoc in Hd3.
      * cbn. by rewrite Hp.
      * by apply sublist_cons.
    + apply wp_bind, (IH d0 owe); [done|]. intros r d3 paid Hd3 Hp Hs. apply wp_ret. apply (HQ _ _ paid); [done| |by apply sublist_skip].
      cbn. rewrite Hp. apply Permutation_middle.
Qed.
Lemma lanes_sublist js js' : sublist js js' -> NoDup (lanes js') -> NoDup (lanes js).
Proof.
  intros Hs Hn. eapply sublist_NoDup; [exact Hn|]. clear Hn. unfold lanes. induction Hs as [|j js js' Hs IH|j js js' Hs IH]; cbn; [done|..]; destruct (lane _); [by constructor|done|by constructor|done].
Qed.
Lemma wp_end_jobs n d (Q : unit -> Daemon -> Prop) : tidy n d -> (forall d', tidy n d' -> Q tt d') -> run (end_jobs env cfg) Q d.
Proof.
  intros Ht HQ. unfold end_jobs. apply wp_bind, wp_gets, wp_bind, (wp_finish_jobs _ d []); [apply since_refl|]. intros [left slept] d1 paid [Hj Hp Ha Hl Hz Hs] Hperm Hsub. cbn [fst snd] in *.
  apply wp_bind, wp_modify. set (d2 := set_jobs left d1).
  assert (tidy n d2) as Hd2.
  { destruct Ht as [Ti Ta Tl Tz Tw]. unfold d2. split; fields; [|congruence|by eapply lanes_sublist|auto|congruence]. unfold held_by in *. fields. rewrite Hs, Hp, Ha, <- Ti, Hperm, <- !app_assoc. done. }
  apply wp_when; [|intros _; by apply HQ]. intros _. apply wp_bind. eapply wp_keeps; [apply (mute_ask _ d2 []); intros ?; exact I|apply since_refl|]. intros now d3 Hd3.
  apply wp_modify, HQ. eapply since_tidy; [|exact Hd2]. by apply since_due.
Qed.

(** ** Children that end *)
Lemma mark_job_same p st js js' : mark_job p st js = Some js' -> j_conn <$> js' = j_conn <$> js /\ lanes js' = lanes js.
Proof.
  revert js'. induction js as [|j js IH]; intros js' Hm; cbn in Hm; [done|]. destruct (_ =? p); [by injection Hm as <-|].
  destruct (mark_job p st js) as [l|]; [|done]. injection Hm as <-. destruct (IH l eq_refl) as [H1' H2']. cbn. unfold lanes in *. cbn. rewrite H1', H2'. done.
Qed.
Lemma mark_pending_same p st ps : pe_conn <$> mark_pending p st ps = pe_conn <$> ps.
Proof. induction ps as [|x ps IH]; cbn; [done|]. destruct (_ =? p); cbn; [done|by rewrite IH]. Qed.
Lemma without_pid_sublist p ps ps' : without_pid p ps = Some ps' -> sublist ps' ps.
Proof.
  revert ps'. induction ps as [|x ps IH]; intros ps' Hw; cbn in Hw; [done|]. destruct (_ =? p); [injection Hw as <-; by apply sublist_cons|].
  destruct (without_pid p ps) as [l|]; [|done]. injection Hw as <-. by apply sublist_skip, IH.
Qed.
Lemma reap_one_tidy n p st d : tidy n d -> tidy n (reap_one p st d).
Proof.
  intros [Ti Ta Tl Tz Tw]. unfold reap_one. destruct (mark_job p st (jobs d)) as [js|] eqn:Hj.
  { apply mark_job_same in Hj as [Hc Hl]. split; fields; try done; [|by rewrite Hl]. unfold held_by in *. fields. by rewrite Hc. }
  destruct (without_pid p (proxies d)) as [ps|] eqn:Hp; [apply without_pid_sublist in Hp; split; fields; try done; by eapply zones_sublist|].
  split; fields; try done. unfold held_by in *. fields. by rewrite mark_pending_same.
Qed.
Lemma wp_reap_children n d (Q : unit -> Daemon -> Prop) : tidy n d -> (forall d', tidy n d' -> Q tt d') -> run (reap env) Q d.
Proof.
  intros Ht HQ. unfold reap. apply wp_bind. eapply wp_keeps; [apply (mute_ask _ d []); intros ?; exact I|apply since_refl|]. intros ended d1 Hd1. apply wp_modify, HQ.
  eapply since_tidy in Hd1; [|exact Ht]. revert d1 Hd1. induction ended as [|x l IH]; intros d1 Hd1; cbn; [done|]. by apply IH, reap_one_tidy.
Qed.

(** ** Launches *)
Lemma log_words_mute p st d0 owe : keeps (since d0 owe) (log_words env p st).
Proof. unfold log_words. mute_steps. Qed.
Lemma wait_exit_mute p d0 owe : keeps (since d0 owe) (wait_exit env p).
Proof.
  unfold wait_exit. mute_step; [mute_steps|]. mute_step; [mute_step|]. generalize 51%nat, 0. intros fuel. induction fuel as [|fuel IH]; intros i; cbn [exit_loop]; [mute_step|].
  mute_steps; apply IH.
Qed.
Lemma wp_look_ready p d0 owe d (Q : option Pending -> Daemon -> Prop) : since d0 owe d ->
  (forall o d' paid, since d0 (owe ++ paid) d' -> [pe_conn p] = paid ++ (pe_conn <$> option_list o) -> Q o d') -> run (look_ready env quoted p) Q d.
Proof.
  intros Hd HQ. unfold look_ready. apply wp_bind. eapply wp_keeps; [apply mute_ask; intros ?; exact I|exact Hd|]. intros r d1 Hd1. destruct (0 <? r).
  - apply wp_bind. eapply wp_keeps; [apply mute_ask; intros ?; exact I|exact Hd1|]. intros now d2 Hd2. apply wp_ret. apply (HQ _ _ []); [by rewrite app_nil_r|done].
  - apply wp_bind. eapply wp_keeps; [apply wait_exit_mute|exact Hd1|]. intros st d2 Hd2. apply wp_bind.
    eapply (wp_keeps (since d0 owe)); [destruct st; [apply keeps_bind; [apply log_words_mute|intros ?; apply keeps_ret]|apply keeps_ret]|exact Hd2|]. intros w d3 Hd3.
    apply wp_bind. unfold finish. apply (wp_say _ _ _ d0 owe); [done|]. intros d4 Hd4. apply wp_ret. by apply (HQ _ _ [pe_conn p]).
Qed.
Lemma wp_look_all ps : forall flags d0 owe d (Q : list Pending -> Daemon -> Prop), since d0 owe d ->
  (forall l d' paid, since d0 (owe ++ paid) d' -> pe_conn <$> ps ≡ₚ paid ++ (pe_conn <$> l) -> Q l d') -> run (look_all env quoted ps flags) Q d.
Proof.
  induction ps as [|p ps IH]; intros flags d0 owe d Q Hd HQ; cbn [look_all].
  - apply wp_ret. apply (HQ [] d []); [by rewrite app_nil_r|done].
  - destruct (awaits p).
    + apply wp_bind. assert (forall o d' paid, since d0 (owe ++ paid) d' -> [pe_conn p] = paid ++ (pe_conn <$> option_list o) ->
        run (rest ← look_all env quoted ps (tail flags); mret (option_list o ++ rest)) Q d') as Hnext.
      { intros o d1 paid Hd1 Hp. apply wp_bind, (IH _ d0 (owe ++ paid)); [done|]. intros l d2 paid' Hd2 Hp'. apply wp_ret. apply (HQ _ _ (paid ++ paid')); [by rewrite app_assoc|].
        rewrite fmap_cons, fmap_app, Hp'. change (pe_conn p :: ?l) with ([pe_conn p] ++ l). rewrite Hp. solve_Permutation. }
      destruct (default false (head flags)).
      * apply (wp_look_ready _ d0 owe); [done|]. exact Hnext.
      * apply wp_ret. apply (Hnext (Some p) _ []); [by rewrite app_nil_r|done].
    + apply wp_bind, (IH _ d0 owe); [done|]. intros l d2 paid Hd2 Hp. apply wp_ret. apply (HQ _ _ paid); [done|]. rewrite !fmap_cons, Hp. apply Permutation_middle.
Qed.
Lemma wp_settled p d0 owe d (Q : unit -> Daemon -> Prop) : since d0 owe d -> (forall d', since d0 (owe ++ [pe_conn p]) d' -> Q tt d') -> run (settled env quoted p) Q d.
Proof.
  intros Hd HQ. unfold settled. apply wp_bind. eapply (wp_keeps (since d0 owe)); [mute_steps|exact Hd|]. intros st d1 Hd1. destruct st as [st|].
  - destruct (succeeded st); [by apply (wp_say _ _ _ d0 owe)|]. apply wp_bind. eapply wp_keeps; [apply log_words_mute|exact Hd1|]. intros w d2 Hd2. by apply (wp_say _ _ _ d0 owe).
  - by apply (wp_say _ _ _ d0 owe).
Qed.
Lemma wp_expire now ps : forall d0 owe d (Q : list Pending -> Daemon -> Prop), since d0 owe d ->
  (forall l d' paid, since d0 (owe ++ paid) d' -> pe_conn <$> ps ≡ₚ paid ++ (pe_conn <$> l) -> Q l d') -> run (expire env quoted now ps) Q d.
Proof.
  induction ps as [|p ps IH]; intros d0 owe d Q Hd HQ; cbn [expire].
  - apply wp_ret. apply (HQ [] d []); [by rewrite app_nil_r|done].
  - destruct (now <? deadline p).
    + apply wp_bind, (IH d0 owe); [done|]. intros l d2 paid Hd2 Hp. apply wp_ret. apply (HQ _ _ paid); [done|]. rewrite !fmap_cons, Hp. apply Permutation_middle.
    + assert (forall d', since d0 (owe ++ [pe_conn p]) d' -> run (expire env quoted now ps) Q d') as Hnext.
      { intros d1 Hd1. apply (IH d0 (owe ++ [pe_conn p])); [done|]. intros l d2 paid Hd2 Hp. apply (HQ _ _ (pe_conn p :: paid)); [by rewrite <- app_assoc in Hd2|]. rewrite fmap_cons, Hp. done. }
      apply wp_bind. destruct (awaits p); [by apply (wp_say _ _ _ d0 owe)|by apply (wp_settled _ d0 owe)].
Qed.
Lemma wp_look_launches n flags d (Q : unit -> Daemon -> Prop) : tidy n d -> (forall d', tidy n d' -> Q tt d') -> run (look_launches env quoted flags) Q d.
Proof.
  intros Ht HQ. unfold look_launches. apply wp_bind, wp_gets, wp_bind, (wp_look_all _ _ d []); [apply since_refl|]. intros l1 d1 paid1 Hd1 Hp1. apply wp_bind.
  eapply wp_keeps; [apply mute_ask; intros ?; exact I|exact Hd1|]. intros now d2 Hd2. apply wp_bind, (wp_expire _ _ d paid1); [done|]. intros l2 d3 paid2 [Hj Hp Ha Hl Hz Hs] Hp2.
  apply wp_modify, HQ. destruct Ht as [Ti Ta Tl Tz Tw]. split; fields; [|congruence|congruence|auto|congruence].
  unfold held_by in *. fields. rewrite Hs, Hj, Ha, <- Ti, Hp1, Hp2. solve_Permutation.
Qed.

(** ** The next connection *)
Lemma lanes_snoc js j : lanes (js ++ [j]) = lanes js ++ option_list (lane (j_what j)).
Proof. unfold lanes. rewrite omap_app. cbn. by destruct (lane _). Qed.
Lemma push_lane js conn j : NoDup (lanes js) -> fresh_job conn js j -> NoDup (lanes (js ++ [j])).
Proof.
  intros Hn (_ & _ & Hf). rewrite lanes_snoc. apply NoDup_app. split_and!; [done| |by destruct (lane _); repeat constructor; set_solver].
  intros k Hk Hk'. destruct (lane (j_what j)) as [k'|] eqn:Hl; [|by inversion Hk']. apply list_elem_of_singleton in Hk' as ->. by eapply Hf.
Qed.
Lemma seqZ_snoc c : 0 <= c -> seqZ 0 (c + 1) = seqZ 0 c ++ [c].
Proof. intros Hc. by rewrite seqZ_app by lia. Qed.
Lemma wp_accept n d (Q : unit -> Daemon -> Prop) : tidy n d -> (forall d', tidy n d' -> Q tt d') -> run (accept env cfg crypt quoted show_gb) Q d.
Proof.
  intros Ht HQ. unfold accept. apply wp_bind. eapply wp_keeps; [apply (mute_ask _ d []); intros ?; exact I|apply since_refl|]. intros got d1 Hd1. apply since_tidy with (n := n) in Hd1; [|done].
  apply wp_when; [|intros _; by apply HQ]. intros _. apply wp_bind, wp_gets, wp_bind, wp_modify. set (c := accepted d1). set (d2 := set_accepted (c + 1) d1).
  unfold handle. apply wp_bind. eapply wp_mono; [|by intros []|].
  2: { apply (handle_request_gives env cfg crypt quoted show_gb Hcount mute (jobs d2) (since d2 []) (since_roomy d2 [])); [apply dormant_mute|done|apply since_refl]. }
  intros a d3 [[Hj Hp Ha Hl Hz Hs] Ho]. rewrite app_nil_r in Hs. destruct Hd1 as [Ti Ta Tl Tz Tw].
  assert (said (log d3) ++ held_by d3 ++ [c] ≡ₚ seqZ 0 (accepted d3)) as Hsum.
  { unfold held_by in *. rewrite Hs, Hj, Hp, Ha. unfold d2. fields. fold c. rewrite seqZ_snoc by (unfold c; lia). rewrite (app_assoc (said (log d1))), Ti. done. }
  assert (0 <= accepted d3) by (rewrite Ha; unfold d2, c; fields; lia). unfold held_by in *.
  destruct a as [s|j|j|p]; cbn [settle].
  - unfold ask, wp. cbn beta iota. destruct (answer env _ _ _). apply HQ. split; fields; [|done|by rewrite Hj|by apply Hz|by rewrite Hl].
    unfold held_by. fields. rewrite said_app, <- Hsum. cbn [said omap list_omap]. solve_Permutation.
  - apply wp_modify, HQ. destruct Ho as (Hc & He & Hf). split; fields; [|done|rewrite Hj; eapply push_lane; [done|by split_and!]|by apply Hz|by rewrite Hl].
    unfold held_by. fields. rewrite <- Hsum, fmap_app, <- Hc. cbn [fmap list_fmap]. solve_Permutation.
  - apply wp_bind. unfold ask, wp. cbn beta iota. apply HQ. destruct Ho as (Hc & He & Hf). split; fields; [|done|rewrite Hj; eapply push_lane; [done|by split_and!]|by apply Hz|by rewrite Hl].
    unfold held_by. fields. rewrite said_app, <- Hsum, fmap_app, <- Hc. cbn [fmap list_fmap said omap list_omap]. solve_Permutation.
  - apply wp_modify, HQ. split; fields; [|done|by rewrite Hj|by apply Hz|by rewrite Hl].
    unfold held_by. fields. rewrite <- Hsum, fmap_app, <- Ho. cbn [fmap list_fmap]. solve_Permutation.
Qed.

(** ** A round of the loop *)
Lemma tidy_more n d : tidy n d -> tidy (n + 1) d.
Proof. intros []. split; try done. lia. Qed.
Lemma due_mute at_ d0 owe : keeps (since d0 owe) (due env at_).
Proof. unfold due. mute_steps. Qed.
Lemma tidy_sealed n d v low : tidy n d -> 0 <= low <= n -> tidy n (set_sealed v low d).
Proof. intros [] Hl. by split. Qed.
Lemma wp_look_sealed n d (Q : unit -> Daemon -> Prop) : n < U32_MAX -> tidy n d -> (forall d', tidy (n + 1) d' -> Q tt d') -> run (look_sealed env) Q d.
Proof.
  intros Hn Ht HQ. unfold look_sealed. apply wp_bind, wp_gets, wp_bind. eapply wp_keeps; [apply (due_mute _ d [])|apply since_refl|]. intros b d1 Hd1.
  apply since_tidy with (n := n) in Hd1; [|done]. apply wp_when; [|intros _; by apply HQ, tidy_more]. intros _. apply wp_bind, wp_modify.
  set (d2 := set_sealed None _ d1). assert (tidy n d2) as Hd2 by (apply tidy_sealed; [done|apply Hd1]). clearbody d2. apply wp_bind.
  eapply wp_keeps; [apply (mute_suspended d2 [])|apply since_refl|]. intros s d3 Hd3. apply since_tidy with (n := n) in Hd3; [|done].
  destruct (negb s). { apply wp_modify, HQ, tidy_more, tidy_sealed; [done|]. destruct Hd3. lia. }
  apply wp_bind, wp_gets. apply wp_when; [|intros _; by apply HQ, tidy_more]. intros _. apply wp_bind. unfold critical.
  eapply (wp_keeps (since d3 [])); [mute_steps|apply since_refl|]. intros c d4 Hd4. apply since_tidy with (n := n) in Hd4; [|done].
  apply wp_bind, wp_gets. unfold Suspend.sealed_look. destruct (ti_low _ _ Hd4) as [Hl0 Hl1].
  destruct (c && (U32_MAX <? sealed_low d4 + 1)) eqn:Hov; [destruct (Z.ltb_spec U32_MAX (sealed_low d4 + 1)); [lia|by rewrite andb_false_r in Hov]|].
  set (low := if c then sealed_low d4 + 1 else 0). assert (0 <= low <= n + 1) as Hlow by (unfold low; destruct c; lia).
  apply wp_bind. eapply wp_keeps; [apply (mute_ask _ d4 []); intros ?; exact I|apply since_refl|]. intros now d5 Hd5. apply since_tidy with (n := n) in Hd5; [|done].
  apply wp_bind, wp_modify. set (d6 := set_sealed _ low d5). assert (tidy (n + 1) d6) as Hd6 by (apply tidy_sealed; [by apply tidy_more|done]). clearbody d6.
  apply wp_when; [|intros _; by apply HQ]. intros _. apply wp_bind. eapply wp_keeps; [apply (mute_ask _ d6 []); intros ?; exact I|apply since_refl|]. intros u d7 Hd7.
  apply since_tidy with (n := n + 1) in Hd7; [|done]. apply wp_modify, HQ, tidy_sealed; [done|apply Hd7].
Qed.
Lemma look_notice_mute d0 : keeps (since d0 []) (look_notice env).
Proof.
  unfold look_notice. apply keeps_bind; [apply keeps_gets|intros at_]. apply keeps_bind; [apply due_mute|intros b]. apply keeps_when. intros _. apply keeps_bind; [mute_steps|intros s].
  apply keeps_bind; [mute_steps|intros []]. apply keeps_bind; [mute_steps|intros now]. apply keeps_modify. intros d. apply since_notice.
Qed.
Lemma wp_round n d (Q : unit -> Daemon -> Prop) : n < U32_MAX -> tidy n d -> (forall d', tidy (n + 1) d' -> Q tt d') -> run (turn env cfg crypt quoted show_gb) Q d.
Proof.
  intros Hn Ht HQ. unfold turn. apply wp_bind, (wp_look_sealed n); [done..|]. intros d1 Ht1. apply wp_bind.
  eapply wp_keeps; [apply (look_notice_mute d1)|apply since_refl|]. intros [] d2 Hd2. apply since_tidy with (n := n + 1) in Hd2; [|done].
  apply wp_bind, (wp_reap_children (n + 1)); [done|]. intros d3 Ht3. apply wp_bind, (wp_end_jobs (n + 1)); [done|]. intros d4 Ht4. apply wp_bind, wp_gets, wp_bind.
  eapply wp_keeps; [apply (mute_ask _ d4 []); intros ?; exact I|apply since_refl|]. intros polled d5 Hd5. apply since_tidy with (n := n + 1) in Hd5; [|done].
  destruct polled as [[flags listener]|]; [|by apply wp_ret, HQ]. apply wp_bind, (wp_look_launches (n + 1)); [done|]. intros d6 Ht6.
  apply wp_when; [|intros _; by apply HQ]. intros _. by apply (wp_accept (n + 1)).
Qed.
Lemma wp_turns k : forall n d (Q : unit -> Daemon -> Prop), n + Z.of_nat k <= U32_MAX -> tidy n d -> (forall d', tidy (n + Z.of_nat k) d' -> Q tt d') -> run (turns env cfg crypt quoted show_gb k) Q d.
Proof.
  induction k as [|k IH]; intros n d Q Hn Ht HQ; cbn [turns].
  - apply wp_ret, HQ. by rewrite Z.add_0_r.
  - apply wp_bind, (wp_round n); [lia|done|]. intros d1 Ht1. apply (IH (n + 1)); [lia|done|]. intros d2 Ht2. apply HQ. by replace (n + Z.of_nat (S k)) with (n + 1 + Z.of_nat k) by lia.
Qed.
Lemma blank_tidy : tidy 0 blank.
Proof. split; cbn; [done|done|constructor|constructor|done]. Qed.
Lemma start_mute : keeps (since blank []) (start env cfg).
Proof.
  unfold start. mute_step; [mute_step|]. mute_step; [mute_step|]. apply keeps_bind; [apply keeps_modify; intros d; apply since_notice|intros []]. mute_step; [mute_step|]. mute_step. mute_step; [mute_step|].
  apply keeps_modify. intros d. apply since_due.
Qed.
End daemon.


(** ** Who is served *)
Section gate.
Context (cfg : ServeConfig) (conn : Z).
(** What finds out who asks and whether the state partition is up. *)
Definition free (e : Entry) : Prop :=
  match e with
  | @Asked _ (PeerCred c) _ => c = conn
  | @Asked _ (GetGroup g) _ => g = c_group cfg
  | @Asked _ (GetUser _) _ => True
  | Ran t => Forall tool_quiet t
  | _ => False
  end.
(** The state partition was seen suspended. *)
Definition asleep (l : list Entry) : Prop := exists t, Ran t ∈ l /\ seen_suspended t Suspend.STATE_MAPPER.
(** The kernel's word on the peer, and that it may ask: a developer's own, root, or of the group. *)
Definition member (uid : Z) (l : list Entry) : Prop :=
  if c_developer cfg then uid = c_euid cfg
  else uid = 0 \/ exists gid members pgid name, Asked (GetGroup (c_group cfg)) (Some (gid, members)) ∈ l /\
    Asked (GetUser uid) (Some (pgid, name)) ∈ l /\ (pgid = gid \/ name ∈ members).
Definition vouched (l : list Entry) : Prop := exists uid asker, Asked (PeerCred conn) (Some (uid, asker)) ∈ l /\ member uid l.
Definition gate (before : list Entry) (e : Entry) : Prop := free e \/ (dormant e /\ asleep before) \/ vouched before.

Lemma asleep_snoc l e : asleep l -> asleep (l ++ [e]).
Proof. intros (t & Ht & ?). exists t. set_solver. Qed.
Lemma member_mono uid l l' : l ⊆ l' -> member uid l -> member uid l'.
Proof. intros Hs. unfold member. destruct (c_developer cfg); [done|]. intros [?|(g & m & p & n & ? & ? & ?)]; [by left|right]. exists g, m, p, n. auto. Qed.
Lemma vouched_snoc l e : vouched l -> vouched (l ++ [e]).
Proof. intros (u & a & ? & ?). exists u, a. split; [set_solver|]. eapply member_mono; [|done]. set_solver. Qed.

Section from.
Context (d0 : Daemon).
Definition gated (P : list Entry -> Prop) (d : Daemon) : Prop :=
  jobs d = jobs d0 /\ exists es, log d = log d0 ++ es /\ Tools.justified gate es /\ P es.
Lemma gated_snoc (P Q : list Entry -> Prop) d e : gated P d -> (forall es, P es -> gate es e) -> (forall es, P es -> Q (es ++ [e])) -> gated Q (set_log (log d ++ [e]) d).
Proof.
  intros (Hj & es & Hl & Hg & Hp) He Hq. split; [done|]. exists (es ++ [e]). split_and!; [cbn; by rewrite Hl, <- app_assoc|apply Tools.justified_snoc; auto|auto].
Qed.
Lemma gated_weak (P Q : list Entry -> Prop) d : (forall es, P es -> Q es) -> gated P d -> gated Q d.
Proof. intros Hpq (Hj & es & Hl & Hg & Hp). split; [done|]. exists es. auto. Qed.
Lemma gated_roomy (ok : Entry -> Prop) P : (forall es e, P es -> P (es ++ [e])) -> (forall es e, P es -> ok e -> gate es e) -> roomy ok (jobs d0) (gated P).
Proof.
  intros Hs Hok. split.
  - intros d e Hd He. eapply gated_snoc; [exact Hd|auto|auto].
  - done.
  - done.
  - by intros d [].
Qed.
End from.
End gate.

Section serving.
Context (env : Env) (cfg : ServeConfig) (crypt : text -> text -> option text) (quoted : text -> text) (show_gb : Z -> text).
Context `{Words ReadError, Words RunError, Words WifiRequestError, Words Suspend.SuspendError, Words Suspend.ResumeError, Words Stick.StickError, Words PasswordError}.
Context (Hcount : forall n, count_free (tools env n)) (conn : Z) (d0 : Daemon).
Abbreviation G := (gated cfg conn d0).
Abbreviation run m Q := (wp (S := Daemon) (E := Never) m Q (fun _ _ => False)).

Lemma wp_asked_gate {A} (q : Ask A) (P : list Entry -> Prop) (Q : A -> Daemon -> Prop) d : G P d -> (forall a, free cfg conn (Asked q a)) ->
  (forall a d', G (fun es => exists es', es = es' ++ [Asked q a] /\ P es') d' -> Q a d') -> run (ask env q) Q d.
Proof. intros Hd Hq HQ. apply HQ. eapply gated_snoc; [exact Hd|intros; by left|]. intros es Hes. by exists es. Qed.
Lemma wp_state_suspended (P : list Entry -> Prop) (Q : bool -> Daemon -> Prop) d : G P d -> (forall es e, P es -> P (es ++ [e])) ->
  (forall b d', G (fun es => P es /\ (b = true -> asleep es)) d' -> Q b d') -> run (state_suspended env) Q d.
Proof.
  intros Hd HP HQ. unfold state_suspended, part_of. apply wp_bind.
  set (sys := tools env (length (log d))).
  assert (wp (Suspend.state_suspended (E := Never) sys) (fun b t => Forall tool_quiet t /\ (b = true -> seen_suspended t Suspend.STATE_MAPPER)) (fun _ _ => False) []) as Hw.
  { eapply wp_mono; [..|eapply wp_conj; [apply (state_suspended_quiet sys tool_quiet); [done|constructor]|
      apply (wp_suspended sys Suspend.STATE_MAPPER (fun b t => b = true -> seen_suspended t Suspend.STATE_MAPPER) (fun _ _ => False)); [apply Tools.justified_nil|auto]]]; [done|by intros []]. }
  unfold wp, part in *. fold sys. destruct (Suspend.state_suspended sys []) as [[b|[]|] t]; [|done]. destruct Hw as [Hq Hs]. cbn [mret]. apply wp_ret, HQ.
  eapply gated_snoc; [exact Hd|intros; by left|]. intros es Hes. split; [auto|]. intros Hb. exists t. split; [set_solver|auto].
Qed.
Lemma wp_authorised uid (P : list Entry -> Prop) (Q : bool -> Daemon -> Prop) d : G P d -> (forall es e, P es -> P (es ++ [e])) ->
  (forall b d', G (fun es => P es /\ (b = true -> member cfg uid es)) d' -> Q b d') -> run (authorised env cfg uid) Q d.
Proof.
  intros Hd HP HQ. unfold authorised, in_group. assert (forall b, (b = true -> forall es, member cfg uid es) -> Q b d) as Hnow.
  { intros b Hb. apply HQ. destruct Hd as (Hj & es & Hl & Hg & Hp). split; [done|]. exists es. split_and!; [done..|]. intros ?. by apply Hb. }
  unfold member in *. destruct (c_developer cfg); [apply wp_ret, Hnow; intros ?%Z.eqb_eq; auto|].
  destruct (Z.eqb_spec uid 0); [apply wp_ret, Hnow; auto|]. apply wp_bind, (wp_asked_gate _ P); [done|done|]. intros g d1 Hd1.
  destruct g as [[gid members]|]; [|apply wp_ret, HQ; eapply gated_weak; [|exact Hd1]; intros es (es' & -> & Hp); split; [auto|done]].
  apply wp_bind. eapply wp_asked_gate; [exact Hd1|done|]. intros u d2 Hd2. apply wp_ret, HQ. eapply gated_weak; [|exact Hd2]. intros es (es1 & -> & es2 & -> & Hp). split; [auto|].
  destruct u as [[pgid name]|]; [|done]. intros Hm. right. exists gid, members, pgid, name. split_and!; [set_solver|set_solver|].
  apply orb_true_iff in Hm as [->%Z.eqb_eq|?%bool_decide_eq_true]; auto.
Qed.

Lemma wp_handle_gate : run (handle_request env cfg crypt quoted show_gb conn) (fun _ => G (fun _ => True)) d0.
Proof.
  unfold handle_request. assert (G (fun _ => True) d0) as H00 by (split; [done|]; exists []; split_and!; [by rewrite app_nil_r|apply Tools.justified_nil|done]).
  assert (forall P d, G P d -> G (fun _ => True) d) as Hany by (intros P d; by apply gated_weak).
  apply wp_bind. eapply wp_asked_gate; [exact H00|done|]. intros peer d1 Hd1. destruct peer as [[uid asker]|]; [|by eapply wp_ret, Hany].
  set (P1 := fun es : list Entry => Asked (PeerCred conn) (Some (uid, asker)) ∈ es). assert (forall es e, P1 es -> P1 (es ++ [e])) as HP1 by (unfold P1; set_solver).
  apply (gated_weak _ _ _ _ P1) in Hd1; [|intros es (es' & -> & _); unfold P1; set_solver].
  apply wp_bind. eapply wp_state_suspended; [exact Hd1|done|]. intros s d2 Hd2. destruct s.
  { eapply wp_mono; [..|eapply (suspended_request_gives env crypt quoted show_gb dormant (jobs d0) (G asleep)); [|done|]]; [intros a d' [Hd' _]; by eapply Hany|done| |].
    - apply gated_roomy; [apply asleep_snoc|]. intros es e He Hdo. right. by left.
    - eapply gated_weak; [|exact Hd2]. intros es [_ Hs]. auto. }
  apply wp_bind. eapply (wp_authorised uid P1); [eapply gated_weak; [|exact Hd2]; by intros es []|done|]. intros may d3 Hd3. destruct may; cbn [negb]; [|by eapply wp_ret, Hany].
  apply (gated_weak _ _ _ _ (vouched cfg conn)) in Hd3; [|intros es [Hp Hm]; exists uid, asker; auto].
  assert (roomy mute (jobs d0) (G (vouched cfg conn))) as Hroom by (apply gated_roomy; [apply vouched_snoc|]; intros es e He _; by right; right).
  apply wp_bind. eapply wp_keeps; [eapply recv_keeps; [exact Hroom|apply dormant_mute]|exact Hd3|]. intros r d4 Hd4. destruct r as [[raw handed]|e]; [|by eapply wp_ret, Hany].
  case_bool_decide.
  - eapply wp_mono; [..|eapply (password_gives env crypt mute (jobs d0) _ Hroom) with (conn := conn); [done|exact Hd4]]; [intros a d' [Hd' _]; by eapply Hany|by intros []].
  - eapply wp_mono; [..|eapply (serve_verb_gives env cfg crypt quoted show_gb Hcount mute (jobs d0) _ Hroom); [apply dormant_mute|done|exact Hd4]]; [intros a d' [Hd' _]; by eapply Hany|by intros []].
Qed.
End serving.


(** ** A daemon at work *)
Definition demo_answer (A : Type) (n : nat) (q : Ask A) : A :=
  match q in Ask A return A with
  | PeerCred _ => Some (1000, 77)
  | Turns _ => [mkTurn 0 1 false (Message (as_bytes "stop mail
") [] false)]
  | Release _ | Kill _ | Nap _ | PowerOff | Say _ _ | Started _ _ => tt
  | Time => 0
  | GetGroup _ => Some (50, [chars "ann"])
  | GetUser _ => Some (1000, chars "ann")
  | Shadow => None
  | LoadZones => Ok []
  | StateNow _ => Ok Registry.Absent
  | ZoneNames => []
  | FdKind _ => (None, 0)
  | ReadPass _ => Err []
  | Part _ _ => Ok []
  | Upstream _ _ => None
  | StartProxy _ _ => Err []
  | OpenSocket _ => Err []
  | Start _ _ => Ok (Z.of_nat n)
  | Launch _ _ _ => Err []
  | WaitFor pid => (pid, 0)
  | Reaped => if (20 <? n)%nat then [(12, 0)] else []
  | Output _ | Errors _ => []
  | LogTail _ => []
  | NetLine _ => None
  | Battery => (fun _ _ => None, None)
  | Poll _ => Some ([], true)
  | ReadReady _ => 0
  | Accept => true
  end.
Definition demo_env : Env := mkEnv demo_answer (fun _ => sealing_sys).
Definition demo_cfg : ServeConfig := mkConfig false 0 (chars "kryptik").
Definition no_words (E : Type) : Words E := fun _ => [].
Definition demo_run (rounds : nat) : outcome unit Never * Daemon :=
  (start demo_env demo_cfg;; @turns demo_env demo_cfg (fun _ _ => None) id (fun _ => []) (no_words _) (no_words _) (no_words _) (no_words _) (no_words _) (no_words _) (no_words _) rounds) blank.
Lemma sealing_free : count_free sealing_sys.
Proof. intros n s Hr. assert (sealing_sys _ n (Tools.ReadText Suspend.LEFT_WAITING) = Err Tools.NotFound) as Hx by (vm_compute; reflexivity). congruence. Qed.
Definition demo_request : outcome Answer Never * Daemon :=
  @handle_request demo_env demo_cfg (fun _ _ => None) id (fun _ => []) (no_words _) (no_words _) (no_words _) (no_words _) (no_words _) (no_words _) (no_words _) 0 blank.

(** A display proxy that has ended is collected, which frees its number, and then signalled. *)
Definition ended_proxy : Proxy := mkProxy 1000 (chars "mail") 12 [] (mkInode 1 2).
Example reaped_proxy_signalled :
  log (give_way_proxy demo_env id 1000 (chars "mail") (set_proxies [ended_proxy] blank)).2 =
  [Asked (WaitFor 12) (12, 0); Asked (Upstream 1000 (chars "mail")) None; Asked (Kill 12) tt].
Proof. vm_compute. reflexivity. Qed.
