(* ===== verification/Syscalls.v ===== *)
(** * compartments/kryptikd/src/seccomp.rs: the system calls by name

    The calls a zone may make, the calls no policy opens, the soft refusals, the Wayland
    proxy's calls and those a policy may add. The numbers are the libc crate's: [Libc] is what
    the source takes from it and [LibcLaws] what it relies on, the kernel's ABI. *)
From S2P Require Import Prelude.
Open Scope string_scope.
Open Scope list_scope.
Open Scope Z_scope.

(** ** What comes from the libc crate *)
Class Libc := {
  SYS : string -> Z;
  SECCOMP_RET_USER_NOTIF : Z;
  SECCOMP_FILTER_FLAG_NEW_LISTENER : Z;
  FALLOC_FL_PUNCH_HOLE : Z;
  FALLOC_FL_KEEP_SIZE : Z;
  EINVAL : Z;
}.

Definition AUDIT_ARCH_X86_64 : Z := 0xc000003e.
Definition X32_SYSCALL_BIT : Z := 0x40000000.

Definition EAFNOSUPPORT : Z := 97.
Definition ENOSYS : Z := 38.
Definition EPERM : Z := 1.

Definition SYS_MAP_SHADOW_STACK : Z := 453.

(** ** The lists *)
Definition BASE_CALLS : list string :=
  [
   "SYS_read"; "SYS_write"; "SYS_readv"; "SYS_writev"; "SYS_pread64"; "SYS_pwrite64"; "SYS_preadv";
   "SYS_pwritev"; "SYS_open"; "SYS_openat"; "SYS_close"; "SYS_lseek"; "SYS_stat"; "SYS_fstat";
   "SYS_lstat"; "SYS_newfstatat"; "SYS_statx"; "SYS_access"; "SYS_faccessat"; "SYS_faccessat2";
   "SYS_getdents64"; "SYS_readlink"; "SYS_readlinkat"; "SYS_fcntl"; "SYS_ioctl"; "SYS_dup";
   "SYS_dup2"; "SYS_dup3"; "SYS_pipe"; "SYS_pipe2"; "SYS_fsync"; "SYS_fdatasync"; "SYS_ftruncate";
   "SYS_truncate"; "SYS_getcwd"; "SYS_chdir"; "SYS_fchdir"; "SYS_rename"; "SYS_renameat";
   "SYS_renameat2"; "SYS_mkdir"; "SYS_mkdirat"; "SYS_rmdir"; "SYS_unlink"; "SYS_unlinkat";
   "SYS_symlink"; "SYS_symlinkat"; "SYS_link"; "SYS_linkat"; "SYS_umask"; "SYS_flock";
   "SYS_fallocate"; "SYS_creat"; "SYS_openat2"; "SYS_close_range"; "SYS_mknod"; "SYS_mknodat";
   "SYS_chmod"; "SYS_fchmod"; "SYS_fchmodat"; "SYS_fchmodat2"; "SYS_chown"; "SYS_fchown";
   "SYS_lchown"; "SYS_fchownat"; "SYS_copy_file_range"; "SYS_sendfile"; "SYS_splice";
   "SYS_fadvise64"; "SYS_readahead"; "SYS_utimensat"; "SYS_futimesat"; "SYS_sync"; "SYS_syncfs";
   "SYS_getxattr"; "SYS_lgetxattr"; "SYS_fgetxattr"; "SYS_listxattr"; "SYS_llistxattr";
   "SYS_flistxattr"; "SYS_setxattr"; "SYS_lsetxattr"; "SYS_fsetxattr"; "SYS_removexattr";
   "SYS_lremovexattr"; "SYS_fremovexattr"; "SYS_mmap"; "SYS_munmap"; "SYS_mremap"; "SYS_brk";
   "SYS_madvise"; "SYS_mlock"; "SYS_munlock"; "SYS_memfd_create"; "SYS_msync"; "SYS_mprotect";
   "SYS_clone"; "SYS_clone3"; "SYS_fork"; "SYS_vfork"; "SYS_execve"; "SYS_execveat"; "SYS_exit";
   "SYS_exit_group"; "SYS_wait4"; "SYS_waitid"; "SYS_pidfd_open"; "SYS_pidfd_send_signal";
   "SYS_getpid"; "SYS_getppid"; "SYS_gettid"; "SYS_getuid"; "SYS_geteuid"; "SYS_getgid";
   "SYS_getegid"; "SYS_getgroups"; "SYS_getpgrp"; "SYS_getpgid"; "SYS_setpgid"; "SYS_getsid";
   "SYS_setsid"; "SYS_getrusage"; "SYS_getrlimit"; "SYS_prlimit64"; "SYS_sched_yield";
   "SYS_sched_getaffinity"; "SYS_sched_setaffinity"; "SYS_getcpu"; "SYS_capget";
   "SYS_set_tid_address"; "SYS_set_robust_list"; "SYS_get_robust_list"; "SYS_futex";
   "SYS_arch_prctl"; "SYS_membarrier"; "SYS_getpriority"; "SYS_setpriority"; "SYS_sched_getparam";
   "SYS_sched_getscheduler"; "SYS_sched_get_priority_max"; "SYS_sched_get_priority_min";
   "SYS_sched_getattr"; "SYS_ioprio_get"; "SYS_getresuid"; "SYS_getresgid"; "SYS_rt_sigaction";
   "SYS_rt_sigprocmask"; "SYS_rt_sigreturn"; "SYS_rt_sigpending"; "SYS_rt_sigsuspend";
   "SYS_rt_sigtimedwait"; "SYS_sigaltstack"; "SYS_kill"; "SYS_tgkill"; "SYS_tkill";
   "SYS_restart_syscall"; "SYS_clock_gettime"; "SYS_clock_getres"; "SYS_clock_nanosleep";
   "SYS_gettimeofday"; "SYS_nanosleep"; "SYS_times"; "SYS_alarm"; "SYS_setitimer"; "SYS_getitimer";
   "SYS_pause"; "SYS_timer_create"; "SYS_timer_settime"; "SYS_timer_gettime";
   "SYS_timer_getoverrun"; "SYS_timer_delete"; "SYS_poll"; "SYS_ppoll"; "SYS_select";
   "SYS_pselect6"; "SYS_epoll_create"; "SYS_epoll_create1"; "SYS_epoll_ctl"; "SYS_epoll_wait";
   "SYS_epoll_pwait"; "SYS_epoll_pwait2"; "SYS_eventfd"; "SYS_eventfd2"; "SYS_signalfd";
   "SYS_signalfd4"; "SYS_timerfd_create"; "SYS_timerfd_settime"; "SYS_timerfd_gettime";
   "SYS_inotify_add_watch"; "SYS_inotify_rm_watch"; "SYS_socket"; "SYS_socketpair"; "SYS_bind";
   "SYS_listen"; "SYS_accept"; "SYS_accept4"; "SYS_connect"; "SYS_shutdown"; "SYS_getsockname";
   "SYS_getpeername"; "SYS_setsockopt"; "SYS_getsockopt"; "SYS_sendto"; "SYS_recvfrom";
   "SYS_sendmsg"; "SYS_recvmsg"; "SYS_sendmmsg"; "SYS_recvmmsg"; "SYS_uname"; "SYS_sysinfo";
   "SYS_getrandom"; "SYS_prctl"; "SYS_rseq"; "SYS_statfs"; "SYS_fstatfs"
  ].

Definition DENIED_CALLS : list (string * string) :=
  [
   ("SYS_ptrace", "read/write another process's memory; the classic escape");
   ("SYS_process_vm_readv", "read another process's memory directly");
   ("SYS_process_vm_writev", "write another process's memory directly");
   ("SYS_mount", "re-mount the filesystem out from under Landlock");
   ("SYS_umount2", "unmount the zone's own confinement");
   ("SYS_pivot_root", "replace the zone's root");
   ("SYS_chroot", "escape via the classic double-chroot trick");
   ("SYS_unshare", "create nested namespaces; a known LPE surface");
   ("SYS_setns", "enter another zone's namespaces");
   ("SYS_bpf", "load kernel programs; a well-worn privilege-escalation path");
   ("SYS_perf_event_open", "long history of privilege escalation bugs");
   ("SYS_userfaultfd", "reliable heap-grooming primitive for kernel exploits");
   ("SYS_keyctl", "kernel keyring; repeated CVEs");
   ("SYS_add_key", "kernel keyring");
   ("SYS_request_key", "kernel keyring");
   ("SYS_init_module", "load a kernel module");
   ("SYS_finit_module", "load a kernel module");
   ("SYS_delete_module", "unload a kernel module");
   ("SYS_kexec_load", "boot a different kernel");
   ("SYS_reboot", "reboot the host");
   ("SYS_swapon", "attach swap");
   ("SYS_swapoff", "detach swap");
   ("SYS_setuid", "no zoned process should change uid");
   ("SYS_setgid", "no zoned process should change gid");
   ("SYS_ioperm", "raw I/O port access");
   ("SYS_iopl", "raw I/O port access");
   ("SYS_quotactl", "filesystem quota manipulation");
   ("SYS_open_by_handle_at", "open a file by handle, bypassing path checks");
   ("SYS_name_to_handle_at", "obtain the handle used by the above");
   ("SYS_fsopen", "new mount API: open a filesystem context");
   ("SYS_fsconfig", "new mount API: configure a filesystem context");
   ("SYS_fsmount", "new mount API: create a mount from a context");
   ("SYS_fspick", "new mount API: reconfigure an existing mount");
   ("SYS_move_mount", "new mount API: attach a mount");
   ("SYS_open_tree", "new mount API: detach a mount tree");
   ("SYS_mount_setattr", "change mount flags, e.g. clear read-only");
   ("SYS_io_uring_setup", "io_uring: does I/O past the syscall filter");
   ("SYS_io_uring_enter", "io_uring");
   ("SYS_io_uring_register", "io_uring");
   ("SYS_pidfd_getfd", "steal a descriptor from another process");
   ("SYS_kcmp", "compare kernel objects across processes; ASLR/ptrace aid");
   ("SYS_sethostname", "the zone's hostname is set by kryptikd, once");
   ("SYS_setdomainname", "as sethostname");
   ("SYS_setgroups", "no zoned process changes its groups");
   ("SYS_setresuid", "no zoned process should change uid");
   ("SYS_setresgid", "no zoned process should change gid");
   ("SYS_setreuid", "no zoned process should change uid");
   ("SYS_setregid", "no zoned process should change gid");
   ("SYS_setfsuid", "no zoned process should change uid");
   ("SYS_setfsgid", "no zoned process should change gid");
   ("SYS_capset", "capabilities are fixed at zone entry");
   ("SYS_personality", "change the execution domain; ASLR-disabling flag")
  ].

Definition SOFT_CALLS : list (string * Z) :=
  [
   ("SYS_inotify_init", ENOSYS);
   ("SYS_inotify_init1", ENOSYS);
   ("SYS_setfsuid", EPERM);
   ("SYS_setfsgid", EPERM);
   ("SYS_setuid", EPERM);
   ("SYS_setgid", EPERM);
   ("SYS_setreuid", EPERM);
   ("SYS_setregid", EPERM);
   ("SYS_setresuid", EPERM);
   ("SYS_setresgid", EPERM);
   ("SYS_setgroups", EPERM);
   ("SYS_capset", EPERM);
   ("SYS_unshare", EPERM);
   ("SYS_sched_setscheduler", EPERM);
   ("SYS_sched_setparam", EPERM);
   ("SYS_sched_setattr", EPERM);
   ("SYS_ioprio_set", EPERM);
   ("SYS_quotactl", EPERM)
  ].

Definition PROXY_CALLS : list string :=
  [
   "SYS_execve"; "SYS_arch_prctl"; "SYS_set_tid_address"; "SYS_rt_sigaction"; "SYS_rt_sigprocmask";
   "SYS_sigaltstack"; "SYS_prlimit64"; "SYS_exit"; "SYS_exit_group"; "SYS_brk"; "SYS_mmap";
   "SYS_munmap"; "SYS_mremap"; "SYS_mprotect"; "SYS_madvise"; "SYS_poll"; "SYS_restart_syscall";
   "SYS_accept4"; "SYS_socket"; "SYS_connect"; "SYS_getsockopt"; "SYS_recvmsg"; "SYS_sendmsg";
   "SYS_recvfrom"; "SYS_sendto"; "SYS_read"; "SYS_write"; "SYS_pipe2"; "SYS_fcntl"; "SYS_ioctl";
   "SYS_close"; "SYS_getrandom"; "SYS_clock_gettime"; "SYS_geteuid"; "SYS_fstatfs"; "SYS_fstat";
   "SYS_fallocate"
  ].

Definition ADDABLE_CALLS : list string :=
  [
   "SYS_acct"; "SYS_adjtimex"; "SYS_clock_adjtime"; "SYS_clock_settime"; "SYS_fanotify_init";
   "SYS_fanotify_mark"; "SYS_inotify_init"; "SYS_inotify_init1"; "SYS_ioprio_set";
   "SYS_landlock_add_rule"; "SYS_landlock_create_ruleset"; "SYS_landlock_restrict_self";
   "SYS_mincore"; "SYS_mlock2"; "SYS_mlockall"; "SYS_mq_getsetattr"; "SYS_mq_notify"; "SYS_mq_open";
   "SYS_mq_timedreceive"; "SYS_mq_timedsend"; "SYS_mq_unlink"; "SYS_msgctl"; "SYS_msgget";
   "SYS_msgrcv"; "SYS_msgsnd"; "SYS_munlockall"; "SYS_process_madvise"; "SYS_remap_file_pages";
   "SYS_rt_sigqueueinfo"; "SYS_rt_tgsigqueueinfo"; "SYS_sched_setattr"; "SYS_sched_setparam";
   "SYS_sched_setscheduler"; "SYS_seccomp"; "SYS_semctl"; "SYS_semget"; "SYS_semop";
   "SYS_settimeofday"; "SYS_shmat"; "SYS_shmctl"; "SYS_shmdt"; "SYS_shmget"; "SYS_syslog";
   "SYS_vhangup"
  ].

(** Every [libc::SYS_] constant the lists name. *)
Definition NAMED : list string :=
  BASE_CALLS ++ DENIED_CALLS.*1 ++ SOFT_CALLS.*1 ++ PROXY_CALLS ++ ADDABLE_CALLS.

(** [unprefixed]: the name without [SYS_]. *)
Definition unprefixed (sys : string) : string := String.substring 4 (String.length sys - 4) sys.

Section libc.
Context `{Libc}.

Definition by_name (l : list string) : list (string * Z) :=
  (fun s => (unprefixed s, SYS s)) <$> l.

Definition BASE_ALLOWLIST : list Z := (SYS <$> BASE_CALLS) ++ [SYS_MAP_SHADOW_STACK].
Definition BASE_NAMES : list (string * Z) :=
  by_name BASE_CALLS ++ [("map_shadow_stack", SYS_MAP_SHADOW_STACK)].
Definition DENIED_RATIONALE : list (Z * string) :=
  (fun p => (SYS p.1, p.2)) <$> DENIED_CALLS.
Definition DENIED_NAMES : list (string * Z) := by_name DENIED_CALLS.*1.
Definition REFUSED_SOFTLY : list (Z * Z) := (fun p => (SYS p.1, p.2)) <$> SOFT_CALLS.
Definition PROXY_ALLOWLIST : list Z := SYS <$> PROXY_CALLS.
Definition ADDABLE : list (string * Z) := by_name ADDABLE_CALLS.

(** [contains] on a list of numbers. *)
Definition contains (l : list Z) (x : Z) : bool := existsb (Z.eqb x) l.

Definition is_denied (nr : Z) : bool := existsb (fun p => p.1 =? nr) DENIED_RATIONALE.

Definition names : list (string * Z) := DENIED_NAMES ++ BASE_NAMES ++ ADDABLE.

Definition syscall_by_name (name : string) : option Z :=
  snd <$> List.find (fun p => String.eqb p.1 name) names.

Definition name_of (nr : Z) : option string :=
  fst <$> List.find (fun p => p.2 =? nr) names.
End libc.

(** ** What the lists rely on: the x86-64 system call table

    The numbers named are distinct, none is map_shadow_stack's, and all lie below the x32 bit;
    the notification action and the listener flag are <linux/seccomp.h>'s. *)
Class LibcLaws `{Libc} : Prop := {
  SYS_range s : s ∈ NAMED -> 0 <= SYS s < X32_SYSCALL_BIT;
  SYS_inj s t : s ∈ NAMED -> t ∈ NAMED -> SYS s = SYS t -> s = t;
  SYS_not_shadow s : s ∈ NAMED -> SYS s <> SYS_MAP_SHADOW_STACK;
  USER_NOTIF_value : SECCOMP_RET_USER_NOTIF = 0x7fc00000;
  NEW_LISTENER_value : SECCOMP_FILTER_FLAG_NEW_LISTENER = 8;
}.

(** ** The numbers of <asm/unistd_64.h> *)
Definition x86_64_numbers : list (string * Z) :=
  [
   ("SYS_read", 0); ("SYS_write", 1); ("SYS_readv", 19); ("SYS_writev", 20); ("SYS_pread64", 17);
   ("SYS_pwrite64", 18); ("SYS_preadv", 295); ("SYS_pwritev", 296); ("SYS_open", 2); ("SYS_openat",
   257); ("SYS_close", 3); ("SYS_lseek", 8); ("SYS_stat", 4); ("SYS_fstat", 5); ("SYS_lstat", 6);
   ("SYS_newfstatat", 262); ("SYS_statx", 332); ("SYS_access", 21); ("SYS_faccessat", 269);
   ("SYS_faccessat2", 439); ("SYS_getdents64", 217); ("SYS_readlink", 89); ("SYS_readlinkat", 267);
   ("SYS_fcntl", 72); ("SYS_ioctl", 16); ("SYS_dup", 32); ("SYS_dup2", 33); ("SYS_dup3", 292);
   ("SYS_pipe", 22); ("SYS_pipe2", 293); ("SYS_fsync", 74); ("SYS_fdatasync", 75); ("SYS_ftruncate",
   77); ("SYS_truncate", 76); ("SYS_getcwd", 79); ("SYS_chdir", 80); ("SYS_fchdir", 81);
   ("SYS_rename", 82); ("SYS_renameat", 264); ("SYS_renameat2", 316); ("SYS_mkdir", 83);
   ("SYS_mkdirat", 258); ("SYS_rmdir", 84); ("SYS_unlink", 87); ("SYS_unlinkat", 263);
   ("SYS_symlink", 88); ("SYS_symlinkat", 266); ("SYS_link", 86); ("SYS_linkat", 265); ("SYS_umask",
   95); ("SYS_flock", 73); ("SYS_fallocate", 285); ("SYS_creat", 85); ("SYS_openat2", 437);
   ("SYS_close_range", 436); ("SYS_mknod", 133); ("SYS_mknodat", 259); ("SYS_chmod", 90);
   ("SYS_fchmod", 91); ("SYS_fchmodat", 268); ("SYS_fchmodat2", 452); ("SYS_chown", 92);
   ("SYS_fchown", 93); ("SYS_lchown", 94); ("SYS_fchownat", 260); ("SYS_copy_file_range", 326);
   ("SYS_sendfile", 40); ("SYS_splice", 275); ("SYS_fadvise64", 221); ("SYS_readahead", 187);
   ("SYS_utimensat", 280); ("SYS_futimesat", 261); ("SYS_sync", 162); ("SYS_syncfs", 306);
   ("SYS_getxattr", 191); ("SYS_lgetxattr", 192); ("SYS_fgetxattr", 193); ("SYS_listxattr", 194);
   ("SYS_llistxattr", 195); ("SYS_flistxattr", 196); ("SYS_setxattr", 188); ("SYS_lsetxattr", 189);
   ("SYS_fsetxattr", 190); ("SYS_removexattr", 197); ("SYS_lremovexattr", 198); ("SYS_fremovexattr",
   199); ("SYS_mmap", 9); ("SYS_munmap", 11); ("SYS_mremap", 25); ("SYS_brk", 12); ("SYS_madvise",
   28); ("SYS_mlock", 149); ("SYS_munlock", 150); ("SYS_memfd_create", 319); ("SYS_msync", 26);
   ("SYS_mprotect", 10); ("SYS_clone", 56); ("SYS_clone3", 435); ("SYS_fork", 57); ("SYS_vfork",
   58); ("SYS_execve", 59); ("SYS_execveat", 322); ("SYS_exit", 60); ("SYS_exit_group", 231);
   ("SYS_wait4", 61); ("SYS_waitid", 247); ("SYS_pidfd_open", 434); ("SYS_pidfd_send_signal", 424);
   ("SYS_getpid", 39); ("SYS_getppid", 110); ("SYS_gettid", 186); ("SYS_getuid", 102);
   ("SYS_geteuid", 107); ("SYS_getgid", 104); ("SYS_getegid", 108); ("SYS_getgroups", 115);
   ("SYS_getpgrp", 111); ("SYS_getpgid", 121); ("SYS_setpgid", 109); ("SYS_getsid", 124);
   ("SYS_setsid", 112); ("SYS_getrusage", 98); ("SYS_getrlimit", 97); ("SYS_prlimit64", 302);
   ("SYS_sched_yield", 24); ("SYS_sched_getaffinity", 204); ("SYS_sched_setaffinity", 203);
   ("SYS_getcpu", 309); ("SYS_capget", 125); ("SYS_set_tid_address", 218); ("SYS_set_robust_list",
   273); ("SYS_get_robust_list", 274); ("SYS_futex", 202); ("SYS_arch_prctl", 158);
   ("SYS_membarrier", 324); ("SYS_getpriority", 140); ("SYS_setpriority", 141);
   ("SYS_sched_getparam", 143); ("SYS_sched_getscheduler", 145); ("SYS_sched_get_priority_max",
   146); ("SYS_sched_get_priority_min", 147); ("SYS_sched_getattr", 315); ("SYS_ioprio_get", 252);
   ("SYS_getresuid", 118); ("SYS_getresgid", 120); ("SYS_rt_sigaction", 13); ("SYS_rt_sigprocmask",
   14); ("SYS_rt_sigreturn", 15); ("SYS_rt_sigpending", 127); ("SYS_rt_sigsuspend", 130);
   ("SYS_rt_sigtimedwait", 128); ("SYS_sigaltstack", 131); ("SYS_kill", 62); ("SYS_tgkill", 234);
   ("SYS_tkill", 200); ("SYS_restart_syscall", 219); ("SYS_clock_gettime", 228);
   ("SYS_clock_getres", 229); ("SYS_clock_nanosleep", 230); ("SYS_gettimeofday", 96);
   ("SYS_nanosleep", 35); ("SYS_times", 100); ("SYS_alarm", 37); ("SYS_setitimer", 38);
   ("SYS_getitimer", 36); ("SYS_pause", 34); ("SYS_timer_create", 222); ("SYS_timer_settime", 223);
   ("SYS_timer_gettime", 224); ("SYS_timer_getoverrun", 225); ("SYS_timer_delete", 226);
   ("SYS_poll", 7); ("SYS_ppoll", 271); ("SYS_select", 23); ("SYS_pselect6", 270);
   ("SYS_epoll_create", 213); ("SYS_epoll_create1", 291); ("SYS_epoll_ctl", 233); ("SYS_epoll_wait",
   232); ("SYS_epoll_pwait", 281); ("SYS_epoll_pwait2", 441); ("SYS_eventfd", 284); ("SYS_eventfd2",
   290); ("SYS_signalfd", 282); ("SYS_signalfd4", 289); ("SYS_timerfd_create", 283);
   ("SYS_timerfd_settime", 286); ("SYS_timerfd_gettime", 287); ("SYS_inotify_add_watch", 254);
   ("SYS_inotify_rm_watch", 255); ("SYS_socket", 41); ("SYS_socketpair", 53); ("SYS_bind", 49);
   ("SYS_listen", 50); ("SYS_accept", 43); ("SYS_accept4", 288); ("SYS_connect", 42);
   ("SYS_shutdown", 48); ("SYS_getsockname", 51); ("SYS_getpeername", 52); ("SYS_setsockopt", 54);
   ("SYS_getsockopt", 55); ("SYS_sendto", 44); ("SYS_recvfrom", 45); ("SYS_sendmsg", 46);
   ("SYS_recvmsg", 47); ("SYS_sendmmsg", 307); ("SYS_recvmmsg", 299); ("SYS_uname", 63);
   ("SYS_sysinfo", 99); ("SYS_getrandom", 318); ("SYS_prctl", 157); ("SYS_rseq", 334);
   ("SYS_statfs", 137); ("SYS_fstatfs", 138); ("SYS_ptrace", 101); ("SYS_process_vm_readv", 310);
   ("SYS_process_vm_writev", 311); ("SYS_mount", 165); ("SYS_umount2", 166); ("SYS_pivot_root",
   155); ("SYS_chroot", 161); ("SYS_unshare", 272); ("SYS_setns", 308); ("SYS_bpf", 321);
   ("SYS_perf_event_open", 298); ("SYS_userfaultfd", 323); ("SYS_keyctl", 250); ("SYS_add_key",
   248); ("SYS_request_key", 249); ("SYS_init_module", 175); ("SYS_finit_module", 313);
   ("SYS_delete_module", 176); ("SYS_kexec_load", 246); ("SYS_reboot", 169); ("SYS_swapon", 167);
   ("SYS_swapoff", 168); ("SYS_setuid", 105); ("SYS_setgid", 106); ("SYS_ioperm", 173); ("SYS_iopl",
   172); ("SYS_quotactl", 179); ("SYS_open_by_handle_at", 304); ("SYS_name_to_handle_at", 303);
   ("SYS_fsopen", 430); ("SYS_fsconfig", 431); ("SYS_fsmount", 432); ("SYS_fspick", 433);
   ("SYS_move_mount", 429); ("SYS_open_tree", 428); ("SYS_mount_setattr", 442);
   ("SYS_io_uring_setup", 425); ("SYS_io_uring_enter", 426); ("SYS_io_uring_register", 427);
   ("SYS_pidfd_getfd", 438); ("SYS_kcmp", 312); ("SYS_sethostname", 170); ("SYS_setdomainname",
   171); ("SYS_setgroups", 116); ("SYS_setresuid", 117); ("SYS_setresgid", 119); ("SYS_setreuid",
   113); ("SYS_setregid", 114); ("SYS_setfsuid", 122); ("SYS_setfsgid", 123); ("SYS_capset", 126);
   ("SYS_personality", 135); ("SYS_inotify_init", 253); ("SYS_inotify_init1", 294);
   ("SYS_sched_setscheduler", 144); ("SYS_sched_setparam", 142); ("SYS_sched_setattr", 314);
   ("SYS_ioprio_set", 251); ("SYS_acct", 163); ("SYS_adjtimex", 159); ("SYS_clock_adjtime", 305);
   ("SYS_clock_settime", 227); ("SYS_fanotify_init", 300); ("SYS_fanotify_mark", 301);
   ("SYS_landlock_add_rule", 445); ("SYS_landlock_create_ruleset", 444);
   ("SYS_landlock_restrict_self", 446); ("SYS_mincore", 27); ("SYS_mlock2", 325); ("SYS_mlockall",
   151); ("SYS_mq_getsetattr", 245); ("SYS_mq_notify", 244); ("SYS_mq_open", 240);
   ("SYS_mq_timedreceive", 243); ("SYS_mq_timedsend", 242); ("SYS_mq_unlink", 241); ("SYS_msgctl",
   71); ("SYS_msgget", 68); ("SYS_msgrcv", 70); ("SYS_msgsnd", 69); ("SYS_munlockall", 152);
   ("SYS_process_madvise", 440); ("SYS_remap_file_pages", 216); ("SYS_rt_sigqueueinfo", 129);
   ("SYS_rt_tgsigqueueinfo", 297); ("SYS_seccomp", 317); ("SYS_semctl", 66); ("SYS_semget", 64);
   ("SYS_semop", 65); ("SYS_settimeofday", 164); ("SYS_shmat", 30); ("SYS_shmctl", 31);
   ("SYS_shmdt", 67); ("SYS_shmget", 29); ("SYS_syslog", 103); ("SYS_vhangup", 153)
  ].

Definition x86_64_libc : Libc := {|
  SYS s := default 0 (snd <$> List.find (fun p => String.eqb p.1 s) x86_64_numbers);
  SECCOMP_RET_USER_NOTIF := 0x7fc00000;
  SECCOMP_FILTER_FLAG_NEW_LISTENER := 8;
  FALLOC_FL_PUNCH_HOLE := 2;
  FALLOC_FL_KEEP_SIZE := 1;
  EINVAL := 22;
|}.

(** ** Lookups *)
Lemma contains_true l x : contains l x = true <-> x ∈ l.
Proof.
  unfold contains. rewrite existsb_exists. setoid_rewrite Z.eqb_eq.
  setoid_rewrite <-list_elem_of_In. naive_solver.
Qed.

Lemma contains_false l x : contains l x = false <-> x ∉ l.
Proof. rewrite <-contains_true. by destruct (contains l x). Qed.

(** [find] by key, where the keys are distinct. *)
Lemma find_key {A B} (key : A * B -> bool) (l : list (A * B)) p :
  p ∈ l -> key p = true -> (forall q, q ∈ l -> key q = true -> q = p) ->
  List.find key l = Some p.
Proof.
  intros Hp Hk Huniq. destruct (List.find key l) as [q|] eqn:Hf.
  - apply List.find_some in Hf as [Hq Hkq]. rewrite <-list_elem_of_In in Hq.
    by rewrite (Huniq q).
  - exfalso. apply (List.find_none key l) with (x := p) in Hf; [congruence|].
    by rewrite <-list_elem_of_In.
Qed.

Lemma NoDup_fst {A B} (l : list (A * B)) p q : NoDup l.*1 -> p ∈ l -> q ∈ l -> p.1 = q.1 -> p = q.
Proof.
  destruct p as [a b], q as [a' b']. simpl. intros Hl Hp Hq ->.
  apply list_elem_of_lookup in Hp as [i Hi], Hq as [j Hj].
  assert (i = j) as ->; [|congruence].
  eapply (NoDup_lookup l.*1); [done| |]; rewrite list_lookup_fmap.
  - by rewrite Hi.
  - by rewrite Hj.
Qed.

Lemma NoDup_snd {A B} (l : list (A * B)) p q : NoDup l.*2 -> p ∈ l -> q ∈ l -> p.2 = q.2 -> p = q.
Proof.
  intros Hl Hp Hq E. enough ((p.2, p.1) = (q.2, q.1)) by (destruct p, q; naive_solver).
  apply (NoDup_fst (prod_swap <$> l)); [|by apply (list_elem_of_fmap_2 prod_swap)..|done].
  by rewrite <-list_fmap_compose.
Qed.

(** The names of the three lists are distinct, and none of the base calls is denied. *)
Definition base_and_rest : list string := DENIED_CALLS.*1 ++ BASE_CALLS ++ ADDABLE_CALLS.

Lemma base_and_rest_NoDup : NoDup (base_and_rest ++ ["SYS_map_shadow_stack"]).
Proof. apply (bool_decide_unpack _). vm_compute. exact I. Qed.

Lemma named_names : Forall (fun s => s ∈ NAMED) base_and_rest.
Proof. apply (bool_decide_unpack _). vm_compute. exact I. Qed.

Lemma unprefixed_NoDup :
  NoDup ((unprefixed <$> DENIED_CALLS.*1) ++ ((unprefixed <$> BASE_CALLS) ++ ["map_shadow_stack"])
         ++ (unprefixed <$> ADDABLE_CALLS)).
Proof. apply (bool_decide_unpack _). vm_compute. exact I. Qed.

(** A number of the table: in range, and of one name only. *)
Definition numbered (s : string) : bool :=
  match List.find (fun p => String.eqb p.1 s) x86_64_numbers with
  | Some p => (0 <=? p.2) && (p.2 <? X32_SYSCALL_BIT) && negb (p.2 =? SYS_MAP_SHADOW_STACK)
      && match List.find (fun q => q.2 =? p.2) x86_64_numbers with
         | Some q => String.eqb q.1 s
         | None => false
         end
  | None => false
  end.

Lemma all_numbered : forallb numbered NAMED = true.
Proof. vm_compute. reflexivity. Qed.

Lemma numbered_SYS s :
  s ∈ NAMED ->
  0 <= @SYS x86_64_libc s < X32_SYSCALL_BIT /\ @SYS x86_64_libc s <> SYS_MAP_SHADOW_STACK /\
  exists q, List.find (fun q => q.2 =? @SYS x86_64_libc s) x86_64_numbers = Some q /\ q.1 = s.
Proof.
  intros Hs. pose proof all_numbered as HF. rewrite forallb_Forall, Forall_forall in HF.
  specialize (HF s Hs). unfold numbered in HF. unfold SYS, x86_64_libc.
  destruct (List.find (fun p => String.eqb p.1 s) x86_64_numbers) as [p|]; [|done].
  change (default 0 (snd <$> Some p)) with p.2.
  apply andb_true_iff in HF as [[[H1 H2]%andb_true_iff H3]%andb_true_iff H4].
  destruct (List.find (fun q => q.2 =? p.2) x86_64_numbers) as [q|]; [|done].
  apply String.eqb_eq in H4. split_and!; [lia..|by exists q].
Qed.

Lemma x86_64_laws : @LibcLaws x86_64_libc.
Proof.
  split; [apply numbered_SYS| |apply numbered_SYS|done|done].
  intros s t (_ & _ & q & Hq & Es)%numbered_SYS (_ & _ & q' & Hq' & Et)%numbered_SYS E.
  rewrite E in Hq. congruence.
Qed.

#[global] Opaque BASE_CALLS DENIED_CALLS SOFT_CALLS PROXY_CALLS ADDABLE_CALLS.

Lemma elem_base_and_rest s :
  s ∈ base_and_rest <-> s ∈ DENIED_CALLS.*1 \/ s ∈ BASE_CALLS \/ s ∈ ADDABLE_CALLS.
Proof. unfold base_and_rest. by rewrite !elem_of_app. Qed.

Lemma tail_Permutation {A} (d b a x : list A) : d ++ (b ++ x) ++ a ≡ₚ (d ++ b ++ a) ++ x.
Proof. solve_Permutation. Qed.

Section laws.
Context `{LibcLaws}.

Lemma is_denied_true nr : is_denied nr = true <-> exists s, s ∈ DENIED_CALLS.*1 /\ SYS s = nr.
Proof.
  unfold is_denied, DENIED_RATIONALE. rewrite existsb_exists. setoid_rewrite Z.eqb_eq.
  setoid_rewrite <-list_elem_of_In. split.
  - intros ([x why] & ([s w] & E & Hs)%list_elem_of_fmap & <-). injection E as -> ->.
    exists s. split; [|done]. apply list_elem_of_fmap. by exists (s, w).
  - intros (s & ([s' w] & -> & Hs)%list_elem_of_fmap & <-).
    exists (SYS s', w). split; [|done]. apply list_elem_of_fmap. by exists (s', w).
Qed.

Lemma is_named s : s ∈ base_and_rest -> s ∈ NAMED.
Proof. intros Hs. pose proof named_names as HF. rewrite Forall_forall in HF. by apply HF. Qed.

Lemma base_not_denied nr : nr ∈ BASE_ALLOWLIST -> is_denied nr = false.
Proof.
  intros Hb. apply not_true_iff_false. intros (s & Hs & <-)%is_denied_true.
  assert (s ∈ NAMED) as Hn by (apply is_named, elem_base_and_rest; auto).
  apply elem_of_app in Hb as [(t & E & Ht)%list_elem_of_fmap|Hb].
  - apply SYS_inj in E as ->; [|done|by apply is_named, elem_base_and_rest; auto].
    pose proof base_and_rest_NoDup as HN.
    unfold base_and_rest in HN. rewrite !NoDup_app in HN. destruct HN as [(_ & HN & _) _].
    apply (HN t); [done|]. rewrite elem_of_app. auto.
  - apply list_elem_of_singleton in Hb. by eapply SYS_not_shadow.
Qed.

Lemma names_fst : NoDup names.*1.
Proof.
  unfold names, DENIED_NAMES, BASE_NAMES, ADDABLE, by_name. rewrite !fmap_app.
  rewrite <-!list_fmap_compose. apply unprefixed_NoDup.
Qed.

Lemma names_snd : NoDup names.*2.
Proof.
  enough (NoDup ((SYS <$> base_and_rest) ++ [SYS_MAP_SHADOW_STACK])) as HN.
  { assert (names.*2 ≡ₚ (SYS <$> base_and_rest) ++ [SYS_MAP_SHADOW_STACK]) as ->; [|done].
    unfold names, DENIED_NAMES, BASE_NAMES, ADDABLE, by_name, base_and_rest.
    rewrite !fmap_app, <-!(list_fmap_compose _ snd). apply tail_Permutation. }
  pose proof base_and_rest_NoDup as HN. apply NoDup_app in HN as (HN & Hd & _).
  apply NoDup_app. split_and!.
  - apply NoDup_fmap_2_strong; [|done]. intros s t Hs Ht E. apply SYS_inj; auto using is_named.
  - intros x (s & -> & Hs)%list_elem_of_fmap E%list_elem_of_singleton.
    eapply SYS_not_shadow; [by apply is_named|done].
  - apply NoDup_singleton.
Qed.

(** A name finds its number and the number its name. *)
Lemma names_roundtrip n nr :
  (n, nr) ∈ names -> syscall_by_name n = Some nr /\ name_of nr = Some n.
Proof.
  intros Hin. unfold syscall_by_name, name_of. split.
  - rewrite (find_key _ names (n, nr)); [done..|apply String.eqb_refl|].
    intros q Hq E%String.eqb_eq. eapply NoDup_fst; eauto using names_fst.
  - rewrite (find_key _ names (n, nr)); [done..|apply Z.eqb_refl|].
    intros q Hq E%Z.eqb_eq. eapply NoDup_snd; eauto using names_snd.
Qed.

Lemma syscall_by_name_Some n nr : syscall_by_name n = Some nr -> (n, nr) ∈ names.
Proof.
  unfold syscall_by_name. destruct (List.find _ _) as [[m k]|] eqn:Hf; [|done].
  intros E. simplify_eq/=. apply List.find_some in Hf as [Hin E%String.eqb_eq].
  rewrite <-list_elem_of_In in Hin. by simplify_eq/=.
Qed.
End laws.
