(* ===== verification/Bpf.v ===== *)
(** * Classic BPF over a seccomp_data, as seccomp.rs assembles it

    The instructions of the filters (seccomp.rs lines 8-41 and 103-126) and the machine that
    runs them: the kernel's, from the documented meaning of the five opcodes used. Jumps only go
    forward, so the machine recurses on the program and every run ends. *)
From S2P Require Import Prelude.
Open Scope string_scope.
Open Scope list_scope.
Open Scope Z_scope.

(** ** Opcodes, actions, offsets *)
Definition BPF_LD : Z := 0x00.
Definition BPF_W : Z := 0x00.
Definition BPF_ABS : Z := 0x20.
Definition BPF_JMP : Z := 0x05.
Definition BPF_JEQ : Z := 0x10.
Definition BPF_JGT : Z := 0x20.
Definition BPF_JGE : Z := 0x30.
Definition BPF_JSET : Z := 0x40.
Definition BPF_K : Z := 0x00.
Definition BPF_RET : Z := 0x06.

Definition SECCOMP_RET_KILL_PROCESS : Z := 0x80000000.
Definition SECCOMP_RET_ALLOW : Z := 0x7fff0000.
Definition SECCOMP_RET_ERRNO : Z := 0x00050000.

Definition OFF_NR : Z := 0.
Definition OFF_ARCH : Z := 4.
Definition arg_lo (i : Z) : Z := 16 + 8 * i.

Record SockFilter := { code : Z; jt : Z; jf : Z; k : Z }.

Definition stmt (code k : Z) : SockFilter := {| code := code; jt := 0; jf := 0; k := k |}.
Definition jump (code k jt jf : Z) : SockFilter := {| code := code; jt := jt; jf := jf; k := k |}.

(** The five opcodes the filters are made of, as the source spells them. *)
Notation LD_W_ABS := (Z.lor (Z.lor BPF_LD BPF_W) BPF_ABS).
Notation JEQ_K := (Z.lor (Z.lor BPF_JMP BPF_JEQ) BPF_K).
Notation JGT_K := (Z.lor (Z.lor BPF_JMP BPF_JGT) BPF_K).
Notation JGE_K := (Z.lor (Z.lor BPF_JMP BPF_JGE) BPF_K).
Notation JSET_K := (Z.lor (Z.lor BPF_JMP BPF_JSET) BPF_K).
Notation RET_K := (Z.lor BPF_RET BPF_K).

(** ** The machine *)

(** [struct seccomp_data]: a signed call number, and six 64-bit arguments. *)
Record seccomp_data := { nr : Z; arch : Z; instruction_pointer : Z; args : list Z }.

Definition arg (d : seccomp_data) (i : Z) : Z := default 0 (zlookup (args d) i).

(** A 32-bit load from an aligned offset of the data, little-endian. *)
Definition load (d : seccomp_data) (off : Z) : option Z :=
  if off =? 0 then Some (as_u32 (nr d))
  else if off =? 4 then Some (arch d)
  else if off =? 8 then Some (as_u32 (instruction_pointer d))
  else if off =? 12 then Some (as_u32 (instruction_pointer d / 2 ^ 32))
  else if (16 <=? off) && (off <? 64) && (off mod 4 =? 0) then
    let a := arg d ((off - 16) / 8) in
    Some (as_u32 (if off mod 8 =? 0 then a else a / 2 ^ 32))
  else None.

(** What a jump instruction tests, if it is one. *)
Definition test (f : SockFilter) (A : Z) : option bool :=
  if code f =? JEQ_K then Some (A =? k f)
  else if code f =? JGT_K then Some (k f <? A)
  else if code f =? JGE_K then Some (k f <=? A)
  else if code f =? JSET_K then Some (negb (Z.land A (k f) =? 0))
  else None.

(** [run d skip p A]: skip [skip] instructions of [p], then run it with [A] in the accumulator;
    [None] when control falls off the end or meets an instruction the filters do not use. *)
Fixpoint run (d : seccomp_data) (skip : nat) (p : list SockFilter) (A : Z) : option Z :=
  match p with
  | [] => None
  | f :: p =>
    match skip with
    | S s => run d s p A
    | O =>
      if code f =? RET_K then Some (k f)
      else if code f =? LD_W_ABS then
        match load d (k f) with Some v => run d 0 p v | None => None end
      else match test f A with
           | Some b => run d (Z.to_nat (if b then jt f else jf f)) p A
           | None => None
           end
    end
  end.

(** The filter's answer: the accumulator starts at zero. *)
Definition answer (p : list SockFilter) (d : seccomp_data) : option Z := run d 0 p 0.

(** ** How programs compose *)
Section run.
Context (d : seccomp_data).

Lemma run_skip n p A : run d n p A = run d 0 (drop n p) A.
Proof. revert n. induction p as [|f p IH]; intros [|n]; [done..|]. apply IH. Qed.

Lemma run_skip_app n p q A : length p = n -> run d n (p ++ q) A = run d 0 q A.
Proof. intros <-. by rewrite run_skip, drop_app_length. Qed.

Lemma run_ret c p A : run d 0 (stmt RET_K c :: p) A = Some c.
Proof. done. Qed.

Lemma run_ld off v p A : load d off = Some v -> run d 0 (stmt LD_W_ABS off :: p) A = run d 0 p v.
Proof. intros H. cbn [run]. change (code _ =? RET_K) with false. cbv iota.
  change (code _ =? LD_W_ABS) with true. cbv iota. cbn [Bpf.k stmt]. by rewrite H. Qed.

Lemma run_jeq c a b p A :
  run d 0 (jump JEQ_K c a b :: p) A = run d (Z.to_nat (if A =? c then a else b)) p A.
Proof. done. Qed.
Lemma run_jgt c a b p A :
  run d 0 (jump JGT_K c a b :: p) A = run d (Z.to_nat (if c <? A then a else b)) p A.
Proof. done. Qed.
Lemma run_jge c a b p A :
  run d 0 (jump JGE_K c a b :: p) A = run d (Z.to_nat (if c <=? A then a else b)) p A.
Proof. done. Qed.
Lemma run_jset c a b p A :
  run d 0 (jump JSET_K c a b :: p) A
  = run d (Z.to_nat (if negb (Z.land A c =? 0) then a else b)) p A.
Proof. done. Qed.

(** A program that answers still does with more code behind it. *)
Lemma run_app n p q A v : run d n p A = Some v -> run d n (p ++ q) A = Some v.
Proof.
  revert n A. induction p as [|f p IH]; intros n A; [done|]. cbn [app run].
  destruct n as [|n]; [|apply IH]. destruct (code f =? RET_K); [done|].
  destruct (code f =? LD_W_ABS).
  - destruct (load d (k f)); [apply IH|done].
  - destruct (test f A) as [b|]; [|done]. apply IH.
Qed.

(** A block guarded by the call's number: run when it matches, skipped whole otherwise. *)
Lemma run_guarded c body rest A v :
  (A = c -> run d 0 body A = Some v) ->
  run d 0 (jump JEQ_K c 0 (zlen body) :: body ++ rest) A
  = if A =? c then Some v else run d 0 rest A.
Proof.
  intros Hb. rewrite run_jeq. destruct (Z.eqb_spec A c) as [E|E].
  - by apply run_app, Hb.
  - unfold zlen. rewrite Nat2Z.id. by apply run_skip_app.
Qed.

(** A chain of equality tests whose hits answer alike. *)
Lemma run_pair c v rest A :
  run d 0 (jump JEQ_K c 0 1 :: stmt RET_K v :: rest) A = if A =? c then Some v else run d 0 rest A.
Proof. apply (run_guarded c [stmt RET_K v]). by intros _. Qed.
End run.

Lemma load_nr d : load d OFF_NR = Some (as_u32 (nr d)).
Proof. done. Qed.
Lemma load_arch d : load d OFF_ARCH = Some (arch d).
Proof. done. Qed.
Lemma load_arg d i : 0 <= i < 6 -> load d (arg_lo i) = Some (as_u32 (arg d i)).
Proof.
  intros Hi. assert (i = 0 \/ i = 1 \/ i = 2 \/ i = 3 \/ i = 4 \/ i = 5) as Hc by lia.
  by destruct Hc as [->|[->|[->|[->|[->| ->]]]]].
Qed.

(** A [u32] is itself under [as_u32]. *)
Lemma as_u32_small x : 0 <= x < 2 ^ 32 -> as_u32 x = x.
Proof. intros. by apply Z.mod_small. Qed.

(** Takes a jump whose offset is a number. *)
Ltac bpf_jump :=
  repeat match goal with
    | |- context [Z.to_nat (if ?b then _ else _)] => destruct b eqn:?
    end;
  repeat match goal with
    | |- context [Z.to_nat ?z] =>
      let n := eval vm_compute in (Z.to_nat z) in change (Z.to_nat z) with n
    end;
  rewrite ?(run_skip _ (S _)); cbn [drop].

(** Symbolic execution of a program whose instructions are written out. *)
Ltac bpf_step :=
  first [ rewrite run_ret | rewrite run_jeq | rewrite run_jge | rewrite run_jgt | rewrite run_jset
        | erewrite run_ld by (first [apply load_arg; lia | apply load_nr | apply load_arch]) ];
  bpf_jump.
