(* ===== verification/Caps.v ===== *)
(** * compartments/kryptikd/src/caps.rs: the zone's capability bounding set

    Which capabilities a policy may keep, and the sweep that drops the rest. prctl(2) is a
    parameter: the errno of each drop, if any; a drop that succeeds takes the capability out of
    the bounding set. *)
From S2P Require Import Prelude Bytes Text Syscalls.
Open Scope string_scope.
Open Scope list_scope.
Open Scope Z_scope.

Definition CHOWN : Z := 0.
Definition DAC_OVERRIDE : Z := 1.
Definition DAC_READ_SEARCH : Z := 2.
Definition FOWNER : Z := 3.
Definition FSETID : Z := 4.
Definition KILL : Z := 5.
Definition SETGID : Z := 6.
Definition SETUID : Z := 7.
Definition NET_BIND_SERVICE : Z := 10.
Definition NET_BROADCAST : Z := 11.
Definition NET_ADMIN : Z := 12.
Definition NET_RAW : Z := 13.
Definition IPC_LOCK : Z := 14.
Definition SYS_CHROOT : Z := 18.
Definition SYS_NICE : Z := 23.

Definition KEEP : Z := NET_BIND_SERVICE.

Definition KEEPABLE : list Z :=
  [NET_BIND_SERVICE; NET_ADMIN; NET_RAW; NET_BROADCAST; SYS_NICE; IPC_LOCK; KILL; CHOWN; FOWNER;
   FSETID; DAC_READ_SEARCH; SETUID; SETGID; SYS_CHROOT].

Definition PRIVSEP : list Z := [SETUID; SETGID; SYS_CHROOT].

Definition keeps_privsep (keep : list Z) : bool := forallb (contains keep) PRIVSEP.

Definition CAP_NAMES : list (string * Z) :=
  [("CAP_CHOWN", 0); ("CAP_DAC_OVERRIDE", 1); ("CAP_DAC_READ_SEARCH", 2); ("CAP_FOWNER", 3);
   ("CAP_FSETID", 4); ("CAP_KILL", 5); ("CAP_SETGID", 6); ("CAP_SETUID", 7); ("CAP_SETPCAP", 8);
   ("CAP_LINUX_IMMUTABLE", 9); ("CAP_NET_BIND_SERVICE", 10); ("CAP_NET_BROADCAST", 11);
   ("CAP_NET_ADMIN", 12); ("CAP_NET_RAW", 13); ("CAP_IPC_LOCK", 14); ("CAP_IPC_OWNER", 15);
   ("CAP_SYS_MODULE", 16); ("CAP_SYS_RAWIO", 17); ("CAP_SYS_CHROOT", 18); ("CAP_SYS_PTRACE", 19);
   ("CAP_SYS_PACCT", 20); ("CAP_SYS_ADMIN", 21); ("CAP_SYS_BOOT", 22); ("CAP_SYS_NICE", 23);
   ("CAP_SYS_RESOURCE", 24); ("CAP_SYS_TIME", 25); ("CAP_SYS_TTY_CONFIG", 26); ("CAP_MKNOD", 27);
   ("CAP_LEASE", 28); ("CAP_AUDIT_WRITE", 29); ("CAP_AUDIT_CONTROL", 30); ("CAP_SETFCAP", 31);
   ("CAP_MAC_OVERRIDE", 32); ("CAP_MAC_ADMIN", 33); ("CAP_SYSLOG", 34); ("CAP_WAKE_ALARM", 35);
   ("CAP_BLOCK_SUSPEND", 36); ("CAP_AUDIT_READ", 37); ("CAP_PERFMON", 38); ("CAP_BPF", 39);
   ("CAP_CHECKPOINT_RESTORE", 40)].

Definition NIC_ONLY : list Z := [NET_ADMIN; NET_RAW; SETUID; SETGID; SYS_CHROOT].

Definition cap_by_name (name : string) : option Z :=
  snd <$> List.find (fun p => String.eqb p.1 name) CAP_NAMES.

Definition cap_name (cap : Z) : string :=
  default "CAP_?" (fst <$> List.find (fun p => p.2 =? cap) CAP_NAMES).

(** [last_cap], from the contents of /proc/sys/kernel/cap_last_cap, if it could be read. *)
Definition last_cap (file : option string) : Z :=
  match file with
  | Some s => default 40 (parse_i32 (trim (chars s)))
  | None => 63
  end.

Record CapError := { cap : Z; errno : Z }.

Section drop.
Context `{Libc}.
(** prctl(PR_CAPBSET_DROP, c): the errno it fails with, if any. *)
Context (prctl_drop : Z -> option Z).

Definition kept (keep : list Z) (c : Z) : bool :=
  (c =? KEEP) || (contains keep c && contains KEEPABLE c).

(** One turn of the loop, on the bounding set. *)
Definition drop_one (keep : list Z) (c : Z) : M (gset Z) CapError unit :=
  if kept keep c then mret tt
  else match prctl_drop c with
       | None => modify (fun b => b ∖ {[ c ]})
       | Some e => if e =? EINVAL then mret tt else fail {| cap := c; errno := e |}
       end.

Definition drop_bounding_set_except (file : option string) (keep : list Z) : M (gset Z) CapError unit :=
  for_each (seqZ 0 (last_cap file + 1)) (drop_one keep).

(** The sweep over any list of capabilities. *)
Lemma drop_sweep keep l b :
  wp (for_each l (drop_one keep))
    (fun _ b' => forall c, c ∈ b' <-> c ∈ b /\ (c ∈ l -> kept keep c = true \/ prctl_drop c = Some EINVAL))
    (fun e _ => cap e ∈ l /\ kept keep (cap e) = false /\ prctl_drop (cap e) = Some (errno e)
                /\ errno e <> EINVAL) b.
Proof.
  revert b. induction l as [|x l IH]; intros b; cbn [for_each].
  { apply wp_ret. set_solver. }
  assert (forall b0, (forall c, c ∈ b0 <-> c ∈ b /\ (c = x -> kept keep c = true \/ prctl_drop c = Some EINVAL)) ->
    wp (for_each l (drop_one keep))
      (fun _ b' => forall c, c ∈ b' <-> c ∈ b /\ (c ∈ x :: l -> kept keep c = true \/ prctl_drop c = Some EINVAL))
      (fun e _ => cap e ∈ x :: l /\ kept keep (cap e) = false /\ prctl_drop (cap e) = Some (errno e)
                  /\ errno e <> EINVAL) b0) as Hstep.
  { intros b0 Hb0. eapply wp_mono; [..|apply (IH b0)]; cbv beta.
    - intros _ b' Hb' c. rewrite Hb', Hb0, elem_of_cons. naive_solver.
    - intros e _ (? & ? & ? & ?). rewrite elem_of_cons. auto. }
  apply wp_bind. unfold drop_one at 1. destruct (kept keep x) eqn:Hk.
  { apply wp_ret, Hstep. naive_solver. }
  destruct (prctl_drop x) as [e|] eqn:Hd.
  - destruct (Z.eqb_spec e EINVAL) as [->|He].
    + apply wp_ret, Hstep. naive_solver.
    + apply wp_fail. cbn. split_and!; [constructor|done..].
  - apply wp_modify, Hstep. intros c. rewrite elem_of_difference, elem_of_singleton.
    destruct (decide (c = x)) as [->|]; [|tauto].
    split; [by intros [_ []]|]. intros [_ Hx]. destruct (Hx eq_refl); congruence.
Qed.
End drop.
