(* ===== verification/Seccomp.v ===== *)
(** * compartments/kryptikd/src/seccomp.rs: the filters

    The assembly of the zone's filter, of wpa_supplicant's and of the Wayland proxy's, the
    widening of the allowlist by a policy, and attaching a program through seccomp(2). *)
From S2P Require Import Prelude Syscalls Bpf Caps.
Open Scope string_scope.
Open Scope list_scope.
Open Scope Z_scope.

Definition CLONE_NS_MASK : Z := 0x7e020000.

Definition TIOCSTI : Z := 0x5412.
Definition TIOCLINUX : Z := 0x541C.
Definition SIOCETHTOOL : Z := 0x8946.
Definition SIOCSMIIREG : Z := 0x8949.
Definition SIOCDEVPRIVATE : Z := 0x89F0.

Definition AF_UNIX : Z := 1.
Definition AF_INET : Z := 2.
Definition AF_INET6 : Z := 10.
Definition AF_NETLINK : Z := 16.
Definition NETLINK_ROUTE : Z := 0.

Definition BASE_SOCKET_FAMILIES : list Z := [AF_UNIX; AF_INET; AF_INET6; AF_NETLINK].

Definition SOCKET_FAMILY_NAMES : list (string * Z) :=
  [("AF_UNIX", AF_UNIX); ("AF_INET", AF_INET); ("AF_INET6", AF_INET6); ("AF_NETLINK", AF_NETLINK);
   ("AF_PACKET", 17); ("AF_KEY", 15); ("AF_RDS", 21); ("AF_CAN", 29); ("AF_TIPC", 30);
   ("AF_BLUETOOTH", 31); ("AF_ALG", 38); ("AF_VSOCK", 40); ("AF_XDP", 44)].

Definition NETLINK_PROTOCOL_NAMES : list (string * Z) :=
  [("NETLINK_ROUTE", NETLINK_ROUTE); ("NETLINK_XFRM", 6); ("NETLINK_AUDIT", 9);
   ("NETLINK_NETFILTER", 12); ("NETLINK_KOBJECT_UEVENT", 15); ("NETLINK_GENERIC", 16)].

Definition socket_family_by_name (name : string) : option Z :=
  snd <$> List.find (fun p => String.eqb p.1 name) SOCKET_FAMILY_NAMES.

Definition netlink_protocol_by_name (name : string) : option Z :=
  snd <$> List.find (fun p => String.eqb p.1 name) NETLINK_PROTOCOL_NAMES.

Record SocketPolicy := {
  families : list Z;
  netlink_protocols : list Z;
  netlink_all : bool;
}.
Definition default_sockets : SocketPolicy :=
  {| families := []; netlink_protocols := []; netlink_all := false |}.

Inductive SeccompError :=
| UnsupportedArch
| TooManyRules (n : Z)
| BadSyscallNumber (nr : Z)
| Syscall (call : string) (errno : Z)
| Unsynced (tid : Z)
| Denied (nr : Z).

Inductive ArgRule :=
| CloneNoNamespaces
| Clone3Enosys
| IoctlRefused
| SocketFamilies
| SocketpairUnix.

Definition ARG_RULES : list ArgRule :=
  [CloneNoNamespaces; Clone3Enosys; IoctlRefused; SocketFamilies; SocketpairUnix].

Definition errno_action (e : Z) : Z := Z.lor SECCOMP_RET_ERRNO (Z.land e 0xffff).

(** A closure [off] of [emit_arg_rule]: the assertion's failure is [None]. *)
Definition off (from to : Z) : option Z :=
  let d := to - (from + 1) in
  if (from + 1 <=? to) && (d <=? 255) then Some d else None.

(** [x as u8]. *)
Definition as_u8 (x : Z) : Z := x mod 256.

Section filters.
Context `{Libc}.

Definition rule_nr (r : ArgRule) : Z :=
  match r with
  | CloneNoNamespaces => SYS "SYS_clone"
  | Clone3Enosys => SYS "SYS_clone3"
  | IoctlRefused => SYS "SYS_ioctl"
  | SocketFamilies => SYS "SYS_socket"
  | SocketpairUnix => SYS "SYS_socketpair"
  end.

Definition soft_refusal (e deny_action : Z) : Z :=
  if deny_action =? SECCOMP_RET_USER_NOTIF then deny_action else errno_action e.

Definition soft_errno (call : seccomp_data) : option Z :=
  if negb (arch call =? AUDIT_ARCH_X86_64) then None
  else if (nr call =? SYS "SYS_clone") && negb (Z.land (as_u32 (arg call 0)) CLONE_NS_MASK =? 0)
  then Some EPERM
  else snd <$> List.find (fun p => p.1 =? nr call) REFUSED_SOFTLY.

(** The families and protocols of the socket rule: the base ones, then the policy's, once. *)
Definition push_new (acc : list Z) (x : Z) : list Z := if contains acc x then acc else acc ++ [x].

Definition socket_fams (sockets : SocketPolicy) : list Z :=
  let fams := fold_left
    (fun fams f => if negb (contains fams f) && negb (f =? AF_NETLINK) then fams ++ [f] else fams)
    (families sockets) [AF_UNIX; AF_INET; AF_INET6] in
  if netlink_all sockets then fams ++ [AF_NETLINK] else fams.

Definition socket_protos (sockets : SocketPolicy) : list Z :=
  fold_left push_new (netlink_protocols sockets) [NETLINK_ROUTE].

(** [for (i, f) in l.iter().enumerate()]: a test per value, from instruction [idx] on. *)
Fixpoint jumps_to (l : list Z) (idx allow_idx deny_idx : Z) : option (list SockFilter) :=
  match l with
  | [] => Some []
  | f :: l =>
    miss ← (if idx + 1 =? allow_idx then off idx deny_idx else Some 0);
    hit ← off idx allow_idx;
    rest ← jumps_to l (idx + 1) allow_idx deny_idx;
    Some (jump JEQ_K f hit miss :: rest)
  end.

Definition socket_body (sockets : SocketPolicy) : option (list SockFilter) :=
  let fams := socket_fams sockets in
  let protos := socket_protos sockets in
  let netlink_block := negb (netlink_all sockets) in
  let n := zlen fams in
  let nl_len := if netlink_block then 2 + zlen protos else 0 in
  let allow_idx := 1 + n + nl_len in
  let deny_idx := allow_idx + 1 in
  fam_jumps ← jumps_to fams 1 allow_idx deny_idx;
  nl ← (if netlink_block then
          miss ← off (1 + n) deny_idx;
          proto_jumps ← jumps_to protos (1 + n + 2) allow_idx deny_idx;
          Some (jump JEQ_K AF_NETLINK 0 miss :: stmt LD_W_ABS (arg_lo 2) :: proto_jumps)
        else Some []);
  Some (stmt LD_W_ABS (arg_lo 0) :: fam_jumps ++ nl
        ++ [stmt RET_K SECCOMP_RET_ALLOW; stmt RET_K (errno_action EAFNOSUPPORT)]).

Definition rule_body (rule : ArgRule) (deny_action : Z) (sockets : SocketPolicy)
    : option (list SockFilter) :=
  match rule with
  | CloneNoNamespaces => Some [
      stmt LD_W_ABS (arg_lo 0);
      jump JSET_K CLONE_NS_MASK 0 1;
      stmt RET_K (soft_refusal EPERM deny_action);
      stmt RET_K SECCOMP_RET_ALLOW]
  | Clone3Enosys => Some [stmt RET_K (errno_action ENOSYS)]
  | IoctlRefused => Some [
      stmt LD_W_ABS (arg_lo 1);
      jump JEQ_K TIOCSTI 7 0;
      jump JEQ_K TIOCLINUX 6 0;
      jump JEQ_K SIOCETHTOOL 4 0;
      jump JEQ_K SIOCSMIIREG 3 0;
      jump JGE_K SIOCDEVPRIVATE 0 1;
      jump JGT_K (SIOCDEVPRIVATE + 15) 0 1;
      stmt RET_K SECCOMP_RET_ALLOW;
      stmt RET_K (soft_refusal EPERM deny_action);
      stmt RET_K deny_action]
  | SocketFamilies => socket_body sockets
  | SocketpairUnix => Some [
      stmt LD_W_ABS (arg_lo 0);
      jump JEQ_K AF_UNIX 0 1;
      stmt RET_K SECCOMP_RET_ALLOW;
      stmt RET_K (errno_action EAFNOSUPPORT)]
  end.

(** Programs under assembly: the state is the vector of instructions. *)
Definition Asm := M (list SockFilter) SeccompError.
Definition push (l : list SockFilter) : Asm unit := modify (fun p => p ++ l).

Definition emit_arg_rule (rule : ArgRule) (deny_action : Z) (sockets : SocketPolicy) : Asm unit :=
  body ← unwrap (rule_body rule deny_action sockets);
  push (jump JEQ_K (as_u32 (rule_nr rule)) 0 (as_u8 (zlen body)) :: body).

Definition prologue (deny_action : Z) : list SockFilter :=
  [stmt LD_W_ABS OFF_ARCH;
   jump JEQ_K AUDIT_ARCH_X86_64 1 0;
   stmt RET_K deny_action;
   stmt LD_W_ABS OFF_NR;
   jump JGE_K X32_SYSCALL_BIT 0 1;
   stmt RET_K deny_action].

Definition emit_soft (allow : list Z) (deny_action : Z) (p : Z * Z) : Asm unit :=
  when (negb (contains allow p.1))
    (push [jump JEQ_K (as_u32 p.1) 0 1; stmt RET_K (soft_refusal p.2 deny_action)]).

Definition emit_allow (nr : Z) : Asm unit :=
  reject_if ((nr <? 0) || (U32_MAX <? nr)) (BadSyscallNumber nr);;
  when (negb (existsb (fun r => rule_nr r =? nr) ARG_RULES))
    (push [jump JEQ_K (as_u32 nr) 0 1; stmt RET_K SECCOMP_RET_ALLOW]).

Definition assemble (allow : list Z) (deny_action : Z) (sockets : SocketPolicy) : Asm unit :=
  push (prologue deny_action);;
  for_each ARG_RULES (fun rule =>
    when (contains allow (rule_nr rule)) (emit_arg_rule rule deny_action sockets));;
  for_each REFUSED_SOFTLY (emit_soft allow deny_action);;
  for_each allow emit_allow;;
  push [stmt RET_K deny_action].

Definition build_program_full (allow : list Z) (deny_action : Z) (sockets : SocketPolicy)
    : outcome (list SockFilter) SeccompError :=
  fst ((assemble allow deny_action sockets;;
        len ← gets zlen;
        reject_if (4096 <? len) (TooManyRules len);;
        gets id : Asm (list SockFilter)) []).

(** ** wpa_supplicant's filter *)
Definition AF_PACKET : Z := 17.
Definition NETLINK_GENERIC : Z := 16.
Definition SOCK_DGRAM : Z := 2.
Definition SOCK_DGRAM_FLAGS : Z := Z.lor (Z.lor SOCK_DGRAM 0x80000) 0x800.

(** [!x] on a [u32]. *)
Definition not_u32 (x : Z) : Z := Z.lxor x U32_MAX.

Definition supplicant_program : list SockFilter :=
  let refuse := Z.lor SECCOMP_RET_ERRNO EPERM in
  [stmt LD_W_ABS OFF_ARCH;
   jump JEQ_K AUDIT_ARCH_X86_64 1 0;
   stmt RET_K SECCOMP_RET_KILL_PROCESS;
   stmt LD_W_ABS OFF_NR;
   jump JGE_K X32_SYSCALL_BIT 0 1;
   stmt RET_K SECCOMP_RET_KILL_PROCESS;
   jump JEQ_K (as_u32 (SYS "SYS_socket")) 1 0;
   stmt RET_K SECCOMP_RET_ALLOW;
   stmt LD_W_ABS (arg_lo 0);
   jump JEQ_K AF_UNIX 9 0;
   jump JEQ_K AF_PACKET 8 0;
   jump JEQ_K AF_NETLINK 1 0;
   jump JEQ_K AF_INET 3 7;
   stmt LD_W_ABS (arg_lo 2);
   jump JEQ_K NETLINK_ROUTE 4 0;
   jump JEQ_K NETLINK_GENERIC 3 4;
   stmt LD_W_ABS (arg_lo 1);
   jump JSET_K (not_u32 SOCK_DGRAM_FLAGS) 2 0;
   jump JSET_K SOCK_DGRAM 0 1;
   stmt RET_K SECCOMP_RET_ALLOW;
   stmt RET_K refuse].

(** ** The Wayland proxy's filter *)
Definition FIONBIO : Z := 0x5421.
Definition PROT_EXEC : Z := 0x4.

Definition no_exec : list SockFilter :=
  [stmt LD_W_ABS (arg_lo 2);
   jump JSET_K PROT_EXEC 0 1;
   stmt RET_K SECCOMP_RET_KILL_PROCESS;
   stmt RET_K SECCOMP_RET_ALLOW].

Definition only (i value : Z) : list SockFilter :=
  [stmt LD_W_ABS (arg_lo i);
   jump JEQ_K value 0 1;
   stmt RET_K SECCOMP_RET_ALLOW;
   stmt RET_K SECCOMP_RET_KILL_PROCESS].

Definition proxy_rules : list (Z * list SockFilter) :=
  [(SYS "SYS_socket", only 0 AF_UNIX);
   (SYS "SYS_ioctl", only 1 FIONBIO);
   (SYS "SYS_sendto", only 5 0);
   (SYS "SYS_fallocate", only 1 (as_u32 (Z.lor FALLOC_FL_PUNCH_HOLE FALLOC_FL_KEEP_SIZE)));
   (SYS "SYS_mmap", no_exec);
   (SYS "SYS_mprotect", no_exec)].

Definition proxy_program : list SockFilter :=
  prologue SECCOMP_RET_KILL_PROCESS
  ++ mjoin ((fun r => jump JEQ_K (as_u32 r.1) 0 (as_u8 (zlen r.2)) :: r.2) <$> proxy_rules)
  ++ mjoin ((fun nr => [jump JEQ_K (as_u32 nr) 0 1; stmt RET_K SECCOMP_RET_ALLOW])
            <$> List.filter (fun nr => negb (existsb (fun r => r.1 =? nr) proxy_rules)) PROXY_ALLOWLIST)
  ++ [stmt RET_K SECCOMP_RET_KILL_PROCESS].

(** ** The allowlist widened by a policy *)
Definition CAP_CALLS : list (Z * list Z) :=
  [(SETUID, [SYS "SYS_setuid"; SYS "SYS_capset"]);
   (SETGID, [SYS "SYS_setgid"; SYS "SYS_setgroups"]);
   (SYS_CHROOT, [SYS "SYS_chroot"])].

Fixpoint widen_with (allow extra : list Z) : result (list Z) SeccompError :=
  match extra with
  | [] => Ok allow
  | nr :: extra => if is_denied nr then Err (Denied nr) else widen_with (push_new allow nr) extra
  end.
Definition widened (extra : list Z) : result (list Z) SeccompError :=
  widen_with BASE_ALLOWLIST extra.

Definition add_cap_calls (kept_caps allow : list Z) : list Z :=
  fold_left (fun allow c => if contains kept_caps c.1 then fold_left push_new c.2 allow else allow)
    CAP_CALLS allow.

Definition widened_for (extra kept_caps : list Z) : result (list Z) SeccompError :=
  (let? allow := widened extra in Ok (add_cap_calls kept_caps allow))%result.

(** ** Attaching a program

    What the kernel answers is a parameter: prctl(PR_SET_NO_NEW_PRIVS) and seccomp(2), each
    the value returned and errno. The length is passed as a [u16]. *)
Record Kernel := {
  prctl_nnp : Z * Z;
  sys_seccomp : Z -> Z -> list SockFilter -> Z * Z;
}.
Definition SECCOMP_FILTER_FLAG_TSYNC : Z := 1.

Definition attach (kern : Kernel) (prog : list SockFilter) (flags : Z) : result Z SeccompError :=
  let '(nnp, e) := prctl_nnp kern in
  if nnp <? 0 then Err (Syscall "prctl(PR_SET_NO_NEW_PRIVS)" e)
  else
    let '(ret, e) := sys_seccomp kern flags (as_u16 (zlen prog)) prog in
    if ret <? 0 then Err (Syscall "seccomp(SET_MODE_FILTER)" e)
    else if (0 <? ret) && (Z.land flags SECCOMP_FILTER_FLAG_NEW_LISTENER =? 0)
    then Err (Unsynced ret)
    else Ok ret.

Definition of_result {A E} (r : result A E) : outcome A E :=
  match r with Ok a => Done a | Err e => Fail e end.

(** [x86_64] is [cfg!(target_arch = "x86_64")]. *)
Definition install_with (x86_64 : bool) (kern : Kernel) (allow : list Z) (deny_action : Z)
    (sockets : SocketPolicy) (flags : Z) : outcome Z SeccompError :=
  if negb x86_64 then Fail UnsupportedArch
  else match build_program_full allow deny_action sockets with
       | Done prog => of_result (attach kern prog flags)
       | Fail e => Fail e
       | Panic => Panic
       end.

Definition unit_of (o : outcome Z SeccompError) : outcome unit SeccompError :=
  match o with Done _ => Done tt | Fail e => Fail e | Panic => Panic end.

Definition install (x86_64 : bool) (kern : Kernel) (allow : list Z) : outcome unit SeccompError :=
  unit_of (install_with x86_64 kern allow SECCOMP_RET_KILL_PROCESS default_sockets
             SECCOMP_FILTER_FLAG_TSYNC).

Definition install_notifying (x86_64 : bool) (kern : Kernel) (allow : list Z)
    (sockets : SocketPolicy) : outcome Z SeccompError :=
  install_with x86_64 kern allow SECCOMP_RET_USER_NOTIF sockets SECCOMP_FILTER_FLAG_NEW_LISTENER.

Definition confine_zone (x86_64 : bool) (kern : Kernel) : outcome unit SeccompError :=
  install x86_64 kern BASE_ALLOWLIST.

Definition confine_zone_with (x86_64 : bool) (kern : Kernel) (extra : list Z)
    (sockets : SocketPolicy) (kept_caps : list Z) : outcome unit SeccompError :=
  match widened_for extra kept_caps with
  | Err e => Fail e
  | Ok allow => unit_of (install_with x86_64 kern allow SECCOMP_RET_KILL_PROCESS sockets
                           SECCOMP_FILTER_FLAG_TSYNC)
  end.

Definition confine_proxy (x86_64 : bool) (kern : Kernel) : outcome unit SeccompError :=
  if negb x86_64 then Fail UnsupportedArch
  else unit_of (of_result (attach kern proxy_program SECCOMP_FILTER_FLAG_TSYNC)).
End filters.
