(* ===== verification/SeccompSpec.v ===== *)
(** * What the filters decide

    A reference decision for each filter, read off the rules and not the instructions, and the
    equivalence of the assembled programs with it. *)
From S2P Require Import Prelude Syscalls Bpf Caps Seccomp.
Open Scope string_scope.
Open Scope list_scope.
Open Scope Z_scope.

(** ** Assembly as concatenation *)
Section emits.
(** [m] appends [l] to the program, whatever is there. *)
Definition emits (m : Asm unit) (l : list SockFilter) : Prop := forall p, m p = (Done tt, p ++ l).

Lemma emits_push l : emits (push l) l.
Proof. done. Qed.

Lemma emits_bind m1 m2 l1 l2 : emits m1 l1 -> emits m2 l2 -> emits (m1 ;; m2) (l1 ++ l2).
Proof.
  intros H1 H2 p. apply bind_Done. exists tt, (p ++ l1). split; [apply H1|].
  rewrite (assoc_L (++)). apply H2.
Qed.

Lemma emits_step {A} m l (k : Asm A) p : emits m l -> (m ;; k) p = k (p ++ l).
Proof. intros Hm. Transparent M_bind. unfold mbind, M_bind. by rewrite Hm. Opaque M_bind. Qed.

Lemma bind_Fail {A B} (m : Asm A) (k : A -> Asm B) p e p' :
  m p = (Fail e, p') -> (m ≫= k) p = (Fail e, p').
Proof. intros Hm. Transparent M_bind. unfold mbind, M_bind. by rewrite Hm. Opaque M_bind. Qed.

Lemma emits_ret : emits (mret tt) [].
Proof. intros p. apply ret_Done. by rewrite app_nil_r. Qed.

Lemma emits_when b m l : (b = true -> emits m l) -> emits (when b m) (if b then l else []).
Proof. intros Hm. destruct b; [by apply Hm|apply emits_ret]. Qed.

Lemma emits_for_each {A} (l : list A) f (g : A -> list SockFilter) :
  (forall x, x ∈ l -> emits (f x) (g x)) -> emits (for_each l f) (mjoin (g <$> l)).
Proof.
  induction l as [|x l IH]; intros Hf; [apply emits_ret|].
  cbn [for_each]. rewrite join_fmap_cons. apply emits_bind; [apply Hf; constructor|].
  apply IH. intros. apply Hf. by constructor.
Qed.
End emits.

(** Blocks emitted under a condition are the blocks of the elements that meet it. *)
Lemma join_filter {A B} (b : A -> bool) (g : A -> list B) l :
  mjoin ((fun x => if b x then g x else []) <$> l) = mjoin (g <$> List.filter b l).
Proof.
  induction l as [|x l IH]; [done|]. rewrite join_fmap_cons, IH. cbn [List.filter].
  by destruct (b x).
Qed.

Lemma find_filter {A} (b f : A -> bool) l :
  List.find f (List.filter b l) = List.find (fun x => b x && f x) l.
Proof.
  induction l as [|x l IH]; [done|]. simpl. destruct (b x); simpl; [|done].
  by destruct (f x).
Qed.

Lemma find_ext {A} (f g : A -> bool) l :
  (forall x, x ∈ l -> f x = g x) -> List.find f l = List.find g l.
Proof.
  induction l as [|x l IH]; intros Hfg; [done|]. simpl. rewrite (Hfg x) by constructor.
  destruct (g x); [done|]. apply IH. intros. apply Hfg. by constructor.
Qed.

Lemma find_None {A} (f : A -> bool) l : List.find f l = None <-> forall x, x ∈ l -> f x = false.
Proof.
  split.
  - intros H x Hx. apply (List.find_none f l H). by apply list_elem_of_In.
  - intros H. destruct (List.find f l) as [x|] eqn:E; [|done].
    apply List.find_some in E as [Hx Hf]. rewrite <-list_elem_of_In in Hx.
    by rewrite H in Hf.
Qed.

(** A chain of blocks, each guarded by a number: the first whose number is in the accumulator
    answers, and none of them leaves the accumulator changed. *)
Definition block {A} (key : A -> Z) (body : A -> list SockFilter) (x : A) : list SockFilter :=
  jump JEQ_K (key x) 0 (zlen (body x)) :: body x.

Lemma run_blocks {A} d (key : A -> Z) (body : A -> list SockFilter) (val : A -> Z) l rest n :
  (forall x, x ∈ l -> run d 0 (body x) n = Some (val x)) ->
  run d 0 (mjoin (block key body <$> l) ++ rest) n
  = match List.find (fun x => n =? key x) l with
    | Some x => Some (val x)
    | None => run d 0 rest n
    end.
Proof.
  induction l as [|x l IH]; intros Hb; [done|].
  rewrite join_fmap_cons. unfold block at 1. cbn [app List.find]. rewrite <-(assoc_L (++)).
  rewrite (run_guarded _ _ _ _ _ (val x)) by (intros _; apply Hb; constructor).
  destruct (n =? key x); [done|]. apply IH. intros. apply Hb. by constructor.
Qed.

(** ** The socket rule's body *)
Abbreviation tail a e := [stmt RET_K a; stmt RET_K e].

(** A non-empty chain of tests: a hit reaches the allow, a miss the code behind the chain,
      or the refusal when the chain is the last. *)
Lemma jumps_to_run l idx allow_idx :
  l <> [] -> 0 <= idx -> idx + zlen l <= allow_idx -> allow_idx - idx <= 255 ->
  exists js, jumps_to l idx allow_idx (allow_idx + 1) = Some js /\ zlen js = zlen l /\
    forall d a e mid A, zlen mid = allow_idx - idx - zlen l ->
    run d 0 (js ++ mid ++ tail a e) A
    = if contains l A then Some a
      else match mid with [] => Some e | _ => run d 0 (mid ++ tail a e) A end.
Proof.
  intros Hne. revert idx. induction l as [|f l IH]; [done|]. clear Hne. intros idx Hi Hl Ha.
  rewrite zlen_cons in Hl. pose proof (zlen_nonneg l). cbn [jumps_to].
  assert (off idx allow_idx = Some (allow_idx - (idx + 1))) as Hhit.
  { unfold off. rewrite (proj2 (andb_true_iff _ _)); [done|]. split; lia. }
  destruct l as [|g l].
  - cbn [jumps_to]. rewrite Hhit. change (zlen [f]) with 1. destruct (Z.eqb_spec (idx + 1) allow_idx) as [E|E].
    + assert (off idx (allow_idx + 1) = Some 1) as ->.
      { unfold off. rewrite (proj2 (andb_true_iff _ _)) by (split; lia). f_equal. lia. }
      eexists. split; [done|]. split; [done|]. intros d a e mid A Hm.
      destruct mid; [|rewrite zlen_cons in Hm; pose proof (zlen_nonneg mid); lia].
      cbn [app]. rewrite run_jeq. cbn [contains existsb]. rewrite orb_false_r.
      replace (allow_idx - (idx + 1)) with 0 by lia. by destruct (A =? f).
    + eexists. split; [done|]. split; [done|]. intros d a e mid A Hm.
      cbn [app]. rewrite run_jeq. cbn [contains existsb]. rewrite orb_false_r.
      destruct (A =? f).
      * rewrite run_skip_app; [done|]. unfold zlen in Hm. lia.
      * destruct mid; [|done]. change (zlen []) with 0 in Hm. lia.
  - destruct (IH ltac:(done) (idx + 1)) as (js & Hjs & Hlen & Hrun); [lia..|].
    rewrite Hjs, Hhit, (proj2 (Z.eqb_neq (idx + 1) allow_idx)) by (rewrite zlen_cons in Hl; pose proof (zlen_nonneg l); lia).
    eexists. split; [done|]. rewrite !(zlen_cons _ js), Hlen, (zlen_cons f).
    split; [done|]. intros d a e mid A Hm. cbn [app]. rewrite run_jeq.
    change (contains (f :: g :: l) A) with ((A =? f) || contains (g :: l) A).
    destruct (A =? f); cbn [orb].
    + rewrite (assoc_L (++)), run_skip_app; [done|]. rewrite length_app.
      unfold zlen in *. lia.
    + apply Hrun. lia.
Qed.

(** ** The reference decision of the zone's filter *)

(** The sockets a zone may open: a base family, a family of its policy, or netlink with the
    route protocol, a protocol of its policy, or any where the policy says so. *)
Definition socket_ok (sockets : SocketPolicy) (family protocol : Z) : bool :=
  if family =? AF_NETLINK
  then netlink_all sockets || (protocol =? NETLINK_ROUTE) || contains (netlink_protocols sockets) protocol
  else contains [AF_UNIX; AF_INET; AF_INET6] family || contains (families sockets) family.

(** The ioctls that only fail: ethtool's, a PHY register write, the drivers' private range. *)
Definition ioctl_nic (request : Z) : bool :=
  (request =? SIOCETHTOOL) || (request =? SIOCSMIIREG)
  || ((SIOCDEVPRIVATE <=? request) && (request <=? SIOCDEVPRIVATE + 15)).

Section decision.
Context `{Libc}.
Context (allow : list Z) (deny_action : Z) (sockets : SocketPolicy).

Definition rule_decision (rule : ArgRule) (d : seccomp_data) : Z :=
  match rule with
  | CloneNoNamespaces =>
    if Z.land (as_u32 (arg d 0)) CLONE_NS_MASK =? 0 then SECCOMP_RET_ALLOW
    else soft_refusal EPERM deny_action
  | Clone3Enosys => errno_action ENOSYS
  | IoctlRefused =>
    let request := as_u32 (arg d 1) in
    if (request =? TIOCSTI) || (request =? TIOCLINUX) then deny_action
    else if ioctl_nic request then soft_refusal EPERM deny_action
    else SECCOMP_RET_ALLOW
  | SocketFamilies =>
    if socket_ok sockets (as_u32 (arg d 0)) (as_u32 (arg d 2)) then SECCOMP_RET_ALLOW
    else errno_action EAFNOSUPPORT
  | SocketpairUnix =>
    if as_u32 (arg d 0) =? AF_UNIX then SECCOMP_RET_ALLOW else errno_action EAFNOSUPPORT
  end.

(** A call of another architecture, of the x32 table or of no table is refused; a call off the
    list is refused, softly if it is named so; a listed call is decided by its argument rule,
    or allowed. *)
Definition decision (d : seccomp_data) : Z :=
  if negb (arch d =? AUDIT_ARCH_X86_64) then deny_action
  else if (nr d <? 0) || (X32_SYSCALL_BIT <=? nr d) then deny_action
  else if contains allow (nr d) then
    match List.find (fun r => rule_nr r =? nr d) ARG_RULES with
    | Some rule => rule_decision rule d
    | None => SECCOMP_RET_ALLOW
    end
  else match List.find (fun p => p.1 =? nr d) REFUSED_SOFTLY with
       | Some p => soft_refusal p.2 deny_action
       | None => deny_action
       end.
End decision.

(** The call number is a [c_int]. *)
Definition call_ok (d : seccomp_data) : Prop := -2147483648 <= nr d < 2147483648.

(** Policies short enough for one-byte jumps. *)
Definition short (sockets : SocketPolicy) : Prop :=
  zlen (families sockets) + zlen (netlink_protocols sockets) <= 200.

(** *** The lists of the socket rule *)
Lemma contains_app l l' x : contains (l ++ l') x = contains l x || contains l' x.
Proof. apply existsb_app. Qed.

Lemma contains_push_new l y x : contains (push_new l y) x = contains l x || (x =? y).
Proof.
  unfold push_new. destruct (contains l y) eqn:E.
  - destruct (Z.eqb_spec x y) as [->|]; [by rewrite E|by rewrite orb_false_r].
  - rewrite contains_app. cbn [contains existsb]. by rewrite (orb_false_r (x =? y)).
Qed.

Lemma contains_push_all l acc x :
  contains (fold_left push_new l acc) x = contains acc x || contains l x.
Proof.
  revert acc. induction l as [|y l IH]; intros acc; cbn [fold_left]; [by rewrite orb_false_r|].
  rewrite IH, contains_push_new, <-orb_assoc. done.
Qed.

Lemma zlen_push_new l y : zlen (push_new l y) <= 1 + zlen l.
Proof. unfold push_new. destruct (contains l y); rewrite ?zlen_app, ?zlen_cons, ?zlen_nil; lia. Qed.

Lemma zlen_push_all l acc : zlen acc <= zlen (fold_left push_new l acc) <= zlen acc + zlen l.
Proof.
  revert acc. induction l as [|y l IH]; intros acc; cbn [fold_left]; [rewrite ?zlen_nil; lia|].
  pose proof (IH (push_new acc y)). pose proof (zlen_push_new acc y). rewrite zlen_cons.
  assert (zlen acc <= zlen (push_new acc y)); [|lia].
  unfold push_new. destruct (contains acc y); rewrite ?zlen_app, ?zlen_cons, ?zlen_nil; lia.
Qed.

Section fams.
Let step (fams : list Z) (f : Z) : list Z :=
  if negb (contains fams f) && negb (f =? AF_NETLINK) then fams ++ [f] else fams.

Lemma contains_fams l acc x :
  contains (fold_left step l acc) x = contains acc x || (negb (x =? AF_NETLINK) && contains l x).
Proof.
  revert acc. induction l as [|y l IH]; intros acc; cbn [fold_left];
    [by rewrite andb_false_r, orb_false_r|].
  rewrite IH. unfold step. change (contains (y :: l) x) with ((x =? y) || contains l x).
  destruct (contains acc y) eqn:Ey, (y =? AF_NETLINK) eqn:En; cbn [negb andb];
    rewrite ?contains_app; change (contains [y] x) with ((x =? y) || false);
    destruct (Z.eqb_spec x y) as [->|]; rewrite ?Ey, ?En; cbn [negb andb orb];
    repeat match goal with
      | |- context [contains ?l ?z] => destruct (contains l z)
      | |- context [?z =? AF_NETLINK] => destruct (z =? AF_NETLINK)
      end; done.
Qed.

Lemma zlen_fams l acc : zlen acc <= zlen (fold_left step l acc) <= zlen acc + zlen l.
Proof.
  revert acc. induction l as [|y l IH]; intros acc; cbn [fold_left]; [rewrite ?zlen_nil; lia|].
  pose proof (IH (step acc y)). rewrite zlen_cons.
  assert (zlen acc <= zlen (step acc y) <= 1 + zlen acc); [|lia].
  unfold step. destruct (_ && _); rewrite ?zlen_app, ?zlen_cons, ?zlen_nil; lia.
Qed.
End fams.

Lemma socket_fams_contains s x :
  contains (socket_fams s) x
  = contains [AF_UNIX; AF_INET; AF_INET6] x || (negb (x =? AF_NETLINK) && contains (families s) x)
    || (netlink_all s && (x =? AF_NETLINK)).
Proof.
  unfold socket_fams. destruct (netlink_all s); rewrite ?contains_app, contains_fams; [|by rewrite orb_false_r].
  change (contains [AF_NETLINK] x) with ((x =? AF_NETLINK) || false). by rewrite orb_false_r.
Qed.

Lemma socket_fams_len s : 3 <= zlen (socket_fams s) <= 4 + zlen (families s).
Proof.
  pose proof (zlen_fams (families s) [AF_UNIX; AF_INET; AF_INET6]) as Hz. change (zlen [AF_UNIX; _; _]) with 3 in Hz.
  unfold socket_fams. destruct (netlink_all s); rewrite ?zlen_app, ?zlen_cons, ?zlen_nil; lia.
Qed.

Lemma socket_protos_len s : 1 <= zlen (socket_protos s) <= 1 + zlen (netlink_protocols s).
Proof. apply (zlen_push_all (netlink_protocols s) [NETLINK_ROUTE]). Qed.

Lemma nonempty_zlen {A} (l : list A) : 1 <= zlen l -> l <> [].
Proof. intros ? ->. by cbn in *. Qed.

Lemma socket_body_run s :
  short s -> exists body, socket_body s = Some body /\ zlen body <= 255 /\
    forall d A, run d 0 body A
      = Some (if socket_ok s (as_u32 (arg d 0)) (as_u32 (arg d 2)) then SECCOMP_RET_ALLOW
              else errno_action EAFNOSUPPORT).
Proof.
  intros Hs. unfold short in Hs. pose proof (socket_fams_len s) as Hf. pose proof (socket_protos_len s) as Hp.
  pose proof (zlen_nonneg (families s)). pose proof (zlen_nonneg (netlink_protocols s)).
  unfold socket_body. remember (zlen (socket_fams s)) as n eqn:Hn. remember (zlen (socket_protos s)) as m eqn:Hm.
  set (a := SECCOMP_RET_ALLOW). set (e := errno_action EAFNOSUPPORT).
  destruct (netlink_all s) eqn:Hall; cbn [negb].
  - destruct (jumps_to_run (socket_fams s) 1 (1 + n + 0))
      as (js & -> & Hlen & Hrun); [apply nonempty_zlen; lia|lia..|].
    eexists. split; [done|]. split; [rewrite !zlen_cons, !zlen_app, ?zlen_cons, ?zlen_nil; lia|].
    intros d A. rewrite run_ld with (v := as_u32 (arg d 0)) by (apply load_arg; lia).
    rewrite (Hrun d a e []) by (rewrite zlen_nil; lia).
    rewrite socket_fams_contains. unfold socket_ok. rewrite Hall.
    destruct (Z.eqb_spec (as_u32 (arg d 0)) AF_NETLINK) as [->|]; [done|].
    cbn [negb andb orb]. rewrite orb_false_r. by destruct (_ || _).
  - destruct (jumps_to_run (socket_fams s) 1 (1 + n + (2 + m)))
      as (js & -> & Hlen & Hrun); [apply nonempty_zlen; lia|lia..|].
    destruct (jumps_to_run (socket_protos s) (1 + n + 2) (1 + n + (2 + m)))
      as (ps & -> & Hplen & Hprun); [apply nonempty_zlen; lia|lia..|].
    assert (off (1 + n) (1 + n + (2 + m) + 1) = Some (2 + m)) as ->.
    { unfold off. rewrite (proj2 (andb_true_iff _ _)) by (split; lia). f_equal. lia. }
    eexists. split; [done|]. split; [rewrite !zlen_cons, !zlen_app, ?zlen_cons, ?zlen_nil; lia|].
    intros d A. rewrite run_ld with (v := as_u32 (arg d 0)) by (apply load_arg; lia).
    rewrite (Hrun d a e (_ :: _ :: ps)) by (rewrite !zlen_cons; lia).
    rewrite socket_fams_contains. unfold socket_ok. rewrite Hall. cbn [app andb].
    rewrite run_jeq. destruct (Z.eqb_spec (as_u32 (arg d 0)) AF_NETLINK) as [E|E].
    + rewrite E. change (contains [AF_UNIX; _; _] AF_NETLINK) with false. cbn [negb andb orb].
      change (Z.to_nat 0) with 0%nat.
      rewrite run_ld with (v := as_u32 (arg d 2)) by (apply load_arg; lia).
      rewrite (Hprun d a e []) by (rewrite zlen_nil; lia).
      unfold socket_protos. rewrite contains_push_all.
      change (contains [NETLINK_ROUTE] ?x) with ((x =? NETLINK_ROUTE) || false).
      rewrite orb_false_r. by destruct (_ || _).
    + cbn [negb andb]. rewrite orb_false_r.
      destruct (_ || _); [done|].
      change (stmt LD_W_ABS (arg_lo 2) :: ps ++ tail a e)
        with ((stmt LD_W_ABS (arg_lo 2) :: ps) ++ [stmt RET_K a] ++ [stmt RET_K e]).
      rewrite (assoc_L (++)), run_skip_app; [done|]. rewrite length_app. cbn [length].
      unfold zlen in *. lia.
Qed.

(** ** The zone's filter *)
Section numbers.
Context `{LibcLaws}.

Lemma base_range s : s ∈ NAMED -> as_u32 (SYS s) = SYS s.
Proof. intros Hs%SYS_range. apply as_u32_small. unfold X32_SYSCALL_BIT in *. lia. Qed.

(** The call a rule decides, by name. *)
Definition rule_sys (rule : ArgRule) : string :=
  match rule with
  | CloneNoNamespaces => "SYS_clone"
  | Clone3Enosys => "SYS_clone3"
  | IoctlRefused => "SYS_ioctl"
  | SocketFamilies => "SYS_socket"
  | SocketpairUnix => "SYS_socketpair"
  end.

Lemma rule_nr_sys rule : rule_nr rule = SYS (rule_sys rule).
Proof. by destruct rule. Qed.

Lemma rule_sys_inj r r' : rule_sys r = rule_sys r' -> r = r'.
Proof. destruct r, r'; (reflexivity || discriminate). Qed.

Lemma rule_sys_listed rule : rule_sys rule ∈ BASE_CALLS /\ (rule_sys rule ∉ SOFT_CALLS.*1).
Proof.
  assert (Forall (fun r => rule_sys r ∈ BASE_CALLS /\ (rule_sys r ∉ SOFT_CALLS.*1)) ARG_RULES) as HF.
  { apply (bool_decide_unpack _). vm_compute. exact I. }
  rewrite Forall_forall in HF. apply HF. destruct rule; unfold ARG_RULES; set_solver.
Qed.

Lemma rule_sys_named rule : rule_sys rule ∈ NAMED.
Proof. apply is_named, elem_base_and_rest. destruct (rule_sys_listed rule). auto. Qed.

Lemma rule_nr_inj r r' : rule_nr r = rule_nr r' -> r = r'.
Proof.
  rewrite !rule_nr_sys. intros E%SYS_inj; [by apply rule_sys_inj|apply rule_sys_named..].
Qed.

Lemma rule_nr_u32 rule : as_u32 (rule_nr rule) = rule_nr rule.
Proof. rewrite rule_nr_sys. apply base_range, rule_sys_named. Qed.

Lemma soft_named p : p ∈ REFUSED_SOFTLY -> exists s, s ∈ SOFT_CALLS.*1 /\ p.1 = SYS s.
Proof.
  intros ([s e] & -> & Hs)%list_elem_of_fmap. exists s. split; [|done].
  apply list_elem_of_fmap. by exists (s, e).
Qed.

Lemma named_soft s : s ∈ SOFT_CALLS.*1 -> s ∈ NAMED.
Proof. intros. unfold NAMED. rewrite !elem_of_app. auto. Qed.
End numbers.

Section zone.
Context `{LibcLaws}.
Context (allow : list Z) (deny_action : Z) (sockets : SocketPolicy).
Hypothesis Hshort : short sockets.

Lemma rule_body_run rule :
  exists body, rule_body rule deny_action sockets = Some body /\ zlen body <= 255 /\
    forall d A, run d 0 body A = Some (rule_decision deny_action sockets rule d).
Proof.
  destruct rule; cbn [rule_body]; [| | | |]; try (apply (socket_body_run _ Hshort));
    (eexists; split; [done|]; split; [by vm_compute|]; intros d A; cbn [rule_decision]).
  - rewrite run_ld with (v := as_u32 (arg d 0)) by (apply load_arg; lia).
    rewrite run_jset. by destruct (_ =? 0).
  - done.
  - rewrite run_ld with (v := as_u32 (arg d 1)) by (apply load_arg; lia).
    unfold ioctl_nic. do 4 (rewrite run_jeq; destruct (_ =? _); [done|]).
    rewrite run_jge. destruct (_ <=? _); cbn [andb orb]; [|done].
    rewrite run_jgt, Z.ltb_antisym. by destruct (_ <=? _).
  - rewrite run_ld with (v := as_u32 (arg d 0)) by (apply load_arg; lia).
    rewrite run_jeq. by destruct (_ =? _).
Qed.

Definition body_of (rule : ArgRule) : list SockFilter :=
  default [] (rule_body rule deny_action sockets).

Lemma emit_arg_rule_emits rule :
  emits (emit_arg_rule rule deny_action sockets) (block rule_nr body_of rule).
Proof.
  destruct (rule_body_run rule) as (body & Hb & Hlen & _).
  unfold emit_arg_rule, block, body_of. rewrite Hb. cbn [unwrap default from_option].
  assert (as_u8 (zlen body) = zlen body) as Hu
    by (apply Z.mod_small; pose proof (zlen_nonneg body); lia).
  intros p. apply bind_Done. exists body, p. split; [by apply ret_Done|].
  rewrite rule_nr_u32, Hu. done.
Qed.

Definition soft_body (p : Z * Z) : list SockFilter := [stmt RET_K (soft_refusal p.2 deny_action)].
Definition allow_body (_ : Z) : list SockFilter := [stmt RET_K SECCOMP_RET_ALLOW].
Definition plain (nr : Z) : bool := negb (existsb (fun r => rule_nr r =? nr) ARG_RULES).

Definition zone_program : list SockFilter :=
  prologue deny_action
  ++ mjoin (block rule_nr body_of <$> List.filter (fun r => contains allow (rule_nr r)) ARG_RULES)
  ++ mjoin (block fst soft_body <$> List.filter (fun p => negb (contains allow p.1)) REFUSED_SOFTLY)
  ++ mjoin (block id allow_body <$> List.filter plain allow)
  ++ [stmt RET_K deny_action].

Lemma emits_rules :
  emits (for_each ARG_RULES (fun rule =>
           when (contains allow (rule_nr rule)) (emit_arg_rule rule deny_action sockets)))
    (mjoin (block rule_nr body_of <$> List.filter (fun r => contains allow (rule_nr r)) ARG_RULES)).
Proof.
  rewrite <-join_filter. apply emits_for_each. intros r _. apply emits_when. intros _.
  apply emit_arg_rule_emits.
Qed.

Lemma emits_softs :
  emits (for_each REFUSED_SOFTLY (emit_soft allow deny_action))
    (mjoin (block fst soft_body <$> List.filter (fun p => negb (contains allow p.1)) REFUSED_SOFTLY)).
Proof.
  rewrite <-join_filter. apply emits_for_each. intros p Hp. apply emits_when. intros _.
  destruct (soft_named p Hp) as (s & Hs & E).
  assert (as_u32 p.1 = p.1) as -> by (rewrite E; by apply base_range, named_soft).
  apply emits_push.
Qed.

(** Everything before the allowlist's own loop succeeds, whatever the list. *)
Lemma assemble_prefix : exists pre, forall e p',
  for_each allow emit_allow pre = (Fail e, p') -> assemble allow deny_action sockets [] = (Fail e, p').
Proof.
  exists (([] ++ prologue deny_action)
          ++ mjoin (block rule_nr body_of <$> List.filter (fun r => contains allow (rule_nr r)) ARG_RULES)
          ++ mjoin (block fst soft_body <$> List.filter (fun p => negb (contains allow p.1)) REFUSED_SOFTLY)).
  intros e p' Hf. unfold assemble.
  rewrite (emits_step _ _ _ _ (emits_push _)), (emits_step _ _ _ _ emits_rules),
    (emits_step _ _ _ _ emits_softs), <-(assoc_L (++)). by apply bind_Fail.
Qed.

Hypothesis Hallow : Forall (fun n => 0 <= n <= U32_MAX) allow.

Lemma assemble_emits : emits (assemble allow deny_action sockets) zone_program.
Proof.
  unfold assemble, zone_program. apply emits_bind; [apply emits_push|].
  apply emits_bind; [apply emits_rules|]. apply emits_bind; [apply emits_softs|].
  apply emits_bind; [|apply emits_push].
  rewrite <-join_filter. apply emits_for_each. intros n Hn.
  rewrite Forall_forall in Hallow. specialize (Hallow n Hn).
  intros p. unfold emit_allow. apply bind_Done. exists tt, p. split.
  { apply reject_if_Done. split; [|done]. lia. }
  unfold block, id. rewrite as_u32_small by lia. revert p. apply emits_when. intros _. apply emits_push.
Qed.

Lemma build_program_run :
  build_program_full allow deny_action sockets
  = if 4096 <? zlen zone_program then Fail (TooManyRules (zlen zone_program)) else Done zone_program.
Proof.
  unfold build_program_full. unfold mbind at 1. Transparent M_bind M_ret. unfold M_bind at 1.
  rewrite assemble_emits. cbn [app]. unfold mbind, M_bind, gets, reject_if, fail, mret, M_ret.
  by destruct (4096 <? _).
Qed.
Opaque M_bind M_ret.

Lemma run_prologue d rest :
  call_ok d ->
  run d 0 (prologue deny_action ++ rest) 0
  = if negb (arch d =? AUDIT_ARCH_X86_64) || (nr d <? 0) || (X32_SYSCALL_BIT <=? nr d)
    then Some deny_action else run d 0 rest (nr d).
Proof.
  intros Hd. unfold call_ok in Hd. unfold prologue. cbn [app].
  rewrite run_ld with (v := arch d) by apply load_arch.
  rewrite run_jeq. destruct (arch d =? AUDIT_ARCH_X86_64); cbn [negb orb]; [|done].
  bpf_jump.
  rewrite run_ld with (v := as_u32 (nr d)) by apply load_nr.
  rewrite run_jge. unfold X32_SYSCALL_BIT. destruct (Z.ltb_spec (nr d) 0).
  - assert (as_u32 (nr d) = nr d + 4294967296) as ->.
    { unfold as_u32. symmetry. apply (Z.mod_unique_pos _ _ (-1)); lia. }
    rewrite (proj2 (Z.leb_le _ _)) by lia. done.
  - rewrite as_u32_small by lia. cbn [orb]. by destruct (0x40000000 <=? nr d).
Qed.

Lemma find_key_allow n :
  n ∈ allow -> plain n = true -> List.find (fun x => plain x && (n =? x)) allow = Some n.
Proof.
  intros Hn Hp. destruct (List.find _ allow) as [x|] eqn:Hf.
  - apply List.find_some in Hf as [_ [_ E%Z.eqb_eq]%andb_true_iff]. by subst.
  - rewrite find_None in Hf. specialize (Hf n Hn). by rewrite Hp, Z.eqb_refl in Hf.
Qed.

Lemma zone_program_answer d :
  call_ok d -> answer zone_program d = Some (decision allow deny_action sockets d).
Proof.
  intros Hd. unfold answer, zone_program. rewrite run_prologue by done. unfold decision.
  destruct (arch d =? AUDIT_ARCH_X86_64); cbn [negb orb]; [|done].
  destruct (_ || _); [done|].
  rewrite (run_blocks d rule_nr body_of (fun r => rule_decision deny_action sockets r d)).
  2:{ intros r _. destruct (rule_body_run r) as (body & Hb & _ & Hrun).
      unfold body_of. rewrite Hb. apply Hrun. }
  rewrite (run_blocks d fst soft_body (fun p => soft_refusal p.2 deny_action)) by done.
  rewrite (run_blocks d id allow_body (fun _ => SECCOMP_RET_ALLOW)) by done.
  rewrite !find_filter. unfold id. destruct (contains allow (nr d)) eqn:Hin.
  - rewrite (find_ext _ (fun r => rule_nr r =? nr d)).
    2:{ intros r _. rewrite (Z.eqb_sym (nr d)). destruct (Z.eqb_spec (rule_nr r) (nr d)) as [->|].
        - by rewrite Hin. - apply andb_false_r. }
    destruct (List.find _ ARG_RULES) eqn:Hr; [done|].
    rewrite (proj2 (find_None _ REFUSED_SOFTLY)).
    2:{ intros p _. destruct (Z.eqb_spec (nr d) p.1) as [<-|]; [by rewrite Hin|apply andb_false_r]. }
    rewrite (find_key_allow (nr d)); [done|by apply contains_true|].
    unfold plain. rewrite find_None in Hr. apply negb_true_iff, not_true_iff_false.
    intros (r & Hr' & E)%existsb_exists. rewrite <-list_elem_of_In in Hr'. by rewrite Hr in E.
  - rewrite (proj2 (find_None _ ARG_RULES)).
    2:{ intros r _. destruct (Z.eqb_spec (nr d) (rule_nr r)) as [<-|]; [by rewrite Hin|apply andb_false_r]. }
    rewrite (find_ext _ (fun p => p.1 =? nr d)).
    2:{ intros p _. rewrite (Z.eqb_sym (nr d)). destruct (Z.eqb_spec p.1 (nr d)) as [->|].
        - by rewrite Hin. - apply andb_false_r. }
    destruct (List.find _ REFUSED_SOFTLY); [done|].
    rewrite (proj2 (find_None _ allow)); [done|].
    intros n Hn. destruct (Z.eqb_spec (nr d) n) as [<-|]; [|apply andb_false_r].
    apply contains_true in Hn. congruence.
Qed.
End zone.

(** *** The size of the program *)
Lemma zlen_join_le {A B} (g : A -> list B) b l :
  (forall x, x ∈ l -> zlen (g x) <= b) -> zlen (mjoin (g <$> l)) <= b * zlen l.
Proof.
  induction l as [|x l IH]; intros Hg; [by rewrite Z.mul_0_r|].
  rewrite join_fmap_cons, zlen_app, zlen_cons.
  assert (zlen (g x) <= b) by (apply Hg; constructor).
  assert (zlen (mjoin (g <$> l)) <= b * zlen l) by (apply IH; intros; apply Hg; by constructor). lia.
Qed.

(** The first number of the list outside the filter's 32-bit comparison. *)
Definition bad_number (nr : Z) : bool := (nr <? 0) || (U32_MAX <? nr).

Section zone_size.
Context `{LibcLaws}.
Context (allow : list Z) (deny_action : Z) (sockets : SocketPolicy).
Hypothesis Hshort : short sockets.

Lemma body_of_len rule : zlen (body_of deny_action sockets rule) <= 255.
Proof.
  destruct (rule_body_run deny_action sockets Hshort rule) as (body & Hb & Hlen & _).
  unfold body_of. by rewrite Hb.
Qed.

Lemma zone_program_len : zlen (zone_program allow deny_action sockets) <= 1323 + 2 * zlen allow.
Proof.
  unfold zone_program. rewrite !zlen_app.
  pose proof (zlen_filter (fun r => contains allow (rule_nr r)) ARG_RULES) as H1.
  pose proof (zlen_filter (fun p => negb (contains allow p.1)) REFUSED_SOFTLY) as H2.
  pose proof (zlen_filter plain allow) as H3.
  change (zlen ARG_RULES) with 5 in H1.
  assert (zlen REFUSED_SOFTLY = 18) as E by by vm_compute. rewrite E in H2.
  change (zlen (prologue deny_action)) with 6. change (zlen [stmt RET_K deny_action]) with 1.
  pose proof (zlen_join_le (block rule_nr (body_of deny_action sockets)) 256
    (List.filter (fun r => contains allow (rule_nr r)) ARG_RULES)) as J1.
  pose proof (zlen_join_le (block fst (soft_body deny_action)) 2
    (List.filter (fun p => negb (contains allow p.1)) REFUSED_SOFTLY)) as J2.
  pose proof (zlen_join_le (block id allow_body) 2 (List.filter plain allow)) as J3.
  lapply J1; [intros J1'|intros r _; unfold block; rewrite zlen_cons; pose proof (body_of_len r); lia].
  lapply J2; [intros J2'|intros p _; done]. lapply J3; [intros J3'|intros n _; done]. lia.
Qed.
End zone_size.

(** ** wpa_supplicant's filter *)

(** A datagram socket's type, with any of the flags socket(2) takes beside it. *)
Definition dgram_types : list Z := [0x2; 0x802; 0x80002; 0x80802].

Definition supplicant_socket_ok (family type protocol : Z) : bool :=
  (family =? AF_UNIX) || (family =? AF_PACKET)
  || ((family =? AF_NETLINK) && ((protocol =? NETLINK_ROUTE) || (protocol =? NETLINK_GENERIC)))
  || ((family =? AF_INET) && contains dgram_types type).

Definition supplicant_decision `{Libc} (d : seccomp_data) : Z :=
  if negb (arch d =? AUDIT_ARCH_X86_64) then SECCOMP_RET_KILL_PROCESS
  else if (nr d <? 0) || (X32_SYSCALL_BIT <=? nr d) then SECCOMP_RET_KILL_PROCESS
  else if negb (nr d =? SYS "SYS_socket") then SECCOMP_RET_ALLOW
  else if supplicant_socket_ok (as_u32 (arg d 0)) (as_u32 (arg d 1)) (as_u32 (arg d 2))
  then SECCOMP_RET_ALLOW
  else errno_action EPERM.

Lemma land_pow2 t n : 0 <= n -> Z.land t (2 ^ n) = if Z.testbit t n then 2 ^ n else 0.
Proof.
  intros Hn. apply Z.bits_inj'. intros i Hi. rewrite Z.land_spec, Z.pow2_bits_eqb by done.
  destruct (Z.eqb_spec n i) as [<-|].
  - destruct (Z.testbit t n); [by rewrite Z.pow2_bits_true|by rewrite Z.bits_0].
  - rewrite andb_false_r. destruct (Z.testbit t n); [|by rewrite Z.bits_0].
    symmetry. by apply Z.pow2_bits_false.
Qed.

(** The filter's two tests of the type's bits pick out exactly those types. *)
Lemma dgram_bits t :
  0 <= t < 2 ^ 32 ->
  (Z.land t (not_u32 SOCK_DGRAM_FLAGS) =? 0) && negb (Z.land t SOCK_DGRAM =? 0) = contains dgram_types t.
Proof.
  intros Ht. destruct (contains dgram_types t) eqn:Hc.
  - apply contains_true in Hc. unfold dgram_types in Hc.
    repeat (apply elem_of_cons in Hc as [->|Hc]; [done|]). set_solver.
  - apply not_true_iff_false. intros [H0%Z.eqb_eq H1%negb_true_iff%Z.eqb_neq]%andb_true_iff.
    apply contains_false in Hc. apply Hc.
    assert (t = Z.lor (Z.lor (Z.land t (2 ^ 1)) (Z.land t (2 ^ 11))) (Z.land t (2 ^ 19))) as E.
    { rewrite <-!Z.land_lor_distr_r. change (Z.lor _ _) with SOCK_DGRAM_FLAGS.
      rewrite <-(Z.lor_0_r (Z.land t SOCK_DGRAM_FLAGS)), <-H0, <-Z.land_lor_distr_r.
      change (Z.lor SOCK_DGRAM_FLAGS (not_u32 SOCK_DGRAM_FLAGS)) with (Z.ones 32).
      rewrite Z.land_ones by lia. by rewrite Z.mod_small. }
    change SOCK_DGRAM with (2 ^ 1) in H1. rewrite !land_pow2 in E by lia. rewrite land_pow2 in H1 by lia.
    rewrite E. destruct (Z.testbit t 1); [|done].
    destruct (Z.testbit t 11), (Z.testbit t 19); vm_compute; set_solver.
Qed.

Lemma as_u32_range x : 0 <= as_u32 x < 2 ^ 32.
Proof. unfold as_u32. apply Z.mod_pos_bound. lia. Qed.

Section others.
Context `{LibcLaws}.

Lemma supplicant_answer d :
  call_ok d -> answer supplicant_program d = Some (supplicant_decision d).
Proof.
  intros Hd. unfold answer.
  change supplicant_program with (prologue SECCOMP_RET_KILL_PROCESS ++ drop 6 supplicant_program).
  rewrite run_prologue by done. unfold supplicant_decision.
  destruct (arch d =? AUDIT_ARCH_X86_64); cbn [negb orb]; [|done]. destruct (_ || _); [done|].
  unfold supplicant_program. cbn [drop]. rewrite (base_range "SYS_socket") by apply (rule_sys_named SocketFamilies).
  rewrite run_jeq. destruct (nr d =? SYS "SYS_socket"); cbn [negb]; [|done]. bpf_jump.
  rewrite run_ld with (v := as_u32 (arg d 0)) by (apply load_arg; lia).
  unfold supplicant_socket_ok. change (errno_action EPERM) with (Z.lor SECCOMP_RET_ERRNO EPERM).
  do 2 (rewrite run_jeq; destruct (_ =? _) in |- *; cbn [orb]; [done|]; bpf_jump).
  rewrite run_jeq. destruct (Z.eqb_spec (as_u32 (arg d 0)) AF_NETLINK) as [->|]; bpf_jump.
  - change (AF_NETLINK =? AF_INET) with false. cbn [andb orb]. rewrite orb_false_r.
    rewrite run_ld with (v := as_u32 (arg d 2)) by (apply load_arg; lia).
    do 2 (rewrite run_jeq; destruct (_ =? _) in |- *; cbn [orb]; [done|]; bpf_jump). done.
  - rewrite run_jeq. cbn [andb orb]. destruct (_ =? AF_INET); bpf_jump; cbn [andb]; [|done].
    rewrite run_ld with (v := as_u32 (arg d 1)) by (apply load_arg; lia).
    rewrite <-dgram_bits by apply as_u32_range.
    rewrite run_jset. destruct (_ =? 0); cbn [negb andb]; bpf_jump; [|done].
    rewrite run_jset. by destruct (_ =? 0).
Qed.

(** *** The Wayland proxy's filter *)

(** The calls an argument decides: the value it must have, or no executable memory. *)
Definition proxy_arg_ok (d : seccomp_data) (n : Z) : option bool :=
  if n =? SYS "SYS_socket" then Some (as_u32 (arg d 0) =? AF_UNIX)
  else if n =? SYS "SYS_ioctl" then Some (as_u32 (arg d 1) =? FIONBIO)
  else if n =? SYS "SYS_sendto" then Some (as_u32 (arg d 5) =? 0)
  else if n =? SYS "SYS_fallocate"
  then Some (as_u32 (arg d 1) =? as_u32 (Z.lor FALLOC_FL_PUNCH_HOLE FALLOC_FL_KEEP_SIZE))
  else if (n =? SYS "SYS_mmap") || (n =? SYS "SYS_mprotect")
  then Some (negb (Z.testbit (arg d 2) 2))
  else None.

Definition proxy_decision (d : seccomp_data) : Z :=
  let ok :=
    (arch d =? AUDIT_ARCH_X86_64) && (0 <=? nr d) && (nr d <? X32_SYSCALL_BIT)
    && contains PROXY_ALLOWLIST (nr d) && default true (proxy_arg_ok d (nr d)) in
  if ok then SECCOMP_RET_ALLOW else SECCOMP_RET_KILL_PROCESS.

Lemma proxy_calls_named s : s ∈ PROXY_CALLS -> s ∈ NAMED.
Proof. intros. unfold NAMED. rewrite !elem_of_app. auto. Qed.

Definition proxy_rule_calls : list string :=
  ["SYS_socket"; "SYS_ioctl"; "SYS_sendto"; "SYS_fallocate"; "SYS_mmap"; "SYS_mprotect"].

Lemma proxy_rules_listed : Forall (fun s => s ∈ PROXY_CALLS) proxy_rule_calls.
Proof. apply (bool_decide_unpack _). vm_compute. exact I. Qed.

Lemma proxy_rules_keys : proxy_rules.*1 = SYS <$> proxy_rule_calls.
Proof. done. Qed.

Lemma proxy_rule_named r : r ∈ proxy_rules -> exists s, s ∈ PROXY_CALLS /\ r.1 = SYS s.
Proof.
  intros Hr. assert (r.1 ∈ proxy_rules.*1) as Hk by (apply list_elem_of_fmap; eauto).
  rewrite proxy_rules_keys in Hk. apply list_elem_of_fmap in Hk as (s & -> & Hs).
  pose proof proxy_rules_listed as HF. rewrite Forall_forall in HF. eauto.
Qed.

Definition proxy_value (d : seccomp_data) (r : Z * list SockFilter) : Z :=
  default 0 (run d 0 r.2 0).

Lemma proxy_body_run d r A : r ∈ proxy_rules -> run d 0 r.2 A = Some (proxy_value d r).
Proof.
  unfold proxy_value, proxy_rules. intros Hr.
  repeat (apply elem_of_cons in Hr as [->|Hr];
    [cbn [snd]; unfold only, no_exec; erewrite !run_ld by (apply load_arg; lia);
     rewrite ?run_jeq, ?run_jset; by destruct (_ =? _) in |- *|]).
  by apply elem_of_nil in Hr.
Qed.

Lemma proxy_program_blocks :
  proxy_program = prologue SECCOMP_RET_KILL_PROCESS
    ++ mjoin (block fst snd <$> proxy_rules)
    ++ mjoin (block id allow_body
         <$> List.filter (fun n => negb (existsb (fun r => r.1 =? n) proxy_rules)) PROXY_ALLOWLIST)
    ++ [stmt RET_K SECCOMP_RET_KILL_PROCESS].
Proof.
  unfold proxy_program. do 2 f_equal; [|f_equal].
  - apply (f_equal mjoin), list_fmap_ext. intros i r Hr%list_elem_of_lookup_2.
    unfold block. destruct (proxy_rule_named r Hr) as (s & Hs & E).
    rewrite E, base_range by by apply proxy_calls_named. f_equal. unfold as_u8.
    rewrite Z.mod_small; [done|]. revert Hr. unfold proxy_rules. intros Hr.
    repeat (apply elem_of_cons in Hr as [->|Hr]; [done|]). by apply elem_of_nil in Hr.
  - apply (f_equal mjoin), list_fmap_ext. intros i n Hn%list_elem_of_lookup_2.
    apply list_elem_of_In, List.filter_In in Hn as [Hn _]. rewrite <-list_elem_of_In in Hn.
    apply list_elem_of_fmap in Hn as (s & -> & Hs).
    unfold block, id. by rewrite base_range by by apply proxy_calls_named.
Qed.

Lemma prot_exec_bit x : (Z.land (as_u32 x) PROT_EXEC =? 0) = negb (Z.testbit x 2).
Proof.
  change PROT_EXEC with (2 ^ 2). rewrite land_pow2 by lia. unfold as_u32.
  change 4294967296 with (2 ^ 32). rewrite Z.mod_pow2_bits_low by lia. by destruct (Z.testbit x 2).
Qed.

Lemma only_value d n i v :
  0 <= i < 6 -> proxy_value d (n, only i v)
  = if as_u32 (arg d i) =? v then SECCOMP_RET_ALLOW else SECCOMP_RET_KILL_PROCESS.
Proof.
  intros Hi. unfold proxy_value, only. cbn [snd]. erewrite run_ld by by apply load_arg.
  rewrite run_jeq. by destruct (_ =? v).
Qed.

Lemma no_exec_value d n :
  proxy_value d (n, no_exec)
  = if negb (Z.testbit (arg d 2) 2) then SECCOMP_RET_ALLOW else SECCOMP_RET_KILL_PROCESS.
Proof.
  unfold proxy_value, no_exec. cbn [snd]. erewrite run_ld by (apply load_arg; lia).
  rewrite run_jset, prot_exec_bit. by destruct (Z.testbit _ _).
Qed.

(** The rule that decides a call, and what it answers. *)
Lemma proxy_find d n :
  match List.find (fun r => n =? r.1) proxy_rules with
  | Some r => exists ok, proxy_arg_ok d n = Some ok /\ contains PROXY_ALLOWLIST n = true /\
      proxy_value d r = if ok then SECCOMP_RET_ALLOW else SECCOMP_RET_KILL_PROCESS
  | None => proxy_arg_ok d n = None
  end.
Proof.
  destruct (List.find _ proxy_rules) as [r|] eqn:Hf.
  - pose proof Hf as [Hin E%Z.eqb_eq]%List.find_some. rewrite <-list_elem_of_In in Hin.
    assert (contains PROXY_ALLOWLIST n = true) as Hc.
    { destruct (proxy_rule_named r Hin) as (s & Hs & Er). apply contains_true, list_elem_of_fmap.
      exists s. by rewrite E. }
    clear E Hin. revert Hf. unfold proxy_arg_ok, proxy_rules. cbn [List.find fst].
    repeat (destruct (n =? _); cbn [orb];
      [intros [= <-]; eexists; split; [reflexivity|]; split; [done|];
       first [apply only_value; lia | apply no_exec_value]|]). done.
  - revert Hf. unfold proxy_arg_ok, proxy_rules. cbn [List.find fst].
    by repeat (destruct (n =? _); cbn [orb]; [done|]).
Qed.

Lemma proxy_answer d : call_ok d -> answer proxy_program d = Some (proxy_decision d).
Proof.
  intros Hd. unfold answer. rewrite proxy_program_blocks, run_prologue by done. unfold proxy_decision.
  destruct (arch d =? AUDIT_ARCH_X86_64); cbn [negb orb andb]; [|done].
  rewrite (Z.leb_antisym (nr d) 0), (Z.ltb_antisym X32_SYSCALL_BIT (nr d)).
  destruct (nr d <? 0); cbn [negb orb andb]; [done|].
  destruct (X32_SYSCALL_BIT <=? nr d); cbn [negb orb andb]; [done|].
  rewrite (run_blocks d fst snd (proxy_value d)) by (intros; by apply proxy_body_run).
  rewrite (run_blocks d id allow_body (fun _ => SECCOMP_RET_ALLOW)) by done.
  pose proof (proxy_find d (nr d)) as Hf.
  destruct (List.find (fun r => nr d =? r.1) proxy_rules) as [r|] eqn:E.
  - destruct Hf as (ok & -> & -> & ->). by destruct ok.
  - rewrite Hf, find_filter. cbn [default from_option]. rewrite andb_true_r.
    destruct (contains PROXY_ALLOWLIST (nr d)) eqn:Hc.
    + destruct (List.find _ PROXY_ALLOWLIST) as [n|] eqn:Hn; [done|].
      rewrite find_None in Hn. apply contains_true in Hc. specialize (Hn _ Hc). unfold id in Hn.
      rewrite Z.eqb_refl, andb_true_r in Hn. apply negb_false_iff, existsb_exists in Hn as (r & Hr & Er).
      rewrite find_None in E. rewrite <-list_elem_of_In in Hr. specialize (E r Hr).
      rewrite Z.eqb_sym in Er. congruence.
    + rewrite (proj2 (find_None _ PROXY_ALLOWLIST)); [done|]. intros n Hn. unfold id.
      destruct (Z.eqb_spec (nr d) n) as [<-|]; [|apply andb_false_r].
      apply contains_true in Hn. congruence.
Qed.
End others.
