(* ===== verification/Policy.v ===== *)
(** * compartments/kryptikd/src/policy.rs: zone policy files

    The parse of a policy file into what it adds to the base policy, the check of a policy
    against its zone, and its one-line description. Reading the file is a parameter of [load];
    the text of an error is its constructor. *)
From S2P Require Import Prelude Bytes Text Zone Syscalls Bpf Caps Seccomp.
Open Scope string_scope.
Open Scope list_scope.
Open Scope Z_scope.

Record Policy := {
  source : string;
  extra_syscalls : list Z;
  extra_syscall_names : list string;
  sockets : SocketPolicy;
  socket_names : list string;
  netlink_names : list string;
  keep_caps : list Z;
  keep_cap_names : list string;
  warnings : list string;
}.

Definition default_policy (source : string) : Policy := {|
  source := source; extra_syscalls := []; extra_syscall_names := []; sockets := default_sockets;
  socket_names := []; netlink_names := []; keep_caps := []; keep_cap_names := []; warnings := [];
|}.

(** The messages of [PolicyError::Line], by what they say. *)
Inductive Msg :=
| ExpectedOneArgument (directive : string)
| DuplicateDirective (directive arg : string)
| UnknownSyscall (arg : string)
| DeniedSyscall (arg : string)
| UnknownFamily (arg : string)
| UnknownProtocol (arg : string)
| UnknownCapability (arg : string)
| NotKeepable (arg : string)
| UnknownDirective (other : string)
| KeptTogether
| NicZoneOnly (name zone : string) (mode : NetworkMode).

Inductive PolicyError :=
| Io (path err : string)
| Line (path : string) (line : Z) (msg : Msg).

(** ** Parsing *)

(** The policy built so far and the directives seen: [p] and [seen] of [parse]. *)
Record Reading := { policy : Policy; seen : list (string * string) }.

Definition set_policy (f : Policy -> Policy) (r : Reading) : Reading :=
  {| policy := f (policy r); seen := seen r |}.

Definition add_warning (w : string) (p : Policy) : Policy := {|
  source := source p; extra_syscalls := extra_syscalls p; extra_syscall_names := extra_syscall_names p;
  sockets := sockets p; socket_names := socket_names p; netlink_names := netlink_names p;
  keep_caps := keep_caps p; keep_cap_names := keep_cap_names p; warnings := warnings p ++ [w] |}.
Definition add_syscall (nr : Z) (name : string) (p : Policy) : Policy := {|
  source := source p; extra_syscalls := extra_syscalls p ++ [nr];
  extra_syscall_names := extra_syscall_names p ++ [name];
  sockets := sockets p; socket_names := socket_names p; netlink_names := netlink_names p;
  keep_caps := keep_caps p; keep_cap_names := keep_cap_names p; warnings := warnings p |}.
Definition add_family (fam : Z) (name : string) (p : Policy) : Policy := {|
  source := source p; extra_syscalls := extra_syscalls p; extra_syscall_names := extra_syscall_names p;
  sockets := if fam =? AF_NETLINK
    then {| families := families (sockets p); netlink_protocols := netlink_protocols (sockets p);
            netlink_all := true |}
    else {| families := families (sockets p) ++ [fam]; netlink_protocols := netlink_protocols (sockets p);
            netlink_all := netlink_all (sockets p) |};
  socket_names := socket_names p ++ [name]; netlink_names := netlink_names p;
  keep_caps := keep_caps p; keep_cap_names := keep_cap_names p; warnings := warnings p |}.
Definition add_protocol (proto : Z) (name : string) (p : Policy) : Policy := {|
  source := source p; extra_syscalls := extra_syscalls p; extra_syscall_names := extra_syscall_names p;
  sockets := {| families := families (sockets p);
                netlink_protocols := netlink_protocols (sockets p) ++ [proto];
                netlink_all := netlink_all (sockets p) |};
  socket_names := socket_names p; netlink_names := netlink_names p ++ [name];
  keep_caps := keep_caps p; keep_cap_names := keep_cap_names p; warnings := warnings p |}.
Definition add_cap (c : Z) (name : string) (p : Policy) : Policy := {|
  source := source p; extra_syscalls := extra_syscalls p; extra_syscall_names := extra_syscall_names p;
  sockets := sockets p; socket_names := socket_names p; netlink_names := netlink_names p;
  keep_caps := keep_caps p ++ [c]; keep_cap_names := keep_cap_names p ++ [name]; warnings := warnings p |}.

Section parse.
Context `{Libc}.

Definition Parse := M Reading PolicyError.
Definition edit (f : Policy -> Policy) : Parse unit := modify (set_policy f).

Definition already (source : string) (lineno : Z) (arg what : string) : string :=
  source +:+ ":" +:+ pretty lineno +:+ ": " +:+ arg +:+ what.
Definition ALREADY_ALLOWED : string := " is already allowed by the base policy".
Definition ALREADY_KEPT : string := " is kept by every zone already".

(** [seen.insert]: whether the directive is new. *)
Definition note (d a : string) (source : string) (lineno : Z) : Parse unit :=
  was ← gets seen;
  reject_if (bool_decide ((d, a) ∈ was)) (Line source lineno (DuplicateDirective d a));;
  modify (fun r => {| policy := policy r; seen := (d, a) :: seen r |}).

Definition allow_syscall (source : string) (lineno : Z) (arg : string) : Parse unit :=
  nr ← require (syscall_by_name arg) (Line source lineno (UnknownSyscall arg));
  reject_if (is_denied nr) (Line source lineno (DeniedSyscall arg));;
  if contains BASE_ALLOWLIST nr
  then edit (add_warning (already source lineno arg ALREADY_ALLOWED))
  else edit (add_syscall nr arg).

Definition allow_socket (source : string) (lineno : Z) (arg : string) : Parse unit :=
  fam ← require (socket_family_by_name arg) (Line source lineno (UnknownFamily arg));
  if negb (fam =? AF_NETLINK) && contains BASE_SOCKET_FAMILIES fam
  then edit (add_warning (already source lineno arg ALREADY_ALLOWED))
  else edit (add_family fam arg).

Definition allow_netlink (source : string) (lineno : Z) (arg : string) : Parse unit :=
  proto ← require (netlink_protocol_by_name arg) (Line source lineno (UnknownProtocol arg));
  if proto =? NETLINK_ROUTE
  then edit (add_warning (already source lineno arg ALREADY_ALLOWED))
  else edit (add_protocol proto arg).

Definition keep_capability (source : string) (lineno : Z) (arg : string) : Parse unit :=
  c ← require (cap_by_name arg) (Line source lineno (UnknownCapability arg));
  reject_if (negb (contains KEEPABLE c)) (Line source lineno (NotKeepable arg));;
  if c =? KEEP
  then edit (add_warning (already source lineno arg ALREADY_KEPT))
  else edit (add_cap c arg).

Definition directive (source : string) (lineno : Z) (d a : string) : Parse unit :=
  if String.eqb d "allow-syscall" then allow_syscall source lineno a
  else if String.eqb d "allow-socket" then allow_socket source lineno a
  else if String.eqb d "allow-netlink" then allow_netlink source lineno a
  else if String.eqb d "keep-capability" then keep_capability source lineno a
  else fail (Line source lineno (UnknownDirective d)).

(** One turn of the loop over the lines. *)
Definition parse_line (source : string) (lineno : Z) (raw : list Z) : Parse unit :=
  match words (trim (before 35 raw)) with
  | [] => mret tt
  | [d; a] =>
    note (of_chars d) (of_chars a) source lineno;;
    directive source lineno (of_chars d) (of_chars a)
  | d :: _ => fail (Line source lineno (ExpectedOneArgument (of_chars d)))
  end.

Fixpoint parse_lines (source : string) (lineno : Z) (ls : list (list Z)) : Parse unit :=
  match ls with
  | [] => mret tt
  | raw :: ls => parse_line source lineno raw;; parse_lines source (lineno + 1) ls
  end.

Definition privsep_count (p : Policy) : Z := zlen (List.filter (contains (keep_caps p)) PRIVSEP).

Definition parse (text source : string) : outcome Policy PolicyError :=
  match parse_lines source 1 (lines (chars text)) {| policy := default_policy source; seen := [] |} with
  | (Done _, r) =>
    let privsep := privsep_count (policy r) in
    if negb (privsep =? 0) && negb (privsep =? zlen PRIVSEP)
    then Fail (Line source 0 KeptTogether)
    else Done (policy r)
  | (Fail e, _) => Fail e
  | (Panic, _) => Panic
  end.

(** [read] is [fs::read_to_string]: the text, or the message of the error. *)
Definition load (read : string -> string + string) (path : string) : outcome Policy PolicyError :=
  match read path with
  | inr err => Fail (Io path err)
  | inl text => parse text path
  end.

Definition is_absolute (given : string) : bool := String.prefix "/" given.

(** [zones_dir.join(p)] for a relative path, and an absolute one as given. *)
Definition resolve (join : string -> string -> string) (zones_dir given : string) : string :=
  if is_absolute given then given else join zones_dir given.
End parse.

(** ** A policy and its zone *)
Fixpoint first_nic_only (caps : list Z) (names : list string) : option string :=
  match caps, names with
  | c :: caps, name :: names => if contains NIC_ONLY c then Some name else first_nic_only caps names
  | _, _ => None
  end.

Definition check_for_zone (p : Policy) (zone_name : string) (network : NetworkMode)
    : result unit PolicyError :=
  if bool_decide (network <> Nic) then
    match first_nic_only (keep_caps p) (keep_cap_names p) with
    | Some name => Err (Line (source p) 0 (NicZoneOnly name zone_name network))
    | None => Ok tt
    end
  else Ok tt.

Definition describe (p : Policy) : string :=
  let parts : list string :=
    ((fun n => "+" +:+ n) <$> extra_syscall_names p)
    ++ ((fun n => "socket " +:+ n) <$> socket_names p)
    ++ ((fun n => "netlink " +:+ n) <$> netlink_names p)
    ++ ((fun n => "keep " +:+ n) <$> keep_cap_names p) in
  match parts with
  | [] => "no additions"
  | _ => String.concat ", " parts
  end.
