(* ===== verification/PolicySafe.v ===== *)
(** * What a policy file can add, and what it cannot

    The invariant of [parse]: every addition comes from the table of names it may be chosen
    from, once, so the additions are bounded, no denied call is among them, and only keepable
    capabilities are kept. *)
From S2P Require Import Prelude Bytes Text Zone Syscalls Bpf Caps Seccomp SeccompSpec Policy.
Open Scope string_scope.
Open Scope list_scope.
Open Scope Z_scope.

(** Names taken from directives [d] of the lines seen, each once. *)
Definition taken (d : string) (names : list string) (sn : list (string * string)) : Prop :=
  NoDup names /\ Forall (fun n => (d, n) ∈ sn) names.

Lemma taken_more d names sn x : taken d names sn -> taken d names (x :: sn).
Proof.
  intros [HN HF]. split; [done|]. eapply Forall_impl; [apply HF|]. intros. by constructor.
Qed.

Lemma taken_snoc d names sn a :
  taken d names sn -> (d, a) ∉ sn -> taken d (names ++ [a]) ((d, a) :: sn).
Proof.
  intros [HN HF] Hnew. split.
  - apply NoDup_app. split; [done|]. split; [|apply NoDup_singleton].
    intros n Hn ->%list_elem_of_singleton. rewrite Forall_forall in HF. by apply Hnew, HF.
  - apply Forall_app. split; [|repeat constructor].
    eapply Forall_impl; [apply HF|]. intros. by constructor.
Qed.

(** Distinct names of a table are no more than the table. *)
Lemma taken_len {B} (table : list (string * B)) names :
  NoDup names -> Forall (fun n => n ∈ table.*1) names -> zlen names <= zlen table.
Proof.
  intros HN HF. rewrite Forall_forall in HF. unfold zlen.
  rewrite <-(length_fmap fst table). apply inj_le, submseteq_length, NoDup_submseteq; auto.
Qed.

Lemma find_name_Some {B} (table : list (string * B)) n v :
  snd <$> List.find (fun p => String.eqb p.1 n) table = Some v -> (n, v) ∈ table.
Proof.
  destruct (List.find _ table) as [[m w]|] eqn:Hf; [|done]. intros E. injection E as <-.
  apply List.find_some in Hf as [Hin E%String.eqb_eq]. rewrite <-list_elem_of_In in Hin.
  cbn in E. by subst.
Qed.

Lemma elem_fst {A B} (table : list (A * B)) n v : (n, v) ∈ table -> n ∈ table.*1.
Proof. intros. apply list_elem_of_fmap. by exists (n, v). Qed.
Lemma elem_snd {A B} (table : list (A * B)) n v : (n, v) ∈ table -> v ∈ table.*2.
Proof. intros. apply list_elem_of_fmap. by exists (n, v). Qed.

Lemma af_netlink_name a : (a, AF_NETLINK) ∈ SOCKET_FAMILY_NAMES -> a = "AF_NETLINK".
Proof.
  assert (Forall (fun p => p.2 = AF_NETLINK -> p.1 = "AF_NETLINK") SOCKET_FAMILY_NAMES) as HF.
  { apply (bool_decide_unpack _). vm_compute. exact I. }
  rewrite Forall_forall in HF. intros Hin. by apply (HF (a, AF_NETLINK)).
Qed.

Lemma tables_len : zlen SOCKET_FAMILY_NAMES = 13 /\ zlen NETLINK_PROTOCOL_NAMES = 6.
Proof. done. Qed.

#[local] Opaque SOCKET_FAMILY_NAMES NETLINK_PROTOCOL_NAMES CAP_NAMES KEEPABLE BASE_SOCKET_FAMILIES.

Section safe.
Context `{LibcLaws}.

Record policy_ok (p : Policy) : Prop := {
  ok_calls : Forall2 (fun nr n => (n, nr) ∈ ADDABLE) (extra_syscalls p) (extra_syscall_names p);
  ok_fams : Forall (fun f => f ∈ SOCKET_FAMILY_NAMES.*2 /\ (f ∉ BASE_SOCKET_FAMILIES))
              (families (sockets p));
  ok_fams_len : zlen (families (sockets p)) <= zlen (socket_names p);
  ok_fam_names : Forall (fun n => n ∈ SOCKET_FAMILY_NAMES.*1) (socket_names p);
  ok_netlink_all : netlink_all (sockets p) = true -> "AF_NETLINK" ∈ socket_names p;
  ok_protos : Forall2 (fun v n => (n, v) ∈ NETLINK_PROTOCOL_NAMES /\ v <> NETLINK_ROUTE)
                (netlink_protocols (sockets p)) (netlink_names p);
  ok_caps : Forall2 (fun c n => (n, c) ∈ CAP_NAMES /\ c ∈ KEEPABLE /\ c <> KEEP)
              (keep_caps p) (keep_cap_names p);
}.

Record names_ok (p : Policy) (sn : list (string * string)) : Prop := {
  ok_call_once : taken "allow-syscall" (extra_syscall_names p) sn;
  ok_socket_once : taken "allow-socket" (socket_names p) sn;
  ok_netlink_once : taken "allow-netlink" (netlink_names p) sn;
  ok_cap_once : taken "keep-capability" (keep_cap_names p) sn;
}.

Definition reading_ok (r : Reading) : Prop := policy_ok (policy r) /\ names_ok (policy r) (seen r).

Lemma names_ok_more p sn x : names_ok p sn -> names_ok p (x :: sn).
Proof. intros []. split; by apply taken_more. Qed.

Lemma not_base_addable n nr :
  (n, nr) ∈ names -> is_denied nr = false -> (nr ∉ BASE_ALLOWLIST) -> (n, nr) ∈ ADDABLE.
Proof.
  intros Hin Hd Hb. unfold names in Hin. rewrite !elem_of_app in Hin. destruct Hin as [Hin|[Hin|?]]; [| |done].
  - exfalso. apply not_true_iff_false in Hd. apply Hd, is_denied_true.
    apply list_elem_of_fmap in Hin as (s & E & Hs). injection E as -> ->. eauto.
  - exfalso. apply Hb. unfold BASE_NAMES in Hin. unfold BASE_ALLOWLIST.
    apply elem_of_app in Hin as [(s & E & Hs)%list_elem_of_fmap|E%list_elem_of_singleton].
    + injection E as -> ->. apply elem_of_app. left. apply list_elem_of_fmap. eauto.
    + injection E as -> ->. apply elem_of_app. right. by apply list_elem_of_singleton.
Qed.

(** What every directive starts from: its own line just noted. *)
Definition noted (d a : string) (r : Reading) : Prop :=
  exists sn, policy_ok (policy r) /\ names_ok (policy r) sn /\ ((d, a) ∉ sn) /\ seen r = (d, a) :: sn.

Notation safe m := (fun r => wp m (fun _ => reading_ok) (fun _ _ => True) r).

Lemma safe_warn d a w r : noted d a r -> safe (edit (add_warning w)) r.
Proof.
  intros (sn & Hp & Hn & _ & Hs). apply wp_modify. destruct Hp, Hn.
  split; [by split|]. cbn. rewrite Hs. by split; apply taken_more.
Qed.

Lemma safe_allow_syscall src ln a r :
  noted "allow-syscall" a r -> safe (allow_syscall src ln a) r.
Proof.
  intros Hr. unfold allow_syscall. apply wp_bind, wp_require; [|done]. intros nr Hnr.
  apply wp_bind, wp_reject_if; [done|]. intros Hd.
  destruct (contains BASE_ALLOWLIST nr) eqn:Hb; [by eapply safe_warn|].
  destruct Hr as (sn & Hp & Hn & Hnew & Hs). apply contains_false in Hb.
  apply wp_modify. destruct Hp, Hn. split.
  - split; try done. cbn. apply Forall2_app; [done|]. constructor; [|constructor].
    apply not_base_addable; [by apply syscall_by_name_Some|done..].
  - cbn. rewrite Hs. split; [by apply taken_snoc|by apply taken_more..].
Qed.

Lemma safe_allow_socket src ln a r :
  noted "allow-socket" a r -> safe (allow_socket src ln a) r.
Proof.
  intros Hr. unfold allow_socket. apply wp_bind, wp_require; [|done]. intros fam Hf%find_name_Some.
  destruct (negb _ && _) eqn:Hb; [by eapply safe_warn|].
  destruct Hr as (sn & Hp & Hn & Hnew & Hs). apply wp_modify. destruct Hp, Hn. split.
  - cbn. unfold add_family. destruct (Z.eqb_spec fam AF_NETLINK) as [->|E]; split; cbn; try done.
    + rewrite zlen_app. pose proof (zlen_nonneg [a]). lia.
    + apply Forall_app. split; [done|]. apply Forall_singleton. by eapply elem_fst.
    + intros _. apply elem_of_app. right. apply list_elem_of_singleton.
      by rewrite (af_netlink_name a).
    + apply Forall_app. split; [done|]. constructor; [|constructor].
      split; [by eapply elem_snd|]. by apply contains_false.
    + rewrite !zlen_app. change (zlen [fam]) with 1. change (zlen [a]) with 1. lia.
    + apply Forall_app. split; [done|]. apply Forall_singleton. by eapply elem_fst.
    + intros Ha. apply elem_of_app. auto.
  - cbn. rewrite Hs. split; [by apply taken_more|by apply taken_snoc|by apply taken_more..].
Qed.

Lemma safe_allow_netlink src ln a r :
  noted "allow-netlink" a r -> safe (allow_netlink src ln a) r.
Proof.
  intros Hr. unfold allow_netlink. apply wp_bind, wp_require; [|done]. intros v Hv%find_name_Some.
  destruct (Z.eqb_spec v NETLINK_ROUTE); [by eapply safe_warn|].
  destruct Hr as (sn & Hp & Hn & Hnew & Hs). apply wp_modify. destruct Hp, Hn. split.
  - split; cbn; try done. apply Forall2_app; [done|]. constructor; [done|constructor].
  - cbn. rewrite Hs. split; [by apply taken_more|by apply taken_more|by apply taken_snoc|by apply taken_more].
Qed.

Lemma safe_keep_capability src ln a r :
  noted "keep-capability" a r -> safe (keep_capability src ln a) r.
Proof.
  intros Hr. unfold keep_capability. apply wp_bind, wp_require; [|done]. intros c Hc%find_name_Some.
  apply wp_bind, wp_reject_if; [done|]. intros Hk%negb_false_iff%contains_true.
  destruct (Z.eqb_spec c KEEP); [by eapply safe_warn|].
  destruct Hr as (sn & Hp & Hn & Hnew & Hs). apply wp_modify. destruct Hp, Hn. split.
  - split; cbn; try done. apply Forall2_app; [done|]. constructor; [done|constructor].
  - cbn. rewrite Hs. split; [by apply taken_more..|by apply taken_snoc].
Qed.

Lemma safe_directive src ln d a r : noted d a r -> safe (directive src ln d a) r.
Proof.
  intros Hr. unfold directive.
  destruct (String.eqb_spec d "allow-syscall") as [->|]; [by apply safe_allow_syscall|].
  destruct (String.eqb_spec d "allow-socket") as [->|]; [by apply safe_allow_socket|].
  destruct (String.eqb_spec d "allow-netlink") as [->|]; [by apply safe_allow_netlink|].
  destruct (String.eqb_spec d "keep-capability") as [->|]; [by apply safe_keep_capability|].
  by apply wp_fail.
Qed.

Lemma safe_note src ln d a r :
  reading_ok r -> wp (note d a src ln) (fun _ => noted d a) (fun _ _ => True) r.
Proof.
  intros [Hp Hn]. unfold note. apply wp_bind, wp_gets, wp_bind, wp_reject_if; [done|].
  intros Hnew%bool_decide_eq_false. apply wp_modify. by exists (seen r).
Qed.

Lemma safe_parse_line src ln raw r : reading_ok r -> safe (parse_line src ln raw) r.
Proof.
  intros Hr. unfold parse_line. destruct (words _) as [|d [|a [|x l]]]; [by apply wp_ret|by apply wp_fail| |by apply wp_fail].
  apply wp_bind. eapply wp_mono; [..|by apply safe_note]; [|done].
  intros [] r' Hr'. by apply safe_directive.
Qed.

Lemma safe_parse_lines src ln ls r : reading_ok r -> safe (parse_lines src ln ls) r.
Proof.
  revert ln r. induction ls as [|raw ls IH]; intros ln r Hr; cbn [parse_lines]; [by apply wp_ret|].
  apply wp_bind. eapply wp_mono; [..|by apply safe_parse_line]; [|done]. intros [] r' Hr'. by apply IH.
Qed.

Lemma default_ok src : reading_ok {| policy := default_policy src; seen := [] |}.
Proof. split; split; cbn; try done; split; try done; by constructor. Qed.

(** [parse] ends with a policy or an error, and a policy it gives is well-formed. *)
Definition parsed_ok (p : Policy) : Prop :=
  policy_ok p /\ NoDup (extra_syscall_names p) /\ NoDup (socket_names p)
  /\ NoDup (netlink_names p) /\ NoDup (keep_cap_names p)
  /\ ((forall c, c ∈ PRIVSEP -> c ∈ keep_caps p) \/ (forall c, c ∈ PRIVSEP -> c ∉ keep_caps p)).

Lemma privsep_all_or_none p :
  negb (privsep_count p =? 0) && negb (privsep_count p =? zlen PRIVSEP) = false ->
  (forall c, c ∈ PRIVSEP -> c ∈ keep_caps p) \/ (forall c, c ∈ PRIVSEP -> c ∉ keep_caps p).
Proof.
  unfold privsep_count, PRIVSEP. cbn [List.filter].
  destruct (contains (keep_caps p) SETUID) eqn:E1, (contains (keep_caps p) SETGID) eqn:E2,
    (contains (keep_caps p) SYS_CHROOT) eqn:E3; try done; intros _.
  - left. rewrite contains_true in E1, E2, E3. set_solver.
  - right. rewrite contains_false in E1, E2, E3. set_solver.
Qed.

Lemma parse_ok text src :
  match parse text src with Done p => parsed_ok p | Fail _ => True | Panic => False end.
Proof.
  pose proof (safe_parse_lines src 1 (lines (chars text)) _ (default_ok src)) as Hw.
  unfold parse, wp in *. destruct (parse_lines _ _ _ _) as [[[]|e|] r]; [|done..].
  cbv zeta. destruct (_ && _) eqn:Hc; [done|]. destruct Hw as [Hp [[][][][]]].
  split_and!; try done. by apply privsep_all_or_none.
Qed.

(** ** What follows for the filter *)
Lemma parsed_short p : parsed_ok p -> short (sockets p).
Proof.
  intros (Hp & _ & Hs & Hn & _ & _). destruct Hp. unfold short.
  pose proof (taken_len SOCKET_FAMILY_NAMES (socket_names p) Hs ok_fam_names0) as L1.
  assert (zlen (netlink_names p) <= zlen NETLINK_PROTOCOL_NAMES) as L2.
  { apply taken_len; [done|]. eapply Forall2_Forall_r; [done|].
    apply Forall_forall. intros v _ n [Hin _]. by eapply elem_fst. }
  apply Forall2_length in ok_protos0.
  destruct tables_len. unfold zlen in *. lia.
Qed.

Lemma parsed_extra_len p : parsed_ok p -> zlen (extra_syscalls p) <= zlen ADDABLE.
Proof.
  intros (Hp & Hc & _). destruct Hp. pose proof (Forall2_length _ _ _ ok_calls0) as E.
  unfold zlen at 1. rewrite E. apply taken_len; [done|]. eapply Forall2_Forall_r; [done|].
  apply Forall_forall. intros v _ n Hin. by eapply elem_fst.
Qed.

Lemma parsed_extra p nr : parsed_ok p -> nr ∈ extra_syscalls p ->
  exists s, s ∈ ADDABLE_CALLS /\ nr = SYS s.
Proof.
  intros (Hp & _) [i Hi]%list_elem_of_lookup. destruct Hp.
  destruct (Forall2_lookup_l _ _ _ _ _ ok_calls0 Hi) as (n & _ & Hin).
  apply list_elem_of_fmap in Hin as (s & E & Hs). injection E as _ ->. eauto.
Qed.
End safe.
