(* ===== verification/Images.v ===== *)
(** * Software images: src/compartments/kryptikd/src/images.rs

    The signed list of images, the checks of a zone's images against it, and the opening and
    stacking of them over /usr. Whether a signature is the release key's is the parameter [check];
    the system and veritysetup answer through [Tools.Sys]. *)
From S2P Require Import Prelude Bytes Text Zone Syscalls Bpf Caps Seccomp Policy Registry Tools Volume Wifi.
Open Scope string_scope.
Open Scope list_scope.
Open Scope Z_scope.

Module Images.
Import Tools.

Definition MAGIC : list Z := Eval vm_compute in chars "KRYPTIK-IMAGES-1".
Definition STORE : path := Eval vm_compute in chars "/var/lib/kryptik/images".
Definition LIST_MAX : Z := 64 * 1024.
Definition SIG_MAX : Z := 8 * 1024.
Definition MOUNTS : path := Eval vm_compute in chars "/run/kryptik/images".
Definition SETS : path := Eval vm_compute in chars "/run/kryptik/usr".
Definition LOCK : path := Eval vm_compute in chars "/run/kryptik/images.lock".
Definition IMAGE_MAX : Z := Z.shiftl 16 30.
Definition BLOCK : Z := 4096.

Record Image := mkImage {
  i_name : list Z; i_version : list Z; i_bytes : Z; i_sha256 : list Z;
  i_data_blocks : Z; i_root_hash : list Z; i_salt : list Z
}.
Record Manifest := mkManifest {
  m_release : list Z; m_base : list Z; m_images : list Image;
  m_requires : list (list Z * list (list Z)); m_needs : list (list Z * list Z)
}.

Inductive ImageError :=
| NoNewline | NotMagic | NoField (key : string) | BadRelease | BadBase
| ImageLate | BadImage | NoRoom (name : list Z) | ImageOrder (name : list Z)
| RequiresLate | RequiresUnknown (name : list Z) | RequiresNone (name : list Z)
| RequiresBad (name r : list Z) | RequiresOrder (name : list Z)
| NeedsNoLine | NeedsUnknown (name : list Z) | NeedsOrder (name : list Z) | NeedsPolicy (e : PolicyError)
| BadLine (line : list Z) | NoImages
| NotGranted (image line : list Z) | NotNamed (image r : list Z)
| NotRoot | LockFault | FileFault (p : path) | NotRegular (p : path) | TooLarge (p : path) | NoVerityRoot
| NoList | Refused | NotText | OtherRoot | NotListed (name : list Z)
| NotRootOnly (name : list Z) | WrongSize (name : list Z) | ToolFault (code : Z) | OtherMapping (name : list Z)
| Corrupted (name : list Z) | NoUsr (name : list Z) | HasNul | MountFault (at_ : path) | OtherStack (at_ : path).

(** ** The list *)
Definition hex64 (s : list Z) : bool := (zlen s =? 64) && forallb (fun b => between 48 57 b || between 97 102 b) s.
Definition version_ok (s : list Z) : bool := between 1 64 (zlen s) && forallb is_graphic s.
Definition number (s : list Z) : option Z :=
  if bool_decide (s = []) || ((1 <? zlen s) && bool_decide (head s = Some 48)) || negb (forallb is_digit s) then None
  else parse_u64 s.
Definition valid_image (s : list Z) : bool := valid_name (of_chars s).

(** [w.strip_prefix(key).and_then(|v| v.strip_prefix('='))]. *)
Definition value (w : list Z) (key : string) : option (list Z) := v ← strip_prefix (chars key) w; strip_prefix [61] v.
Definition keep_if {A} (f : A -> bool) (o : option A) : option A := a ← o; if f a then Some a else None.

Definition image_line (rest : list Z) : result Image ImageError :=
  match split 32 rest with
  | [name; version; bytes; sha256; data_blocks; root_hash; salt] =>
    if negb (valid_image name) || negb (version_ok version) then Err BadImage
    else
      (let? bytes := ok_or (value bytes "bytes" ≫= number) BadImage in
       let? sha256 := ok_or (keep_if hex64 (value sha256 "sha256")) BadImage in
       let? data_blocks := ok_or (value data_blocks "data-blocks" ≫= number) BadImage in
       let? root_hash := ok_or (keep_if hex64 (value root_hash "root-hash")) BadImage in
       let? salt := ok_or (keep_if hex64 (value salt "salt")) BadImage in
       let data := keep_if (fun d => 0 <? d) (keep_if (fun d => d <=? U64_MAX) (Some (data_blocks * BLOCK))) in
       if negb (match data with Some d => d <? bytes | None => false end) || negb (bytes mod BLOCK =? 0) || (IMAGE_MAX <? bytes)
       then Err (NoRoom name)
       else Ok (mkImage name version bytes sha256 data_blocks root_hash salt))%result
  | _ => Err BadImage
  end.

Section list.
Context `{Libc}.

(** [images], [requires] and [needs] of [parse]. *)
Record Listing := mkListing { l_images : list Image; l_requires : list (list Z * list (list Z)); l_needs : list (list Z * list Z) }.
Abbreviation LP := (M Listing ImageError).

(** [images.iter().position(|i| i.name == name)]. *)
Fixpoint position (name : list Z) (images : list Image) : option nat :=
  match images with
  | [] => None
  | i :: images => if bool_decide (i_name i = name) then Some O else S <$> position name images
  end.
(** The place of the image the last line was for. *)
Definition last_at {A} (images : list Image) (ls : list (list Z * A)) : option nat :=
  x ← last ls; position x.1 images.

Definition read_image (rest : list Z) : LP unit :=
  s ← gets id;
  reject_if (negb (bool_decide (l_requires s = [])) || negb (bool_decide (l_needs s = []))) ImageLate;;
  img ← lift (image_line rest);
  reject_if (match last (l_images s) with Some l => Volume.text_leb (i_name img) (i_name l) | None => false end) (ImageOrder (i_name img));;
  modify (fun s => mkListing (l_images s ++ [img]) (l_requires s) (l_needs s)).

Fixpoint check_reqs (name : list Z) (images : list Image) (seen reqs : list (list Z)) : result unit ImageError :=
  match reqs with
  | [] => Ok tt
  | r :: reqs =>
    if bool_decide (r = name) || negb (existsb (fun i => bool_decide (i_name i = r)) images) || bool_decide (r ∈ seen)
    then Err (RequiresBad name r)
    else check_reqs name images (seen ++ [r]) reqs
  end.
Definition read_requires (rest : list Z) : LP unit :=
  s ← gets id;
  reject_if (negb (bool_decide (l_needs s = []))) RequiresLate;;
  let words := split 32 rest in
  let name := default [] (head words) in
  let reqs := tail words in
  at_ ← require (position name (l_images s)) (RequiresUnknown name);
  reject_if (bool_decide (reqs = [])) (RequiresNone name);;
  lift (check_reqs name (l_images s) [] reqs);;
  reject_if (match last_at (l_images s) (l_requires s) with Some l => Nat.leb at_ l | None => false end) (RequiresOrder name);;
  modify (fun s => mkListing (l_images s) (l_requires s ++ [(name, reqs)]) (l_needs s)).

(** [policy::parse(what, "the image list")]. *)
Definition policy_line (what : list Z) : LP Policy := fun s =>
  match Policy.parse (of_chars what) "the image list" with
  | Done p => (Done p, s) | Fail e => (Fail (NeedsPolicy e), s) | Panic => (Panic, s)
  end.
Definition read_needs (rest : list Z) : LP unit :=
  s ← gets id;
  nw ← require (split_once 32 rest) NeedsNoLine;
  let '(name, what) := nw in
  at_ ← require (position name (l_images s)) (NeedsUnknown name);
  reject_if (match last_at (l_images s) (l_needs s) with Some l => Nat.ltb at_ l | None => false end) (NeedsOrder name);;
  policy_line what;;
  modify (fun s => mkListing (l_images s) (l_requires s) (l_needs s ++ [(name, what)])).

Definition IMAGE : list Z := Eval vm_compute in chars "image: ".
Definition REQUIRES : list Z := Eval vm_compute in chars "requires: ".
Definition NEEDS : list Z := Eval vm_compute in chars "needs: ".
Definition read_line (line : list Z) : LP unit :=
  match strip_prefix IMAGE line with
  | Some rest => read_image rest
  | None =>
    match strip_prefix REQUIRES line with
    | Some rest => read_requires rest
    | None =>
      match strip_prefix NEEDS line with
      | Some rest => read_needs rest
      | None => fail (BadLine line)
      end
    end
  end.

Definition field (line : option (list Z)) (key : string) : result (list Z) ImageError :=
  ok_or (l ← line; v ← strip_prefix (chars key) l; strip_prefix [58; 32] v) (NoField key).
Definition parse (text : list Z) : outcome Manifest ImageError :=
  match strip_suffix 10 text with
  | None => Fail NoNewline
  | Some body =>
    let ls := split 10 body in
    if negb (bool_decide (head ls = Some MAGIC)) then Fail NotMagic
    else
      match (let? release := field (ls !! 1%nat) "release" in
             if negb (version_ok release) then Err BadRelease
             else let? base := field (ls !! 2%nat) "base" in
                  if negb (hex64 base) then Err BadBase else Ok (release, base))%result with
      | Err e => Fail e
      | Ok (release, base) =>
        match for_each (drop 3 ls) read_line (mkListing [] [] []) with
        | (Done _, s) => if bool_decide (l_images s = []) then Fail NoImages
                         else Done (mkManifest release base (l_images s) (l_requires s) (l_needs s))
        | (Fail e, _) => Fail e
        | (Panic, _) => Panic
        end
      end
  end.

(** ** The running root, and what a zone may have *)
(** What follows the first [needle]. *)
Fixpoint after_text (needle cs : list Z) : option (list Z) :=
  match strip_prefix needle cs with
  | Some rest => Some rest
  | None => match cs with [] => None | _ :: cs => after_text needle cs end
  end.
Fixpoint after_word (w : list Z) (ws : list (list Z)) : option (list (list Z)) :=
  match ws with
  | [] => None
  | x :: ws => if bool_decide (x = w) then Some ws else after_word w ws
  end.
Definition root_hash_from (cmdline : list Z) : option (list Z) :=
  rest ← after_text (chars "dm-mod.create=" ++ [34]) cmdline;
  q ← split_once 34 rest;
  table ← List.find (fun d => bool_decide (is_Some (strip_prefix (chars "kroot,") d))) (split 59 q.1);
  ws ← after_word (chars "verity") (words table);
  ws ← after_word (chars "sha256") ws;
  keep_if hex64 (head ws).

Definition holds (want : list string) (have : option (list string)) : bool :=
  forallb (fun w => match have with Some h => bool_decide (w ∈ h) | None => false end) want.
Definition need_ok (need : Policy) (granted : option Policy) : bool :=
  holds (extra_syscall_names need) (extra_syscall_names <$> granted) && holds (socket_names need) (socket_names <$> granted)
  && holds (netlink_names need) (netlink_names <$> granted) && holds (keep_cap_names need) (keep_cap_names <$> granted).
Fixpoint needs_among (image : list Z) (granted : option Policy) (needs : list (list Z * list Z)) : outcome unit ImageError :=
  match needs with
  | [] => Done tt
  | (n, line) :: needs =>
    if negb (bool_decide (n = image)) then needs_among image granted needs
    else
      match Policy.parse (of_chars line) "the image list" with
      | Done need => if negb (need_ok need granted) then Fail (NotGranted image line) else needs_among image granted needs
      | Fail e => Fail (NeedsPolicy e)
      | Panic => Panic
      end
  end.
Definition needs_met (m : Manifest) (image : list Z) (granted : option Policy) : outcome unit ImageError :=
  needs_among image granted (m_needs m).

Fixpoint requires_among (named : list (list Z)) (requires : list (list Z * list (list Z))) : result unit ImageError :=
  match requires with
  | [] => Ok tt
  | (image, reqs) :: requires =>
    if negb (bool_decide (image ∈ named)) then requires_among named requires
    else
      match List.find (fun r => negb (bool_decide (r ∈ named))) reqs with
      | Some r => Err (NotNamed image r)
      | None => requires_among named requires
      end
  end.
Definition requires_met (m : Manifest) (named : list (list Z)) : result unit ImageError := requires_among named (m_requires m).
End list.

(** ** Opening and stacking *)
Definition slice_to {S} (n : Z) (h : list Z) : M S ImageError (list Z) := if zlen h <? n then panic else mret (take (Z.to_nat n) h).
Definition part {S} (i : Image) : M S ImageError (list Z) := h ← slice_to 16 (i_root_hash i); mret (i_name i ++ [45] ++ h).
Fixpoint parts {S} (images : list Image) : M S ImageError (list (list Z)) :=
  match images with
  | [] => mret []
  | i :: images => p ← part i; ps ← parts images; mret (p :: ps)
  end.
Definition set_dir {S} (images : list Image) : M S ImageError path :=
  ps ← parts images; mret (SETS ++ [47] ++ Wifi.join 43 ps).

(** The topmost mount at [at_] decides. *)
Definition options_at (at_ l : list Z) : option (list Z) :=
  let f := words l in if (4 <=? zlen f) && bool_decide (f !! 1%nat = Some at_) then f !! 3%nat else None.
Definition stacked (mounts : list Z) (at_ : path) (lowerdir : list Z) : result bool ImageError :=
  match last (omap (options_at at_) (lines mounts)) with
  | None => Ok false
  | Some o => if bool_decide (lowerdir ∈ split 44 o) then Ok true else Err (OtherStack at_)
  end.

Definition status_field (status : list Z) (key : string) : option (list Z) :=
  trim <$> find_map (fun l => strip_prefix (chars key) (trim l)) (lines status).
Definition status_of (status root_hash : list Z) : bool * bool :=
  (bool_decide (status_field status "type:" = Some (chars "VERITY")) && bool_decide (status_field status "root hash:" = Some root_hash),
   existsb (fun l => bool_decide (words l = [chars "status:"; chars "corrupted"])) (lines status)).

Section calls.
Context `{Libc} (sys : Sys) (check : bytes -> bytes -> bool).
Abbreviation IM := (TM ImageError).

Definition MOUNT_FLAGS : Z := Z.lor 1 (Z.lor 2 4).
Definition mount (src at_ fstype data : list Z) : IM unit :=
  reject_if (existsb (existsb (Z.eqb 0)) [src; at_; fstype; data]) HasNul;;
  called sys (Mount src at_ fstype MOUNT_FLAGS data) (MountFault at_).

Definition read_bounded (p : path) (max : Z) : IM bytes :=
  md ← called sys (Lstat p) (FileFault p);
  reject_if (negb (md_file md)) (NotRegular p);;
  md ← called sys (OpenFile p) (FileFault p);
  reject_if (negb (md_file md)) (NotRegular p);;
  data ← called sys (ReadFile p) (FileFault p);
  let got := take (Z.to_nat (max + 1)) data in
  reject_if (max <? zlen got) (TooLarge p);;
  mret got.

(** [parse(from_utf8(text)?)?]. *)
Definition parse_bytes (text : bytes) : IM Manifest :=
  cs ← require (utf8 text) NotText;
  match parse cs with Done m => mret m | Fail e => fail e | Panic => panic end.

Definition list_path (base : list Z) : path := STORE ++ [47] ++ base ++ chars ".manifest".
Definition sig_path (base : list Z) : path := STORE ++ [47] ++ base ++ chars ".manifest.sig".
Definition verified_list (base : list Z) : IM Manifest :=
  r ← tried (read_bounded (list_path base) LIST_MAX);
  text ← match r with Ok t => mret t | Err _ => slice_to 12 base;; fail NoList end;
  sig ← read_bounded (sig_path base) SIG_MAX;
  reject_if (negb (check text sig)) Refused;;
  m ← parse_bytes text;
  reject_if (negb (bool_decide (m_base m = base))) OtherRoot;;
  mret m.

Definition image_file (i : Image) : path := STORE ++ [47] ++ i_name i ++ [47] ++ i_root_hash i ++ chars ".img".
Definition image_mapper (i : Image) : list Z := chars "kryptik-image-" ++ i_name i ++ [45] ++ i_root_hash i.
Definition image_dev (i : Image) : path := chars "/dev/mapper/" ++ image_mapper i.
Definition image_at (i : Image) : path := MOUNTS ++ [47] ++ i_name i ++ [47] ++ i_root_hash i.
Definition usr_of (at_ : path) : path := at_ ++ chars "/usr".
Definition verity_args (i : Image) : list (list Z) :=
  Volume.lits ["open"; "--no-superblock"; "--hash=sha256"; "--data-block-size=4096"; "--hash-block-size=4096"] ++
  [chars "--data-blocks=" ++ Registry.show_num (i_data_blocks i); chars "--hash-offset=" ++ Registry.show_num (i_data_blocks i * BLOCK);
   chars "--salt=" ++ i_salt i; image_file i; image_mapper i; image_file i; i_root_hash i].
(** The mapping found under the image's name, or made. *)
Definition map_image (i : Image) : IM unit :=
  there ← call sys (Exists (image_dev i));
  if there : bool then
    r ← call sys (Run "veritysetup" (Volume.lits ["status"] ++ [image_mapper i]) None);
    status ← match r with Ok s => mret s | Err code => fail (ToolFault code) end;
    let '(its, corrupted) := status_of status (i_root_hash i) in
    reject_if (negb its) (OtherMapping (i_name i));;
    reject_if corrupted (Corrupted (i_name i))
  else
    (if U64_MAX <? i_data_blocks i * BLOCK then panic else mret tt);;
    r ← call sys (Run "veritysetup" (verity_args i) None);
    match r with Ok _ => mret tt | Err code => fail (ToolFault code) end.
Definition open (i : Image) : IM path :=
  md ← called sys (Lstat (image_file i)) (FileFault (image_file i));
  reject_if (negb (md_file md) || negb (md_uid md =? 0) || negb (Z.land (md_mode md) 18 =? 0)) (NotRootOnly (i_name i));;
  reject_if (negb (md_len md =? i_bytes i)) (WrongSize (i_name i));;
  map_image i;;
  mounted ← Volume.is_mountpoint sys (image_at i);
  when (negb mounted) (
    called sys (MkdirAll (image_at i)) (FileFault (image_at i));;
    mount (image_dev i) (image_at i) (chars "ext4") (chars "noload"));;
  r ← call sys (Lstat (usr_of (image_at i)));
  reject_if (negb (match r with Ok md => md_dir md | Err _ => false end)) (NoUsr (i_name i));;
  mret (image_at i).
Fixpoint open_all (images : list Image) : IM (list path) :=
  match images with
  | [] => mret []
  | i :: images => at_ ← open i; rest ← open_all images; mret (usr_of at_ :: rest)
  end.

(** The names the zone's file gives: each in the list, and what it needs granted. *)
Fixpoint check_named (m : Manifest) (chosen : list Image) (granted : option Policy) (names : list (list Z)) : IM unit :=
  match names with
  | [] => mret tt
  | name :: names =>
    reject_if (negb (existsb (fun i => bool_decide (i_name i = name)) chosen)) (NotListed name);;
    match needs_met m name granted with Done _ => mret tt | Fail e => fail e | Panic => panic end;;
    check_named m chosen granted names
  end.
Definition lowerdir_of (lower : list path) : list Z := chars "lowerdir=" ++ Wifi.join 58 (lower ++ [chars "/usr"]).
Definition prepare (euid : Z) (zone : Zone) (granted : option Policy) : IM path :=
  let named := chars <$> z_images zone in
  reject_if (negb (euid =? 0)) NotRoot;;
  locked ← call sys (Flock LOCK);
  reject_if (negb locked) LockFault;;
  cmdline ← called sys (ReadText (chars "/proc/cmdline")) (FileFault (chars "/proc/cmdline"));
  base ← require (root_hash_from cmdline) NoVerityRoot;
  m ← verified_list base;
  let chosen := List.filter (fun i => bool_decide (i_name i ∈ named)) (m_images m) in
  check_named m chosen granted named;;
  lift (requires_met m named);;
  lower ← open_all chosen;
  set ← set_dir chosen;
  let lowerdir := lowerdir_of lower in
  mounts ← called sys (ReadText (chars "/proc/self/mounts")) (FileFault (chars "/proc/self/mounts"));
  there ← lift (stacked mounts set lowerdir);
  when (negb there) (
    called sys (MkdirAll set) (FileFault set);;
    mount (chars "kryptik-usr") set (chars "overlay") (lowerdir ++ chars ",redirect_dir=nofollow"));;
  mret set.

(** ** A medium's images *)
Fixpoint check_sizes (dir : path) (images : list Image) : IM unit :=
  match images with
  | [] => mret tt
  | i :: images =>
    let file := slash dir (i_name i ++ chars ".img") in
    md ← called sys (Lstat file) (FileFault file);
    reject_if (negb (md_file md) || negb (md_len md =? i_bytes i)) (WrongSize (i_name i));;
    check_sizes dir images
  end.
Definition check_medium_with (dir : path) (base : list Z) (out : option path) : IM (Z * list Z) :=
  text ← read_bounded (slash dir (chars "images.manifest")) LIST_MAX;
  sig ← read_bounded (slash dir (chars "images.manifest.sig")) SIG_MAX;
  reject_if (negb (check text sig)) Refused;;
  m ← parse_bytes text;
  reject_if (negb (bool_decide (m_base m = base))) OtherRoot;;
  check_sizes dir (m_images m);;
  match out with
  | None => mret tt
  | Some out =>
    called sys (WriteWhole (slash out (chars "images.manifest")) text 384) (FileFault out);;
    called sys (WriteWhole (slash out (chars "images.manifest.sig")) sig 384) (FileFault out)
  end;;
  mret (zlen (m_images m), m_release m).
End calls.
End Images.
