(* ===== verification/ImagesClaims.v ===== *)
(** * The image list, read and written

    The lines the parser of images.rs takes are exactly those a well-formed list prints:
    canonical numbers, fields in their places, images sorted, what each requires and needs after. *)
From stdpp Require Import sorting pretty.
From S2P Require Import Prelude Bytes Text Zone Syscalls Bpf Caps Seccomp Policy PolicySafe Registry RegistryClaims Tools Volume Wifi WifiClaims Images.
Open Scope string_scope.
Open Scope list_scope.
Open Scope Z_scope.
Import Tools Images Registry.

(** ** Texts taken apart *)
Lemma split_from_join c acc cs : c ∉ acc ->
  split_from c acc cs <> [] /\ Forall (fun x => c ∉ x) (split_from c acc cs) /\ Wifi.join c (split_from c acc cs) = reverse acc ++ cs.
Proof.
  revert acc. induction cs as [|x cs IH]; intros acc Ha; cbn [split_from].
  - split_and!; [done|by repeat constructor; rewrite elem_of_reverse|]. cbn. by rewrite app_nil_r.
  - destruct (Z.eqb_spec x c) as [->|Hn].
    + destruct (IH [] ltac:(set_solver)) as (Hne & Hf & Hj). split_and!; [done|by constructor; [rewrite elem_of_reverse|]|].
      destruct (split_from c [] cs) as [|y ys]; [done|]. change (reverse acc ++ c :: Wifi.join c (y :: ys) = reverse acc ++ c :: cs). by rewrite Hj.
    + destruct (IH (x :: acc) ltac:(set_solver)) as (Hne & Hf & Hj). split_and!; [done..|]. by rewrite Hj, reverse_cons, <- app_assoc.
Qed.
Lemma split_iff c cs ls : split c cs = ls <-> ls <> [] /\ Forall (fun x => c ∉ x) ls /\ cs = Wifi.join c ls.
Proof.
  split.
  - intros <-. destruct (split_from_join c [] cs ltac:(set_solver)) as (? & ? & Hj). done.
  - intros (Hne & Hf & ->). by apply split_join.
Qed.
Lemma unlines_join ls : ls <> [] -> unlines ls = Wifi.join 10 ls ++ [10].
Proof.
  intros Hne. unfold unlines. induction ls as [|l ls IH]; [done|]. rewrite join_fmap_cons. destruct ls as [|l' ls]; [by rewrite app_nil_r|].
  rewrite IH by done. change (Wifi.join 10 (l :: l' :: ls)) with (l ++ 10 :: Wifi.join 10 (l' :: ls)). by rewrite <- !app_assoc.
Qed.

(** ** Numbers as they are printed *)
Definition canonical (s : list Z) : Prop := s <> [] /\ Forall (fun c => 48 <= c <= 57) s /\ (head s = Some 48 -> s = [48]).
Lemma digits_from_total acc s : Forall (fun c => 48 <= c <= 57) s -> is_Some (digits_from acc s).
Proof.
  revert acc. induction s as [|c s IH]; intros acc H; cbn; [eauto|]. apply Forall_cons in H as [Hc H]. unfold between.
  rewrite (proj2 (Z.leb_le _ _)), (proj2 (Z.leb_le _ _)) by lia. by apply IH.
Qed.
Lemma digits_from_cons acc c s : 48 <= c <= 57 -> digits_from acc (c :: s) = digits_from (acc * 10 + (c - 48)) s.
Proof. intros H. cbn. unfold between. by rewrite (proj2 (Z.leb_le _ _)), (proj2 (Z.leb_le _ _)) by lia. Qed.
Lemma digits_from_lower s : forall acc v, Forall (fun c => 48 <= c <= 57) s -> digits_from acc s = Some v ->
  acc * 10 ^ zlen s <= v < (acc + 1) * 10 ^ zlen s.
Proof.
  induction s as [|c s IH]; intros acc v Hs H.
  - cbn in H. injection H as <-. rewrite zlen_nil, Z.pow_0_r. lia.
  - apply Forall_cons in Hs as [Hc Hs]. rewrite digits_from_cons in H by done. apply IH in H; [|done].
    rewrite zlen_cons, Z.pow_add_r by (pose proof (zlen_nonneg s); lia). change (10 ^ 1) with 10.
    assert (0 < 10 ^ zlen s) by (apply Z.pow_pos_nonneg; [lia|apply zlen_nonneg]). nia.
Qed.
Lemma digits_from_inj s : forall s' a a' v, Forall (fun c => 48 <= c <= 57) s -> Forall (fun c => 48 <= c <= 57) s' -> length s = length s' ->
  digits_from a s = Some v -> digits_from a' s' = Some v -> a = a' /\ s = s'.
Proof.
  induction s as [|c s IH]; intros [|c' s'] a a' v Hs Hs' Hl H H'; try done.
  - cbn in *. split; [congruence|done].
  - apply Forall_cons in Hs as [Hc Hs], Hs' as [Hc' Hs']. rewrite digits_from_cons in H, H' by done. injection Hl as Hl.
    destruct (IH s' _ _ v Hs Hs' Hl H H') as [He ->]. split; [|f_equal]; lia.
Qed.
Lemma canonical_inj s s' v : canonical s -> canonical s' -> digits_from 0 s = Some v -> digits_from 0 s' = Some v -> s = s'.
Proof.
  intros (Hne & Hs & Hz) (Hne' & Hs' & Hz') H H'.
  assert (forall s, s <> [] -> Forall (fun c => 48 <= c <= 57) s -> (head s = Some 48 -> s = [48]) -> digits_from 0 s = Some v ->
    v = 0 /\ s = [48] \/ 10 ^ (zlen s - 1) <= v < 10 ^ zlen s) as Hr.
  { intros [|c l] Hn Hl Hh Hd; [done|]. apply Forall_cons in Hl as [Hc Hl]. rewrite digits_from_cons in Hd by done.
    destruct (decide (c = 48)) as [->|Hn48]; [specialize (Hh eq_refl) as [= ->]; cbn [digits_from] in Hd; injection Hd as <-; left; split; [lia|done]|].
    right. apply digits_from_lower in Hd; [|done]. rewrite zlen_cons. replace (1 + zlen l - 1) with (zlen l) by lia.
    rewrite Z.pow_add_r by (pose proof (zlen_nonneg l); lia). change (10 ^ 1) with 10.
    assert (0 < 10 ^ zlen l) by (apply Z.pow_pos_nonneg; [lia|apply zlen_nonneg]). nia. }
  destruct (Hr s Hne Hs Hz H) as [[-> ->]|[H1 H2]], (Hr s' Hne' Hs' Hz' H') as [[? ->]|[H3 H4]]; [done|..].
  - exfalso. assert (0 < 10 ^ (zlen s' - 1)) by (apply Z.pow_pos_nonneg; [lia|]; destruct s'; [done|]; rewrite zlen_cons; pose proof (zlen_nonneg s'); lia). lia.
  - exfalso. assert (0 < 10 ^ (zlen s - 1)) by (apply Z.pow_pos_nonneg; [lia|]; destruct s; [done|]; rewrite zlen_cons; pose proof (zlen_nonneg s); lia). lia.
  - assert (zlen s = zlen s') as Hl.
    { assert (zlen s - 1 < zlen s' /\ zlen s' - 1 < zlen s) by (split; apply (Z.pow_lt_mono_r_iff 10); try lia; try apply zlen_nonneg). lia. }
    unfold zlen in Hl. by apply (digits_from_inj s s' 0 0 v); auto; lia.
Qed.
Lemma pretty_N_go_head k : forall x s, (0 < x < 10 ^ N.of_nat k)%N -> exists d s', pretty_N_go x s = String (pretty_N_char d) s' /\ (0 < d < 10)%N.
Proof.
  induction k as [|k IH]; intros x s Hx; [change (10 ^ N.of_nat 0)%N with 1%N in Hx; lia|].
  rewrite pretty_N_go_step by lia. destruct (decide (x < 10)%N) as [Hlt|Hge].
  - rewrite (N.div_small x 10), (N.mod_small x 10), pretty_N_go_0 by done. exists x, s. split; [done|lia].
  - apply IH. split; [apply N.div_str_pos; lia|]. apply N.Div0.div_lt_upper_bound. rewrite Nat2N.inj_succ, N.pow_succ_r' in Hx. apply Hx.
Qed.
Lemma show_num_canonical n : 0 <= n -> canonical (show_num n).
Proof.
  intros Hn. destruct (show_num_digits n Hn) as (_ & Hd & Hne). split_and!; [done..|]. destruct n as [|p|]; [done| |lia]. intros Hh. exfalso.
  unfold show_num, octets in Hh. change (pretty (Z.pos p)) with (pretty_N_go (N.pos p) "") in Hh.
  destruct (pretty_N_go_head (N.to_nat (N.size (N.pos p))) (N.pos p) "") as (d & s' & Hp & Hd10).
  { split; [lia|]. rewrite N2Nat.id. eapply N.lt_le_trans; [apply N.size_gt|]. apply N.pow_le_mono_l. lia. }
  rewrite Hp in Hh. cbn in Hh. assert (d = 1 \/ d = 2 \/ d = 3 \/ d = 4 \/ d = 5 \/ d = 6 \/ d = 7 \/ d = 8 \/ d = 9)%N as Hc by lia.
  destruct_or! Hc; by subst.
Qed.
Lemma number_iff s n : number s = Some n <-> 0 <= n <= U64_MAX /\ s = show_num n.
Proof.
  unfold number. split.
  - destruct (_ || _ || _) eqn:E; [done|]. rewrite !orb_false_iff, andb_false_iff, negb_false_iff in E. destruct E as ((E1 & E2) & E3).
    rewrite bool_decide_eq_false in E1. rewrite forallb_Forall in E3. intros H. pose proof (parse_unsigned_range _ _ _ H) as Hr. split; [done|].
    assert (Forall (fun c => 48 <= c <= 57) s) as Hs.
    { eapply Forall_impl; [exact E3|]. intros c Hc. unfold is_digit, between in Hc. lia. }
    assert (canonical s) as Hcan.
    { split_and!; [done..|]. intros Hh. destruct E2 as [E2|E2]; [|by rewrite bool_decide_eq_false in E2].
      apply Z.ltb_ge in E2. destruct s as [|c [|c' s]]; [done|by injection Hh as ->|]. rewrite !zlen_cons in E2. pose proof (zlen_nonneg s). lia. }
    assert (digits_from 0 s = Some n) as Hv.
    { unfold parse_u64, parse_unsigned in H. destruct s as [|c s]; [done|]. apply Forall_cons in Hs as [Hc Hs].
      assert (c = 48 \/ c = 49 \/ c = 50 \/ c = 51 \/ c = 52 \/ c = 53 \/ c = 54 \/ c = 55 \/ c = 56 \/ c = 57) as Hd' by lia.
      assert ((v ← digits_from 0 (c :: s); if v <=? U64_MAX then Some v else None) = Some n) as H'.
      { etransitivity; [|exact H]. destruct_or! Hd'; by subst. }
      destruct (digits_from 0 (c :: s)) as [v|]; [|done]. cbn [mbind option_bind] in H'. destruct (v <=? U64_MAX); [congruence|done]. }
    destruct (show_num_digits n ltac:(lia)) as (Hv' & _). eapply canonical_inj; [done|apply show_num_canonical; lia|done..].
  - intros [Hn ->]. destruct (show_num_canonical n ltac:(lia)) as (Hne & Hd & Hz).
    rewrite (bool_decide_eq_false_2 _ Hne). cbn [orb].
    assert (forallb is_digit (show_num n) = true) as ->.
    { apply forallb_Forall. eapply Forall_impl; [exact Hd|]. intros c Hc. cbv beta in Hc. unfold is_digit, between. lia. }
    assert (((1 <? zlen (show_num n)) && bool_decide (head (show_num n) = Some 48)) = false) as ->.
    { apply andb_false_iff. destruct (decide (head (show_num n) = Some 48)) as [Hh|Hh]; [left; by rewrite (Hz Hh)|right; by rewrite bool_decide_eq_false]. }
    by apply parse_u64_show.
Qed.

(** ** Lines *)
Definition named_value (key : string) (v : list Z) : list Z := chars key ++ [61] ++ v.
Definition print_image (i : Image) : list Z :=
  Wifi.join 32 [i_name i; i_version i; named_value "bytes" (show_num (i_bytes i)); named_value "sha256" (i_sha256 i);
    named_value "data-blocks" (show_num (i_data_blocks i)); named_value "root-hash" (i_root_hash i); named_value "salt" (i_salt i)].
Record image_wf (i : Image) : Prop := mkImageWf {
  iw_name : valid_image (i_name i) = true;
  iw_version : version_ok (i_version i) = true;
  iw_hashes : hex64 (i_sha256 i) = true /\ hex64 (i_root_hash i) = true /\ hex64 (i_salt i) = true;
  iw_blocks : 0 < i_data_blocks i;
  iw_bytes : i_data_blocks i * BLOCK < i_bytes i <= IMAGE_MAX /\ i_bytes i mod BLOCK = 0
}.

Lemma value_iff w key v : value w key = Some v <-> w = named_value key v.
Proof.
  unfold value, named_value. rewrite bind_Some. setoid_rewrite strip_prefix_iff. split; [by intros (x & -> & ->)|eauto].
Qed.
Lemma keep_if_iff {A} (f : A -> bool) o a : keep_if f o = Some a <-> o = Some a /\ f a = true.
Proof. unfold keep_if. rewrite bind_Some. split; [intros (b & -> & H); destruct (f b) eqn:E; naive_solver|intros [-> H]; exists a; by rewrite H]. Qed.
Lemma ok_or_iff {A E} (o : option A) (e : E) a : ok_or o e = Ok a <-> o = Some a.
Proof. destruct o; cbn; naive_solver. Qed.

(** Names, versions, hashes and numbers hold neither spaces nor newlines. *)
Definition blank (c : Z) : Prop := c = 10 \/ c = 32.
Lemma valid_image_plain s c : valid_image s = true -> blank c -> c ∉ s.
Proof.
  unfold valid_image, valid_name. intros [_ H]%andb_true_iff Hc Hin. rewrite forallb_Forall, Forall_forall in H.
  assert (c ∈ octets (of_chars s)) as Ho.
  { unfold octets, of_chars. rewrite as_bytes_of_bytes. apply list_elem_of_fmap. exists (byte_of_Z c).
    split; [destruct Hc as [-> | ->]; done|]. unfold encode_chars. apply list_elem_of_join. exists [byte_of_Z c].
    split; [by apply list_elem_of_singleton|]. apply list_elem_of_fmap. exists c. split; [destruct Hc as [-> | ->]; done|done]. }
  specialize (H c Ho). destruct Hc as [-> | ->]; done.
Qed.
Lemma forallb_plain (f : Z -> bool) s c : f c = false -> forallb f s = true -> c ∉ s.
Proof. intros Hf H Hin. rewrite forallb_Forall, Forall_forall in H. specialize (H c Hin). cbv beta in H. congruence. Qed.
Lemma version_plain s c : version_ok s = true -> blank c -> c ∉ s.
Proof. unfold version_ok. intros [_ H]%andb_true_iff Hc. eapply forallb_plain; [|exact H]. by destruct Hc as [-> | ->]. Qed.
Lemma hex64_plain s c : hex64 s = true -> blank c -> c ∉ s.
Proof. unfold hex64. intros [_ H]%andb_true_iff Hc. eapply forallb_plain; [|exact H]. by destruct Hc as [-> | ->]. Qed.
Lemma show_num_plain n c : 0 <= n -> blank c -> c ∉ show_num n.
Proof.
  intros Hn Hc Hin. destruct (show_num_digits n Hn) as (_ & Hd & _). rewrite Forall_forall in Hd. specialize (Hd c Hin). cbv beta in Hd.
  destruct Hc; lia.
Qed.
Lemma named_value_plain key v c : c ∉ chars key -> blank c -> c ∉ v -> c ∉ named_value key v.
Proof. intros Hk Hc Hv. unfold named_value. rewrite !elem_of_app, list_elem_of_singleton. destruct Hc; naive_solver lia. Qed.
#[local] Hint Resolve valid_image_plain version_plain hex64_plain show_num_plain : core.

Lemma image_words_plain i c : image_wf i -> blank c ->
  Forall (fun x => c ∉ x) [i_name i; i_version i; named_value "bytes" (show_num (i_bytes i)); named_value "sha256" (i_sha256 i);
    named_value "data-blocks" (show_num (i_data_blocks i)); named_value "root-hash" (i_root_hash i); named_value "salt" (i_salt i)].
Proof.
  intros [Hn Hv (H1 & H2 & H3) Hb [Hb' _]] Hc. unfold BLOCK in *.
  assert (forall key, key ∈ ["bytes"; "sha256"; "data-blocks"; "root-hash"; "salt"] -> c ∉ chars key) as Hk.
  { intros key Hk. repeat (apply elem_of_cons in Hk as [->|Hk]); [..|by apply elem_of_nil in Hk]; destruct Hc as [-> | ->]; vm_compute; set_solver. }
  rewrite !Forall_cons. split_and!; [by eauto|by eauto| | | | | |by apply Forall_nil]; apply named_value_plain; try done; try (apply Hk; set_solver); eauto;
  apply show_num_plain; try done; lia.
Qed.

Lemma image_line_iff rest i : image_line rest = Ok i <-> image_wf i /\ rest = print_image i.
Proof.
  split.
  - unfold image_line. destruct (split 32 rest) as [|a [|b [|d [|e [|f [|g [|h [|]]]]]]]] eqn:Es; try done.
    destruct (negb _ || negb _) eqn:Ev; [done|]. apply orb_false_iff in Ev as [Hn%negb_false_iff Hv%negb_false_iff].
    intros (n & (? & ->%value_iff & [Hn' ->]%number_iff)%ok_or_iff%bind_Some & H)%result_bind_Ok.
    apply result_bind_Ok in H as (sha & [->%value_iff H1]%ok_or_iff%keep_if_iff & H).
    apply result_bind_Ok in H as (k & (? & ->%value_iff & [Hk ->]%number_iff)%ok_or_iff%bind_Some & H).
    apply result_bind_Ok in H as (hash & [->%value_iff H2]%ok_or_iff%keep_if_iff & H).
    apply result_bind_Ok in H as (salt & [->%value_iff H3]%ok_or_iff%keep_if_iff & H).
    destruct (negb _ || negb _ || _) eqn:Er; [done|]. injection H as <-. rewrite !orb_false_iff, !negb_false_iff in Er. destruct Er as [[Ed Em] El].
    apply split_iff in Es as (_ & _ & ->). split; [|done]. apply Z.eqb_eq in Em. apply Z.ltb_ge in El.
    destruct (keep_if _ _) as [d|] eqn:Eq; [|done]. apply Z.ltb_lt in Ed. apply keep_if_iff in Eq as [[[= <-] _]%keep_if_iff Hp]. apply Z.ltb_lt in Hp.
    unfold BLOCK in *. apply mkImageWf; cbn; unfold BLOCK; auto; lia.
  - intros [Hw ->]. unfold image_line, print_image. rewrite split_join by (done || by apply image_words_plain; [|right]).
    destruct Hw as [Hn Hv (H1 & H2 & H3) Hb [[Hb1 Hb2] Hm]]. rewrite Hn, Hv. cbn [negb orb]. unfold BLOCK, IMAGE_MAX in *. change (Z.shiftl 16 30) with 17179869184 in *.
    assert (forall key v, value (named_value key v) key = Some v) as Hval by (intros; by apply value_iff).
    assert (forall n, 0 <= n <= U64_MAX -> number (show_num n) = Some n) as Hnum by (intros; by apply number_iff).
    rewrite !Hval. cbn [mbind option_bind]. rewrite !Hnum by lia. cbn [keep_if mbind option_bind]. rewrite H1, H2, H3. cbn [ok_or result_bind].
    rewrite (proj2 (Z.leb_le _ _)) by lia. cbn. rewrite (proj2 (Z.ltb_lt 0 _)), (proj2 (Z.ltb_lt _ (i_bytes i))), Hm, (proj2 (Z.ltb_ge _ _)) by lia. cbn. by destruct i.
Qed.

(** ** The order of texts *)
Definition before_text (a b : list Z) : Prop := Volume.text_leb b a = false.
Lemma text_leb_total a b : Volume.text_leb a b = false -> Volume.text_leb b a = true.
Proof.
  revert b. induction a as [|x a IH]; intros [|y b]; cbn; try done. rewrite orb_false_iff, andb_false_iff, orb_true_iff, andb_true_iff.
  intros [Hxy%Z.ltb_ge [Hn%Z.eqb_neq|H]]; [left; apply Z.ltb_lt; lia|]. destruct (decide (y < x)); [left; by apply Z.ltb_lt|right].
  split; [apply Z.eqb_eq; lia|auto].
Qed.
Lemma text_leb_antisym a b : Volume.text_leb a b = true -> Volume.text_leb b a = true -> a = b.
Proof.
  revert b. induction a as [|x a IH]; intros [|y b]; cbn; try done. rewrite !orb_true_iff, !andb_true_iff, !Z.ltb_lt, !Z.eqb_eq.
  intros [?|[-> ?]] [?|[? ?]]; try lia. f_equal. auto.
Qed.
Lemma text_leb_refl a : Volume.text_leb a a = true.
Proof. induction a as [|x a IH]; cbn; [done|]. by rewrite Z.eqb_refl, IH, orb_true_r. Qed.
Lemma text_leb_trans a b c : Volume.text_leb a b = true -> Volume.text_leb b c = true -> Volume.text_leb a c = true.
Proof.
  revert b c. induction a as [|x a IH]; intros [|y b] [|z c]; cbn; try done. rewrite !orb_true_iff, !andb_true_iff, !Z.ltb_lt, !Z.eqb_eq.
  intros [?|[-> ?]] [?|[-> ?]]; [left; lia|left; lia|left; lia|right; eauto].
Qed.
#[local] Instance before_text_trans : Transitive before_text.
Proof.
  intros a b c Hab Hbc. unfold before_text in *. destruct (Volume.text_leb c a) eqn:E; [|done]. exfalso.
  apply text_leb_total in Hab. pose proof (text_leb_trans c a b E Hab) as H. congruence.
Qed.
#[local] Instance text_leb_transitive : Transitive (fun a b => Volume.text_leb a b = true).
Proof. intros a b c. apply text_leb_trans. Qed.

Lemma sorted_snoc {A} (R : A -> A -> Prop) `{!Transitive R} l x :
  StronglySorted R (l ++ [x]) <-> StronglySorted R l /\ (forall y, last l = Some y -> R y x).
Proof.
  induction l as [|a l IH]; cbn [app].
  - split; [by intros; split; [constructor|]|intros _; repeat constructor].
  - split.
    + intros H. inversion H as [|? ? H1 H2]; subst. apply IH in H1 as [H1 Hx]. apply Forall_app in H2 as [H2 H3]. split; [by constructor|].
      intros y Hy. destruct l as [|b l]; [injection Hy as <-; rewrite Forall_singleton in H3; exact H3|]. apply Hx. done.
    + intros [H Hx]. inversion H as [|? ? H1 H2]; subst.
      assert (forall y, last l = Some y -> R y x) as Hl by (intros y Hy; apply Hx; destruct l; done).
      constructor; [by apply IH|]. apply Forall_app. split; [done|]. apply Forall_singleton.
      destruct (last l) as [z|] eqn:El; [|apply last_None in El as ->; by apply Hx]. etransitivity; [|by apply Hl].
      apply last_Some_elem_of in El. rewrite Forall_forall in H2. by apply H2.
Qed.

Lemma position_lookup name images at_ : position name images = Some at_ -> (i_name <$> images) !! at_ = Some name.
Proof.
  revert at_. induction images as [|i images IH]; intros at_; cbn; [done|]. case_bool_decide as E; [intros [= <-]; by rewrite <- E|].
  intros (k & Hk & ->)%fmap_Some. cbn. by apply IH.
Qed.
Lemma position_elem name images : is_Some (position name images) <-> name ∈ i_name <$> images.
Proof.
  induction images as [|i images IH]; cbn; [split; [by intros [? ?]|by intros ?%elem_of_nil]|]. rewrite elem_of_cons, <- IH.
  case_bool_decide as E; [split; [by left|eauto]|]. rewrite fmap_is_Some. naive_solver.
Qed.
(** Positions in a sorted list are ordered as the names are. *)
Lemma position_order images n n' a b : StronglySorted before_text (i_name <$> images) ->
  position n images = Some a -> position n' images = Some b -> Nat.leb a b = Volume.text_leb n n'.
Proof.
  intros Hs Ha%position_lookup Hb%position_lookup.
  assert (forall a b n n', (i_name <$> images) !! a = Some n -> (i_name <$> images) !! b = Some n' -> (a < b)%nat -> before_text n n') as Hlt.
  { clear a b n n' Ha Hb. induction Hs as [|x l Hs IH Hf]; intros a b n n' Ha Hb Hab; [done|]. destruct b as [|b]; [lia|]. cbn in Hb. destruct a as [|a].
    - injection Ha as <-. rewrite Forall_forall in Hf. apply Hf. by eapply list_elem_of_lookup_2.
    - cbn in Ha. apply (IH a b); [done..|lia]. }
  destruct (Nat.leb_spec a b) as [Hle|Hgt].
  - destruct (decide (a = b)) as [->|Hn]; [|assert (a < b)%nat as Hl by lia; symmetry; apply text_leb_total; by apply (Hlt a b)].
    replace n' with n by congruence. by rewrite text_leb_refl.
  - symmetry. by apply (Hlt b a).
Qed.

(** ** Well-formed lists *)
Section listing.
Context `{Libc}.

Definition names_of (s : Listing) : list (list Z) := i_name <$> l_images s.
Definition requires_ok (names : list (list Z)) (x : list Z * list (list Z)) : Prop :=
  x.1 ∈ names /\ x.2 <> [] /\ NoDup x.2 /\ Forall (fun r => r ∈ names /\ r <> x.1) x.2.
Definition needs_ok (names : list (list Z)) (x : list Z * list Z) : Prop :=
  x.1 ∈ names /\ 10 ∉ x.2 /\ exists p, Policy.parse (of_chars x.2) "the image list" = Done p.
Record listing_wf (s : Listing) : Prop := mkListingWf {
  lw_images : Forall image_wf (l_images s);
  lw_sorted : StronglySorted before_text (names_of s);
  lw_requires : Forall (requires_ok (names_of s)) (l_requires s);
  lw_requires_sorted : StronglySorted before_text (l_requires s).*1;
  lw_needs : Forall (needs_ok (names_of s)) (l_needs s);
  lw_needs_sorted : StronglySorted (fun a b => Volume.text_leb a b = true) (l_needs s).*1
}.
Definition print_requires (x : list Z * list (list Z)) : list Z := REQUIRES ++ Wifi.join 32 (x.1 :: x.2).
Definition print_needs (x : list Z * list Z) : list Z := NEEDS ++ x.1 ++ 32 :: x.2.
Definition render (s : Listing) : list (list Z) :=
  ((fun i => IMAGE ++ print_image i) <$> l_images s) ++ (print_requires <$> l_requires s) ++ (print_needs <$> l_needs s).

Lemma name_plain s n c : listing_wf s -> blank c -> n ∈ names_of s -> c ∉ n.
Proof.
  intros Hw Hc (i & -> & Hi)%list_elem_of_fmap. pose proof (lw_images s Hw) as Hf. rewrite Forall_forall in Hf. eapply valid_image_plain; [apply (Hf i Hi)|done].
Qed.

Lemma existsb_named r images : existsb (fun i => bool_decide (i_name i = r)) images = true <-> r ∈ i_name <$> images.
Proof.
  rewrite existsb_exists. setoid_rewrite bool_decide_eq_true. rewrite list_elem_of_fmap. split.
  - intros (i & Hi%list_elem_of_In & <-). eauto.
  - intros (i & -> & Hi%list_elem_of_In). eauto.
Qed.
Lemma check_reqs_iff name images seen reqs : check_reqs name images seen reqs = Ok tt <->
  NoDup reqs /\ Forall (fun r => r ∉ seen) reqs /\ Forall (fun r => r ∈ i_name <$> images /\ r <> name) reqs.
Proof.
  revert seen. induction reqs as [|r reqs IH]; intros seen; cbn [check_reqs]; [split; [intros _; split_and!; by constructor|done]|].
  rewrite !Forall_cons, NoDup_cons. destruct (_ || _ || _) eqn:E.
  - split; [done|]. intros ((Hn & Hd) & (Hs & _) & ((Hin & Hne) & _)). rewrite !orb_true_iff, !bool_decide_eq_true, negb_true_iff, <- not_true_iff_false, existsb_named in E. naive_solver.
  - rewrite !orb_false_iff, !bool_decide_eq_false, negb_false_iff, existsb_named in E. destruct E as ((E1 & E2) & E3). rewrite IH. split.
    + intros (Hd & Hs & Hf). split_and!; try done.
      * intros Hr. rewrite Forall_forall in Hs. apply (Hs r Hr). set_solver.
      * eapply Forall_impl; [exact Hs|]. set_solver.
    + intros ((Hn & Hd) & (Hs & Hs') & (_ & Hf)). split_and!; try done. rewrite Forall_forall in *. intros x Hx. specialize (Hs' x Hx). set_solver.
Qed.

Lemma last_at_order {A} s (ls : list (list Z * A)) n a : listing_wf s -> Forall (fun x => x.1 ∈ names_of s) ls -> position n (l_images s) = Some a ->
  (match last_at (l_images s) ls with Some l => Nat.leb a l | None => false end = false <-> (forall y, last ls.*1 = Some y -> before_text y n)) /\
  (match last_at (l_images s) ls with Some l => Nat.ltb a l | None => false end = false <-> (forall y, last ls.*1 = Some y -> Volume.text_leb y n = true)).
Proof.
  intros Hw Hf Ha. unfold last_at. rewrite fmap_last. destruct (last ls) as [[y x]|] eqn:El; cbn [mbind option_bind fmap option_fmap option_map fst]; [|split; split; done].
  apply last_Some_elem_of in El. rewrite Forall_forall in Hf. pose proof (Hf _ El) as [b Hb]%position_elem. cbn in Hb. rewrite Hb.
  rewrite (position_order (l_images s) n y a b), Nat.ltb_antisym, (position_order (l_images s) y n b a) by (done || apply Hw). split; split.
  - intros He z [= <-]. done.
  - intros He. by apply He.
  - intros He z [= <-]. by apply negb_false_iff.
  - intros He. apply negb_false_iff. by apply He.
Qed.

Lemma read_image_iff rest s s' : read_image rest s = (Done tt, s') <->
  l_requires s = [] /\ l_needs s = [] /\ exists i, image_wf i /\ rest = print_image i /\
    (forall l, last (l_images s) = Some l -> before_text (i_name l) (i_name i)) /\ s' = mkListing (l_images s ++ [i]) (l_requires s) (l_needs s).
Proof.
  unfold read_image. rewrite bind_Done. setoid_rewrite gets_Done. setoid_rewrite bind_Done. setoid_rewrite reject_if_Done. setoid_rewrite bind_Done.
  setoid_rewrite lift_Done. setoid_rewrite bind_Done. setoid_rewrite reject_if_Done. setoid_rewrite modify_Done. setoid_rewrite image_line_iff.
  split.
  - intros (s0 & s1 & [<- <-] & [] & s2 & [Hl <-] & i & s3 & [[Hw ->] <-] & [] & s4 & [Ho <-] & <-). unfold id in *.
    rewrite orb_false_iff, !negb_false_iff, !bool_decide_eq_true in Hl. destruct Hl as [Hr Hn]. split_and!; [done..|]. exists i. split_and!; [done..| |done].
    intros l Hlast. rewrite Hlast in Ho. done.
  - intros (Hr & Hn & i & Hw & -> & Ho & ->). exists s, s. split; [done|]. exists tt, s. unfold id. rewrite Hr, Hn. split; [done|]. exists i, s. split; [done|].
    exists tt, s. split; [|by rewrite ?Hr, ?Hn]. split; [|done]. destruct (last (l_images s)) as [l|]; [by apply Ho|done].
Qed.

Lemma read_requires_iff rest s s' : listing_wf s -> read_requires rest s = (Done tt, s') <->
  l_needs s = [] /\ exists x, requires_ok (names_of s) x /\ rest = Wifi.join 32 (x.1 :: x.2) /\
    (forall y, last (l_requires s).*1 = Some y -> before_text y x.1) /\ s' = mkListing (l_images s) (l_requires s ++ [x]) (l_needs s).
Proof.
  intros Hw.
  assert (Forall (fun x => x.1 ∈ names_of s) (l_requires s)) as Hreq by (eapply Forall_impl; [apply Hw|]; by intros ? [? _]).
  unfold read_requires. rewrite bind_Done. setoid_rewrite gets_Done. setoid_rewrite bind_Done. setoid_rewrite reject_if_Done. cbv zeta. setoid_rewrite bind_Done.
  setoid_rewrite require_Done. setoid_rewrite bind_Done. setoid_rewrite reject_if_Done. setoid_rewrite bind_Done. setoid_rewrite lift_Done. setoid_rewrite bind_Done.
  setoid_rewrite reject_if_Done. setoid_rewrite modify_Done. split.
  - intros (s0 & s1 & [<- <-] & [] & s2 & [Hn <-] & a & s3 & [Ha <-] & [] & s4 & [Hne <-] & [] & s5 & [Hc%check_reqs_iff <-] & [] & s6 & [Ho <-] & <-). unfold id in *.
    rewrite negb_false_iff, bool_decide_eq_true in Hn. split; [done|]. rewrite bool_decide_eq_false in Hne.
    destruct (split 32 rest) as [|n reqs] eqn:Es; [done|]. cbn in *. apply split_iff in Es as (_ & _ & ->). exists (n, reqs). destruct Hc as (Hd & _ & Hf).
    split; [|split; [done|split; [by apply (last_at_order s _ n a)|done]]]. split_and!; cbn; [by apply position_elem|done..].
  - intros (Hn & [n reqs] & (Hin & Hne & Hd & Hf) & -> & Ho & ->). cbn [fst snd] in *. exists s, s. split; [done|]. exists tt, s. unfold id. rewrite Hn. split; [done|].
    assert (split 32 (Wifi.join 32 (n :: reqs)) = n :: reqs) as Es.
    { apply split_join; [done|]. constructor; [by eapply name_plain; [..|right|]|]. eapply Forall_impl; [exact Hf|]. intros r [Hr _]. by eapply name_plain; [..|right|]. }
    apply position_elem in Hin as [a Ha]. rewrite Es. cbn. exists a, s. split; [done|]. exists tt, s. split; [by rewrite bool_decide_eq_false_2|].
    exists tt, s. split; [split; [|done]; apply check_reqs_iff; split_and!; try done; apply Forall_forall; intros ? ? ?%elem_of_nil; done|].
    exists tt, s. split; [split; [|done]; by apply (last_at_order s _ n a)|by rewrite ?Hn].
Qed.

Lemma read_needs_iff rest s s' : listing_wf s -> 10 ∉ rest -> read_needs rest s = (Done tt, s') <->
  exists x, needs_ok (names_of s) x /\ rest = x.1 ++ 32 :: x.2 /\
    (forall y, last (l_needs s).*1 = Some y -> Volume.text_leb y x.1 = true) /\ s' = mkListing (l_images s) (l_requires s) (l_needs s ++ [x]).
Proof.
  intros Hw Hnl.
  assert (Forall (fun x => x.1 ∈ names_of s) (l_needs s)) as Hneed by (eapply Forall_impl; [apply Hw|]; by intros ? [? _]).
  assert (forall what p s1, policy_line what s = (Done p, s1) <-> Policy.parse (of_chars what) "the image list" = Done p /\ s1 = s) as Hp.
  { intros what p s1. unfold policy_line. destruct (Policy.parse _ _); naive_solver. }
  unfold read_needs. rewrite bind_Done. setoid_rewrite gets_Done. setoid_rewrite bind_Done. setoid_rewrite require_Done. split.
  - intros (s0 & s1 & [<- <-] & [n what] & s2 & [[-> Hn]%split_once_iff <-] & Hr). unfold id in *. cbv beta iota in Hr.
    rewrite bind_Done in Hr. setoid_rewrite require_Done in Hr. setoid_rewrite bind_Done in Hr. setoid_rewrite reject_if_Done in Hr.
    setoid_rewrite bind_Done in Hr. setoid_rewrite modify_Done in Hr.
    destruct Hr as (a & s3 & [Ha <-] & [] & s4 & [Ho <-] & p & s5 & [Hpol ->]%Hp & <-).
    exists (n, what). split; [|split; [done|split; [by apply (last_at_order s _ n a)|done]]]. split_and!; cbn; [by apply position_elem|set_solver|eauto].
  - intros ([n what] & (Hin & Hnw & p & Hpol) & -> & Ho & ->). cbn in *. exists s, s. split; [done|]. exists (n, what), s.
    split; [split; [|done]; apply split_once_iff; split; [done|by eapply name_plain; [..|right|]]|].
    apply position_elem in Hin as [a Ha]. cbv beta iota. apply bind_Done. exists a, s. split; [by apply require_Done|]. apply bind_Done. exists tt, s.
    split; [apply reject_if_Done; split; [|done]; by apply (last_at_order s _ n a)|]. apply bind_Done. exists p, s. split; [by apply Hp|]. by apply modify_Done.
Qed.

Lemma wf_image imgs i : listing_wf (mkListing (imgs ++ [i]) [] []) <->
  listing_wf (mkListing imgs [] []) /\ image_wf i /\ (forall l, last imgs = Some l -> before_text (i_name l) (i_name i)).
Proof.
  assert ((forall l, last imgs = Some l -> before_text (i_name l) (i_name i)) <-> (forall y, last (i_name <$> imgs) = Some y -> before_text y (i_name i))) as Hl.
  { rewrite fmap_last. destruct (last imgs); cbn; naive_solver. }
  rewrite Hl. split.
  - intros [Hi Hs _ _ _ _]. cbn in *. unfold names_of in Hs. cbn in Hs. rewrite fmap_app in Hs. apply sorted_snoc in Hs as [Hs Ho]; [|apply _].
    apply Forall_app in Hi as [Hi Hx]. rewrite Forall_singleton in Hx. split_and!; [|done..]. split; cbn; done || by constructor.
  - intros ([Hi Hs _ _ _ _] & Hx & Ho). cbn in *. split; cbn; [by apply Forall_app; split; [|constructor]| |by constructor..].
    unfold names_of. cbn. rewrite fmap_app. apply sorted_snoc; [apply _|done].
Qed.
Lemma wf_requires imgs rs x : listing_wf (mkListing imgs (rs ++ [x]) []) <->
  listing_wf (mkListing imgs rs []) /\ requires_ok (i_name <$> imgs) x /\ (forall y, last rs.*1 = Some y -> before_text y x.1).
Proof.
  split.
  - intros [Hi Hs Hr Ho _ _]. cbn in *. apply Forall_app in Hr as [Hr Hx]. rewrite Forall_singleton in Hx. rewrite fmap_app in Ho.
    apply sorted_snoc in Ho as [Ho Hy]; [|apply _]. split_and!; [|done..]. split; cbn; done || by constructor.
  - intros ([Hi Hs Hr Ho _ _] & Hx & Hy). cbn in *. split; cbn; [done|done|by apply Forall_app; split; [|constructor]| |by constructor|by constructor].
    rewrite fmap_app. apply sorted_snoc; [apply _|done].
Qed.
Lemma wf_needs imgs rs ns x : listing_wf (mkListing imgs rs (ns ++ [x])) <->
  listing_wf (mkListing imgs rs ns) /\ needs_ok (i_name <$> imgs) x /\ (forall y, last ns.*1 = Some y -> Volume.text_leb y x.1 = true).
Proof.
  split.
  - intros [Hi Hs Hr Ho Hn Hm]. cbn in *. apply Forall_app in Hn as [Hn Hx]. rewrite Forall_singleton in Hx. rewrite fmap_app in Hm.
    apply sorted_snoc in Hm as [Hm Hy]; [|apply _]. split_and!; [|done..]. by split.
  - intros ([Hi Hs Hr Ho Hn Hm] & Hx & Hy). cbn in *. split; cbn; [done..|by apply Forall_app; split; [|constructor]|].
    rewrite fmap_app. apply sorted_snoc; [apply _|done].
Qed.

Lemma read_line_sound l s s' : listing_wf s -> 10 ∉ l -> read_line l s = (Done tt, s') -> listing_wf s' /\ render s' = render s ++ [l].
Proof.
  intros Hw Hl H1. unfold read_line in H1. destruct s as [imgs rs ns].
  destruct (strip_prefix IMAGE l) as [rest|] eqn:E1.
  { apply strip_prefix_iff in E1 as ->. apply read_image_iff in H1 as (Hr & Hn & i & Hi & -> & Ho & ->). cbn in *. subst rs ns.
    split; [by apply wf_image|]. unfold render. cbn [l_images l_requires l_needs]. by rewrite fmap_app, !app_nil_r. }
  destruct (strip_prefix REQUIRES l) as [rest|] eqn:E2.
  { apply strip_prefix_iff in E2 as ->. apply read_requires_iff in H1 as (Hn & x & Hx & -> & Ho & ->); [|done]. cbn in Hn, Ho. subst ns.
    split; [by apply wf_requires|]. unfold render. cbn [l_images l_requires l_needs]. by rewrite fmap_app, !app_nil_r, app_assoc. }
  destruct (strip_prefix NEEDS l) as [rest|] eqn:E3; [|by apply fail_Done in H1].
  apply strip_prefix_iff in E3 as ->. apply read_needs_iff in H1 as (x & Hx & -> & Ho & ->); [|done|set_solver].
  split; [by apply wf_needs|]. unfold render. cbn [l_images l_requires l_needs]. by rewrite fmap_app, !app_assoc.
Qed.
Lemma read_lines_sound ls s s' : listing_wf s -> Forall (fun l => 10 ∉ l) ls -> for_each ls read_line s = (Done tt, s') ->
  listing_wf s' /\ render s' = render s ++ ls.
Proof.
  revert s. induction ls as [|l ls IH]; intros s Hw Hf H1; cbn [for_each] in H1.
  - apply ret_Done in H1 as [_ <-]. by rewrite app_nil_r.
  - apply Forall_cons in Hf as [Hl Hf]. apply bind_Done in H1 as ([] & s1 & Hl1 & H1). apply read_line_sound in Hl1 as [Hw1 Hr1]; [|done..].
    apply IH in H1 as [Hw' Hr']; [|done..]. split; [done|]. by rewrite Hr', Hr1, <- app_assoc.
Qed.

Lemma for_each_app (ls ls' : list (list Z)) s s1 s' : for_each ls read_line s = (Done tt, s1) -> for_each ls' read_line s1 = (Done tt, s') ->
  for_each (ls ++ ls') read_line s = (Done tt, s').
Proof.
  revert s. induction ls as [|l ls IH]; intros s H1 H2; cbn [for_each app] in *; [by apply ret_Done in H1 as [_ ->]|].
  apply bind_Done in H1 as ([] & s2 & Hl & H1). apply bind_Done. exists tt, s2. split; [done|]. by apply IH.
Qed.
Lemma read_last ls l s s1 s' : for_each ls read_line s = (Done tt, s1) -> read_line l s1 = (Done tt, s') -> for_each (ls ++ [l]) read_line s = (Done tt, s').
Proof. intros H1 H2. eapply for_each_app; [done|]. cbn [for_each]. apply bind_Done. exists tt, s'. split; [done|]. by apply ret_Done. Qed.

Lemma read_lines_complete s : listing_wf s -> for_each (render s) read_line (mkListing [] [] []) = (Done tt, s).
Proof.
  destruct s as [imgs rs ns]. induction ns as [|x ns IH] using rev_ind.
  - induction rs as [|x rs IH] using rev_ind.
    + induction imgs as [|i imgs IH] using rev_ind; intros Hw; [by apply ret_Done|]. apply wf_image in Hw as (Hw & Hi & Ho).
      unfold render. cbn [l_images l_requires l_needs]. rewrite fmap_app, !app_nil_r. eapply read_last; [specialize (IH Hw); unfold render in IH; cbn in IH; by rewrite !app_nil_r in IH|].
      unfold read_line. rewrite (proj2 (strip_prefix_iff _ _ (print_image i))) by done. apply read_image_iff. split_and!; [done..|]. by exists i.
    + intros Hw. apply wf_requires in Hw as (Hw & Hx & Ho). specialize (IH Hw). unfold render in *. cbn [l_images l_requires l_needs] in *.
      rewrite fmap_app, app_nil_r, app_assoc in *. eapply read_last; [done|]. unfold read_line, print_requires.
      rewrite (proj2 (strip_prefix_iff REQUIRES _ _)) by done. change (strip_prefix IMAGE (REQUIRES ++ Wifi.join 32 (x.1 :: x.2))) with (@None (list Z)). cbv iota.
      apply read_requires_iff; [done|]. split; [done|]. by exists x.
  - intros Hw. apply wf_needs in Hw as (Hw & Hx & Ho). specialize (IH Hw). unfold render in *. cbn [l_images l_requires l_needs] in *.
    rewrite fmap_app, !app_assoc in *. eapply read_last; [done|]. unfold read_line, print_needs.
    rewrite (proj2 (strip_prefix_iff NEEDS _ _)) by done. change (strip_prefix IMAGE (NEEDS ++ x.1 ++ 32 :: x.2)) with (@None (list Z)).
    change (strip_prefix REQUIRES (NEEDS ++ x.1 ++ 32 :: x.2)) with (@None (list Z)). cbv iota.
    destruct Hx as (Hin & Hnl & Hp). apply read_needs_iff; [done| |exists x; done].
    rewrite elem_of_app, elem_of_cons. intros [Hc|[?|?]]; [|done..]. by eapply (name_plain _ x.1 10); [exact Hw|left|..].
Qed.
End listing.

(** * What images.rs promises

    The image list and its one way of being written; what is opened and stacked over a zone's
    /usr, whatever the system answers. *)
From S2P Require Import ZoneText ZoneSafe ZoneClaims.
Import Tools Images.

(** ** The list *)
Definition listing_of (m : Manifest) : Listing := mkListing (m_images m) (m_requires m) (m_needs m).
Definition list_wf `{Libc} (m : Manifest) : Prop :=
  version_ok (m_release m) = true /\ hex64 (m_base m) = true /\ m_images m <> [] /\ listing_wf (listing_of m).
Definition field_line (key : string) (v : list Z) : list Z := chars key ++ [58; 32] ++ v.
Definition list_lines (m : Manifest) : list (list Z) :=
  MAGIC :: field_line "release" (m_release m) :: field_line "base" (m_base m) :: render (listing_of m).

Lemma elem_of_join_text sep ls c : c ∈ Wifi.join sep ls -> c = sep \/ exists l, l ∈ ls /\ c ∈ l.
Proof.
  induction ls as [|l [|l' ls] IH]; cbn [Wifi.join]; [by intros ?%elem_of_nil|intros H; right; exists l; set_solver|].
  intros [H|[->|H]%elem_of_cons]%elem_of_app; [right; exists l; set_solver|by left|]. destruct (IH H) as [->|(x & Hx & Hc)]; [by left|right].
  exists x. set_solver.
Qed.
Lemma field_iff l key v : field l key = Ok v <-> l = Some (field_line key v).
Proof.
  unfold field, field_line. rewrite ok_or_iff, bind_Some. setoid_rewrite bind_Some. setoid_rewrite strip_prefix_iff. split.
  - by intros (x & -> & y & -> & ->).
  - intros ->. eauto.
Qed.

Section exact.
Context `{Libc}.

Lemma render_plain s : listing_wf s -> Forall (fun l => 10 ∉ l) (render s).
Proof.
  intros Hw. assert (forall n, n ∈ names_of s -> 10 ∉ n) as Hn by (intros n; apply name_plain; [done|by left]).
  unfold render. rewrite !Forall_app, !Forall_fmap. split_and!.
  - eapply Forall_impl; [apply (lw_images s Hw)|]. intros i Hi. change (10 ∉ IMAGE ++ print_image i). rewrite elem_of_app. intros [Hc|Hc]; [revert Hc; vm_compute; set_solver|].
    apply elem_of_join_text in Hc as [?|(l & Hl & Hc)]; [done|]. pose proof (image_words_plain i 10 Hi ltac:(by left)) as Hf. rewrite Forall_forall in Hf. by apply (Hf l).
  - eapply Forall_impl; [apply (lw_requires s Hw)|]. intros [n reqs] (Hin & _ & _ & Hr). cbn [fst snd] in *. change (10 ∉ REQUIRES ++ Wifi.join 32 (n :: reqs)). rewrite elem_of_app.
    intros [Hc|Hc]; [revert Hc; vm_compute; set_solver|]. apply elem_of_join_text in Hc as [?|(l & Hl & Hc)]; [done|]. rewrite Forall_forall in Hr.
    apply elem_of_cons in Hl as [->|Hl]; [by eapply (Hn n)|]. by eapply (Hn l), Hc; apply Hr.
  - eapply Forall_impl; [apply (lw_needs s Hw)|]. intros [n what] (Hin & Hnl & _). cbn [fst snd] in *. change (10 ∉ NEEDS ++ n ++ 32 :: what).
    rewrite !elem_of_app, elem_of_cons. intros [Hc|[Hc|[?|?]]]; [revert Hc; vm_compute; set_solver|by eapply (Hn n)|done..].
Qed.

(** An image list is read in exactly one case: it is the text a well-formed list
    prints. Names are valid and sorted, each once; sizes are whole blocks that hold the data and a
    hash tree, of at most 16 GiB; hashes are 64 hexadecimal digits; numbers have no other spelling;
    what an image requires is other images of the list, each once, in the images' order; what it
    needs is a policy line, after those, in their order. *)
Theorem image_list_exact (text : list Z) (m : Manifest) : parse text = Done m <-> list_wf m /\ text = unlines (list_lines m).
Proof.
  split.
  - unfold parse. destruct (strip_suffix 10 text) as [body|] eqn:Eb; [|done]. apply strip_suffix_iff in Eb as ->.
    destruct (split_iff 10 body (split 10 body)) as [Hs _]. destruct (Hs eq_refl) as (Hne & Hf & Hb). set (ls := split 10 body) in *. clearbody ls. subst body.
    destruct (negb _) eqn:Em; [done|]. rewrite negb_false_iff, bool_decide_eq_true in Em.
    destruct (result_bind _ _) as [[release base]|] eqn:Er; [|done].
    apply result_bind_Ok in Er as (rel & Hrel%field_iff & Er). destruct (negb (version_ok rel)) eqn:Ev; [done|]. apply negb_false_iff in Ev.
    apply result_bind_Ok in Er as (bs & Hbs%field_iff & Er). destruct (negb (hex64 bs)) eqn:Eh; [done|]. apply negb_false_iff in Eh. injection Er as <- <-.
    destruct ls as [|l0 [|l1 [|l2 ls]]]; try done. cbn [head lookup list_lookup] in Em, Hrel, Hbs. clear Hs. injection Em as ->. injection Hrel as ->. injection Hbs as ->. cbn [skipn]. rewrite ?drop_0.
    rewrite !Forall_cons in Hf. destruct Hf as (_ & _ & _ & Hf).
    destruct (for_each ls read_line (mkListing [] [] [])) as [[[]|e|] s] eqn:Ef; [|done..]. apply read_lines_sound in Ef as [Hw Hr]; [| |done].
    2: { split; by constructor. }
    case_bool_decide as Hi; [done|]. intros [= <-]. split.
    + unfold list_wf, listing_of. cbn. destruct s. cbn in *. auto.
    + unfold list_lines, listing_of. cbn [m_images m_requires m_needs m_release m_base]. rewrite unlines_join by done. f_equal. f_equal. destruct s. cbn in *. by rewrite Hr.
  - intros [(Hv & Hb & Hi & Hw) ->]. unfold parse. rewrite unlines_join, strip_suffix_snoc by done.
    assert (Forall (fun l => 10 ∉ l) (list_lines m)) as Hp.
    { unfold list_lines. rewrite !Forall_cons. split_and!; [vm_compute; set_solver| | |by apply render_plain].
      - unfold field_line. rewrite !elem_of_app. intros [Hc|[Hc|Hc]]; [revert Hc; vm_compute; set_solver|set_solver|]. by eapply version_plain; [..|left|].
      - unfold field_line. rewrite !elem_of_app. intros [Hc|[Hc|Hc]]; [revert Hc; vm_compute; set_solver|set_solver|]. by eapply hex64_plain; [..|left|]. }
    rewrite split_join by done. unfold list_lines. cbn [head lookup list_lookup skipn]. rewrite ?drop_0. rewrite bool_decide_eq_true_2 by done. cbn [negb].
    rewrite (proj2 (field_iff (Some (field_line "release" (m_release m))) "release" (m_release m))) by done. cbn [result_bind]. rewrite Hv. cbn [negb].
    rewrite (proj2 (field_iff (Some (field_line "base" (m_base m))) "base" (m_base m))) by done. cbn [result_bind]. rewrite Hb. cbn [negb].
    rewrite read_lines_complete by done. cbn. rewrite bool_decide_eq_false_2 by done. by destruct m.
Qed.
End exact.

(** ** Files read whole *)
Section bounded.
Context (sys : Sys) (P : Trace -> Event -> Prop).
Hypothesis HP : forall t p, (forall a, P t (Did (Lstat p) a)) /\ (forall a, P t (Did (OpenFile p) a)) /\ (forall a, P t (Did (ReadFile p) a)).

Lemma wp_read_bounded p max (Q : bytes -> Trace -> Prop) t : justified P t ->
  (forall data t', justified P t' -> t ⊆ t' -> Did (ReadFile p) (Ok data) ∈ t' -> zlen data <= max -> Q data t') ->
  wp (read_bounded sys p max) Q (fun _ => justified P) t.
Proof.
  intros Ht HQ. unfold read_bounded. apply wp_bind, (wp_called sys P); [done|apply HP| |done]. intros md H1. apply wp_bind, wp_reject_if; [done|]. intros _.
  apply wp_bind, (wp_called sys P); [done|apply HP| |done]. intros md' H2. apply wp_bind, wp_reject_if; [done|]. intros _.
  apply wp_bind, (wp_called sys P); [done|apply HP| |done]. intros data H3. apply wp_bind, wp_reject_if; [done|]. intros Hl%Z.ltb_ge. apply wp_ret.
  assert (take (Z.to_nat (max + 1)) data = data) as E.
  { apply take_ge. unfold zlen in Hl. rewrite length_take in Hl. lia. }
  rewrite E in *. apply HQ; [done|by apply sub_trans, sub_trans, sub_snoc|apply elem_snoc|done].
Qed.
End bounded.

(** ** What is opened *)
Section opened.
Context `{LibcLaws} (sys : Sys) (check : bytes -> bytes -> bool) (named : list (list Z)) (granted : option Policy).

(** The list kept for the root this kernel runs, whole, signed and read. *)
Definition trusted (t : Trace) (m : Manifest) : Prop := exists cmdline data sig cs,
  Did (ReadText (chars "/proc/cmdline")) (Ok cmdline) ∈ t /\ root_hash_from cmdline = Some (m_base m) /\
  Did (ReadFile (list_path (m_base m))) (Ok data) ∈ t /\ zlen data <= LIST_MAX /\
  Did (ReadFile (sig_path (m_base m))) (Ok sig) ∈ t /\ check data sig = true /\ utf8 data = Some cs /\ parse cs = Done m.
(** Every image the zone names is in the list, with all it requires named and all it needs granted. *)
Definition permitted (m : Manifest) : Prop :=
  named ⊆ i_name <$> m_images m /\
  (forall n reqs, (n, reqs) ∈ m_requires m -> n ∈ named -> reqs ⊆ named) /\
  (forall n line, (n, line) ∈ m_needs m -> n ∈ named -> exists need, Policy.parse (of_chars line) "the image list" = Done need /\ need_ok need granted = true).
Definition vetted (t : Trace) (i : Image) : Prop := exists m, trusted t m /\ permitted m /\ i ∈ m_images m /\ i_name i ∈ named.
Definition file_ok (t : Trace) (i : Image) : Prop := exists md, Did (Lstat (image_file i)) (Ok md) ∈ t /\
  md_file md = true /\ md_uid md = 0 /\ Z.land (md_mode md) 18 = 0 /\ md_len md = i_bytes i.
Definition status_call (i : Image) : Call (result (list Z) Z) := Run "veritysetup" (Volume.lits ["status"] ++ [image_mapper i]) None.
Definition verity_call (i : Image) : Call (result (list Z) Z) := Run "veritysetup" (verity_args i) None.
(** dm-verity checks the image against its signed root hash: opened so, or found so. *)
Definition mapped (t : Trace) (i : Image) : Prop :=
  (exists out, Did (verity_call i) (Ok out) ∈ t) \/ (exists s, Did (status_call i) (Ok s) ∈ t /\ status_of s (i_root_hash i) = (true, false)).
Definition has_usr (t : Trace) (i : Image) : Prop := exists md, Did (Lstat (usr_of (image_at i))) (Ok md) ∈ t /\ md_dir md = true.
Definition ready (t : Trace) (i : Image) : Prop := vetted t i /\ file_ok t i /\ mapped t i /\ has_usr t i.

Definition chosen (m : Manifest) : list Image := List.filter (fun i => bool_decide (i_name i ∈ named)) (m_images m).
Definition stack (m : Manifest) : list Z := lowerdir_of ((fun i => usr_of (image_at i)) <$> chosen m).
Definition stack_dir (m : Manifest) : path := SETS ++ [47] ++ Wifi.join 43 ((fun i => i_name i ++ [45] ++ take 16 (i_root_hash i)) <$> chosen m).

Definition prepare_step (t : Trace) (ev : Event) : Prop :=
  match ev with
  | @Did _ (Run prog args stdin) _ => prog = "veritysetup" /\ stdin = None /\ exists i, vetted t i /\ file_ok t i /\
      (args = Volume.lits ["status"] ++ [image_mapper i] \/ args = verity_args i)
  | @Did _ (Mount src at_ fstype flags data) _ => flags = Z.lor 1 (Z.lor 2 4) /\ (* MS_RDONLY | MS_NOSUID | MS_NODEV *)
      ((fstype = chars "ext4" /\ exists i, vetted t i /\ file_ok t i /\ mapped t i /\ src = image_dev i /\ at_ = image_at i) \/
       (fstype = chars "overlay" /\ exists m, trusted t m /\ permitted m /\ Forall (ready t) (chosen m) /\
          at_ = stack_dir m /\ data = stack m ++ chars ",redirect_dir=nofollow"))
  | @Did _ (MkdirAll p) _ => (exists i, p = image_at i) \/ (exists m, p = stack_dir m)
  | @Did _ (Flock p) _ => p = LOCK
  | @Did _ (Exists _) _ | @Did _ (Lstat _) _ | @Did _ (OpenFile _) _ | @Did _ (ReadFile _) _ | @Did _ (ReadText _) _ => True
  | _ => False
  end.

Lemma trusted_mono t t' m : t ⊆ t' -> trusted t m -> trusted t' m.
Proof. intros Ht (c & d & s & cs & H1 & H2 & H3 & H4 & H5 & H6). exists c, d, s, cs. naive_solver. Qed.
Lemma vetted_mono t t' i : t ⊆ t' -> vetted t i -> vetted t' i.
Proof. intros Ht (m & Hm & H1). exists m. split; [by eapply trusted_mono|done]. Qed.
Lemma ready_mono t t' i : t ⊆ t' -> ready t i -> ready t' i.
Proof.
  intros Ht (H1 & (md & H2 & H2') & H3 & md' & H4 & H4'). split_and!; [by eapply vetted_mono|exists md; auto|destruct H3; [left|right]; naive_solver|exists md'; auto].
Qed.
#[local] Hint Resolve sub_snoc sub_trans elem_snoc elem_snoc_l : core.
#[local] Hint Extern 1 (_ ⊆ _) => reflexivity : core.

Abbreviation J := (justified prepare_step).

Lemma keeps_policy_line what : keeps (fun _ : Listing => True) (policy_line what).
Proof. intros s _. unfold wp, policy_line. pose proof (parse_ok (of_chars what) "the image list"). by destruct (Policy.parse _ _). Qed.
Lemma keeps_read_line l : keeps (fun _ : Listing => True) (read_line l).
Proof.
  unfold read_line, read_image, read_requires, read_needs. keeps_steps; try (by apply keeps_modify); apply keeps_policy_line.
Qed.
Lemma parse_total text : parse text <> Panic.
Proof.
  unfold parse. destruct (strip_suffix 10 text) as [body|]; [|done]. destruct (negb _); [done|]. destruct (result_bind _ _) as [[]|]; [|done].
  assert (wp (for_each (drop 3 (split 10 body)) read_line) (fun _ _ => True) (fun _ _ => True) (mkListing [] [] [])) as Hw.
  { apply (keeps_for_each (fun _ => True)); [|done]. intros x _. apply keeps_read_line. }
  unfold wp in Hw. destruct (for_each _ _ _) as [[]]; [by case_bool_decide|done..].
Qed.
Lemma needs_met_ok m image : match needs_met m image granted with
  | Done _ => forall line, (image, line) ∈ m_needs m -> exists need, Policy.parse (of_chars line) "the image list" = Done need /\ need_ok need granted = true
  | Fail _ => True | Panic => False end.
Proof.
  unfold needs_met. induction (m_needs m) as [|[n line] needs IH]; cbn [needs_among]; [intros line ?%elem_of_nil; done|].
  case_bool_decide as Hn; cbn [negb].
  - subst n. pose proof (parse_ok (of_chars line) "the image list") as Hp. destruct (Policy.parse _ _) as [need| |] eqn:Ep; [|done..].
    destruct (need_ok need granted) eqn:Eo; [|done]. cbn. destruct (needs_among _ _ _); [|done..].
    intros l [[= ->]|Hl]%elem_of_cons; [eauto|by apply IH].
  - destruct (needs_among _ _ _); [|done..]. intros l [[= -> ->]|Hl]%elem_of_cons; [done|by apply IH].
Qed.
Lemma requires_met_ok m : requires_met m named = Ok tt -> forall n reqs, (n, reqs) ∈ m_requires m -> n ∈ named -> reqs ⊆ named.
Proof.
  unfold requires_met. induction (m_requires m) as [|[n reqs] rs IH]; cbn [requires_among]; [intros _ ? ? ?%elem_of_nil; done|].
  case_bool_decide as Hn; cbn [negb].
  - destruct (List.find _ _) as [r|] eqn:Ef; [done|]. intros Hr n' reqs' [[= -> ->]|Hl]%elem_of_cons Hin; [|by eapply IH].
    intros x Hx%list_elem_of_In. pose proof (List.find_none _ _ Ef x Hx) as Hf. by apply negb_false_iff, bool_decide_eq_true in Hf.
  - intros Hr n' reqs' [[= -> ->]|Hl]%elem_of_cons Hin; [done|by eapply IH].
Qed.

Lemma wp_verified_list base (Q : Manifest -> Trace -> Prop) t cmdline : J t ->
  Did (ReadText (chars "/proc/cmdline")) (Ok cmdline) ∈ t -> root_hash_from cmdline = Some base ->
  (forall m t', J t' -> t ⊆ t' -> trusted t' m -> Q m t') -> wp (verified_list sys check base) Q (fun _ => J) t.
Proof.
  intros Ht Hc Hb HQ. unfold verified_list. apply wp_bind, wp_tried.
  eapply wp_mono; [..|apply (wp_read_bounded sys prepare_step ltac:(done) _ _ (fun data t' => J t' /\ t ⊆ t' /\ Did (ReadFile (list_path base)) (Ok data) ∈ t' /\ zlen data <= LIST_MAX)); auto].
  2: { intros e t' Hj. cbv beta iota. apply wp_bind, wp_bind. unfold slice_to.
       assert (hex64 base = true) as Hx.
       { unfold root_hash_from in Hb. repeat (apply bind_Some in Hb as (? & ? & Hb)). case_match; [|done]. by injection Hb as <-. }
       unfold hex64 in Hx. apply andb_true_iff in Hx as [Hx%Z.eqb_eq _]. rewrite Hx. cbn. apply wp_ret. by apply wp_fail. }
  intros data t1 (H1 & Hs1 & Hd & Hl). cbv beta iota. apply wp_bind, wp_ret, wp_bind.
  eapply wp_mono; [..|apply (wp_read_bounded sys prepare_step ltac:(done) _ _ (fun data' t' => J t' /\ t1 ⊆ t' /\ Did (ReadFile (sig_path base)) (Ok data') ∈ t')); auto]; [|done].
  intros sig t2 (H2 & Hs2 & Hd2). apply wp_bind, wp_reject_if; [done|]. intros Hck%negb_false_iff. apply wp_bind. unfold parse_bytes.
  apply wp_bind, wp_require; [|done]. intros cs Hcs. pose proof (parse_total cs) as Hp. destruct (parse cs) as [m|e|] eqn:Em; [|by apply wp_fail|done].
  apply wp_ret, wp_bind, wp_reject_if; [done|]. intros Hm%negb_false_iff%bool_decide_eq_true. apply wp_ret, HQ; [done|set_solver|].
  exists cmdline, data, sig, cs. rewrite Hm. split_and!; auto.
Qed.

Lemma trusted_wf t m i : trusted t m -> i ∈ m_images m -> image_wf i.
Proof.
  intros (? & ? & ? & cs & _ & _ & _ & _ & _ & _ & _ & Hp) Hi. apply image_list_exact in Hp as [(_ & _ & _ & Hw) _].
  pose proof (lw_images _ Hw) as Hf. rewrite Forall_forall in Hf. by apply Hf.
Qed.

Lemma wp_mount src at_ fstype data (Q : unit -> Trace -> Prop) t : J t -> (forall a, prepare_step t (Did (Mount src at_ fstype MOUNT_FLAGS data) a)) ->
  (forall t', J t' -> t ⊆ t' -> Q tt t') -> wp (mount sys src at_ fstype data) Q (fun _ => J) t.
Proof.
  intros Ht HP HQ. unfold mount. apply wp_bind, wp_reject_if; [done|]. intros _. apply (wp_called sys prepare_step); [done..| |done]. intros [] Hj. auto.
Qed.

Lemma wp_map_image i (Q : unit -> Trace -> Prop) t : J t -> vetted t i -> file_ok t i ->
  (forall t', J t' -> t ⊆ t' -> mapped t' i -> Q tt t') -> wp (map_image sys i) Q (fun _ => J) t.
Proof.
  intros Ht Hv Hf HQ. unfold map_image. apply wp_bind, (wp_call sys prepare_step); [done..|]. intros there H1.
  assert (forall args a, args = Volume.lits ["status"] ++ [image_mapper i] \/ args = verity_args i ->
    prepare_step (t ++ [Did (Exists (image_dev i)) there]) (Did (Run "veritysetup" args None) a)) as Hrun.
  { intros args a Ha. split_and!; [done..|]. exists i. destruct Hf as (md & ? & ?). split_and!; [by eapply vetted_mono; [apply sub_snoc|]|exists md; auto|done]. }
  destruct there.
  - apply wp_bind, (wp_call sys prepare_step); [done|intros; apply Hrun; by left|]. intros [s|code] H2; apply wp_bind; [|by apply wp_fail].
    apply wp_ret. destruct (status_of s (i_root_hash i)) as [its bad] eqn:Es. apply wp_bind, wp_reject_if; [done|]. intros ->%negb_false_iff.
    apply wp_reject_if; [done|]. intros ->. apply HQ; [done|auto|]. right. exists s. auto.
  - assert (U64_MAX <? i_data_blocks i * BLOCK = false) as ->.
    { destruct Hv as (m & Hm & _ & Hi & _). destruct (trusted_wf _ _ _ Hm Hi) as [_ _ _ Hb [Hs _]]. apply Z.ltb_ge. unfold IMAGE_MAX in Hs.
      change (Z.shiftl 16 30) with 17179869184 in Hs. lia. }
    apply wp_bind, wp_ret, wp_bind, (wp_call sys prepare_step); [done|intros; apply Hrun; by right|]. intros [out|code] H2; [|by apply wp_fail].
    apply wp_ret, HQ; [done|auto|]. left. exists out. auto.
Qed.

Lemma wp_open_image i (Q : path -> Trace -> Prop) t : J t -> vetted t i ->
  (forall t', J t' -> t ⊆ t' -> ready t' i -> Q (image_at i) t') -> wp (open sys i) Q (fun _ => J) t.
Proof.
  intros Ht Hv HQ. unfold open. apply wp_bind, (wp_called sys prepare_step); [done..| |done]. intros md H1.
  apply wp_bind, wp_reject_if; [done|]. intros Hc. rewrite !orb_false_iff, !negb_false_iff, !Z.eqb_eq in Hc. destruct Hc as [[Hc1 Hc2] Hc3].
  apply wp_bind, wp_reject_if; [done|]. intros Hlen%negb_false_iff%Z.eqb_eq.
  assert (file_ok (t ++ [Did (Lstat (image_file i)) (Ok md)]) i) as Hf by (exists md; auto).
  apply (vetted_mono _ (t ++ [Did (Lstat (image_file i)) (Ok md)])) in Hv; [|auto].
  assert (t ⊆ t ++ [Did (Lstat (image_file i)) (Ok md)]) as Hs by auto. set (t1 := t ++ _) in *. clearbody t1.
  apply wp_bind, wp_map_image; [done..|]. intros t2 H2 Hs2 Hm. apply wp_bind. unfold Volume.is_mountpoint. apply wp_bind, (wp_call sys prepare_step); [done..|].
  intros mounts H3. apply wp_ret, wp_bind.
  assert (forall t', t2 ⊆ t' -> vetted t' i /\ file_ok t' i /\ mapped t' i) as Hall.
  { intros t' Hs'. destruct Hf as (md' & ? & ?). split_and!; [by eapply vetted_mono; [|exact Hv]; set_solver|exists md'; split; [set_solver|done]|].
    destruct Hm as [[o Hm]|(s & Hm & ?)]; [left; exists o; auto|right; exists s; auto]. }
  eapply (wp_mono _ (fun _ t' => J t' /\ t2 ⊆ t') _ (fun _ => J)); [|done|].
  - intros _ t3 [H4 Hs3]. apply wp_bind, (wp_call sys prepare_step); [done..|]. intros r H5. apply wp_bind, wp_reject_if; [done|]. intros Hu%negb_false_iff.
    apply wp_ret, HQ; [done|set_solver|]. destruct r as [md'|]; [|done]. destruct (Hall (t3 ++ [Did (Lstat (usr_of (image_at i))) (Ok md')])) as (? & ? & ?); [auto|].
    split_and!; [done..|]. exists md'. auto.
  - apply wp_when; [|split; [done|auto]]. intros _. apply wp_bind, (wp_called sys prepare_step); [done|by intros; left; exists i| |done]. intros [] H4.
    apply wp_mount; [done| |split; [done|set_solver]]. intros a. split; [done|]. left. split; [done|]. exists i. destruct (Hall ((t2 ++ [Did (ReadText (chars "/proc/self/mounts")) mounts]) ++ [Did (MkdirAll (image_at i)) (Ok ())])) as (? & ? & ?); [auto|].
    by split_and!.
Qed.

Lemma wp_open_all images (Q : list path -> Trace -> Prop) t : J t -> Forall (vetted t) images ->
  (forall t', J t' -> t ⊆ t' -> Forall (ready t') images -> Q ((fun i => usr_of (image_at i)) <$> images) t') -> wp (open_all sys images) Q (fun _ => J) t.
Proof.
  revert Q t. induction images as [|i images IH]; intros Q t Ht Hv HQ; cbn [open_all]; [apply wp_ret, HQ; [done|auto|constructor]|].
  apply Forall_cons in Hv as [Hi Hv]. apply wp_bind, wp_open_image; [done..|]. intros t1 H1 Hs1 Hr. apply wp_bind, IH; [done|..].
  { eapply Forall_impl; [exact Hv|]. intros x. by apply vetted_mono. }
  intros t2 H2 Hs2 Hrs. apply wp_ret, HQ; [done|set_solver|]. constructor; [by eapply ready_mono|done].
Qed.

Lemma wp_set_dir images (Q : path -> Trace -> Prop) R t : Forall image_wf images ->
  Q (SETS ++ [47] ++ Wifi.join 43 ((fun i => i_name i ++ [45] ++ take 16 (i_root_hash i)) <$> images)) t -> wp (set_dir images) Q R t.
Proof.
  intros Hw HQ. unfold set_dir. apply wp_bind.
  assert (forall Q' : list (list Z) -> Trace -> Prop, Q' ((fun i => i_name i ++ [45] ++ take 16 (i_root_hash i)) <$> images) t -> wp (parts images) Q' R t) as Hp.
  { clear HQ. induction Hw as [|i images Hi _ IH]; intros Q' HQ'; cbn [parts]; [by apply wp_ret|]. apply wp_bind. unfold part, slice_to. apply wp_bind.
    destruct Hi as [_ _ (_ & Hx & _) _ _]. unfold hex64 in Hx. apply andb_true_iff in Hx as [Hx%Z.eqb_eq _]. rewrite Hx. cbn.
    apply wp_ret, wp_ret, wp_bind, IH. by apply wp_ret. }
  by apply Hp, wp_ret.
Qed.

Lemma wp_check_named m ch names (Q : unit -> Trace -> Prop) t : J t ->
  (names ⊆ i_name <$> ch -> (forall n line, (n, line) ∈ m_needs m -> n ∈ names -> exists need, Policy.parse (of_chars line) "the image list" = Done need /\ need_ok need granted = true) -> Q tt t) ->
  wp (check_named m ch granted names) Q (fun _ => J) t.
Proof.
  revert Q. induction names as [|n names IH]; intros Q Ht HQ; cbn [check_named].
  { apply wp_ret, HQ; [set_solver|]. by intros ? ? _ ?%elem_of_nil. }
  apply wp_bind, wp_reject_if; [done|]. intros Hin%negb_false_iff%existsb_named. pose proof (needs_met_ok m n) as Hn. apply wp_bind.
  destruct (needs_met m n granted); [|by apply wp_fail|done]. apply wp_ret, IH; [done|]. intros Hs Hneed. apply HQ; [set_solver|].
  intros n' line Hl [->|Hi]%elem_of_cons; [by apply Hn|by eapply Hneed].
Qed.
End opened.


(** ** A medium *)
Section medium.
Context `{LibcLaws} (sys : Sys) (check : bytes -> bytes -> bool) (dir : path) (base : list Z) (out : path).
Definition medium_list : path := slash dir (chars "images.manifest").
Definition medium_sig : path := slash dir (chars "images.manifest.sig").
(** The very bytes of the medium's list and signature, checked, for the root, with its images. *)
Definition medium_ok (t : Trace) (text sig : bytes) : Prop :=
  Did (ReadFile medium_list) (Ok text) ∈ t /\ Did (ReadFile medium_sig) (Ok sig) ∈ t /\ check text sig = true /\
  exists cs m, utf8 text = Some cs /\ parse cs = Done m /\ m_base m = base /\
    Forall (fun i => exists md, Did (Lstat (slash dir (i_name i ++ chars ".img"))) (Ok md) ∈ t /\ md_file md = true /\ md_len md = i_bytes i) (m_images m).
Definition medium_step (t : Trace) (ev : Event) : Prop :=
  match ev with
  | @Did _ (WriteWhole p data mode) _ => mode = 384 /\ exists text sig, medium_ok t text sig /\
      (p = slash out (chars "images.manifest") /\ data = text \/ p = slash out (chars "images.manifest.sig") /\ data = sig)
  | @Did _ (Lstat _) _ | @Did _ (OpenFile _) _ | @Did _ (ReadFile _) _ => True
  | _ => False
  end.
Lemma medium_ok_mono t t' text sig : t ⊆ t' -> medium_ok t text sig -> medium_ok t' text sig.
Proof.
  intros Hs (H1 & H2 & H3 & cs & m & H4 & H5 & H6 & H7). split_and!; auto. exists cs, m. split_and!; auto. eapply Forall_impl; [exact H7|].
  intros i (md & ? & ?). exists md. auto.
Qed.

Lemma wp_check_sizes images (Q : unit -> Trace -> Prop) t : justified medium_step t ->
  (forall t', justified medium_step t' -> t ⊆ t' ->
    Forall (fun i => exists md, Did (Lstat (slash dir (i_name i ++ chars ".img"))) (Ok md) ∈ t' /\ md_file md = true /\ md_len md = i_bytes i) images -> Q tt t') ->
  wp (check_sizes sys dir images) Q (fun _ => justified medium_step) t.
Proof.
  revert Q t. induction images as [|i images IH]; intros Q t Ht HQ; cbn [check_sizes]; [apply wp_ret, HQ; [done|reflexivity|constructor]|].
  apply wp_bind, (wp_called sys medium_step); [done..| |done]. intros md H1. apply wp_bind, wp_reject_if; [done|]. intros Hc.
  apply orb_false_iff in Hc as [Hf%negb_false_iff Hl%negb_false_iff%Z.eqb_eq]. apply IH; [done|]. intros t' Hj Hs Hi. apply HQ; [done| |].
  - intros e He. apply Hs, elem_snoc_l, He.
  - constructor; [|done]. exists md. split_and!; [apply Hs, elem_snoc|done..].
Qed.

(** What the installer keeps of a medium is, byte for byte, the list and the signature that were
    checked: signed, for the root it installs, naming only images there at their signed size. *)
Theorem medium_checked : let '(r, t) := check_medium_with sys check dir base (Some out) [] in r <> Panic /\ justified medium_step t.
Proof.
  assert (wp (check_medium_with sys check dir base (Some out)) (fun _ => justified medium_step) (fun _ => justified medium_step) []) as Hw.
  2: { unfold wp in Hw. destruct (check_medium_with _ _ _ _ _ _) as [[]]; done. }
  unfold check_medium_with. apply wp_bind, (wp_read_bounded sys medium_step ltac:(done)); [apply justified_nil|]. intros text t1 H1 _ Ht _.
  apply wp_bind, (wp_read_bounded sys medium_step ltac:(done)); [done|]. intros sig t2 H2 Hs2 Hg _. apply wp_bind, wp_reject_if; [done|]. intros Hck%negb_false_iff.
  apply wp_bind. unfold parse_bytes. apply wp_bind, wp_require; [|done]. intros cs Hcs. pose proof (parse_total cs) as Hp. destruct (parse cs) as [m|e|] eqn:Em; [|by apply wp_fail|done].
  apply wp_ret, wp_bind, wp_reject_if; [done|]. intros Hm%negb_false_iff%bool_decide_eq_true.
  apply wp_bind, wp_check_sizes; [done|]. intros t3 H3 Hs3 Hi.
  assert (medium_ok t3 text sig) as Hok by (split_and!; auto; exists cs, m; auto).
  apply wp_bind, wp_bind, (wp_called sys medium_step); [done|intros; split; [done|]; exists text, sig; auto| |done]. intros [] H4.
  apply (wp_called sys medium_step); [done| |intros; by apply wp_ret|done]. intros a. split; [done|]. exists text, sig. split; [|auto].
  eapply medium_ok_mono; [apply sub_snoc|done].
Qed.
End medium.

(** ** One system *)
Definition demo_hash (c : Z) : list Z := replicate 64 c.
Definition demo_image : Image := mkImage (chars "firefox") (chars "1.0") 8192 (demo_hash 97) 1 (demo_hash 98) (demo_hash 99).
Definition demo_list : Manifest := mkManifest (chars "0.9") (demo_hash 100) [demo_image] [] [(chars "firefox", chars "allow-socket AF_NETLINK")].
Definition demo_cmdline : list Z := chars "ro dm-mod.create=" ++ [34] ++ chars "kroot,,,ro,0 8 verity 1 a b 4096 4096 1 1 sha256 " ++ demo_hash 100 ++ chars " 00" ++ [34].
Definition demo_sys : Sys := fun A n c =>
  match c in Call A return A with
  | Run _ _ _ => Ok [] | Exists _ => false
  | Stat _ => Err NotFound
  | Lstat p => Ok (mkMeta true (bool_decide (p = usr_of (image_at demo_image))) 8192 0 384)
  | OpenFile _ => Ok (mkMeta true false 8192 0 384)
  | ReadFile p => Ok (if bool_decide (p = list_path (demo_hash 100)) then encode_chars (unlines (list_lines demo_list)) else [])
  | ReadText p => Ok (if bool_decide (p = chars "/proc/cmdline") then demo_cmdline else [])
  | ReadDir _ => None | Resolve _ => None
  | WriteText _ _ | MkdirAll _ | Chmod _ _ | Create _ _ | SetLen _ _ | RemoveFile _ | Rename _ _ | WriteWhole _ _ _ | Mount _ _ _ _ _ | Flush _ | OpenDev _ _ => Ok tt
  | MemfdCreate _ => None | WriteFd _ _ => 0 | Flock _ | FlockShared _ => true | Names => [] | StateOf _ => Ok Registry.Absent | RunFor _ _ _ _ => NotRun | DevOf _ => Err NotFound | Now => 0 | Sleep _ | Sync => tt
  end.
Definition image_policy : Policy := match @Policy.parse x86_64_libc "allow-socket AF_NETLINK" "demo.policy" with Done p => p | _ => default_policy "" end.
Definition image_zone : Zone := ZoneClaims.zone_of (work_toml +:+ quoted "
[software]
images = 'firefox'
").
Definition image_run : outcome path ImageError * Trace := @prepare x86_64_libc demo_sys (fun _ _ => true) 0 image_zone (Some image_policy) [].

