(* ===== verification/Confine.v ===== *)
(** * The confinement of a zone, end to end

    From a policy file to the program the kernel runs: what the filter of a zone, of
    wpa_supplicant and of the Wayland proxy decide for every call, which calls no policy opens,
    and what the bounding set keeps. *)
From S2P Require Import Prelude Bytes Text Zone Syscalls Bpf Caps Seccomp SeccompSpec Policy PolicySafe.
Open Scope string_scope.
Open Scope list_scope.
Open Scope Z_scope.

(** ** The widened allowlist *)
Section widened.
Context `{LibcLaws}.

Lemma widen_with_Ok allow extra :
  Forall (fun nr => is_denied nr = false) extra -> widen_with allow extra = Ok (fold_left push_new extra allow).
Proof.
  revert allow. induction extra as [|x l IH]; intros allow HF; [done|].
  apply Forall_cons in HF as [Hx HF]. cbn [widen_with fold_left]. rewrite Hx. by apply IH.
Qed.

Lemma widen_with_Ok_inv allow extra allow' :
  widen_with allow extra = Ok allow' ->
  Forall (fun nr => is_denied nr = false) extra /\ allow' = fold_left push_new extra allow.
Proof.
  revert allow. induction extra as [|x l IH]; intros allow; cbn [widen_with fold_left]; [by intros [= ->]|].
  destruct (is_denied x) eqn:Hx; [done|]. intros [HF ->]%IH. by repeat constructor.
Qed.

(** A call some kept capability opens again. *)
Definition opened (kept : list Z) (n : Z) : bool :=
  existsb (fun c => contains kept c.1 && contains c.2 n) CAP_CALLS.

Lemma contains_cap_calls kept (l : list (Z * list Z)) allow n :
  contains (fold_left (fun allow c =>
      if contains kept c.1 then fold_left push_new c.2 allow else allow) l allow) n
  = contains allow n || existsb (fun c => contains kept c.1 && contains c.2 n) l.
Proof.
  revert allow. induction l as [|[c calls] l IH]; intros allow; cbn [fold_left existsb fst snd];
    [by rewrite orb_false_r|].
  rewrite IH. destruct (contains kept c); cbn [andb orb]; [|done].
  by rewrite contains_push_all, orb_assoc.
Qed.

Lemma zlen_cap_calls kept (l : list (Z * list Z)) allow :
  zlen (fold_left (fun allow c =>
      if contains kept c.1 then fold_left push_new c.2 allow else allow) l allow)
  <= zlen allow + zlen (mjoin (snd <$> l)).
Proof.
  revert allow. induction l as [|[c calls] l IH]; intros allow; cbn [fold_left fst snd];
    [change (zlen (mjoin _)) with 0; lia|].
  rewrite join_fmap_cons, zlen_app. cbn [snd]. etrans; [apply IH|].
  destruct (contains kept c); [|pose proof (zlen_nonneg calls); lia].
  pose proof (zlen_push_all calls allow). lia.
Qed.

Lemma widened_for_inv extra kept allow :
  widened_for extra kept = Ok allow ->
  Forall (fun nr => is_denied nr = false) extra /\
  (forall n, contains allow n = contains BASE_ALLOWLIST n || contains extra n || opened kept n) /\
  zlen allow <= 221 + zlen extra.
Proof.
  unfold widened_for, widened. intros (a & Ha & E)%result_bind_Ok. assert (allow = add_cap_calls kept a) as -> by congruence. clear E.
  apply widen_with_Ok_inv in Ha as [HF ->]. split; [done|]. split.
  - intros n. unfold add_cap_calls. by rewrite contains_cap_calls, contains_push_all.
  - etrans; [apply zlen_cap_calls|]. change (zlen (mjoin (snd <$> CAP_CALLS))) with 5.
    pose proof (zlen_push_all extra BASE_ALLOWLIST) as [_ HL].
    assert (zlen BASE_ALLOWLIST = 216) as E by by vm_compute. lia.
Qed.

Lemma widened_for_Ok extra kept :
  Forall (fun nr => is_denied nr = false) extra -> exists allow, widened_for extra kept = Ok allow.
Proof.
  intros HF. unfold widened_for, widened. rewrite widen_with_Ok by done. cbn [result_bind]. eauto.
Qed.

Lemma opened_named kept n : opened kept n = true -> exists s, s ∈ DENIED_CALLS.*1 /\ n = SYS s.
Proof.
  assert (Forall (fun s => s ∈ DENIED_CALLS.*1)
    ["SYS_setuid"; "SYS_capset"; "SYS_setgid"; "SYS_setgroups"; "SYS_chroot"]) as HF.
  { apply (bool_decide_unpack _). vm_compute. exact I. }
  rewrite Forall_forall in HF. intros (c & Hc & [_ Hn]%andb_true_iff)%existsb_exists.
  apply contains_true in Hn. rewrite <-list_elem_of_In in Hc.
  assert (n ∈ mjoin (snd <$> CAP_CALLS)) as Hin.
  { apply list_elem_of_join. exists c.2. split; [done|]. apply list_elem_of_fmap. eauto. }
  change (mjoin (snd <$> CAP_CALLS)) with
    (SYS <$> ["SYS_setuid"; "SYS_capset"; "SYS_setgid"; "SYS_setgroups"; "SYS_chroot"]) in Hin.
  apply list_elem_of_fmap in Hin as (s & -> & Hs). eauto.
Qed.

(** Every number on a parsed policy's list is a system call's. *)
Lemma parsed_allow_range p allow :
  parsed_ok p -> widened_for (extra_syscalls p) (keep_caps p) = Ok allow ->
  Forall (fun n => 0 <= n <= U32_MAX) allow.
Proof.
  intros Hp (_ & Hc & _)%widened_for_inv. apply Forall_forall. intros n Hn.
  apply contains_true in Hn. rewrite Hc in Hn.
  assert (n = SYS_MAP_SHADOW_STACK \/ exists s, s ∈ base_and_rest /\ n = SYS s) as [->|(s & Hs & ->)].
  { apply orb_true_iff in Hn as [[Hn|Hn]%orb_true_iff|Hn].
    - apply contains_true, elem_of_app in Hn as [(s & -> & Hs)%list_elem_of_fmap|Hn].
      + right. exists s. rewrite elem_base_and_rest. auto.
      + left. by apply list_elem_of_singleton.
    - apply contains_true, parsed_extra in Hn as (s & Hs & ->); [|done].
      right. exists s. rewrite elem_base_and_rest. auto.
    - apply opened_named in Hn as (s & Hs & ->). right. exists s. rewrite elem_base_and_rest. auto. }
  - unfold SYS_MAP_SHADOW_STACK. lia.
  - apply is_named, SYS_range in Hs. unfold X32_SYSCALL_BIT in Hs. lia.
Qed.

Lemma parsed_not_denied p : parsed_ok p -> Forall (fun nr => is_denied nr = false) (extra_syscalls p).
Proof.
  intros Hp. apply Forall_forall. intros n Hn. destruct (parsed_extra p n Hp Hn) as (s & Hs & ->).
  apply not_true_iff_false. intros (t & Ht & E)%is_denied_true.
  apply SYS_inj in E as ->; [|apply is_named, elem_base_and_rest; auto..].
  pose proof base_and_rest_NoDup as HN. unfold base_and_rest in HN. rewrite !NoDup_app in HN.
  destruct HN as [(_ & HN & _) _]. apply (HN s); [done|]. rewrite elem_of_app. auto.
Qed.
End widened.

(** ** Decisions under two deny actions *)
Section actions.
Context `{LibcLaws}.

Lemma errno_not_notif e : errno_action e <> SECCOMP_RET_USER_NOTIF.
Proof.
  rewrite USER_NOTIF_value. unfold errno_action, SECCOMP_RET_ERRNO. intros E.
  apply (f_equal (fun x => Z.testbit x 22)) in E. rewrite Z.lor_spec, Z.land_spec in E.
  change (Z.testbit 0x50000 22) with false in E. change (Z.testbit 0xffff 22) with false in E.
  change (Z.testbit 0x7fc00000 22) with true in E. by rewrite andb_false_r in E.
Qed.

Lemma allow_not_notif : SECCOMP_RET_ALLOW <> SECCOMP_RET_USER_NOTIF.
Proof. by rewrite USER_NOTIF_value. Qed.

Lemma kill_not_notif : SECCOMP_RET_KILL_PROCESS <> SECCOMP_RET_USER_NOTIF.
Proof. by rewrite USER_NOTIF_value. Qed.

Lemma soft_refusal_kill e : soft_refusal e SECCOMP_RET_KILL_PROCESS = errno_action e.
Proof.
  unfold soft_refusal. destruct (Z.eqb_spec SECCOMP_RET_KILL_PROCESS SECCOMP_RET_USER_NOTIF) as [E|]; [|done].
  by destruct kill_not_notif.
Qed.

Lemma errno_not_allow e : errno_action e <> SECCOMP_RET_ALLOW.
Proof.
  unfold errno_action, SECCOMP_RET_ERRNO, SECCOMP_RET_ALLOW. intros E.
  apply (f_equal (fun x => Z.testbit x 22)) in E. rewrite Z.lor_spec, Z.land_spec in E.
  change (Z.testbit 0x50000 22) with false in E. change (Z.testbit 0xffff 22) with false in E.
  change (Z.testbit 0x7fff0000 22) with true in E. by rewrite andb_false_r in E.
Qed.

(** The named calls are in the x86-64 table's range. *)
Lemma soft_in_range n p :
  List.find (fun p => p.1 =? n) REFUSED_SOFTLY = Some p -> 0 <= n < X32_SYSCALL_BIT.
Proof.
  intros [Hin E%Z.eqb_eq]%List.find_some. rewrite <-list_elem_of_In in Hin.
  destruct (soft_named p Hin) as (s & Hs & E'). rewrite <-E, E'. by apply SYS_range, named_soft.
Qed.

Lemma clone_named : "SYS_clone" ∈ NAMED.
Proof. apply (bool_decide_unpack _). vm_compute. exact I. Qed.

Lemma rule_not_soft r : List.find (fun p => p.1 =? rule_nr r) REFUSED_SOFTLY = None.
Proof.
  apply find_None. intros p Hp. destruct (soft_named p Hp) as (s & Hs & ->).
  rewrite rule_nr_sys. apply Z.eqb_neq. intros E.
  apply SYS_inj in E as ->; [|by apply named_soft|apply rule_sys_named].
  by destruct (rule_sys_listed r).
Qed.

(** A call with an argument rule finds that rule. *)
Lemma find_rule n r :
  List.find (fun r => rule_nr r =? n) ARG_RULES = Some r -> n = rule_nr r.
Proof. by intros [_ E%Z.eqb_eq]%List.find_some. Qed.
End actions.

(** ** Numbers the filter cannot compare *)
Section bad.
Context `{LibcLaws}.

Lemma emit_allow_bad l n p :
  List.find bad_number l = Some n ->
  exists p', for_each l emit_allow p = (Fail (BadSyscallNumber n), p').
Proof.
  revert p. induction l as [|x l IH]; intros p; [done|]. cbn [List.find for_each].
  Transparent M_bind M_ret. unfold mbind, M_bind at 1, emit_allow at 1, mbind, M_bind, reject_if, fail.
  fold (bad_number x). destruct (bad_number x); [intros [= ->]; eauto|]. intros Hf.
  unfold mret, M_ret, when, push, modify. destruct (negb _); apply (IH _ Hf).
  Opaque M_bind M_ret.
Qed.

Lemma build_bad allow deny_action s n :
  short s -> List.find bad_number allow = Some n ->
  build_program_full allow deny_action s = Fail (BadSyscallNumber n).
Proof.
  intros Hs Hf. unfold build_program_full.
  pose proof (assemble_prefix allow deny_action s Hs) as [pre Hpre].
  destruct (emit_allow_bad allow n pre Hf) as [p' E].
  Transparent M_bind M_ret.
  unfold mbind at 1, M_bind at 1. rewrite (Hpre _ _ E). done.
  Opaque M_bind M_ret.
Qed.
End bad.

(** ** A parsed policy's filter *)
Lemma parsed_filter `{LibcLaws} p :
  parsed_ok p ->
  exists allow prog,
    widened_for (extra_syscalls p) (keep_caps p) = Ok allow /\
    build_program_full allow SECCOMP_RET_KILL_PROCESS (sockets p) = Done prog /\
    zlen prog <= 4096 /\
    forall d, call_ok d -> answer prog d = Some (decision allow SECCOMP_RET_KILL_PROCESS (sockets p) d).
Proof.
  intros Hp.
  destruct (widened_for_Ok (extra_syscalls p) (keep_caps p)) as [allow Ha]; [by apply parsed_not_denied|].
  pose proof (parsed_short p Hp) as Hs. pose proof (parsed_allow_range p allow Hp Ha) as Hr.
  destruct (widened_for_inv _ _ _ Ha) as (_ & _ & HL). pose proof (parsed_extra_len p Hp) as He.
  assert (zlen ADDABLE = 44) as HE by by vm_compute.
  pose proof (zone_program_len allow SECCOMP_RET_KILL_PROCESS (sockets p) Hs) as Hlen.
  exists allow, (zone_program allow SECCOMP_RET_KILL_PROCESS (sockets p)).
  split; [done|]. split; [|split; [lia|by apply zone_program_answer]].
  rewrite build_program_run by done.
  destruct (Z.ltb_spec 4096 (zlen (zone_program allow SECCOMP_RET_KILL_PROCESS (sockets p)))); [lia|done].
Qed.

Lemma Forall2_left {A B} (P : A -> B -> Prop) (Q : A -> Prop) l k :
  Forall2 P l k -> (forall x y, P x y -> Q x) -> Forall Q l.
Proof. intros HF HPQ. induction HF; constructor; eauto. Qed.

Lemma addable_not_base `{LibcLaws} s : s ∈ ADDABLE_CALLS -> SYS s ∉ BASE_ALLOWLIST.
Proof.
  intros Hs Hb. assert (s ∈ NAMED) by (apply is_named, elem_base_and_rest; auto).
  apply elem_of_app in Hb as [(t & E & Ht)%list_elem_of_fmap|Hb].
  - apply SYS_inj in E as ->; [|done|apply is_named, elem_base_and_rest; auto].
    pose proof base_and_rest_NoDup as HN. unfold base_and_rest in HN. rewrite !NoDup_app in HN.
    destruct HN as [(_ & _ & (_ & HN & _)) _]. by apply (HN t).
  - apply list_elem_of_singleton in Hb. by eapply SYS_not_shadow.
Qed.

Lemma first_nic_only_spec caps names :
  length caps = length names ->
  match first_nic_only caps names with
  | Some _ => exists c, c ∈ NIC_ONLY /\ c ∈ caps
  | None => forall c, c ∈ NIC_ONLY -> c ∉ caps
  end.
Proof.
  revert names. induction caps as [|c caps IH]; intros [|n names] Hl; try discriminate Hl;
    cbn [first_nic_only]; [set_solver|]. injection Hl as Hl.
  destruct (contains NIC_ONLY c) eqn:Hc.
  - exists c. split; [by apply contains_true|constructor].
  - specialize (IH names Hl). apply contains_false in Hc. destruct (first_nic_only caps names).
    + destruct IH as (c' & ? & ?). exists c'. split; [done|by constructor].
    + intros c' Hc' [->|]%elem_of_cons; [done|]. by apply (IH c').
Qed.

(** ** The claims about the filters *)
Section claims.
Context `{LibcLaws}.

(** C2: A zone whose policy file parses gets a filter: the widened allowlist
    builds, within the kernel's 4096 instructions, into a program that answers every system call
    exactly as the reference decision over that list and the policy's sockets says. *)
Theorem zone_filter_correct text src p :
  parse text src = Done p ->
  exists allow prog,
    widened_for (extra_syscalls p) (keep_caps p) = Ok allow /\
    build_program_full allow SECCOMP_RET_KILL_PROCESS (sockets p) = Done prog /\
    zlen prog <= 4096 /\
    forall d, call_ok d -> answer prog d = Some (decision allow SECCOMP_RET_KILL_PROCESS (sockets p) d).
Proof.
  intros Hparse. pose proof (parse_ok text src) as Hp. rewrite Hparse in Hp. by apply parsed_filter.
Qed.

(** Assembling a filter never panics for a socket policy short enough for
    one-byte jumps: it refuses the first number that does not fit 32 bits, then a program over
    4096 instructions, and otherwise gives a program that decides every call as the reference. *)
Theorem build_program_total allow deny_action s :
  short s ->
  match build_program_full allow deny_action s with
  | Done prog => zlen prog <= 4096 /\
      forall d, call_ok d -> answer prog d = Some (decision allow deny_action s d)
  | Fail (BadSyscallNumber n) => List.find bad_number allow = Some n
  | Fail (TooManyRules n) => 4096 < n /\ 1386 < zlen allow
  | Fail _ | Panic => False
  end.
Proof.
  intros Hs. destruct (List.find bad_number allow) as [n|] eqn:Hf.
  - by rewrite (build_bad _ _ _ n).
  - assert (Forall (fun n => 0 <= n <= U32_MAX) allow) as Hr.
    { apply Forall_forall. intros n Hn. rewrite find_None in Hf. specialize (Hf n Hn).
      unfold bad_number in Hf. lia. }
    pose proof (zone_program_len allow deny_action s Hs) as Hlen. rewrite build_program_run by done.
    destruct (Z.ltb_spec 4096 (zlen (zone_program allow deny_action s))); [lia|].
    split; [done|]. by apply zone_program_answer.
Qed.

(** C3: Whatever a policy adds and whichever capabilities it keeps, a call of
    the denied list that no kept capability opens is never allowed: the zone is killed for it,
    or gets the errno of its soft refusal. *)
Theorem denied_never_allowed extra kept allow s d :
  widened_for extra kept = Ok allow -> is_denied (nr d) = true -> opened kept (nr d) = false ->
  decision allow SECCOMP_RET_KILL_PROCESS s d = SECCOMP_RET_KILL_PROCESS \/
  exists e, (nr d, e) ∈ REFUSED_SOFTLY /\
    decision allow SECCOMP_RET_KILL_PROCESS s d = errno_action e.
Proof.
  intros (HF & Hc & _)%widened_for_inv Hd Ho.
  assert (contains allow (nr d) = false) as Hn.
  { rewrite Hc, Ho, orb_false_r. apply orb_false_iff. split.
    - apply not_true_iff_false. intros Hb%contains_true%base_not_denied. congruence.
    - apply contains_false. intros Hx. rewrite Forall_forall in HF. apply HF in Hx. congruence. }
  unfold decision. destruct (negb _); [auto|]. destruct (_ || _); [auto|]. rewrite Hn.
  destruct (List.find _ REFUSED_SOFTLY) as [[n e]|] eqn:Hf; [|auto].
  apply List.find_some in Hf as [Hin E%Z.eqb_eq]. rewrite <-list_elem_of_In in Hin.
  right. exists e. rewrite soft_refusal_kill. cbn in E. by subst.
Qed.

(** The allowlist of a zone is the base list, the policy's calls and the
    calls its kept capabilities open, and nothing else; it exists exactly when the policy adds
    no denied call. *)
Theorem widened_for_spec extra kept :
  match widened_for extra kept with
  | Ok allow => forall n, n ∈ allow <->
      n ∈ BASE_ALLOWLIST \/ n ∈ extra \/ exists c, c ∈ CAP_CALLS /\ c.1 ∈ kept /\ n ∈ c.2
  | Err (Denied n) => n ∈ extra /\ is_denied n = true
  | Err _ => False
  end.
Proof.
  destruct (widened_for extra kept) as [allow|e] eqn:Hw.
  - destruct (widened_for_inv _ _ _ Hw) as (_ & Hc & _). intros n.
    rewrite <-contains_true, Hc, !orb_true_iff, !contains_true. unfold opened.
    rewrite existsb_exists. setoid_rewrite andb_true_iff. setoid_rewrite contains_true.
    setoid_rewrite <-list_elem_of_In. naive_solver.
  - unfold widened_for, widened in Hw. revert Hw. generalize BASE_ALLOWLIST.
    induction extra as [|x l IH]; intros base; cbn [widen_with result_bind]; [done|].
    destruct (is_denied x) eqn:Hx.
    + intros [= <-]. split; [constructor|done].
    + intros Hw%IH. destruct e; try done. destruct Hw. split; [by constructor|done].
Qed.

(** What seccomp-trace answers a notified call is what a zone would get: the
    errno of its soft refusal, or nothing where the zone is killed, for every call but the
    ioctls that rewrite a NIC. *)
Theorem soft_errno_agrees allow s d :
  SYS "SYS_clone" ∈ allow ->
  decision allow SECCOMP_RET_USER_NOTIF s d = SECCOMP_RET_USER_NOTIF ->
  ~ (nr d = SYS "SYS_ioctl" /\ ioctl_nic (as_u32 (arg d 1)) = true) ->
  decision allow SECCOMP_RET_KILL_PROCESS s d
  = match soft_errno d with Some e => errno_action e | None => SECCOMP_RET_KILL_PROCESS end.
Proof.
  intros Hclone. unfold decision, soft_errno.
  destruct (arch d =? AUDIT_ARCH_X86_64); cbn [negb]; [|done].
  destruct ((nr d <? 0) || (X32_SYSCALL_BIT <=? nr d)) eqn:Hrange.
  { intros _ _. pose proof (SYS_range _ clone_named). unfold X32_SYSCALL_BIT in *.
    rewrite (proj2 (Z.eqb_neq (nr d) _)) by lia. cbn [andb].
    destruct (List.find _ REFUSED_SOFTLY) as [p|] eqn:Hf; [|done].
    apply soft_in_range in Hf. unfold X32_SYSCALL_BIT in *. lia. }
  destruct (contains allow (nr d)) eqn:Hin.
  - destruct (List.find _ ARG_RULES) as [r|] eqn:Hr; [|by intros ?%allow_not_notif].
    apply find_rule in Hr. rewrite Hr, rule_not_soft. cbn [fmap option_fmap option_map].
    change (SYS "SYS_clone") with (rule_nr CloneNoNamespaces).
    change (SYS "SYS_ioctl") with (rule_nr IoctlRefused).
    destruct r; cbn [rule_decision].
    + rewrite Z.eqb_refl, soft_refusal_kill. destruct (_ =? 0); cbn [negb andb]; [|done].
      by intros ?%allow_not_notif.
    + by intros ?%errno_not_notif.
    + rewrite (proj2 (Z.eqb_neq (rule_nr IoctlRefused) (rule_nr CloneNoNamespaces)))
        by (intros E; by apply rule_nr_inj in E). cbn [andb].
      destruct ((as_u32 (arg d 1) =? TIOCSTI) || _); [done|].
      destruct (ioctl_nic _); [intros _ Hnic; by destruct Hnic|by intros ?%allow_not_notif].
    + destruct (socket_ok _ _ _); [by intros ?%allow_not_notif|by intros ?%errno_not_notif].
    + destruct (_ =? AF_UNIX); [by intros ?%allow_not_notif|by intros ?%errno_not_notif].
  - intros _ _. apply contains_false in Hin.
    rewrite (proj2 (Z.eqb_neq (nr d) (SYS "SYS_clone"))) by (intros E; by rewrite E in Hin). cbn [andb].
    destruct (List.find _ REFUSED_SOFTLY); [apply soft_refusal_kill|done].
Qed.

(** C40: For an ioctl that rewrites a NIC a zone gets EPERM and runs on, while
    under seccomp-trace the call is notified and [soft_errno] has no errno for it, so the trace
    reports it as one the zone is killed for. *)
Theorem ioctl_trace_diverges allow s d :
  SYS "SYS_ioctl" ∈ allow -> arch d = AUDIT_ARCH_X86_64 -> nr d = SYS "SYS_ioctl" ->
  ioctl_nic (as_u32 (arg d 1)) = true ->
  decision allow SECCOMP_RET_KILL_PROCESS s d = errno_action EPERM /\
  decision allow SECCOMP_RET_USER_NOTIF s d = SECCOMP_RET_USER_NOTIF /\
  soft_errno d = None.
Proof.
  intros Hin%contains_true Harch Hnr Hnic.
  pose proof (SYS_range _ (rule_sys_named IoctlRefused)) as Hr. cbn [rule_sys] in Hr.
  assert ((as_u32 (arg d 1) =? TIOCSTI) || (as_u32 (arg d 1) =? TIOCLINUX) = false) as Ht.
  { unfold ioctl_nic, SIOCETHTOOL, SIOCSMIIREG, SIOCDEVPRIVATE, TIOCSTI, TIOCLINUX in *. lia. }
  change (SYS "SYS_ioctl") with (rule_nr IoctlRefused) in *.
  assert (List.find (fun r => rule_nr r =? rule_nr IoctlRefused) ARG_RULES = Some IoctlRefused) as Hf.
  { destruct (List.find _ ARG_RULES) as [r|] eqn:E.
    - apply find_rule, rule_nr_inj in E. congruence.
    - rewrite find_None in E. specialize (E IoctlRefused). rewrite Z.eqb_refl in E.
      discriminate E. unfold ARG_RULES. set_solver. }
  unfold decision, soft_errno. rewrite Harch, Z.eqb_refl, Hnr, Hin, Hf, rule_not_soft.
  cbn [negb rule_decision]. rewrite Ht, Hnic, soft_refusal_kill.
  assert ((rule_nr IoctlRefused <? 0) || (X32_SYSCALL_BIT <=? rule_nr IoctlRefused) = false) as -> by lia.
  split_and!; [done| |].
  - unfold soft_refusal. by rewrite Z.eqb_refl.
  - change (SYS "SYS_clone") with (rule_nr CloneNoNamespaces).
    rewrite (proj2 (Z.eqb_neq (rule_nr IoctlRefused) (rule_nr CloneNoNamespaces))); [done|].
    intros E. by apply rule_nr_inj in E.
Qed.

(** Wpa_supplicant's filter lets every native call through but socket(2),
    which it allows for AF_UNIX, AF_PACKET, netlink's route and generic protocols and AF_INET
    datagrams, whatever socket(2)'s flags, and refuses with EPERM otherwise; a call of another
    table kills. *)
Theorem supplicant_filter d :
  call_ok d -> answer supplicant_program d = Some (supplicant_decision d).
Proof. apply supplicant_answer. Qed.

(** The Wayland proxy's filter allows a call of its list whose argument its rule
    accepts (AF_UNIX sockets, FIONBIO, sends to the connected peer, a punch that keeps the size,
    no executable memory) and kills on every other. *)
Theorem proxy_filter d :
  call_ok d -> answer proxy_program d = Some (proxy_decision d).
Proof. apply proxy_answer. Qed.

(** When confining a zone succeeds, no_new_privs is set and the kernel
    was given, with its exact length and for every thread, a program that decides every call as
    the reference does over the zone's list; it never panics for a parsed policy. *)
Theorem confined_zone_runs_filter text src p kern :
  parse text src = Done p ->
  match confine_zone_with true kern (extra_syscalls p) (sockets p) (keep_caps p) with
  | Done _ => exists allow prog,
      widened_for (extra_syscalls p) (keep_caps p) = Ok allow /\
      0 <= (prctl_nnp kern).1 /\
      (sys_seccomp kern SECCOMP_FILTER_FLAG_TSYNC (zlen prog) prog).1 = 0 /\
      forall d, call_ok d -> answer prog d = Some (decision allow SECCOMP_RET_KILL_PROCESS (sockets p) d)
  | Fail (Syscall _ _) | Fail (Unsynced _) => True
  | Fail _ | Panic => False
  end.
Proof.
  intros Hparse. pose proof (parse_ok text src) as Hp. rewrite Hparse in Hp.
  destruct (parsed_filter p Hp) as (allow & prog & Ha & Hb & Hlen & Hans).
  unfold confine_zone_with, install_with. rewrite Ha. cbn [negb]. rewrite Hb.
  unfold attach. destruct (prctl_nnp kern) as [nnp e] eqn:Hn.
  destruct (Z.ltb_spec nnp 0); cbn [of_result unit_of]; [done|].
  assert (as_u16 (zlen prog) = zlen prog) as ->.
  { unfold as_u16. apply Z.mod_small. pose proof (zlen_nonneg prog). lia. }
  destruct (sys_seccomp _ _ _ _) as [ret e'] eqn:Hs.
  destruct (Z.ltb_spec ret 0); cbn [of_result unit_of]; [done|].
  rewrite NEW_LISTENER_value. change (Z.land SECCOMP_FILTER_FLAG_TSYNC 8 =? 0) with true.
  rewrite andb_true_r. destruct (Z.ltb_spec 0 ret); cbn [of_result unit_of]; [done|].
  exists allow, prog. rewrite Hs. split_and!; [done..|cbn; lia|done].
Qed.

(** A policy file parses to an error or to additions chosen, each at most once,
    from the tables a policy may name: calls neither denied nor in the base list, socket families
    outside the base ones, netlink protocols beside the route one, and keepable capabilities, with
    the three of privilege separation kept together or not at all. *)
Theorem parse_confined text src :
  match parse text src with
  | Done p =>
    Forall (fun n => n ∈ ADDABLE.*2 /\ is_denied n = false /\ (n ∉ BASE_ALLOWLIST)) (extra_syscalls p) /\
    Forall (fun f => f ∈ SOCKET_FAMILY_NAMES.*2 /\ (f ∉ BASE_SOCKET_FAMILIES)) (families (sockets p)) /\
    Forall (fun v => v ∈ NETLINK_PROTOCOL_NAMES.*2 /\ v <> NETLINK_ROUTE) (netlink_protocols (sockets p)) /\
    Forall (fun c => c ∈ KEEPABLE /\ c <> KEEP) (keep_caps p) /\
    NoDup (extra_syscall_names p) /\ NoDup (socket_names p) /\ NoDup (netlink_names p) /\
    NoDup (keep_cap_names p) /\
    (keeps_privsep (keep_caps p) = true \/ forall c, c ∈ PRIVSEP -> c ∉ keep_caps p)
  | Fail _ => True
  | Panic => False
  end.
Proof.
  pose proof (parse_ok text src) as Hp. destruct (parse text src) as [p|e|]; [|done..].
  pose proof (parsed_not_denied p Hp) as Hnd. pose proof (parsed_extra p) as Hex. pose proof Hp as Hp'.
  destruct Hp as ([] & ? & ? & ? & ? & Hpriv). split_and!; try done.
  - apply Forall_forall. intros n Hn. rewrite Forall_forall in Hnd. split_and!; [|by apply Hnd|].
    + apply list_elem_of_lookup in Hn as [i Hi].
      destruct (Forall2_lookup_l _ _ _ _ _ ok_calls Hi) as (name & _ & Hin). by eapply elem_snd.
    + destruct (Hex n Hp' Hn) as (s & Hs & ->). by apply addable_not_base.
  - eapply Forall2_left; [done|]. intros v n [Hin ?]. split; [by eapply elem_snd|done].
  - eapply Forall2_left; [done|]. by intros c n (_ & ? & ?).
  - destruct Hpriv as [Hall|]; [left|by right]. apply forallb_forall.
    intros c Hc. apply contains_true, Hall. by apply list_elem_of_In.
Qed.

(** A parsed policy passes the check of its zone exactly when the zone
    owns the NIC or the policy keeps none of the capabilities reserved to it. *)
Theorem nic_capabilities_confined text src p zone_name network :
  parse text src = Done p ->
  check_for_zone p zone_name network = Ok tt <->
  network = Nic \/ forall c, c ∈ NIC_ONLY -> c ∉ keep_caps p.
Proof.
  intros Hparse. pose proof (parse_ok text src) as Hp. rewrite Hparse in Hp.
  destruct Hp as ([] & _). apply Forall2_length in ok_caps.
  unfold check_for_zone. destruct (bool_decide_reflect (network <> Nic)) as [Hn|Hn].
  - pose proof (first_nic_only_spec (keep_caps p) (keep_cap_names p) ok_caps) as Hf.
    destruct (first_nic_only _ _) as [name|].
    + destruct Hf as (c & Hc & Hk). split; [done|]. intros [?|Hnone]; [done|]. by destruct (Hnone c).
    + split; [|done]. intros _. right. done.
  - split; [|done]. intros _. left. destruct network; naive_solver.
Qed.
End claims.

(** ** The claim about the bounding set *)

(** When the sweep succeeds the bounding set keeps, of the capabilities up to the
    kernel's last, only NET_BIND_SERVICE, the keepable ones asked for and those the kernel says it
    does not have; when it fails it names a capability the kernel refused to drop. *)
Theorem bounding_set_swept `{Libc} prctl_drop file keep b :
  match drop_bounding_set_except prctl_drop file keep b with
  | (Done _, b') => forall c, 0 <= c <= last_cap file ->
      c ∈ b' <-> c ∈ b /\ (c = KEEP \/ (c ∈ keep /\ c ∈ KEEPABLE) \/ prctl_drop c = Some EINVAL)
  | (Fail e, _) => 0 <= cap e <= last_cap file /\ cap e <> KEEP /\
      prctl_drop (cap e) = Some (errno e) /\ errno e <> EINVAL
  | (Panic, _) => False
  end.
Proof.
  pose proof (drop_sweep prctl_drop keep (seqZ 0 (last_cap file + 1)) b) as Hw.
  unfold drop_bounding_set_except, wp in *. destruct (for_each _ _ b) as [[u|e|] b'].
  - intros c Hc. rewrite Hw, elem_of_seqZ. unfold kept.
    rewrite orb_true_iff, andb_true_iff, Z.eqb_eq, !contains_true.
    assert (0 <= c < 0 + (last_cap file + 1)) by lia. tauto.
  - destruct Hw as (Hin%elem_of_seqZ & Hk & ? & ?). split_and!; [lia..| |done|done].
    unfold kept in Hk. apply orb_false_iff in Hk as [Hk%Z.eqb_neq _]. done.
  - done.
Qed.

(** ** The theorems on x86-64 *)
Definition demo_text : string := "# the nic zone's daemon
allow-syscall inotify_init1
allow-socket AF_PACKET
allow-netlink NETLINK_GENERIC
keep-capability CAP_SETUID
keep-capability CAP_SETGID
keep-capability CAP_SYS_CHROOT
".
Definition demo_policy : Policy :=
  match @parse x86_64_libc demo_text "nic.policy" with Done p => p | _ => default_policy "" end.
Definition demo_call (n : Z) (args : list Z) : seccomp_data :=
  {| nr := n; arch := AUDIT_ARCH_X86_64; instruction_pointer := 0; args := args |}.
Definition demo_allow : list Z :=
  match @widened_for x86_64_libc [254] [] with Ok l => l | Err _ => [] end.
Definition demo_kernel : Kernel := {| prctl_nnp := (0, 0); sys_seccomp _ _ _ := (0, 0) |}.

Lemma demo_parsed : @parse x86_64_libc demo_text "nic.policy" = Done demo_policy.
Proof. vm_compute. reflexivity. Qed.

Lemma demo_call_ok n args : (-2147483648 <=? n) && (n <? 2147483648) = true -> call_ok (demo_call n args).
Proof. intros. unfold call_ok. cbn [nr demo_call]. lia. Qed.

Lemma zone_filter_correct_witness :
  exists allow prog,
    @widened_for x86_64_libc (extra_syscalls demo_policy) (keep_caps demo_policy) = Ok allow /\
    @build_program_full x86_64_libc allow SECCOMP_RET_KILL_PROCESS (sockets demo_policy) = Done prog /\
    zlen prog <= 4096 /\
    forall d, call_ok d ->
      answer prog d = Some (@decision x86_64_libc allow SECCOMP_RET_KILL_PROCESS (sockets demo_policy) d).
Proof. apply (@zone_filter_correct x86_64_libc x86_64_laws demo_text "nic.policy"), demo_parsed. Defined.

Lemma build_program_total_witness :
  match @build_program_full x86_64_libc [0; 1; 5000000000] SECCOMP_RET_KILL_PROCESS default_sockets with
  | Done prog => zlen prog <= 4096 /\ forall d, call_ok d ->
      answer prog d
      = Some (@decision x86_64_libc [0; 1; 5000000000] SECCOMP_RET_KILL_PROCESS default_sockets d)
  | Fail (BadSyscallNumber n) => List.find bad_number [0; 1; 5000000000] = Some n
  | Fail (TooManyRules n) => 4096 < n /\ 1386 < zlen [0; 1; 5000000000]
  | Fail _ | Panic => False
  end.
Proof. apply (@build_program_total x86_64_libc x86_64_laws). vm_compute. discriminate. Defined.

Lemma denied_never_allowed_witness :
  let d := demo_call 272 [0x10000000] in
  @decision x86_64_libc demo_allow SECCOMP_RET_KILL_PROCESS default_sockets d = SECCOMP_RET_KILL_PROCESS \/
  exists e, (272, e) ∈ @REFUSED_SOFTLY x86_64_libc /\
    @decision x86_64_libc demo_allow SECCOMP_RET_KILL_PROCESS default_sockets d = errno_action e.
Proof.
  apply (@denied_never_allowed x86_64_libc x86_64_laws [254] [] demo_allow default_sockets
    (demo_call 272 [0x10000000])); vm_compute; reflexivity.
Defined.

Lemma soft_errno_agrees_witness :
  let d := demo_call 56 [0x10000000] in
  @decision x86_64_libc demo_allow SECCOMP_RET_KILL_PROCESS default_sockets d
  = match @soft_errno x86_64_libc d with Some e => errno_action e | None => SECCOMP_RET_KILL_PROCESS end.
Proof.
  apply (@soft_errno_agrees x86_64_libc x86_64_laws demo_allow default_sockets (demo_call 56 [0x10000000])).
  - apply (bool_decide_unpack _). vm_compute. exact I.
  - vm_compute. reflexivity.
  - vm_compute. intros [E _]. discriminate E.
Defined.

Lemma ioctl_trace_diverges_witness :
  let d := demo_call 16 [3; SIOCETHTOOL] in
  @decision x86_64_libc demo_allow SECCOMP_RET_KILL_PROCESS default_sockets d = errno_action EPERM /\
  @decision x86_64_libc demo_allow 0x7fc00000 default_sockets d = 0x7fc00000 /\
  @soft_errno x86_64_libc d = None.
Proof.
  apply (@ioctl_trace_diverges x86_64_libc x86_64_laws demo_allow default_sockets (demo_call 16 [3; SIOCETHTOOL]));
    first [vm_compute; reflexivity|apply (bool_decide_unpack _); vm_compute; exact I].
Defined.

Lemma supplicant_filter_witness :
  answer (@supplicant_program x86_64_libc) (demo_call 41 [2; 0x80002; 0])
  = Some (@supplicant_decision x86_64_libc (demo_call 41 [2; 0x80002; 0])).
Proof. apply (@supplicant_filter x86_64_libc x86_64_laws), demo_call_ok. reflexivity. Defined.

Lemma proxy_filter_witness :
  answer (@proxy_program x86_64_libc) (demo_call 9 [0; 4096; 7])
  = Some (@proxy_decision x86_64_libc (demo_call 9 [0; 4096; 7])).
Proof. apply (@proxy_filter x86_64_libc x86_64_laws), demo_call_ok. reflexivity. Defined.

Lemma confined_zone_runs_filter_witness :
  match @confine_zone_with x86_64_libc true demo_kernel (extra_syscalls demo_policy) (sockets demo_policy)
          (keep_caps demo_policy) with
  | Done _ => exists allow prog,
      @widened_for x86_64_libc (extra_syscalls demo_policy) (keep_caps demo_policy) = Ok allow /\
      0 <= (prctl_nnp demo_kernel).1 /\
      (sys_seccomp demo_kernel SECCOMP_FILTER_FLAG_TSYNC (zlen prog) prog).1 = 0 /\
      forall d, call_ok d ->
        answer prog d = Some (@decision x86_64_libc allow SECCOMP_RET_KILL_PROCESS (sockets demo_policy) d)
  | Fail (Syscall _ _) | Fail (Unsynced _) => True
  | Fail _ | Panic => False
  end.
Proof.
  apply (@confined_zone_runs_filter x86_64_libc x86_64_laws demo_text "nic.policy"), demo_parsed.
Defined.

Lemma parse_confined_witness :
  match @parse x86_64_libc demo_text "nic.policy" with
  | Done p =>
    Forall (fun n => n ∈ (@ADDABLE x86_64_libc).*2 /\ @is_denied x86_64_libc n = false
                     /\ (n ∉ @BASE_ALLOWLIST x86_64_libc)) (extra_syscalls p) /\
    Forall (fun f => f ∈ SOCKET_FAMILY_NAMES.*2 /\ (f ∉ BASE_SOCKET_FAMILIES)) (families (sockets p)) /\
    Forall (fun v => v ∈ NETLINK_PROTOCOL_NAMES.*2 /\ v <> NETLINK_ROUTE) (netlink_protocols (sockets p)) /\
    Forall (fun c => c ∈ KEEPABLE /\ c <> KEEP) (keep_caps p) /\
    NoDup (extra_syscall_names p) /\ NoDup (socket_names p) /\ NoDup (netlink_names p) /\
    NoDup (keep_cap_names p) /\
    (keeps_privsep (keep_caps p) = true \/ forall c, c ∈ PRIVSEP -> c ∉ keep_caps p)
  | Fail _ => True
  | Panic => False
  end.
Proof. apply (@parse_confined x86_64_libc x86_64_laws). Defined.

Lemma nic_capabilities_confined_witness :
  check_for_zone demo_policy "net" Nic = Ok tt <->
  Nic = Nic \/ forall c, c ∈ NIC_ONLY -> c ∉ keep_caps demo_policy.
Proof.
  apply (@nic_capabilities_confined x86_64_libc x86_64_laws demo_text "nic.policy"), demo_parsed.
Defined.
