(* ===== verification/Relay.v ===== *)
(** * What a launch logs and how its processes talk (spawn.rs)

    The relay of a zone's output into the launcher's log ([ZoneOutput]), the bound on the broker's
    lines ([BrokerLog]), the pipes between the launcher's processes ([SyncPipe]), and whose
    identity a zone's root is given. *)
From S2P Require Import Prelude Bytes Text Zone Registry Names.
Open Scope string_scope.
Open Scope list_scope.
Open Scope Z_scope.

Module Relay.
Abbreviation text := (list Z).
Definition ZONE_OUTPUT_MAX : Z := Z.shiftl 1 20.
Definition ZONE_LINE_MAX : Z := 1024.
Definition ZONE_READS_PER_PUMP : nat := 16.

(** ** The zone's output *)
(** [ro_log] is what [emit] was given, in order. *)
Record ZoneOutput := mkOutput { ro_mark : text; ro_line : bytes; ro_left : Z; ro_log : list text }.
Definition new (zone : text) : ZoneOutput := mkOutput (chars "zone " ++ zone ++ chars "| ") [] ZONE_OUTPUT_MAX [].
Definition byte_len (s : text) : Z := zlen (encode_chars s).
Definition flush (o : ZoneOutput) : ZoneOutput :=
  match ro_line o with
  | [] => o
  | line => mkOutput (ro_mark o) [] (saturating_sub (ro_left o) (byte_len (ro_mark o) + 1)) (ro_log o ++ [ro_mark o ++ utf8_lossy line])
  end.
Definition past_line (mark : text) : text :=
  mark ++ chars "(output past " ++ Registry.show_num ZONE_OUTPUT_MAX ++ chars " bytes is not logged)".
Definition cleaned (b : byte) : byte :=
  let c := Z_of_byte b in
  if (c =? 9) || between 32 126 c || between 128 255 c then b else byte_of_Z 63.
Definition take_byte (o : ZoneOutput) (b : byte) : ZoneOutput :=
  let o := mkOutput (ro_mark o) (ro_line o) (ro_left o - 1) (ro_log o) in
  let o := if Z_of_byte b =? 10 then flush o else mkOutput (ro_mark o) (ro_line o ++ [cleaned b]) (ro_left o) (ro_log o) in
  let o := if ZONE_LINE_MAX <=? zlen (ro_line o) then flush o else o in
  if ro_left o =? 0 then
    let o := flush o in mkOutput (ro_mark o) (ro_line o) (ro_left o) (ro_log o ++ [past_line (ro_mark o)])
  else o.
Fixpoint take (o : ZoneOutput) (data : bytes) : ZoneOutput :=
  match data with
  | [] => o
  | b :: data => if ro_left o =? 0 then o else take (take_byte o b) data
  end.

(** What read(2) answers; [Again] is any error but EINTR. *)
Inductive Read := Data (d : bytes) | Eof | Interrupted | Again.
(** At most [reads] pieces; whether a writer is left, [None] while the answers do not say. *)
Fixpoint pump_at_most (reads : nat) (answers : list Read) (o : ZoneOutput) : option (bool * list Read * ZoneOutput) :=
  match reads with
  | O => Some (true, answers, o)
  | S reads' =>
    (fix go (answers : list Read) : option (bool * list Read * ZoneOutput) :=
      match answers with
      | [] => None
      | Data d :: rest => pump_at_most reads' rest (take o d)
      | Eof :: rest => Some (false, rest, o)
      | Interrupted :: rest => go rest
      | Again :: rest => Some (true, rest, o)
      end) answers
  end.
Definition pump (answers : list Read) (o : ZoneOutput) : option (bool * list Read * ZoneOutput) := pump_at_most ZONE_READS_PER_PUMP answers o.
Definition LAST_READS : nat := Z.to_nat (ZONE_OUTPUT_MAX / 4096 + 1).
(** [Drop]: what is left in the pipe, then the line begun. *)
Definition drop_output (answers : list Read) (o : ZoneOutput) : option ZoneOutput :=
  r ← pump_at_most LAST_READS answers o; Some (flush r.2).

(** ** The broker's lines *)
Record BrokerLog := mkBroker { bl_zone : text; bl_left : Z; bl_log : list text }.
Definition new_broker (zone : text) : BrokerLog := mkBroker zone ZONE_OUTPUT_MAX [].
(** The longest beginning of [s], in whole characters, of at most [n] bytes. *)
Fixpoint cut_at (n : Z) (s : text) : text :=
  match s with
  | [] => []
  | c :: s => let k := zlen (encode_char c) in if k <=? n then c :: cut_at (n - k) s else []
  end.
Definition broker_past (zone : text) : text :=
  chars "kryptikd[zone " ++ zone ++ chars "]: broker lines past " ++ Registry.show_num ZONE_OUTPUT_MAX ++ chars " bytes are not logged".
Definition broker_line (b : BrokerLog) (s : text) : BrokerLog :=
  if bl_left b =? 0 then b
  else
    let kept := cut_at (Z.min (byte_len s) ZONE_LINE_MAX) s in
    let end_ := byte_len kept in
    if bl_left b <? end_ + 1 then mkBroker (bl_zone b) 0 (bl_log b ++ [broker_past (bl_zone b)])
    else mkBroker (bl_zone b) (bl_left b - (end_ + 1)) (bl_log b ++ [kept]).

(** ** Pipes *)
(** What write(2) or read(2) does with [n] bytes: how many, or an error. *)
Inductive Io := Moved (n : nat) | Intr | Broken.
(** [write_i32]: the bytes that reached the pipe. *)
Fixpoint write_from (answers : list Io) (b : bytes) (sent : bytes) : bytes :=
  match b with
  | [] => sent
  | _ =>
    match answers with
    | [] => sent
    | Moved (S n) :: rest => write_from rest (drop (S n) b) (sent ++ firstn (S n) b)
    | Intr :: rest => write_from rest b sent
    | Moved O :: _ | Broken :: _ => sent
    end
  end.
(** The pipe holds [buf]; a read of it takes what there is, [Moved] at most as much. *)
Fixpoint read_from (answers : list Io) (buf got : bytes) : option bytes :=
  if (4 <=? length got)%nat then Some got
  else
    match answers with
    | [] => None
    | Moved (S n) :: rest =>
      match firstn (Nat.min (S n) (4 - length got)) buf with
      | [] => None
      | piece => read_from rest (drop (length piece) buf) (got ++ piece)
      end
    | Intr :: rest => read_from rest buf got
    | Moved O :: _ | Broken :: _ => None
    end.
(** [i32::to_ne_bytes] and [from_ne_bytes]. *)
Definition ne_i32 (v : Z) : bytes := bytes_of_u32 (as_u32 v).
Definition i32_of_ne (b : bytes) : option Z :=
  match b with [b0; b1; b2; b3] => Some (as_i32 (u32_of_bytes b0 b1 b2 b3)) | _ => None end.
Definition write_i32 (answers : list Io) (v : Z) : bytes := write_from answers (ne_i32 v) [].
Definition read_i32 (answers : list Io) (buf : bytes) : option Z := b ← read_from answers buf []; i32_of_ne b.

(** ** How a process ended *)
Definition decode_status (status : Z) : Z :=
  if Z.land status 127 =? 0 then Z.land (Z.shiftr status 8) 255 else 128 + Z.land status 127.
Definition signalled_by (status : Z) : option Z :=
  let sig := Z.land status 127 in if negb (sig =? 0) && negb (sig =? 127) then Some sig else None.

(** ** The zone's identity *)
Record Identity := mkIdentity { id_uid : Z; id_gid : Z; id_privileged : bool }.
Inductive IdentityError := OverrideRefused (zone : text) (base : Z) | NoIdentity (zone : text) | NeedsRoot.
Definition launch_identity (euid uid gid : Z) (zone_uid zone_gid : option Z) (zone : Zone) : result Identity IdentityError :=
  if euid =? 0 then
    match z_uid_base zone with
    | Some base =>
      if bool_decide (is_Some zone_uid) || bool_decide (is_Some zone_gid) then Err (OverrideRefused (chars (z_name zone)) base)
      else Ok (mkIdentity base base true)
    | None =>
      match zone_uid, zone_gid with
      | Some u, Some g => if negb (u =? 0) && negb (g =? 0) then Ok (mkIdentity u g true) else Err (NoIdentity (chars (z_name zone)))
      | _, _ => Err (NoIdentity (chars (z_name zone)))
      end
    end
  else if bool_decide (is_Some zone_uid) || bool_decide (is_Some zone_gid) then Err NeedsRoot
  else Ok (mkIdentity uid gid false).
End Relay.

(** * What a zone can put into the log (claims on spawn.rs) *)
Import Relay.

(** ** Lossy decoding *)
Lemma encode_char_len c : zlen (encode_char c) <= 4.
Proof. unfold encode_char, zlen. repeat case_match; cbn [length]; lia. Qed.
Lemma encode_cons c s : encode_chars (c :: s) = encode_char c ++ encode_chars s.
Proof. done. Qed.
(** A character decoded is a byte below 128 as it was, or a greater one; no byte gives more than
    the three of U+FFFD. *)
Definition decoded (l : bytes) (c : Z) : Prop := 128 <= c \/ exists b, b ∈ l /\ c = Z_of_byte b.
Lemma decoded_cons b l c : decoded l c -> decoded (b :: l) c.
Proof. intros [H|(b' & Hb & ->)]; [by left|right]. exists b'. split; [by right|done]. Qed.
Lemma lossy_spec n : forall l, (length l <= n)%nat -> Forall (decoded l) (utf8_lossy l) /\ zlen (encode_chars (utf8_lossy l)) <= 3 * zlen l.
Proof.
  induction n as [|n IH]; intros l Hl; [destruct l; [done|cbn in Hl; lia]|]. destruct l as [|b0 l0]; [done|]. cbn in Hl.
  assert (forall c k l', 128 <= c -> (length l' <= n)%nat -> (forall x, decoded l' x -> decoded (b0 :: l0) x) -> zlen (encode_char c) <= k -> k + 3 * zlen l' <= 3 * zlen (b0 :: l0) ->
    Forall (decoded (b0 :: l0)) (c :: utf8_lossy l') /\ zlen (encode_chars (c :: utf8_lossy l')) <= 3 * zlen (b0 :: l0)) as Hstep.
  { intros c k l' Hc Hl' Hd Hk Hs. destruct (IH l' Hl') as [HF HL]. split.
    - constructor; [by left|]. eapply Forall_impl; [exact HF|done].
    - rewrite encode_cons, zlen_app. lia. }
  cbn [utf8_lossy]. destruct (Z.ltb_spec (Z_of_byte b0) 128) as [H0|H0].
  { destruct (IH l0 ltac:(lia)) as [HF HL]. split.
    - constructor; [right; exists b0; split; [by left|done]|]. eapply Forall_impl; [exact HF|]. intros x. apply decoded_cons.
    - rewrite encode_cons, zlen_app, zlen_cons. unfold encode_char. replace (Z_of_byte b0 <? 128) with true by lia. change (zlen [_]) with 1. lia. }
  assert (zlen (encode_char 0xfffd) <= 3) as Hf by (vm_compute; discriminate).
  destruct l0 as [|b1 l1]; [apply (Hstep 0xfffd 3 []); cbn; try done; try lia; by intros x [?|(? & ?%elem_of_nil & _)]; [left|]|].
  pose proof (Z_of_byte_range b0). pose proof (Z_of_byte_range b1). rewrite !zlen_cons in Hstep |- *. pose proof (zlen_nonneg l1) as Hn1. cbn in Hl.
  destruct (ok2 (Z_of_byte b0) && cont b1) eqn:E2.
  { apply (Hstep _ 4); [unfold ok2, cont, between in E2; lia|lia|intros; by do 2 apply decoded_cons|apply encode_char_len|lia]. }
  destruct (ok3 (Z_of_byte b0) (Z_of_byte b1)) eqn:E3.
  { destruct l1 as [|b2 l2]; [apply (Hstep 0xfffd 3 []); cbn; try done; try lia; by intros x [?|(? & ?%elem_of_nil & _)]; [left|]|].
    pose proof (Z_of_byte_range b2). rewrite !zlen_cons in Hstep |- *. cbn in Hl. destruct (cont b2) eqn:C2.
    - apply (Hstep _ 4); [unfold ok3, cont, between in *; lia|lia|intros; by do 3 apply decoded_cons|apply encode_char_len|lia].
    - apply (Hstep _ 3); [lia|cbn; lia|intros; by do 2 apply decoded_cons|done|rewrite zlen_cons; lia]. }
  destruct (ok4 (Z_of_byte b0) (Z_of_byte b1)) eqn:E4; [|apply (Hstep _ 3); [lia|cbn; lia|intros; by apply decoded_cons|done|rewrite zlen_cons; lia]].
  destruct l1 as [|b2 l2]; [apply (Hstep 0xfffd 3 []); cbn; try done; try lia; by intros x [?|(? & ?%elem_of_nil & _)]; [left|]|].
  pose proof (Z_of_byte_range b2). rewrite !zlen_cons in Hstep |- *. pose proof (zlen_nonneg l2) as Hn2. cbn in Hl.
  destruct (cont b2) eqn:C2; [|apply (Hstep _ 3); [lia|cbn; lia|intros; by do 2 apply decoded_cons|done|rewrite zlen_cons; lia]].
  destruct l2 as [|b3 l3]; [apply (Hstep 0xfffd 3 []); cbn; try done; try lia; by intros x [?|(? & ?%elem_of_nil & _)]; [left|]|].
  pose proof (Z_of_byte_range b3). rewrite !zlen_cons in Hstep |- *. cbn in Hl. destruct (cont b3) eqn:C3.
  - apply (Hstep _ 4); [unfold ok4, cont, between in *; lia|lia|intros; by do 4 apply decoded_cons|apply encode_char_len|lia].
  - apply (Hstep _ 3); [lia|cbn; lia|intros; by do 3 apply decoded_cons|done|rewrite zlen_cons; lia].
Qed.

(** ** The relay *)
Definition clean (b : byte) : Prop := Z_of_byte b = 9 \/ 32 <= Z_of_byte b <= 126 \/ 128 <= Z_of_byte b.
Definition shown (mark : text) (raw : bytes) : text := mark ++ utf8_lossy raw.
(** What a line takes of the bound: its bytes, its mark and its end. *)
Fixpoint spent (mark : text) (raws : list bytes) : Z :=
  match raws with [] => 0 | raw :: raws => zlen raw + byte_len mark + 1 + spent mark raws end.
Definition line_ok (raw : bytes) : Prop := 0 < zlen raw <= ZONE_LINE_MAX /\ Forall clean raw.
Definition ended (mark : text) (past : bool) : list text := if past then [past_line mark] else [].
Lemma spent_app mark l k : spent mark (l ++ k) = spent mark l + spent mark k.
Proof. induction l as [|x l IH]; cbn; lia. Qed.
Lemma cleaned_clean b : clean (cleaned b).
Proof.
  unfold clean, cleaned, between. pose proof (Z_of_byte_range b). destruct (_ || _) eqn:E; [lia|]. rewrite Z_of_byte_of_Z. change (63 mod 256) with 63. lia.
Qed.

Section relay.
Context (mark : text).
(** Within the bound; or past it, with the last line's mark and end at most over it. *)
Definition within (o : ZoneOutput) (raws : list bytes) : Prop :=
  0 <= ro_left o /\ spent mark raws + zlen (ro_line o) + ro_left o <= ZONE_OUTPUT_MAX \/
  ro_left o = 0 /\ ro_line o = [] /\ spent mark raws <= ZONE_OUTPUT_MAX + byte_len mark + 1.
Definition logged (o : ZoneOutput) (raws : list bytes) (past : bool) : Prop :=
  ro_mark o = mark /\ ro_log o = (shown mark <$> raws) ++ ended mark past /\ Forall line_ok raws /\ Forall clean (ro_line o) /\ within o raws.

Lemma flush_logged o raws : logged o raws false -> zlen (ro_line o) <= ZONE_LINE_MAX ->
  exists raws', logged (flush o) raws' false /\ ro_line (flush o) = [].
Proof.
  intros (Hm & Hl & Hr & Hc & Hw) Hlen. unfold flush. destruct (ro_line o) as [|b line] eqn:E; [exists raws; split; [|done]; split_and!; try done; by rewrite ?E|].
  exists (raws ++ [b :: line]). split; [|done]. unfold logged, within. cbn [ro_mark ro_line ro_left ro_log]. rewrite fmap_app, Hl, spent_app. cbn [spent ended fmap list_fmap]. rewrite !app_nil_r.
  split_and!; [done|by rewrite Hm|..].
  - apply Forall_app. split; [done|]. constructor; [|done]. split; [|done]. rewrite zlen_cons in *. pose proof (zlen_nonneg line). lia.
  - done.
  - destruct Hw as [[H0 Hw]|(_ & Hn & _)]; [|by rewrite E in Hn]. rewrite E in Hw. rewrite Hm. unfold saturating_sub, byte_len in *.
    change (zlen (@nil byte)) with 0. pose proof (zlen_nonneg (encode_chars mark)). destruct (Z.le_gt_cases (zlen (encode_chars mark) + 1) (ro_left o)); [left|right]; split_and!; try done; lia.
Qed.
Lemma take_byte_logged o raws b : logged o raws false -> zlen (ro_line o) < ZONE_LINE_MAX -> ro_left o <> 0 ->
  exists raws' past, logged (take_byte o b) raws' past /\ zlen (ro_line (take_byte o b)) < ZONE_LINE_MAX /\ (ro_left (take_byte o b) <> 0 -> past = false) /\ (past = true -> ro_line (take_byte o b) = []).
Proof.
  intros (Hm & Hl & Hr & Hc & Hw) Hlen Hleft. destruct Hw as [[H0 Hw]|(Hz & _)]; [|done].
  set (o1 := mkOutput (ro_mark o) (ro_line o) (ro_left o - 1) (ro_log o)).
  assert (exists r2, logged (if Z_of_byte b =? 10 then flush o1 else mkOutput (ro_mark o1) (ro_line o1 ++ [cleaned b]) (ro_left o1) (ro_log o1)) r2 false /\
    zlen (ro_line (if Z_of_byte b =? 10 then flush o1 else mkOutput (ro_mark o1) (ro_line o1 ++ [cleaned b]) (ro_left o1) (ro_log o1))) <= ZONE_LINE_MAX) as (r2 & H2 & L2).
  { destruct (Z_of_byte b =? 10).
    - destruct (flush_logged o1 raws) as (r2 & H2 & ->); [|cbn; lia|by exists r2; split].
      unfold logged, within. cbn. split_and!; try done. left. lia.
    - exists raws. cbn [ro_line]. split; [|rewrite zlen_app; change (zlen [_]) with 1; cbn; lia]. unfold logged, within. cbn [ro_mark ro_line ro_left ro_log o1].
      split_and!; try done; [apply Forall_app; split; [done|]; constructor; [apply cleaned_clean|done]|]. left. rewrite zlen_app. change (zlen [_]) with 1. lia. }
  unfold take_byte. cbv zeta. fold o1. set (o2 := if Z_of_byte b =? 10 then _ else _) in *.
  assert (exists r3, logged (if ZONE_LINE_MAX <=? zlen (ro_line o2) then flush o2 else o2) r3 false /\
    zlen (ro_line (if ZONE_LINE_MAX <=? zlen (ro_line o2) then flush o2 else o2)) < ZONE_LINE_MAX) as (r3 & H3 & L3).
  { destruct (Z.leb_spec ZONE_LINE_MAX (zlen (ro_line o2))); [|by exists r2]. destruct (flush_logged o2 r2) as (r3 & H3 & ->); [done|done|]. by exists r3. }
  set (o3 := if ZONE_LINE_MAX <=? zlen (ro_line o2) then flush o2 else o2) in *.
  destruct (Z.eqb_spec (ro_left o3) 0) as [Hz|Hz]; [|by exists r3, false].
  destruct (flush_logged o3 r3) as (r4 & (Hm4 & Hl4 & Hr4 & Hc4 & Hw4) & Hn4); [done|lia|]. exists r4, true. cbn [ro_line ro_left]. rewrite Hn4.
  assert (ro_left (flush o3) = 0) as Hz4 by (unfold flush, saturating_sub; destruct (ro_line o3); [done|]; cbn; rewrite Hz; unfold byte_len; pose proof (zlen_nonneg (encode_chars (ro_mark o3))); lia).
  split_and!; [|done|by rewrite Hz4|done]. unfold logged. cbn [ro_mark ro_line ro_left ro_log]. rewrite Hl4, Hm4. cbn [ended]. split_and!; try done; [by rewrite app_nil_r|].
  unfold within in *. cbn [ro_line ro_left]. rewrite Hn4 in Hw4. exact Hw4.
Qed.

(** Before [left] is used up nothing is said of output not logged. *)
Definition holds (o : ZoneOutput) : Prop :=
  exists raws past, logged o raws past /\ zlen (ro_line o) < ZONE_LINE_MAX /\ (ro_left o <> 0 -> past = false) /\ (past = true -> ro_line o = []).
Lemma take_holds data : forall o, holds o -> holds (take o data).
Proof.
  induction data as [|b data IH]; intros o Ho; [done|]. cbn [take]. destruct (Z.eqb_spec (ro_left o) 0) as [Hz|Hz]; [done|]. apply IH.
  destruct Ho as (raws & past & Hl & Hlen & Hp & _). rewrite (Hp Hz) in Hl. destruct (take_byte_logged o raws b Hl Hlen Hz) as (r & p & ? & ? & ? & ?). by exists r, p.
Qed.
Lemma takes_hold ds : forall o, holds o -> holds (foldl take o ds).
Proof. induction ds as [|d ds IH]; intros o Ho; [done|]. cbn. by apply IH, take_holds. Qed.
Lemma spent_bound o raws past : logged o raws past -> spent mark raws <= ZONE_OUTPUT_MAX + byte_len mark + 1.
Proof.
  intros (_ & _ & _ & _ & [[H0 Hw]|(_ & _ & Hw)]); [|done]. pose proof (zlen_nonneg (ro_line o)). unfold byte_len. pose proof (zlen_nonneg (encode_chars mark)). lia.
Qed.
Lemma flushed o : holds o -> exists raws past, ro_log (flush o) = (shown mark <$> raws) ++ ended mark past /\ Forall line_ok raws /\ spent mark raws <= ZONE_OUTPUT_MAX + byte_len mark + 1.
Proof.
  intros (raws & [|] & Hl & Hlen & _ & Hp).
  - exists raws, true. pose proof (spent_bound _ _ _ Hl). destruct Hl as (_ & Hl & Hr & _). unfold flush. rewrite Hp by done. done.
  - destruct (flush_logged o raws Hl ltac:(lia)) as (r & Hl' & _). exists r, false. pose proof (spent_bound _ _ _ Hl'). destruct Hl' as (_ & Hl' & Hr & _). done.
Qed.
End relay.
Lemma new_holds zone : holds (ro_mark (new zone)) (new zone).
Proof. exists [], false. split_and!; try done. unfold logged. split_and!; try done. left. done. Qed.

(** *** What the lines may hold *)
Definition printable (c : Z) : Prop := c = 9 \/ 32 <= c <= 126 \/ 128 <= c.
Lemma line_printable raw : line_ok raw -> Forall printable (utf8_lossy raw) /\ byte_len (utf8_lossy raw) <= 3 * zlen raw.
Proof.
  intros [_ Hc]. destruct (lossy_spec (length raw) raw ltac:(lia)) as [Hd Hb]. split; [|done]. eapply Forall_impl; [exact Hd|].
  intros c [Hh|(b & Hin & ->)]; [by right; right|]. rewrite Forall_forall in Hc. by apply Hc.
Qed.
(** The bytes a log grows by, an end to each line. *)
Definition log_bytes (log : list text) : Z := foldr (fun l n => byte_len l + 1 + n) 0 log.
Lemma log_bytes_app l k : log_bytes (l ++ k) = log_bytes l + log_bytes k.
Proof. induction l as [|x l IH]; cbn; [done|]. unfold log_bytes in *. lia. Qed.
Lemma byte_len_app a b : byte_len (a ++ b) = byte_len a + byte_len b.
Proof. unfold byte_len, encode_chars. rewrite fmap_app, join_app, zlen_app. done. Qed.
Lemma log_bytes_spent mark raws : Forall line_ok raws -> log_bytes (shown mark <$> raws) <= 3 * spent mark raws.
Proof.
  induction 1 as [|raw raws Hr _ IH]; [done|]. cbn [fmap list_fmap log_bytes foldr spent]. fold (log_bytes (shown mark <$> raws)). unfold shown at 1. rewrite byte_len_app.
  destruct (line_printable raw Hr) as [_ Hb]. assert (0 <= byte_len mark) by apply zlen_nonneg. change (foldr _ 0 (list_fmap _ _ (shown mark) raws)) with (log_bytes (shown mark <$> raws)). lia.
Qed.
(** A pump takes some pieces, at most as many as it may. *)
Lemma pump_takes reads : forall answers o b rest o', pump_at_most reads answers o = Some (b, rest, o') ->
  exists ds, (length ds <= reads)%nat /\ o' = foldl take o ds.
Proof.
  induction reads as [|reads IH]; intros answers o b rest o'; cbn [pump_at_most]; [intros [= _ _ <-]; by exists []|].
  induction answers as [|[d| | |] answers IHa]; intros H; [done|..].
  - apply IH in H as (ds & Hl & ->). exists (d :: ds). split; [cbn; lia|done].
  - injection H as _ _ <-. exists []. split; [cbn; lia|done].
  - by apply IHa.
  - injection H as _ _ <-. exists []. split; [cbn; lia|done].
Qed.

(** It stays open only while fewer pieces than it may read have come and nothing else has. *)
Definition pieces (answers : list Read) : nat := length (List.filter (fun r => match r with Interrupted => false | _ => true end) answers).
Lemma pump_ends reads : forall answers o, pump_at_most reads answers o = None -> (pieces answers < reads)%nat.
Proof.
  induction reads as [|reads IH]; intros answers o; cbn [pump_at_most]; [done|].
  induction answers as [|[d| | |] answers IHa]; intros H; unfold pieces; cbn; [lia|..]; try done.
  - apply IH in H. unfold pieces in H. lia.
  - by apply IHa.
Qed.


(** ** Bytes that are no UTF-8 *)
Definition noise (n : nat) : bytes := replicate n (byte_of_Z 255).
(** The bound counts a byte of the zone as one; each that is no UTF-8 takes three of the log, so
    that a line of 1024 takes 3072, and what reaches the log is three times the bound. *)
Example noise_tripled :
  byte_len <$> ro_log (flush (take (new []) (noise 1024))) = [3072 + byte_len (ro_mark (new []))] /\
  ro_left (take (new []) (noise 1024)) = ZONE_OUTPUT_MAX - 1024 - byte_len (ro_mark (new [])) - 1.
Proof. vm_compute. split; reflexivity. Qed.
(** A control of the C1 set, written as UTF-8, reaches the log as it is. *)
Example c1_relayed : ro_log (flush (take (new (chars "work")) (as_bytes "a" ++ [byte_of_Z 194; byte_of_Z 155]))) = [chars "zone work| a" ++ [155]].
Proof. vm_compute. reflexivity. Qed.

(** ** The broker's lines *)
Lemma cut_at_len n s : 0 <= n -> byte_len (cut_at n s) <= n.
Proof.
  revert n. induction s as [|c s IH]; intros n Hn; [done|]. cbn [cut_at]. destruct (Z.leb_spec (zlen (encode_char c)) n); [|done].
  unfold byte_len. rewrite encode_cons, zlen_app. specialize (IH (n - zlen (encode_char c)) ltac:(lia)). unfold byte_len in IH. lia.
Qed.
(** However many lines the broker writes, each that is logged is at most 1024 bytes, and all of
    them with their ends at most the bound, but for one last line that says so. *)
Theorem broker_bounded (zone : text) (ls : list text) :
  let b := foldl broker_line (new_broker zone) ls in
  exists kept past, bl_log b = kept ++ (if past : bool then [broker_past zone] else []) /\
    Forall (fun l => byte_len l <= ZONE_LINE_MAX) kept /\ log_bytes kept <= ZONE_OUTPUT_MAX.
Proof.
  set (ok := fun b => bl_zone b = zone /\ 0 <= bl_left b /\ exists kept past, bl_log b = kept ++ (if past : bool then [broker_past zone] else []) /\
    Forall (fun l => byte_len l <= ZONE_LINE_MAX) kept /\ log_bytes kept + bl_left b <= ZONE_OUTPUT_MAX /\ (bl_left b <> 0 -> past = false)).
  assert (forall b l, ok b -> ok (broker_line b l)) as Hstep.
  { intros b l (Hz & H0 & kept & past & Hl & Hk & Hb & Hp). unfold broker_line. destruct (Z.eqb_spec (bl_left b) 0) as [He|He]; [by split_and!; [..|exists kept, past]|].
    rewrite (Hp He) in Hl. set (cut := cut_at _ l). assert (byte_len cut <= ZONE_LINE_MAX) as Hc.
    { unfold cut. assert (0 <= byte_len l) by apply zlen_nonneg. pose proof (cut_at_len (Z.min (byte_len l) ZONE_LINE_MAX) l ltac:(unfold ZONE_LINE_MAX; lia)). lia. }
    assert (0 <= byte_len cut) by apply zlen_nonneg. destruct (Z.ltb_spec (bl_left b) (byte_len cut + 1)).
    - split_and!; [done|done|]. exists kept, true. cbn. rewrite Hl, app_nil_r, Hz. split_and!; try done. lia.
    - split_and!; [done|cbn; lia|]. exists (kept ++ [cut]), false. cbn [bl_log bl_left]. rewrite Hl, !app_nil_r, log_bytes_app. split_and!; try done; [apply Forall_app; by repeat constructor|].
      unfold log_bytes at 2. cbn [foldr]. lia. }
  assert (forall ls b, ok b -> ok (foldl broker_line b ls)) as Hall by (induction ls0 as [|l ls0 IH]; intros b Hb; [done|]; cbn; by apply IH, Hstep).
  destruct (Hall ls (new_broker zone)) as (_ & H0 & kept & past & Hl & Hk & Hb & _); [split_and!; [done..|]; by exists [], false|].
  exists kept, past. split_and!; [done..|]. lia.
Qed.

(** ** The zone's pid, over a pipe *)
Lemma write_whole answers : forall b sent, exists n, write_from answers b sent = sent ++ firstn n b.
Proof.
  induction answers as [|[[|n]| |] answers IH]; intros [|c b] sent; cbn [write_from]; try (exists 0%nat; cbn; by rewrite ?app_nil_r).
  - destruct (IH (drop (S n) (c :: b)) (sent ++ firstn (S n) (c :: b))) as (m & ->). exists (S n + m)%nat. rewrite <-app_assoc. f_equal.
    rewrite <-(firstn_skipn (S n) (firstn (S n + m) (c :: b))). f_equal; [by rewrite firstn_firstn, Nat.min_l by lia|]. rewrite skipn_firstn_comm. f_equal. lia.
  - apply IH.
Qed.
Lemma read_whole answers : forall buf got r, read_from answers buf got = Some r -> (length got <= 4)%nat ->
  r = firstn 4 (got ++ buf) /\ length r = 4%nat.
Proof.
  assert (forall (got buf : bytes), (4 <= length got)%nat -> (length got <= 4)%nat -> got = firstn 4 (got ++ buf) /\ length got = 4%nat) as Hdone.
  { intros got buf H H'. split; [|lia]. rewrite firstn_app. replace (4 - length got)%nat with 0%nat by lia. cbn [firstn]. rewrite app_nil_r. symmetry. apply firstn_all2. lia. }
  induction answers as [|[[|n]| |] answers IH]; intros buf got r; cbn [read_from]; (destruct (Nat.leb_spec 4 (length got)); [intros [= <-] Hg; by apply Hdone|]); try done.
  - destruct (firstn _ buf) as [|c piece] eqn:E; [done|]. intros H1 Hg. apply IH in H1 as [-> H1].
    + split; [|done]. f_equal. rewrite <-app_assoc. f_equal. rewrite <-E. set (k := Nat.min (S n) (4 - length got)) in *.
      rewrite length_firstn. destruct (Nat.le_gt_cases k (length buf)); [rewrite Nat.min_l by done; apply firstn_skipn|].
      rewrite Nat.min_r by lia. rewrite firstn_all2 by lia. rewrite skipn_all. apply app_nil_r.
    + rewrite length_app, <-E, length_firstn. lia.
  - intros H1 Hg. by apply IH.
Qed.
(** The pid that is read is the one that was sent, or none is: whatever either side's calls
    answer, a pipe that was cut gives no number. *)
Theorem pid_sent (wa ra : list Io) (v x : Z) :
  -2147483648 <= v < 2147483648 -> read_i32 ra (write_i32 wa v) = Some x -> x = v.
Proof.
  intros Hv. unfold read_i32, write_i32. destruct (write_whole wa (ne_i32 v) []) as (n & ->). rewrite app_nil_l.
  destruct (read_from _ _ _) as [b|] eqn:E; cbn [mbind option_bind]; [|done]. apply read_whole in E as [-> Hl]; [|cbn; lia]. rewrite app_nil_l in *.
  rewrite firstn_firstn in *. assert (4 <= n)%nat as Hn by (rewrite length_firstn in Hl; lia). rewrite Nat.min_l in Hl |- * by lia.
  unfold ne_i32. change (firstn 4 (bytes_of_u32 ?w)) with (bytes_of_u32 w). unfold bytes_of_u32, i32_of_ne. rewrite u32_of_bytes_of_u32 by (unfold as_u32; dlia).
  intros [= <-]. unfold as_i32, as_u32. destruct (Z.ltb_spec (v mod 4294967296) 2147483648); dlia.
Qed.

(** ** Identities *)
(** A root launch never maps a zone's root to the host's, and a launch that is not root's maps it
    to the caller. *)
Theorem identity_apart (euid uid gid : Z) (zone_uid zone_gid : option Z) (zone : Zone) (id : Identity) :
  z_uid_base zone <> Some 0 -> launch_identity euid uid gid zone_uid zone_gid zone = Ok id ->
  id_privileged id = (euid =? 0) /\ (if euid =? 0 then id_uid id <> 0 /\ id_gid id <> 0 else id = mkIdentity uid gid false).
Proof.
  intros Hb. unfold launch_identity. destruct (Z.eqb_spec euid 0) as [->|He].
  - destruct (z_uid_base zone) as [base|].
    + destruct (_ || _); [done|]. intros [= <-]. cbn. split; [done|]. split; congruence.
    + destruct zone_uid as [u|], zone_gid as [g|]; try done. destruct (Z.eqb_spec u 0), (Z.eqb_spec g 0); cbn; try done. by intros [= <-].
  - destruct (_ || _); [done|]. by intros [= <-].
Qed.
