(* ===== verification/Handshake.v ===== *)
(** * The launcher's processes (spawn.rs: [run_in_zone], [intermediate_main], [zone_init])

    A launch is three processes: the parent, the intermediate it forks, which enters the zone's
    namespaces, and the zone's pid 1, which the intermediate forks. Four pipes order them, each
    waits for its child, and each dies with its parent (PR_SET_PDEATHSIG). The model has a state
    per process, what has been written to each pipe and who still holds its write end; any call
    may fail, and any process may be killed at any time. *)
From S2P Require Import Prelude.

Module Handshake.
(** ** Where each process is *)
(** Up to [P_place] it closes the ends it does not use, makes the cgroup and the registry's
    record; [P_reap] waits for a child whose launch has failed. *)
Inductive Ppc := P_fresh | P_place | P_signal | P_ready | P_map | P_mapped | P_pid | P_serve | P_reap | P_over.
(** [C_root] becomes root by the new id maps, which disarms the death signal. *)
Inductive Cpc := C_fresh | C_arm | C_check | C_placed | C_unshare | C_ready | C_mapped | C_root | C_rearm | C_recheck | C_fork | C_send | C_super | C_over.
Inductive Ipc := I_none | I_fresh | I_arm | I_alive | I_confine | I_run | I_over.

Record State := mkState {
  pp : Ppc; cc : Cpc; ii : Ipc;
  arm_c : bool; arm_i : bool;
  placed : bool; ready : bool; mapped : bool; sent : bool;
  attached : bool; unshared : bool; idmaps : bool; rooted : bool }.
Definition start : State := mkState P_fresh C_fresh I_none false false false false false false false false false false.

(** ** Who holds the write end of a pipe *)
Definition p_holds_placed (p : Ppc) : bool := match p with P_fresh | P_place | P_signal => true | _ => false end.
Definition p_holds_mapped (p : Ppc) : bool := match p with P_fresh | P_place | P_signal | P_ready | P_map | P_mapped => true | _ => false end.
Definition p_fresh (p : Ppc) : bool := match p with P_fresh => true | _ => false end.
Definition c_fresh (c : Cpc) : bool := match c with C_fresh => true | _ => false end.
Definition c_holds_ready (c : Cpc) : bool := match c with C_fresh | C_arm | C_check | C_placed | C_unshare | C_ready => true | _ => false end.
Definition c_holds_pid (c : Cpc) : bool := match c with C_super | C_over => false | _ => true end.
(** pid 1 inherits the write end of the pid pipe, which its sweep of descriptors closes. *)
Definition i_holds_pid (i : Ipc) : bool := match i with I_fresh | I_arm | I_alive | I_confine => true | _ => false end.
Definition placed_open (s : State) : bool := p_holds_placed (pp s) || c_fresh (cc s).
Definition ready_open (s : State) : bool := p_fresh (pp s) || c_holds_ready (cc s).
Definition mapped_open (s : State) : bool := p_holds_mapped (pp s) || c_fresh (cc s).
Definition pid_open (s : State) : bool := p_fresh (pp s) || c_holds_pid (cc s) || i_holds_pid (ii s).

(** ** Steps *)
Definition p_to (p : Ppc) (s : State) : State := mkState p (cc s) (ii s) (arm_c s) (arm_i s) (placed s) (ready s) (mapped s) (sent s) (attached s) (unshared s) (idmaps s) (rooted s).
Definition c_to (c : Cpc) (s : State) : State := mkState (pp s) c (ii s) (arm_c s) (arm_i s) (placed s) (ready s) (mapped s) (sent s) (attached s) (unshared s) (idmaps s) (rooted s).
Definition i_to (i : Ipc) (s : State) : State := mkState (pp s) (cc s) i (arm_c s) (arm_i s) (placed s) (ready s) (mapped s) (sent s) (attached s) (unshared s) (idmaps s) (rooted s).
Definition arm_c_to (b : bool) (s : State) : State := mkState (pp s) (cc s) (ii s) b (arm_i s) (placed s) (ready s) (mapped s) (sent s) (attached s) (unshared s) (idmaps s) (rooted s).
Definition arm_i_on (s : State) : State := mkState (pp s) (cc s) (ii s) (arm_c s) true (placed s) (ready s) (mapped s) (sent s) (attached s) (unshared s) (idmaps s) (rooted s).
Definition say_placed (s : State) : State := mkState (pp s) (cc s) (ii s) (arm_c s) (arm_i s) true (ready s) (mapped s) (sent s) (attached s) (unshared s) (idmaps s) (rooted s).
Definition say_ready (s : State) : State := mkState (pp s) (cc s) (ii s) (arm_c s) (arm_i s) (placed s) true (mapped s) (sent s) (attached s) (unshared s) (idmaps s) (rooted s).
Definition say_mapped (s : State) : State := mkState (pp s) (cc s) (ii s) (arm_c s) (arm_i s) (placed s) (ready s) true (sent s) (attached s) (unshared s) (idmaps s) (rooted s).
Definition say_pid (s : State) : State := mkState (pp s) (cc s) (ii s) (arm_c s) (arm_i s) (placed s) (ready s) (mapped s) true (attached s) (unshared s) (idmaps s) (rooted s).
Definition did_attach (s : State) : State := mkState (pp s) (cc s) (ii s) (arm_c s) (arm_i s) (placed s) (ready s) (mapped s) (sent s) true (unshared s) (idmaps s) (rooted s).
Definition did_unshare (s : State) : State := mkState (pp s) (cc s) (ii s) (arm_c s) (arm_i s) (placed s) (ready s) (mapped s) (sent s) (attached s) true (idmaps s) (rooted s).
Definition did_map (s : State) : State := mkState (pp s) (cc s) (ii s) (arm_c s) (arm_i s) (placed s) (ready s) (mapped s) (sent s) (attached s) (unshared s) true (rooted s).
Definition did_root (s : State) : State := mkState (pp s) (cc s) (ii s) (arm_c s) (arm_i s) (placed s) (ready s) (mapped s) (sent s) (attached s) (unshared s) (idmaps s) true.

(** The end of a process, and of the child that dies with it. *)
Definition i_end (s : State) : State := i_to I_over s.
Definition c_end (s : State) : State :=
  c_to C_over (if arm_i s && negb (match ii s with I_none => true | _ => false end) then i_end s else s).
Definition p_end (s : State) : State :=
  p_to P_over (if arm_c s && negb (match cc s with C_over => true | _ => false end) then c_end s else s).

Inductive step (s : State) : State -> Prop :=
(* the parent *)
| p_closes : pp s = P_fresh -> step s (p_to P_place s)
| p_places : pp s = P_place -> step s (p_to P_signal (did_attach s))
| p_place_fails : pp s = P_place -> step s (p_end s)
| p_signals : pp s = P_signal -> step s (p_to P_ready (say_placed s))
| p_hears : pp s = P_ready -> ready s = true -> step s (p_to P_map s)
| p_hears_not : pp s = P_ready -> ready s = false -> ready_open s = false -> step s (p_to P_reap s)
| p_maps : pp s = P_map -> step s (p_to P_mapped (did_map s))
| p_map_fails : pp s = P_map -> step s (p_to P_reap s)
| p_says_mapped : pp s = P_mapped -> step s (p_to P_pid (say_mapped s))
| p_reads_pid : pp s = P_pid -> sent s = true -> step s (p_to P_serve s)
| p_reads_none : pp s = P_pid -> sent s = false -> pid_open s = false -> step s (p_to P_serve s)
| p_collects : pp s = P_serve \/ pp s = P_reap -> cc s = C_over -> step s (p_end s)
(* the intermediate *)
| c_closes : cc s = C_fresh -> step s (c_to C_arm s)
| c_arms : cc s = C_arm -> step s (c_to C_check (arm_c_to true s))
| c_checks : cc s = C_check -> pp s <> P_over -> step s (c_to C_placed s)
| c_orphaned : cc s = C_check -> pp s = P_over -> step s (c_end s)
| c_is_placed : cc s = C_placed -> placed s = true -> step s (c_to C_unshare s)
| c_not_placed : cc s = C_placed -> placed s = false -> placed_open s = false -> step s (c_end s)
| c_unshares : cc s = C_unshare -> step s (c_to C_ready (did_unshare s))
| c_says_ready : cc s = C_ready -> step s (c_to C_mapped (say_ready s))
| c_is_mapped : cc s = C_mapped -> mapped s = true -> step s (c_to C_root s)
| c_not_mapped : cc s = C_mapped -> mapped s = false -> mapped_open s = false -> step s (c_end s)
| c_roots : cc s = C_root -> step s (c_to C_rearm (arm_c_to false (did_root s)))
| c_rearms : cc s = C_rearm -> step s (c_to C_recheck (arm_c_to true s))
| c_rechecks : cc s = C_recheck -> pp s <> P_over -> step s (c_to C_fork s)
| c_orphaned_again : cc s = C_recheck -> pp s = P_over -> step s (c_end s)
| c_forks : cc s = C_fork -> step s (c_to C_send (i_to I_fresh s))
| c_sends : cc s = C_send -> step s (c_to C_super (say_pid s))
| c_collects : cc s = C_super -> ii s = I_over -> step s (c_end s)
| c_fails : cc s ∈ [C_fresh; C_arm; C_unshare; C_root; C_rearm; C_fork] -> step s (c_end s)
(* pid 1 *)
| i_closes : ii s = I_fresh -> step s (i_to I_arm s)
| i_arms : ii s = I_arm -> step s (i_to I_alive (arm_i_on s))
| i_checks : ii s = I_alive -> cc s <> C_over -> step s (i_to I_confine s)
| i_orphaned : ii s = I_alive -> cc s = C_over -> step s (i_end s)
| i_confines : ii s = I_confine -> step s (i_to I_run s)
| i_fails : ii s = I_arm \/ ii s = I_confine -> step s (i_end s).

(** What happens to a launch from outside: its command ends, or a process is killed. *)
Inductive blow (s : State) : State -> Prop :=
| i_ends : ii s = I_run -> blow s (i_end s)
| i_killed : ii s <> I_none -> ii s <> I_over -> blow s (i_end s)
| c_killed : cc s <> C_over -> blow s (c_end s)
| p_killed : pp s <> P_over -> blow s (p_end s).
Definition move (s s' : State) : Prop := step s s' \/ blow s s'.
Definition reachable : State -> Prop := rtc move start.
End Handshake.

(** * A launch ends running or not at all (claims on spawn.rs) *)
Import Handshake.

(** ** Where the processes are *)
Definition p_told (p : Ppc) : bool := match p with P_ready | P_map | P_mapped | P_pid | P_serve | P_reap => true | _ => false end.
Definition p_heard (p : Ppc) : bool := match p with P_map | P_mapped | P_pid | P_serve => true | _ => false end.
Definition p_after_map (p : Ppc) : bool := match p with P_pid | P_serve => true | _ => false end.
Definition p_attached (p : Ppc) : bool := match p with P_fresh | P_place | P_over => false | _ => true end.
Definition c_placed (c : Cpc) : bool := match c with C_fresh | C_arm | C_check | C_placed | C_over => false | _ => true end.
Definition c_unshared (c : Cpc) : bool := match c with C_fresh | C_arm | C_check | C_placed | C_unshare | C_over => false | _ => true end.
Definition c_told (c : Cpc) : bool := match c with C_mapped | C_root | C_rearm | C_recheck | C_fork | C_send | C_super => true | _ => false end.
Definition c_rooting (c : Cpc) : bool := match c with C_root | C_rearm | C_recheck | C_fork | C_send | C_super => true | _ => false end.
Definition c_rooted (c : Cpc) : bool := match c with C_rearm | C_recheck | C_fork | C_send | C_super => true | _ => false end.
Definition c_forked (c : Cpc) : bool := match c with C_send | C_super => true | _ => false end.
(** States the death signal covers. *)
Definition c_covered (c : Cpc) : bool := match c with C_fresh | C_arm | C_rearm | C_over => false | _ => true end.
Definition c_orphan (c : Cpc) : bool := match c with C_fresh | C_arm | C_check | C_rearm | C_recheck | C_over => true | _ => false end.
Definition c_over (c : Cpc) : bool := match c with C_over => true | _ => false end.
Definition i_born (i : Ipc) : bool := match i with I_none => false | _ => true end.
Definition i_covered (i : Ipc) : bool := match i with I_alive | I_confine | I_run => true | _ => false end.
Definition i_orphan (i : Ipc) : bool := match i with I_confine | I_run => false | _ => true end.
Definition p_over (p : Ppc) : bool := match p with P_over => true | _ => false end.
Definition p_reaps (p : Ppc) : bool := match p with P_reap => true | _ => false end.

Record inv (s : State) : Prop := {
  v_attached : p_attached (pp s) = true -> attached s = true;
  v_told : p_told (pp s) = true -> placed s = true;
  v_placed : placed s = true -> attached s = true;
  v_c_placed : c_placed (cc s) = true -> placed s = true;
  v_unshared : unshared s = true -> attached s = true;
  v_c_unshared : c_unshared (cc s) = true -> unshared s = true;
  v_ready : ready s = true -> unshared s = true;
  v_c_told : c_told (cc s) = true -> ready s = true;
  v_heard : p_heard (pp s) = true -> ready s = true;
  v_idmaps : idmaps s = true -> unshared s = true;
  v_mapping : pp s = P_mapped -> idmaps s = true;
  v_mapped : mapped s = true -> idmaps s = true;
  v_after_map : p_after_map (pp s) = true -> mapped s = true;
  v_rooting : c_rooting (cc s) = true -> mapped s = true;
  v_rooted : rooted s = true -> idmaps s = true;
  v_c_rooted : c_rooted (cc s) = true -> rooted s = true;
  v_reaps : p_reaps (pp s) = true -> mapped s = false;
  v_born : i_born (ii s) = true -> rooted s = true;
  v_forked : c_forked (cc s) = true -> i_born (ii s) = true;
  v_unborn : c_over (cc s) = false -> c_forked (cc s) = false -> i_born (ii s) = false;
  v_sent : cc s = C_super -> sent s = true;
  v_covered : c_covered (cc s) = true -> arm_c s = true;
  v_orphan : p_over (pp s) = true -> c_orphan (cc s) = true;
  v_i_covered : i_covered (ii s) = true -> arm_i s = true;
  v_i_orphan : c_over (cc s) = true -> i_orphan (ii s) = true;
  v_early : p_over (pp s) = false -> p_after_map (pp s) = false -> mapped s = false
}.
Lemma inv_fresh : inv start.
Proof. split; done. Qed.

Ltac sorted := split; cbn in *; repeat case_match; cbn in *; simplify_eq; try done; auto; try (by naive_solver).
Lemma inv_i_end s : i_born (ii s) = true -> inv s -> inv (i_end s).
Proof. intros Hb []. destruct s as [p c i ac ai pl re ma se at_ un id ro]. sorted. Qed.
Lemma inv_c_end s : inv s -> inv (c_end s).
Proof. intros []. destruct s as [p c i ac ai pl re ma se at_ un id ro]. unfold c_end. destruct ai, i; sorted. Qed.
Lemma inv_p_end s : inv s -> inv (p_end s).
Proof.
  intros Hs. unfold p_end. destruct (arm_c s && _) eqn:E.
  - destruct (inv_c_end s Hs). assert (cc (c_end s) = C_over) as Hc by (unfold c_end; by destruct (_ && _)).
    destruct (c_end s) as [p c i ac ai pl re ma se at_ un id ro]. sorted.
  - destruct Hs. destruct s as [p c i ac ai pl re ma se at_ un id ro]. destruct ac, c; cbn in E; sorted.
Qed.
Lemma inv_own_step s s' : inv s -> step s s' -> inv s'.
Proof.
  intros Hs Hst. destruct Hst; try (apply inv_c_end; done); try (apply inv_p_end; done).
  all: try (apply inv_i_end; [destruct_or?; match goal with Hi : ii _ = _ |- _ => by rewrite Hi end|done]).
  all: destruct Hs, s as [p c i ac ai pl re ma se at_ un id ro]; cbn in *; subst; split; cbn; intros; try discriminate; simplify_eq; eauto 4.
  all: match goal with Hx : p_over ?p = true |- _ => by destruct p | Hx : c_over ?c = true |- _ => by destruct c end.
Qed.
Lemma inv_move s s' : inv s -> move s s' -> inv s'.
Proof.
  intros Hs [Hst|Hb]; [by eapply inv_own_step|]. destruct Hb; [apply inv_i_end..|by apply inv_c_end|by apply inv_p_end]; try done.
  - by rewrite H.
  - by destruct (ii s).
Qed.
Lemma inv_reachable s : reachable s -> inv s.
Proof.
  assert (forall s1 s2, rtc move s1 s2 -> inv s1 -> inv s2) as Hr; [|intros H; eapply Hr; [exact H|apply inv_fresh]].
  induction 1 as [|s1 s2 s3 Hm _ IH]; [done|]. intros Hv. apply IH. by eapply inv_move.
Qed.

(** ** Nothing waits for ever *)
Definition over (s : State) : Prop := pp s = P_over /\ cc s = C_over /\ (ii s = I_none \/ ii s = I_over).
Definition running (s : State) : Prop := pp s = P_serve /\ cc s = C_super /\ ii s = I_run.
Definition stuck (s : State) : Prop := forall s', ~ step s s'.

(** A pid 1 that is there and does not run has a step. *)
Lemma i_moves s : stuck s -> ii s = I_none \/ ii s = I_run \/ ii s = I_over.
Proof.
  intros Hs. destruct (ii s) eqn:E; auto; exfalso.
  - by eapply Hs, i_closes.
  - by eapply Hs, i_arms.
  - destruct (decide (c_over (cc s) = true)) as [Hc|Hc]; [eapply Hs, i_orphaned|eapply Hs, i_checks]; try done; by destruct (cc s).
  - by eapply Hs, i_confines.
Qed.
(** An intermediate that is not over waits: to be placed, for the maps, or for pid 1. *)
Lemma c_moves s : stuck s -> cc s = C_over \/ (cc s = C_placed /\ placed s = false /\ placed_open s = true) \/
  (cc s = C_mapped /\ mapped s = false /\ mapped_open s = true) \/ (cc s = C_super /\ ii s <> I_over).
Proof.
  intros Hs. assert (pp s = P_over \/ pp s <> P_over) as Hp by (destruct (pp s); auto).
  destruct (cc s) eqn:E; auto; try (exfalso; first [by eapply Hs, c_closes|by eapply Hs, c_arms|by eapply Hs, c_unshares|by eapply Hs, c_says_ready|by eapply Hs, c_roots|by eapply Hs, c_rearms|by eapply Hs, c_forks|by eapply Hs, c_sends]).
  - exfalso. destruct Hp; [by eapply Hs, c_orphaned|by eapply Hs, c_checks].
  - right; left. destruct (placed s) eqn:P; [exfalso; by eapply Hs, c_is_placed|]. destruct (placed_open s) eqn:O; [done|]. exfalso. by eapply Hs, c_not_placed.
  - right; right; left. destruct (mapped s) eqn:P; [exfalso; by eapply Hs, c_is_mapped|]. destruct (mapped_open s) eqn:O; [done|]. exfalso. by eapply Hs, c_not_mapped.
  - exfalso. destruct Hp; [by eapply Hs, c_orphaned_again|by eapply Hs, c_rechecks].
  - right; right; right. split; [done|]. intros Hi. by eapply Hs, c_collects.
Qed.
Lemma settled s : inv s -> stuck s -> over s \/ running s.
Proof.
  intros Hv Hs. pose proof (i_moves s Hs) as Hi. pose proof (c_moves s Hs) as Hc. destruct Hv. unfold over, running, placed_open, mapped_open in *.
  destruct (pp s) eqn:Ep; cbn in *; try (exfalso; first [by eapply Hs, p_closes|by eapply Hs, p_places|by eapply Hs, p_signals|by eapply Hs, p_maps|by eapply Hs, p_says_mapped]).
  - exfalso. destruct (ready s) eqn:R; [by eapply Hs, p_hears|]. eapply Hs, p_hears_not; [done..|]. unfold ready_open. rewrite Ep. cbn.
    destruct Hc as [->|[(_ & Hp & _)|[(-> & _)|(-> & _)]]]; try done. by rewrite v_told0 in Hp.
  - exfalso. destruct (sent s) eqn:S; [by eapply Hs, p_reads_pid|]. eapply Hs, p_reads_none; [done..|]. unfold pid_open. rewrite Ep. cbn.
    destruct Hc as [->|[(_ & Hp & _)|[(_ & Hm & _)|(Hc & _)]]]; [by destruct Hi as [->|[->| ->]]|by rewrite v_told0 in Hp|by rewrite v_after_map0 in Hm|by specialize (v_sent0 Hc)].
  - right. destruct Hc as [Hc|[(_ & Hp & _)|[(_ & Hm & _)|(Hc & Hne)]]]; [exfalso; eapply Hs, p_collects; [by left|done]|by rewrite v_told0 in Hp|by rewrite v_after_map0 in Hm|].
    split_and!; [done..|]. destruct Hi as [Hi|[Hi|Hi]]; [|done..]. rewrite Hc, Hi in v_forked0. by specialize (v_forked0 eq_refl).
  - exfalso. destruct Hc as [Hc|[(_ & Hp & _)|[(Hc & _ & Hm)|(Hc & Hne)]]]; [eapply Hs, p_collects; [by right|done]|by rewrite v_told0 in Hp|by rewrite Hc in Hm|].
    rewrite Hc in v_rooting0. by rewrite v_rooting0 in v_reaps0; [specialize (v_reaps0 eq_refl)|].
  - left. specialize (v_orphan0 eq_refl). destruct Hc as [Hc|[(Hc & _)|[(Hc & _)|(Hc & _)]]]; rewrite Hc in v_orphan0; try done.
    split_and!; [done..|]. rewrite Hc in v_i_orphan0. specialize (v_i_orphan0 eq_refl). destruct Hi as [Hi|[Hi|Hi]]; [by left|by rewrite Hi in v_i_orphan0|by right].
Qed.

(** ** Every launch settles *)
Definition p_rank (p : Ppc) : nat :=
  match p with P_fresh => 9 | P_place => 8 | P_signal => 7 | P_ready => 6 | P_map => 5 | P_mapped => 4 | P_pid => 3 | P_serve => 2 | P_reap => 1 | P_over => 0 end.
Definition c_rank (c : Cpc) : nat :=
  match c with C_fresh => 20 | C_arm => 19 | C_check => 18 | C_placed => 17 | C_unshare => 16 | C_ready => 15 | C_mapped => 14 | C_root => 13 | C_rearm => 12 | C_recheck => 11 | C_fork => 10 | C_send => 2 | C_super => 1 | C_over => 0 end.
Definition i_rank (i : Ipc) : nat := match i with I_none => 0 | I_fresh => 5 | I_arm => 4 | I_alive => 3 | I_confine => 2 | I_run => 1 | I_over => 0 end.
Definition rank (s : State) : nat := p_rank (pp s) + c_rank (cc s) + i_rank (ii s).
Lemma rank_c_end s : rank (c_end s) <= p_rank (pp s) + i_rank (ii s) /\ pp (c_end s) = pp s.
Proof. unfold rank, c_end. destruct (_ && _); cbn; split; try done; lia. Qed.
Lemma rank_p_end s : pp s <> P_over -> rank (p_end s) < rank s.
Proof.
  intros Hp. assert (0 < p_rank (pp s))%nat as H0 by (destruct (pp s); cbn; try lia; done). unfold p_end. destruct (_ && _).
  - destruct (rank_c_end s) as [Hr He]. unfold rank in *. cbn [pp cc ii p_to p_rank]. rewrite He in Hr. lia.
  - unfold rank. cbn [pp cc ii p_to p_rank]. lia.
Qed.
Lemma rank_c s : cc s <> C_over -> rank (c_end s) < rank s.
Proof.
  intros Hc. destruct (rank_c_end s) as [Hr _]. unfold rank in *. assert (0 < c_rank (cc s))%nat by (destruct (cc s); cbn; try lia; done). lia.
Qed.
Lemma rank_i s : 0 < i_rank (ii s) -> rank (i_end s) < rank s.
Proof. unfold rank. cbn. lia. Qed.
Lemma step_rank s s' : inv s -> step s s' -> rank s' < rank s.
Proof.
  intros Hv Hst. destruct Hst.
  all: try (apply rank_p_end; destruct_or?; congruence).
  all: try (apply rank_c; first [congruence|match goal with Hc : _ ∈ _ |- _ => intros Hn; rewrite Hn in Hc; by apply (bool_decide_unpack _) in Hc || set_solver end]).
  all: try (apply rank_i; destruct_or?; match goal with Hi : ii _ = _ |- _ => rewrite Hi; cbn; lia end).
  all: try (unfold rank; cbn; repeat match goal with Hx : pp _ = _ |- _ => rewrite Hx | Hx : cc _ = _ |- _ => rewrite Hx | Hx : ii _ = _ |- _ => rewrite Hx end; cbn; lia).
Qed.
Lemma move_rank s s' : inv s -> move s s' -> rank s' < rank s.
Proof.
  intros Hv [Hst|Hb]; [by apply step_rank|]. destruct Hb as [Hi|Hn Ho|Hc|Hp]; [apply rank_i; rewrite Hi; cbn; lia|apply rank_i|by apply rank_c|by apply rank_p_end].
  destruct (ii s); done || (cbn; lia).
Qed.
Lemma reachable_rank s : reachable s -> rank s <= 29.
Proof.
  assert (forall s1 s2, rtc move s1 s2 -> inv s1 -> rank s2 <= rank s1) as Hr; [|intros H; apply (Hr start); [exact H|apply inv_fresh]].
  induction 1 as [|s1 s2 s3 Hm _ IH]; [done|]. intros Hv. pose proof (move_rank _ _ Hv Hm). specialize (IH (inv_move _ _ Hv Hm)). lia.
Qed.

(** C19: however the three processes of a launch interleave, whichever of their calls
    fail and whichever of them is killed at any time: the intermediate enters its namespaces only
    once it is placed in its cgroup, its ids are mapped only once it has, it becomes root only by
    those maps, and pid 1 is started only after that; every launch settles within twenty-nine moves; and
    when no process has anything left to do, either the command runs with both launchers waiting
    on it, or all three are gone: none waits for ever, and none outlives its parent. *)
Theorem launch_settles (s : State) : reachable s ->
  (unshared s = true -> attached s = true) /\ (idmaps s = true -> unshared s = true) /\
  (rooted s = true -> idmaps s = true) /\ (ii s <> I_none -> rooted s = true) /\
  rank s <= 29 /\ (forall s', move s s' -> rank s' < rank s) /\
  (stuck s -> over s \/ running s).
Proof.
  intros Hr. pose proof (inv_reachable s Hr) as Hv. split_and!; [by apply v_unshared|by apply v_idmaps|by apply v_rooted|..].
  - intros Hi. apply (v_born s Hv). by destruct (ii s).
  - by apply reachable_rank.
  - intros s'. by apply move_rank.
  - by apply settled.
Qed.

(** ** A launch, and one whose parent dies at the worst moment *)
Definition rooted_state : State := mkState P_pid C_rearm I_none false false true true true false true true true true.
Lemma rooted_reachable : reachable rooted_state.
Proof.
  unfold reachable.
  eapply rtc_l; [left; by apply p_closes|]. eapply rtc_l; [left; by apply p_places|]. eapply rtc_l; [left; by apply p_signals|].
  eapply rtc_l; [left; by apply c_closes|]. eapply rtc_l; [left; by apply c_arms|]. eapply rtc_l; [left; by apply c_checks|].
  eapply rtc_l; [left; by apply c_is_placed|]. eapply rtc_l; [left; by apply c_unshares|]. eapply rtc_l; [left; by apply c_says_ready|].
  eapply rtc_l; [left; by apply p_hears|]. eapply rtc_l; [left; by apply p_maps|]. eapply rtc_l; [left; by apply p_says_mapped|].
  eapply rtc_l; [left; by apply c_is_mapped|]. eapply rtc_l; [left; by apply c_roots|]. apply rtc_refl.
Qed.
(** The parent dies while the death signal is disarmed: the intermediate goes on to arm it, and
    then sees that it is an orphan. *)
Definition orphan_state : State := mkState P_over C_over I_none true false true true true false true true true true.
Lemma orphan_reachable : rtc move rooted_state orphan_state.
Proof.
  eapply rtc_l; [right; by apply p_killed|]. eapply rtc_l; [left; by apply c_rearms|]. eapply rtc_l; [left; by apply c_orphaned_again|]. apply rtc_refl.
Qed.
Lemma launch_settles_witness : reachable orphan_state /\ rank orphan_state <= 29 /\ over orphan_state.
Proof.
  assert (reachable orphan_state) as Hr by (exact (transitivity rooted_reachable orphan_reachable)).
  destruct (launch_settles orphan_state Hr) as (_ & _ & _ & _ & Hk & _ & Hs). split; [exact Hr|]. split; [exact Hk|]. destruct Hs as [Ho|Ho]; [|exact Ho|destruct Ho; discriminate].
  intros s' Hst. destruct Hst; cbn in *; try discriminate; destruct_or?; try discriminate. set_solver.
Defined.
