(* ===== verification/Init.v ===== *)
(** * The first process of a zone (spawn.rs, [zone_init])

    What runs between the fork of a zone's pid 1 and the command: the root is built and entered
    (Rootfs), Landlock is put on (Landlock), descriptors are closed, the environment is rebuilt,
    the bounding set is dropped (Caps) and the filter installed (Seccomp), in this order, and only
    then is the command run. *)
From S2P Require Import Prelude Bytes Text Zone Registry Volume Landlock Rootfs Syscalls Bpf Caps Seccomp Policy.
Open Scope string_scope.
Open Scope list_scope.
Open Scope Z_scope.

Module Init.
Abbreviation text := (list Z).

(** ** The environment *)
Definition ENV_PASSTHROUGH : list text := chars <$>
  ["TERM"; "COLORTERM"; "LANG"; "LANGUAGE"; "LC_ALL"; "LC_CTYPE"; "LC_COLLATE";
   "LC_MESSAGES"; "LC_NUMERIC"; "LC_TIME"; "LC_MONETARY"; "LC_PAPER"; "LC_NAME";
   "LC_ADDRESS"; "LC_TELEPHONE"; "LC_MEASUREMENT"; "LC_IDENTIFICATION"].
Definition sane_char (c : Z) : bool := is_digit c || between 65 90 c || is_lower c || bool_decide (c ∈ chars "._+:@-").
Definition env_value_is_sane (v : text) : bool :=
  negb (bool_decide (v = [])) && (zlen (encode_chars v) <=? 64) && forallb sane_char v.
Definition pair_of (p : string * string) : text * text := (chars p.1, chars p.2).
Definition has_key (k : string) (env : list (text * text)) : bool := existsb (fun e => bool_decide (e.1 = chars k)) env.
Definition zone_environment (zone : Zone) (home : text) (caller : list (text * text)) (wayland : bool) : list (text * text) :=
  let env :=
    [pair_of ("PATH", "/usr/bin:/usr/sbin:/bin:/sbin"); (chars "HOME", home); pair_of ("TMPDIR", "/tmp"); pair_of ("USER", "root");
     pair_of ("LOGNAME", "root"); pair_of ("SHELL", "/bin/sh"); (chars "KRYPTIK_ZONE", chars (z_name zone));
     pair_of ("GLIBC_TUNABLES", "glibc.cpu.x86_shstk=permissive")] in
  let env := env ++ List.filter (fun e => bool_decide (e.1 ∈ ENV_PASSTHROUGH) && env_value_is_sane e.2) caller in
  let env := if has_key "LANG" env then env else env ++ [pair_of ("LANG", "C.UTF-8")] in
  let env := if has_key "TERM" env then env else env ++ [pair_of ("TERM", "dumb")] in
  if wayland then env ++ [(chars "WAYLAND_DISPLAY", Rootfs.WAYLAND_SOCKET_IN_ZONE); pair_of ("XDG_RUNTIME_DIR", "/tmp")] else env.

(** A process's environment, as bytes. Rust splits an entry at the first equals sign past its
    first byte, so that a name may begin with one. [unsetenv] and [setenv] refuse a name that is
    empty or holds one, and a name or value with a zero byte; Rust then panics. *)
Abbreviation Vars := (list (bytes * bytes)).
Definition name_ok (k : bytes) : bool :=
  negb (bool_decide (k = [])) && negb (existsb (fun b => (Z_of_byte b =? 61) || (Z_of_byte b =? 0)) k).
Definition value_ok (v : bytes) : bool := negb (existsb (fun b => Z_of_byte b =? 0) v).
Definition without (k : bytes) (vars : Vars) : Vars := List.filter (fun e => negb (bool_decide (e.1 = k))) vars.

(** ** The process *)
Inductive Step := DiesWithParent | Entered | Loopback | Fenced | Narrowed | Swept | Dropped | Filtered.
Record Process := mkProcess {
  p_root : Rootfs.Trace;
  p_task : Landlock.Task;
  p_vars : Vars;
  p_bounding : gset Z;
  p_steps : list Step }.
(** What the kernel answers: errnos, or none. [w_gone] is whether the parent's pipe hung up. *)
Record World := mkWorld {
  w_pdeathsig : option Z;
  w_gone : bool;
  w_sys : Rootfs.Sys;
  w_loopback : option Z;
  w_landlock : Landlock.Os;
  w_last_cap : option string;
  w_drop : Z -> option Z;
  w_x86_64 : bool;
  w_kernel : Kernel;
  w_exec : option Z }.
(** The process becomes the command, or ends. *)
Inductive Ended := Exec (prog : text) (args : list text) | Exit (code : Z).
(** [bail!]: the exit code is the error. *)
Abbreviation IM := (M Process Z).

Definition on_root (t : Rootfs.Trace) (p : Process) : Process := mkProcess t (p_task p) (p_vars p) (p_bounding p) (p_steps p).
Definition on_task (t : Landlock.Task) (p : Process) : Process := mkProcess (p_root p) t (p_vars p) (p_bounding p) (p_steps p).
Definition on_vars (v : Vars) (p : Process) : Process := mkProcess (p_root p) (p_task p) v (p_bounding p) (p_steps p).
Definition on_bounding (b : gset Z) (p : Process) : Process := mkProcess (p_root p) (p_task p) (p_vars p) b (p_steps p).
Definition stepped (s : Step) : IM unit := modify (fun p => mkProcess (p_root p) (p_task p) (p_vars p) (p_bounding p) (p_steps p ++ [s])).

(** A computation of a part on its piece of the process; its error ends the process. *)
Definition within {S E A} (get : Process -> S) (set : S -> Process -> Process) (m : M S E A) : IM A := fun p =>
  match m (get p) with
  | (Done a, s) => (Done a, set s p)
  | (Fail _, s) => (Fail 125, set s p)
  | (Panic, s) => (Panic, set s p)
  end.
Definition bail_if (e : option Z) : IM unit := reject_if (bool_decide (is_Some e)) 125.

(** [std::env::remove_var] of every name, then [set_var] of every pair. *)
Definition remove_var (k : bytes) : IM unit :=
  if name_ok k then modify (fun p => on_vars (without k (p_vars p)) p) else panic.
Definition set_var (e : text * text) : IM unit :=
  let k := encode_chars e.1 in let v := encode_chars e.2 in
  if name_ok k && value_ok v then modify (fun p => on_vars (without k (p_vars p) ++ [(k, v)]) p) else panic.
Definition caller_of (all : Vars) : list (text * text) :=
  omap (fun e : bytes * bytes => k ← utf8 e.1; v ← utf8 e.2; Some (k, v)) all.
Definition rebuild_env (zone : Zone) (home : text) (wayland : bool) : IM unit :=
  all ← gets p_vars;
  let env := zone_environment zone home (caller_of all) wayland in
  for_each (fst <$> all) remove_var;;
  for_each env set_var.

Definition no_nul (s : text) : bool := negb (bool_decide (0 ∈ s)).
Definition resolver_of (network : NetworkMode) (plumbed : bool) : Rootfs.Resolver :=
  match network, plumbed with
  | Nic, true => Rootfs.Writable
  | Routed, _ => Rootfs.Bridge
  | _, _ => Rootfs.NoResolver
  end.
Definition ephemeral_size (zone : Zone) : option text :=
  match z_storage zone with Ephemeral => chars <$> z_size zone | Encrypted | Persistent => None end.

(** What a launch hands to the zone's first process. *)
Record Launch := mkLaunch {
  l_zone : Zone; l_rootfs : text; l_argv : list text; l_newnet : bool;
  l_policy : option Policy; l_fs_rules : list Landlock.ZoneRule; l_plumbed : bool;
  l_broker : text; l_wayland : option text; l_wifi_conf : option text;
  l_sound : option text; l_camera : option text; l_usr : text; l_service : bool }.
Definition root_args (l : Launch) : Rootfs.Args :=
  Rootfs.mkArgs (l_rootfs l) (chars (z_name (l_zone l))) (ephemeral_size (l_zone l)) (resolver_of (z_network (l_zone l)) (l_plumbed l))
    (Some (l_broker l)) (l_wayland l) (l_wifi_conf l) (l_sound l) (l_camera l) (l_usr l) (l_service l).

Section init.
Context `{Libc} (w : World).
Definition install_filter (policy : option Policy) : outcome unit SeccompError :=
  match policy with
  | Some p => confine_zone_with (w_x86_64 w) (w_kernel w) (extra_syscalls p) (sockets p) (keep_caps p)
  | None => confine_zone (w_x86_64 w) (w_kernel w)
  end.
Definition keep_of (policy : option Policy) : list Z := match policy with Some p => keep_caps p | None => [] end.
Definition exec (argv : list text) : IM Ended :=
  match argv with
  | [] => panic
  | prog :: _ =>
    reject_if (negb (no_nul prog)) 125;;
    match w_exec w with
    | None => mret (Exec prog (List.filter no_nul argv))
    | Some _ => mret (Exit 127)
    end
  end.
Definition is_nic (l : Launch) : bool := bool_decide (resolver_of (z_network (l_zone l)) (l_plumbed l) = Rootfs.Writable).
Definition confine (l : Launch) (home : text) : IM unit :=
  within p_task on_task (Landlock.confine_pivoted_zone (w_landlock w) home (is_nic l) (bool_decide (is_Some (l_camera l))));;
  stepped Fenced;;
  (if bool_decide (l_fs_rules l = []) then mret tt
   else within p_task on_task (Landlock.confine_further (w_landlock w) (l_fs_rules l));; stepped Narrowed).
Definition zone_init (l : Launch) : IM Ended :=
  bail_if (w_pdeathsig w);; stepped DiesWithParent;;
  reject_if (w_gone w) 125;;
  home ← within p_root on_root (Rootfs.pivot_into (w_sys w) (root_args l));
  stepped Entered;;
  (if l_newnet l then match w_loopback w with None => stepped Loopback | Some _ => mret tt end else mret tt);;
  confine l home;;
  swept ← within p_root on_root (Rootfs.close_inherited_fds (w_sys w));
  bail_if swept;; stepped Swept;;
  rebuild_env (l_zone l) home (bool_decide (is_Some (l_wayland l)));;
  within p_bounding on_bounding (drop_bounding_set_except (w_drop w) (w_last_cap w) (keep_of (l_policy l)));;
  stepped Dropped;;
  match install_filter (l_policy l) with
  | Done _ => stepped Filtered
  | Fail _ => fail 125
  | Panic => panic
  end;;
  exec (l_argv l).
End init.
End Init.

(** * A command runs confined (claims on spawn.rs, [zone_init]) *)
From S2P Require Import WifiClaims LandlockClaims RootfsClaims SeccompSpec PolicySafe Confine.
Import Init.
#[local] Transparent M_bind M_ret.
Lemma wp_unbind {S E A B} (m : M S E A) (f : A -> M S E B) Q R s : wp (m ≫= f) Q R s -> wp m (fun a => wp (f a) Q R) R s.
Proof. unfold wp, mbind, M_bind. by destruct (m s) as [[?|?|] ?]. Qed.
#[local] Opaque M_bind M_ret.

(** ** The environment *)
(** What an entry of a zone's environment may be. *)
Definition env_entry (zone : Zone) (home : text) (wayland : bool) (e : text * text) : Prop :=
  e ∈ [pair_of ("PATH", "/usr/bin:/usr/sbin:/bin:/sbin"); (chars "HOME", home); pair_of ("TMPDIR", "/tmp"); pair_of ("USER", "root");
       pair_of ("LOGNAME", "root"); pair_of ("SHELL", "/bin/sh"); (chars "KRYPTIK_ZONE", chars (z_name zone));
       pair_of ("GLIBC_TUNABLES", "glibc.cpu.x86_shstk=permissive"); pair_of ("LANG", "C.UTF-8"); pair_of ("TERM", "dumb")] \/
  (wayland = true /\ e ∈ [(chars "WAYLAND_DISPLAY", Rootfs.WAYLAND_SOCKET_IN_ZONE); pair_of ("XDG_RUNTIME_DIR", "/tmp")]) \/
  (e.1 ∈ ENV_PASSTHROUGH /\ env_value_is_sane e.2 = true).
Lemma environment_entries zone home caller wayland :
  Forall (env_entry zone home wayland) (zone_environment zone home caller wayland).
Proof.
  assert (forall e : text * text, Forall (env_entry zone home wayland) [e] <-> env_entry zone home wayland e) as Hone.
  { intros e. rewrite Forall_singleton. done. }
  unfold zone_environment. cbv zeta. set (fixed := [_; _; _; _; _; _; _; _]). set (passed := List.filter _ caller).
  assert (Forall (env_entry zone home wayland) (fixed ++ passed)) as H1.
  { apply Forall_app. split.
    - apply Forall_forall. intros e He. left. set_solver.
    - apply Forall_forall. intros e He. right; right. unfold passed in He. apply list_elem_of_In, filter_In in He as [_ [H%bool_decide_eq_true ?]%andb_true_iff]. done. }
  set (env1 := if has_key "LANG" _ then _ else _).
  assert (Forall (env_entry zone home wayland) env1) as H2.
  { unfold env1. destruct (has_key "LANG" _); [done|]. apply Forall_app. split; [done|]. apply Hone. left. set_solver. }
  set (env2 := if has_key "TERM" _ then _ else _).
  assert (Forall (env_entry zone home wayland) env2) as H3.
  { unfold env2. destruct (has_key "TERM" _); [done|]. apply Forall_app. split; [done|]. apply Hone. left. set_solver. }
  destruct wayland; [|done]. apply Forall_app. split; [done|]. apply Forall_forall. intros e He. right; left. done.
Qed.

(** *** What may be set *)
Definition plain (s : text) : Prop := Forall (fun c => 32 <= c < 128) s.
Lemma plain_byte s b : plain s -> b ∈ encode_chars s -> 32 <= Z_of_byte b < 128.
Proof.
  intros Hs Hb. pose proof (ascii_octets s Hs) as Ho. rewrite <-Ho in Hs. unfold plain in Hs. rewrite Forall_fmap, Forall_forall in Hs. by apply Hs.
Qed.
Lemma plain_value s : plain s -> value_ok (encode_chars s) = true.
Proof.
  intros Hs. unfold value_ok. apply negb_true_iff, not_true_iff_false. intros (b & Hb%list_elem_of_In & H%Z.eqb_eq)%existsb_exists.
  pose proof (plain_byte s b Hs Hb). lia.
Qed.
Lemma entry_plain zone home wayland e : plain (chars (z_name zone)) -> plain home -> env_entry zone home wayland e ->
  name_ok (encode_chars e.1) = true /\ plain e.2.
Proof.
  intros Hz Hh. assert (forallb (fun k => name_ok (encode_chars k)) ENV_PASSTHROUGH = true) as Hp by (vm_compute; reflexivity).
  rewrite forallb_Forall, Forall_forall in Hp.
  assert (forall s, forallb (fun c => between 32 127 c) s = true -> plain s) as Hc.
  { intros s H%forallb_Forall. eapply Forall_impl; [exact H|]. unfold between. cbv beta. intros c Hc. lia. }
  intros [He|[[_ He]|[Hk Hv]]].
  - repeat (apply elem_of_cons in He as [->|He]; [split; [vm_compute; reflexivity|first [done|apply Hc; vm_compute; reflexivity]]|]). by apply elem_of_nil in He.
  - repeat (apply elem_of_cons in He as [->|He]; [split; [vm_compute; reflexivity|apply Hc; vm_compute; reflexivity]|]). by apply elem_of_nil in He.
  - split; [by apply Hp|]. apply Hc. unfold env_value_is_sane in Hv. apply andb_true_iff in Hv as [_ Hv].
    rewrite forallb_Forall in Hv |- *. eapply Forall_impl; [exact Hv|]. unfold sane_char, is_digit, is_lower, between. cbv beta. intros c Hs.
    destruct (bool_decide (c ∈ chars "._+:@-")) eqn:E; [|lia]. apply bool_decide_eq_true in E.
    repeat (apply elem_of_cons in E as [->|E]; [reflexivity|]). by apply elem_of_nil in E.
Qed.

Lemma wp_remove ks : forall (Q : unit -> Process -> Prop) R p, forallb name_ok ks = true ->
  Q tt (on_vars (foldl (fun v k => without k v) (p_vars p) ks) p) -> wp (for_each ks remove_var) Q R p.
Proof.
  induction ks as [|k ks IH]; intros Q R p Hk HQ; cbn [for_each].
  - apply wp_ret. by destruct p.
  - cbn [forallb] in Hk. apply andb_true_iff in Hk as [Hk Hks]. apply wp_bind. unfold remove_var at 1. rewrite Hk. apply wp_modify. by apply IH.
Qed.
Lemma removed_all (all : Vars) : foldl (fun v k => without k v) all (fst <$> all) = [].
Proof.
  assert (forall ks v e, e ∈ foldl (fun v k => without k v) v ks -> e ∈ v /\ e.1 ∉ ks) as Hf.
  { induction ks as [|k ks IH]; intros v e He; cbn in He; [split; [done|apply not_elem_of_nil]|].
    apply IH in He as [He Hn]. unfold without in He. apply list_elem_of_In, filter_In in He as [He Hk%negb_true_iff%bool_decide_eq_false].
    split; [by apply list_elem_of_In|]. apply not_elem_of_cons. done. }
  destruct (foldl _ _ _) as [|e l] eqn:E; [done|]. destruct (Hf (fst <$> all) all e) as [H1 H2]; [rewrite E; left|].
  destruct H2. apply list_elem_of_fmap. by exists e.
Qed.
Lemma wp_set (P : text * text -> Prop) env : forall (Q : unit -> Process -> Prop) R p,
  Forall (fun e => name_ok (encode_chars e.1) = true /\ plain e.2 /\ P e) env ->
  Forall (fun b => exists e, P e /\ b = (encode_chars e.1, encode_chars e.2)) (p_vars p) ->
  (forall v, Forall (fun b => exists e, P e /\ b = (encode_chars e.1, encode_chars e.2)) v -> Q tt (on_vars v p)) -> wp (for_each env set_var) Q R p.
Proof.
  induction env as [|e env IH]; intros Q R p He Hv HQ; cbn [for_each].
  - apply wp_ret. specialize (HQ _ Hv). by destruct p.
  - inversion He as [|?? (Hn & Hp & HP) Hr]; subst. apply wp_bind. unfold set_var at 1. rewrite Hn, plain_value by done. cbn [andb]. apply wp_modify.
    apply IH; [done| |by intros v Hf; apply HQ]. cbn. apply Forall_app. split; [|repeat constructor; by exists e].
    apply Forall_forall. intros b Hb. unfold without in Hb. apply list_elem_of_In, filter_In in Hb as [Hb _]. rewrite Forall_forall in Hv. by apply Hv, list_elem_of_In.
Qed.
Lemma wp_rebuild zone home wayland (Q : unit -> Process -> Prop) R p :
  plain (chars (z_name zone)) -> plain home -> forallb name_ok (fst <$> p_vars p) = true ->
  (forall v, Forall (fun b => exists e, env_entry zone home wayland e /\ b = (encode_chars e.1, encode_chars e.2)) v -> Q tt (on_vars v p)) ->
  wp (rebuild_env zone home wayland) Q R p.
Proof.
  intros Hz Hh Hn HQ. apply wp_bind, wp_gets, wp_bind, wp_remove; [done|]. rewrite removed_all. apply (wp_set (env_entry zone home wayland)).
  - eapply Forall_impl; [apply environment_entries|]. cbv beta. intros e He. destruct (entry_plain _ _ _ _ Hz Hh He). done.
  - done.
  - intros v Hv. by apply HQ.
Qed.

(** ** The parts of the process *)
Lemma wp_within {S E A} get set (m : M S E A) (Q : A -> Process -> Prop) (R : Z -> Process -> Prop) p :
  wp m (fun a s => Q a (set s p)) (fun _ s => R 125 (set s p)) (get p) -> wp (within get set m) Q R p.
Proof. unfold wp, within. by destruct (m (get p)) as [[a|e|] s]. Qed.
Lemma wp_bail e (Q : unit -> Process -> Prop) (R : Z -> Process -> Prop) p : (e = None -> Q tt p) -> R 125 p -> wp (bail_if e) Q R p.
Proof. intros HQ HR. apply wp_reject_if; [done|]. intros He%bool_decide_eq_false. apply HQ. by apply eq_None_not_Some. Qed.

Section claims.
Context `{LibcLaws} (w : World) (l : Launch).
Abbreviation zone := (l_zone l).
Abbreviation home := (Rootfs.zone_home (chars (z_name zone))).
Abbreviation camera := (bool_decide (is_Some (l_camera l))).

(** The filter the kernel took, and what it decides. *)
Definition filtered (pol : option Policy) : Prop :=
  exists allow prog r,
    match pol with Some p => widened_for (extra_syscalls p) (keep_caps p) = Ok allow | None => allow = BASE_ALLOWLIST end /\
    attach (w_kernel w) prog SECCOMP_FILTER_FLAG_TSYNC = Ok r /\
    forall d, call_ok d -> answer prog d = Some (decision allow SECCOMP_RET_KILL_PROCESS (match pol with Some p => sockets p | None => default_sockets end) d).
Lemma widened_nothing : widened_for [] [] = Ok BASE_ALLOWLIST.
Proof. reflexivity. Qed.
Lemma default_parsed : parsed_ok (default_policy "").
Proof. pose proof (parse_ok "" "") as Hp. exact Hp. Qed.
Lemma filter_installed pol : (forall p, pol = Some p -> parsed_ok p) ->
  match install_filter w pol with Done _ => filtered pol | Fail _ => True | Panic => False end.
Proof.
  intros Hp. set (p := default (default_policy "") pol).
  assert (parsed_ok p) as Hok by (unfold p; destruct pol; [by apply Hp|apply default_parsed]).
  destruct (parsed_filter p Hok) as (allow & prog & Hw & Hb & _ & Ha).
  assert (install_filter w pol = unit_of (install_with (w_x86_64 w) (w_kernel w) allow SECCOMP_RET_KILL_PROCESS (sockets p) SECCOMP_FILTER_FLAG_TSYNC)) as ->.
  { destruct pol as [q|]; cbn in p; subst p; cbn [install_filter]; unfold confine_zone_with, confine_zone, install; [by rewrite Hw|].
    change (widened_for [] [] = Ok allow) in Hw. rewrite widened_nothing in Hw. by injection Hw as <-. }
  unfold install_with. destruct (w_x86_64 w); [|done]. cbn [negb]. rewrite Hb. destruct (attach _ _ _) as [r|e] eqn:E; [|done]. cbn.
  exists allow, prog, r. split_and!; [|done|].
  - destruct pol as [q|]; [done|]. change (widened_for [] [] = Ok allow) in Hw. rewrite widened_nothing in Hw. by injection Hw.
  - destruct pol; done.
Qed.

(** What a process has been through before it becomes the command. *)
Definition lo_steps : list Step := if l_newnet l && negb (bool_decide (is_Some (w_loopback w))) then [Loopback] else [].
Definition all_steps : list Step :=
  [DiesWithParent; Entered] ++ lo_steps ++ [Fenced] ++ (if bool_decide (l_fs_rules l = []) then [] else [Narrowed]) ++ [Swept; Dropped; Filtered].
Definition rooted (host : list Rootfs.Mnt) (t : Rootfs.Trace) : Prop :=
  exists gs, Rootfs.after host t = gs ++ [tmpfs (chars "/") 15] /\ Forall (granted (root_args l)) gs /\
    last t = Some (Rootfs.Did (Rootfs.CloseRange 3 U32_MAX) None).
Definition fenced (t : Landlock.Task) : Prop :=
  zone_confined_fs home (is_nic l) camera t /\
  (l_fs_rules l <> [] -> forall p i, Z.testbit BASE_RIGHTS i = true -> Landlock.permits t p i = true ->
    exists r, r ∈ l_fs_rules l /\ Landlock.beneath (Landlock.zr_path r) p = true /\ Z.testbit (Landlock.zr_access r) i = true).
Definition bounded (b : gset Z) : Prop :=
  forall c, 0 <= c <= last_cap (w_last_cap w) -> c ∈ b -> Caps.kept (keep_of (l_policy l)) c = true \/ w_drop w c = Some EINVAL.
Definition cleaned (v : Vars) : Prop :=
  Forall (fun b => exists e, env_entry zone home (bool_decide (is_Some (l_wayland l))) e /\ b = (encode_chars e.1, encode_chars e.2)) v.

Lemma wp_confine (Q : unit -> Process -> Prop) p :
  (forall t, fenced t -> Q tt (on_task t (mkProcess (p_root p) (p_task p) (p_vars p) (p_bounding p) (p_steps p ++ [Fenced] ++ (if bool_decide (l_fs_rules l = []) then [] else [Narrowed]))))) ->
  wp (confine w l home) Q (fun c _ => c = 125) p.
Proof.
  intros HQ. pose proof (wp_confine_fs (w_landlock w) home (is_nic l) camera (l_fs_rules l) (p_task p)) as Hc.
  unfold Landlock.confine_fs in Hc. apply wp_unbind in Hc. apply wp_bind, wp_within. eapply wp_mono; [..|exact Hc]; cbv beta; [|done].
  intros _ t1 H1. apply wp_bind, wp_modify. case_bool_decide as Hr.
  - apply wp_ret. apply (HQ t1). unfold wp in H1. Transparent M_ret. cbn in H1. Opaque M_ret. by destruct H1 as (_ & Hz & Hp & _).
  - apply wp_bind, wp_within. eapply wp_mono; [..|exact H1]; cbv beta; [|done]. intros _ t2 (_ & Hz & Hp & _). apply wp_modify. cbn. rewrite <-app_assoc. by apply (HQ t2).
Qed.

Lemma home_plain : plain (chars (z_name zone)) -> plain home.
Proof.
  intros Hn. apply Forall_app. split; [|done]. assert (forallb (fun c => between 32 127 c) (chars "/home/") = true) as Hb%forallb_Forall by (vm_compute; reflexivity).
  eapply Forall_impl; [exact Hb|]. unfold between. cbv beta. intros c Hc. lia.
Qed.
Lemma wp_close_fds (Q : option Z -> Rootfs.Trace -> Prop) (R : Rootfs.RootfsError -> Rootfs.Trace -> Prop) t :
  (forall r, Q r (t ++ [Rootfs.Did (Rootfs.CloseRange 3 U32_MAX) r])) -> wp (Rootfs.close_inherited_fds (w_sys w)) Q R t.
Proof. intros HQ. apply HQ. Qed.
Lemma wp_drop b (Q : unit -> gset Z -> Prop) (R : CapError -> gset Z -> Prop) :
  (forall b', bounded b' -> Q tt b') -> (forall e b', R e b') -> wp (drop_bounding_set_except (w_drop w) (w_last_cap w) (keep_of (l_policy l))) Q R b.
Proof.
  intros HQ HR. eapply wp_mono; [..|apply drop_sweep]; cbv beta; [|auto]. intros [] b' Hb. apply HQ. intros c Hc Hin.
  apply Hb in Hin as [_ Hk]. apply Hk. apply elem_of_seqZ. lia.
Qed.
Definition becomes (host : list Rootfs.Mnt) (p p' : Process) (prog : text) (args : list text) : Prop :=
  p_steps p' = p_steps p ++ all_steps /\ rooted host (p_root p') /\ fenced (p_task p') /\ bounded (p_bounding p') /\ cleaned (p_vars p') /\
  filtered (l_policy l) /\ head (l_argv l) = Some prog /\ args = List.filter no_nul (l_argv l).
Lemma wp_exec p (Q : Ended -> Process -> Prop) : l_argv l <> [] ->
  (forall prog, head (l_argv l) = Some prog -> Q (Exec prog (List.filter no_nul (l_argv l))) p) -> Q (Exit 127) p -> wp (exec w (l_argv l)) Q (fun c _ => c = 125) p.
Proof.
  intros Hne HQ HE. unfold exec. destruct (l_argv l) as [|prog args]; [done|]. apply wp_bind, wp_reject_if; [done|]. intros _.
  destruct (w_exec w); apply wp_ret; [done|by apply HQ].
Qed.
Lemma wp_loopback (Q : unit -> Process -> Prop) (R : Z -> Process -> Prop) p :
  Q tt (mkProcess (p_root p) (p_task p) (p_vars p) (p_bounding p) (p_steps p ++ lo_steps)) ->
  wp (if l_newnet l then match w_loopback w with None => stepped Loopback | Some _ => mret tt end else mret tt) Q R p.
Proof.
  intros HQ. unfold lo_steps in HQ. destruct (l_newnet l), (w_loopback w); cbn in HQ; try (by apply wp_modify); apply wp_ret; rewrite app_nil_r in HQ; by destruct p.
Qed.
Lemma wp_zone_init host p :
  (forall q, l_policy l = Some q -> parsed_ok q) -> p_root p = [] -> Forall (fun m => head (Rootfs.m_at m) = Some 47) host ->
  l_argv l <> [] -> plain (chars (z_name zone)) -> forallb name_ok (fst <$> p_vars p) = true ->
  wp (zone_init w l) (fun e p' => match e with Exec prog args => becomes host p p' prog args | Exit c => c = 127 end) (fun c _ => c = 125) p.
Proof.
  intros Hpol Hroot Hhost Hargv Hname Hvars. unfold zone_init. apply wp_bind, wp_bail; [intros _|done]. apply wp_bind, wp_modify.
  apply wp_bind, wp_reject_if; [done|intros _]. apply wp_bind, wp_within. cbn [p_root]. rewrite Hroot.
  eapply wp_mono; [..|by apply (wp_pivot_into (w_sys w) host (root_args l) [])]; cbv beta; [|done]. intros ? t1 (_ & -> & gs & Ht & Hg & _).
  change (Rootfs.zone_home (Rootfs.a_zone (root_args l))) with home. apply wp_bind, wp_modify.
  apply wp_bind, wp_loopback. apply wp_bind, wp_confine. intros t2 Hf. apply wp_bind, wp_within, wp_close_fds. intros r.
  apply wp_bind, wp_bail; [intros ->|done]. apply wp_bind, wp_modify. apply wp_bind, wp_rebuild; [done|by apply home_plain|done|]. intros v Hv.
  apply wp_bind, wp_within, wp_drop; [|done]. intros b Hb. apply wp_bind, wp_modify. apply wp_bind.
  pose proof (filter_installed (l_policy l) Hpol) as Hi. destruct (install_filter w (l_policy l)) as [u|e|]; [|by apply wp_fail|done].
  apply wp_modify, wp_exec; [done| |done]. intros prog Hprog. unfold becomes. cbn [p_steps p_root p_task p_vars p_bounding on_root on_task on_vars on_bounding].
  split_and!; [|exists gs|done..].
  - rewrite <-!app_assoc. done.
  - rewrite after_snoc, last_snoc. done.
Qed.

(** C17: whatever the kernel answers, the first process of a zone becomes its
    command only with everything done, in order: it dies with its parent, its root is the sealed
    one with nothing of the host's mounts, Landlock is on with the policy file's layer where there
    is one, every inherited descriptor is closed, its environment holds only the zone's own
    entries and plain locale and terminal names, the bounding set is swept, and the kernel has
    taken the filter that decides as the reference says. Otherwise it ends with 125, or 127 when
    the command could not be run, and it never panics. *)
Theorem launched_confined (host : list Rootfs.Mnt) (p : Process) :
  (forall q, l_policy l = Some q -> exists text src, parse text src = Done q) ->
  p_root p = [] -> Forall (fun m => head (Rootfs.m_at m) = Some 47) host ->
  l_argv l <> [] -> plain (chars (z_name zone)) -> forallb name_ok (fst <$> p_vars p) = true ->
  match zone_init w l p with
  | (Done (Exec prog args), p') => becomes host p p' prog args
  | (Done (Exit code), _) => code = 127
  | (Fail code, _) => code = 125
  | (Panic, _) => False
  end.
Proof.
  intros Hpol Hroot Hhost Hargv Hname Hvars. enough (wp (zone_init w l) (fun e p' => match e with Exec prog args => becomes host p p' prog args | Exit c => c = 127 end) (fun c _ => c = 125) p) as Hw.
  { unfold wp in Hw. by destruct (zone_init w l p) as [[[prog args|c]|c|] p']. }
  apply wp_zone_init; [|done..]. intros q (text & src & Hq)%Hpol. pose proof (parse_ok text src) as Hp. by rewrite Hq in Hp.
Qed.
End claims.

(** ** A launch *)
Definition demo_zone : Zone :=
  mkZone "mail" "" Routed None false Persistent None None None None None None None None "" None None None (Some 131072) [] None [] false false false false.
Definition demo_world : World :=
  mkWorld None false (RootfsClaims.demo_kernel (fun _ => false)) None (Landlock.mkOs (fun _ => 7) (fun _ _ _ => None) (fun _ _ => None) (fun _ _ _ => None) (fun _ => None) (fun _ => None) (fun _ _ => true))
    (Some "40") (fun _ => None) true {| prctl_nnp := (0, 0); sys_seccomp := fun _ _ _ => (0, 0) |} None.
Definition demo_launch : Launch :=
  mkLaunch demo_zone (chars "/state/zones/mail") [chars "/usr/bin/mutt"; chars "-R"] true None [] true (chars "/proc/self/fd/4") (Some (chars "/proc/self/fd/5")) None None None (chars "/usr") false.
Definition demo_process (vars : Vars) : Process := mkProcess [] (Landlock.mkTask false [] 0) vars (list_to_set (seqZ 0 41)) [].
Definition demo_vars : Vars := [(as_bytes "LANG", as_bytes "de_DE.UTF-8"); (as_bytes "LD_PRELOAD", as_bytes "/tmp/x.so")].
Definition demo_ran (vars : Vars) := @zone_init x86_64_libc demo_world demo_launch (demo_process vars).

Example demo_exec : (demo_ran demo_vars).1 = Done (Exec (chars "/usr/bin/mutt") [chars "/usr/bin/mutt"; chars "-R"]).
Proof. vm_compute. reflexivity. Qed.
Lemma launched_confined_witness :
  exists p', demo_ran demo_vars = (Done (Exec (chars "/usr/bin/mutt") [chars "/usr/bin/mutt"; chars "-R"]), p') /\
    @becomes x86_64_libc demo_world demo_launch RootfsClaims.demo_host (demo_process demo_vars) p' (chars "/usr/bin/mutt") [chars "/usr/bin/mutt"; chars "-R"].
Proof.
  assert (Forall (fun m => head (Rootfs.m_at m) = Some 47) RootfsClaims.demo_host) as Hh by (repeat constructor).
  assert (plain (chars (z_name (l_zone demo_launch)))) as Hn by (repeat constructor; discriminate).
  assert (l_argv demo_launch <> []) as Ha by discriminate.
  assert (forall q, l_policy demo_launch = Some q -> exists text src, @parse x86_64_libc text src = Done q) as Hq by (intros q Hq; discriminate Hq).
  pose proof (@launched_confined x86_64_libc x86_64_laws demo_world demo_launch RootfsClaims.demo_host (demo_process demo_vars) Hq eq_refl Hh Ha Hn eq_refl) as Hl.
  assert ((demo_ran demo_vars).1 = Done (Exec (chars "/usr/bin/mutt") [chars "/usr/bin/mutt"; chars "-R"])) as Hr by (vm_compute; reflexivity).
  unfold demo_ran in *. destruct (zone_init demo_world demo_launch (demo_process demo_vars)) as [r p']. cbn [fst] in Hr. subst r. exists p'. split; [reflexivity|exact Hl].
Defined.

(** Of the caller's environment the language is kept and the preload is not. *)
Example demo_environment :
  existsb (fun e => bool_decide (e = (as_bytes "LANG", as_bytes "de_DE.UTF-8"))) (p_vars (demo_ran demo_vars).2) = true /\
  existsb (fun e => bool_decide (e.1 = as_bytes "LD_PRELOAD")) (p_vars (demo_ran demo_vars).2) = false.
Proof. vm_compute. split; reflexivity. Qed.

(** An entry of the caller's environment that begins with an equals sign has a name [unsetenv]
    refuses: the zone's first process panics instead of starting the command. *)
Example env_panics : (demo_ran [(as_bytes "=a", as_bytes "b")]).1 = Panic.
Proof. vm_compute. reflexivity. Qed.
